(* ===== verification/_CoqProject ===== *)
-Q . S2P
Prelude.v
ByteOrder.v
Stats.v
RateLimit.v
Headers.v
Checksum.v
PacketSplit.v
Output.v
OutputFile.v
Datagram.v
OutputGre.v
OutputVxlan.v
ZmqFormat.v
OutputZmq.v
RingBuffer.v
Allocator.v
Pipeline.v
ReqPattern.v
PacketDir.v
IfUtil.v
PatternMemory.v
Capture.v
BpfFilter.v
Resources.v
Dpdk.v
Lifecycle.v
TaskManager.v
Receiver.v
Delivery.v
Options.v
Decimal.v
Affinity.v
Messages.v
CJson.v
JsonParse.v
JsonSafety.v
JsonGrammar.v
JsonPrint.v
JsonRender.v
JsonText.v
JsonBuild.v
JsonNames.v
JsonList.v
JsonSort.v
JsonCopy.v
JsonObject.v
JsonMinify.v
JsonMerge.v
JsonPointer.v
JsonPatch.v
Config.v
ConfigSafety.v
ConfigRoundtrip.v
ConfigText.v
Commands.v
UnixManager.v
Control.v
Reload.v
ReloadSafety.v
ReloadEffect.v
