(* ===== verification/Prelude.v ===== *)
(** * Cloud Probe worker: a verification library

    ** The program

    [cpworker] captures packets on the interfaces of a host and forwards them
    to remote analysers.  A task is a capturer (libpcap, a packet file, or a
    DPDK ring) and a list of outputs (null, file, rotating file, GRE, VXLAN,
    ZMQ).  The configuration, a JSON file, names the tasks; a control socket
    accepts commands, one of which reloads the configuration while packets
    flow.  The packet handlers either call the outputs directly (run to
    completion) or pass the packet through a ring to an output thread
    (pipeline).  Each output judges the direction of the packet, limits its
    rate, slices it and sends it, and all outputs count into one set of
    counters.  [recvzmq] is the tool that receives ZMQ batches.

    ** Files and sources (paths below src/)

    Support
    - [Prelude]: arithmetic, list and bounds-checked array lemmas, automation.
    - [ByteOrder]: loads and stores of header fields, host/network order
      (cpworker/src/byteorder.h).
    - [Headers]: offsets and constants of the protocol headers (ip.h, tcp.h,
      udp.h, vlan.h, vxlan.h, gre.h, mpls.h).

    The packet path (cpworker/src)
    - [Capture]: one call of each capturer, drop counters, and the polling
      loop (libpcap.c, pcap_file.c, dpdk/pdump.c, task.c).
    - [BpfFilter]: rewriting of the capture filter (bpf_util.c, ip.c).
    - [ReqPattern], [PatternMemory], [PacketDir]: request patterns, their
      parser with its heap, and the direction of a packet (req_pattern.c,
      ip.c); [IfUtil]: the addresses of interfaces (if_util.c).
    - [Stats], [RateLimit]: traffic counters (stats.c) and the token bucket
      (ratelimit.c).
    - [Checksum], [PacketSplit]: cutting a large packet into smaller valid
      ones (packet_split.c).
    - [Output]: the interface of the outputs, as the classes [OutputOps] and
      [OutputLaws] (output.h).
    - [OutputFile], [Datagram], [OutputGre], [OutputVxlan], [ZmqFormat],
      [OutputZmq]: the outputs (output_null.c, output_file.c,
      output_rotating_file.c, output_gre.c, output_vxlan.c, output_zmq.c) and
      the receiver's decoder (cptools/recvzmq/main.c).  Each output discharges
      [OutputLaws].  [Receiver]: the process of the receiver; [Delivery]: a
      run of the ZMQ output joined to a run of the receiver.
    - [RingBuffer], [Allocator]: the ring between the threads, the budget of
      its messages, the byte pool (ring_buffer.c).
    - [Pipeline]: the handlers of task.c in both modes, over any list of
      outputs that satisfy the interface.

    The control path (cpworker/src)
    - [Decimal]: reading and printing of decimal numbers ([strtod] and the
      conversions of [printf] the code uses).
    - [JsonParse], [JsonSafety], [JsonGrammar]: cJSON's text parser, its
      memory, and the grammar it reads (cJSON/cJSON.c).
    - [JsonPrint], [JsonRender]: cJSON's printer and the text it writes;
      [JsonText]: printing and parsing together.
    - [JsonBuild], [JsonCopy], [JsonObject]: building trees, copying them, and
      changing the members of an object; [JsonList]: the linked lists below
      them; [JsonMinify]: stripping a text (cJSON/cJSON.c).
    - [JsonNames], [JsonSort], [JsonMerge], [JsonPointer], [JsonPatch]:
      comparing names, sorting members, merge patches, JSON pointers and JSON
      patches (cJSON/cJSON_Utils.c).
    - [CJson]: JSON values and their readers (cjson_utils.c).
    - [Config], [ConfigSafety], [ConfigRoundtrip], [ConfigText]: the
      configuration file, from its text to the configuration (config.c,
      config.h).
    - [Resources]: the store of resources in which constructors and
      destructors run, the rules to reason about them, and the request
      pattern of a capturer in it (req_pattern.c); [Dpdk], [Lifecycle],
      [TaskManager]: construction and destruction of the DPDK capturer
      (dpdk/pdump.c), of the other capturers, the outputs and the tasks, of
      the task manager and its threads, and the start and the end of the
      process (task.c, libpcap.c, pcap_file.c, the output files, main.c).
    - [Affinity]: lists of CPUs (affinity_linux.c); [Messages]: error messages
      and log lines (errorf.c, log.c).
    - [UnixManager]: the control socket (unix-manager.c); [Commands],
      [Control]: the commands behind it (unix_rpc_basic.c, task.c).
    - [Reload], [ReloadSafety], [ReloadEffect]: reloading while packets flow,
      what it keeps safe and what it achieves (task.c).
    - [Options]: the command lines of both programs (main.c,
      cptools/recvzmq/main.c).

    ** How the code is modelled

    A machine integer is a [Z] with its wrap-around written out where the
    code can reach it.  Memory is a list of bytes (or of characters) with
    bounds-checked accesses: [None], [UB] or a crash stands for an access out
    of bounds, a use after free or a double free, and the theorems show that
    none is reached, or name the inputs on which one is.  Allocation, files,
    sockets and library handles are kept in explicit stores; any acquisition
    may fail.  Where the code is known to go wrong when a step fails, the
    model has an outcome of its own ([Resources.fault]: a [malloc] that is not
    checked, a stream closed twice, a packet dump into memory that was freed,
    a message used as a format), and the theorems say when it can occur.  Threads are step relations
    over the synchronisation points of the code, in any interleaving.  Code
    outside the repository is a parameter or an input: system calls, libpcap,
    DPDK, ZMQ, [inet_pton] and [inet_ntop], the address of an interface, the
    clock.  [strtod] and [printf] are modelled for the formats the code uses,
    in the C locale, with doubles as IEEE 754 binary64.

    ** What the theorems show

    - Packet splitting: the parser accepts exactly the splittable packets;
      every fragment is a valid packet; the fragments put together are the
      payload.  The vectorised checksum is the textbook one.
    - Outputs: what each output puts on the wire or in a file, on every
      branch, and that a receiver reads it back; a packet is counted exactly
      once.
    - Rate limiter, counters: the bits granted to a burst are bounded; the
      two-word counters denote the exact sums.
    - Ring, allocator: the concurrent ring is a FIFO queue and loses nothing;
      the budget is exact.
    - Pipeline: both modes deliver the same; every packet is accounted for;
      the retry loops make progress.
    - Capture and filters: every captured packet is counted and handed over
      once; drop counters survive the 32-bit kernel counters; packet files
      are read once; the filter rewriting computes its specification.
    - Direction: the pattern parser decides the grammar, printing and
      parsing agree, its heap is balanced on every path, and the judgement is
      the documented one.
    - Receiver: for the batches of a sender it writes the sender's records,
      and gives back what it acquired.  Joined to a sender, its file holds in
      order just the packets that the sender counts as forwarded.
    - JSON: for every text and every failing allocation the parser stays in
      bounds and gives back what it does not return; it reads every text of
      the grammar of RFC 8259 into its value; the printer writes exactly the
      text of a tree; printing and parsing are inverse.  The operations on
      the sibling pointers are those of lists, and the operations on members
      those of maps from names in order of insertion; a copy that fails
      leaves nothing behind; a minified text has the value of the original;
      sorting sorts; the pointer of an item leads back to it; merge patches
      and JSON patches lead from the old value to the new one, on a document
      whose links no sorting has left stale.  Where these
      fail (a backslash before a quote, an object that was sorted, upper case
      in nested names, a slash in the name of a patched member) a lemma shows
      it.
    - Tasks and reload: the creation of a task gives back what it acquired
      wherever it fails, with the exceptions named above.  In a reload
      nothing is leaked, freed twice or used after it was freed, the partial
      lists of a reload that fails included, in every interleaving of the
      threads; except for the shutdown race, which is exhibited.  A reload under way can
      always be finished; it goes on polling the tasks that stay, and ends
      with each task of the configuration in force running or recorded as an
      error.
    - Configuration: parsing is memory safe for every failure and every file
      but those with a custom pattern that is no object, whose message is
      formatted without its argument;
      what is accepted is in range; every configuration in range is accepted,
      in any layout of its text, and so is what cJSON prints of it.
    - Control socket: as long as the descriptors fit an [fd_set], no
      descriptor or client struct is lost or used after it is closed; a request reaches its command once, however it is cut;
      the commands answer what they promise or report failure, and a client
      that asks for the statistics reads the counters.
    - Process: the manager is destroyed after its threads were joined (the
      end while a reload is under way is the shutdown race above); every
      configured task ends up among the tasks or the errors; the main loop
      does its periodic work on time; the option parsers accept the documented
      command lines with the values given.  The parser of CPU lists ends except on
      a range up to the largest integer; messages stay inside their buffers.
      A DPDK capturer that is alone leaks at most what the theorem names and
      frees the ring under the dump that fills it; two of them free one ring
      twice.

    ** Fuel and bounds

    Loops that are not structural take fuel, and each theorem about such a
    loop shows that its fuel suffices:
    - [PacketSplit.parse_fuel], [OutputZmq.l2_loop], [PacketDir.tags_fuel] and
      [ether_fuel]: each round consumes bytes of the packet, and the fuel is
      the number of rounds the captured length allows;
    - [ReqPattern.parse_fuel]: each nested call consumes a token, and there
      are no more tokens than characters;
    - [Datagram.send_fuel] is 11: the loop gives up after ten retries;
    - [BpfFilter.grow_fuel] is 66: doubling a positive 64-bit size;
    - [UnixManager.send_fuel]: one round per answer of the kernel, and two;
      [recv_loop]: each round adds a byte to a buffer of 4096;
    - [JsonParse.parse_value_fuel] is 1001: the nesting limit is 1000; the
      loops over a text, a string or a container have one more than the
      number of bytes of the text;
    - [JsonSort.sort_list] and [merge]: the length of the list;
      [JsonMinify]: the length of the buffer, every round reads a byte;
      [JsonMerge.generate_sorting]: the depth of the old value;
      [JsonPointer.follow], [JsonPatch.decode_loop]: the length of the text;
      [JsonPatch.patch_object]: the number of members;
    - [Options.opts_loop]: the size of the command line, every round consumes
      a character or an argument;
    - [Decimal.dec_fuel]: a number has fewer decimal than binary digits;
    - [Affinity.cpu_set_parse]: its inner loop takes the fuel as an argument,
      since it does not always end.

    ** Not modelled

    - What happens between the start and the end of the process in one piece:
      the rounds of the main loop, the packets, the control socket and the
      reloads are modelled each by themselves.
    - Of cJSON, which is vendored, [cJSON_Compare], which nothing calls, and
      the failure of allocations in patches and pointers.
    - The initialisation of DPDK and its monitor, which nothing calls.
    - The registration of signals, the texts printed for a user (usage,
      version, the receiver's periodic report), and the stubs of other
      platforms.
    - The programs written in Go. *)

From stdpp Require Import prelude list list_numbers.

#[global] Open Scope Z_scope.

(** ** Automation *)

(** Linear arithmetic in the presence of [/] and [mod] by constants. *)
Ltac zlia := Z.div_mod_to_equations; lia.

Create HintDb cprobe.

(** Turn boolean comparisons on [Z] in the context and the goal into
    propositions. *)
Ltac breflect :=
  repeat match goal with
  | H : (_ && _) = true |- _ => apply andb_true_iff in H; destruct H
  | H : (_ || _) = false |- _ => apply orb_false_iff in H; destruct H
  | H : negb _ = true |- _ => apply negb_true_iff in H
  | H : negb _ = false |- _ => apply negb_false_iff in H
  | H : (_ <=? _) = true |- _ => apply Z.leb_le in H
  | H : (_ <=? _) = false |- _ => apply Z.leb_gt in H
  | H : (_ <? _) = true |- _ => apply Z.ltb_lt in H
  | H : (_ <? _) = false |- _ => apply Z.ltb_ge in H
  | H : (_ =? _) = true |- _ => apply Z.eqb_eq in H
  | H : (_ =? _) = false |- _ => apply Z.eqb_neq in H
  end.

(** Case analysis on the first boolean test of the goal. *)
Ltac bcase :=
  match goal with
  | |- context [if ?b then _ else _] =>
      lazymatch b with
      | context [if _ then _ else _] => fail
      | _ => let E := fresh "E" in destruct b eqn:E; breflect
      end
  end.

(** Reduce a bind whose first action is known, and nothing else. *)
Ltac obind := cbn [mbind option_bind].
Tactic Notation "obind_in" hyp(H) := cbn [mbind option_bind] in H.

(** ** Machine integers

    A C integer is a [Z]; an assignment to a w-bit object wraps it. *)

Definition u8 (x : Z) : Z := x mod 256.
Definition u16 (x : Z) : Z := x mod 65536.
Definition u32 (x : Z) : Z := x mod 4294967296.
Definition u64 (x : Z) : Z := x mod 18446744073709551616.

Lemma u8_small x : 0 <= x < 256 -> u8 x = x.
Proof. apply Z.mod_small. Qed.

Lemma u16_small x : 0 <= x < 65536 -> u16 x = x.
Proof. apply Z.mod_small. Qed.

Lemma u32_small x : 0 <= x < 4294967296 -> u32 x = x.
Proof. apply Z.mod_small. Qed.

Lemma u64_small x : 0 <= x < 18446744073709551616 -> u64 x = x.
Proof. apply Z.mod_small. Qed.

Lemma u8_range x : 0 <= u8 x < 256.
Proof. unfold u8. zlia. Qed.

Lemma u16_range x : 0 <= u16 x < 65536.
Proof. unfold u16. zlia. Qed.

Lemma u32_range x : 0 <= u32 x < 4294967296.
Proof. unfold u32. zlia. Qed.

Lemma u64_range x : 0 <= u64 x < 18446744073709551616.
Proof. unfold u64. zlia. Qed.

#[export] Hint Resolve u8_range u16_range u32_range u64_range : cprobe.

Lemma u32_add_l x y : u32 (u32 x + y) = u32 (x + y).
Proof. unfold u32. apply Zplus_mod_idemp_l. Qed.

Lemma u32_add_r x y : u32 (x + u32 y) = u32 (x + y).
Proof. unfold u32. apply Zplus_mod_idemp_r. Qed.

Lemma u32_idem x : u32 (u32 x) = u32 x.
Proof. unfold u32. apply Zmod_mod. Qed.

Create HintDb u32db.
#[export] Hint Rewrite u32_add_l u32_add_r u32_idem : u32db.

(** Push the wrap-around of a chain of 32-bit additions outwards. *)
Ltac u32_norm :=
  repeat (rewrite <- ?Z.add_assoc; rewrite u32_add_l); autorewrite with u32db.

(** ** Lists indexed by [Z] *)

Definition zlen {A} (l : list A) : Z := Z.of_nat (length l).

Lemma zlen_nonneg {A} (l : list A) : 0 <= zlen l.
Proof. unfold zlen. lia. Qed.

#[export] Hint Resolve zlen_nonneg : cprobe.

Lemma zlen_app {A} (l1 l2 : list A) : zlen (l1 ++ l2) = zlen l1 + zlen l2.
Proof. unfold zlen. rewrite length_app. lia. Qed.

Lemma zlen_cons {A} (x : A) l : zlen (x :: l) = 1 + zlen l.
Proof. unfold zlen. simpl. lia. Qed.

Lemma zlen_nil {A} : zlen (@nil A) = 0.
Proof. reflexivity. Qed.

Lemma zlen_fmap {A B} (f : A -> B) l : zlen (f <$> l) = zlen l.
Proof. unfold zlen. by rewrite length_fmap. Qed.

Lemma zlen_0_nil {A} (l : list A) : zlen l = 0 -> l = [].
Proof. unfold zlen. destruct l; simpl; [done | lia]. Qed.

Lemma zlen_take {A} (n : nat) (l : list A) :
  zlen (take n l) = Z.min (Z.of_nat n) (zlen l).
Proof. unfold zlen. rewrite length_take. lia. Qed.

Lemma zlen_drop {A} (n : nat) (l : list A) :
  zlen (drop n l) = Z.max 0 (zlen l - Z.of_nat n).
Proof. unfold zlen. rewrite length_drop. lia. Qed.

Create HintDb zlen.
#[export] Hint Rewrite @zlen_app @zlen_cons @zlen_nil @zlen_fmap : zlen.

Definition zsum (l : list Z) : Z := foldr Z.add 0 l.

Lemma zsum_app l1 l2 : zsum (l1 ++ l2) = zsum l1 + zsum l2.
Proof. induction l1; simpl; lia. Qed.

Lemma zsum_cons x l : zsum (x :: l) = x + zsum l.
Proof. reflexivity. Qed.

Lemma zsum_nonneg l : Forall (fun x => 0 <= x) l -> 0 <= zsum l.
Proof. induction 1 as [|x l Hx _ IH]; [done|]. rewrite zsum_cons. lia. Qed.

Lemma zsum_insert {A} (f : A -> Z) l i x y :
  l !! i = Some x -> zsum (f <$> <[i := y]> l) = zsum (f <$> l) - f x + f y.
Proof.
  revert i. induction l as [|z l IH]; intros [|i]; try done.
  - intros [= ->]. cbn [insert list_insert]. rewrite !fmap_cons, !zsum_cons. lia.
  - intros E. specialize (IH i E). change (<[S i := y]> (z :: l)) with (z :: <[i := y]> l).
    rewrite !fmap_cons, !zsum_cons, IH. lia.
Qed.

Lemma zsum_lookup_le {A} (f : A -> Z) l i x :
  Forall (fun y => 0 <= f y) l -> l !! i = Some x -> f x <= zsum (f <$> l).
Proof.
  intros Hf. revert i. induction Hf as [|z l Hz Hl IH]; intros [|i]; try done.
  - intros [= ->]. rewrite fmap_cons, zsum_cons. enough (0 <= zsum (f <$> l)) by lia.
    apply zsum_nonneg. by apply Forall_fmap.
  - intros E. specialize (IH i E). rewrite fmap_cons, zsum_cons. lia.
Qed.

Lemma cons_eq {A} (a b : A) l l' : a = b -> l = l' -> a :: l = b :: l'.
Proof. congruence. Qed.

(** Induction two elements at a time. *)
Lemma pair_list_ind {A} (P : list A -> Prop) :
  P [] -> (forall x, P [x]) -> (forall x y l, P l -> P (x :: y :: l)) -> forall l, P l.
Proof. intros H0 H1 H2. fix IH 1. intros [|x [|y l]]; [done|done|]. apply H2, IH. Qed.

(** Split an equality of explicit lists into its elements. *)
Ltac list_eq := repeat apply cons_eq; try reflexivity.

(** ** Byte memory

    A C array of bytes of size [cap] is a list: byte [i] of the array is
    element [i], and every byte past the end of the list is zero (a
    [calloc]ed array starts as the empty list).  The size travels beside
    the list, and an access outside [0, cap) is [None], undefined behaviour.
    A read-only packet is the same with [cap] its number of bytes. *)

Definition byte_ok (x : Z) : Prop := 0 <= x < 256.

Definition bytes_ok (l : list Z) : Prop := Forall byte_ok l.

Definition bget (b : list Z) (i : Z) : Z := default 0 (b !! Z.to_nat i).

(** Evaluate reads at constant offsets of explicit lists. *)
Ltac bget_concrete :=
  unfold bget;
  repeat match goal with
  | |- context [Z.to_nat ?z] =>
      let v := eval vm_compute in (Z.to_nat z) in change (Z.to_nat z) with v
  end;
  cbn [lookup list_lookup from_option id].

(** The [n] bytes of the array from [off] on. *)
Definition bslice (b : list Z) (off n : Z) : list Z := bget b <$> seqZ off n.

(** Overwrite the array from [off] on with [d]. *)
Definition bput (b : list Z) (off : Z) (d : list Z) : list Z :=
  bslice b 0 off ++ d ++ drop (Z.to_nat (off + zlen d)) b.

Definition in_bounds (cap off n : Z) : bool :=
  (0 <=? off) && (0 <=? n) && (off + n <=? cap).

(** [memcpy] out of an array, and into it. *)
Definition bread (cap : Z) (b : list Z) (off n : Z) : option (list Z) :=
  if in_bounds cap off n then Some (bslice b off n) else None.

Definition bwrite (cap : Z) (b : list Z) (off : Z) (d : list Z) : option (list Z) :=
  if in_bounds cap off (zlen d) then Some (bput b off d) else None.

Lemma in_bounds_true cap off n :
  0 <= off -> 0 <= n -> off + n <= cap -> in_bounds cap off n = true.
Proof. intros. unfold in_bounds. rewrite !andb_true_iff, !Z.leb_le. lia. Qed.

Lemma in_bounds_spec cap off n :
  in_bounds cap off n = true -> 0 <= off /\ 0 <= n /\ off + n <= cap.
Proof. unfold in_bounds. intros H. breflect. lia. Qed.

Lemma bread_ok cap b off n :
  0 <= off -> 0 <= n -> off + n <= cap -> bread cap b off n = Some (bslice b off n).
Proof. intros. unfold bread. by rewrite in_bounds_true. Qed.

Lemma bwrite_ok cap b off d :
  0 <= off -> off + zlen d <= cap -> bwrite cap b off d = Some (bput b off d).
Proof. intros. unfold bwrite. rewrite in_bounds_true; auto with cprobe. Qed.

Lemma bslice_length b off n : length (bslice b off n) = Z.to_nat n.
Proof. unfold bslice. by rewrite length_fmap, length_seqZ. Qed.

Lemma bslice_zlen b off n : 0 <= n -> zlen (bslice b off n) = n.
Proof. intros. unfold zlen. rewrite bslice_length. lia. Qed.

Lemma bslice_nil b off n : n <= 0 -> bslice b off n = [].
Proof. intros. unfold bslice. by rewrite seqZ_nil by lia. Qed.

Lemma bslice_lookup b off n (i : nat) :
  Z.of_nat i < n -> bslice b off n !! i = Some (bget b (off + Z.of_nat i)).
Proof. intros. unfold bslice. rewrite list_lookup_fmap, lookup_seqZ_lt by lia. done. Qed.

Lemma bget_bslice b off n i :
  0 <= i < n -> bget (bslice b off n) i = bget b (off + i).
Proof.
  intros. unfold bget at 1. rewrite bslice_lookup by lia. simpl.
  f_equal. lia.
Qed.

Lemma bget_default b i : zlen b <= i -> bget b i = 0.
Proof. unfold bget, zlen. intros. by rewrite lookup_ge_None_2 by lia. Qed.

Lemma bget_app b1 b2 i :
  0 <= i ->
  bget (b1 ++ b2) i = if i <? zlen b1 then bget b1 i else bget b2 (i - zlen b1).
Proof.
  intros. unfold bget, zlen. bcase.
  - by rewrite lookup_app_l by lia.
  - rewrite lookup_app_r by lia. do 2 f_equal. lia.
Qed.

Lemma bget_app_l b1 b2 i : 0 <= i < zlen b1 -> bget (b1 ++ b2) i = bget b1 i.
Proof. intros. rewrite bget_app by lia. bcase; [done | lia]. Qed.

Lemma bget_app_r b1 b2 i : zlen b1 <= i -> bget (b1 ++ b2) i = bget b2 (i - zlen b1).
Proof. intros. pose proof (zlen_nonneg b1). rewrite bget_app by lia. bcase; [lia | done]. Qed.

Lemma bget_drop b n i :
  0 <= n -> 0 <= i -> bget (drop (Z.to_nat n) b) i = bget b (n + i).
Proof. intros. unfold bget. rewrite lookup_drop. do 2 f_equal. lia. Qed.

(** The effect of a write, byte by byte. *)
Lemma bget_bput b off d i :
  0 <= off -> 0 <= i ->
  bget (bput b off d) i =
    if (off <=? i) && (i <? off + zlen d) then bget d (i - off) else bget b i.
Proof.
  intros. unfold bput. pose proof (zlen_nonneg d).
  rewrite bget_app, bslice_zlen by lia.
  destruct (Z.ltb_spec i off).
  - rewrite bget_bslice by lia.
    destruct (Z.leb_spec off i); [lia|]. done.
  - rewrite bget_app by lia.
    destruct (Z.leb_spec off i); [|lia]. simpl.
    destruct (Z.ltb_spec i (off + zlen d)), (Z.ltb_spec (i - off) (zlen d)); try lia.
    rewrite bget_drop by lia. f_equal. lia.
Qed.

Lemma bget_bput_in b off d i :
  0 <= off -> off <= i < off + zlen d -> bget (bput b off d) i = bget d (i - off).
Proof.
  intros. rewrite bget_bput by lia.
  destruct (Z.leb_spec off i), (Z.ltb_spec i (off + zlen d)); try lia; done.
Qed.

Lemma bget_bput_out b off d i :
  0 <= off -> 0 <= i -> i < off \/ off + zlen d <= i -> bget (bput b off d) i = bget b i.
Proof.
  intros. rewrite bget_bput by lia.
  destruct (Z.leb_spec off i), (Z.ltb_spec i (off + zlen d)); try lia; done.
Qed.

(** Two slices are equal when they agree byte by byte. *)
Lemma bslice_ext b1 b2 o1 o2 n :
  (forall i, 0 <= i < n -> bget b1 (o1 + i) = bget b2 (o2 + i)) ->
  bslice b1 o1 n = bslice b2 o2 n.
Proof.
  intros H. apply list_eq. intros i.
  destruct (Z.ltb_spec (Z.of_nat i) n).
  - rewrite !bslice_lookup by lia. rewrite H; [done | lia].
  - rewrite !lookup_ge_None_2; rewrite ?bslice_length; [done | lia | lia].
Qed.

Lemma bslice_app b off n m :
  0 <= n -> 0 <= m -> bslice b off (n + m) = bslice b off n ++ bslice b (off + n) m.
Proof. intros. unfold bslice. by rewrite seqZ_app, fmap_app by lia. Qed.

Lemma bslice_full l : bslice l 0 (zlen l) = l.
Proof.
  apply list_eq. intros i. destruct (Z.ltb_spec (Z.of_nat i) (zlen l)).
  - rewrite bslice_lookup by lia. unfold bget, zlen in *.
    replace (Z.to_nat (0 + Z.of_nat i)) with i by lia.
    destruct (l !! i) eqn:E; [done|].
    apply lookup_ge_None_1 in E. lia.
  - rewrite !lookup_ge_None_2; rewrite ?bslice_length; unfold zlen in *; [done | lia | lia].
Qed.

(** A list is determined by its length and its bytes. *)
Lemma bytes_eq l1 l2 :
  zlen l1 = zlen l2 -> (forall i, 0 <= i < zlen l1 -> bget l1 i = bget l2 i) -> l1 = l2.
Proof.
  intros Hl Hb. rewrite <- (bslice_full l1), <- (bslice_full l2), <- Hl.
  apply bslice_ext. intros i Hi. by apply Hb.
Qed.

Lemma bslice_bslice b o n o' n' :
  0 <= o' -> o' + n' <= n -> bslice (bslice b o n) o' n' = bslice b (o + o') n'.
Proof.
  intros. apply bslice_ext. intros i Hi. rewrite bget_bslice by lia. f_equal. lia.
Qed.

Lemma bslice_app_l l1 l2 off n :
  0 <= off -> off + n <= zlen l1 -> bslice (l1 ++ l2) off n = bslice l1 off n.
Proof. intros. apply bslice_ext. intros. apply bget_app_l. lia. Qed.

Lemma bslice_app_r l1 l2 off n :
  zlen l1 <= off -> bslice (l1 ++ l2) off n = bslice l2 (off - zlen l1) n.
Proof.
  intros. apply bslice_ext. intros. rewrite bget_app_r by lia. f_equal. lia.
Qed.

(** A slice that a write does not touch, and the slice it writes. *)
Lemma bslice_bput_out b off d o n :
  0 <= off -> 0 <= o -> o + n <= off \/ off + zlen d <= o ->
  bslice (bput b off d) o n = bslice b o n.
Proof. intros. apply bslice_ext. intros. apply bget_bput_out; lia. Qed.

Lemma bslice_bput_in b off d n :
  0 <= off -> n = zlen d -> bslice (bput b off d) off n = d.
Proof.
  intros ? ->. rewrite <- (bslice_full d) at 3. apply bslice_ext. intros.
  rewrite bget_bput_in by lia. f_equal. lia.
Qed.

Lemma bytes_ok_bget b i : bytes_ok b -> byte_ok (bget b i).
Proof.
  intros H. unfold bget. destruct (b !! Z.to_nat i) eqn:E; simpl; [|unfold byte_ok; lia].
  eapply Forall_lookup_1 in H; eauto.
Qed.

Lemma bytes_ok_bslice b o n : bytes_ok b -> bytes_ok (bslice b o n).
Proof. intros H. apply Forall_fmap, Forall_true. intros. by apply bytes_ok_bget. Qed.

Lemma bytes_ok_app l1 l2 : bytes_ok l1 -> bytes_ok l2 -> bytes_ok (l1 ++ l2).
Proof. apply Forall_app_2. Qed.

Lemma bytes_ok_bput b off d : bytes_ok b -> bytes_ok d -> bytes_ok (bput b off d).
Proof.
  intros Hb Hd. unfold bput. apply bytes_ok_app; [by apply bytes_ok_bslice|].
  apply bytes_ok_app; [done|]. by apply Forall_drop.
Qed.

#[export] Hint Resolve bytes_ok_bget bytes_ok_bslice bytes_ok_app bytes_ok_bput : cprobe.
