(* ===== verification/ByteOrder.v ===== *)
(** * Byte order and typed memory accesses

    cpworker targets little-endian hosts ([byteorder.h] selects the
    [ENDIANNESS_LE] layout there), so a native 16- or 32-bit object is stored
    least significant byte first, and [htons]/[ntohs]/[htonl]/[ntohl] swap
    bytes.  The accessors below are the loads and stores of header fields the
    C code makes through casted struct pointers. *)

From stdpp Require Import prelude list list_numbers.
From S2P Require Import Prelude.

(** The object representation of native integers. *)
Definition le16 (v : Z) : list Z := [u8 v; u8 (v / 256)].
Definition le32 (v : Z) : list Z :=
  [u8 v; u8 (v / 256); u8 (v / 65536); u8 (v / 16777216)].

(** Network order. *)
Definition be16 (v : Z) : list Z := [u8 (v / 256); u8 v].
Definition be32 (v : Z) : list Z :=
  [u8 (v / 16777216); u8 (v / 65536); u8 (v / 256); u8 v].

(** The libc conversions on a little-endian host. *)
Definition htons (v : Z) : Z := u8 v * 256 + u8 (v / 256).
Definition htonl (v : Z) : Z :=
  u8 v * 16777216 + u8 (v / 256) * 65536 + u8 (v / 65536) * 256 + u8 (v / 16777216).
Definition ntohs (v : Z) : Z := htons v.
Definition ntohl (v : Z) : Z := htonl v.

(** Native reads at an offset. *)
Definition get16 (b : list Z) (off : Z) : Z := bget b off + 256 * bget b (off + 1).
Definition get32 (b : list Z) (off : Z) : Z :=
  bget b off + 256 * bget b (off + 1) + 65536 * bget b (off + 2)
  + 16777216 * bget b (off + 3).

(** Network-order reads at an offset. *)
Definition net16 (b : list Z) (off : Z) : Z := 256 * bget b off + bget b (off + 1).
Definition net32 (b : list Z) (off : Z) : Z :=
  16777216 * bget b off + 65536 * bget b (off + 1) + 256 * bget b (off + 2)
  + bget b (off + 3).

(** Bounds-checked loads and stores. *)
Definition load8 (cap : Z) (b : list Z) (off : Z) : option Z :=
  if in_bounds cap off 1 then Some (bget b off) else None.
Definition load16 (cap : Z) (b : list Z) (off : Z) : option Z :=
  if in_bounds cap off 2 then Some (get16 b off) else None.
Definition load32 (cap : Z) (b : list Z) (off : Z) : option Z :=
  if in_bounds cap off 4 then Some (get32 b off) else None.
Definition store8 (cap : Z) (b : list Z) (off v : Z) : option (list Z) :=
  bwrite cap b off [u8 v].
Definition store16 (cap : Z) (b : list Z) (off v : Z) : option (list Z) :=
  bwrite cap b off (le16 v).
Definition store32 (cap : Z) (b : list Z) (off v : Z) : option (list Z) :=
  bwrite cap b off (le32 v).

Lemma le16_htons v : le16 (htons v) = be16 v.
Proof. unfold le16, be16, htons, u8. list_eq; zlia. Qed.

Lemma le32_htonl v : le32 (htonl v) = be32 v.
Proof. unfold le32, be32, htonl, u8. list_eq; zlia. Qed.

Lemma be16_zlen v : zlen (be16 v) = 2.
Proof. done. Qed.
Lemma le16_zlen v : zlen (le16 v) = 2.
Proof. done. Qed.
Lemma be32_zlen v : zlen (be32 v) = 4.
Proof. done. Qed.
Lemma le32_zlen v : zlen (le32 v) = 4.
Proof. done. Qed.

#[export] Hint Rewrite be16_zlen le16_zlen be32_zlen le32_zlen : zlen.

Lemma bytes_ok_le16 v : bytes_ok (le16 v).
Proof. repeat constructor; unfold u8; zlia. Qed.

Lemma bytes_ok_le32 v : bytes_ok (le32 v).
Proof. repeat constructor; unfold u8; zlia. Qed.

Lemma bytes_ok_be16 v : bytes_ok (be16 v).
Proof. repeat constructor; unfold u8; zlia. Qed.

Lemma bytes_ok_be32 v : bytes_ok (be32 v).
Proof. repeat constructor; unfold u8; zlia. Qed.

#[export] Hint Resolve bytes_ok_le16 bytes_ok_le32 bytes_ok_be16 bytes_ok_be32 : cprobe.

Lemma net16_range b off : bytes_ok b -> 0 <= net16 b off < 65536.
Proof.
  intros H. pose proof (bytes_ok_bget b off H). pose proof (bytes_ok_bget b (off + 1) H).
  unfold byte_ok, net16 in *. lia.
Qed.

Lemma net32_range b off : bytes_ok b -> 0 <= net32 b off < 4294967296.
Proof.
  intros H. pose proof (bytes_ok_bget b off H). pose proof (bytes_ok_bget b (off + 1) H).
  pose proof (bytes_ok_bget b (off + 2) H). pose proof (bytes_ok_bget b (off + 3) H).
  unfold byte_ok, net32 in *. lia.
Qed.

Lemma ntohs_get16 b off : bytes_ok b -> ntohs (get16 b off) = net16 b off.
Proof.
  intros H. pose proof (bytes_ok_bget b off H). pose proof (bytes_ok_bget b (off + 1) H).
  unfold byte_ok, ntohs, htons, get16, net16, u8 in *. zlia.
Qed.

Lemma ntohl_get32 b off : bytes_ok b -> ntohl (get32 b off) = net32 b off.
Proof.
  intros H. pose proof (bytes_ok_bget b off H). pose proof (bytes_ok_bget b (off + 1) H).
  pose proof (bytes_ok_bget b (off + 2) H). pose proof (bytes_ok_bget b (off + 3) H).
  unfold byte_ok, ntohl, htonl, get32, net32, u8 in *. zlia.
Qed.

(** Reading back what was stored in network order. *)
Lemma net16_bput_be16 b off v :
  0 <= off -> 0 <= v < 65536 -> net16 (bput b off (be16 v)) off = v.
Proof.
  intros. unfold net16. rewrite !bget_bput_in by (try lia; unfold zlen; simpl; lia).
  replace (off - off) with 0 by lia. replace (off + 1 - off) with 1 by lia.
  unfold bget, be16, u8. simpl. zlia.
Qed.

Lemma net32_bput_be32 b off v :
  0 <= off -> 0 <= v < 4294967296 -> net32 (bput b off (be32 v)) off = v.
Proof.
  intros. unfold net32. rewrite !bget_bput_in by (try lia; unfold zlen; simpl; lia).
  replace (off - off) with 0 by lia. replace (off + 1 - off) with 1 by lia.
  replace (off + 2 - off) with 2 by lia. replace (off + 3 - off) with 3 by lia.
  unfold bget, be32, u8. simpl. zlia.
Qed.

(** Fields depend only on the bytes they cover. *)
Lemma net16_ext b1 b2 o1 o2 :
  bget b1 o1 = bget b2 o2 -> bget b1 (o1 + 1) = bget b2 (o2 + 1) ->
  net16 b1 o1 = net16 b2 o2.
Proof. unfold net16. congruence. Qed.

Lemma net32_ext b1 b2 o1 o2 :
  (forall k, 0 <= k < 4 -> bget b1 (o1 + k) = bget b2 (o2 + k)) ->
  net32 b1 o1 = net32 b2 o2.
Proof.
  intros H. unfold net32.
  pose proof (H 0 ltac:(lia)) as H0. rewrite !Z.add_0_r in H0.
  rewrite H0, !H by lia. done.
Qed.

Lemma get16_ext b1 b2 o1 o2 :
  bget b1 o1 = bget b2 o2 -> bget b1 (o1 + 1) = bget b2 (o2 + 1) ->
  get16 b1 o1 = get16 b2 o2.
Proof. unfold get16. congruence. Qed.

(** In-bounds accesses succeed. *)
Lemma load8_ok cap b off : 0 <= off -> off + 1 <= cap -> load8 cap b off = Some (bget b off).
Proof. intros. unfold load8. by rewrite in_bounds_true by lia. Qed.

Lemma load16_ok cap b off : 0 <= off -> off + 2 <= cap -> load16 cap b off = Some (get16 b off).
Proof. intros. unfold load16. by rewrite in_bounds_true by lia. Qed.

Lemma load32_ok cap b off : 0 <= off -> off + 4 <= cap -> load32 cap b off = Some (get32 b off).
Proof. intros. unfold load32. by rewrite in_bounds_true by lia. Qed.

Lemma store16_net cap b off v :
  0 <= off -> off + 2 <= cap -> store16 cap b off (htons v) = Some (bput b off (be16 v)).
Proof. intros. unfold store16. rewrite le16_htons. apply bwrite_ok; [lia|]. unfold zlen; simpl; lia. Qed.

Lemma store16_ok cap b off v :
  0 <= off -> off + 2 <= cap -> store16 cap b off v = Some (bput b off (le16 v)).
Proof. intros. unfold store16. apply bwrite_ok; [lia|]. unfold zlen; simpl; lia. Qed.

Lemma store32_net cap b off v :
  0 <= off -> off + 4 <= cap -> store32 cap b off (htonl v) = Some (bput b off (be32 v)).
Proof. intros. unfold store32. rewrite le32_htonl. apply bwrite_ok; [lia|]. unfold zlen; simpl; lia. Qed.
