(* ===== verification/Stats.v ===== *)
(** * Traffic counters (stats.c, stats.h)

    A byte counter is a pair of 64-bit words, the second counting whole EiB;
    a packet counter likewise counts whole 10^16 packets.  The abstract
    counter is the integer the pair denotes, modulo the range of the pair. *)

From stdpp Require Import prelude list list_numbers.
From S2P Require Import Prelude.

Definition EIB_IN_BYTES : Z := 1024 * 1024 * 1024 * 1024 * 1024 * 1024.
Definition PETA_IN_PACKETS : Z := 10000000000000000.

Record bytes_stats_t := BytesStats { bytes : Z; eib : Z }.
Record packets_stats_t := PacketsStats { packets : Z; peta : Z }.

Record capture_stats_t := CaptureStats {
  cap_bytes : bytes_stats_t;
  cap_packets : packets_stats_t;
  drop_packets : packets_stats_t;
  ifdrop_packets : packets_stats_t;
}.

Record output_stats_t := OutputStats {
  fwd_bytes : bytes_stats_t;
  fwd_packets : packets_stats_t;
  direction_drop_bytes : bytes_stats_t;
  direction_drop_packets : packets_stats_t;
  error_drop_bytes : bytes_stats_t;
  error_drop_packets : packets_stats_t;
  ratelimit_drop_bytes : bytes_stats_t;
  ratelimit_drop_packets : packets_stats_t;
  heartbeat_packets : packets_stats_t;
}.

Definition bytes_stats_add (stat : bytes_stats_t) (n : Z) : bytes_stats_t :=
  let new_eib := n / EIB_IN_BYTES in
  let new_bytes := n mod EIB_IN_BYTES in
  let b := u64 (bytes stat + new_bytes) in
  if EIB_IN_BYTES <=? b
  then BytesStats (u64 (b - EIB_IN_BYTES)) (u64 (eib stat + u64 (new_eib + 1)))
  else BytesStats b (u64 (eib stat + new_eib)).

Definition bytes_stats_merge (dst src : bytes_stats_t) : bytes_stats_t :=
  let total_bytes := u64 (bytes dst + bytes src) in
  let carry := total_bytes / EIB_IN_BYTES in
  BytesStats (total_bytes mod EIB_IN_BYTES) (u64 (eib dst + u64 (eib src + carry))).

Definition packets_stats_add (stat : packets_stats_t) (n : Z) : packets_stats_t :=
  let new_peta := n / PETA_IN_PACKETS in
  let new_packets := n mod PETA_IN_PACKETS in
  let p := u64 (packets stat + new_packets) in
  if PETA_IN_PACKETS <=? p
  then PacketsStats (u64 (p - PETA_IN_PACKETS)) (u64 (peta stat + u64 (new_peta + 1)))
  else PacketsStats p (u64 (peta stat + new_peta)).

Definition packets_stats_merge (dst src : packets_stats_t) : packets_stats_t :=
  let total_packets := u64 (packets dst + packets src) in
  let carry := total_packets / PETA_IN_PACKETS in
  PacketsStats (total_packets mod PETA_IN_PACKETS)
               (u64 (peta dst + u64 (peta src + carry))).

(** The zero-initialised counters of a [calloc]ed or static object. *)
Definition bytes_stats_zero : bytes_stats_t := BytesStats 0 0.
Definition packets_stats_zero : packets_stats_t := PacketsStats 0 0.
Definition output_stats_zero : output_stats_t :=
  OutputStats bytes_stats_zero packets_stats_zero bytes_stats_zero packets_stats_zero
    bytes_stats_zero packets_stats_zero bytes_stats_zero packets_stats_zero
    packets_stats_zero.

(** ** Representation invariant and denotation *)

Definition bytes_stats_wf (s : bytes_stats_t) : Prop :=
  0 <= bytes s < EIB_IN_BYTES /\ 0 <= eib s < 18446744073709551616.
Definition packets_stats_wf (s : packets_stats_t) : Prop :=
  0 <= packets s < PETA_IN_PACKETS /\ 0 <= peta s < 18446744073709551616.

Definition bytes_value (s : bytes_stats_t) : Z := eib s * EIB_IN_BYTES + bytes s.
Definition packets_value (s : packets_stats_t) : Z := peta s * PETA_IN_PACKETS + packets s.

Definition bytes_range : Z := 18446744073709551616 * EIB_IN_BYTES.
Definition packets_range : Z := 18446744073709551616 * PETA_IN_PACKETS.

(** A value split into a high word modulo [2^64] and a low part below [base]. *)
Lemma two_word_value base hi lo v :
  0 < base -> 0 <= lo < base -> v = hi * base + lo ->
  u64 hi * base + lo = v mod (18446744073709551616 * base).
Proof.
  intros Hb Hlo ->. unfold u64.
  apply Z.mod_unique with (q := hi / 18446744073709551616); [|zlia].
  left. pose proof (Z.mod_pos_bound hi 18446744073709551616 ltac:(lia)).
  generalize dependent (hi mod 18446744073709551616). intros m Hm. nia.
Qed.

Lemma u64_idem_r a b : u64 (a + u64 b) = u64 (a + b).
Proof. unfold u64. apply Zplus_mod_idemp_r. Qed.

(** Carrying one unit out of a sum of two values below [base]. *)
Lemma add_carry base a n hi :
  0 < base < 9223372036854775808 -> 0 <= a < base -> 0 <= n < 18446744073709551616 ->
  let s := u64 (a + n mod base) in
  let '(lo, h) := if base <=? s then (u64 (s - base), u64 (hi + u64 (n / base + 1)))
                  else (s, u64 (hi + n / base)) in
  0 <= lo < base /\ 0 <= h < 18446744073709551616 /\
  h * base + lo = (hi * base + a + n) mod (18446744073709551616 * base).
Proof.
  intros Hb Ha Hn s.
  pose proof (Z.mod_pos_bound n base ltac:(lia)).
  pose proof (Z.div_mod n base ltac:(lia)).
  assert (s = a + n mod base) as -> by (apply u64_small; lia).
  destruct (Z.leb_spec base (a + n mod base)).
  - rewrite u64_small by lia. rewrite u64_idem_r. repeat split; try lia; try apply u64_range.
    apply two_word_value; [lia|lia|]. nia.
  - repeat split; try lia; try apply u64_range. apply two_word_value; [lia|lia|]. nia.
Qed.

Lemma bytes_stats_add_spec s n :
  bytes_stats_wf s -> 0 <= n < 18446744073709551616 ->
  bytes_stats_wf (bytes_stats_add s n) /\
  bytes_value (bytes_stats_add s n) = (bytes_value s + n) mod bytes_range.
Proof.
  intros [Hlo Hhi] Hn.
  pose proof (add_carry EIB_IN_BYTES (bytes s) n (eib s) ltac:(split; reflexivity) Hlo Hn) as H.
  cbv zeta in H. unfold bytes_stats_add, bytes_value, bytes_stats_wf, bytes_range. cbv zeta.
  destruct (EIB_IN_BYTES <=? _); simpl; tauto.
Qed.

Lemma packets_stats_add_spec s n :
  packets_stats_wf s -> 0 <= n < 18446744073709551616 ->
  packets_stats_wf (packets_stats_add s n) /\
  packets_value (packets_stats_add s n) = (packets_value s + n) mod packets_range.
Proof.
  intros [Hlo Hhi] Hn.
  pose proof (add_carry PETA_IN_PACKETS (packets s) n (peta s) ltac:(split; reflexivity) Hlo Hn) as H.
  cbv zeta in H. unfold packets_stats_add, packets_value, packets_stats_wf, packets_range.
  cbv zeta. destruct (PETA_IN_PACKETS <=? _); simpl; tauto.
Qed.

(** Merging two totals, one of which carries. *)
Lemma merge_carry base a b ha hb :
  0 < base < 9223372036854775808 -> 0 <= a < base -> 0 <= b < base ->
  let t := u64 (a + b) in
  0 <= t mod base < base /\
  u64 (ha + u64 (hb + t / base)) * base + t mod base
  = (ha * base + a + (hb * base + b)) mod (18446744073709551616 * base).
Proof.
  intros Hb Ha Hbb t. assert (t = a + b) as -> by (apply u64_small; lia).
  pose proof (Z.mod_pos_bound (a + b) base ltac:(lia)).
  pose proof (Z.div_mod (a + b) base ltac:(lia)).
  split; [lia|]. rewrite u64_idem_r. apply two_word_value; [lia|lia|]. nia.
Qed.

Lemma bytes_stats_merge_spec dst src :
  bytes_stats_wf dst -> bytes_stats_wf src ->
  bytes_stats_wf (bytes_stats_merge dst src) /\
  bytes_value (bytes_stats_merge dst src)
  = (bytes_value dst + bytes_value src) mod bytes_range.
Proof.
  intros [H1 H2] [H3 H4].
  pose proof (merge_carry EIB_IN_BYTES (bytes dst) (bytes src) (eib dst) (eib src)
                ltac:(split; reflexivity) H1 H3) as [Hr Hv].
  unfold bytes_stats_wf, bytes_value, bytes_stats_merge, bytes_range. simpl.
  auto using u64_range.
Qed.

Lemma packets_stats_merge_spec dst src :
  packets_stats_wf dst -> packets_stats_wf src ->
  packets_stats_wf (packets_stats_merge dst src) /\
  packets_value (packets_stats_merge dst src)
  = (packets_value dst + packets_value src) mod packets_range.
Proof.
  intros [H1 H2] [H3 H4].
  pose proof (merge_carry PETA_IN_PACKETS (packets dst) (packets src) (peta dst) (peta src)
                ltac:(split; reflexivity) H1 H3) as [Hr Hv].
  unfold packets_stats_wf, packets_value, packets_stats_merge, packets_range. simpl.
  auto using u64_range.
Qed.

(** A history of additions to one counter. *)
Definition bytes_stats_add_all (s : bytes_stats_t) (ns : list Z) : bytes_stats_t :=
  foldl bytes_stats_add s ns.

Definition u64_ok (n : Z) : Prop := 0 <= n < 18446744073709551616.

Lemma bytes_stats_add_all_spec ns s :
  bytes_stats_wf s -> Forall u64_ok ns ->
  bytes_stats_wf (bytes_stats_add_all s ns) /\
  bytes_value (bytes_stats_add_all s ns) = (bytes_value s + zsum ns) mod bytes_range.
Proof.
  revert s. induction ns as [|n ns IH]; intros s Hwf Hns; simpl.
  - split; [done|]. rewrite Z.add_0_r. symmetry. apply Z.mod_small.
    destruct Hwf as [H1 H2]. unfold bytes_value, bytes_range, EIB_IN_BYTES in *. nia.
  - inversion_clear Hns as [|? ? Hn Hns'].
    destruct (bytes_stats_add_spec s n Hwf Hn) as [Hwf' Hv].
    destruct (IH _ Hwf' Hns') as [Hwf'' Hv']. split; [done|].
    unfold bytes_stats_add_all in *. simpl. rewrite Hv', Hv, Zplus_mod_idemp_l. f_equal. lia.
Qed.

(** counting any history of packet lengths into a byte counter keeps the
    representation invariant (low word below 1 EiB) and the counter denotes
    the exact sum of all lengths, modulo the range of the two words; merging
    two counters adds the sums they denote. *)
Theorem bytes_counter_refines_sum ns ms :
  Forall u64_ok ns -> Forall u64_ok ms ->
  let a := bytes_stats_add_all bytes_stats_zero ns in
  let b := bytes_stats_add_all bytes_stats_zero ms in
  bytes_stats_wf a /\
  bytes_value a = zsum ns mod bytes_range /\
  bytes_value (bytes_stats_merge a b) = zsum (ns ++ ms) mod bytes_range.
Proof.
  intros Hn Hm a b.
  assert (bytes_stats_wf bytes_stats_zero) as H0 by (repeat split; vm_compute; congruence).
  destruct (bytes_stats_add_all_spec ns _ H0 Hn) as [Ha Hva].
  destruct (bytes_stats_add_all_spec ms _ H0 Hm) as [Hb Hvb].
  split_and!; [done|exact Hva|].
  destruct (bytes_stats_merge_spec a b Ha Hb) as [_ ->]. subst a b. rewrite Hva, Hvb.
  change (bytes_value bytes_stats_zero) with 0. rewrite !Z.add_0_l, <- Zplus_mod.
  by rewrite zsum_app.
Qed.

Lemma bytes_counter_refines_sum_witness :
  bytes_value (bytes_stats_add_all bytes_stats_zero [1500; EIB_IN_BYTES - 1; 60])
  = 1500 + (EIB_IN_BYTES - 1) + 60.
Proof.
  pose proof (bytes_counter_refines_sum [1500; EIB_IN_BYTES - 1; 60] []
    ltac:(repeat constructor; vm_compute; congruence) ltac:(constructor)) as (_ & H & _).
  etransitivity; [exact H|]. vm_compute. reflexivity.
Defined.
