(* ===== verification/RateLimit.v ===== *)
(** * Token bucket (ratelimit.c, ratelimit.h)

    The elapsed time is an IEEE binary64 number in the C code.  The model
    computes with the Standard Library's executable binary64 specification
    ([SpecFloat] at precision 53, exponent bound 1024), which rounds to
    nearest even as the C implementation does. *)

From stdpp Require Import prelude list list_numbers.
From Stdlib Require Import SpecFloat.
From S2P Require Import Prelude.

(** ** The C type double *)

Definition double : Type := spec_float.

Definition dbl_of_Z (z : Z) : double := binary_normalize 53 1024 z 0 false.
Definition dbl_add : double -> double -> double := SFadd 53 1024.
Definition dbl_mul : double -> double -> double := SFmul 53 1024.
Definition dbl_div : double -> double -> double := SFdiv 53 1024.

(** Conversion to an unsigned integer truncates; values outside the target
    range do not occur in this module. *)
Definition dbl_trunc (x : double) : Z :=
  match x with
  | S754_finite false m e => if 0 <=? e then Zpos m * 2 ^ e else Zpos m / 2 ^ (- e)
  | S754_finite true m e => if 0 <=? e then - (Zpos m * 2 ^ e) else - (Zpos m / 2 ^ (- e))
  | _ => 0
  end.

Record timeval := Timeval { tv_sec : Z; tv_usec : Z }.

Record token_bucket_t := TokenBucket {
  rate_bps : Z;
  capacity : Z;
  tokens : Z;
  last_ts : timeval;
}.

Definition timeval_diff (a b : timeval) : double :=
  let sec := tv_sec a - tv_sec b in
  let usec := tv_usec a - tv_usec b in
  let '(sec, usec) := if usec <? 0 then (sec - 1, usec + 1000000) else (sec, usec) in
  dbl_add (dbl_of_Z sec) (dbl_div (dbl_of_Z usec) (dbl_of_Z 1000000)).

Definition token_bucket_init (rate : Z) : token_bucket_t :=
  TokenBucket rate rate rate (Timeval 0 0).

Definition token_bucket_consume (tb : token_bucket_t) (nbytes : Z) (ts : timeval) :
    bool * token_bucket_t :=
  let tok :=
    if 0 <? tv_sec (last_ts tb) then
      let elapsed := timeval_diff ts (last_ts tb) in
      let t :=
        if SFleb (dbl_of_Z 1) elapsed then u64 (tokens tb + rate_bps tb)
        else if SFltb (dbl_of_Z 0) elapsed
        then u64 (tokens tb + u64 (dbl_trunc (dbl_mul elapsed (dbl_of_Z (rate_bps tb)))))
        else tokens tb in
      if capacity tb <? t then capacity tb else t
    else tokens tb in
  let required := u64 (nbytes * 8) in
  if required <=? tok
  then (true, TokenBucket (rate_bps tb) (capacity tb) (tok - required) ts)
  else (false, TokenBucket (rate_bps tb) (capacity tb) tok ts).

(** ** Invariant *)

Definition token_bucket_wf (tb : token_bucket_t) : Prop :=
  0 <= tokens tb <= capacity tb /\ capacity tb < 18446744073709551616.

(** The tokens available to the call, after the refill. *)
Definition refilled (tb : token_bucket_t) (ts : timeval) : Z :=
  tokens (token_bucket_consume tb 0 ts).2.

Lemma token_bucket_init_wf r : 0 <= r < 18446744073709551616 -> token_bucket_wf (token_bucket_init r).
Proof. unfold token_bucket_wf. simpl. lia. Qed.

Lemma consume_refilled tb n ts :
  token_bucket_consume tb n ts =
    if u64 (n * 8) <=? refilled tb ts
    then (true, TokenBucket (rate_bps tb) (capacity tb) (refilled tb ts - u64 (n * 8)) ts)
    else (false, TokenBucket (rate_bps tb) (capacity tb) (refilled tb ts) ts).
Proof.
  unfold refilled, token_bucket_consume. cbv zeta.
  match goal with |- context [u64 (0 * 8) <=? ?t] => set (tok := t) end.
  destruct (u64 (0 * 8) <=? tok); simpl; [|done].
  change (u64 (0 * 8)) with 0. by rewrite Z.sub_0_r.
Qed.

Lemma refilled_range tb ts : token_bucket_wf tb -> 0 <= refilled tb ts <= capacity tb.
Proof.
  intros [H1 H2]. unfold refilled, token_bucket_consume. cbv zeta.
  change (u64 (0 * 8)) with 0.
  match goal with |- context [0 <=? ?t] => set (tok := t) end.
  assert (0 <= tok <= capacity tb) as Ht.
  { unfold tok. destruct (0 <? _); [|lia].
    match goal with |- context [capacity tb <? ?t] => set (t0 := t) end.
    assert (0 <= t0) by
      (unfold t0; repeat case_match; try apply u64_range; lia).
    destruct (Z.ltb_spec (capacity tb) t0); lia. }
  destruct (0 <=? tok); simpl; lia.
Qed.

Lemma consume_wf tb n ts : token_bucket_wf tb -> token_bucket_wf (token_bucket_consume tb n ts).2.
Proof.
  intros Hwf. pose proof (refilled_range tb ts Hwf). pose proof (u64_range (n * 8)).
  destruct Hwf. rewrite consume_refilled.
  destruct (Z.leb_spec (u64 (n * 8)) (refilled tb ts)); unfold token_bucket_wf; simpl; lia.
Qed.

Lemma consume_const tb n ts :
  capacity (token_bucket_consume tb n ts).2 = capacity tb /\
  rate_bps (token_bucket_consume tb n ts).2 = rate_bps tb /\
  last_ts (token_bucket_consume tb n ts).2 = ts.
Proof. rewrite consume_refilled. by destruct (_ <=? _). Qed.

(** No time has passed: no token is added. *)
Lemma timeval_diff_same ts : timeval_diff ts ts = dbl_of_Z 0.
Proof. unfold timeval_diff. by rewrite !Z.sub_diag. Qed.

Lemma refilled_same tb : token_bucket_wf tb -> refilled tb (last_ts tb) = tokens tb.
Proof.
  intros [H1 H2]. unfold refilled, token_bucket_consume. cbv zeta.
  rewrite timeval_diff_same. change (u64 (0 * 8)) with 0.
  change (SFleb (dbl_of_Z 1) (dbl_of_Z 0)) with false.
  change (SFltb (dbl_of_Z 0) (dbl_of_Z 0)) with false. cbv iota.
  destruct (Z.ltb_spec (capacity tb) (tokens tb)); [lia|].
  replace (if 0 <? tv_sec (last_ts tb) then tokens tb else tokens tb) with (tokens tb)
    by (by destruct (0 <? _)).
  destruct (0 <=? tokens tb); simpl; lia.
Qed.

(** A first call does not refill. *)
Lemma refilled_first tb ts :
  token_bucket_wf tb -> tv_sec (last_ts tb) <= 0 -> refilled tb ts = tokens tb.
Proof.
  intros [H1 H2] H. unfold refilled, token_bucket_consume. cbv zeta.
  destruct (Z.ltb_spec 0 (tv_sec (last_ts tb))); [lia|]. change (u64 (0 * 8)) with 0.
  destruct (0 <=? tokens tb); simpl; lia.
Qed.

(** ** Runs of the bucket *)

(** The packets of a run, each with its length; the result is the number of
    bits granted and the final bucket. *)
Fixpoint consume_all (tb : token_bucket_t) (reqs : list (Z * timeval)) : Z * token_bucket_t :=
  match reqs with
  | [] => (0, tb)
  | (n, ts) :: reqs' =>
      let '(ok, tb1) := token_bucket_consume tb n ts in
      let '(g, tb2) := consume_all tb1 reqs' in
      ((if ok then n * 8 else 0) + g, tb2)
  end.

Definition len_ok (n : Z) : Prop := 0 <= n < 2305843009213693952.

Lemma consume_all_wf reqs tb : token_bucket_wf tb -> token_bucket_wf (consume_all tb reqs).2.
Proof.
  revert tb. induction reqs as [|[m u] rs IH]; intros tb Htb; simpl; [done|].
  pose proof (consume_wf tb m u Htb) as H. destruct (token_bucket_consume tb m u) as [ok tb1].
  specialize (IH tb1 H). by destruct (consume_all tb1 rs).
Qed.

Lemma consume_all_burst reqs tb ts :
  token_bucket_wf tb -> last_ts tb = ts ->
  Forall (fun r => len_ok r.1 /\ r.2 = ts) reqs ->
  (consume_all tb reqs).1 + tokens (consume_all tb reqs).2 = tokens tb.
Proof.
  revert tb. induction reqs as [|[n t] reqs IH]; intros tb Hwf Hts Hall; simpl; [lia|].
  inversion_clear Hall as [|? ? [Hn Ht] Hrest]. simpl in Hn, Ht.
  assert (u64 (n * 8) = n * 8) as Hu by (apply u64_small; unfold len_ok in Hn; lia).
  pose proof (consume_wf tb n t Hwf) as Hwf1.
  pose proof (consume_const tb n t) as (_ & _ & Hl).
  rewrite consume_refilled in *.
  rewrite Ht, <- Hts, refilled_same, Hu in * by done.
  destruct (n * 8 <=? tokens tb); simpl in *.
  - specialize (IH _ Hwf1 eq_refl Hrest). destruct (consume_all _ reqs). simpl in *. lia.
  - specialize (IH _ Hwf1 eq_refl Hrest). destruct (consume_all _ reqs). simpl in *. lia.
Qed.

(** C32: a burst of packets with one timestamp gets no more bits than one
    second's worth of tokens, however many packets it has, and granting is
    exact: the bits granted plus the tokens left equal the initial tokens. *)
Theorem burst_bounded rate ts reqs :
  0 <= rate < 18446744073709551616 ->
  Forall (fun r => len_ok r.1 /\ r.2 = ts) reqs ->
  let '(granted, tb) := consume_all (token_bucket_init rate) reqs in
  token_bucket_wf tb /\ granted + tokens tb = rate /\ granted <= rate.
Proof.
  intros Hr Hall. destruct reqs as [|[n t] reqs]; simpl; [unfold token_bucket_wf; simpl; lia|].
  inversion_clear Hall as [|? ? [Hn Ht] Hrest]. simpl in Hn, Ht. subst t.
  set (tb0 := token_bucket_init rate).
  pose proof (token_bucket_init_wf rate Hr : token_bucket_wf tb0) as Hwf.
  pose proof (consume_wf tb0 n ts Hwf) as Hwf1.
  pose proof (consume_const tb0 n ts) as (_ & _ & Hl).
  assert (u64 (n * 8) = n * 8) as Hu by (apply u64_small; unfold len_ok in Hn; lia).
  rewrite consume_refilled in *. rewrite (refilled_first tb0) in * by (simpl; lia || done).
  rewrite Hu in *.
  destruct (Z.leb_spec (n * 8) (tokens tb0)); simpl in Hwf1, Hl |- *;
    (match goal with |- context [consume_all ?b reqs] =>
      pose proof (consume_all_burst reqs b ts Hwf1 eq_refl Hrest) as Hb;
      pose proof (consume_all_wf reqs b Hwf1) as Hw; destruct (consume_all b reqs) as [g tb'] end);
    simpl in *; destruct Hw; unfold token_bucket_wf; lia.
Qed.

Lemma burst_bounded_witness :
  let '(granted, tb) := consume_all (token_bucket_init 16000)
    [(1000, Timeval 7 1); (1500, Timeval 7 1); (900, Timeval 7 1)] in
  token_bucket_wf tb /\ granted + tokens tb = 16000 /\ granted <= 16000.
Proof.
  exact (burst_bounded 16000 (Timeval 7 1)
    [(1000, Timeval 7 1); (1500, Timeval 7 1); (900, Timeval 7 1)] ltac:(lia)
    ltac:(repeat constructor; vm_compute; congruence)).
Defined.
