(* ===== verification/Headers.v ===== *)
(** * Protocol headers (ip.h, tcp.h, udp.h, vlan.h, vxlan.h, gre.h, mpls.h, pkt_dir.h)

    Sizes and field offsets of the header structs the code casts packet bytes
    to, and the constants it compares fields with. *)

From stdpp Require Import prelude list list_numbers.
From S2P Require Import Prelude ByteOrder.

(** [sizeof] of each header. *)
Definition ETHER_HDR_LEN : Z := 14.
Definition VLAN_HDR_LEN : Z := 4.
Definition IPV4_HDR_LEN : Z := 20.
Definition IPV6_HDR_LEN : Z := 40.
Definition TCP_HDR_LEN : Z := 20.
Definition UDP_HDR_LEN : Z := 8.
Definition VXLAN_HEADER_LEN : Z := 8.
Definition GRE_HEADER_LEN : Z := 8.
Definition MPLS_HDR_LEN : Z := 4.

(** EtherTypes. *)
Definition ETHERTYPE_IP : Z := 2048.
Definition ETHERTYPE_IPV6 : Z := 34525.
Definition ETHERTYPE_VLAN : Z := 33024.
Definition ETHERTYPE_DOT1AD : Z := 34984.
Definition ETHERTYPE_VLAN_9100 : Z := 37120.
Definition ETHERTYPE_VLAN_9200 : Z := 37376.
Definition ETHER_TYPE_MPLS : Z := 34887.

(** [ipv4_hdr.frag_off], host byte order. *)
Definition IPV4_FLAG_MF : Z := 8192.
Definition IPV4_OFFSET_MASK : Z := 8191.

(** IPv6 next-header values. *)
Definition IPPROTO_HOPOPTS : Z := 0.
Definition IPPROTO_ROUTING : Z := 43.
Definition IPPROTO_FRAGMENT : Z := 44.
Definition IPPROTO_DSTOPTS : Z := 60.

(** Packet direction. *)
Definition PKT_DIR_UNKNOWN : Z := -1.
Definition PKT_DIR_NONCHECK : Z := 0.
Definition PKT_DIR_INCOMING : Z := 1.
Definition PKT_DIR_OUTGOING : Z := 2.

Definition is_vlan_ethertype (ether_type : Z) : bool :=
  (ether_type =? ETHERTYPE_VLAN) || (ether_type =? ETHERTYPE_DOT1AD)
  || (ether_type =? ETHERTYPE_VLAN_9100) || (ether_type =? ETHERTYPE_VLAN_9200).

(** The packet header libpcap hands over with the data. *)
Record pcap_pkthdr := Pkthdr { ts_sec : Z; ts_usec : Z; caplen : Z; wirelen : Z }.

(** Captured data as the callbacks receive it: [caplen] readable bytes. *)
Definition pkt_ok (h : pcap_pkthdr) (pkt : list Z) : Prop :=
  bytes_ok pkt /\ 0 <= caplen h < 4294967296 /\ caplen h <= zlen pkt.

(** A stack of VLAN tags starting at [off] under EtherType [et], fully inside
    the first [len] bytes, ends at EtherType [et'] and offset [off']. *)
Inductive vlan_tags (pkt : list Z) (len : Z) : Z -> Z -> Z -> Z -> Prop :=
| vlan_tags_done et off : is_vlan_ethertype et = false -> vlan_tags pkt len et off et off
| vlan_tags_tag et off et' off' :
    is_vlan_ethertype et = true -> off + VLAN_HDR_LEN <= len ->
    vlan_tags pkt len (net16 pkt (off + 2)) (off + VLAN_HDR_LEN) et' off' ->
    vlan_tags pkt len et off et' off'.

Lemma vlan_tags_mono pkt len et off et' off' :
  vlan_tags pkt len et off et' off' -> off <= off'.
Proof. induction 1; unfold VLAN_HDR_LEN in *; lia. Qed.

Lemma vlan_tags_end pkt len et off et' off' :
  vlan_tags pkt len et off et' off' ->
  is_vlan_ethertype et' = false /\ (off' = off \/ off' <= len).
Proof.
  induction 1 as [|et off et' off' Hv Hl Ht IH]; [by auto|].
  destruct IH as [IH1 [IH2|IH2]]; split; auto; right; lia.
Qed.

Lemma vlan_tags_det pkt len et off e1 o1 :
  vlan_tags pkt len et off e1 o1 ->
  forall e2 o2, vlan_tags pkt len et off e2 o2 -> e1 = e2 /\ o1 = o2.
Proof.
  induction 1 as [|et off et' off' Hv Hl Ht IH]; intros e2 o2 H2; inversion H2; subst; auto; congruence.
Qed.

(** The stack depends only on the bytes it covers. *)
Lemma vlan_tags_ext pkt pkt2 len len2 et off et' off' :
  vlan_tags pkt len et off et' off' -> 0 <= off ->
  (forall i, off <= i < off' -> bget pkt2 i = bget pkt i) -> off' <= len2 ->
  vlan_tags pkt2 len2 et off et' off'.
Proof.
  intros H. induction H as [|et off et' off' Hv Hl Ht IH]; intros Ho Hb Hl2; [by constructor|].
  pose proof (vlan_tags_mono _ _ _ _ _ _ Ht). unfold VLAN_HDR_LEN in *.
  apply vlan_tags_tag; [done|unfold VLAN_HDR_LEN; lia|].
  rewrite (net16_ext pkt2 pkt (off + 2) (off + 2)) by (apply Hb; lia).
  apply IH; [lia| |lia]. intros i Hi. apply Hb. lia.
Qed.
