(* ===== verification/Checksum.v ===== *)
(** * Internet checksum (packet_split.c)

    The optimised one's complement sum: an SSE2 loop over 32-byte blocks in
    four 32-bit lanes, an 8-fold unrolled scalar loop, a 4-fold unrolled step,
    a word loop and the trailing byte.  [sum16] is the textbook definition;
    the optimised routine computes it modulo 2^32 with or without SSE2. *)

From stdpp Require Import prelude list list_numbers.
From S2P Require Import Prelude ByteOrder.

(** ** The code *)

Definition cksum_fold (sum : Z) : Z :=
  let sum := u32 (Z.shiftr sum 16 + Z.land sum 65535) in
  let sum := u32 (Z.shiftr sum 16 + Z.land sum 65535) in
  u16 sum.

(** [u16\[k\]] for a [const uint16_t *] at the start of the remaining bytes. *)
Definition word (l : list Z) (k : Z) : Z := get16 l (2 * k).

(** A 128-bit vector of four 32-bit lanes. *)
Record m128i := M128 { lane0 : Z; lane1 : Z; lane2 : Z; lane3 : Z }.

Definition mm_add_epi32 (a b : m128i) : m128i :=
  M128 (u32 (lane0 a + lane0 b)) (u32 (lane1 a + lane1 b))
       (u32 (lane2 a + lane2 b)) (u32 (lane3 a + lane3 b)).

(** [_mm_unpacklo_epi16(v, 0)] and [_mm_unpackhi_epi16(v, 0)] of the eight
    words loaded from word [k] on. *)
Definition mm_unpacklo (l : list Z) (k : Z) : m128i :=
  M128 (word l k) (word l (k + 1)) (word l (k + 2)) (word l (k + 3)).
Definition mm_unpackhi (l : list Z) (k : Z) : m128i := mm_unpacklo l (k + 4).

Fixpoint sse2_loop (fuel : nat) (l : list Z) (vsum : m128i) : list Z * m128i :=
  match fuel with
  | O => (l, vsum)
  | S fuel =>
      if 32 <=? zlen l then
        let vsum := mm_add_epi32 vsum (mm_unpacklo l 0) in
        let vsum := mm_add_epi32 vsum (mm_unpackhi l 0) in
        let vsum := mm_add_epi32 vsum (mm_unpacklo l 8) in
        let vsum := mm_add_epi32 vsum (mm_unpackhi l 8) in
        sse2_loop fuel (drop 32 l) vsum
      else (l, vsum)
  end.

(** [_MM_SHUFFLE(1,0,3,2)], [_MM_SHUFFLE(2,3,0,1)] and the lane-0 extract. *)
Definition mm_reduce (v : m128i) : Z :=
  let hi64 := M128 (lane2 v) (lane3 v) (lane0 v) (lane1 v) in
  let v := mm_add_epi32 v hi64 in
  let hi32 := M128 (lane1 v) (lane0 v) (lane3 v) (lane2 v) in
  let v := mm_add_epi32 v hi32 in
  lane0 v.

Fixpoint unroll8_loop (fuel : nat) (l : list Z) (sum : Z) : list Z * Z :=
  match fuel with
  | O => (l, sum)
  | S fuel =>
      if 16 <=? zlen l then
        let sum := u32 (sum + word l 0) in
        let sum := u32 (sum + word l 1) in
        let sum := u32 (sum + word l 2) in
        let sum := u32 (sum + word l 3) in
        let sum := u32 (sum + word l 4) in
        let sum := u32 (sum + word l 5) in
        let sum := u32 (sum + word l 6) in
        let sum := u32 (sum + word l 7) in
        unroll8_loop fuel (drop 16 l) sum
      else (l, sum)
  end.

Fixpoint word_loop (fuel : nat) (l : list Z) (sum : Z) : list Z * Z :=
  match fuel with
  | O => (l, sum)
  | S fuel =>
      if 2 <=? zlen l then word_loop fuel (drop 2 l) (u32 (sum + word l 0))
      else (l, sum)
  end.

(** [l] is the [len] bytes at [buf]; [sse2] says whether [__SSE2__] is
    defined.  Each loop consumes at least two bytes per turn, so [length l]
    turns are always enough. *)
Definition cksum_accumulate (sse2 : bool) (l : list Z) (initial_sum : Z) : Z :=
  let fuel := length l in
  let '(l, sum) :=
    if sse2 && (32 <=? zlen l) then
      let '(l, vsum) := sse2_loop fuel l (M128 0 0 0 0) in
      (l, u32 (initial_sum + mm_reduce vsum))
    else (l, initial_sum) in
  let '(l, sum) := unroll8_loop fuel l sum in
  let '(l, sum) :=
    if 8 <=? zlen l then
      let sum := u32 (sum + word l 0) in
      let sum := u32 (sum + word l 1) in
      let sum := u32 (sum + word l 2) in
      let sum := u32 (sum + word l 3) in
      (drop 4 (drop 4 l), sum)
    else (l, sum) in
  let '(l, sum) := word_loop fuel l sum in
  if zlen l =? 0 then sum else u32 (sum + bget l 0).

Definition cksum_finish (partial_sum : Z) : Z := u16 (Z.lnot (cksum_fold partial_sum)).

(** The header is the bytes from [off] on; [ihl] is its low nibble.  The sum
    reads [ihl * 4] bytes, or 20 on the fast path. *)
Definition calculate_ip_checksum (sse2 : bool) (cap : Z) (b : list Z) (off : Z) : option Z :=
  b0 ← load8 cap b off;
  let ihl := Z.land b0 15 in
  if ihl =? 5 then
    p ← bread cap b off 20;
    let sum := u32 (word p 0 + word p 1 + word p 2 + word p 3 + word p 4 + word p 5
                    + word p 6 + word p 7 + word p 8 + word p 9) in
    Some (cksum_finish sum)
  else
    p ← bread cap b off (ihl * 4);
    Some (cksum_finish (cksum_accumulate sse2 p 0)).

(** Which IP header the pseudo header is taken from. *)
Inductive ip_ref := Ipv4At (off : Z) | Ipv6At (off : Z) | NoIp.

Definition IPPROTO_TCP : Z := 6.
Definition IPPROTO_UDP : Z := 17.

(** [saddr]/[daddr] are at 12 and 16 in an IPv4 header, 8 and 24 in an IPv6
    header. *)
Definition calculate_pseudo_header_sum (cap : Z) (b : list Z) (ip : ip_ref)
    (protocol l4_len : Z) : option Z :=
  match ip with
  | Ipv4At off =>
      s ← bread cap b (off + 12) 4;
      d ← bread cap b (off + 16) 4;
      Some (u32 (word s 0 + word s 1 + word d 0 + word d 1 + htons protocol + htons l4_len))
  | Ipv6At off =>
      s ← bread cap b (off + 8) 16;
      d ← bread cap b (off + 24) 16;
      Some (u32 (word s 0 + word s 1 + word s 2 + word s 3 + word s 4 + word s 5 + word s 6
                 + word s 7 + word d 0 + word d 1 + word d 2 + word d 3 + word d 4 + word d 5
                 + word d 6 + word d 7 + htons l4_len + htons protocol))
  | NoIp => Some 0
  end.

Definition calculate_tcp_checksum (sse2 : bool) (cap : Z) (b : list Z) (ip : ip_ref)
    (tcp_off tcp_len : Z) : option Z :=
  sum ← calculate_pseudo_header_sum cap b ip IPPROTO_TCP tcp_len;
  p ← bread cap b tcp_off tcp_len;
  Some (cksum_finish (cksum_accumulate sse2 p sum)).

Definition calculate_udp_checksum (sse2 : bool) (cap : Z) (b : list Z) (ip : ip_ref)
    (udp_off udp_len : Z) : option Z :=
  sum ← calculate_pseudo_header_sum cap b ip IPPROTO_UDP udp_len;
  p ← bread cap b udp_off udp_len;
  Some (cksum_finish (cksum_accumulate sse2 p sum)).

Definition udp_checksum_for_wire (check : Z) : Z := if check =? 0 then 65535 else check.

(** ** The reference sum *)

Fixpoint sum16 (l : list Z) : Z :=
  match l with
  | [] => 0
  | [x] => x
  | x :: y :: l => x + 256 * y + sum16 l
  end.

Lemma sum16_app l1 l2 : zlen l1 mod 2 = 0 -> sum16 (l1 ++ l2) = sum16 l1 + sum16 l2.
Proof.
  induction l1 as [|x|x y l IH] using pair_list_ind; intros He; [done|done|].
  cbn [app sum16]. rewrite IH; [lia|]. rewrite !zlen_cons in He. zlia.
Qed.

Lemma sum16_bound l : bytes_ok l -> 0 <= sum16 l <= 65535 * ((zlen l + 1) / 2).
Proof.
  induction l as [|x|x y l IH] using pair_list_ind; intros Hok.
  - split; vm_compute; congruence.
  - inversion_clear Hok as [|? ? Hx _]. unfold byte_ok in Hx.
    change ((zlen [x] + 1) / 2) with 1. simpl. lia.
  - inversion_clear Hok as [|? ? Hx Hok']. inversion_clear Hok' as [|? ? Hy Hok].
    specialize (IH Hok). unfold byte_ok in *. cbn [sum16]. rewrite !zlen_cons.
    replace (1 + (1 + zlen l) + 1) with (zlen l + 1 + 1 * 2) by lia.
    rewrite Z.div_add by lia. lia.
Qed.

Lemma word_step x y l : word (x :: y :: l) 0 = x + 256 * y.
Proof. done. Qed.

Lemma word_drop l n k : 0 <= k -> word (drop n (drop n l)) k = word l (Z.of_nat n + k).
Proof.
  intros. unfold word, get16. rewrite drop_drop.
  replace (n + n)%nat with (Z.to_nat (2 * Z.of_nat n)) by lia.
  rewrite !bget_drop by lia. do 3 f_equal; lia.
Qed.

(** Peeling eight, four and one words off the front. *)
Lemma sum16_8 l : 16 <= zlen l ->
  sum16 l = word l 0 + word l 1 + word l 2 + word l 3 + word l 4 + word l 5 + word l 6 + word l 7
            + sum16 (drop 16 l).
Proof.
  intros H. do 16 (destruct l as [|? l]; [unfold zlen in H; simpl in H; lia|]).
  cbn [sum16 drop]. rewrite ?drop_0. unfold word, get16. bget_concrete. lia.
Qed.

Lemma sum16_4 l : 8 <= zlen l ->
  sum16 l = word l 0 + word l 1 + word l 2 + word l 3 + sum16 (drop 8 l).
Proof.
  intros H. do 8 (destruct l as [|? l]; [unfold zlen in H; simpl in H; lia|]).
  cbn [sum16 drop]. rewrite ?drop_0. unfold word, get16. bget_concrete. lia.
Qed.

Lemma sum16_1 l : 2 <= zlen l -> sum16 l = word l 0 + sum16 (drop 2 l).
Proof.
  intros H. do 2 (destruct l as [|? l]; [unfold zlen in H; simpl in H; lia|]).
  cbn [sum16 drop]. rewrite ?drop_0. unfold word, get16. bget_concrete. lia.
Qed.

(** ** The optimised sum is the reference sum *)

Definition lanes (v : m128i) : Z := lane0 v + lane1 v + lane2 v + lane3 v.

Lemma lanes_add a b : u32 (lanes (mm_add_epi32 a b)) = u32 (lanes a + lanes b).
Proof.
  unfold lanes, mm_add_epi32, u32. simpl.
  Z.div_mod_to_equations. lia.
Qed.

Lemma mm_reduce_lanes v : mm_reduce v = u32 (lanes v).
Proof.
  unfold mm_reduce, mm_add_epi32, lanes. simpl. autorewrite with u32db. f_equal. lia.
Qed.

Lemma sse2_loop_spec fuel l v :
  let '(l', v') := sse2_loop fuel l v in
  zlen l' <= zlen l /\
  u32 (lanes v' + sum16 l') = u32 (lanes v + sum16 l).
Proof.
  revert l v. induction fuel as [|fuel IH]; intros l v; cbn [sse2_loop]; [by split|].
  bcase; [|by split].
  match goal with |- context [sse2_loop fuel (drop 32 l) ?w] => set (v4 := w) end.
  specialize (IH (drop 32 l) v4). destruct (sse2_loop fuel (drop 32 l) v4) as [l' v'].
  destruct IH as [IH1 IH2]. rewrite zlen_drop in IH1. split; [lia|].
  rewrite IH2. subst v4.
  rewrite <- u32_add_l, lanes_add, u32_add_l.
  rewrite <- Z.add_assoc, <- u32_add_l, lanes_add, u32_add_l.
  rewrite <- Z.add_assoc, <- u32_add_l, lanes_add, u32_add_l.
  rewrite <- Z.add_assoc, <- u32_add_l, lanes_add, u32_add_l.
  f_equal. rewrite (sum16_8 l) by lia.
  rewrite (sum16_8 (drop 16 l)) by (rewrite zlen_drop; lia).
  rewrite drop_drop. cbn [Nat.add].
  replace (drop 16 l) with (drop 8 (drop 8 l)) by (by rewrite drop_drop).
  rewrite !word_drop by lia.
  unfold lanes, mm_unpackhi, mm_unpacklo. cbn [lane0 lane1 lane2 lane3].
  repeat match goal with
  | |- context [word l ?e] => progress (let v := eval vm_compute in e in change e with v)
  end.
  lia.
Qed.

Lemma unroll8_loop_spec fuel l sum :
  0 <= sum < 4294967296 ->
  let '(l', sum') := unroll8_loop fuel l sum in
  zlen l' <= zlen l /\ 0 <= sum' < 4294967296 /\
  u32 (sum' + sum16 l') = u32 (sum + sum16 l).
Proof.
  revert l sum. induction fuel as [|fuel IH]; intros l sum Hs; cbn [unroll8_loop]; [by split|].
  bcase; [|by split].
  match goal with |- context [unroll8_loop fuel (drop 16 l) ?w] => set (s8 := w) end.
  specialize (IH (drop 16 l) s8 (u32_range _)).
  destruct (unroll8_loop fuel (drop 16 l) s8) as [l' s'].
  destruct IH as (IH1 & IHr & IH2). rewrite zlen_drop in IH1. split; [lia|]. split; [done|].
  rewrite IH2. subst s8. rewrite (sum16_8 l) by lia. u32_norm. f_equal. lia.
Qed.

Lemma word_loop_spec fuel l sum :
  zlen l <= 2 * Z.of_nat fuel + 1 -> 0 <= sum < 4294967296 ->
  let '(l', sum') := word_loop fuel l sum in
  zlen l' <= 1 /\ 0 <= sum' < 4294967296 /\ u32 (sum' + sum16 l') = u32 (sum + sum16 l).
Proof.
  revert l sum. induction fuel as [|fuel IH]; intros l sum Hf Hs; cbn [word_loop]; [split; [lia|done]|].
  bcase; [|split; [lia|done]].
  specialize (IH (drop 2 l) (u32 (sum + word l 0)) ltac:(rewrite zlen_drop; lia) (u32_range _)).
  destruct (word_loop fuel (drop 2 l) _) as [l' s']. destruct IH as (IH1 & IHr & IH2).
  split; [done|]. split; [done|]. rewrite IH2, (sum16_1 l) by lia. autorewrite with u32db. f_equal. lia.
Qed.

Lemma cksum_accumulate_sum16 sse2 l initial_sum :
  0 <= initial_sum < 4294967296 ->
  cksum_accumulate sse2 l initial_sum = u32 (initial_sum + sum16 l).
Proof.
  intros Hi. unfold cksum_accumulate.
  match goal with |- context [let '(_, _) := ?p in _] =>
    assert (let '(l1, s1) := p in zlen l1 <= zlen l /\ 0 <= s1 < 4294967296 /\
            u32 (s1 + sum16 l1) = u32 (initial_sum + sum16 l))
      as H1; [|destruct p as [l1 s1]] end.
  { bcase; [|by split].
    pose proof (sse2_loop_spec (length l) l (M128 0 0 0 0)) as Hsse.
    destruct (sse2_loop (length l) l (M128 0 0 0 0)) as [l' v']. destruct Hsse as [Hl Hsse].
    split; [done|]. split; [apply u32_range|]. rewrite mm_reduce_lanes. autorewrite with u32db.
    rewrite <- Z.add_assoc, <- u32_add_r, Hsse. autorewrite with u32db. done. }
  destruct H1 as (Hl1 & Hr1 & H1). pose proof (unroll8_loop_spec (length l) l1 s1 Hr1) as H2.
  destruct (unroll8_loop (length l) l1 s1) as [l2 s2]. destruct H2 as (Hl2 & Hr2 & H2).
  match goal with |- context [let '(_, _) := ?p in _] =>
    assert (let '(l3, s3) := p in zlen l3 <= zlen l2 /\ 0 <= s3 < 4294967296 /\
            u32 (s3 + sum16 l3) = u32 (s2 + sum16 l2))
      as H3; [|destruct p as [l3 s3]] end.
  { bcase; [|by split]. rewrite !zlen_drop. split; [lia|]. split; [apply u32_range|].
    rewrite (sum16_4 l2) by lia. rewrite drop_drop. u32_norm. f_equal.
    change (4 + 4)%nat with 8%nat. lia. }
  destruct H3 as (Hl3 & Hr3 & H3).
  pose proof (word_loop_spec (length l) l3 s3 ltac:(unfold zlen in *; lia) Hr3) as H4.
  destruct (word_loop (length l) l3 s3) as [l4 s4]. destruct H4 as (Hl4 & Hr4 & H4).
  rewrite <- H1, <- H2, <- H3, <- H4.
  destruct l4 as [|x [|y l4]]; cbn [sum16].
  - change (zlen [] =? 0) with true. cbn iota. by rewrite Z.add_0_r, u32_small.
  - done.
  - unfold zlen in Hl4. simpl in Hl4. lia.
Qed.

(** ** Folding and verification *)

Lemma cksum_fold_spec s :
  0 <= s < 4294967296 ->
  0 <= cksum_fold s <= 65535 /\ cksum_fold s mod 65535 = s mod 65535 /\
  (cksum_fold s = 0 <-> s = 0).
Proof.
  intros Hs. unfold cksum_fold.
  assert (forall x, 0 <= x < 4294967296 ->
            u32 (Z.shiftr x 16 + Z.land x 65535) = x / 65536 + x mod 65536) as Hstep.
  { intros x Hx. change 65535 with (Z.ones 16). rewrite Z.land_ones, Z.shiftr_div_pow2 by lia.
    change (2 ^ 16) with 65536. apply u32_small. zlia. }
  rewrite (Hstep s) by lia.
  assert (0 <= s / 65536 + s mod 65536 < 4294967296) as H1 by zlia.
  rewrite (Hstep _ H1). unfold u16. zlia.
Qed.

Lemma cksum_finish_eq s : 0 <= s < 4294967296 -> cksum_finish s = 65535 - cksum_fold s.
Proof.
  intros Hs. destruct (cksum_fold_spec s Hs) as (Hr & _).
  unfold cksum_finish, u16, Z.lnot. zlia.
Qed.

Lemma cksum_finish_range s : 0 <= cksum_finish s < 65536.
Proof. apply u16_range. Qed.

(** A sum that already contains the checksum computed over the rest folds to
    all ones. *)
Lemma cksum_verifies s :
  0 <= s < 4294967296 - 65535 -> cksum_fold (s + cksum_finish s) = 65535.
Proof.
  intros Hs. rewrite cksum_finish_eq by lia.
  destruct (cksum_fold_spec s ltac:(lia)) as (Hr & Hm & H0).
  destruct (cksum_fold_spec (s + (65535 - cksum_fold s)) ltac:(lia)) as (Hr' & Hm' & H0').
  set (f := cksum_fold s) in *. set (f' := cksum_fold (s + (65535 - f))) in *.
  assert (f' <> 0) by (intros E; apply H0' in E; lia). zlia.
Qed.

(** The textbook checksum check on a span of a buffer, after the partial sum
    of a pseudo header. *)
Definition cksum_ok (pseudo : Z) (l : list Z) : Prop := cksum_fold (pseudo + sum16 l) = 65535.

Lemma sum16_two b o : sum16 (bslice b o 2) = get16 b o.
Proof.
  unfold bslice. rewrite seqZ_cons, seqZ_cons, seqZ_nil by lia.
  cbn [fmap list_fmap sum16]. unfold get16. replace (Z.succ o) with (o + 1) by lia. lia.
Qed.

(** A 16-bit field at an even offset contributes its value to the sum. *)
Lemma sum16_field b off n k :
  0 <= k -> k mod 2 = 0 -> k + 2 <= n ->
  sum16 (bslice b off n) =
    sum16 (bslice b off k) + get16 b (off + k) + sum16 (bslice b (off + k + 2) (n - k - 2)).
Proof.
  intros Hk He Hn.
  replace n with (k + (2 + (n - k - 2))) at 1 by lia.
  rewrite bslice_app, bslice_app by lia.
  rewrite sum16_app by (rewrite bslice_zlen by lia; done).
  rewrite sum16_app by (rewrite bslice_zlen by lia; done).
  rewrite sum16_two. lia.
Qed.

Lemma get16_bput_le16 b o v : 0 <= o -> 0 <= v < 65536 -> get16 (bput b o (le16 v)) o = v.
Proof.
  intros. unfold get16. rewrite !bget_bput_in by (try lia; unfold zlen; simpl; lia).
  replace (o - o) with 0 by lia. replace (o + 1 - o) with 1 by lia.
  unfold le16. bget_concrete. unfold u8. zlia.
Qed.

(** Filling in a zeroed checksum field. *)
Lemma sum16_set_field b off n k v :
  0 <= off -> 0 <= k -> k mod 2 = 0 -> k + 2 <= n -> 0 <= v < 65536 ->
  get16 b (off + k) = 0 ->
  sum16 (bslice (bput b (off + k) (le16 v)) off n) = sum16 (bslice b off n) + v.
Proof.
  intros. rewrite (sum16_field _ off n k), (sum16_field b off n k) by lia.
  rewrite get16_bput_le16 by lia.
  rewrite !bslice_bput_out by (unfold zlen; simpl; lia). lia.
Qed.

Lemma sum16_slice_bound b o n :
  bytes_ok b -> 0 <= n -> 0 <= sum16 (bslice b o n) <= 65535 * ((n + 1) / 2).
Proof.
  intros Hb Hn. pose proof (sum16_bound (bslice b o n) (bytes_ok_bslice _ _ _ Hb)) as H.
  by rewrite bslice_zlen in H by lia.
Qed.

(** The specialised 20-byte path is the general path. *)
Lemma calculate_ip_checksum_ok sse2 cap b off :
  bytes_ok b -> 0 <= off -> off + 20 <= cap ->
  off + Z.land (bget b off) 15 * 4 <= cap ->
  calculate_ip_checksum sse2 cap b off =
    Some (cksum_finish (sum16 (bslice b off (Z.land (bget b off) 15 * 4)))).
Proof.
  intros Hb Ho Hc Hc'. unfold calculate_ip_checksum. rewrite load8_ok by lia. obind. cbv zeta.
  assert (0 <= Z.land (bget b off) 15) as Hn by (apply Z.land_nonneg; lia).
  destruct (Z.eqb_spec (Z.land (bget b off) 15) 5) as [E|E].
  - rewrite E, bread_ok by lia. obind. change (5 * 4) with 20. do 2 f_equal.
    pose proof (sum16_slice_bound b off 20 Hb ltac:(lia)) as Hs.
    rewrite sum16_8, (sum16_1 (drop 16 _)), (sum16_1 (drop 2 _)) in Hs |- *
      by (rewrite ?zlen_drop, bslice_zlen; lia).
    rewrite !drop_drop in *.
    change (16 + 2 + 2)%nat with 20%nat in *. change (16 + 2)%nat with (9 + 9)%nat in *.
    change 16%nat with (8 + 8)%nat in *. rewrite <- !drop_drop, !word_drop in * by lia.
    change (Z.of_nat 8 + 0) with 8 in *. change (Z.of_nat 9 + 0) with 9 in *.
    rewrite (drop_ge (bslice b off 20)) in * by (rewrite bslice_length; lia).
    cbn [sum16] in *. rewrite u32_small by zlia. lia.
  - rewrite bread_ok by lia. obind. rewrite cksum_accumulate_sum16 by lia.
    do 2 f_equal. rewrite Z.add_0_l. apply u32_small.
    pose proof (sum16_slice_bound b off (Z.land (bget b off) 15 * 4) Hb ltac:(lia)).
    assert (Z.land (bget b off) 15 < 16).
    { change 15 with (Z.ones 4). rewrite Z.land_ones by lia. change (2 ^ 4) with 16. zlia. }
    zlia.
Qed.

Lemma word_bslice b o n k : 0 <= k -> 2 * k + 2 <= n -> word (bslice b o n) k = get16 b (o + 2 * k).
Proof.
  intros. unfold word, get16. rewrite !bget_bslice by lia.
  by replace (o + (2 * k + 1)) with (o + 2 * k + 1) by lia.
Qed.

(** The pseudo header of RFC 793/768/8200 as a span of the buffer plus the
    protocol and length words. *)
Definition pseudo_sum (b : list Z) (ip : ip_ref) (protocol l4_len : Z) : Z :=
  match ip with
  | Ipv4At off => sum16 (bslice b (off + 12) 8) + htons protocol + htons l4_len
  | Ipv6At off => sum16 (bslice b (off + 8) 32) + htons protocol + htons l4_len
  | NoIp => 0
  end.

Definition ip_ref_in (cap : Z) (ip : ip_ref) : Prop :=
  match ip with
  | Ipv4At off => 0 <= off /\ off + 20 <= cap
  | Ipv6At off => 0 <= off /\ off + 40 <= cap
  | NoIp => True
  end.

Lemma htons_range v : 0 <= htons v < 65536.
Proof. unfold htons, u8. zlia. Qed.

Lemma pseudo_sum_range b ip p n : bytes_ok b -> 0 <= pseudo_sum b ip p n <= 18 * 65535.
Proof.
  intros Hb. pose proof (htons_range p). pose proof (htons_range n).
  destruct ip as [off|off|]; cbn [pseudo_sum].
  - pose proof (sum16_slice_bound b (off + 12) 8 Hb ltac:(lia)). zlia.
  - pose proof (sum16_slice_bound b (off + 8) 32 Hb ltac:(lia)). zlia.
  - lia.
Qed.

(** Evaluate the words of constant-length slices to reads of the buffer. *)
Ltac words_to_get16 :=
  rewrite ?word_bslice by lia;
  repeat match goal with
  | |- context [get16 ?b ?e] => progress ring_simplify e
  end.

Lemma calculate_pseudo_header_sum_ok cap b ip p n :
  bytes_ok b -> ip_ref_in cap ip ->
  calculate_pseudo_header_sum cap b ip p n = Some (pseudo_sum b ip p n).
Proof.
  intros Hb Hin. pose proof (pseudo_sum_range b ip p n Hb) as Hr.
  destruct ip as [off|off|]; cbn [calculate_pseudo_header_sum ip_ref_in] in *; [| |done].
  - rewrite !bread_ok by lia. obind. f_equal.
    etransitivity; [|apply u32_small, (conj (proj1 Hr)); lia]. f_equal. cbn [pseudo_sum].
    rewrite (sum16_4 (bslice b (off + 12) 8)) by (rewrite bslice_zlen; lia).
    rewrite drop_ge by (rewrite bslice_length; lia). cbn [sum16].
    words_to_get16. lia.
  - rewrite !bread_ok by lia. obind. f_equal.
    etransitivity; [|apply u32_small, (conj (proj1 Hr)); lia]. f_equal. cbn [pseudo_sum].
    replace 32 with (16 + 16) at 1 by lia. rewrite bslice_app by lia.
    rewrite sum16_app by (by rewrite bslice_zlen by lia).
    rewrite (sum16_8 (bslice b (off + 8) 16)), (sum16_8 (bslice b (off + 8 + 16) 16))
      by (rewrite bslice_zlen; lia).
    rewrite !drop_ge by (rewrite bslice_length; lia). cbn [sum16].
    words_to_get16. lia.
Qed.

(** TCP and UDP checksums of a segment inside the buffer. *)
Lemma l4_sum_small b ip p off n :
  bytes_ok b -> 0 <= n < 65536 ->
  0 <= pseudo_sum b ip p n + sum16 (bslice b off n) < 4294967296 - 65535.
Proof.
  intros Hb Hn. pose proof (pseudo_sum_range b ip p n Hb).
  pose proof (sum16_slice_bound b off n Hb ltac:(lia)). zlia.
Qed.

Lemma calculate_tcp_checksum_ok sse2 cap b ip off n :
  bytes_ok b -> ip_ref_in cap ip -> 0 <= off -> 0 <= n < 65536 -> off + n <= cap ->
  calculate_tcp_checksum sse2 cap b ip off n =
    Some (cksum_finish (pseudo_sum b ip IPPROTO_TCP n + sum16 (bslice b off n))).
Proof.
  intros Hb Hin Ho Hn Hc. unfold calculate_tcp_checksum.
  rewrite calculate_pseudo_header_sum_ok by done. obind. rewrite bread_ok by lia. obind.
  pose proof (l4_sum_small b ip IPPROTO_TCP off n Hb Hn).
  pose proof (pseudo_sum_range b ip IPPROTO_TCP n Hb).
  rewrite cksum_accumulate_sum16 by lia. by rewrite u32_small by lia.
Qed.

Lemma calculate_udp_checksum_ok sse2 cap b ip off n :
  bytes_ok b -> ip_ref_in cap ip -> 0 <= off -> 0 <= n < 65536 -> off + n <= cap ->
  calculate_udp_checksum sse2 cap b ip off n =
    Some (cksum_finish (pseudo_sum b ip IPPROTO_UDP n + sum16 (bslice b off n))).
Proof.
  intros Hb Hin Ho Hn Hc. unfold calculate_udp_checksum.
  rewrite calculate_pseudo_header_sum_ok by done. obind. rewrite bread_ok by lia. obind.
  pose proof (l4_sum_small b ip IPPROTO_UDP off n Hb Hn).
  pose proof (pseudo_sum_range b ip IPPROTO_UDP n Hb).
  rewrite cksum_accumulate_sum16 by lia. by rewrite u32_small by lia.
Qed.

Lemma udp_checksum_for_wire_range c : 0 <= c < 65536 -> 0 < udp_checksum_for_wire c < 65536.
Proof. unfold udp_checksum_for_wire. bcase; lia. Qed.

(** Sending 0xFFFF for a computed zero keeps the check valid. *)
Lemma udp_wire_verifies s :
  0 <= s < 4294967296 - 65535 -> cksum_fold (s + udp_checksum_for_wire (cksum_finish s)) = 65535.
Proof.
  intros Hs. unfold udp_checksum_for_wire. bcase; [|by apply cksum_verifies].
  pose proof (cksum_verifies s Hs) as H. rewrite E, Z.add_0_r in H.
  destruct (cksum_fold_spec s ltac:(lia)) as (_ & Hm & _).
  destruct (cksum_fold_spec (s + 65535) ltac:(lia)) as (Hr & Hm' & H0).
  set (f := cksum_fold (s + 65535)) in *.
  assert (f <> 0) by (rewrite H0; lia). zlia.
Qed.

(** Setting a zeroed checksum field to the computed value makes the span
    verify; the field is at an even distance [k] from the start. *)
Lemma set_field_verifies b off n k v pseudo :
  0 <= off -> 0 <= k -> k mod 2 = 0 -> k + 2 <= n -> 0 <= v < 65536 ->
  get16 b (off + k) = 0 ->
  cksum_fold (pseudo + sum16 (bslice b off n) + v) = 65535 ->
  cksum_ok pseudo (bslice (bput b (off + k) (le16 v)) off n).
Proof.
  intros. unfold cksum_ok. rewrite sum16_set_field by done. by rewrite Z.add_assoc.
Qed.

(** ** Theorem *)

(** C29: the unrolled, vectorised accumulator computes the textbook 16-bit
    word sum of the buffer plus the initial sum, modulo 2^32, on every input
    and whether or not the SSE2 path is compiled in. *)
Theorem cksum_accumulate_correct sse2 l initial_sum :
  0 <= initial_sum < 4294967296 ->
  cksum_accumulate sse2 l initial_sum = u32 (initial_sum + sum16 l).
Proof. apply cksum_accumulate_sum16. Qed.

Lemma cksum_accumulate_correct_witness :
  cksum_accumulate true (replicate 35 255) 7 = u32 (7 + sum16 (replicate 35 255)).
Proof. apply (cksum_accumulate_correct true (replicate 35 255) 7). lia. Defined.
