(* ===== verification/PacketSplit.v ===== *)
(** * Packet splitting (packet_split.c, packet_split.h)

    [parse_packet] locates the layers of a captured TCP or UDP packet,
    [calculate_fragment_count] and [build_fragment] cut its payload into
    packets of their own.  Every access to packet or output memory is checked:
    [None] is an access outside the array (or a loop out of fuel), and the
    theorems show that it never happens. *)

From stdpp Require Import prelude list list_numbers.
From S2P Require Import Prelude ByteOrder Headers Checksum.

(** ** The code *)

(** The pointer fields of the C struct are [pkt_data] plus the offset field of
    the same layer, so only the offsets are kept. *)
Record packet_parse_result_t := ParseResult {
  is_ipv4 : bool; is_ipv6 : bool; is_tcp : bool; is_udp : bool; has_vlan : bool;
  eth_offset : Z; vlan_offset : Z; ip_offset : Z; l4_offset : Z; payload_offset : Z;
  ip_hdr_len : Z; ipv6_ext_len : Z; l4_hdr_len : Z; payload_len : Z;
}.

(** The VLAN loop: EtherType, offset, [has_vlan] and [vlan_offset]. *)
Fixpoint vlan_loop (fuel : nat) (pkt : list Z) (caplen ether_type offset : Z)
    (has : bool) (voff : Z) : option (option (Z * Z * bool * Z)) :=
  match fuel with
  | O => None
  | S fuel =>
      if is_vlan_ethertype ether_type then
        if caplen <? offset + VLAN_HDR_LEN then Some None
        else
          let '(has, voff) := if negb has then (true, offset) else (has, voff) in
          et ← load16 (zlen pkt) pkt (offset + 2);
          vlan_loop fuel pkt caplen (ntohs et) (u16 (offset + VLAN_HDR_LEN)) has voff
      else Some (Some (ether_type, offset, has, voff))
  end.

(** The L4 block, the same in the IPv4 and the IPv6 branch: [is_tcp],
    [l4_hdr_len] and the offset after the header. *)
Definition parse_l4 (pkt : list Z) (caplen proto offset : Z) :
    option (option (bool * Z * Z)) :=
  if proto =? IPPROTO_TCP then
    if caplen <? offset + TCP_HDR_LEN then Some None
    else
      offx2 ← load8 (zlen pkt) pkt (offset + 12);
      if Z.shiftr offx2 4 <? 5 then Some None
      else
        let hlen := u16 (Z.shiftr offx2 4 * 4) in
        if caplen <? offset + hlen then Some None
        else Some (Some (true, hlen, u16 (offset + hlen)))
  else if proto =? IPPROTO_UDP then
    if caplen <? offset + UDP_HDR_LEN then Some None
    else Some (Some (false, UDP_HDR_LEN, u16 (offset + UDP_HDR_LEN)))
  else Some None.

(** The IPv4 branch.  Offsets in the header: 0 version/ihl, 2 tot_len,
    6 frag_off, 9 protocol. *)
Definition parse_ipv4 (pkt : list Z) (caplen offset : Z) (has : bool) (voff : Z) :
    option (option packet_parse_result_t) :=
  let ip_off := offset in
  if caplen <? offset + IPV4_HDR_LEN then Some None
  else
    b0 ← load8 (zlen pkt) pkt ip_off;
    let ihl := Z.land b0 15 in
    if ihl <? 5 then Some None
    else
      let hdr_len := u16 (ihl * 4) in
      if caplen <? offset + hdr_len then Some None
      else
        frag_off ← load16 (zlen pkt) pkt (ip_off + 6);
        if negb (Z.land (ntohs frag_off) (Z.lor IPV4_FLAG_MF IPV4_OFFSET_MASK) =? 0)
        then Some None
        else
          let l4_off := u16 (offset + hdr_len) in
          protocol ← load8 (zlen pkt) pkt (ip_off + 9);
          l4 ← parse_l4 pkt caplen protocol l4_off;
          match l4 with
          | None => Some None
          | Some (tcp, l4_len, offset) =>
              tot_len ← load16 (zlen pkt) pkt (ip_off + 2);
              let ip_tot_len := ntohs tot_len in
              let headers_len := u16 (hdr_len + l4_len) in
              if ip_tot_len <? headers_len then Some None
              else Some (Some (ParseResult true false tcp (negb tcp) has
                     0 voff ip_off l4_off offset hdr_len 0 l4_len
                     (u16 (ip_tot_len - headers_len))))
          end.

Definition is_ext_hdr (nexthdr : Z) : bool :=
  (nexthdr =? IPPROTO_HOPOPTS) || (nexthdr =? IPPROTO_ROUTING) || (nexthdr =? IPPROTO_DSTOPTS).

(** The extension header loop: next header, offset and [ipv6_ext_len]. *)
Fixpoint ext_loop (fuel : nat) (pkt : list Z) (caplen nexthdr offset ext_len : Z) :
    option (option (Z * Z * Z)) :=
  match fuel with
  | O => None
  | S fuel =>
      if is_ext_hdr nexthdr then
        if caplen <? offset + 2 then Some None
        else
          ext_nexthdr ← load8 (zlen pkt) pkt offset;
          len8 ← load8 (zlen pkt) pkt (offset + 1);
          let ext_total := u16 ((len8 + 1) * 8) in
          if caplen <? offset + ext_total then Some None
          else ext_loop fuel pkt caplen ext_nexthdr (u16 (offset + ext_total))
                 (u16 (ext_len + ext_total))
      else Some (Some (nexthdr, offset, ext_len))
  end.

(** Each turn of the two loops consumes at least four captured bytes. *)
Definition parse_fuel (caplen : Z) : nat := S (Z.to_nat (caplen / 4)).

(** The IPv6 branch.  Offsets in the header: 4 payload_len, 6 nexthdr. *)
Definition parse_ipv6 (pkt : list Z) (caplen offset : Z) (has : bool) (voff : Z) :
    option (option packet_parse_result_t) :=
  let ip_off := offset in
  if caplen <? offset + IPV6_HDR_LEN then Some None
  else
    nexthdr ← load8 (zlen pkt) pkt (ip_off + 6);
    ext ← ext_loop (parse_fuel caplen) pkt caplen nexthdr (u16 (offset + IPV6_HDR_LEN)) 0;
    match ext with
    | None => Some None
    | Some (nexthdr, l4_off, ext_len) =>
        if nexthdr =? IPPROTO_FRAGMENT then Some None
        else
          l4 ← parse_l4 pkt caplen nexthdr l4_off;
          match l4 with
          | None => Some None
          | Some (tcp, l4_len, offset) =>
              plen ← load16 (zlen pkt) pkt (ip_off + 4);
              let ipv6_payload_len := ntohs plen in
              if ipv6_payload_len <? ext_len + l4_len then Some None
              else Some (Some (ParseResult false true tcp (negb tcp) has
                     0 voff ip_off l4_off offset IPV6_HDR_LEN ext_len l4_len
                     (u16 (ipv6_payload_len - ext_len - l4_len))))
          end
    end.

Definition set_payload_len (r : packet_parse_result_t) (n : Z) : packet_parse_result_t :=
  ParseResult (is_ipv4 r) (is_ipv6 r) (is_tcp r) (is_udp r) (has_vlan r)
    (eth_offset r) (vlan_offset r) (ip_offset r) (l4_offset r) (payload_offset r)
    (ip_hdr_len r) (ipv6_ext_len r) (l4_hdr_len r) n.

(** The final check of the declared length against the captured data. *)
Definition clamp_payload (caplen : Z) (r : packet_parse_result_t) :
    option packet_parse_result_t :=
  if caplen <? payload_offset r then None
  else
    let max_payload := u16 (caplen - payload_offset r) in
    Some (if max_payload <? payload_len r then set_payload_len r max_payload else r).

(** [Some None] is a [false] return, whose result struct no caller reads. *)
Definition parse_packet (pkt : list Z) (caplen : Z) : option (option packet_parse_result_t) :=
  if caplen <? ETHER_HDR_LEN then Some None
  else
    et ← load16 (zlen pkt) pkt 12;
    vlan ← vlan_loop (parse_fuel caplen) pkt caplen (ntohs et) ETHER_HDR_LEN false 0;
    match vlan with
    | None => Some None
    | Some (ether_type, offset, has, voff) =>
        r ← (if ether_type =? ETHERTYPE_IP then parse_ipv4 pkt caplen offset has voff
             else if ether_type =? ETHERTYPE_IPV6 then parse_ipv6 pkt caplen offset has voff
             else Some None);
        match r with
        | None => Some None
        | Some r => Some (clamp_payload caplen r)
        end
    end.

(** [int] division truncates; both operands are positive here. *)
Definition calculate_fragment_count (r : packet_parse_result_t) (max_payload_size : Z) : Z :=
  if (max_payload_size <=? 0) || (payload_len r <=? max_payload_size) then 1
  else Z.quot (payload_len r + max_payload_size - 1) max_payload_size.

(** The "Update IP layer" block on the output buffer of size [cap]. *)
Definition frag_update_ip (sse2 : bool) (cap : Z) (r : packet_parse_result_t)
    (size : Z) (recalc : bool) (b : list Z) : option (list Z) :=
  if is_ipv4 r then
    b ← store16 cap b (ip_offset r + 2) (htons (u16 (ip_hdr_len r + l4_hdr_len r + size)));
    if recalc then
      b ← store16 cap b (ip_offset r + 10) 0;
      check ← calculate_ip_checksum sse2 cap b (ip_offset r);
      store16 cap b (ip_offset r + 10) check
    else Some b
  else if is_ipv6 r then
    store16 cap b (ip_offset r + 4) (htons (u16 (ipv6_ext_len r + l4_hdr_len r + size)))
  else Some b.

Definition frag_ip_ref (r : packet_parse_result_t) : option ip_ref :=
  if is_ipv4 r then Some (Ipv4At (ip_offset r))
  else if is_ipv6 r then Some (Ipv6At (ip_offset r))
  else None.

(** The "Update L4 layer" block. *)
Definition frag_update_l4 (sse2 : bool) (cap : Z) (r : packet_parse_result_t)
    (poff size : Z) (recalc : bool) (b : list Z) : option (list Z) :=
  if is_tcp r then
    seq ← load32 cap b (l4_offset r + 4);
    b ← store32 cap b (l4_offset r + 4) (htonl (u32 (ntohl seq + poff)));
    if recalc then
      let tcp_len := u16 (l4_hdr_len r + size) in
      b ← store16 cap b (l4_offset r + 16) 0;
      match frag_ip_ref r with
      | Some ip =>
          check ← calculate_tcp_checksum sse2 cap b ip (l4_offset r) tcp_len;
          store16 cap b (l4_offset r + 16) check
      | None => Some b
      end
    else Some b
  else if is_udp r then
    let udp_len := u16 (l4_hdr_len r + size) in
    b ← store16 cap b (l4_offset r + 4) (htons udp_len);
    if recalc then
      b ← store16 cap b (l4_offset r + 6) 0;
      match frag_ip_ref r with
      | Some ip =>
          check ← calculate_udp_checksum sse2 cap b ip (l4_offset r) udp_len;
          store16 cap b (l4_offset r + 6) (udp_checksum_for_wire check)
      | None => Some b
      end
    else Some b
  else Some b.

(** The payload bytes of fragment [i]: offset in the payload and size. *)
Definition frag_size (r : packet_parse_result_t) (fragment_index max_payload_size : Z) : Z :=
  let poff := fragment_index * max_payload_size in
  let remaining := payload_len r - poff in
  if max_payload_size <? remaining then max_payload_size else remaining.

(** Returns the fragment length (-1 on error) and the output buffer. *)
Definition build_fragment (sse2 : bool) (r : packet_parse_result_t) (pkt : list Z)
    (fragment_index max_payload_size : Z) (recalc : bool) (cap : Z) (out : list Z) :
    option (Z * list Z) :=
  let poff := fragment_index * max_payload_size in
  let size := frag_size r fragment_index max_payload_size in
  if size <=? 0 then Some (-1, out)
  else
    let header_len := payload_offset r in
    hdr ← bread (zlen pkt) pkt 0 header_len;
    out ← bwrite cap out 0 hdr;
    payload ← bread (zlen pkt) pkt (payload_offset r + poff) size;
    out ← bwrite cap out header_len payload;
    out ← frag_update_ip sse2 cap r size recalc out;
    out ← frag_update_l4 sse2 cap r poff size recalc out;
    Some (header_len + size, out).

(** A TCP packet over IPv4 with a 7-byte payload, cut into chunks of 3. *)
Definition sample_tcp_packet : list Z :=
  [170;187;204;221;238;255; 17;34;51;68;85;102; 8;0;
   69;0;0;47; 18;52;64;0; 64;6;0;0; 10;0;0;1; 10;0;0;2;
   0;80;31;144; 255;255;255;254; 0;0;0;1; 80;24;1;0; 0;0;0;0;
   97;98;99;100;101;102;103].

Definition sample_result : packet_parse_result_t :=
  ParseResult true false true false false 0 0 14 34 54 20 0 20 7.

Example parse_sample : parse_packet sample_tcp_packet 61 = Some (Some sample_result).
Proof. reflexivity. Qed.

Example split_sample :
  calculate_fragment_count sample_result 3 = 3 /\
  build_fragment true sample_result sample_tcp_packet 1 3 true 100 [] =
    Some (57, [170;187;204;221;238;255; 17;34;51;68;85;102; 8;0;
               69;0;0;43; 18;52;64;0; 64;6;20;151; 10;0;0;1; 10;0;0;2;
               0;80;31;144; 0;0;0;1; 0;0;0;1; 80;24;1;0; 176;127;0;0;
               100;101;102]).
Proof. split; vm_compute; reflexivity. Qed.

(** ** What a splittable packet looks like *)

(** IPv6 extension headers from [off] on, ending at next header [nh']. *)
Inductive ext_hdrs (pkt : list Z) (len : Z) : Z -> Z -> Z -> Z -> Prop :=
| ext_hdrs_done nh off : is_ext_hdr nh = false -> ext_hdrs pkt len nh off nh off
| ext_hdrs_ext nh off nh' off' :
    is_ext_hdr nh = true -> off + (bget pkt (off + 1) + 1) * 8 <= len ->
    ext_hdrs pkt len (bget pkt off) (off + (bget pkt (off + 1) + 1) * 8) nh' off' ->
    ext_hdrs pkt len nh off nh' off'.

(** A complete TCP or UDP header at [off]. *)
Definition l4_at (pkt : list Z) (len proto off : Z) (tcp : bool) (hlen : Z) : Prop :=
  (proto = IPPROTO_TCP /\ tcp = true /\ off + 20 <= len /\ 5 <= bget pkt (off + 12) / 16 /\
   hlen = bget pkt (off + 12) / 16 * 4 /\ off + hlen <= len) \/
  (proto = IPPROTO_UDP /\ tcp = false /\ off + 8 <= len /\ hlen = 8).

(** The IPv4 layer: complete header, not a fragment, L4 header inside it. *)
Definition ipv4_at (pkt : list Z) (len off : Z) (r : packet_parse_result_t) (declared : Z) : Prop :=
  let ihl := Z.land (bget pkt off) 15 in
  is_ipv4 r = true /\ is_ipv6 r = false /\ ip_offset r = off /\ ipv6_ext_len r = 0 /\
  off + 20 <= len /\ 5 <= ihl /\ ip_hdr_len r = ihl * 4 /\ off + ihl * 4 <= len /\
  Z.land (net16 pkt (off + 6)) 16383 = 0 /\
  l4_offset r = off + ihl * 4 /\
  l4_at pkt len (bget pkt (off + 9)) (l4_offset r) (is_tcp r) (l4_hdr_len r) /\
  declared = net16 pkt (off + 2) - (ihl * 4 + l4_hdr_len r) /\ 0 <= declared.

(** The IPv6 layer: complete header and extension headers, no fragment header. *)
Definition ipv6_at (pkt : list Z) (len off : Z) (r : packet_parse_result_t) (declared : Z) : Prop :=
  exists nh,
  is_ipv4 r = false /\ is_ipv6 r = true /\ ip_offset r = off /\ ip_hdr_len r = 40 /\
  off + 40 <= len /\
  ext_hdrs pkt len (bget pkt (off + 6)) (off + 40) nh (l4_offset r) /\
  ipv6_ext_len r = l4_offset r - (off + 40) /\
  l4_at pkt len nh (l4_offset r) (is_tcp r) (l4_hdr_len r) /\
  declared = net16 pkt (off + 4) - (ipv6_ext_len r + l4_hdr_len r) /\ 0 <= declared.

(** [r] describes the layers of the first [len] bytes of [pkt]. *)
Definition layers (pkt : list Z) (len : Z) (r : packet_parse_result_t) : Prop :=
  exists off declared,
  14 <= len /\ eth_offset r = 0 /\
  has_vlan r = is_vlan_ethertype (net16 pkt 12) /\
  vlan_offset r = (if has_vlan r then 14 else 0) /\
  is_udp r = negb (is_tcp r) /\ payload_offset r = l4_offset r + l4_hdr_len r /\
  (vlan_tags pkt len (net16 pkt 12) 14 ETHERTYPE_IP off /\ ipv4_at pkt len off r declared \/
   vlan_tags pkt len (net16 pkt 12) 14 ETHERTYPE_IPV6 off /\ ipv6_at pkt len off r declared) /\
  payload_len r = Z.min declared (len - payload_offset r).

Section parse.

(** A captured packet of at most 65535 bytes. *)
Context (pkt : list Z) (len : Z).
Context (Hok : bytes_ok pkt) (Hlen : 0 <= len <= 65535) (Hcap : len <= zlen pkt).

Lemma byte_at i : 0 <= bget pkt i < 256.
Proof using Hok. apply (bytes_ok_bget pkt i Hok). Qed.

Lemma shiftr_4 x : Z.shiftr x 4 = x / 16.
Proof. by rewrite Z.shiftr_div_pow2 by lia. Qed.

Lemma ihl_range x : 0 <= Z.land x 15 < 16.
Proof. change 15 with (Z.ones 4). rewrite Z.land_ones by lia. change (2 ^ 4) with 16. zlia. Qed.

(** *** VLAN tags *)

Lemma vlan_loop_total fuel et off has voff :
  0 <= off <= len -> len - off < 4 * Z.of_nat fuel ->
  vlan_loop fuel pkt len et off has voff <> None.
Proof using Hok Hlen Hcap.
  revert et off has voff. induction fuel as [|fuel IH]; intros et off has voff Ho Hf; [lia|].
  cbn [vlan_loop]. unfold VLAN_HDR_LEN. bcase; [|done]. bcase; [done|].
  destruct (if negb has then _ else _) as [has' voff'].
  rewrite load16_ok by lia. obind. rewrite u16_small by lia. apply IH; lia.
Qed.

Lemma vlan_loop_sound fuel et off has voff et' off' has' voff' :
  0 <= off <= len ->
  vlan_loop fuel pkt len et off has voff = Some (Some (et', off', has', voff')) ->
  vlan_tags pkt len et off et' off' /\ has' = has || is_vlan_ethertype et /\
  voff' = (if has then voff else if is_vlan_ethertype et then off else voff).
Proof using Hok Hlen Hcap.
  revert et off has voff. induction fuel as [|fuel IH]; intros et off has voff Ho H; [done|].
  cbn [vlan_loop] in H. unfold VLAN_HDR_LEN in H.
  destruct (is_vlan_ethertype et) eqn:E.
  - destruct (len <? off + 4) eqn:E2; [done|]. breflect.
    rewrite load16_ok in H by lia.
    destruct has; cbn [negb] in H; cbv iota beta zeta in H; obind_in H;
      rewrite u16_small, ntohs_get16 in H by (lia || done);
      apply IH in H as (Ht & -> & ->); try lia.
    + split; [|done]. by apply vlan_tags_tag; [|unfold VLAN_HDR_LEN; lia|].
    + split; [|done]. by apply vlan_tags_tag; [|unfold VLAN_HDR_LEN; lia|].
  - injection H as <- <- <- <-. rewrite orb_false_r. split; [by constructor|].
    split; [done|]. by destruct has.
Qed.

Lemma vlan_loop_complete fuel et off has voff et' off' :
  vlan_tags pkt len et off et' off' -> 0 <= off <= len -> len - off < 4 * Z.of_nat fuel ->
  vlan_loop fuel pkt len et off has voff =
    Some (Some (et', off', has || is_vlan_ethertype et,
                if has then voff else if is_vlan_ethertype et then off else voff)).
Proof using Hok Hlen Hcap.
  intros H. revert fuel has voff.
  induction H as [et off Hv|et off et' off' Hv Hl Ht IH]; intros [|fuel] has voff Ho Hf; try lia;
    cbn [vlan_loop]; rewrite Hv.
  - rewrite orb_false_r. by destruct has.
  - unfold VLAN_HDR_LEN in *. destruct (Z.ltb_spec len (off + 4)); [lia|].
    rewrite load16_ok by lia.
    destruct has; cbn [negb]; cbv iota beta zeta; obind;
      rewrite u16_small, ntohs_get16 by (lia || done); rewrite IH by lia; [done|].
    by rewrite orb_true_l, orb_true_r.
Qed.

(** *** Extension headers *)

Lemma ext_hdrs_mono nh off nh' off' : ext_hdrs pkt len nh off nh' off' -> off <= off'.
Proof using Hok.
  induction 1 as [|nh off nh' off' Hv Hl Ht IH]; [lia|]. pose proof (byte_at (off + 1)). lia.
Qed.

Lemma ext_hdrs_le nh off nh' off' :
  ext_hdrs pkt len nh off nh' off' -> off <= len -> off' <= len.
Proof using Hok. induction 1 as [|nh off nh' off' Hv Hl Ht IH]; [done|]. intros. apply IH. lia. Qed.

Lemma ext_loop_total fuel nh off ext :
  0 <= off <= len -> len - off < 4 * Z.of_nat fuel ->
  ext_loop fuel pkt len nh off ext <> None.
Proof using Hok Hlen Hcap.
  revert nh off ext. induction fuel as [|fuel IH]; intros nh off ext Ho Hf; [lia|].
  cbn [ext_loop]. bcase; [|done]. bcase; [done|].
  rewrite !load8_ok by lia. obind. pose proof (byte_at (off + 1)).
  rewrite (u16_small ((_ + 1) * 8)) by lia. bcase; [done|].
  rewrite (u16_small (off + _)) by lia. apply IH; lia.
Qed.

Lemma ext_loop_sound fuel nh off ext nh' off' ext' :
  0 <= off <= len -> 0 <= ext -> ext + (len - off) <= 65535 ->
  ext_loop fuel pkt len nh off ext = Some (Some (nh', off', ext')) ->
  ext_hdrs pkt len nh off nh' off' /\ ext' = ext + (off' - off).
Proof using Hok Hlen Hcap.
  revert nh off ext. induction fuel as [|fuel IH]; intros nh off ext Ho He Hs H; [done|].
  cbn [ext_loop] in H. destruct (is_ext_hdr nh) eqn:E.
  - destruct (len <? off + 2) eqn:E2; [done|]. breflect.
    rewrite !load8_ok in H by lia. obind_in H. pose proof (byte_at (off + 1)).
    rewrite (u16_small ((_ + 1) * 8)) in H by lia. cbv zeta in H.
    destruct (len <? off + _) eqn:E3; [done|]. breflect.
    rewrite !u16_small in H by lia.
    apply IH in H as (Ht & ->); [|lia..]. split; [|lia]. by apply ext_hdrs_ext.
  - injection H as <- <- <-. split; [by constructor|lia].
Qed.

Lemma ext_loop_complete fuel nh off ext nh' off' :
  ext_hdrs pkt len nh off nh' off' ->
  0 <= off <= len -> 0 <= ext -> ext + (len - off) <= 65535 -> len - off < 4 * Z.of_nat fuel ->
  ext_loop fuel pkt len nh off ext = Some (Some (nh', off', ext + (off' - off))).
Proof using Hok Hlen Hcap.
  intros H. revert fuel ext.
  induction H as [nh off Hv|nh off nh' off' Hv Hl Ht IH]; intros [|fuel] ext Ho He Hs Hf; try lia;
    cbn [ext_loop]; rewrite Hv.
  - do 3 f_equal. lia.
  - pose proof (byte_at (off + 1)). destruct (Z.ltb_spec len (off + 2)); [lia|].
    rewrite !load8_ok by lia. obind. rewrite (u16_small ((_ + 1) * 8)) by lia. cbv zeta.
    destruct (Z.ltb_spec len (off + (bget pkt (off + 1) + 1) * 8)); [lia|].
    rewrite !u16_small by lia. rewrite IH by lia. do 3 f_equal. lia.
Qed.

(** *** The L4 header *)

Lemma parse_l4_spec proto off :
  0 <= off <= len ->
  (exists tcp hlen, parse_l4 pkt len proto off = Some (Some (tcp, hlen, off + hlen)) /\
     l4_at pkt len proto off tcp hlen /\ 8 <= hlen <= 60 /\ off + hlen <= len) \/
  (parse_l4 pkt len proto off = Some None /\ forall tcp hlen, ~ l4_at pkt len proto off tcp hlen).
Proof using Hok Hlen Hcap.
  intros Ho. unfold parse_l4, l4_at, TCP_HDR_LEN, UDP_HDR_LEN, IPPROTO_TCP, IPPROTO_UDP.
  pose proof (byte_at (off + 12)).
  destruct (Z.eqb_spec proto 6) as [->|Ht].
  - destruct (Z.ltb_spec len (off + 20)).
    { right. split; [done|]. intros tcp hlen [(?&?&?&?)|(?&?&?)]; lia. }
    rewrite load8_ok by lia. obind. rewrite !shiftr_4.
    destruct (Z.ltb_spec (bget pkt (off + 12) / 16) 5).
    { right. split; [done|]. intros tcp hlen [(?&?&?&?)|(?&?&?)]; lia. }
    rewrite (u16_small (_ * 4)) by zlia. cbv zeta.
    destruct (Z.ltb_spec len (off + bget pkt (off + 12) / 16 * 4)).
    { right. split; [done|]. intros tcp hlen [(?&?&?&?&?&?)|(?&?&?)]; lia. }
    left. eexists true, _. rewrite u16_small by zlia. split; [done|].
    split; [left; split_and!; done|]. zlia.
  - destruct (Z.eqb_spec proto 17) as [->|Hu].
    2:{ right. split; [done|]. intros tcp hlen [(?&?)|(?&?)]; lia. }
    destruct (Z.ltb_spec len (off + 8)).
    { right. split; [done|]. intros tcp hlen [(?&?)|(?&?&?&?)]; lia. }
    left. exists false, 8. rewrite u16_small by lia. split; [done|].
    split; [right; split_and!; done|]. lia.
Qed.

Lemma l4_at_det proto off t1 h1 t2 h2 :
  l4_at pkt len proto off t1 h1 -> l4_at pkt len proto off t2 h2 -> t1 = t2 /\ h1 = h2.
Proof.
  unfold l4_at, IPPROTO_TCP, IPPROTO_UDP.
  intros [(?&->&?&?&->&?)|(?&->&?&->)] [(?&->&?&?&->&?)|(?&->&?&->)]; done || lia.
Qed.

(** *** The IP layer *)

(** What both branches establish about the fields they share. *)
Definition common (has : bool) (voff : Z) (r : packet_parse_result_t) : Prop :=
  eth_offset r = 0 /\ has_vlan r = has /\ vlan_offset r = voff /\
  is_udp r = negb (is_tcp r) /\ payload_offset r = l4_offset r + l4_hdr_len r.

Lemma result_ext r1 r2 has voff :
  common has voff r1 -> common has voff r2 ->
  is_ipv4 r1 = is_ipv4 r2 -> is_ipv6 r1 = is_ipv6 r2 -> is_tcp r1 = is_tcp r2 ->
  ip_offset r1 = ip_offset r2 -> l4_offset r1 = l4_offset r2 -> ip_hdr_len r1 = ip_hdr_len r2 ->
  ipv6_ext_len r1 = ipv6_ext_len r2 -> l4_hdr_len r1 = l4_hdr_len r2 ->
  payload_len r1 = payload_len r2 -> r1 = r2.
Proof.
  destruct r1, r2; unfold common; cbn. intros (->&->&->&->&->) (->&->&->&->&->).
  intros. subst. done.
Qed.

(** The outcome of a branch whose layer is described by [P]: a result that
    satisfies it, or a refusal when nothing does. *)
Definition branch_spec (P : packet_parse_result_t -> Z -> Prop) (has : bool) (voff : Z)
    (res : option (option packet_parse_result_t)) : Prop :=
  (exists r, res = Some (Some r) /\ common has voff r /\ P r (payload_len r) /\
     0 <= payload_len r <= 65535 /\ 0 <= payload_offset r <= len) \/
  (res = Some None /\ forall r d, ~ P r d).

Lemma parse_ipv4_spec off has voff :
  0 <= off <= len ->
  branch_spec (ipv4_at pkt len off) has voff (parse_ipv4 pkt len off has voff).
Proof using Hok Hlen Hcap.
  intros Ho. unfold branch_spec, parse_ipv4, ipv4_at, IPV4_HDR_LEN. cbv zeta.
  destruct (Z.ltb_spec len (off + 20)).
  { right. split; [done|]. intros r d (?&?&?&?&?&?). lia. }
  rewrite (load8_ok _ _ off) by lia. obind. pose proof (ihl_range (bget pkt off)) as Hi.
  set (ihl := Z.land (bget pkt off) 15) in *. rewrite !(u16_small (ihl * 4)) by lia.
  destruct (Z.ltb_spec ihl 5).
  { right. split; [done|]. intros r d (?&?&?&?&?&?&?). lia. }
  destruct (Z.ltb_spec len (off + ihl * 4)).
  { right. split; [done|]. intros r d (?&?&?&?&?&?&?&?&?). lia. }
  rewrite (load16_ok _ _ (off + 6)) by lia. obind. rewrite ntohs_get16 by done.
  change (Z.lor IPV4_FLAG_MF IPV4_OFFSET_MASK) with 16383.
  destruct (Z.eqb_spec (Z.land (net16 pkt (off + 6)) 16383) 0) as [Hf|Hf]; cbn [negb].
  2:{ right. split; [done|]. intros r d (?&?&?&?&?&?&?&?&?&?). done. }
  rewrite load8_ok by lia. obind. rewrite (u16_small (off + _)) by lia.
  destruct (parse_l4_spec (bget pkt (off + 9)) (off + ihl * 4) ltac:(lia))
    as [(tcp & hlen & -> & Hl4 & Hh & Hhl)|(-> & Hno)]; obind.
  2:{ right. split; [done|]. intros r d (?&?&?&?&?&?&?&?&?&E&Hl&?). rewrite E in Hl. by eapply Hno. }
  rewrite load16_ok by lia. obind. rewrite ntohs_get16 by done.
  pose proof (net16_range pkt (off + 2) Hok). rewrite (u16_small (ihl * 4 + hlen)) by lia.
  destruct (Z.ltb_spec (net16 pkt (off + 2)) (ihl * 4 + hlen)).
  { right. split; [done|]. intros r d (?&?&?&?&?&?&?&?&?&E&Hl&?). rewrite E in Hl.
    destruct (l4_at_det _ _ _ _ _ _ Hl Hl4) as [_ E']. lia. }
  left. eexists. split; [done|]. cbn. rewrite u16_small by lia.
  split_and!; try done; lia.
Qed.

Lemma ext_hdrs_det nh off n1 o1 :
  ext_hdrs pkt len nh off n1 o1 ->
  forall n2 o2, ext_hdrs pkt len nh off n2 o2 -> n1 = n2 /\ o1 = o2.
Proof.
  induction 1 as [|nh off nh' off' Hv Hl Ht IH]; intros n2 o2 H2; inversion H2; subst; auto; congruence.
Qed.

Lemma parse_ipv6_spec off has voff :
  0 <= off <= len ->
  branch_spec (ipv6_at pkt len off) has voff (parse_ipv6 pkt len off has voff).
Proof using Hok Hlen Hcap.
  intros Ho. unfold branch_spec, parse_ipv6, ipv6_at, IPV6_HDR_LEN. cbv zeta.
  destruct (Z.ltb_spec len (off + 40)).
  { right. split; [done|]. intros r d (?&?&?&?&?&?&?). lia. }
  rewrite load8_ok by lia. obind. rewrite (u16_small (off + 40)) by lia.
  pose proof (ext_loop_total (parse_fuel len) (bget pkt (off + 6)) (off + 40) 0 ltac:(lia)) as Ht.
  specialize (Ht ltac:(unfold parse_fuel; zlia)).
  destruct (ext_loop _ pkt len _ (off + 40) 0) as [[[[nh l4o] ext]|]|] eqn:Ee; obind; [| |done].
  2:{ right. split; [done|]. intros r d (nh&?&?&?&?&?&Hx&?).
      eapply ext_loop_complete with (fuel := parse_fuel len) (ext := 0) in Hx; try lia.
      - congruence.
      - unfold parse_fuel. zlia. }
  apply ext_loop_sound in Ee as [Hx ->]; [|lia..].
  pose proof (ext_hdrs_mono _ _ _ _ Hx). pose proof (ext_hdrs_le _ _ _ _ Hx ltac:(lia)).
  assert (forall nh' l4o', ext_hdrs pkt len (bget pkt (off + 6)) (off + 40) nh' l4o' ->
            nh' = nh /\ l4o' = l4o) as Hdet.
  { intros nh' l4o' Hx'. destruct (ext_hdrs_det _ _ _ _ Hx _ _ Hx'); by subst. }
  destruct (Z.eqb_spec nh IPPROTO_FRAGMENT) as [->|Hnf].
  { right. split; [done|]. intros r d (nh'&?&?&?&?&?&Hx'&?&Hl&?).
    destruct (Hdet _ _ Hx') as [-> E].
    unfold l4_at, IPPROTO_FRAGMENT, IPPROTO_TCP, IPPROTO_UDP in Hl. lia. }
  destruct (parse_l4_spec nh l4o ltac:(lia))
    as [(tcp & hlen & -> & Hl4 & Hh & Hhl)|(-> & Hno)]; obind.
  2:{ right. split; [done|]. intros r d (nh'&?&?&?&?&?&Hx'&?&Hl&?).
      destruct (Hdet _ _ Hx') as [-> E]. rewrite E in Hl. by eapply Hno. }
  rewrite load16_ok by lia. obind. rewrite ntohs_get16 by done.
  pose proof (net16_range pkt (off + 4) Hok).
  destruct (Z.ltb_spec (net16 pkt (off + 4)) (0 + (l4o - (off + 40)) + hlen)).
  { right. split; [done|]. intros r d (nh'&?&?&?&?&?&Hx'&?&Hl&?).
    destruct (Hdet _ _ Hx') as [-> E]. rewrite E in Hl.
    destruct (l4_at_det _ _ _ _ _ _ Hl Hl4) as [_ E']. lia. }
  left. eexists. split; [done|]. cbn. rewrite u16_small by lia.
  split_and!; try done; [|lia..].
  exists nh. split_and!; try done; lia.
Qed.

(** *** The whole parser *)

Lemma ipv4_at_det off r1 d1 r2 d2 :
  ipv4_at pkt len off r1 d1 -> ipv4_at pkt len off r2 d2 ->
  is_ipv4 r1 = is_ipv4 r2 /\ is_ipv6 r1 = is_ipv6 r2 /\ is_tcp r1 = is_tcp r2 /\
  ip_offset r1 = ip_offset r2 /\ l4_offset r1 = l4_offset r2 /\ ip_hdr_len r1 = ip_hdr_len r2 /\
  ipv6_ext_len r1 = ipv6_ext_len r2 /\ l4_hdr_len r1 = l4_hdr_len r2 /\ d1 = d2.
Proof.
  unfold ipv4_at. intros (->&->&->&->&_&_&->&_&_&E1&L1&->&_) (->&->&->&->&_&_&->&_&_&E2&L2&->&_).
  rewrite E1 in *. rewrite E2 in *. destruct (l4_at_det _ _ _ _ _ _ L1 L2) as [-> ->]. by split_and!.
Qed.

Lemma ipv6_at_det off r1 d1 r2 d2 :
  ipv6_at pkt len off r1 d1 -> ipv6_at pkt len off r2 d2 ->
  is_ipv4 r1 = is_ipv4 r2 /\ is_ipv6 r1 = is_ipv6 r2 /\ is_tcp r1 = is_tcp r2 /\
  ip_offset r1 = ip_offset r2 /\ l4_offset r1 = l4_offset r2 /\ ip_hdr_len r1 = ip_hdr_len r2 /\
  ipv6_ext_len r1 = ipv6_ext_len r2 /\ l4_hdr_len r1 = l4_hdr_len r2 /\ d1 = d2.
Proof.
  unfold ipv6_at. intros (n1&->&->&->&->&_&X1&->&L1&->&_) (n2&->&->&->&->&_&X2&->&L2&->&_).
  destruct (ext_hdrs_det _ _ _ _ X1 _ _ X2) as [<- E]. rewrite E in *.
  destruct (l4_at_det _ _ _ _ _ _ L1 L2) as [-> ->]. by split_and!.
Qed.

Lemma clamp_payload_spec r :
  0 <= payload_len r <= 65535 -> 0 <= payload_offset r <= len ->
  clamp_payload len r =
    Some (set_payload_len r (Z.min (payload_len r) (len - payload_offset r))).
Proof using Hlen.
  intros. unfold clamp_payload. destruct (Z.ltb_spec len (payload_offset r)); [lia|].
  rewrite u16_small by lia. cbv zeta. f_equal.
  destruct (Z.ltb_spec (len - payload_offset r) (payload_len r)); [f_equal; lia|].
  replace (Z.min _ _) with (payload_len r) by lia. by destruct r.
Qed.

(** The parser on any packet: no access outside it, no divergence, and the
    outcome is the layer description. *)
Lemma parse_packet_spec :
  (exists r, parse_packet pkt len = Some (Some r) /\ layers pkt len r) \/
  (parse_packet pkt len = Some None /\ forall r, ~ layers pkt len r).
Proof using Hok Hlen Hcap.
  unfold parse_packet, ETHER_HDR_LEN. destruct (Z.ltb_spec len 14).
  { right. split; [done|]. intros r (?&?&?&?). lia. }
  rewrite load16_ok by lia. obind. rewrite ntohs_get16 by done.
  pose proof (vlan_loop_total (parse_fuel len) (net16 pkt 12) 14 false 0 ltac:(lia)) as Ht.
  specialize (Ht ltac:(unfold parse_fuel; zlia)).
  destruct (vlan_loop _ pkt len _ 14 false 0) as [[[[[et off] has] voff]|]|] eqn:Ev; obind; [| |done].
  2:{ right. split; [done|]. intros r (off&d&?&?&?&?&?&?&[[Hv _]|[Hv _]]&?);
      (eapply vlan_loop_complete with (fuel := parse_fuel len) (has := false) (voff := 0) in Hv;
        [congruence|lia|unfold parse_fuel; zlia]). }
  apply vlan_loop_sound in Ev as (Hv & Hhas & Hvoff); [|lia]. cbn [orb] in Hhas.
  pose proof (vlan_tags_mono _ _ _ _ _ _ Hv). pose proof (vlan_tags_end _ _ _ _ _ _ Hv) as [_ Hend].
  assert (0 <= off <= len) as Ho by lia. clear Hend Ht.
  destruct (Z.eqb_spec et ETHERTYPE_IP) as [->|Hn4].
  { destruct (parse_ipv4_spec off has voff Ho) as [(r & -> & Hc & H4 & Hp & Hpo)|[-> Hno]]; obind.
    - left. eexists. rewrite clamp_payload_spec by done. split; [done|].
      destruct Hc as (?&Eh&Ev&?&?). exists off, (payload_len r). cbn [set_payload_len eth_offset
        has_vlan vlan_offset is_udp is_tcp payload_offset l4_offset l4_hdr_len payload_len].
      rewrite Eh, Ev, Hvoff, Hhas. split_and!; try done. by left.
    - right. split; [done|]. intros r (off'&d&?&?&?&?&?&?&[[Hv' H4]|[Hv' _]]&?);
        destruct (vlan_tags_det _ _ _ _ _ _ Hv _ _ Hv') as [? <-]; [by eapply Hno|done]. }
  destruct (Z.eqb_spec et ETHERTYPE_IPV6) as [->|Hn6].
  { destruct (parse_ipv6_spec off has voff Ho) as [(r & -> & Hc & H4 & Hp & Hpo)|[-> Hno]]; obind.
    - left. eexists. rewrite clamp_payload_spec by done. split; [done|].
      destruct Hc as (?&Eh&Ev&?&?). exists off, (payload_len r). cbn [set_payload_len eth_offset
        has_vlan vlan_offset is_udp is_tcp payload_offset l4_offset l4_hdr_len payload_len].
      rewrite Eh, Ev, Hvoff, Hhas. split_and!; try done. by right.
    - right. split; [done|]. intros r (off'&d&?&?&?&?&?&?&[[Hv' _]|[Hv' H6]]&?);
        destruct (vlan_tags_det _ _ _ _ _ _ Hv _ _ Hv') as [? <-]; [done|by eapply Hno]. }
  right. split; [done|]. intros r (off'&d&?&?&?&?&?&?&[[Hv' _]|[Hv' _]]&?);
    destruct (vlan_tags_det _ _ _ _ _ _ Hv _ _ Hv') as [? <-]; done.
Qed.

Lemma layers_det r1 r2 : layers pkt len r1 -> layers pkt len r2 -> r1 = r2.
Proof.
  intros (o1&d1&_&Ee1&Eh1&Ev1&Eu1&Ep1&L1&El1) (o2&d2&_&Ee2&Eh2&Ev2&Eu2&Ep2&L2&El2).
  assert (exists d, is_ipv4 r1 = is_ipv4 r2 /\ is_ipv6 r1 = is_ipv6 r2 /\ is_tcp r1 = is_tcp r2 /\
    ip_offset r1 = ip_offset r2 /\ l4_offset r1 = l4_offset r2 /\ ip_hdr_len r1 = ip_hdr_len r2 /\
    ipv6_ext_len r1 = ipv6_ext_len r2 /\ l4_hdr_len r1 = l4_hdr_len r2 /\ d1 = d /\ d2 = d)
    as (d&?&?&?&?&?&?&?&?&?&?).
  { destruct L1 as [[V1 I1]|[V1 I1]], L2 as [[V2 I2]|[V2 I2]];
      destruct (vlan_tags_det _ _ _ _ _ _ V1 _ _ V2) as [E <-]; try done; exists d1;
      [pose proof (ipv4_at_det _ _ _ _ _ I1 I2) as HI|pose proof (ipv6_at_det _ _ _ _ _ I1 I2) as HI];
      destruct HI as (?&?&?&?&?&?&?&?&<-); by split_and!. }
  assert (vlan_offset r2 = vlan_offset r1) by (by rewrite Ev1, Ev2, Eh1, Eh2).
  apply (result_ext r1 r2 (has_vlan r1) (vlan_offset r1)); try done; unfold common; split_and?; congruence.
Qed.
End parse.

(** ** Fragments *)

(** Where the layers of a described packet lie. *)
Record geom (b : list Z) (r : packet_parse_result_t) : Prop := Geom {
  g_ip : 14 <= ip_offset r;
  g_ver : is_ipv4 r = true /\ is_ipv6 r = false /\ 20 <= ip_hdr_len r /\
            ip_hdr_len r = Z.land (bget b (ip_offset r)) 15 * 4 /\
            l4_offset r = ip_offset r + ip_hdr_len r /\ ipv6_ext_len r = 0 \/
          is_ipv4 r = false /\ is_ipv6 r = true /\ ip_hdr_len r = 40 /\ 0 <= ipv6_ext_len r /\
            l4_offset r = ip_offset r + 40 + ipv6_ext_len r;
  g_l4 : is_tcp r = true /\ is_udp r = false /\ 20 <= l4_hdr_len r \/
         is_tcp r = false /\ is_udp r = true /\ l4_hdr_len r = 8;
  g_payload : payload_offset r = l4_offset r + l4_hdr_len r;
}.

Lemma l4_at_geom pkt len proto off tcp hlen :
  l4_at pkt len proto off tcp hlen ->
  off + hlen <= len /\ (tcp = true /\ 20 <= hlen \/ tcp = false /\ hlen = 8).
Proof. unfold l4_at. intros [(?&->&?&?&->&?)|(?&->&?&->)]; (split; [lia|]); [left|right]; (split; [done|lia]). Qed.

Lemma layers_geom pkt len r :
  bytes_ok pkt -> layers pkt len r ->
  geom pkt r /\ payload_offset r <= len /\ 0 <= payload_len r <= len - payload_offset r.
Proof.
  intros Hok (off&d&Hl&He&Hh&Hv&Hu&Hp&Hip&Hpl).
  assert (forall tcp, is_tcp r = tcp -> is_udp r = negb tcp) as Hudp by (intros tcp <-; done).
  destruct Hip as [[Hvt (E4&E6&Eo&Ex&?&?&Eih&?&?&El&L4&->&?)]|[Hvt (nh&E4&E6&Eo&Ei&?&Hx&Ex&L4&->&?)]];
    apply vlan_tags_mono in Hvt; apply l4_at_geom in L4 as [Hle L4];
    (split; [|lia]); (split; [lia| |destruct L4 as [[Et ?]|[Et ?]]; rewrite (Hudp _ Et); [left|right]; auto|done]).
  - left. rewrite Eo, Eih in *. split_and!; try done; lia.
  - apply ext_hdrs_mono in Hx; [|done]. right. split_and!; try done; lia.
Qed.

(** The header bytes a fragment may change. *)
Definition rewritten (r : packet_parse_result_t) (recalc : bool) (i : Z) : Prop :=
  is_ipv4 r = true /\ (ip_offset r + 2 <= i < ip_offset r + 4 \/
                       recalc = true /\ ip_offset r + 10 <= i < ip_offset r + 12) \/
  is_ipv6 r = true /\ ip_offset r + 4 <= i < ip_offset r + 6 \/
  is_tcp r = true /\ (l4_offset r + 4 <= i < l4_offset r + 8 \/
                      recalc = true /\ l4_offset r + 16 <= i < l4_offset r + 18) \/
  is_udp r = true /\ (l4_offset r + 4 <= i < l4_offset r + 6 \/
                      recalc = true /\ l4_offset r + 6 <= i < l4_offset r + 8).

Definition same_except (R : Z -> Prop) (b b' : list Z) : Prop :=
  forall i, 0 <= i -> ~ R i -> bget b' i = bget b i.

Lemma same_except_trans R b1 b2 b3 :
  same_except R b1 b2 -> same_except R b2 b3 -> same_except R b1 b3.
Proof. intros H1 H2 i Hi HR. rewrite (H2 i Hi HR). by apply H1. Qed.

Lemma same_except_bput (R : Z -> Prop) b off d :
  0 <= off -> (forall i, off <= i < off + zlen d -> R i) -> same_except R b (bput b off d).
Proof.
  intros Ho H i Hi HR. apply bget_bput_out; try done.
  destruct (decide (off <= i < off + zlen d)) as [Hin|]; [|lia]. by destruct HR; apply H.
Qed.

Lemma same_except_bslice R b b' o n :
  same_except R b b' -> 0 <= o -> (forall i, o <= i < o + n -> ~ R i) -> bslice b' o n = bslice b o n.
Proof. intros H Ho HR. apply bslice_ext. intros i Hi. apply H; [lia|]. apply HR. lia. Qed.

Lemma same_except_net16 R b b' o :
  same_except R b b' -> 0 <= o -> ~ R o -> ~ R (o + 1) -> net16 b' o = net16 b o.
Proof. intros H Ho H1 H2. apply net16_ext; apply H; (done || lia). Qed.

Lemma get16_bput_zero b off : 0 <= off -> get16 (bput b off (le16 0)) off = 0.
Proof. intros. by apply get16_bput_le16. Qed.

Section update.
Context (sse2 : bool) (cap : Z) (r : packet_parse_result_t) (size : Z) (recalc : bool).
Context (Hsize : 0 < size) (Hcap : payload_offset r + size <= cap).
Context (Htot : payload_offset r + size <= 65535).

(** Offset, width and value of the length field of the IP header. *)
Definition ip_len_off : Z := if is_ipv4 r then ip_offset r + 2 else ip_offset r + 4.
Definition ip_len_val : Z :=
  (if is_ipv4 r then ip_hdr_len r else ipv6_ext_len r) + l4_hdr_len r + size.

Definition ip_touched (i : Z) : Prop :=
  is_ipv4 r = true /\ (ip_offset r + 2 <= i < ip_offset r + 4 \/
                       recalc = true /\ ip_offset r + 10 <= i < ip_offset r + 12) \/
  is_ipv6 r = true /\ ip_offset r + 4 <= i < ip_offset r + 6.

(** Zeroing a checksum field and filling in a value. *)
Lemma zero_then_set (R : Z -> Prop) b off v :
  bytes_ok b -> 0 <= off -> R off -> R (off + 1) ->
  bytes_ok (bput (bput b off (le16 0)) off (le16 v)) /\
  same_except R b (bput (bput b off (le16 0)) off (le16 v)).
Proof using.
  intros Hb Ho R0 R1. split; [auto with cprobe|].
  assert (forall i, off <= i < off + 2 -> R i) as HR.
  { intros i Hi. destruct (Z.eq_dec i off) as [->|]; [done|].
    by replace i with (off + 1) by lia. }
  eapply same_except_trans; apply same_except_bput; rewrite ?le16_zlen; try done.
Qed.

Lemma frag_update_ip_ok b :
  bytes_ok b -> geom b r ->
  exists b', frag_update_ip sse2 cap r size recalc b = Some b' /\ bytes_ok b' /\
    same_except ip_touched b b' /\ net16 b' ip_len_off = ip_len_val /\
    (recalc = true -> is_ipv4 r = true -> cksum_ok 0 (bslice b' (ip_offset r) (ip_hdr_len r))).
Proof using Hsize Hcap Htot.
  intros Hb [Hip Hver Hl4 Hp].
  unfold frag_update_ip, ip_len_off, ip_len_val.
  destruct Hver as [(E4 & E6 & Hih & Hihe & Hl & Hx)|(E4 & E6 & Hih & Hx & Hl)]; rewrite E4, ?E6.
  2:{ rewrite store16_net, u16_small by lia. eexists. split; [done|].
      split; [auto with cprobe|]. rewrite net16_bput_be16 by lia.
      split; [|done]. apply same_except_bput; [lia|]. rewrite be16_zlen. intros i Hi.
      right. split; [done|lia]. }
  rewrite store16_net, u16_small by lia. obind.
  set (b1 := bput b (ip_offset r + 2) (be16 _)).
  assert (bytes_ok b1) as Hb1 by (subst b1; auto with cprobe).
  assert (same_except ip_touched b b1) as Hs1.
  { apply same_except_bput; [lia|]. rewrite be16_zlen. intros i Hi. left. split; [done|lia]. }
  assert (net16 b1 (ip_offset r + 2) = ip_hdr_len r + l4_hdr_len r + size) as Hlen
    by (apply net16_bput_be16; lia).
  destruct recalc eqn:Er; [|by exists b1].
  rewrite (store16_ok _ _ _ 0) by lia. obind. set (b2 := bput b1 (ip_offset r + 10) (le16 0)).
  assert (bytes_ok b2) as Hb2 by (subst b2; auto with cprobe).
  assert (Z.land (bget b2 (ip_offset r)) 15 * 4 = ip_hdr_len r) as Hihl.
  { subst b2 b1. rewrite !bget_bput_out by (rewrite ?le16_zlen, ?be16_zlen; lia). done. }
  rewrite calculate_ip_checksum_ok by (rewrite ?Hihl; (done || lia)). obind.
  rewrite Hihl, store16_ok by lia. eexists. split; [done|].
  set (v := cksum_finish _).
  destruct (zero_then_set ip_touched b1 (ip_offset r + 10) v Hb1 ltac:(lia)) as [Hb3 Hs3].
  { left. split; [done|]. rewrite Er. right. lia. }
  { left. split; [done|]. rewrite Er. right. lia. }
  split; [done|]. split; [by eapply same_except_trans|].
  split.
  { rewrite <- Hlen. unfold b2. apply net16_ext; rewrite (bget_bput_out (bput b1 _ _)), (bget_bput_out b1) by (rewrite ?le16_zlen; lia); done. }
  intros _ _. apply set_field_verifies; try (reflexivity || lia); [apply cksum_finish_range|apply get16_bput_zero; lia|].
  rewrite Z.add_0_l. apply cksum_verifies.
  pose proof (sum16_slice_bound b2 (ip_offset r) (ip_hdr_len r) Hb2 ltac:(lia)) as Hsb.
  fold b2. zlia.
Qed.

Definition l4_touched (i : Z) : Prop :=
  is_tcp r = true /\ (l4_offset r + 4 <= i < l4_offset r + 8 \/
                      recalc = true /\ l4_offset r + 16 <= i < l4_offset r + 18) \/
  is_udp r = true /\ (l4_offset r + 4 <= i < l4_offset r + 6 \/
                      recalc = true /\ l4_offset r + 6 <= i < l4_offset r + 8).

(** The IP header the pseudo header of [r] is taken from. *)
Definition the_ip : ip_ref :=
  if is_ipv4 r then Ipv4At (ip_offset r) else Ipv6At (ip_offset r).
Definition the_proto : Z := if is_tcp r then IPPROTO_TCP else IPPROTO_UDP.
Definition l4_len : Z := l4_hdr_len r + size.

Definition l4_cksum_ok (b : list Z) : Prop :=
  cksum_ok (pseudo_sum b the_ip the_proto l4_len) (bslice b (l4_offset r) l4_len).

Lemma the_ip_in b : geom b r -> frag_ip_ref r = Some the_ip /\ ip_ref_in cap the_ip.
Proof using Hsize Hcap.
  intros [Hip Hver Hl4 Hp]. unfold frag_ip_ref, the_ip.
  destruct Hver as [(E4 & E6 & Hih & Hihe & Hl & Hx)|(E4 & E6 & Hih & Hx & Hl)]; rewrite E4, ?E6;
    (split; [done|]); cbn [ip_ref_in]; lia.
Qed.

(** The pseudo header is not touched by writes to the L4 header. *)
Lemma pseudo_sum_bput b off d p n :
  geom b r -> l4_offset r <= off -> pseudo_sum (bput b off d) the_ip p n = pseudo_sum b the_ip p n.
Proof using.
  intros [Hip Hver Hl4 Hp] Ho. unfold pseudo_sum, the_ip.
  destruct Hver as [(-> & _ & Hih & Hihe & Hl & Hx)|(-> & _ & Hih & Hx & Hl)];
    rewrite bslice_bput_out by lia; done.
Qed.

Lemma geom_bput b off d :
  geom b r -> l4_offset r <= off -> geom (bput b off d) r.
Proof using.
  intros [Hip Hver Hl4 Hp] Ho. split; try done.
  destruct Hver as [(E4 & E6 & Hih & Hihe & Hl & Hx)|Hv6]; [left|by right].
  rewrite bget_bput_out by lia. by split_and!.
Qed.

(** Filling in the L4 checksum over a zeroed field at [l4_offset + k]. *)
Lemma fill_l4_cksum b k v :
  bytes_ok b -> geom b r -> 0 <= k -> k mod 2 = 0 -> k + 2 <= l4_hdr_len r ->
  get16 b (l4_offset r + k) = 0 -> 0 <= v < 65536 ->
  cksum_fold (pseudo_sum b the_ip the_proto l4_len + sum16 (bslice b (l4_offset r) l4_len) + v) = 65535 ->
  l4_cksum_ok (bput b (l4_offset r + k) (le16 v)).
Proof using Hsize.
  intros Hb Hg Hk He Hkl H0 Hv Hf. unfold l4_cksum_ok. rewrite pseudo_sum_bput by (done || lia).
  pose proof Hg as [Hip Hver Hl4 Hp].
  apply set_field_verifies; try done; unfold l4_len in *; lia.
Qed.

(** What the L4 block leaves behind. *)
Definition l4_updated (b : list Z) (poff : Z) (res : option (list Z)) : Prop :=
  exists b', res = Some b' /\ bytes_ok b' /\
    same_except l4_touched b b' /\
    (is_tcp r = true -> net32 b' (l4_offset r + 4) = u32 (net32 b (l4_offset r + 4) + poff)) /\
    (is_udp r = true -> net16 b' (l4_offset r + 4) = l4_len) /\
    (recalc = true -> l4_cksum_ok b').

Lemma geom_l4 b : geom b r -> 14 <= l4_offset r.
Proof using. intros [Hip Hver Hl4 Hp]. destruct Hver; lia. Qed.

Lemma frag_tcp_ok b poff :
  bytes_ok b -> geom b r -> 0 <= poff -> is_tcp r = true -> is_udp r = false -> 20 <= l4_hdr_len r ->
  l4_updated b poff (frag_update_l4 sse2 cap r poff size recalc b).
Proof using Hsize Hcap Htot.
  intros Hb Hg Hpo Et Eu Hlh. destruct (the_ip_in b Hg) as [Hipr Hin].
  pose proof (g_payload _ _ Hg) as Hp. pose proof (geom_l4 b Hg) as Hlo.
  unfold frag_update_l4, l4_updated. rewrite Hipr, Et, ?Eu.
  rewrite load32_ok by lia. obind. rewrite ntohl_get32 by done.
  rewrite store32_net by lia. obind.
  set (b1 := bput b (l4_offset r + 4) (be32 _)).
  assert (bytes_ok b1) as Hb1 by (subst b1; auto with cprobe).
  assert (geom b1 r) as Hg1 by (apply geom_bput; [done|lia]).
  assert (same_except l4_touched b b1) as Hs1.
  { apply same_except_bput; [lia|]. rewrite be32_zlen. intros i Hi. left. split; [done|lia]. }
  assert (net32 b1 (l4_offset r + 4) = u32 (net32 b (l4_offset r + 4) + poff)) as Hseq.
  { subst b1. rewrite net32_bput_be32; [done|lia|apply u32_range]. }
  destruct recalc eqn:Er; [|by exists b1].
  rewrite (store16_ok _ _ _ 0), u16_small by lia. obind. cbv zeta.
  set (b2 := bput b1 (l4_offset r + 16) (le16 0)).
  assert (bytes_ok b2) as Hb2 by (subst b2; auto with cprobe).
  assert (geom b2 r) as Hg2 by (apply geom_bput; [done|lia]).
  rewrite calculate_tcp_checksum_ok by (done || lia). obind. rewrite store16_ok by lia.
  eexists. split; [done|]. set (v := cksum_finish _).
  destruct (zero_then_set l4_touched b1 (l4_offset r + 16) v Hb1 ltac:(lia)) as [Hb3 Hs3].
  { left. split; [done|]. rewrite Er. right. lia. }
  { left. split; [done|]. rewrite Er. right. lia. }
  split; [done|]. split; [by eapply same_except_trans|]. split; [|split; [done|]].
  { intros _. rewrite <- Hseq. unfold b2. apply net32_ext. intros k Hk.
    rewrite (bget_bput_out (bput b1 _ _)), (bget_bput_out b1) by (rewrite ?le16_zlen; lia). done. }
  intros _. apply fill_l4_cksum; try (done || lia); [apply get16_bput_zero; lia|apply cksum_finish_range|].
  unfold the_proto. rewrite Et. apply cksum_verifies. apply l4_sum_small; [done|unfold l4_len; lia].
Qed.

Lemma frag_udp_ok b poff :
  bytes_ok b -> geom b r -> 0 <= poff -> is_tcp r = false -> is_udp r = true -> l4_hdr_len r = 8 ->
  l4_updated b poff (frag_update_l4 sse2 cap r poff size recalc b).
Proof using Hsize Hcap Htot.
  intros Hb Hg Hpo Et Eu Hlh. destruct (the_ip_in b Hg) as [Hipr Hin].
  pose proof (g_payload _ _ Hg) as Hp. pose proof (geom_l4 b Hg) as Hlo.
  unfold frag_update_l4, l4_updated. rewrite Hipr, Et, ?Eu.
  rewrite store16_net, u16_small by lia. obind.
  set (b1 := bput b (l4_offset r + 4) (be16 _)).
  assert (bytes_ok b1) as Hb1 by (subst b1; auto with cprobe).
  assert (geom b1 r) as Hg1 by (apply geom_bput; [done|lia]).
  assert (same_except l4_touched b b1) as Hs1.
  { apply same_except_bput; [lia|]. rewrite be16_zlen. intros i Hi. right. split; [done|lia]. }
  assert (net16 b1 (l4_offset r + 4) = l4_len) as Hlen by (unfold l4_len; apply net16_bput_be16; lia).
  destruct recalc eqn:Er; [|by exists b1].
  rewrite (store16_ok _ _ _ 0) by lia. obind. cbv zeta.
  set (b2 := bput b1 (l4_offset r + 6) (le16 0)).
  assert (bytes_ok b2) as Hb2 by (subst b2; auto with cprobe).
  assert (geom b2 r) as Hg2 by (apply geom_bput; [done|lia]).
  rewrite calculate_udp_checksum_ok by (done || lia). obind. rewrite store16_ok by lia.
  eexists. split; [done|]. set (v := udp_checksum_for_wire _).
  destruct (zero_then_set l4_touched b1 (l4_offset r + 6) v Hb1 ltac:(lia)) as [Hb3 Hs3].
  { right. split; [done|]. rewrite Er. right. lia. }
  { right. split; [done|]. rewrite Er. right. lia. }
  split; [done|]. split; [by eapply same_except_trans|]. split; [done|split].
  { intros _. rewrite <- Hlen. unfold b2. apply net16_ext;
    rewrite (bget_bput_out (bput b1 _ _)), (bget_bput_out b1) by (rewrite ?le16_zlen; lia); done. }
  intros _. apply fill_l4_cksum; try (done || lia); [apply get16_bput_zero; lia| |].
  { assert (0 < v < 65536) by apply udp_checksum_for_wire_range, cksum_finish_range. lia. }
  unfold the_proto. rewrite Et. apply udp_wire_verifies. apply l4_sum_small; [done|unfold l4_len; lia].
Qed.

Lemma frag_update_l4_ok b poff :
  bytes_ok b -> geom b r -> 0 <= poff ->
  l4_updated b poff (frag_update_l4 sse2 cap r poff size recalc b).
Proof using Hsize Hcap Htot.
  intros Hb Hg Hpo. destruct (g_l4 _ _ Hg) as [(?&?&?)|(?&?&?)];
    [by apply frag_tcp_ok|by apply frag_udp_ok].
Qed.
End update.

(** The fragment of [size] payload bytes from [poff] on, in a buffer. *)
Record is_fragment (pkt : list Z) (r : packet_parse_result_t) (poff size : Z) (recalc : bool)
    (out : list Z) : Prop := Fragment {
  fr_payload : bslice out (payload_offset r) size = bslice pkt (payload_offset r + poff) size;
  fr_headers : forall i, 0 <= i < payload_offset r -> ~ rewritten r recalc i -> bget out i = bget pkt i;
  fr_layers : layers out (payload_offset r + size) (set_payload_len r size);
  fr_ip_len : net16 out (ip_len_off r) = ip_len_val r size;
  fr_seq : is_tcp r = true -> net32 out (l4_offset r + 4) = u32 (net32 pkt (l4_offset r + 4) + poff);
  fr_udp_len : is_udp r = true -> net16 out (l4_offset r + 4) = l4_len r size;
  fr_ip_cksum : recalc = true -> is_ipv4 r = true ->
                cksum_ok 0 (bslice out (ip_offset r) (ip_hdr_len r));
  fr_l4_cksum : recalc = true -> l4_cksum_ok r size out;
}.

Lemma ext_hdrs_ext' pkt pkt2 len len2 nh off nh' off' :
  bytes_ok pkt -> ext_hdrs pkt len nh off nh' off' -> 0 <= off ->
  (forall i, off <= i < off' -> bget pkt2 i = bget pkt i) -> off' <= len2 ->
  ext_hdrs pkt2 len2 nh off nh' off'.
Proof.
  intros Hok H. induction H as [|nh off nh' off' Hv Hl Ht IH]; intros Ho Hb Hl2; [by constructor|].
  pose proof (ext_hdrs_mono _ _ Hok _ _ _ _ Ht). pose proof (bytes_ok_bget pkt (off + 1) Hok) as Hr.
  unfold byte_ok in Hr. apply ext_hdrs_ext; [done| |]; rewrite !Hb by lia; [lia|].
  apply IH; [lia| |done]. intros i Hi. apply Hb. lia.
Qed.

Lemma l4_at_ext pkt pkt2 len len2 proto off tcp hlen :
  l4_at pkt len proto off tcp hlen -> off + hlen <= len2 ->
  (tcp = true -> bget pkt2 (off + 12) = bget pkt (off + 12)) ->
  l4_at pkt2 len2 proto off tcp hlen.
Proof.
  unfold l4_at. intros [(?&->&?&?&->&?)|(?&->&?&->)] Hl Hb; [left|right].
  - rewrite Hb by done. split_and!; try done. lia.
  - split_and!; try done.
Qed.

(** Show that an offset is outside the rewritten fields. *)
Ltac not_rewritten :=
  unfold rewritten;
  intros [(?&[?|[??]])|[(?&?)|[(?&[?|[??]])|(?&[?|[??]])]]]; (congruence || lia).

(** A packet with the same headers, up to the rewritten fields, has the same
    layers. *)
Lemma layers_fragment pkt len r size recalc out :
  bytes_ok pkt -> layers pkt len r -> 0 < size ->
  (forall i, 0 <= i < payload_offset r -> ~ rewritten r recalc i -> bget out i = bget pkt i) ->
  net16 out (ip_len_off r) = ip_len_val r size ->
  layers out (payload_offset r + size) (set_payload_len r size).
Proof.
  intros Hok HL Hs Hsame Hlen. destruct (layers_geom _ _ _ Hok HL) as [[Hip Hver Hl4 Hp] [Hpl Hpr]].
  destruct HL as (off&d&Hl&He&Hh&Hv&Hu&_&Hipl&Hpd).
  assert (forall i, 0 <= i < ip_offset r -> bget out i = bget pkt i) as Hlow.
  { intros i Hi. destruct Hver as [(?&?&?&?&?&?)|(?&?&?&?&?)]; (apply Hsame; [lia|not_rewritten]). }
  assert (is_tcp r = true -> bget out (l4_offset r + 12) = bget pkt (l4_offset r + 12)) as H12.
  { intros Et. destruct Hl4 as [(?&?&?)|(?&?&?)]; [|congruence].
    destruct Hver as [(?&?&?&?&?&?)|(?&?&?&?&?)]; (apply Hsame; [lia|not_rewritten]). }
  exists off, size. unfold ip_len_off, ip_len_val in Hlen. cbn.
  rewrite (net16_ext out pkt 12 12) by (apply Hlow; lia).
  split_and!; try done; [lia| |lia].
  destruct Hipl as [[Hvt (E4&E6&Eo&Ex&?&?&Eih&?&Hfr&El&L4&->&?)]|[Hvt (nh&E4&E6&Eo&Ei&?&Hx&Ex&L4&->&?)]];
    [left|right]; rewrite E4 in Hlen;
    (split; [eapply vlan_tags_ext; [done|lia|intros; apply Hlow; lia|lia]|]); rewrite <- Eo in *.
  - unfold ipv4_at. cbn.
    assert (forall k, 0 <= k < 20 -> ~ (2 <= k < 4 \/ 10 <= k < 12) ->
              bget out (ip_offset r + k) = bget pkt (ip_offset r + k)) as Hh4.
    { intros k Hk Hk'. apply Hsame; [lia|]. not_rewritten. }
    pose proof (Hh4 0 ltac:(lia) ltac:(lia)) as Hb0. rewrite Z.add_0_r in Hb0. rewrite Hb0.
    rewrite (net16_ext out pkt (ip_offset r + 6) (ip_offset r + 6)) by
      (rewrite <- ?Z.add_assoc; apply Hh4; lia).
    rewrite Hh4 by lia.
    split_and!; try done; try lia. by eapply l4_at_ext; [|lia|].
  - exists nh. cbn. assert (ext_hdrs pkt len (bget pkt (ip_offset r + 6)) (ip_offset r + 40) nh (l4_offset r)) as Hx' by done.
    apply ext_hdrs_mono in Hx'; [|done].
    assert (forall i, 6 <= i -> ip_offset r + i < l4_offset r -> bget out (ip_offset r + i) = bget pkt (ip_offset r + i)) as Hh6.
    { intros k Hk Hk'. apply Hsame; [lia|]. not_rewritten. }
    rewrite Hh6 by lia.
    split_and!; try done; try lia.
    + eapply ext_hdrs_ext'; [done|done|lia| |lia]. intros i Hi.
      replace i with (ip_offset r + (i - ip_offset r)) by lia. apply Hh6; lia.
    + by eapply l4_at_ext; [|lia|].
Qed.

(** The two copies at the start of [build_fragment]. *)
Lemma copied_bytes out hdr payload i :
  0 <= i ->
  bget (bput (bput out 0 hdr) (zlen hdr) payload) i =
    if i <? zlen hdr then bget hdr i
    else if i <? zlen hdr + zlen payload then bget payload (i - zlen hdr) else bget out i.
Proof.
  intros Hi. pose proof (zlen_nonneg hdr). pose proof (zlen_nonneg payload).
  rewrite bget_bput by lia. rewrite bget_bput by lia. rewrite Z.add_0_l, Z.sub_0_r.
  destruct (Z.ltb_spec i (zlen hdr)), (Z.leb_spec (zlen hdr) i), (Z.leb_spec 0 i),
    (Z.ltb_spec i (zlen hdr + zlen payload)); try lia; done.
Qed.

(** The two header updates together. *)
Lemma frag_updates_ok sse2 cap r size recalc b poff :
  0 < size -> payload_offset r + size <= cap -> payload_offset r + size <= 65535 ->
  bytes_ok b -> geom b r -> 0 <= poff ->
  exists b1 b2, frag_update_ip sse2 cap r size recalc b = Some b1 /\
    frag_update_l4 sse2 cap r poff size recalc b1 = Some b2 /\ bytes_ok b2 /\
    same_except (rewritten r recalc) b b2 /\ net16 b2 (ip_len_off r) = ip_len_val r size /\
    (is_tcp r = true -> net32 b2 (l4_offset r + 4) = u32 (net32 b (l4_offset r + 4) + poff)) /\
    (is_udp r = true -> net16 b2 (l4_offset r + 4) = l4_len r size) /\
    (recalc = true -> is_ipv4 r = true -> cksum_ok 0 (bslice b2 (ip_offset r) (ip_hdr_len r))) /\
    (recalc = true -> l4_cksum_ok r size b2).
Proof.
  intros Hs Hc Ht Hb Hg Hpo. pose proof (geom_l4 r b Hg) as Hl4o. pose proof Hg as [Hip Hver Hl4 Hp].
  destruct (frag_update_ip_ok sse2 cap r size recalc Hs Hc Ht b Hb Hg) as (b1 & Ei & Hb1 & Hs1 & Hl1 & Hc1).
  assert (forall k, l4_offset r <= k -> ~ ip_touched r recalc k) as Hnip.
  { intros k Hk. unfold ip_touched. destruct Hver as [(?&?&?&?&?&?)|(?&?&?&?&?)]; lia. }
  assert (forall k, k < l4_offset r -> ~ l4_touched r recalc k) as Hnl4.
  { intros k Hk. unfold l4_touched. lia. }
  assert (geom b1 r) as Hg1.
  { destruct Hver as [(?&?&?&Hih&?&?)|?]; (split; try done); [left|by right].
    rewrite Hs1; [by split_and!|lia|]. unfold ip_touched. lia. }
  destruct (frag_update_l4_ok sse2 cap r size recalc Hs Hc Ht b1 poff Hb1 Hg1 Hpo)
    as (b2 & El & Hb2 & Hs2 & Hseq & Hudp & Hc2).
  assert (ip_len_off r + 1 < l4_offset r /\ 0 <= ip_len_off r) as [Hll Hl0].
  { unfold ip_len_off. destruct Hver as [(->&?&?&?&?&?)|(->&?&?&?&?)]; lia. }
  exists b1, b2. split_and!; try done.
  - intros k Hk HR. rewrite Hs2, Hs1; try done; intros Hbad; apply HR;
      unfold ip_touched, l4_touched, rewritten in *; tauto.
  - rewrite (same_except_net16 _ b1 b2 _ Hs2); try done; apply Hnl4; lia.
  - intros Et. rewrite Hseq by done. do 2 f_equal. apply net32_ext. intros k Hk.
    apply Hs1; [lia|]. apply Hnip. lia.
  - intros Er E4. destruct Hver as [(?&?&?&?&?&?)|(?&?&?&?&?)]; [|congruence].
    rewrite (same_except_bslice _ b1 b2 _ _ Hs2); [by apply Hc1|lia|]. intros k Hk. apply Hnl4. lia.
Qed.

Section chunks.
Context (pkt : list Z) (r : packet_parse_result_t).

Lemma frag_size_fits i max :
  0 <= i * max -> 0 < frag_size r i max -> i * max + frag_size r i max <= payload_len r.
Proof. unfold frag_size. cbv zeta. bcase; lia. Qed.

Lemma frag_size_pos i max :
  0 < payload_len r -> 0 <= i < calculate_fragment_count r max -> 0 < max ->
  0 < frag_size r i max.
Proof.
  intros Hp Hi Hm. unfold calculate_fragment_count in Hi. unfold frag_size. cbv zeta.
  destruct (Z.leb_spec max 0); [lia|]. destruct (Z.leb_spec (payload_len r) max); cbn [orb] in Hi.
  { replace i with 0 by lia. bcase; lia. }
  rewrite Z.quot_div_nonneg in Hi by lia.
  assert (i * max < payload_len r).
  { assert (i + 1 <= (payload_len r + max - 1) / max) as Hle by lia.
    pose proof (Z.mul_div_le (payload_len r + max - 1) max ltac:(lia)). nia. }
  bcase; lia.
Qed.

(** The first [k] chunks of the payload, for [k] up to the fragment count. *)
Lemma chunks_prefix max (k : nat) :
  0 < max -> 0 <= payload_len r ->
  concat ((fun i => bslice pkt (payload_offset r + i * max) (frag_size r i max)) <$> seqZ 0 (Z.of_nat k)) =
    bslice pkt (payload_offset r) (Z.min (Z.of_nat k * max) (payload_len r)).
Proof.
  intros Hm Hp. induction k as [|k IH].
  - cbn. rewrite bslice_nil by lia. done.
  - rewrite seqZ_S, fmap_app, concat_app, IH by lia. rewrite Nat2Z.inj_succ. cbn [fmap list_fmap concat].
    rewrite app_nil_r, Z.add_0_l. unfold frag_size. cbv zeta.
    destruct (Z.ltb_spec max (payload_len r - Z.of_nat k * max)).
    + rewrite !Z.min_l by nia. replace (Z.succ (Z.of_nat k) * max) with (Z.of_nat k * max + max) by lia.
      rewrite bslice_app by lia. done.
    + destruct (Z.ltb_spec (payload_len r) (Z.of_nat k * max)).
      * rewrite !Z.min_r by nia. rewrite (bslice_nil _ _ (_ - _)) by lia. by rewrite app_nil_r.
      * rewrite (Z.min_l (Z.of_nat k * max)), Z.min_r by nia.
        rewrite <- bslice_app by lia. f_equal. lia.
Qed.

Lemma count_covers max :
  0 < max -> 0 <= payload_len r ->
  1 <= calculate_fragment_count r max /\ payload_len r <= calculate_fragment_count r max * max.
Proof.
  intros Hm Hp. unfold calculate_fragment_count. destruct (Z.leb_spec max 0); [lia|].
  destruct (Z.leb_spec (payload_len r) max); cbn [orb]; [lia|].
  rewrite Z.quot_div_nonneg by lia.
  pose proof (Z.mul_succ_div_gt (payload_len r + max - 1) max ltac:(lia)). split; [|lia].
  apply Z.div_le_lower_bound; lia.
Qed.
End chunks.

Section fragment.
Context (sse2 : bool) (pkt : list Z) (len cap : Z) (r : packet_parse_result_t).
Context (Hok : bytes_ok pkt) (Hlen : 0 <= len <= 65535) (Hpkt : len <= zlen pkt).
Context (HL : layers pkt len r) (Hcap : len <= cap).

Lemma build_fragment_ok recalc out i max :
  bytes_ok out -> 0 <= i * max -> 0 < frag_size r i max ->
  exists out', build_fragment sse2 r pkt i max recalc cap out =
      Some (payload_offset r + frag_size r i max, out') /\
    bytes_ok out' /\ is_fragment pkt r (i * max) (frag_size r i max) recalc out'.
Proof using Hok Hlen Hpkt HL Hcap.
  intros Hout Hi Hs. destruct (layers_geom _ _ _ Hok HL) as [Hg [Hpo Hpl]].
  pose proof (geom_l4 r pkt Hg) as Hl4o. pose proof Hg as [Hip Hver Hl4 Hp].
  assert (8 <= l4_hdr_len r) by (destruct Hl4; lia).
  pose proof (frag_size_fits r i max Hi Hs) as Hfit.
  unfold build_fragment. cbv zeta. set (size := frag_size r i max) in *.
  destruct (Z.leb_spec size 0); [lia|].
  rewrite (bread_ok _ pkt 0) by lia. obind. rewrite bwrite_ok by (rewrite ?bslice_zlen; lia). obind.
  rewrite bread_ok by lia. obind. rewrite bwrite_ok by (rewrite ?bslice_zlen; lia). obind.
  set (b0 := bput _ _ _).
  assert (forall k, 0 <= k -> bget b0 k =
      if k <? payload_offset r then bget pkt k
      else if k <? payload_offset r + size then bget pkt (k + i * max) else bget out k) as Hb0.
  { intros k Hk. subst b0.
    rewrite <- (bslice_zlen pkt 0 (payload_offset r)) at 2 by lia. rewrite copied_bytes by lia.
    rewrite !bslice_zlen by lia. destruct (Z.ltb_spec k (payload_offset r)).
    { rewrite bget_bslice by lia. done. }
    destruct (Z.ltb_spec k (payload_offset r + size)); [|done].
    rewrite bget_bslice by lia. f_equal. lia. }
  assert (bytes_ok b0) as Hbok by (subst b0; auto with cprobe).
  assert (forall k, 0 <= k < payload_offset r -> bget b0 k = bget pkt k) as Hsame.
  { intros k Hk. rewrite Hb0 by lia. destruct (Z.ltb_spec k (payload_offset r)); [done|lia]. }
  assert (geom b0 r) as Hg0.
  { split; try done. destruct Hver as [(?&?&?&?&?&?)|?]; [left|by right].
    rewrite Hsame by lia. by split_and!. }
  destruct (frag_updates_ok sse2 cap r size recalc b0 (i * max) Hs ltac:(lia) ltac:(lia) Hbok Hg0 Hi)
    as (b1 & b2 & -> & E2 & Hb2 & Hs2 & Hl2 & Hseq & Hudp & Hc1 & Hc2). obind. rewrite E2. obind.
  exists b2. split; [done|]. split; [done|].
  assert (forall k, 0 <= k < payload_offset r -> ~ rewritten r recalc k -> bget b2 k = bget pkt k) as Hhdr.
  { intros k Hk HR. rewrite Hs2 by (done || lia). by apply Hsame. }
  split; try done.
  - apply bslice_ext. intros k Hk. rewrite Hs2; [|lia|].
    + rewrite Hb0 by lia. destruct (Z.ltb_spec (payload_offset r + k) (payload_offset r)); [lia|].
      destruct (Z.ltb_spec (payload_offset r + k) (payload_offset r + size)); [f_equal; lia|lia].
    + destruct Hver as [(?&?&?&?&?&?)|(?&?&?&?&?)], Hl4 as [(?&?&?)|(?&?&?)]; not_rewritten.
  - by apply (layers_fragment pkt len r size recalc b2).
  - intros Et. rewrite Hseq by done. do 2 f_equal. apply net32_ext. intros k Hk. apply Hsame.
    destruct Hl4 as [(?&?&?)|(?&?&?)]; [lia|congruence].
Qed.

(** The fragments in order, each built in its own buffer. *)
Definition split_all (max : Z) (recalc : bool) (out : list Z) : option (list (Z * list Z)) :=
  mapM (fun i => build_fragment sse2 r pkt i max recalc cap out)
    (seqZ 0 (calculate_fragment_count r max)).

Definition frag_payload (f : Z * list Z) : list Z :=
  bslice f.2 (payload_offset r) (f.1 - payload_offset r).

Lemma build_all_ok max recalc out is' :
  bytes_ok out -> 0 < max -> 0 < payload_len r ->
  Forall (fun i => 0 <= i < calculate_fragment_count r max) is' ->
  exists fs, mapM (fun i => build_fragment sse2 r pkt i max recalc cap out) is' = Some fs /\
    Forall2 (fun i f => f.1 = payload_offset r + frag_size r i max /\
               is_fragment pkt r (i * max) (frag_size r i max) recalc f.2) is' fs /\
    frag_payload <$> fs =
      (fun i => bslice pkt (payload_offset r + i * max) (frag_size r i max)) <$> is'.
Proof using Hok Hlen Hpkt HL Hcap.
  intros Hout Hm Hp Hall. induction Hall as [|i is' Hi Hall IH]; [by exists []|].
  destruct (build_fragment_ok recalc out i max Hout ltac:(nia)) as (o & Eo & _ & Hf).
  { by apply frag_size_pos. }
  destruct IH as (fs & Em & Hfs & Hpl). exists ((payload_offset r + frag_size r i max, o) :: fs).
  cbn [mapM]. rewrite Eo. obind. rewrite Em. obind. split; [done|]. split; [by constructor|].
  rewrite !fmap_cons, Hpl. f_equal.
  unfold frag_payload. cbn [fst snd]. rewrite <- (fr_payload _ _ _ _ _ _ Hf). f_equal. lia.
Qed.
End fragment.

(** ** Theorems *)

(** C1: on every captured packet of at most 65535 bytes the parser never reads
    outside the captured bytes and terminates, and it accepts exactly the
    packets that carry a complete, unfragmented TCP or UDP header under any
    stack of VLAN tags, IPv4 options or IPv6 extension headers, reporting
    where each layer is. *)
Theorem parse_packet_correct pkt len :
  bytes_ok pkt -> 0 <= len <= 65535 -> len <= zlen pkt ->
  parse_packet pkt len <> None /\
  forall r, parse_packet pkt len = Some (Some r) <-> layers pkt len r.
Proof.
  intros Hok Hlen Hcap. destruct (parse_packet_spec pkt len Hok Hlen Hcap) as [(r & -> & HL)|[-> Hno]].
  - split; [done|]. intros r'. split; [by intros [= <-]|]. intros HL'.
    by rewrite (layers_det pkt len _ _ HL HL').
  - split; [done|]. intros r. split; [done|]. intros HL. by destruct (Hno r).
Qed.

Lemma sample_packet_ok : bytes_ok sample_tcp_packet.
Proof. repeat constructor; vm_compute; congruence. Defined.

Lemma parse_packet_correct_witness : layers sample_tcp_packet 61 sample_result.
Proof.
  apply (parse_packet_correct sample_tcp_packet 61);
    [exact sample_packet_ok|lia|vm_compute; congruence|exact parse_sample].
Defined.

Lemma sample_layers : layers sample_tcp_packet 61 sample_result.
Proof.
  destruct (parse_packet_spec sample_tcp_packet 61) as [(r & E & HL)|[E _]];
    [exact sample_packet_ok|lia|vm_compute; congruence| |];
    rewrite parse_sample in E; [|discriminate].
  by injection E as <-.
Qed.

(** C2: every fragment of a parsed packet is a well-formed packet of its own:
    it is built without touching memory outside the packet or the output
    buffer, carries exactly its chunk of the payload, parses back to the same
    layers with the chunk's length, has the IP and UDP lengths and the TCP
    sequence number of its chunk, leaves every other header byte as captured,
    and with recalculation on its IPv4 and TCP/UDP checksums verify. *)
Theorem build_fragment_correct sse2 pkt len cap r recalc out i max :
  bytes_ok pkt -> 0 <= len <= 65535 -> len <= zlen pkt -> layers pkt len r -> len <= cap ->
  bytes_ok out -> 0 < max -> 0 < payload_len r -> 0 <= i < calculate_fragment_count r max ->
  exists out', build_fragment sse2 r pkt i max recalc cap out =
      Some (payload_offset r + frag_size r i max, out') /\
    0 < frag_size r i max <= max /\
    is_fragment pkt r (i * max) (frag_size r i max) recalc out'.
Proof.
  intros Hok Hlen Hpkt HL Hcap Hout Hm Hp Hi.
  pose proof (frag_size_pos r i max Hp Hi Hm) as Hs.
  destruct (build_fragment_ok sse2 pkt len cap r Hok Hlen Hpkt HL Hcap recalc out i max)
    as (o & E & _ & Hf); [done|nia|done|].
  exists o. split; [done|]. split; [|done]. split; [done|]. unfold frag_size. cbv zeta. bcase; lia.
Qed.

Lemma build_fragment_correct_witness :
  exists out', build_fragment true sample_result sample_tcp_packet 1 3 true 100 [] =
      Some (54 + frag_size sample_result 1 3, out') /\ 0 < frag_size sample_result 1 3 <= 3 /\
    is_fragment sample_tcp_packet sample_result (1 * 3) (frag_size sample_result 1 3) true out'.
Proof.
  apply (build_fragment_correct true sample_tcp_packet 61 100 sample_result true [] 1 3);
    [exact sample_packet_ok|lia|vm_compute; congruence|exact sample_layers|lia|constructor|lia
    |vm_compute; congruence|vm_compute; split; congruence].
Defined.

(** C3: splitting loses and duplicates nothing: the fragments 0 ..
    count-1 are all built and the concatenation of their payloads is the
    payload of the original packet, byte for byte. *)
Theorem split_reassembles sse2 pkt len cap r recalc out max :
  bytes_ok pkt -> 0 <= len <= 65535 -> len <= zlen pkt -> layers pkt len r -> len <= cap ->
  bytes_ok out -> 0 < max -> 0 < payload_len r ->
  exists fs, split_all sse2 pkt cap r max recalc out = Some fs /\
    zlen fs = calculate_fragment_count r max /\
    concat (frag_payload r <$> fs) = bslice pkt (payload_offset r) (payload_len r).
Proof.
  intros Hok Hlen Hpkt HL Hcap Hout Hm Hp. unfold split_all.
  pose proof (count_covers r max Hm ltac:(lia)) as [Hc1 Hc2].
  destruct (build_all_ok sse2 pkt len cap r Hok Hlen Hpkt HL Hcap max recalc out
              (seqZ 0 (calculate_fragment_count r max)) Hout Hm Hp) as (fs & E & Hf & Hpl).
  { apply Forall_forall. intros i Hi%elem_of_seqZ. lia. }
  exists fs. split; [done|]. split.
  { apply Forall2_length in Hf. rewrite length_seqZ in Hf. unfold zlen. lia. }
  rewrite Hpl, <- (Z2Nat.id (calculate_fragment_count r max)) by lia.
  rewrite chunks_prefix, Z2Nat.id by lia. f_equal. lia.
Qed.

Lemma split_reassembles_witness :
  exists fs, split_all true sample_tcp_packet 100 sample_result 3 true [] = Some fs /\
    zlen fs = calculate_fragment_count sample_result 3 /\
    concat (frag_payload sample_result <$> fs) = bslice sample_tcp_packet 54 7.
Proof.
  apply (split_reassembles true sample_tcp_packet 61 100 sample_result true [] 3);
    [exact sample_packet_ok|lia|vm_compute; congruence|exact sample_layers|lia|constructor|lia
    |vm_compute; congruence].
Defined.
