(* ===== verification/Output.v ===== *)
(** * The output interface (output.h)

    What every output shares: the frame length it carries and counts, the
    direction and rate-limit checks at the head of each [send_packet], and the
    four classes a packet is counted in.  [OutputOps] is the vtable of
    [output_base_t], [OutputLaws] what the pipeline relies on: sending never
    touches memory out of bounds, and each packet is counted in exactly one
    class, now or (for an output that batches) when its batch is flushed. *)

From Stdlib Require Import Setoid Morphisms.
From stdpp Require Import prelude list list_numbers.
From S2P Require Import Prelude Stats RateLimit Headers.

(** ** The code *)

Definition SIZE_MAX : Z := 18446744073709551615.

Definition output_frame_len (caplen slice max_len : Z) : Z :=
  let frame_len := if (0 <? slice) && (u32 slice <? caplen) then slice else caplen in
  if frame_len <? max_len then frame_len else max_len.

Definition pkt_ts (h : pcap_pkthdr) : timeval := Timeval (ts_sec h) (ts_usec h).

(** The two [_stats_add] calls that count a packet of [n] bytes. *)
Definition count_fwd (n : Z) (s : output_stats_t) : output_stats_t :=
  OutputStats (bytes_stats_add (fwd_bytes s) n) (packets_stats_add (fwd_packets s) 1)
    (direction_drop_bytes s) (direction_drop_packets s) (error_drop_bytes s) (error_drop_packets s)
    (ratelimit_drop_bytes s) (ratelimit_drop_packets s) (heartbeat_packets s).
Definition count_direction_drop (n : Z) (s : output_stats_t) : output_stats_t :=
  OutputStats (fwd_bytes s) (fwd_packets s)
    (bytes_stats_add (direction_drop_bytes s) n) (packets_stats_add (direction_drop_packets s) 1)
    (error_drop_bytes s) (error_drop_packets s)
    (ratelimit_drop_bytes s) (ratelimit_drop_packets s) (heartbeat_packets s).
Definition count_error_drop (n : Z) (s : output_stats_t) : output_stats_t :=
  OutputStats (fwd_bytes s) (fwd_packets s) (direction_drop_bytes s) (direction_drop_packets s)
    (bytes_stats_add (error_drop_bytes s) n) (packets_stats_add (error_drop_packets s) 1)
    (ratelimit_drop_bytes s) (ratelimit_drop_packets s) (heartbeat_packets s).
Definition count_ratelimit_drop (n : Z) (s : output_stats_t) : output_stats_t :=
  OutputStats (fwd_bytes s) (fwd_packets s) (direction_drop_bytes s) (direction_drop_packets s)
    (error_drop_bytes s) (error_drop_packets s)
    (bytes_stats_add (ratelimit_drop_bytes s) n) (packets_stats_add (ratelimit_drop_packets s) 1)
    (heartbeat_packets s).

(** The fields every output struct has: the stats it points to, the rate
    limit with its bucket, and the slice. *)
Record output_common := Common {
  stats : output_stats_t;
  rate_limit_mbps : Z;
  throttle : token_bucket_t;
  slice : Z;
}.

Definition set_stats (c : output_common) (s : output_stats_t) : output_common :=
  Common s (rate_limit_mbps c) (throttle c) (slice c).

(** The common part of the constructors. *)
Definition common_new (s : output_stats_t) (mbps sl : Z) : output_common :=
  Common s mbps
    (if 0 <? mbps then token_bucket_init (u64 (mbps * 1000000)) else TokenBucket 0 0 0 (Timeval 0 0))
    sl.

(** The head of every [send_packet]: drop a packet of unknown direction, then
    one over the rate limit; [true] lets it through. *)
Definition admit_packet (c : output_common) (frame_len : Z) (ts : timeval) (direct : Z) :
    bool * output_common :=
  if direct =? PKT_DIR_UNKNOWN
  then (false, set_stats c (count_direction_drop frame_len (stats c)))
  else if 0 <? rate_limit_mbps c then
    let '(ok, tb) := token_bucket_consume (throttle c) frame_len ts in
    let c := Common (stats c) (rate_limit_mbps c) tb (slice c) in
    if ok then (true, c)
    else (false, set_stats c (count_ratelimit_drop frame_len (stats c)))
  else (true, c).

(** ** Counting modulo the range of the counters *)

Definition eqm (m a b : Z) : Prop := a mod m = b mod m.

#[export] Instance eqm_equiv m : Equivalence (eqm m).
Proof. split; unfold eqm; congruence. Qed.

#[export] Instance eqm_add m : Proper (eqm m ==> eqm m ==> eqm m) Z.add.
Proof. intros a a' Ha b b' Hb. unfold eqm in *. rewrite Zplus_mod, Ha, Hb, <- Zplus_mod. done. Qed.

Lemma eqm_mod m a : eqm m (a mod m) a.
Proof. unfold eqm. apply Zmod_mod. Qed.

Lemma eqm_small m a b : eqm m a b -> 0 <= a < m -> 0 <= b < m -> a = b.
Proof. unfold eqm. intros H Ha Hb. by rewrite !Z.mod_small in H. Qed.

Record stats_wf (s : output_stats_t) : Prop := StatsWf {
  wf_fwd_b : bytes_stats_wf (fwd_bytes s); wf_fwd_p : packets_stats_wf (fwd_packets s);
  wf_dir_b : bytes_stats_wf (direction_drop_bytes s);
  wf_dir_p : packets_stats_wf (direction_drop_packets s);
  wf_err_b : bytes_stats_wf (error_drop_bytes s); wf_err_p : packets_stats_wf (error_drop_packets s);
  wf_rate_b : bytes_stats_wf (ratelimit_drop_bytes s);
  wf_rate_p : packets_stats_wf (ratelimit_drop_packets s);
  wf_hb : packets_stats_wf (heartbeat_packets s);
}.

Lemma stats_zero_wf : stats_wf output_stats_zero.
Proof. split; repeat split; vm_compute; congruence. Qed.

(** All packets and bytes counted, over the four classes. *)
Definition total_packets (s : output_stats_t) : Z :=
  packets_value (fwd_packets s) + packets_value (direction_drop_packets s)
  + packets_value (error_drop_packets s) + packets_value (ratelimit_drop_packets s).
Definition total_bytes (s : output_stats_t) : Z :=
  bytes_value (fwd_bytes s) + bytes_value (direction_drop_bytes s)
  + bytes_value (error_drop_bytes s) + bytes_value (ratelimit_drop_bytes s).

(** [s'] counts [n] more packets of [b] bytes in all than [s]. *)
Definition counted (n b : Z) (s s' : output_stats_t) : Prop :=
  eqm packets_range (total_packets s') (total_packets s + n) /\
  eqm bytes_range (total_bytes s') (total_bytes s + b).

Lemma counted_refl s : counted 0 0 s s.
Proof. split; rewrite Z.add_0_r; done. Qed.

Lemma counted_trans n1 b1 n2 b2 s1 s2 s3 :
  counted n1 b1 s1 s2 -> counted n2 b2 s2 s3 -> counted (n1 + n2) (b1 + b2) s1 s3.
Proof.
  intros [P1 B1] [P2 B2]. split; [rewrite P2, P1|rewrite B2, B1]; by rewrite Z.add_assoc.
Qed.

Lemma bytes_add_eqm s n :
  bytes_stats_wf s -> u64_ok n ->
  bytes_stats_wf (bytes_stats_add s n) /\
  eqm bytes_range (bytes_value (bytes_stats_add s n)) (bytes_value s + n).
Proof.
  intros H Hn. destruct (bytes_stats_add_spec s n H Hn) as [Hw Hv]. split; [done|].
  rewrite Hv. apply eqm_mod.
Qed.

Lemma packets_add_eqm s n :
  packets_stats_wf s -> u64_ok n ->
  packets_stats_wf (packets_stats_add s n) /\
  eqm packets_range (packets_value (packets_stats_add s n)) (packets_value s + n).
Proof.
  intros H Hn. destruct (packets_stats_add_spec s n H Hn) as [Hw Hv]. split; [done|].
  rewrite Hv. apply eqm_mod.
Qed.

Lemma one_u64 : u64_ok 1.
Proof. unfold u64_ok. lia. Qed.

(** Counting one packet in a class, whichever it is. *)
Ltac solve_count :=
  intros [] Hn; unfold counted, total_packets, total_bytes;
  match goal with |- context [bytes_stats_add ?s ?n] =>
    let Hb := fresh in destruct (bytes_add_eqm s n) as [? Hb]; [assumption|assumption|];
    match goal with |- context [packets_stats_add ?s 1] =>
      let Hp := fresh in destruct (packets_add_eqm s 1) as [? Hp]; [assumption|apply one_u64|];
      split; [by constructor|];
      cbn [fwd_bytes fwd_packets direction_drop_bytes direction_drop_packets
        error_drop_bytes error_drop_packets ratelimit_drop_bytes ratelimit_drop_packets];
      split; [rewrite Hp|rewrite Hb];
      match goal with |- eqm _ ?a ?b => replace a with b by lia end; reflexivity
    end
  end.

Lemma count_fwd_ok n s : stats_wf s -> u64_ok n -> stats_wf (count_fwd n s) /\ counted 1 n s (count_fwd n s).
Proof. unfold count_fwd. solve_count. Qed.

Lemma count_direction_drop_ok n s :
  stats_wf s -> u64_ok n ->
  stats_wf (count_direction_drop n s) /\ counted 1 n s (count_direction_drop n s).
Proof. unfold count_direction_drop. solve_count. Qed.

Lemma count_error_drop_ok n s :
  stats_wf s -> u64_ok n -> stats_wf (count_error_drop n s) /\ counted 1 n s (count_error_drop n s).
Proof. unfold count_error_drop. solve_count. Qed.

Lemma count_ratelimit_drop_ok n s :
  stats_wf s -> u64_ok n ->
  stats_wf (count_ratelimit_drop n s) /\ counted 1 n s (count_ratelimit_drop n s).
Proof. unfold count_ratelimit_drop. solve_count. Qed.

#[export] Hint Resolve count_fwd_ok count_direction_drop_ok count_error_drop_ok
  count_ratelimit_drop_ok counted_refl : cprobe.

(** ** Frame length and admission *)

(** The slice only shortens, and the output maximum caps. *)
Lemma output_frame_len_spec caplen sl max :
  0 <= caplen < 4294967296 -> sl < 2147483648 -> 0 <= max ->
  output_frame_len caplen sl max =
    Z.min (if 0 <? sl then Z.min sl caplen else caplen) max.
Proof.
  intros Hc Hs Hm. unfold output_frame_len. cbv zeta.
  destruct (Z.ltb_spec 0 sl); cbn [andb].
  - rewrite u32_small by lia. destruct (Z.ltb_spec sl caplen); bcase; lia.
  - bcase; lia.
Qed.

Definition common_wf (c : output_common) : Prop :=
  stats_wf (stats c) /\ token_bucket_wf (throttle c) /\ slice c < 2147483648.

Lemma frame_len_range c h max :
  common_wf c -> 0 <= caplen h < 4294967296 -> 0 <= max ->
  0 <= output_frame_len (caplen h) (slice c) max <= caplen h /\
  output_frame_len (caplen h) (slice c) max <= max.
Proof.
  intros (_ & _ & Hs) Hc Hm. rewrite output_frame_len_spec by done. bcase; lia.
Qed.

Lemma common_new_wf s mbps sl : stats_wf s -> sl < 2147483648 -> common_wf (common_new s mbps sl).
Proof.
  intros Hs Hsl. split_and!; try done. cbn [common_new throttle]. bcase.
  - apply token_bucket_init_wf, u64_range.
  - repeat split; vm_compute; congruence.
Qed.

Lemma set_stats_wf c s : common_wf c -> stats_wf s -> common_wf (set_stats c s).
Proof. by intros (_ & ? & ?) ?. Qed.

#[export] Hint Resolve set_stats_wf : cprobe.

(** A refused packet is counted, one let through is not counted yet. *)
Lemma admit_packet_ok c n ts d :
  common_wf c -> u64_ok n ->
  let '(ok, c') := admit_packet c n ts d in
  common_wf c' /\ slice c' = slice c /\ rate_limit_mbps c' = rate_limit_mbps c /\
  (ok = true -> d <> PKT_DIR_UNKNOWN /\ stats c' = stats c) /\
  (ok = false -> counted 1 n (stats c) (stats c')).
Proof.
  intros Hc Hn. pose proof Hc as (Hs & Ht & Hsl). unfold admit_packet.
  destruct (Z.eqb_spec d PKT_DIR_UNKNOWN).
  { destruct (count_direction_drop_ok n (stats c) Hs Hn). split_and!; auto with cprobe; done. }
  bcase; [|by split_and!].
  pose proof (consume_wf (throttle c) n ts Ht) as Hw.
  destruct (token_bucket_consume (throttle c) n ts) as [[|] tb]; [by split_and!|].
  destruct (count_ratelimit_drop_ok n (stats c) Hs Hn). by split_and!.
Qed.

(** ** The interface *)

(** The vtable's [send_packet], the length a packet is counted with, and what
    an output holds back to count later (packets and their bytes). *)
Class OutputOps (O : Type) := {
  out_common : O -> output_common;
  out_frame_len : O -> pcap_pkthdr -> list Z -> Z;
  out_pending_packets : O -> Z;
  out_pending_bytes : O -> Z;
  out_send : O -> pcap_pkthdr -> list Z -> Z -> option (Z * O);
}.

Definition dir_ok (d : Z) : Prop :=
  d = PKT_DIR_UNKNOWN \/ d = PKT_DIR_NONCHECK \/ d = PKT_DIR_INCOMING \/ d = PKT_DIR_OUTGOING.

(** Packets and bytes the output answers for: counted or pending. *)
Definition settled {O} `{OutputOps O} (n b : Z) (o o' : O) : Prop :=
  eqm packets_range (total_packets (stats (out_common o')) + out_pending_packets o')
    (total_packets (stats (out_common o)) + out_pending_packets o + n) /\
  eqm bytes_range (total_bytes (stats (out_common o')) + out_pending_bytes o')
    (total_bytes (stats (out_common o)) + out_pending_bytes o + b).

(** An output whose pending packets do not change settles by counting. *)
Lemma settled_now {O} `{OutputOps O} n b (o o' : O) :
  out_pending_packets o' = out_pending_packets o -> out_pending_bytes o' = out_pending_bytes o ->
  counted n b (stats (out_common o)) (stats (out_common o')) -> settled n b o o'.
Proof.
  intros E E' [Hp Hb]. unfold settled. rewrite E, E', Hp, Hb.
  split; match goal with |- eqm _ ?x ?y => replace x with y by lia end; done.
Qed.

Class OutputLaws (O : Type) `{OutputOps O} := {
  out_wf : O -> Prop;
  out_send_ok : forall o h pkt d, out_wf o -> pkt_ok h pkt -> dir_ok d ->
    exists ret o', out_send o h pkt d = Some (ret, o') /\ out_wf o' /\
      (forall h' pkt', out_frame_len o' h' pkt' = out_frame_len o h' pkt') /\
      settled 1 (out_frame_len o h pkt) o o';
}.

(** The packets a pipeline hands to an output, in order. *)
Fixpoint send_all {O} `{OutputOps O} (o : O) (ps : list (pcap_pkthdr * list Z * Z)) : option O :=
  match ps with
  | [] => Some o
  | (h, pkt, d) :: ps => '(_, o) ← out_send o h pkt d; send_all o ps
  end.

Definition packet_in (p : pcap_pkthdr * list Z * Z) : Prop :=
  let '(h, pkt, d) := p in pkt_ok h pkt /\ dir_ok d.

Section client.
Context {O : Type} `{OutputLaws O}.

Lemma settled_trans n1 b1 n2 b2 (o1 o2 o3 : O) :
  settled n1 b1 o1 o2 -> settled n2 b2 o2 o3 -> settled (n1 + n2) (b1 + b2) o1 o3.
Proof.
  intros [P1 B1] [P2 B2]. split; [rewrite P2, P1|rewrite B2, B1]; by rewrite !Z.add_assoc.
Qed.

Lemma send_all_settled (o : O) ps :
  out_wf o -> Forall packet_in ps ->
  exists o', send_all o ps = Some o' /\ out_wf o' /\
    settled (zlen ps) (zsum ((fun p => out_frame_len o p.1.1 p.1.2) <$> ps)) o o'.
Proof.
  intros Hwf Hall. revert o Hwf. induction Hall as [|[[h pkt] d] ps [Hp Hd] Hall IH]; intros o Hwf.
  { exists o. split_and!; try done. split; cbn; by rewrite Z.add_0_r. }
  destruct (out_send_ok o h pkt d Hwf Hp Hd) as (ret & o1 & E & Hwf1 & Hsl & S1).
  destruct (IH o1 Hwf1) as (o2 & E2 & Hwf2 & S2). exists o2. cbn [send_all]. rewrite E. obind.
  split_and!; try done. rewrite zlen_cons.
  replace (zsum _) with (out_frame_len o h pkt + zsum ((fun p => out_frame_len o1 p.1.1 p.1.2) <$> ps)).
  { eapply settled_trans; [exact S1|exact S2]. }
  cbn. f_equal. f_equal. apply list_fmap_ext. intros ? [[??]?] _. apply Hsl.
Qed.
End client.
