(* ===== verification/OutputFile.v ===== *)
(** * Local outputs (output_null.c, output_file.c, output_rotating_file.c)

    The null output only counts.  The file outputs write pcap savefile
    records through libpcap, the rotating one opening a new file every
    [max_file_interval] seconds.  libpcap, the file system and the clock are
    parameters. *)

From Stdlib Require Import Ascii.
From stdpp Require Import prelude list list_numbers strings.
From S2P Require Import Prelude Stats RateLimit Headers Output.

(** ** The null output *)

Module NullOutput.

Record null_output_t := Null { common : output_common }.

Definition null_output_new (mbps sl : Z) (s : output_stats_t) : null_output_t :=
  Null (common_new s mbps sl).

Definition null_send_packet (o : null_output_t) (h : pcap_pkthdr) (pkt : list Z) (direct : Z) :
    Z * null_output_t :=
  let frame_len := output_frame_len (caplen h) (slice (common o)) SIZE_MAX in
  let '(ok, c) := admit_packet (common o) frame_len (pkt_ts h) direct in
  if ok then (0, Null (set_stats c (count_fwd frame_len (stats c)))) else (-1, Null c).

#[export] Instance null_ops : OutputOps null_output_t := {
  out_common := common;
  out_frame_len o h _ := output_frame_len (caplen h) (slice (common o)) SIZE_MAX;
  out_pending_packets _ := 0;
  out_pending_bytes _ := 0;
  out_send o h pkt d := Some (null_send_packet o h pkt d);
}.

#[export, refine] Instance null_laws : OutputLaws null_output_t := {
  out_wf o := common_wf (common o);
}.
Proof.
  intros [c] h pkt d Hwf (Hok & Hcl & Hle) Hd. cbn in Hwf.
  pose proof (frame_len_range c h SIZE_MAX Hwf Hcl ltac:(vm_compute; congruence)) as [Hr _].
  unfold out_send, null_ops, null_send_packet, out_frame_len. cbn [common out_common].
  set (n := output_frame_len _ _ _) in *. assert (u64_ok n) as Hn by (unfold u64_ok; lia).
  pose proof (admit_packet_ok c n (pkt_ts h) d Hwf Hn) as Ha.
  destruct (admit_packet c n (pkt_ts h) d) as [[|] c']; destruct Ha as (Hw & Hs & _ & Ht & Hf).
  - destruct (Ht eq_refl) as [_ Es]. rewrite Es.
    destruct (count_fwd_ok n (stats c) ltac:(apply Hwf) Hn) as [Hw2 Hc].
    eexists _, _. split; [done|]. split_and!; [cbn; auto with cprobe|intros; cbn; by rewrite Hs|by apply settled_now].
  - specialize (Hf eq_refl). eexists _, _. split; [done|].
    split_and!; [done|intros; cbn; by rewrite Hs|by apply settled_now].
Defined.
End NullOutput.

(** ** The file outputs *)

(** The part of a record header the slice changes. *)
Definition slice_hdr (h : pcap_pkthdr) (sl : Z) : pcap_pkthdr :=
  if (0 <? sl) && (u32 sl <? caplen h) then Pkthdr (ts_sec h) (ts_usec h) (u32 sl) (wirelen h) else h.

Definition file_output_snaplen (snaplen sl : Z) : Z :=
  if (0 <? sl) && (sl <? snaplen) then sl else snaplen.

Lemma slice_hdr_frame_len h c :
  common_wf c -> 0 <= caplen h < 4294967296 ->
  caplen (slice_hdr h (slice c)) = output_frame_len (caplen h) (slice c) SIZE_MAX /\
  ts_sec (slice_hdr h (slice c)) = ts_sec h /\ ts_usec (slice_hdr h (slice c)) = ts_usec h /\
  wirelen (slice_hdr h (slice c)) = wirelen h.
Proof.
  intros (_ & _ & Hs) Hc. rewrite output_frame_len_spec by (done || vm_compute; congruence).
  unfold slice_hdr, SIZE_MAX. destruct (Z.ltb_spec 0 (slice c)); cbn [andb]; [|split_and!; try done; lia].
  rewrite u32_small by lia. bcase; cbn; split_and!; try done; lia.
Qed.

Module FileOutput.
Section file.

(** libpcap's dumper: [pcap_dump] appends a record to it. *)
Context {D : Type} (pcap_dump : D -> pcap_pkthdr -> list Z -> D).

Record file_output_t := File { common : output_common; dumper : D }.

Definition file_write_packet (o : file_output_t) (h : pcap_pkthdr) (pkt : list Z) (direct : Z) :
    option (Z * file_output_t) :=
  let hdr := slice_hdr h (slice (common o)) in
  let '(ok, c) := admit_packet (common o) (caplen hdr) (pkt_ts hdr) direct in
  if ok then
    data ← bread (zlen pkt) pkt 0 (caplen hdr);
    Some (0, File (set_stats c (count_fwd (caplen hdr) (stats c))) (pcap_dump (dumper o) hdr data))
  else Some (-1, File c (dumper o)).

Definition file_output_new (d : D) (mbps sl : Z) (s : output_stats_t) : file_output_t :=
  File (common_new s mbps sl) d.

#[export] Instance file_ops : OutputOps file_output_t := {
  out_common := common;
  out_frame_len o h _ := output_frame_len (caplen h) (slice (common o)) SIZE_MAX;
  out_pending_packets _ := 0;
  out_pending_bytes _ := 0;
  out_send := file_write_packet;
}.

#[export, refine] Instance file_laws : OutputLaws file_output_t := {
  out_wf o := common_wf (common o);
}.
Proof.
  intros [c f] h pkt d Hwf (Hok & Hcl & Hle) Hd. cbn in Hwf.
  pose proof (frame_len_range c h SIZE_MAX Hwf Hcl ltac:(vm_compute; congruence)) as [Hr _].
  destruct (slice_hdr_frame_len h c Hwf Hcl) as (En & _).
  unfold out_send, file_ops, file_write_packet, out_frame_len. cbn [common out_common].
  rewrite En. set (n := output_frame_len _ _ _) in *. assert (u64_ok n) as Hn by (unfold u64_ok; lia).
  pose proof (admit_packet_ok c n (pkt_ts (slice_hdr h (slice c))) d Hwf Hn) as Ha.
  destruct (admit_packet c n _ d) as [[|] c']; destruct Ha as (Hw & Hs & _ & Ht & Hf).
  - destruct (Ht eq_refl) as [_ Es]. rewrite Es, bread_ok by lia. obind.
    destruct (count_fwd_ok n (stats c) ltac:(apply Hwf) Hn) as [Hw2 Hc].
    eexists _, _. split; [done|]. split_and!; [cbn; auto with cprobe|intros; cbn; by rewrite Hs|by apply settled_now].
  - specialize (Hf eq_refl). eexists _, _. split; [done|].
    split_and!; [done|intros; cbn; by rewrite Hs|by apply settled_now].
Defined.
End file.
End FileOutput.

Module RotatingFileOutput.
Section rotating.

(** The environment [W]: clock, file system and libpcap dumpers [D] on open
    files [F]. *)
Context {W F D : Type}.
Context (time : W -> Z * W) (strftime : string -> Z -> string).
Context (stat : W -> string -> bool) (mkdir : W -> string -> bool * W).
Context (fopen : W -> string -> option F * W) (fclose : W -> F -> W).
Context (pcap_dump_fopen : W -> F -> option D * W) (pcap_dump_close : W -> D -> W).
Context (pcap_dump : D -> pcap_pkthdr -> list Z -> D).

Record rotating_file_output_t := Rotating {
  common : output_common;
  file_root : string;
  max_file_interval : Z;
  file_time : Z;
  dumper_error : bool;
  dumper : option D;
  env : W;
}.

Definition PATH_MAX : Z := 4096.
Definition strlen (s : string) : Z := Z.of_nat (String.length s).

(** The last character of a non-empty root is not the separator. *)
Definition needs_separator (root_dir : string) : bool :=
  match String.get (String.length root_dir - 1) root_dir with
  | Some c => negb (Ascii.eqb c "/"%char)
  | None => false
  end.

(** [None] is the -1 return. *)
Definition generate_path (w : W) (root_dir : string) (t : Z) : option string * W :=
  let date := strftime "%Y%m%d%H%M%S" t in
  let subPath := strftime "%Y%m%d%H" t in
  let separator := if needs_separator root_dir then "/"%string else EmptyString in
  let currDir := (root_dir +:+ separator +:+ subPath)%string in
  if PATH_MAX <=? strlen currDir then (None, w)
  else
    let '(ok, w) := if stat w currDir then (true, w) else mkdir w currDir in
    if negb ok then (None, w)
    else
      let filepath := (currDir +:+ "/" +:+ "pktminerg_dump_" +:+ date +:+ ".pcap")%string in
      if PATH_MAX <=? strlen filepath then (None, w) else (Some filepath, w).

(** The new dumper, for the [file_time] of the output. *)
Definition create_dumper (w : W) (root : string) (ft : Z) : option D * W :=
  let '(p, w) := generate_path w root ft in
  match p with
  | None => (None, w)
  | Some filepath =>
      let '(fp, w) := fopen w filepath in
      match fp with
      | None => (None, w)
      | Some fp =>
          let '(d, w) := pcap_dump_fopen w fp in
          match d with
          | None => (None, fclose w fp)
          | Some d => (Some d, w)
          end
      end
  end.

Definition retry_interval (o : rotating_file_output_t) : Z :=
  if 0 <? max_file_interval o then max_file_interval o else 1.

(** The error exit after the admission checks. *)
Definition error_exit (o : rotating_file_output_t) (n : Z) (ft : Z) (err : bool) (d : option D) (w : W) :
    Z * rotating_file_output_t :=
  (-1, Rotating (set_stats (common o) (count_error_drop n (stats (common o)))) (file_root o)
         (max_file_interval o) ft err d w).

(** [pcap_dump] and the forward count. *)
Definition write_record (o : rotating_file_output_t) (hdr : pcap_pkthdr) (pkt : list Z) (ft : Z)
    (err : bool) (d : D) (w : W) : option (Z * rotating_file_output_t) :=
  data ← bread (zlen pkt) pkt 0 (caplen hdr);
  Some (0, Rotating (set_stats (common o) (count_fwd (caplen hdr) (stats (common o)))) (file_root o)
             (max_file_interval o) ft err (Some (pcap_dump d hdr data)) w).

(** From [if (output->dumper == NULL)] on: open, rotate or keep the file. *)
Definition rotate_and_write (o : rotating_file_output_t) (hdr : pcap_pkthdr) (pkt : list Z) :
    option (Z * rotating_file_output_t) :=
  match dumper o with
  | None =>
      let '(now, w) := time (env o) in
      let '(d, w) := create_dumper w (file_root o) now in
      match d with
      | None => Some (error_exit o (caplen hdr) now true None w)
      | Some d => write_record o hdr pkt now false d w
      end
  | Some d =>
      let '(now, w) := time (env o) in
      if (0 <? max_file_interval o) && (max_file_interval o <=? now - file_time o) then
        let w := pcap_dump_close w d in
        let '(d, w) := create_dumper w (file_root o) now in
        match d with
        | None => Some (error_exit o (caplen hdr) now true None w)
        | Some d => write_record o hdr pkt now false d w
        end
      else write_record o hdr pkt (file_time o) (dumper_error o) d w
  end.

Definition set_common (o : rotating_file_output_t) (c : output_common) : rotating_file_output_t :=
  Rotating c (file_root o) (max_file_interval o) (file_time o) (dumper_error o) (dumper o) (env o).
Definition set_env (o : rotating_file_output_t) (w : W) : rotating_file_output_t :=
  Rotating (common o) (file_root o) (max_file_interval o) (file_time o) (dumper_error o) (dumper o) w.

Definition rotating_file_write_packet (o : rotating_file_output_t) (h : pcap_pkthdr) (pkt : list Z)
    (direct : Z) : option (Z * rotating_file_output_t) :=
  let hdr := slice_hdr h (slice (common o)) in
  let '(ok, c) := admit_packet (common o) (caplen hdr) (pkt_ts hdr) direct in
  let o := set_common o c in
  if negb ok then Some (-1, o)
  else if dumper_error o then
    let '(now, w) := time (env o) in
    if now - file_time o <? retry_interval o
    then Some (error_exit o (caplen hdr) (file_time o) (dumper_error o) (dumper o) w)
    else rotate_and_write (set_env o w) hdr pkt
  else rotate_and_write o hdr pkt.

Definition rotating_file_output_new (root : string) (interval mbps sl : Z) (s : output_stats_t) (w : W) :
    option rotating_file_output_t :=
  if stat w root then Some (Rotating (common_new s mbps sl) root interval 0 false None w) else None.

(** [rotating_file_output_destroy]: an open dumper is closed. *)
Definition rotating_file_output_destroy (o : rotating_file_output_t) : W :=
  match dumper o with Some d => pcap_dump_close (env o) d | None => env o end.

#[export] Instance rotating_ops : OutputOps rotating_file_output_t := {
  out_common := common;
  out_frame_len o h _ := output_frame_len (caplen h) (slice (common o)) SIZE_MAX;
  out_pending_packets _ := 0;
  out_pending_bytes _ := 0;
  out_send := rotating_file_write_packet;
}.

(** A failed output has no file open. *)
Definition rotating_wf (o : rotating_file_output_t) : Prop :=
  common_wf (common o) /\ (dumper_error o = true -> dumper o = None).

(** The tail either writes the record to the dumper it leaves open and counts
    it forwarded, or leaves no file open and counts an error. *)
Lemma rotate_and_write_ok o hdr pkt :
  rotating_wf o -> u64_ok (caplen hdr) -> caplen hdr <= zlen pkt ->
  exists ret o', rotate_and_write o hdr pkt = Some (ret, o') /\ rotating_wf o' /\
    slice (common o') = slice (common o) /\
    counted 1 (caplen hdr) (stats (common o)) (stats (common o')) /\
    (ret = 0 /\ dumper_error o' = false /\
       (exists d, dumper o' = Some (pcap_dump d hdr (bslice pkt 0 (caplen hdr)))) \/
     ret = -1 /\ dumper_error o' = true /\ dumper o' = None).
Proof.
  intros [Hc He] Hn Hl. pose proof Hc as (Hs & _).
  destruct (count_fwd_ok _ _ Hs Hn) as [Hw1 Hc1]. destruct (count_error_drop_ok _ _ Hs Hn) as [Hw2 Hc2].
  assert (forall ft d w, exists ret o', write_record o hdr pkt ft false d w = Some (ret, o') /\ rotating_wf o' /\
      slice (common o') = slice (common o) /\
      counted 1 (caplen hdr) (stats (common o)) (stats (common o')) /\
      ret = 0 /\ dumper_error o' = false /\
       dumper o' = Some (pcap_dump d hdr (bslice pkt 0 (caplen hdr)))) as Hwr.
  { intros ft d w. unfold write_record. rewrite bread_ok by (destruct Hn; lia). obind.
    eexists _, _. split; [done|]. split_and!; try done. split; [|done]. cbn. auto with cprobe. }
  assert (forall ft w, rotating_wf (error_exit o (caplen hdr) ft true None w).2) as Her.
  { intros ft w. split; [|done]. cbn. auto with cprobe. }
  unfold rotate_and_write. destruct (dumper o) as [d|] eqn:Ed; destruct (time (env o)) as [now w];
    [destruct (_ && _)|].
  2:{ destruct (dumper_error o); [by specialize (He eq_refl)|].
      destruct (Hwr (file_time o) d w) as (ret & o' & E & ?&?&?&?&?&?). exists ret, o'. split; [done|].
      split_and!; try done. left. eauto. }
  all: destruct (create_dumper _ _ now) as [[d'|] w'];
    [destruct (Hwr now d' w') as (ret & o' & E & ?&?&?&?&?&?); exists ret, o'; split; [done|];
      split_and!; try done; left; eauto
    |eexists _, _; split; [reflexivity|]; split_and!; try done; [apply Her|auto]].
Qed.

#[export, refine] Instance rotating_laws : OutputLaws rotating_file_output_t := {
  out_wf := rotating_wf;
}.
Proof.
  intros o h pkt d [Hwf He] (Hok & Hcl & Hle) Hd.
  pose proof (frame_len_range (common o) h SIZE_MAX Hwf Hcl ltac:(vm_compute; congruence)) as [Hr _].
  destruct (slice_hdr_frame_len h (common o) Hwf Hcl) as (En & _).
  unfold out_send, rotating_ops, rotating_file_write_packet, out_frame_len.
  cbn [out_common]. rewrite <- En in *.
  assert (u64_ok (caplen (slice_hdr h (slice (common o))))) as Hn by (unfold u64_ok; lia).
  set (hdr := slice_hdr h (slice (common o))) in *.
  pose proof (admit_packet_ok (common o) (caplen hdr) (pkt_ts hdr) d Hwf Hn) as Ha.
  destruct (admit_packet (common o) _ _ d) as [ok c']. destruct Ha as (Hw & Hs & _ & Ht & Hf).
  destruct ok; cbn [negb].
  2:{ eexists _, _. split; [done|]. split_and!; [by split|intros; cbn; by rewrite Hs|by apply settled_now; auto]. }
  destruct (Ht eq_refl) as [_ Es]. set (o1 := set_common o c').
  assert (rotating_wf o1) as Hw1 by (by split).
  assert (forall o2, common o2 = c' -> rotating_wf o2 ->
    exists ret o', rotate_and_write o2 hdr pkt = Some (ret, o') /\ rotating_wf o' /\
      (forall h' pkt', out_frame_len o' h' pkt' = out_frame_len o h' pkt') /\ settled 1 (caplen hdr) o o') as Htail.
  { intros o2 E2 Hw2. destruct (rotate_and_write_ok o2 hdr pkt Hw2 Hn) as (ret & o' & E & ? & Hsl & Hct & _).
    { unfold hdr in *. lia. }
    exists ret, o'. split_and!; try done; [intros; cbn; by rewrite Hsl, E2, Hs|].
    apply settled_now; try done. cbn. by rewrite <- Es, <- E2. }
  destruct (dumper_error o1) eqn:Ee; [|by apply Htail].
  destruct (time (env o1)) as [now w]. bcase; [|by apply Htail].
  destruct (count_error_drop_ok (caplen hdr) (stats c') ltac:(apply Hw) Hn) as [Hw2 Hc2].
  eexists _, _. split; [done|].
  split_and!; [split; [cbn; auto with cprobe|intros _; exact (He Ee)]|intros; cbn; by rewrite Hs|apply settled_now; try done; cbn; by rewrite <- Es].
Defined.

(** the rotating output writes every packet it forwards, with the sliced
    captured length and the original wire length, to the file it leaves open;
    a failed open leaves no file open; and while an open has failed, packets
    that arrive before the retry interval has passed are dropped without
    touching the file system (only the clock is read). *)
Theorem rotating_write_correct o h pkt d :
  rotating_wf o -> pkt_ok h pkt ->
  exists ret o', rotating_file_write_packet o h pkt d = Some (ret, o') /\ rotating_wf o' /\
    (ret = 0 \/ ret = -1) /\
    (ret = 0 -> d <> PKT_DIR_UNKNOWN /\ exists dmp, dumper o' =
       Some (pcap_dump dmp (slice_hdr h (slice (common o)))
               (bslice pkt 0 (output_frame_len (caplen h) (slice (common o)) SIZE_MAX)))) /\
    (dumper_error o = true -> (time (env o)).1 - file_time o < retry_interval o ->
       ret = -1 /\ (env o' = env o \/ env o' = (time (env o)).2)).
Proof.
  intros [Hwf He] (Hok & Hcl & Hle).
  pose proof (frame_len_range (common o) h SIZE_MAX Hwf Hcl ltac:(vm_compute; congruence)) as [Hr _].
  destruct (slice_hdr_frame_len h (common o) Hwf Hcl) as (En & _). rewrite <- En in *.
  unfold rotating_file_write_packet. set (hdr := slice_hdr h (slice (common o))) in *.
  assert (u64_ok (caplen hdr)) as Hn by (unfold u64_ok; lia).
  pose proof (admit_packet_ok (common o) (caplen hdr) (pkt_ts hdr) d Hwf Hn) as Ha.
  destruct (admit_packet (common o) _ _ d) as [ok c']. destruct Ha as (Hw & Hs & _ & Ht & Hf).
  destruct ok; cbn [negb].
  2:{ eexists _, _. split; [done|]. split_and!; [by split|by right|done|by auto]. }
  destruct (Ht eq_refl) as [Hd _].
  assert (forall o2, common o2 = c' -> rotating_wf o2 ->
    exists ret o', rotate_and_write o2 hdr pkt = Some (ret, o') /\ rotating_wf o' /\ (ret = 0 \/ ret = -1) /\
      (ret = 0 -> d <> PKT_DIR_UNKNOWN /\
        exists dmp, dumper o' = Some (pcap_dump dmp hdr (bslice pkt 0 (caplen hdr))))) as Htail.
  { intros o2 E2 Hw2. destruct (rotate_and_write_ok o2 hdr pkt Hw2 Hn ltac:(lia))
      as (ret & o' & E & ? & _ & _ & Hcase). exists ret, o'. split; [done|]. split; [done|].
    destruct Hcase as [(-> & _ & ?)|(-> & _ & _)]; (split; [by auto|]); [by auto|done]. }
  cbn [set_common dumper_error file_time env].
  destruct (dumper_error o) eqn:Ee.
  2:{ destruct (Htail (set_common o c')) as (ret & o' & ?&?&?&?); [done|split; [done|cbn; rewrite Ee; done]|].
      exists ret, o'. by split_and!. }
  unfold retry_interval. cbn [set_common max_file_interval].
  destruct (time (env o)) as [now w]. cbn [fst snd].
  match goal with |- context [now - file_time o <? ?x] => destruct (Z.ltb_spec (now - file_time o) x) end.
  - destruct (count_error_drop_ok (caplen hdr) (stats c') ltac:(apply Hw) Hn) as [Hw2 Hc2].
    eexists _, _. split; [done|]. split_and!; [split; [cbn; auto with cprobe|intros _; by apply He]|by right|done|by auto].
  - destruct (Htail (set_env (set_common o c') w)) as (ret & o' & ?&?&?&?); [done|split; [done|cbn; rewrite Ee; done]|].
    exists ret, o'. split_and!; try done. lia.
Qed.
End rotating.
End RotatingFileOutput.

(** A concrete environment: a clock that ticks once per reading, a file system
    on which every call succeeds, dumpers that are record lists. *)
Module RotatingDemo.
Import RotatingFileOutput.

Definition time (w : Z) : Z * Z := (w, w + 1).
Definition strftime (_ : string) (_ : Z) : string := "2024010100".
Definition fopen (w : Z) (p : string) : option string * Z := (Some p, w).
Definition pcap_dump_fopen (w : Z) (f : string) : option (list (pcap_pkthdr * list Z)) * Z := (Some [], w).
Definition pcap_dump (d : list (pcap_pkthdr * list Z)) (h : pcap_pkthdr) (b : list Z) := d ++ [(h, b)].

Definition write :=
  rotating_file_write_packet time strftime (fun _ _ => true) (fun w _ => (true, w)) fopen
    (fun w _ => w) pcap_dump_fopen (fun w _ => w) pcap_dump.

Definition fresh : rotating_file_output_t (W := Z) (D := list (pcap_pkthdr * list Z)) :=
  Rotating (common_new output_stats_zero 0 2) "/tmp" 60 0 false None 1000.

(** Two packets 60 readings of the clock apart: one file each. *)
Example rotates_after_interval :
  exists o1 o2,
    write fresh (Pkthdr 5 6 3 100) [1; 2; 3] 0 = Some (0, o1) /\
    dumper o1 = Some [(Pkthdr 5 6 2 100, [1; 2])] /\
    write (set_env o1 1060) (Pkthdr 7 8 1 1) [9] 0 = Some (0, o2) /\
    dumper o2 = Some [(Pkthdr 7 8 1 1, [9])].
Proof. eexists _, _. repeat split; vm_compute; reflexivity. Qed.

Lemma rotating_write_correct_witness :
  exists ret o', write fresh (Pkthdr 5 6 3 100) [1; 2; 3] 0 = Some (ret, o') /\
    (ret = 0 \/ ret = -1).
Proof.
  destruct (rotating_write_correct time strftime (fun _ _ => true) (fun w _ => (true, w)) fopen
    (fun w _ => w) pcap_dump_fopen (fun w _ => w) pcap_dump fresh (Pkthdr 5 6 3 100) [1; 2; 3] 0)
    as (ret & o' & E & _ & Hr & _).
  - split; [|discriminate]. apply common_new_wf; [exact stats_zero_wf|reflexivity].
  - split; [repeat constructor; vm_compute; congruence|]. cbn. unfold zlen. cbn. lia.
  - exists ret, o'. split; [exact E|exact Hr].
Defined.
End RotatingDemo.
