(* ===== verification/Datagram.v ===== *)
(** * Sending one datagram (the loop of output_gre.c and output_vxlan.c)

    Both tunnels send with the same loop: [sendto], retried with a growing
    pause while the kernel is out of buffers, and an error record that is
    logged and reset every five seconds of capture time.  [sendto] and
    [usleep] are parameters of the model. *)

From stdpp Require Import prelude list list_numbers.
From S2P Require Import Prelude Headers Output.

Definition ENOBUFS : Z := 105.
Definition ERROR_INFO_FLUSH_MAX_DUR_SEC : Z := 5.
Definition max_retries : Z := 10.

(** What [sendto] returns: a byte count, or -1 with [errno]. *)
Inductive send_result := SendBytes (n : Z) | SendErrno (errno : Z).

(** [other_send_error] is the text of the first other error, kept as its
    [errno]. *)
Record error_info_t := ErrorInfo {
  first_pktsec : Z;
  nb_nobufs_drops : Z;
  nb_partial_sends : Z;
  nb_other_send_error_drops : Z;
  other_send_error : option Z;
}.

Definition error_info_zero : error_info_t := ErrorInfo 0 0 0 0 None.

Definition flush_error_info (e : error_info_t) : error_info_t :=
  if (0 <? nb_nobufs_drops e) || (0 <? nb_partial_sends e) || (0 <? nb_other_send_error_drops e)
  then ErrorInfo 0 0 0 0 None
  else ErrorInfo 0 (nb_nobufs_drops e) (nb_partial_sends e) (nb_other_send_error_drops e)
         (other_send_error e).

Definition set_first (e : error_info_t) (t : Z) : error_info_t :=
  ErrorInfo t (nb_nobufs_drops e) (nb_partial_sends e) (nb_other_send_error_drops e) (other_send_error e).

(** The "check error_info" block. *)
Definition check_error_info (e : error_info_t) (sec : Z) : error_info_t :=
  if first_pktsec e =? 0 then set_first e sec
  else if first_pktsec e + ERROR_INFO_FLUSH_MAX_DUR_SEC <? sec
  then set_first (flush_error_info e) sec
  else e.

(** The counters of a failed send. *)
Definition note_errno (e : error_info_t) (errno : Z) : error_info_t :=
  if errno =? ENOBUFS
  then ErrorInfo (first_pktsec e) (u64 (nb_nobufs_drops e + 1)) (nb_partial_sends e)
         (nb_other_send_error_drops e) (other_send_error e)
  else ErrorInfo (first_pktsec e) (nb_nobufs_drops e) (nb_partial_sends e)
         (u64 (nb_other_send_error_drops e + 1))
         (if nb_other_send_error_drops e =? 0 then Some errno else other_send_error e).
Definition note_partial (e : error_info_t) : error_info_t :=
  ErrorInfo (first_pktsec e) (nb_nobufs_drops e) (u64 (nb_partial_sends e + 1))
    (nb_other_send_error_drops e) (other_send_error e).

Definition backoff (retry_count : Z) : Z :=
  let duration := 100 + retry_count * 200 in
  if 1000 <? duration then 1000 else duration.

Section loop.
Context {W : Type} (sendto : W -> list Z -> send_result * W) (usleep : W -> Z -> W).

(** The [do ... while (true)] loop; [None] is a loop that has not ended within
    the fuel. *)
Fixpoint send_loop (fuel : nat) (retry_count : Z) (w : W) (dgram : list Z) (e : error_info_t) :
    option (bool * error_info_t * W) :=
  match fuel with
  | O => None
  | S fuel =>
      let '(res, w) := sendto w dgram in
      match res with
      | SendErrno errno =>
          if (errno =? ENOBUFS) && (retry_count <? max_retries)
          then send_loop fuel (retry_count + 1) (usleep w (backoff retry_count)) dgram e
          else Some (false, note_errno e errno, w)
      | SendBytes n =>
          if u64 n <? zlen dgram then Some (false, note_partial e, w)
          else Some (true, e, w)
      end
  end.

(** One first attempt and ten retries. *)
Definition send_fuel : nat := 11.

Lemma send_loop_total fuel k w dgram e :
  0 <= k <= max_retries -> max_retries - k < Z.of_nat fuel ->
  send_loop fuel k w dgram e <> None.
Proof.
  unfold max_retries. revert k w. induction fuel as [|fuel IH]; intros k w Hk Hf; [lia|].
  cbn [send_loop]. destruct (sendto w dgram) as [[n|errno] w']; [by bcase|].
  bcase; [|done]. unfold max_retries in *. apply IH; lia.
Qed.

Lemma send_loop_ok w dgram e :
  exists ok e' w', send_loop send_fuel 0 w dgram e = Some (ok, e', w').
Proof.
  pose proof (send_loop_total send_fuel 0 w dgram e) as H.
  destruct (send_loop send_fuel 0 w dgram e) as [[[ok e'] w']|]; [by eauto|].
  exfalso. apply H; try done; unfold max_retries, send_fuel; lia.
Qed.

(** [attempts w k] is the environment after [k] rejected attempts, each with
    its pause. *)
Fixpoint attempts (w : W) (dgram : list Z) (k : nat) : W :=
  match k with
  | O => w
  | S k => usleep (sendto (attempts w dgram k) dgram).2 (backoff (Z.of_nat k))
  end.

(** The loop in closed form: [k] attempts rejected with ENOBUFS, [k] at most
    ten, then the answer that ends it. *)
Inductive sends (w : W) (dgram : list Z) (e : error_info_t) : bool -> error_info_t -> W -> Prop :=
| Sends k res w' ok e' :
    (k <= 10)%nat ->
    (forall j, (j < k)%nat -> (sendto (attempts w dgram j) dgram).1 = SendErrno ENOBUFS) ->
    sendto (attempts w dgram k) dgram = (res, w') ->
    (match res with
     | SendBytes n => ok = negb (u64 n <? zlen dgram) /\ e' = (if ok then e else note_partial e)
     | SendErrno errno => ok = false /\ e' = note_errno e errno /\ (errno = ENOBUFS -> k = 10%nat)
     end) ->
    sends w dgram e ok e' w'.

Lemma send_loop_sends_from fuel k w0 dgram e ok e' w' :
  (k <= 10)%nat ->
  (forall j, (j < k)%nat -> (sendto (attempts w0 dgram j) dgram).1 = SendErrno ENOBUFS) ->
  send_loop fuel (Z.of_nat k) (attempts w0 dgram k) dgram e = Some (ok, e', w') ->
  sends w0 dgram e ok e' w'.
Proof.
  revert k. induction fuel as [|fuel IH]; intros k Hk Hj H; [done|]. cbn [send_loop] in H.
  destruct (sendto (attempts w0 dgram k) dgram) as [res w1] eqn:E. destruct res as [n|errno].
  - destruct (u64 n <? zlen dgram) eqn:En; injection H as <- <- <-; (eapply Sends; [done|done|done|]); cbn; by rewrite En.
  - destruct (Z.eqb_spec errno ENOBUFS) as [->|Hne]; cbn [andb] in H.
    + unfold max_retries in H. destruct (Z.ltb_spec (Z.of_nat k) 10).
      * apply (IH (S k)); [lia| |].
        -- intros j Hlt. destruct (decide (j = k)) as [->|]; [by rewrite E|apply Hj; lia].
        -- rewrite Nat2Z.inj_succ. cbn [attempts]. by rewrite E.
      * injection H as <- <- <-. eapply Sends; [done|done|done|]. split_and!; [done|done|lia].
    + injection H as <- <- <-. eapply Sends; [done|done|done|]. by split_and!.
Qed.
End loop.
