(* ===== verification/OutputGre.v ===== *)
(** * GRE output (output_gre.c, output_gre.h, gre.h)

    Each packet becomes one GRE datagram: a fixed header with the key field
    set per packet, then the frame.  The header lives in the first eight
    bytes of the output buffer for the life of the output. *)

From stdpp Require Import prelude list list_numbers.
From S2P Require Import Prelude ByteOrder Stats RateLimit Headers Output Datagram.

Module GreOutput.

Definition GRE_MAX_FRAME_LEN : Z := 65535.
Definition GRE_OUTPUT_BUFSIZE : Z := 65551.

Section gre.
Context {W : Type} (sendto : W -> list Z -> send_result * W) (usleep : W -> Z -> W).

Record gre_output_t := Gre {
  common : output_common;
  service_tag : Z;
  buf : list Z;
  error_info : error_info_t;
  env : W;
}.

(** The struct a successful construction returns: flags with K = 1, Ethernet
    over GRE, the service tag as the key. *)
Definition gre_output_new (tag mbps sl : Z) (s : output_stats_t) (w : W) : gre_output_t :=
  Gre (common_new s mbps sl) tag
    (le16 (htons 8192) ++ le16 (htons 25944) ++ le32 (htonl tag)) error_info_zero w.

Definition gre_send_packet (o : gre_output_t) (h : pcap_pkthdr) (pkt : list Z) (direct : Z) :
    option (Z * gre_output_t) :=
  let frame_len := output_frame_len (caplen h) (slice (common o)) GRE_MAX_FRAME_LEN in
  let '(ok, c) := admit_packet (common o) frame_len (pkt_ts h) direct in
  if negb ok then Some (-1, Gre c (service_tag o) (buf o) (error_info o) (env o))
  else
    b ← store32 GRE_OUTPUT_BUFSIZE (buf o) 4
          (htonl (Z.lor (Z.land (service_tag o) 268435455) (Z.shiftl direct 28)));
    data ← bread (zlen pkt) pkt 0 frame_len;
    b ← bwrite GRE_OUTPUT_BUFSIZE b GRE_HEADER_LEN data;
    let e := check_error_info (error_info o) (ts_sec h) in
    dgram ← bread GRE_OUTPUT_BUFSIZE b 0 (GRE_HEADER_LEN + frame_len);
    '(sent, e, w) ← send_loop sendto usleep send_fuel 0 (env o) dgram e;
    Some (if sent : bool
          then (0, Gre (set_stats c (count_fwd frame_len (stats c))) (service_tag o) b e w)
          else (-1, Gre (set_stats c (count_error_drop frame_len (stats c))) (service_tag o) b e w)).

(** ** The datagram *)

(** The key: direction in the high four bits, service tag in the low 28. *)
Definition gre_key (tag direct : Z) : Z := tag mod 268435456 + direct * 268435456.

Definition gre_datagram (tag direct : Z) (frame : list Z) : list Z :=
  [32; 0; 101; 88] ++ be32 (gre_key tag direct) ++ frame.

(** What a receiver reads out of it. *)
Definition gre_decode (dgram : list Z) : Z * Z * list Z :=
  let key := net32 dgram 4 in
  (key mod 268435456, key / 268435456, bslice dgram 8 (zlen dgram - 8)).

Definition gre_wf (o : gre_output_t) : Prop :=
  common_wf (common o) /\ bytes_ok (buf o) /\ bslice (buf o) 0 4 = [32; 0; 101; 88] /\
  0 <= service_tag o < 4294967296.

Lemma gre_new_wf tag mbps sl s w :
  stats_wf s -> sl < 2147483648 -> 0 <= tag < 4294967296 -> gre_wf (gre_output_new tag mbps sl s w).
Proof.
  intros Hs Hsl Ht. split; [by apply common_new_wf|]. split; [|split; [|done]].
  - cbn [gre_output_new buf]. auto with cprobe.
  - cbn [gre_output_new buf]. rewrite app_assoc, bslice_app_l by (vm_compute; congruence).
    reflexivity.
Qed.

Lemma key_value tag direct :
  0 <= direct <= 2 ->
  Z.lor (Z.land tag 268435455) (Z.shiftl direct 28) = gre_key tag direct.
Proof.
  intros Hd. change 268435455 with (Z.ones 28). rewrite Z.land_ones by lia.
  rewrite <- Z.add_nocarry_lor.
  { rewrite Z.shiftl_mul_pow2 by lia. done. }
  apply Z.bits_inj'. intros i Hi. rewrite Z.land_spec, Z.bits_0. destruct (Z.ltb_spec i 28).
  - rewrite (Z.shiftl_spec_low _ 28 i) by lia. apply andb_false_r.
  - by rewrite Z.mod_pow2_bits_high by lia.
Qed.

Lemma gre_buf_datagram b tag direct frame :
  bslice b 0 4 = [32; 0; 101; 88] ->
  let b' := bput (bput b 4 (be32 (gre_key tag direct))) 8 frame in
  bslice b' 0 (8 + zlen frame) = gre_datagram tag direct frame /\ bslice b' 0 4 = [32; 0; 101; 88].
Proof.
  intros H4 b'. pose proof (zlen_nonneg frame). subst b'.
  assert (bslice (bput (bput b 4 (be32 (gre_key tag direct))) 8 frame) 0 4 = [32; 0; 101; 88]) as E4.
  { rewrite <- H4. rewrite !bslice_bput_out by (rewrite ?be32_zlen; lia). done. }
  split; [|done]. replace (8 + zlen frame) with (4 + (4 + zlen frame)) by lia.
  rewrite !bslice_app, E4 by lia. unfold gre_datagram. apply f_equal, f_equal2.
  - rewrite bslice_bput_out by lia. by apply bslice_bput_in.
  - apply bslice_bput_in; lia.
Qed.

(** The send in closed form: the datagram of the spec goes through the loop. *)
Lemma gre_send_eq o h pkt d c :
  gre_wf o -> pkt_ok h pkt -> dir_ok d ->
  let n := output_frame_len (caplen h) (slice (common o)) GRE_MAX_FRAME_LEN in
  admit_packet (common o) n (pkt_ts h) d = (true, c) ->
  let dgram := gre_datagram (service_tag o) d (bslice pkt 0 n) in
  exists b sent e w, bytes_ok b /\ bslice b 0 4 = [32; 0; 101; 88] /\
    send_loop sendto usleep send_fuel 0 (env o) dgram (check_error_info (error_info o) (ts_sec h)) =
      Some (sent, e, w) /\
    gre_send_packet o h pkt d =
      Some (if sent then (0, Gre (set_stats c (count_fwd n (stats c))) (service_tag o) b e w)
            else (-1, Gre (set_stats c (count_error_drop n (stats c))) (service_tag o) b e w)).
Proof.
  intros (Hc & Hb & H4 & Ht) (Hok & Hcl & Hle) Hd n Ha dgram.
  pose proof (frame_len_range (common o) h GRE_MAX_FRAME_LEN Hc Hcl ltac:(vm_compute; congruence)) as [Hr Hm].
  fold n in Hr, Hm. unfold GRE_MAX_FRAME_LEN in Hm.
  pose proof (admit_packet_ok (common o) n (pkt_ts h) d Hc ltac:(unfold u64_ok; lia)) as Had.
  rewrite Ha in Had. destruct Had as (_ & _ & _ & Hnu & _). destruct (Hnu eq_refl) as [Hdn _].
  assert (0 <= d <= 2) as Hdr.
  { unfold dir_ok, PKT_DIR_UNKNOWN, PKT_DIR_NONCHECK, PKT_DIR_INCOMING, PKT_DIR_OUTGOING in *. lia. }
  unfold gre_send_packet. cbv zeta. fold n. rewrite Ha. cbn [negb].
  rewrite key_value, store32_net by (done || vm_compute; congruence). obind.
  rewrite bread_ok by lia. obind.
  rewrite bwrite_ok by (rewrite ?bslice_zlen; unfold GRE_HEADER_LEN, GRE_OUTPUT_BUFSIZE; lia). obind.
  destruct (gre_buf_datagram (buf o) (service_tag o) d (bslice pkt 0 n) H4) as [Ed E4].
  rewrite bslice_zlen in Ed by lia. fold dgram in Ed.
  rewrite bread_ok by (unfold GRE_HEADER_LEN, GRE_OUTPUT_BUFSIZE; lia). obind.
  unfold GRE_HEADER_LEN. rewrite Ed.
  destruct (send_loop_ok sendto usleep (env o) dgram (check_error_info (error_info o) (ts_sec h)))
    as (sent & e & w & Es). rewrite Es. obind.
  eexists _, sent, e, w. split; [|split; [exact E4|split; [done|by destruct sent]]]. auto with cprobe.
Qed.

#[export] Instance gre_ops : OutputOps gre_output_t := {
  out_common := common;
  out_frame_len o h _ := output_frame_len (caplen h) (slice (common o)) GRE_MAX_FRAME_LEN;
  out_pending_packets _ := 0;
  out_pending_bytes _ := 0;
  out_send := gre_send_packet;
}.

#[export, refine] Instance gre_laws : OutputLaws gre_output_t := { out_wf := gre_wf }.
Proof.
  intros o h pkt d Hwf Hp Hd. pose proof Hwf as (Hc & Hb & H4 & Ht). pose proof Hp as (_ & Hcl & _).
  pose proof (frame_len_range (common o) h GRE_MAX_FRAME_LEN Hc Hcl ltac:(vm_compute; congruence)) as [Hr _].
  unfold out_frame_len. cbn [out_common gre_ops out_send].
  set (n := output_frame_len _ _ _) in *. assert (u64_ok n) as Hn by (unfold u64_ok; lia).
  pose proof (admit_packet_ok (common o) n (pkt_ts h) d Hc Hn) as Had.
  destruct (admit_packet (common o) n (pkt_ts h) d) as [ok c] eqn:Ea.
  destruct Had as (Hw & Hs & _ & Hyes & Hno). destruct ok.
  - destruct (gre_send_eq o h pkt d c Hwf Hp Hd Ea) as (b & sent & e & w & Hb' & H4' & _ & ->).
    destruct (Hyes eq_refl) as [_ Es]. rewrite Es. fold n.
    destruct (count_fwd_ok n (stats (common o)) ltac:(apply Hc) Hn) as [Hw1 Hc1].
    destruct (count_error_drop_ok n (stats (common o)) ltac:(apply Hc) Hn) as [Hw2 Hc2].
    destruct sent; (eexists _, _; split; [done|]);
      (split_and!; [split; [by apply set_stats_wf|exact (conj Hb' (conj H4' Ht))]|intros; cbn; by rewrite Hs|by apply settled_now]).
  - unfold gre_send_packet. fold n. rewrite Ea. cbn [negb]. eexists _, _. split; [done|].
    split_and!; [exact (conj Hw (conj Hb (conj H4 Ht)))|intros; cbn; by rewrite Hs|apply settled_now; auto].
Defined.

(** A receiver reads back the direction, the low 28 bits of the service tag
    and the frame. *)
Lemma gre_decode_datagram tag direct frame :
  0 <= direct <= 2 -> bytes_ok frame ->
  gre_decode (gre_datagram tag direct frame) = (tag mod 268435456, direct, frame).
Proof.
  intros Hd Hf. unfold gre_decode, gre_datagram.
  assert (0 <= gre_key tag direct < 4294967296) as Hk by (unfold gre_key; zlia).
  assert (net32 ([32; 0; 101; 88] ++ be32 (gre_key tag direct) ++ frame) 4 = gre_key tag direct) as ->.
  { unfold net32. rewrite !(bget_app_r [32; 0; 101; 88]) by (change (zlen [32; 0; 101; 88]) with 4; lia).
    change (zlen [32; 0; 101; 88]) with 4. rewrite !bget_app_l by (rewrite be32_zlen; lia). unfold be32. bget_concrete. unfold u8. zlia. }
  rewrite !zlen_app, be32_zlen. change (zlen [32; 0; 101; 88]) with 4.
  rewrite app_assoc, bslice_app_r by (rewrite zlen_app, be32_zlen; change (zlen [32; 0; 101; 88]) with 4; lia).
  rewrite zlen_app, be32_zlen. change (zlen [32; 0; 101; 88]) with 4.
  replace (8 - (4 + 4)) with 0 by lia. replace (4 + (4 + zlen frame) - 8) with (zlen frame) by lia.
  rewrite bslice_full. unfold gre_key. f_equal. f_equal; zlia.
Qed.

(** C33: a packet that passes the direction check and the rate limit goes out
    as one GRE datagram from which a receiver reads back the direction, the
    low 28 bits of the service tag and the sliced frame; the datagram is
    offered to the kernel at most eleven times, again only after ENOBUFS, and
    the packet is counted forwarded exactly when it was sent in full and as an
    error drop otherwise. *)
Theorem gre_send_correct o h pkt d c :
  gre_wf o -> pkt_ok h pkt -> dir_ok d ->
  let n := output_frame_len (caplen h) (slice (common o)) GRE_MAX_FRAME_LEN in
  admit_packet (common o) n (pkt_ts h) d = (true, c) ->
  exists dgram sent e w ret o',
    gre_send_packet o h pkt d = Some (ret, o') /\
    bslice dgram 0 4 = [32; 0; 101; 88] /\
    gre_decode dgram = (service_tag o mod 268435456, d, bslice pkt 0 n) /\
    sends sendto usleep (env o) dgram (check_error_info (error_info o) (ts_sec h)) sent e w /\
    env o' = w /\ error_info o' = e /\ (ret = 0 <-> sent = true) /\
    stats (common o') = (if sent then count_fwd n (stats c) else count_error_drop n (stats c)).
Proof.
  intros Hwf Hp Hd n Ha. pose proof Hwf as (Hc & _). pose proof Hp as (Hok & Hcl & _).
  pose proof (frame_len_range (common o) h GRE_MAX_FRAME_LEN Hc Hcl ltac:(vm_compute; congruence)) as [Hr _].
  pose proof (admit_packet_ok (common o) n (pkt_ts h) d Hc ltac:(unfold u64_ok; subst n; lia)) as Had.
  rewrite Ha in Had. destruct Had as (_ & _ & _ & Hnu & _). destruct (Hnu eq_refl) as [Hdn _].
  destruct (gre_send_eq o h pkt d c Hwf Hp Hd Ha) as (b & sent & e & w & _ & _ & Es & E).
  fold n in E, Es. apply (send_loop_sends_from sendto usleep send_fuel 0 (env o)) in Es; [|lia|lia].
  assert (0 <= d <= 2).
  { unfold dir_ok, PKT_DIR_UNKNOWN, PKT_DIR_NONCHECK, PKT_DIR_INCOMING, PKT_DIR_OUTGOING in *. lia. }
  exists (gre_datagram (service_tag o) d (bslice pkt 0 n)), sent, e, w.
  destruct sent; (eexists _, _; split; [exact E|]);
    (split_and!; [reflexivity|apply gre_decode_datagram; auto with cprobe|exact Es|done..]).
Qed.
End gre.

(** A network that takes every datagram. *)
Definition perfect_sendto (w : list (list Z)) (d : list Z) : send_result * list (list Z) :=
  (SendBytes (zlen d), w ++ [d]).

Definition demo_output : gre_output_t (W := list (list Z)) :=
  gre_output_new 4660 0 0 output_stats_zero [].

Example gre_send_demo :
  (fun r => env r.2) <$> gre_send_packet perfect_sendto (fun w _ => w) demo_output (Pkthdr 5 6 3 3) [1; 2; 3] 2
  = Some [[32; 0; 101; 88; 32; 0; 18; 52; 1; 2; 3]].
Proof. vm_compute. reflexivity. Qed.

Lemma gre_send_correct_witness :
  exists dgram ret o',
    gre_send_packet perfect_sendto (fun w _ => w) demo_output (Pkthdr 5 6 3 3) [1; 2; 3] 2 = Some (ret, o') /\
    gre_decode dgram = (4660, 2, [1; 2; 3]).
Proof.
  destruct (gre_send_correct perfect_sendto (fun w _ => w) demo_output (Pkthdr 5 6 3 3) [1; 2; 3] 2
    (common demo_output)) as (dgram & sent & e & w & ret & o' & E & _ & Ed & _).
  - apply gre_new_wf; [exact stats_zero_wf|lia|lia].
  - split; [repeat constructor; vm_compute; congruence|]. cbn. unfold zlen. cbn. lia.
  - right. right. right. reflexivity.
  - reflexivity.
  - exists dgram, ret, o'. split; [exact E|exact Ed].
Defined.
End GreOutput.
