(* ===== verification/OutputVxlan.v ===== *)
(** * VXLAN output (output_vxlan.c, output_vxlan.h, vxlan.h)

    One datagram per packet, or one per fragment when splitting is on.  The
    VXLAN header carries a private tag: with [vni_version] 1 a service tag, a
    direction nibble and a check byte, otherwise the observation tag plus the
    direction. *)

From stdpp Require Import prelude list list_numbers.
From S2P Require Import Prelude ByteOrder Stats RateLimit Headers Checksum PacketSplit Output Datagram.

Module VxlanOutput.

Definition VXLAN_MAX_FRAME_LEN : Z := 65535.
Definition VXLAN_OUTPUT_BUFSIZE : Z := 65551.

(** ** The check sum *)

Fixpoint rte_loop4 (fuel : nat) (l : list Z) (sum : Z) : list Z * Z :=
  match fuel with
  | O => (l, sum)
  | S fuel =>
      if 8 <=? zlen l then
        let sum := u32 (sum + word l 0) in
        let sum := u32 (sum + word l 1) in
        let sum := u32 (sum + word l 2) in
        let sum := u32 (sum + word l 3) in
        rte_loop4 fuel (drop 8 l) sum
      else (l, sum)
  end.

(** The second loop is the word loop of the checksum module. *)
Definition rte_raw_cksum_sum (l : list Z) (sum : Z) : Z :=
  let fuel := length l in
  let '(l, sum) := rte_loop4 fuel l sum in
  let '(l, sum) := word_loop fuel l sum in
  if zlen l =? 1 then u32 (sum + bget l 0) else sum.

Definition rte_raw_cksum_reduce (sum : Z) : Z :=
  let sum := u32 (Z.shiftr (Z.land sum 4294901760) 16 + Z.land sum 65535) in
  let sum := u32 (Z.shiftr (Z.land sum 4294901760) 16 + Z.land sum 65535) in
  u16 sum.

Definition rte_raw_cksum (l : list Z) : Z :=
  rte_raw_cksum_reduce (rte_raw_cksum_sum l 1245392156).

(** ** The output *)

Section vxlan.
Context {W : Type} (sendto : W -> list Z -> send_result * W) (usleep : W -> Z -> W).
Context (sse2 : bool).

Record vxlan_output_t := Vxlan {
  common : output_common;
  vni_version : Z;
  vni : Z;
  capture_time : bool;
  max_payload_size : Z;
  recalculate_checksum : bool;
  buf : list Z;
  fragment_buf : list Z;
  error_info : error_info_t;
  env : W;
}.

Definition set_common (o : vxlan_output_t) (c : output_common) : vxlan_output_t :=
  Vxlan c (vni_version o) (vni o) (capture_time o) (max_payload_size o) (recalculate_checksum o)
    (buf o) (fragment_buf o) (error_info o) (env o).
Definition set_error (o : vxlan_output_t) (e : error_info_t) : vxlan_output_t :=
  Vxlan (common o) (vni_version o) (vni o) (capture_time o) (max_payload_size o)
    (recalculate_checksum o) (buf o) (fragment_buf o) e (env o).
Definition set_fragment (o : vxlan_output_t) (f : list Z) : vxlan_output_t :=
  Vxlan (common o) (vni_version o) (vni o) (capture_time o) (max_payload_size o)
    (recalculate_checksum o) (buf o) f (error_info o) (env o).
Definition set_sent (o : vxlan_output_t) (b : list Z) (e : error_info_t) (w : W) : vxlan_output_t :=
  Vxlan (common o) (vni_version o) (vni o) (capture_time o) (max_payload_size o)
    (recalculate_checksum o) b (fragment_buf o) e w.

(** The struct a successful construction returns. *)
Definition vxlan_output_new (version tag : Z) (ctime : bool) (max : Z) (recalc : bool)
    (mbps sl : Z) (s : output_stats_t) (w : W) : vxlan_output_t :=
  Vxlan (common_new s mbps sl) version tag ctime max recalc
    (le32 (htonl 134217728) ++ le32 (htonl (u32 (Z.shiftl tag 8)))) [] error_info_zero w.

(** The [pa_tag_t] bit fields at bytes 4-7 on a little-endian host: byte 4 is
    [rra << 4 | reserved1], byte 5 [reserved2 << 4 | service_tag_h], byte 6
    [service_tag_l], byte 7 [check]. *)
Definition write_direction (b : list Z) (direct : Z) : option (list Z) :=
  b4 ← load8 VXLAN_OUTPUT_BUFSIZE b 4;
  b ← store8 VXLAN_OUTPUT_BUFSIZE b 4 (Z.lor (Z.land b4 15) (Z.shiftl (Z.land direct 15) 4));
  b4 ← load8 VXLAN_OUTPUT_BUFSIZE b 4;
  b ← store8 VXLAN_OUTPUT_BUFSIZE b 4 (Z.land b4 240);
  b5 ← load8 VXLAN_OUTPUT_BUFSIZE b 5;
  b ← store8 VXLAN_OUTPUT_BUFSIZE b 5 (Z.land b5 15);
  store8 VXLAN_OUTPUT_BUFSIZE b 7 0.

Definition write_tag (version tag direct : Z) (b : list Z) : option (list Z) :=
  if version =? 1 then
    b ← store32 VXLAN_OUTPUT_BUFSIZE b 4 (htonl (u32 (Z.shiftl tag 8)));
    b ← (if negb (direct =? PKT_DIR_NONCHECK) then write_direction b direct else Some b);
    p ← bread VXLAN_OUTPUT_BUFSIZE b 0 (VXLAN_HEADER_LEN + ETHER_HDR_LEN + IPV4_HDR_LEN);
    store8 VXLAN_OUTPUT_BUFSIZE b 7 (u8 (rte_raw_cksum p))
  else store32 VXLAN_OUTPUT_BUFSIZE b 4 (htonl (u32 (tag + direct))).

(** The frame is the first [frame_len] of the [src_cap] bytes at [src]. *)
Definition do_send_packet (o : vxlan_output_t) (ts : timeval) (src_cap : Z) (src : list Z)
    (frame_len direct : Z) : option (bool * vxlan_output_t) :=
  data ← bread src_cap src 0 frame_len;
  b ← bwrite VXLAN_OUTPUT_BUFSIZE (buf o) VXLAN_HEADER_LEN data;
  '(b, payload_len) ←
    (if capture_time o then
       b ← store32 VXLAN_OUTPUT_BUFSIZE b (VXLAN_HEADER_LEN + frame_len) (htonl (u32 (tv_sec ts)));
       b ← store32 VXLAN_OUTPUT_BUFSIZE b (VXLAN_HEADER_LEN + (frame_len + 4))
             (htonl (u32 (tv_usec ts * 1000)));
       Some (b, frame_len + 4 + 4)
     else Some (b, frame_len));
  b ← write_tag (vni_version o) (vni o) direct b;
  dgram ← bread VXLAN_OUTPUT_BUFSIZE b 0 (VXLAN_HEADER_LEN + payload_len);
  '(sent, e, w) ← send_loop sendto usleep send_fuel 0 (env o) dgram (error_info o);
  Some (sent, set_sent o b e w).

(** The fragment loop, from fragment [i] on, [todo] to go. *)
Fixpoint split_loop (todo : nat) (i : Z) (o : vxlan_output_t) (r : packet_parse_result_t)
    (ts : timeval) (pkt : list Z) (direct : Z) : option (bool * vxlan_output_t) :=
  match todo with
  | O => Some (true, o)
  | S todo =>
      '(frag_len, f) ← build_fragment sse2 r pkt i (max_payload_size o) (recalculate_checksum o)
                         VXLAN_OUTPUT_BUFSIZE (fragment_buf o);
      let o := set_fragment o f in
      if frag_len <=? 0 then Some (false, o)
      else
        '(sent, o) ← do_send_packet o ts VXLAN_OUTPUT_BUFSIZE (fragment_buf o) frag_len direct;
        if sent : bool then split_loop todo (i + 1) o r ts pkt direct else Some (false, o)
  end.

Definition send_whole_or_split (o : vxlan_output_t) (h : pcap_pkthdr) (pkt : list Z)
    (frame_len direct : Z) : option (bool * vxlan_output_t) :=
  let whole := do_send_packet o (pkt_ts h) (zlen pkt) pkt frame_len direct in
  if (max_payload_size o <=? 0) || (frame_len <=? max_payload_size o) then whole
  else
    parsed ← parse_packet pkt frame_len;
    match parsed with
    | None => whole
    | Some r =>
        let fragment_count := calculate_fragment_count r (max_payload_size o) in
        if fragment_count =? 1 then whole
        else split_loop (Z.to_nat fragment_count) 0 o r (pkt_ts h) pkt direct
    end.

Definition vxlan_send_packet (o : vxlan_output_t) (h : pcap_pkthdr) (pkt : list Z) (direct : Z) :
    option (Z * vxlan_output_t) :=
  let frame_len := output_frame_len (caplen h) (slice (common o)) VXLAN_MAX_FRAME_LEN in
  let '(ok, c) := admit_packet (common o) frame_len (pkt_ts h) direct in
  let o := set_common o c in
  if negb ok then Some (-1, o)
  else
    let o := set_error o (check_error_info (error_info o) (ts_sec h)) in
    '(sent, o) ← send_whole_or_split o h pkt frame_len direct;
    Some (if sent : bool
          then (0, set_common o (set_stats (common o) (count_fwd frame_len (stats (common o)))))
          else (-1, set_common o (set_stats (common o) (count_error_drop frame_len (stats (common o)))))).

End vxlan.

(** The worked examples of docs/VXLAN-WIRE-FORMAT.md, section 9. *)
Definition doc_frame : list Z :=
  [170;187;204;221;238;255; 17;34;51;68;85;102; 8;0; 69;0;0;84;18;52;64;0;64;6;0;0;
   10;0;0;1;10;0;0;2].

Definition doc_header (version tag direct : Z) : option (list Z) :=
  (fun b => bslice b 0 8) <$> write_tag version tag direct ([8;0;0;0;0;0;0;0] ++ doc_frame).

Example doc_vni1_noncheck : doc_header 1 418 0 = Some [8;0;0;0;0;1;162;245].
Proof. vm_compute. reflexivity. Qed.
Example doc_vni1_incoming : doc_header 1 418 1 = Some [8;0;0;0;16;1;162;5].
Proof. vm_compute. reflexivity. Qed.
Example doc_vni1_outgoing : doc_header 1 418 2 = Some [8;0;0;0;32;1;162;21].
Proof. vm_compute. reflexivity. Qed.
Example doc_vni1_no_tag : doc_header 1 16777215 1 = Some [8;0;0;0;16;15;255;98].
Proof. vm_compute. reflexivity. Qed.
Example doc_vni1_wide : doc_header 1 1193046 1 = Some [8;0;0;0;16;4;86;185].
Proof. vm_compute. reflexivity. Qed.
Example doc_vni2 :
  (fun d => doc_header 2 913444 d) <$> [0; 1; 2] =
    [Some [8;0;0;0;0;13;240;36]; Some [8;0;0;0;0;13;240;37]; Some [8;0;0;0;0;13;240;38]].
Proof. vm_compute. reflexivity. Qed.

(** ** The check sum is the documented sum *)

Lemma rte_loop4_spec fuel l sum :
  0 <= sum < 4294967296 ->
  let '(l', sum') := rte_loop4 fuel l sum in
  zlen l' <= zlen l /\ 0 <= sum' < 4294967296 /\
  u32 (sum' + sum16 l') = u32 (sum + sum16 l).
Proof.
  revert l sum. induction fuel as [|fuel IH]; intros l sum Hs; cbn [rte_loop4]; [by split|].
  bcase; [|by split].
  match goal with |- context [rte_loop4 fuel (drop 8 l) ?w] => set (s4 := w) end.
  specialize (IH (drop 8 l) s4 (u32_range _)).
  destruct (rte_loop4 fuel (drop 8 l) s4) as [l' s'].
  destruct IH as (IH1 & IHr & IH2). rewrite zlen_drop in IH1. split; [lia|]. split; [done|].
  rewrite IH2. subst s4. rewrite (sum16_4 l) by lia. u32_norm. f_equal. lia.
Qed.

Lemma rte_raw_cksum_sum_ok l sum :
  0 <= sum < 4294967296 -> rte_raw_cksum_sum l sum = u32 (sum + sum16 l).
Proof.
  intros Hs. unfold rte_raw_cksum_sum. cbv zeta.
  pose proof (rte_loop4_spec (length l) l sum Hs) as H1.
  destruct (rte_loop4 (length l) l sum) as [l1 s1]. destruct H1 as (Hl1 & Hr1 & H1).
  pose proof (word_loop_spec (length l) l1 s1 ltac:(unfold zlen in *; lia) Hr1) as H2.
  destruct (word_loop (length l) l1 s1) as [l2 s2]. destruct H2 as (Hl2 & Hr2 & H2).
  rewrite <- H1, <- H2. destruct l2 as [|x [|y l2]]; cbn [sum16].
  - change (zlen [] =? 1) with false. cbn iota. by rewrite Z.add_0_r, u32_small.
  - done.
  - unfold zlen in Hl2. simpl in Hl2. lia.
Qed.

Lemma rte_reduce_fold s : 0 <= s < 4294967296 -> rte_raw_cksum_reduce s = cksum_fold s.
Proof.
  assert (forall x, 0 <= x < 4294967296 ->
            Z.shiftr (Z.land x 4294901760) 16 = Z.shiftr x 16) as H.
  { intros x Hx. apply Z.bits_inj'. intros i Hi. rewrite !Z.shiftr_spec, Z.land_spec by lia.
    destruct (Z.testbit x (i + 16)) eqn:E; [|done]. cbn [andb].
    assert (i + 16 < 32).
    { destruct (Z.ltb_spec (i + 16) 32); [done|]. rewrite Z.bits_above_log2 in E; [done|lia|].
      destruct (Z.eq_dec x 0) as [->|]; [cbn; lia|]. apply Z.log2_lt_pow2; [lia|].
      apply Z.lt_le_trans with (2 ^ 32); [change (2 ^ 32) with 4294967296; lia|]. apply Z.pow_le_mono_r; lia. }
    change 4294901760 with (Z.shiftl (Z.ones 16) 16). rewrite Z.shiftl_spec by lia.
    apply Z.ones_spec_low. lia. }
  intros Hs. unfold rte_raw_cksum_reduce, cksum_fold. cbv zeta.
  rewrite (H s Hs), H by apply u32_range. done.
Qed.

Lemma rte_raw_cksum_ok l : rte_raw_cksum l = cksum_fold (u32 (1245392156 + sum16 l)).
Proof.
  unfold rte_raw_cksum. rewrite rte_raw_cksum_sum_ok by lia. apply rte_reduce_fold, u32_range.
Qed.

(** ** The datagram *)

Lemma store8_ok cap b off v :
  0 <= off -> off + 1 <= cap -> store8 cap b off v = Some (bput b off [u8 v]).
Proof. intros. unfold store8. by apply bwrite_ok. Qed.

Lemma bget_put1 b off x i :
  0 <= off -> 0 <= i -> bget (bput b off [x]) i = if i =? off then x else bget b i.
Proof.
  intros. rewrite bget_bput by lia. change (zlen [x]) with 1.
  destruct (Z.eqb_spec i off) as [->|].
  - rewrite Z.sub_diag. destruct (Z.leb_spec off off), (Z.ltb_spec off (off + 1)); try lia. done.
  - destruct (Z.leb_spec off i), (Z.ltb_spec i (off + 1)); try lia; done.
Qed.

Ltac put1 := rewrite bget_put1 by lia; cbn [Z.eqb Pos.eqb].

(** The four bytes of a stored 32-bit field. *)
Lemma bslice_put4 b off v : 0 <= off -> bslice (bput b off (be32 v)) off 4 = be32 v.
Proof. intros. by apply bslice_bput_in. Qed.

(** Bytes 4-6 of the header for [vni_version] 1. *)
Definition tag1 (tag direct : Z) : list Z :=
  if direct =? 0 then [u8 (tag / 65536); u8 (tag / 256); u8 tag]
  else [direct * 16; (tag / 256) mod 16; u8 tag].

(** The check byte of 42 bytes whose byte 7 does not count. *)
Definition check_byte (l : list Z) : Z :=
  u8 (cksum_fold (u32 (1245392156 + sum16 (bput l 7 [0])))).

Definition outside_tag (b b' : list Z) : Prop :=
  forall i, 0 <= i -> i < 4 \/ 8 <= i -> bget b' i = bget b i.

(** The high nibble after the bit-field stores, by cases on the low one. *)
Lemma direction_nibble x direct :
  1 <= direct <= 2 ->
  u8 (Z.land (u8 (Z.lor (Z.land x 15) (Z.shiftl (Z.land direct 15) 4))) 240) = direct * 16.
Proof.
  intros Hd. pose proof (ihl_range x) as Hy. set (y := Z.land x 15) in *. clearbody y.
  assert (Forall (fun y => forall d, d = 1 \/ d = 2 ->
    u8 (Z.land (u8 (Z.lor y (Z.shiftl (Z.land d 15) 4))) 240) = d * 16) (seqZ 0 16)) as H.
  { cbv [seqZ seq fmap list_fmap Z.to_nat Pos.to_nat Pos.iter_op Nat.add].
    repeat constructor; intros d [->| ->]; reflexivity. }
  rewrite Forall_forall in H. apply H; [apply elem_of_seqZ; lia|lia].
Qed.

Lemma write_direction_ok b direct :
  bytes_ok b -> 1 <= direct <= 2 ->
  exists b', write_direction b direct = Some b' /\ bytes_ok b' /\ outside_tag b b' /\
    bget b' 4 = direct * 16 /\ bget b' 5 = bget b 5 mod 16 /\ bget b' 6 = bget b 6 /\ bget b' 7 = 0.
Proof.
  intros Hb Hd. unfold write_direction, VXLAN_OUTPUT_BUFSIZE.
  rewrite load8_ok by lia. obind. rewrite store8_ok by lia. obind.
  set (b1 := bput b 4 _). rewrite load8_ok by lia. obind. rewrite store8_ok by lia. obind.
  set (b2 := bput b1 4 _). rewrite load8_ok by lia. obind. rewrite store8_ok by lia. obind.
  set (b3 := bput b2 5 _). rewrite store8_ok by lia.
  assert (forall x, bytes_ok [u8 x]) as H1' by (intros; repeat constructor; apply u8_range).
  eexists. split; [done|]. split; [subst b3 b2 b1; auto 10 with cprobe|].
  unfold outside_tag. split; [|split_and!].
  - intros i Hi Ho. subst b3 b2 b1. rewrite !bget_put1 by lia.
    destruct (Z.eqb_spec i 7), (Z.eqb_spec i 5), (Z.eqb_spec i 4); lia || done.
  - put1. unfold b3. put1. unfold b2. put1. unfold b1. put1. by apply direction_nibble.
  - put1. unfold b3. put1. unfold b2. put1. unfold b1. put1.
    change 15 with (Z.ones 4). rewrite Z.land_ones by lia. change (2 ^ 4) with 16. apply u8_small. zlia.
  - put1. unfold b3. put1. unfold b2. put1. unfold b1. put1. done.
  - by put1.
Qed.

Lemma bslice_4_3 b : bslice b 4 3 = [bget b 4; bget b 5; bget b 6].
Proof. reflexivity. Qed.

(** The tag of version 1: bytes 4-6 and the check byte. *)
Lemma write_tag1_ok tag direct b :
  bytes_ok b -> 0 <= direct <= 2 ->
  exists b', write_tag 1 tag direct b = Some b' /\ bytes_ok b' /\ outside_tag b b' /\
    bslice b' 4 3 = tag1 tag direct /\ bget b' 7 = check_byte (bslice b' 0 42).
Proof.
  intros Hb Hd. unfold write_tag. cbn [Z.eqb Pos.eqb].
  rewrite store32_net by (unfold VXLAN_OUTPUT_BUFSIZE; lia). obind.
  set (b1 := bput b 4 (be32 _)). assert (bytes_ok b1) as Hb1 by (subst b1; auto with cprobe).
  assert (forall k, 0 <= k < 4 -> bget b1 (4 + k) = bget (be32 (u32 (Z.shiftl tag 8))) k) as Hk.
  { intros k Hk. subst b1. rewrite bget_bput_in by (rewrite ?be32_zlen; lia). f_equal. lia. }
  pose proof (Hk 0 ltac:(lia)) as H4. pose proof (Hk 1 ltac:(lia)) as H5.
  pose proof (Hk 2 ltac:(lia)) as H6. pose proof (Hk 3 ltac:(lia)) as H7.
  change (4 + 0) with 4 in H4. change (4 + 1) with 5 in H5.
  change (4 + 2) with 6 in H6. change (4 + 3) with 7 in H7.
  rewrite Z.shiftl_mul_pow2 in H4, H5, H6, H7 by lia. change (2 ^ 8) with 256 in *.
  set (v := u32 (tag * 256)) in H4, H5, H6, H7.
  change (bget (be32 v) 0) with (u8 (v / 16777216)) in H4.
  change (bget (be32 v) 1) with (u8 (v / 65536)) in H5.
  change (bget (be32 v) 2) with (u8 (v / 256)) in H6. change (bget (be32 v) 3) with (u8 v) in H7.
  subst v.
  assert (exists b2, (if negb (direct =? PKT_DIR_NONCHECK) then write_direction b1 direct else Some b1) = Some b2 /\
    bytes_ok b2 /\ outside_tag b b2 /\ bslice b2 4 3 = tag1 tag direct /\ bget b2 7 = 0)
    as (b2 & -> & Hb2 & Ho2 & Ht2 & H72).
  { assert (outside_tag b b1) as Ho1.
    { intros i Hi Ho. subst b1. rewrite bget_bput_out by (rewrite ?be32_zlen; lia). done. }
    unfold PKT_DIR_NONCHECK, tag1. destruct (Z.eqb_spec direct 0) as [->|Hne]; cbn [negb].
    - exists b1. split_and!; try done.
      + rewrite bslice_4_3, H4, H5, H6. unfold u8, u32. list_eq; zlia.
      + rewrite H7. unfold u8, u32. zlia.
    - destruct (write_direction_ok b1 direct Hb1 ltac:(lia)) as (b2 & E & Hb2 & Ho2 & E4 & E5 & E6 & E7).
      exists b2. split_and!; try done.
      + intros i Hi Ho. rewrite Ho2, Ho1 by done. done.
      + rewrite bslice_4_3, E4, E5, E6, H5, H6. unfold u8, u32. list_eq; zlia. }
  obind. rewrite bread_ok by (vm_compute; congruence). obind.
  rewrite store8_ok by (vm_compute; congruence). eexists. split; [done|].
  set (v := u8 (rte_raw_cksum _)).
  assert (forall i, 0 <= i -> bget (bput b2 7 [u8 v]) i = if i =? 7 then u8 v else bget b2 i) as Hput
    by (intros; by rewrite bget_put1 by lia).
  split; [|split; [|split]].
  - apply bytes_ok_bput; [done|]. repeat constructor; apply u8_range.
  - intros i Hi Ho. rewrite Hput by done. destruct (Z.eqb_spec i 7); [lia|]. by apply Ho2.
  - rewrite <- Ht2. apply bslice_bput_out; [lia|lia|]. left. lia.
  - rewrite Hput by lia. cbn [Z.eqb Pos.eqb]. unfold check_byte, v. rewrite rte_raw_cksum_ok.
    change (VXLAN_HEADER_LEN + ETHER_HDR_LEN + IPV4_HDR_LEN) with 42.
    rewrite (u8_small (u8 _)) by apply u8_range. do 5 f_equal. apply bytes_eq.
    { unfold bput. rewrite !zlen_app, zlen_drop, !bslice_zlen by lia. cbn. done. }
    rewrite bslice_zlen by lia. intros i Hi. rewrite bget_put1, !bget_bslice by lia.
    rewrite bget_put1 by lia. rewrite Z.add_0_l. destruct (Z.eqb_spec i 7) as [->|]; [done|].
    done.
Qed.

Lemma write_tag2_ok version tag direct b :
  version <> 1 -> bytes_ok b ->
  exists b', write_tag version tag direct b = Some b' /\ bytes_ok b' /\ outside_tag b b' /\
    net32 b' 4 = u32 (tag + direct).
Proof.
  intros Hv Hb. unfold write_tag. destruct (Z.eqb_spec version 1); [done|].
  rewrite store32_net by (unfold VXLAN_OUTPUT_BUFSIZE; lia). eexists. split; [done|].
  split; [auto with cprobe|]. split; [|apply net32_bput_be32; [lia|apply u32_range]].
  intros i Hi Ho. apply bget_bput_out; rewrite ?be32_zlen; lia.
Qed.

(** What the wire carries for one frame. *)
Record vxlan_dgram_ok (version tag : Z) (ctime : bool) (ts : timeval) (direct : Z) (frame dgram : list Z) :
    Prop := VxlanDgram {
  vd_len : zlen dgram = 8 + zlen frame + (if ctime then 8 else 0);
  vd_flags : bslice dgram 0 4 = [8; 0; 0; 0];
  vd_frame : bslice dgram 8 (zlen frame) = frame;
  vd_time : ctime = true ->
    net32 dgram (8 + zlen frame) = u32 (tv_sec ts) /\
    net32 dgram (8 + zlen frame + 4) = u32 (tv_usec ts * 1000);
  vd_tag1 : version = 1 -> bslice dgram 4 3 = tag1 tag direct /\
    (42 <= zlen dgram -> bget dgram 7 = check_byte (bslice dgram 0 42));
  vd_tag2 : version <> 1 -> net32 dgram 4 = u32 (tag + direct);
}.

Section proofs.
Context {W : Type} (sendto : W -> list Z -> send_result * W) (usleep : W -> Z -> W).
Context (sse2 : bool).

Definition vxlan_wf (o : vxlan_output_t (W := W)) : Prop :=
  common_wf (common o) /\ bytes_ok (buf o) /\ bytes_ok (fragment_buf o) /\
  bslice (buf o) 0 4 = [8; 0; 0; 0] /\ 0 <= max_payload_size o < 65536.

Lemma vxlan_new_wf version tag ctime max recalc mbps sl s w :
  stats_wf s -> sl < 2147483648 -> 0 <= max < 65536 ->
  vxlan_wf (vxlan_output_new version tag ctime max recalc mbps sl s w).
Proof.
  intros Hs Hsl Hm. split; [by apply common_new_wf|]. split; [cbn [vxlan_output_new buf]; auto with cprobe|].
  split; [constructor|]. split; [|done]. cbn [vxlan_output_new buf].
  rewrite bslice_app_l by (vm_compute; congruence). reflexivity.
Qed.

(** Frame and capture time in the buffer, before the tag. *)
Lemma payload_written b ctime ts frame :
  bytes_ok b -> bytes_ok frame -> 8 + zlen frame + 8 <= VXLAN_OUTPUT_BUFSIZE ->
  let n := zlen frame in
  exists b', (if ctime : bool then
       b1 ← store32 VXLAN_OUTPUT_BUFSIZE (bput b 8 frame) (8 + n) (htonl (u32 (tv_sec ts)));
       b2 ← store32 VXLAN_OUTPUT_BUFSIZE b1 (8 + (n + 4)) (htonl (u32 (tv_usec ts * 1000)));
       Some (b2, n + 4 + 4)
     else Some (bput b 8 frame, n)) = Some (b', n + (if ctime then 8 else 0)) /\
    bytes_ok b' /\ bslice b' 0 4 = bslice b 0 4 /\ bslice b' 8 n = frame /\
    (ctime = true -> net32 b' (8 + n) = u32 (tv_sec ts) /\ net32 b' (8 + n + 4) = u32 (tv_usec ts * 1000)).
Proof.
  intros Hb Hf Hcap n. pose proof (zlen_nonneg frame) as Hn0. fold n in Hcap, Hn0.
  assert (bslice (bput b 8 frame) 0 4 = bslice b 0 4) as E0 by (apply bslice_bput_out; lia).
  assert (bslice (bput b 8 frame) 8 n = frame) as Ef by (apply bslice_bput_in; lia).
  destruct ctime.
  2:{ exists (bput b 8 frame). rewrite Z.add_0_r. split_and!; try done. auto with cprobe. }
  rewrite store32_net by lia. obind. rewrite store32_net by lia. obind.
  eexists. split; [do 2 f_equal; lia|]. split; [auto with cprobe|].
  rewrite !(bslice_bput_out (bput _ _ _)) by (rewrite ?be32_zlen; lia).
  split; [done|]. split; [done|]. intros _. split.
  - rewrite (net32_ext _ (bput (bput b 8 frame) (8 + n) (be32 (u32 (tv_sec ts)))) _ (8 + n)).
    + apply net32_bput_be32; [lia|apply u32_range].
    + intros k Hk. apply bget_bput_out; rewrite ?be32_zlen; lia.
  - rewrite <- Z.add_assoc. apply net32_bput_be32; [lia|apply u32_range].
Qed.

(** Sending one frame: a well-formed datagram goes through the loop. *)
Lemma do_send_ok o ts src_cap src n direct :
  vxlan_wf o -> bytes_ok src -> 0 <= n <= VXLAN_MAX_FRAME_LEN -> n <= src_cap -> 0 <= direct <= 2 ->
  exists dgram sent e w b,
    do_send_packet sendto usleep o ts src_cap src n direct = Some (sent, set_sent o b e w) /\
    vxlan_wf (set_sent o b e w) /\
    vxlan_dgram_ok (vni_version o) (vni o) (capture_time o) ts direct (bslice src 0 n) dgram /\
    sends sendto usleep (env o) dgram (error_info o) sent e w.
Proof.
  intros (Hc & Hb & Hfb & H4 & Hm) Hsrc Hn Hcap Hd. unfold VXLAN_MAX_FRAME_LEN in Hn.
  unfold do_send_packet. rewrite bread_ok by lia. obind. unfold VXLAN_HEADER_LEN.
  rewrite bwrite_ok by (rewrite ?bslice_zlen; unfold VXLAN_OUTPUT_BUFSIZE; lia). obind.
  set (frame := bslice src 0 n). assert (zlen frame = n) as Hzl by (apply bslice_zlen; lia).
  destruct (payload_written (buf o) (capture_time o) ts frame) as (b1 & E1 & Hb1 & E4 & Ef & Et);
    [done|by apply bytes_ok_bslice|rewrite Hzl; unfold VXLAN_OUTPUT_BUFSIZE; lia|].
  rewrite Hzl in E1, Ef, Et. rewrite E1. obind.
  clear E1. set (plen := n + (if capture_time o then 8 else 0)).
  assert (n <= plen /\ 8 <= 8 + plen <= VXLAN_OUTPUT_BUFSIZE) as [Hpn Hplen]
    by (unfold VXLAN_OUTPUT_BUFSIZE, plen; destruct (capture_time o); lia).
  assert (exists b2, write_tag (vni_version o) (vni o) direct b1 = Some b2 /\ bytes_ok b2 /\ outside_tag b1 b2 /\
    (vni_version o = 1 -> bslice b2 4 3 = tag1 (vni o) direct /\ bget b2 7 = check_byte (bslice b2 0 42)) /\
    (vni_version o <> 1 -> net32 b2 4 = u32 (vni o + direct))) as (b2 & -> & Hb2 & Ho & T1 & T2).
  { destruct (Z.eq_dec (vni_version o) 1) as [->|Hv].
    - destruct (write_tag1_ok (vni o) direct b1 Hb1 Hd) as (b2 & E & ? & ? & ? & ?).
      exists b2. by split_and!.
    - destruct (write_tag2_ok (vni_version o) (vni o) direct b1 Hv Hb1) as (b2 & E & ? & ? & ?).
      exists b2. by split_and!. }
  obind. rewrite bread_ok by lia. obind.
  destruct (send_loop_ok sendto usleep (env o) (bslice b2 0 (8 + plen)) (error_info o)) as (sent & e & w & Es).
  rewrite Es. obind.
  apply (send_loop_sends_from sendto usleep send_fuel 0 (env o)) in Es; [|lia|lia].
  exists (bslice b2 0 (8 + plen)), sent, e, w, b2. split; [done|].
  assert (forall o n, (0 <= o /\ o + n <= 4) \/ 8 <= o -> bslice b2 o n = bslice b1 o n) as Hsl.
  { intros o' n' Hon. apply bslice_ext. intros k Hk. apply Ho; lia. }
  split; [|split; [|exact Es]].
  { split; [done|]. split; [done|]. split; [done|]. split; [|done].
    cbn [set_sent buf]. by rewrite Hsl, E4 by lia. }
  pose proof (bslice_zlen b2 0 (8 + plen) ltac:(lia)) as Hdl.
  split; rewrite ?Hdl, ?Hzl.
  - unfold plen. destruct (capture_time o); lia.
  - rewrite bslice_bslice, Z.add_0_l, Hsl, E4 by lia. done.
  - rewrite bslice_bslice, Z.add_0_l, Hsl, Ef by lia. done.
  - intros Hct. destruct (Et Hct) as [Ea Eb]. assert (plen = n + 8) as Hpl by (unfold plen; by rewrite Hct).
    rewrite <- Ea, <- Eb. split; apply net32_ext; intros k Hk; rewrite bget_bslice by lia; apply Ho; lia.
  - intros Hv. destruct (T1 Hv) as [Ta Tb]. split; [by rewrite bslice_bslice, Z.add_0_l, <- Ta by lia|].
    intros Hl. by rewrite bget_bslice, bslice_bslice, !Z.add_0_l by lia.
  - intros Hv. rewrite <- (T2 Hv). apply net32_ext. intros k Hk. rewrite bget_bslice by lia. by rewrite Z.add_0_l.
Qed.

(** Frames offered to the kernel one after another, up to the first failure. *)
Inductive send_frames (version tag : Z) (ctime : bool) (ts : timeval) (direct : Z) :
    error_info_t -> W -> list (list Z) -> bool -> error_info_t -> W -> Prop :=
| frames_done e w : send_frames version tag ctime ts direct e w [] true e w
| frames_fail e w f fs dgram e' w' :
    vxlan_dgram_ok version tag ctime ts direct f dgram -> sends sendto usleep w dgram e false e' w' ->
    send_frames version tag ctime ts direct e w (f :: fs) false e' w'
| frames_next e w f fs dgram e1 w1 ok e' w' :
    vxlan_dgram_ok version tag ctime ts direct f dgram -> sends sendto usleep w dgram e true e1 w1 ->
    send_frames version tag ctime ts direct e1 w1 fs ok e' w' ->
    send_frames version tag ctime ts direct e w (f :: fs) ok e' w'.

(** The configuration an output keeps while it sends. *)
Definition same_cfg (o o' : vxlan_output_t (W := W)) : Prop :=
  common o' = common o /\ vni_version o' = vni_version o /\ vni o' = vni o /\
  capture_time o' = capture_time o /\ max_payload_size o' = max_payload_size o /\
  recalculate_checksum o' = recalculate_checksum o.

(** The result of a send routine on frames [fs]. *)
Definition sent_result (o : vxlan_output_t) (ts : timeval) (direct : Z) (fs : list (list Z))
    (res : option (bool * vxlan_output_t)) : Prop :=
  exists ok o', res = Some (ok, o') /\ vxlan_wf o' /\ same_cfg o o' /\
    send_frames (vni_version o) (vni o) (capture_time o) ts direct (error_info o) (env o) fs
      ok (error_info o') (env o').

Lemma do_send_result o ts src_cap src n direct :
  vxlan_wf o -> bytes_ok src -> 0 <= n <= VXLAN_MAX_FRAME_LEN -> n <= src_cap -> 0 <= direct <= 2 ->
  sent_result o ts direct [bslice src 0 n] (do_send_packet sendto usleep o ts src_cap src n direct).
Proof.
  intros Hwf Hs Hn Hc Hd.
  destruct (do_send_ok o ts src_cap src n direct Hwf Hs Hn Hc Hd) as (dg & sent & e & w & b & E & Hwf' & Hdg & Hsn).
  exists sent, (set_sent o b e w). split; [done|]. split; [done|]. split; [done|]. destruct sent.
  - eapply frames_next; [done|done|constructor].
  - by eapply frames_fail.
Qed.

Section split.
Context (pkt : list Z) (len : Z) (r : packet_parse_result_t) (max : Z) (recalc : bool).
Context (Hok : bytes_ok pkt) (Hlen : 0 <= len <= 65535) (Hpkt : len <= zlen pkt).
Context (HL : layers pkt len r) (Hmax : 0 < max) (Hpay : 0 < payload_len r).

(** Frame [f] is fragment [i] of the packet. *)
Definition frag_frame (i : Z) (f : list Z) : Prop :=
  exists out, f = bslice out 0 (payload_offset r + frag_size r i max) /\
    is_fragment pkt r (i * max) (frag_size r i max) recalc out.

Lemma frag_frame_len i f :
  0 <= i < calculate_fragment_count r max -> frag_frame i f ->
  zlen f = payload_offset r + frag_size r i max /\
  bslice f (payload_offset r) (zlen f - payload_offset r) =
    bslice pkt (payload_offset r + i * max) (frag_size r i max).
Proof using Hok HL Hmax Hpay.
  intros Hi (out & -> & Hf). pose proof (frag_size_pos r i max Hpay Hi Hmax) as Hs.
  destruct (layers_geom _ _ _ Hok HL) as [Hg _]. pose proof (geom_l4 r pkt Hg).
  pose proof (g_payload _ _ Hg). pose proof (g_l4 _ _ Hg).
  assert (0 <= payload_offset r) by lia.
  rewrite bslice_zlen by lia. split; [done|].
  rewrite bslice_bslice by lia. rewrite <- (fr_payload _ _ _ _ _ _ Hf). f_equal; lia.
Qed.

Lemma split_loop_ok todo i o ts direct :
  vxlan_wf o -> max_payload_size o = max -> recalculate_checksum o = recalc -> 0 <= direct <= 2 ->
  0 <= i -> i + Z.of_nat todo = calculate_fragment_count r max ->
  exists fs, Forall2 frag_frame (seqZ i (Z.of_nat todo)) fs /\
    sent_result o ts direct fs (split_loop sendto usleep sse2 todo i o r ts pkt direct).
Proof using Hok Hlen Hpkt HL Hmax Hpay.
  revert i o. induction todo as [|todo IH]; intros i o Hwf Em Er Hd Hi Hn.
  { exists []. split; [by constructor|]. exists true, o. split_and!; try done. constructor. }
  destruct (layers_geom _ _ _ Hok HL) as [Hg [Hpo Hpl]]. pose proof (geom_l4 r pkt Hg).
  pose proof (g_payload _ _ Hg). pose proof (g_l4 _ _ Hg).
  assert (0 < frag_size r i max) as Hs by (apply frag_size_pos; lia).
  pose proof (frag_size_fits r i max ltac:(nia) Hs) as Hfit.
  pose proof Hwf as (_ & _ & Hfb & _).
  destruct (build_fragment_ok sse2 pkt len VXLAN_OUTPUT_BUFSIZE r Hok Hlen Hpkt HL
              ltac:(unfold VXLAN_OUTPUT_BUFSIZE; lia) recalc (fragment_buf o) i max Hfb ltac:(nia) Hs)
    as (out & Eb & Hob & Hfrag).
  cbn [split_loop]. rewrite Em, Er, Eb. obind.
  assert (0 <= payload_offset r) by lia.
  destruct (Z.leb_spec (payload_offset r + frag_size r i max) 0); [lia|].
  set (o1 := set_fragment o out). assert (vxlan_wf o1) as Hwf1.
  { destruct Hwf as (W1 & W2 & _ & W4 & W5). exact (conj W1 (conj W2 (conj Hob (conj W4 W5)))). }
  set (n := payload_offset r + frag_size r i max) in *.
  assert (0 <= n <= VXLAN_MAX_FRAME_LEN) as Hnr by (unfold VXLAN_MAX_FRAME_LEN; nia).
  destruct (do_send_ok o1 ts VXLAN_OUTPUT_BUFSIZE out n direct Hwf1 Hob Hnr
              ltac:(unfold VXLAN_OUTPUT_BUFSIZE, VXLAN_MAX_FRAME_LEN in *; lia) Hd)
    as (dg & sent & e & w & b & E & Hwf' & Hdg & Hsn).
  change (fragment_buf o1) with out. rewrite E. obind.
  assert (frag_frame i (bslice out 0 n)) as Hff by (by exists out).
  assert (seqZ i (Z.of_nat (S todo)) = i :: seqZ (i + 1) (Z.of_nat todo)) as Eseq.
  { rewrite seqZ_cons by lia. f_equal. f_equal; lia. }
  rewrite Eseq.
  destruct (IH (i + 1) (set_sent o1 b e w)) as (fs & Hfs & ok & o' & E2 & Hwf2 & Hsc & Hsf);
    try done; [lia|lia|].
  exists (bslice out 0 n :: fs). split; [by constructor|]. destruct sent.
  - exists ok, o'. split_and!; try done. by eapply frames_next.
  - exists false, (set_sent o1 b e w). split_and!; try done. by eapply frames_fail.
Qed.
End split.

(** Splitting applies: it is on, and the packet is a TCP or UDP packet whose
    payload is larger than the limit. *)
Definition splits (pkt : list Z) (n max : Z) : Prop := exists r, layers pkt n r /\ 0 < max < payload_len r.

(** The frames a packet is carried in: where splitting does not apply the
    sliced packet itself, and where it applies its fragments, as few as the
    limit allows. *)
Definition frames_of (pkt : list Z) (n max : Z) (recalc : bool) (fs : list (list Z)) : Prop :=
  (~ splits pkt n max /\ fs = [bslice pkt 0 n]) \/
  exists r, layers pkt n r /\ 0 < max < payload_len r /\ zlen fs = (payload_len r + max - 1) / max /\
    Forall2 (frag_frame pkt r max recalc) (seqZ 0 (calculate_fragment_count r max)) fs /\
    concat ((fun f => bslice f (payload_offset r) (zlen f - payload_offset r)) <$> fs) =
      bslice pkt (payload_offset r) (payload_len r).

Lemma frag_frames_concat pkt len r max recalc fs :
  bytes_ok pkt -> layers pkt len r -> 0 < max -> 0 < payload_len r ->
  Forall2 (frag_frame pkt r max recalc) (seqZ 0 (calculate_fragment_count r max)) fs ->
  concat ((fun f => bslice f (payload_offset r) (zlen f - payload_offset r)) <$> fs) =
    bslice pkt (payload_offset r) (payload_len r).
Proof.
  intros Hok HL Hm Hp Hfs. pose proof (count_covers r max Hm ltac:(lia)) as [Hc1 Hc2].
  assert ((fun f => bslice f (payload_offset r) (zlen f - payload_offset r)) <$> fs =
    (fun i => bslice pkt (payload_offset r + i * max) (frag_size r i max)) <$>
      seqZ 0 (calculate_fragment_count r max)) as ->.
  { assert (Forall (fun i => 0 <= i < calculate_fragment_count r max)
              (seqZ 0 (calculate_fragment_count r max))) as Hall
      by (apply Forall_forall; intros i Hi%elem_of_seqZ; lia).
    revert Hall. induction Hfs as [|i f is' fs Hf Hfs IH]; intros Hall; [done|].
    inversion_clear Hall as [|? ? Hi Hall']. rewrite !fmap_cons, IH by done. f_equal.
    by apply (frag_frame_len pkt len r max recalc Hok HL Hm Hp i f Hi Hf). }
  rewrite <- (Z2Nat.id (calculate_fragment_count r max)) by lia.
  rewrite chunks_prefix, Z2Nat.id by lia. f_equal. lia.
Qed.

Lemma send_whole_or_split_ok o h pkt n direct :
  vxlan_wf o -> bytes_ok pkt -> 0 <= n <= VXLAN_MAX_FRAME_LEN -> n <= zlen pkt -> 0 <= direct <= 2 ->
  exists fs, frames_of pkt n (max_payload_size o) (recalculate_checksum o) fs /\
    sent_result o (pkt_ts h) direct fs (send_whole_or_split sendto usleep sse2 o h pkt n direct).
Proof.
  intros Hwf Hok Hn Hz Hd.
  pose proof (do_send_result o (pkt_ts h) (zlen pkt) pkt n direct Hwf Hok Hn Hz Hd) as Hwhole.
  assert (~ splits pkt n (max_payload_size o) ->
    exists fs, frames_of pkt n (max_payload_size o) (recalculate_checksum o) fs /\
      sent_result o (pkt_ts h) direct fs (do_send_packet sendto usleep o (pkt_ts h) (zlen pkt) pkt n direct))
    as HW by (intros Hns; exists [bslice pkt 0 n]; split; [by left|done]).
  unfold send_whole_or_split. cbv zeta. unfold VXLAN_MAX_FRAME_LEN in Hn.
  destruct (Z.leb_spec (max_payload_size o) 0); [apply HW; intros (r & _ & Hm); lia|].
  destruct (Z.leb_spec n (max_payload_size o)).
  { apply HW. intros (r & HL & Hm). destruct (layers_geom _ _ _ Hok HL) as [Hg [Hpo Hpl]].
    pose proof (geom_l4 r pkt Hg). pose proof (g_payload _ _ Hg). pose proof (g_l4 _ _ Hg). lia. }
  cbn [orb].
  destruct (parse_packet_spec pkt n Hok Hn Hz) as [(r & -> & HL)|[-> Hno]]; obind;
    [|apply HW; intros (r & HL & _); by apply (Hno r)].
  destruct (layers_geom _ _ _ Hok HL) as [_ [_ Hpl]].
  destruct (Z.eqb_spec (calculate_fragment_count r (max_payload_size o)) 1) as [Hone|Hne].
  { apply HW. intros (r' & HL' & Hm). rewrite (layers_det pkt n _ _ HL' HL) in Hm.
    pose proof (count_covers r (max_payload_size o) ltac:(lia) ltac:(lia)). lia. }
  assert (max_payload_size o < payload_len r) as Hmp.
  { unfold calculate_fragment_count in Hne. destruct (Z.leb_spec (payload_len r) (max_payload_size o)); [|lia].
    by rewrite orb_true_r in Hne. }
  pose proof (count_covers r (max_payload_size o) ltac:(lia) ltac:(lia)) as [Hc1 _].
  destruct (split_loop_ok pkt n r (max_payload_size o) (recalculate_checksum o) Hok Hn Hz HL ltac:(lia) ltac:(lia)
              (Z.to_nat (calculate_fragment_count r (max_payload_size o))) 0 o (pkt_ts h) direct Hwf)
    as (fs & Hfs & Hres); try done; [lia|].
  rewrite Z2Nat.id in Hfs by lia. exists fs. split; [|done]. right. exists r. split; [done|]. split; [lia|].
  split; [|split; [done|eapply frag_frames_concat; (done || lia)]].
  apply Forall2_length in Hfs. rewrite length_seqZ in Hfs. unfold zlen. rewrite <- Hfs, Z2Nat.id by lia.
  unfold calculate_fragment_count. destruct (Z.leb_spec (max_payload_size o) 0); [lia|].
  destruct (Z.leb_spec (payload_len r) (max_payload_size o)); [lia|]. apply Z.quot_div_nonneg; lia.
Qed.
End proofs.

Section instance.
Context {W : Type} (sendto : W -> list Z -> send_result * W) (usleep : W -> Z -> W) (sse2 : bool).

#[export] Instance vxlan_ops : OutputOps (vxlan_output_t (W := W)) := {
  out_common := common;
  out_frame_len o h _ := output_frame_len (caplen h) (slice (common o)) VXLAN_MAX_FRAME_LEN;
  out_pending_packets _ := 0;
  out_pending_bytes _ := 0;
  out_send := vxlan_send_packet sendto usleep sse2;
}.

(** A packet that passes the checks: frames, their outcome and the count. *)
Lemma vxlan_send_eq o h pkt d c :
  vxlan_wf o -> pkt_ok h pkt -> dir_ok d ->
  let n := output_frame_len (caplen h) (slice (common o)) VXLAN_MAX_FRAME_LEN in
  admit_packet (common o) n (pkt_ts h) d = (true, c) ->
  exists fs (ok : bool) o1, frames_of pkt n (max_payload_size o) (recalculate_checksum o) fs /\
    send_frames sendto usleep (vni_version o) (vni o) (capture_time o) (pkt_ts h) d
      (check_error_info (error_info o) (ts_sec h)) (env o) fs ok (error_info o1) (env o1) /\
    vxlan_wf o1 /\ common o1 = c /\
    vxlan_send_packet sendto usleep sse2 o h pkt d =
      Some (if ok then 0 else -1,
            set_common o1 (set_stats c ((if ok then count_fwd else count_error_drop) n (stats c)))).
Proof.
  intros Hwf (Hok & Hcl & Hle) Hd n Ha. pose proof Hwf as (Hc & W2 & W3 & W4 & W5).
  pose proof (frame_len_range (common o) h VXLAN_MAX_FRAME_LEN Hc Hcl ltac:(vm_compute; congruence)) as [Hr Hm].
  fold n in Hr, Hm.
  pose proof (admit_packet_ok (common o) n (pkt_ts h) d Hc ltac:(unfold u64_ok; lia)) as Had.
  rewrite Ha in Had. destruct Had as (Hcw & _ & _ & Hnu & _). destruct (Hnu eq_refl) as [Hdn _].
  assert (0 <= d <= 2) as Hdr.
  { unfold dir_ok, PKT_DIR_UNKNOWN, PKT_DIR_NONCHECK, PKT_DIR_INCOMING, PKT_DIR_OUTGOING in *. lia. }
  set (o0 := set_error (set_common o c) (check_error_info (error_info o) (ts_sec h))).
  assert (vxlan_wf o0) as Hwf0 by exact (conj Hcw (conj W2 (conj W3 (conj W4 W5)))).
  destruct (send_whole_or_split_ok sendto usleep sse2 o0 h pkt n d Hwf0 Hok ltac:(lia) ltac:(lia) Hdr)
    as (fs & Hfs & ok & o1 & E & Hwf1 & (Ec & _) & Hsf).
  exists fs, ok, o1. split_and!; try done. unfold vxlan_send_packet. cbv zeta. fold n. rewrite Ha.
  cbn [negb]. change (set_error _ _) with o0. rewrite E. obind. rewrite Ec. by destruct ok.
Qed.

#[export, refine] Instance vxlan_laws : OutputLaws (vxlan_output_t (W := W)) := { out_wf := vxlan_wf }.
Proof.
  intros o h pkt d Hwf Hp Hd. pose proof Hwf as (Hc & W2 & W3 & W4 & W5). pose proof Hp as (_ & Hcl & _).
  pose proof (frame_len_range (common o) h VXLAN_MAX_FRAME_LEN Hc Hcl ltac:(vm_compute; congruence)) as [Hr _].
  unfold out_frame_len. cbn [out_common vxlan_ops out_send].
  set (n := output_frame_len _ _ _) in *. assert (u64_ok n) as Hn by (unfold u64_ok; lia).
  pose proof (admit_packet_ok (common o) n (pkt_ts h) d Hc Hn) as Had.
  destruct (admit_packet (common o) n (pkt_ts h) d) as [adm c] eqn:Ea.
  destruct Had as (Hw & Hs & _ & Hyes & Hno). destruct adm.
  - destruct (vxlan_send_eq o h pkt d c Hwf Hp Hd Ea) as (fs & ok & o1 & _ & _ & Hwf1 & _ & ->).
    destruct (Hyes eq_refl) as [_ Es]. rewrite Es. fold n.
    destruct (count_fwd_ok n (stats (common o)) ltac:(apply Hc) Hn) as [Hw1 Hc1].
    destruct (count_error_drop_ok n (stats (common o)) ltac:(apply Hc) Hn) as [Hw2 Hc2].
    destruct Hwf1 as (_ & V2 & V3 & V4 & V5).
    destruct ok; (eexists _, _; split; [done|]);
      (split_and!; [split; [by apply set_stats_wf|exact (conj V2 (conj V3 (conj V4 V5)))]
                   |intros; cbn; by rewrite Hs|by apply settled_now]).
  - unfold vxlan_send_packet. fold n. rewrite Ea. cbn [negb]. eexists _, _. split; [done|].
    split_and!; [exact (conj Hw (conj W2 (conj W3 (conj W4 W5))))|intros; cbn; by rewrite Hs|apply settled_now; auto].
Defined.

(** C27: a packet that passes the direction check and the rate limit is carried
    as VXLAN datagrams of the documented format.  When splitting is off, the
    packet is not a TCP or UDP packet, or its payload is within the limit, it
    is one datagram with the whole sliced frame; otherwise it is one datagram
    per fragment, of which there are as many as the payload needs at the
    limit, in order and until the first one the kernel refuses.  The fragments
    are well-formed packets whose payloads concatenate to the original
    payload; and the packet is counted once, forwarded exactly when every
    datagram was sent in full. *)
Theorem vxlan_send_correct o h pkt d c :
  vxlan_wf o -> pkt_ok h pkt -> dir_ok d ->
  let n := output_frame_len (caplen h) (slice (common o)) VXLAN_MAX_FRAME_LEN in
  admit_packet (common o) n (pkt_ts h) d = (true, c) ->
  exists fs (ok : bool) o', vxlan_send_packet sendto usleep sse2 o h pkt d = Some (if ok then 0 else -1, o') /\
    frames_of pkt n (max_payload_size o) (recalculate_checksum o) fs /\
    send_frames sendto usleep (vni_version o) (vni o) (capture_time o) (pkt_ts h) d
      (check_error_info (error_info o) (ts_sec h)) (env o) fs ok (error_info o') (env o') /\
    stats (common o') = (if ok then count_fwd else count_error_drop) n (stats c).
Proof.
  intros Hwf Hp Hd n Ha.
  destruct (vxlan_send_eq o h pkt d c Hwf Hp Hd Ha) as (fs & ok & o1 & Hfs & Hsf & _ & _ & E).
  eexists fs, ok, _. split; [exact E|]. by split_and!.
Qed.
End instance.

(** A network that takes every datagram, and an output that splits at 3. *)
Definition perfect_sendto (w : list (list Z)) (d : list Z) : send_result * list (list Z) :=
  (SendBytes (zlen d), w ++ [d]).

Definition demo_output : vxlan_output_t (W := list (list Z)) :=
  vxlan_output_new 2 913444 true 3 true 0 0 output_stats_zero [].

(** Three fragments of 54 header bytes and 3, 3 and 1 payload bytes, each with
    its capture time. *)
Example vxlan_split_demo :
  match vxlan_send_packet perfect_sendto (fun w _ => w) true demo_output (Pkthdr 5 6 61 61)
          sample_tcp_packet 1 with
  | Some (_, o) => map zlen (env o)
  | None => []
  end = [73; 73; 71].
Proof. vm_compute. reflexivity. Qed.

Lemma vxlan_send_correct_witness :
  exists fs (ok : bool) o',
    vxlan_send_packet perfect_sendto (fun w _ => w) true demo_output (Pkthdr 5 6 61 61) sample_tcp_packet 1 =
      Some (if ok then 0 else -1, o') /\
    frames_of sample_tcp_packet 61 3 true fs.
Proof.
  destruct (vxlan_send_correct perfect_sendto (fun w _ => w) true demo_output (Pkthdr 5 6 61 61)
    sample_tcp_packet 1 (common demo_output)) as (fs & ok & o' & E & Hfs & _).
  - apply vxlan_new_wf; [exact stats_zero_wf|lia|lia].
  - split; [exact sample_packet_ok|]. cbn. unfold zlen. cbn. lia.
  - right. right. left. reflexivity.
  - reflexivity.
  - exists fs, ok, o'. split; [exact E|exact Hfs].
Defined.

(** the check byte a receiver recomputes over the first 42 bytes of a
    version 1 datagram (with byte 7 taken as zero) by the documented sum is
    the one sent, and bytes 4-6 are the service tag and direction of the
    documented layout, whatever was in the send buffer before. *)
Theorem vxlan_tag_check tag direct b :
  bytes_ok b -> 0 <= direct <= 2 ->
  exists b', write_tag 1 tag direct b = Some b' /\
    (forall i, 0 <= i -> i < 4 \/ 8 <= i -> bget b' i = bget b i) /\
    bslice b' 4 3 = tag1 tag direct /\ bget b' 7 = check_byte (bslice b' 0 42).
Proof.
  intros Hb Hd. destruct (write_tag1_ok tag direct b Hb Hd) as (b' & E & _ & Ho & Ht & Hc).
  exists b'. by split_and!.
Qed.

Lemma vxlan_tag_check_witness :
  exists b', write_tag 1 418 1 ([8;0;0;0;0;0;0;0] ++ doc_frame) = Some b' /\
    bslice b' 4 3 = [16; 1; 162] /\ bget b' 7 = check_byte (bslice b' 0 42).
Proof.
  destruct (vxlan_tag_check 418 1 ([8;0;0;0;0;0;0;0] ++ doc_frame)) as (b' & E & _ & Ht & Hc).
  - repeat constructor; vm_compute; congruence.
  - lia.
  - exists b'. split; [exact E|]. split; [exact Ht|exact Hc].
Defined.
End VxlanOutput.
