(* ===== verification/ZmqFormat.v ===== *)
(** * The ZMQ batch format and the receiver (output_zmq.c, output_zmq.h, mpls.h,
    cptools/recvzmq/main.c)

    Records, batches, the private MPLS tag and the UUID in both directions,
    and the decoder of the receiving tool.  A batch the output builds decodes
    to the records it was built from. *)

From stdpp Require Import prelude list list_numbers.
From S2P Require Import Prelude ByteOrder Headers.

(** ** Records and batches *)

Record zrec := ZRec { z_sec : Z; z_usec : Z; z_caplen : Z; z_len : Z; z_frame : list Z }.

(** [pkt_data_len], [zmq_pkt_hdr_t] and the frame. *)
Definition encode_rec (r : zrec) : list Z :=
  be16 (zlen (z_frame r)) ++ be32 (z_sec r) ++ be32 (z_usec r) ++ be32 (z_caplen r)
  ++ be32 (z_len r) ++ z_frame r.

Definition ZMQ_BATCH_PKTS_VERSION : Z := 2.
Definition BATCH_HDR_LEN : Z := 24.
Definition PKT_HDR_LEN : Z := 16.

(** [zmq_pkt_batch_hdr_t] with its fields in network order. *)
Definition batch_hdr (pkts_num keybit : Z) (uuid : list Z) : list Z :=
  be16 ZMQ_BATCH_PKTS_VERSION ++ be16 pkts_num ++ be32 keybit ++ uuid.

Definition batch_msg (keybit : Z) (uuid : list Z) (rs : list zrec) : list Z :=
  batch_hdr (zlen rs) keybit uuid ++ concat (encode_rec <$> rs).

Definition rec_ok (r : zrec) : Prop :=
  0 <= z_sec r < 4294967296 /\ 0 <= z_usec r < 4294967296 /\ 0 <= z_caplen r < 4294967296 /\
  0 <= z_len r < 4294967296 /\ bytes_ok (z_frame r) /\ zlen (z_frame r) < 65536.

(** ** The MPLS tag *)

(** Bit fields of the little-endian layout, least significant first:
    reserved0:3 rra:4 magic:1 | service_tag_h:8 | bottom:1 reserved1:3
    service_tag_l:4 | reserved2:8. *)
Definition make_mpls_hdr (direct service_tag : Z) : Z :=
  let rra := Z.land direct 15 in
  let tag_h := Z.land (Z.shiftr service_tag 4) 255 in
  let tag_l := Z.land service_tag 15 in
  Z.shiftl rra 3 + Z.shiftl 1 7 + Z.shiftl tag_h 8 + Z.shiftl 1 16 + Z.shiftl tag_l 20
  + Z.shiftl 255 24.

Example mpls_doc :
  (fun p => le32 (make_mpls_hdr p.1 p.2)) <$> [(1, 0); (2, 0); (1, 418)] =
    [[136; 0; 1; 255]; [144; 0; 1; 255]; [136; 26; 33; 255]].
Proof. reflexivity. Qed.

(** What the receiver reads: direction and 12-bit service tag. *)
Definition mpls_direct (b : list Z) : Z := bget b 0 / 8 mod 16.
Definition mpls_tag (b : list Z) : Z := bget b 1 * 16 + bget b 2 / 16.

Lemma mpls_fields direct tag :
  0 <= direct <= 2 -> 0 <= tag < 65536 ->
  mpls_direct (le32 (make_mpls_hdr direct tag)) = direct /\
  mpls_tag (le32 (make_mpls_hdr direct tag)) = tag mod 4096.
Proof.
  intros Hd Ht. unfold make_mpls_hdr, mpls_direct, mpls_tag.
  assert (Z.land direct 15 = direct) as ->.
  { change 15 with (Z.ones 4). rewrite Z.land_ones by lia. apply Z.mod_small. change (2 ^ 4) with 16. lia. }
  assert (forall x, Z.land x 255 = x mod 256) as Hl8
    by (intros; change 255 with (Z.ones 8); by rewrite Z.land_ones).
  assert (forall x, Z.land x 15 = x mod 16) as Hl4
    by (intros; change 15 with (Z.ones 4); by rewrite Z.land_ones).
  rewrite !Hl8, !Hl4, !Z.shiftl_mul_pow2, !Z.shiftr_div_pow2 by lia.
  change (2 ^ 3) with 8. change (2 ^ 4) with 16. change (2 ^ 7) with 128. change (2 ^ 8) with 256.
  change (2 ^ 16) with 65536. change (2 ^ 20) with 1048576. change (2 ^ 24) with 16777216.
  assert (exists h l, tag / 16 mod 256 = h /\ tag mod 16 = l /\ 0 <= h < 256 /\ 0 <= l < 16 /\
    tag mod 4096 = 16 * h + l) as (h & l & -> & -> & Hh & Hl & ->) 
    by (eexists _, _; split_and!; [done|done|zlia..|change 4096 with (16 * 256); rewrite Z.rem_mul_r; lia]).
  unfold le32. bget_concrete. unfold u8.
  assert ((direct * 8 + 1 * 128 + h * 256 + 1 * 65536 + l * 1048576 + 255 * 16777216) mod 256
    = direct * 8 + 128) as -> by zlia.
  assert ((direct * 8 + 1 * 128 + h * 256 + 1 * 65536 + l * 1048576 + 255 * 16777216) / 256 mod 256
    = h) as -> by zlia.
  assert ((direct * 8 + 1 * 128 + h * 256 + 1 * 65536 + l * 1048576 + 255 * 16777216) / 65536 mod 256
    = 1 + 16 * l) as -> by zlia.
  zlia.
Qed.

(** ** UUIDs *)

Definition hex_char (n : Z) : Z := if n <? 10 then 48 + n else 87 + n.

(** [hex_chars] of the receiver. *)
Definition hex_chars (uuid_bytes : list Z) : list Z :=
  concat ((fun b => [hex_char (Z.shiftr b 4); hex_char (Z.land b 15)]) <$> uuid_bytes).

Definition bytes_to_uuid (uuid_bytes : list Z) : list Z :=
  let h := hex_chars uuid_bytes in
  bslice h 0 8 ++ [45] ++ bslice h 8 4 ++ [45] ++ bslice h 12 4 ++ [45] ++ bslice h 16 4
  ++ [45] ++ bslice h 20 12.

Definition hex_val (c : Z) : option Z :=
  if (48 <=? c) && (c <=? 57) then Some (c - 48)
  else if (97 <=? c) && (c <=? 102) then Some (c - 87)
  else if (65 <=? c) && (c <=? 70) then Some (c - 55)
  else None.

Definition isspace (c : Z) : bool := (c =? 32) || ((9 <=? c) && (c <=? 13)).

(** [strtoul] base 16 on a two-character string: the value and how many
    characters it consumed.  A leading blank or sign is accepted before a
    digit. *)
Definition strtoul2 (c1 c2 : Z) : Z * Z :=
  match hex_val c1, hex_val c2 with
  | Some a, Some b => (16 * a + b, 2)
  | Some a, None => (a, 1)
  | None, Some b =>
      if isspace c1 || (c1 =? 43) then (b, 2)
      else if c1 =? 45 then (u64 (- b), 2)
      else (0, 0)
  | None, None => (0, 0)
  end.

(** The clean-up loop: dashes are dropped, more than 32 characters refused. *)
Fixpoint uuid_clean (p clean : list Z) : option (list Z) :=
  match p with
  | [] => Some clean
  | c :: p =>
      if negb (c =? 45)
      then if 32 <=? zlen clean then None else uuid_clean p (clean ++ [c])
      else uuid_clean p clean
  end.

Fixpoint uuid_pairs (clean : list Z) : option (list Z) :=
  match clean with
  | c1 :: c2 :: clean =>
      let '(val, n) := strtoul2 c1 c2 in
      if negb (n =? 2) || (255 <? val) then None
      else bs ← uuid_pairs clean; Some (u8 val :: bs)
  | _ => Some []
  end.

(** The string is its characters without the final NUL. *)
Definition uuid_to_bytes (uuid : list Z) : option (list Z) :=
  clean ← uuid_clean uuid [];
  if negb (zlen clean =? 32) then None else uuid_pairs clean.

Lemma hex_val_char n : 0 <= n < 16 -> hex_val (hex_char n) = Some n.
Proof.
  intros Hn. unfold hex_val, hex_char. destruct (Z.ltb_spec n 10).
  - destruct (Z.leb_spec 48 (48 + n)), (Z.leb_spec (48 + n) 57); try lia. cbn. f_equal. lia.
  - destruct (Z.leb_spec 48 (87 + n)), (Z.leb_spec (87 + n) 57); try lia.
    destruct (Z.leb_spec 97 (87 + n)), (Z.leb_spec (87 + n) 102); try lia. cbn. f_equal. lia.
Qed.

Lemma hex_char_not_dash n : 0 <= n < 16 -> hex_char n <> 45.
Proof. intros Hn. unfold hex_char. bcase; lia. Qed.

Lemma nibbles b : byte_ok b -> Z.shiftr b 4 = b / 16 /\ Z.land b 15 = b mod 16.
Proof.
  intros Hb. split; [by rewrite Z.shiftr_div_pow2|].
  change 15 with (Z.ones 4). by rewrite Z.land_ones.
Qed.

Lemma uuid_pairs_hex bs : bytes_ok bs -> uuid_pairs (hex_chars bs) = Some bs.
Proof.
  intros Hall. induction Hall as [|b bs Hb Hall IH]; [done|].
  unfold hex_chars. rewrite fmap_cons. cbn [concat app]. fold (hex_chars bs).
  destruct (nibbles b Hb) as [-> ->]. unfold byte_ok in Hb.
  cbn [uuid_pairs]. unfold strtoul2. rewrite !hex_val_char by zlia. cbv iota beta.
  change (2 =? 2) with true. cbn [negb orb]. destruct (Z.ltb_spec 255 (16 * (b / 16) + b mod 16)); [zlia|].
  rewrite IH. obind. do 2 f_equal. rewrite u8_small by zlia. zlia.
Qed.

Lemma hex_chars_facts bs :
  bytes_ok bs -> zlen (hex_chars bs) = 2 * zlen bs /\ Forall (fun c => c <> 45) (hex_chars bs).
Proof.
  intros Hall. induction Hall as [|b bs Hb Hall [IH1 IH2]]; [by split; [|constructor]|].
  unfold hex_chars. rewrite fmap_cons. cbn [concat app]. fold (hex_chars bs).
  destruct (nibbles b Hb) as [-> ->]. unfold byte_ok in Hb.
  rewrite !zlen_cons, IH1. split; [lia|].
  repeat constructor; try done; apply hex_char_not_dash; zlia.
Qed.

Lemma uuid_clean_app p1 p2 acc :
  Forall (fun c => c <> 45) p1 -> zlen acc + zlen p1 <= 32 ->
  uuid_clean (p1 ++ p2) acc = uuid_clean p2 (acc ++ p1).
Proof.
  intros Hall. revert acc. induction Hall as [|c p1 Hc Hall IH]; intros acc Hl.
  { by rewrite app_nil_r. }
  cbn [app uuid_clean]. destruct (Z.eqb_spec c 45); [done|]. cbn [negb]. rewrite zlen_cons in Hl.
  pose proof (zlen_nonneg p1). destruct (Z.leb_spec 32 (zlen acc)); [lia|].
  rewrite IH by (rewrite zlen_app; change (zlen [c]) with 1; lia). by rewrite <- app_assoc.
Qed.

Lemma uuid_clean_dash p acc : uuid_clean (45 :: p) acc = uuid_clean p acc.
Proof. done. Qed.

Lemma bslice_no_dash h o n :
  Forall (fun c => c <> 45) h -> 0 <= o -> o + n <= zlen h -> Forall (fun c => c <> 45) (bslice h o n).
Proof.
  intros Hall Ho Hn. unfold bslice. apply Forall_fmap, Forall_forall. intros i Hi%elem_of_seqZ. cbn.
  unfold bget. destruct (h !! Z.to_nat i) eqn:E; [|by cbn]. cbn.
  rewrite Forall_forall in Hall. apply Hall. by apply list_elem_of_lookup_2 in E.
Qed.

Ltac uuid_side :=
  first [apply bslice_no_dash; [done|lia|lia]
        |rewrite ?zlen_app, ?bslice_zlen by lia; change (zlen (@nil Z)) with 0; lia].

(** Printing a UUID and parsing it back. *)
Lemma uuid_print_parse bs :
  bytes_ok bs -> zlen bs = 16 -> uuid_to_bytes (bytes_to_uuid bs) = Some bs.
Proof.
  intros Hok Hl. destruct (hex_chars_facts bs Hok) as [Hh Hd]. rewrite Hl in Hh. change (2 * 16) with 32 in Hh.
  unfold uuid_to_bytes, bytes_to_uuid. cbv zeta. set (h := hex_chars bs) in *.
  assert (uuid_clean (bslice h 0 8 ++ [45] ++ bslice h 8 4 ++ [45] ++ bslice h 12 4 ++ [45] ++ bslice h 16 4
    ++ [45] ++ bslice h 20 12) [] = Some h) as ->.
  { cbn [app]. do 4 rewrite uuid_clean_app, uuid_clean_dash by uuid_side.
    rewrite <- (app_nil_r (bslice h 20 12)). rewrite uuid_clean_app by uuid_side.
    cbn [uuid_clean app]. f_equal. rewrite <- (bslice_full h) at 6. rewrite Hh.
    change 32 with (8 + (4 + (4 + (4 + 12)))). rewrite !bslice_app by lia.
    rewrite <- !app_assoc. done. }
  obind. rewrite Hh. cbn [negb Z.eqb Pos.eqb]. by apply uuid_pairs_hex.
Qed.

Lemma uuid_pairs_ok l bs : uuid_pairs l = Some bs -> bytes_ok bs /\ 2 * zlen bs <= zlen l < 2 * zlen bs + 2.
Proof.
  revert bs. induction l as [|x|c1 c2 l IH] using pair_list_ind; intros bs H.
  - injection H as <-. split; [constructor|]. unfold zlen. cbn [length]. lia.
  - injection H as <-. split; [constructor|]. unfold zlen. cbn [length]. lia.
  - cbn [uuid_pairs] in H. destruct (strtoul2 c1 c2) as [v n]. destruct (_ || _); [done|].
    destruct (uuid_pairs l) as [bs'|]; [|done]. injection H as <-. destruct (IH bs' eq_refl).
    split; [constructor; [apply u8_range|done]|]. rewrite !zlen_cons. lia.
Qed.

(** A parsed UUID is 16 bytes. *)
Lemma uuid_to_bytes_ok us bs : uuid_to_bytes us = Some bs -> bytes_ok bs /\ zlen bs = 16.
Proof.
  unfold uuid_to_bytes. destruct (uuid_clean us []) as [clean|]; [|done]. obind.
  destruct (Z.eqb_spec (zlen clean) 32) as [E|]; [|done]. cbn [negb].
  intros H. apply uuid_pairs_ok in H as [? ?]. split; [done|lia].
Qed.

(** ** The receiver *)

Module RecvZmq.
Section recv.
Context {D : Type} (pcap_dump : D -> pcap_pkthdr -> list Z -> D).

(** The record loop of [handle_zmq_msg].  The [size_t] differences are taken
    modulo 2^64; [None] is a read outside the message.  [pcap_dump] reads
    [caplen] bytes. *)
Fixpoint recv_loop (todo : nat) (msg : list Z) (msg_offset : Z) (out : option D) :
    option (Z * option D) :=
  match todo with
  | O => Some (0, out)
  | S todo =>
      let msg_size := zlen msg in
      if u64 (msg_size - msg_offset) <? 2 + PKT_HDR_LEN then Some (-1, out)
      else
        pkt_data_len ← load16 msg_size msg msg_offset;
        let pkt_data_len := ntohs pkt_data_len in
        let pkt_hdr := msg_offset + 2 in
        let msg_offset := pkt_hdr + PKT_HDR_LEN in
        if u64 (msg_size - msg_offset) <? pkt_data_len then Some (-1, out)
        else
          sec ← load32 msg_size msg pkt_hdr;
          usec ← load32 msg_size msg (pkt_hdr + 4);
          cap ← load32 msg_size msg (pkt_hdr + 8);
          len ← load32 msg_size msg (pkt_hdr + 12);
          let header := Pkthdr (ntohl sec) (ntohl usec) (ntohl cap) (ntohl len) in
          out ← (match out with
                 | Some d => data ← bread msg_size msg msg_offset (caplen header);
                             Some (Some (pcap_dump d header data))
                 | None => Some None
                 end);
          recv_loop todo msg (msg_offset + pkt_data_len) out
  end.

Definition handle_zmq_msg (msg : list Z) (out : option D) : option (Z * option D) :=
  if zlen msg <? BATCH_HDR_LEN then Some (-1, out)
  else
    pkts_num ← load16 (zlen msg) msg 2;
    recv_loop (Z.to_nat (ntohs pkts_num)) msg BATCH_HDR_LEN out.

(** What the receiver writes for a record. *)
Definition dump_rec (d : D) (r : zrec) : D :=
  pcap_dump d (Pkthdr (z_sec r) (z_usec r) (z_caplen r) (z_len r)) (z_frame r).

(** A record as this output builds it: [caplen] is the frame length. *)
Definition sent_rec (r : zrec) : Prop := rec_ok r /\ z_caplen r = zlen (z_frame r).

Lemma net16_app l1 v l2 : 0 <= v < 65536 -> net16 (l1 ++ be16 v ++ l2) (zlen l1) = v.
Proof.
  intros Hv. pose proof (zlen_nonneg l1). unfold net16. rewrite !(bget_app_r l1) by lia.
  replace (zlen l1 - zlen l1) with 0 by lia. replace (zlen l1 + 1 - zlen l1) with 1 by lia.
  rewrite !bget_app_l by (rewrite be16_zlen; lia). unfold be16. bget_concrete. unfold u8. zlia.
Qed.

Lemma net32_app l1 v l2 : 0 <= v < 4294967296 -> net32 (l1 ++ be32 v ++ l2) (zlen l1) = v.
Proof.
  intros Hv. pose proof (zlen_nonneg l1). unfold net32. rewrite !(bget_app_r l1) by lia.
  replace (zlen l1 - zlen l1) with 0 by lia. replace (zlen l1 + 1 - zlen l1) with 1 by lia.
  replace (zlen l1 + 2 - zlen l1) with 2 by lia. replace (zlen l1 + 3 - zlen l1) with 3 by lia.
  rewrite !bget_app_l by (rewrite be32_zlen; lia). unfold be32. bget_concrete. unfold u8. zlia.
Qed.

Lemma bslice_mid l1 l2 l3 : bslice (l1 ++ l2 ++ l3) (zlen l1) (zlen l2) = l2.
Proof.
  rewrite bslice_app_r, Z.sub_diag, bslice_app_l by lia. apply bslice_full.
Qed.

(** The fields of a record that follows [pre]. *)
Lemma record_fields pre r post :
  rec_ok r ->
  let m := pre ++ encode_rec r ++ post in
  net16 m (zlen pre) = zlen (z_frame r) /\ net32 m (zlen pre + 2) = z_sec r /\
  net32 m (zlen pre + 2 + 4) = z_usec r /\ net32 m (zlen pre + 2 + 8) = z_caplen r /\
  net32 m (zlen pre + 2 + 12) = z_len r /\
  bslice m (zlen pre + 2 + 16) (zlen (z_frame r)) = z_frame r.
Proof.
  intros (H1 & H2 & H3 & H4 & _ & H6) m. pose proof (zlen_nonneg (z_frame r)).
  unfold m, encode_rec. rewrite <- !app_assoc. set (f := z_frame r) in *.
  set (a := be16 (zlen f)). set (b := be32 (z_sec r)). set (c := be32 (z_usec r)).
  set (d := be32 (z_caplen r)). set (e := be32 (z_len r)).
  split; [apply net16_app; lia|].
  assert (zlen (pre ++ a) = zlen pre + 2) as L1 by (rewrite zlen_app; done).
  assert (zlen (pre ++ a ++ b) = zlen pre + 2 + 4) as L2 by (rewrite app_assoc, zlen_app, L1; done).
  assert (zlen (pre ++ a ++ b ++ c) = zlen pre + 2 + 8) as L3.
  { rewrite !app_assoc, zlen_app, <- app_assoc, L2. change (zlen c) with 4. lia. }
  assert (zlen (pre ++ a ++ b ++ c ++ d) = zlen pre + 2 + 12) as L4.
  { rewrite !app_assoc, zlen_app, <- !app_assoc, L3. change (zlen d) with 4. lia. }
  assert (zlen (pre ++ a ++ b ++ c ++ d ++ e) = zlen pre + 2 + 16) as L5.
  { rewrite !app_assoc, zlen_app, <- !app_assoc, L4. change (zlen e) with 4. lia. }
  rewrite <- L5, <- L4, <- L3, <- L2, <- L1. split_and!.
  - replace (pre ++ a ++ b ++ _) with ((pre ++ a) ++ b ++ c ++ d ++ e ++ f ++ post)
      by (by rewrite <- !app_assoc). by apply net32_app.
  - replace (pre ++ a ++ b ++ c ++ _) with ((pre ++ a ++ b) ++ c ++ d ++ e ++ f ++ post)
      by (by rewrite <- !app_assoc). by apply net32_app.
  - replace (pre ++ a ++ b ++ c ++ d ++ _) with ((pre ++ a ++ b ++ c) ++ d ++ e ++ f ++ post)
      by (by rewrite <- !app_assoc). by apply net32_app.
  - replace (pre ++ a ++ b ++ c ++ d ++ e ++ _) with ((pre ++ a ++ b ++ c ++ d) ++ e ++ f ++ post)
      by (by rewrite <- !app_assoc). by apply net32_app.
  - replace (pre ++ a ++ b ++ c ++ d ++ e ++ f ++ post) with ((pre ++ a ++ b ++ c ++ d ++ e) ++ f ++ post)
      by (by rewrite <- !app_assoc). apply bslice_mid.
Qed.

Lemma encode_rec_len r : zlen (encode_rec r) = 18 + zlen (z_frame r).
Proof. unfold encode_rec. rewrite !zlen_app. rewrite be16_zlen, !be32_zlen. lia. Qed.

Lemma encode_rec_bytes r : rec_ok r -> bytes_ok (encode_rec r).
Proof. intros (_ & _ & _ & _ & Hf & _). unfold encode_rec. auto 10 with cprobe. Qed.

Lemma encode_all_bytes rs : Forall rec_ok rs -> bytes_ok (concat (encode_rec <$> rs)).
Proof.
  induction 1 as [|r rs Hr Hall IH]; [constructor|]. rewrite fmap_cons. cbn [concat].
  apply bytes_ok_app; [by apply encode_rec_bytes|done].
Qed.

Lemma recv_loop_ok rs pre d :
  bytes_ok pre -> Forall sent_rec rs ->
  zlen (pre ++ concat (encode_rec <$> rs)) < 18446744073709551616 ->
  recv_loop (length rs) (pre ++ concat (encode_rec <$> rs)) (zlen pre) (Some d) =
    Some (0, Some (foldl dump_rec d rs)).
Proof.
  intros Hpre Hall. revert pre d Hpre. induction Hall as [|r rs [Hr Hcl] Hall IH]; intros pre d Hpre Hsz; [done|].
  rewrite fmap_cons in Hsz |- *. cbn [concat] in Hsz |- *. cbn [length recv_loop].
  set (post := concat (encode_rec <$> rs)) in *. set (m := pre ++ encode_rec r ++ post) in *.
  destruct (record_fields pre r post Hr) as (F1 & F2 & F3 & F4 & F5 & F6). fold m in F1, F2, F3, F4, F5, F6.
  pose proof (zlen_nonneg pre). pose proof (zlen_nonneg post). pose proof (zlen_nonneg (z_frame r)).
  assert (zlen m = zlen pre + 18 + zlen (z_frame r) + zlen post) as Hm
    by (unfold m; rewrite !zlen_app, encode_rec_len; lia).
  assert (bytes_ok m) as Hmb.
  { apply bytes_ok_app; [done|]. apply bytes_ok_app; [by apply encode_rec_bytes|].
    apply encode_all_bytes. by apply (Forall_impl _ _ _ Hall); intros ? []. }
  unfold PKT_HDR_LEN. rewrite u64_small by lia.
  destruct (Z.ltb_spec (zlen m - zlen pre) (2 + 16)); [lia|].
  rewrite load16_ok by lia. obind. rewrite ntohs_get16, F1 by done.
  rewrite u64_small by lia.
  destruct (Z.ltb_spec (zlen m - (zlen pre + 2 + 16)) (zlen (z_frame r))); [lia|].
  rewrite !load32_ok by lia. obind. rewrite !ntohl_get32, F2, F3, F4, F5 by done.
  cbn [caplen]. rewrite Hcl, bread_ok, F6 by lia. obind.
  specialize (IH (pre ++ encode_rec r) (dump_rec d r)).
  rewrite <- app_assoc in IH. fold m in IH. rewrite zlen_app, encode_rec_len in IH.
  replace (zlen pre + 2 + 16 + zlen (z_frame r)) with (zlen pre + (18 + zlen (z_frame r))) by lia.
  unfold dump_rec at 1 in IH. rewrite Hcl in IH. cbn [foldl]. apply IH; [|done].
  apply bytes_ok_app; [done|by apply encode_rec_bytes].
Qed.

Lemma handle_batch_msg keybit uuid rs d :
  bytes_ok uuid -> zlen uuid = 16 -> zlen rs < 65536 -> Forall sent_rec rs ->
  handle_zmq_msg (batch_msg keybit uuid rs) (Some d) = Some (0, Some (foldl dump_rec d rs)).
Proof.
  intros Hu Hul Hn Hall. pose proof (zlen_nonneg rs).
  set (hdr := batch_hdr (zlen rs) keybit uuid).
  assert (zlen hdr = 24) as Hh by (unfold hdr, batch_hdr; rewrite !zlen_app, Hul; done).
  assert (bytes_ok hdr) as Hhb by (unfold hdr, batch_hdr; auto with cprobe).
  assert (zlen (concat (encode_rec <$> rs)) <= zlen rs * 65553) as Hb.
  { clear -Hall. induction Hall as [|r rs [Hr _] Hall IH]; [done|].
    rewrite fmap_cons. cbn [concat]. rewrite zlen_app, encode_rec_len, zlen_cons.
    destruct Hr as (_ & _ & _ & _ & _ & ?). lia. }
  assert (zlen (batch_msg keybit uuid rs) = 24 + zlen (concat (encode_rec <$> rs))) as Hm
    by (unfold batch_msg; fold hdr; rewrite zlen_app, Hh; done).
  pose proof (zlen_nonneg (concat (encode_rec <$> rs))).
  unfold handle_zmq_msg, BATCH_HDR_LEN. destruct (Z.ltb_spec (zlen (batch_msg keybit uuid rs)) 24); [lia|].
  rewrite load16_ok by lia. obind.
  assert (bytes_ok (batch_msg keybit uuid rs)) as Hmb.
  { unfold batch_msg. apply bytes_ok_app; [done|]. apply encode_all_bytes.
    by apply (Forall_impl _ _ _ Hall); intros ? []. }
  rewrite ntohs_get16 by done.
  assert (net16 (batch_msg keybit uuid rs) 2 = zlen rs) as ->.
  { unfold batch_msg, batch_hdr. rewrite <- !app_assoc. by apply (net16_app (be16 2)). }
  unfold batch_msg in *. fold hdr in Hm, Hmb |- *. unfold zlen at 1. rewrite Nat2Z.id.
  rewrite <- Hh. apply recv_loop_ok; (done || lia).
Qed.
(** the receiver decodes every batch of well-formed records to exactly
    those records, in order, with their timestamps, lengths and frame bytes,
    and reads nothing outside the message. *)
Theorem zmq_batch_roundtrip keybit uuid rs d :
  bytes_ok uuid -> zlen uuid = 16 -> zlen rs < 65536 -> Forall sent_rec rs ->
  handle_zmq_msg (batch_msg keybit uuid rs) (Some d) = Some (0, Some (foldl dump_rec d rs)).
Proof. apply handle_batch_msg. Qed.
End recv.

(** A dumper that keeps its records. *)
Definition list_dump (d : list (pcap_pkthdr * list Z)) (h : pcap_pkthdr) (b : list Z) := d ++ [(h, b)].

Lemma zmq_batch_roundtrip_witness :
  handle_zmq_msg list_dump (batch_msg 7 (replicate 16 1) [ZRec 5 6 2 9 [3; 4]; ZRec 8 9 1 1 [7]]) (Some [])
  = Some (0, Some [(Pkthdr 5 6 2 9, [3; 4]); (Pkthdr 8 9 1 1, [7])]).
Proof.
  apply (zmq_batch_roundtrip list_dump 7 (replicate 16 1) [ZRec 5 6 2 9 [3; 4]; ZRec 8 9 1 1 [7]] []);
    [repeat constructor; vm_compute; congruence|reflexivity|reflexivity|].
  repeat constructor; vm_compute; congruence.
Defined.

(** a record header whose [caplen] exceeds the data makes the receiver
    read past the end of the message: [caplen] is not checked against
    [pkt_data_len]. *)
Theorem recv_caplen_unchecked :
  exists msg, bytes_ok msg /\ handle_zmq_msg list_dump msg (Some []) = None /\
    handle_zmq_msg list_dump msg None = Some (0, None).
Proof.
  exists (batch_msg 7 (replicate 16 1) [ZRec 5 6 1000 9 [3; 4]]).
  split; [|split; vm_compute; reflexivity]. repeat constructor; vm_compute; congruence.
Qed.
End RecvZmq.

(** parsing the printed form of any UUID gives the 16 bytes back. *)
Theorem uuid_roundtrip bs :
  bytes_ok bs -> zlen bs = 16 -> uuid_to_bytes (bytes_to_uuid bs) = Some bs.
Proof. apply uuid_print_parse. Qed.

Lemma uuid_roundtrip_witness :
  uuid_to_bytes (bytes_to_uuid [121;109;80;106;70;161;79;78;189;154;96;117;164;154;201;248]) =
    Some [121;109;80;106;70;161;79;78;189;154;96;117;164;154;201;248].
Proof. apply uuid_roundtrip; [repeat constructor; vm_compute; congruence|reflexivity]. Defined.
