(* ===== verification/OutputZmq.v ===== *)
(** * ZMQ output (output_zmq.c, output_zmq.h)

    Packets are rewritten (an MPLS tag is inserted under the innermost VLAN
    tag) and collected as records in a 1 MiB batch buffer, which is sent as one
    ZMQ message when it is full, a second old, or a heartbeat is due.
    [zmq_send] and [gettimeofday] are parameters. *)

From stdpp Require Import prelude list list_numbers.
From S2P Require Import Prelude ByteOrder Stats RateLimit Headers Output ZmqFormat.

Module ZmqOutput.

Definition ZMQ_MAX_FRAME_LEN : Z := 65531.
Definition ZMQ_MAX_BATCH_BUF_SIZE : Z := 1048576.
Definition ZMQ_PKTS_FLUSH_MAX_DUR_SEC : Z := 1.
Definition ZMQ_PKTS_FLUSH_MAX_NUM : Z := 65535.
Definition ZMQ_PKT_DATA_LEN_SIZE : Z := 2.
Definition ZMQ_HEARTBEAT_ETHER_TYPE : Z := 65535.
Definition ERROR_INFO_FLUSH_MAX_DUR_SEC : Z := 5.

(** [send_error] is kept as the [errno] its text describes. *)
Record error_info_t := ErrorInfo {
  e_first_pktsec : Z;
  nb_drop_packets : Z;
  nb_drop_batches : Z;
  nb_too_small_packets : Z;
  send_error : option Z;
}.

(** [zmq_pkts_buf_t]; [version], [keybit] and [uuid] of the batch header never
    change after construction. *)
Record zmq_pkts_buf_t := PktsBuf {
  pkts_num : Z;
  keybit : Z;
  uuid : list Z;
  buf : list Z;
  batch_bufpos : Z;
  first_pktsec : Z;
  heartbeat_num : Z;
  data_bytes : Z;
}.

Section zmq.
Context {W : Type} (zmq_send : W -> list Z -> option Z * W) (gettimeofday : W -> timeval * W).

Record zmq_output_t := Zmq {
  common : output_common;
  service_tag : Z;
  pkts_buf : zmq_pkts_buf_t;
  heartbeat_ms : Z;
  last_pkt_tv : timeval;
  error_info : error_info_t;
  env : W;
}.

Definition set_common (o : zmq_output_t) (c : output_common) : zmq_output_t :=
  Zmq c (service_tag o) (pkts_buf o) (heartbeat_ms o) (last_pkt_tv o) (error_info o) (env o).
Definition set_buf (o : zmq_output_t) (p : zmq_pkts_buf_t) : zmq_output_t :=
  Zmq (common o) (service_tag o) p (heartbeat_ms o) (last_pkt_tv o) (error_info o) (env o).
Definition set_last (o : zmq_output_t) (tv : timeval) : zmq_output_t :=
  Zmq (common o) (service_tag o) (pkts_buf o) (heartbeat_ms o) tv (error_info o) (env o).
Definition set_env (o : zmq_output_t) (w : W) : zmq_output_t :=
  Zmq (common o) (service_tag o) (pkts_buf o) (heartbeat_ms o) (last_pkt_tv o) (error_info o) w.
Definition set_error (o : zmq_output_t) (e : error_info_t) : zmq_output_t :=
  Zmq (common o) (service_tag o) (pkts_buf o) (heartbeat_ms o) (last_pkt_tv o) e (env o).
Definition set_first (p : zmq_pkts_buf_t) (t : Z) : zmq_pkts_buf_t :=
  PktsBuf (pkts_num p) (keybit p) (uuid p) (buf p) (batch_bufpos p) t (heartbeat_num p) (data_bytes p).

Definition flush_error_info (e : error_info_t) : error_info_t :=
  let small := if 0 <? nb_too_small_packets e then 0 else nb_too_small_packets e in
  if (0 <? nb_drop_batches e) || (0 <? nb_drop_packets e)
  then ErrorInfo 0 0 0 small None
  else ErrorInfo 0 (nb_drop_packets e) (nb_drop_batches e) small (send_error e).

Definition set_e_first (e : error_info_t) (t : Z) : error_info_t :=
  ErrorInfo t (nb_drop_packets e) (nb_drop_batches e) (nb_too_small_packets e) (send_error e).

Definition check_error_info (e : error_info_t) (sec : Z) : error_info_t :=
  if e_first_pktsec e =? 0 then set_e_first e sec
  else if e_first_pktsec e + ERROR_INFO_FLUSH_MAX_DUR_SEC <? sec
  then set_e_first (flush_error_info e) sec
  else e.

(** The counter updates of a flush: the batch was sent, or dropped. *)
Definition count_batch_sent (nbytes n hb : Z) (s : output_stats_t) : output_stats_t :=
  OutputStats (bytes_stats_add (fwd_bytes s) nbytes) (packets_stats_add (fwd_packets s) n)
    (direction_drop_bytes s) (direction_drop_packets s) (error_drop_bytes s) (error_drop_packets s)
    (ratelimit_drop_bytes s) (ratelimit_drop_packets s) (packets_stats_add (heartbeat_packets s) hb).
Definition count_batch_dropped (nbytes n : Z) (s : output_stats_t) : output_stats_t :=
  OutputStats (fwd_bytes s) (fwd_packets s) (direction_drop_bytes s) (direction_drop_packets s)
    (bytes_stats_add (error_drop_bytes s) nbytes) (packets_stats_add (error_drop_packets s) n)
    (ratelimit_drop_bytes s) (ratelimit_drop_packets s) (heartbeat_packets s).

Definition zmq_flush_packet (o : zmq_output_t) : option zmq_output_t :=
  let p := pkts_buf o in
  let send_num := pkts_num p in
  b ← bwrite ZMQ_MAX_BATCH_BUF_SIZE (buf p) 0 (batch_hdr send_num (keybit p) (uuid p));
  let e := check_error_info (error_info o) (first_pktsec p) in
  let data_num := u16 (send_num - heartbeat_num p) in
  msg ← bread ZMQ_MAX_BATCH_BUF_SIZE b 0 (batch_bufpos p);
  let '(rc, w) := zmq_send (env o) msg in
  let s := stats (common o) in
  let '(s, e) :=
    match rc with
    | None => (count_batch_sent (data_bytes p) data_num (heartbeat_num p) s, e)
    | Some errno =>
        (count_batch_dropped (data_bytes p) data_num s,
         ErrorInfo (e_first_pktsec e) (u64 (nb_drop_packets e + data_num)) (u64 (nb_drop_batches e + 1))
           (nb_too_small_packets e) (if nb_drop_batches e =? 0 then Some errno else send_error e))
    end in
  Some (Zmq (set_stats (common o) s) (service_tag o)
          (PktsBuf 0 (keybit p) (uuid p) b BATCH_HDR_LEN 0 0 0)
          (heartbeat_ms o) (last_pkt_tv o) e w).

Definition zmq_flush_if_stale (o : zmq_output_t) (now : Z) : option zmq_output_t :=
  let p := pkts_buf o in
  if (0 <? pkts_num p) && negb (first_pktsec p =? 0)
     && (first_pktsec p + ZMQ_PKTS_FLUSH_MAX_DUR_SEC <? now)
  then zmq_flush_packet o else Some o.

(** The loop over the tag stack; each turn consumes four captured bytes. *)
Fixpoint l2_loop (fuel : nat) (pkt : list Z) (caplen ether_type offset : Z) : option Z :=
  match fuel with
  | O => None
  | S fuel =>
      if is_vlan_ethertype ether_type then
        if caplen <? offset + VLAN_HDR_LEN then Some 0
        else
          et ← load16 (zlen pkt) pkt (offset + 2);
          l2_loop fuel pkt caplen (ntohs et) (offset + VLAN_HDR_LEN)
      else Some offset
  end.

Definition l2_header_len (pkt : list Z) (caplen : Z) : option Z :=
  if caplen <? ETHER_HDR_LEN then Some 0
  else
    et ← load16 (zlen pkt) pkt 12;
    l2_loop (S (Z.to_nat (caplen / 4))) pkt caplen (ntohs et) ETHER_HDR_LEN.

(** The record of a packet, written at [batch_bufpos]. *)
Definition write_record (p : zmq_pkts_buf_t) (h : pcap_pkthdr) (pkt : list Z)
    (l2_len frame_len record_len direct tag : Z) : option zmq_pkts_buf_t :=
  let cap := ZMQ_MAX_BATCH_BUF_SIZE in
  let pos := batch_bufpos p in
  b ← bwrite cap (buf p) pos (le16 (htons record_len));
  let pos := pos + ZMQ_PKT_DATA_LEN_SIZE in
  b ← bwrite cap b pos
        (le32 (htonl (u32 (ts_sec h))) ++ le32 (htonl (u32 (ts_usec h)))
         ++ le32 (htonl record_len) ++ le32 (htonl (u32 (wirelen h + MPLS_HDR_LEN))));
  let pos := pos + PKT_HDR_LEN in
  eth ← bread (zlen pkt) pkt 0 ETHER_HDR_LEN;
  let vlan_total_size := l2_len - ETHER_HDR_LEN in
  let has_vlan := 0 <? vlan_total_size in
  let eth := if negb has_vlan then bput eth 12 (le16 (htons ETHER_TYPE_MPLS)) else eth in
  b ← bwrite cap b pos eth;
  let pos := pos + ETHER_HDR_LEN in
  '(b, pos) ←
    (if has_vlan then
       tags ← bread (zlen pkt) pkt ETHER_HDR_LEN vlan_total_size;
       b ← bwrite cap b pos tags;
       b ← bwrite cap b (pos + vlan_total_size - 2) (le16 (htons ETHER_TYPE_MPLS));
       Some (b, pos + vlan_total_size)
     else Some (b, pos));
  b ← bwrite cap b pos (le32 (make_mpls_hdr direct tag));
  let pos := pos + MPLS_HDR_LEN in
  let payload_offset := ETHER_HDR_LEN + vlan_total_size in
  let payload_copy_len := frame_len - payload_offset in
  data ← bread (zlen pkt) pkt payload_offset payload_copy_len;
  b ← bwrite cap b pos data;
  Some (PktsBuf (u16 (pkts_num p + 1)) (keybit p) (uuid p) b (pos + payload_copy_len)
          (first_pktsec p) (heartbeat_num p) (u32 (data_bytes p + frame_len))).

(** The counted length: the sliced frame, never less than its L2 header. *)
Definition zmq_frame_len (o : zmq_output_t) (h : pcap_pkthdr) (l2_len : Z) : Z :=
  let frame_len := output_frame_len (caplen h) (slice (common o)) ZMQ_MAX_FRAME_LEN in
  if frame_len <? l2_len then l2_len else frame_len.

(** After the flush decision: the record is written and the batch updated. *)
Definition append_record (o : zmq_output_t) (h : pcap_pkthdr) (pkt : list Z)
    (l2_len frame_len record_len direct : Z) : option zmq_output_t :=
  let o := if first_pktsec (pkts_buf o) =? 0 then set_buf o (set_first (pkts_buf o) (ts_sec h)) else o in
  p ← write_record (pkts_buf o) h pkt l2_len frame_len record_len direct (service_tag o);
  Some (set_last (set_buf o p) (pkt_ts h)).

(** From [if (pkts_num == 0)] on: flush what does not fit, then append. *)
Definition append_packet (o : zmq_output_t) (h : pcap_pkthdr) (pkt : list Z)
    (l2_len frame_len direct : Z) : option zmq_output_t :=
  let record_len := u16 (frame_len + MPLS_HDR_LEN) in
  let sec := ts_sec h in
  let o := if pkts_num (pkts_buf o) =? 0 then set_buf o (set_first (pkts_buf o) sec) else o in
  let p := pkts_buf o in
  let is_pkt_num_exceeded := ZMQ_PKTS_FLUSH_MAX_NUM <=? pkts_num p in
  let is_time_diff_exceeded :=
    negb (first_pktsec p =? 0) && (first_pktsec p + ZMQ_PKTS_FLUSH_MAX_DUR_SEC <? sec) in
  let is_buffer_full :=
    ZMQ_MAX_BATCH_BUF_SIZE <? batch_bufpos p + ZMQ_PKT_DATA_LEN_SIZE + PKT_HDR_LEN + record_len in
  o ← (if is_pkt_num_exceeded || is_time_diff_exceeded || is_buffer_full then
         o ← zmq_flush_packet o; Some (set_buf o (set_first (pkts_buf o) sec))
       else Some o);
  append_record o h pkt l2_len frame_len record_len direct.

Definition zmq_send_packet (o : zmq_output_t) (h : pcap_pkthdr) (pkt : list Z) (direct : Z) :
    option (Z * zmq_output_t) :=
  l2_len ← l2_header_len pkt (output_frame_len (caplen h) 0 ZMQ_MAX_FRAME_LEN);
  if l2_len =? 0 then
    let e := error_info o in
    let o := set_error o (ErrorInfo (e_first_pktsec e) (nb_drop_packets e) (nb_drop_batches e)
                            (u64 (nb_too_small_packets e + 1)) (send_error e)) in
    let o := set_common o (set_stats (common o) (count_error_drop (caplen h) (stats (common o)))) in
    o ← zmq_flush_if_stale o (ts_sec h); Some (-1, o)
  else
    let frame_len := zmq_frame_len o h l2_len in
    let '(ok, c) := admit_packet (common o) frame_len (pkt_ts h) direct in
    let o := set_common o c in
    if negb ok then o ← zmq_flush_if_stale o (ts_sec h); Some (-1, o)
    else o ← append_packet o h pkt l2_len frame_len direct; Some (0, o).

Definition zmq_send_heartbeat_packet (o : zmq_output_t) (tv : timeval) : option zmq_output_t :=
  let cap := ZMQ_MAX_BATCH_BUF_SIZE in
  let pkt_len := ETHER_HDR_LEN in
  o ← (if cap <? batch_bufpos (pkts_buf o) + 2 + PKT_HDR_LEN + pkt_len
       then zmq_flush_packet o else Some o);
  let o := if pkts_num (pkts_buf o) =? 0 then set_buf o (set_first (pkts_buf o) (tv_sec tv)) else o in
  let p := pkts_buf o in
  let pos := batch_bufpos p in
  b ← bwrite cap (buf p) pos (le16 (htons pkt_len));
  let pos := pos + 2 in
  b ← bwrite cap b pos
        (le32 (htonl (u32 (tv_sec tv))) ++ le32 (htonl (u32 (tv_usec tv)))
         ++ le32 (htonl pkt_len) ++ le32 (htonl pkt_len));
  let pos := pos + PKT_HDR_LEN in
  b ← bwrite cap b pos (replicate 14 0);
  b ← bwrite cap b (pos + 12) (le16 (htons ZMQ_HEARTBEAT_ETHER_TYPE));
  let pos := pos + ETHER_HDR_LEN in
  o ← zmq_flush_packet
        (set_buf o (PktsBuf (u16 (pkts_num p + 1)) (keybit p) (uuid p) b pos (first_pktsec p)
                      (u16 (heartbeat_num p + 1)) (data_bytes p)));
  Some (set_last o tv).

(** C division truncates towards zero. *)
Definition zmq_heartbeat (o : zmq_output_t) (now : Z) : option zmq_output_t :=
  o ← zmq_flush_if_stale o now;
  if heartbeat_ms o <=? 0 then Some o
  else
    let coarse_elapsed_s := now - tv_sec (last_pkt_tv o) in
    if coarse_elapsed_s * 1000 <? heartbeat_ms o - 1000 then Some o
    else
      let '(now_tv, w) := gettimeofday (env o) in
      let o := set_env o w in
      let elapsed_ms := (tv_sec now_tv - tv_sec (last_pkt_tv o)) * 1000
                        + Z.quot (tv_usec now_tv - tv_usec (last_pkt_tv o)) 1000 in
      if heartbeat_ms o <=? elapsed_ms then zmq_send_heartbeat_packet o now_tv else Some o.

(** The struct a successful construction returns; an invalid UUID fails. *)
Definition zmq_output_new (tag mbps sl hb : Z) (uuid_str : list Z) (s : output_stats_t) (w : W) :
    option zmq_output_t :=
  uuid ← (match uuid_str with [] => Some (replicate 16 0) | _ => uuid_to_bytes uuid_str end);
  let '(tv, w) := gettimeofday w in
  Some (Zmq (common_new s mbps sl) (u16 tag)
          (PktsBuf 0 tag uuid [] BATCH_HDR_LEN 0 0 0) hb tv (ErrorInfo 0 0 0 0 None) w).

(** [zmq_output_destroy] sends the pending batch. *)
Definition zmq_output_destroy (o : zmq_output_t) : option zmq_output_t :=
  if 0 <? pkts_num (pkts_buf o) then zmq_flush_packet o else Some o.
End zmq.

(** Two packets, the second with a VLAN tag, collected and flushed by a
    heartbeat. *)
Definition demo_send (w : list (list Z)) (m : list Z) : option Z * list (list Z) := (None, w ++ [m]).
Definition demo_now (w : list (list Z)) : timeval * list (list Z) := (Timeval 20 0, w).

Definition demo_output : option (zmq_output_t (W := list (list Z))) :=
  zmq_output_new demo_now 418 0 0 1000 [] output_stats_zero [].

Definition demo_frame (vlan : bool) : list Z :=
  [1;2;3;4;5;6; 7;8;9;10;11;12] ++ (if vlan then [129;0;0;5] else []) ++ [8;0; 70;71;72].

Definition demo_run : option (zmq_output_t (W := list (list Z))) :=
  o ← demo_output;
  r1 ← zmq_send_packet demo_send o (Pkthdr 19 3 17 60) (demo_frame false) 1;
  r2 ← zmq_send_packet demo_send r1.2 (Pkthdr 19 4 21 64) (demo_frame true) 2;
  zmq_heartbeat demo_send demo_now (set_last r2.2 (Timeval 18 0)) 20.

Example demo_message :
  (fun o => env o) <$> demo_run = Some
    [[0;2; 0;3; 0;0;1;162] ++ replicate 16 0 ++
     [0;21; 0;0;0;19; 0;0;0;3; 0;0;0;21; 0;0;0;64;
      1;2;3;4;5;6; 7;8;9;10;11;12; 136;71; 136;26;33;255; 70;71;72] ++
     [0;25; 0;0;0;19; 0;0;0;4; 0;0;0;25; 0;0;0;68;
      1;2;3;4;5;6; 7;8;9;10;11;12; 129;0;0;5; 136;71; 144;26;33;255; 70;71;72] ++
     [0;14; 0;0;0;20; 0;0;0;0; 0;0;0;14; 0;0;0;14] ++ replicate 12 0 ++ [255;255]].
Proof. vm_compute. reflexivity. Qed.

Import RecvZmq.

(** ** The batch invariant *)

Definition enc (rs : list zrec) : list Z := concat (encode_rec <$> rs).

Lemma enc_app rs1 rs2 : enc (rs1 ++ rs2) = enc rs1 ++ enc rs2.
Proof. unfold enc. by rewrite fmap_app, concat_app. Qed.

Lemma enc_one r : enc [r] = encode_rec r.
Proof. unfold enc. cbn. by rewrite app_nil_r. Qed.

(** The bytes of the buffer from the batch header on are [l]. *)
Definition filled (b l : list Z) : Prop := bslice b 24 (zlen l) = l.

Lemma filled_put b l d : filled b l -> filled (bput b (24 + zlen l) d) (l ++ d).
Proof.
  unfold filled. intros H. pose proof (zlen_nonneg l). pose proof (zlen_nonneg d).
  rewrite zlen_app, bslice_app by lia. rewrite bslice_bput_out, H by lia.
  by rewrite bslice_bput_in by lia.
Qed.

Lemma filled_overwrite b l x d :
  filled b (l ++ x) -> zlen d = zlen x -> filled (bput b (24 + zlen l) d) (l ++ d).
Proof.
  unfold filled. intros H Hd. pose proof (zlen_nonneg l). pose proof (zlen_nonneg d).
  rewrite zlen_app in *. rewrite bslice_app in * by lia.
  rewrite bslice_bput_out, (bslice_bput_in _ (24 + zlen l)) by lia. f_equal.
  apply (f_equal (take (length l))) in H. rewrite !take_app_le in H.
  - rewrite !firstn_all2 in H; [done|lia|]. rewrite bslice_length. unfold zlen. lia.
  - lia.
  - rewrite bslice_length. unfold zlen. lia.
Qed.

Lemma filled_header b l d : filled b l -> zlen d = 24 -> filled (bput b 0 d) l.
Proof. unfold filled. intros H Hd. by rewrite bslice_bput_out by lia. Qed.

(** A batch buffer that holds records [rs], [hb] of them heartbeats, whose
    captured packets have [bytes] bytes in all. *)
Record batch (p : zmq_pkts_buf_t) (rs : list zrec) (hb bytes : Z) : Prop := Batch {
  bt_buf : bytes_ok (buf p);
  bt_fill : filled (buf p) (enc rs);
  bt_pos : batch_bufpos p = 24 + zlen (enc rs);
  bt_cap : batch_bufpos p <= ZMQ_MAX_BATCH_BUF_SIZE;
  bt_num : pkts_num p = zlen rs;
  bt_recs : Forall sent_rec rs;
  bt_small : 32 * zlen rs <= zlen (enc rs);
  bt_hb : heartbeat_num p = hb /\ 0 <= hb <= zlen rs;
  bt_bytes : data_bytes p = bytes /\ 0 <= bytes <= zlen (enc rs);
  bt_uuid : bytes_ok (uuid p) /\ zlen (uuid p) = 16;
}.

Lemma batch_num_bound p rs hb bytes : batch p rs hb bytes -> 0 <= pkts_num p <= 32767.
Proof.
  intros [? ? Hpos Hcap Hnum ? Hs ? ? ?]. pose proof (zlen_nonneg rs). rewrite Hnum.
  unfold ZMQ_MAX_BATCH_BUF_SIZE in *. lia.
Qed.

Lemma batch_set_first p rs hb bytes t : batch p rs hb bytes -> batch (set_first p t) rs hb bytes.
Proof. by intros []. Qed.

(** ** Counting a batch *)

Lemma count_batch_sent_ok nb n hb s :
  stats_wf s -> u64_ok nb -> u64_ok n -> u64_ok hb ->
  stats_wf (count_batch_sent nb n hb s) /\ counted n nb s (count_batch_sent nb n hb s).
Proof.
  intros [] Hnb Hn Hhb. unfold counted, total_packets, total_bytes, count_batch_sent.
  destruct (bytes_add_eqm (fwd_bytes s) nb) as [? Eb]; [done|done|].
  destruct (packets_add_eqm (fwd_packets s) n) as [? Ep]; [done|done|].
  destruct (packets_add_eqm (heartbeat_packets s) hb) as [? _]; [done|done|].
  split; [by constructor|]. cbn [fwd_bytes fwd_packets direction_drop_bytes direction_drop_packets
        error_drop_bytes error_drop_packets ratelimit_drop_bytes ratelimit_drop_packets].
  split; [rewrite Ep|rewrite Eb]; match goal with |- eqm _ ?a ?b => replace a with b by lia end; done.
Qed.

Lemma count_batch_dropped_ok nb n s :
  stats_wf s -> u64_ok nb -> u64_ok n ->
  stats_wf (count_batch_dropped nb n s) /\ counted n nb s (count_batch_dropped nb n s).
Proof.
  intros [] Hnb Hn. unfold counted, total_packets, total_bytes, count_batch_dropped.
  destruct (bytes_add_eqm (error_drop_bytes s) nb) as [? Eb]; [done|done|].
  destruct (packets_add_eqm (error_drop_packets s) n) as [? Ep]; [done|done|].
  split; [by constructor|]. cbn [fwd_bytes fwd_packets direction_drop_bytes direction_drop_packets
        error_drop_bytes error_drop_packets ratelimit_drop_bytes ratelimit_drop_packets].
  split; [rewrite Ep|rewrite Eb]; match goal with |- eqm _ ?a ?b => replace a with b by lia end; done.
Qed.

Section proofs.
Context {W : Type} (zmq_send : W -> list Z -> option Z * W) (gettimeofday : W -> timeval * W).
Abbreviation zmq_output_t := (zmq_output_t (W := W)).

(** What a flush leaves unchanged. *)
Definition same_cfg (o o' : zmq_output_t) : Prop :=
  slice (common o') = slice (common o) /\ rate_limit_mbps (common o') = rate_limit_mbps (common o) /\
  service_tag o' = service_tag o /\ heartbeat_ms o' = heartbeat_ms o /\
  keybit (pkts_buf o') = keybit (pkts_buf o) /\ uuid (pkts_buf o') = uuid (pkts_buf o) /\
  last_pkt_tv o' = last_pkt_tv o.

(** A flush hands the encoded batch to ZMQ, counts it and empties the
    buffer. *)
Lemma zmq_flush_ok o rs hb bytes :
  common_wf (common o) -> batch (pkts_buf o) rs hb bytes ->
  exists rc w o', zmq_send (env o) (batch_msg (keybit (pkts_buf o)) (uuid (pkts_buf o)) rs) = (rc, w) /\
    zmq_flush_packet zmq_send o = Some o' /\ common_wf (common o') /\ batch (pkts_buf o') [] 0 0 /\
    same_cfg o o' /\ env o' = w /\ first_pktsec (pkts_buf o') = 0 /\
    stats (common o') = (match rc with
                         | None => count_batch_sent bytes (zlen rs - hb) hb (stats (common o))
                         | Some _ => count_batch_dropped bytes (zlen rs - hb) (stats (common o))
                         end) /\
    counted (zlen rs - hb) bytes (stats (common o)) (stats (common o')).
Proof.
  intros Hc Hbt. pose proof (batch_num_bound _ _ _ _ Hbt) as Hnum.
  destruct Hbt as [Hb Hf Hpos Hcap Hn Hrs Hsm [Ehb Hhb] [Ebytes Hby] [Hu Hul]].
  rewrite Hn in Hnum. unfold zmq_flush_packet.
  set (hdr := batch_hdr _ _ _). assert (zlen hdr = 24) as Hh.
  { unfold hdr, batch_hdr. rewrite !zlen_app, Hul. done. }
  assert (bytes_ok hdr) as Hhb' by (unfold hdr, batch_hdr; auto with cprobe).
  pose proof (zlen_nonneg (enc rs)).
  rewrite bwrite_ok by (rewrite ?Hh; unfold ZMQ_MAX_BATCH_BUF_SIZE; lia). obind.
  rewrite bread_ok by lia. obind.
  assert (bslice (bput (buf (pkts_buf o)) 0 hdr) 0 (batch_bufpos (pkts_buf o)) =
    batch_msg (keybit (pkts_buf o)) (uuid (pkts_buf o)) rs) as ->.
  { rewrite Hpos, bslice_app by lia. rewrite bslice_bput_in by lia.
    rewrite Z.add_0_l. rewrite (filled_header _ _ hdr Hf Hh). unfold batch_msg, hdr. by rewrite Hn. }
  destruct (zmq_send (env o) _) as [rc w] eqn:Es.
  rewrite Hn, Ehb, u16_small by lia. rewrite Ebytes.
  assert (u64_ok bytes) as U1 by (unfold u64_ok, ZMQ_MAX_BATCH_BUF_SIZE in *; lia).
  assert (u64_ok (zlen rs - hb)) as U2 by (unfold u64_ok; lia).
  assert (u64_ok hb) as U3 by (unfold u64_ok; lia).
  pose proof Hc as (Hs & _).
  destruct (count_batch_sent_ok bytes (zlen rs - hb) hb (stats (common o)) Hs U1 U2 U3) as [Ws Cs].
  destruct (count_batch_dropped_ok bytes (zlen rs - hb) (stats (common o)) Hs U1 U2) as [Wd Cd].
  assert (forall b0 t, bytes_ok b0 -> batch (PktsBuf 0 (keybit (pkts_buf o)) (uuid (pkts_buf o)) b0 24 t 0 0) [] 0 0) as Hempty.
  { intros b0 t Hb0. split; try done; cbn; lia. }
  exists rc, w. destruct rc as [errno|]; (eexists; split; [done|]; split; [done|]);
    (split; [by apply set_stats_wf|]; split; [apply Hempty; auto with cprobe|]); by split_and!.
Qed.

(** ** The L2 header *)

Lemma l2_loop_ok fuel pkt n et off :
  bytes_ok pkt -> 0 <= n <= zlen pkt -> 14 <= off <= n -> n - off < 4 * Z.of_nat fuel ->
  exists l, l2_loop fuel pkt n et off = Some l /\
    (l = 0 /\ (forall et' off', ~ vlan_tags pkt n et off et' off') \/
     14 <= l <= n /\ exists et', vlan_tags pkt n et off et' l).
Proof.
  intros Hb Hn. revert et off. induction fuel as [|fuel IH]; intros et off Ho Hf; [lia|].
  cbn [l2_loop]. unfold VLAN_HDR_LEN. destruct (is_vlan_ethertype et) eqn:Ev.
  2:{ exists off. split; [done|]. right. split; [lia|]. exists et. by constructor. }
  destruct (Z.ltb_spec n (off + 4)).
  { exists 0. split; [done|]. left. split; [done|]. intros et' off' Ht.
    inversion Ht; subst; [congruence|]. unfold VLAN_HDR_LEN in *. lia. }
  rewrite load16_ok by lia. obind. rewrite ntohs_get16 by done.
  destruct (IH (net16 pkt (off + 2)) (off + 4)) as (l & E & Hl); [lia|lia|].
  exists l. split; [done|]. destruct Hl as [[-> Hno]|[Hr (et' & Ht)]]; [left|right].
  - split; [done|]. intros et' off' Ht. inversion Ht; subst; [congruence|]. by eapply Hno.
  - split; [done|]. exists et'. by apply vlan_tags_tag; [|unfold VLAN_HDR_LEN; lia|].
Qed.

(** 0, or the length of the Ethernet header and the whole tag stack. *)
Lemma l2_header_len_ok pkt n :
  bytes_ok pkt -> 0 <= n <= zlen pkt ->
  exists l, l2_header_len pkt n = Some l /\
    (l = 0 /\ (14 <= n -> forall et' off', ~ vlan_tags pkt n (net16 pkt 12) 14 et' off') \/
     14 <= l <= n /\ exists et', vlan_tags pkt n (net16 pkt 12) 14 et' l).
Proof.
  intros Hb Hn. unfold l2_header_len, ETHER_HDR_LEN. destruct (Z.ltb_spec n 14).
  { exists 0. split; [done|]. left. split; [done|lia]. }
  rewrite load16_ok by lia. obind. rewrite ntohs_get16 by done.
  destruct (l2_loop_ok (S (Z.to_nat (n / 4))) pkt n (net16 pkt 12) 14 Hb Hn) as (l & E & Hl); [lia|zlia|].
  exists l. split; [done|]. destruct Hl as [[-> Hno]|Hl]; [left|by right]. auto.
Qed.

(** ** Records *)

(** The frame of a record: the MPLS EtherType in place of the innermost one,
    and the tag before the payload. *)
Definition mpls_frame (pkt : list Z) (l2 n direct tag : Z) : list Z :=
  bslice pkt 0 (l2 - 2) ++ [136; 71] ++ le32 (make_mpls_hdr direct tag) ++ bslice pkt l2 (n - l2).

Definition rec_of (h : pcap_pkthdr) (pkt : list Z) (l2 n direct tag : Z) : zrec :=
  ZRec (u32 (ts_sec h)) (u32 (ts_usec h)) (n + 4) (u32 (wirelen h + 4)) (mpls_frame pkt l2 n direct tag).

Lemma mpls_frame_len pkt l2 n d t : 14 <= l2 <= n -> zlen (mpls_frame pkt l2 n d t) = n + 4.
Proof. intros. unfold mpls_frame. rewrite !zlen_app, !bslice_zlen, le32_zlen by lia. change (zlen [136; 71]) with 2. lia. Qed.

Lemma rec_of_ok h pkt l2 n d t :
  bytes_ok pkt -> 14 <= l2 <= n -> n <= 65531 -> sent_rec (rec_of h pkt l2 n d t).
Proof.
  intros Hb Hl Hn. unfold sent_rec, rec_of, rec_ok. cbn [z_sec z_usec z_caplen z_len z_frame].
  rewrite mpls_frame_len by lia. pose proof (u32_range (ts_sec h)). pose proof (u32_range (ts_usec h)).
  pose proof (u32_range (wirelen h + 4)). split; [|done]. split_and!; try lia.
  unfold mpls_frame. apply bytes_ok_app; [auto with cprobe|].
  apply bytes_ok_app; [repeat constructor; vm_compute; congruence|]. auto with cprobe.
Qed.

Lemma eth_mpls pkt : bput (bslice pkt 0 14) 12 [136; 71] = bslice pkt 0 12 ++ [136; 71].
Proof.
  unfold bput. rewrite bslice_bslice by lia. reflexivity.
Qed.

(** The L2 part of a record in the buffer after [l]: both branches write
    [bslice pkt 0 (l2 - 2) ++ [136; 71]]. *)
Lemma write_l2_ok cap b l pkt l2 :
  bytes_ok b -> bytes_ok pkt -> filled b l -> 14 <= l2 <= zlen pkt -> 24 + zlen l + l2 <= cap ->
  exists b',
    (eth ← bread (zlen pkt) pkt 0 ETHER_HDR_LEN;
     b1 ← bwrite cap b (24 + zlen l)
            (if negb (0 <? l2 - ETHER_HDR_LEN) then bput eth 12 (le16 (htons ETHER_TYPE_MPLS)) else eth);
     (if 0 <? l2 - ETHER_HDR_LEN then
        tags ← bread (zlen pkt) pkt ETHER_HDR_LEN (l2 - ETHER_HDR_LEN);
        b2 ← bwrite cap b1 (24 + zlen l + ETHER_HDR_LEN) tags;
        b3 ← bwrite cap b2 (24 + zlen l + ETHER_HDR_LEN + (l2 - ETHER_HDR_LEN) - 2)
               (le16 (htons ETHER_TYPE_MPLS));
        Some (b3, 24 + zlen l + ETHER_HDR_LEN + (l2 - ETHER_HDR_LEN))
      else Some (b1, 24 + zlen l + ETHER_HDR_LEN)))
    = Some (b', 24 + zlen l + l2) /\
    bytes_ok b' /\ filled b' (l ++ bslice pkt 0 (l2 - 2) ++ [136; 71]).
Proof.
  intros Hb Hp Hf Hl Hc. unfold ETHER_HDR_LEN. change (le16 (htons ETHER_TYPE_MPLS)) with [136; 71].
  assert (bytes_ok [136; 71]) as Hm by (repeat constructor; vm_compute; congruence).
  pose proof (zlen_nonneg l). rewrite (bread_ok _ pkt 0) by lia. obind.
  destruct (Z.ltb_spec 0 (l2 - 14)); cbn [negb].
  - rewrite bwrite_ok by (rewrite ?bslice_zlen; lia). obind. rewrite bread_ok by lia. obind.
    rewrite bwrite_ok by (rewrite ?bslice_zlen; lia). obind.
    rewrite bwrite_ok by (change (zlen [136; 71]) with 2; lia). obind.
    eexists. split; [do 2 f_equal; lia|]. split; [auto 10 with cprobe|].
    pose proof (filled_put _ _ (bslice pkt 0 14) Hf) as F1.
    pose proof (filled_put _ _ (bslice pkt 14 (l2 - 14)) F1) as F2.
    rewrite zlen_app, bslice_zlen in F2 by lia. rewrite Z.add_assoc in F2.
    rewrite <- app_assoc, <- bslice_app in F2 by lia.
    replace (14 + (l2 - 14)) with ((l2 - 2) + 2) in F2 by lia.
    rewrite bslice_app, app_assoc in F2 by lia.
    apply filled_overwrite with (d := [136; 71]) in F2; [|by rewrite bslice_zlen by lia].
    rewrite zlen_app, bslice_zlen, <- app_assoc in F2 by lia.
    by replace (24 + zlen l + 14 + (l2 - 14) - 2) with (24 + (zlen l + (l2 - 2))) by lia.
  - assert (l2 = 14) as -> by lia. rewrite eth_mpls.
    rewrite bwrite_ok by (rewrite ?zlen_app, ?bslice_zlen by lia; change (zlen [136; 71]) with 2; lia). obind.
    eexists. split; [done|]. split; [auto 10 with cprobe|]. by apply filled_put.
Qed.

Lemma encode_rec_of h pkt l2 n d t :
  14 <= l2 <= n ->
  encode_rec (rec_of h pkt l2 n d t) =
    (be16 (n + 4) ++ (be32 (u32 (ts_sec h)) ++ be32 (u32 (ts_usec h)) ++ be32 (n + 4)
       ++ be32 (u32 (wirelen h + 4)))) ++ (bslice pkt 0 (l2 - 2) ++ [136; 71])
    ++ le32 (make_mpls_hdr d t) ++ bslice pkt l2 (n - l2).
Proof.
  intros. unfold encode_rec. cbn [rec_of z_sec z_usec z_caplen z_len z_frame].
  rewrite mpls_frame_len by lia. unfold mpls_frame. by rewrite <- !app_assoc.
Qed.

Lemma rec_of_len h pkt l2 n d t : 14 <= l2 <= n -> zlen (encode_rec (rec_of h pkt l2 n d t)) = n + 22.
Proof. intros. rewrite encode_rec_len. cbn [rec_of z_frame]. rewrite mpls_frame_len by lia. lia. Qed.

(** Appending a record to a batch that has room for it. *)
Lemma write_record_ok p rs bytes h pkt l2 n direct tag :
  batch p rs 0 bytes -> bytes_ok pkt -> 14 <= l2 <= n -> n <= 65531 -> n <= zlen pkt ->
  batch_bufpos p + n + 22 <= ZMQ_MAX_BATCH_BUF_SIZE ->
  exists p', write_record p h pkt l2 n (n + 4) direct tag = Some p' /\
    batch p' (rs ++ [rec_of h pkt l2 n direct tag]) 0 (bytes + n) /\
    keybit p' = keybit p /\ uuid p' = uuid p /\ first_pktsec p' = first_pktsec p.
Proof.
  intros Hbt Hpk Hl Hn Hz Hroom. pose proof (batch_num_bound _ _ _ _ Hbt) as Hnum.
  destruct Hbt as [Hb Hf Hpos Hcap Hnm Hrs Hsm [Ehb Hhb] [Eby Hby] Hu].
  unfold write_record. cbv zeta. unfold ZMQ_PKT_DATA_LEN_SIZE, PKT_HDR_LEN, MPLS_HDR_LEN.
  rewrite (le16_htons (n + 4)), !le32_htonl. set (cap := ZMQ_MAX_BATCH_BUF_SIZE) in *.
  set (hd := be32 (u32 (ts_sec h)) ++ _).
  assert (zlen hd = 16) as Hhd by (unfold hd; by rewrite !zlen_app).
  assert (bytes_ok hd) as Hhdb by (unfold hd; auto with cprobe).
  pose proof (zlen_nonneg (enc rs)). rewrite Hpos.
  rewrite (bwrite_ok cap (buf p)) by (rewrite ?be16_zlen; lia). obind.
  rewrite (bwrite_ok cap _ (24 + zlen (enc rs) + 2)) by (rewrite ?Hhd; lia). obind.
  set (b2 := bput _ _ hd).
  assert (filled b2 (enc rs ++ be16 (n + 4) ++ hd)) as F2.
  { pose proof (filled_put _ _ (be16 (n + 4)) Hf) as F1. pose proof (filled_put _ _ hd F1) as F2.
    rewrite zlen_app, be16_zlen, <- app_assoc in F2. rewrite Z.add_assoc in F2. exact F2. }
  assert (bytes_ok b2) as Hb2 by (subst b2; auto with cprobe). clearbody b2.
  set (l0 := enc rs ++ be16 (n + 4) ++ hd) in *.
  assert (zlen l0 = zlen (enc rs) + 18) as Hl0 by (unfold l0; rewrite !zlen_app, be16_zlen, Hhd; lia).
  destruct (write_l2_ok cap b2 l0 pkt l2 Hb2 Hpk F2) as (b3 & E3 & Hb3 & F3); [lia|lia|].
  replace (24 + zlen (enc rs) + 2 + 16) with (24 + zlen l0) by lia.
  destruct (bread (zlen pkt) pkt 0 ETHER_HDR_LEN) as [eth|] eqn:Ee; [|discriminate E3].
  cbn [mbind option_bind] in E3 |- *.
  destruct (bwrite cap b2 (24 + zlen l0) _) as [b2'|]; [|discriminate E3].
  cbn [mbind option_bind] in E3 |- *. rewrite E3. obind.
  rewrite bwrite_ok by (rewrite ?le32_zlen; lia). obind.
  unfold ETHER_HDR_LEN. replace (14 + (l2 - 14)) with l2 by lia.
  rewrite bread_ok by lia. obind. rewrite bwrite_ok by (rewrite ?bslice_zlen; lia). obind.
  eexists. split; [done|]. split; [|done].
  pose proof (filled_put _ _ (le32 (make_mpls_hdr direct tag)) F3) as F4.
  pose proof (filled_put _ _ (bslice pkt l2 (n - l2)) F4) as F5.
  assert (zlen (bslice pkt 0 (l2 - 2) ++ [136; 71]) = l2) as Hlz
    by (rewrite zlen_app, bslice_zlen by lia; change (zlen [136; 71]) with 2; lia).
  assert (zlen (l0 ++ bslice pkt 0 (l2 - 2) ++ [136; 71]) = zlen l0 + l2) as L1 by (rewrite zlen_app, Hlz; lia).
  rewrite (zlen_app (l0 ++ _) (le32 _)), le32_zlen, L1 in F5.
  pose proof (rec_of_len h pkt l2 n direct tag Hl) as Hrl.
  assert (zlen (enc (rs ++ [rec_of h pkt l2 n direct tag])) = zlen (enc rs) + n + 22) as Hel
    by (rewrite enc_app, enc_one, zlen_app, Hrl; lia).
  assert (zlen (rs ++ [rec_of h pkt l2 n direct tag]) = zlen rs + 1) as Hrn by (rewrite zlen_app; done).
  split; cbn [pkts_num keybit uuid buf batch_bufpos first_pktsec heartbeat_num data_bytes].
  - auto 10 with cprobe.
  - rewrite enc_app, enc_one, encode_rec_of by lia. fold hd.
    rewrite <- !app_assoc. unfold l0 in F5. rewrite <- !app_assoc in F5.
    replace (24 + zlen l0 + l2 + 4) with (24 + (zlen l0 + l2 + 4)) by lia.
    replace (24 + zlen l0 + l2) with (24 + (zlen l0 + l2)) by lia. exact F5.
  - rewrite Hel. lia.
  - lia.
  - rewrite Hrn, Hnm. apply u16_small. lia.
  - apply Forall_app. split; [done|]. constructor; [|constructor]. apply rec_of_ok; (done || lia).
  - rewrite Hel, Hrn. lia.
  - rewrite Hrn. split; [done|lia].
  - rewrite Hel, Eby. split; [apply u32_small; unfold cap, ZMQ_MAX_BATCH_BUF_SIZE in *; lia|lia].
  - done.
Qed.

(** ** Sending *)

Definition counted_batch (rc : option Z) (rs : list zrec) (hb bytes : Z) (s : output_stats_t) : output_stats_t :=
  match rc with
  | None => count_batch_sent bytes (zlen rs - hb) hb s
  | Some _ => count_batch_dropped bytes (zlen rs - hb) s
  end.

(** The output [o'] holds [rs'] after [o] held [rs]: nothing was sent and the
    counters are those of [o], or [rs] went to ZMQ as one message and was
    counted by its answer. *)
Inductive advanced (o : zmq_output_t) (rs : list zrec) (bytes : Z) (new : list zrec) (n : Z) (o' : zmq_output_t) :
    Prop :=
| adv_kept :
    batch (pkts_buf o') (rs ++ new) 0 (bytes + n) -> env o' = env o ->
    stats (common o') = stats (common o) -> advanced o rs bytes new n o'
| adv_flushed rc w :
    zmq_send (env o) (batch_msg (keybit (pkts_buf o)) (uuid (pkts_buf o)) rs) = (rc, w) ->
    batch (pkts_buf o') new 0 n -> env o' = w ->
    stats (common o') = counted_batch rc rs 0 bytes (stats (common o)) ->
    counted (zlen rs) bytes (stats (common o)) (stats (common o')) ->
    advanced o rs bytes new n o'.

(** Messages that leave one after another: the answer of ZMQ, the records, how
    many of them are heartbeats, and the bytes counted. *)
Fixpoint flushed (k : Z) (u : list Z) (fs : list (option Z * list zrec * Z * Z)) (w : W) (s : output_stats_t) (w' : W)
    (s' : output_stats_t) : Prop :=
  match fs with
  | [] => w' = w /\ s' = s
  | (rc, rs, hb, bytes) :: fs =>
      exists w1, zmq_send w (batch_msg k u rs) = (rc, w1) /\ flushed k u fs w1 (counted_batch rc rs hb bytes s) w' s'
  end.

(** The counters of what was sent. *)
Definition same_fwd (s s' : output_stats_t) : Prop :=
  fwd_packets s' = fwd_packets s /\ heartbeat_packets s' = heartbeat_packets s.

Lemma admit_refused c n ts d c' : admit_packet c n ts d = (false, c') -> same_fwd (stats c) (stats c').
Proof.
  unfold admit_packet. destruct (d =? _); [by intros [= <-]|]. destruct (0 <? _); [|done].
  destruct (token_bucket_consume _ _ _) as [[] tb]; by intros [= <-].
Qed.

(** What sends and heartbeats keep. *)
Definition kept_cfg (o o' : zmq_output_t) : Prop :=
  slice (common o') = slice (common o) /\ service_tag o' = service_tag o /\
  heartbeat_ms o' = heartbeat_ms o /\
  keybit (pkts_buf o') = keybit (pkts_buf o) /\ uuid (pkts_buf o') = uuid (pkts_buf o).

Lemma same_kept o o' : same_cfg o o' -> kept_cfg o o'.
Proof. intros (?&?&?&?&?&?&?). by split_and!. Qed.

(** A buffer that was just emptied has room for any record. *)
Lemma empty_room (p : zmq_pkts_buf_t) hb by' : batch p [] hb by' -> batch_bufpos p = 24.
Proof. intros [_ _ Hp _ _ _ _ _ _ _]. by rewrite Hp. Qed.

Lemma flush_if_stale_ok o rs bytes now :
  common_wf (common o) -> batch (pkts_buf o) rs 0 bytes ->
  exists o', zmq_flush_if_stale zmq_send o now = Some o' /\ common_wf (common o') /\ same_cfg o o' /\
    advanced o rs bytes [] 0 o'.
Proof.
  intros Hc Hb. unfold zmq_flush_if_stale. bcase.
  2:{ exists o. split_and!; try done. apply adv_kept; try done. by rewrite app_nil_r, Z.add_0_r. }
  destruct (zmq_flush_ok o rs 0 bytes Hc Hb) as (rc & w & o' & Es & Ef & Hc' & Hb' & Hcfg & Ew & _ & Est & Hct).
  exists o'. split_and!; try done. rewrite Z.sub_0_r in Hct.
  by apply (adv_flushed o rs bytes [] 0 o' rc w).
Qed.

Lemma append_record_ok (o : zmq_output_t) rs bytes h pkt l2 n direct :
  batch (pkts_buf o) rs 0 bytes -> bytes_ok pkt -> 14 <= l2 <= n -> n <= 65531 -> n <= zlen pkt ->
  batch_bufpos (pkts_buf o) + n + 22 <= ZMQ_MAX_BATCH_BUF_SIZE ->
  exists o', append_record o h pkt l2 n (n + 4) direct = Some o' /\
    batch (pkts_buf o') (rs ++ [rec_of h pkt l2 n direct (service_tag o)]) 0 (bytes + n) /\
    common o' = common o /\ env o' = env o /\ kept_cfg o o' /\ last_pkt_tv o' = pkt_ts h.
Proof.
  intros Hb Hpk Hl Hn Hz Hroom. unfold append_record. cbv zeta.
  set (p1 := if first_pktsec (pkts_buf o) =? 0 then set_first (pkts_buf o) (ts_sec h) else pkts_buf o).
  assert (batch p1 rs 0 bytes /\ batch_bufpos p1 = batch_bufpos (pkts_buf o) /\
    keybit p1 = keybit (pkts_buf o) /\ uuid p1 = uuid (pkts_buf o)) as (Hb1 & Ep & Ek & Eu).
  { subst p1. destruct (_ =? 0); split_and!; try done. by apply batch_set_first. }
  replace (if first_pktsec (pkts_buf o) =? 0 then _ else o) with (set_buf o p1)
    by (subst p1; destruct (_ =? 0); [done|by destruct o]).
  cbn [set_buf pkts_buf service_tag].
  destruct (write_record_ok p1 rs bytes h pkt l2 n direct (service_tag o)) as (p' & -> & Hb' & Ek' & Eu' & _);
    try done; [lia|]. obind. eexists. split; [done|]. split_and!; try done.
  unfold kept_cfg. cbn. split_and!; congruence.
Qed.

Lemma append_packet_ok o rs bytes h pkt l2 n direct :
  common_wf (common o) -> batch (pkts_buf o) rs 0 bytes -> bytes_ok pkt ->
  14 <= l2 <= n -> n <= 65531 -> n <= zlen pkt ->
  exists o', append_packet zmq_send o h pkt l2 n direct = Some o' /\ common_wf (common o') /\ kept_cfg o o' /\
    advanced o rs bytes [rec_of h pkt l2 n direct (service_tag o)] n o' /\ last_pkt_tv o' = pkt_ts h.
Proof.
  intros Hc Hb Hpk Hl Hn Hz. unfold append_packet. cbv zeta.
  unfold MPLS_HDR_LEN, ZMQ_PKT_DATA_LEN_SIZE, PKT_HDR_LEN. rewrite u16_small by lia.
  set (o1 := if pkts_num (pkts_buf o) =? 0 then _ else o).
  assert (common o1 = common o /\ env o1 = env o /\ service_tag o1 = service_tag o /\
    batch (pkts_buf o1) rs 0 bytes /\ kept_cfg o o1) as (Ec1 & Ew1 & Et1 & Hb1 & Hk1).
  { subst o1. destruct (pkts_num (pkts_buf o) =? 0); split_and!; try done. by apply batch_set_first. }
  clearbody o1. destruct Hk1 as (K1 & K2 & K3 & K4 & K5).
  destruct (_ || _ || _) eqn:E.
  - rewrite <- Ec1 in Hc.
    destruct (zmq_flush_ok o1 rs 0 bytes Hc Hb1)
      as (rc & w & o2 & Es & -> & Hc2 & Hb2 & (F1 & F2 & F3 & F4 & F5 & F6 & F7) & Ew & _ & Est & Hct). obind.
    pose proof (empty_room _ _ _ Hb2) as Hpos2. set (o3 := set_buf o2 _).
    destruct (append_record_ok o3 [] 0 h pkt l2 n direct) as (o' & -> & Hb' & Ec' & Ew' & (Q1 & Q2 & Q3 & Q4 & Q5) & El);
      try done; [by apply batch_set_first|cbn; rewrite Hpos2; unfold ZMQ_MAX_BATCH_BUF_SIZE; lia|].
    cbn in Ec', Ew', Q1, Q2, Q3, Q4, Q5, Hb'. exists o'. split; [done|].
    split; [by rewrite Ec'|]. split; [unfold kept_cfg; split_and!; congruence|]. split; [|done].
    rewrite Z.sub_0_r in Hct. rewrite K4, K5, Ew1 in Es. rewrite Ec1 in Est, Hct.
    apply (adv_flushed _ _ _ _ _ _ rc w); [done|by rewrite F3, Et1 in Hb'|congruence|by rewrite Ec'|by rewrite Ec'].
  - apply orb_false_iff in E as [_ E]. breflect. obind.
    destruct (append_record_ok o1 rs bytes h pkt l2 n direct) as (o' & -> & Hb' & Ec' & Ew' & (Q1 & Q2 & Q3 & Q4 & Q5) & El);
      try done; [lia|].
    exists o'. split; [done|]. split; [by rewrite Ec', Ec1|].
    split; [unfold kept_cfg; split_and!; congruence|]. split; [|done].
    apply adv_kept; [by rewrite Et1 in Hb'|congruence|congruence].
Qed.

(** *** Heartbeats *)

Definition hb_rec (tv : timeval) : zrec :=
  ZRec (u32 (tv_sec tv)) (u32 (tv_usec tv)) 14 14 (replicate 12 0 ++ [255; 255]).

Lemma hb_rec_ok tv : sent_rec (hb_rec tv).
Proof.
  pose proof (u32_range (tv_sec tv)). pose proof (u32_range (tv_usec tv)).
  split; [|done]. split_and!; try (cbn; lia); try done.
  repeat constructor; vm_compute; congruence.
Qed.

Lemma hb_rec_len tv : zlen (encode_rec (hb_rec tv)) = 32.
Proof. by rewrite encode_rec_len. Qed.

(** The heartbeat record in a buffer with room for it. *)
Lemma write_hb_ok b l tv :
  bytes_ok b -> filled b l -> 24 + zlen l + 32 <= ZMQ_MAX_BATCH_BUF_SIZE ->
  exists b',
    (b1 ← bwrite ZMQ_MAX_BATCH_BUF_SIZE b (24 + zlen l) (le16 (htons ETHER_HDR_LEN));
     b2 ← bwrite ZMQ_MAX_BATCH_BUF_SIZE b1 (24 + zlen l + 2)
            (le32 (htonl (u32 (tv_sec tv))) ++ le32 (htonl (u32 (tv_usec tv)))
             ++ le32 (htonl ETHER_HDR_LEN) ++ le32 (htonl ETHER_HDR_LEN));
     b3 ← bwrite ZMQ_MAX_BATCH_BUF_SIZE b2 (24 + zlen l + 2 + PKT_HDR_LEN) (replicate 14 0);
     bwrite ZMQ_MAX_BATCH_BUF_SIZE b3 (24 + zlen l + 2 + PKT_HDR_LEN + 12)
       (le16 (htons ZMQ_HEARTBEAT_ETHER_TYPE))) = Some b' /\
    bytes_ok b' /\ filled b' (l ++ encode_rec (hb_rec tv)).
Proof.
  intros Hb Hf Hroom. pose proof (zlen_nonneg l). unfold PKT_HDR_LEN, ETHER_HDR_LEN.
  change (le16 (htons 14)) with [0; 14]. change (le16 (htons ZMQ_HEARTBEAT_ETHER_TYPE)) with [255; 255].
  rewrite !le32_htonl. set (hd := be32 (u32 (tv_sec tv)) ++ _).
  assert (zlen hd = 16) as Hhd by (unfold hd; by rewrite !zlen_app).
  assert (bytes_ok hd) as Hhdb by (unfold hd; auto with cprobe).
  rewrite (bwrite_ok _ b) by (change (zlen [0; 14]) with 2; lia). obind.
  rewrite (bwrite_ok _ _ _ hd) by (rewrite ?Hhd; lia). obind.
  rewrite (bwrite_ok _ _ _ (replicate 14 0)) by (change (zlen (replicate 14 0)) with 14; lia). obind.
  rewrite (bwrite_ok _ _ _ [255; 255]) by (change (zlen [255; 255]) with 2; lia).
  eexists. split; [done|]. split.
  { repeat apply bytes_ok_bput; try done; repeat constructor; vm_compute; congruence. }
  pose proof (filled_put _ _ [0; 14] Hf) as F1. pose proof (filled_put _ _ hd F1) as F2.
  pose proof (filled_put _ _ (replicate 12 0 ++ [0; 0]) F2) as F3.
  rewrite app_assoc in F3. apply filled_overwrite with (d := [255; 255]) in F3; [|done].
  rewrite !zlen_app, Hhd in F3. change (zlen [0; 14]) with 2 in F3. change (zlen (replicate 12 0)) with 12 in F3.
  change (replicate 12 0 ++ [0; 0]) with (replicate 14 0) in F3.
  unfold encode_rec. cbn [hb_rec z_frame z_sec z_usec z_caplen z_len].
  change (be16 (zlen (replicate 12 0 ++ [255; 255]))) with [0; 14].
  unfold hd in F3 |- *. rewrite <- !app_assoc in F3.
  replace (24 + zlen l + 2 + 16 + 12) with (24 + (zlen l + 2 + 16 + 12)) by lia.
  replace (24 + zlen l + 2 + 16) with (24 + (zlen l + 2 + 16)) by lia.
  replace (24 + zlen l + 2) with (24 + (zlen l + 2)) by lia. exact F3.
Qed.

(** A heartbeat flush sends the pending records and the heartbeat in one
    message. *)
Lemma send_heartbeat_ok o rs bytes tv :
  common_wf (common o) -> batch (pkts_buf o) rs 0 bytes ->
  exists o', zmq_send_heartbeat_packet zmq_send o tv = Some o' /\ common_wf (common o') /\ kept_cfg o o' /\
    batch (pkts_buf o') [] 0 0 /\ counted (zlen rs) bytes (stats (common o)) (stats (common o')) /\
    last_pkt_tv o' = tv /\
    exists fs, flushed (keybit (pkts_buf o)) (uuid (pkts_buf o)) fs (env o) (stats (common o)) (env o') (stats (common o')) /\
      ((exists rc, fs = [(rc, rs ++ [hb_rec tv], 1, bytes)]) \/ exists rc rc', fs = [(rc, rs, 0, bytes); (rc', [hb_rec tv], 1, 0)]).
Proof.
  intros Hc Hb. unfold zmq_send_heartbeat_packet. cbv zeta.
  set (first := if ZMQ_MAX_BATCH_BUF_SIZE <? _ then zmq_flush_packet zmq_send o else Some o).
  assert (exists o1 rs1 by1, first = Some o1 /\ common_wf (common o1) /\ kept_cfg o o1 /\
    batch (pkts_buf o1) rs1 0 by1 /\ batch_bufpos (pkts_buf o1) + 32 <= ZMQ_MAX_BATCH_BUF_SIZE /\
    counted (zlen rs - zlen rs1) (bytes - by1) (stats (common o)) (stats (common o1)) /\
    ((env o1 = env o /\ stats (common o1) = stats (common o) /\ rs1 = rs /\ by1 = bytes) \/
     (rs1 = [] /\ by1 = 0 /\ exists rc, flushed (keybit (pkts_buf o)) (uuid (pkts_buf o)) [(rc, rs, 0, bytes)] (env o) (stats (common o)) (env o1) (stats (common o1)))))
    as (o1 & rs1 & by1 & -> & Hc1 & Hk1 & Hb1 & Hroom & Hct1 & Hfl1).
  { subst first. unfold PKT_HDR_LEN, ETHER_HDR_LEN. bcase.
    - destruct (zmq_flush_ok o rs 0 bytes Hc Hb) as (rc & w & o' & Es & Ef & Hc' & Hb' & Hcfg & Ew & _ & Est & Hct).
      exists o', [], 0. rewrite Z.sub_0_r in Hct. rewrite (empty_room _ _ _ Hb').
      split_and!; try done; [by apply same_kept|change (zlen (@nil zrec)) with 0; by rewrite !Z.sub_0_r|].
      right. split; [done|]. split; [done|]. exists rc, w. by split.
    - exists o, rs, bytes. split_and!; try done; [lia|rewrite !Z.sub_diag; apply counted_refl|]. by left. }
  obind.
  set (p := if pkts_num (pkts_buf o1) =? 0 then set_first (pkts_buf o1) (tv_sec tv) else pkts_buf o1).
  assert (batch p rs1 0 by1 /\ batch_bufpos p = batch_bufpos (pkts_buf o1) /\
    keybit p = keybit (pkts_buf o1) /\ uuid p = uuid (pkts_buf o1)) as (Hb2 & Ep & Ek & Eu).
  { subst p. destruct (_ =? 0); split_and!; try done. by apply batch_set_first. }
  replace (if pkts_num (pkts_buf o1) =? 0 then _ else o1) with (set_buf o1 p)
    by (subst p; destruct (_ =? 0); [done|by destruct o1]).
  cbn [set_buf pkts_buf]. clearbody p. pose proof (batch_num_bound _ _ _ _ Hb2) as Hnum.
  destruct Hb2 as [Q1 Q2 Q3 Q4 Q5 Q6 Q7 [Q8 Q8'] [Q9 Q9'] Q10]. rewrite Ep in Q4.
  destruct (write_hb_ok (buf p) (enc rs1) tv Q1 Q2 ltac:(lia)) as (b' & Eb & Hbb & Hbf). rewrite Q3.
  destruct (bwrite _ (buf p) _ _) as [b1|]; [|discriminate Eb]. cbn [mbind option_bind] in Eb |- *.
  destruct (bwrite _ b1 _ _) as [b2|]; [|discriminate Eb]. cbn [mbind option_bind] in Eb |- *.
  destruct (bwrite _ b2 _ _) as [b3|]; [|discriminate Eb]. cbn [mbind option_bind] in Eb |- *.
  rewrite Eb. obind. rewrite Q8. change (u16 (0 + 1)) with 1.
  match goal with |- context [zmq_flush_packet zmq_send ?x] => set (o2 := x) end.
  assert (zlen (enc (rs1 ++ [hb_rec tv])) = zlen (enc rs1) + 32) as Hel
    by (by rewrite enc_app, enc_one, zlen_app, hb_rec_len).
  assert (zlen (rs1 ++ [hb_rec tv]) = zlen rs1 + 1) as Hrn by (rewrite zlen_app; done).
  assert (batch (pkts_buf o2) (rs1 ++ [hb_rec tv]) 1 by1) as Hb3.
  { subst o2. split; cbn [set_buf pkts_buf pkts_num keybit uuid buf batch_bufpos heartbeat_num data_bytes];
      unfold PKT_HDR_LEN, ETHER_HDR_LEN; rewrite ?Hel, ?Hrn; try done.
    - by rewrite enc_app, enc_one.
    - lia.
    - lia.
    - rewrite Q5. apply u16_small. lia.
    - apply Forall_app. split; [done|]. constructor; [apply hb_rec_ok|constructor].
    - lia.
    - split; [done|]. pose proof (zlen_nonneg rs1). lia.
    - split; [done|]. lia. }
  destruct (zmq_flush_ok o2 (rs1 ++ [hb_rec tv]) 1 by1 Hc1 Hb3)
    as (rc & w & o3 & Es & -> & Hc3 & Hb4 & (F1 & F2 & F3 & F4 & F5 & F6 & F7) & Ew & _ & Est & Hct). obind.
  eexists. split; [done|]. destruct Hk1 as (K1 & K2 & K3 & K4 & K5).
  split; [done|]. split; [unfold kept_cfg; cbn in *; split_and!; congruence|]. split; [done|]. split; [|split; [done|]].
  - cbn [set_last common]. rewrite Hrn in Hct. cbn [common] in Hct.
    replace (zlen rs) with (zlen rs - zlen rs1 + (zlen rs1 + 1 - 1)) by lia.
    replace bytes with (bytes - by1 + by1) by lia. eapply counted_trans; [exact Hct1|exact Hct].
  - cbn [set_last common env] in *. subst o2. cbn [set_buf env pkts_buf keybit uuid common] in *. rewrite Ek, Eu, K4, K5 in Es.
    destruct Hfl1 as [(Ew1 & Es1 & -> & ->)|(-> & -> & rc1 & w1 & Ef1 & Ew1 & Es1)].
    + eexists. split; [|left; by exists rc]. exists w. rewrite <- Ew1, <- Es1. by split.
    + eexists. split; [|right; by exists rc1, rc]. exists w1. split; [done|]. exists w. rewrite <- Ew1, <- Es1. by split.
Qed.

(** ** The interface *)

#[export] Instance zmq_ops : OutputOps zmq_output_t := {
  out_common := common;
  out_frame_len o h pkt :=
    match l2_header_len pkt (output_frame_len (caplen h) 0 ZMQ_MAX_FRAME_LEN) with
    | Some l2_len => if l2_len =? 0 then caplen h else zmq_frame_len o h l2_len
    | None => 0
    end;
  out_pending_packets o := pkts_num (pkts_buf o) - heartbeat_num (pkts_buf o);
  out_pending_bytes o := data_bytes (pkts_buf o);
  out_send := zmq_send_packet zmq_send;
}.

Lemma settled_batch (o o' : zmq_output_t) rs bytes rs' bytes' n b :
  batch (pkts_buf o) rs 0 bytes -> batch (pkts_buf o') rs' 0 bytes' ->
  counted (zlen rs - zlen rs' + n) (bytes - bytes' + b) (stats (common o)) (stats (common o')) ->
  settled n b o o'.
Proof.
  intros [_ _ _ _ Hn _ _ [Hh _] [Hb _] _] [_ _ _ _ Hn' _ _ [Hh' _] [Hb' _] _] [Hp Hbt].
  unfold settled. cbn [out_common zmq_ops out_pending_packets out_pending_bytes].
  rewrite Hn, Hh, Hb, Hn', Hh', Hb', Hp, Hbt.
  split; match goal with |- eqm _ ?x ?y => replace x with y by lia end; done.
Qed.

Lemma advanced_settled (o o' : zmq_output_t) rs bytes new n :
  batch (pkts_buf o) rs 0 bytes -> advanced o rs bytes new n o' -> settled (zlen new) n o o'.
Proof.
  intros Hb [Hb' _ Es|rc w _ Hb' _ _ Hct]; eapply settled_batch; try done.
  - rewrite Es, zlen_app. replace (zlen rs - _ + _) with 0 by lia. replace (bytes - _ + _) with 0 by lia.
    apply counted_refl.
  - by replace (zlen rs - zlen new + zlen new) with (zlen rs) by lia; replace (bytes - n + n) with bytes by lia.
Qed.

Definition zmq_wf (o : zmq_output_t) : Prop :=
  common_wf (common o) /\ exists rs bytes, batch (pkts_buf o) rs 0 bytes.

Lemma advanced_batch (o o' : zmq_output_t) rs bytes new n :
  advanced o rs bytes new n o' -> exists rs' bytes', batch (pkts_buf o') rs' 0 bytes'.
Proof. intros []; eauto. Qed.

(** A send on every branch: the packet is refused and counted (and a stale
    batch flushed), or its record joins the batch. *)
Lemma zmq_send_ok o rs bytes h pkt d :
  common_wf (common o) -> batch (pkts_buf o) rs 0 bytes -> pkt_ok h pkt ->
  exists ret o', zmq_send_packet zmq_send o h pkt d = Some (ret, o') /\ common_wf (common o') /\ kept_cfg o o' /\
    ((ret = -1 /\ exists s e, stats_wf s /\ same_fwd (stats (common o)) s /\ counted 1 (out_frame_len o h pkt) (stats (common o)) s /\
        exists tb, advanced (set_error (set_common o (Common s (rate_limit_mbps (common o)) tb (slice (common o)))) e)
          rs bytes [] 0 o') \/
     (ret = 0 /\ d <> PKT_DIR_UNKNOWN /\ exists l2 et, 14 <= l2 /\
        vlan_tags pkt (Z.min (caplen h) ZMQ_MAX_FRAME_LEN) (net16 pkt 12) 14 et l2 /\
        l2_header_len pkt (output_frame_len (caplen h) 0 ZMQ_MAX_FRAME_LEN) = Some l2 /\
        out_frame_len o h pkt = zmq_frame_len o h l2 /\ l2 <= zmq_frame_len o h l2 <= 65531 /\
        advanced o rs bytes [rec_of h pkt l2 (zmq_frame_len o h l2) d (service_tag o)] (zmq_frame_len o h l2) o' /\
        last_pkt_tv o' = pkt_ts h)).
Proof.
  intros Hc Hb (Hok & Hcl & Hle). unfold zmq_send_packet, out_frame_len, zmq_ops.
  rewrite output_frame_len_spec by (done || vm_compute; congruence). cbn [Z.ltb Z.compare].
  set (m := Z.min (caplen h) ZMQ_MAX_FRAME_LEN).
  assert (0 <= m <= caplen h /\ m <= 65531) as [Hm Hm'] by (unfold m, ZMQ_MAX_FRAME_LEN; lia).
  destruct (l2_header_len_ok pkt m Hok ltac:(lia)) as (l2 & -> & Hl2). obind.
  pose proof Hc as (Hs & Htb & Hsl).
  destruct (Z.eqb_spec l2 0) as [->|Hne].
  - set (o1 := set_common _ _).
    destruct (count_error_drop_ok (caplen h) (stats (common o)) Hs ltac:(unfold u64_ok; lia)) as [Hw1 Hct1].
    destruct (flush_if_stale_ok o1 rs bytes (ts_sec h)) as (o' & -> & Hc' & Hcfg & Hadv); [by apply set_stats_wf|done|].
    obind. eexists _, _. split; [done|]. split; [done|]. split; [by apply (same_kept o1)|]. left.
    split; [done|]. eexists _, _. split; [exact Hw1|]. split; [done|]. split; [done|]. exists (throttle (common o)). exact Hadv.
  - destruct Hl2 as [[-> _]|[Hl2 (et & Hvt)]]; [done|].
    pose proof (frame_len_range (common o) h ZMQ_MAX_FRAME_LEN Hc Hcl ltac:(vm_compute; congruence)) as [Hr1 Hr2].
    unfold ZMQ_MAX_FRAME_LEN in Hr2.
    assert (l2 <= zmq_frame_len o h l2 <= caplen h /\ zmq_frame_len o h l2 <= 65531) as [Hn Hn'].
    { unfold zmq_frame_len. cbv zeta. bcase; unfold ZMQ_MAX_FRAME_LEN in *; lia. }
    set (n := zmq_frame_len o h l2) in *. assert (u64_ok n) as Hu by (unfold u64_ok; lia).
    pose proof (admit_packet_ok (common o) n (pkt_ts h) d Hc Hu) as Ha.
    destruct (admit_packet (common o) n (pkt_ts h) d) as [ok c] eqn:Eadm. destruct Ha as (Hcw & Es1 & Es2 & Hyes & Hno).
    destruct ok; cbn [negb].
    + destruct (Hyes eq_refl) as [Hd Est].
      destruct (append_packet_ok (set_common o c) rs bytes h pkt l2 n d Hcw Hb Hok ltac:(lia) Hn' ltac:(lia))
        as (o' & -> & Hc' & Hk & Hadv & Hlast). obind.
      eexists _, _. split; [done|]. split; [done|].
      split; [destruct Hk as (K1 & K2 & K3 & K4 & K5); unfold kept_cfg; cbn in *; split_and!; congruence|].
      right. split; [done|]. split; [done|]. exists l2, et. split_and!; try done; try lia.
      destruct Hadv as [B1 B2 B3|rc w B1 B2 B3 B4 B5].
      * apply adv_kept; try done. by rewrite B3.
      * eapply adv_flushed; try done; cbn in *; by rewrite <- Est.
    + specialize (Hno eq_refl).
      destruct (flush_if_stale_ok (set_common o c) rs bytes (ts_sec h)) as (o' & -> & Hc' & Hcfg & Hadv); [done|done|].
      obind. eexists _, _. split; [done|]. split; [done|].
      split; [apply same_kept in Hcfg; destruct Hcfg as (K1 & K2 & K3 & K4 & K5); unfold kept_cfg; cbn in *;
        split_and!; congruence|].
      left. split; [done|]. exists (stats c), (error_info o). split; [apply Hcw|]. split; [by eapply admit_refused|]. split; [done|].
      exists (throttle c). destruct c as [cs cm ct csl]. cbn in Es1, Es2. subst. destruct o. exact Hadv.
Qed.

#[export, refine] Instance zmq_laws : OutputLaws zmq_output_t := { out_wf := zmq_wf }.
Proof.
  intros o h pkt d [Hc (rs & bytes & Hb)] Hp Hd.
  destruct (zmq_send_ok o rs bytes h pkt d Hc Hb Hp) as (ret & o' & E & Hc' & (K1 & K2 & K3 & K4 & K5) & Hcase).
  exists ret, o'. split; [done|].
  assert (forall h' pkt', out_frame_len o' h' pkt' = out_frame_len o h' pkt') as Hfl.
  { intros h' pkt'. cbn. unfold zmq_frame_len. by rewrite K1. }
  destruct Hcase as [(-> & s & e & Hws & _ & Hct & tb & Hadv)|(-> & _ & l2 & et & _ & _ & _ & Efl & _ & Hadv & _)].
  - split; [split; [done|by eapply advanced_batch]|]. split; [done|].
    set (o1 := set_error _ _) in Hadv.
    assert (settled 1 (out_frame_len o h pkt) o o1) as S1 by (by apply settled_now).
    pose proof (advanced_settled o1 o' rs bytes [] 0 Hb Hadv) as S2.
    pose proof (settled_trans _ _ _ _ _ _ _ S1 S2) as S. change (1 + zlen (@nil zrec)) with 1 in S.
    by rewrite Z.add_0_r in S.
  - split; [split; [done|by eapply advanced_batch]|]. split; [done|]. rewrite Efl.
    exact (advanced_settled o o' rs bytes _ _ Hb Hadv).
Defined.

Lemma zmq_new_wf tag mbps sl hb us s w o :
  stats_wf s -> sl < 2147483648 ->
  zmq_output_new gettimeofday tag mbps sl hb us s w = Some o ->
  common_wf (common o) /\ batch (pkts_buf o) [] 0 0.
Proof.
  intros Hs Hsl. unfold zmq_output_new.
  destruct (match us with [] => _ | _ => _ end) as [u|] eqn:Eu; [|done]. obind.
  destruct (gettimeofday w) as [tv w']. intros [= <-]. split; [by apply common_new_wf|].
  assert (bytes_ok u /\ zlen u = 16) as [Hu1 Hu2].
  { destruct us as [|c us].
    - injection Eu as <-. split; [repeat constructor; vm_compute; congruence|done].
    - by eapply uuid_to_bytes_ok. }
  split; cbn; try done; try lia. constructor.
Qed.

(** C28: on every branch the ZMQ output stays inside its 1 MiB buffer and keeps
    its batch invariant; an accepted packet becomes the next record of the
    batch (MPLS tag under the innermost of its fully captured VLAN tags), and
    whatever leaves the batch leaves as one message made of exactly the
    records held; a refused packet is counted and adds no record. *)
Theorem zmq_send_correct o rs bytes h pkt d :
  common_wf (common o) -> batch (pkts_buf o) rs 0 bytes -> pkt_ok h pkt ->
  exists ret o', zmq_send_packet zmq_send o h pkt d = Some (ret, o') /\ common_wf (common o') /\
    ((ret = -1 /\ exists o1, counted 1 (out_frame_len o h pkt) (stats (common o)) (stats (common o1)) /\
        pkts_buf o1 = pkts_buf o /\ env o1 = env o /\ advanced o1 rs bytes [] 0 o') \/
     (ret = 0 /\ d <> PKT_DIR_UNKNOWN /\ exists l2 et, 14 <= l2 /\
        vlan_tags pkt (Z.min (caplen h) ZMQ_MAX_FRAME_LEN) (net16 pkt 12) 14 et l2 /\
        l2 <= zmq_frame_len o h l2 <= 65531 /\
        advanced o rs bytes [rec_of h pkt l2 (zmq_frame_len o h l2) d (service_tag o)]
          (zmq_frame_len o h l2) o')).
Proof.
  intros Hc Hb Hp. destruct (zmq_send_ok o rs bytes h pkt d Hc Hb Hp) as (ret & o' & E & Hc' & _ & Hcase).
  exists ret, o'. split; [done|]. split; [done|].
  destruct Hcase as [(-> & s & e & Hws & _ & Hct & tb & Hadv)|(-> & Hd & l2 & et & H14 & Hvt & _ & _ & Hn & Hadv & _)].
  - left. split; [done|]. eexists. by split_and!; [|..|exact Hadv].
  - right. split_and!; try done. by exists l2, et.
Qed.

(** the message a flush hands to ZMQ is decoded by the receiver to the
    records of the batch, in order; the batch is counted forwarded when ZMQ
    takes it and as an error drop when it does not, heartbeats excluded, and
    the buffer is empty afterwards. *)
Theorem zmq_flush_delivers {D} (pcap_dump : D -> pcap_pkthdr -> list Z -> D) dmp o rs hb bytes :
  common_wf (common o) -> batch (pkts_buf o) rs hb bytes ->
  exists msg rc w o', zmq_send (env o) msg = (rc, w) /\ zmq_flush_packet zmq_send o = Some o' /\
    handle_zmq_msg pcap_dump msg (Some dmp) = Some (0, Some (foldl (dump_rec pcap_dump) dmp rs)) /\
    stats (common o') = counted_batch rc rs hb bytes (stats (common o)) /\
    batch (pkts_buf o') [] 0 0 /\ env o' = w.
Proof.
  intros Hc Hb.
  destruct (zmq_flush_ok o rs hb bytes Hc Hb) as (rc & w & o' & Es & Ef & _ & Hb' & _ & Ew & _ & Est & _).
  pose proof (batch_num_bound _ _ _ _ Hb) as Hn. destruct Hb as [_ _ _ _ Hnm Hrs _ _ _ [Hu Hul]].
  rewrite Hnm in Hn. eexists _, rc, w, o'. split; [exact Es|]. split; [done|].
  split; [apply handle_batch_msg; (done || lia)|]. by split_and!.
Qed.

Lemma zmq_heartbeat_ok o now :
  zmq_wf o -> exists o', zmq_heartbeat zmq_send gettimeofday o now = Some o' /\ zmq_wf o' /\
    slice (common o') = slice (common o) /\ settled 0 0 o o'.
Proof.
  intros [Hc (rs & bytes & Hb)]. unfold zmq_heartbeat.
  destruct (flush_if_stale_ok o rs bytes now Hc Hb) as (o1 & -> & Hc1 & [Hcfg _] & Hadv). obind.
  pose proof (advanced_settled o o1 rs bytes [] 0 Hb Hadv) as S1. change (zlen (@nil zrec)) with 0 in S1.
  destruct (advanced_batch _ _ _ _ _ _ Hadv) as (rs1 & by1 & Hb1).
  assert (exists o', Some o1 = Some o' /\ zmq_wf o' /\ slice (common o') = slice (common o) /\ settled 0 0 o o')
    as Hsame.
  { exists o1. split; [done|]. split; [by split; eauto|done]. }
  bcase; [done|]. bcase; [done|]. destruct (gettimeofday (env o1)) as [tv w].
  set (o2 := set_env o1 w). assert (settled 0 0 o o2) as S2 by exact S1. cbv zeta. bcase.
  2:{ exists o2. split; [done|]. split; [by split; eauto|done]. }
  destruct (send_heartbeat_ok o2 rs1 by1 tv Hc1 Hb1) as (o3 & -> & Hc3 & [Hk _] & Hb3 & Hct & _).
  exists o3. split; [done|]. split; [by split; eauto|]. split; [by rewrite Hk|].
  apply (settled_trans 0 0 0 0 o o2 o3); [done|].
  eapply settled_batch; [exact Hb1|exact Hb3|]. change (zlen (@nil zrec)) with 0.
  by replace (zlen rs1 - 0 + 0) with (zlen rs1) by lia; replace (by1 - 0 + 0) with by1 by lia.
Qed.

(** a heartbeat call never leaves the buffer, keeps the batch invariant,
    and changes no captured-packet total: what it flushes is counted, what it
    does not stays pending. *)
Theorem zmq_heartbeat_settles o now :
  zmq_wf o -> exists o', zmq_heartbeat zmq_send gettimeofday o now = Some o' /\ zmq_wf o' /\ settled 0 0 o o'.
Proof. intros Hwf. destruct (zmq_heartbeat_ok o now Hwf) as (o' & E & Hw & _ & Hs). by exists o'. Qed.
End proofs.

Definition demo_new : zmq_output_t (W := list (list Z)) :=
  Zmq (common_new output_stats_zero 0 0) 418 (PktsBuf 0 418 (replicate 16 0) [] 24 0 0 0) 1000
    (Timeval 20 0) (ErrorInfo 0 0 0 0 None) [].

Lemma demo_new_ok : common_wf (common demo_new) /\ batch (pkts_buf demo_new) [] 0 0.
Proof.
  apply (zmq_new_wf demo_now 418 0 0 1000 [] output_stats_zero []); [exact stats_zero_wf|lia|reflexivity].
Qed.

Lemma zmq_send_correct_witness :
  exists ret o', zmq_send_packet demo_send demo_new (Pkthdr 19 4 21 64) (demo_frame true) 2 = Some (ret, o') /\
    common_wf (common o').
Proof.
  destruct (zmq_send_correct demo_send demo_new [] 0 (Pkthdr 19 4 21 64) (demo_frame true) 2)
    as (ret & o' & E & Hc & _).
  - exact (proj1 demo_new_ok).
  - exact (proj2 demo_new_ok).
  - split; [repeat constructor; vm_compute; congruence|]. cbn. unfold zlen. cbn. lia.
  - exists ret, o'. split; [exact E|exact Hc].
Defined.

Lemma zmq_flush_delivers_witness :
  exists msg w o', demo_send [] msg = (None, w) /\ zmq_flush_packet demo_send demo_new = Some o' /\
    handle_zmq_msg list_dump msg (Some []) = Some (0, Some []).
Proof.
  destruct (zmq_flush_delivers demo_send list_dump [] demo_new [] 0 0 (proj1 demo_new_ok) (proj2 demo_new_ok))
    as (msg & rc & w & o' & Es & Ef & Hd & _).
  exists msg, w, o'. assert (rc = None) as -> by (unfold demo_send in Es; congruence).
  split; [exact Es|]. split; [exact Ef|exact Hd].
Defined.

Lemma zmq_heartbeat_settles_witness :
  exists o', zmq_heartbeat demo_send demo_now demo_new 20 = Some o' /\ zmq_wf o'.
Proof.
  destruct (zmq_heartbeat_settles demo_send demo_now demo_new 20) as (o' & E & Hw & _).
  - split; [exact (proj1 demo_new_ok)|]. exists [], 0. exact (proj2 demo_new_ok).
  - exists o'. split; [exact E|exact Hw].
Defined.
End ZmqOutput.
