(* ===== verification/RingBuffer.v ===== *)
(** * Pipeline buffers (ring_buffer.c, ring_buffer.h)

    The single-producer single-consumer ring between the capture threads'
    side and the pipeline, the byte-budget allocator of its messages, and the
    byte pool.  The ring and the allocator are used concurrently: next to the
    sequential functions there is a step relation whose steps are the atomic
    loads and stores of the code, in any interleaving. *)

From stdpp Require Import prelude list list_numbers relations.
From S2P Require Import Prelude.

(** ** The ring *)

Module SpscRing.
Section ring.
Context {A : Type} (dummy : A).

(** [size] is [length buf]. *)
Record spsc_ring_t := Ring { buf : list A; head : Z; tail : Z }.

Definition size (r : spsc_ring_t) : Z := zlen (buf r).

Definition slot (b : list A) (i : Z) : A := default dummy (b !! Z.to_nat i).
Definition set_slot (b : list A) (i : Z) (x : A) : list A := <[Z.to_nat i := x]> b.

Definition spsc_ring_create (n : Z) : spsc_ring_t := Ring (replicate (Z.to_nat n) dummy) 0 0.

Definition spsc_ring_used (r : spsc_ring_t) : Z :=
  if tail r <=? head r then head r - tail r else size r - tail r + head r.

Definition spsc_ring_push (r : spsc_ring_t) (msg : A) : bool * spsc_ring_t :=
  let next := (head r + 1) mod size r in
  if next =? tail r then (false, r)
  else (true, Ring (set_slot (buf r) (head r) msg) next (tail r)).

Definition spsc_ring_pop (r : spsc_ring_t) : option A * spsc_ring_t :=
  if tail r =? head r then (None, r)
  else (Some (slot (buf r) (tail r)), Ring (buf r) (head r) ((tail r + 1) mod size r)).

(** *** The atomic steps *)

(** Where the producer is inside [spsc_ring_push msg]. *)
Inductive producer :=
| PIdle
| PStart (msg : A)
| PHead (msg : A) (head : Z)
| PTail (msg : A) (head tail : Z)
| PWritten (msg : A) (next : Z).

(** Where the consumer is inside [spsc_ring_pop]. *)
Inductive consumer :=
| CIdle
| CStart
| CHead (head : Z)
| CTail (head tail : Z)
| CRead (x : A) (tail : Z).

(** The shared ring, both threads, and the messages pushed and popped so far
    (in order of the stores that publish and release them). *)
Record state := State {
  ring : spsc_ring_t; prod : producer; cons : consumer; pushed : list A; popped : list A;
}.

Inductive step : state -> state -> Prop :=
| p_call r c pu po msg :
    step (State r PIdle c pu po) (State r (PStart msg) c pu po)
| p_load_head r c pu po msg :
    step (State r (PStart msg) c pu po) (State r (PHead msg (head r)) c pu po)
| p_load_tail r c pu po msg h :
    step (State r (PHead msg h) c pu po) (State r (PTail msg h (tail r)) c pu po)
| p_full r c pu po msg h t :
    (h + 1) mod size r = t ->
    step (State r (PTail msg h t) c pu po) (State r PIdle c pu po)
| p_write r c pu po msg h t :
    (h + 1) mod size r <> t ->
    step (State r (PTail msg h t) c pu po)
      (State (Ring (set_slot (buf r) h msg) (head r) (tail r)) (PWritten msg ((h + 1) mod size r)) c pu po)
| p_store_head r c pu po msg next :
    step (State r (PWritten msg next) c pu po)
      (State (Ring (buf r) next (tail r)) PIdle c (pu ++ [msg]) po)
| c_call r p pu po :
    step (State r p CIdle pu po) (State r p CStart pu po)
| c_load_head r p pu po :
    step (State r p CStart pu po) (State r p (CHead (head r)) pu po)
| c_load_tail r p pu po h :
    step (State r p (CHead h) pu po) (State r p (CTail h (tail r)) pu po)
| c_empty r p pu po h t :
    t = h -> step (State r p (CTail h t) pu po) (State r p CIdle pu po)
| c_read r p pu po h t :
    t <> h -> step (State r p (CTail h t) pu po) (State r p (CRead (slot (buf r) t) t) pu po)
| c_store_tail r p pu po x t :
    step (State r p (CRead x t) pu po)
      (State (Ring (buf r) (head r) ((t + 1) mod size r)) p CIdle pu (po ++ [x])).

Definition init (n : Z) : state := State (spsc_ring_create n) PIdle CIdle [] [].

(** *** The queue in the ring *)

(** [q] is what the ring holds, oldest first. *)
Record holds (r : spsc_ring_t) (q : list A) : Prop := Holds {
  h_size : 0 < size r;
  h_tail : 0 <= tail r < size r;
  h_head : head r = (tail r + zlen q) mod size r;
  h_len : zlen q < size r;
  h_slots : forall i x, q !! i = Some x -> slot (buf r) ((tail r + Z.of_nat i) mod size r) = x;
}.

Lemma slot_set b i j x :
  0 <= i < zlen b -> 0 <= j -> slot (set_slot b i x) j = if j =? i then x else slot b j.
Proof.
  unfold slot, set_slot, zlen. intros Hi Hj. destruct (Z.eqb_spec j i) as [->|Hne].
  - by rewrite list_lookup_insert_eq by lia.
  - by rewrite list_lookup_insert_ne by lia.
Qed.

Lemma size_set r i x h t : size (Ring (set_slot (buf r) i x) h t) = size r.
Proof. unfold size, set_slot, zlen. cbn. by rewrite length_insert. Qed.

(** Two offsets less than a turn apart are the same slot only if equal. *)
Lemma mod_inj n a b : 0 < n -> 0 <= b - a < n -> a mod n = b mod n -> a = b.
Proof.
  intros Hn Hab E.
  assert ((b - a) mod n = 0) as E0 by (rewrite Zminus_mod, E, Z.sub_diag; apply Z.mod_0_l; lia).
  rewrite Z.mod_small in E0 by lia. lia.
Qed.

Lemma add_mod_l n a b : 0 < n -> (a mod n + b) mod n = (a + b) mod n.
Proof. intros. apply Zplus_mod_idemp_l. Qed.

Lemma mod_range n a : 0 < n -> 0 <= a mod n < n.
Proof. intros. by apply Z.mod_pos_bound. Qed.

Lemma holds_create n : 0 < n -> holds (spsc_ring_create n) [].
Proof.
  intros Hn. assert (size (spsc_ring_create n) = n) as Hs
    by (unfold size, spsc_ring_create, zlen; cbn; rewrite length_replicate; lia).
  split; rewrite ?Hs; cbn; (lia || done).
Qed.

(** Writing the slot at [head] does not disturb the queue while it has room. *)
Lemma holds_write r q msg :
  holds r q -> zlen q < size r - 1 ->
  holds (Ring (set_slot (buf r) (head r) msg) (head r) (tail r)) q /\
  slot (set_slot (buf r) (head r) msg) (head r) = msg.
Proof.
  intros [Hs Ht Hh Hl Hq] Hroom. pose proof (zlen_nonneg q). pose proof (mod_range (size r) (tail r + zlen q) Hs) as Hr.
  assert (0 <= head r < zlen (buf r)) as Hi by (unfold size in *; lia). split.
  - split; rewrite ?size_set; cbn [buf head tail]; try done. intros i x Hix.
    pose proof (lookup_lt_Some _ _ _ Hix) as Hlt. pose proof (mod_range (size r) (tail r + Z.of_nat i) Hs).
    rewrite slot_set by lia. destruct (Z.eqb_spec ((tail r + Z.of_nat i) mod size r) (head r)) as [E|]; [|by apply Hq].
    exfalso. rewrite Hh in E. apply mod_inj in E; unfold zlen in *; lia.
  - rewrite slot_set, Z.eqb_refl by lia. done.
Qed.

Lemma holds_advance_head r q msg :
  holds r q -> zlen q < size r - 1 -> slot (buf r) (head r) = msg ->
  holds (Ring (buf r) ((head r + 1) mod size r) (tail r)) (q ++ [msg]).
Proof.
  intros [Hs Ht Hh Hl Hq] Hroom Hm. split; unfold size in *; cbn [buf head tail] in *; try done.
  - rewrite Hh, add_mod_l, zlen_app by done. f_equal. change (zlen [msg]) with 1. lia.
  - rewrite zlen_app. change (zlen [msg]) with 1. lia.
  - intros i x Hix. apply lookup_app_Some in Hix as [Hix|[Hge Hix]]; [by apply Hq|].
    apply list_lookup_singleton_Some in Hix as [Hi <-].
    replace (tail r + Z.of_nat i) with (tail r + zlen q) by (unfold zlen; lia). by rewrite <- Hh.
Qed.

Lemma holds_pop r x q :
  holds r (x :: q) ->
  slot (buf r) (tail r) = x /\ holds (Ring (buf r) (head r) ((tail r + 1) mod size r)) q.
Proof.
  intros [Hs Ht Hh Hl Hq]. split.
  { specialize (Hq 0%nat x eq_refl). rewrite Z.add_0_r, Z.mod_small in Hq by done. done. }
  rewrite zlen_cons in Hl, Hh. split; unfold size in *; cbn [buf head tail] in *; try done.
  - by apply mod_range.
  - rewrite Hh, add_mod_l by done. f_equal. lia.
  - lia.
  - intros i y Hi. rewrite add_mod_l by done.
    replace (tail r + 1 + Z.of_nat i) with (tail r + Z.of_nat (S i)) by lia. by apply Hq.
Qed.

(** The sequential functions implement a bounded queue. *)
Lemma push_spec r q msg :
  holds r q ->
  let '(ok, r') := spsc_ring_push r msg in
  ok = (zlen q <? size r - 1) /\ size r' = size r /\ holds r' (if ok then q ++ [msg] else q).
Proof.
  intros Hr. pose proof Hr as [Hs Ht Hh Hl Hq]. pose proof (zlen_nonneg q). unfold spsc_ring_push. cbv zeta.
  assert ((head r + 1) mod size r = (tail r + (zlen q + 1)) mod size r) as En
    by (rewrite Hh, add_mod_l by done; f_equal; lia).
  destruct (Z.eqb_spec ((head r + 1) mod size r) (tail r)) as [E|Hne].
  - split; [|done]. symmetry. apply Z.ltb_ge. destruct (Z.ltb_spec (zlen q) (size r - 1)); [|done].
    rewrite En in E. rewrite <- (Z.mod_small (tail r) (size r)) in E at 2 by done. symmetry in E.
    apply mod_inj in E; lia.
  - assert (zlen q < size r - 1) as Hroom.
    { destruct (Z.ltb_spec (zlen q) (size r - 1)); [done|]. destruct Hne. rewrite En.
      replace (tail r + (zlen q + 1)) with (tail r + 1 * size r) by lia.
      rewrite Z.mod_add by lia. by apply Z.mod_small. }
    split; [symmetry; by apply Z.ltb_lt|]. split; [by rewrite size_set|].
    destruct (holds_write r q msg Hr Hroom) as [Hw Hsl].
    pose proof (holds_advance_head _ q msg Hw) as Ha. rewrite size_set in Ha. cbn [buf head tail] in Ha. by apply Ha.
Qed.

Lemma pop_spec r q :
  holds r q ->
  match q with
  | [] => spsc_ring_pop r = (None, r)
  | x :: q' => exists r', spsc_ring_pop r = (Some x, r') /\ holds r' q'
  end.
Proof.
  intros Hr. pose proof Hr as [Hs Ht Hh Hl Hq]. unfold spsc_ring_pop. destruct q as [|x q].
  - rewrite Hh, Z.add_0_r, Z.mod_small, Z.eqb_refl by done. done.
  - destruct (holds_pop r x q Hr) as [-> Hp]. rewrite zlen_cons in Hl, Hh. pose proof (zlen_nonneg q).
    destruct (Z.eqb_spec (tail r) (head r)) as [E|]; [|by eauto].
    rewrite Hh in E. rewrite <- (Z.mod_small (tail r) (size r)) in E at 1 by done. apply mod_inj in E; lia.
Qed.

Lemma used_spec r q : holds r q -> spsc_ring_used r = zlen q.
Proof.
  intros [Hs Ht Hh Hl _]. pose proof (zlen_nonneg q). unfold spsc_ring_used. rewrite Hh.
  destruct (Z.ltb_spec (tail r + zlen q) (size r)).
  - rewrite Z.mod_small by lia. bcase; lia.
  - replace (tail r + zlen q) with (tail r + zlen q - size r + 1 * size r) by lia.
    rewrite Z.mod_add, Z.mod_small by lia. bcase; lia.
Qed.

(** *** Every interleaving is FIFO *)

(** What the producer's local copies mean: its [head] is the shared one, and
    its [tail] is a past one, [k] pops ago, with room counted from there. *)
Definition producer_ok (r : spsc_ring_t) (q : list A) (p : producer) : Prop :=
  match p with
  | PIdle | PStart _ => True
  | PHead _ h => h = head r
  | PTail _ h t => h = head r /\ exists k, 0 <= k /\ zlen q + k < size r /\ t = (tail r - k) mod size r
  | PWritten msg next =>
      next = (head r + 1) mod size r /\ zlen q < size r - 1 /\ slot (buf r) (head r) = msg
  end.

(** The consumer's [tail] is the shared one, its [head] a past one, [j]
    messages after [tail]. *)
Definition consumer_ok (r : spsc_ring_t) (q : list A) (c : consumer) : Prop :=
  match c with
  | CIdle | CStart => True
  | CHead h => exists j, 0 <= j <= zlen q /\ h = (tail r + j) mod size r
  | CTail h t => t = tail r /\ exists j, 0 <= j <= zlen q /\ h = (tail r + j) mod size r
  | CRead x t => t = tail r /\ exists q', q = x :: q'
  end.

Definition inv (n : Z) (s : state) : Prop :=
  size (ring s) = n /\
  exists q, holds (ring s) q /\ pushed s = popped s ++ q /\
    producer_ok (ring s) q (prod s) /\ consumer_ok (ring s) q (cons s).

Lemma consumer_ok_snoc r r' q msg c :
  tail r' = tail r -> size r' = size r -> consumer_ok r q c -> consumer_ok r' (q ++ [msg]) c.
Proof.
  intros Et Es. destruct c; cbn; rewrite ?Et, ?Es, ?zlen_app; change (zlen [msg]) with 1; try done.
  - intros (j & ? & ->). exists j. split; [lia|done].
  - intros (-> & j & ? & ->). split; [done|]. exists j. split; [lia|done].
  - intros (-> & q' & ->). split; [done|]. by exists (q' ++ [msg]).
Qed.

(** A pop leaves the producer's view valid: its [tail] is one pop older. *)
Lemma producer_ok_pop r x q p :
  holds r (x :: q) -> producer_ok r (x :: q) p ->
  producer_ok (Ring (buf r) (head r) ((tail r + 1) mod size r)) q p.
Proof.
  intros [Hs _ _ _ _]. unfold producer_ok, size in *. cbn [buf head tail].
  destruct p; rewrite ?zlen_cons; try done.
  - intros (-> & k & Hk & Hl & ->). split; [done|]. exists (k + 1). split; [lia|]. split; [lia|].
    rewrite Zminus_mod_idemp_l. f_equal. lia.
  - intros (-> & Hl & Hm). split; [done|]. split; [lia|done].
Qed.

Lemma ring_step_inv n s s' : step s s' -> inv n s -> inv n s'.
Proof.
  intros Hst [Hn (q & Hh & Hpp & Hp & Hc)].
  destruct Hst; unfold inv; cbn [ring prod cons pushed popped producer_ok consumer_ok] in *.
  - split; [done|]. by exists q.
  - split; [done|]. by exists q.
  - split; [done|]. exists q. split_and!; try done.
    exists 0. pose proof (h_tail _ _ Hh). pose proof (h_len _ _ Hh). split; [lia|]. split; [lia|].
    rewrite Z.sub_0_r. symmetry. by apply Z.mod_small.
  - split; [done|]. by exists q.
  - destruct Hp as (-> & k & Hk & Hl & ->). pose proof Hh as [Hs Ht Hhd Hlen _]. pose proof (zlen_nonneg q).
    assert (zlen q < size r - 1) as Hroom.
    { destruct (Z.ltb_spec (zlen q + k + 1) (size r)); [lia|]. exfalso. apply H.
      rewrite Hhd, add_mod_l by done.
      replace (tail r + zlen q + 1) with (tail r - k + 1 * size r) by lia. by rewrite Z.mod_add by lia. }
    destruct (holds_write r q msg Hh Hroom) as [Hw Hsl]. split; [by rewrite size_set|].
    exists q. split; [done|]. split; [done|]. split.
    + cbn [buf head tail]. by rewrite size_set.
    + destruct c; cbn [consumer_ok tail] in *; rewrite ?size_set; done.
  - destruct Hp as (-> & Hroom & Hm). split; [done|]. exists (q ++ [msg]).
    split; [by apply holds_advance_head|]. split; [by rewrite Hpp, app_assoc|]. split; [done|].
    by eapply consumer_ok_snoc.
  - split; [done|]. by exists q.
  - split; [done|]. exists q. split_and!; try done. exists (zlen q). pose proof (zlen_nonneg q).
    split; [lia|]. by apply h_head.
  - split; [done|]. by exists q.
  - split; [done|]. by exists q.
  - destruct Hc as (-> & j & Hj & ->). split; [done|]. exists q. split_and!; try done.
    destruct q as [|x q].
    { exfalso. apply H. change (zlen (@nil A)) with 0 in Hj. replace j with 0 by lia.
      rewrite Z.add_0_r. symmetry. apply Z.mod_small. by apply (h_tail _ _ Hh). }
    destruct (holds_pop r x q Hh) as [-> _]. by exists q.
  - destruct Hc as (-> & q' & ->). split; [done|]. exists q'.
    split; [by apply (holds_pop r x q' Hh)|]. split; [by rewrite Hpp, <- app_assoc|].
    split; [by apply (producer_ok_pop r x)|done].
Qed.

Lemma ring_reachable_inv n s : 0 < n -> rtc step (init n) s -> inv n s.
Proof.
  intros Hn Hr. assert (inv n (init n)) as H0.
  { split; [unfold size, init, spsc_ring_create, zlen; cbn; rewrite length_replicate; lia|].
    exists []. by split; [apply holds_create|]. }
  revert H0. induction Hr as [|s1 s2 s3 Hst _ IH]; [done|]. intros H0. apply IH. by eapply ring_step_inv.
Qed.

(** C25: in every interleaving of a producer and a consumer the messages popped
    are a prefix of the messages pushed, in order: nothing is lost, invented,
    duplicated or overtaken; and fewer than [n] messages are in flight. *)
Theorem spsc_fifo n s :
  0 < n -> rtc step (init n) s ->
  exists q, pushed s = popped s ++ q /\ zlen q < n /\
    (prod s = PIdle -> cons s = CIdle -> spsc_ring_used (ring s) = zlen q).
Proof.
  intros Hn Hr. destruct (ring_reachable_inv n s Hn Hr) as [Hs (q & Hh & Hpp & _)].
  exists q. split; [done|]. split; [rewrite <- Hs; by apply h_len|]. intros _ _. by apply used_spec.
Qed.

(** *** The sequential functions against a queue *)

Inductive op := Push (msg : A) | Pop.

Definition run_op (r : spsc_ring_t) (o : op) : (bool * option A) * spsc_ring_t :=
  match o with
  | Push msg => let '(ok, r) := spsc_ring_push r msg in ((ok, None), r)
  | Pop => let '(x, r) := spsc_ring_pop r in ((bool_decide (is_Some x), x), r)
  end.

(** The abstract queue of at most [n - 1] messages. *)
Definition queue_op (n : Z) (q : list A) (o : op) : (bool * option A) * list A :=
  match o with
  | Push msg => if zlen q <? n - 1 then ((true, None), q ++ [msg]) else ((false, None), q)
  | Pop => match q with [] => ((false, None), []) | x :: q => ((true, Some x), q) end
  end.

Fixpoint run_all {S} (f : S -> op -> (bool * option A) * S) (s : S) (os : list op) : list (bool * option A) :=
  match os with
  | [] => []
  | o :: os => let '(res, s) := f s o in res :: run_all f s os
  end.

Lemma run_all_ok r q os n :
  holds r q -> size r = n -> run_all run_op r os = run_all (queue_op n) q os.
Proof.
  intros Hh Hn. revert r q Hh Hn. induction os as [|o os IH]; intros r q Hh Hn; [done|].
  cbn [run_all]. destruct o as [msg|]; cbn [run_op queue_op].
  - pose proof (push_spec r q msg Hh) as Hp. destruct (spsc_ring_push r msg) as [ok r'].
    destruct Hp as (-> & Hs & Hh'). rewrite <- Hn. destruct (zlen q <? size r - 1);
      (f_equal; rewrite Hn; apply IH; [done|congruence]).
  - pose proof (pop_spec r q Hh) as Hp. destruct q as [|x q].
    + rewrite Hp. cbn. f_equal. by apply IH.
    + destruct Hp as (r' & E & Hh'). rewrite E. f_equal. apply IH; [done|].
      unfold spsc_ring_pop in E. destruct (_ =? _); [done|]. by injection E as _ <-.
Qed.

(** any sequence of pushes and pops on a ring created with [n] slots
    returns what a FIFO queue bounded by [n - 1] messages returns. *)
Theorem spsc_refines_queue n os :
  0 < n -> run_all run_op (spsc_ring_create n) os = run_all (queue_op n) [] os.
Proof.
  intros Hn. apply run_all_ok; [by apply holds_create|].
  unfold size, spsc_ring_create, zlen; cbn; rewrite length_replicate; lia.
Qed.
End ring.

Lemma spsc_fifo_witness :
  exists s : state (A := Z), pushed s = [7] /\ popped s = [7] /\
    exists q, pushed s = popped s ++ q /\ zlen q < 2.
Proof.
  assert (rtc (step 0) (init 0 2) (State (Ring [7; 0] 1 1) PIdle CIdle [7] [7])) as Hr.
  { eapply rtc_l; [apply (p_call 0 _ CIdle _ _ 7)|]. eapply rtc_l; [apply p_load_head|]. eapply rtc_l; [apply p_load_tail|].
    eapply rtc_l; [apply p_write; vm_compute; congruence|]. eapply rtc_l; [apply p_store_head|].
    eapply rtc_l; [apply c_call|]. eapply rtc_l; [apply c_load_head|]. eapply rtc_l; [apply c_load_tail|].
    eapply rtc_l; [apply c_read; vm_compute; congruence|].
    eapply rtc_l; [apply c_store_tail|]. apply rtc_refl. }
  eexists. split; [|split; [|]]; cycle 2.
  - destruct (spsc_fifo 0 2 _ ltac:(lia) Hr) as (q & E & Hl & _). exists q. split; [exact E|exact Hl].
  - reflexivity.
  - reflexivity.
Defined.

Lemma spsc_refines_queue_witness :
  run_all (run_op 0) (spsc_ring_create 0 3) [Push 1; Push 2; Push 3; Pop; Push 4; Pop; Pop; Pop] =
    [(true, None); (true, None); (false, None); (true, Some 1); (true, None); (true, Some 2);
     (true, Some 4); (false, None)].
Proof. apply (spsc_refines_queue 0 3 [Push 1; Push 2; Push 3; Pop; Push 4; Pop; Pop; Pop]). lia. Defined.
End SpscRing.
