(* ===== verification/Allocator.v ===== *)
(** * Message allocation (ring_buffer.c, ring_buffer.h)

    [SimpleAllocator]: the byte budget the capture threads draw ring messages
    from and the pipeline gives them back to, as functions and as a step
    relation of any number of threads.  [Mempool]: the byte pool, with the
    two ways it goes wrong. *)

From stdpp Require Import prelude list list_numbers relations.
From S2P Require Import Prelude Headers.

(** [sizeof(ring_msg_t)] on the LP64 targets. *)
Definition RING_MSG_LEN : Z := 48.

(** A ring message; [user] is the capture's context pointer, 0 for [NULL]. *)
Inductive ring_msg_t :=
| RingPacket (user direction : Z) (hdr : pcap_pkthdr) (data : list Z)
| RingHeartbeat (user ts : Z).

Definition msg_len (msg : ring_msg_t) : Z :=
  match msg with
  | RingPacket _ _ hdr _ => u64 (RING_MSG_LEN + caplen hdr)
  | RingHeartbeat _ _ => RING_MSG_LEN
  end.

Definition msg_ok (msg : ring_msg_t) : Prop :=
  match msg with
  | RingPacket _ _ hdr _ => 0 <= caplen hdr < 4294967296
  | RingHeartbeat _ _ => True
  end.

Lemma msg_len_range msg : msg_ok msg -> RING_MSG_LEN <= msg_len msg < RING_MSG_LEN + 4294967296.
Proof. destruct msg; cbn; unfold RING_MSG_LEN; [intros; rewrite u64_small|]; lia. Qed.

Module SimpleAllocator.

Record simple_allocator_t := Alloc { capacity : Z; used : Z }.

Definition simple_allocator_create (cap : Z) : simple_allocator_t := Alloc cap 0.

Definition simple_allocator_resize (a : simple_allocator_t) (new_capacity : Z) : simple_allocator_t :=
  Alloc new_capacity (used a).

(** ** The functions, run without interference

    [malloc_ok] is what [malloc] answers. *)

(** The reservation loop: alone, its compare-and-swap succeeds at once. *)
Definition reserve (a : simple_allocator_t) (total : Z) : option simple_allocator_t :=
  if capacity a <? u64 (used a + total) then None
  else Some (Alloc (capacity a) (u64 (used a + total))).

Definition simple_alloc (a : simple_allocator_t) (msg : ring_msg_t) (malloc_ok : bool) :
    option ring_msg_t * simple_allocator_t :=
  match reserve a (msg_len msg) with
  | None => (None, a)
  | Some a =>
      if malloc_ok then (Some msg, a)
      else (None, Alloc (capacity a) (u64 (used a - msg_len msg)))
  end.

(** [None]: the copy reads past [pkt_data]. *)
Definition simple_alloc_packet (a : simple_allocator_t) (header : pcap_pkthdr) (pkt_data : list Z)
    (malloc_ok : bool) : option (option ring_msg_t * simple_allocator_t) :=
  match reserve a (u64 (RING_MSG_LEN + caplen header)) with
  | None => Some (None, a)
  | Some a =>
      if malloc_ok then
        data ← bread (zlen pkt_data) pkt_data 0 (caplen header);
        Some (Some (RingPacket 0 0 header data), a)
      else Some (None, Alloc (capacity a) (u64 (used a - u64 (RING_MSG_LEN + caplen header))))
  end.

Definition simple_alloc_heartbeat (a : simple_allocator_t) (ts : Z) (malloc_ok : bool) :
    option ring_msg_t * simple_allocator_t :=
  match reserve a RING_MSG_LEN with
  | None => (None, a)
  | Some a =>
      if malloc_ok then (Some (RingHeartbeat 0 ts), a)
      else (None, Alloc (capacity a) (u64 (used a - RING_MSG_LEN)))
  end.

Definition simple_msg_free (a : simple_allocator_t) (msg : ring_msg_t) : simple_allocator_t :=
  let len := if used a <? msg_len msg then used a else msg_len msg in
  Alloc (capacity a) (u64 (used a - len)).

(** ** The atomic steps of any number of threads *)

(** Where a thread is: between operations, in an allocation of [msg] (after
    the load of the capacity, in the loop with the value of [used] it
    expects, between the reservation and [malloc]'s answer, before giving
    the reservation back), or in the release of [msg]. *)
Inductive thread :=
| TIdle
| TAlloc (msg : ring_msg_t)
| TLoadedCap (msg : ring_msg_t) (cap : Z)
| TLoop (msg : ring_msg_t) (cap old : Z)
| TReserved (msg : ring_msg_t)
| TNoMemory (msg : ring_msg_t)
| TFree (msg : ring_msg_t)
| TFreeLoaded (msg : ring_msg_t) (len : Z).

(** The allocator, the messages handed out and not yet given to
    [simple_msg_free], and the threads. *)
Record state := State { alloc : simple_allocator_t; live : list ring_msg_t; threads : list thread }.

(** One step of one thread on the allocator and the live messages. *)
Inductive tstep : simple_allocator_t -> list ring_msg_t -> thread ->
    simple_allocator_t -> list ring_msg_t -> thread -> Prop :=
| t_alloc a l msg : msg_ok msg -> tstep a l TIdle a l (TAlloc msg)
| t_load_cap a l msg : tstep a l (TAlloc msg) a l (TLoadedCap msg (capacity a))
| t_load_used a l msg cap : tstep a l (TLoadedCap msg cap) a l (TLoop msg cap (used a))
| t_over a l msg cap old :
    cap < u64 (old + msg_len msg) -> tstep a l (TLoop msg cap old) a l TIdle
| t_cas a l msg cap old :
    u64 (old + msg_len msg) <= cap -> used a = old ->
    tstep a l (TLoop msg cap old) (Alloc (capacity a) (u64 (old + msg_len msg))) l (TReserved msg)
| t_cas_fail a l msg cap old :
    u64 (old + msg_len msg) <= cap ->
    tstep a l (TLoop msg cap old) a l (TLoop msg cap (used a))
| t_malloc a l msg : tstep a l (TReserved msg) a (msg :: l) TIdle
| t_no_memory a l msg : tstep a l (TReserved msg) a l (TNoMemory msg)
| t_give_back a l msg :
    tstep a l (TNoMemory msg) (Alloc (capacity a) (u64 (used a - msg_len msg))) l TIdle
| t_free a l1 l2 msg : tstep a (l1 ++ msg :: l2) TIdle a (l1 ++ l2) (TFree msg)
| t_free_load a l msg :
    tstep a l (TFree msg) a l
      (TFreeLoaded msg (if used a <? msg_len msg then used a else msg_len msg))
| t_free_sub a l msg len :
    tstep a l (TFreeLoaded msg len) (Alloc (capacity a) (u64 (used a - len))) l TIdle.

(** A thread runs, or the capacity is changed to at most [limit]. *)
Inductive step (limit : Z) : state -> state -> Prop :=
| s_thread a l ts i t a' l' t' :
    ts !! i = Some t -> tstep a l t a' l' t' ->
    step limit (State a l ts) (State a' l' (<[i := t']> ts))
| s_resize a l ts c :
    0 <= c <= limit -> step limit (State a l ts) (State (simple_allocator_resize a c) l ts).

Definition init (cap : Z) (n : nat) : state :=
  State (simple_allocator_create cap) [] (replicate n TIdle).

(** ** The budget invariant *)

(** Bytes a thread has reserved for a message that is not live. *)
Definition held (t : thread) : Z :=
  match t with
  | TReserved msg | TNoMemory msg | TFree msg | TFreeLoaded msg _ => msg_len msg
  | _ => 0
  end.

Definition thread_ok (limit : Z) (t : thread) : Prop :=
  match t with
  | TIdle => True
  | TAlloc msg | TReserved msg | TNoMemory msg | TFree msg => msg_ok msg
  | TLoadedCap msg cap => msg_ok msg /\ cap <= limit
  | TLoop msg cap old => msg_ok msg /\ cap <= limit /\ 0 <= old <= limit
  | TFreeLoaded msg len => msg_ok msg /\ len = msg_len msg
  end.

Definition reserved (s : state) : Z := zsum (msg_len <$> live s) + zsum (held <$> threads s).

Record inv (limit : Z) (s : state) : Prop := Inv {
  i_used : used (alloc s) = reserved s;
  i_limit : used (alloc s) <= limit;
  i_cap : capacity (alloc s) <= limit;
  i_live : Forall msg_ok (live s);
  i_threads : Forall (thread_ok limit) (threads s);
}.

Lemma msg_len_nonneg msg : msg_ok msg -> 0 <= msg_len msg.
Proof. intros H. apply msg_len_range in H. unfold RING_MSG_LEN in H. lia. Qed.

Lemma held_nonneg limit t : thread_ok limit t -> 0 <= held t.
Proof. destruct t; cbn; try lia; [..|intros [Hm _]]; by apply msg_len_nonneg. Qed.

Lemma live_nonneg l : Forall msg_ok l -> 0 <= zsum (msg_len <$> l).
Proof. intros H. apply zsum_nonneg, Forall_fmap. eapply Forall_impl; [done|]. apply msg_len_nonneg. Qed.

(** What a thread holds is part of [used]. *)
Lemma held_le limit s i t :
  inv limit s -> threads s !! i = Some t -> 0 <= held t <= used (alloc s).
Proof.
  intros [Eu _ _ Hl Ht] E. split; [eapply held_nonneg, Forall_lookup_1; eauto|].
  rewrite Eu. unfold reserved. pose proof (live_nonneg _ Hl).
  enough (held t <= zsum (held <$> threads s)) by lia.
  eapply zsum_lookup_le; [|done]. eapply Forall_impl; [done|]. apply held_nonneg.
Qed.

Lemma alloc_init_inv limit cap n : 0 <= cap <= limit -> inv limit (init cap n).
Proof.
  intros Hc. split; cbn; [|lia|lia|constructor|].
  - unfold reserved. cbn. by induction n.
  - by apply Forall_replicate.
Qed.

(** The effect of one thread's step on its share of the budget. *)
Lemma tstep_inv limit a l t a' l' t' :
  tstep a l t a' l' t' -> limit < 9223372036854775808 ->
  0 <= held t <= used a -> used a <= limit -> capacity a <= limit -> thread_ok limit t -> Forall msg_ok l ->
  used a' - used a = zsum (msg_len <$> l') - zsum (msg_len <$> l) + held t' - held t /\
  used a' <= limit /\ capacity a' = capacity a /\ thread_ok limit t' /\ Forall msg_ok l'.
Proof.
  intros Hs Hlim Hh Hu Hc Ht Hl. destruct Hs; cbn [held thread_ok capacity used] in Ht, Hh |- *; 
    try (split_and!; try done; lia).
  - destruct Ht as (Hm & Hcap). split_and!; try done; lia.
  - destruct Ht as (Hm & Hcap & Ho). pose proof (msg_len_range msg Hm) as Hr. unfold RING_MSG_LEN in Hr.
    rewrite u64_small in * by lia. split_and!; try done; lia.
  - destruct Ht as (Hm & Hcap & Ho). split_and!; try done; lia.
  - rewrite fmap_cons, zsum_cons. split_and!; try done; [lia|]. by constructor.
  - rewrite u64_small by lia. split_and!; try done; lia.
  - rewrite !fmap_app, !zsum_app, fmap_cons, zsum_cons.
    apply Forall_app in Hl as [Hl1 Hl2]. apply Forall_cons in Hl2 as [Hm Hl2].
    split_and!; try done; [lia|]. by apply Forall_app.
  - destruct (Z.ltb_spec (used a) (msg_len msg)); split_and!; try done; lia.
  - destruct Ht as [Hm ->]. rewrite u64_small by lia. split_and!; try done; lia.
Qed.

Lemma alloc_step_inv limit s s' :
  limit < 9223372036854775808 -> inv limit s -> step limit s s' -> inv limit s'.
Proof.
  intros Hlim Hi Hs. destruct Hs as [a l ts i t a' l' t' E Ht|a l ts c Hc].
  - pose proof (held_le limit _ i t Hi E) as Hh. destruct Hi as [Eu Hu Hcap Hl Hts]. cbn [alloc threads live] in *.
    destruct (tstep_inv limit _ _ _ _ _ _ Ht Hlim Hh Hu Hcap (Forall_lookup_1 _ _ _ _ Hts E) Hl)
      as (Ed & Hu' & Hc' & Ht' & Hl').
    split; cbn [alloc threads live]; [|done|lia|done|by apply Forall_insert].
    unfold reserved in *. cbn [alloc threads live] in *. rewrite (zsum_insert held ts i t t' E). lia.
  - destruct Hi as [Eu Hu Hcap Hl Hts]. split; cbn in *; try done; lia.
Qed.

(** C26: however many threads allocate, fail to allocate and free
    concurrently, and however the capacity is resized below [limit]: the
    bytes in use are exactly those of the messages handed out and of the
    operations under way, they never exceed [limit], the clamp of
    [simple_msg_free] never changes the length it subtracts, and once every
    message is freed and every thread is idle nothing is left in use. *)
Theorem alloc_budget limit cap n s :
  0 <= cap <= limit -> limit < 9223372036854775808 -> rtc (step limit) (init cap n) s ->
  used (alloc s) = reserved s /\ 0 <= used (alloc s) <= limit /\
  (forall i msg len, threads s !! i = Some (TFreeLoaded msg len) -> len = msg_len msg) /\
  (live s = [] -> Forall (eq TIdle) (threads s) -> used (alloc s) = 0).
Proof.
  intros Hc Hlim Hr.
  assert (inv limit s) as Hi.
  { assert (forall s0, inv limit s0 -> rtc (step limit) s0 s -> inv limit s) as H.
    { intros s0 H0 H1. induction H1; [done|]. eauto using alloc_step_inv. }
    eapply H; [|exact Hr]. by apply alloc_init_inv. }
  destruct Hi as [Eu Hu Hcap Hl Hts]. split_and!; try done.
  - rewrite Eu. unfold reserved. pose proof (live_nonneg _ Hl).
    enough (0 <= zsum (held <$> threads s)) by lia.
    apply zsum_nonneg, Forall_fmap. eapply Forall_impl; [done|]. apply held_nonneg.
  - intros i msg len E. apply (Forall_lookup_1 _ _ _ _ Hts E).
  - intros E Hidle. rewrite Eu. unfold reserved. rewrite E. cbn.
    clear - Hidle. induction Hidle as [|t ts <- Hidle IH]; [done|]. exact IH.
Qed.

(** ** The functions are runs of one thread *)

Lemma run_one limit a l ts i t a' l' t' :
  ts !! i = Some t -> tstep a l t a' l' t' ->
  rtc (step limit) (State a l ts) (State a' l' (<[i := t']> ts)).
Proof. intros. eapply rtc_once, s_thread; eauto. Qed.

Inductive tsteps : simple_allocator_t -> list ring_msg_t -> thread ->
    simple_allocator_t -> list ring_msg_t -> thread -> Prop :=
| tsteps_nil a l t : tsteps a l t a l t
| tsteps_cons a l t a1 l1 t1 a2 l2 t2 :
    tstep a l t a1 l1 t1 -> tsteps a1 l1 t1 a2 l2 t2 -> tsteps a l t a2 l2 t2.

Lemma tsteps_run limit a l t a' l' t' :
  tsteps a l t a' l' t' -> forall ts i, ts !! i = Some t ->
  rtc (step limit) (State a l ts) (State a' l' (<[i := t']> ts)).
Proof.
  induction 1 as [a l t|a l t a1 l1 t1 a2 l2 t2 Hs _ IH]; intros ts i E.
  { by rewrite list_insert_id. }
  etrans; [eapply run_one; eauto|].
  replace (<[i:=t2]> ts) with (<[i:=t2]> (<[i:=t1]> ts)) by apply list_insert_insert_eq.
  apply IH. apply list_lookup_insert_eq. by eapply lookup_lt_Some.
Qed.

Lemma alloc_tsteps a l msg malloc_ok :
  msg_ok msg ->
  let '(r, a') := simple_alloc a msg malloc_ok in
  tsteps a l TIdle a' (match r with Some m => m :: l | None => l end) TIdle.
Proof.
  intros Hm. unfold simple_alloc, reserve.
  destruct (Z.ltb_spec (capacity a) (u64 (used a + msg_len msg))) as [Hlt|Hge]; [|destruct malloc_ok];
    (eapply tsteps_cons; [by apply t_alloc|]; eapply tsteps_cons; [apply t_load_cap|];
     eapply tsteps_cons; [apply t_load_used|]).
  - eapply tsteps_cons; [by apply t_over|]. constructor.
  - eapply tsteps_cons; [by apply t_cas|]. eapply tsteps_cons; [apply t_malloc|]. constructor.
  - eapply tsteps_cons; [by apply t_cas|]. eapply tsteps_cons; [apply t_no_memory|].
    eapply tsteps_cons; [apply t_give_back|]. constructor.
Qed.

Lemma simple_alloc_heartbeat_eq a ts ok :
  simple_alloc_heartbeat a ts ok = simple_alloc a (RingHeartbeat 0 ts) ok.
Proof. reflexivity. Qed.

Lemma simple_alloc_packet_eq a h pkt ok :
  pkt_ok h pkt ->
  simple_alloc_packet a h pkt ok = Some (simple_alloc a (RingPacket 0 0 h (bslice pkt 0 (caplen h))) ok).
Proof.
  intros (_ & Hc & Hl). unfold simple_alloc_packet, simple_alloc. cbn [msg_len].
  destruct (reserve a _); [|done]. destruct ok; [|done].
  rewrite bread_ok by lia. done.
Qed.

(** an uninterrupted allocation of a packet, and an uninterrupted
    release, is a run of the thread that makes the call: the allocation never
    reads past the packet, answers the message with the packet's header and
    its [caplen] bytes, and charges it, or answers nothing and charges
    nothing. *)
Theorem simple_alloc_packet_correct limit a h pkt ok l ts i :
  pkt_ok h pkt -> ts !! i = Some TIdle ->
  exists r a', simple_alloc_packet a h pkt ok = Some (r, a') /\
    rtc (step limit) (State a l ts) (State a' (match r with Some m => m :: l | None => l end) ts) /\
    match r with
    | Some m => m = RingPacket 0 0 h (bslice pkt 0 (caplen h)) /\
        used a' = u64 (used a + msg_len m) /\ used a' <= capacity a
    | None => 0 <= used a < 18446744073709551616 -> a' = a
    end.
Proof.
  intros Hp Hi. rewrite simple_alloc_packet_eq by done.
  set (msg := RingPacket 0 0 h (bslice pkt 0 (caplen h))).
  assert (msg_ok msg) as Hm by apply Hp.
  pose proof (alloc_tsteps a l msg ok Hm) as Hs.
  destruct (simple_alloc a msg ok) as [r a'] eqn:E. exists r, a'. split; [done|]. split.
  { pose proof (tsteps_run limit _ _ _ _ _ _ Hs ts i Hi) as H. by rewrite list_insert_id in H. }
  unfold simple_alloc, reserve in E. destruct (Z.ltb_spec (capacity a) (u64 (used a + msg_len msg))).
  - by injection E as <- <-.
  - destruct ok; injection E as <- <-; [by split_and!|]. intros Hu. destruct a as [c u]. cbn [capacity used] in *.
    f_equal. change (u64 (RING_MSG_LEN + caplen h)) with (msg_len msg). generalize (msg_len msg). intros n.
    unfold u64. rewrite Zminus_mod_idemp_l. replace (u + n - n) with u by lia. by apply Z.mod_small.
Qed.

Lemma alloc_budget_witness :
  exists s : state, used (alloc s) = 52 /\ live s = [RingPacket 0 0 (Pkthdr 1 2 4 60) [1; 2; 3; 4]] /\
    0 <= used (alloc s) <= 100.
Proof.
  pose (h := Pkthdr 1 2 4 60).
  assert (rtc (step 100) (init 100 2)
    (State (Alloc 100 52) [RingPacket 0 0 h [1; 2; 3; 4]] [TIdle; TIdle])) as Hr.
  { change [TIdle; TIdle] with (<[0%nat := TIdle]> [TIdle; TIdle]).
    apply (tsteps_run 100 (Alloc 100 0) [] TIdle (Alloc 100 52) [RingPacket 0 0 h [1; 2; 3; 4]] TIdle); [|done].
    assert (msg_ok (RingPacket 0 0 h [1; 2; 3; 4])) as Hm by (cbn; lia).
    exact (alloc_tsteps (Alloc 100 0) [] (RingPacket 0 0 h [1; 2; 3; 4]) true Hm). }
  exists (State (Alloc 100 52) [RingPacket 0 0 h [1; 2; 3; 4]] [TIdle; TIdle]).
  split; [reflexivity|]. split; [reflexivity|].
  exact (proj1 (proj2 (alloc_budget 100 100 2 _ ltac:(lia) ltac:(lia) Hr))).
Defined.

Lemma simple_alloc_packet_correct_witness :
  exists r a', simple_alloc_packet (Alloc 100 40) (Pkthdr 1 2 4 60) [1; 2; 3; 4] true = Some (r, a') /\
    r = Some (RingPacket 0 0 (Pkthdr 1 2 4 60) [1; 2; 3; 4]) /\ used a' = 92.
Proof.
  assert (pkt_ok (Pkthdr 1 2 4 60) [1; 2; 3; 4]) as Hp.
  { split; [repeat constructor; lia|]. split; cbn; [|unfold zlen; cbn]; lia. }
  destruct (simple_alloc_packet_correct 100 (Alloc 100 40) _ _ true [] [TIdle] 0 Hp eq_refl)
    as (r & a' & E & _ & _).
  exists r, a'. split; [exact E|]. vm_compute in E. injection E as <- <-. split; reflexivity.
Defined.
End SimpleAllocator.

Module Mempool.

(** The offsets; the bytes of the pool are not needed. *)
Record mempool_t := Pool { capacity : Z; head : Z; tail : Z; limit : Z }.

Definition mempool_create (cap : Z) : mempool_t := Pool cap 0 0 cap.

(** The offset of the block, or [None] for [NULL]. *)
Definition mempool_alloc (mp : mempool_t) (size : Z) : option Z * mempool_t :=
  let '(Pool cap head tail limit) := mp in
  if tail <=? head then
    if size <=? cap - head then
      let new_head := head + size in
      let new_head := if new_head =? cap then 0 else new_head in
      (Some head, Pool cap new_head tail limit)
    else if tail <=? size then (None, mp)
    else (Some 0, Pool cap size tail head)
  else if u64 (tail - head - 1) <? size then (None, mp)
  else (Some head, Pool cap (head + size) tail limit).

(** [None] is a failed assertion. *)
Definition mempool_free (mp : mempool_t) (size : Z) : option mempool_t :=
  let '(Pool cap head tail limit) := mp in
  let new_tail := tail + size in
  if negb (limit =? cap) then
    if limit <=? new_tail then
      if new_tail =? limit then Some (Pool cap head 0 cap) else None
    else Some (Pool cap head new_tail limit)
  else if cap <=? new_tail then
    if new_tail =? cap then Some (Pool cap head 0 limit) else None
  else Some (Pool cap head new_tail limit).

(** A pool used by turns: the blocks out, oldest first. *)
Inductive op := Alloc (size : Z) | Free.

Definition run_op (s : mempool_t * list (Z * Z)) (o : op) : option (mempool_t * list (Z * Z)) :=
  let '(mp, blocks) := s in
  match o with
  | Alloc size =>
      match mempool_alloc mp size with
      | (Some off, mp) => Some (mp, blocks ++ [(off, size)])
      | (None, mp) => Some (mp, blocks)
      end
  | Free =>
      match blocks with
      | [] => Some s
      | (_, size) :: blocks => mp ← mempool_free mp size; Some (mp, blocks)
      end
  end.

Fixpoint run (s : mempool_t * list (Z * Z)) (os : list op) : option (mempool_t * list (Z * Z)) :=
  match os with
  | [] => Some s
  | o :: os => s ← run_op s o; run s os
  end.

(** a pool filled to the last byte from offset 0 has [head] equal to
    [tail], which reads as empty: the next allocation hands out bytes that
    are still in use. *)
Theorem mempool_full_reads_empty :
  run (mempool_create 10, []) [Alloc 10; Alloc 4] = Some (Pool 10 4 0 10, [(0, 10); (0, 4)]).
Proof. reflexivity. Qed.

(** wrapping while the pool is empty leaves [tail] on the wrap point, so
    that freeing the only block fails the assertion of [mempool_free]. *)
Theorem mempool_wrap_empty_fails :
  run (mempool_create 10, []) [Alloc 8; Free; Alloc 5] = Some (Pool 10 5 8 8, [(0, 5)]) /\
  run (mempool_create 10, []) [Alloc 8; Free; Alloc 5; Free] = None.
Proof. split; reflexivity. Qed.
End Mempool.
