(* ===== verification/Pipeline.v ===== *)
(** * Tasks and their outputs (task.c, output.h)

    What happens to a captured packet: handed to every output of its task at
    once (run to completion), or through the ring to the output thread
    (pipeline).  All outputs of the process count into one shared
    [output_stats_t]: the model threads it through the outputs. *)

From Stdlib Require Import Setoid Morphisms.
From stdpp Require Import prelude list list_numbers strings.
From S2P Require Import Prelude Stats RateLimit Headers Output OutputFile Datagram OutputGre OutputVxlan OutputZmq RingBuffer Allocator.

(** ** Outputs that share their counters *)

(** The rest of the vtable: [heartbeat] (for [NULL], nothing), and the shared
    counters an output is pointed at. *)
Class SharedOutput (O : Type) `{OutputLaws O} := {
  with_stats : O -> output_stats_t -> O;
  out_heartbeat : O -> Z -> option O;
  with_stats_get : forall o s, stats (out_common (with_stats o s)) = s;
  with_stats_packets : forall o s, out_pending_packets (with_stats o s) = out_pending_packets o;
  with_stats_bytes : forall o s, out_pending_bytes (with_stats o s) = out_pending_bytes o;
  with_stats_len : forall o s h pkt, out_frame_len (with_stats o s) h pkt = out_frame_len o h pkt;
  with_stats_wf : forall o s, out_wf o -> stats_wf s -> out_wf (with_stats o s);
  wf_stats : forall o, out_wf o -> stats_wf (stats (out_common o));
  heartbeat_ok : forall o now, out_wf o ->
    exists o', out_heartbeat o now = Some o' /\ out_wf o' /\
      (forall h pkt, out_frame_len o' h pkt = out_frame_len o h pkt) /\ settled 0 0 o o';
}.

Lemma settled_refl {O} `{OutputOps O} (o : O) : settled 0 0 o o.
Proof. split; by rewrite Z.add_0_r. Qed.

(** An output without a heartbeat. *)
Lemma no_heartbeat {O} `{OutputLaws O} (o : O) :
  out_wf o -> exists o', Some o = Some o' /\ out_wf o' /\
    (forall h pkt, out_frame_len o' h pkt = out_frame_len o h pkt) /\ settled 0 0 o o'.
Proof. intros. exists o. split_and!; try done; by apply settled_refl. Qed.

#[export, refine] Instance null_shared :
  @SharedOutput NullOutput.null_output_t NullOutput.null_ops NullOutput.null_laws := {
  with_stats o s := NullOutput.Null (set_stats (NullOutput.common o) s);
  out_heartbeat o _ := Some o;
}.
Proof.
  all: try done.
  - intros o s Hw Hs. by apply set_stats_wf.
  - intros o Hw. apply Hw.
  - intros. by apply no_heartbeat.
Defined.

Section file.
Context {D : Type} (pcap_dump : D -> pcap_pkthdr -> list Z -> D).

#[export, refine] Instance file_shared :
  @SharedOutput (FileOutput.file_output_t (D := D)) (FileOutput.file_ops pcap_dump) (FileOutput.file_laws pcap_dump) := {
  with_stats o s := FileOutput.File (set_stats (FileOutput.common o) s) (FileOutput.dumper o);
  out_heartbeat o _ := Some o;
}.
Proof.
  all: try done.
  - intros o s Hw Hs. by apply set_stats_wf.
  - intros o Hw. apply Hw.
  - intros. by apply no_heartbeat.
Defined.
End file.

Section rotating.
Context {W F D : Type}.
Context (time : W -> Z * W) (strftime : string -> Z -> string).
Context (stat : W -> string -> bool) (mkdir : W -> string -> bool * W).
Context (fopen : W -> string -> option F * W) (fclose : W -> F -> W).
Context (pcap_dump_fopen : W -> F -> option D * W) (pcap_dump_close : W -> D -> W).
Context (pcap_dump : D -> pcap_pkthdr -> list Z -> D).

#[export, refine] Instance rotating_shared :
  @SharedOutput (RotatingFileOutput.rotating_file_output_t (W := W) (D := D))
    (RotatingFileOutput.rotating_ops time strftime stat mkdir fopen fclose pcap_dump_fopen pcap_dump_close pcap_dump)
    (RotatingFileOutput.rotating_laws time strftime stat mkdir fopen fclose pcap_dump_fopen pcap_dump_close
       pcap_dump) := {
  with_stats o s := RotatingFileOutput.set_common o (set_stats (RotatingFileOutput.common o) s);
  out_heartbeat o _ := Some o;
}.
Proof.
  all: try done.
  - intros o s (Hc & Hw) Hs. split; [by apply set_stats_wf|exact Hw].
  - intros o Hw. apply Hw.
  - intros. by apply no_heartbeat.
Defined.
End rotating.

Section datagram.
Context {W : Type} (sendto : W -> list Z -> send_result * W) (usleep : W -> Z -> W) (sse2 : bool).

#[export, refine] Instance gre_shared :
  @SharedOutput (GreOutput.gre_output_t (W := W)) (GreOutput.gre_ops sendto usleep)
    (GreOutput.gre_laws sendto usleep) := {
  with_stats o s := GreOutput.Gre (set_stats (GreOutput.common o) s) (GreOutput.service_tag o)
    (GreOutput.buf o) (GreOutput.error_info o) (GreOutput.env o);
  out_heartbeat o _ := Some o;
}.
Proof.
  all: try done.
  - intros o s (Hc & Hw) Hs. split; [by apply set_stats_wf|exact Hw].
  - intros o Hw. apply Hw.
  - intros. by apply no_heartbeat.
Defined.

#[export, refine] Instance vxlan_shared :
  @SharedOutput (VxlanOutput.vxlan_output_t (W := W)) (VxlanOutput.vxlan_ops sendto usleep sse2)
    (VxlanOutput.vxlan_laws sendto usleep sse2) := {
  with_stats o s := VxlanOutput.set_common o (set_stats (VxlanOutput.common o) s);
  out_heartbeat o _ := Some o;
}.
Proof.
  all: try done.
  - intros o s (Hc & Hw) Hs. split; [by apply set_stats_wf|exact Hw].
  - intros o Hw. apply Hw.
  - intros. by apply no_heartbeat.
Defined.
End datagram.

Section zmq.
Context {W : Type} (zmq_send : W -> list Z -> option Z * W) (gettimeofday : W -> timeval * W).

#[export, refine] Instance zmq_shared :
  @SharedOutput (ZmqOutput.zmq_output_t (W := W)) (ZmqOutput.zmq_ops zmq_send) (ZmqOutput.zmq_laws zmq_send) := {
  with_stats o s := ZmqOutput.set_common o (set_stats (ZmqOutput.common o) s);
  out_heartbeat := ZmqOutput.zmq_heartbeat zmq_send gettimeofday;
}.
Proof.
  all: try done.
  - intros o s (Hc & Hw) Hs. split; [by apply set_stats_wf|exact Hw].
  - intros o Hw. apply Hw.
  - intros o now Hw. destruct (ZmqOutput.zmq_heartbeat_ok zmq_send gettimeofday o now Hw) as (o' & E & Hw' & Es & S).
    exists o'. split_and!; try done. intros h pkt. cbn. unfold ZmqOutput.zmq_frame_len. by rewrite Es.
Defined.
End zmq.

(** ** Tasks *)

Record any_output := AnyOutput {
  out_type : Type;
  any_ops : OutputOps out_type; any_laws : OutputLaws out_type; any_shared : SharedOutput out_type;
  the_output : out_type;
}.
#[export] Existing Instance any_ops.
#[export] Existing Instance any_laws.
#[export] Existing Instance any_shared.

(** The same output after a call. *)
Definition upd_output (a : any_output) (o : out_type a) : any_output :=
  AnyOutput (out_type a) (any_ops a) (any_laws a) (any_shared a) o.

(** [output_send_packet] and [output_heartbeat] on the shared counters. *)
Definition output_send_packet (h : pcap_pkthdr) (pkt : list Z) (direct : Z) (s : output_stats_t) (a : any_output) :
    option (output_stats_t * any_output) :=
  '(_, o) ← out_send (with_stats (the_output a) s) h pkt direct;
  Some (stats (out_common o), upd_output a o).

Definition output_heartbeat (now : Z) (s : output_stats_t) (a : any_output) :
    option (output_stats_t * any_output) :=
  o ← out_heartbeat (with_stats (the_output a) s) now;
  Some (stats (out_common o), upd_output a o).

(** The [for] over the outputs of a task. *)
Fixpoint for_outputs (call : output_stats_t -> any_output -> option (output_stats_t * any_output))
    (s : output_stats_t) (outs : list any_output) : option (output_stats_t * list any_output) :=
  match outs with
  | [] => Some (s, [])
  | a :: outs =>
      '(s, a) ← call s a;
      '(s, outs) ← for_outputs call s outs;
      Some (s, a :: outs)
  end.

(** The counters and the tasks; a task pointer is an index. *)
Record world := World { w_stats : output_stats_t; w_tasks : list (list any_output) }.

Definition on_task (f : output_stats_t -> list any_output -> option (output_stats_t * list any_output))
    (i : Z) (w : world) : option world :=
  outs ← w_tasks w !! Z.to_nat i;
  '(s, outs) ← f (w_stats w) outs;
  Some (World s (<[Z.to_nat i := outs]> (w_tasks w))).

Definition rtc_capture_task_packet_cb (h : pcap_pkthdr) (pkt : list Z) (direct user : Z) (w : world) : option world :=
  if caplen h <? ETHER_HDR_LEN then Some w
  else on_task (for_outputs (output_send_packet h pkt direct)) user w.

Definition rtc_capture_task_heartbeat_cb (user now : Z) (w : world) : option world :=
  on_task (for_outputs (output_heartbeat now)) user w.

(** ** The pipeline *)

Record pipe := Pipe { p_ring : SpscRing.spsc_ring_t (A := ring_msg_t); p_alloc : SimpleAllocator.simple_allocator_t }.

(** The ring's slots start as [NULL]. *)
Definition no_msg : ring_msg_t := RingHeartbeat 0 0.

(** One turn of the callback's loops: done, no buffer, or the ring is full
    with the message in hand. *)
Inductive enqueue_result := EDone (p : pipe) | ENoBuffer (p : pipe) | ERingFull (p : pipe) (msg : ring_msg_t).

Definition push_msg (p : pipe) (msg : ring_msg_t) : enqueue_result :=
  match SpscRing.spsc_ring_push (p_ring p) msg with
  | (true, r) => EDone (Pipe r (p_alloc p))
  | (false, r) => ERingFull (Pipe r (p_alloc p)) msg
  end.

Definition pipeline_capture_task_packet_cb (h : pcap_pkthdr) (pkt : list Z) (direct user : Z) (malloc_ok : bool)
    (p : pipe) : option enqueue_result :=
  if caplen h <? ETHER_HDR_LEN then Some (EDone p)
  else
    '(msg, a) ← SimpleAllocator.simple_alloc_packet (p_alloc p) h pkt malloc_ok;
    match msg with
    | Some (RingPacket _ _ hdr data) => Some (push_msg (Pipe (p_ring p) a) (RingPacket user direct hdr data))
    | Some (RingHeartbeat _ _) | None => Some (ENoBuffer (Pipe (p_ring p) a))
    end.

Definition pipeline_capture_task_heartbeat_cb (user now : Z) (malloc_ok : bool) (p : pipe) : enqueue_result :=
  match SimpleAllocator.simple_alloc_heartbeat (p_alloc p) now malloc_ok with
  | (Some (RingHeartbeat _ ts), a) => push_msg (Pipe (p_ring p) a) (RingHeartbeat user ts)
  | (_, a) => ENoBuffer (Pipe (p_ring p) a)
  end.

Definition output_send_pkt_msg (msg : ring_msg_t) (w : world) : option world :=
  match msg with
  | RingPacket user direction hdr data => on_task (for_outputs (output_send_packet hdr data direction)) user w
  | RingHeartbeat user ts => on_task (for_outputs (output_heartbeat ts)) user w
  end.

Fixpoint drain_loop (n : nat) (p : pipe) (w : world) : option (pipe * world) :=
  match n with
  | O => Some (p, w)
  | S n =>
      match SpscRing.spsc_ring_pop no_msg (p_ring p) with
      | (Some msg, r) =>
          w ← output_send_pkt_msg msg w;
          drain_loop n (Pipe r (SimpleAllocator.simple_msg_free (p_alloc p) msg)) w
      | (None, r) => Some (p, w)
      end
  end.

Definition task_manager_output_drain_ring (p : pipe) (w : world) : option (pipe * world) :=
  drain_loop (Z.to_nat (SpscRing.spsc_ring_used (p_ring p))) p w.

(** ** Accounting over all outputs *)

Definition any_wf (a : any_output) : Prop := out_wf (the_output a).
Definition any_len (h : pcap_pkthdr) (pkt : list Z) (a : any_output) : Z := out_frame_len (the_output a) h pkt.
Definition pend_packets (outs : list any_output) : Z := zsum ((fun a => out_pending_packets (the_output a)) <$> outs).
Definition pend_bytes (outs : list any_output) : Z := zsum ((fun a => out_pending_bytes (the_output a)) <$> outs).

(** [s'] and [outs'] answer for [n] packets of [b] bytes more than [s] and
    [outs]: counted, or pending. *)
Definition accounted (n b : Z) (s : output_stats_t) (outs : list any_output) (s' : output_stats_t)
    (outs' : list any_output) : Prop :=
  eqm packets_range (total_packets s' + pend_packets outs') (total_packets s + pend_packets outs + n) /\
  eqm bytes_range (total_bytes s' + pend_bytes outs') (total_bytes s + pend_bytes outs + b).

Lemma accounted_refl s outs : accounted 0 0 s outs s outs.
Proof. split; match goal with |- eqm _ _ (?y + 0) => rewrite (Z.add_0_r y) end; done. Qed.

(** The lengths an output counts do not change. *)
Definition same_len (outs outs' : list any_output) : Prop :=
  forall h pkt, any_len h pkt <$> outs' = any_len h pkt <$> outs.

(** What one call does to the shared counters and one output. *)
Definition call_ok (call : output_stats_t -> any_output -> option (output_stats_t * any_output)) (n : Z)
    (b : any_output -> Z) : Prop :=
  forall s a, stats_wf s -> any_wf a ->
  exists s' a', call s a = Some (s', a') /\ stats_wf s' /\ any_wf a' /\ same_len [a] [a'] /\
    accounted n (b a) s [a] s' [a'].

Lemma settled_accounted n b s (a : any_output) o :
  settled n b (with_stats (the_output a) s) o ->
  accounted n b s [a] (stats (out_common o)) [upd_output a o].
Proof.
  intros [Hp Hb]. rewrite with_stats_get, with_stats_packets in Hp. rewrite with_stats_get, with_stats_bytes in Hb.
  unfold accounted, pend_packets, pend_bytes. cbn. by rewrite !Z.add_0_r.
Qed.

Lemma send_call_ok h pkt d :
  pkt_ok h pkt -> dir_ok d -> call_ok (output_send_packet h pkt d) 1 (any_len h pkt).
Proof.
  intros Hp Hd s a Hs Ha. unfold output_send_packet.
  destruct (out_send_ok (with_stats (the_output a) s) h pkt d (with_stats_wf _ _ Ha Hs) Hp Hd)
    as (ret & o & E & Hw & Hl & S). rewrite E. obind.
  eexists _, _. split; [done|]. split; [by apply wf_stats|]. split; [done|]. split.
  - intros h' pkt'. unfold any_len. cbn. by rewrite Hl, with_stats_len.
  - rewrite with_stats_len in S. by apply settled_accounted.
Qed.

Lemma heartbeat_call_ok now : call_ok (output_heartbeat now) 0 (fun _ => 0).
Proof.
  intros s a Hs Ha. unfold output_heartbeat.
  destruct (heartbeat_ok (with_stats (the_output a) s) now (with_stats_wf _ _ Ha Hs)) as (o & E & Hw & Hl & S).
  rewrite E. obind. eexists _, _. split; [done|]. split; [by apply wf_stats|]. split; [done|]. split.
  - intros h' pkt'. unfold any_len. cbn. by rewrite Hl, with_stats_len.
  - by apply settled_accounted.
Qed.

Lemma accounted_cons n1 b1 n2 b2 s1 s2 s3 a a' outs outs' :
  accounted n1 b1 s1 [a] s2 [a'] -> accounted n2 b2 s2 outs s3 outs' ->
  accounted (n1 + n2) (b1 + b2) s1 (a :: outs) s3 (a' :: outs').
Proof.
  intros [P1 B1] [P2 B2]. unfold accounted, pend_packets, pend_bytes in *. cbn in *.
  change (foldr Z.add 0) with zsum in *. rewrite !Z.add_0_r in P1, B1.
  set (pa' := out_pending_packets (the_output a')) in *. set (ba' := out_pending_bytes (the_output a')) in *. split.
  - transitivity (total_packets s3 + zsum ((fun a => out_pending_packets (the_output a)) <$> outs') + pa');
      [by rewrite <- Z.add_assoc, (Z.add_comm pa')|]. rewrite P2.
    transitivity (total_packets s2 + pa' + (zsum ((fun a => out_pending_packets (the_output a)) <$> outs) + n2));
      [by replace (total_packets s2 + zsum ((fun a => out_pending_packets (the_output a)) <$> outs) + n2 + pa') with
        (total_packets s2 + pa' + (zsum ((fun a => out_pending_packets (the_output a)) <$> outs) + n2)) by lia|].
    rewrite P1. match goal with |- eqm _ ?x ?y => replace x with y by lia end. reflexivity.
  - transitivity (total_bytes s3 + zsum ((fun a => out_pending_bytes (the_output a)) <$> outs') + ba');
      [by rewrite <- Z.add_assoc, (Z.add_comm ba')|]. rewrite B2.
    transitivity (total_bytes s2 + ba' + (zsum ((fun a => out_pending_bytes (the_output a)) <$> outs) + b2));
      [by replace (total_bytes s2 + zsum ((fun a => out_pending_bytes (the_output a)) <$> outs) + b2 + ba') with
        (total_bytes s2 + ba' + (zsum ((fun a => out_pending_bytes (the_output a)) <$> outs) + b2)) by lia|].
    rewrite B1. match goal with |- eqm _ ?x ?y => replace x with y by lia end. reflexivity.
Qed.

(** A call over all outputs of a task. *)
Lemma for_outputs_ok call n b s outs :
  call_ok call n b -> stats_wf s -> Forall any_wf outs ->
  exists s' outs', for_outputs call s outs = Some (s', outs') /\ stats_wf s' /\ Forall any_wf outs' /\
    same_len outs outs' /\ accounted (n * zlen outs) (zsum (b <$> outs)) s outs s' outs'.
Proof.
  intros Hcall Hs Hw. revert s Hs. induction Hw as [|a outs Ha Hw IH]; intros s Hs.
  { exists s, []. split; [done|]. split; [done|]. split; [constructor|]. split; [done|]. change (zlen (@nil any_output)) with 0.
    rewrite Z.mul_0_r. apply accounted_refl. }
  destruct (Hcall s a Hs Ha) as (s1 & a1 & E1 & Hs1 & Ha1 & L1 & A1).
  destruct (IH s1 Hs1) as (s2 & outs2 & E2 & Hs2 & Hw2 & L2 & A2).
  exists s2, (a1 :: outs2). cbn [for_outputs]. rewrite E1. obind. rewrite E2. obind.
  split; [done|]. split; [done|]. split; [by constructor|]. split.
  - intros h pkt. specialize (L1 h pkt). specialize (L2 h pkt). cbn in *. congruence.
  - rewrite zlen_cons. replace (n * (1 + zlen outs)) with (n + n * zlen outs) by lia.
    cbn [fmap list_fmap]. change (zsum (b a :: (b <$> outs))) with (b a + zsum (b <$> outs)).
    by eapply accounted_cons.
Qed.

(** ** Histories *)

(** What the capture side reports, with the task it is for. *)
Inductive event :=
| EvPacket (user : Z) (h : pcap_pkthdr) (pkt : list Z) (direct : Z)
| EvHeartbeat (user now : Z).

Definition rtc_event (e : event) (w : world) : option world :=
  match e with
  | EvPacket user h pkt direct => rtc_capture_task_packet_cb h pkt direct user w
  | EvHeartbeat user now => rtc_capture_task_heartbeat_cb user now w
  end.

Fixpoint rtc_all (es : list event) (w : world) : option world :=
  match es with [] => Some w | e :: es => w ← rtc_event e w; rtc_all es w end.

(** A packet is its captured bytes; the task exists. *)
Definition event_ok (n : Z) (e : event) : Prop :=
  match e with
  | EvPacket user h pkt direct => 0 <= user < n /\ pkt_ok h pkt /\ zlen pkt = caplen h /\ dir_ok direct
  | EvHeartbeat user _ => 0 <= user < n
  end.

Definition all_outputs (w : world) : list any_output := concat (w_tasks w).

Definition world_wf (w : world) : Prop := stats_wf (w_stats w) /\ Forall any_wf (all_outputs w).

(** Packets and bytes an event asks the outputs of [w] to answer for: one
    packet per output of the task, each with the length that output counts. *)
Definition event_packets (w : world) (e : event) : Z :=
  match e with
  | EvPacket user h _ _ => if caplen h <? ETHER_HDR_LEN then 0 else zlen (default [] (w_tasks w !! Z.to_nat user))
  | EvHeartbeat _ _ => 0
  end.
Definition event_bytes (w : world) (e : event) : Z :=
  match e with
  | EvPacket user h pkt _ =>
      if caplen h <? ETHER_HDR_LEN then 0
      else zsum (any_len h pkt <$> default [] (w_tasks w !! Z.to_nat user))
  | EvHeartbeat _ _ => 0
  end.

(** Same tasks, with outputs that count the same lengths. *)
Definition same_tasks (w w' : world) : Prop := Forall2 same_len (w_tasks w) (w_tasks w').

Lemma same_len_refl outs : same_len outs outs.
Proof. done. Qed.

Lemma same_len_length outs outs' : same_len outs outs' -> zlen outs' = zlen outs.
Proof.
  intros H. specialize (H (Pkthdr 0 0 0 0) []). apply (f_equal zlen) in H. by rewrite !zlen_fmap in H.
Qed.

Lemma same_tasks_trans w1 w2 w3 : same_tasks w1 w2 -> same_tasks w2 w3 -> same_tasks w1 w3.
Proof.
  unfold same_tasks. intros H. revert w3. generalize (w_tasks w2) H. intros l Hl w3. generalize (w_tasks w3). clear H.
  induction Hl as [|x y l1 l2 Hxy Hl IH]; intros l3 H3; inversion H3; subst; constructor; [|by apply IH].
  intros h pkt. etrans; [|apply Hxy]. done.
Qed.

Lemma same_tasks_event w w' e : same_tasks w w' -> event_packets w' e = event_packets w e /\ event_bytes w' e = event_bytes w e.
Proof.
  intros H. destruct e as [user h pkt d|]; [|done]. cbn. destruct (caplen h <? ETHER_HDR_LEN); [done|].
  assert (same_len (default [] (w_tasks w !! Z.to_nat user)) (default [] (w_tasks w' !! Z.to_nat user))) as Hs.
  { destruct (w_tasks w !! Z.to_nat user) as [x|] eqn:E.
    - destruct (Forall2_lookup_l _ _ _ _ _ H E) as (y & -> & Hxy). done.
    - apply lookup_ge_None in E. rewrite (Forall2_length _ _ _ H) in E. by rewrite lookup_ge_None_2. }
  split; [by apply same_len_length|]. by rewrite Hs.
Qed.

Lemma accounted_frame n b s s' l outs outs' r :
  accounted n b s outs s' outs' -> accounted n b s (l ++ outs ++ r) s' (l ++ outs' ++ r).
Proof.
  intros [P B]. unfold accounted, pend_packets, pend_bytes in *. rewrite !fmap_app, !zsum_app. split.
  - set (x := zsum (_ <$> l)). set (y := zsum (_ <$> r)).
    match goal with |- eqm _ (?a + (x + (?c + y))) _ => replace (a + (x + (c + y))) with (a + c + (x + y)) by lia end.
    rewrite P. match goal with |- eqm _ ?a ?c => replace a with c by lia end. reflexivity.
  - set (x := zsum (_ <$> l)). set (y := zsum (_ <$> r)).
    match goal with |- eqm _ (?a + (x + (?c + y))) _ => replace (a + (x + (c + y))) with (a + c + (x + y)) by lia end.
    rewrite B. match goal with |- eqm _ ?a ?c => replace a with c by lia end. reflexivity.
Qed.

Lemma accounted_trans n1 b1 n2 b2 s1 s2 s3 o1 o2 o3 :
  accounted n1 b1 s1 o1 s2 o2 -> accounted n2 b2 s2 o2 s3 o3 -> accounted (n1 + n2) (b1 + b2) s1 o1 s3 o3.
Proof. intros [P1 B1] [P2 B2]. split; [rewrite P2, P1|rewrite B2, B1]; by rewrite !Z.add_assoc. Qed.

(** A call over the outputs of one task. *)
Lemma on_task_ok call n b user w :
  call_ok call n b -> world_wf w -> 0 <= user < zlen (w_tasks w) ->
  exists w', on_task (for_outputs call) user w = Some w' /\ world_wf w' /\ same_tasks w w' /\
    let outs := default [] (w_tasks w !! Z.to_nat user) in
    accounted (n * zlen outs) (zsum (b <$> outs)) (w_stats w) (all_outputs w) (w_stats w') (all_outputs w').
Proof.
  intros Hcall [Hs Hw] Hu. unfold on_task.
  destruct (lookup_lt_is_Some_2 (w_tasks w) (Z.to_nat user)) as [outs E]; [unfold zlen in Hu; lia|].
  rewrite E. obind. unfold all_outputs in *. pose proof E as E'. apply list_elem_of_split_length in E' as (l & r & El & Elen).
  rewrite El in Hw. rewrite concat_app, concat_cons in Hw. apply Forall_app in Hw as [Hl Hw]. apply Forall_app in Hw as [Ho Hr].
  destruct (for_outputs_ok call n b (w_stats w) outs Hcall Hs Ho) as (s' & outs' & -> & Hs' & Ho' & Hlen & Hacc). obind.
  eexists. split; [reflexivity|].
  assert (<[Z.to_nat user := outs']> (w_tasks w) = l ++ outs' :: r) as Ei
    by (rewrite El, Elen, insert_app_r_alt, Nat.sub_diag by lia; done).
  split; [split; [done|]|split].
  - unfold all_outputs. cbn. rewrite Ei, concat_app, concat_cons. by repeat apply Forall_app_2.
  - unfold same_tasks. cbn. rewrite Ei, El. apply Forall2_app; [by apply Forall_Forall2_diag, Forall_true|].
    constructor; [done|]. by apply Forall_Forall2_diag, Forall_true.
  - cbn. rewrite Ei, El, !concat_app, !concat_cons. by apply accounted_frame.
Qed.

Lemma event_accounts w e :
  world_wf w -> event_ok (zlen (w_tasks w)) e ->
  exists w', rtc_event e w = Some w' /\ world_wf w' /\ same_tasks w w' /\
    accounted (event_packets w e) (event_bytes w e) (w_stats w) (all_outputs w) (w_stats w') (all_outputs w').
Proof.
  intros Hw He. destruct e as [user h pkt d|user now]; cbn in *.
  - destruct He as (Hu & Hp & _ & Hd). unfold rtc_capture_task_packet_cb. destruct (caplen h <? ETHER_HDR_LEN).
    + exists w. split; [done|]. split; [done|]. split; [by apply Forall_Forall2_diag, Forall_true|].
      apply accounted_refl.
    + destruct (on_task_ok _ _ _ user w (send_call_ok h pkt d Hp Hd) Hw Hu) as (w' & E & Hw' & Ht & Ha).
      exists w'. cbv zeta in Ha. by rewrite Z.mul_1_l in Ha.
  - destruct (on_task_ok _ _ _ user w (heartbeat_call_ok now) Hw He) as (w' & E & Hw' & Ht & Ha).
    exists w'. split; [done|]. split; [done|]. split; [done|]. cbv zeta in Ha. rewrite Z.mul_0_l in Ha.
    replace (zsum _) with 0 in Ha; [done|]. clear. induction (default [] _); [done|exact IHl].
Qed.

Lemma rtc_all_accounts es w :
  world_wf w -> Forall (event_ok (zlen (w_tasks w))) es ->
  exists w', rtc_all es w = Some w' /\ world_wf w' /\ same_tasks w w' /\
    accounted (zsum (event_packets w <$> es)) (zsum (event_bytes w <$> es))
      (w_stats w) (all_outputs w) (w_stats w') (all_outputs w').
Proof.
  intros Hw Hes. revert w Hw Hes. induction es as [|e es IH]; intros w Hw Hes.
  { exists w. split; [done|]. split; [done|]. split; [by apply Forall_Forall2_diag, Forall_true|].
    apply accounted_refl. }
  apply Forall_cons in Hes as [He Hes]. destruct (event_accounts w e Hw He) as (w1 & E1 & Hw1 & T1 & A1).
  assert (zlen (w_tasks w1) = zlen (w_tasks w)) as El by (unfold zlen; by rewrite (Forall2_length _ _ _ T1)).
  destruct (IH w1 Hw1 ltac:(by rewrite El)) as (w2 & E2 & Hw2 & T2 & A2).
  exists w2. cbn [rtc_all]. rewrite E1. obind. split; [done|]. split; [done|].
  split; [by eapply same_tasks_trans|]. rewrite !fmap_cons.
  change (zsum (event_packets w e :: (event_packets w <$> es))) with (event_packets w e + zsum (event_packets w <$> es)).
  change (zsum (event_bytes w e :: (event_bytes w <$> es))) with (event_bytes w e + zsum (event_bytes w <$> es)).
  replace (event_packets w <$> es) with (event_packets w1 <$> es) by
    (apply list_fmap_ext; intros; by apply same_tasks_event).
  replace (event_bytes w <$> es) with (event_bytes w1 <$> es) by
    (apply list_fmap_ext; intros; by apply same_tasks_event).
  by eapply accounted_trans.
Qed.

(** ** The two threads *)

Definition pipeline_event (e : event) (malloc_ok : bool) (p : pipe) : option enqueue_result :=
  match e with
  | EvPacket user h pkt direct => pipeline_capture_task_packet_cb h pkt direct user malloc_ok p
  | EvHeartbeat user now => Some (pipeline_capture_task_heartbeat_cb user now malloc_ok p)
  end.

(** What the capture thread still has to pass on, the message it allocated
    and has not been able to push, the shared ring and buffer, and what the
    output thread works on. *)
Record psys := PSys { ps_todo : list event; ps_hand : option ring_msg_t; ps_pipe : pipe; ps_world : world }.

(** A turn of one of the loops of the capture callbacks, or of the output
    thread's. *)
Inductive turn := CaptureTurn (malloc_ok : bool) | OutputTurn.

Definition capture_turn (malloc_ok : bool) (s : psys) : option psys :=
  match ps_hand s with
  | Some msg =>
      match push_msg (ps_pipe s) msg with
      | EDone p => Some (PSys (ps_todo s) None p (ps_world s))
      | ENoBuffer p | ERingFull p _ => Some (PSys (ps_todo s) (Some msg) p (ps_world s))
      end
  | None =>
      match ps_todo s with
      | [] => Some s
      | e :: es =>
          r ← pipeline_event e malloc_ok (ps_pipe s);
          Some match r with
               | EDone p => PSys es None p (ps_world s)
               | ENoBuffer p => PSys (e :: es) None p (ps_world s)
               | ERingFull p msg => PSys es (Some msg) p (ps_world s)
               end
      end
  end.

Definition output_turn (s : psys) : option psys :=
  match SpscRing.spsc_ring_pop no_msg (p_ring (ps_pipe s)) with
  | (Some msg, r) =>
      w ← output_send_pkt_msg msg (ps_world s);
      Some (PSys (ps_todo s) (ps_hand s) (Pipe r (SimpleAllocator.simple_msg_free (p_alloc (ps_pipe s)) msg)) w)
  | (None, r) => Some s
  end.

Definition take_turn (t : turn) (s : psys) : option psys :=
  match t with CaptureTurn ok => capture_turn ok s | OutputTurn => output_turn s end.

Fixpoint take_turns (ts : list turn) (s : psys) : option psys :=
  match ts with [] => Some s | t :: ts => s ← take_turn t s; take_turns ts s end.

(** [task_manager_new] creates the ring and the buffer. *)
Definition pipe_new (slots capacity : Z) : pipe :=
  Pipe (SpscRing.spsc_ring_create no_msg slots) (SimpleAllocator.simple_allocator_create capacity).

Definition psys_init (slots capacity : Z) (es : list event) (w : world) : psys :=
  PSys es None (pipe_new slots capacity) w.

(** ** Messages in transit *)

(** The message of an event; a frame without an Ethernet header has none. *)
Definition event_msgs (e : event) : list ring_msg_t :=
  match e with
  | EvPacket user h pkt direct => if caplen h <? ETHER_HDR_LEN then [] else [RingPacket user direct h pkt]
  | EvHeartbeat user now => [RingHeartbeat user now]
  end.

Definition all_msgs (es : list event) : list ring_msg_t := concat (event_msgs <$> es).

Lemma all_msgs_cons e es : all_msgs (e :: es) = event_msgs e ++ all_msgs es.
Proof. reflexivity. Qed.

Fixpoint deliver_all (q : list ring_msg_t) (w : world) : option world :=
  match q with [] => Some w | msg :: q => w ← output_send_pkt_msg msg w; deliver_all q w end.

Lemma deliver_app q1 q2 w : deliver_all (q1 ++ q2) w = w ← deliver_all q1 w; deliver_all q2 w.
Proof.
  revert w. induction q1 as [|m q1 IH]; intros w; [done|]. cbn. destruct (output_send_pkt_msg m w); [|done].
  cbn. apply IH.
Qed.

Lemma deliver_events es w : deliver_all (all_msgs es) w = rtc_all es w.
Proof.
  unfold all_msgs. revert w. induction es as [|e es IH]; intros w; [done|].
  rewrite fmap_cons, concat_cons, deliver_app. cbn [rtc_all].
  assert (deliver_all (event_msgs e) w = rtc_event e w) as ->.
  { destruct e as [user h pkt d|user now]; cbn [event_msgs rtc_event].
    - unfold rtc_capture_task_packet_cb. destruct (caplen h <? ETHER_HDR_LEN); [done|].
      cbn [deliver_all output_send_pkt_msg]. by destruct (on_task _ _ _).
    - cbn [deliver_all output_send_pkt_msg]. unfold rtc_capture_task_heartbeat_cb. by destruct (on_task _ _ _). }
  destruct (rtc_event e w); [|done]. obind. apply IH.
Qed.

Definition hand (s : psys) : list ring_msg_t := match ps_hand s with Some msg => [msg] | None => [] end.

Section transit.
Context (slots cap : Z) (es0 : list event) (w0 : world).

(** The messages of all events are those delivered, those in the ring, the one
    in hand and those still to come, in this order; the buffer is charged for
    the ring and the hand. *)
Record pinv (s : psys) (sent q : list ring_msg_t) : Prop := PInv {
  pi_split : all_msgs es0 = sent ++ q ++ hand s ++ all_msgs (ps_todo s);
  pi_sent : deliver_all sent w0 = Some (ps_world s);
  pi_ring : SpscRing.holds no_msg (p_ring (ps_pipe s)) q;
  pi_slots : SpscRing.size (p_ring (ps_pipe s)) = slots;
  pi_used : SimpleAllocator.used (p_alloc (ps_pipe s)) = zsum (msg_len <$> q ++ hand s);
  pi_cap : SimpleAllocator.capacity (p_alloc (ps_pipe s)) = cap;
  pi_fit : zsum (msg_len <$> q ++ hand s) <= cap;
  pi_ok : Forall msg_ok (q ++ hand s);
  pi_todo : exists n, Forall (event_ok n) (ps_todo s);
}.

Hypothesis Hslots : 2 <= slots.
Hypothesis Hcap : 0 <= cap < 9223372036854775808.

Lemma pinv_init n : Forall (event_ok n) es0 -> pinv (psys_init slots cap es0 w0) [] [].
Proof.
  intros Hes. split; cbn; try done; try lia.
  - apply SpscRing.holds_create. lia.
  - unfold SpscRing.size, zlen. cbn. rewrite length_replicate. lia.
  - by exists n.
Qed.

(** The callback on an event: nothing to pass on, no buffer for the message,
    or its message charged and offered to the ring. *)
Lemma event_turn e n ok p :
  event_ok n e -> 0 <= SimpleAllocator.used (p_alloc p) < 9223372036854775808 ->
  Forall msg_ok (event_msgs e) /\
  pipeline_event e ok p = Some
    match event_msgs e with
    | [] => EDone p
    | msg :: _ =>
        let used := SimpleAllocator.used (p_alloc p) + msg_len msg in
        if (ok && (used <=? SimpleAllocator.capacity (p_alloc p)))%bool
        then push_msg (Pipe (p_ring p) (SimpleAllocator.Alloc (SimpleAllocator.capacity (p_alloc p)) used)) msg
        else ENoBuffer p
    end.
Proof.
  intros He Hu.
  assert (forall msg, msg_ok msg -> SimpleAllocator.simple_alloc (p_alloc p) msg ok =
    let used := SimpleAllocator.used (p_alloc p) + msg_len msg in
    if (ok && (used <=? SimpleAllocator.capacity (p_alloc p)))%bool
    then (Some msg, SimpleAllocator.Alloc (SimpleAllocator.capacity (p_alloc p)) used) else (None, p_alloc p)) as Ha.
  { intros msg Hm. apply msg_len_range in Hm. unfold RING_MSG_LEN in Hm.
    unfold SimpleAllocator.simple_alloc, SimpleAllocator.reserve. cbv zeta. rewrite u64_small by lia.
    destruct (Z.ltb_spec (SimpleAllocator.capacity (p_alloc p)) (SimpleAllocator.used (p_alloc p) + msg_len msg)) as [H|H].
    - apply Z.leb_gt in H. by rewrite H, andb_false_r.
    - apply Z.leb_le in H. rewrite H, andb_true_r. destruct ok; [done|]. cbn. rewrite u64_small by lia.
      destruct (p_alloc p). cbn. f_equal. f_equal. lia. }
  assert (Pipe (p_ring p) (p_alloc p) = p) as Ep by by destruct p.
  destruct e as [user h pkt d|user now]; cbn [pipeline_event event_msgs].
  - destruct He as (_ & Hok & Hl & _). unfold pipeline_capture_task_packet_cb.
    destruct (caplen h <? ETHER_HDR_LEN); [done|]. split; [repeat constructor; apply Hok|].
    rewrite SimpleAllocator.simple_alloc_packet_eq by done. obind. rewrite <- Hl, bslice_full.
    rewrite Ha by apply Hok. cbn [msg_len]. cbv zeta. destruct (ok && _)%bool; [done|by rewrite Ep].
  - split; [by repeat constructor|]. unfold pipeline_capture_task_heartbeat_cb.
    rewrite SimpleAllocator.simple_alloc_heartbeat_eq, Ha by done. cbn [msg_len]. cbv zeta.
    destruct (ok && _)%bool; [done|by rewrite Ep].
Qed.

Lemma pinv_used s sent q : pinv s sent q -> 0 <= SimpleAllocator.used (p_alloc (ps_pipe s)) <= cap.
Proof. intros H. rewrite (pi_used _ _ _ H). split; [apply SimpleAllocator.live_nonneg, (pi_ok _ _ _ H)|apply (pi_fit _ _ _ H)]. Qed.

(** Pushing a message that is charged: into the ring, or kept in hand. *)
Lemma push_pinv todo msg p w sent q :
  pinv (PSys todo (Some msg) p w) sent q ->
  match push_msg p msg with
  | EDone p' => pinv (PSys todo None p' w) sent (q ++ [msg])
  | ENoBuffer _ => False
  | ERingFull p' msg' => msg' = msg /\ pinv (PSys todo (Some msg) p' w) sent q /\ zlen q = slots - 1
  end.
Proof.
  intros [H1 H2 Hr Hs Hu Hc Hf Hok Ht]. cbn in *. unfold push_msg.
  pose proof (SpscRing.push_spec no_msg (p_ring p) q msg Hr) as Hp.
  destruct (SpscRing.spsc_ring_push (p_ring p) msg) as [[|] r]; destruct Hp as (Hroom & Hs' & Hr').
  - split; cbn; rewrite ?app_nil_r; try done; [by rewrite H1, <- !app_assoc|by rewrite Hs'].
  - split; [done|]. split; [split; cbn; try done; by rewrite Hs'|].
    symmetry in Hroom. apply Z.ltb_ge in Hroom. pose proof (SpscRing.h_len _ _ _ Hr). lia.
Qed.

(** Charging the next event's message puts it in hand. *)
Lemma charge_pinv e todo p w sent q msg :
  pinv (PSys (e :: todo) None p w) sent q -> event_msgs e = [msg] -> msg_ok msg ->
  SimpleAllocator.used (p_alloc p) + msg_len msg <= cap ->
  pinv (PSys todo (Some msg)
    (Pipe (p_ring p) (SimpleAllocator.Alloc (SimpleAllocator.capacity (p_alloc p)) (SimpleAllocator.used (p_alloc p) + msg_len msg))) w)
    sent q.
Proof.
  intros [H1 H2 Hr Hs Hu Hc Hf Hok [n Ht]] Ee Hm Hfit. cbn [ps_todo] in H1. rewrite all_msgs_cons, Ee in H1.
  cbn in Ht, Hu, Hok, Hc. rewrite app_nil_r in Hu, Hok.
  apply Forall_cons in Ht as [_ Ht].
  assert (zsum (msg_len <$> q ++ [msg]) = SimpleAllocator.used (p_alloc p) + msg_len msg) as Es
    by (rewrite fmap_app, zsum_app, Hu; cbn; lia).
  split; cbn; rewrite ?Es; try done; [apply Forall_app; by repeat constructor|by exists n].
Qed.

Lemma capture_pinv ok s sent q :
  pinv s sent q -> exists s' q', capture_turn ok s = Some s' /\ pinv s' sent q'.
Proof.
  intros H. destruct s as [todo [msg|] p w]; unfold capture_turn; cbn [ps_hand ps_todo ps_pipe ps_world].
  - pose proof (push_pinv _ _ _ _ _ _ H) as Hp.
    destruct (push_msg p msg) as [p'|p'|p' m]; [eauto|done|destruct Hp as (_ & Hp & _); eauto].
  - destruct todo as [|e todo]; [eauto|]. destruct (pi_todo _ _ _ H) as [n Ht]. cbn in Ht.
    pose proof (pinv_used _ _ _ H) as Hu. cbn in Hu.
    apply Forall_cons in Ht as [He Ht]. destruct (event_turn e n ok p He ltac:(lia)) as [Hm ->]. obind.
    destruct (event_msgs e) as [|msg l] eqn:Ee.
    + exists (PSys todo None p w), q. split; [done|]. destruct H as [H1 H2 Hr Hs Hu' Hc Hf Hok _]. cbn [ps_todo] in H1. rewrite all_msgs_cons, Ee in H1. split; try done. by exists n.
    + assert (l = []) as -> by (destruct e; cbn in Ee; [destruct (_ <? _)|]; by simplify_eq). apply Forall_cons in Hm as [Hm _].
      cbv zeta. destruct ok; cbn [andb]; [|by eauto].
      destruct (Z.leb_spec (SimpleAllocator.used (p_alloc p) + msg_len msg) (SimpleAllocator.capacity (p_alloc p))) as [Hf|Hf];
        [|by eauto].
      rewrite (pi_cap _ _ _ H : SimpleAllocator.capacity (p_alloc p) = cap) in Hf.
      pose proof (push_pinv _ _ _ _ _ _ (charge_pinv _ _ _ _ _ _ _ H Ee Hm Hf)) as Hp.
      destruct (push_msg _ msg) as [p'|p'|p' m]; [eauto|done|destruct Hp as (-> & Hp & _); eauto].
Qed.

Hypothesis Hall : is_Some (rtc_all es0 w0).

(** The output thread delivers the oldest message and gives its buffer back. *)
Lemma output_pinv s sent q :
  pinv s sent q ->
  match q with
  | [] => output_turn s = Some s
  | msg :: q' => exists s', output_turn s = Some s' /\ pinv s' (sent ++ [msg]) q' /\
      ps_todo s' = ps_todo s /\ ps_hand s' = ps_hand s
  end.
Proof.
  intros [H1 H2 Hr Hs Hu Hc Hf Hok Ht]. unfold output_turn. pose proof (SpscRing.pop_spec no_msg _ _ Hr) as Hp.
  destruct q as [|msg q]; [by rewrite Hp|]. destruct Hp as (r & Er & Hr'). rewrite Er.
  assert (SpscRing.size r = slots) as Hs'.
  { unfold SpscRing.spsc_ring_pop in Er. destruct (_ =? _); [done|]. by injection Er as _ <-. }
  destruct (output_send_pkt_msg msg (ps_world s)) as [w|] eqn:Ew.
  2: { exfalso. destruct Hall as [w E]. rewrite <- deliver_events, H1, deliver_app, H2 in E. cbn in E.
       by rewrite Ew in E. }
  obind. eexists. split; [done|]. split; [|done]. apply Forall_cons in Hok as [Hm Hok].
  pose proof (msg_len_range msg Hm) as Hl. unfold RING_MSG_LEN in Hl.
  assert (0 <= zsum (msg_len <$> q ++ hand s)) by (by apply SimpleAllocator.live_nonneg).
  change (zsum (msg_len <$> (msg :: q) ++ hand s)) with (msg_len msg + zsum (msg_len <$> q ++ hand s)) in *.
  split; unfold hand in *; cbn [ps_todo ps_hand ps_pipe ps_world p_ring p_alloc SimpleAllocator.simple_msg_free
    SimpleAllocator.used SimpleAllocator.capacity]; try done.
  - by rewrite H1, <- app_assoc.
  - rewrite deliver_app, H2. cbn. by rewrite Ew.
  - rewrite Hu. destruct (Z.ltb_spec (msg_len msg + zsum (msg_len <$> q ++ match ps_hand s with Some m => [m] | None => [] end)) (msg_len msg)); [lia|].
    rewrite u64_small by lia. lia.
  - lia.
Qed.

Lemma turns_pinv ts s sent q :
  pinv s sent q -> exists s' sent' q', take_turns ts s = Some s' /\ pinv s' sent' q'.
Proof.
  revert s sent q. induction ts as [|t ts IH]; intros s sent q H; [by eauto 10|]. cbn [take_turns].
  assert (exists s1 sent1 q1, take_turn t s = Some s1 /\ pinv s1 sent1 q1) as (s1 & sent1 & q1 & -> & H1).
  { destruct t as [ok|]; cbn.
    - destruct (capture_pinv ok _ _ _ H) as (s1 & q1 & E & H1). eauto.
    - pose proof (output_pinv _ _ _ H) as Ho. destruct q as [|m q]; [by eauto|].
      destruct Ho as (s1 & E & H1 & _). eauto. }
  obind. by apply (IH s1 sent1 q1).
Qed.

(** Nothing left to capture: draining the ring finishes the work. *)
Lemma drain_pinv q s sent :
  pinv s sent q ->
  exists p w, drain_loop (length q) (ps_pipe s) (ps_world s) = Some (p, w) /\
    pinv (PSys (ps_todo s) (ps_hand s) p w) (sent ++ q) [].
Proof.
  revert s sent. induction q as [|msg q IH]; intros s sent H.
  { exists (ps_pipe s), (ps_world s). split; [done|]. rewrite app_nil_r. by destruct s. }
  destruct (output_pinv _ _ _ H) as (s' & E & H' & Et & Eh). cbn [drain_loop length]. unfold output_turn in E.
  destruct (SpscRing.spsc_ring_pop no_msg (p_ring (ps_pipe s))) as [[m|] r] eqn:Er;
    [|pose proof (SpscRing.pop_spec no_msg _ _ (pi_ring _ _ _ H)) as (? & ? & ?); congruence].
  destruct (output_send_pkt_msg m (ps_world s)) as [w|]; [|done]. obind. cbn in E. injection E as <-.
  destruct (IH _ _ H') as (p' & w' & E' & H''). exists p', w'. split; [exact E'|]. by rewrite <- app_assoc in H''.
Qed.

Lemma settled_pinv s sent :
  pinv s sent [] -> ps_todo s = [] -> ps_hand s = None ->
  rtc_all es0 w0 = Some (ps_world s) /\ SpscRing.spsc_ring_used (p_ring (ps_pipe s)) = 0 /\
  SimpleAllocator.used (p_alloc (ps_pipe s)) = 0.
Proof.
  intros [H1 H2 Hr Hs Hu _ _ _ _] Et Eh. unfold hand in *. rewrite Et, Eh in *. cbn in H1. rewrite !app_nil_r in H1.
  split; [by rewrite <- deliver_events, H1|]. split; [apply (SpscRing.used_spec no_msg _ _ Hr)|done].
Qed.

(** ** No deadlock *)

Lemma turns_app ts1 ts2 s : take_turns (ts1 ++ ts2) s = s ← take_turns ts1 s; take_turns ts2 s.
Proof.
  revert s. induction ts1 as [|t ts IH]; intros s; [done|]. cbn. destruct (take_turn t s); [|done]. apply IH.
Qed.

Lemma empty_ring q s sent :
  pinv s sent q ->
  exists s' sent', take_turns (replicate (length q) OutputTurn) s = Some s' /\ pinv s' sent' [] /\
    ps_todo s' = ps_todo s /\ ps_hand s' = ps_hand s.
Proof.
  revert s sent. induction q as [|m q IH]; intros s sent H; [by exists s, sent|].
  destruct (output_pinv _ _ _ H) as (s1 & E & H1 & Et & Eh). destruct (IH _ _ H1) as (s2 & sent2 & E2 & H2 & Et2 & Eh2).
  exists s2, sent2. cbn. rewrite E. cbn. split; [done|]. split; [done|]. by rewrite Et2, Eh2.
Qed.

(** With the ring empty, a message in hand can be pushed. *)
Lemma empty_hand s sent :
  pinv s sent [] ->
  exists ts s' sent', take_turns ts s = Some s' /\ pinv s' sent' [] /\ ps_todo s' = ps_todo s /\ ps_hand s' = None.
Proof.
  destruct s as [todo [msg|] p w]; intros H; [|by exists [], (PSys todo None p w), sent].
  pose proof (push_pinv _ _ _ _ _ _ H) as Hp. destruct (push_msg p msg) as [p'|p'|p' m] eqn:E; [|done|].
  - destruct (empty_ring _ _ _ Hp) as (s2 & sent2 & E2 & H2 & Et & Eh).
    exists (CaptureTurn true :: [OutputTurn]), s2, sent2. cbn [take_turns take_turn].
    unfold capture_turn. cbn [ps_hand ps_todo ps_pipe ps_world]. rewrite E. obind. by split.
  - exfalso. destruct Hp as (_ & _ & Hp). change (zlen (@nil ring_msg_t)) with 0 in Hp. pose proof Hslots. lia.
Qed.

(** With nothing in transit, the next event is taken. *)
Lemma next_event s sent e todo :
  pinv s sent [] -> ps_hand s = None -> ps_todo s = e :: todo -> Forall (fun msg => msg_len msg <= cap) (event_msgs e) ->
  exists s' q', take_turns [CaptureTurn true] s = Some s' /\ pinv s' sent q' /\ ps_todo s' = todo.
Proof.
  intros H Eh Et Hsmall. destruct (capture_pinv true _ _ _ H) as (s' & q' & E & H').
  exists s', q'. cbn. rewrite E. split; [done|]. split; [done|].
  destruct s as [todo' hand' p w]. cbn in Et, Eh. subst todo' hand'. unfold capture_turn in E.
  cbn [ps_hand ps_todo ps_pipe ps_world] in E.
  destruct (pi_todo _ _ _ H) as [n Ht]. apply Forall_cons in Ht as [He _].
  pose proof (pi_used _ _ _ H : SimpleAllocator.used (p_alloc p) = 0) as Hu.
  pose proof (pi_cap _ _ _ H : SimpleAllocator.capacity (p_alloc p) = cap) as Hc.
  destruct (event_turn e n true p He ltac:(lia)) as [_ Ev]. rewrite Ev in E. cbn in E.
  destruct (event_msgs e) as [|msg l]; [by injection E as <-|]. apply Forall_cons in Hsmall as [Hm _].
  rewrite Hu, Hc in E. cbn [andb] in E. rewrite Z.add_0_l in E. apply Z.leb_le in Hm. rewrite Hm in E.
  destruct (push_msg _ msg) as [p'|p'|p' m] eqn:Ep; [by injection E as <-| |by injection E as <-].
  unfold push_msg in Ep. by destruct (SpscRing.spsc_ring_push _ _) as [[|] ?].
Qed.

Lemma finish todo s sent q :
  pinv s sent q -> ps_todo s = todo -> Forall (fun msg => msg_len msg <= cap) (all_msgs todo) ->
  exists ts s' sent', take_turns ts s = Some s' /\ pinv s' sent' [] /\ ps_todo s' = [] /\ ps_hand s' = None.
Proof.
  revert s sent q. induction todo as [|e todo IH]; intros s sent q H Et Hsmall;
    destruct (empty_ring _ _ _ H) as (s1 & sent1 & E1 & H1 & Et1 & _);
    destruct (empty_hand _ _ H1) as (ts2 & s2 & sent2 & E2 & H2 & Et2 & Eh2).
  - exists (replicate (length q) OutputTurn ++ ts2), s2, sent2. rewrite turns_app, E1. cbn. rewrite E2.
    split; [done|]. split; [done|]. by rewrite Et2, Et1.
  - rewrite all_msgs_cons in Hsmall. apply Forall_app in Hsmall as [Hs1 Hs2].
    destruct (next_event s2 sent2 e todo H2 Eh2) as (s3 & q3 & E3 & H3 & Et3); [by rewrite Et2, Et1|done|].
    destruct (IH s3 _ _ H3 Et3 Hs2) as (ts4 & s4 & sent4 & E4 & H4).
    exists (replicate (length q) OutputTurn ++ ts2 ++ [CaptureTurn true] ++ ts4), s4, sent4.
    rewrite turns_app, E1. cbn [mbind option_bind]. rewrite turns_app, E2. cbn [mbind option_bind].
    rewrite turns_app, E3. cbn [mbind option_bind]. by rewrite E4.
Qed.
End transit.

(** ** Theorems *)

(** C11: however the turns of the capture thread and the output thread are
    interleaved, no turn fails; and when the capture thread has passed
    everything on, draining the ring leaves exactly the outputs and counters
    that the run-to-completion callbacks would have left for the same events
    in the same order, an empty ring, and the whole buffer free. *)
Theorem pipeline_equals_rtc slots capacity es w ts :
  2 <= slots -> 0 <= capacity < 9223372036854775808 -> world_wf w -> Forall (event_ok (zlen (w_tasks w))) es ->
  exists s, take_turns ts (psys_init slots capacity es w) = Some s /\
    (ps_todo s = [] -> ps_hand s = None ->
     exists p' w', task_manager_output_drain_ring (ps_pipe s) (ps_world s) = Some (p', w') /\
       rtc_all es w = Some w' /\ SpscRing.spsc_ring_used (p_ring p') = 0 /\ SimpleAllocator.used (p_alloc p') = 0).
Proof.
  intros Hs Hc Hw Hes. destruct (rtc_all_accounts es w Hw Hes) as (wf & Ef & _).
  assert (is_Some (rtc_all es w)) as Hall by by exists wf.
  destruct (turns_pinv slots capacity es w Hc Hall ts _ _ _ (pinv_init slots capacity es w Hs Hc _ Hes))
    as (s & sent & q & E & H).
  exists s. split; [done|]. intros Et Eh.
  destruct (drain_pinv slots capacity es w Hc Hall q s sent H) as (p' & w' & Ed & Hd).
  exists p', w'. unfold task_manager_output_drain_ring.
  rewrite (SpscRing.used_spec no_msg _ _ (pi_ring _ _ _ _ _ _ _ H)). unfold zlen. rewrite Nat2Z.id. split; [done|].
  exact (settled_pinv _ _ _ _ _ _ Hd Et Eh).
Qed.

(** C14: the retry loops never deadlock: after any turns, if every message by
    itself fits into the buffer, the two threads can go on until every event
    has been delivered, the ring is empty and the buffer free. *)
Theorem pipeline_completes slots capacity es w ts :
  2 <= slots -> 0 <= capacity < 9223372036854775808 -> world_wf w -> Forall (event_ok (zlen (w_tasks w))) es ->
  Forall (fun msg => msg_len msg <= capacity) (all_msgs es) ->
  exists ts' s, take_turns (ts ++ ts') (psys_init slots capacity es w) = Some s /\
    ps_todo s = [] /\ ps_hand s = None /\ rtc_all es w = Some (ps_world s) /\
    SpscRing.spsc_ring_used (p_ring (ps_pipe s)) = 0 /\ SimpleAllocator.used (p_alloc (ps_pipe s)) = 0.
Proof.
  intros Hs Hc Hw Hes Hsmall. destruct (rtc_all_accounts es w Hw Hes) as (wf & Ef & _).
  assert (is_Some (rtc_all es w)) as Hall by by exists wf.
  destruct (turns_pinv slots capacity es w Hc Hall ts _ _ _ (pinv_init slots capacity es w Hs Hc _ Hes))
    as (s & sent & q & E & H).
  assert (Forall (fun msg => msg_len msg <= capacity) (all_msgs (ps_todo s))) as Ht.
  { rewrite (pi_split _ _ _ _ _ _ _ H) in Hsmall. by do 3 apply Forall_app in Hsmall as [_ Hsmall]. }
  destruct (finish slots capacity es w Hs Hc Hall _ s _ _ H eq_refl Ht) as (ts' & s' & sent' & E' & H' & Et & Eh).
  exists ts', s'. rewrite turns_app, E. cbn [mbind option_bind]. split; [done|]. split; [done|]. split; [done|].
  exact (settled_pinv _ _ _ _ _ _ H' Et Eh).
Qed.

(** C13: over any history of packets and heartbeats and any outputs of any
    kind: no call touches memory out of bounds, and the shared counters plus
    what the outputs still hold back account for every packet once per output
    of its task, with the length that output counts; frames shorter than an
    Ethernet header and heartbeats count nothing. *)
Theorem all_packets_accounted es w :
  world_wf w -> Forall (event_ok (zlen (w_tasks w))) es ->
  exists w', rtc_all es w = Some w' /\ world_wf w' /\
    accounted (zsum (event_packets w <$> es)) (zsum (event_bytes w <$> es))
      (w_stats w) (all_outputs w) (w_stats w') (all_outputs w').
Proof.
  intros Hw Hes. destruct (rtc_all_accounts es w Hw Hes) as (w' & E & Hw' & _ & Ha). by exists w'.
Qed.

(** One task with a null output (sliced to 20 bytes) and a ZMQ output. *)
Definition demo_world : world :=
  World output_stats_zero
    [[AnyOutput _ NullOutput.null_ops NullOutput.null_laws null_shared (NullOutput.null_output_new 0 20 output_stats_zero);
      AnyOutput _ (ZmqOutput.zmq_ops ZmqOutput.demo_send) (ZmqOutput.zmq_laws ZmqOutput.demo_send)
        (zmq_shared ZmqOutput.demo_send ZmqOutput.demo_now) ZmqOutput.demo_new]].

Definition demo_events : list event :=
  [EvPacket 0 (Pkthdr 20 0 60 60) (replicate 60 7) PKT_DIR_NONCHECK; EvHeartbeat 0 21;
   EvPacket 0 (Pkthdr 21 0 10 60) (replicate 10 7) PKT_DIR_NONCHECK;
   EvPacket 0 (Pkthdr 22 0 60 60) (replicate 60 7) PKT_DIR_UNKNOWN].

Lemma demo_world_wf : world_wf demo_world.
Proof.
  split; [exact stats_zero_wf|]. constructor; [|constructor; [|constructor]].
  - apply common_new_wf; [exact stats_zero_wf|lia].
  - split; [exact (proj1 ZmqOutput.demo_new_ok)|exists [], 0; exact (proj2 ZmqOutput.demo_new_ok)].
Qed.

Lemma demo_events_ok : Forall (event_ok (zlen (w_tasks demo_world))) demo_events.
Proof.
  change (zlen (w_tasks demo_world)) with 1.
  repeat (apply Forall_cons; split); [..|by apply Forall_nil]; cbn [event_ok]; try lia;
    (split; [lia|]; split; [by repeat constructor|]; split; [reflexivity|unfold dir_ok; tauto]).
Qed.

Lemma all_packets_accounted_witness :
  exists w', rtc_all demo_events demo_world = Some w' /\ world_wf w' /\
    accounted 4 160 (w_stats demo_world) (all_outputs demo_world) (w_stats w') (all_outputs w').
Proof. exact (all_packets_accounted demo_events demo_world demo_world_wf demo_events_ok). Defined.

Lemma pipeline_equals_rtc_witness :
  exists s, take_turns (CaptureTurn true :: OutputTurn :: replicate 4 (CaptureTurn true))
              (psys_init 4 300 demo_events demo_world) = Some s /\
    exists p' w', task_manager_output_drain_ring (ps_pipe s) (ps_world s) = Some (p', w') /\
      rtc_all demo_events demo_world = Some w'.
Proof.
  destruct (pipeline_equals_rtc 4 300 demo_events demo_world
    (CaptureTurn true :: OutputTurn :: replicate 4 (CaptureTurn true)) ltac:(lia) ltac:(lia) demo_world_wf demo_events_ok)
    as (s & E & Hs).
  exists s. split; [exact E|].
  assert (option_map ps_todo (Some s) = Some [] /\ option_map ps_hand (Some s) = Some None) as [Et Eh]
    by (rewrite <- E; split; reflexivity).
  injection Et as Et. injection Eh as Eh. destruct (Hs Et Eh) as (p' & w' & Hd & Hr & _). exists p', w'. exact (conj Hd Hr).
Defined.

Lemma pipeline_completes_witness :
  exists ts' s, take_turns ([CaptureTurn false; OutputTurn; CaptureTurn true] ++ ts')
                  (psys_init 2 152 demo_events demo_world) = Some s /\
    ps_todo s = [] /\ rtc_all demo_events demo_world = Some (ps_world s).
Proof.
  destruct (pipeline_completes 2 152 demo_events demo_world [CaptureTurn false; OutputTurn; CaptureTurn true]
    ltac:(lia) ltac:(lia) demo_world_wf demo_events_ok) as (ts' & s & E & Et & _ & Ew & _).
  { repeat (apply Forall_cons; split); [..|by apply Forall_nil]; vm_compute; discriminate. }
  exists ts', s. exact (conj E (conj Et Ew)).
Defined.
