(* ===== verification/ReqPattern.v ===== *)
(** * Request patterns (req_pattern.c, ip.c)

    The expressions that tell the requests of a service from its answers
    ("host 10.0.0.1 and (port 80 or port 443)"): lexer, recursive-descent
    parser and evaluation, and the grammar the parser decides.

    A C string is the [string] of the characters before its NUL.  [malloc] is
    taken to succeed, as the code takes it to. *)

From Stdlib Require Import Ascii String.
From stdpp Require Import prelude list list_numbers strings.
From S2P Require Import Prelude.
Open Scope string_scope.
Open Scope list_scope.
Open Scope Z_scope.

(** ** Addresses *)

(** [s_addr] is the 32-bit word as stored, [s6_addr] the 16 bytes. *)
Inductive ip_addr_t := IPv4 (s_addr : Z) | IPv6 (s6_addr : list Z).

Definition ip_addr_equal (a b : ip_addr_t) : bool :=
  match a, b with
  | IPv4 x, IPv4 y => x =? y
  | IPv6 x, IPv6 y => bool_decide (x = y)
  | _, _ => false
  end.

(** ** Characters (C locale) *)

Definition isspace (c : ascii) : bool :=
  let n := Z.of_N (N_of_ascii c) in ((9 <=? n) && (n <=? 13)) || (n =? 32).
Definition isdigit (c : ascii) : bool :=
  let n := Z.of_N (N_of_ascii c) in (48 <=? n) && (n <=? 57).
Definition isalpha (c : ascii) : bool :=
  let n := Z.of_N (N_of_ascii c) in ((65 <=? n) && (n <=? 90)) || ((97 <=? n) && (n <=? 122)).
Definition isalnum (c : ascii) : bool := isdigit c || isalpha c.

(** ** Tokens *)

Inductive TokenType :=
| TOKEN_HOST | TOKEN_PORT | TOKEN_AND | TOKEN_OR | TOKEN_LPAREN | TOKEN_RPAREN
| TOKEN_VALUE (value : string) | TOKEN_EOF | TOKEN_ERROR.

#[export] Instance TokenType_eq_dec : EqDecision TokenType.
Proof. solve_decision. Defined.

(** [s] without the prefix [p]. *)
Fixpoint strip (p s : string) : option string :=
  match p, s with
  | EmptyString, _ => Some s
  | String c p, String d s => if Ascii.eqb c d then strip p s else None
  | _, _ => None
  end.

(** [strncmp(s, kw, strlen(kw)) == 0 && !isalnum(s[strlen(kw)])]: the rest. *)
Definition keyword (kw s : string) : option string :=
  match strip kw s with
  | Some (String c rest) => if isalnum c then None else Some (String c rest)
  | Some EmptyString => Some EmptyString
  | None => None
  end.

Definition at_keyword (kw s : string) : bool := bool_decide (is_Some (keyword kw s)).

Fixpoint skip_space (s : string) : string :=
  match s with
  | String c s' => if isspace c then skip_space s' else s
  | EmptyString => EmptyString
  end.

(** The loop that reads a value, and what is left. *)
Fixpoint read_value (s : string) : string * string :=
  match s with
  | EmptyString => (EmptyString, EmptyString)
  | String c s' =>
      if isspace c || Ascii.eqb c "("%char || Ascii.eqb c ")"%char then (EmptyString, s)
      else if at_keyword "and" s then (EmptyString, s)
      else if at_keyword "or" s then (EmptyString, s)
      else let '(v, rest) := read_value s' in (String c v, rest)
  end.

Definition get_next_token (input : string) : TokenType * string :=
  let s := skip_space input in
  match s with
  | EmptyString => (TOKEN_EOF, s)
  | String c s' =>
      match keyword "host" s with Some r => (TOKEN_HOST, r) | None =>
      match keyword "port" s with Some r => (TOKEN_PORT, r) | None =>
      match keyword "and" s with Some r => (TOKEN_AND, r) | None =>
      match keyword "or" s with Some r => (TOKEN_OR, r) | None =>
      if Ascii.eqb c "("%char then (TOKEN_LPAREN, s')
      else if Ascii.eqb c ")"%char then (TOKEN_RPAREN, s')
      else let '(v, r) := read_value s in (TOKEN_VALUE v, r)
      end end end end
  end.

(** ** Conditions *)

Inductive ConditionType := COND_HOST | COND_PORT.
Inductive OperatorType := OP_AND | OP_OR.

Inductive Node :=
| NODE_HOST (addr : ip_addr_t)
| NODE_PORT (port : Z)
| NODE_OPERATOR (op_type : OperatorType) (left right : Node).

(** The digits of [strtol] in base 10: value and rest. *)
Fixpoint strtol_digits (acc : Z) (s : string) : Z * string :=
  match s with
  | String c s' =>
      if isdigit c then strtol_digits (acc * 10 + (Z.of_N (N_of_ascii c) - 48)) s' else (acc, s)
  | EmptyString => (acc, s)
  end.

Definition LONG_MAX : Z := 9223372036854775807.

(** [strtol(s, &end, 10)]: value, [end], and whether [errno] is [ERANGE]. *)
Definition strtol (s : string) : Z * string * bool :=
  let t := skip_space s in
  let '(neg, t) :=
    match t with
    | String c t' => if Ascii.eqb c "-"%char then (true, t')
                     else if Ascii.eqb c "+"%char then (false, t') else (false, t)
    | EmptyString => (false, t)
    end in
  match t with
  | String c _ =>
      if isdigit c then
        let '(n, rest) := strtol_digits 0 t in
        let n := if neg then - n else n in
        if n <? - LONG_MAX - 1 then (- LONG_MAX - 1, rest, true)
        else if LONG_MAX <? n then (LONG_MAX, rest, true) else (n, rest, false)
      else (0, s, false)
  | EmptyString => (0, s, false)
  end.

Section code.

(** The socket library's [inet_pton] for the two families, and the interface
    lookup the caller passes in; [None] is a failure. *)
Context (inet_pton4 : string -> option Z) (inet_pton6 : string -> option (list Z)).
Context (get_ip : string -> option ip_addr_t).

Definition create_condition_node (type : ConditionType) (value : string) : option Node :=
  match type with
  | COND_HOST =>
      match strip "nic." value with
      | Some ifname => NODE_HOST <$> get_ip ifname
      | None =>
          match inet_pton4 value with
          | Some a => Some (NODE_HOST (IPv4 a))
          | None => match inet_pton6 value with
                    | Some a => Some (NODE_HOST (IPv6 a))
                    | None => None
                    end
          end
      end
  | COND_PORT =>
      let plain_decimal :=
        match value with
        | String c rest =>
            isdigit c && negb (Ascii.eqb c "0"%char && negb (bool_decide (rest = EmptyString)))
        | EmptyString => false
        end in
      let '(port, endptr, erange) := strtol value in
      if negb plain_decimal || erange || negb (bool_decide (endptr = EmptyString))
         || (port <? 0) || (65535 <? port)
      then None else Some (NODE_PORT (u16 port))
  end.

(** ** The parser

    [input] and [current_token]; the outer [None] of a result is that the
    fuel ran out, the inner one is [NULL]. *)
Record pstate := PState { input : string; current : TokenType }.

Definition next_token (st : pstate) : pstate :=
  let '(t, s) := get_next_token (input st) in PState s t.

Definition presult : Type := option (option Node * pstate).

Definition parse_condition (st : pstate) : option Node * pstate :=
  match current st with
  | TOKEN_HOST =>
      let st := next_token st in
      match current st with
      | TOKEN_VALUE value => let st := next_token st in (create_condition_node COND_HOST value, st)
      | _ => (None, st)
      end
  | TOKEN_PORT =>
      let st := next_token st in
      match current st with
      | TOKEN_VALUE value => let st := next_token st in (create_condition_node COND_PORT value, st)
      | _ => (None, st)
      end
  | _ => (None, st)
  end.

(** The [while] of [parse_term] ([tok] is [TOKEN_AND]) and of
    [parse_expression] ([TOKEN_OR]); [sub] parses the right operand. *)
Fixpoint operand_loop (tok : TokenType) (op : OperatorType) (sub : pstate -> presult) (fuel : nat)
    (lhs : Node) (st : pstate) : presult :=
  match fuel with
  | O => None
  | S fuel =>
      if bool_decide (current st = tok) then
        '(rhs, st) ← sub (next_token st);
        match rhs with
        | None => Some (None, st)
        | Some rhs => operand_loop tok op sub fuel (NODE_OPERATOR op lhs rhs) st
        end
      else Some (Some lhs, st)
  end.

Definition parse_factor (parse_expression : pstate -> presult) (st : pstate) : presult :=
  if bool_decide (current st = TOKEN_LPAREN) then
    '(expr, st) ← parse_expression (next_token st);
    if bool_decide (current st = TOKEN_RPAREN) then Some (expr, next_token st)
    else Some (None, st)
  else Some (parse_condition st).

Definition parse_term (parse_expression : pstate -> presult) (fuel : nat) (st : pstate) : presult :=
  '(lhs, st) ← parse_factor parse_expression st;
  match lhs with
  | None => Some (None, st)
  | Some lhs => operand_loop TOKEN_AND OP_AND (parse_factor parse_expression) fuel lhs st
  end.

Fixpoint parse_expression (fuel : nat) (st : pstate) : presult :=
  match fuel with
  | O => None
  | S fuel =>
      '(lhs, st) ← parse_term (parse_expression fuel) fuel st;
      match lhs with
      | None => Some (None, st)
      | Some lhs => operand_loop TOKEN_OR OP_OR (parse_term (parse_expression fuel) fuel) fuel lhs st
      end
  end.

(** One more than the tokens of a pattern. *)
Definition parse_fuel (pattern : string) : nat := S (S (String.length pattern)).

(** [Some None] is the return value -1. *)
Definition req_pattern_custom_matcher_init (pattern : string) : option (option Node) :=
  '(ast, st) ← parse_expression (parse_fuel pattern) (next_token (PState pattern TOKEN_ERROR));
  match ast with
  | None => Some None
  | Some ast => if bool_decide (current st = TOKEN_EOF) then Some (Some ast) else Some None
  end.

Fixpoint evaluate (node : Node) (ip : ip_addr_t) (port : Z) : bool :=
  match node with
  | NODE_HOST addr => ip_addr_equal addr ip
  | NODE_PORT p => p =? port
  | NODE_OPERATOR op l r =>
      let left := evaluate l ip port in
      let right := evaluate r ip port in
      match op with OP_AND => left && right | OP_OR => left || right end
  end.

(** ** The grammar *)

(** The tokens of a text. *)
Fixpoint lex_n (n : nat) (s : string) : list TokenType :=
  match n with
  | O => []
  | S n => match get_next_token s with
           | (TOKEN_EOF, _) => []
           | (t, rest) => t :: lex_n n rest
           end
  end.

Definition lex (s : string) : list TokenType := lex_n (String.length s) s.

(** Left-associative operators, [and] binding tighter than [or]. *)
Inductive Expr : list TokenType -> Node -> Prop :=
| expr_term ts n : Term ts n -> Expr ts n
| expr_or ts1 a ts2 b :
    Expr ts1 a -> Term ts2 b -> Expr (ts1 ++ TOKEN_OR :: ts2) (NODE_OPERATOR OP_OR a b)
with Term : list TokenType -> Node -> Prop :=
| term_factor ts n : Factor ts n -> Term ts n
| term_and ts1 a ts2 b :
    Term ts1 a -> Factor ts2 b -> Term (ts1 ++ TOKEN_AND :: ts2) (NODE_OPERATOR OP_AND a b)
with Factor : list TokenType -> Node -> Prop :=
| factor_paren ts n : Expr ts n -> Factor (TOKEN_LPAREN :: ts ++ [TOKEN_RPAREN]) n
| factor_host v n : create_condition_node COND_HOST v = Some n -> Factor [TOKEN_HOST; TOKEN_VALUE v] n
| factor_port v n : create_condition_node COND_PORT v = Some n -> Factor [TOKEN_PORT; TOKEN_VALUE v] n.

Scheme Expr_mut := Induction for Expr Sort Prop
with Term_mut := Induction for Term Sort Prop
with Factor_mut := Induction for Factor Sort Prop.
Combined Scheme grammar_ind from Expr_mut, Term_mut, Factor_mut.

(** ** The lexer makes progress *)

Lemma strip_length p s r : strip p s = Some r -> String.length s = (String.length p + String.length r)%nat.
Proof.
  revert s. induction p as [|c p IH]; intros s; [by intros [= ->]|].
  destruct s as [|d s]; [done|]. cbn. destruct (Ascii.eqb c d); [|done]. intros E. by rewrite (IH s E).
Qed.

Lemma keyword_length kw s r :
  keyword kw s = Some r -> String.length s = (String.length kw + String.length r)%nat.
Proof.
  unfold keyword. destruct (strip kw s) as [[|c r']|] eqn:E; [| |done].
  - intros [= <-]. by apply strip_length in E.
  - destruct (isalnum c); [done|]. intros [= <-]. by apply strip_length in E.
Qed.

Lemma at_keyword_none kw s : keyword kw s = None -> at_keyword kw s = false.
Proof. unfold at_keyword. by intros ->. Qed.

Lemma skip_space_length s : (String.length (skip_space s) <= String.length s)%nat.
Proof. induction s as [|c s IH]; cbn; [done|]. destruct (isspace c); cbn; lia. Qed.

Lemma skip_space_head s c r : skip_space s = String c r -> isspace c = false.
Proof.
  induction s as [|d s IH]; cbn; [done|]. destruct (isspace d) eqn:E; [done|]. by intros [= <- _].
Qed.

Lemma read_value_length s :
  let '(v, r) := read_value s in String.length s = (String.length v + String.length r)%nat.
Proof.
  induction s as [|c s IH]; [done|]. cbn [read_value].
  destruct (_ || _ || _); [done|]. destruct (at_keyword "and" _); [done|].
  destruct (at_keyword "or" _); [done|]. destruct (read_value s) as [v r]. cbn. lia.
Qed.

Lemma token_progress s t r :
  get_next_token s = (t, r) -> t <> TOKEN_EOF -> (String.length r < String.length s)%nat.
Proof.
  unfold get_next_token. pose proof (skip_space_length s) as Hl.
  destruct (skip_space s) as [|c s'] eqn:Es; [by intros [= <- <-]|].
  apply skip_space_head in Es.
  destruct (keyword "host" _) eqn:Ek; [apply keyword_length in Ek; intros [= <- <-] _; cbn in *; lia|clear Ek].
  destruct (keyword "port" _) eqn:Ek; [apply keyword_length in Ek; intros [= <- <-] _; cbn in *; lia|clear Ek].
  destruct (keyword "and" _) eqn:Ea; [apply keyword_length in Ea; intros [= <- <-] _; cbn in *; lia|].
  destruct (keyword "or" _) eqn:Eo; [apply keyword_length in Eo; intros [= <- <-] _; cbn in *; lia|].
  destruct (Ascii.eqb c "(") eqn:El; [intros [= <- <-] _; cbn in *; lia|].
  destruct (Ascii.eqb c ")") eqn:Er; [intros [= <- <-] _; cbn in *; lia|].
  cbn [read_value]. rewrite Es, El, Er, (at_keyword_none _ _ Ea), (at_keyword_none _ _ Eo). cbn [orb].
  pose proof (read_value_length s') as Hr. destruct (read_value s') as [v r'].
  intros [= <- <-] _. cbn in *. lia.
Qed.

Lemma lex_n_ext n m s :
  (String.length s <= n)%nat -> (String.length s <= m)%nat -> lex_n n s = lex_n m s.
Proof.
  revert m s. induction n as [|n IH]; intros m s Hn Hm.
  { destruct s; [|cbn in Hn; lia]. by destruct m. }
  destruct m as [|m]; [destruct s; [done|cbn in Hm; lia]|].
  cbn [lex_n]. destruct (get_next_token s) as [t r] eqn:E.
  destruct (decide (t = TOKEN_EOF)) as [->|Hne]; [done|].
  pose proof (token_progress s t r E Hne). rewrite (IH m r) by lia. by destruct t.
Qed.

Lemma lex_eq s :
  lex s = match get_next_token s with
          | (TOKEN_EOF, _) => []
          | (t, rest) => t :: lex rest
          end.
Proof.
  unfold lex at 1. rewrite (lex_n_ext _ (S (String.length s))) by lia. cbn [lex_n].
  destruct (get_next_token s) as [t r] eqn:E.
  destruct (decide (t = TOKEN_EOF)) as [->|Hne]; [done|].
  pose proof (token_progress s t r E Hne). unfold lex.
  rewrite (lex_n_ext (String.length s) (String.length r) r) by lia. by destruct t.
Qed.

Lemma lex_length s : (length (lex s) <= String.length s)%nat.
Proof.
  remember (String.length s) as n eqn:Hn. revert s Hn. induction (lt_wf n) as [n _ IH].
  intros s ->. rewrite lex_eq. destruct (get_next_token s) as [t r] eqn:E.
  destruct (decide (t = TOKEN_EOF)) as [->|Hne]; [cbn; lia|].
  pose proof (token_progress s t r E Hne) as Hp. pose proof (IH _ Hp r eq_refl).
  destruct t; cbn [length]; (done || lia).
Qed.

(** ** The token stream of a parser state *)

Definition stream (st : pstate) : list TokenType :=
  if bool_decide (current st = TOKEN_EOF) then [] else current st :: lex (input st).

Lemma stream_next st t ts : stream st = t :: ts -> stream (next_token st) = ts.
Proof.
  unfold stream at 1. case_bool_decide; [done|]. intros [= _ <-]. rewrite lex_eq.
  unfold next_token, stream. destruct (get_next_token (input st)) as [t' r]. by destruct t'.
Qed.

Lemma stream_current st : current st = hd TOKEN_EOF (stream st).
Proof. unfold stream. by case_bool_decide. Qed.

Lemma stream_start s : stream (next_token (PState s TOKEN_ERROR)) = lex s.
Proof. by apply (stream_next _ TOKEN_ERROR). Qed.

Lemma stream_cons st : current st <> TOKEN_EOF -> exists ts, stream st = current st :: ts.
Proof. intros. unfold stream. rewrite bool_decide_false by done. eauto. Qed.

(** What a parser that succeeds has read: a phrase of [G]. *)
Definition sound (G : list TokenType -> Node -> Prop) (sub : pstate -> presult) : Prop :=
  forall st n st', sub st = Some (Some n, st') -> exists ts, stream st = ts ++ stream st' /\ G ts n.

Lemma condition_sound st n st' :
  parse_condition st = (Some n, st') -> exists ts, stream st = ts ++ stream st' /\ Factor ts n.
Proof.
  unfold parse_condition. destruct (current st) eqn:E; try done;
    (destruct (stream_cons st) as [ts Hts]; [congruence|]; rewrite E in Hts;
     pose proof (stream_next _ _ _ Hts) as H1;
     destruct (current (next_token st)) as [| | | | | |v| |] eqn:E1; try done;
     destruct (stream_cons (next_token st)) as [ts1 Hts1]; [congruence|]; rewrite E1 in Hts1;
     pose proof (stream_next _ _ _ Hts1) as H2; intros [= Hc <-]).
  - exists [TOKEN_HOST; TOKEN_VALUE v]. split; [|by constructor]. rewrite Hts, <- H1, Hts1, H2. done.
  - exists [TOKEN_PORT; TOKEN_VALUE v]. split; [|by constructor]. rewrite Hts, <- H1, Hts1, H2. done.
Qed.

Lemma operand_loop_sound tok op sub (G H : list TokenType -> Node -> Prop) :
  tok <> TOKEN_EOF -> sound G sub ->
  (forall ts1 a ts2 b, H ts1 a -> G ts2 b -> H (ts1 ++ tok :: ts2) (NODE_OPERATOR op a b)) ->
  forall k lhs st n st' ts0, H ts0 lhs -> operand_loop tok op sub k lhs st = Some (Some n, st') ->
  exists ts, stream st = ts ++ stream st' /\ H (ts0 ++ ts) n.
Proof.
  intros Htok Hs Hop k. induction k as [|k IH]; intros lhs st n st' ts0 H0; [done|]. cbn [operand_loop].
  case_bool_decide as E.
  - destruct (sub (next_token st)) as [[[rhs|] st1]|] eqn:Es; [|done|done]. obind.
    destruct (stream_cons st) as [ts Hts]; [congruence|].
    destruct (Hs _ _ _ Es) as (ts1 & E1 & G1). rewrite (stream_next _ _ _ Hts) in E1.
    intros Hl. destruct (IH _ _ _ _ (ts0 ++ tok :: ts1) (Hop _ _ _ _ H0 G1) Hl) as (ts2 & E2 & H2).
    exists (tok :: ts1 ++ ts2). split; [|by rewrite <- app_assoc in H2].
    rewrite Hts, E, E1, E2. cbn. by rewrite app_assoc.
  - intros [= <- <-]. exists []. by rewrite app_nil_r.
Qed.

Lemma factor_sound pe : sound Expr pe -> sound Factor (parse_factor pe).
Proof.
  intros Hpe st n st'. unfold parse_factor. case_bool_decide as E.
  - destruct (pe (next_token st)) as [[e st1]|] eqn:Ee; [|done]. obind.
    case_bool_decide as E1; [|done]. intros [= -> <-].
    destruct (Hpe _ _ _ Ee) as (ts & Ets & He).
    destruct (stream_cons st) as [ts0 H0]; [congruence|]. rewrite (stream_next _ _ _ H0) in Ets.
    destruct (stream_cons st1) as [ts1 H1]; [congruence|].
    exists (TOKEN_LPAREN :: ts ++ [TOKEN_RPAREN]). split; [|by constructor].
    rewrite (stream_next _ _ _ H1), H0, E, Ets, H1, E1. cbn. by rewrite <- app_assoc.
  - intros [= Hc]. by apply condition_sound.
Qed.

Lemma term_sound pe k : sound Expr pe -> sound Term (parse_term pe k).
Proof.
  intros Hpe st n st'. unfold parse_term.
  destruct (parse_factor pe st) as [[[lhs|] st1]|] eqn:Ef; [|done|done]. obind.
  destruct (factor_sound pe Hpe _ _ _ Ef) as (ts & Ets & Hf). intros Hl.
  destruct (operand_loop_sound TOKEN_AND OP_AND _ Factor Term ltac:(done) (factor_sound pe Hpe) term_and
    _ _ _ _ _ ts (term_factor _ _ Hf) Hl) as (ts1 & E1 & H1).
  exists (ts ++ ts1). by rewrite Ets, E1, app_assoc.
Qed.

Lemma expression_sound n : sound Expr (parse_expression n).
Proof.
  induction n as [|n IH]; intros st e st'; [done|]. cbn [parse_expression].
  destruct (parse_term (parse_expression n) n st) as [[[lhs|] st1]|] eqn:Ef; [|done|done]. obind.
  destruct (term_sound _ n IH _ _ _ Ef) as (ts & Ets & Hf). intros Hl.
  destruct (operand_loop_sound TOKEN_OR OP_OR _ Term Expr ltac:(done) (term_sound _ n IH) expr_or
    _ _ _ _ _ ts (expr_term _ _ Hf) Hl) as (ts1 & E1 & H1).
  exists (ts ++ ts1). by rewrite Ets, E1, app_assoc.
Qed.

(** ** The parser terminates *)

Abbreviation slen st := (length (stream st)).

(** [sub] answers on every stream shorter than [b] and never un-reads; when
    it succeeds it has read something. *)
Definition bounded (sub : pstate -> presult) (b : nat) : Prop :=
  forall st, (slen st < b)%nat -> exists r st', sub st = Some (r, st') /\ (slen st' <= slen st)%nat /\
    (is_Some r -> slen st' < slen st)%nat.

Lemma next_length st : current st <> TOKEN_EOF -> slen st = S (slen (next_token st)).
Proof. intros H. destruct (stream_cons st H) as [ts E]. by rewrite E, (stream_next _ _ _ E). Qed.

Lemma condition_length st :
  let '(r, st') := parse_condition st in (slen st' <= slen st)%nat /\ (is_Some r -> slen st' < slen st)%nat.
Proof.
  unfold parse_condition. destruct (current st) eqn:E; try (split; [lia|by intros []]);
    (pose proof (next_length st ltac:(congruence)) as H1;
     destruct (current (next_token st)) eqn:E1; try (split; [lia|by intros []]);
     pose proof (next_length (next_token st) ltac:(congruence)) as H2; split; lia).
Qed.

Lemma operand_loop_total tok op sub b k lhs st :
  tok <> TOKEN_EOF -> bounded sub b -> (slen st < k)%nat -> (slen st <= b)%nat ->
  exists r st', operand_loop tok op sub k lhs st = Some (r, st') /\ (slen st' <= slen st)%nat.
Proof.
  intros Ht Hs. revert lhs st. induction k as [|k IH]; intros lhs st Hk Hb; [lia|]. cbn [operand_loop].
  case_bool_decide as E; [|by eexists _, st].
  pose proof (next_length st ltac:(congruence)).
  destruct (Hs (next_token st) ltac:(lia)) as ([rhs|] & st1 & Es & Hl & Hlt); rewrite Es; obind.
  - specialize (Hlt ltac:(done)).
    destruct (IH (NODE_OPERATOR op lhs rhs) st1) as (r & st' & El & Hl'); [lia|lia|].
    exists r, st'. split; [done|lia].
  - exists None, st1. split; [done|lia].
Qed.

Lemma factor_total pe b : bounded pe b -> bounded (parse_factor pe) (S b).
Proof.
  intros Hpe st Hst. unfold parse_factor. case_bool_decide as E.
  - pose proof (next_length st ltac:(congruence)).
    destruct (Hpe (next_token st) ltac:(lia)) as (r & st1 & Ee & Hl & _). rewrite Ee. obind.
    case_bool_decide as E1.
    + pose proof (next_length st1 ltac:(congruence)). exists r, (next_token st1). split_and!; [done|lia|lia].
    + exists None, st1. split_and!; [done|lia|by intros []].
  - pose proof (condition_length st) as Hc. destruct (parse_condition st) as [r st']. by exists r, st'.
Qed.

(** An operand followed by the loop over the rest. *)
Lemma operand_chain_total tok op sub b k st :
  tok <> TOKEN_EOF -> bounded sub (S b) -> (b <= k)%nat -> (slen st < S b)%nat ->
  exists r st', ('(l, st1) ← sub st;
     match l with None => Some (None, st1) | Some l => operand_loop tok op sub k l st1 end)
    = Some (r, st') /\ (slen st' <= slen st)%nat /\ (is_Some r -> slen st' < slen st)%nat.
Proof.
  intros Ht Hs Hk Hst. destruct (Hs st Hst) as ([l|] & st1 & E & Hl & Hlt); rewrite E; obind.
  - specialize (Hlt ltac:(done)).
    destruct (operand_loop_total tok op sub (S b) k l st1 Ht Hs) as (r & st' & El & Hl'); [lia|lia|].
    exists r, st'. split_and!; [done|lia|lia].
  - exists None, st1. split_and!; [done|lia|by intros []].
Qed.

Lemma term_total pe b k : bounded pe b -> (b <= k)%nat -> bounded (parse_term pe k) (S b).
Proof. intros Hpe Hk st Hst. apply operand_chain_total with b; try done. by apply factor_total. Qed.

Lemma expression_total n : bounded (parse_expression n) n.
Proof.
  induction n as [|n IH]; intros st Hst; [lia|].
  apply (operand_chain_total TOKEN_OR OP_OR _ n); try done. by apply term_total.
Qed.

(** ** The parser finds every phrase *)

Lemma grammar_nonempty :
  (forall ts n, Expr ts n -> (0 < length ts)%nat) /\ (forall ts n, Term ts n -> (0 < length ts)%nat) /\
  (forall ts n, Factor ts n -> (0 < length ts)%nat).
Proof. apply grammar_ind; intros; rewrite ?length_app; cbn; lia. Qed.

(** A loop in front of a token that is not its operator stops. *)
Lemma operand_loop_stop tok op sub k lhs st :
  (0 < k)%nat -> current st <> tok -> operand_loop tok op sub k lhs st = Some (Some lhs, st).
Proof. intros. destruct k; [lia|]. cbn. by rewrite bool_decide_false. Qed.

Lemma operand_loop_step tok op sub k lhs st rhs st1 :
  current st = tok -> sub (next_token st) = Some (Some rhs, st1) ->
  operand_loop tok op sub (S k) lhs st = operand_loop tok op sub k (NODE_OPERATOR op lhs rhs) st1.
Proof. intros Hc Hs. cbn. rewrite bool_decide_true by done. by rewrite Hs. Qed.

Definition finds_factor (ts : list TokenType) (node : Node) : Prop :=
  forall n st rest, stream st = ts ++ rest -> (slen st <= n)%nat ->
  exists st', parse_factor (parse_expression n) st = Some (Some node, st') /\ stream st' = rest.

Definition finds_term (ts : list TokenType) (node : Node) : Prop :=
  forall n st rest, stream st = ts ++ rest -> (slen st <= n)%nat ->
  exists st' k, stream st' = rest /\ (length rest < k)%nat /\
    parse_term (parse_expression n) n st =
    operand_loop TOKEN_AND OP_AND (parse_factor (parse_expression n)) k node st'.

Definition finds_expr (ts : list TokenType) (node : Node) : Prop :=
  forall n st rest, stream st = ts ++ rest -> hd TOKEN_EOF rest <> TOKEN_AND -> (slen st <= n)%nat ->
  exists st' k, stream st' = rest /\ (length rest < k)%nat /\
    parse_expression (S n) st =
    operand_loop TOKEN_OR OP_OR (parse_term (parse_expression n) n) k node st'.

(** A term not followed by [and] is parsed to its end. *)
Lemma finds_term_done ts node n st rest :
  finds_term ts node -> stream st = ts ++ rest -> hd TOKEN_EOF rest <> TOKEN_AND -> (slen st <= n)%nat ->
  exists st', parse_term (parse_expression n) n st = Some (Some node, st') /\ stream st' = rest.
Proof.
  intros Hf Hs Hh Hn. destruct (Hf n st rest Hs Hn) as (st' & k & Hs' & Hk & ->).
  exists st'. split; [|done]. apply operand_loop_stop; [lia|]. by rewrite stream_current, Hs'.
Qed.

Lemma finds_expr_term ts node : Term ts node -> finds_term ts node -> finds_expr ts node.
Proof.
  intros Ht Hf n st rest Hs Hh Hn.
  destruct (finds_term_done ts node n st rest Hf Hs Hh Hn) as (st' & E & Hs').
  exists st', n. split; [done|]. split.
  - pose proof (proj1 (proj2 grammar_nonempty) _ _ Ht). rewrite Hs, length_app in Hn. lia.
  - cbn [parse_expression]. by rewrite E.
Qed.

Lemma finds_expr_or ts1 a ts2 b :
  finds_expr ts1 a -> finds_term ts2 b -> finds_expr (ts1 ++ TOKEN_OR :: ts2) (NODE_OPERATOR OP_OR a b).
Proof.
  intros H1 H2 n st rest Hs Hh Hn. rewrite <- app_assoc in Hs.
  destruct (H1 n st ((TOKEN_OR :: ts2) ++ rest) Hs ltac:(done) Hn) as (st1 & k & Hs1 & Hk & E).
  rewrite Hs, !length_app in Hn. cbn in Hk, Hn. rewrite length_app in Hk.
  destruct k as [|k]; [lia|]. pose proof (stream_next _ _ _ Hs1) as Hs2.
  destruct (finds_term_done ts2 b n (next_token st1) rest H2 Hs2 Hh) as (st2 & E2 & Hs3).
  { rewrite Hs2, length_app. lia. }
  exists st2, k. split; [done|]. split; [lia|]. rewrite E. apply operand_loop_step; [|done].
  by rewrite stream_current, Hs1.
Qed.

Lemma finds_term_factor ts node : Factor ts node -> finds_factor ts node -> finds_term ts node.
Proof.
  intros Ht Hf n st rest Hs Hn. destruct (Hf n st rest Hs Hn) as (st' & E & Hs').
  exists st', n. split; [done|]. split.
  - pose proof (proj2 (proj2 grammar_nonempty) _ _ Ht). rewrite Hs, length_app in Hn. lia.
  - unfold parse_term. by rewrite E.
Qed.

Lemma finds_term_and ts1 a ts2 b :
  finds_term ts1 a -> finds_factor ts2 b -> finds_term (ts1 ++ TOKEN_AND :: ts2) (NODE_OPERATOR OP_AND a b).
Proof.
  intros H1 H2 n st rest Hs Hn. rewrite <- app_assoc in Hs.
  destruct (H1 n st ((TOKEN_AND :: ts2) ++ rest) Hs Hn) as (st1 & k & Hs1 & Hk & E).
  rewrite Hs, !length_app in Hn. cbn in Hk, Hn. rewrite length_app in Hk.
  destruct k as [|k]; [lia|]. pose proof (stream_next _ _ _ Hs1) as Hs2.
  destruct (H2 n (next_token st1) rest Hs2) as (st2 & E2 & Hs3).
  { rewrite Hs2, length_app. lia. }
  exists st2, k. split; [done|]. split; [lia|]. rewrite E. apply operand_loop_step; [|done].
  by rewrite stream_current, Hs1.
Qed.

Lemma finds_factor_paren ts node :
  finds_expr ts node -> finds_factor (TOKEN_LPAREN :: ts ++ [TOKEN_RPAREN]) node.
Proof.
  intros He n st rest Hs Hn. cbn in Hs. rewrite <- app_assoc in Hs.
  pose proof (stream_next _ _ _ Hs) as Hs1. unfold parse_factor.
  rewrite bool_decide_true by (by rewrite stream_current, Hs).
  assert (slen (next_token st) < n)%nat as Hl by (rewrite Hs1; rewrite Hs in Hn; cbn [length] in Hn; lia).
  destruct n as [|n]; [lia|].
  destruct (He n (next_token st) _ Hs1 ltac:(done) ltac:(lia)) as (st1 & k & Hs2 & Hk & E).
  rewrite E, operand_loop_stop; [|lia|by rewrite stream_current, Hs2]. obind.
  rewrite bool_decide_true by (by rewrite stream_current, Hs2).
  exists (next_token st1). split; [done|]. by apply (stream_next _ _ _ Hs2).
Qed.

Lemma finds_factor_condition tok type v node :
  (tok = TOKEN_HOST /\ type = COND_HOST) \/ (tok = TOKEN_PORT /\ type = COND_PORT) ->
  create_condition_node type v = Some node -> finds_factor [tok; TOKEN_VALUE v] node.
Proof.
  intros Ht Hc n st rest Hs Hn. cbn in Hs. pose proof (stream_next _ _ _ Hs) as Hs1.
  pose proof (stream_next _ _ _ Hs1) as Hs2.
  exists (next_token (next_token st)). split; [|done]. unfold parse_factor, parse_condition.
  rewrite (stream_current st), Hs, (stream_current (next_token st)), Hs1. cbn [hd].
  destruct Ht as [[-> ->]|[-> ->]]; rewrite bool_decide_false by done; by rewrite Hc.
Qed.

Lemma parser_finds :
  (forall ts n, Expr ts n -> finds_expr ts n) /\ (forall ts n, Term ts n -> finds_term ts n) /\
  (forall ts n, Factor ts n -> finds_factor ts n).
Proof.
  apply grammar_ind; intros;
    eauto using finds_expr_term, finds_expr_or, finds_term_factor, finds_term_and, finds_factor_paren;
    eapply finds_factor_condition; eauto.
Qed.

Lemma parse_pattern_spec pattern :
  exists r, req_pattern_custom_matcher_init pattern = Some r /\
    forall ast, r = Some ast <-> Expr (lex pattern) ast.
Proof.
  unfold req_pattern_custom_matcher_init, parse_fuel.
  pose proof (lex_length pattern) as Hlen. pose proof (stream_start pattern) as Hs.
  set (st := next_token _) in *.
  destruct (expression_total (S (S (String.length pattern))) st) as (r & st' & E & _).
  { rewrite Hs. lia. }
  assert (forall ast, Expr (lex pattern) ast -> r = Some ast /\ stream st' = []) as Hcomp.
  { intros ast He. destruct (proj1 parser_finds _ _ He (S (String.length pattern)) st [])
      as (st1 & k & Hs1 & Hk & E1); [by rewrite app_nil_r|done|rewrite Hs; lia|].
    rewrite E, operand_loop_stop in E1; [|cbn in Hk; lia|by rewrite stream_current, Hs1].
    by injection E1 as -> ->. }
  rewrite E. obind. destruct r as [ast'|].
  - case_bool_decide as Ec; (eexists; split; [reflexivity|]; intros ast; split).
    + intros [= <-]. destruct (expression_sound _ _ _ _ E) as (ts & Ets & He).
      assert (stream st' = []) as E0 by (unfold stream; by rewrite bool_decide_true).
      rewrite E0, app_nil_r in Ets. by rewrite <- Hs, Ets.
    + intros He. by destruct (Hcomp ast He).
    + done.
    + intros He. destruct (Hcomp ast He) as [_ E0]. destruct Ec. by rewrite stream_current, E0.
  - eexists. split; [reflexivity|]. intros ast. split; [done|]. intros He. by destruct (Hcomp ast He).
Qed.

(** C30: the parser always answers, and accepts a pattern with a tree exactly
    when the pattern's tokens derive that tree in the grammar: left
    associative [and] and [or], [and] binding tighter, parentheses, and
    conditions whose address or port is valid. *)
Theorem parse_pattern_correct pattern :
  exists r, req_pattern_custom_matcher_init pattern = Some r /\
    forall ast, r = Some ast <-> Expr (lex pattern) ast.
Proof. apply parse_pattern_spec. Qed.

(** ** Port values *)

Fixpoint all_digits (s : string) : bool :=
  match s with EmptyString => true | String c s => isdigit c && all_digits s end.

(** The number a text of digits denotes, after the digits in [acc]. *)
Fixpoint dec_value (acc : Z) (s : string) : Z :=
  match s with
  | EmptyString => acc
  | String c s => dec_value (10 * acc + (Z.of_N (N_of_ascii c) - 48)) s
  end.

(** Decimal, not empty, and no leading zero but for "0" itself. *)
Definition plain_decimal (s : string) : bool :=
  match s with
  | EmptyString => false
  | String c r => all_digits s && (negb (Ascii.eqb c "0") || bool_decide (r = EmptyString))
  end.

Lemma strtol_digits_all acc s : all_digits s = true -> strtol_digits acc s = (dec_value acc s, EmptyString).
Proof.
  revert acc. induction s as [|c s IH]; intros acc; [done|]. cbn [all_digits strtol_digits dec_value].
  intros H. apply andb_true_iff in H as [-> H]. rewrite (IH _ H). do 2 f_equal. lia.
Qed.

Lemma strtol_digits_end acc s n : strtol_digits acc s = (n, EmptyString) -> all_digits s = true.
Proof.
  revert acc. induction s as [|c s IH]; intros acc; [done|]. cbn. destruct (isdigit c); [|done]. apply IH.
Qed.

Lemma isdigit_range c : isdigit c = true -> 48 <= Z.of_N (N_of_ascii c) <= 57.
Proof. unfold isdigit. cbv zeta. intros. breflect. lia. Qed.

Lemma dec_value_nonneg acc s : 0 <= acc -> all_digits s = true -> 0 <= dec_value acc s.
Proof.
  revert acc. induction s as [|c s IH]; intros acc Ha; [done|]. cbn. intros H.
  apply andb_true_iff in H as [Hc H]. apply isdigit_range in Hc. apply IH; [lia|done].
Qed.

(** A text that starts with a digit has no space or sign in front. *)
Lemma strtol_digit_start c s :
  isdigit c = true ->
  strtol (String c s) =
    (let '(n, rest) := strtol_digits 0 (String c s) in
     if n <? - LONG_MAX - 1 then (- LONG_MAX - 1, rest, true)
     else if LONG_MAX <? n then (LONG_MAX, rest, true) else (n, rest, false)).
Proof.
  intros Hc. pose proof (isdigit_range c Hc) as Hr. unfold strtol. cbn [skip_space].
  assert (isspace c = false) as -> by (unfold isspace; cbv zeta; repeat bcase;
    rewrite ?orb_false_iff, ?andb_false_iff, ?Z.leb_gt, ?Z.eqb_neq; lia).
  destruct (Ascii.eqb_spec c "-") as [->|_]; [done|].
  destruct (Ascii.eqb_spec c "+") as [->|_]; [done|]. by rewrite Hc.
Qed.

(** a port condition is accepted exactly for the plain decimal writing of
    a number up to 65535, and holds that number: no sign, no space, no octal,
    no overflow. *)
Theorem port_value_correct value node :
  create_condition_node COND_PORT value = Some node <->
  plain_decimal value = true /\ dec_value 0 value <= 65535 /\ node = NODE_PORT (dec_value 0 value).
Proof.
  destruct value as [|c r]; [split; [done|by intros []]|]. cbn [create_condition_node plain_decimal].
  destruct (isdigit c) eqn:Hc; [|destruct (strtol _) as [[??]?]; cbn; rewrite Hc; split; [done|by intros []]].
  rewrite (strtol_digit_start c r Hc). cbn [andb].
  destruct (Ascii.eqb c "0" && negb (bool_decide (r = EmptyString))) eqn:Hz.
  { split; [destruct (strtol_digits _ _) as [??]; by repeat case_match|].
    intros [H _]. apply andb_true_iff in H as [_ H]. by destruct (Ascii.eqb c "0"), (bool_decide _). }
  assert (negb (Ascii.eqb c "0") || bool_decide (r = EmptyString) = true) as ->
    by (by destruct (Ascii.eqb c "0"), (bool_decide _)).
  rewrite andb_true_r. destruct (all_digits (String c r)) eqn:Ha.
  - rewrite (strtol_digits_all 0 _ Ha). pose proof (dec_value_nonneg 0 _ ltac:(lia) Ha) as Hp.
    set (n := dec_value 0 (String c r)) in *.
    destruct (Z.ltb_spec n (- LONG_MAX - 1)); unfold LONG_MAX in *; [lia|].
    destruct (Z.ltb_spec 9223372036854775807 n); cbn [negb orb]; [split; [done|lia]|].
    rewrite (bool_decide_true (EmptyString = EmptyString)) by done. cbn [negb orb].
    destruct (Z.ltb_spec n 0); [lia|]. destruct (Z.ltb_spec 65535 n); cbn [orb]; [split; [done|lia]|].
    rewrite u16_small by lia. split; [by intros [= <-]|by intros (_ & _ & ->)].
  - split; [|by intros []]. destruct (strtol_digits 0 (String c r)) as [n rest] eqn:E.
    assert (rest <> EmptyString) as Hne by (intros ->; apply strtol_digits_end in E; congruence).
    destruct (n <? _); [|destruct (_ <? n)]; rewrite ?(bool_decide_false _ Hne); cbn; by rewrite ?orb_true_r.
Qed.

(** ** Printing a pattern *)

(** A pattern as it is written: the texts of its conditions. *)
Inductive pattern_t :=
| PatCond (type : ConditionType) (value : string)
| PatOp (op : OperatorType) (l r : pattern_t).

Fixpoint pat_tokens (p : pattern_t) : list TokenType :=
  match p with
  | PatCond COND_HOST v => [TOKEN_HOST; TOKEN_VALUE v]
  | PatCond COND_PORT v => [TOKEN_PORT; TOKEN_VALUE v]
  | PatOp op l r =>
      TOKEN_LPAREN :: pat_tokens l ++
      (match op with OP_AND => TOKEN_AND | OP_OR => TOKEN_OR end :: pat_tokens r) ++ [TOKEN_RPAREN]
  end.

Fixpoint pat_node (p : pattern_t) : option Node :=
  match p with
  | PatCond type v => create_condition_node type v
  | PatOp op l r => a ← pat_node l; b ← pat_node r; Some (NODE_OPERATOR op a b)
  end.

Definition token_text (t : TokenType) : string :=
  match t with
  | TOKEN_HOST => "host" | TOKEN_PORT => "port" | TOKEN_AND => "and" | TOKEN_OR => "or"
  | TOKEN_LPAREN => "(" | TOKEN_RPAREN => ")" | TOKEN_VALUE v => v
  | TOKEN_EOF | TOKEN_ERROR => EmptyString
  end.

Fixpoint print_tokens (ts : list TokenType) : string :=
  match ts with
  | [] => EmptyString
  | t :: ts => token_text t +:+ String " " (print_tokens ts)
  end.

Definition print_pattern (p : pattern_t) : string := print_tokens (pat_tokens p).

(** A token whose text, alone, is read as that token. *)
Definition token_ok (t : TokenType) : Prop :=
  t <> TOKEN_EOF /\ get_next_token (token_text t) = (t, EmptyString).

Fixpoint no_space (s : string) : bool :=
  match s with EmptyString => true | String c s => negb (Ascii.eqb c " ") && no_space s end.

Lemma strip_app kw v s :
  no_space kw = true ->
  strip kw (v +:+ String " " s) = (fun r => r +:+ String " " s) <$> strip kw v.
Proof.
  revert v. induction kw as [|c kw IH]; intros v Hk; [done|].
  cbn [no_space] in Hk. apply andb_true_iff in Hk as [Hc Hk].
  destruct v as [|d v]; cbn [strip].
  - change (EmptyString +:+ String " " s) with (String " " s). cbn iota.
    by destruct (Ascii.eqb c " ").
  - change (String d v +:+ String " " s) with (String d (v +:+ String " " s)). cbn iota.
    destruct (Ascii.eqb c d); [by apply IH|done].
Qed.

Lemma keyword_app kw v s :
  no_space kw = true ->
  keyword kw (v +:+ String " " s) = (fun r => r +:+ String " " s) <$> keyword kw v.
Proof.
  intros Hk. unfold keyword. rewrite strip_app by done.
  destruct (strip kw v) as [[|c r]|]; [done| |done].
  transitivity (if isalnum c then None else Some (String c r +:+ String " " s));
    [reflexivity|by destruct (isalnum c)].
Qed.

Lemma at_keyword_app kw v s :
  no_space kw = true -> at_keyword kw (v +:+ String " " s) = at_keyword kw v.
Proof.
  intros Hk. unfold at_keyword. rewrite keyword_app by done.
  apply bool_decide_ext. by rewrite fmap_is_Some.
Qed.

Lemma read_value_app v r s :
  read_value v = (r, EmptyString) -> read_value (v +:+ String " " s) = (r, String " " s).
Proof.
  revert r. induction v as [|c v IH]; intros r; [by intros [= <-]|]. cbn [read_value].
  change (String c v +:+ String " " s) with (String c (v +:+ String " " s)). cbn [read_value].
  destruct (_ || _ || _); [done|].
  change (String c (v +:+ String " " s)) with (String c v +:+ String " " s).
  rewrite !at_keyword_app by done.
  destruct (at_keyword "and" _); [done|]. destruct (at_keyword "or" _); [done|].
  destruct (read_value v) as [v' r'] eqn:E. intros [= <- ->]. by rewrite (IH v' eq_refl).
Qed.

Lemma token_app t s : token_ok t -> get_next_token (token_text t +:+ String " " s) = (t, String " " s).
Proof.
  intros [Hne Ht]. destruct t as [| | | | | |v| |]; try done. cbn [token_text] in *.
  destruct v as [|c v]; [done|]. unfold get_next_token in *. cbn [skip_space] in Ht.
  change (String c v +:+ String " " s) with (String c (v +:+ String " " s)). cbn [skip_space].
  destruct (isspace c) eqn:Ec.
  { exfalso. pose proof (skip_space_length v) as Hl. destruct (skip_space v) as [|d w] eqn:Ew; [done|].
    destruct (keyword "host" _); [done|]. destruct (keyword "port" _); [done|].
    destruct (keyword "and" _); [done|]. destruct (keyword "or" _); [done|].
    destruct (Ascii.eqb d "("); [done|]. destruct (Ascii.eqb d ")"); [done|].
    pose proof (read_value_length (String d w)) as Hr. destruct (read_value (String d w)) as [v' r'].
    injection Ht as -> ->. cbn in *. lia. }
  change (String c (v +:+ String " " s)) with (String c v +:+ String " " s).
  rewrite !keyword_app by done.
  destruct (keyword "host" _); [done|]. destruct (keyword "port" _); [done|].
  destruct (keyword "and" _); [done|]. destruct (keyword "or" _); [done|]. cbn [fmap option_fmap option_map].
  change (String c v +:+ String " " s) with (String c (v +:+ String " " s)). cbn iota.
  destruct (Ascii.eqb c "("); [done|]. destruct (Ascii.eqb c ")"); [done|].
  change (String c (v +:+ String " " s)) with (String c v +:+ String " " s).
  destruct (read_value (String c v)) as [v' r'] eqn:E. injection Ht as -> ->. by rewrite (read_value_app _ _ s E).
Qed.

Lemma lex_space s : lex (String " " s) = lex s.
Proof. by rewrite lex_eq, (lex_eq s). Qed.

Lemma lex_print ts : Forall token_ok ts -> lex (print_tokens ts) = ts.
Proof.
  induction 1 as [|t ts Ht _ IH]; [done|]. cbn [print_tokens].
  rewrite lex_eq, token_app, lex_space, IH by done. destruct Ht as [Hne _]. by destruct t.
Qed.

Lemma pat_derives p n : pat_node p = Some n -> Factor (pat_tokens p) n.
Proof.
  revert n. induction p as [type v|op l IHl r IHr]; intros n.
  - destruct type; cbn; by constructor.
  - cbn. destruct (pat_node l) as [a|]; [|done]. destruct (pat_node r) as [b|]; [|done]. cbn. intros [= <-].
    specialize (IHl a eq_refl). specialize (IHr b eq_refl).
    destruct op; (rewrite (app_comm_cons (pat_tokens r)), app_assoc; constructor).
    + apply expr_term, term_and; [by apply term_factor|done].
    + apply expr_or; [by apply expr_term, term_factor|by apply term_factor].
Qed.

(** a printed pattern whose condition texts are single values, and valid
    ones, parses back to its tree. *)
Theorem print_parse_pattern p n :
  Forall token_ok (pat_tokens p) -> pat_node p = Some n ->
  req_pattern_custom_matcher_init (print_pattern p) = Some (Some n).
Proof.
  intros Hok Hn. assert (Expr (lex (print_pattern p)) n) as He.
  { unfold print_pattern. rewrite lex_print by done. by apply expr_term, term_factor, pat_derives. }
  unfold req_pattern_custom_matcher_init, parse_fuel.
  pose proof (lex_length (print_pattern p)) as Hlen. pose proof (stream_start (print_pattern p)) as Hs.
  destruct (proj1 parser_finds _ _ He (S (String.length (print_pattern p)))
    (next_token (PState (print_pattern p) TOKEN_ERROR)) [])
    as (st1 & k & Hs1 & Hk & E1); [by rewrite app_nil_r|done|rewrite Hs; lia|].
  rewrite E1, operand_loop_stop; [|cbn in Hk; lia|by rewrite stream_current, Hs1]. obind.
  by rewrite bool_decide_true by (by rewrite stream_current, Hs1).
Qed.

End code.

(** ** Concrete patterns *)

(** Dotted decimal for two addresses, enough for the examples. *)
Definition demo_pton4 (s : string) : option Z :=
  if String.eqb s "172.16.1.1" then Some 16846508 else
  if String.eqb s "172.16.1.2" then Some 33623724 else None.
Definition demo_pton6 (s : string) : option (list Z) := None.
Definition demo_get_ip (s : string) : option ip_addr_t :=
  if String.eqb s "eth0" then Some (IPv4 16846508) else None.

Example demo_pattern :
  req_pattern_custom_matcher_init demo_pton4 demo_pton6 demo_get_ip
    "(host 172.16.1.1 or host 172.16.1.2) and port 8011" =
  Some (Some (NODE_OPERATOR OP_AND
    (NODE_OPERATOR OP_OR (NODE_HOST (IPv4 16846508)) (NODE_HOST (IPv4 33623724))) (NODE_PORT 8011))).
Proof. reflexivity. Qed.

Example demo_rejected :
  (fun p => req_pattern_custom_matcher_init demo_pton4 demo_pton6 demo_get_ip p) <$>
    ["host"; "port 010"; "port 65536"; "host 1.2.3"; "(port 80"; "port 80 port 81"; "host nic.eth1"] =
  replicate 7 (Some None).
Proof. reflexivity. Qed.

Lemma print_parse_pattern_witness :
  req_pattern_custom_matcher_init demo_pton4 demo_pton6 demo_get_ip
    (print_pattern (PatOp OP_AND (PatCond COND_HOST "nic.eth0")
      (PatOp OP_OR (PatCond COND_PORT "80") (PatCond COND_PORT "443")))) =
  Some (Some (NODE_OPERATOR OP_AND (NODE_HOST (IPv4 16846508))
    (NODE_OPERATOR OP_OR (NODE_PORT 80) (NODE_PORT 443)))).
Proof.
  apply (print_parse_pattern demo_pton4 demo_pton6 demo_get_ip
    (PatOp OP_AND (PatCond COND_HOST "nic.eth0")
      (PatOp OP_OR (PatCond COND_PORT "80") (PatCond COND_PORT "443")))).
  - repeat constructor; discriminate.
  - reflexivity.
Defined.

(** a value ends where "and" or "or" ends it, even inside a word: the
    name of an interface that ends in one of them cannot be given, whatever
    the interface lookup answers. *)
Theorem value_cut_at_keyword :
  lex "host nic.floor" = [TOKEN_HOST; TOKEN_VALUE "nic.flo"; TOKEN_OR] /\
  lex "host nic.lo-and" = [TOKEN_HOST; TOKEN_VALUE "nic.lo-"; TOKEN_AND] /\
  forall pton4 pton6 addr,
    req_pattern_custom_matcher_init pton4 pton6 (fun _ => Some addr) "host nic.floor" = Some None.
Proof.
  split; [reflexivity|]. split; [reflexivity|]. intros pton4 pton6 addr. reflexivity.
Qed.
