(* ===== verification/PacketDir.v ===== *)
(** * Packet direction (req_pattern.c)

    Finding the addresses and ports of a captured frame, through VLAN tags and
    VXLAN tunnels, and judging its direction against a request pattern. *)

From Stdlib Require Import Ascii String.
From stdpp Require Import prelude list list_numbers strings relations.
From S2P Require Import Prelude ByteOrder Headers ReqPattern.
Open Scope string_scope.
Open Scope list_scope.
Open Scope Z_scope.

(** ** The code *)

Definition IPPORT_FLAGS_IP : Z := 1.
Definition IPPORT_FLAGS_PORT : Z := 2.
Definition IPPROTO_TCP : Z := 6.
Definition IPPROTO_UDP : Z := 17.

(** [*sip], [*sport], [*dip], [*dport]. *)
Record ipport := IpPort { sip : ip_addr_t; sport : Z; dip : ip_addr_t; dport : Z }.

Section code.
(** The frame and [header->caplen]; a read past the frame is [None]. *)
Context (pkt : list Z) (len : Z).

Definition extract_ipport_from_tcp_layer (off : Z) (e : ipport) : option (Z * ipport) :=
  if len <? off + TCP_HDR_LEN then Some (0, e)
  else
    sp ← load16 (zlen pkt) pkt off;
    dp ← load16 (zlen pkt) pkt (off + 2);
    Some (IPPORT_FLAGS_PORT, IpPort (sip e) (ntohs sp) (dip e) (ntohs dp)).

Definition extract_ipport_from_maybe_vxlan_layer
    (extract_ether : Z -> ipport -> option (Z * ipport)) (off : Z) (e : ipport) : option (Z * ipport) :=
  if len <? off + VXLAN_HEADER_LEN + ETHER_HDR_LEN + IPV4_HDR_LEN then Some (0, e)
  else extract_ether (off + VXLAN_HEADER_LEN) e.

Definition extract_ipport_from_udp_layer
    (extract_ether : Z -> ipport -> option (Z * ipport)) (off : Z) (e : ipport) : option (Z * ipport) :=
  if len <? off + UDP_HDR_LEN then Some (0, e)
  else
    sp ← load16 (zlen pkt) pkt off;
    dp ← load16 (zlen pkt) pkt (off + 2);
    let e := IpPort (sip e) (ntohs sp) (dip e) (ntohs dp) in
    if (4700 <=? dport e) && (dport e <? 4800) then
      '(f, e) ← extract_ipport_from_maybe_vxlan_layer extract_ether (off + UDP_HDR_LEN) e;
      Some (Z.lor IPPORT_FLAGS_PORT f, e)
    else Some (IPPORT_FLAGS_PORT, e).

(** The tail the two IP layers share. *)
Definition extract_l4 (extract_ether : Z -> ipport -> option (Z * ipport)) (proto off : Z) (e : ipport) :
    option (Z * ipport) :=
  if proto =? IPPROTO_TCP then
    '(f, e) ← extract_ipport_from_tcp_layer off e; Some (Z.lor IPPORT_FLAGS_IP f, e)
  else if proto =? IPPROTO_UDP then
    '(f, e) ← extract_ipport_from_udp_layer extract_ether off e; Some (Z.lor IPPORT_FLAGS_IP f, e)
  else Some (IPPORT_FLAGS_IP, e).

Definition extract_ipport_from_ipv4_layer
    (extract_ether : Z -> ipport -> option (Z * ipport)) (off : Z) (e : ipport) : option (Z * ipport) :=
  if len <? off + IPV4_HDR_LEN then Some (0, e)
  else
    b0 ← load8 (zlen pkt) pkt off;
    let ip_hdr_len := Z.land b0 15 * 4 in
    saddr ← load32 (zlen pkt) pkt (off + 12);
    daddr ← load32 (zlen pkt) pkt (off + 16);
    let e := IpPort (IPv4 saddr) 0 (IPv4 daddr) 0 in
    protocol ← load8 (zlen pkt) pkt (off + 9);
    extract_l4 extract_ether protocol (off + ip_hdr_len) e.

Definition extract_ipport_from_ipv6_layer
    (extract_ether : Z -> ipport -> option (Z * ipport)) (off : Z) (e : ipport) : option (Z * ipport) :=
  if len <? off + IPV6_HDR_LEN then Some (0, e)
  else
    saddr ← bread (zlen pkt) pkt (off + 8) 16;
    daddr ← bread (zlen pkt) pkt (off + 24) 16;
    let e := IpPort (IPv6 saddr) 0 (IPv6 daddr) 0 in
    nexthdr ← load8 (zlen pkt) pkt (off + 6);
    extract_l4 extract_ether nexthdr (off + IPV6_HDR_LEN) e.

(** The [while] over the tags: [Some None] is the early return. *)
Fixpoint skip_tags (fuel : nat) (eth_type off : Z) : option (option (Z * Z)) :=
  match fuel with
  | O => None
  | S fuel =>
      if is_vlan_ethertype eth_type then
        if len <? off + VLAN_HDR_LEN then Some None
        else et ← load16 (zlen pkt) pkt (off + 2); skip_tags fuel (ntohs et) (off + VLAN_HDR_LEN)
      else Some (Some (eth_type, off))
  end.

(** One more than the tags that fit. *)
Definition tags_fuel : nat := S (Z.to_nat len).

Fixpoint extract_ipport_from_ether_layer (fuel : nat) (off : Z) (e : ipport) : option (Z * ipport) :=
  match fuel with
  | O => None
  | S fuel =>
      if len <? off + ETHER_HDR_LEN then Some (0, e)
      else
        et ← load16 (zlen pkt) pkt (off + 12);
        r ← skip_tags tags_fuel (ntohs et) (off + ETHER_HDR_LEN);
        match r with
        | None => Some (0, e)
        | Some (eth_type, off) =>
            if eth_type =? ETHERTYPE_IP then
              extract_ipport_from_ipv4_layer (extract_ipport_from_ether_layer fuel) off e
            else if eth_type =? ETHERTYPE_IPV6 then
              extract_ipport_from_ipv6_layer (extract_ipport_from_ether_layer fuel) off e
            else Some (0, e)
        end
  end.

(** One more than the frames that fit inside each other. *)
Definition ether_fuel : nat := S (Z.to_nat len).
End code.

(** The pattern; [None] of [new] is [NULL]. *)
Inductive req_pattern_t :=
| REQ_PATTERN_NONE
| REQ_PATTERN_AUTO (mac_addr : list Z)
| REQ_PATTERN_CUSTOM (node : Node).

Record ReqPatternConfig := { cfg_type : string; cfg_pattern : string }.

Section new.
Context (inet_pton4 : string -> option Z) (inet_pton6 : string -> option (list Z)).
Context (get_mac : string -> option (list Z)) (get_ip : string -> option ip_addr_t).

(** The outer [None] is the parser's fuel. *)
Definition req_pattern_new_from_cfg_adv (cfg : ReqPatternConfig) (ifname : string) :
    option (option req_pattern_t) :=
  if String.eqb (cfg_type cfg) "none" then Some (Some REQ_PATTERN_NONE)
  else if String.eqb (cfg_type cfg) "auto" then Some (option_map REQ_PATTERN_AUTO (get_mac ifname))
  else if String.eqb (cfg_type cfg) "custom" then
    match req_pattern_custom_matcher_init inet_pton4 inet_pton6 get_ip (cfg_pattern cfg) with
    | Some node => Some (option_map REQ_PATTERN_CUSTOM node)
    | None => None
    end
  else Some (Some REQ_PATTERN_NONE).
End new.

(** The uninitialised [sip] and [dip]. *)
Definition no_ipport : ipport := IpPort (IPv4 0) 0 (IPv4 0) 0.

Definition req_pattern_judge_pkt_direction (p : req_pattern_t) (header : pcap_pkthdr) (pkt : list Z) :
    option Z :=
  match p with
  | REQ_PATTERN_NONE => Some PKT_DIR_NONCHECK
  | REQ_PATTERN_AUTO mac_addr =>
      if caplen header <? ETHER_HDR_LEN then Some PKT_DIR_UNKNOWN
      else
        shost ← bread (zlen pkt) pkt 6 6;
        Some (if bool_decide (shost = mac_addr) then PKT_DIR_OUTGOING else PKT_DIR_INCOMING)
  | REQ_PATTERN_CUSTOM node =>
      '(flags, e) ← extract_ipport_from_ether_layer pkt (caplen header) (ether_fuel (caplen header)) 0 no_ipport;
      Some (if negb (Z.land flags IPPORT_FLAGS_IP =? 0) then
              if evaluate node (sip e) (sport e) then PKT_DIR_OUTGOING
              else if evaluate node (dip e) (dport e) then PKT_DIR_INCOMING
              else PKT_DIR_UNKNOWN
            else PKT_DIR_UNKNOWN)
  end.

(** ** The innermost IP layer *)

Section spec.
Context (pkt : list Z) (len : Z).

(** An IP header at [o3] under the Ethernet frame at [off], inside [len]. *)
Definition ip_layer (off : Z) (v6 : bool) (o3 : Z) : Prop :=
  exists et, off + ETHER_HDR_LEN <= len /\
    vlan_tags pkt len (net16 pkt (off + 12)) (off + ETHER_HDR_LEN) et o3 /\
    if v6 then et = ETHERTYPE_IPV6 /\ o3 + IPV6_HDR_LEN <= len
    else et = ETHERTYPE_IP /\ o3 + IPV4_HDR_LEN <= len.

Definition l4_proto (v6 : bool) (o3 : Z) : Z := if v6 then bget pkt (o3 + 6) else bget pkt (o3 + 9).
Definition l4_off (v6 : bool) (o3 : Z) : Z :=
  if v6 then o3 + IPV6_HDR_LEN else o3 + Z.land (bget pkt o3) 15 * 4.

Definition addresses (v6 : bool) (o3 : Z) : ip_addr_t * ip_addr_t :=
  if v6 then (IPv6 (bslice pkt (o3 + 8) 16), IPv6 (bslice pkt (o3 + 24) 16))
  else (IPv4 (get32 pkt (o3 + 12)), IPv4 (get32 pkt (o3 + 16))).

(** Whether a whole TCP or UDP header follows. *)
Definition has_ports (v6 : bool) (o3 : Z) : bool :=
  ((l4_proto v6 o3 =? IPPROTO_TCP) && (l4_off v6 o3 + TCP_HDR_LEN <=? len))
  || ((l4_proto v6 o3 =? IPPROTO_UDP) && (l4_off v6 o3 + UDP_HDR_LEN <=? len)).

(** The endpoints of the IP layer at [o3]: port 0 where there is none. *)
Definition endpoints (v6 : bool) (o3 : Z) : ipport :=
  let o4 := l4_off v6 o3 in
  IpPort (addresses v6 o3).1 (if has_ports v6 o3 then net16 pkt o4 else 0)
         (addresses v6 o3).2 (if has_ports v6 o3 then net16 pkt (o4 + 2) else 0).

(** A UDP datagram to a VXLAN port with room for a tunnelled IP frame, which
    would start at [off']. *)
Definition tunnel (v6 : bool) (o3 off' : Z) : Prop :=
  l4_proto v6 o3 = IPPROTO_UDP /\ l4_off v6 o3 + UDP_HDR_LEN <= len /\
  4700 <= net16 pkt (l4_off v6 o3 + 2) < 4800 /\
  off' = l4_off v6 o3 + UDP_HDR_LEN + VXLAN_HEADER_LEN /\
  off' + ETHER_HDR_LEN + IPV4_HDR_LEN <= len.

(** From one frame to the frame with an IP layer it tunnels. *)
Definition hop (off off' : Z) : Prop :=
  (exists v6 o3, ip_layer off v6 o3 /\ tunnel v6 o3 off') /\ exists v6 o3, ip_layer off' v6 o3.

Definition innermost (off off' : Z) : Prop := rtc hop off off' /\ forall off'', ~ hop off' off''.

(** [e] are the endpoints of the innermost IP layer of the frame at [off]. *)
Definition frame_endpoints (off : Z) (e : ipport) : Prop :=
  exists off' v6 o3, innermost off off' /\ ip_layer off' v6 o3 /\ e = endpoints v6 o3.

Definition has_ip (off : Z) : Prop := exists v6 o3, ip_layer off v6 o3.
End spec.

Section proof.
Context (pkt : list Z) (len : Z).
Hypotheses (Hbytes : bytes_ok pkt) (Hlen : 0 <= len <= zlen pkt).

Lemma skip_tags_spec fuel et off :
  0 <= off -> (0 < fuel)%nat -> len - off < Z.of_nat fuel ->
  exists r, skip_tags pkt len fuel et off = Some r /\
    match r with
    | Some (et', off') => vlan_tags pkt len et off et' off'
    | None => forall et' off', ~ vlan_tags pkt len et off et' off'
    end.
Proof.
  revert et off. induction fuel as [|fuel IH]; intros et off Ho Hf Hl; [lia|]. cbn [skip_tags].
  destruct (is_vlan_ethertype et) eqn:Ev; [|eexists; split; [reflexivity|by constructor]].
  destruct (Z.ltb_spec len (off + VLAN_HDR_LEN)) as [Hlt|Hge]; unfold VLAN_HDR_LEN in *.
  { exists None. split; [done|]. intros et' off' Ht. inversion Ht; unfold VLAN_HDR_LEN in *; [congruence|lia]. }
  rewrite load16_ok by lia. obind. rewrite ntohs_get16 by done.
  destruct (IH (net16 pkt (off + 2)) (off + 4)) as (r & E & Hr); [lia|lia|lia|].
  exists r. split; [done|]. destruct r as [[et' off']|].
  - by apply vlan_tags_tag.
  - intros et' off' Ht. inversion Ht; [congruence|]. by apply (Hr et' off').
Qed.

Lemma ip_layer_det off v6 o3 v6' o3' :
  ip_layer pkt len off v6 o3 -> ip_layer pkt len off v6' o3' -> v6 = v6' /\ o3 = o3'.
Proof.
  intros (et & _ & H1 & C1) (et' & _ & H2 & C2).
  destruct (vlan_tags_det _ _ _ _ _ _ H1 _ _ H2) as [-> ->].
  destruct v6, v6'; unfold ETHERTYPE_IP, ETHERTYPE_IPV6 in *; split; (done || lia).
Qed.

Lemma ip_layer_range off v6 o3 :
  0 <= off -> ip_layer pkt len off v6 o3 -> off < o3 /\ o3 + IPV4_HDR_LEN <= len /\
    (v6 = true -> o3 + IPV6_HDR_LEN <= len).
Proof.
  intros Ho (et & _ & H & C). apply vlan_tags_mono in H.
  unfold ETHER_HDR_LEN, IPV4_HDR_LEN, IPV6_HDR_LEN in *. destruct v6; split_and!; (done || lia).
Qed.

Lemma l4_off_ge v6 o3 : o3 <= l4_off pkt v6 o3.
Proof.
  unfold l4_off, IPV6_HDR_LEN. destruct v6; [lia|].
  assert (0 <= Z.land (bget pkt o3) 15) by (apply Z.land_nonneg; lia). lia.
Qed.

(** The endpoints of a frame that tunnels no IP frame are its own. *)
Lemma endpoints_here off v6 o3 :
  ip_layer pkt len off v6 o3 -> (forall off', tunnel pkt len v6 o3 off' -> ~ has_ip pkt len off') ->
  frame_endpoints pkt len off (endpoints pkt len v6 o3).
Proof.
  intros Hip Hno. exists off, v6, o3. split; [|done]. split; [done|].
  intros off' [(v6' & o3' & Hip' & Ht) Hin].
  destruct (ip_layer_det _ _ _ _ _ Hip Hip') as [<- <-]. by apply (Hno off').
Qed.

Lemma endpoints_inside off v6 o3 off' e :
  ip_layer pkt len off v6 o3 -> tunnel pkt len v6 o3 off' -> has_ip pkt len off' ->
  frame_endpoints pkt len off' e -> frame_endpoints pkt len off e.
Proof.
  intros Hip Ht Hin (off2 & v2 & o2 & [Hr Hno] & Hip2 & ->). exists off2, v2, o2.
  split; [|done]. split; [|done]. eapply rtc_l; [|exact Hr]. split; [by exists v6, o3|done].
Qed.

Lemma tunnel_det v6 o3 o1 o2 : tunnel pkt len v6 o3 o1 -> tunnel pkt len v6 o3 o2 -> o1 = o2.
Proof. intros (_ & _ & _ & -> & _) (_ & _ & _ & -> & _). done. Qed.

(** What the extraction from the frame at [off] answers. *)
Definition extracts (off : Z) (e : ipport) (r : option (Z * ipport)) : Prop :=
  exists f e', r = Some (f, e') /\
    ((f = 0 /\ e' = e /\ ~ has_ip pkt len off) \/
     ((f = 1 \/ f = 3) /\ has_ip pkt len off /\ frame_endpoints pkt len off e')).

Lemma extracts_ip off e f e' :
  (f = 1 \/ f = 3) -> has_ip pkt len off -> frame_endpoints pkt len off e' ->
  extracts off e (Some (f, e')).
Proof. intros. exists f, e'. auto. Qed.

Lemma endpoints_eq v6 o3 sp dp :
  (if has_ports pkt len v6 o3 then (net16 pkt (l4_off pkt v6 o3), net16 pkt (l4_off pkt v6 o3 + 2))
   else (0, 0)) = (sp, dp) ->
  IpPort (addresses pkt v6 o3).1 sp (addresses pkt v6 o3).2 dp = endpoints pkt len v6 o3.
Proof. unfold endpoints. destruct (has_ports _ _ _ _); by intros [= <- <-]. Qed.

Section l4.
Context (ee : Z -> ipport -> option (Z * ipport)) (off : Z) (v6 : bool) (o3 : Z) (e0 : ipport).
Hypotheses (Hoff : 0 <= off) (Hip : ip_layer pkt len off v6 o3).
Hypothesis (Hee : forall off' e, tunnel pkt len v6 o3 off' -> extracts off' e (ee off' e)).

Let o4 := l4_off pkt v6 o3.
Let e := IpPort (addresses pkt v6 o3).1 0 (addresses pkt v6 o3).2 0.

Lemma o4_nonneg : 0 <= o4.
Proof. pose proof (ip_layer_range off v6 o3 Hoff Hip). pose proof (l4_off_ge v6 o3). unfold o4. lia. Qed.

Lemma has_ip_off : has_ip pkt len off.
Proof. by exists v6, o3. Qed.

(** A layer that is no tunnel answers its own endpoints. *)
Lemma l4_here f sp dp :
  (f = 1 \/ f = 3) -> (forall off', ~ tunnel pkt len v6 o3 off') ->
  (if has_ports pkt len v6 o3 then (net16 pkt o4, net16 pkt (o4 + 2)) else (0, 0)) = (sp, dp) ->
  extracts off e0 (Some (f, IpPort (addresses pkt v6 o3).1 sp (addresses pkt v6 o3).2 dp)).
Proof.
  intros Hf Hno E. apply extracts_ip; [done|apply has_ip_off|]. rewrite (endpoints_eq _ _ _ _ E).
  apply endpoints_here; [done|]. intros off' Ht. by destruct (Hno off').
Qed.

Lemma tcp_spec :
  l4_proto pkt v6 o3 = IPPROTO_TCP ->
  extracts off e0 ('(f, e) ← extract_ipport_from_tcp_layer pkt len o4 e; Some (Z.lor IPPORT_FLAGS_IP f, e)).
Proof.
  intros Hp. pose proof o4_nonneg as H4. unfold extract_ipport_from_tcp_layer.
  assert (forall off', ~ tunnel pkt len v6 o3 off') as Hno
    by (intros off' (Hu & _); rewrite Hp in Hu; done).
  assert (has_ports pkt len v6 o3 = (o4 + TCP_HDR_LEN <=? len)) as Hh.
  { unfold has_ports. fold o4. rewrite Hp. change (IPPROTO_TCP =? IPPROTO_TCP) with true.
    change (IPPROTO_TCP =? IPPROTO_UDP) with false. cbn [andb]. apply orb_false_r. }
  unfold TCP_HDR_LEN in *. destruct (Z.ltb_spec len (o4 + 20)) as [Hlt|Hge]; obind.
  - apply l4_here; [by left|done|]. rewrite Hh. bcase; [lia|done].
  - rewrite !load16_ok by lia. obind. rewrite !ntohs_get16 by done.
    apply l4_here; [by right|done|]. rewrite Hh. bcase; [done|lia].
Qed.

Lemma udp_spec :
  l4_proto pkt v6 o3 = IPPROTO_UDP ->
  extracts off e0 ('(f, e) ← extract_ipport_from_udp_layer pkt len ee o4 e; Some (Z.lor IPPORT_FLAGS_IP f, e)).
Proof.
  intros Hp. pose proof o4_nonneg as H4. unfold extract_ipport_from_udp_layer.
  assert (has_ports pkt len v6 o3 = (o4 + UDP_HDR_LEN <=? len)) as Hh.
  { unfold has_ports. fold o4. rewrite Hp. change (IPPROTO_UDP =? IPPROTO_TCP) with false.
    change (IPPROTO_UDP =? IPPROTO_UDP) with true. done. }
  unfold UDP_HDR_LEN in *. destruct (Z.ltb_spec len (o4 + 8)) as [Hlt|Hge]; obind.
  { apply l4_here; [by left| |rewrite Hh; bcase; [lia|done]].
    intros off' (_ & Hu & _). fold o4 in Hu. unfold UDP_HDR_LEN in Hu. lia. }
  rewrite !load16_ok by lia. obind. rewrite !ntohs_get16 by done. cbn [dport].
  assert ((if has_ports pkt len v6 o3 then (net16 pkt o4, net16 pkt (o4 + 2)) else (0, 0))
    = (net16 pkt o4, net16 pkt (o4 + 2))) as Hpp by (rewrite Hh; bcase; [done|lia]).
  destruct ((4700 <=? net16 pkt (o4 + 2)) && (net16 pkt (o4 + 2) <? 4800)) eqn:Ev; breflect; obind.
  2:{ apply l4_here; [by right| |done]. intros off' (_ & _ & Hr & _). fold o4 in Hr.
      apply andb_false_iff in Ev. destruct Ev; breflect; lia. }
  unfold extract_ipport_from_maybe_vxlan_layer, VXLAN_HEADER_LEN, ETHER_HDR_LEN, IPV4_HDR_LEN.
  destruct (Z.ltb_spec len (o4 + 8 + 8 + 14 + 20)) as [Hlt|Hroom]; obind.
  { apply l4_here; [by right| |done]. intros off' (_ & _ & _ & -> & Hr). fold o4 in Hr.
    unfold UDP_HDR_LEN, VXLAN_HEADER_LEN, ETHER_HDR_LEN, IPV4_HDR_LEN in Hr. lia. }
  assert (tunnel pkt len v6 o3 (o4 + 8 + 8)) as Ht by (repeat split; try done; lia).
  destruct (Hee (o4 + 8 + 8) (IpPort (sip e) (net16 pkt o4) (dip e) (net16 pkt (o4 + 2))) Ht)
    as (f & e' & -> & [(-> & -> & Hno)|(Hf & Hin & He)]); obind.
  - apply extracts_ip; [by right|apply has_ip_off|]. unfold e. cbn [sip dip]. rewrite (endpoints_eq _ _ _ _ Hpp).
    apply endpoints_here; [done|]. intros off' Ht'. by rewrite (tunnel_det _ _ _ _ Ht' Ht).
  - apply extracts_ip; [by destruct Hf as [->| ->]; right|apply has_ip_off|]. by eapply endpoints_inside.
Qed.

Lemma l4_spec : extracts off e0 (extract_l4 pkt len ee (l4_proto pkt v6 o3) o4 e).
Proof.
  unfold extract_l4. destruct (Z.eqb_spec (l4_proto pkt v6 o3) IPPROTO_TCP) as [Et|Et]; [by apply tcp_spec|].
  destruct (Z.eqb_spec (l4_proto pkt v6 o3) IPPROTO_UDP) as [Eu|Eu]; [by apply udp_spec|].
  apply l4_here; [by left|by intros off' (? & _)|]. unfold has_ports.
  rewrite (proj2 (Z.eqb_neq _ _) Et), (proj2 (Z.eqb_neq _ _) Eu). done.
Qed.
End l4.

Lemma ether_spec fuel off e :
  0 <= off -> (0 < fuel)%nat -> len - off < Z.of_nat fuel ->
  extracts off e (extract_ipport_from_ether_layer pkt len fuel off e).
Proof.
  revert off e. induction fuel as [|fuel IH]; intros off e Ho Hf Hl; [lia|].
  cbn [extract_ipport_from_ether_layer].
  assert (forall off' e, off + 30 <= off' <= len -> extracts off' e (extract_ipport_from_ether_layer pkt len fuel off' e))
    as IH' by (intros; apply IH; lia).
  destruct (Z.ltb_spec len (off + ETHER_HDR_LEN)) as [Hlt|Hge]; unfold ETHER_HDR_LEN in *.
  { exists 0, e. split; [done|]. left. split_and!; [done|done|].
    intros (v6 & o3 & et & H & _). unfold ETHER_HDR_LEN in H. lia. }
  rewrite load16_ok by lia. obind. rewrite ntohs_get16 by done.
  destruct (skip_tags_spec (tags_fuel len) (net16 pkt (off + 12)) (off + 14)) as (r & -> & Hr);
    [lia|unfold tags_fuel; lia|unfold tags_fuel; lia|]. obind.
  assert (~ has_ip pkt len off -> extracts off e (Some (0, e))) as Hnone by (intros; exists 0, e; auto).
  destruct r as [[et o3]|].
  2:{ apply Hnone. intros (v6 & o3 & et & _ & Ht & _). by apply (Hr et o3). }
  assert (forall v6, ip_layer pkt len off v6 o3 -> forall off' e, tunnel pkt len v6 o3 off' ->
    extracts off' e (extract_ipport_from_ether_layer pkt len fuel off' e)) as Hee.
  { intros v6 Hip off' e' (_ & _ & _ & -> & Hroom). pose proof (l4_off_ge v6 o3).
    pose proof (ip_layer_range off v6 o3 Ho Hip). pose proof (vlan_tags_mono _ _ _ _ _ _ Hr).
    unfold UDP_HDR_LEN, VXLAN_HEADER_LEN, ETHER_HDR_LEN, IPV4_HDR_LEN in *. apply IH'. lia. }
  pose proof (vlan_tags_mono _ _ _ _ _ _ Hr) as Hm.
  assert (forall v6 o3', ip_layer pkt len off v6 o3' -> o3' = o3 /\
    (if v6 then et = ETHERTYPE_IPV6 /\ o3 + IPV6_HDR_LEN <= len else et = ETHERTYPE_IP /\ o3 + IPV4_HDR_LEN <= len))
    as Hdet.
  { intros v6 o3' (et' & _ & Ht & C). destruct (vlan_tags_det _ _ _ _ _ _ Hr _ _ Ht) as [<- <-]. by split. }
  destruct (Z.eqb_spec et ETHERTYPE_IP) as [->|N4]; [|destruct (Z.eqb_spec et ETHERTYPE_IPV6) as [->|N6]].
  - unfold extract_ipport_from_ipv4_layer, IPV4_HDR_LEN.
    destruct (Z.ltb_spec len (o3 + 20)) as [Hlt|Hg3].
    { apply Hnone. intros ([] & o3' & H); destruct (Hdet _ _ H) as (-> & C & C'); [done|].
      unfold IPV4_HDR_LEN in C'. lia. }
    assert (ip_layer pkt len off false o3) as Hip by (exists ETHERTYPE_IP; split_and!; done).
    rewrite !load8_ok, !load32_ok by lia. obind.
    apply (l4_spec _ off false o3 e Ho Hip). by apply Hee.
  - unfold extract_ipport_from_ipv6_layer, IPV6_HDR_LEN.
    destruct (Z.ltb_spec len (o3 + 40)) as [Hlt|Hg3].
    { apply Hnone. intros ([] & o3' & H); destruct (Hdet _ _ H) as (-> & C & C'); [|done].
      unfold IPV6_HDR_LEN in C'. lia. }
    assert (ip_layer pkt len off true o3) as Hip by (exists ETHERTYPE_IPV6; split_and!; done).
    rewrite !bread_ok, !load8_ok by lia. obind.
    apply (l4_spec _ off true o3 e Ho Hip). by apply Hee.
  - apply Hnone. intros ([] & o3' & H); destruct (Hdet _ _ H) as (-> & -> & _); done.
Qed.
End proof.

(** ** Direction *)

(** The innermost IP layer is unique, so a frame has one pair of endpoints. *)
Lemma hop_det pkt len off o1 o2 : hop pkt len off o1 -> hop pkt len off o2 -> o1 = o2.
Proof.
  intros [(v1 & p1 & H1 & T1) _] [(v2 & p2 & H2 & T2) _].
  destruct (ip_layer_det _ _ _ _ _ _ _ H1 H2) as [<- <-]. by eapply tunnel_det.
Qed.

Lemma innermost_det pkt len off o1 o2 : innermost pkt len off o1 -> innermost pkt len off o2 -> o1 = o2.
Proof.
  intros [R1 N1] [R2 N2]. induction R1 as [x|x y z Hxy R1 IH].
  - destruct R2 as [|x y z H _]; [done|]. by destruct (N1 y).
  - apply IH; [done|]. destruct R2 as [x|x y' z' H R2]; [by destruct (N2 y)|].
    by rewrite (hop_det _ _ _ _ _ Hxy H).
Qed.

Lemma frame_endpoints_det pkt len off e1 e2 :
  frame_endpoints pkt len off e1 -> frame_endpoints pkt len off e2 -> e1 = e2.
Proof.
  intros (o1 & v1 & p1 & I1 & L1 & ->) (o2 & v2 & p2 & I2 & L2 & ->).
  rewrite <- (innermost_det _ _ _ _ _ I1 I2) in L2.
  by destruct (ip_layer_det _ _ _ _ _ _ _ L1 L2) as [<- <-].
Qed.

Lemma judge_direction_total p header pkt :
  pkt_ok header pkt ->
  exists d, req_pattern_judge_pkt_direction p header pkt = Some d /\
    (d = PKT_DIR_UNKNOWN \/ d = PKT_DIR_NONCHECK \/ d = PKT_DIR_INCOMING \/ d = PKT_DIR_OUTGOING).
Proof.
  intros (Hb & Hc & Hl). destruct p as [|mac|node]; cbn [req_pattern_judge_pkt_direction].
  - eexists. split; [done|tauto].
  - unfold ETHER_HDR_LEN. destruct (Z.ltb_spec (caplen header) 14); [eexists; split; [done|tauto]|].
    rewrite bread_ok by lia. obind. eexists. split; [done|]. case_bool_decide; tauto.
  - destruct (ether_spec pkt (caplen header) Hb ltac:(lia) (ether_fuel (caplen header)) 0 no_ipport)
      as (f & e & -> & _); [lia|unfold ether_fuel; lia|unfold ether_fuel; lia|]. obind.
    eexists. split; [done|]. destruct (negb _); [|tauto]. do 2 (destruct (evaluate _ _ _); [tauto|]). tauto.
Qed.

(** C31: judging the direction of a captured frame never reads past the
    captured bytes and always answers.  With a custom pattern the answer is
    decided by the endpoints of the innermost IP layer, under any stack of
    VLAN tags and VXLAN tunnels: outgoing when the source matches, else
    incoming when the destination does, else (or when there is no IP layer)
    unknown.  With the automatic pattern it is decided by the source MAC. *)
Theorem judge_direction_correct p header pkt :
  pkt_ok header pkt ->
  exists d, req_pattern_judge_pkt_direction p header pkt = Some d /\
  match p with
  | REQ_PATTERN_NONE => d = PKT_DIR_NONCHECK
  | REQ_PATTERN_AUTO mac =>
      d = if caplen header <? ETHER_HDR_LEN then PKT_DIR_UNKNOWN
          else if bool_decide (bslice pkt 6 6 = mac) then PKT_DIR_OUTGOING else PKT_DIR_INCOMING
  | REQ_PATTERN_CUSTOM node =>
      (~ has_ip pkt (caplen header) 0 -> d = PKT_DIR_UNKNOWN) /\
      (has_ip pkt (caplen header) 0 -> exists e, frame_endpoints pkt (caplen header) 0 e) /\
      (forall e, frame_endpoints pkt (caplen header) 0 e ->
        d = if evaluate node (sip e) (sport e) then PKT_DIR_OUTGOING
            else if evaluate node (dip e) (dport e) then PKT_DIR_INCOMING else PKT_DIR_UNKNOWN)
  end.
Proof.
  intros (Hb & Hc & Hl). destruct p as [|mac|node]; cbn [req_pattern_judge_pkt_direction].
  - by eexists.
  - unfold ETHER_HDR_LEN. destruct (Z.ltb_spec (caplen header) 14); [by eexists|].
    rewrite bread_ok by lia. obind. by eexists.
  - destruct (ether_spec pkt (caplen header) Hb ltac:(lia) (ether_fuel (caplen header)) 0 no_ipport)
      as (f & e & -> & Hr); [lia|unfold ether_fuel; lia|unfold ether_fuel; lia|]. obind.
    eexists. split; [reflexivity|]. destruct Hr as [(-> & -> & Hno)|(Hf & Hin & He)].
    + split_and!; [done|done|]. intros e (o & v6 & o3 & [Hr _] & Hip & _). destruct Hno.
      inversion Hr as [|x y z [(v & o' & Hip' & _) _] _]; subst; [by exists v6, o3|by exists v, o'].
    + split_and!; [done|by exists e|]. intros e' He'. rewrite (frame_endpoints_det _ _ _ _ _ He' He).
      by destruct Hf as [->| ->].
Qed.

(** A DNS answer from 10.0.0.2:53 in a VXLAN tunnel, under one VLAN tag. *)
Definition demo_frame : list Z :=
  [1;2;3;4;5;6; 7;8;9;10;11;12; 129;0; 0;5; 8;0] ++
  [69;0;0;78; 0;0;0;0; 64;17;0;0; 192;168;0;1; 192;168;0;2] ++ [156;64; 18;181; 0;58; 0;0] ++
  [8;0;0;0; 0;0;1;0] ++
  [1;2;3;4;5;6; 7;8;9;10;11;12; 8;0] ++
  [69;0;0;28; 0;0;0;0; 64;17;0;0; 10;0;0;2; 10;0;0;1] ++ [0;53; 156;64; 0;8; 0;0].

Lemma judge_direction_correct_witness :
  exists d, req_pattern_judge_pkt_direction (REQ_PATTERN_CUSTOM (NODE_PORT 53))
    (Pkthdr 0 0 96 96) demo_frame = Some d /\ d = PKT_DIR_OUTGOING.
Proof.
  assert (pkt_ok (Pkthdr 0 0 96 96) demo_frame) as Hp.
  { split; [repeat constructor; lia|]. split; [cbn; lia|]. vm_compute. congruence. }
  destruct (judge_direction_correct (REQ_PATTERN_CUSTOM (NODE_PORT 53)) _ _ Hp) as (d & E & _).
  exists d. split; [exact E|]. vm_compute in E. injection E as <-. reflexivity.
Defined.

(** ** Configuration *)

(** a pattern is built from every configuration that names a known type
    with a valid pattern and an interface that resolves, and from no other:
    an unknown type means no check. *)
Theorem new_from_cfg_correct pton4 pton6 get_mac get_ip cfg ifname :
  exists r, req_pattern_new_from_cfg_adv pton4 pton6 get_mac get_ip cfg ifname = Some r /\
  forall p, r = Some p <->
    match p with
    | REQ_PATTERN_NONE => cfg_type cfg <> "auto" /\ cfg_type cfg <> "custom"
    | REQ_PATTERN_AUTO mac => cfg_type cfg = "auto" /\ get_mac ifname = Some mac
    | REQ_PATTERN_CUSTOM node =>
        cfg_type cfg = "custom" /\ Expr pton4 pton6 get_ip (lex (cfg_pattern cfg)) node
    end.
Proof.
  unfold req_pattern_new_from_cfg_adv.
  destruct (String.eqb_spec (cfg_type cfg) "none") as [En|Nn];
    [|destruct (String.eqb_spec (cfg_type cfg) "auto") as [Ea|Na];
      [|destruct (String.eqb_spec (cfg_type cfg) "custom") as [Ec|Nc]]].
  - eexists. split; [reflexivity|]. intros []; intuition congruence.
  - eexists. split; [reflexivity|]. intros []; destruct (get_mac ifname); cbn; intuition congruence.
  - destruct (parse_pattern_spec pton4 pton6 get_ip (cfg_pattern cfg)) as (r & -> & Hr).
    eexists. split; [reflexivity|].
    intros [| |node]; [| |rewrite <- Hr]; destruct r; cbn; intuition congruence.
  - eexists. split; [reflexivity|]. intros []; intuition congruence.
Qed.
