(* ===== verification/IfUtil.v ===== *)
(** * Addresses of interfaces (if_util.c)

    The request patterns and the capture filters name interfaces; the
    functions here find their addresses in the list [getifaddrs] answers.
    They are what the code passes where [ReqPattern], [PacketDir] and
    [BpfFilter] have the parameters [get_ip] and [get_mac]. *)

From Stdlib Require Import String.
From stdpp Require Import prelude list strings.
From S2P Require Import Prelude ReqPattern PacketDir.

(** [sockaddr] by its family. *)
Inductive sockaddr :=
| AF_INET (sin_addr : Z)
| AF_INET6 (sin6_addr : list Z)
| AF_PACKET (sll_halen : Z) (sll_addr : list Z)
| AF_OTHER.

Record ifaddrs := IfAddrs { ifa_name : string; ifa_addr : option sockaddr }.

Definition ETHER_ADDR_LEN : Z := 6.

(** The first element for which [f] has an answer: the [for] with its
    [break]. *)
Fixpoint first_of {A : Type} (f : ifaddrs -> option A) (l : list ifaddrs) : option A :=
  match l with [] => None | ifa :: l => match f ifa with Some a => Some a | None => first_of f l end end.

Definition mac_of (ifname : string) (ifa : ifaddrs) : option (list Z) :=
  if negb (String.eqb (ifa_name ifa) ifname) then None
  else
    match ifa_addr ifa with
    | Some (AF_PACKET sll_halen sll_addr) => if (sll_halen =? ETHER_ADDR_LEN)%Z then Some (take 6 sll_addr) else None
    | _ => None
    end.

(** [ifap]: what [getifaddrs] answers, [None] for a failure. *)
Definition get_if_mac_addr (ifap : option (list ifaddrs)) (ifname : string) : option (list Z) :=
  ifap ← ifap; first_of (mac_of ifname) ifap.

Definition ip_of (ifname : string) (ifa : ifaddrs) : option ip_addr_t :=
  match ifa_addr ifa with
  | None => None
  | Some addr =>
      if negb (String.eqb (ifa_name ifa) ifname) then None
      else
        match addr with
        | AF_INET a => Some (IPv4 a)
        | AF_INET6 a => Some (IPv6 a)
        | _ => None
        end
  end.

Definition get_if_ip_addr (ifaddr : option (list ifaddrs)) (ifname : string) : option ip_addr_t :=
  ifaddr ← ifaddr; first_of (ip_of ifname) ifaddr.

(** ** Properties *)

Lemma first_of_spec {A : Type} (f : ifaddrs -> option A) l a :
  first_of f l = Some a <-> exists pre ifa post, l = pre ++ ifa :: post /\ f ifa = Some a /\ Forall (fun i => f i = None) pre.
Proof.
  induction l as [|i l IH]; cbn [first_of].
  - split; [done|]. by intros ([] & ifa & post & [=] & _).
  - destruct (f i) as [b|] eqn:E.
    + split; [intros [= ->]; by exists [], i, l|]. intros (pre & ifa & post & El & Ea & Hp).
      destruct pre as [|p pre]; injection El as -> _; [congruence|]. apply Forall_cons in Hp as [Hp _]. congruence.
    + rewrite IH. split.
      * intros (pre & ifa & post & -> & Ea & Hp). exists (i :: pre), ifa, post. split; [done|]. split; [done|]. by constructor.
      * intros (pre & ifa & post & El & Ea & Hp). destruct pre as [|p pre]; injection El as -> ->; [congruence|].
        apply Forall_cons in Hp as [_ Hp]. by exists pre, ifa, post.
Qed.

(** The address of an interface is the first IPv4 or IPv6 address in the list
    that has its name; its link address the first with the length of an
    Ethernet address. *)
Theorem interface_addresses (l : list ifaddrs) (ifname : string) :
  (forall a, get_if_ip_addr (Some l) ifname = Some a <->
     exists pre addr post, l = pre ++ IfAddrs ifname (Some addr) :: post /\
       (match a with IPv4 v => addr = AF_INET v | IPv6 v => addr = AF_INET6 v end) /\ Forall (fun i => ip_of ifname i = None) pre) /\
  (forall mac, get_if_mac_addr (Some l) ifname = Some mac <->
     exists pre hw post, l = pre ++ IfAddrs ifname (Some (AF_PACKET ETHER_ADDR_LEN hw)) :: post /\
       mac = take 6 hw /\ Forall (fun i => mac_of ifname i = None) pre).
Proof.
  split.
  - intros a. cbn [get_if_ip_addr mbind option_bind]. rewrite first_of_spec. split.
    + intros (pre & [name [addr|]] & post & -> & Ea & Hp); [|done]. unfold ip_of in Ea. cbn [ifa_name ifa_addr] in Ea.
      destruct (String.eqb_spec name ifname) as [->|]; [|done]. exists pre, addr, post. split; [done|]. split; [|done].
      by destruct addr; simplify_eq/=.
    + intros (pre & addr & post & -> & Ha & Hp). exists pre, (IfAddrs ifname (Some addr)), post. split; [done|]. split; [|done].
      unfold ip_of. cbn [ifa_name ifa_addr]. rewrite String.eqb_refl. cbn [negb]. by destruct a; subst.
  - intros mac. cbn [get_if_mac_addr mbind option_bind]. rewrite first_of_spec. split.
    + intros (pre & [name [addr|]] & post & -> & Ea & Hp); unfold mac_of in Ea; cbn [ifa_name ifa_addr] in Ea;
        destruct (String.eqb_spec name ifname) as [->|]; cbn [negb] in Ea; try done.
      destruct addr as [| |len hw|]; try done. destruct (Z.eqb_spec len ETHER_ADDR_LEN) as [->|]; [|done]. injection Ea as <-.
      by exists pre, hw, post.
    + intros (pre & hw & post & -> & -> & Hp). eexists pre, _, post. split; [done|]. split; [|done].
      unfold mac_of. cbn [ifa_name ifa_addr]. by rewrite String.eqb_refl.
Qed.

(** With these lookups a pattern is created exactly from the configurations
    whose interface is in the list: an [auto] pattern has the address of the
    interface. *)
Corollary auto_pattern pton4 pton6 l cfg ifname mac :
  cfg_type cfg = "auto"%string ->
  req_pattern_new_from_cfg_adv pton4 pton6 (get_if_mac_addr (Some l)) (get_if_ip_addr (Some l)) cfg ifname = Some (Some (REQ_PATTERN_AUTO mac)) <->
  exists pre hw post, l = pre ++ IfAddrs ifname (Some (AF_PACKET ETHER_ADDR_LEN hw)) :: post /\
    mac = take 6 hw /\ Forall (fun i => mac_of ifname i = None) pre.
Proof.
  intros Hc. unfold req_pattern_new_from_cfg_adv. rewrite Hc. cbn [String.eqb Ascii.eqb Bool.eqb].
  rewrite <- (proj2 (interface_addresses l ifname) mac).
  destruct (get_if_mac_addr (Some l) ifname); cbn; split; congruence.
Qed.
