(* ===== verification/PatternMemory.v ===== *)
(** * The memory of the pattern parser (req_pattern.c)

    The parser of [ReqPattern] with its heap: tokens with a value and nodes
    are blocks, and every path out of the parser has to give back what it
    does not return.  [malloc] is taken to succeed where the code does not
    check it; freeing what is not allocated is undefined behaviour. *)

From Stdlib Require Import String.
From stdpp Require Import prelude list strings gmultiset.
From S2P Require Import Prelude ReqPattern PacketDir.

(** ** The heap *)

(** The input and the current token, the block of the token's value, and the
    heap. *)
Record pmem := PMem { ps : pstate; value : option nat; live : gmultiset nat; next : nat }.

(** [None] is undefined behaviour, or a parser that does not end. *)
Definition M (A : Type) : Type := pmem -> option (A * pmem).
Definition ret {A} (a : A) : M A := fun s => Some (a, s).
Definition bind {A B} (m : M A) (k : A -> M B) : M B := fun s => match m s with Some (a, s) => k a s | None => None end.

Declare Scope pmem_scope.
Delimit Scope pmem_scope with pmem.
Notation "'do' x <- m ; f" := (bind m (fun x => f))
  (at level 100, x name, m at level 99, f at level 200, right associativity) : pmem_scope.
Notation "m ;; f" := (bind m (fun _ => f)) (at level 100, f at level 200, right associativity) : pmem_scope.
Open Scope pmem_scope.

Definition malloc : M nat := fun s => Some (next s, PMem (ps s) (value s) (live s ⊎ {[+ next s +]}) (S (next s))).
Definition free (b : nat) : M unit := fun s =>
  if decide (b ∈ live s) then Some (tt, PMem (ps s) (value s) (live s ∖ {[+ b +]}) (next s)) else None.

Definition get : M pmem := fun s => Some (s, s).

(** [*current_token = get_next_token(input)]: the old token is overwritten. *)
Definition next_token : M unit := fun s =>
  let st := ReqPattern.next_token (ps s) in
  match current st with
  | TOKEN_VALUE _ => Some (tt, PMem st (Some (next s)) (live s ⊎ {[+ next s +]}) (S (next s)))
  | _ => Some (tt, PMem st None (live s) (next s))
  end.

(** ** Trees *)

Inductive tree := Condition (b : nat) (n : Node) | Operator (b : nat) (op : OperatorType) (l r : tree).

Fixpoint erase (t : tree) : Node :=
  match t with Condition _ n => n | Operator _ op l r => NODE_OPERATOR op (erase l) (erase r) end.

Fixpoint tree_foot (t : tree) : gmultiset nat :=
  match t with Condition b _ => {[+ b +]} | Operator b _ l r => tree_foot l ⊎ tree_foot r ⊎ {[+ b +]} end.

Definition tree_foot_opt (t : option tree) : gmultiset nat := match t with Some t => tree_foot t | None => ∅ end.

Definition create_operator_node (op : OperatorType) (l r : tree) : M tree := do b <- malloc; ret (Operator b op l r).

Fixpoint free_ast (t : tree) : M unit :=
  match t with Condition b _ => free b | Operator b _ l r => free_ast l;; free_ast r;; free b end.

Definition free_ast_opt (t : option tree) : M unit := match t with Some t => free_ast t | None => ret tt end.

(** ** The parser *)

Section code.
  Context (inet_pton4 : string -> option Z) (inet_pton6 : string -> option (list Z)) (get_ip : string -> option ip_addr_t).

Definition create_condition_node (type : ConditionType) (v : string) : M (option tree) :=
  do b <- malloc;
  match ReqPattern.create_condition_node inet_pton4 inet_pton6 get_ip type v with Some n => ret (Some (Condition b n)) | None => free b;; ret None end.

(** After [host] or [port]. *)
Definition parse_value_condition (type : ConditionType) : M (option tree) :=
  next_token;;
  do s <- get;
  match current (ps s), value s with
  | TOKEN_VALUE v, Some b =>
      next_token;;
      do node <- create_condition_node type v;
      free b;; ret node
  | TOKEN_VALUE _, None => fun _ => None
  | _, _ => ret None
  end.

Definition parse_condition : M (option tree) :=
  do s <- get;
  match current (ps s) with
  | TOKEN_HOST => parse_value_condition COND_HOST
  | TOKEN_PORT => parse_value_condition COND_PORT
  | _ => ret None
  end.

Fixpoint operand_loop (tok : TokenType) (op : OperatorType) (sub : M (option tree)) (fuel : nat) (lhs : tree) : M (option tree) :=
  match fuel with
  | O => fun _ => None
  | S fuel =>
      do s <- get;
      if bool_decide (current (ps s) = tok) then
        next_token;;
        do rhs <- sub;
        match rhs with
        | None => free_ast lhs;; ret None
        | Some rhs => do lhs <- create_operator_node op lhs rhs; operand_loop tok op sub fuel lhs
        end
      else ret (Some lhs)
  end.

Definition parse_factor (parse_expression : M (option tree)) : M (option tree) :=
  do s <- get;
  if bool_decide (current (ps s) = TOKEN_LPAREN) then
    next_token;;
    do expr <- parse_expression;
    do s <- get;
    if bool_decide (current (ps s) = TOKEN_RPAREN) then next_token;; ret expr
    else free_ast_opt expr;; ret None
  else parse_condition.

Definition parse_term (parse_expression : M (option tree)) (fuel : nat) : M (option tree) :=
  do lhs <- parse_factor parse_expression;
  match lhs with
  | None => ret None
  | Some lhs => operand_loop TOKEN_AND OP_AND (parse_factor parse_expression) fuel lhs
  end.

Fixpoint parse_expression (fuel : nat) : M (option tree) :=
  match fuel with
  | O => fun _ => None
  | S fuel =>
      do lhs <- parse_term (parse_expression fuel) fuel;
      match lhs with
      | None => ret None
      | Some lhs => operand_loop TOKEN_OR OP_OR (parse_term (parse_expression fuel) fuel) fuel lhs
      end
  end.

(** [if (token.value) free(token.value)] *)
Definition free_token : M unit := do s <- get; match value s with Some b => free b | None => ret tt end.

Definition req_pattern_custom_matcher_init (pattern : string) : M (option tree) := fun s =>
  (next_token;;
   do ast <- parse_expression (parse_fuel pattern);
   match ast with
   | None => free_token;; ret None
   | Some ast =>
       do s <- get;
       if bool_decide (current (ps s) = TOKEN_EOF) then ret (Some ast)
       else free_token;; free_ast ast;; ret None
   end) (PMem (PState pattern TOKEN_ERROR) None (live s) (next s)).

(** *** The pattern object *)

(** [req_pattern_t]: its block and, for a custom pattern, the tree. *)
Record pattern_obj := PatternObj { p_block : nat; p_tree : option tree }.

Definition req_pattern_destroy (p : pattern_obj) : M unit := free_ast_opt (p_tree p);; free (p_block p).

(** [allocated]: what [calloc] answers. *)
Definition req_pattern_new_from_cfg (allocated : bool) (get_mac : string -> option (list Z)) (cfg : ReqPatternConfig) (ifname : string) :
    M (option pattern_obj) :=
  if negb allocated then ret None
  else
    do b <- malloc;
    if String.eqb (cfg_type cfg) "none" then ret (Some (PatternObj b None))
    else if String.eqb (cfg_type cfg) "auto" then
      match get_mac ifname with
      | Some _ => ret (Some (PatternObj b None))
      | None => req_pattern_destroy (PatternObj b None);; ret None
      end
    else if String.eqb (cfg_type cfg) "custom" then
      do node <- req_pattern_custom_matcher_init (cfg_pattern cfg);
      match node with
      | Some t => ret (Some (PatternObj b (Some t)))
      | None => req_pattern_destroy (PatternObj b None);; ret None
      end
    else ret (Some (PatternObj b None)).

(** ** Simulation *)

(** Besides [F] the heap holds the value of the current token. *)
Definition inv (F : gmultiset nat) (s : pmem) : Prop :=
  match current (ps s), value s with
  | TOKEN_VALUE _, Some b => live s = F ⊎ {[+ b +]}
  | TOKEN_VALUE _, None => False
  | _, None => live s = F
  | _, Some _ => False
  end.

Lemma inv_heap F F' s : F = F' -> inv F s -> inv F' s.
Proof. by intros ->. Qed.

(** What the steps do to the frame. *)
Lemma malloc_inv F s : inv F s -> exists b s', malloc s = Some (b, s') /\ ps s' = ps s /\ inv (F ⊎ {[+ b +]}) s'.
Proof.
  intros H. eexists _, _. split; [done|]. split; [done|]. unfold inv in *. cbn [ps value live].
  destruct (current (ps s)), (value s); try done; rewrite H; multiset_solver.
Qed.

Lemma free_inv F b s : inv (F ⊎ {[+ b +]}) s -> exists s', free b s = Some (tt, s') /\ ps s' = ps s /\ inv F s'.
Proof.
  intros H. assert (b ∈ live s) as Hb.
  { unfold inv in H. destruct (current (ps s)), (value s); try done; rewrite H; multiset_solver. }
  unfold free. rewrite decide_True by done. eexists. split; [done|]. split; [done|]. unfold inv in *. cbn [ps value live].
  destruct (current (ps s)), (value s); try done; rewrite H; multiset_solver.
Qed.

Lemma next_token_inv F s : (forall v, current (ps s) <> TOKEN_VALUE v) -> inv F s ->
  exists s', next_token s = Some (tt, s') /\ ps s' = ReqPattern.next_token (ps s) /\ inv F s'.
Proof.
  intros Hv H. assert (live s = F) as HF.
  { unfold inv in H. destruct (current (ps s)) eqn:E; destruct (value s); try done. by destruct (Hv value0). }
  unfold next_token. destruct (current (ReqPattern.next_token (ps s))) eqn:E; eexists; (split; [done|]); (split; [done|]);
    unfold inv; cbn [ps value live]; rewrite E; by rewrite ?HF.
Qed.

(** The parser takes the value of a token over. *)
Lemma next_token_value F s v : current (ps s) = TOKEN_VALUE v -> inv F s ->
  exists b s', value s = Some b /\ next_token s = Some (tt, s') /\ ps s' = ReqPattern.next_token (ps s) /\ inv (F ⊎ {[+ b +]}) s'.
Proof.
  intros Hv H. unfold inv in H. rewrite Hv in H. destruct (value s) as [b|]; [|done]. exists b. unfold next_token.
  destruct (current (ReqPattern.next_token (ps s))) eqn:E; eexists; (split; [done|]); (split; [done|]); (split; [done|]);
    unfold inv; cbn [ps value live]; rewrite E; by rewrite ?H.
Qed.

Lemma free_ast_inv t : forall F s, inv (F ⊎ tree_foot t) s -> exists s', free_ast t s = Some (tt, s') /\ ps s' = ps s /\ inv F s'.
Proof.
  induction t as [b n|b op l IHl r IHr]; intros F s H; cbn [free_ast tree_foot] in *; [by apply free_inv|].
  unfold bind. destruct (IHl (F ⊎ tree_foot r ⊎ {[+ b +]}) s) as (s1 & -> & E1 & H1).
  { eapply inv_heap; [|exact H]. multiset_solver. }
  destruct (IHr (F ⊎ {[+ b +]}) s1) as (s2 & -> & E2 & H2); [eapply inv_heap; [|exact H1]; multiset_solver|].
  destruct (free_inv F b s2 H2) as (s3 & -> & E3 & H3). exists s3. split; [done|]. split; [congruence|done].
Qed.

Lemma free_token_inv F s : inv F s -> exists s', free_token s = Some (tt, s') /\ live s' = F.
Proof.
  intros H. unfold free_token, bind, get. unfold inv in H. destruct (value s) as [b|] eqn:Ev.
  - destruct (current (ps s)) eqn:E; try done. unfold free. rewrite decide_True by (rewrite H; multiset_solver).
    eexists. split; [done|]. cbn [live]. rewrite H. multiset_solver.
  - eexists. split; [done|]. by destruct (current (ps s)).
Qed.

(** The heap parser does what the pure one does, and what it adds to the heap
    is the tree it answers. *)
Definition sim (pure : pstate -> presult) (m : M (option tree)) : Prop :=
  forall F s r st, inv F s -> pure (ps s) = Some (r, st) ->
  exists t s', m s = Some (t, s') /\ erase <$> t = r /\ ps s' = st /\ inv (F ⊎ tree_foot_opt t) s'.

Lemma inv_nil F s : inv F s -> inv (F ⊎ ∅) s.
Proof. apply inv_heap. multiset_solver. Qed.

Lemma value_condition_sim type F s : (forall v, current (ps s) <> TOKEN_VALUE v) -> inv F s ->
  exists t s', parse_value_condition type s = Some (t, s') /\ inv (F ⊎ tree_foot_opt t) s' /\
    (erase <$> t, ps s') =
      let st := ReqPattern.next_token (ps s) in
      match current st with
      | TOKEN_VALUE v => (ReqPattern.create_condition_node inet_pton4 inet_pton6 get_ip type v, ReqPattern.next_token st)
      | _ => (None, st)
      end.
Proof.
  intros Hv H. destruct (next_token_inv F s Hv H) as (s1 & E1 & P1 & H1). unfold parse_value_condition, bind at 1. rewrite E1.
  unfold bind at 1, get. cbv zeta. rewrite <- P1.
  destruct (current (ps s1)) as [| | | | | |v| |] eqn:Ec; try (exists None, s1; split; [|split; [by apply inv_nil|done]]; by destruct (value s1)).
  destruct (next_token_value F s1 v Ec H1) as (b & s2 & Ev & E2 & P2 & H2). rewrite Ev. unfold bind at 1. rewrite E2.
  unfold create_condition_node, bind. destruct (malloc_inv _ s2 H2) as (b' & s3 & -> & P3 & H3).
  destruct (ReqPattern.create_condition_node inet_pton4 inet_pton6 get_ip type v) as [n|].
  - cbn [ret]. destruct (free_inv (F ⊎ {[+ b' +]}) b s3) as (s4 & -> & P4 & H4); [eapply inv_heap; [|exact H3]; multiset_solver|].
    exists (Some (Condition b' n)), s4. split; [done|]. split; [done|]. cbn. by rewrite P4, P3, P2.
  - destruct (free_inv (F ⊎ {[+ b +]}) b' s3 H3) as (s4 & -> & P4 & H4). cbn [ret].
    destruct (free_inv F b s4 H4) as (s5 & -> & P5 & H5). exists None, s5. split; [done|]. split; [by apply inv_nil|].
    cbn. by rewrite P5, P4, P3, P2.
Qed.

Lemma condition_sim : sim (fun st => Some (ReqPattern.parse_condition inet_pton4 inet_pton6 get_ip st)) parse_condition.
Proof.
  intros F s r st H [= E]. unfold parse_condition, bind, get. unfold ReqPattern.parse_condition in E.
  destruct (current (ps s)) eqn:Ec.
  1: destruct (value_condition_sim COND_HOST F s) as (t & s' & Em & Hi & Ee); [intros v; by rewrite Ec|done|].
  2: destruct (value_condition_sim COND_PORT F s) as (t & s' & Em & Hi & Ee); [intros v; by rewrite Ec|done|].
  1,2: cbv zeta in Ee; rewrite E in Ee; injection Ee as <- <-; by exists t, s'.
  all: injection E as <- <-; exists None, s; split; [done|]; split; [done|]; split; [done|by apply inv_nil].
Qed.

Lemma operand_loop_sim tok op pure m fuel : (forall v, tok <> TOKEN_VALUE v) -> sim pure m -> forall F lhs s r st,
  inv (F ⊎ tree_foot lhs) s -> ReqPattern.operand_loop tok op pure fuel (erase lhs) (ps s) = Some (r, st) ->
  exists t s', operand_loop tok op m fuel lhs s = Some (t, s') /\ erase <$> t = r /\ ps s' = st /\ inv (F ⊎ tree_foot_opt t) s'.
Proof.
  intros Htok Hsub. induction fuel as [|fuel IH]; intros F lhs s r st H E; [done|]. cbn [operand_loop ReqPattern.operand_loop] in *.
  unfold bind at 1, get. destruct (decide (current (ps s) = tok)) as [Et|Et].
  - rewrite bool_decide_eq_true_2 in E |- * by done.
    destruct (next_token_inv _ s ltac:(rewrite Et; done) H) as (s1 & E1 & P1 & H1). unfold bind at 1. rewrite E1.
    destruct (pure (ReqPattern.next_token (ps s))) as [[rhs st1]|] eqn:Ep; [|done]. cbn [mbind option_bind] in E. rewrite <- P1 in Ep.
    destruct (Hsub _ s1 rhs st1 H1 Ep) as (t & s2 & Em & Et2 & P2 & H2). unfold bind at 1. rewrite Em. subst rhs st1.
    destruct t as [t|]; cbn [fmap option_fmap option_map] in E.
    + unfold create_operator_node, bind at 1. unfold bind at 1. destruct (malloc_inv _ s2 H2) as (b & s3 & -> & P3 & H3). cbn [ret].
      rewrite <- P3 in E. apply (IH F (Operator b op lhs t) s3 r st); [|exact E]. eapply inv_heap; [|exact H3]. cbn [tree_foot tree_foot_opt].
      by rewrite <- !(assoc_L (⊎)).
    + injection E as <- <-. destruct (free_ast_inv lhs F s2) as (s3 & E3 & P3 & H3).
      { eapply inv_heap; [|exact H2]. cbn [tree_foot_opt]. multiset_solver. }
      unfold bind. rewrite E3. exists None, s3. split; [done|]. split; [done|]. split; [done|by apply inv_nil].
  - rewrite bool_decide_eq_false_2 in E |- * by done. injection E as <- <-. by exists (Some lhs), s.
Qed.

Lemma factor_sim pure m : sim pure m -> sim (ReqPattern.parse_factor inet_pton4 inet_pton6 get_ip pure) (parse_factor m).
Proof.
  intros Hm F s r st H E. unfold parse_factor, ReqPattern.parse_factor in *. unfold bind at 1, get.
  destruct (decide (current (ps s) = TOKEN_LPAREN)) as [Et|Et].
  - rewrite bool_decide_eq_true_2 in E |- * by done.
    destruct (next_token_inv _ s ltac:(rewrite Et; done) H) as (s1 & E1 & P1 & H1). unfold bind at 1. rewrite E1.
    destruct (pure (ReqPattern.next_token (ps s))) as [[expr st1]|] eqn:Ep; [|done]. cbn [mbind option_bind] in E. rewrite <- P1 in Ep.
    destruct (Hm _ s1 expr st1 H1 Ep) as (t & s2 & Em & Et2 & P2 & H2). unfold bind at 1. rewrite Em. unfold bind at 1. subst expr st1.
    destruct (decide (current (ps s2) = TOKEN_RPAREN)) as [Er|Er].
    + rewrite bool_decide_eq_true_2 in E |- * by done. injection E as <- <-.
      destruct (next_token_inv _ s2 ltac:(rewrite Er; done) H2) as (s3 & E3 & P3 & H3). unfold bind. rewrite E3. by exists t, s3.
    + rewrite bool_decide_eq_false_2 in E |- * by done. injection E as <- <-.
      assert (exists s3, free_ast_opt t s2 = Some (tt, s3) /\ ps s3 = ps s2 /\ inv F s3) as (s3 & E3 & P3 & H3).
      { destruct t as [t|]; [by apply free_ast_inv|]. exists s2. split; [done|]. split; [done|]. eapply inv_heap; [|exact H2].
        cbn [tree_foot_opt]. multiset_solver. }
      unfold bind. rewrite E3. exists None, s3. split; [done|]. split; [done|]. split; [done|by apply inv_nil].
  - rewrite bool_decide_eq_false_2 in E |- * by done. by apply (condition_sim F s r st).
Qed.

(** A first operand and the loop. *)
Lemma chain_sim tok op pure m fuel : (forall v, tok <> TOKEN_VALUE v) -> sim pure m ->
  sim (fun st => '(lhs, st) ← pure st; match lhs with None => Some (None, st) | Some lhs => ReqPattern.operand_loop tok op pure fuel lhs st end)
    (do lhs <- m; match lhs with None => ret None | Some lhs => operand_loop tok op m fuel lhs end).
Proof.
  intros Htok Hm F s r st H E. destruct (pure (ps s)) as [[lhs st1]|] eqn:Ep; [|done]. cbn [mbind option_bind] in E.
  destruct (Hm F s lhs st1 H Ep) as (t & s1 & Em & <- & <- & H1). unfold bind. rewrite Em.
  destruct t as [t|]; cbn [fmap option_fmap option_map] in E; [by apply (operand_loop_sim tok op pure m fuel Htok Hm F t s1)|].
  injection E as <- <-. exists None, s1. split; [done|]. split; [done|]. split; [done|]. exact H1.
Qed.

Lemma expression_sim fuel : sim (ReqPattern.parse_expression inet_pton4 inet_pton6 get_ip fuel) (parse_expression fuel).
Proof.
  induction fuel as [|fuel IH]; [by intros F s r st _ [=]|]. cbn [parse_expression ReqPattern.parse_expression].
  apply chain_sim; [done|]. unfold ReqPattern.parse_term, parse_term. apply (chain_sim TOKEN_AND OP_AND); [done|]. by apply factor_sim.
Qed.

(** *** The pattern object *)

Lemma free_live F b s : live s = F ⊎ {[+ b +]} -> exists s', free b s = Some (tt, s') /\ live s' = F.
Proof.
  intros H. unfold free. rewrite decide_True by (rewrite H; multiset_solver). eexists. split; [done|]. cbn [live]. rewrite H. multiset_solver.
Qed.

Lemma free_ast_live t : forall F s, live s = F ⊎ tree_foot t -> exists s', free_ast t s = Some (tt, s') /\ live s' = F.
Proof.
  induction t as [b n|b op l IHl r IHr]; intros F s H; cbn [free_ast tree_foot] in *; [by apply free_live|].
  unfold bind. destruct (IHl (F ⊎ tree_foot r ⊎ {[+ b +]}) s) as (s1 & -> & H1); [rewrite H; multiset_solver|].
  destruct (IHr (F ⊎ {[+ b +]}) s1) as (s2 & -> & H2); [rewrite H1; multiset_solver|]. by apply free_live.
Qed.

Lemma destroy_live p F s : live s = F ⊎ ({[+ p_block p +]} ⊎ tree_foot_opt (p_tree p)) ->
  exists s', req_pattern_destroy p s = Some (tt, s') /\ live s' = F.
Proof.
  destruct p as [b [t|]]; unfold req_pattern_destroy, bind; cbn [p_block p_tree tree_foot_opt free_ast_opt]; intros H.
  - destruct (free_ast_live t (F ⊎ {[+ b +]}) s) as (s1 & -> & H1); [rewrite H; multiset_solver|]. by apply free_live.
  - cbn [ret]. apply free_live. rewrite H. multiset_solver.
Qed.

Lemma init_live pattern s : exists t s',
  req_pattern_custom_matcher_init pattern s = Some (t, s') /\
  ReqPattern.req_pattern_custom_matcher_init inet_pton4 inet_pton6 get_ip pattern = Some (erase <$> t) /\
  live s' = live s ⊎ tree_foot_opt t.
Proof.
  destruct (parse_pattern_spec inet_pton4 inet_pton6 get_ip pattern) as (r0 & E0 & _). revert E0.
  unfold req_pattern_custom_matcher_init, ReqPattern.req_pattern_custom_matcher_init. set (s0 := PMem _ _ _ _).
  destruct (next_token_inv (live s) s0) as (s1 & E1 & P1 & H1); [done|done|]. unfold bind at 1. rewrite E1.
  change (PState pattern TOKEN_ERROR) with (ps s0). rewrite <- P1.
  destruct (ReqPattern.parse_expression inet_pton4 inet_pton6 get_ip (parse_fuel pattern) (ps s1)) as [[r st]|] eqn:Ee; [|done]. intros _.
  destruct (expression_sim _ _ s1 r st H1 Ee) as (t & s2 & Em & <- & <- & H2). unfold bind at 1. rewrite Em. cbn [mbind option_bind].
  destruct t as [t|]; cbn [fmap option_fmap option_map].
  - unfold bind at 1, get. destruct (decide (current (ps s2) = TOKEN_EOF)) as [Et|Et].
    + rewrite !bool_decide_eq_true_2 by done. exists (Some t), s2. split; [done|]. split; [done|].
      unfold inv in H2. rewrite Et in H2. by destruct (value s2).
    + rewrite !bool_decide_eq_false_2 by done. unfold bind at 1. destruct (free_token_inv _ s2 H2) as (s3 & -> & H3).
      unfold bind. destruct (free_ast_live t (live s) s3) as (s4 & -> & H4); [exact H3|]. exists None, s4. split; [done|]. split; [done|].
      rewrite H4. cbn [tree_foot_opt]. multiset_solver.
  - unfold bind. destruct (free_token_inv _ s2 H2) as (s3 & -> & H3). exists None, s3. by split.
Qed.

(** What a pattern object adds to the heap; only a custom pattern takes more
    than the object. *)
Lemma new_live (get_mac : string -> option (list Z)) (cfg : ReqPatternConfig) (ifname : string) (allocated : bool) (s : pmem) :
  exists r s', req_pattern_new_from_cfg allocated get_mac cfg ifname s = Some (r, s') /\
    live s' = live s ⊎ match r with Some p => {[+ p_block p +]} ⊎ tree_foot_opt (p_tree p) | None => ∅ end /\
    (String.eqb (cfg_type cfg) "custom" = false -> next s' <= S (next s))%nat.
Proof.
  unfold req_pattern_new_from_cfg. destruct allocated; cbn [negb].
  2:{ exists None, s. split; [done|]. split; [by rewrite gmultiset_disj_union_right_id|lia]. }
  unfold bind at 1, malloc. set (s1 := PMem _ _ _ _).
  assert (Hs1 : live s1 = live s ⊎ {[+ next s +]}) by done. assert (Hn1 : next s1 = S (next s)) by done. clearbody s1.
  assert (Hd : forall s2, live s2 = live s1 -> exists s'', req_pattern_destroy (PatternObj (next s) None) s2 = Some (tt, s'') /\ live s'' = live s /\ next s'' = next s2).
  { intros s2 E2. unfold req_pattern_destroy, bind, free. cbn [p_tree p_block free_ast_opt ret]. rewrite E2, Hs1, decide_True by multiset_solver.
    eexists. split; [done|]. split; [|done]. cbn [live]. multiset_solver. }
  assert (Hk : exists r s', Some (Some (PatternObj (next s) None), s1) = Some (r, s') /\
    live s' = live s ⊎ match r with Some p => {[+ p_block p +]} ⊎ tree_foot_opt (p_tree p) | None => ∅ end /\
    (String.eqb (cfg_type cfg) "custom" = false -> next s' <= S (next s))%nat).
  { exists (Some (PatternObj (next s) None)), s1. split; [done|]. cbn [p_block p_tree tree_foot_opt]. rewrite Hs1, gmultiset_disj_union_right_id. split; [done|lia]. }
  destruct (String.eqb (cfg_type cfg) "none"); [exact Hk|].
  destruct (String.eqb (cfg_type cfg) "auto").
  { destruct (get_mac ifname) as [mac|]; [exact Hk|]. unfold bind. destruct (Hd s1 eq_refl) as (s2 & -> & H2 & N2).
    exists None, s2. split; [done|]. rewrite H2, gmultiset_disj_union_right_id. split; [done|lia]. }
  destruct (String.eqb (cfg_type cfg) "custom") eqn:Ec; [|exact Hk].
  unfold bind at 1. destruct (init_live (cfg_pattern cfg) s1) as (t & s2 & -> & _ & H2). destruct t as [t|].
  - exists (Some (PatternObj (next s) (Some t))), s2. split; [done|]. cbn [p_block p_tree tree_foot_opt] in *. split; [|done].
    rewrite H2, Hs1. multiset_solver.
  - unfold bind. destruct (Hd s2) as (s3 & -> & H3 & _); [rewrite H2; cbn [tree_foot_opt]; multiset_solver|].
    exists None, s3. split; [done|]. by rewrite H3, gmultiset_disj_union_right_id.
Qed.

(** The pattern of an object, as [PacketDir] has it. *)
Definition pattern_of (get_mac : string -> option (list Z)) (cfg : ReqPatternConfig) (ifname : string) (p : pattern_obj) : req_pattern_t :=
  match p_tree p with
  | Some t => REQ_PATTERN_CUSTOM (erase t)
  | None => if String.eqb (cfg_type cfg) "auto" then REQ_PATTERN_AUTO (default [] (get_mac ifname)) else REQ_PATTERN_NONE
  end.

(** C34: The pattern parser with its heap does what the parser without one
    does, for every pattern, and manages its memory: whatever tokens the
    pattern has and wherever it is wrong, nothing is freed twice; a pattern
    that is rejected leaves the heap as it was; one that is accepted adds
    exactly the object and its tree, and destroying it gives all of it
    back. *)
Theorem pattern_memory (get_mac : string -> option (list Z)) (cfg : ReqPatternConfig) (ifname : string) (allocated : bool) (s : pmem) :
  exists r s', req_pattern_new_from_cfg allocated get_mac cfg ifname s = Some (r, s') /\
    (allocated = true ->
     req_pattern_new_from_cfg_adv inet_pton4 inet_pton6 get_mac get_ip cfg ifname = Some (pattern_of get_mac cfg ifname <$> r)) /\
    match r with
    | None => live s' = live s
    | Some p => exists s'', req_pattern_destroy p s' = Some (tt, s'') /\ live s'' = live s
    end.
Proof.
  unfold req_pattern_new_from_cfg, req_pattern_new_from_cfg_adv. destruct allocated; cbn [negb]; [|by exists None, s].
  unfold bind at 1, malloc. set (b := next s). set (s1 := PMem _ _ _ _).
  assert (Hs1 : live s1 = live s ⊎ {[+ b +]}) by done. clearbody b s1.
  assert (Hd : forall s2, live s2 = live s1 -> exists s'', req_pattern_destroy (PatternObj b None) s2 = Some (tt, s'') /\ live s'' = live s).
  { intros s2 E2. apply destroy_live. cbn [p_block p_tree tree_foot_opt]. rewrite E2, Hs1. multiset_solver. }
  unfold pattern_of. destruct (String.eqb_spec (cfg_type cfg) "none") as [En|Hn].
  { exists (Some (PatternObj b None)), s1. split; [done|]. split; [by rewrite En|]. by apply Hd. }
  destruct (String.eqb (cfg_type cfg) "auto").
  { destruct (get_mac ifname) as [mac|].
    - exists (Some (PatternObj b None)), s1. split; [done|]. split; [done|]. by apply Hd.
    - unfold bind. destruct (Hd s1 eq_refl) as (s2 & -> & H2). by exists None, s2. }
  destruct (String.eqb (cfg_type cfg) "custom").
  - unfold bind at 1. destruct (init_live (cfg_pattern cfg) s1) as (t & s2 & -> & -> & H2). destruct t as [t|].
    + exists (Some (PatternObj b (Some t))), s2. split; [done|]. split; [done|]. apply destroy_live. cbn [p_block p_tree tree_foot_opt] in *.
      rewrite H2, Hs1. multiset_solver.
    + unfold bind. destruct (Hd s2) as (s3 & -> & H3); [rewrite H2; cbn [tree_foot_opt]; multiset_solver|]. by exists None, s3.
  - exists (Some (PatternObj b None)), s1. split; [done|]. split; [done|]. by apply Hd.
Qed.

End code.
