(* ===== verification/Capture.v ===== *)
(** * Capturers (libpcap.c, pcap_file.c, dpdk/pdump.c) and polling (task.c)

    A call of a capturer reads at most one packet from libpcap, or a burst
    from the DPDK ring, counts it, judges its direction and hands it to the
    packet handler, or calls the heartbeat handler.  libpcap, the ring and the
    clocks are inputs of the call; the handler calls are its result, in order.
    [task_manager_poll_packets] composes the capturers of all tasks with the
    run-to-completion callbacks. *)

From stdpp Require Import prelude list list_numbers.
From Stdlib Require Import Sorted.
From S2P Require Import Prelude Stats RateLimit Headers Output PacketDir Pipeline.

Definition DROP_STAT_DUR_SEC : Z := 2.

(** ** Inputs and results of a call *)

(** [pcap_next_ex]: 1 with a packet, or another code. *)
Inductive next_result := NextPacket (h : pcap_pkthdr) (data : list Z) | NextCode (ret : Z).

Record pcap_stat := PcapStat { ps_drop : Z; ps_ifdrop : Z }.

(** What a call finds: [pcap_next_ex], [time], [pcap_stats] ([None] when it
    fails), the burst on the DPDK ring and [gettimeofday], and the time the
    heartbeat callback reads. *)
Record call_env := CallEnv {
  ce_next : next_result; ce_time : Z; ce_stats : option pcap_stat;
  ce_burst : list (list Z); ce_tod : timeval; ce_now : Z;
}.

Inductive call := HPacket (h : pcap_pkthdr) (data : list Z) (direct : Z) | HHeartbeat.

Definition judge (p : option req_pattern_t) (h : pcap_pkthdr) (data : list Z) : option Z :=
  match p with None => Some PKT_DIR_NONCHECK | Some p => req_pattern_judge_pkt_direction p h data end.

Definition count_captured (n : Z) (s : capture_stats_t) : capture_stats_t :=
  CaptureStats (bytes_stats_add (cap_bytes s) n) (packets_stats_add (cap_packets s) 1)
    (drop_packets s) (ifdrop_packets s).

Definition count_lost (drop_diff ifdrop_diff : Z) (s : capture_stats_t) : capture_stats_t :=
  CaptureStats (cap_bytes s) (cap_packets s)
    (packets_stats_add (drop_packets s) drop_diff) (packets_stats_add (ifdrop_packets s) ifdrop_diff).

(** ** libpcap *)

(** [pcap_next_error] holds the message of the first error not logged yet,
    here its code. *)
Record libpcap_capturer_t := Libpcap {
  l_req_pattern : option req_pattern_t;
  drop_stat_started : bool;
  drop_stat_prev_time : Z;
  prev_ps_drop : Z;
  prev_ps_ifdrop : Z;
  pcap_next_error : option Z;
}.

Definition set_next_error (c : libpcap_capturer_t) (e : option Z) : libpcap_capturer_t :=
  Libpcap (l_req_pattern c) (drop_stat_started c) (drop_stat_prev_time c) (prev_ps_drop c) (prev_ps_ifdrop c) e.

Definition set_drop_stat (c : libpcap_capturer_t) (st : pcap_stat) (now : Z) : libpcap_capturer_t :=
  Libpcap (l_req_pattern c) true now (ps_drop st) (ps_ifdrop st) (pcap_next_error c).

(** From "drop stat" to the end. *)
Definition drop_stat (stat : option pcap_stat) (now : Z) (c : libpcap_capturer_t) (s : capture_stats_t) :
    libpcap_capturer_t * capture_stats_t :=
  if negb (drop_stat_started c) then
    match stat with Some st => (set_drop_stat c st now, s) | None => (c, s) end
  else if now - drop_stat_prev_time c <? DROP_STAT_DUR_SEC then (c, s)
  else
    let '(c, s) :=
      match stat with
      | Some st => (set_drop_stat c st now,
                    count_lost (u32 (ps_drop st - prev_ps_drop c)) (u32 (ps_ifdrop st - prev_ps_ifdrop c)) s)
      | None => (c, s)
      end in
    (set_next_error c None, s).

Definition libpcap_do_capture (e : call_env) (c : libpcap_capturer_t) (s : capture_stats_t) :
    option (Z * list call * libpcap_capturer_t * capture_stats_t) :=
  '(num_pkts, calls, c, s) ←
    match ce_next e with
    | NextPacket h data =>
        direction ← judge (l_req_pattern c) h data;
        Some (1, [HPacket h data direction], c, count_captured (caplen h) s)
    | NextCode 0 => Some (0, [HHeartbeat], c, s)
    | NextCode ret =>
        Some (0, [], match pcap_next_error c with None => set_next_error c (Some ret) | Some _ => c end, s)
    end;
  let now := match ce_next e with NextPacket h _ => ts_sec h | NextCode _ => ce_time e end in
  let '(c, s) := drop_stat (ce_stats e) now c s in
  Some (num_pkts, calls, c, s).

(** ** Packet files *)

Record pcap_file_capturer_t := PcapFile { f_req_pattern : option req_pattern_t; eof : bool }.

Definition pcap_file_do_capture (e : call_env) (c : pcap_file_capturer_t) (s : capture_stats_t) :
    option (Z * list call * pcap_file_capturer_t * capture_stats_t) :=
  if eof c then Some (0, [HHeartbeat], c, s)
  else
    match ce_next e with
    | NextPacket h data =>
        direction ← judge (f_req_pattern c) h data;
        Some (1, [HPacket h data direction], c, count_captured (caplen h) s)
    | NextCode _ => Some (0, [HHeartbeat], PcapFile (f_req_pattern c) true, s)
    end.

(** ** DPDK *)




(** ** Polling *)









(** ** What a poll counts *)

Record capture_stats_wf (s : capture_stats_t) : Prop := CaptureStatsWf {
  cw_bytes : bytes_stats_wf (cap_bytes s);
  cw_packets : packets_stats_wf (cap_packets s);
  cw_drop : packets_stats_wf (drop_packets s);
  cw_ifdrop : packets_stats_wf (ifdrop_packets s);
}.

(** [n] packets of [b] bytes more. *)
Definition captured (n b : Z) (s s' : capture_stats_t) : Prop :=
  eqm packets_range (packets_value (cap_packets s')) (packets_value (cap_packets s) + n) /\
  eqm bytes_range (bytes_value (cap_bytes s')) (bytes_value (cap_bytes s) + b).



Lemma count_captured_ok n s :
  capture_stats_wf s -> 0 <= n < 4294967296 ->
  capture_stats_wf (count_captured n s) /\ captured 1 n s (count_captured n s).
Proof.
  intros [Hb Hp Hd Hi] Hn.
  destruct (bytes_add_eqm (cap_bytes s) n Hb ltac:(unfold u64_ok; lia)) as [Wb Eb].
  destruct (packets_add_eqm (cap_packets s) 1 Hp one_u64) as [Wp Ep].
  split; [by constructor|by split].
Qed.


(** A frame as libpcap or the ring hands it over. *)
Definition frame_ok (h : pcap_pkthdr) (data : list Z) : Prop := pkt_ok h data /\ zlen data = caplen h.


Definition env_ok (e : call_env) : Prop :=
  match ce_next e with NextPacket h data => frame_ok h data | NextCode _ => True end /\
  Forall (fun m => bytes_ok m /\ zlen m < 4294967296) (ce_burst e) /\ zlen (ce_burst e) <= 32.


(** ** What the environment hands over

    The packets, directions and heartbeats a capturer owes its task for what
    it finds, written without the capturers' code. *)













Lemma judge_ok p h data : frame_ok h data -> exists d, judge p h data = Some d /\ dir_ok d.
Proof.
  intros [Hp _]. destruct p as [p|]; [|exists PKT_DIR_NONCHECK; by split; [|right; left]].
  cbn [judge]. destruct (judge_direction_total p h data Hp) as (d & E & Hd). by exists d.
Qed.





(** ** Polling all tasks *)










(** ** Kernel drop counters *)

Definition lib_step (e : call_env) (c : libpcap_capturer_t) (s : capture_stats_t) :
    option (libpcap_capturer_t * capture_stats_t) :=
  '(_, _, c, s) ← libpcap_do_capture e c s; Some (c, s).

(** Calls of one capturer, each with the numbers of packets the kernel and
    the interface have dropped so far. *)
Fixpoint lib_run (es : list (call_env * (Z * Z))) (c : libpcap_capturer_t) (s : capture_stats_t) :
    option (libpcap_capturer_t * capture_stats_t) :=
  match es with [] => Some (c, s) | (e, _) :: es => '(c, s) ← lib_step e c s; lib_run es c s end.

Definition call_time (e : call_env) : Z :=
  match ce_next e with NextPacket h _ => ts_sec h | NextCode _ => ce_time e end.

(** The call reads the kernel's counters. *)
Definition reads_stat (e : call_env) (c : libpcap_capturer_t) : bool :=
  bool_decide (is_Some (ce_stats e)) &&
  (negb (drop_stat_started c) || (DROP_STAT_DUR_SEC <=? call_time e - drop_stat_prev_time c)).

(** What the calls read, in order. *)
Fixpoint stats_read (es : list (call_env * (Z * Z))) (c : libpcap_capturer_t) (s : capture_stats_t) : list (Z * Z) :=
  match es with
  | [] => []
  | (e, d) :: es =>
      match lib_step e c s with
      | Some (c', s') => (if reads_stat e c then [d] else []) ++ stats_read es c' s'
      | None => []
      end
  end.

(** [pcap_stats] shows the low 32 bits of the kernel's counts. *)
Definition kernel_env (p : call_env * (Z * Z)) : Prop :=
  env_ok p.1 /\ (ce_stats p.1 = None \/ ce_stats p.1 = Some (PcapStat (u32 p.2.1) (u32 p.2.2))).

(** Fewer than 2^32 drops between two reads. *)
Definition advances (x y : Z * Z) : Prop := 0 <= y.1 - x.1 < 4294967296 /\ 0 <= y.2 - x.2 < 4294967296.

Definition lost (n k : Z) (s s' : capture_stats_t) : Prop :=
  eqm packets_range (packets_value (drop_packets s')) (packets_value (drop_packets s) + n) /\
  eqm packets_range (packets_value (ifdrop_packets s')) (packets_value (ifdrop_packets s) + k).

Lemma lost_refl s : lost 0 0 s s.
Proof. split; match goal with |- eqm _ _ (?y + 0) => rewrite (Z.add_0_r y) end; done. Qed.

Lemma lost_trans n1 k1 n2 k2 s1 s2 s3 : lost n1 k1 s1 s2 -> lost n2 k2 s2 s3 -> lost (n1 + n2) (k1 + k2) s1 s3.
Proof.
  intros [P1 B1] [P2 B2]. split; [rewrite P2, P1|rewrite B2, B1];
    match goal with |- eqm _ ?x ?y => replace x with y by lia end; reflexivity.
Qed.

Lemma u32_diff x y : 0 <= y - x < 4294967296 -> u32 (u32 y - u32 x) = y - x.
Proof. intros H. unfold u32. rewrite <- Zminus_mod. by rewrite Z.mod_small. Qed.

(** One call that has read [x] before. *)
Lemma lib_step_ok e d x c s :
  kernel_env (e, d) -> capture_stats_wf s ->
  (drop_stat_started c = true -> prev_ps_drop c = u32 x.1 /\ prev_ps_ifdrop c = u32 x.2) ->
  exists c' s', lib_step e c s = Some (c', s') /\ capture_stats_wf s' /\
    if reads_stat e c then
      drop_stat_started c' = true /\ prev_ps_drop c' = u32 d.1 /\ prev_ps_ifdrop c' = u32 d.2 /\
      if drop_stat_started c then advances x d -> lost (d.1 - x.1) (d.2 - x.2) s s' else lost 0 0 s s'
    else drop_stat_started c' = drop_stat_started c /\ prev_ps_drop c' = prev_ps_drop c /\
      prev_ps_ifdrop c' = prev_ps_ifdrop c /\ lost 0 0 s s'.
Proof.
  intros [He Hk] Hs Hx. cbn [fst snd] in *. unfold lib_step, libpcap_do_capture.
  assert (exists n calls c1 s1,
    match ce_next e with
    | NextPacket h data =>
        direction ← judge (l_req_pattern c) h data;
        Some (1, [HPacket h data direction], c, count_captured (caplen h) s)
    | NextCode 0 => Some (0, [HHeartbeat], c, s)
    | NextCode ret => Some (0, [], match pcap_next_error c with None => set_next_error c (Some ret) | Some _ => c end, s)
    end = Some (n, calls, c1, s1) /\ capture_stats_wf s1 /\ lost 0 0 s s1 /\
    drop_stat_started c1 = drop_stat_started c /\ drop_stat_prev_time c1 = drop_stat_prev_time c /\
    prev_ps_drop c1 = prev_ps_drop c /\ prev_ps_ifdrop c1 = prev_ps_ifdrop c)
    as (n & calls & c1 & s1 & -> & Hs1 & L1 & Est & Ept & Epd & Epi).
  { destruct He as (Hn & _). destruct (ce_next e) as [h data|ret].
    - destruct (judge_ok (l_req_pattern c) h data Hn) as (dd & -> & _). obind.
      destruct Hn as [(_ & Hcl & _) _]. destruct (count_captured_ok (caplen h) s Hs Hcl) as [Hs1 _].
      eexists _, _, _, _. split; [done|]. split; [done|]. split; [apply (lost_refl s)|done].
    - destruct ret; (eexists _, _, _, _; split; [done|]; split; [done|]; split; [apply (lost_refl s)|];
        by destruct (pcap_next_error c)). }
  obind. fold (call_time e). unfold drop_stat, reads_stat. rewrite Est, Ept.
  destruct (drop_stat_started c); cbn [negb orb]; rewrite ?andb_true_r.
  - specialize (Hx eq_refl) as [Hx1 Hx2]. unfold DROP_STAT_DUR_SEC.
    destruct (Z.ltb_spec (call_time e - drop_stat_prev_time c) 2) as [Ht|Ht].
    { rewrite (proj2 (Z.leb_gt _ _)) by lia. rewrite andb_false_r. obind.
      eexists _, _. split; [done|]. split; [done|]. done. }
    rewrite (proj2 (Z.leb_le _ _)) by lia. rewrite andb_true_r.
    destruct Hk as [Ek|Ek]; rewrite Ek.
    + rewrite bool_decide_eq_false_2 by (by intros [? ?]). obind. by eexists _, _.
    + rewrite bool_decide_eq_true_2 by eauto. obind. eexists _, _. split; [done|].
      pose proof (u32_range (u32 d.1 - prev_ps_drop c1)) as R1. pose proof (u32_range (u32 d.2 - prev_ps_ifdrop c1)) as R2.
      destruct Hs1 as [W1 W2 W3 W4]. cbn.
      destruct (packets_add_eqm (drop_packets s1) (u32 (u32 d.1 - prev_ps_drop c1)) W3) as [V1 E1]; [unfold u64_ok; lia|].
      destruct (packets_add_eqm (ifdrop_packets s1) (u32 (u32 d.2 - prev_ps_ifdrop c1)) W4) as [V2 E2]; [unfold u64_ok; lia|].
      split; [by constructor|]. split; [done|]. split; [done|]. split; [done|]. intros [A1 A2].
      assert (u32 (u32 d.1 - prev_ps_drop c1) = d.1 - x.1) as Q1 by (rewrite Epd, Hx1; by apply u32_diff).
      assert (u32 (u32 d.2 - prev_ps_ifdrop c1) = d.2 - x.2) as Q2 by (rewrite Epi, Hx2; by apply u32_diff).
      rewrite Q1 in E1 |- *. rewrite Q2 in E2 |- *.
      refine (lost_trans 0 0 _ _ s s1 _ L1 _). exact (conj E1 E2).
  - destruct Hk as [Ek|Ek]; rewrite Ek.
    + rewrite bool_decide_eq_false_2 by (by intros [? ?]). obind. by eexists _, _.
    + rewrite bool_decide_eq_true_2 by eauto. obind. by eexists _, _.
Qed.

(** From a capturer that has read [x]. *)
Lemma lib_run_from es x c s :
  Forall kernel_env es -> capture_stats_wf s -> drop_stat_started c = true ->
  prev_ps_drop c = u32 x.1 -> prev_ps_ifdrop c = u32 x.2 -> Sorted advances (x :: stats_read es c s) ->
  exists c' s', lib_run es c s = Some (c', s') /\
    let y := default x (last (stats_read es c s)) in lost (y.1 - x.1) (y.2 - x.2) s s'.
Proof.
  revert x c s. induction es as [|[e d] es IH]; intros x c s Hes Hs Hst H1 H2 Hsort; cbn [lib_run stats_read].
  { eexists _, _. split; [done|]. cbn. rewrite !Z.sub_diag. apply lost_refl. }
  apply Forall_cons in Hes as [He Hes]. cbn [stats_read] in Hsort.
  destruct (lib_step_ok e d x c s He Hs ltac:(done)) as (c1 & s1 & E & Hs1 & Hr). rewrite E in *. obind.
  destruct (reads_stat e c); cbn [app] in *.
  - destruct Hr as (Hst1 & P1 & P2 & L). rewrite Hst in L. apply Sorted_inv in Hsort as [Hsort Hhd].
    inversion Hhd as [|? ? Hadv]; subst. specialize (L Hadv).
    destruct (IH d c1 s1 Hes Hs1 Hst1 P1 P2 Hsort) as (c' & s' & E' & L'). rewrite E'. eexists _, _. split; [done|].
    cbv zeta in *. rewrite last_cons.
    replace (default x _) with (default d (last (stats_read es c1 s1))) by (by destruct (last (stats_read es c1 s1))).
    set (y := default d _) in *.
    replace (y.1 - x.1) with ((d.1 - x.1) + (y.1 - d.1)) by lia.
    replace (y.2 - x.2) with ((d.2 - x.2) + (y.2 - d.2)) by lia. by eapply lost_trans.
  - destruct Hr as (Hst1 & P1 & P2 & L). rewrite Hst in Hst1.
    destruct (IH x c1 s1 Hes Hs1 Hst1) as (c' & s' & E' & L'); [congruence|congruence|done|].
    rewrite E'. eexists _, _. split; [done|]. exact (lost_trans 0 0 _ _ _ _ _ L L').
Qed.

(** ** Reading a packet file *)

(** [n] calls on a file with records [rs], after which libpcap answers [ret]. *)
Definition file_env (rs : list (pcap_pkthdr * list Z)) (ret : Z) (k : nat) : call_env :=
  CallEnv (match rs !! k with Some (h, data) => NextPacket h data | None => NextCode ret end) 0 None [] (Timeval 0 0) 0.

Fixpoint file_run (rs : list (pcap_pkthdr * list Z)) (ret : Z) (k n : nat) (c : pcap_file_capturer_t)
    (s : capture_stats_t) : option (list call * pcap_file_capturer_t * capture_stats_t) :=
  match n with
  | O => Some ([], c, s)
  | S n =>
      '(_, calls, c, s) ← pcap_file_do_capture (file_env rs ret k) c s;
      '(more, c, s) ← file_run rs ret (S k) n c s;
      Some (calls ++ more, c, s)
  end.

Definition is_packet (p : option req_pattern_t) (r : pcap_pkthdr * list Z) (c : call) : Prop :=
  exists d, c = HPacket r.1 r.2 d /\ judge p r.1 r.2 = Some d.

Lemma file_run_eof rs ret k n c s :
  eof c = true -> file_run rs ret k n c s = Some (replicate n HHeartbeat, c, s).
Proof.
  intros He. revert k. induction n as [|n IH]; intros k; [done|]. cbn [file_run]. unfold pcap_file_do_capture.
  rewrite He. obind. by rewrite IH.
Qed.

Lemma file_run_ok rs ret k n c s :
  Forall (fun r => frame_ok r.1 r.2) rs -> eof c = false -> (k <= length rs)%nat ->
  exists calls s', file_run rs ret k n c s =
      Some (calls ++ replicate (n - (length rs - k)) HHeartbeat,
            PcapFile (f_req_pattern c) (bool_decide (length rs - k < n)%nat), s') /\
    Forall2 (is_packet (f_req_pattern c)) (take n (drop k rs)) calls.
Proof.
  intros Hrs He. revert k c s He. induction n as [|n IH]; intros k c s He Hk.
  { exists [], s. cbn. split; [|constructor]. destruct c as [p b]. cbn in *. by subst b. }
  cbn [file_run]. unfold pcap_file_do_capture, file_env. rewrite He. cbn [ce_next].
  destruct (rs !! k) as [[h data]|] eqn:Ek.
  - pose proof (Forall_lookup_1 _ _ _ _ Hrs Ek) as Hf. destruct (judge_ok (f_req_pattern c) h data Hf) as (d & Ed & _).
    rewrite Ed. obind. pose proof (lookup_lt_Some _ _ _ Ek) as Hlt.
    destruct (IH (S k) c (count_captured (caplen h) s) He Hlt) as (calls & s' & E & Hc). rewrite E. obind.
    exists (HPacket h data d :: calls), s'. rewrite (drop_S _ _ _ Ek). split; [|constructor; [by exists d|done]].
    replace (S n - (length rs - k))%nat with (n - (length rs - S k))%nat by lia.
    do 4 f_equal. apply bool_decide_ext. lia.
  - apply lookup_ge_None in Ek. obind. rewrite file_run_eof by done. obind.
    exists [], s. rewrite drop_ge by lia. rewrite take_nil. split; [|constructor].
    replace (S n - (length rs - k))%nat with (S n) by lia. rewrite bool_decide_eq_true_2 by lia. done.
Qed.

(** ** Theorems *)


(** the drop counters of a libpcap task are exact although the kernel's
    are 32 bits wide and only read every two seconds: as long as fewer than
    2^32 packets are dropped between two reads, what the capturer has added is
    the growth of the kernel's and the interface's true counts from the first
    read to the last. *)
Theorem drop_counters_exact es c s :
  Forall kernel_env es -> capture_stats_wf s -> drop_stat_started c = false -> Sorted advances (stats_read es c s) ->
  exists c' s', lib_run es c s = Some (c', s') /\
    match stats_read es c s with
    | [] => lost 0 0 s s'
    | x :: read => let y := default x (last read) in lost (y.1 - x.1) (y.2 - x.2) s s'
    end.
Proof.
  revert c s. induction es as [|[e d] es IH]; intros c s Hes Hs Hst Hsort; cbn [lib_run stats_read] in *.
  { eexists _, _. split; [done|apply lost_refl]. }
  apply Forall_cons in Hes as [He Hes].
  destruct (lib_step_ok e d d c s He Hs ltac:(congruence)) as (c1 & s1 & E & Hs1 & Hr). rewrite E in *. obind.
  destruct (reads_stat e c); cbn [app] in *.
  - destruct Hr as (Hst1 & P1 & P2 & L). rewrite Hst in L.
    destruct (lib_run_from es d c1 s1 Hes Hs1 Hst1 P1 P2 Hsort) as (c' & s' & E' & L'). rewrite E'.
    eexists _, _. split; [done|]. exact (lost_trans 0 0 _ _ _ _ _ L L').
  - destruct Hr as (Hst1 & _ & _ & L). rewrite Hst in Hst1.
    destruct (IH c1 s1 Hes Hs1 Hst1 Hsort) as (c' & s' & E' & L'). rewrite E'. eexists _, _. split; [done|].
    destruct (stats_read es c1 s1); exact (lost_trans 0 0 _ _ _ _ _ L L').
Qed.

(** a packet file is handed over once: over any number of calls the
    handlers see each record in order, with its judged direction, and then
    only heartbeats, whatever libpcap answers at the end of the file or at a
    damaged record. *)
Theorem file_read_once rs ret n p s :
  Forall (fun r => frame_ok r.1 r.2) rs ->
  exists calls s', file_run rs ret 0 n (PcapFile p false) s =
      Some (calls ++ replicate (n - length rs) HHeartbeat, PcapFile p (bool_decide (length rs < n)%nat), s') /\
    Forall2 (is_packet p) (take n rs) calls.
Proof.
  intros Hrs. destruct (file_run_ok rs ret 0 n (PcapFile p false) s Hrs eq_refl ltac:(lia)) as (calls & s' & E & Hc).
  rewrite Nat.sub_0_r in E. by exists calls, s'.
Qed.

(** *** Witnesses *)

Definition demo_hdr (t n : Z) : pcap_pkthdr := Pkthdr t 0 n n.
Definition capture_stats_zero : capture_stats_t :=
  CaptureStats bytes_stats_zero packets_stats_zero packets_stats_zero packets_stats_zero.

Lemma demo_frame_ok t n : 0 <= n < 4294967296 -> frame_ok (demo_hdr t n) (replicate (Z.to_nat n) 1).
Proof.
  intros Hn. unfold frame_ok, pkt_ok, zlen. cbn [caplen demo_hdr]. rewrite length_replicate.
  split; [split; [apply Forall_replicate; unfold byte_ok; lia|lia]|lia].
Qed.

Lemma capture_stats_zero_wf : capture_stats_wf capture_stats_zero.
Proof. by repeat constructor. Qed.

Definition demo_kernel : list (call_env * (Z * Z)) :=
  [(CallEnv (NextCode 0) 100 (Some (PcapStat 4294967290 1)) [] (Timeval 0 0) 0, (4294967290, 1));
   (CallEnv (NextCode 0) 101 (Some (PcapStat 4294967295 1)) [] (Timeval 0 0) 0, (4294967295, 1));
   (CallEnv (NextCode 0) 103 (Some (PcapStat 4 3)) [] (Timeval 0 0) 0, (4294967300, 3))].

Lemma drop_counters_exact_witness :
  exists c' s', lib_run demo_kernel (Libpcap None false 0 0 0 None) capture_stats_zero = Some (c', s') /\
    lost 10 2 capture_stats_zero s'.
Proof.
  refine (drop_counters_exact demo_kernel (Libpcap None false 0 0 0 None) capture_stats_zero _
    capture_stats_zero_wf eq_refl _).
  - repeat (apply Forall_cons; split); [..|by apply Forall_nil];
      (split; [split; [exact I|split; [exact (List.Forall_nil _)|vm_compute; discriminate]]|right; reflexivity]).
  - repeat constructor; vm_compute; discriminate || reflexivity.
Defined.

Lemma file_read_once_witness :
  exists calls s', file_run [(demo_hdr 1 60, replicate 60 1); (demo_hdr 2 9, replicate 9 1)] (-2) 0 4
      (PcapFile None false) capture_stats_zero = Some (calls ++ replicate 2 HHeartbeat, PcapFile None true, s') /\
    Forall2 (is_packet None) [(demo_hdr 1 60, replicate 60 1); (demo_hdr 2 9, replicate 9 1)] calls.
Proof.
  refine (file_read_once [(demo_hdr 1 60, replicate 60 1); (demo_hdr 2 9, replicate 9 1)] (-2) 4 None capture_stats_zero _).
  constructor; [apply (demo_frame_ok 1 60); lia|]. constructor; [apply (demo_frame_ok 2 9); lia|constructor].
Defined.



