(* ===== verification/BpfFilter.v ===== *)
(** * BPF filters (bpf_util.c, ip.c, config.c)

    Before a filter is compiled, [bpf_filter_exclude_task_output_hosts] adds
    a clause for every host the worker forwards to, and
    [bpf_filter_replace_nic] replaces every word [nic.<interface>] by that
    interface's address.  C strings are lists of characters without a NUL;
    the buffers they are built in are byte arrays with their sizes. *)

From stdpp Require Import prelude list list_numbers strings.
From S2P Require Import Prelude ReqPattern.

Open Scope Z_scope.

(** ** The growing buffer *)

(** Characters of a C string up to its NUL. *)
Fixpoint c_string (b : list Z) : list Z :=
  match b with [] => [] | c :: b => if c =? 0 then [] else c :: c_string b end.

Definition c_chars (s : list Z) : Prop := Forall (fun c => 0 < c < 256) s.

Record bpf_buf_t := BpfBuf { data : list Z; len : Z; cap : Z }.

(** [while (need > cap) cap *= 2]. *)
Fixpoint grow (fuel : nat) (need cap : Z) : option Z :=
  match fuel with
  | O => None
  | S fuel => if cap <? need then grow fuel need (u64 (cap * 2)) else Some cap
  end.

(** A [size_t] doubles at most 64 times. *)
Definition grow_fuel : nat := 66.

(** Whether the allocator answers; a call uses up one answer. *)
Definition answers : Type := list bool.
Definition answer (al : answers) : bool * answers :=
  match al with b :: al => (b, al) | [] => (true, []) end.

Lemma answer_true al : Forall (eq true) al -> (answer al).1 = true /\ Forall (eq true) (answer al).2.
Proof. intros Hal. destruct Hal as [|b al' <- Hal]; [by split|done]. Qed.

(** [None]: a write outside the buffer, or a loop that does not end. *)
Definition bpf_buf_append (buf : bpf_buf_t) (s : list Z) (al : answers) :
    option (bool * bpf_buf_t * answers) :=
  let need := u64 (len buf + zlen s + 1) in
  '(ok, buf, al) ←
    (if cap buf <? need then
       c ← grow grow_fuel need (cap buf);
       let '(ok, al) := answer al in
       Some (ok, if ok : bool then BpfBuf (data buf) (len buf) c else buf, al)
     else Some (true, buf, al));
  if ok : bool then
    d ← bwrite (cap buf) (data buf) (len buf) s;
    d ← bwrite (cap buf) d (len buf + zlen s) [0];
    Some (true, BpfBuf d (len buf + zlen s) (cap buf), al)
  else Some (false, buf, al).

(** ** Interface names *)

Definition NIC_TOKEN_PREFIX : list Z := [110; 105; 99; 46].
Definition IF_NAMESIZE : Z := 16.
Definition INET6_ADDRSTRLEN : Z := 46.

Definition isspace (c : Z) : bool := (c =? 32) || ((9 <=? c) && (c <=? 13)).
Definition is_token_delim (c : Z) : bool := (c =? 0) || isspace c || (c =? 40) || (c =? 41).

(** [strncmp(p, prefix, strlen(prefix)) == 0]. *)
Fixpoint has_prefix (pre s : list Z) : bool :=
  match pre, s with
  | [], _ => true
  | x :: pre, y :: s => (x =? y) && has_prefix pre s
  | _, [] => false
  end.

(** [p] is the text from [p] on, and [prev] the character before it. *)
Definition is_nic_token_start (prev : option Z) (p : list Z) : bool :=
  has_prefix NIC_TOKEN_PREFIX p &&
  match prev with None => true | Some c => is_token_delim c end.

(** The plain text up to the next token, and the rest. *)
Fixpoint plain_text (prev : option Z) (p : list Z) : list Z * list Z :=
  match p with
  | [] => ([], [])
  | c :: p' =>
      if is_nic_token_start prev p then ([], p)
      else let '(plain, rest) := plain_text (Some c) p' in (c :: plain, rest)
  end.

(** The name after the prefix, and the rest. *)
Fixpoint token_name (p : list Z) : list Z * list Z :=
  match p with
  | [] => ([], [])
  | c :: p' => if is_token_delim c then ([], p) else let '(name, rest) := token_name p' in (c :: name, rest)
  end.

Inductive replaced := Filter (s : list Z) | InvalidName | NoAddress | OutOfMemory.

Section code.
Context (get_ip : list Z -> option ip_addr_t) (inet_ntop : ip_addr_t -> option (list Z)).

Definition format_ip_addr (addr : ip_addr_t) (buflen : Z) : Z * list Z :=
  let required_len := match addr with IPv4 _ => 16 | IPv6 _ => INET6_ADDRSTRLEN end in
  if buflen <? 1 then (-1, [])
  else if buflen <? required_len then (-2, [])
  else match inet_ntop addr with Some s => (0, s) | None => (-3, []) end.

(** The loop over the text. *)
Fixpoint replace_loop (fuel : nat) (prev : option Z) (in_ptr : list Z) (out : bpf_buf_t) (al : answers) :
    option replaced :=
  match in_ptr, fuel with
  | [], _ => Some (Filter (c_string (data out)))
  | _, O => None
  | _, S fuel =>
      let '(plain, rest) := plain_text prev in_ptr in
      '(ok, out, al) ← bpf_buf_append out plain al;
      if negb ok then Some OutOfMemory
      else
        match rest with
        | [] => Some (Filter (c_string (data out)))
        | _ =>
            let '(name, rest') := token_name (drop 4 rest) in
            if (zlen name =? 0) || (IF_NAMESIZE <=? zlen name) then Some InvalidName
            else
              match get_ip name with
              | None => Some NoAddress
              | Some addr =>
                  let ip_str := snd (format_ip_addr addr INET6_ADDRSTRLEN) in
                  '(ok, out, al) ← bpf_buf_append out ip_str al;
                  if negb ok then Some OutOfMemory
                  else replace_loop fuel (last name) rest' out al
              end
        end
  end.

Definition bpf_filter_replace_nic (bpf : list Z) (al : answers) : option replaced :=
  let '(ok, al) := answer al in
  if negb ok then Some OutOfMemory
  else
    let cap := zlen bpf + 1 in
    d ← bwrite cap [] 0 [0];
    replace_loop (S (length bpf)) None bpf (BpfBuf d 0 cap) al.

(** ** Specification: word by word *)

(** The text up to the first delimiter is a word. *)
Inductive word_result := WordIs (s : list Z) | BadName | NoIp.

Definition replace_word (w : list Z) : word_result :=
  if has_prefix NIC_TOKEN_PREFIX w then
    let name := drop 4 w in
    if (zlen name =? 0) || (IF_NAMESIZE <=? zlen name) then BadName
    else match get_ip name with Some addr => WordIs (snd (format_ip_addr addr INET6_ADDRSTRLEN)) | None => NoIp end
  else WordIs w.

(** All words from left to right; [w] is the word so far, reversed. *)
Fixpoint replace_words (w : list Z) (s : list Z) : replaced :=
  match s with
  | [] => match replace_word (reverse w) with WordIs x => Filter x | BadName => InvalidName | NoIp => NoAddress end
  | c :: s =>
      if is_token_delim c then
        match replace_word (reverse w) with
        | WordIs x =>
            match replace_words [] s with Filter y => Filter (x ++ c :: y) | r => r end
        | BadName => InvalidName
        | NoIp => NoAddress
        end
      else replace_words (c :: w) s
  end.
End code.

(** ** Buffers *)

(** The buffer holds the string [s]. *)
Definition holds (b : bpf_buf_t) (s : list Z) : Prop :=
  (exists tail, data b = s ++ 0 :: tail) /\ len b = zlen s /\ zlen s < cap b < 18446744073709551616 /\ c_chars s.

Lemma c_string_end t tail : c_chars t -> c_string (t ++ 0 :: tail) = t.
Proof. induction 1 as [|c s Hc _ IH]; [done|]. cbn. destruct (Z.eqb_spec c 0); [lia|]. by rewrite IH. Qed.

Lemma c_string_holds b s : holds b s -> c_string (data b) = s.
Proof. intros ([tail ->] & _ & _ & Hs). by apply c_string_end. Qed.

Lemma grow_ok k fuel need c :
  (k < fuel)%nat -> 1 <= c -> need <= c * 2 ^ Z.of_nat k -> need <= 9223372036854775808 ->
  c < 18446744073709551616 ->
  exists c', grow fuel need c = Some c' /\ need <= c' < 18446744073709551616 /\ c <= c'.
Proof.
  revert fuel c. induction k as [|k IH]; intros fuel c Hf Hc Hn Hm Hlt; (destruct fuel as [|fuel]; [lia|]); cbn [grow].
  - rewrite Z.mul_1_r in Hn. rewrite (proj2 (Z.ltb_ge _ _)) by lia. exists c. split; [done|lia].
  - destruct (Z.ltb_spec c need); [|exists c; split; [done|lia]].
    rewrite u64_small by lia. destruct (IH fuel (c * 2)) as (c' & E & H1 & H2); [lia|lia| |lia|lia|].
    + rewrite Nat2Z.inj_succ, Z.pow_succ_r in Hn by lia. lia.
    + exists c'. split; [done|lia].
Qed.

Lemma bput_end s tail x : exists tail', bput (s ++ 0 :: tail) (zlen s) (x ++ [0]) = (s ++ x) ++ 0 :: tail'.
Proof.
  unfold bput. rewrite bslice_app_l, bslice_full by lia. eexists. by rewrite <- !app_assoc.
Qed.

Lemma bput_app b off d1 d2 : 0 <= off -> bput (bput b off d1) (off + zlen d1) d2 = bput b off (d1 ++ d2).
Proof.
  intros Ho. unfold bput. pose proof (zlen_nonneg d1). rewrite bslice_app by lia.
  rewrite (bslice_app_l (bslice b 0 off)) by (rewrite ?bslice_zlen; lia).
  rewrite <- (bslice_zlen b 0 off Ho) at 2. rewrite bslice_full.
  rewrite bslice_app_r by (rewrite bslice_zlen; lia). rewrite bslice_zlen, Z.add_0_l, Z.sub_diag by lia.
  rewrite bslice_app_l, bslice_full by lia. rewrite <- !app_assoc. do 3 f_equal.
  pose proof (zlen_nonneg d2). rewrite !drop_app. unfold zlen in *. rewrite bslice_length.
  rewrite (drop_ge (bslice b 0 off)) by (rewrite bslice_length; lia). rewrite (drop_ge d1) by lia. cbn [app].
  rewrite drop_drop. f_equal. rewrite length_app. lia.
Qed.

Lemma append_ok b s x al :
  holds b s -> c_chars x -> zlen s + zlen x < 9223372036854775807 ->
  exists ok b' al', bpf_buf_append b x al = Some (ok, b', al') /\
    (if ok : bool then holds b' (s ++ x) else True) /\ (Forall (eq true) al -> ok = true /\ Forall (eq true) al').
Proof.
  intros ([tail Ed] & El & Hc & Hs) Hx Hlen. pose proof (zlen_nonneg s). pose proof (zlen_nonneg x).
  unfold bpf_buf_append. rewrite El, u64_small by lia.
  assert (forall c al', zlen s + zlen x + 1 <= c < 18446744073709551616 ->
    exists b', (d ← bwrite c (data b) (zlen s) x; d ← bwrite c d (zlen s + zlen x) [0];
                Some (true, BpfBuf d (zlen s + zlen x) c, al')) = Some (true, b', al' : answers) /\ holds b' (s ++ x)) as Hw.
  { intros c al' Hcap. rewrite !bwrite_ok by (rewrite ?zlen_cons, ?zlen_nil; lia). obind.
    rewrite bwrite_ok by (change (zlen [0]) with 1; lia). obind. eexists. split; [done|].
    rewrite bput_app by lia. rewrite Ed. destruct (bput_end s tail x) as [tail' ->].
    split; [by exists tail'|]. cbn. rewrite zlen_app. split; [done|]. split; [lia|]. by apply Forall_app. }
  destruct (Z.ltb_spec (cap b) (zlen s + zlen x + 1)) as [Hg|Hg].
  - destruct (grow_ok 64 grow_fuel (zlen s + zlen x + 1) (cap b)) as (c & -> & Hc1 & Hc2);
      [unfold grow_fuel; lia|lia|change (2 ^ Z.of_nat 64) with 18446744073709551616; lia|lia|lia|]. obind.
    destruct (answer al) as [[|] al'] eqn:Ea; obind; cbn [data len cap].
    + destruct (Hw c al') as (b' & E & Hb); [lia|]. rewrite E. eexists _, _, _. split; [done|]. split; [done|].
      intros Hal. split; [done|]. destruct al as [|a al]; injection Ea as; subst; [done|]. by inversion Hal.
    + eexists _, _, _. split; [done|]. split; [done|]. intros Hal. exfalso.
      destruct al as [|a al]; injection Ea as; subst; [done|]. by inversion Hal.
  - obind. destruct (Hw (cap b) al) as (b' & E & Hb); [lia|]. rewrite El, E.
    eexists _, _, _. split; [done|]. by split.
Qed.

(** ** Scanning for words *)

Definition no_delim (s : list Z) : Prop := Forall (fun c => is_token_delim c = false) s.

Lemma has_prefix_app pre s t : has_prefix pre s = true -> has_prefix pre (s ++ t) = true.
Proof.
  revert s. induction pre as [|x pre IH]; intros [|y s]; cbn; try done.
  rewrite !andb_true_iff. intros [H1 H2]. split; [done|]. by apply IH.
Qed.

Lemma has_prefix_split pre s : has_prefix pre s = true -> exists t, s = pre ++ t.
Proof.
  revert s. induction pre as [|x pre IH]; intros [|y s]; cbn; try done; [by eauto..|].
  rewrite andb_true_iff, Z.eqb_eq. intros [-> H]. destruct (IH s H) as [t ->]. by exists t.
Qed.

Section spec.
Context (get_ip : list Z -> option ip_addr_t) (inet_ntop : ip_addr_t -> option (list Z)).

#[local] Abbreviation words := (replace_words get_ip inet_ntop).
#[local] Abbreviation word := (replace_word get_ip inet_ntop).

(** A result with text before it. *)
Definition prepend (x : list Z) (r : replaced) : replaced :=
  match r with Filter y => Filter (x ++ y) | r => r end.

Lemma prepend_app x y r : prepend x (prepend y r) = prepend (x ++ y) r.
Proof. destruct r; cbn; [by rewrite app_assoc|done..]. Qed.

Lemma prepend_nil r : prepend [] r = r.
Proof. by destruct r. Qed.

Lemma word_plain w : has_prefix NIC_TOKEN_PREFIX w = false -> word w = WordIs w.
Proof. intros H. unfold replace_word. by rewrite H. Qed.

(** A delimiter ends the word. *)
Lemma words_delim w c s :
  is_token_delim c = true ->
  words w (c :: s) = match word (reverse w) with
                     | WordIs x => prepend x (words [] (c :: s)) | BadName => InvalidName | NoIp => NoAddress end.
Proof.
  intros Hc. cbn [replace_words]. rewrite Hc. change (word (reverse [])) with (WordIs []).
  destruct (word (reverse w)) as [x| |]; [|done..]. by destruct (words [] s).
Qed.

Lemma words_run w name s : no_delim name -> words w (name ++ s) = words (reverse name ++ w) s.
Proof.
  intros Hn. revert w. induction Hn as [|c name Hc _ IH]; intros w; [done|]. cbn [app replace_words]. rewrite Hc, IH.
  by rewrite reverse_cons, <- app_assoc.
Qed.

(** [prev] is the character before [p], and [w] the word before [p],
    reversed, which is not an interface token. *)
Definition scanning (prev : option Z) (w p : list Z) : Prop :=
  match w with
  | [] => match prev with Some c => is_token_delim c = true | None => True end \/
          match p with c :: _ => is_token_delim c = true | [] => True end
  | x :: _ => prev = Some x /\ is_token_delim x = false /\ has_prefix NIC_TOKEN_PREFIX (reverse w ++ p) = false
  end.

Lemma scanning_plain prev w p : scanning prev w p -> has_prefix NIC_TOKEN_PREFIX (reverse w) = false.
Proof.
  destruct w as [|x w]; [done|]. intros (_ & _ & H). destruct (has_prefix _ (reverse (x :: w))) eqn:E; [|done].
  by rewrite (has_prefix_app _ _ p E) in H.
Qed.

Lemma plain_text_spec prev w p :
  scanning prev w p ->
  let '(plain, rest) := plain_text prev p in
  p = plain ++ rest /\ words w p = prepend (reverse w ++ plain) (words [] rest) /\
  (rest = [] \/ has_prefix NIC_TOKEN_PREFIX rest = true).
Proof.
  revert prev w. induction p as [|c p IH]; intros prev w Hs; cbn [plain_text].
  { split; [done|]. split; [|by left]. cbn [replace_words]. rewrite word_plain by (by eapply scanning_plain).
    cbn. by rewrite !app_nil_r. }
  destruct (is_nic_token_start prev (c :: p)) eqn:Et.
  { apply andb_true_iff in Et as [Ep Ev]. split; [done|]. split; [|by right].
    destruct w as [|x w]; [by rewrite prepend_nil|]. destruct Hs as (-> & Hx & _). congruence. }
  assert (w = [] -> is_token_delim c = false -> has_prefix NIC_TOKEN_PREFIX (c :: p) = false) as Hstart.
  { intros -> Hc. apply andb_false_iff in Et as [Et|Et]; [done|]. destruct prev as [x|]; [|done].
    destruct Hs as [Hs|Hs]; congruence. }
  destruct (is_token_delim c) eqn:Hc.
  - specialize (IH (Some c) [] (or_introl Hc)). destruct (plain_text (Some c) p) as [plain rest].
    destruct IH as (-> & Ew & Hr). split; [done|]. split; [|done]. rewrite words_delim by done.
    rewrite word_plain by (by eapply scanning_plain). cbn [replace_words]. rewrite Hc, Ew.
    change (word (reverse [])) with (WordIs []). destruct (words [] rest); cbn; [|done..]. by rewrite <- !app_assoc.
  - specialize (IH (Some c) (c :: w)). destruct (plain_text (Some c) p) as [plain rest].
    destruct IH as (-> & Ew & Hr).
    { split; [done|]. split; [done|]. rewrite reverse_cons, <- app_assoc. cbn [app].
      destruct w as [|x w]; [by apply Hstart|apply Hs]. }
    split; [done|]. split; [|done]. cbn [replace_words]. rewrite Hc, Ew, reverse_cons. by rewrite <- !app_assoc.
Qed.

Lemma token_name_spec p :
  let '(name, rest) := token_name p in
  p = name ++ rest /\ no_delim name /\ match rest with c :: _ => is_token_delim c = true | [] => True end.
Proof.
  induction p as [|c p IH]; cbn [token_name]; [by split; [|split; [constructor|]]|].
  destruct (is_token_delim c) eqn:Hc; [by split; [|split; [constructor|]]|].
  destruct (token_name p) as [name rest]. destruct IH as (-> & Hn & Hr). split; [done|]. split; [by constructor|done].
Qed.

(** A token and what follows it. *)
Lemma words_token name rest :
  no_delim name -> match rest with c :: _ => is_token_delim c = true | [] => True end ->
  words [] (NIC_TOKEN_PREFIX ++ name ++ rest) =
    match word (NIC_TOKEN_PREFIX ++ name) with
    | WordIs x => prepend x (words [] rest) | BadName => InvalidName | NoIp => NoAddress end.
Proof.
  intros Hn Hr. rewrite app_assoc, words_run by (apply Forall_app; split; [by repeat constructor|done]).
  rewrite app_nil_r. destruct rest as [|c rest].
  - cbn [replace_words]. rewrite reverse_involutive. change (word (reverse [])) with (WordIs []).
    destruct (word _); [by cbn; rewrite app_nil_r|done..].
  - by rewrite words_delim, reverse_involutive.
Qed.

(** ** The loop *)

Hypothesis Hntop : forall a s, inet_ntop a = Some s -> c_chars s /\ zlen s < INET6_ADDRSTRLEN.

Lemma format_ok a : let s := snd (format_ip_addr inet_ntop a INET6_ADDRSTRLEN) in c_chars s /\ 0 <= zlen s < 46.
Proof.
  cbv zeta. pose proof (zlen_nonneg (snd (format_ip_addr inet_ntop a INET6_ADDRSTRLEN))). unfold format_ip_addr in *.
  destruct (inet_ntop a) as [s|] eqn:E.
  - apply Hntop in E as [Hc Hl]. unfold INET6_ADDRSTRLEN in *. destruct a; cbn in *; (split; [done|lia]).
  - destruct a; cbn; (split; [exact (List.Forall_nil _)|split; [by vm_compute|reflexivity]]).
Qed.

(** Whatever the allocator answers, the result is the specification's or
    [OutOfMemory]. *)
Definition agrees (al : answers) (r want : replaced) : Prop :=
  (r = OutOfMemory \/ r = want) /\ (Forall (eq true) al -> r = want).

Lemma replace_loop_ok fuel prev p out s al :
  (length p < fuel)%nat -> scanning prev [] p -> holds out s -> c_chars p -> zlen s + 46 * zlen p < 4611686018427387904 ->
  exists r, replace_loop get_ip inet_ntop fuel prev p out al = Some r /\ agrees al r (prepend s (words [] p)).
Proof.
  revert prev p out s al. induction fuel as [|fuel IH]; intros prev p out s al Hf Hsc Hb Hp Hlen; [lia|].
  destruct p as [|c p0]; [|set (p := c :: p0) in *].
  { eexists. split; [done|]. rewrite (c_string_holds _ _ Hb). cbn. rewrite app_nil_r. split; [by right|done]. }
  pose proof (zlen_nonneg s).
  assert (replace_loop get_ip inet_ntop (S fuel) prev p out al =
    let '(plain, rest) := plain_text prev p in
    '(ok, out, al) ← bpf_buf_append out plain al;
    if negb ok then Some OutOfMemory
    else match rest with
         | [] => Some (Filter (c_string (data out)))
         | _ =>
             let '(name, rest') := token_name (drop 4 rest) in
             if (zlen name =? 0) || (IF_NAMESIZE <=? zlen name) then Some InvalidName
             else match get_ip name with
                  | None => Some NoAddress
                  | Some addr =>
                      '(ok, out, al) ← bpf_buf_append out (snd (format_ip_addr inet_ntop addr INET6_ADDRSTRLEN)) al;
                      if negb ok then Some OutOfMemory
                      else replace_loop get_ip inet_ntop fuel (last name) rest' out al
                  end
         end) as -> by reflexivity.
  pose proof (plain_text_spec prev [] p Hsc) as Hps. destruct (plain_text prev p) as [plain rest].
  destruct Hps as (Ep & Ew & Hrest). change (reverse [] ++ plain) with plain in Ew.
  rewrite Ep in Hp, Hlen, Hf. apply Forall_app in Hp as [Hp1 Hp2]. rewrite zlen_app in Hlen. rewrite length_app in Hf.
  pose proof (zlen_nonneg plain). pose proof (zlen_nonneg rest).
  destruct (append_ok out s plain al Hb Hp1 ltac:(lia)) as (ok & b1 & al1 & -> & Hb1 & Hok1). obind.
  destruct ok; cbn [negb]; [|exists OutOfMemory; split; [done|]; split; [by left|intros Hal; by destruct (Hok1 Hal)]].
  rewrite Ew, prepend_app. destruct Hrest as [->|Hpre].
  { eexists. split; [done|]. rewrite (c_string_holds _ _ Hb1). cbn. rewrite app_nil_r. split; [by right|done]. }
  destruct (has_prefix_split _ _ Hpre) as [r4 ->]. change (drop 4 (NIC_TOKEN_PREFIX ++ r4)) with r4.
  set (want := words [] _). unfold NIC_TOKEN_PREFIX at 1. cbn [app]. subst want.
  pose proof (token_name_spec r4) as Ht. destruct (token_name r4) as [name rest']. destruct Ht as (-> & Hn & Hd).
  rewrite words_token by done.
  assert (word (NIC_TOKEN_PREFIX ++ name) =
    if (zlen name =? 0) || (IF_NAMESIZE <=? zlen name) then BadName
    else match get_ip name with Some addr => WordIs (snd (format_ip_addr inet_ntop addr INET6_ADDRSTRLEN)) | None => NoIp end)
    as -> by reflexivity.
  destruct (_ || _); [eexists; split; [done|]; split; [by right|done]|].
  destruct (get_ip name) as [addr|]; [|eexists; split; [done|]; split; [by right|done]].
  destruct (format_ok addr) as [Hfc Hfl]. set (ip := snd (format_ip_addr inet_ntop addr INET6_ADDRSTRLEN)) in *.
  rewrite zlen_app in Hlen. change (zlen NIC_TOKEN_PREFIX) with 4 in Hlen. rewrite zlen_app in Hlen.
  pose proof (zlen_nonneg name). pose proof (zlen_nonneg rest').
  destruct (append_ok b1 (s ++ plain) ip al1 Hb1 Hfc ltac:(rewrite zlen_app; lia)) as (ok2 & b2 & al2 & -> & Hb2 & Hok2).
  obind. destruct ok2; cbn [negb].
  2: { exists OutOfMemory. split; [done|]. split; [by left|]. intros Hal. destruct (Hok1 Hal) as [_ Hal1].
       by destruct (Hok2 Hal1). }
  apply Forall_app in Hp2 as [_ Hp2]. apply Forall_app in Hp2 as [_ Hp2]. rewrite !length_app in Hf. cbn in Hf.
  destruct (IH (last name) rest' b2 ((s ++ plain) ++ ip) al2) as (r & Er & Hr & Hrt);
    [lia|by right|done|done|rewrite !zlen_app; lia|].
  exists r. split; [done|]. rewrite prepend_app. split; [done|]. intros Hal. apply Hrt, Hok2, Hok1, Hal.
Qed.
End spec.

(** ** Excluding the hosts the worker forwards to (config.c) *)

Definition chars (s : string) : list Z := (fun c => Z.of_N (Ascii.N_of_ascii c)) <$> String.list_ascii_of_string s.

(** The union of an output's configuration: the member of its type. *)
Record OutputConfig := OutputCfg { o_type : string; vxlan_host : list Z; gre_host : list Z; zmq_host : list Z }.

Definition output_forward_host (o : OutputConfig) : option (list Z) :=
  if String.eqb (o_type o) "vxlan" then Some (vxlan_host o)
  else if String.eqb (o_type o) "gre" then Some (gre_host o)
  else if String.eqb (o_type o) "zmq" then Some (zmq_host o)
  else None.

Definition max_hosts (tasks : list (list OutputConfig)) : Z := zsum (zlen <$> tasks).

Definition seen (hosts : list (list Z)) (host : list Z) : bool := existsb (fun h => bool_decide (h = host)) hosts.

(** The loop over the outputs of all tasks; [hosts] has room for [max]. *)
Fixpoint collect_hosts (max : Z) (outs : list OutputConfig) (hosts : list (list Z)) (buf_size : Z) :
    option (list (list Z) * Z) :=
  match outs with
  | [] => Some (hosts, buf_size)
  | o :: outs =>
      match output_forward_host o with
      | None => collect_hosts max outs hosts buf_size
      | Some host =>
          if seen hosts host then collect_hosts max outs hosts buf_size
          else if zlen hosts <? max
          then collect_hosts max outs (hosts ++ [host]) (u64 (buf_size + u64 (zlen host + zlen (chars " and not host "))))
          else None
      end
  end.

(** [out_ptr += sprintf(out_ptr, ...)] of the text [s]. *)
Definition sprintf (size : Z) (buf : list Z) (pos : Z) (s : list Z) : option (list Z * Z) :=
  b ← bwrite size buf pos (s ++ [0]); Some (b, pos + zlen s).

Fixpoint print_hosts (size : Z) (hosts : list (list Z)) (is_first : bool) (buf : list Z) (pos : Z) :
    option (list Z * Z) :=
  match hosts with
  | [] => Some (buf, pos)
  | h :: hosts =>
      '(buf, pos) ← sprintf size buf pos ((if is_first then [] else chars " and ") ++ chars "not host " ++ h);
      print_hosts size hosts false buf pos
  end.

(** The inner [None] is an allocation that failed. *)
Definition bpf_filter_exclude_task_output_hosts (bpf : list Z) (tasks : list (list OutputConfig)) (al : answers) :
    option (option (list Z)) :=
  let max := max_hosts tasks in
  let '(ok, al) := if 0 <? max then answer al else (true, al) in
  if negb ok then Some None
  else
    '(hosts, buf_size) ← collect_hosts max (concat tasks) [] (zlen bpf + 1 + 2);
    let '(ok, al) := answer al in
    if negb ok then Some None
    else
      '(buf, pos, is_first) ←
        (match bpf with
         | [] => Some ([], 0, true)
         | _ => '(buf, pos) ← sprintf buf_size [] 0 ([40] ++ bpf ++ [41]); Some (buf, pos, false)
         end);
      '(buf, pos) ← print_hosts buf_size hosts is_first buf pos;
      buf ← bwrite buf_size buf pos [0];
      Some (Some (c_string buf)).

(** *** Specification *)

(** All hosts, each where it first occurs. *)
Fixpoint distinct (known l : list (list Z)) : list (list Z) :=
  match l with
  | [] => []
  | h :: l => if bool_decide (h ∈ known) then distinct known l else h :: distinct (h :: known) l
  end.

Definition forward_hosts (tasks : list (list OutputConfig)) : list (list Z) :=
  distinct [] (omap output_forward_host (concat tasks)).

Fixpoint and_clauses (cs : list (list Z)) : list Z :=
  match cs with [] => [] | [c] => c | c :: cs => c ++ chars " and " ++ and_clauses cs end.

Definition excluding (bpf : list Z) (hosts : list (list Z)) : list Z :=
  and_clauses ((match bpf with [] => [] | _ => [[40] ++ bpf ++ [41]] end) ++ ((fun h => chars "not host " ++ h) <$> hosts)).

Lemma distinct_spec l : forall known,
  NoDup (distinct known l) /\ (forall h, h ∈ distinct known l <-> h ∈ l /\ h ∉ known).
Proof.
  induction l as [|x l IH]; intros known; cbn [distinct].
  { split; [constructor|]. intros h. rewrite elem_of_nil. tauto. }
  case_bool_decide as Hx.
  - destruct (IH known) as [Hn Hi]. split; [done|]. intros h. rewrite Hi, elem_of_cons.
    split; [tauto|]. intros [[->|H] Hk]; tauto.
  - destruct (IH (x :: known)) as [Hn Hi]. split.
    + constructor; [|done]. rewrite Hi. intros [_ H]. apply H, elem_of_cons; by left.
    + intros h. rewrite !elem_of_cons, Hi, not_elem_of_cons. split.
      * intros [->|[H1 [H2 H3]]]; tauto.
      * intros [[->|H] Hk]; [by left|]. destruct (decide (h = x)) as [->|]; [by left|right; tauto].
Qed.

(** *** The loops *)

Lemma seen_spec hosts h : seen hosts h = bool_decide (h ∈ hosts).
Proof.
  unfold seen. apply eq_true_iff_eq. rewrite bool_decide_eq_true, existsb_exists. split.
  - intros (x & Hx & E). apply bool_decide_eq_true in E as ->. by apply list_elem_of_In.
  - intros H. exists h. split; [by apply list_elem_of_In|by apply bool_decide_eq_true].
Qed.

Lemma distinct_perm l k1 k2 : (forall h, h ∈ k1 <-> h ∈ k2) -> distinct k1 l = distinct k2 l.
Proof.
  revert k1 k2. induction l as [|x l IH]; intros k1 k2 Hk; [done|]. cbn [distinct].
  rewrite (bool_decide_ext (x ∈ k1) (x ∈ k2)) by apply Hk. case_bool_decide; [by apply IH|].
  f_equal. apply IH. intros h. rewrite !elem_of_cons, Hk. done.
Qed.

(** What a host's clause takes in the buffer. *)
Definition clause_size (h : list Z) : Z := zlen h + 14.

Lemma zlen_concat {A} (l : list (list A)) : zlen (concat l) = zsum (zlen <$> l).
Proof. induction l as [|x l IH]; [done|]. rewrite fmap_cons, zsum_cons. cbn [concat]. by rewrite zlen_app, IH. Qed.

Lemma clauses_nonneg hosts : 0 <= zsum (clause_size <$> hosts).
Proof.
  apply zsum_nonneg, Forall_fmap, Forall_true. intros h. unfold compose, clause_size. pose proof (zlen_nonneg h). lia.
Qed.

Lemma collect_hosts_ok max outs hosts buf :
  zlen hosts + zlen outs <= max ->
  0 <= buf -> buf + zsum (clause_size <$> omap output_forward_host outs) < 18446744073709551616 ->
  let new := distinct hosts (omap output_forward_host outs) in
  collect_hosts max outs hosts buf = Some (hosts ++ new, buf + zsum (clause_size <$> new)).
Proof.
  cbv zeta. revert hosts buf.
  induction outs as [|o outs IH]; intros hosts buf Hm Hb Hs; cbn [collect_hosts omap list_omap] in *.
  { cbn. by rewrite app_nil_r, Z.add_0_r. }
  rewrite zlen_cons in Hm. pose proof (zlen_nonneg outs).
  destruct (output_forward_host o) as [h|]; [|apply IH; [lia|done|done]].
  rewrite fmap_cons, zsum_cons in Hs. pose proof (clauses_nonneg (omap output_forward_host outs)).
  pose proof (zlen_nonneg h). assert (clause_size h = zlen h + 14) as Eh by reflexivity.
  cbn [distinct]. rewrite seen_spec. case_bool_decide as Hh; [apply IH; [lia|done|lia]|].
  rewrite (proj2 (Z.ltb_lt _ _)) by lia. change (zlen (chars " and not host ")) with 14. rewrite (u64_small (zlen h + 14)), u64_small by lia.
  rewrite IH by (rewrite ?zlen_app; change (zlen [h]) with 1; lia).
  rewrite <- app_assoc, (distinct_perm _ (hosts ++ [h]) (h :: hosts)).
  2: { intros x. rewrite elem_of_app, !elem_of_cons, elem_of_nil. tauto. }
  rewrite fmap_cons, zsum_cons, Eh. cbn [app]. do 2 f_equal. lia.
Qed.

Lemma and_clauses_cons c cs : and_clauses (c :: cs) = c ++ concat ((fun x => chars " and " ++ x) <$> cs).
Proof.
  revert c. induction cs as [|d cs IH]; intros c; [by cbn; rewrite app_nil_r|].
  rewrite fmap_cons, concat_cons, <- app_assoc, <- IH. reflexivity.
Qed.

Definition host_clause (h : list Z) : list Z := chars "not host " ++ h.

Lemma sprintf_ok size t tail s :
  zlen t + zlen s < size ->
  exists tail', sprintf size (t ++ tail) (zlen t) s = Some ((t ++ s) ++ 0 :: tail', zlen (t ++ s)).
Proof.
  intros Hs. pose proof (zlen_nonneg t). unfold sprintf. rewrite bwrite_ok by (rewrite ?zlen_app; change (zlen [0]) with 1; lia).
  obind. unfold bput. rewrite bslice_app_l, bslice_full by lia. eexists. by rewrite (zlen_app t s), <- !app_assoc.
Qed.

Lemma print_hosts_ok size hosts first t tail :
  zlen t + zsum (clause_size <$> hosts) + (if first : bool then -3 else 0) < size ->
  (first = true -> t = [] /\ 0 < size) ->
  let out := t ++ (if first then and_clauses (host_clause <$> hosts)
                   else concat ((fun x => chars " and " ++ x) <$> (host_clause <$> hosts))) in
  zlen out < size /\ exists tail', print_hosts size hosts first (t ++ tail) (zlen t) = Some (out ++ tail', zlen out).
Proof.
  revert first t tail. induction hosts as [|h hosts IH]; intros first t tail Hs Hf; cbn [print_hosts].
  { cbv zeta. change (zsum (clause_size <$> [])) with 0 in Hs. destruct first; cbn; rewrite app_nil_r.
    - destruct (Hf eq_refl) as [-> Hpos]. split; [done|by exists tail].
    - split; [lia|by exists tail]. }
  rewrite fmap_cons, zsum_cons in Hs. pose proof (clauses_nonneg hosts). pose proof (zlen_nonneg t).
  assert (clause_size h = zlen h + 14) as Eh by reflexivity.
  assert (zlen (chars "not host " ++ h) = 9 + zlen h) as E9 by (by rewrite zlen_app).
  set (x := (if first then [] else chars " and ") ++ chars "not host " ++ h).
  assert (zlen x = (if first then 0 else 5) + 9 + zlen h) as Ex
    by (unfold x; rewrite zlen_app, E9; destruct first; [change (zlen (@nil Z)) with 0|change (zlen (chars " and ")) with 5]; lia).
  destruct (sprintf_ok size t tail x) as [tail' ->]; [destruct first; lia|]. obind.
  destruct (IH false (t ++ x) (0 :: tail')) as [Hlt [tail2 E]]; [rewrite zlen_app; destruct first; lia|done|].
  rewrite E. cbv zeta. rewrite !fmap_cons.
  assert ((t ++ x) ++ concat ((fun x => chars " and " ++ x) <$> (host_clause <$> hosts)) =
    t ++ (if first then and_clauses (host_clause h :: (host_clause <$> hosts))
          else concat ((chars " and " ++ host_clause h) :: ((fun x => chars " and " ++ x) <$> (host_clause <$> hosts))))) as <-.
  { unfold x. destruct first; [rewrite and_clauses_cons|rewrite concat_cons]; by rewrite <- !app_assoc. }
  split; [done|by exists tail2].
Qed.

Lemma c_chars_clauses bpf hosts : c_chars bpf -> Forall c_chars hosts -> c_chars (excluding bpf hosts).
Proof.
  intros Hb Hh. unfold excluding, c_chars. fold host_clause.
  assert (Forall c_chars ((match bpf with [] => [] | _ => [[40] ++ bpf ++ [41]] end) ++ (host_clause <$> hosts))) as Hc.
  { apply Forall_app. split.
    - destruct bpf; [constructor|]. constructor; [|constructor]. apply Forall_app. split; [by repeat constructor|].
      apply Forall_app. split; [done|by repeat constructor].
    - apply Forall_fmap. eapply Forall_impl; [done|]. intros h H. apply Forall_app. split; [by repeat constructor|done]. }
  revert Hc. generalize ((match bpf with [] => [] | _ => [[40] ++ bpf ++ [41]] end) ++ (host_clause <$> hosts)) as cs.
  intros cs Hc. destruct Hc as [|c cs H Hc]; [constructor|]. rewrite and_clauses_cons. apply Forall_app. split; [done|].
  apply Forall_concat, Forall_fmap. eapply Forall_impl; [done|]. intros d Hd. apply Forall_app. split; [by repeat constructor|done].
Qed.

(** The second half of the function, with the size computed by the first. *)
Lemma excluding_printed size bpf hosts :
  c_chars bpf -> Forall c_chars hosts -> size = zlen bpf + 1 + 2 + zsum (clause_size <$> hosts) ->
  ('(buf, pos, is_first) ←
     (match bpf with
      | [] => Some ([], 0, true)
      | _ => '(buf, pos) ← sprintf size [] 0 ([40] ++ bpf ++ [41]); Some (buf, pos, false)
      end);
   '(buf, pos) ← print_hosts size hosts is_first buf pos;
   buf ← bwrite size buf pos [0];
   Some (Some (c_string buf))) = Some (Some (excluding bpf hosts)).
Proof.
  intros Hb Hh Hsize. pose proof (clauses_nonneg hosts). pose proof (zlen_nonneg bpf).
  pose proof (c_chars_clauses bpf hosts Hb Hh) as Hc.
  assert (forall out tail', out = excluding bpf hosts -> zlen out < size ->
    (buf ← bwrite size (out ++ tail') (zlen out) [0]; Some (Some (c_string buf))) = Some (Some (excluding bpf hosts))) as Hend.
  { intros out tail' -> Ho. rewrite bwrite_ok by (change (zlen [0]) with 1; pose proof (zlen_nonneg (excluding bpf hosts)); lia).
    obind. unfold bput. rewrite bslice_app_l, bslice_full by lia. cbn [app]. by rewrite c_string_end. }
  destruct bpf as [|c bpf0]; [|set (bpf := c :: bpf0) in *]; obind.
  - change (zlen (@nil Z)) with 0 in *.
    destruct (print_hosts_ok size hosts true [] []) as [Hlt [tail' E]]; [change (zlen (@nil Z)) with 0; lia|intros _; split; [done|lia]|].
    change ([] ++ [] : list Z) with (@nil Z) in E. change (zlen (@nil Z)) with 0 in E. rewrite E. obind. by apply Hend.
  - set (x := [40] ++ bpf ++ [41]).
    assert (zlen x = zlen bpf + 2) as Ex by (unfold x; rewrite !zlen_app; change (zlen [40]) with 1; change (zlen [41]) with 1; lia).
    destruct (sprintf_ok size [] [] x) as [tail Ep]; [change (zlen (@nil Z)) with 0; lia|].
    change (sprintf size [] 0 x = Some (x ++ 0 :: tail, zlen x)) in Ep. rewrite Ep. obind.
    destruct (print_hosts_ok size hosts false x (0 :: tail)) as [Hlt [tail' E]]; [lia|done|].
    rewrite E. obind. apply Hend; [|done]. unfold excluding. fold bpf x.
    change (match bpf with [] => [] | _ :: _ => [x] end) with [x]. cbn [app]. by rewrite and_clauses_cons.
Qed.

Lemma forward_size tasks :
  zsum (clause_size <$> forward_hosts tasks) <= zsum (clause_size <$> omap output_forward_host (concat tasks)).
Proof.
  unfold forward_hosts. generalize (omap output_forward_host (concat tasks)) as l. intros l.
  generalize (@nil (list Z)) as k. induction l as [|h l IH]; intros k; cbn [distinct]; [done|].
  assert (clause_size h = zlen h + 14) as Eh by reflexivity. pose proof (zlen_nonneg h).
  case_bool_decide; rewrite ?fmap_cons, ?zsum_cons; [specialize (IH k)|specialize (IH (h :: k))]; lia.
Qed.

(** ** Theorems *)

(** replacing interface tokens always ends, never writes outside the
    growing buffer, and gives the filter in which every word that starts with
    "nic." (words are what whitespace and parentheses separate) is replaced
    by the address of the interface it names and everything else is kept; it
    fails exactly when the first bad word has no valid interface name, or an
    interface without an address, or when memory runs out. *)
Theorem replace_nic_correct get_ip inet_ntop bpf al :
  (forall a s, inet_ntop a = Some s -> c_chars s /\ zlen s < INET6_ADDRSTRLEN) ->
  c_chars bpf -> zlen bpf < 72057594037927936 ->
  exists r, bpf_filter_replace_nic get_ip inet_ntop bpf al = Some r /\
    (r = OutOfMemory \/ r = replace_words get_ip inet_ntop [] bpf) /\
    (Forall (eq true) al -> r = replace_words get_ip inet_ntop [] bpf).
Proof.
  intros Hn Hb Hl. unfold bpf_filter_replace_nic. pose proof (zlen_nonneg bpf).
  pose proof (answer_true al) as Ha. destruct (answer al) as [[|] al']; cbn [negb].
  2: { exists OutOfMemory. split; [done|]. split; [by left|]. intros Hal. by destruct (Ha Hal). }
  rewrite bwrite_ok by (change (zlen [0]) with 1; lia). obind.
  destruct (replace_loop_ok get_ip inet_ntop Hn (S (length bpf)) None bpf (BpfBuf (bput [] 0 [0]) 0 (zlen bpf + 1)) [] al')
    as (r & E & Hr & Ht); [lia|by left| |done|change (zlen (@nil Z)) with 0; lia|].
  { split; [by exists []|]. split; [done|]. cbn [cap]. change (zlen (@nil Z)) with 0. split; [lia|constructor]. }
  exists r. rewrite prepend_nil in *. split; [done|]. split; [done|]. intros Hal. by apply Ht, Ha.
Qed.

(** the filter a capturer is given is the configured one and a clause
    "not host h" for every host that any output of any task forwards to, each
    once; the buffer computed for it is never overrun and the array of hosts
    neither. *)
Theorem exclude_hosts_correct bpf tasks al :
  c_chars bpf -> Forall c_chars (omap output_forward_host (concat tasks)) ->
  zlen bpf + zsum (clause_size <$> omap output_forward_host (concat tasks)) < 9223372036854775808 ->
  let hosts := forward_hosts tasks in
  (exists r, bpf_filter_exclude_task_output_hosts bpf tasks al = Some r /\
     (r = None \/ r = Some (excluding bpf hosts)) /\ (Forall (eq true) al -> r = Some (excluding bpf hosts))) /\
  NoDup hosts /\
  (forall h, h ∈ hosts <-> exists outs o, outs ∈ tasks /\ o ∈ outs /\ output_forward_host o = Some h).
Proof.
  cbv zeta. intros Hb Hh Hs. destruct (distinct_spec (omap output_forward_host (concat tasks)) []) as [Hnd Hin].
  fold (forward_hosts tasks) in Hnd, Hin. split; [|split; [done|]].
  2: { intros h. rewrite Hin, list_elem_of_omap. split.
       - intros [(o & Ho & E) _]. apply list_elem_of_In, in_concat in Ho as (outs & Hl & Ho). exists outs, o.
         split; [by apply list_elem_of_In|]. split; [by apply list_elem_of_In|done].
       - intros (outs & o & Hl & Ho & E). split; [|apply not_elem_of_nil]. exists o. split; [|done].
         apply list_elem_of_In, in_concat. exists outs. by rewrite <- !list_elem_of_In. }
  pose proof (forward_size tasks) as Hf. pose proof (clauses_nonneg (forward_hosts tasks)). pose proof (zlen_nonneg bpf).
  unfold bpf_filter_exclude_task_output_hosts.
  set (first_answer := if 0 <? max_hosts tasks then answer al else (true, al)).
  assert (Forall (eq true) al -> first_answer.1 = true /\ Forall (eq true) first_answer.2) as Ha.
  { intros Hal. unfold first_answer. destruct (0 <? _); [|done]. by apply answer_true. }
  destruct first_answer as [[|] al1]; cbn [negb].
  2: { exists None. split; [done|]. split; [by left|]. intros Hal. by destruct (Ha Hal). }
  rewrite collect_hosts_ok by (rewrite ?zlen_concat; change (zlen (@nil (list Z))) with 0; unfold max_hosts; lia). obind.
  cbn [app]. fold (forward_hosts tasks). pose proof (answer_true al1) as Ha1.
  destruct (answer al1) as [[|] al2]; cbn [negb].
  2: { exists None. split; [done|]. split; [by left|]. intros Hal. by destruct (Ha1 (proj2 (Ha Hal))). }
  rewrite excluding_printed; [|done| |done].
  - eexists. split; [done|]. split; [by right|done].
  - apply Forall_forall. intros h Hh'. apply Hin in Hh' as [Hh' _]. by apply (proj1 (Forall_forall _ _) Hh).
Qed.

(** *** Witnesses *)

Definition demo_if (name : list Z) : option ip_addr_t :=
  if bool_decide (name = chars "eth0") then Some (IPv4 16777226) else None.
Definition demo_ntop (a : ip_addr_t) : option (list Z) :=
  match a with IPv4 _ => Some (chars "10.0.0.1") | IPv6 _ => None end.

Lemma demo_chars_ok s : forallb (fun c => (0 <? c) && (c <? 256)) (chars s) = true -> c_chars (chars s).
Proof.
  generalize (chars s) as l. intros l. induction l as [|c l IH]; [constructor|]. cbn [forallb].
  rewrite !andb_true_iff, !Z.ltb_lt. intros [H Hl]. constructor; [lia|by apply IH].
Qed.

Lemma replace_nic_correct_witness :
  exists r, bpf_filter_replace_nic demo_if demo_ntop (chars "host nic.eth0 and (picnic.eth0 or nic.eth0)") [] = Some r /\
    r = Filter (chars "host 10.0.0.1 and (picnic.eth0 or 10.0.0.1)").
Proof.
  destruct (replace_nic_correct demo_if demo_ntop (chars "host nic.eth0 and (picnic.eth0 or nic.eth0)") [])
    as (r & E & _ & Hr).
  - intros [x|x] s; cbn; [|done]. intros [= <-]. split; [by apply (demo_chars_ok "10.0.0.1")|reflexivity].
  - by apply demo_chars_ok.
  - reflexivity.
  - exists r. split; [exact E|]. rewrite (Hr (List.Forall_nil _)). vm_compute. reflexivity.
Defined.

Definition demo_tasks : list (list OutputConfig) :=
  [[OutputCfg "vxlan" (chars "10.0.0.9") [] []; OutputCfg "file" [] [] []];
   [OutputCfg "gre" [] (chars "10.0.0.9") []; OutputCfg "zmq" [] [] (chars "10.1.1.1")]].

Lemma exclude_hosts_correct_witness :
  exists r, bpf_filter_exclude_task_output_hosts (chars "tcp") demo_tasks [] = Some r /\
    r = Some (chars "(tcp) and not host 10.0.0.9 and not host 10.1.1.1").
Proof.
  destruct (exclude_hosts_correct (chars "tcp") demo_tasks []) as ((r & E & _ & Hr) & _).
  - by apply demo_chars_ok.
  - do 3 (apply Forall_cons; split; [by apply demo_chars_ok|]). exact (List.Forall_nil _).
  - reflexivity.
  - exists r. split; [exact E|]. rewrite (Hr (List.Forall_nil _)). vm_compute. reflexivity.
Defined.
