(* ===== verification/Resources.v ===== *)
(** * Resources and the programs that hold them

    The constructors and destructors of the worker acquire memory, files,
    sockets and library handles one after the other, and give back what they
    have when a later step fails.  The model runs them on a store of the
    resources held: every acquisition may fail, as a list of answers decides,
    and giving back what is not held is undefined behaviour.  What the code
    is known to do wrong when a step fails ends a run in a fault with a name,
    so that a theorem has to say when it can happen.

    The request pattern of a capturer is here too, because every kind of
    capturer has one: its parser is the one of [PatternMemory], with the
    answers of the calls of [malloc] it does not check. *)

From stdpp Require Import prelude list strings gmultiset.
From S2P Require Import Prelude ReqPattern PacketDir PatternMemory.

(** ** Resources *)

Inductive kind :=
| KMem | KFile | KPcap | KDumper | KSocket | KZmqCtx | KZmqSocket | KBpfProgram | KNetnsFd | KConfig | KThread
| KRteMem | KRing | KMempool | KPdump | KPromiscuous | KZmqMsg.

#[export] Instance kind_eq_dec : EqDecision kind.
Proof. solve_decision. Defined.

Definition kind_code (k : kind) : nat :=
  match k with
  | KMem => 0 | KFile => 1 | KPcap => 2 | KDumper => 3 | KSocket => 4 | KZmqCtx => 5 | KZmqSocket => 6
  | KBpfProgram => 7 | KNetnsFd => 8 | KConfig => 9 | KThread => 10
  | KRteMem => 11 | KRing => 12 | KMempool => 13 | KPdump => 14 | KPromiscuous => 15 | KZmqMsg => 16
  end.
Definition kind_of_code (n : nat) : kind :=
  nth n [KMem; KFile; KPcap; KDumper; KSocket; KZmqCtx; KZmqSocket; KBpfProgram; KNetnsFd; KConfig; KThread;
    KRteMem; KRing; KMempool; KPdump; KPromiscuous; KZmqMsg] KMem.

#[export, refine] Instance kind_countable : Countable kind :=
  inj_countable' kind_code kind_of_code _.
Proof. by intros []. Defined.

Definition handle : Type := nat * kind.

(** Handles are never used twice.  [in_netns]: the thread is in the capture
    network namespace. *)
Record store := Store { held : gmultiset handle; next : nat; answers : list bool; in_netns : bool }.

(** The faults of the code: the result of a [malloc] that failed is written
    through; a stream is closed that the library already closed; the packet
    dump writes to the ring or the pool it was given after they were freed;
    a message is used as a format. *)
Inductive fault := NullWrite | StreamClosedTwice | DumpIntoFreed | MessageAsFormat.

(** A step answers, ends the process, runs into a fault, or is otherwise
    undefined behaviour. *)
Inductive outcome (A : Type) := Ret (a : A) (st : store) | Exit | Fault (f : fault) | UB.
Arguments Ret {A}.
Arguments Exit {A}.
Arguments Fault {A}.
Arguments UB {A}.

Definition M (A : Type) : Type := store -> outcome A.
Definition ret {A} (a : A) : M A := fun st => Ret a st.
Definition bind {A B} (m : M A) (k : A -> M B) : M B := fun st =>
  match m st with Ret a st => k a st | Exit => Exit | Fault f => Fault f | UB => UB end.

Declare Scope life_scope.
Delimit Scope life_scope with life.
Notation "'do' x <- m ; f" := (bind m (fun x => f))
  (at level 100, x name, m at level 99, f at level 200, right associativity) : life_scope.
Notation "m ;; f" := (bind m (fun _ => f))
  (at level 100, f at level 200, right associativity) : life_scope.
Open Scope life_scope.

(** A call that holds nothing: did it succeed? *)
Definition call : M bool := fun st =>
  match answers st with
  | b :: al => Ret b (Store (held st) (next st) al (in_netns st))
  | [] => Ret true st
  end.

Definition hold (k : kind) : M handle := fun st =>
  Ret (next st, k) (Store (held st ⊎ {[+ (next st, k) +]}) (S (next st)) (answers st) (in_netns st)).

(** [malloc], [fopen], [socket], ... *)
Definition acquire (k : kind) : M (option handle) :=
  do ok <- call; if ok : bool then (do h <- hold k; ret (Some h)) else ret None.

(** [free], [fclose], [close], ... *)
Definition release (h : handle) : M unit := fun st =>
  if decide (h ∈ held st) then Ret tt (Store (held st ∖ {[+ h +]}) (next st) (answers st) (in_netns st)) else UB.

(** [free(NULL)] does nothing. *)
Definition release_opt (h : option handle) : M unit := match h with Some h => release h | None => ret tt end.

(** A call on a resource, which must be held. *)
Definition on (h : handle) : M bool := fun st => if decide (h ∈ held st) then call st else UB.

(** A resource a call relies on, whatever it answers. *)
Definition needs (h : handle) : M unit := fun st => if decide (h ∈ held st) then Ret tt st else UB.

Definition set_netns (b : bool) : M unit := fun st => Ret tt (Store (held st) (next st) (answers st) b).
Definition exit_failure {A} : M A := fun _ => Exit.

Definition fault_with {A} (f : fault) : M A := fun _ => Fault f.

(** A use of a resource that is a fault when it is not held. *)
Definition uses (f : fault) (h : handle) : M unit := fun st => if decide (h ∈ held st) then Ret tt st else Fault f.

(** ** Request patterns *)

(** What the system answers about addresses and interfaces. *)
Record lookups := Lookups {
  inet_pton4 : string -> option Z; inet_pton6 : string -> option (list Z);
  get_if_ip_addr : string -> option ip_addr_t; get_if_mac_addr : string -> option (list Z);
}.

Record PatternOpts := PatternOptions { po_cfg : ReqPatternConfig; po_lookups : lookups }.

(** The blocks of the parser are memory of the process. *)
Definition block (b : nat) : handle := (b, KMem).
Definition blocks (X : gmultiset nat) : gmultiset handle := gmultiset_map block X.

(** [calloc] of the object is checked.  The parser's calls of [malloc] are
    not: each takes the next answer, and one that fails is written through at
    once; up to there the run is the one in which they all succeed. *)
Definition req_pattern_new_from_cfg (p : PatternOpts) (ifname : string) : M (option pattern_obj) :=
  do allocated <- call;
  fun st =>
  match PatternMemory.req_pattern_new_from_cfg (inet_pton4 (po_lookups p)) (inet_pton6 (po_lookups p)) (get_if_ip_addr (po_lookups p))
          allocated (get_if_mac_addr (po_lookups p)) (po_cfg p) ifname (PMem (PState EmptyString TOKEN_ERROR) None ∅ (next st)) with
  | None => UB
  | Some (r, s) =>
      let unchecked := (PatternMemory.next s - S (next st))%nat in
      if forallb id (take unchecked (answers st)) then
        Ret r (Store (held st ⊎ blocks (live s)) (PatternMemory.next s) (drop unchecked (answers st)) (in_netns st))
      else Fault NullWrite
  end.

Fixpoint free_ast (t : tree) : M unit :=
  match t with
  | Condition b _ => release (block b)
  | Operator b _ l r => free_ast l;; free_ast r;; release (block b)
  end.

Definition req_pattern_destroy (p : pattern_obj) : M unit :=
  (match p_tree p with Some t => free_ast t | None => ret tt end);; release (block (p_block p)).

(** A pattern with a text to parse. *)
Definition custom (p : PatternOpts) : bool := String.eqb (cfg_type (po_cfg p)) "custom".

(** ** Triples *)

(** How a program may end other than by answering. *)
Record permit := Permit { exits : bool; faults : fault -> bool }.

Definition no_permit : permit := Permit false (fun _ => false).

(** What [e] permits [e'] permits. *)
Definition permits (e e' : permit) : Prop :=
  (exits e = true -> exits e' = true) /\ forall f, faults e f = true -> faults e' f = true.

Lemma permits_refl (e : permit) : permits e e.
Proof. by split. Qed.

(** Run with [H] held, [m] answers with [Q], or ends in a way that [e]
    permits, and never gives back what it does not hold. *)
Definition tri {A : Type} (e : permit) (H : gmultiset handle) (n : bool) (m : M A) (Q : A -> gmultiset handle -> bool -> Prop) : Prop :=
  forall st, held st = H -> in_netns st = n ->
  match m st with Ret a st' => Q a (held st') (in_netns st') | Exit => exits e = true | Fault f => faults e f = true | UB => False end.

(** [H] is [H'] and one [h]. *)
Class Removes (H : gmultiset handle) (h : handle) (H' : gmultiset handle) : Prop := removes : H = H' ⊎ {[+ h +]}.

#[export] Instance removes_one h : Removes {[+ h +]} h ∅ | 1.
Proof. unfold Removes. multiset_solver. Qed.
#[export] Instance removes_here X h : Removes (X ⊎ {[+ h +]}) h X | 0.
Proof. done. Qed.
#[export] Instance removes_right X Y Y' h : Removes Y h Y' -> Removes (X ⊎ Y) h (X ⊎ Y') | 2.
Proof. unfold Removes. intros ->. multiset_solver. Qed.
#[export] Instance removes_left X X' Y h : Removes X h X' -> Removes (X ⊎ Y) h (X' ⊎ Y) | 3.
Proof. unfold Removes. intros ->. multiset_solver. Qed.

Lemma tri_ret {A : Type} (e : permit) (H : gmultiset handle) (n : bool) (a : A) Q : Q a H n -> tri e H n (ret a) Q.
Proof. by intros HQ st <- <-. Qed.

Lemma tri_bind {A B : Type} (e : permit) (H : gmultiset handle) (n : bool) (m : M A) (k : A -> M B) Q :
  tri e H n m (fun a H' n' => tri e H' n' (k a) Q) -> tri e H n (bind m k) Q.
Proof.
  intros Hm st EH En. specialize (Hm st EH En). unfold bind. destruct (m st) as [a st'| | |]; [|done..]. by apply Hm.
Qed.

Lemma tri_mono {A : Type} (e : permit) (H : gmultiset handle) (n : bool) (m : M A) (P Q : A -> gmultiset handle -> bool -> Prop) :
  tri e H n m P -> (forall a H' n', P a H' n' -> Q a H' n') -> tri e H n m Q.
Proof. intros Hm HPQ st EH En. specialize (Hm st EH En). destruct (m st); eauto. Qed.

Lemma tri_call (e : permit) (H : gmultiset handle) (n : bool) Q : (forall b, Q b H n) -> tri e H n call Q.
Proof. intros HQ st <- <-. unfold call. destruct (answers st); apply HQ. Qed.

Lemma tri_hold (e : permit) (H : gmultiset handle) (n : bool) k Q : (forall a, Q (a, k) (H ⊎ {[+ (a, k) +]}) n) -> tri e H n (hold k) Q.
Proof. intros HQ st <- <-. apply HQ. Qed.

Lemma tri_acquire (e : permit) (H : gmultiset handle) (n : bool) k Q :
  (forall a, Q (Some (a, k)) (H ⊎ {[+ (a, k) +]}) n) -> Q None H n -> tri e H n (acquire k) Q.
Proof.
  intros H1 H2. apply tri_bind, tri_call. intros [|]; [|by apply tri_ret]. apply tri_bind, tri_hold.
  intros a. apply tri_ret, H1.
Qed.

Lemma tri_release (e : permit) (H : gmultiset handle) (n : bool) h H' Q : Removes H h H' -> Q tt H' n -> tri e H n (release h) Q.
Proof.
  intros -> HQ st EH <-. unfold release. rewrite EH. rewrite decide_True by multiset_solver. cbn.
  replace ((H' ⊎ {[+ h +]}) ∖ {[+ h +]}) with H' by multiset_solver. done.
Qed.

Lemma tri_on (e : permit) (H : gmultiset handle) (n : bool) h H' Q : Removes H h H' -> (forall b, Q b H n) -> tri e H n (on h) Q.
Proof.
  intros Hr HQ st EH En. unfold on. rewrite EH. rewrite decide_True by (rewrite Hr; multiset_solver).
  exact (tri_call e H n Q HQ st EH En).
Qed.

Lemma tri_needs (e : permit) (H : gmultiset handle) (n : bool) h H' Q : Removes H h H' -> Q tt H n -> tri e H n (needs h) Q.
Proof. intros Hr HQ st EH <-. unfold needs. rewrite EH, decide_True by (rewrite Hr; multiset_solver). by rewrite EH. Qed.

Lemma tri_set_netns (e : permit) (H : gmultiset handle) (n b : bool) Q : Q tt H b -> tri e H n (set_netns b) Q.
Proof. by intros HQ st <- <-. Qed.

Lemma tri_exit {A : Type} (e : permit) (H : gmultiset handle) (n : bool) (Q : A -> gmultiset handle -> bool -> Prop) :
  exits e = true -> tri e H n exit_failure Q.
Proof. by intros He st _ _. Qed.

Lemma tri_fault {A : Type} (e : permit) (H : gmultiset handle) (n : bool) (f : fault) (Q : A -> gmultiset handle -> bool -> Prop) :
  faults e f = true -> tri e H n (fault_with f) Q.
Proof. by intros He st _ _. Qed.

Lemma tri_uses (e : permit) (H : gmultiset handle) (n : bool) (f : fault) h Q :
  faults e f = true -> Q tt H n -> tri e H n (uses f h) Q.
Proof. intros He HQ st <- <-. unfold uses. by destruct (decide (h ∈ held st)). Qed.

(** [H] is [H'] and [X]. *)
Class Sheds (H X H' : gmultiset handle) : Prop := sheds : H = H' ⊎ X.

#[export] Instance sheds_all X : Sheds X X ∅ | 1.
Proof. unfold Sheds. multiset_solver. Qed.
#[export] Instance sheds_here X Y : Sheds (X ⊎ Y) Y X | 0.
Proof. done. Qed.
#[export] Instance sheds_right X Y Y' Z : Sheds Y Z Y' -> Sheds (X ⊎ Y) Z (X ⊎ Y') | 2.
Proof. unfold Sheds. intros ->. multiset_solver. Qed.
#[export] Instance sheds_left X X' Y Z : Sheds X Z X' -> Sheds (X ⊎ Y) Z (X' ⊎ Y) | 3.
Proof. unfold Sheds. intros ->. multiset_solver. Qed.

(** *** Request patterns *)

Definition pattern_foot (p : pattern_obj) : gmultiset handle :=
  blocks ({[+ p_block p +]} ⊎ tree_foot_opt (p_tree p)).

Lemma blocks_union (X Y : gmultiset nat) : blocks (X ⊎ Y) = blocks X ⊎ blocks Y.
Proof. apply gmultiset_map_disj_union. Qed.
Lemma blocks_one (b : nat) : blocks {[+ b +]} = {[+ block b +]}.
Proof. apply gmultiset_map_singleton. Qed.
Lemma blocks_empty : blocks ∅ = ∅.
Proof. apply gmultiset_map_empty. Qed.

Lemma tri_pattern_new (e : permit) (H : gmultiset handle) (n : bool) (p : PatternOpts) (ifname : string) Q :
  (custom p = true -> faults e NullWrite = true) ->
  (forall o, Q (Some o) (H ⊎ pattern_foot o) n) -> Q None H n -> tri e H n (req_pattern_new_from_cfg p ifname) Q.
Proof.
  intros Hc H1 H2. apply tri_bind, tri_call. intros allocated st <- <-.
  destruct (new_live (inet_pton4 (po_lookups p)) (inet_pton6 (po_lookups p)) (get_if_ip_addr (po_lookups p)) (get_if_mac_addr (po_lookups p))
    (po_cfg p) ifname allocated (PMem (PState EmptyString TOKEN_ERROR) None ∅ (next st))) as (r & s & -> & Hl & Hn).
  cbn [live PatternMemory.next] in Hl, Hn. cbv zeta. destruct (forallb id _) eqn:Ef.
  - cbn [held in_netns]. rewrite Hl, gmultiset_disj_union_left_id. destruct r as [o|]; [apply H1|].
    by rewrite blocks_empty, gmultiset_disj_union_right_id.
  - apply Hc. unfold custom. destruct (String.eqb (cfg_type (po_cfg p)) "custom"); [done|]. specialize (Hn eq_refl).
    by rewrite (proj2 (Nat.sub_0_le _ _) Hn) in Ef.
Qed.

Lemma free_ast_ok (e : permit) (n : bool) (t : tree) : forall (H : gmultiset handle) (Q : unit -> gmultiset handle -> bool -> Prop),
  Q tt H n -> tri e (H ⊎ blocks (tree_foot t)) n (free_ast t) Q.
Proof.
  induction t as [b k|b op l IHl r IHr]; intros H Q HQ; cbn [free_ast tree_foot]; rewrite ?blocks_union, ?blocks_one.
  - eapply tri_release; [apply _|done].
  - apply tri_bind. replace (H ⊎ _) with ((H ⊎ {[+ block b +]} ⊎ blocks (tree_foot r)) ⊎ blocks (tree_foot l)) by multiset_solver.
    apply IHl. apply tri_bind, IHr. eapply tri_release; [apply _|done].
Qed.

Lemma tri_pattern_destroy (e : permit) (H : gmultiset handle) (n : bool) (p : pattern_obj) H' Q :
  Sheds H (pattern_foot p) H' -> Q tt H' n -> tri e H n (req_pattern_destroy p) Q.
Proof.
  intros -> HQ. unfold req_pattern_destroy, pattern_foot. rewrite blocks_union, blocks_one. apply tri_bind.
  destruct p as [b [t|]]; cbn [p_block p_tree tree_foot_opt].
  - rewrite (assoc_L (⊎)). apply free_ast_ok. eapply tri_release; [apply _|done].
  - rewrite blocks_empty, gmultiset_disj_union_right_id. apply tri_ret. eapply tri_release; [apply _|done].
Qed.

(** Run the program as far as its next steps are known. *)
Ltac life_step :=
  lazymatch goal with
  | |- tri _ _ _ (bind _ _) _ => apply tri_bind
  | |- tri _ _ _ (ret _) _ => apply tri_ret
  | |- tri _ _ _ call _ => apply tri_call; intros ?
  | |- tri _ _ _ (hold _) _ => apply tri_hold; intros ?
  | |- tri _ _ _ (acquire _) _ => apply tri_acquire; [intros ?|]
  | |- tri _ _ _ (release _) _ => eapply tri_release; [apply _|]
  | |- tri _ _ _ (on _) _ => eapply tri_on; [apply _|intros ?]
  | |- tri _ _ _ (needs _) _ => eapply tri_needs; [apply _|]
  | |- tri _ _ _ (set_netns _) _ => apply tri_set_netns
  | |- tri _ _ _ exit_failure _ => apply tri_exit; solve [auto]
  | |- tri _ _ _ (fault_with _) _ => apply tri_fault; solve [auto]
  | |- tri _ _ _ (uses _ _) _ => apply tri_uses; [solve [auto]|]
  | |- tri _ _ _ (req_pattern_new_from_cfg _ _) _ => apply tri_pattern_new; [solve [auto]|intros ?|]
  | |- tri _ _ _ (req_pattern_destroy _) _ => eapply tri_pattern_destroy; [apply _|]
  | |- tri _ _ _ (release_opt _) _ => unfold release_opt
  | |- tri _ _ _ (if negb ?b then _ else _) _ => destruct b
  | |- tri _ _ _ (if ?b then _ else _) _ => destruct b
  | |- tri _ _ _ (match ?x with _ => _ end) _ => destruct x
  end; cbn beta iota; cbn [negb].

(** ** What objects hold *)

Definition opt_foot (h : option handle) : gmultiset handle := match h with Some h => {[+ h +]} | None => ∅ end.

(** The same handles in another order. *)
Ltac same_handles :=
  cbn [opt_foot]; try reflexivity; apply gmultiset_eq; intros ?; rewrite ?multiplicity_disj_union, ?multiplicity_empty;
  unfold handle in *;
  repeat match goal with |- context [multiplicity ?x ?y] => generalize (multiplicity x y); intros ? end; lia.
Ltac life := repeat life_step; try (split; [done|same_handles]).

(** A constructor: it holds what its object holds more than before, or
    nothing more, and the thread is where it was. *)
Definition constructs {O : Type} (e : permit) (foot : O -> gmultiset handle) (m : M (option O)) : Prop :=
  forall H, tri e H false m (fun r H' n => n = false /\ H' = match r with Some o => H ⊎ foot o | None => H end).

(** A destructor gives back exactly what its object holds. *)
Definition destructs {O : Type} (foot : O -> gmultiset handle) (d : O -> M unit) : Prop :=
  forall e o H, tri e (H ⊎ foot o) false (d o) (fun _ H' n => n = false /\ H' = H).
