(* ===== verification/Dpdk.v ===== *)
(** * The DPDK capturer (dpdk/pdump.c)

    Creating and destroying a capturer that reads a ring of the DPDK packet
    dump.  The calls of DPDK acquire and release resources, any acquisition
    may fail, and the ring and the buffer pool are found by name: a second
    capturer gets the ones the first created.  While the packet dump is
    enabled, another process puts a copy of each packet, taken from the pool,
    into the ring. *)

From stdpp Require Import prelude list strings gmultiset.
From S2P Require Import Prelude PacketDir PatternMemory Resources.

(** ** Operations *)

(** [rte_ring_lookup], [rte_mempool_lookup]: the names are constants, so
    there is at most one of each. *)
Definition lookup (k : kind) : M (option handle) := fun st =>
  Ret (head (filter (fun h : handle => h.2 = k) (elements (held st)))) st.

(** [pcap] is not closed when the filter does not compile. *)
Definition compile_filter : M (option handle) :=
  do pcap <- acquire KPcap;
  match pcap with
  | None => ret None
  | Some pcap =>
      do compiled <- on pcap;
      if negb compiled then ret None
      else
        do bf <- hold KBpfProgram;
        do bpf_prm <- acquire KRteMem;
        match bpf_prm with
        | None => release bf;; release pcap;; ret None
        | Some bpf_prm => release bf;; release pcap;; ret (Some bpf_prm)
        end
  end.

(** [sizeof(size) * 8 - __builtin_clzl(size - 1)] and [1u << log2]; [None] is
    undefined behaviour: no set bit, or a shift by the width or more. *)
Definition ring_pow2 (ring_size : Z) : option Z :=
  let x := u64 (ring_size - 1) in
  if (x =? 0)%Z then None
  else
    let log2 := (64 - (63 - Z.log2 x))%Z in
    if (32 <=? log2)%Z then None else Some (Z.shiftl 1 log2).

Definition create_ring (ring_size : Z) : M (option handle) :=
  match ring_pow2 ring_size with
  | None => fun _ => UB
  | Some _ =>
      do ring <- lookup KRing;
      match ring with Some ring => ret (Some ring) | None => acquire KRing end
  end.

Definition create_mempool : M (option handle) :=
  do mp <- lookup KMempool;
  match mp with Some mp => ret (Some mp) | None => acquire KMempool end.

(** Promiscuous mode, whose result is not checked, and the packet dump into
    the ring; [None] for the dump is a failure. *)
Definition enable_pdump (promiscuous_mode : bool) (ring mp : handle) (bpf_prm : option handle) :
    M (option handle * option handle) :=
  do promiscuous <- (if promiscuous_mode then acquire KPromiscuous else ret None);
  needs ring;; needs mp;; (match bpf_prm with Some p => needs p | None => ret tt end);;
  do pdump <- acquire KPdump;
  ret (promiscuous, pdump).

(** A packet may come by: the dump, which is enabled, uses the pool and the
    ring. *)
Definition dumping (ring mp : handle) : M unit :=
  do packet <- call;
  if packet : bool then uses DumpIntoFreed mp;; uses DumpIntoFreed ring else ret tt.

(** [rte_ring_free] and [rte_mempool_free] while the dump is enabled. *)
Definition free_under_dump (ring mp : handle) : M unit :=
  release ring;; dumping ring mp;; release mp;; dumping ring mp.

Definition cleanup_pdump_resources (pdump : handle) (promiscuous : option handle) : M unit :=
  release pdump;; release_opt promiscuous.

Record dpdk_capturer := DpdkCapturer {
  d_mem : handle; d_req_pattern : pattern_obj; d_bpf_prm : option handle; d_ring : handle; d_mp : handle;
  d_pdump : handle; d_promiscuous : option handle;
}.

(** From the filter on. *)
Definition dpdk_open (promiscuous_mode : bool) (ring_size : Z) (req_pattern : pattern_obj) (bpf_prm : option handle) :
    M (option dpdk_capturer) :=
  do ring <- create_ring ring_size;
  match ring with
  | None => req_pattern_destroy req_pattern;; ret None
  | Some ring =>
      do mp <- create_mempool;
      match mp with
      | None => req_pattern_destroy req_pattern;; release_opt bpf_prm;; release ring;; ret None
      | Some mp =>
          do e <- enable_pdump promiscuous_mode ring mp bpf_prm;
          match snd e with
          | None => req_pattern_destroy req_pattern;; release_opt bpf_prm;; release ring;; release mp;; ret None
          | Some pdump =>
              do capturer <- acquire KMem;
              match capturer with
              | None =>
                  req_pattern_destroy req_pattern;; release_opt bpf_prm;; free_under_dump ring mp;;
                  cleanup_pdump_resources pdump (fst e);; ret None
              | Some capturer => ret (Some (DpdkCapturer capturer req_pattern bpf_prm ring mp pdump (fst e)))
              end
          end
      end
  end.

Definition dpdk_capturer_new (pattern : PatternOpts) (interface : string) (promiscuous_mode : bool) (bpf_filter : string) (ring_size : Z) :
    M (option dpdk_capturer) :=
  do req_pattern <- req_pattern_new_from_cfg pattern interface;
  match req_pattern with
  | None => ret None
  | Some req_pattern =>
      do port <- call;
      if negb port then (req_pattern_destroy req_pattern;; ret None)
      else if String.eqb bpf_filter EmptyString then dpdk_open promiscuous_mode ring_size req_pattern None
      else
        do bpf_prm <- compile_filter;
        match bpf_prm with
        | None => req_pattern_destroy req_pattern;; ret None
        | Some p => dpdk_open promiscuous_mode ring_size req_pattern (Some p)
        end
  end.

Definition dpdk_capture_new_from_cfg (pattern : PatternOpts) (interface bpf_filter : string) (ring_size : Z) : M (option dpdk_capturer) :=
  dpdk_capturer_new pattern interface true bpf_filter ring_size.

(** The request pattern is not freed, and the dump is disabled last. *)
Definition dpdk_capturer_destroy (c : dpdk_capturer) : M unit :=
  release_opt (d_bpf_prm c);; free_under_dump (d_ring c) (d_mp c);;
  cleanup_pdump_resources (d_pdump c) (d_promiscuous c);;
  release (d_mem c).

(** ** Lemmas *)

(** No ring and no pool in [H]. *)
Definition unnamed (H : gmultiset handle) : Prop := forall h, h ∈ H -> h.2 <> KRing /\ h.2 <> KMempool.

Lemma tri_lookup (e : permit) (H : gmultiset handle) (n : bool) (k : kind) Q :
  (forall r, match r with Some h => h ∈ H /\ h.2 = k | None => forall h, h ∈ H -> h.2 <> k end -> Q r H n) ->
  tri e H n (lookup k) Q.
Proof.
  intros HQ st <- <-. unfold lookup. apply HQ. destruct (filter _ _) as [|h l] eqn:E; cbn [head].
  - intros h Hh Hk. assert (h ∈ @nil handle) as Hf; [|by apply not_elem_of_nil in Hf].
    rewrite <- E. apply list_elem_of_filter. split; [done|]. by apply gmultiset_elem_of_elements.
  - assert (h ∈ h :: l) as Hf by left. rewrite <- E in Hf. apply list_elem_of_filter in Hf as [Hk Hf].
    split; [by apply gmultiset_elem_of_elements|done].
Qed.

Lemma lookup_none (e : permit) (H : gmultiset handle) (n : bool) (k : kind) Q :
  (forall h, h ∈ H -> h.2 <> k) -> Q None H n -> tri e H n (lookup k) Q.
Proof. intros Hk HQ. apply tri_lookup. intros [h|] Hr; [|done]. destruct Hr as [Hh Hr]. destruct (Hk h Hh Hr). Qed.

(** The size of the ring: for the sizes a configuration can have, the least
    power of two that is large enough. *)
Lemma ring_pow2_ok n : (2 <= n <= 2 ^ 30)%Z ->
  exists k, ring_pow2 n = Some (2 ^ k)%Z /\ (0 < k <= 30)%Z /\ (2 ^ (k - 1) < n <= 2 ^ k)%Z.
Proof.
  intros Hn. unfold ring_pow2. rewrite u64_small by (change (2 ^ 30)%Z with 1073741824%Z in Hn; lia).
  destruct (Z.eqb_spec (n - 1) 0) as [|_]; [lia|].
  assert (0 < n - 1)%Z as Hp by lia. pose proof (Z.log2_spec (n - 1) Hp) as Hl. pose proof (Z.log2_nonneg (n - 1)) as H0.
  assert (Z.log2 (n - 1) < 30)%Z as Hb by (apply Z.log2_lt_pow2; lia).
  replace (64 - (63 - Z.log2 (n - 1)))%Z with (Z.succ (Z.log2 (n - 1))) by lia.
  destruct (Z.leb_spec 32 (Z.succ (Z.log2 (n - 1)))) as [|_]; [lia|].
  exists (Z.succ (Z.log2 (n - 1))). rewrite Z.shiftl_mul_pow2, Z.mul_1_l by lia. split; [done|]. split; [lia|].
  replace (Z.succ (Z.log2 (n - 1)) - 1)%Z with (Z.log2 (n - 1)) by lia. lia.
Qed.

Definition dpdk_foot (c : dpdk_capturer) : gmultiset handle :=
  {[+ d_mem c +]} ⊎ pattern_foot (d_req_pattern c) ⊎ opt_foot (d_bpf_prm c) ⊎ {[+ d_ring c +]} ⊎ {[+ d_mp c +]} ⊎
  {[+ d_pdump c +]} ⊎ opt_foot (d_promiscuous c).

(** What a failed creation may leave behind. *)
Definition left_over (leak : gmultiset handle) : Prop :=
  leak = ∅ \/ exists a k, leak = {[+ (a, k) +]} /\ k ∈ [KPcap; KRteMem; KPromiscuous].

Lemma left_nothing : left_over ∅.
Proof. by left. Qed.
Lemma left_one a k : k ∈ [KPcap; KRteMem; KPromiscuous] -> left_over {[+ (a, k) +]}.
Proof. intros Hk. right. by exists a, k. Qed.

Lemma unnamed_add H a k : k <> KRing -> k <> KMempool -> unnamed H -> unnamed (H ⊎ {[+ (a, k) +]}).
Proof.
  intros H1 H2 HH h Hh. apply gmultiset_elem_of_disj_union in Hh as [Hh|Hh]; [by apply HH|].
  apply gmultiset_elem_of_singleton in Hh as ->. done.
Qed.

Lemma unnamed_pattern H p : unnamed H -> unnamed (H ⊎ pattern_foot p).
Proof.
  intros HH h Hh. apply gmultiset_elem_of_disj_union in Hh as [Hh|Hh]; [by apply HH|].
  unfold pattern_foot, blocks in Hh. apply elem_of_gmultiset_map in Hh as (b & -> & _). done.
Qed.

Create HintDb dpdk.
#[local] Hint Resolve left_nothing left_one unnamed_add unnamed_pattern : dpdk.
#[local] Hint Extern 1 (_ <> _) => discriminate : dpdk.
#[local] Hint Extern 1 (_ ∈ _) => set_solver : dpdk.

(** The state after creation: the resources of the capturer, or a leak. *)
Definition opened (H : gmultiset handle) (r : option dpdk_capturer) (H' : gmultiset handle) (n : bool) : Prop :=
  n = false /\
  match r with
  | Some c => H' = H ⊎ dpdk_foot c
  | None => exists leak, H' = H ⊎ leak /\ left_over leak
  end.

Ltac dpdk_end :=
  split; [done|]; cbn beta iota; unfold dpdk_foot; cbn [d_mem d_req_pattern d_bpf_prm d_ring d_mp d_pdump d_promiscuous];
  first [ same_handles
        | exists ∅; split; [same_handles|auto with dpdk]
        | rewrite ?gmultiset_disj_union_right_id; eexists {[+ _ +]}; split; [reflexivity|auto with dpdk] ].

Section ok.
  Context (e : permit) (Hdump : faults e DumpIntoFreed = true).

Lemma tri_free_under_dump (ring mp : handle) (H H1 H2 : gmultiset handle) (n : bool) Q :
  Removes H ring H1 -> Removes H1 mp H2 -> Q tt H2 n -> tri e H n (free_under_dump ring mp) Q.
Proof using Hdump.
  intros R1 R2 HQ. unfold free_under_dump, dumping. apply tri_bind. eapply tri_release; [exact R1|]. do 2 apply tri_bind. apply tri_call. intros b.
  apply (tri_mono e _ _ _ (fun _ H' n' => H' = H1 /\ n' = n)).
  { destruct b; [|by apply tri_ret]. apply tri_bind, tri_uses; [done|]. by apply tri_uses. }
  intros [] ? ? [-> ->]. apply tri_bind. eapply tri_release; [exact R2|]. apply tri_bind, tri_call. intros [|]; [|by apply tri_ret].
  apply tri_bind, tri_uses; [done|]. by apply tri_uses.
Qed.

Ltac dpdk_step :=
  lazymatch goal with
  | |- tri _ _ _ (free_under_dump _ _) _ => eapply tri_free_under_dump; [apply _|apply _|]
  | _ => life_step
  end.

Lemma dpdk_open_ok (promiscuous : bool) (ring_size : Z) (H : gmultiset handle) pattern prm :
  (2 <= ring_size <= 2 ^ 30)%Z -> unnamed H ->
  tri e (H ⊎ pattern_foot pattern ⊎ opt_foot ((fun p => (p, KRteMem)) <$> prm)) false
    (dpdk_open promiscuous ring_size pattern ((fun p => (p, KRteMem)) <$> prm)) (opened H).
Proof using Hdump.
  intros Hn HH. unfold dpdk_open, create_ring. destruct (ring_pow2_ok ring_size Hn) as (k & -> & _).
  assert (unnamed (H ⊎ pattern_foot pattern ⊎ opt_foot ((fun p => (p, KRteMem)) <$> prm))) as HH1.
  { destruct prm; cbn [fmap option_fmap option_map opt_foot]; [auto with dpdk|].
    rewrite gmultiset_disj_union_right_id. auto with dpdk. }
  apply tri_bind, tri_bind, lookup_none; [intros h Hh; by apply HH1|].
  apply tri_acquire; [intros ring|destruct prm; cbn [fmap option_fmap option_map opt_foot]; repeat life_step; dpdk_end].
  unfold create_mempool. apply tri_bind, tri_bind, lookup_none.
  { intros h Hh. apply gmultiset_elem_of_disj_union in Hh as [Hh|Hh]; [by apply HH1|].
    apply gmultiset_elem_of_singleton in Hh as ->. done. }
  apply tri_acquire; [intros mp|destruct prm; cbn [fmap option_fmap option_map opt_foot]; repeat life_step; dpdk_end].
  unfold enable_pdump, cleanup_pdump_resources. destruct promiscuous, prm; cbn [fmap option_fmap option_map opt_foot].
  all: repeat (progress cbn [fst snd] || dpdk_step).
  all: dpdk_end.
Qed.

Lemma dpdk_new_ok (pattern : PatternOpts) (interface : string) (promiscuous : bool) (filter : string) (ring_size : Z) (H : gmultiset handle) :
  (custom pattern = true -> faults e NullWrite = true) -> (2 <= ring_size <= 2 ^ 30)%Z -> unnamed H ->
  tri e H false (dpdk_capturer_new pattern interface promiscuous filter ring_size) (opened H).
Proof using Hdump.
  intros Hnull Hn HH. unfold dpdk_capturer_new. apply tri_bind, tri_pattern_new; [done|intros a|life_step; dpdk_end].
  apply tri_bind, tri_call. intros [|]; cbn [negb]; [|repeat life_step; dpdk_end].
  destruct (String.eqb filter EmptyString).
  { pose proof (dpdk_open_ok promiscuous ring_size H a None Hn HH) as Ho. cbn [fmap option_fmap option_map opt_foot] in Ho.
    by rewrite gmultiset_disj_union_right_id in Ho. }
  unfold compile_filter. do 2 apply tri_bind. apply tri_acquire; [intros pcap|repeat life_step; dpdk_end].
  apply tri_bind. eapply tri_on; [apply _|]. intros [|]; cbn [negb]; [|repeat life_step; dpdk_end].
  apply tri_bind, tri_hold. intros bf. apply tri_bind, tri_acquire; [intros p|repeat life_step; dpdk_end].
  repeat lazymatch goal with |- tri _ _ _ (dpdk_open _ _ _ _) _ => fail | _ => life_step end.
  exact (dpdk_open_ok promiscuous ring_size H a (Some p) Hn HH).
Qed.

Lemma dpdk_destroy_ok (c : dpdk_capturer) (H : gmultiset handle) :
  tri e (H ⊎ dpdk_foot c) false (dpdk_capturer_destroy c) (fun _ H' n => n = false /\ H' = H ⊎ pattern_foot (d_req_pattern c)).
Proof using Hdump.
  destruct c as [mem pattern [prm|] ring mp pdump [promisc|]]; unfold dpdk_capturer_destroy, cleanup_pdump_resources, dpdk_foot;
    cbn [d_mem d_req_pattern d_bpf_prm d_ring d_mp d_pdump d_promiscuous opt_foot]; repeat dpdk_step; (split; [done|same_handles]).
Qed.

End ok.

(** ** Theorems *)

(** What can go wrong with a DPDK capturer besides leaks. *)
Definition dpdk_permit (pattern : PatternOpts) : permit :=
  Permit false (fun f => match f with NullWrite => custom pattern | DumpIntoFreed => true | _ => false end).

(** C35: The only DPDK capturer of the process, with a ring of a size the
    configuration allows, whichever step fails.  Two things can go wrong and
    no others: a [malloc] of the parser of a custom pattern fails and is
    written through; or a packet comes by while the ring and the pool are
    freed and the dump that fills them is still enabled, which is the order
    of the clean-up.  Otherwise nothing is freed twice, the arithmetic of the
    ring size is defined, a failed creation leaves at most one resource
    behind, the filter's handle, its DPDK program, or promiscuous mode, and
    destroying a capturer gives back everything but its request pattern. *)
Theorem dpdk_lifecycle (pattern : PatternOpts) (interface filter : string) (ring_size : Z) (st : store) :
  in_netns st = false -> unnamed (held st) -> (2 <= ring_size <= 2 ^ 30)%Z ->
  match dpdk_capture_new_from_cfg pattern interface filter ring_size st with
  | UB | Exit => False
  | Fault f => (f = NullWrite /\ custom pattern = true) \/ f = DumpIntoFreed
  | Ret None st' => exists leak, held st' = held st ⊎ leak /\ left_over leak
  | Ret (Some c) st' =>
      match dpdk_capturer_destroy c st' with
      | UB | Exit => False
      | Fault f => f = DumpIntoFreed
      | Ret _ st'' => held st'' = held st ⊎ pattern_foot (d_req_pattern c)
      end
  end.
Proof.
  intros Hn HH Hs.
  pose proof (dpdk_new_ok (dpdk_permit pattern) eq_refl pattern interface true filter ring_size (held st) (fun E => E) Hs HH st eq_refl Hn) as Ho.
  unfold dpdk_capture_new_from_cfg. destruct (dpdk_capturer_new pattern interface true filter ring_size st) as [[c|] st'| |f|]; [|by destruct Ho|done| |done].
  - destruct Ho as [Hn' Hh]. set (e := Permit false (fun f => match f with DumpIntoFreed => true | _ => false end)).
    pose proof (dpdk_destroy_ok e eq_refl c (held st) st' Hh Hn') as Hd.
    destruct (dpdk_capturer_destroy c st') as [[] st''| |f|]; [by destruct Hd|done| |done]. by destruct f.
  - destruct f; cbn in Ho; try done; auto.
Qed.

Definition is_ub {A : Type} (o : outcome A) : bool := match o with UB => true | _ => false end.

Lemma is_ub_true {A : Type} (o : outcome A) : is_ub o = true -> o = UB.
Proof. by destruct o. Qed.

Definition no_lookups : lookups := Lookups (fun _ => None) (fun _ => None) (fun _ => None) (fun _ => None).
Definition no_pattern : PatternOpts := PatternOptions (Build_ReqPatternConfig "none" EmptyString) no_lookups.
Abbreviation new_dpdk := (dpdk_capture_new_from_cfg no_pattern EmptyString EmptyString 2048).

(** No packet comes by. *)
Definition quiet (st : store) : store := Store (held st) (next st) (replicate 8 false) false.

(** The run of two capturers, as a test. *)
Definition shared_run : bool :=
  match new_dpdk (Store ∅ 0 [] false) with
  | Ret (Some c1) st1 =>
      match new_dpdk st1,
            new_dpdk (Store (held st1) (next st1) [true; true; true; false] false) with
      | Ret (Some c2) st2, Ret None st3 =>
          bool_decide (d_ring c2 = d_ring c1) && is_ub ((dpdk_capturer_destroy c1;; dpdk_capturer_destroy c2) (quiet st2)) &&
          is_ub ((dpdk_capturer_destroy c2;; dpdk_capturer_destroy c1) (quiet st2)) && is_ub (needs (d_ring c1) st3)
      | _, _ => false
      end
  | _ => false
  end.

(** Two DPDK tasks share one ring, which the name of the ring makes
    them do: destroying both frees the ring twice, in either order; and when
    the packet dump of the second cannot be enabled, its clean-up frees the
    ring the first task goes on reading. *)
Theorem dpdk_shared_ring :
  exists c1 c2 st1 st2 st3,
    new_dpdk (Store ∅ 0 [] false) = Ret (Some c1) st1 /\
    new_dpdk st1 = Ret (Some c2) st2 /\
    d_ring c2 = d_ring c1 /\
    (dpdk_capturer_destroy c1;; dpdk_capturer_destroy c2) (quiet st2) = UB /\
    (dpdk_capturer_destroy c2;; dpdk_capturer_destroy c1) (quiet st2) = UB /\
    new_dpdk (Store (held st1) (next st1) [true; true; true; false] false) = Ret None st3 /\
    needs (d_ring c1) st3 = UB.
Proof.
  assert (shared_run = true) as E by (vm_compute; reflexivity). unfold shared_run in E.
  destruct (new_dpdk (Store ∅ 0 [] false)) as [[c1|] st1| | |] eqn:E1; [|done..].
  destruct (new_dpdk st1) as [[c2|] st2| | |] eqn:E2; [|done..].
  destruct (new_dpdk (Store (held st1) _ _ _)) as [[c3|] st3| | |] eqn:E3; [done| |done..].
  repeat (apply andb_true_iff in E as [E ?]). exists c1, c2, st1, st2, st3.
  repeat match goal with H : is_ub _ = true |- _ => apply is_ub_true in H end.
  apply bool_decide_eq_true in E. repeat (split; [done|]). done.
Qed.

(** The dump is disabled after the ring was freed: a packet in between. *)
Example dpdk_dump_into_freed :
  match new_dpdk (Store ∅ 0 [] false) with
  | Ret (Some c) st => match dpdk_capturer_destroy c st with Fault f => f = DumpIntoFreed | _ => False end
  | _ => False
  end.
Proof. vm_compute. reflexivity. Qed.

(** *** Witness *)

(** The buffer pool cannot be created. *)
Definition demo_dpdk : store := Store {[+ (0%nat, KMem) +]} 1 (replicate 6 true ++ [false]) false.

Lemma dpdk_lifecycle_witness :
  match dpdk_capture_new_from_cfg no_pattern "eth0" "tcp" 2048 demo_dpdk with
  | Ret None st' => exists leak, held st' = held demo_dpdk ⊎ leak /\ left_over leak
  | _ => False
  end.
Proof.
  assert (unnamed (held demo_dpdk)) as HH.
  { intros h Hh. apply gmultiset_elem_of_singleton in Hh as ->. done. }
  pose proof (dpdk_lifecycle no_pattern "eth0" "tcp" 2048 demo_dpdk eq_refl HH ltac:(lia)) as Hd.
  destruct (dpdk_capture_new_from_cfg no_pattern "eth0" "tcp" 2048 demo_dpdk) as [[c|] st'| |f|] eqn:E; [|exact Hd|exact Hd| |exact Hd].
  - exfalso. vm_compute in E. discriminate E.
  - exfalso. vm_compute in E. discriminate E.
Defined.
