(* ===== verification/Lifecycle.v ===== *)
(** * Creating and destroying tasks (task.c, output_*.c, libpcap.c, pcap_file.c)

    The constructors and destructors of the outputs, the capturers and the
    tasks, on the store of [Resources]: every acquisition may fail, giving
    back what is not held is undefined behaviour, and the known faults of the
    code have a name. *)

From stdpp Require Import prelude list strings gmultiset.
From S2P Require Import Prelude ZmqFormat PacketDir PatternMemory Resources Dpdk.

(** ** Outputs *)

Record OutputOpts := OutputOptions {
  oc_type : string; oc_uuid : list Z; oc_bind_device : string; oc_pmtudisc : Z;
}.

(** The outputs with what they hold; a rotating file's root is [NULL] when
    [strdup] failed, and its dumper is open after the first packet. *)
Inductive output_obj :=
| ObjNull (o : handle)
| ObjFile (o pcap dumper : handle)
| ObjRotating (o pcap : handle) (file_root dumper : option handle)
| ObjGre (o socket : handle)
| ObjVxlan (o socket : handle)
| ObjZmq (o context pusher : handle) (pkts_num : Z).

Definition null_output_new : M (option output_obj) :=
  do o <- acquire KMem;
  match o with None => ret None | Some o => ret (Some (ObjNull o)) end.

(** A dumper takes the file over: closing it closes the file.  Whether the
    file is still open after a failure is not documented: [inl] says whether
    it was closed. *)
Definition pcap_dump_fopen (pcap fp : handle) : M (bool + handle) :=
  do ok <- on pcap;
  if ok : bool then (release fp;; do d <- hold KDumper; ret (inr d))
  else
    do closed <- call;
    if closed : bool then (release fp;; ret (inl true)) else ret (inl false).

Definition fclose (closed : bool) (fp : handle) : M unit :=
  if closed then fault_with StreamClosedTwice else release fp.

Definition file_output_new : M (option output_obj) :=
  do fp <- acquire KFile;
  match fp with
  | None => ret None
  | Some fp =>
      do pcap <- acquire KPcap;
      match pcap with
      | None => release fp;; ret None
      | Some pcap =>
          do dumper <- pcap_dump_fopen pcap fp;
          match dumper with
          | inl closed => fclose closed fp;; release pcap;; ret None
          | inr dumper =>
              do o <- acquire KMem;
              match o with
              | None => release dumper;; release pcap;; ret None
              | Some o => ret (Some (ObjFile o pcap dumper))
              end
          end
      end
  end.

Definition rotating_file_output_new : M (option output_obj) :=
  do st <- call;
  if negb st then ret None
  else
    do pcap <- acquire KPcap;
    match pcap with
    | None => ret None
    | Some pcap =>
        do o <- acquire KMem;
        match o with
        | None => release pcap;; ret None
        | Some o => do root <- acquire KMem; ret (Some (ObjRotating o pcap root None))
        end
    end.

(** The socket options, then the struct: common to GRE and VXLAN. *)
Definition socket_output_new (opts : OutputOpts) (obj : handle -> handle -> output_obj) : M (option output_obj) :=
  do host <- call;
  if negb host then ret None
  else
    do socket <- acquire KSocket;
    match socket with
    | None => ret None
    | Some socket =>
        do bound <- (if String.eqb (oc_bind_device opts) EmptyString then ret true else on socket);
        if negb bound then (release socket;; ret None)
        else
          do mtu <- (if (0 <=? oc_pmtudisc opts)%Z then on socket else ret true);
          if negb mtu then (release socket;; ret None)
          else
            do o <- acquire KMem;
            match o with
            | None => release socket;; ret None
            | Some o => ret (Some (obj o socket))
            end
    end.

Definition gre_output_new (opts : OutputOpts) : M (option output_obj) := socket_output_new opts ObjGre.
Definition vxlan_output_new (opts : OutputOpts) : M (option output_obj) := socket_output_new opts ObjVxlan.

Definition uuid_ok (uuid : list Z) : bool :=
  match uuid with [] => true | _ => bool_decide (is_Some (uuid_to_bytes uuid)) end.

Definition zmq_output_new (opts : OutputOpts) : M (option output_obj) :=
  if negb (uuid_ok (oc_uuid opts)) then ret None
  else
    do context <- acquire KZmqCtx;
    match context with
    | None => ret None
    | Some context =>
        do pusher <- (do ok <- on context; if ok : bool then (do h <- hold KZmqSocket; ret (Some h)) else ret None);
        match pusher with
        | None => release context;; ret None
        | Some pusher =>
            do hwm <- on pusher;
            if negb hwm then (release pusher;; release context;; ret None)
            else
              do linger <- on pusher;
              if negb linger then (release pusher;; release context;; ret None)
              else
                do connected <- on pusher;
                if negb connected then (release pusher;; release context;; ret None)
                else
                  do o <- acquire KMem;
                  match o with
                  | None => release pusher;; release context;; ret None
                  | Some o => ret (Some (ObjZmq o context pusher 0%Z))
                  end
        end
    end.

Definition null_output_destroy (o : handle) : M unit := release o.
Definition file_output_destroy (o pcap dumper : handle) : M unit := release dumper;; release pcap;; release o.
Definition rotating_file_output_destroy (o pcap : handle) (file_root dumper : option handle) : M unit :=
  release_opt file_root;; release_opt dumper;; release pcap;; release o.
Definition gre_output_destroy (o socket : handle) : M unit := release socket;; release o.
Definition vxlan_output_destroy (o socket : handle) : M unit := release socket;; release o.

(** What is pending is sent first. *)
Definition zmq_output_destroy (o context pusher : handle) (pkts_num : Z) : M unit :=
  (if (0 <? pkts_num)%Z then on pusher else ret true);; release pusher;; release context;; release o.

(** [destroy_output]: the virtual call. *)
Definition destroy_output (obj : output_obj) : M unit :=
  match obj with
  | ObjNull o => null_output_destroy o
  | ObjFile o pcap dumper => file_output_destroy o pcap dumper
  | ObjRotating o pcap root dumper => rotating_file_output_destroy o pcap root dumper
  | ObjGre o socket => gre_output_destroy o socket
  | ObjVxlan o socket => vxlan_output_destroy o socket
  | ObjZmq o context pusher pkts_num => zmq_output_destroy o context pusher pkts_num
  end.

(** [find_output_factory] and the call of the factory. *)
Definition output_new (opts : OutputOpts) : M (option output_obj) :=
  if String.eqb (oc_type opts) "file" then file_output_new
  else if String.eqb (oc_type opts) "rotating_file" then rotating_file_output_new
  else if String.eqb (oc_type opts) "zmq" then zmq_output_new opts
  else if String.eqb (oc_type opts) "gre" then gre_output_new opts
  else if String.eqb (oc_type opts) "vxlan" then vxlan_output_new opts
  else if String.eqb (oc_type opts) "null" then null_output_new
  else ret None.

(** ** Capturers *)

Record CapturerOpts := CapturerOptions {
  cc_type : string; cc_netns : string; cc_bpf_filter : string; cc_not_filter_output_hosts : bool;
  cc_timeout_ms : Z; cc_has_immediate_mode : bool;
  cc_interface : string; cc_req_pattern : PatternOpts; cc_ring_size : Z;
}.

Inductive capturer_obj :=
| ObjLibpcap (c interface netns : handle) (pattern : pattern_obj) (p : handle)
| ObjPcapFile (c : handle) (pattern : pattern_obj) (p : handle)
| ObjDpdk (c : dpdk_capturer).

Definition libpcap_capturer_destroy (c interface netns : handle) (pattern : pattern_obj) (p : handle) : M unit :=
  req_pattern_destroy pattern;; release p;; release interface;; release netns;; release c.
Definition pcap_file_capturer_destroy (c : handle) (pattern : pattern_obj) (p : handle) : M unit := req_pattern_destroy pattern;; release p;; release c.

Definition destroy_capturer (obj : capturer_obj) : M unit :=
  match obj with
  | ObjLibpcap c interface netns pattern p => libpcap_capturer_destroy c interface netns pattern p
  | ObjPcapFile c pattern p => pcap_file_capturer_destroy c pattern p
  | ObjDpdk c => dpdk_capturer_destroy c
  end.

(** [req_pattern_destroy(NULL)] does nothing. *)
Definition destroy_pattern_opt (p : option pattern_obj) : M unit :=
  match p with Some p => req_pattern_destroy p | None => ret tt end.

Definition enter_netns_by_path : M bool :=
  do fd <- acquire KNetnsFd;
  match fd with
  | None => ret false
  | Some fd =>
      do ok <- on fd;
      if negb ok then (release fd;; ret false)
      else (set_netns true;; release fd;; ret true)
  end.

Definition leave_netns_or_exit (self_netns_fd : handle) : M unit :=
  do ok <- on self_netns_fd;
  if ok : bool then set_netns false else exit_failure.

(** Replacing the interface names, compiling and installing the filter. *)
Definition install_filter (bpf : string) (p : handle) : M bool :=
  if String.eqb bpf EmptyString then ret true
  else
    do text <- acquire KMem;
    match text with
    | None => ret false
    | Some text =>
        do compiled <- on p;
        if negb compiled then (release text;; ret false)
        else
          do prog <- hold KBpfProgram;
          release text;;
          do ok <- on p;
          if negb ok then (release prog;; ret false) else (release prog;; ret true)
    end.

(** The [error] label of [libpcap_capturer_new]: [fd] is the namespace to
    return to, [in_target] whether it was left. *)
Definition libpcap_error (in_target : bool) (fd : option handle) (capturer : option (handle * option handle * option handle))
    (p : option handle) (pattern : option pattern_obj) : M (option capturer_obj) :=
  (match in_target, fd with true, Some fd => leave_netns_or_exit fd | _, _ => ret tt end);;
  release_opt fd;;
  (match capturer with
   | Some (c, interface, netns) => release_opt netns;; release_opt interface;; release c
   | None => ret tt
   end);;
  release_opt p;; destroy_pattern_opt pattern;; ret None.

(** The part after the namespace was entered. *)
Definition libpcap_open (opts : CapturerOpts) (fd : option handle) : M (option capturer_obj) :=
  let error := libpcap_error (bool_decide (is_Some fd)) fd in
  do pattern <- req_pattern_new_from_cfg (cc_req_pattern opts) (cc_interface opts);
  match pattern with
  | None => error None None None
  | Some pattern =>
      do p <- acquire KPcap;
      match p with
      | None => error None None (Some pattern)
      | Some p =>
          on p;; on p;; on p;;
          (if (cc_timeout_ms opts =? 0)%Z then
             do immediate_ok <- (if cc_has_immediate_mode opts then on p else ret false);
             if negb immediate_ok then on p else ret true
           else on p);;
          do activated <- on p;
          if negb activated then error None (Some p) (Some pattern)
          else
            do nonblock <- on p;
            if negb nonblock then error None (Some p) (Some pattern)
            else
              do filtered <- install_filter (cc_bpf_filter opts) p;
              if negb filtered then error None (Some p) (Some pattern)
              else
                (match fd with Some fd => leave_netns_or_exit fd;; release fd | None => ret tt end);;
                do c <- acquire KMem;
                match c with
                | None => libpcap_error false None None (Some p) (Some pattern)
                | Some c =>
                    do interface <- acquire KMem;
                    match interface with
                    | None => libpcap_error false None (Some (c, None, None)) (Some p) (Some pattern)
                    | Some interface =>
                        do netns <- acquire KMem;
                        match netns with
                        | None => libpcap_error false None (Some (c, Some interface, None)) (Some p) (Some pattern)
                        | Some netns => ret (Some (ObjLibpcap c interface netns pattern p))
                        end
                    end
                end
      end
  end.

Definition libpcap_capturer_new (opts : CapturerOpts) : M (option capturer_obj) :=
  if String.eqb (cc_netns opts) EmptyString then libpcap_open opts None
  else
    do fd <- acquire KNetnsFd;
    match fd with
    | None => ret None
    | Some fd =>
        do ok <- enter_netns_by_path;
        if negb ok then libpcap_error false (Some fd) None None None else libpcap_open opts (Some fd)
    end.

Definition pcap_file_capturer_new (opts : CapturerOpts) : M (option capturer_obj) :=
  do pattern <- req_pattern_new_from_cfg (cc_req_pattern opts) EmptyString;
  match pattern with
  | None => ret None
  | Some pattern =>
      do p <- acquire KPcap;
      match p with
      | None => req_pattern_destroy pattern;; ret None
      | Some p =>
          do filtered <- install_filter (cc_bpf_filter opts) p;
          if negb filtered then (release p;; req_pattern_destroy pattern;; ret None)
          else
            do c <- acquire KMem;
            match c with
            | None => release p;; req_pattern_destroy pattern;; ret None
            | Some c => ret (Some (ObjPcapFile c pattern p))
            end
      end
  end.

(** The filter text is made first and freed last; the filter without the
    output hosts is a copy of the configured one. *)
Definition new_from_cfg (new : CapturerOpts -> M (option capturer_obj)) (opts : CapturerOpts) : M (option capturer_obj) :=
  do text <- acquire KMem;
  match text with
  | None => ret None
  | Some text => do c <- new opts; release text;; ret c
  end.

Definition libpcap_capture_new_from_cfg : CapturerOpts -> M (option capturer_obj) := new_from_cfg libpcap_capturer_new.
Definition pcap_file_capture_new_from_cfg : CapturerOpts -> M (option capturer_obj) := new_from_cfg pcap_file_capturer_new.

(** [find_capturer_factory] and the call of the factory; the last entry of
    the table is there in a build with [ENABLE_DPDK]. *)
Definition capturer_new (enable_dpdk : bool) (opts : CapturerOpts) : M (option capturer_obj) :=
  if String.eqb (cc_type opts) "libpcap" then libpcap_capture_new_from_cfg opts
  else if String.eqb (cc_type opts) "pcap_file" then pcap_file_capture_new_from_cfg opts
  else if enable_dpdk && String.eqb (cc_type opts) "dpdk_pdump" then
    do c <- dpdk_capture_new_from_cfg (cc_req_pattern opts) (cc_interface opts) (cc_bpf_filter opts) (cc_ring_size opts);
    ret (ObjDpdk <$> c)
  else ret None.

(** ** Tasks *)

Record task_obj := TaskObj {
  t_mem : handle; t_capturer : option capturer_obj; t_array : option handle; t_outputs : list output_obj;
}.

Fixpoint destroy_outputs (outs : list output_obj) : M unit :=
  match outs with [] => ret tt | o :: outs => destroy_output o;; destroy_outputs outs end.

Definition capture_task_destroy (t : task_obj) : M unit :=
  (match t_capturer t with Some c => destroy_capturer c | None => ret tt end);;
  destroy_outputs (t_outputs t);;
  release_opt (t_array t);;
  release (t_mem t).

(** The [for] over the configured outputs; [false]: go to [error]. *)
Fixpoint create_outputs (opts : list OutputOpts) (outs : list output_obj) : M (bool * list output_obj) :=
  match opts with
  | [] => ret (true, outs)
  | o :: opts =>
      do out <- output_new o;
      match out with None => ret (false, outs) | Some out => create_outputs opts (outs ++ [out]) end
  end.

Definition capture_task_new (enable_dpdk : bool) (copts : CapturerOpts) (outputs : list OutputOpts) : M (option task_obj) :=
  do task <- acquire KMem;
  match task with
  | None => ret None
  | Some task =>
      do capturer <- capturer_new enable_dpdk copts;
      match capturer with
      | None => capture_task_destroy (TaskObj task None None []);; ret None
      | Some capturer =>
          do array <- acquire KMem;
          if bool_decide (array = None) && negb (bool_decide (outputs = [])) then
            capture_task_destroy (TaskObj task (Some capturer) None []);; ret None
          else
            do r <- create_outputs outputs [];
            let t := TaskObj task (Some capturer) array (snd r) in
            if fst r : bool then ret (Some t) else (capture_task_destroy t;; ret None)
      end
  end.

(** ** What the objects hold *)

Definition output_foot (o : output_obj) : gmultiset handle :=
  match o with
  | ObjNull o => {[+ o +]}
  | ObjFile o pcap dumper => {[+ o +]} ⊎ {[+ pcap +]} ⊎ {[+ dumper +]}
  | ObjRotating o pcap root dumper => {[+ o +]} ⊎ {[+ pcap +]} ⊎ opt_foot root ⊎ opt_foot dumper
  | ObjGre o socket | ObjVxlan o socket => {[+ o +]} ⊎ {[+ socket +]}
  | ObjZmq o context pusher _ => {[+ o +]} ⊎ {[+ context +]} ⊎ {[+ pusher +]}
  end.

Definition capturer_foot (c : capturer_obj) : gmultiset handle :=
  match c with
  | ObjLibpcap c interface netns pattern p => {[+ c +]} ⊎ {[+ interface +]} ⊎ {[+ netns +]} ⊎ pattern_foot pattern ⊎ {[+ p +]}
  | ObjPcapFile c pattern p => {[+ c +]} ⊎ pattern_foot pattern ⊎ {[+ p +]}
  | ObjDpdk c => dpdk_foot c
  end.

(** The footprints unfold. *)
Ltac same_resources := cbn [output_foot capturer_foot]; same_handles.
Ltac lives := repeat life_step; try (split; [done|first [same_resources|split; [done|same_resources]]]).

(** As [constructs] and [destructs], for objects that are [ok]. *)
Definition builds {O : Type} (ok : O -> Prop) (e : permit) (foot : O -> gmultiset handle) (m : M (option O)) : Prop :=
  forall H, tri e H false m (fun r H' n => n = false /\ match r with Some o => ok o /\ H' = H ⊎ foot o | None => H' = H end).
Definition demolishes {O : Type} (ok : O -> Prop) (foot : O -> gmultiset handle) (d : O -> M unit) : Prop :=
  forall e o H, ok o -> tri e (H ⊎ foot o) false (d o) (fun _ H' n => n = false /\ H' = H).

(** Not a DPDK capturer. *)
Definition plain (c : capturer_obj) : Prop := match c with ObjDpdk _ => False | _ => True end.

Lemma null_new_ok (e : permit) : constructs e output_foot null_output_new.
Proof. intros H. unfold null_output_new. lives. Qed.

Lemma file_new_ok (e : permit) : faults e StreamClosedTwice = true -> constructs e output_foot file_output_new.
Proof. intros He H. unfold file_output_new, pcap_dump_fopen, fclose. lives. Qed.

Lemma rotating_new_ok (e : permit) : constructs e output_foot rotating_file_output_new.
Proof. intros H. unfold rotating_file_output_new. lives. Qed.

Lemma gre_new_ok (e : permit) (opts : OutputOpts) : constructs e output_foot (gre_output_new opts).
Proof. intros H. unfold gre_output_new, socket_output_new. lives. Qed.

Lemma vxlan_new_ok (e : permit) (opts : OutputOpts) : constructs e output_foot (vxlan_output_new opts).
Proof. intros H. unfold vxlan_output_new, socket_output_new. lives. Qed.

Lemma zmq_new_ok (e : permit) (opts : OutputOpts) : constructs e output_foot (zmq_output_new opts).
Proof. intros H. unfold zmq_output_new. lives. Qed.

(** An output whose constructor gives its file to the library. *)
Definition to_file (opts : OutputOpts) : bool := String.eqb (oc_type opts) "file".

Lemma output_new_ok (e : permit) (opts : OutputOpts) :
  (to_file opts = true -> faults e StreamClosedTwice = true) -> constructs e output_foot (output_new opts).
Proof.
  intros He. unfold output_new. repeat case_match.
  - by apply file_new_ok, He.
  - apply rotating_new_ok.
  - apply zmq_new_ok.
  - apply gre_new_ok.
  - apply vxlan_new_ok.
  - apply null_new_ok.
  - intros H'. lives.
Qed.

Lemma destroy_output_ok : destructs output_foot destroy_output.
Proof.
  intros e [| |? ? [|] [|]| | |] H; cbn [destroy_output output_foot opt_foot];
  unfold null_output_destroy, file_output_destroy, rotating_file_output_destroy, gre_output_destroy, vxlan_output_destroy, zmq_output_destroy; lives.
Qed.

Lemma destroy_capturer_ok : demolishes plain capturer_foot destroy_capturer.
Proof.
  intros e [| |] H Hp; [| |done]; cbn [destroy_capturer capturer_foot]; unfold libpcap_capturer_destroy, pcap_file_capturer_destroy; lives.
Qed.

Lemma install_filter_ok (e : permit) (bpf : string) (p : handle) (H H' : gmultiset handle) (n : bool) :
  Removes H p H' -> tri e H n (install_filter bpf p) (fun _ H1 n1 => n1 = n /\ H1 = H).
Proof.
  intros Hr. unfold install_filter. destruct (String.eqb _ _); [lives|].
  life_step. life_step; [|lives]. unfold Removes in Hr. subst H. lives.
Qed.

Lemma file_capturer_ok (e : permit) (opts : CapturerOpts) :
  (custom (cc_req_pattern opts) = true -> faults e NullWrite = true) -> builds plain e capturer_foot (pcap_file_capturer_new opts).
Proof.
  intros He H. unfold pcap_file_capturer_new. life_step. life_step; [|lives]. life_step. life_step; [|lives].
  life_step. eapply tri_mono; [eapply install_filter_ok; apply _|]. intros b H' n' [-> ->]. lives.
Qed.

Lemma libpcap_open_ok (e : permit) (opts : CapturerOpts) (H : gmultiset handle) (fd : option handle) :
  (is_Some fd -> exits e = true) -> (custom (cc_req_pattern opts) = true -> faults e NullWrite = true) ->
  tri e (H ⊎ opt_foot fd) (bool_decide (is_Some fd)) (libpcap_open opts fd)
    (fun r H' n => n = false /\ match r with Some o => plain o /\ H' = H ⊎ capturer_foot o | None => H' = H end).
Proof.
  intros Hexit Hnull. unfold libpcap_open, libpcap_error, leave_netns_or_exit, destroy_pattern_opt.
  destruct fd as [fd|]; cbn [opt_foot]; cbn [bool_decide decide_rel is_Some_dec].
  all: repeat (life_step || (eapply tri_mono; [eapply install_filter_ok; apply _|]; intros ? ? ? [-> ->])).
  all: split; [done|first [same_resources|split; [done|same_resources]]].
Qed.

Lemma libpcap_capturer_ok (e : permit) (opts : CapturerOpts) :
  (cc_netns opts <> EmptyString -> exits e = true) -> (custom (cc_req_pattern opts) = true -> faults e NullWrite = true) ->
  builds plain e capturer_foot (libpcap_capturer_new opts).
Proof.
  intros Hexit Hnull H. unfold libpcap_capturer_new. destruct (String.eqb_spec (cc_netns opts) EmptyString) as [|Hn].
  - pose proof (libpcap_open_ok e opts H None ltac:(by intros []) Hnull) as Ho. cbn [opt_foot] in Ho.
    replace (H ⊎ ∅) with H in Ho by same_resources. exact Ho.
  - unfold enter_netns_by_path, libpcap_error, destroy_pattern_opt. life_step. life_step; [|lives].
    repeat lazymatch goal with |- tri _ _ _ (libpcap_open _ _) _ => fail | _ => life_step end.
    all: try (split; [done|same_resources]). exact (libpcap_open_ok e opts H (Some (_, KNetnsFd)) (fun _ => Hexit Hn) Hnull).
Qed.

Lemma new_from_cfg_ok (e : permit) (new : CapturerOpts -> M (option capturer_obj)) (opts : CapturerOpts) :
  builds plain e capturer_foot (new opts) -> builds plain e capturer_foot (new_from_cfg new opts).
Proof.
  intros Hn H. unfold new_from_cfg. life_step. life_step; [|lives]. life_step. eapply tri_mono; [apply Hn|].
  intros [o|] H' n' [-> Hr]; [destruct Hr as [Ho ->]|subst H']; life_step; eapply tri_release.
  - apply removes_left. apply _.
  - lives.
  - apply _.
  - lives.
Qed.

(** How the creation of a task can end: it cannot return from a namespace;
    it is short of memory for a custom pattern; it loses a file to the
    library. *)
Definition task_permit (copts : CapturerOpts) (opts : list OutputOpts) : permit :=
  Permit (negb (String.eqb (cc_netns copts) EmptyString))
    (fun f => match f with
              | NullWrite => custom (cc_req_pattern copts)
              | StreamClosedTwice => existsb to_file opts
              | _ => false
              end).

(** The capturer is not one of DPDK. *)
Definition no_dpdk (enable_dpdk : bool) (copts : CapturerOpts) : bool := negb (enable_dpdk && String.eqb (cc_type copts) "dpdk_pdump").

Lemma capturer_new_ok (e : permit) (enable_dpdk : bool) (opts : CapturerOpts) (outs : list OutputOpts) :
  permits (task_permit opts outs) e -> no_dpdk enable_dpdk opts = true -> builds plain e capturer_foot (capturer_new enable_dpdk opts).
Proof.
  intros [Hexit Hfault] Hd. unfold capturer_new. unfold no_dpdk in Hd. apply negb_true_iff in Hd. rewrite Hd.
  assert (cc_netns opts <> EmptyString -> exits e = true) as Hn.
  { intros Hne. apply Hexit. cbn. by destruct (String.eqb_spec (cc_netns opts) EmptyString). }
  repeat case_match.
  - apply new_from_cfg_ok, libpcap_capturer_ok; [done|apply (Hfault NullWrite)].
  - apply new_from_cfg_ok, file_capturer_ok, (Hfault NullWrite).
  - intros H'. lives.
Qed.

(** *** Tasks *)

Fixpoint outputs_foot (outs : list output_obj) : gmultiset handle :=
  match outs with [] => ∅ | o :: outs => output_foot o ⊎ outputs_foot outs end.

Definition task_foot (t : task_obj) : gmultiset handle :=
  {[+ t_mem t +]} ⊎ match t_capturer t with Some c => capturer_foot c | None => ∅ end ⊎
  opt_foot (t_array t) ⊎ outputs_foot (t_outputs t).

Lemma outputs_foot_app (outs1 outs2 : list output_obj) :
  outputs_foot (outs1 ++ outs2) = outputs_foot outs1 ⊎ outputs_foot outs2.
Proof. induction outs1 as [|o outs IH]; cbn [outputs_foot app]; [same_resources|]. rewrite IH. same_resources. Qed.

Lemma destroy_outputs_ok : destructs outputs_foot destroy_outputs.
Proof.
  intros e outs. induction outs as [|o outs IH]; intros H; cbn [destroy_outputs outputs_foot].
  - apply tri_ret. split; [done|same_resources].
  - apply tri_bind. replace (H ⊎ (output_foot o ⊎ outputs_foot outs)) with ((H ⊎ outputs_foot outs) ⊎ output_foot o)
      by same_resources.
    eapply tri_mono; [apply destroy_output_ok|]. intros _ H' n' [-> ->]. apply IH.
Qed.

(** The task does not capture with DPDK. *)
Definition task_plain (t : task_obj) : Prop := match t_capturer t with Some c => plain c | None => True end.

Lemma task_destroy_ok : demolishes task_plain task_foot capture_task_destroy.
Proof.
  intros e [mem c array outs] H Hp. unfold task_plain in Hp. cbn [t_capturer] in Hp. unfold capture_task_destroy, task_foot. cbn [t_mem t_capturer t_array t_outputs].
  apply tri_bind.
  set (rest := H ⊎ ({[+ mem +]} ⊎ opt_foot array ⊎ outputs_foot outs)).
  assert (tri e rest false (destroy_outputs outs;; release_opt array;; release mem) (fun _ H' n => n = false /\ H' = H)) as Hrest.
  { apply tri_bind. replace rest with ((H ⊎ ({[+ mem +]} ⊎ opt_foot array)) ⊎ outputs_foot outs)
      by (unfold rest; same_resources).
    eapply tri_mono; [apply destroy_outputs_ok|]. intros _ H' n' [-> ->]. destruct array; cbn [opt_foot]; lives. }
  destruct c as [c|].
  - replace (H ⊎ _) with (rest ⊎ capturer_foot c) by (unfold rest; same_resources).
    eapply tri_mono; [by apply destroy_capturer_ok|]. by intros _ H' n' [-> ->].
  - apply tri_ret. replace (H ⊎ _) with rest by (unfold rest; same_resources). exact Hrest.
Qed.

Lemma create_outputs_ok (e : permit) (opts : list OutputOpts) (outs : list output_obj) (H : gmultiset handle) :
  (existsb to_file opts = true -> faults e StreamClosedTwice = true) ->
  tri e (H ⊎ outputs_foot outs) false (create_outputs opts outs)
    (fun r H' n => n = false /\ H' = H ⊎ outputs_foot (snd r)).
Proof.
  revert outs. induction opts as [|o opts IH]; intros outs He; cbn [create_outputs]; [by apply tri_ret|]. cbn [existsb] in He.
  apply tri_bind. eapply tri_mono; [apply output_new_ok; intros E; apply He; by rewrite E|]. intros [out|] H' n' [-> ->]; [|by apply tri_ret].
  replace (H ⊎ outputs_foot outs ⊎ output_foot out) with (H ⊎ outputs_foot (outs ++ [out])); [apply IH; intros E; apply He; by rewrite E, orb_true_r|].
  rewrite outputs_foot_app. cbn [outputs_foot]. same_resources.
Qed.

Lemma task_new_ok (e : permit) (enable_dpdk : bool) (copts : CapturerOpts) (opts : list OutputOpts) :
  permits (task_permit copts opts) e -> no_dpdk enable_dpdk copts = true -> builds task_plain e task_foot (capture_task_new enable_dpdk copts opts).
Proof.
  intros He Hd H. unfold capture_task_new. apply tri_bind, tri_acquire; [intros a|by apply tri_ret].
  assert (forall t H', task_plain t -> H' = H ⊎ task_foot t ->
    tri e H' false (capture_task_destroy t;; ret None)
      (fun (r : option task_obj) H' n => n = false /\ match r with Some o => task_plain o /\ H' = H ⊎ task_foot o | None => H' = H end)) as Hfail.
  { intros t H' Ht ->. apply tri_bind. eapply tri_mono; [by apply task_destroy_ok|]. intros _ H1 n1 [-> ->]. by apply tri_ret. }
  apply tri_bind. eapply tri_mono; [by eapply capturer_new_ok|]. intros [c|] H1 n1 [-> Hc]; [destruct Hc as [Hc ->]|subst H1].
  2: { apply Hfail; [done|]. unfold task_foot. cbn [t_mem t_capturer t_array t_outputs opt_foot outputs_foot]. same_resources. }
  apply tri_bind.
  assert (forall array,
    tri e (H ⊎ {[+ (a, KMem) +]} ⊎ capturer_foot c ⊎ opt_foot array) false
      (do r <- create_outputs opts []; 
       if fst r : bool then ret (Some (TaskObj (a, KMem) (Some c) array (snd r)))
       else (capture_task_destroy (TaskObj (a, KMem) (Some c) array (snd r));; ret None))
      (fun r H' n => n = false /\ match r with Some o => task_plain o /\ H' = H ⊎ task_foot o | None => H' = H end)) as Hloop.
  { intros array. apply tri_bind. replace (_ ⊎ opt_foot array) with
      ((H ⊎ {[+ (a, KMem) +]} ⊎ capturer_foot c ⊎ opt_foot array) ⊎ outputs_foot []) by (cbn [outputs_foot]; same_resources).
    eapply tri_mono; [apply create_outputs_ok, (proj2 He StreamClosedTwice)|]. intros [[|] outs] H1 n1 [-> ->]; cbn [fst snd].
    - apply tri_ret. split; [done|]. split; [done|]. unfold task_foot. cbn [t_mem t_capturer t_array t_outputs]. same_resources.
    - apply Hfail; [done|]. unfold task_foot. cbn [t_mem t_capturer t_array t_outputs]. same_resources. }
  apply tri_acquire.
  - intros b. exact (Hloop (Some (b, KMem))).
  - destruct (bool_decide (opts = [])); cbn [negb andb bool_decide].
    + rewrite andb_false_r. pose proof (Hloop None) as Hl. cbn [opt_foot] in Hl.
      replace (H ⊎ {[+ (a, KMem) +]} ⊎ capturer_foot c ⊎ ∅) with (H ⊎ {[+ (a, KMem) +]} ⊎ capturer_foot c) in Hl by same_resources.
      exact Hl.
    + rewrite andb_true_r, bool_decide_eq_true_2 by done. apply Hfail; [done|]. unfold task_foot.
      cbn [t_mem t_capturer t_array t_outputs opt_foot outputs_foot]. same_resources.
Qed.

(** ** Theorems *)

(** C9: creating a task without DPDK, whichever allocation, file, socket,
    library handle or option fails on the way.  It can end in three ways
    other than by answering, each only for a task that has what it takes: the
    process exits when a network namespace cannot be left; the result of a
    [malloc] the pattern parser does not check is written through, for a
    custom pattern; a stream is closed twice when libpcap closed it before
    it reported a failure, for an output to a file.  Otherwise it never leaks
    and never frees twice: a failed creation leaves exactly the resources
    held before, in the namespace the thread was in; after a successful one,
    destroying the task gives back exactly what the creation acquired. *)
Theorem task_lifecycle (enable_dpdk : bool) (copts : CapturerOpts) (opts : list OutputOpts) (st : store) :
  in_netns st = false -> no_dpdk enable_dpdk copts = true ->
  match capture_task_new enable_dpdk copts opts st with
  | UB => False
  | Exit => cc_netns copts <> EmptyString
  | Fault f => (f = NullWrite /\ custom (cc_req_pattern copts) = true) \/ (f = StreamClosedTwice /\ existsb to_file opts = true)
  | Ret None st' => held st' = held st /\ in_netns st' = false
  | Ret (Some t) st' =>
      in_netns st' = false /\
      match capture_task_destroy t st' with
      | Ret _ st'' => held st'' = held st /\ in_netns st'' = false
      | Exit | Fault _ | UB => False
      end
  end.
Proof.
  intros Hn Hd. pose proof (task_new_ok _ enable_dpdk copts opts (permits_refl _) Hd (held st) st eq_refl Hn) as H.
  destruct (capture_task_new enable_dpdk copts opts st) as [[t|] st'| |f|]; [|by destruct H| | |done].
  - destruct H as (Hn' & Ht & Hh). split; [done|]. pose proof (task_destroy_ok no_permit t (held st) Ht st' Hh Hn') as Hx.
    destruct (capture_task_destroy t st') as [[] st''| |f|]; [by destruct Hx|done..].
  - cbn in H. by destruct (String.eqb_spec (cc_netns copts) EmptyString).
  - destruct f; cbn in H; try done; auto.
Qed.

(** *** Witness *)

(** A host that answers for the interface. *)
Definition demo_lookups : lookups :=
  Lookups (fun _ => Some 16777343%Z) (fun _ => None) (fun _ => None) (fun _ => Some [2; 0; 0; 0; 0; 1]%Z).
Definition demo_pattern : PatternOpts :=
  PatternOptions {| cfg_type := "custom"; cfg_pattern := "host 127.0.0.1 and (port 80 or port 443)" |} demo_lookups.
Definition demo_copts : CapturerOpts := CapturerOptions "libpcap" "/run/netns/x" "tcp" false 0 true "eth0" demo_pattern 0.
Definition demo_outputs : list OutputOpts :=
  [OutputOptions "vxlan" [] "eth0" 1; OutputOptions "rotating_file" [] EmptyString (-1); OutputOptions "zmq" [] EmptyString (-1)].

(** A late step fails. *)
Definition demo_store : store := Store ∅ 0 (replicate 38 true ++ [false]) false.

Lemma task_lifecycle_witness :
  match capture_task_new true demo_copts demo_outputs demo_store with
  | Ret None st' => held st' = ∅
  | _ => False
  end.
Proof.
  pose proof (task_lifecycle true demo_copts demo_outputs demo_store eq_refl eq_refl) as H.
  destruct (capture_task_new true demo_copts demo_outputs demo_store) as [[t|] st'| |f|] eqn:E.
  - exfalso. vm_compute in E. discriminate.
  - exact (proj1 H).
  - vm_compute in E. discriminate.
  - vm_compute in E. discriminate.
  - exact H.
Defined.

(** The two faults. *)
Example pattern_out_of_memory :
  capture_task_new false demo_copts demo_outputs (Store ∅ 0 (replicate 8 true ++ [false]) false) = Fault NullWrite.
Proof. vm_compute. reflexivity. Qed.

Example file_closed_twice :
  output_new (OutputOptions "file" [] EmptyString (-1)) (Store ∅ 0 [true; true; false; true] false) = Fault StreamClosedTwice.
Proof. vm_compute. reflexivity. Qed.
