(* ===== verification/TaskManager.v ===== *)
(** * The task manager and the start and end of the process (task.c, main.c)

    The manager creates a task per configured task, keeps a record of those
    that could not be created, and is destroyed when the process ends; two
    threads use it in between.  The model is the one of the tasks: resources
    that are held, every acquisition may fail, giving back what is not held
    is undefined behaviour, and the known faults of the code have a name.
    What happens between the start and the end is in other files: the rounds
    of the main loop at the end of this one, the packets in [Capture] and
    [Pipeline], the reloads and the threads that make them in [Reload]. *)

From Stdlib Require Import Ascii String.
From stdpp Require Import prelude list strings gmultiset sorting.
From S2P Require Import Prelude ZmqFormat PacketDir Resources Dpdk Lifecycle.

(** ** Wrappers and error records *)

(** [to_fingerprint]: the task of the configuration has a fingerprint. *)
Record TaskOpts := TaskOptions { to_capturer : CapturerOpts; to_outputs : list OutputOpts; to_fingerprint : bool }.

Record task_t := Task { t_index : nat; t_node : handle; t_fingerprint : option handle; t_task : task_obj }.
Record task_error_t := TaskError { e_index : nat; e_node : handle; e_fingerprint : option handle }.

Definition free_task (t : task_t) : M unit := release_opt (t_fingerprint t);; release (t_node t).
Definition free_task_error (e : task_error_t) : M unit := release_opt (e_fingerprint e);; release (e_node e).

(** The node and the copy of the fingerprint, or nothing. *)
Definition new_node (fingerprint : bool) : M (option (handle * option handle)) :=
  do t <- acquire KMem;
  match t with
  | None => ret None
  | Some t =>
      if fingerprint then
        do fp <- acquire KMem;
        match fp with
        | None => release t;; ret None
        | Some fp => ret (Some (t, Some fp))
        end
      else ret (Some (t, None))
  end.

Definition task_wrapper_new (index : nat) (fingerprint : bool) (cap_task : task_obj) : M (option task_t) :=
  do n <- new_node fingerprint;
  ret ((fun n => Task index n.1 n.2 cap_task) <$> n).

Definition task_error_new (index : nat) (fingerprint : bool) : M (option task_error_t) :=
  do n <- new_node fingerprint;
  ret ((fun n => TaskError index n.1 n.2) <$> n).

(** ** The manager *)

(** The ring is its struct and its buffer. *)
Record task_manager_t := TaskManager {
  ring : option (handle * handle); alloc : option handle; config : handle; tasks : handle; errors : handle;
  task_list : list task_t; error_list : list task_error_t;
}.

Definition spsc_ring_create : M (option (handle * handle)) :=
  do r <- acquire KMem;
  match r with
  | None => ret None
  | Some r =>
      do buf <- acquire KMem;
      match buf with
      | None => release r;; ret None
      | Some buf => ret (Some (r, buf))
      end
  end.

Definition spsc_ring_destroy (r : handle * handle) : M unit := release r.2;; release r.1.

Definition release_ring (r : option (handle * handle)) : M unit :=
  match r with Some r => spsc_ring_destroy r | None => ret tt end.

Fixpoint destroy_tasks (l : list task_t) : M unit :=
  match l with [] => ret tt | t :: l => capture_task_destroy (t_task t);; free_task t;; destroy_tasks l end.

Fixpoint destroy_errors (l : list task_error_t) : M unit :=
  match l with [] => ret tt | e :: l => free_task_error e;; destroy_errors l end.

Definition task_manager_destroy (this : task_manager_t) : M unit :=
  destroy_tasks (task_list this);;
  destroy_errors (error_list this);;
  release (config this);;
  release (tasks this);;
  release (errors this);;
  release_ring (ring this);;
  release_opt (alloc this).

Definition add_task (t : task_t) (m : task_manager_t) : task_manager_t :=
  TaskManager (ring m) (alloc m) (config m) (tasks m) (errors m) (task_list m ++ [t]) (error_list m).
Definition add_error (e : task_error_t) (m : task_manager_t) : task_manager_t :=
  TaskManager (ring m) (alloc m) (config m) (tasks m) (errors m) (task_list m) (error_list m ++ [e]).

(** The loop over the configured tasks, from index [i]; [None] is the return
    of -1, after the manager was destroyed. *)
Fixpoint create_tasks (enable_dpdk : bool) (i : nat) (cfgs : list TaskOpts) (this : task_manager_t) : M (option task_manager_t) :=
  match cfgs with
  | [] => ret (Some this)
  | c :: cfgs =>
      do cap_task <- capture_task_new enable_dpdk (to_capturer c) (to_outputs c);
      match cap_task with
      | None =>
          do error <- task_error_new i (to_fingerprint c);
          match error with
          | None => task_manager_destroy this;; ret None
          | Some error => create_tasks enable_dpdk (S i) cfgs (add_error error this)
          end
      | Some cap_task =>
          do task <- task_wrapper_new i (to_fingerprint c) cap_task;
          match task with
          | None => capture_task_destroy cap_task;; task_manager_destroy this;; ret None
          | Some task => create_tasks enable_dpdk (S i) cfgs (add_task task this)
          end
      end
  end.

(** The ring and the allocator of the pipeline model: [None] is a failure. *)
Definition create_pipeline (pipeline : bool) : M (option (option (handle * handle) * option handle)) :=
  if pipeline then
    do ring <- spsc_ring_create;
    match ring with
    | None => ret None
    | Some ring =>
        do alloc <- acquire KMem;
        match alloc with
        | None => spsc_ring_destroy ring;; ret None
        | Some alloc => ret (Some (Some ring, Some alloc))
        end
    end
  else ret (Some (None, None)).

(** [inl true]: the return of -1 with the configuration freed; [inl false]:
    with the configuration as it was. *)
Definition task_manager_new (enable_dpdk pipeline : bool) (cfgs : list TaskOpts) (config : handle) : M (bool + task_manager_t) :=
  do p <- create_pipeline pipeline;
  match p with
  | None => ret (inl false)
  | Some (ring, alloc) =>
      do tasks <- acquire KMem;
      match tasks with
      | None => release_ring ring;; release_opt alloc;; ret (inl false)
      | Some tasks =>
          do errors <- acquire KMem;
          match errors with
          | None => release tasks;; release_ring ring;; release_opt alloc;; ret (inl false)
          | Some errors =>
              do r <- create_tasks enable_dpdk 0 cfgs (TaskManager ring alloc config tasks errors [] []);
              ret (match r with None => inl true | Some this => inr this end)
          end
      end
  end.

(** ** Footprints *)

Definition task_t_foot (t : task_t) : gmultiset handle := {[+ t_node t +]} ⊎ opt_foot (t_fingerprint t) ⊎ task_foot (t_task t).
Definition error_foot (e : task_error_t) : gmultiset handle := {[+ e_node e +]} ⊎ opt_foot (e_fingerprint e).
Definition ring_foot (r : option (handle * handle)) : gmultiset handle :=
  match r with Some r => {[+ r.1 +]} ⊎ {[+ r.2 +]} | None => ∅ end.

Fixpoint tasks_foot (l : list task_t) : gmultiset handle := match l with [] => ∅ | t :: l => task_t_foot t ⊎ tasks_foot l end.
Fixpoint errors_foot (l : list task_error_t) : gmultiset handle := match l with [] => ∅ | e :: l => error_foot e ⊎ errors_foot l end.

(** Without the configuration. *)
Definition manager_foot (m : task_manager_t) : gmultiset handle :=
  ring_foot (ring m) ⊎ opt_foot (alloc m) ⊎ {[+ tasks m +]} ⊎ {[+ errors m +]} ⊎ tasks_foot (task_list m) ⊎ errors_foot (error_list m).

Lemma tasks_foot_snoc l t : tasks_foot (l ++ [t]) = tasks_foot l ⊎ task_t_foot t.
Proof. induction l as [|x l IH]; cbn [tasks_foot app]; [same_handles|]. rewrite IH. same_handles. Qed.

Lemma errors_foot_snoc l t : errors_foot (l ++ [t]) = errors_foot l ⊎ error_foot t.
Proof. induction l as [|x l IH]; cbn [errors_foot app]; [same_handles|]. rewrite IH. same_handles. Qed.

(** No task captures with DPDK. *)
Definition manager_plain (m : task_manager_t) : Prop := Forall (fun t => task_plain (t_task t)) (task_list m).

(** A destructor among other handles. *)
Lemma tri_demolishes {O : Type} (ok : O -> Prop) (foot : O -> gmultiset handle) (d : O -> M unit) (e : permit) (o : O) (H H' : gmultiset handle) (Q : unit -> gmultiset handle -> bool -> Prop) :
  demolishes ok foot d -> ok o -> H' = H ⊎ foot o -> Q tt H false -> tri e H' false (d o) Q.
Proof. intros Hd Ho -> HQ. eapply tri_mono; [by apply Hd|]. by intros [] h n [-> ->]. Qed.
Lemma tri_destructs {O : Type} (foot : O -> gmultiset handle) (d : O -> M unit) (e : permit) (o : O) (H H' : gmultiset handle) (Q : unit -> gmultiset handle -> bool -> Prop) :
  destructs foot d -> H' = H ⊎ foot o -> Q tt H false -> tri e H' false (d o) Q.
Proof. intros Hd -> HQ. eapply tri_mono; [apply Hd|]. by intros [] h n [-> ->]. Qed.

Lemma free_task_ok : destructs (fun t => {[+ t_node t +]} ⊎ opt_foot (t_fingerprint t)) free_task.
Proof. intros e [i n [f|] t] H; unfold free_task; cbn [t_node t_fingerprint opt_foot]; life. Qed.

Lemma free_error_ok : destructs error_foot free_task_error.
Proof. intros e [i n [f|]] H; unfold free_task_error, error_foot; cbn [e_node e_fingerprint opt_foot]; life. Qed.

Lemma destroy_tasks_ok : demolishes (Forall (fun t => task_plain (t_task t))) tasks_foot destroy_tasks.
Proof.
  intros e l. induction l as [|t l IH]; intros H Hl; cbn [destroy_tasks tasks_foot]; [apply tri_ret; split; [done|same_handles]|].
  apply Forall_cons in Hl as [Ht Hl]. apply tri_bind. apply (tri_demolishes task_plain task_foot _ e (t_task t) (H ⊎ tasks_foot l ⊎ ({[+ t_node t +]} ⊎ opt_foot (t_fingerprint t))));
    [apply task_destroy_ok|done|unfold task_t_foot; same_handles|].
  apply tri_bind. apply (tri_destructs _ _ e t (H ⊎ tasks_foot l) _ _ free_task_ok); [done|]. by apply IH.
Qed.

Lemma destroy_errors_ok : destructs errors_foot destroy_errors.
Proof.
  intros e l. induction l as [|t l IH]; intros H; cbn [destroy_errors errors_foot]; [apply tri_ret; split; [done|same_handles]|].
  apply tri_bind. apply (tri_destructs _ _ e t (H ⊎ errors_foot l) _ _ free_error_ok); [same_handles|]. apply IH.
Qed.

Lemma release_ring_ok : destructs ring_foot release_ring.
Proof. intros e [[r b]|] H; cbn [release_ring ring_foot]; unfold spsc_ring_destroy; cbn [fst snd]; life. Qed.

Lemma manager_destroy_ok : demolishes manager_plain (fun m => {[+ config m +]} ⊎ manager_foot m) task_manager_destroy.
Proof.
  intros e m H Hm. unfold task_manager_destroy, manager_foot. set (tf := tasks_foot (task_list m)). set (ef := errors_foot (error_list m)).
  set (rf := ring_foot (ring m)). set (af := opt_foot (alloc m)). apply tri_bind.
  apply (tri_demolishes _ _ _ e _ (H ⊎ ef ⊎ rf ⊎ af ⊎ {[+ config m +]} ⊎ {[+ tasks m +]} ⊎ {[+ errors m +]}) _ _ destroy_tasks_ok); [done|fold tf; same_handles|].
  apply tri_bind. apply (tri_destructs _ _ e _ (H ⊎ rf ⊎ af ⊎ {[+ config m +]} ⊎ {[+ tasks m +]} ⊎ {[+ errors m +]}) _ _ destroy_errors_ok); [fold ef; same_handles|].
  do 6 life_step. apply tri_bind. apply (tri_destructs _ _ e _ (H ⊎ af) _ _ release_ring_ok); [fold rf; same_handles|].
  unfold af. destruct (alloc m); cbn [opt_foot]; life.
Qed.

Definition node_foot (n : handle * option handle) : gmultiset handle := {[+ n.1 +]} ⊎ opt_foot n.2.

Lemma new_node_ok (e : permit) (fp : bool) : constructs e node_foot (new_node fp).
Proof. intros H. unfold new_node, node_foot. destruct fp; life; (split; [done|cbn [fst snd]; same_handles]). Qed.

Lemma wrapper_new_ok (e : permit) (i : nat) (fp : bool) (t : task_obj) (H : gmultiset handle) (Q : option task_t -> gmultiset handle -> bool -> Prop) :
  (forall w, t_index w = i -> t_task w = t -> Q (Some w) (H ⊎ ({[+ t_node w +]} ⊎ opt_foot (t_fingerprint w))) false) -> Q None H false ->
  tri e H false (task_wrapper_new i fp t) Q.
Proof.
  intros H1 H2. apply tri_bind. eapply tri_mono; [apply new_node_ok|]. intros [[n f]|] h b [-> ->]; apply tri_ret; [|done].
  by apply (H1 (Task i n f t)).
Qed.

Lemma error_new_ok (e : permit) (i : nat) (fp : bool) (H : gmultiset handle) (Q : option task_error_t -> gmultiset handle -> bool -> Prop) :
  (forall w, e_index w = i -> Q (Some w) (H ⊎ error_foot w) false) -> Q None H false -> tri e H false (task_error_new i fp) Q.
Proof.
  intros H1 H2. apply tri_bind. eapply tri_mono; [apply new_node_ok|]. intros [[n f]|] h b [-> ->]; apply tri_ret; [|done].
  by apply (H1 (TaskError i n f)).
Qed.

(** How the creation of the tasks can end: as that of one of them. *)
Definition manager_permit (cfgs : list TaskOpts) : permit :=
  Permit (existsb (fun c => exits (task_permit (to_capturer c) (to_outputs c))) cfgs)
    (fun f => existsb (fun c => faults (task_permit (to_capturer c) (to_outputs c)) f) cfgs).

Lemma manager_permit_cons (c : TaskOpts) (cfgs : list TaskOpts) (e : permit) :
  permits (manager_permit (c :: cfgs)) e -> permits (task_permit (to_capturer c) (to_outputs c)) e /\ permits (manager_permit cfgs) e.
Proof.
  intros [H1 H2]. cbn [manager_permit exits faults existsb] in H1, H2. split; split.
  - intros E. apply H1. by rewrite E.
  - intros f E. apply H2. by rewrite E.
  - intros E. apply H1. cbn [manager_permit exits] in E. by rewrite E, orb_true_r.
  - intros f E. apply H2. cbn [manager_permit faults] in E. by rewrite E, orb_true_r.
Qed.

(** No task is one of DPDK. *)
Definition no_dpdk_tasks (enable_dpdk : bool) (cfgs : list TaskOpts) : bool := forallb (fun c => no_dpdk enable_dpdk (to_capturer c)) cfgs.

(** The configured tasks up to [n]: each one is a task or an error, both in
    the order of the configuration. *)
Definition listed (m : task_manager_t) (n : nat) : Prop :=
  (t_index <$> task_list m) ++ (e_index <$> error_list m) ≡ₚ seq 0 n /\
  StronglySorted lt (t_index <$> task_list m) /\ StronglySorted lt (e_index <$> error_list m).

Lemma sorted_snoc l n : StronglySorted lt l -> Forall (fun x => x < n)%nat l -> StronglySorted lt (l ++ [n]).
Proof.
  induction 1 as [|x l Hl IH Hx]; intros Hn; [by repeat constructor|]. inversion Hn; subst. cbn. constructor; [by apply IH|].
  apply Forall_app_2; [done|by constructor].
Qed.

Lemma listed_below m n : listed m n -> Forall (fun x => x < n)%nat (t_index <$> task_list m) /\ Forall (fun x => x < n)%nat (e_index <$> error_list m).
Proof.
  intros (Hp & _ & _). apply List.Forall_app. rewrite Hp. apply Forall_forall. intros x Hx. apply elem_of_seq in Hx. lia.
Qed.

Lemma listed_task m n t : t_index t = n -> listed m n -> listed (add_task t m) (S n).
Proof.
  intros Ht Hm. destruct (listed_below m n Hm) as [Hb _]. destruct Hm as (Hp & Hs1 & Hs2). unfold listed. cbn [task_list error_list add_task].
  rewrite fmap_app. cbn [fmap list_fmap]. rewrite Ht. split; [|split; [by apply sorted_snoc|done]].
  rewrite seq_S, <- Hp, <- !app_assoc. apply Permutation_app_head, (Permutation_app_comm [n]).
Qed.

Lemma listed_error m n t : e_index t = n -> listed m n -> listed (add_error t m) (S n).
Proof.
  intros Ht Hm. destruct (listed_below m n Hm) as [_ Hb]. destruct Hm as (Hp & Hs1 & Hs2). unfold listed. cbn [task_list error_list add_error].
  rewrite fmap_app. cbn [fmap list_fmap]. rewrite Ht. split; [|split; [done|by apply sorted_snoc]].
  by rewrite seq_S, <- Hp, <- !app_assoc.
Qed.

Definition created (H : gmultiset handle) (c : handle) (n : nat) (r : option task_manager_t) (H' : gmultiset handle) (ns : bool) : Prop :=
  ns = false /\
  match r with
  | None => H' = H
  | Some m => H' = H ⊎ ({[+ config m +]} ⊎ manager_foot m) /\ config m = c /\ listed m n /\ manager_plain m
  end.

Lemma create_tasks_ok (e : permit) (enable_dpdk : bool) (cfgs : list TaskOpts) (i : nat) (this : task_manager_t) (H : gmultiset handle) :
  permits (manager_permit cfgs) e -> no_dpdk_tasks enable_dpdk cfgs = true -> listed this i -> manager_plain this ->
  tri e (H ⊎ ({[+ config this +]} ⊎ manager_foot this)) false (create_tasks enable_dpdk i cfgs this) (created H (config this) (i + length cfgs)).
Proof.
  revert i this. induction cfgs as [|c cfgs IH]; intros i this He Hd Hi Hp; cbn [create_tasks length].
  - apply tri_ret. split; [done|]. split; [done|]. split; [done|]. by rewrite Nat.add_0_r.
  - apply manager_permit_cons in He as [Hc Hrest]. apply andb_true_iff in Hd as [Hdc Hd].
    rewrite Nat.add_succ_r, <- Nat.add_succ_l.
    assert (Hfail : tri e (H ⊎ ({[+ config this +]} ⊎ manager_foot this)) false (task_manager_destroy this;; ret None)
      (created H (config this) (S i + length cfgs))).
    { apply tri_bind. apply (tri_demolishes _ _ _ e this H _ _ manager_destroy_ok); [done|done|]. by apply tri_ret. }
    apply tri_bind. eapply tri_mono; [by apply task_new_ok|]. intros [t|] h n [-> Ht]; [destruct Ht as [Htp ->]|subst h].
    + apply tri_bind, wrapper_new_ok.
      * intros w Hw Ht. assert (manager_plain (add_task w this)) as Hp' by (apply Forall_app_2; [done|]; constructor; [by rewrite Ht|done]).
        pose proof (IH (S i) (add_task w this) Hrest Hd (listed_task _ _ _ Hw Hi) Hp') as Hn. cbn [config add_task] in Hn.
        replace (_ ⊎ _) with (H ⊎ ({[+ config this +]} ⊎ manager_foot (add_task w this))); [exact Hn|].
        unfold manager_foot. cbn [ring alloc tasks errors task_list error_list add_task]. rewrite tasks_foot_snoc. unfold task_t_foot. rewrite Ht. same_handles.
      * apply tri_bind. apply (tri_demolishes _ _ _ e t (H ⊎ ({[+ config this +]} ⊎ manager_foot this)) _ _ task_destroy_ok); [done|done|exact Hfail].
    + apply tri_bind, error_new_ok.
      * intros w Hw. pose proof (IH (S i) (add_error w this) Hrest Hd (listed_error _ _ _ Hw Hi) Hp) as Hn. cbn [config add_error] in Hn.
        replace (_ ⊎ _) with (H ⊎ ({[+ config this +]} ⊎ manager_foot (add_error w this))); [exact Hn|].
        unfold manager_foot. cbn [ring alloc tasks errors task_list error_list add_error]. rewrite errors_foot_snoc. same_handles.
      * exact Hfail.
Qed.

Definition pipeline_foot (p : option (handle * handle) * option handle) : gmultiset handle := ring_foot p.1 ⊎ opt_foot p.2.

Lemma create_pipeline_ok (e : permit) (b : bool) : constructs e pipeline_foot (create_pipeline b).
Proof.
  intros H. unfold create_pipeline, spsc_ring_create, spsc_ring_destroy, pipeline_foot. destruct b; life; cbn [fst snd];
    (split; [done|cbn [ring_foot fst snd]; same_handles]).
Qed.

(** What is left of the configuration when the manager was not created. *)
Definition config_left (freed : bool) (c : handle) : gmultiset handle := if freed then ∅ else {[+ c +]}.

Lemma manager_new_ok (e : permit) (enable_dpdk pipeline : bool) (cfgs : list TaskOpts) (c : handle) (H : gmultiset handle) :
  permits (manager_permit cfgs) e -> no_dpdk_tasks enable_dpdk cfgs = true ->
  tri e (H ⊎ {[+ c +]}) false (task_manager_new enable_dpdk pipeline cfgs c)
    (fun r H' n => n = false /\ match r with
       | inl freed => H' = H ⊎ config_left freed c
       | inr m => H' = H ⊎ ({[+ c +]} ⊎ manager_foot m) /\ config m = c /\ listed m (length cfgs) /\ manager_plain m
       end).
Proof.
  intros He Hd. unfold task_manager_new, config_left. apply tri_bind. eapply tri_mono; [apply create_pipeline_ok|].
  intros [[r a]|] h n [-> ->]; [|by apply tri_ret]. unfold pipeline_foot. cbn [fst snd]. apply tri_bind, tri_acquire.
  2:{ apply tri_bind. apply (tri_destructs _ _ e r (H ⊎ {[+ c +]} ⊎ opt_foot a) _ _ release_ring_ok); [same_handles|]. destruct a; cbn [opt_foot release_opt]; life. }
  intros t. apply tri_bind, tri_acquire.
  2:{ life_step. life_step. apply tri_bind. apply (tri_destructs _ _ e r (H ⊎ {[+ c +]} ⊎ opt_foot a) _ _ release_ring_ok); [same_handles|]. destruct a; cbn [opt_foot release_opt]; life. }
  intros er. apply tri_bind.
  pose proof (create_tasks_ok e enable_dpdk cfgs 0 (TaskManager r a c (t, KMem) (er, KMem) [] []) H He Hd) as Hc. cbn [config Nat.add] in Hc.
  eapply tri_mono; [replace (_ ⊎ _) with (H ⊎ ({[+ c +]} ⊎ manager_foot (TaskManager r a c (t, KMem) (er, KMem) [] []))); [apply Hc|]|].
  - split; [done|]. split; constructor.
  - constructor.
  - unfold manager_foot. cbn [ring alloc tasks errors task_list error_list tasks_foot errors_foot]. same_handles.
  - intros [m|] h n [-> Hr]; apply tri_ret; (split; [done|]).
    + destruct Hr as (-> & <- & Hl). done.
    + rewrite Hr. same_handles.
Qed.

(** ** Threads *)

(** The flags and the joinable threads: [output_thread] while
    [output_thread_running] is set, likewise the reload thread with the copy
    of the file name its context owns (which may be missing: the copy is not
    checked). *)
Record threads := Threads { output_thread : option handle; reload_thread : option (handle * option handle) }.

Definition undefined {A : Type} : M A := fun _ => UB.

(** The new thread frees its argument. *)
Definition task_manager_start_output_thread (th : threads) : M (Z * threads) :=
  do arg <- acquire KMem;
  match arg with
  | None => ret (-1, th)%Z
  | Some arg =>
      match output_thread th with
      | Some _ => release arg;; ret (-1, th)%Z
      | None =>
          do t <- acquire KThread;
          match t with
          | None => release arg;; ret (-1, th)%Z
          | Some t => release arg;; ret (0%Z, Threads (Some t) (reload_thread th))
          end
      end
  end.

(** Clear the flag and join. *)
Definition task_manager_stop_output_thread (th : threads) : M threads :=
  match output_thread th with
  | None => ret th
  | Some t => release t;; ret (Threads None (reload_thread th))
  end.

Definition task_manager_start (pipeline : bool) (th : threads) : M (Z * threads) :=
  if pipeline then task_manager_start_output_thread th else ret (0%Z, th).
Definition task_manager_stop (pipeline : bool) (th : threads) : M threads :=
  if pipeline then task_manager_stop_output_thread th else ret th.

Definition task_manager_start_reload_thread (th : threads) : M (Z * threads) :=
  do arg <- acquire KMem;
  match arg with
  | None => ret (-1, th)%Z
  | Some arg =>
      match reload_thread th with
      | Some _ => release arg;; ret (-1, th)%Z
      | None =>
          do config_file <- acquire KMem;
          do t <- acquire KThread;
          match t with
          | None => release_opt config_file;; release arg;; ret (-1, th)%Z
          | Some t => release arg;; ret (0%Z, Threads (output_thread th) (Some (t, config_file)))
          end
      end
  end.

(** The thread frees the file name before it ends. *)
Definition task_manager_stop_reload_thread (th : threads) : M threads :=
  match reload_thread th with
  | None => ret th
  | Some (t, config_file) => release_opt config_file;; release t;; ret (Threads (output_thread th) None)
  end.

(** A thread that is still running uses what is freed. *)
Definition destroy_manager (th : threads) (m : task_manager_t) : M unit :=
  match output_thread th, reload_thread th with
  | None, None => task_manager_destroy m
  | _, _ => undefined
  end.

(** ** The process *)

Record process_cfg := ProcessCfg { pc_pipeline : bool; pc_tasks : list TaskOpts; pc_affinity : bool; pc_control : bool }.

(** The text asks for an argument when it is used as a format. *)
Fixpoint conversion (fmt : string) : bool :=
  match fmt with
  | EmptyString => false
  | String "%"%char (String "%"%char fmt) => conversion fmt
  | String "%"%char _ => true
  | String _ fmt => conversion fmt
  end.

(** [log_fatal(fmt)] without further arguments. *)
Definition log_fatal (fmt : string) : M unit := if conversion fmt then fault_with MessageAsFormat else ret tt.

(** [malloc] and [strdup] of a command of the control socket; a failure is
    only logged. *)
Definition unix_manager_register_command : M (list handle) :=
  do cmd <- acquire KMem;
  match cmd with
  | None => ret []
  | Some cmd =>
      do name <- acquire KMem;
      match name with
      | None => release cmd;; ret []
      | Some name => ret [cmd; name]
      end
  end.

(** The socket is not closed when it cannot be bound or listen. *)
Definition unix_manager_init : M (bool * list handle) :=
  do socket <- acquire KSocket;
  match socket with
  | None => ret (false, [])
  | Some socket =>
      on socket;;
      do bound <- on socket;
      if negb bound then ret (false, [socket])
      else do listening <- on socket; ret (listening, [socket])
  end.

Definition unix_manager_thread_spawn : M (option handle) := acquire KThread.

(** The control socket: whether it is served, and what it, its thread and its
    commands hold. *)
Definition start_control : M (bool * list handle) :=
  do r <- unix_manager_init;
  if negb (fst r) then ret r
  else
    do c1 <- unix_manager_register_command;
    do c2 <- unix_manager_register_command;
    do c3 <- unix_manager_register_command;
    do c4 <- unix_manager_register_command;
    do t <- unix_manager_thread_spawn;
    match t with
    | None => ret (false, snd r ++ c1 ++ c2 ++ c3 ++ c4)
    | Some t => ret (true, snd r ++ c1 ++ c2 ++ c3 ++ c4 ++ [t])
    end.

Definition no_threads : threads := Threads None None.

(** With the manager: the control socket, the threads, and the end when the
    process is told to quit.  The loop in between is [main_rounds] below; it
    and the threads acquire and release what [Capture], [Pipeline] and
    [Reload] say, and here no reload is under way when the end comes (one
    that is can free tasks in use, [ReloadSafety.shutdown_use_after_free]).
    [kept] is what the process still holds; it goes into the result with the
    exit code. *)
Definition run_manager (p : process_cfg) (m : task_manager_t) (kept : list handle) : M (Z * list handle) :=
  do c <- (if pc_control p then start_control else ret (true, []));
  let kept := kept ++ snd c in
  if negb (fst c) then (destroy_manager no_threads m;; ret (1%Z, kept))
  else
    do s <- task_manager_start (pc_pipeline p) no_threads;
    if negb (fst s =? 0)%Z then (destroy_manager (snd s) m;; ret (1%Z, kept))
    else
      do s <- task_manager_start_reload_thread (snd s);
      if negb (fst s =? 0)%Z then
        (do th <- task_manager_stop (pc_pipeline p) (snd s); destroy_manager th m;; ret (1%Z, kept))
      else
        do th <- task_manager_stop_reload_thread (snd s);
        do th <- task_manager_stop (pc_pipeline p) th;
        destroy_manager th m;; ret (0%Z, kept).

(** [main] after the options were read.  [message]: what [parse_config_file]
    says when it fails.  [copied]: what [strdup] of the affinity answers.
    [control] and the copy of the affinity are never freed. *)
Definition main (enable_dpdk : bool) (message : string) (copied : bool) (p : process_cfg) : M (Z * list handle) :=
  do cfg <- acquire KConfig;
  match cfg with
  | None => log_fatal message;; ret (1%Z, [])
  | Some cfg =>
      if negb copied then undefined
      else
        do affinity <- hold KMem;
        do pinned <- (if pc_affinity p then call else ret true);
        if negb pinned then ret (1%Z, [affinity; cfg])
        else
          do control <- (if pc_control p then (do c <- hold KMem; ret [c]) else ret []);
          let kept := affinity :: control in
          do r <- task_manager_new enable_dpdk (pc_pipeline p) (pc_tasks p) cfg;
          match r with
          | inl freed => ret (1%Z, if freed : bool then kept else cfg :: kept)
          | inr m => run_manager p m kept
          end
  end.

(** *** The loop *)

Record timers := Timers { last_stats_tm : Z; last_error_tm : Z; last_reload_tm : Z }.

Inductive action := PollPackets | ReloadCycle | Sleep | UpdateStats | PrintErrors.

#[global] Instance action_eq_dec : EqDecision action.
Proof. solve_decision. Defined.

(** One round: [num_pkts] is what the poll returns, [now] the time after it.
    What the round does, in order. *)
Definition main_round (control_enabled : bool) (num_pkts now : Z) (t : timers) : list action * timers :=
  let idle := if (num_pkts =? 0)%Z then [ReloadCycle; Sleep] else [] in
  let stats := control_enabled && (5 <=? now - last_stats_tm t)%Z in
  let errors := (60 <=? now - last_error_tm t)%Z in
  let reload := (1 <=? now - last_reload_tm t)%Z in
  (PollPackets :: idle ++ (if stats then [UpdateStats] else []) ++ (if errors then [PrintErrors] else []) ++ (if reload then [ReloadCycle] else []),
   Timers (if stats then now else last_stats_tm t) (if errors then now else last_error_tm t) (if reload then now else last_reload_tm t)).

(** The rounds of a run: packets and time of each. *)
Fixpoint main_rounds (control_enabled : bool) (rounds : list (Z * Z)) (t : timers) : list (list action) * timers :=
  match rounds with
  | [] => ([], t)
  | (num_pkts, now) :: rounds =>
      let '(a, t) := main_round control_enabled num_pkts now t in
      let '(l, t) := main_rounds control_enabled rounds t in (a :: l, t)
  end.

(** ** Theorems *)

Fixpoint handles (l : list handle) : gmultiset handle := match l with [] => ∅ | h :: l => {[+ h +]} ⊎ handles l end.

Lemma handles_app l1 l2 : handles (l1 ++ l2) = handles l1 ⊎ handles l2.
Proof. induction l1 as [|h l1 IH]; cbn [handles app]; [same_handles|]. rewrite IH. same_handles. Qed.

(** Memory, the control socket, or its thread. *)
Definition lasting (h : handle) : Prop := snd h ∈ [KMem; KSocket; KThread].

(** The handles are the ones of [l] more than before. *)
Definition holds_more (H : gmultiset handle) (l : list handle) (H' : gmultiset handle) (n : bool) : Prop :=
  n = false /\ H' = H ⊎ handles l /\ Forall lasting l.

Lemma lasting_mem a : lasting (a, KMem).
Proof. unfold lasting. set_solver. Qed.
Lemma lasting_socket a : lasting (a, KSocket).
Proof. unfold lasting. set_solver. Qed.
Lemma lasting_thread a : lasting (a, KThread).
Proof. unfold lasting. set_solver. Qed.
#[local] Hint Resolve lasting_mem lasting_socket lasting_thread Forall_app_2 List.Forall_cons List.Forall_nil : core.

Lemma register_ok (e : permit) (H : gmultiset handle) : tri e H false unix_manager_register_command (holds_more H).
Proof. unfold unix_manager_register_command, holds_more. life; (split; [done|]; split; [cbn [handles]; same_handles|auto]). Qed.

Lemma control_socket_ok (e : permit) (H : gmultiset handle) : tri e H false unix_manager_init (fun r => holds_more H r.2).
Proof.
  unfold unix_manager_init, holds_more. life; (split; [done|]; cbn [snd]; split; [cbn [handles]; same_handles|auto]).
Qed.

Lemma control_ok (e : permit) (H : gmultiset handle) : tri e H false start_control (fun r => holds_more H r.2).
Proof.
  unfold start_control, unix_manager_thread_spawn. apply tri_bind. eapply tri_mono; [apply control_socket_ok|].
  intros [[|] l] h n (-> & -> & Hl); cbn [fst snd negb] in *; [|by apply tri_ret].
  do 4 (apply tri_bind; eapply tri_mono; [apply register_ok|]; intros ? ? ? (-> & -> & ?)).
  life; (split; [done|]); cbn [snd]; (split; [rewrite !handles_app; cbn [handles]; same_handles|auto 12]).
Qed.

Definition threads_foot (th : threads) : gmultiset handle :=
  opt_foot (output_thread th) ⊎ match reload_thread th with Some (t, f) => {[+ t +]} ⊎ opt_foot f | None => ∅ end.

Lemma start_output_ok (e : permit) (pipeline : bool) (H : gmultiset handle) :
  tri e H false (task_manager_start pipeline no_threads)
    (fun r H' n => n = false /\ H' = H ⊎ threads_foot r.2 /\ reload_thread r.2 = None /\ (r.1 <> 0%Z -> output_thread r.2 = None) /\
       (pipeline = false -> output_thread r.2 = None)).
Proof.
  unfold task_manager_start, task_manager_start_output_thread, no_threads, threads_foot. destruct pipeline; cbn [output_thread reload_thread];
    life; (split; [done|]); cbn [fst snd output_thread reload_thread]; (split; [same_handles|done]).
Qed.

Lemma start_reload_ok (e : permit) (th : threads) (H : gmultiset handle) : reload_thread th = None ->
  tri e (H ⊎ threads_foot th) false (task_manager_start_reload_thread th)
    (fun r H' n => n = false /\ H' = H ⊎ threads_foot r.2 /\ output_thread r.2 = output_thread th /\
       (r.1 <> 0%Z -> reload_thread r.2 = None)).
Proof.
  intros Hr. destruct th as [o r]. cbn [reload_thread] in Hr. subst r. unfold task_manager_start_reload_thread, threads_foot. cbn [output_thread reload_thread].
  life; (split; [done|]); cbn [fst snd output_thread reload_thread]; (split; [same_handles|done]).
Qed.

Lemma stop_reload_ok (e : permit) (th : threads) (H : gmultiset handle) :
  tri e (H ⊎ threads_foot th) false (task_manager_stop_reload_thread th)
    (fun r H' n => n = false /\ H' = H ⊎ threads_foot r /\ output_thread r = output_thread th /\ reload_thread r = None).
Proof.
  destruct th as [o [[t [f|]]|]]; unfold task_manager_stop_reload_thread, threads_foot; cbn [output_thread reload_thread opt_foot];
    life; (split; [done|]); cbn [output_thread reload_thread]; (split; [same_handles|done]).
Qed.

Lemma stop_output_ok (e : permit) (pipeline : bool) (th : threads) (H : gmultiset handle) :
  reload_thread th = None -> (pipeline = false -> output_thread th = None) ->
  tri e (H ⊎ threads_foot th) false (task_manager_stop pipeline th) (fun r H' n => n = false /\ H' = H /\ r = no_threads).
Proof.
  destruct th as [o r]. cbn [output_thread reload_thread]. intros -> Hp. unfold task_manager_stop, task_manager_stop_output_thread, threads_foot.
  cbn [output_thread reload_thread]. destruct pipeline; [|rewrite Hp by done; apply tri_ret; split; [done|]; split; [same_handles|done]].
  destruct o as [t|]; cbn [opt_foot]; life; (split; [done|]); (split; [same_handles|done]).
Qed.

Lemma destroy_manager_ok (e : permit) (m : task_manager_t) (H H' : gmultiset handle) (Q : unit -> gmultiset handle -> bool -> Prop) :
  manager_plain m -> H' = H ⊎ ({[+ config m +]} ⊎ manager_foot m) -> Q tt H false -> tri e H' false (destroy_manager no_threads m) Q.
Proof. intros Hm EH HQ. by apply (tri_demolishes _ _ _ e m H H' Q manager_destroy_ok). Qed.

Lemma run_manager_ok (e : permit) (p : process_cfg) (m : task_manager_t) (kept : list handle) (H : gmultiset handle) : manager_plain m ->
  tri e (H ⊎ ({[+ config m +]} ⊎ manager_foot m)) false (run_manager p m kept)
    (fun r H' n => n = false /\ (exists l, r.2 = kept ++ l /\ Forall lasting l /\ H' = H ⊎ handles l) /\ (r.1 = 0 \/ r.1 = 1)%Z).
Proof.
  intros Hm. unfold run_manager. set (X := {[+ config m +]} ⊎ manager_foot m). apply tri_bind.
  apply (tri_mono e _ _ _ (fun r => holds_more (H ⊎ X) r.2)).
  { destruct (pc_control p); [apply control_ok|]. apply tri_ret. split; [done|]. split; [cbn [snd handles]; same_handles|done]. }
  intros [ok l] h n (-> & -> & Hl). cbn [fst snd] in *.
  assert (Hend : forall code H', code = 0%Z \/ code = 1%Z -> H' = H ⊎ handles l ⊎ X ->
    tri e H' false (destroy_manager no_threads m;; ret (code, kept ++ l))
      (fun r H' n => n = false /\ (exists l, r.2 = kept ++ l /\ Forall lasting l /\ H' = H ⊎ handles l) /\ (r.1 = 0 \/ r.1 = 1)%Z)).
  { intros code H' Hcode ->. apply tri_bind, (destroy_manager_ok e m (H ⊎ handles l)); [done|done|]. apply tri_ret. split; [done|]. split; [by exists l|done]. }
  destruct ok; cbn [negb]; [|apply Hend; [by right|same_handles]].
  apply tri_bind. eapply tri_mono; [apply start_output_ok|]. intros [rc th] h n (-> & -> & Hr & Ho & Hp). cbn [fst snd] in *.
  destruct (Z.eqb_spec rc 0) as [->|Hrc]; cbn [negb].
  2:{ destruct th as [o r]. cbn in *. subst r. rewrite Ho by done. apply Hend; [by right|]. unfold threads_foot. cbn [output_thread reload_thread]. same_handles. }
  apply tri_bind. eapply tri_mono; [by apply start_reload_ok|]. intros [rc2 th2] h n (-> & -> & Ho2 & Hr2). cbn [fst snd] in *.
  destruct (Z.eqb_spec rc2 0) as [->|Hrc2]; cbn [negb].
  - apply tri_bind. eapply tri_mono; [apply stop_reload_ok|]. intros th3 h n (-> & -> & Ho3 & Hr3).
    apply tri_bind. eapply tri_mono; [apply stop_output_ok; [done|intros Hf; rewrite Ho3, Ho2; auto]|]. intros th4 h n (-> & -> & ->).
    apply Hend; [by left|same_handles].
  - apply tri_bind. eapply tri_mono; [apply stop_output_ok; [auto|intros Hf; rewrite Ho2; auto]|]. intros th4 h n (-> & -> & ->).
    apply Hend; [by right|same_handles].
Qed.

Lemma main_ok (e : permit) (enable_dpdk : bool) (message : string) (p : process_cfg) (H : gmultiset handle) :
  permits (manager_permit (pc_tasks p)) e -> (conversion message = true -> faults e MessageAsFormat = true) -> no_dpdk_tasks enable_dpdk (pc_tasks p) = true ->
  tri e H false (main enable_dpdk message true p)
    (fun r H' n => n = false /\ H' = H ⊎ handles r.2 /\ (r.1 = 0 \/ r.1 = 1)%Z /\ (r.1 = 0%Z -> Forall lasting r.2)).
Proof.
  intros He Hmsg Hd. unfold main. apply tri_bind, tri_acquire; [intros c|].
  2:{ apply tri_bind. unfold log_fatal. destruct (conversion message); [apply tri_fault; auto|]. do 2 apply tri_ret.
      split; [done|]. split; [cbn [snd handles]; same_handles|auto]. }
  cbn [negb]. apply tri_bind, tri_hold. intros a. apply tri_bind.
  apply (tri_mono e _ _ _ (fun b H' n => n = false /\ H' = H ⊎ {[+ (c, KConfig) +]} ⊎ {[+ (a, KMem) +]})).
  { destruct (pc_affinity p); [apply tri_call; by intros b|by apply tri_ret]. }
  intros [|] h n [-> ->]; cbn [negb].
  2:{ apply tri_ret. split; [done|]. split; [cbn [snd handles]; same_handles|]. split; [by right|done]. }
  apply tri_bind. apply (tri_mono e _ _ _ (fun l => holds_more (H ⊎ {[+ (c, KConfig) +]} ⊎ {[+ (a, KMem) +]}) l)).
  { destruct (pc_control p); unfold holds_more; life; (split; [done|]; split; [cbn [handles]; same_handles|auto]). }
  intros l h n (-> & -> & Hl). apply tri_bind.
  eapply tri_mono; [replace (_ ⊎ _) with (H ⊎ {[+ (a, KMem) +]} ⊎ handles l ⊎ {[+ (c, KConfig) +]}) by same_handles; by apply (manager_new_ok e enable_dpdk)|].
  intros [freed|m] h n [-> Hr].
  - apply tri_ret. split; [done|]. split; [|split; [by right|done]]. rewrite Hr. unfold config_left. destruct freed; cbn [snd handles]; same_handles.
  - destruct Hr as (-> & <- & _ & Hm). eapply tri_mono; [by apply run_manager_ok|]. intros r h n (-> & (l' & Er & Hl' & ->) & Hc). split; [done|].
    rewrite Er. split; [cbn [handles app]; rewrite handles_app; same_handles|]. split; [done|]. intros _. cbn [app]. auto.
Qed.

Lemma manager_exit (cfgs : list TaskOpts) : exits (manager_permit cfgs) = true -> exists t, t ∈ cfgs /\ cc_netns (to_capturer t) <> EmptyString.
Proof.
  intros (t & Ht & E)%existsb_exists. exists t. split; [by apply list_elem_of_In|]. cbn in E.
  by destruct (String.eqb_spec (cc_netns (to_capturer t)) EmptyString).
Qed.

Lemma manager_fault (cfgs : list TaskOpts) (f : fault) : faults (manager_permit cfgs) f = true ->
  exists t, t ∈ cfgs /\
    ((f = NullWrite /\ custom (cc_req_pattern (to_capturer t)) = true) \/ (f = StreamClosedTwice /\ existsb to_file (to_outputs t) = true)).
Proof.
  intros (t & Ht & E)%existsb_exists. exists t. split; [by apply list_elem_of_In|]. destruct f; cbn in E; try done; auto.
Qed.

(** C10: Creating the task manager for tasks without DPDK, whichever
    acquisition fails.  It can end other than by answering in the ways the
    creation of one of its tasks can: a namespace that cannot be left, an
    unchecked [malloc] for a custom pattern, a file output whose stream
    libpcap closed.  Otherwise: a manager that is created has every
    configured task either in its list of tasks or in its list of errors,
    once and in the order of the configuration, and destroying it gives back
    exactly what was acquired, the configuration included; one that is not
    created leaves nothing behind but, when the failure came before the first
    task, the configuration. *)
Theorem task_manager_lifecycle (enable_dpdk pipeline : bool) (cfgs : list TaskOpts) (c : handle) (H : gmultiset handle) (st : store) :
  held st = H ⊎ {[+ c +]} -> in_netns st = false -> no_dpdk_tasks enable_dpdk cfgs = true ->
  match task_manager_new enable_dpdk pipeline cfgs c st with
  | UB => False
  | Exit => exists t, t ∈ cfgs /\ cc_netns (to_capturer t) <> EmptyString
  | Fault f => exists t, t ∈ cfgs /\
      ((f = NullWrite /\ custom (cc_req_pattern (to_capturer t)) = true) \/ (f = StreamClosedTwice /\ existsb to_file (to_outputs t) = true))
  | Ret (inl freed) st' => held st' = H ⊎ (if freed : bool then ∅ else {[+ c +]})
  | Ret (inr m) st' =>
      listed m (length cfgs) /\
      match task_manager_destroy m st' with Ret _ st'' => held st'' = H | Exit | Fault _ | UB => False end
  end.
Proof.
  intros Hh Hn Hd. pose proof (manager_new_ok _ enable_dpdk pipeline cfgs c H (permits_refl _) Hd st Hh Hn) as Hm.
  destruct (task_manager_new enable_dpdk pipeline cfgs c st) as [[freed|m] st'| |f|]; [by destruct Hm| | | |done].
  - destruct Hm as (Hn' & Hh' & Hc & Hl & Hp). split; [done|]. rewrite <- Hc in Hh'.
    pose proof (manager_destroy_ok no_permit m H Hp st' Hh' Hn') as Hx. destruct (task_manager_destroy m st') as [[] st''| |f|]; [by destruct Hx|done..].
  - by apply manager_exit.
  - by apply manager_fault.
Qed.

(** The start and the end of the process without DPDK, whichever step fails,
    when no reload is under way at the end: the manager is destroyed only
    after the output thread and the reload thread were joined, nothing is
    freed twice, and what is left at the end is known: after a run that was
    told to quit, only memory and the control socket with its thread, which
    live as long as the process; after a failed start, at most the
    configuration besides.  The exceptions are those of the task manager, a
    missing copy of the affinity, and a message of the configuration parser
    with a [%], which is used as a format. *)
Theorem process_lifecycle (enable_dpdk : bool) (message : string) (p : process_cfg) (copied : bool) (st : store) :
  in_netns st = false -> no_dpdk_tasks enable_dpdk (pc_tasks p) = true ->
  match main enable_dpdk message copied p st with
  | UB => copied = false
  | Exit => exits (manager_permit (pc_tasks p)) = true
  | Fault f => faults (manager_permit (pc_tasks p)) f = true \/ (f = MessageAsFormat /\ conversion message = true)
  | Ret (code, kept) st' => held st' = held st ⊎ handles kept /\ (code = 0 \/ code = 1)%Z /\ (code = 0%Z -> Forall lasting kept)
  end.
Proof.
  intros Hn Hd. destruct copied.
  - set (e := Permit (exits (manager_permit (pc_tasks p)))
      (fun f => faults (manager_permit (pc_tasks p)) f || match f with MessageAsFormat => conversion message | _ => false end)).
    assert (permits (manager_permit (pc_tasks p)) e) as He by (split; [done|]; intros f E; unfold e; cbn [faults]; by rewrite E).
    assert (conversion message = true -> faults e MessageAsFormat = true) as Hmsg by (intros E; unfold e; cbn [faults]; by rewrite E, orb_true_r).
    pose proof (main_ok e enable_dpdk message p (held st) He Hmsg Hd st eq_refl Hn) as Hm.
    destruct (main enable_dpdk message true p st) as [[code kept] st'| |f|]; [|done| |done].
    + by destruct Hm as (_ & Hh & Hc & Hl).
    + apply orb_true_iff in Hm as [Hm|Hm]; [by left|]. right. by destruct f.
  - unfold main, bind, acquire, bind, call. destruct (answers st) as [|[|] al]; cbn; try done.
    unfold log_fatal. destruct (conversion message); [by right|]. cbn. split; [same_handles|auto].
Qed.

(** The clock of the loop does not go back. *)
Fixpoint forward (now : Z) (rounds : list (Z * Z)) : Prop :=
  match rounds with [] => True | (_, t) :: rounds => (now <= t)%Z /\ forward t rounds end.

Definition last_time (start : Z) (rounds : list (Z * Z)) : Z := foldl (fun _ r => snd r) start rounds.

(** When each of the periodic actions was last due, it ran. *)
Definition prompt (control : bool) (now : Z) (t : timers) : Prop :=
  (last_stats_tm t <= now /\ last_error_tm t <= now /\ last_reload_tm t <= now)%Z /\
  (now - last_reload_tm t < 1 /\ now - last_error_tm t < 60 /\ (control = true -> now - last_stats_tm t < 5))%Z.

Lemma round_prompt control num_pkts now now' t : prompt control now t -> (now <= now')%Z ->
  let '(a, t') := main_round control num_pkts now' t in
  prompt control now' t' /\ head a = Some PollPackets /\
  (last_reload_tm t' <> last_reload_tm t -> ReloadCycle ∈ a) /\ (last_stats_tm t' <> last_stats_tm t -> UpdateStats ∈ a) /\
  (last_error_tm t' <> last_error_tm t -> PrintErrors ∈ a) /\ (num_pkts = 0%Z -> ReloadCycle ∈ a) /\ (control = false -> UpdateStats ∉ a).
Proof.
  intros [(H1 & H2 & H3) (H4 & H5 & H6)] Hn. unfold main_round, prompt. cbn [last_stats_tm last_error_tm last_reload_tm].
  destruct control; cbn [andb]; destruct (Z.leb_spec 5 (now' - last_stats_tm t)), (Z.leb_spec 60 (now' - last_error_tm t)),
    (Z.leb_spec 1 (now' - last_reload_tm t)), (Z.eqb_spec num_pkts 0); cbn [app head];
    (split; [split; [lia|]; split; [lia|]; split; [lia|intros; lia]|]); (split; [done|]); repeat split; intros; set_solver.
Qed.

(** The time of the last round that did [x], or [d]. *)
Definition last_done (x : action) (d : Z) (rounds : list (Z * Z)) (actions : list (list action)) : Z :=
  foldl (fun d r => if bool_decide (x ∈ snd r) then snd (fst r) else d) d (zip rounds actions).

(** The timers are never ahead of what was done. *)
Lemma rounds_prompt control rounds : forall now t dr de ds,
  prompt control now t -> forward now rounds ->
  (last_reload_tm t <= dr)%Z -> (last_error_tm t <= de)%Z -> (last_stats_tm t <= ds)%Z ->
  let '(actions, t') := main_rounds control rounds t in
  prompt control (last_time now rounds) t' /\ length actions = length rounds /\
  Forall (fun a => head a = Some PollPackets /\ (control = false -> UpdateStats ∉ a)) actions /\
  (last_reload_tm t' <= last_done ReloadCycle dr rounds actions)%Z /\
  (last_error_tm t' <= last_done PrintErrors de rounds actions)%Z /\
  (last_stats_tm t' <= last_done UpdateStats ds rounds actions)%Z.
Proof.
  induction rounds as [|[n now'] rounds IH]; intros now t dr de ds Hp Hf Hdr Hde Hds; cbn [main_rounds last_time foldl]; [done|].
  destruct Hf as [Hle Hf]. pose proof (round_prompt control n now now' t Hp Hle) as Hr.
  destruct (main_round control n now' t) as [a t1]. destruct Hr as (Hp1 & Hh & Hr & Hs & He & _ & Hc).
  assert (Hstep : forall x (T T1 d : Z), (T1 <> T -> x ∈ a) -> (T1 <= now')%Z -> (T <= d)%Z ->
    (T1 <= if bool_decide (x ∈ a) then now' else d)%Z).
  { intros x T T1 d Hx H1 Hd. case_bool_decide as Hi; [done|]. destruct (Z.eq_dec T1 T) as [->|Hne]; [done|]. destruct (Hi (Hx Hne)). }
  pose proof Hp1 as [(P1 & P2 & P3) _].
  pose proof (IH now' t1 _ _ _ Hp1 Hf (Hstep _ _ _ dr Hr P3 Hdr) (Hstep _ _ _ de He P2 Hde) (Hstep _ _ _ ds Hs P1 Hds)) as IH'.
  destruct (main_rounds control rounds t1) as [l t2]. destruct IH' as (I1 & I2 & I3 & I4).
  split; [done|]. split; [cbn; by rewrite I2|]. split; [by constructor|]. exact I4.
Qed.

(** While the clock goes forward, the main loop polls in every round and
    is prompt in what it does besides, however much traffic there is: after
    every round the last reload cycle is less than a second old, the last
    report of errors less than 60 seconds and, with the control socket, the
    last update of the statistics less than 5 seconds (all counted from the
    start of the loop when there was none); without the control socket the
    statistics are not updated. *)
Theorem main_loop_prompt (control : bool) (rounds : list (Z * Z)) (start : Z) :
  forward start rounds ->
  let actions := fst (main_rounds control rounds (Timers start start start)) in
  let age x := (last_time start rounds - last_done x start rounds actions)%Z in
  (age ReloadCycle < 1 /\ age PrintErrors < 60 /\ (control = true -> age UpdateStats < 5))%Z /\
  length actions = length rounds /\
  Forall (fun a => head a = Some PollPackets /\ (control = false -> UpdateStats ∉ a)) actions.
Proof.
  intros Hf. assert (prompt control start (Timers start start start)) as Hp by (unfold prompt; cbn; lia).
  pose proof (rounds_prompt control rounds start _ start start start Hp Hf) as H. cbn [last_reload_tm last_error_tm last_stats_tm] in H.
  destruct (main_rounds control rounds _) as [actions t]. cbn [fst]. destruct H as ((_ & P4 & P5 & P6) & Hl & Ha & H1 & H2 & H3); [lia..|].
  split; [split; [lia|split; [lia|intros ->; specialize (P6 eq_refl); lia]]|]. done.
Qed.

(** *** Witnesses *)

Definition demo_tasks : list TaskOpts :=
  [TaskOptions demo_copts demo_outputs true;
   TaskOptions (CapturerOptions "pcap_file" EmptyString EmptyString false 0 true EmptyString no_pattern 0) [OutputOptions "null" [] EmptyString (-1)] false].

(** The first task cannot be created, the second can. *)
Definition demo_start : store := Store {[+ (0%nat, KConfig) +]} 1 (replicate 6 true ++ [false]) false.

Lemma task_manager_lifecycle_witness :
  exists m st', task_manager_new true true demo_tasks (0%nat, KConfig) demo_start = Ret (inr m) st' /\ listed m 2 /\
    match task_manager_destroy m st' with Ret _ st'' => held st'' = ∅ | Exit | Fault _ | UB => False end.
Proof.
  pose proof (task_manager_lifecycle true true demo_tasks (0%nat, KConfig) ∅ demo_start eq_refl eq_refl eq_refl) as Hm.
  destruct (task_manager_new true true demo_tasks (0%nat, KConfig) demo_start) as [[f|m] st'| |f|] eqn:Em.
  - exfalso. vm_compute in Em. discriminate Em.
  - exists m, st'. exact (conj eq_refl Hm).
  - exfalso. vm_compute in Em. discriminate Em.
  - exfalso. vm_compute in Em. discriminate Em.
  - destruct Hm.
Defined.

(** A run from the start to the end. *)
Example process_run :
  match main true EmptyString true (ProcessCfg true demo_tasks true true) (Store ∅ 0 [] false) with
  | Ret (code, kept) st' => code = 0%Z /\ held st' = handles kept
  | _ => False
  end.
Proof. vm_compute. split; reflexivity. Qed.

Lemma main_loop_prompt_witness :
  let actions := fst (main_rounds true [(7, 100); (0, 101); (9, 106)]%Z (Timers 100 100 100)) in
  let age x := (106 - last_done x 100 [(7, 100); (0, 101); (9, 106)] actions)%Z in
  (age ReloadCycle < 1 /\ age PrintErrors < 60 /\ (true = true -> age UpdateStats < 5))%Z /\
  length actions = 3%nat /\ Forall (fun a => head a = Some PollPackets /\ (true = false -> UpdateStats ∉ a)) actions.
Proof. apply (main_loop_prompt true [(7, 100); (0, 101); (9, 106)]%Z 100). cbn. lia. Defined.
