(* ===== verification/Receiver.v ===== *)
(** * The receiver of ZMQ batches (cptools/recvzmq/main.c)

    [recvzmq] binds a socket, optionally opens a packet file, and writes the
    records of the messages it receives to the file, until it is told to
    quit, a message cannot be received, or a message is malformed.  The
    decoder of a message is in [ZmqFormat.RecvZmq]; this file has the process
    around it, on the store of [Resources]. *)

From stdpp Require Import prelude list list_numbers gmultiset.
From S2P Require Import Prelude ByteOrder Headers ZmqFormat Resources.

Import RecvZmq.
Open Scope life_scope.

(** ** The packet file *)

Record recv_file := RecvFile { rf_mem : handle; rf_pcap : handle; rf_dumper : handle }.

(** [opens]: what [pcap_dump_fopen] answers.  Its error message is asked of
    the handle that was just closed. *)
Definition file_output_new (opens : bool) : M (option recv_file) :=
  do fp <- acquire KFile;
  match fp with
  | None => ret None
  | Some fp =>
      do pcap <- acquire KPcap;
      match pcap with
      | None => release fp;; ret None
      | Some pcap =>
          needs pcap;;
          if negb opens then (release fp;; release pcap;; needs pcap;; ret None)
          else
            release fp;;
            do dumper <- hold KDumper;
            do o <- acquire KMem;
            match o with
            | None => release dumper;; release pcap;; ret None
            | Some o => ret (Some (RecvFile o pcap dumper))
            end
      end
  end.

Definition file_output_destory (o : recv_file) : M unit :=
  release (rf_dumper o);; release (rf_pcap o);; release (rf_mem o).

(** ** The process *)

Definition records : Type := list (pcap_pkthdr * list Z).

(** The loop: the messages [zmq_msg_recv] answers, [None] for a failure, up to
    the signal to quit.  [d] are the records of the file. *)
Fixpoint recv_rounds (output : bool) (events : list (option (list Z))) (d : records) : M records :=
  match events with
  | [] => ret d
  | e :: events =>
      do msg <- hold KZmqMsg;
      match e with
      | None => release msg;; ret d
      | Some bytes =>
          match handle_zmq_msg list_dump bytes (if output then Some d else None) with
          | None => fun _ => UB
          | Some (rc, out) =>
              let d := default d out in
              release msg;; if (rc =? 0)%Z then recv_rounds output events d else ret d
          end
      end
  end.

(** [zmq_socket] and [zmq_bind]; [None]: a failure, with nothing held. *)
Definition open_puller : M (option (handle * handle)) :=
  do context <- acquire KZmqCtx;
  match context with
  | None => ret None
  | Some context =>
      do ok <- on context;
      if negb ok then (release context;; ret None)
      else
        do puller <- hold KZmqSocket;
        do bound <- on puller;
        if negb bound then (release puller;; release context;; ret None) else ret (Some (context, puller))
  end.

(** [main] after the options: the exit code and the records in the file. *)
Definition recv_main (opens out_file : bool) (events : list (option (list Z))) : M (Z * records) :=
  do sockets <- open_puller;
  match sockets with
  | None => ret (1%Z, [])
  | Some (context, puller) =>
      do output <- (if out_file then
                      do o <- file_output_new opens;
                      match o with None => exit_failure | Some o => ret (Some o) end
                    else ret None);
      do d <- recv_rounds (bool_decide (is_Some output)) events [];
      (match output with Some o => file_output_destory o | None => ret tt end);;
      release puller;; release context;; ret (0%Z, d)
  end.

(** ** Lemmas *)

(** Without a file the records are read and checked all the same. *)
Lemma recv_loop_none todo msg : forall off (d : records) rc out,
  recv_loop list_dump todo msg off (Some d) = Some (rc, out) -> recv_loop list_dump todo msg off None = Some (rc, None).
Proof.
  induction todo as [|todo IH]; intros off d rc out; cbn [recv_loop]; [by intros [= <- <-]|].
  destruct (_ <? _); [by intros [= <- <-]|]. destruct (load16 _ _ _) as [l|]; obind; [|done].
  destruct (_ <? _); [by intros [= <- <-]|].
  destruct (load32 _ _ (off + 2)%Z) as [?|]; obind; [|done]. destruct (load32 _ _ (off + 2 + 4)%Z) as [?|]; obind; [|done].
  destruct (load32 _ _ (off + 2 + 8)%Z) as [?|]; obind; [|done]. destruct (load32 _ _ (off + 2 + 12)%Z) as [?|]; obind; [|done].
  destruct (bread _ _ _ _) as [b|]; obind; [|done]. apply IH.
Qed.

(** What the loop writes for the batches of a sender. *)
Definition batch : Type := Z * list Z * list zrec.
Definition batch_ok (b : batch) : Prop :=
  bytes_ok (b.1.2) /\ zlen (b.1.2) = 16%Z /\ (zlen (b.2) < 65536)%Z /\ Forall sent_rec (b.2).
Definition message (b : batch) : list Z := batch_msg (b.1.1) (b.1.2) (b.2).
Definition written (bs : list batch) (d : records) : records := foldl (fun d b => foldl (dump_rec list_dump) d (b.2)) d bs.

Lemma handle_batch b output (d : records) : batch_ok b ->
  handle_zmq_msg list_dump (message b) (if output : bool then Some d else None) =
    Some (0%Z, if output then Some (foldl (dump_rec list_dump) d (b.2)) else None).
Proof.
  intros (Hu & Hul & Hn & Hrs). pose proof (handle_batch_msg list_dump (b.1.1) (b.1.2) (b.2) d Hu Hul Hn Hrs) as H.
  destruct output; [exact H|]. unfold message, handle_zmq_msg in *. destruct (_ <? _)%Z; [done|].
  destruct (load16 _ _ _) as [n|]; [|done]. cbn [mbind option_bind] in *. by apply recv_loop_none in H.
Qed.

Lemma recv_rounds_ok (e : permit) (H : gmultiset handle) (n output : bool) (bs : list batch) : Forall batch_ok bs -> forall d,
  tri e H n (recv_rounds output ((fun b => Some (message b)) <$> bs) d)
    (fun d' H' n' => n' = n /\ H' = H /\ d' = if output then written bs d else d).
Proof.
  induction 1 as [|b bs Hb Hbs IH]; intros d; rewrite ?fmap_nil, ?fmap_cons; cbn [recv_rounds].
  - apply tri_ret. by destruct output.
  - rewrite (handle_batch b output d Hb). life_step. life_step. life_step. life_step. cbn [Z.eqb].
    eapply tri_mono; [apply IH|]. intros d' H' n' (-> & -> & ->). split; [done|]. split; [done|]. by destruct output.
Qed.

Definition file_foot (o : recv_file) : gmultiset handle := {[+ rf_mem o +]} ⊎ {[+ rf_pcap o +]} ⊎ {[+ rf_dumper o +]}.

Lemma recv_file_ok (e : permit) : constructs e file_foot (file_output_new true).
Proof. intros H. unfold file_output_new. cbn [negb]. life; (split; [done|]; unfold file_foot; cbn [rf_mem rf_pcap rf_dumper]; same_handles). Qed.

Lemma recv_file_destroy_ok : destructs file_foot file_output_destory.
Proof. intros e [] H. unfold file_output_destory, file_foot. cbn [rf_mem rf_pcap rf_dumper]. life. Qed.

Definition sockets_foot (s : handle * handle) : gmultiset handle := {[+ s.1 +]} ⊎ {[+ s.2 +]}.

Lemma open_puller_ok (e : permit) : constructs e sockets_foot open_puller.
Proof. intros H. unfold open_puller. life; (split; [done|]; unfold sockets_foot; cbn [fst snd]; same_handles). Qed.

Lemma recv_main_ok (out_file : bool) (bs : list batch) (H : gmultiset handle) : Forall batch_ok bs ->
  tri (Permit out_file (fun _ => false)) H false (recv_main true out_file ((fun b => Some (message b)) <$> bs))
    (fun r H' n => n = false /\ H' = H /\ (r.1 = 0%Z /\ r.2 = (if out_file then written bs [] else []) \/ r = (1%Z, []))).
Proof.
  intros Hbs. unfold recv_main. apply tri_bind. eapply tri_mono; [apply open_puller_ok|]. intros [[context puller]|] h n [-> ->].
  2:{ apply tri_ret. by auto. }
  apply tri_bind. apply (tri_mono _ _ _ _ (fun o H' n => n = false /\ bool_decide (is_Some o) = out_file /\
    H' = H ⊎ sockets_foot (context, puller) ⊎ match o with Some o => file_foot o | None => ∅ end)).
  { destruct out_file.
    - apply tri_bind. eapply tri_mono; [apply recv_file_ok|]. intros [o|] h n [-> ->]; [|by apply tri_exit].
      apply tri_ret. by split.
    - apply tri_ret. split; [done|]. split; [done|]. same_handles. }
  intros o h n (-> & Ho & ->). apply tri_bind. eapply tri_mono; [by apply recv_rounds_ok|]. intros d h n (-> & -> & ->). rewrite Ho.
  apply tri_bind. apply (tri_mono _ _ _ _ (fun _ H' n => n = false /\ H' = H ⊎ sockets_foot (context, puller))).
  { destruct o as [o|]; [apply recv_file_destroy_ok|]. apply tri_ret. split; [done|]. same_handles. }
  intros [] h n [-> ->]. unfold sockets_foot. cbn [fst snd]. life. split; [done|]. split; [same_handles|]. by left.
Qed.

(** No message makes the receiver read outside it as long as it writes no
    file. *)
Lemma recv_loop_safe todo msg : forall off, (0 <= off <= zlen msg)%Z -> (zlen msg < 2 ^ 64)%Z ->
  exists rc, recv_loop list_dump todo msg off None = Some (rc, None).
Proof.
  induction todo as [|todo IH]; intros off Ho Hm; cbn [recv_loop]; [by exists 0%Z|]. unfold PKT_HDR_LEN.
  change (2 ^ 64)%Z with 18446744073709551616%Z in Hm. rewrite u64_small by lia.
  destruct (Z.ltb_spec (zlen msg - off) (2 + 16)) as [|Hl]; [by eexists|]. rewrite load16_ok by lia. obind.
  rewrite u64_small by lia. destruct (Z.ltb_spec (zlen msg - (off + 2 + 16)) (ntohs (get16 msg off))) as [|Hd]; [by eexists|].
  rewrite !load32_ok by lia. obind. apply IH; [|done]. split; [|lia].
  assert (0 <= ntohs (get16 msg off))%Z; [|lia]. unfold ntohs, htons, u8. zlia.
Qed.

(** When libpcap does not take the file, there is no output. *)
Lemma file_not_opened st : match file_output_new false st with Ret (Some _) _ => False | _ => True end.
Proof.
  unfold file_output_new, bind. destruct (acquire KFile st) as [[fp|] st1| | |]; [|done..].
  destruct (acquire KPcap st1) as [[pcap|] st2| | |]; [| |done..]; cbn [negb].
  - destruct (needs pcap st2) as [? st3| | |]; [|done..]. destruct (release fp st3) as [? st4| | |]; [|done..].
    destruct (release pcap st4) as [? st5| | |]; [|done..]. by destruct (needs pcap st5).
  - by destruct (release fp st1) as [? st3| | |], (release fp st2).
Qed.

(** A step that is not a fault. *)
Definition no_fault {A : Type} (m : M A) : Prop := forall st, match m st with Fault _ => False | _ => True end.

Lemma no_fault_bind {A B : Type} (m : M A) (k : A -> M B) : no_fault m -> (forall a, no_fault (k a)) -> no_fault (bind m k).
Proof. intros Hm Hk st. unfold bind. specialize (Hm st). destruct (m st) as [a st'| | |]; try done. apply Hk. Qed.

Lemma file_no_fault : no_fault (file_output_new false).
Proof.
  assert (forall k, no_fault (acquire k)) as Ha.
  { intros k st. unfold acquire, bind, call. by destruct (answers st) as [|[|] al]. }
  assert (forall h, no_fault (release h)) as Hr by (intros h st; unfold release; by case_decide).
  assert (forall h, no_fault (needs h)) as Hn by (intros h st; unfold needs; by case_decide).
  unfold file_output_new. cbn [negb].
  repeat first [apply no_fault_bind; [auto|intros ?] | apply Ha | apply Hr | apply Hn | intros st; done | case_match].
Qed.

(** ** Theorems *)

(** The receiver and the sender agree, whichever step of the receiver
    fails.  For the messages of a sender it writes the records of all batches
    to its file, in order, returns 0 and gives everything back; when a socket
    cannot be opened it returns 1 with nothing held; it exits early only when
    the file cannot be opened.  Undefined behaviour is reached only when
    libpcap cannot take the file: the error message is then asked of the
    handle that was closed.  Without a file no message whatever makes it read
    out of bounds. *)
Theorem receiver_run (opens out_file : bool) (bs : list batch) (msg : list Z) (st : store) :
  Forall batch_ok bs -> in_netns st = false -> (zlen msg < 2 ^ 64)%Z ->
  match recv_main opens out_file ((fun b => Some (message b)) <$> bs) st with
  | UB => out_file = true /\ opens = false
  | Exit => out_file = true
  | Fault _ => False
  | Ret (code, d) st' =>
      held st' = held st /\ (code = 0%Z /\ d = (if out_file then written bs [] else []) \/ (code, d) = (1%Z, []))
  end /\
  exists rc, handle_zmq_msg list_dump msg None = Some (rc, None).
Proof.
  intros Hbs Hn Hm. split.
  - destruct (decide (out_file = true /\ opens = false)) as [[-> ->]|Hne].
    + pose proof (open_puller_ok no_permit (held st) st eq_refl Hn) as Ho. unfold recv_main, bind.
      destruct (open_puller st) as [[[c p]|] st1| | |]; [| |done..].
      * pose proof (file_not_opened st1) as Hf. pose proof (file_no_fault st1) as Hg.
        by destruct (file_output_new false st1) as [[o|] st2| | |].
      * cbn. split; [by destruct Ho|by right].
    + assert (recv_main opens out_file = recv_main true out_file) as -> by (destruct opens, out_file; tauto).
      pose proof (recv_main_ok out_file bs (held st) Hbs st eq_refl Hn) as Hr.
      by destruct (recv_main true out_file _ st) as [[code d] st'| | |]; [destruct Hr as (_ & -> & Hr)|..].
  - unfold handle_zmq_msg. destruct (Z.ltb_spec (zlen msg) BATCH_HDR_LEN) as [|Hl]; [by eexists|]. unfold BATCH_HDR_LEN in *.
    rewrite load16_ok by lia. obind. apply recv_loop_safe; [lia|done].
Qed.

(** *** Witness *)

Definition demo_batches : list batch := [(7%Z, replicate 16 1%Z, [ZRec 5 6 2 9 [3; 4]%Z]); (8%Z, replicate 16 1%Z, [ZRec 8 9 1 1 [7]%Z])].

Lemma receiver_run_witness :
  match recv_main true true ((fun b => Some (message b)) <$> demo_batches) (Store ∅ 0 [] false) with
  | Ret (code, d) st' => held st' = ∅ /\ code = 0%Z /\ d = [(Pkthdr 5 6 2 9, [3; 4]%Z); (Pkthdr 8 9 1 1, [7]%Z)]
  | _ => False
  end.
Proof.
  assert (Forall batch_ok demo_batches) as Hb by (repeat constructor; vm_compute; congruence).
  destruct (receiver_run true true demo_batches [] (Store ∅ 0 [] false) Hb eq_refl ltac:(by vm_compute)) as [Hr _].
  destruct (recv_main true true _ (Store ∅ 0 [] false)) as [[code d] st'| |f|] eqn:E.
  - destruct Hr as [Hh [[-> ->]|Hc]]; [split; [exact Hh|split; reflexivity]|]. injection Hc as -> ->. vm_compute in E. discriminate E.
  - vm_compute in E. discriminate E.
  - destruct Hr.
  - destruct Hr. discriminate.
Defined.
