(* ===== verification/Delivery.v ===== *)
(** * From the packet to the receiver's file (output_zmq.c, recvzmq/main.c)

    The ZMQ output of a probe and the receiver, joined by a network that
    takes a message or refuses it, and hands over the messages it took in
    order.  The theorem follows the packets of a whole run, from the
    construction of the output to its destruction and on to the file: what
    the file holds, and what the probe counts as forwarded. *)

From stdpp Require Import prelude list list_numbers gmultiset.
From S2P Require Import Prelude ByteOrder Stats RateLimit Headers Output ZmqFormat OutputZmq Resources Receiver.

Import RecvZmq ZmqOutput.

(** ** The network and a run *)

(** The answers of [zmq_send] to come ([true]: taken, also when the list is
    at its end), the readings of the clock, and the messages taken. *)
Record net := Net { takes : list bool; clock : list timeval; sent : list (list Z) }.

Definition net_send (w : net) (m : list Z) : option Z * net :=
  match takes w with
  | false :: t => (Some 11, Net t (clock w) (sent w))
  | t => (None, Net (tail t) (clock w) (sent w ++ [m]))
  end.

Definition net_now (w : net) : timeval * net :=
  match clock w with
  | [] => (Timeval 0 0, w)
  | t :: c => (t, Net (takes w) c (sent w))
  end.

Abbreviation output := (zmq_output_t (W := net)).

Inductive zevent := ZPacket (h : pcap_pkthdr) (pkt : list Z) (direct : Z) | ZHeartbeat (now : Z).

Definition zevent_ok (e : zevent) : Prop := match e with ZPacket h pkt _ => pkt_ok h pkt | ZHeartbeat _ => True end.

(** The answers of [zmq_send_packet] (for a heartbeat: -1) and the output afterwards. *)
Fixpoint zmq_run (es : list zevent) (o : output) : option (list Z * output) :=
  match es with
  | [] => Some ([], o)
  | e :: es =>
      r ← (match e with
           | ZPacket h pkt d => zmq_send_packet net_send o h pkt d
           | ZHeartbeat now => o ← zmq_heartbeat net_send net_now o now; Some (-1, o)
           end);
      rest ← zmq_run es r.2;
      Some (r.1 :: rest.1, rest.2)
  end.

(** ** What is delivered *)

(** A heartbeat is told by its EtherType. *)
Definition is_heartbeat (r : zrec) : bool := net16 (z_frame r) 12 =? ZMQ_HEARTBEAT_ETHER_TYPE.
Definition data (rs : list zrec) : list zrec := filter (fun r => is_heartbeat r = false) rs.
Definition beats (rs : list zrec) : list zrec := filter (fun r => is_heartbeat r = true) rs.

(** The record of a packet: its frame, sliced, with the MPLS tag behind the
    innermost VLAN tag. *)
Definition packet_record (o : output) (h : pcap_pkthdr) (pkt : list Z) (d : Z) : list zrec :=
  match l2_header_len pkt (output_frame_len (caplen h) 0 ZMQ_MAX_FRAME_LEN) with
  | Some l2 => [rec_of h pkt l2 (zmq_frame_len o h l2) d (service_tag o)]
  | None => []
  end.

(** The records of the packets that were accepted, in order. *)
Fixpoint accepted (o : output) (es : list zevent) (rets : list Z) : list zrec :=
  match es, rets with
  | ZPacket h pkt d :: es, r :: rets => (if r =? 0 then packet_record o h pkt d else []) ++ accepted o es rets
  | _ :: es, _ :: rets => accepted o es rets
  | _, _ => []
  end.

(** Batches with the answer of the network. *)
Abbreviation batches := (list (bool * list zrec)).
Definition all_recs (bs : batches) : list zrec := concat (snd <$> bs).
Definition taken (bs : batches) : list (list zrec) := snd <$> filter (fun b => b.1 = true) bs.

Lemma taken_app bs bs' : taken (bs ++ bs') = taken bs ++ taken bs'.
Proof. unfold taken. by rewrite list.filter_app, fmap_app. Qed.
Lemma all_recs_app bs bs' : all_recs (bs ++ bs') = all_recs bs ++ all_recs bs'.
Proof. unfold all_recs. by rewrite fmap_app, concat_app. Qed.
Lemma all_recs_snoc bs b rs : all_recs (bs ++ [(b, rs)]) = all_recs bs ++ rs.
Proof. rewrite all_recs_app. unfold all_recs at 2. cbn. by rewrite app_nil_r. Qed.
Lemma concat_snoc {A : Type} (l : list (list A)) (x : list A) : concat (l ++ [x]) = concat l ++ x.
Proof. rewrite concat_app. cbn. by rewrite app_nil_r. Qed.
Lemma data_app rs rs' : data (rs ++ rs') = data rs ++ data rs'.
Proof. apply list.filter_app. Qed.
Lemma beats_app rs rs' : beats (rs ++ rs') = beats rs ++ beats rs'.
Proof. apply list.filter_app. Qed.
Lemma data_all rs : Forall (fun r => is_heartbeat r = false) rs -> data rs = rs /\ beats rs = [].
Proof.
  induction 1 as [|r rs Hr Hrs [IH1 IH2]]; [done|]. unfold data, beats in *. rewrite !list.filter_cons, Hr, IH1, IH2. by split.
Qed.
Lemma data_beats rs : zlen rs - zlen (beats rs) = zlen (data rs).
Proof.
  induction rs as [|r rs IH]; [done|]. unfold data, beats in *. rewrite !list.filter_cons, zlen_cons. repeat case_decide; try (by destruct (is_heartbeat r)); rewrite ?zlen_cons; lia.
Qed.

(** No packet makes a record that passes for a heartbeat. *)
Lemma packet_no_beat h pkt m et l2 n d t : bytes_ok pkt -> vlan_tags pkt m (net16 pkt 12) 14 et l2 -> 14 <= l2 ->
  is_heartbeat (rec_of h pkt l2 n d t) = false.
Proof.
  intros Hb Hv Hl. unfold is_heartbeat, rec_of, mpls_frame. cbn [z_frame]. apply Z.eqb_neq.
  inversion Hv as [et0 off Hn|et0 off et1 off1 Hy Hm Ht]; subst.
  - assert (zlen (bslice pkt 0 (14 - 2)) = 12) as El by (apply bslice_zlen; lia).
    pose proof (net16_app (bslice pkt 0 (14 - 2)) 34887 (le32 (make_mpls_hdr d t) ++ bslice pkt 14 (n - 14)) ltac:(lia)) as E.
    rewrite El in E. change (be16 34887) with [136; 71] in E. by rewrite E.
  - apply vlan_tags_mono in Ht. unfold VLAN_HDR_LEN in *. assert (net16 (bslice pkt 0 (l2 - 2) ++ [136; 71] ++ le32 (make_mpls_hdr d t) ++ bslice pkt l2 (n - l2)) 12 = net16 pkt 12) as ->.
    { unfold net16. by rewrite !bget_app_l, !bget_bslice by (rewrite ?bslice_zlen; lia). }
    intros E. by rewrite E in Hy.
Qed.

(** ** The network so far *)

Definition sendable (rs : list zrec) : Prop := zlen rs < 65536 /\ Forall sent_rec rs.

(** The messages of the batches taken are on the wire, and the counters of
    what was sent are theirs. *)
Record delivered (t0 : list bool) (k : Z) (u : list Z) (bs : batches) (w : net) (s : output_stats_t) : Prop := Delivered {
  dl_sent : sent w = batch_msg k u <$> taken bs;
  dl_ok : Forall (fun b => sendable b.2) bs;
  dl_wf : stats_wf s;
  dl_fwd : eqm packets_range (packets_value (fwd_packets s)) (zlen (data (concat (taken bs))));
  dl_beats : eqm packets_range (packets_value (heartbeat_packets s)) (zlen (beats (concat (taken bs))));
  dl_all : Forall (fun t => t = true) t0 -> Forall (fun t => t = true) (takes w) /\ Forall (fun b => b.1 = true) bs;
}.

Lemma delivered_fwd t0 k u bs w s s' : delivered t0 k u bs w s -> stats_wf s' -> same_fwd s s' -> delivered t0 k u bs w s'.
Proof. intros [] Hw [E1 E2]. constructor; try done; by rewrite ?E1, ?E2. Qed.

Lemma delivered_clock t0 k u bs w s c : delivered t0 k u bs w s -> delivered t0 k u bs (Net (takes w) c (sent w)) s.
Proof. by intros []. Qed.

(** A message leaves. *)
Lemma delivered_flush t0 k u bs w s rs hb bytes rc w' :
  delivered t0 k u bs w s -> net_send w (batch_msg k u rs) = (rc, w') -> sendable rs -> hb = zlen (beats rs) -> u64_ok bytes ->
  delivered t0 k u (bs ++ [(bool_decide (rc = None), rs)]) w' (counted_batch rc rs hb bytes s).
Proof.
  intros [Hs Ho Hw Hf Hb Ha] E Hr -> Hby. pose proof (data_beats rs) as Hdb. pose proof (zlen_nonneg (beats rs)). pose proof (zlen_nonneg (data rs)). destruct Hr as [Hn Hrs].
  assert (u64_ok (zlen rs - zlen (beats rs)) /\ u64_ok (zlen (beats rs))) as [U1 U2] by (unfold u64_ok; lia).
  assert (Forall (fun b : bool * list zrec => sendable b.2) (bs ++ [(bool_decide (rc = None), rs)])) as Ho' by (apply Forall_app; split; [done|]; by repeat constructor).
  unfold net_send in E. destruct (takes w) as [|[] t] eqn:Et; injection E as <- <-; unfold counted_batch.
  1,2: destruct (count_batch_sent_ok bytes (zlen rs - zlen (beats rs)) (zlen (beats rs)) s Hw Hby U1 U2) as [Hw' _];
    destruct (packets_add_eqm (fwd_packets s) (zlen rs - zlen (beats rs))) as [_ E1]; [apply Hw|done|];
    destruct (packets_add_eqm (heartbeat_packets s) (zlen (beats rs))) as [_ E2]; [apply Hw|done|];
    constructor; try done; cbn [sent takes]; rewrite ?taken_app; change (taken [(bool_decide (@None Z = None), rs)]) with [rs];
    [by rewrite fmap_app, Hs|cbn [fwd_packets count_batch_sent]; by rewrite E1, Hf, concat_snoc, data_app, zlen_app, Hdb
    |cbn [heartbeat_packets count_batch_sent]; by rewrite E2, Hb, concat_snoc, beats_app, zlen_app|].
  3: { destruct (count_batch_dropped_ok bytes (zlen rs - zlen (beats rs)) s Hw Hby U1) as [Hw' _]. constructor; try done; rewrite ?taken_app, ?app_nil_r; try done.
    intros Hy. destruct (Ha Hy) as [Ht _]. by inversion Ht. }
  - intros Hy. destruct (Ha Hy) as [Ht Hb0]. split; [done|]. apply Forall_app. split; [done|]. by repeat constructor.
  - intros Hy. destruct (Ha Hy) as [Ht Hb0]. inversion Ht; subst. split; [done|]. apply Forall_app. split; [done|]. by repeat constructor.
Qed.

(** ** The output so far *)

(** Batches that left, and the records still held. *)
Record carrying (t0 : list bool) (k : Z) (u : list Z) (bs : batches) (rs : list zrec) (o : output) : Prop := Carrying {
  ca_wf : common_wf (common o);
  ca_batch : exists bytes, batch (pkts_buf o) rs 0 bytes;
  ca_key : keybit (pkts_buf o) = k /\ uuid (pkts_buf o) = u;
  ca_data : Forall (fun r => is_heartbeat r = false) rs;
  ca_sent : delivered t0 k u bs (env o) (stats (common o));
}.

Lemma batch_sendable p rs hb bytes : batch p rs hb bytes -> sendable rs /\ u64_ok bytes.
Proof.
  intros Hb. pose proof (batch_num_bound _ _ _ _ Hb) as Hn. destruct Hb as [_ _ Hp Hc Hnum Hrs _ _ [_ Hby] _].
  unfold sendable, u64_ok, ZMQ_MAX_BATCH_BUF_SIZE in *. repeat split; try done; lia.
Qed.

Lemma advanced_carrying t0 k u bs rs bytes new n o o' :
  keybit (pkts_buf o) = k -> uuid (pkts_buf o) = u -> Forall (fun r => is_heartbeat r = false) rs ->
  delivered t0 k u bs (env o) (stats (common o)) -> batch (pkts_buf o) rs 0 bytes -> Forall (fun r => is_heartbeat r = false) new ->
  common_wf (common o') -> keybit (pkts_buf o') = k -> uuid (pkts_buf o') = u -> advanced net_send o rs bytes new n o' ->
  exists bs' rs', carrying t0 k u bs' rs' o' /\ all_recs bs' ++ rs' = all_recs bs ++ rs ++ new.
Proof.
  intros Hk Hu Hd Hs Hb Hnew Hw' Hk' Hu' Ha. destruct Ha as [Hb' Ew Es|rc w Es Hb' Ew Est Hct].
  - exists bs, (rs ++ new). split; [|done]. constructor; try done; [by eexists|by apply Forall_app|]. by rewrite Ew, Es.
  - exists (bs ++ [(bool_decide (rc = None), rs)]), new. split; [|by rewrite all_recs_snoc, <- app_assoc].
    destruct (batch_sendable _ _ _ _ Hb) as [Hr Hby]. constructor; try done; [by eexists|]. rewrite Hk, Hu in Es. rewrite Ew, Est.
    apply (delivered_flush _ _ _ _ _ _ rs 0 bytes rc w Hs Es Hr); [|done]. by rewrite (proj2 (data_all _ Hd)).
Qed.

Lemma carried_data bs rs bs' rs' new : Forall (fun r => is_heartbeat r = false) rs -> Forall (fun r => is_heartbeat r = false) rs' ->
  Forall (fun r => is_heartbeat r = false) new -> all_recs bs' ++ rs' = all_recs bs ++ rs ++ new ->
  data (all_recs bs') ++ rs' = data (all_recs bs) ++ rs ++ new.
Proof.
  intros Hr Hr' Hn E. apply (f_equal data) in E. rewrite !data_app in E.
  by rewrite (proj1 (data_all _ Hr)), (proj1 (data_all _ Hr')), (proj1 (data_all _ Hn)) in E.
Qed.

Lemma packet_step t0 k u bs rs o h pkt d : carrying t0 k u bs rs o -> pkt_ok h pkt ->
  exists ret o' bs' rs', zmq_send_packet net_send o h pkt d = Some (ret, o') /\ carrying t0 k u bs' rs' o' /\ kept_cfg o o' /\
    data (all_recs bs') ++ rs' = data (all_recs bs) ++ rs ++ (if ret =? 0 then packet_record o h pkt d else []).
Proof.
  intros Hc Hp. pose proof Hc as [Hw (bytes & Hb) [Hk Hu] Hd Hs].
  destruct (zmq_send_ok net_send o rs bytes h pkt d Hw Hb Hp) as (ret & o' & E & Hw' & Hcfg & Hcase).
  pose proof Hcfg as (_ & _ & _ & Hk' & Hu'). rewrite Hk in Hk'. rewrite Hu in Hu'. exists ret, o'.
  destruct Hcase as [(-> & s & e & Hws & Hsf & _ & tb & Ha)|(-> & _ & l2 & et & H14 & Hv & El & _ & _ & Ha & _)].
  - set (o1 := set_error _ _) in Ha.
    destruct (advanced_carrying t0 k u bs rs bytes [] 0 o1 o' Hk Hu Hd (delivered_fwd _ _ _ _ _ _ _ Hs Hws Hsf) Hb ltac:(constructor) Hw' Hk' Hu' Ha) as (bs' & rs' & Hc' & Er).
    exists bs', rs'. split; [done|]. split; [done|]. split; [done|]. apply carried_data; try done. by destruct Hc'.
  - assert (is_heartbeat (rec_of h pkt l2 (zmq_frame_len o h l2) d (service_tag o)) = false) as Hh.
    { destruct Hp as [Hp _]. by eapply packet_no_beat. }
    destruct (advanced_carrying _ _ _ _ _ _ [rec_of h pkt l2 (zmq_frame_len o h l2) d (service_tag o)] _ _ _ Hk Hu Hd Hs Hb ltac:(by repeat constructor) Hw' Hk' Hu' Ha) as (bs' & rs' & Hc' & Er).
    exists bs', rs'. split; [done|]. split; [done|]. split; [done|]. unfold packet_record. rewrite El. cbn [Z.eqb].
    apply carried_data; try done; [by destruct Hc'|by repeat constructor].
Qed.

Lemma beat_step t0 k u bs rs o now : carrying t0 k u bs rs o ->
  exists o' bs' rs', zmq_heartbeat net_send net_now o now = Some o' /\ carrying t0 k u bs' rs' o' /\ kept_cfg o o' /\
    data (all_recs bs') ++ rs' = data (all_recs bs) ++ rs.
Proof.
  intros [Hw (bytes & Hb) [Hk Hu] Hd Hs]. unfold zmq_heartbeat.
  destruct (flush_if_stale_ok net_send o rs bytes now Hw Hb) as (o1 & -> & Hw1 & Hcfg1 & Ha). obind.
  apply same_kept in Hcfg1. pose proof Hcfg1 as (G1 & G2 & G3 & Hk1 & Hu1). rewrite Hk in Hk1. rewrite Hu in Hu1.
  destruct (advanced_carrying _ _ _ _ _ _ [] 0 _ _ Hk Hu Hd Hs Hb ltac:(constructor) Hw1 Hk1 Hu1 Ha) as (bs1 & rs1 & Hc1 & Er).
  pose proof (carried_data _ _ _ _ [] Hd (ca_data _ _ _ _ _ _ Hc1) ltac:(constructor) Er) as Ed. rewrite app_nil_r in Ed.
  destruct (heartbeat_ms o1 <=? 0); [by exists o1, bs1, rs1|]. cbv zeta. destruct (_ <? heartbeat_ms o1 - 1000); [by exists o1, bs1, rs1|].
  destruct Hc1 as [_ (by1 & Hb1) _ Hd1 Hs1].
  destruct (net_now (env o1)) as [tv w] eqn:Ew. set (o2 := set_env o1 w).
  assert (delivered t0 k u bs1 (env o2) (stats (common o2))) as Hs2.
  { cbn [o2 set_env env common]. unfold net_now in Ew. destruct (clock (env o1)) as [|t c]; injection Ew as <- <-; [done|by apply delivered_clock]. }
  assert (carrying t0 k u bs1 rs1 o2) as Hc2 by (constructor; try done; by exists by1).
  destruct (heartbeat_ms o2 <=? _); [|exists o2, bs1, rs1; by split_and!].
  destruct (send_heartbeat_ok net_send o2 rs1 by1 tv Hw1 Hb1) as (o3 & -> & Hw3 & Hcfg3 & Hb3 & _ & _ & fs & Hfs & Hcase).
  pose proof Hcfg3 as (F1 & F2 & F3 & Hk3 & Hu3). cbn [o2 set_env pkts_buf common service_tag heartbeat_ms] in F1, F2, F3, Hk3, Hu3. rewrite Hk1 in Hk3. rewrite Hu1 in Hu3.
  cbn [o2 set_env pkts_buf] in Hfs. rewrite Hk1, Hu1 in Hfs. fold o2 in Hfs.
  assert (exists bs3, delivered t0 k u bs3 (env o3) (stats (common o3)) /\ all_recs bs3 = all_recs bs1 ++ rs1 ++ [hb_rec tv]) as (bs3 & Hs3 & E3).
  { destruct (batch_sendable _ _ _ _ Hb1) as [[Hn1 Hr1] Hy1]. destruct (data_all _ Hd1) as [_ Hbt]. pose proof (batch_num_bound _ _ _ _ Hb1) as Hnb. rewrite (bt_num _ _ _ _ Hb1) in Hnb.
    assert (sendable (rs1 ++ [hb_rec tv])) as Hsend1.
    { split; [rewrite zlen_app; change (zlen [hb_rec tv]) with 1; lia|]. apply Forall_app. split; [done|]. apply Forall_singleton, hb_rec_ok. }
    assert (sendable [hb_rec tv]) as Hsend2 by (split; [done|]; apply Forall_singleton, hb_rec_ok).
    destruct Hcase as [(rc & ->)|(rc & rc' & ->)]; cbn [flushed] in Hfs.
    - destruct Hfs as (w1 & Es & <- & ->). exists (bs1 ++ [(bool_decide (rc = None), rs1 ++ [hb_rec tv])]). split; [|by rewrite all_recs_snoc].
      apply (delivered_flush _ _ _ _ _ _ _ 1 by1 rc _ Hs2 Es Hsend1); [|done]. by rewrite beats_app, Hbt.
    - destruct Hfs as (w1 & Es & w2 & Es2 & <- & ->). exists ((bs1 ++ [(bool_decide (rc = None), rs1)]) ++ [(bool_decide (rc' = None), [hb_rec tv])]).
      split; [|by rewrite !all_recs_snoc, <- app_assoc].
      apply (delivered_flush _ _ _ _ w1 _ _ 1 0 rc' _); try done. apply (delivered_flush _ _ _ _ _ _ _ 0 by1 rc _ Hs2 Es); try done. by rewrite Hbt. }
  exists o3, bs3, []. split; [done|]. split; [constructor; try done; by exists 0|]. split; [unfold kept_cfg in *; cbn in *; split_and!; congruence|].
  rewrite E3, !data_app, app_nil_r. change (data [hb_rec tv]) with (@nil zrec). by rewrite app_nil_r, (proj1 (data_all _ Hd1)).
Qed.

(** ** The whole run *)

Lemma record_kept o o' h pkt d : kept_cfg o o' -> packet_record o' h pkt d = packet_record o h pkt d.
Proof. intros (E1 & E2 & _). unfold packet_record, zmq_frame_len. by rewrite E1, E2. Qed.

Lemma accepted_kept o o' es : kept_cfg o o' -> forall rets, accepted o' es rets = accepted o es rets.
Proof.
  intros Hk. induction es as [|e es IH]; intros [|r rets]; try done; destruct e; cbn [accepted]; rewrite ?IH, ?(record_kept o o') by done; done.
Qed.

Lemma run_carries t0 k u es : Forall zevent_ok es -> forall bs rs o, carrying t0 k u bs rs o ->
  exists rets o' bs' rs', zmq_run es o = Some (rets, o') /\ carrying t0 k u bs' rs' o' /\
    data (all_recs bs') ++ rs' = data (all_recs bs) ++ rs ++ accepted o es rets.
Proof.
  induction 1 as [|e es He Hes IH]; intros bs rs o Hc.
  { exists [], o, bs, rs. cbn. by rewrite app_nil_r. }
  assert (exists r o1 bs1 rs1, match e with
           | ZPacket h pkt d => zmq_send_packet net_send o h pkt d
           | ZHeartbeat now => o ← zmq_heartbeat net_send net_now o now; Some (-1, o)
           end = Some (r, o1) /\ carrying t0 k u bs1 rs1 o1 /\ kept_cfg o o1 /\
    data (all_recs bs1) ++ rs1 = data (all_recs bs) ++ rs ++ accepted o [e] [r]) as (r & o1 & bs1 & rs1 & E & Hc1 & Hk1 & Ed1).
  { destruct e as [h pkt d|now].
    - destruct (packet_step _ _ _ _ _ _ h pkt d Hc He) as (r & o1 & bs1 & rs1 & E & Hc1 & Hk1 & Ed). exists r, o1, bs1, rs1. split_and!; try done. cbn [accepted]. by rewrite app_nil_r.
    - destruct (beat_step _ _ _ _ _ _ now Hc) as (o1 & bs1 & rs1 & -> & Hc1 & Hk1 & Ed). exists (-1), o1, bs1, rs1. split_and!; try done. cbn [accepted]. by rewrite app_nil_r. }
  cbn [zmq_run]. rewrite E. obind. cbn [fst snd]. destruct (IH _ _ _ Hc1) as (rets & o2 & bs2 & rs2 & -> & Hc2 & Ed2). obind. cbn [fst snd].
  exists (r :: rets), o2, bs2, rs2. split; [done|]. split; [done|]. rewrite Ed2, (accepted_kept o o1) by done. rewrite app_assoc, Ed1, <- !app_assoc.
  destruct e; cbn [accepted]; by rewrite ?app_nil_r.
Qed.

Lemma destroy_carries t0 k u bs rs o : carrying t0 k u bs rs o ->
  exists o' bs', zmq_output_destroy net_send o = Some o' /\ delivered t0 k u bs' (env o') (stats (common o')) /\ data (all_recs bs') = data (all_recs bs) ++ rs.
Proof.
  intros [Hw (bytes & Hb) [Hk Hu] Hd Hs]. unfold zmq_output_destroy. destruct (Z.ltb_spec 0 (pkts_num (pkts_buf o))) as [Hp|Hp].
  - destruct (zmq_flush_ok net_send o rs 0 bytes Hw Hb) as (rc & w & o' & Es & Ef & _ & _ & _ & Ew & _ & Est & _). exists o', (bs ++ [(bool_decide (rc = None), rs)]).
    destruct (batch_sendable _ _ _ _ Hb) as [Hr Hy]. destruct (data_all _ Hd) as [Ed Et]. split; [done|]. split.
    + rewrite Ew, Est, <- Hk, <- Hu in *. subst k u. apply (delivered_flush _ _ _ _ _ _ rs 0 bytes rc w Hs Es Hr); [by rewrite Et|done].
    + by rewrite all_recs_snoc, data_app, Ed.
  - exists o, bs. split; [done|]. split; [done|]. rewrite (bt_num _ _ _ _ Hb) in Hp. pose proof (zlen_nonneg rs). assert (zlen rs = 0) as H0 by lia.
    apply zlen_0_nil in H0 as ->. by rewrite app_nil_r.
Qed.

(** A record as it stands in the file. *)
Definition file_entry (r : zrec) : pcap_pkthdr * list Z := (Pkthdr (z_sec r) (z_usec r) (z_caplen r) (z_len r), z_frame r).

Lemma dumped rs d : foldl (dump_rec list_dump) d rs = d ++ (file_entry <$> rs).
Proof. revert d. induction rs as [|r rs IH]; intros d; [by rewrite app_nil_r|]. cbn [foldl]. rewrite IH. unfold dump_rec, list_dump. by rewrite <- app_assoc. Qed.

Lemma written_all k u (rss : list (list zrec)) : forall d, written ((fun rs => (k, u, rs)) <$> rss) d = d ++ (file_entry <$> concat rss).
Proof.
  unfold written. induction rss as [|rs rss IH]; intros d; [by rewrite app_nil_r|]. rewrite fmap_cons. cbn [foldl fst snd concat].
  by rewrite IH, dumped, fmap_app, app_assoc.
Qed.

(** The new output holds nothing and nothing was sent. *)
Lemma new_carrying ts cl tag mbps sl hb us o : sl < 2147483648 ->
  zmq_output_new net_now tag mbps sl hb us output_stats_zero (Net ts cl []) = Some o ->
  carrying ts (keybit (pkts_buf o)) (uuid (pkts_buf o)) [] [] o.
Proof.
  intros Hsl E. destruct (zmq_new_wf net_now _ _ _ _ _ _ _ _ stats_zero_wf Hsl E) as [Hw Hb].
  assert (sent (env o) = [] /\ takes (env o) = ts /\ stats (common o) = output_stats_zero) as (Es & Et & Est).
  { unfold zmq_output_new in E. destruct (match us with [] => _ | _ => _ end) as [x|]; obind; [|done]. unfold net_now in E. destruct cl; cbn in E; by injection E as <-. }
  constructor; try done; [by exists 0|]. rewrite Est. constructor; try done; try apply stats_zero_wf. intros Ha. rewrite Et. by split.
Qed.

(** C8: a whole run of the ZMQ output, from its construction to its
    destruction, over any packets and heartbeats and whichever messages the
    network refuses, and the receiver's file.  Nothing goes out of bounds on
    either side.  The records of the accepted packets (their frames, sliced
    and tagged) go out in order in some batches, with heartbeats between them;
    the file of a receiver that could start holds the records of just the
    batches the network took; and these, heartbeats apart, are what the probe
    counts as forwarded.  When the network takes every message the file
    holds every accepted packet, in order. *)
Theorem zmq_delivers (ts : list bool) (cl : list timeval) (tag mbps sl hb : Z) (us : list Z) (es : list zevent) (o : output) (st : store) :
  sl < 2147483648 -> zmq_output_new net_now tag mbps sl hb us output_stats_zero (Net ts cl []) = Some o ->
  Forall zevent_ok es -> in_netns st = false ->
  exists rets o1 o2 bs, zmq_run es o = Some (rets, o1) /\ zmq_output_destroy net_send o1 = Some o2 /\
    data (all_recs bs) = accepted o es rets /\
    match recv_main true true (Some <$> sent (env o2)) st with
    | Ret (code, d) st' => held st' = held st /\ (code = 0 -> d = file_entry <$> concat (taken bs))
    | Exit => True
    | Fault _ | UB => False
    end /\
    eqm packets_range (packets_value (fwd_packets (stats (common o2)))) (zlen (data (concat (taken bs)))) /\
    eqm packets_range (packets_value (heartbeat_packets (stats (common o2)))) (zlen (beats (concat (taken bs)))) /\
    (Forall (fun t => t = true) ts -> data (concat (taken bs)) = accepted o es rets).
Proof.
  intros Hsl E Hes Hn. pose proof (new_carrying ts cl _ _ _ _ _ _ Hsl E) as Hc0. pose proof (ca_batch _ _ _ _ _ _ Hc0) as (by0 & Hb0).
  destruct (bt_uuid _ _ _ _ Hb0) as [Hub Hul].
  destruct (run_carries _ _ _ es Hes _ _ _ Hc0) as (rets & o1 & bs1 & rs1 & Er & Hc1 & Ed1). destruct (destroy_carries _ _ _ _ _ _ Hc1) as (o2 & bs & Ed & Hd2 & Ea).
  exists rets, o1, o2, bs. split; [done|]. split; [done|]. rewrite Ed1 in Ea. split; [done|]. destruct Hd2 as [Hs Ho _ Hf Hb Hall]. split; [|split; [done|split; [done|]]].
  - set (k := keybit (pkts_buf o)) in *. set (u := uuid (pkts_buf o)) in *.
    assert (Some <$> sent (env o2) = (fun b => Some (message b)) <$> ((fun rs => (k, u, rs)) <$> taken bs)) as -> by (by rewrite Hs, <- !list_fmap_compose).
    assert (Forall batch_ok ((fun rs => (k, u, rs)) <$> taken bs)) as Hok.
    { apply Forall_fmap. unfold taken. apply Forall_fmap. apply list.Forall_forall. intros [b rs] Hx. apply list_elem_of_filter in Hx as [_ Hx]. rewrite list.Forall_forall in Ho. by destruct (Ho _ Hx). }
    pose proof (recv_main_ok true _ (held st) Hok st eq_refl Hn) as H. destruct (recv_main true true _ st) as [[code d] st'| | |]; [|done..].
    destruct H as (_ & -> & H). split; [done|]. intros ->. destruct H as [[_ Hd]|[=]]. cbn [snd] in Hd. rewrite Hd. apply (written_all k u).
  - intros Ht. destruct (Hall Ht) as [_ Hb']. transitivity (data (all_recs bs)); [|exact Ea]. f_equal. unfold taken, all_recs. f_equal. f_equal.
    clear -Hb'. induction Hb' as [|b bs Hb Hbs IH]; [done|]. by rewrite filter_cons_True, IH.
Qed.

(** *** Witness

    Two packets in one batch that leaves with a heartbeat, and a third that
    is sent when the output is destroyed; the network refuses that message. *)

Definition demo_events : list zevent :=
  [ZPacket (Pkthdr 19 3 17 60) (demo_frame false) 1; ZPacket (Pkthdr 19 4 21 64) (demo_frame true) 2; ZHeartbeat 25;
   ZPacket (Pkthdr 30 5 17 60) (demo_frame false) 1; ZPacket (Pkthdr 30 6 5 60) (replicate 5 0) 1].
Definition demo_takes : list bool := [true; true; false].
Definition demo_clock : list timeval := [Timeval 18 0; Timeval 25 7].

Definition demo_zmq : output :=
  default (Zmq (common_new output_stats_zero 0 0) 0 (PktsBuf 0 0 [] [] 24 0 0 0) 0 (Timeval 0 0) (ErrorInfo 0 0 0 0 None) (Net [] [] []))
    (zmq_output_new net_now 418 0 0 1000 [] output_stats_zero (Net demo_takes demo_clock [])).

Lemma zmq_delivers_witness :
  exists o1 o2 bs, zmq_run demo_events demo_zmq = Some ([0; 0; -1; 0; -1], o1) /\ zmq_output_destroy net_send o1 = Some o2 /\
    zlen (sent (env o2)) = 2 /\ data (all_recs bs) = accepted demo_zmq demo_events [0; 0; -1; 0; -1] /\
    eqm packets_range (packets_value (fwd_packets (stats (common o2)))) (zlen (data (concat (taken bs)))).
Proof.
  destruct (zmq_delivers demo_takes demo_clock 418 0 0 1000 [] demo_events demo_zmq (Store ∅ 0 [] false)) as (rets & o1 & o2 & bs & Er & Ed & Ea & _ & Hf & _).
  - lia.
  - vm_compute. reflexivity.
  - repeat constructor; vm_compute; congruence.
  - reflexivity.
  - assert (fst <$> zmq_run demo_events demo_zmq = Some [0; 0; -1; 0; -1]) as E1 by (vm_compute; reflexivity).
    assert ((fun r => zlen (sent (env r))) <$> (zmq_run demo_events demo_zmq ≫= fun r => zmq_output_destroy net_send r.2) = Some 2) as E2 by (vm_compute; reflexivity).
    rewrite Er in E1, E2. cbn [fmap option_fmap option_map fst snd mbind option_bind] in E1, E2. rewrite Ed in E2. injection E1 as ->. injection E2 as E2.
    exists o1, o2, bs. split; [exact Er|]. split; [exact Ed|]. split; [exact E2|]. split; [exact Ea|exact Hf].
Defined.
