(* ===== verification/Options.v ===== *)
(** * Command lines (main.c, recvzmq/main.c)

    Both programs read their options with [getopt_long] and keep the last
    value of each.  [getopt_long] is modelled as the C library documents it:
    short options may be grouped, long ones abbreviated, an argument may be
    joined to its option or follow it, and words that are no options are
    collected behind the others.  [spells] says which words are which options;
    the theorems: [getopt_long] reads a command line just when it spells
    options, and the programs start just with the command lines that are
    meant to start them. *)

From stdpp Require Import prelude list strings.
From Stdlib Require Import Ascii String.
From S2P Require Import Prelude.

Local Open Scope string_scope.
Local Open Scope char_scope.

(** ** [getopt_long] *)

(** [struct option]: the name, whether it takes an argument, and the letter
    it is answered as. *)
Record long_option := LongOption { lo_name : string; lo_arg : bool; lo_val : ascii }.

(** The options of a program; of the short ones, those that take an
    argument are followed by a colon in the C text. *)
Record options := Options { shorts : list (ascii * bool); longs : list long_option }.

(** An answer of [getopt_long]: an option with its argument, or [?]. *)
Inductive answer := Opt (c : ascii) (optarg : option string) | Invalid.

(** What is left of the command line: the rest of a group of short options,
    the words to come, and the words passed over. *)
Record scan := Scan { group : string; words : list string; others : list string }.

Section getopt.
  Context (o : options).

Fixpoint short_arg (c : ascii) (l : list (ascii * bool)) : option bool :=
  match l with
  | [] => None
  | (d, arg) :: l => if Ascii.eqb c d then Some arg else short_arg c l
  end.

(** An option that was found: [joined] is the argument that is part of its word. *)
Definition take_arg (c : ascii) (joined : option string) (ws os : list string) : answer * scan :=
  match joined, ws with
  | Some a, _ => (Opt c (Some a), Scan EmptyString ws os)
  | None, a :: ws => (Opt c (Some a), Scan EmptyString ws os)
  | None, [] => (Invalid, Scan EmptyString ws os)
  end.

Definition short_option (c : ascii) (rest : string) (ws os : list string) : answer * scan :=
  match short_arg c (shorts o) with
  | None => (Invalid, Scan rest ws os)
  | Some false => (Opt c None, Scan rest ws os)
  | Some true => take_arg c (match rest with EmptyString => None | _ => Some rest end) ws os
  end.

(** The name of a long option and what follows its first [=]. *)
Fixpoint split_eq (s : string) : string * option string :=
  match s with
  | EmptyString => (EmptyString, None)
  | String c s => if Ascii.eqb c "=" then (EmptyString, Some s)
                  else let '(n, v) := split_eq s in (String c n, v)
  end.

(** An exact name, or else the only option the name is the beginning of
    (no two options of a program answer the same letter). *)
Definition find_long (name : string) : option long_option :=
  match filter (fun l => lo_name l = name) (longs o) with
  | l :: _ => Some l
  | [] => match filter (fun l => String.prefix name (lo_name l) = true) (longs o) with [l] => Some l | _ => None end
  end.

Definition long_option_word (s : string) (ws os : list string) : answer * scan :=
  let '(name, value) := split_eq s in
  match find_long name with
  | None => (Invalid, Scan EmptyString ws os)
  | Some l =>
      if lo_arg l then take_arg (lo_val l) value ws os
      else match value with
           | Some _ => (Invalid, Scan EmptyString ws os)
           | None => (Opt (lo_val l) None, Scan EmptyString ws os)
           end
  end.

Inductive word := Plain | Dashes | Long (s : string) | Short (c : ascii) (rest : string).

Definition word_kind (w : string) : word :=
  match w with
  | String d (String c rest) =>
      if negb (Ascii.eqb d "-") then Plain
      else if negb (Ascii.eqb c "-") then Short c rest
      else match rest with EmptyString => Dashes | _ => Long rest end
  | _ => Plain
  end.

(** The next word that is an option; [None] is the answer [-1]. *)
Fixpoint next_word (ws os : list string) : option answer * scan :=
  match ws with
  | [] => (None, Scan EmptyString [] os)
  | w :: ws =>
      match word_kind w with
      | Dashes => (None, Scan EmptyString [] (os ++ ws))
      | Long s => let '(a, st) := long_option_word s ws os in (Some a, st)
      | Short c rest => let '(a, st) := short_option c rest ws os in (Some a, st)
      | Plain => next_word ws (os ++ [w])
      end
  end.

Definition getopt_long (st : scan) : option answer * scan :=
  match group st with
  | String c rest => let '(a, st) := short_option c rest (words st) (others st) in (Some a, st)
  | EmptyString => next_word (words st) (others st)
  end.

End getopt.

(** ** The programs *)

(** What [getopt_long] can still consume. *)
Definition size (st : scan) : nat :=
  (String.length (group st) + sum_list_with (fun w => S (String.length w)) (words st))%nat.

Section loop.
  Context {A : Type} (o : options) (handle : A -> ascii -> option string -> A + Z).

(** [while ((c = getopt_long(argc, argv, ...)) != -1) switch (c)]: an exit
    status, or the variables set and the words that are no options.  [None]:
    out of fuel. *)
Fixpoint opts_loop (fuel : nat) (st : scan) (a : A) : option (Z + (A * list string)) :=
  match fuel with
  | O => None
  | S fuel =>
      match getopt_long o st with
      | (None, st) => Some (inr (a, others st))
      | (Some Invalid, _) => Some (inl 1)
      | (Some (Opt c optarg), st) =>
          match handle a c optarg with
          | inl a => opts_loop fuel st a
          | inr status => Some (inl status)
          end
      end
  end.
End loop.

Definition start (args : list string) : scan := Scan EmptyString args [].

(** [cpworker]: the configuration file, or the status of the exit. *)
Definition worker_options : options :=
  Options [("c", true); ("h", false); ("v", false)]
    [LongOption "config" true "c"; LongOption "help" false "h"; LongOption "version" false "v"].

Definition worker_option (config_file : option string) (c : ascii) (optarg : option string) : option string + Z :=
  if Ascii.eqb c "c" then inl optarg else if Ascii.eqb c "h" || Ascii.eqb c "v" then inr 0%Z else inr 1%Z.

Definition worker_parse_opts (args : list string) : option (Z + string) :=
  match opts_loop worker_options worker_option (S (size (start args))) (start args) None with
  | None => None
  | Some (inl status) => Some (inl status)
  | Some (inr (config_file, nonopts)) =>
      Some (match nonopts, config_file with
            | _ :: _, _ => inl 1%Z
            | [], None => inl 1%Z
            | [], Some f => inr f
            end)
  end.

(** [recvzmq]: the address to bind and the file to write. *)
Definition receiver_options : options :=
  Options [("b", true); ("o", true); ("h", false)]
    [LongOption "bind" true "b"; LongOption "output" true "o"; LongOption "help" false "h"].

Definition receiver_option (v : string * string) (c : ascii) (optarg : option string) : string * string + Z :=
  let '(bind_address, out_file) := v in
  if Ascii.eqb c "b" then inl (default EmptyString optarg, out_file)
  else if Ascii.eqb c "o" then inl (bind_address, default EmptyString optarg)
  else if Ascii.eqb c "h" then inr 0%Z else inr 1%Z.

Definition receiver_parse_opts (args : list string) : option (Z + string * string) :=
  match opts_loop receiver_options receiver_option (S (size (start args))) (start args) ("tcp://*:5555"%string, EmptyString) with
  | None => None
  | Some (inl status) => Some (inl status)
  | Some (inr (v, nonopts)) => Some (match nonopts with _ :: _ => inl 1%Z | [] => inr v end)
  end.

(** ** What a command line says *)

Section spells.
  Context (o : options).

(** A group of short options, and the words before and after it took its argument. *)
Inductive grouped : string -> list string -> list (ascii * option string) -> list string -> Prop :=
  | g_end ws : grouped EmptyString ws [] ws
  | g_flag c g ws es ws' : short_arg c (shorts o) = Some false -> grouped g ws es ws' -> grouped (String c g) ws ((c, None) :: es) ws'
  | g_joined c a ws : short_arg c (shorts o) = Some true -> a <> EmptyString -> grouped (String c a) ws [(c, Some a)] ws
  | g_next c a ws : short_arg c (shorts o) = Some true -> grouped (String c EmptyString) (a :: ws) [(c, Some a)] ws.

(** A word that is no option: it does not start with a dash, or is one. *)
Definition plain_word (w : string) : Prop := forall c g, w <> String "-" (String c g).

(** Words, the options they spell, and the words that are no options. *)
Inductive spells : list string -> list (ascii * option string) -> list string -> Prop :=
  | s_end : spells [] [] []
  | s_dashes ws : spells ("--"%string :: ws) [] ws
  | s_plain w ws es os : plain_word w -> spells ws es os -> spells (w :: ws) es (w :: os)
  | s_group c g ws es ws' es' os : c <> "-" -> grouped (String c g) ws es ws' -> spells ws' es' os ->
      spells (String "-" (String c g) :: ws) (es ++ es') os
  | s_flag n l ws es os : split_eq n = (n, None) -> n <> EmptyString -> find_long o n = Some l -> lo_arg l = false -> spells ws es os ->
      spells (("--" ++ n)%string :: ws) ((lo_val l, None) :: es) os
  | s_joined n a l ws es os : split_eq n = (n, None) -> find_long o n = Some l -> lo_arg l = true -> spells ws es os ->
      spells (("--" ++ n ++ "=" ++ a)%string :: ws) ((lo_val l, Some a) :: es) os
  | s_next n a l ws es os : split_eq n = (n, None) -> n <> EmptyString -> find_long o n = Some l -> lo_arg l = true -> spells ws es os ->
      spells (("--" ++ n)%string :: a :: ws) ((lo_val l, Some a) :: es) os.
End spells.

Section reads.
  Context {A : Type} (o : options) (handle : A -> ascii -> option string -> A + Z).

(** Handling options one after another. *)
Fixpoint handle_all (es : list (ascii * option string)) (a : A) : A + Z :=
  match es with
  | [] => inl a
  | (c, arg) :: es => match handle a c arg with inl a => handle_all es a | inr z => inr z end
  end.

(** What a state of the scan still says. *)
Definition reads (st : scan) (es : list (ascii * option string)) (os : list string) : Prop :=
  exists es1 es2 ws, grouped o (group st) (words st) es1 ws /\ spells o ws es2 os /\ es = (es1 ++ es2)%list.

Lemma split_eq_eq n a : split_eq n = (n, None) -> split_eq (n ++ "=" ++ a)%string = (n, Some a).
Proof.
  induction n as [|c n IH]; intros E; [done|]. change (split_eq (String c n) = (String c n, None)) in E.
  change (split_eq (String c (n ++ "=" ++ a)) = (String c n, Some a)). cbn [split_eq] in *. destruct (Ascii.eqb c "=") eqn:Ec; [done|].
  destruct (split_eq n) as [m v]. injection E as -> ->. by rewrite IH.
Qed.
Lemma split_eq_inv s n v : split_eq s = (n, v) ->
  split_eq n = (n, None) /\ s = match v with None => n | Some a => (n ++ "=" ++ a)%string end.
Proof.
  revert n v. induction s as [|c s IH]; cbn; intros n v E; [by injection E as <- <-|]. destruct (Ascii.eqb c "=") eqn:Ec.
  - injection E as <- <-. split; [done|]. by apply Ascii.eqb_eq in Ec as ->.
  - destruct (split_eq s) as [m w]. injection E as <- <-. destruct (IH m w eq_refl) as [E1 E2]. cbn. rewrite Ec, E1. split; [done|]. rewrite E2. by destruct w.
Qed.

Lemma short_reads c g ws os a st : short_option o c g ws os = (a, st) ->
  match a with
  | Invalid => True
  | Opt c' arg => others st = os /\ (size st < size (Scan (String c g) ws os))%nat /\
      forall es os', reads st es os' -> exists es1 es2 ws', grouped o (String c g) ws es1 ws' /\ spells o ws' es2 os' /\ (c', arg) :: es = (es1 ++ es2)%list
  end.
Proof.
  unfold short_option, take_arg. intros E. destruct (short_arg c (shorts o)) as [[]|] eqn:Ec; simplify_eq; [|repeat split..].
  - destruct g as [|d g]; [destruct ws as [|w ws]|]; simplify_eq; cbn; [done|..]; (split; [done|]); (split; [unfold size; cbn; lia|]); intros es os' (es1 & es2 & ws' & Hg & Hs & ->); inversion Hg; subst; cbn;
      eexists [_], es2, _; (split; [by constructor|]); done.
  - unfold size. cbn. lia.
  - intros es os' (es1 & es2 & ws' & Hg & Hs & ->). eexists (_ :: es1), es2, ws'. split; [by constructor|]. done.
Qed.

Lemma long_reads s ws os a st : s <> EmptyString -> long_option_word o s ws os = (a, st) ->
  match a with
  | Invalid => True
  | Opt c arg => others st = os /\ (size st < size (Scan EmptyString (("--" ++ s)%string :: ws) os))%nat /\
      forall es os', reads st es os' -> spells o (("--" ++ s)%string :: ws) ((c, arg) :: es) os'
  end.
Proof.
  unfold long_option_word, take_arg. intros Hs E. destruct (split_eq s) as [n v] eqn:En. destruct (split_eq_inv _ _ _ En) as [Hn ->].
  destruct (find_long o n) as [l|] eqn:El; [|by simplify_eq]. destruct (lo_arg l) eqn:Ea, v as [v|]; [|destruct ws as [|w ws]| |]; simplify_eq; try done; cbn [others].
  all: split; [done|]; split; [unfold size; cbn; lia|]; intros es os' (es1 & es2 & ws' & Hg & Hp & ->); inversion Hg; subst; cbn [app].
  - by apply s_joined.
  - by apply s_next.
  - by apply s_flag.
Qed.

Lemma word_kind_spec w :
  match word_kind w with
  | Plain => plain_word w
  | Dashes => w = "--"%string
  | Long s => s <> EmptyString /\ w = ("--" ++ s)%string
  | Short c g => c <> "-" /\ w = String "-" (String c g)
  end.
Proof.
  destruct w as [|d [|c g]]; cbn; [by intros ? ?|by intros ? ?|]. destruct (Ascii.eqb_spec d "-") as [->|Hd]; cbn; [|by intros c' g' [= -> _]].
  destruct (Ascii.eqb_spec c "-") as [->|Hc]; cbn; [|done]. by destruct g.
Qed.

Lemma next_reads ws : forall os0 r st, next_word o ws os0 = (r, st) ->
  match r with
  | None => exists os, others st = (os0 ++ os)%list /\ spells o ws [] os
  | Some Invalid => True
  | Some (Opt c a) => exists os1, others st = (os0 ++ os1)%list /\ (size st < size (Scan EmptyString ws os0))%nat /\
      forall es os', reads st es os' -> spells o ws ((c, a) :: es) (os1 ++ os')
  end.
Proof.
  induction ws as [|w ws IH]; intros os0 r st E; cbn [next_word] in E.
  { simplify_eq. exists []. cbn. rewrite app_nil_r. split; [done|constructor]. }
  pose proof (word_kind_spec w) as Hw. destruct (word_kind w) as [| |s|c g].
  - apply IH in E. destruct r as [[c a|]|]; [|done|]; cycle 1.
    + destruct E as (os & -> & Hs). exists (w :: os). rewrite <- app_assoc. split; [done|]. by constructor.
    + destruct E as (os1 & -> & Hz & Hr). exists (w :: os1). rewrite <- app_assoc. split; [done|]. split; [unfold size in *; cbn in *; lia|].
      intros es os' H. cbn. constructor; [done|]. by apply Hr.
  - simplify_eq. exists ws. split; [done|]. constructor.
  - destruct Hw as [Hs ->]. destruct (long_option_word o s ws os0) as [a st'] eqn:El. injection E as <- <-.
    apply long_reads in El; [|done]. destruct a as [c a|]; [|done]. destruct El as (-> & Hz & Hr). exists []. rewrite app_nil_r. by repeat split.
  - destruct Hw as [Hc ->]. destruct (short_option o c g ws os0) as [a st'] eqn:El. injection E as <- <-.
    apply short_reads in El. destruct a as [c' a|]; [|done]. destruct El as (-> & Hz & Hr). exists []. rewrite app_nil_r.
    split; [done|]. split; [unfold size in *; cbn in *; lia|]. intros es os' H. destruct (Hr es os' H) as (es1 & es2 & ws' & Hg & Hp & ->). by apply s_group with (ws' := ws').
Qed.

Lemma getopt_reads st r st' : getopt_long o st = (r, st') ->
  match r with
  | None => group st = EmptyString /\ exists os, others st' = (others st ++ os)%list /\ reads st [] os
  | Some Invalid => True
  | Some (Opt c a) => exists os1, others st' = (others st ++ os1)%list /\ (size st' < size st)%nat /\
      forall es os', reads st' es os' -> reads st ((c, a) :: es) (os1 ++ os')
  end.
Proof.
  destruct st as [g ws os0]. unfold getopt_long. cbn [group words others]. destruct g as [|c g]; intros E.
  - apply next_reads in E. destruct r as [[c a|]|]; [|done|].
    + destruct E as (os1 & -> & Hz & Hr). exists os1. split; [done|]. split; [done|]. intros es os' H. eexists [], _, ws. split; [constructor|]. split; [by apply Hr|done].
    + destruct E as (os & -> & Hs). split; [done|]. exists os. split; [done|]. exists [], [], ws. split; [constructor|]. done.
  - destruct (short_option o c g ws os0) as [a st2] eqn:El. injection E as <- <-. apply short_reads in El. destruct a as [c' a|]; [|done].
    destruct El as (-> & Hz & Hr). exists []. rewrite app_nil_r. split; [done|]. split; [done|]. intros es os' H. destruct (Hr es os' H) as (es1 & es2 & ws' & Hg & Hp & E). by exists es1, es2, ws'.
Qed.

(** The loop ends, and what it leaves is what the command line says. *)
Lemma opts_loop_reads fuel st a : (size st < fuel)%nat ->
  exists r, opts_loop o handle fuel st a = Some r /\
    forall a' os, r = inr (a', os) -> exists es os1, reads st es os1 /\ os = (others st ++ os1)%list /\ handle_all es a = inl a'.
Proof.
  revert st a. induction fuel as [|fuel IH]; intros st a Hf; [lia|]. cbn [opts_loop]. destruct (getopt_long o st) as [r st'] eqn:E. apply getopt_reads in E.
  destruct r as [[c arg|]|]; [|by eexists|].
  - destruct E as (os1 & Eo & Hz & Hr). destruct (handle a c arg) as [a1|z] eqn:Eh; [|by eexists]. destruct (IH st' a1 ltac:(lia)) as (r & -> & H). exists r. split; [done|].
    intros a' os ->. destruct (H a' os eq_refl) as (es & os2 & Hr2 & -> & Hh). exists ((c, arg) :: es), (os1 ++ os2)%list. split; [by apply Hr|]. split; [by rewrite Eo, app_assoc|]. cbn. by rewrite Eh.
  - destruct E as (_ & os & Eo & Hr). eexists. split; [done|]. intros a' os' [= <- <-]. by exists [], os.
Qed.

Lemma handle_all_app es es' a : handle_all (es ++ es') a = match handle_all es a with inl a => handle_all es' a | inr z => inr z end.
Proof. revert a. induction es as [|[c arg] es IH]; intros a; [done|]. cbn. destruct (handle a c arg); [apply IH|done]. Qed.

Lemma grouped_runs g ws es ws' : grouped o g ws es ws' -> forall os0 a fuel, (size (Scan g ws os0) < fuel)%nat ->
  exists fuel', (size (Scan EmptyString ws' os0) < fuel')%nat /\
    opts_loop o handle fuel (Scan g ws os0) a =
      match handle_all es a with inl a => opts_loop o handle fuel' (Scan EmptyString ws' os0) a | inr z => Some (inl z) end.
Proof.
  induction 1 as [ws|c g ws es ws' Hc Hg IH|c v ws Hc Hv|c v ws Hc]; intros os0 a fuel Hf.
  { by exists fuel. }
  all: destruct fuel as [|fuel]; [lia|]; cbn [opts_loop getopt_long group words others]; unfold short_option; rewrite Hc; unfold take_arg; cbn [handle_all].
  - destruct (handle a c None) as [a1|z]; [|exists (S fuel); split; [|done]]; cycle 1.
    { destruct (IH os0 a (S fuel)) as (f & Hf' & _); [unfold size in *; cbn in *; lia|]. clear -Hg Hf Hf'. revert Hf. assert (sum_list_with (fun w => S (String.length w)) ws' <= sum_list_with (fun w => S (String.length w)) ws)%nat as H. { clear -Hg. induction Hg; cbn in *; lia. } unfold size. cbn. lia. }
    apply IH. unfold size in *. cbn in *. lia.
  - destruct v as [|d v]; [done|]. exists fuel. split; [unfold size in *; cbn in *; lia|]. by destruct (handle a c (Some (String d v))).
  - exists fuel. split; [unfold size in *; cbn in *; lia|]. by destruct (handle a c (Some v)).
Qed.

Lemma word_kind_long s : s <> EmptyString -> word_kind ("--" ++ s) = Long s.
Proof. by destruct s. Qed.

Lemma spells_runs ws es os : spells o ws es os -> forall os0 a fuel, (size (Scan EmptyString ws os0) < fuel)%nat ->
  opts_loop o handle fuel (Scan EmptyString ws os0) a =
    match handle_all es a with inl a => Some (inr (a, (os0 ++ os)%list)) | inr z => Some (inl z) end.
Proof.
  induction 1 as [|ws|w ws es os Hw Hs IH|c g ws es ws' es' os Hc Hg Hs IH|n l ws es os Hn Hn0 Hl Ha Hs IH|n v l ws es os Hn Hl Ha Hs IH|n v l ws es os Hn Hn0 Hl Ha Hs IH]; intros os0 a fuel Hf.
  - destruct fuel; [lia|]. cbn. by rewrite app_nil_r.
  - destruct fuel; [lia|]. done.
  - assert (opts_loop o handle fuel (Scan EmptyString (w :: ws) os0) a = opts_loop o handle fuel (Scan EmptyString ws (os0 ++ [w])) a) as ->.
    { destruct fuel; [done|]. cbn [opts_loop getopt_long group words others next_word]. pose proof (word_kind_spec w) as Hk.
      destruct (word_kind w) as [| |s|c g]; [done|subst w; by destruct (Hw "-" EmptyString)|destruct Hk as [_ ->]; by destruct (Hw "-" s)|destruct Hk as [_ ->]; by destruct (Hw c g)]. }
    rewrite IH by (unfold size in *; cbn in *; lia). by rewrite <- app_assoc.
  - assert (opts_loop o handle fuel (Scan EmptyString (String "-" (String c g) :: ws) os0) a = opts_loop o handle fuel (Scan (String c g) ws os0) a) as ->.
    { destruct fuel; [done|]. cbn [opts_loop getopt_long group words others next_word word_kind]. by rewrite (proj2 (Ascii.eqb_neq c "-") Hc). }
    destruct (grouped_runs _ _ _ _ Hg os0 a fuel) as (fuel' & Hf' & ->); [unfold size in *; cbn in *; lia|]. rewrite handle_all_app. destruct (handle_all es a); [|done]. by apply IH.
  - destruct fuel; [lia|]. cbn [opts_loop getopt_long group words others next_word]. rewrite word_kind_long by done. unfold long_option_word. rewrite Hn, Hl, Ha. cbn [handle_all].
    destruct (handle a (lo_val l) None); [|done]. apply IH. unfold size in *. cbn in *. lia.
  - destruct fuel; [lia|]. cbn [opts_loop getopt_long group words others next_word]. rewrite word_kind_long by (by destruct n). unfold long_option_word. rewrite split_eq_eq by done. rewrite Hl, Ha. cbn [handle_all take_arg].
    destruct (handle a (lo_val l) (Some v)); [|done]. apply IH. unfold size in *. cbn in *. lia.
  - destruct fuel; [lia|]. cbn [opts_loop getopt_long group words others next_word]. rewrite word_kind_long by done. unfold long_option_word. rewrite Hn, Hl, Ha. cbn [handle_all take_arg].
    destruct (handle a (lo_val l) (Some v)); [|done]. apply IH. unfold size in *. cbn in *. lia.
Qed.

(** The loop over a whole command line. *)
Lemma opts_loop_spells args a a' os :
  opts_loop o handle (S (size (start args))) (start args) a = Some (inr (a', os)) <-> exists es, spells o args es os /\ handle_all es a = inl a'.
Proof.
  split.
  - intros E. destruct (opts_loop_reads (S (size (start args))) (start args) a ltac:(lia)) as (r & E' & H). rewrite E in E'. injection E' as <-.
    destruct (H a' os eq_refl) as (es & os1 & (es1 & es2 & ws & Hg & Hs & ->) & -> & Hh). inversion Hg; subst. by exists es2.
  - intros (es & Hs & Hh). unfold start. rewrite (spells_runs _ _ _ Hs) by (unfold start; lia). by rewrite Hh.
Qed.
End reads.

(** Which options come with an argument. *)
Definition consistent (o : options) (e : ascii * option string) : Prop :=
  short_arg e.1 (shorts o) = Some (bool_decide (is_Some e.2)) \/
  exists l, l ∈ longs o /\ lo_val l = e.1 /\ lo_arg l = bool_decide (is_Some e.2).

Lemma find_long_in o n l : find_long o n = Some l -> l ∈ longs o.
Proof.
  unfold find_long. intros E. destruct (filter (fun l => lo_name l = n) (longs o)) as [|l1 r] eqn:E1.
  - destruct (filter (fun l => String.prefix n (lo_name l) = true) (longs o)) as [|l2 [|]] eqn:E2; simplify_eq.
    assert (l ∈ [l]) as H by set_solver. rewrite <- E2 in H. by apply list_elem_of_filter in H as [_ ?].
  - injection E as ->. assert (l ∈ l :: r) as H by set_solver. rewrite <- E1 in H. by apply list_elem_of_filter in H as [_ ?].
Qed.

Lemma grouped_consistent o g ws es ws' : grouped o g ws es ws' -> Forall (consistent o) es.
Proof. induction 1; repeat constructor; try done. Qed.

Lemma spells_consistent o ws es os : spells o ws es os -> Forall (consistent o) es.
Proof.
  induction 1; try done; [apply Forall_app; split; [by eapply grouped_consistent|done]|..]; constructor; try done; right; eexists; (split; [by eapply find_long_in|]); done.
Qed.

Lemma worker_all es a r : Forall (consistent worker_options) es ->
  handle_all worker_option es a = inl r <-> exists gs, es = map (fun g => ("c", Some g)) gs /\ r = match last gs with Some g => Some g | None => a end.
Proof.
  intros Hc. revert a. induction Hc as [|[c arg] es He Hes IH]; intros a.
  { split; [intros [= <-]; by exists []|]. intros ([|g gs] & Eg & ->); done. }
  cbn [handle_all]. unfold worker_option at 1. destruct (Ascii.eqb_spec c "c") as [->|Hn]; cycle 1.
  { split; [by destruct (Ascii.eqb c "h" || Ascii.eqb c "v")|]. intros ([|g gs] & Eg & _); [done|]. cbn in Eg. congruence. }
  destruct arg as [v|]; cycle 1.
  { exfalso. destruct He as [E|(l & Hl & Ev & Ea)]; [done|]. cbn [longs worker_options] in Hl. rewrite !elem_of_cons in Hl. destruct Hl as [->|[->|[->|Hl]]]; try done. by apply not_elem_of_nil in Hl. }
  rewrite IH. split; intros (gs & Eg & ->).
  - exists (v :: gs). subst es. split; [done|]. rewrite last_cons. by destruct (last gs).
  - destruct gs as [|g gs]; [done|]. cbn [map] in Eg. injection Eg as <- Eg. exists gs. split; [done|]. rewrite last_cons. by destruct (last gs).
Qed.

(** [cpworker] always decides on its arguments, and it starts with the
    configuration file [f] just when the arguments spell nothing but options
    [-c], the last of them with [f]. *)
Theorem worker_starts (args : list string) :
  (exists r, worker_parse_opts args = Some r) /\
  forall f, worker_parse_opts args = Some (inr f) <->
    exists gs, spells worker_options args (map (fun g => ("c", Some g)) gs) [] /\ last gs = Some f.
Proof.
  split.
  - unfold worker_parse_opts. destruct (opts_loop_reads worker_options worker_option (S (size (start args))) (start args) None ltac:(lia)) as (r & -> & _).
    destruct r as [z|[c os]]; by eexists.
  - intros f. assert (worker_parse_opts args = Some (inr f) <-> opts_loop worker_options worker_option (S (size (start args))) (start args) None = Some (inr (Some f, []))) as ->.
    { unfold worker_parse_opts. destruct (opts_loop _ _ _ _ _) as [[z|[[g|] [|w os]]]|]; split; intros E; by simplify_eq. }
    rewrite opts_loop_spells. split.
    + intros (es & Hs & Hh). apply worker_all in Hh as (gs & -> & E); [|by eapply spells_consistent]. exists gs. split; [done|]. by destruct (last gs).
    + intros (gs & Hs & E). eexists. split; [exact Hs|]. apply worker_all; [by eapply spells_consistent|]. exists gs. by rewrite E.
Qed.

(** Abbreviated, joined and separate forms; the last one counts. *)
Example worker_demo : map worker_parse_opts
  [["-c"; "a.json"]; ["--conf=a.json"]; ["-ca"; "--config"; "b"]; ["x"; "-c"; "a"]; ["-hc"]; ["-c"; "a"; "--"]; ["--configs"]; []]%string =
  [Some (inr "a.json"); Some (inr "a.json"); Some (inr "b"); Some (inl 1); Some (inl 0); Some (inr "a"); Some (inl 1); Some (inl 1)]%string%Z.
Proof. vm_compute. reflexivity. Qed.

(** The values of an option, in order. *)
Definition values (c : ascii) (es : list (ascii * option string)) : list string :=
  omap (fun e => if Ascii.eqb e.1 c then e.2 else None) es.

Lemma last_default {A : Type} (b v : A) (m : option A) : default b (match m with Some y => Some y | None => Some v end) = default v m.
Proof. by destruct m. Qed.

Lemma receiver_all es b f r : Forall (consistent receiver_options) es ->
  handle_all receiver_option es (b, f) = inl r <->
    (forall c a, (c, a) ∈ es -> c = "b" \/ c = "o") /\ r = (default b (last (values "b" es)), default f (last (values "o" es))).
Proof.
  intros Hc. revert b f. induction Hc as [|[c arg] es He Hes IH]; intros b f.
  { cbn. split; [intros [= <-]; split; [set_solver|done]|by intros [_ ->]]. }
  cbn [handle_all]. unfold receiver_option at 1. unfold values in *. cbn [omap list_omap fst snd].
  assert (c = "b" \/ c = "o" -> exists v, arg = Some v) as Hv.
  { intros Hbo. destruct arg as [v|]; [by exists v|]. exfalso. destruct He as [E|(l & Hl & Ev & Ea)]; [by destruct Hbo as [-> | ->]|].
    cbn [longs receiver_options] in Hl. rewrite !elem_of_cons in Hl. destruct Hl as [->|[->|[->|Hl]]]; try done; [by destruct Hbo as [-> | ->]|]. by apply not_elem_of_nil in Hl. }
  destruct (Ascii.eqb_spec c "b") as [->|Hb]; [|destruct (Ascii.eqb_spec c "o") as [->|Ho]].
  - destruct Hv as [v ->]; [by left|]. cbn [default]. rewrite IH. split; intros [H ->]; (split; [intros c a; specialize (H c a); set_solver|]); cbn; by rewrite last_cons, last_default.
  - destruct Hv as [v ->]; [by right|]. cbn [default]. rewrite IH. split; intros [H ->]; (split; [intros c a; specialize (H c a); set_solver|]); cbn; by rewrite last_cons, last_default.
  - split; [by destruct (Ascii.eqb c "h")|]. intros [H _]. destruct (H c arg); [set_solver|done..].
Qed.

(** The same of the receiver: the last [-b] and the last [-o] count, and both
    have defaults. *)
Theorem receiver_starts (args : list string) :
  (exists r, receiver_parse_opts args = Some r) /\
  forall b f, receiver_parse_opts args = Some (inr (b, f)) <->
    exists es, spells receiver_options args es [] /\ (forall c a, (c, a) ∈ es -> c = "b" \/ c = "o") /\
      b = default "tcp://*:5555"%string (last (values "b" es)) /\
      f = default EmptyString (last (values "o" es)).
Proof.
  split.
  - unfold receiver_parse_opts. destruct (opts_loop_reads receiver_options receiver_option (S (size (start args))) (start args) ("tcp://*:5555"%string, EmptyString) ltac:(lia)) as (r & -> & _).
    destruct r as [z|[c os]]; by eexists.
  - intros b f. assert (receiver_parse_opts args = Some (inr (b, f)) <-> opts_loop receiver_options receiver_option (S (size (start args))) (start args) ("tcp://*:5555"%string, EmptyString) = Some (inr ((b, f), []))) as ->.
    { unfold receiver_parse_opts. destruct (opts_loop _ _ _ _ _) as [[z|[v [|w os]]]|]; split; intros E; by simplify_eq. }
    rewrite opts_loop_spells. split.
    + intros (es & Hs & Hh). exists es. split; [done|]. apply receiver_all in Hh as [H [= <- <-]]; [done|]. by eapply spells_consistent.
    + intros (es & Hs & H & -> & ->). exists es. split; [done|]. apply receiver_all; [by eapply spells_consistent|]. done.
Qed.
