(* ===== verification/Decimal.v ===== *)
(** * Decimal texts of numbers (strtod and printf of the C library, as cJSON.c uses them)

    Characters are byte values.  [strtod] rounds the decimal number it reads
    to the nearest double, ties to even; [%g] rounds the exact value of a
    double to the number of digits asked for, ties to even.  Both compute on
    exact integers. *)

From stdpp Require Import prelude list list_numbers strings.
From Stdlib Require Import SpecFloat.
From S2P Require Import Prelude RateLimit.

(** ** Texts as byte lists *)

Definition code_of (c : Ascii.ascii) : Z := Z.of_N (Ascii.N_of_ascii c).
Definition char_of (b : Z) : Ascii.ascii := Ascii.ascii_of_N (Z.to_N b).

Fixpoint bytes_of (s : string) : list Z :=
  match s with EmptyString => [] | String c s => code_of c :: bytes_of s end.

Fixpoint text_of (l : list Z) : string :=
  match l with [] => EmptyString | b :: l => String (char_of b) (text_of l) end.

Lemma char_of_code c : char_of (code_of c) = c.
Proof. unfold char_of, code_of. rewrite N2Z.id. apply Ascii.ascii_N_embedding. Qed.

Lemma code_of_char b : byte_ok b -> code_of (char_of b) = b.
Proof. unfold byte_ok, char_of, code_of. intros Hb. rewrite Ascii.N_ascii_embedding by lia. lia. Qed.

Lemma code_of_range c : byte_ok (code_of c).
Proof. unfold byte_ok, code_of. pose proof (Ascii.N_ascii_bounded c). lia. Qed.

Lemma text_of_bytes s : text_of (bytes_of s) = s.
Proof. induction s as [|c s IH]; cbn; [done|]. by rewrite char_of_code, IH. Qed.

Lemma bytes_of_text l : bytes_ok l -> bytes_of (text_of l) = l.
Proof. induction 1 as [|b l Hb _ IH]; cbn; [done|]. by rewrite code_of_char, IH. Qed.

Lemma bytes_of_ok s : bytes_ok (bytes_of s).
Proof. induction s as [|c s IH]; [constructor|]. by constructor; [apply code_of_range|]. Qed.

Lemma text_of_app a b : text_of (a ++ b) = text_of a +:+ text_of b.
Proof. induction a as [|x a IH]; cbn; [done|]. by rewrite IH. Qed.

Lemma bytes_of_app a b : bytes_of (a +:+ b) = bytes_of a ++ bytes_of b.
Proof. induction a as [|x a IH]; [done|]. exact (f_equal (cons (code_of x)) IH). Qed.

Lemma length_bytes_of s : length (bytes_of s) = String.length s.
Proof. induction s as [|c s IH]; cbn; [done|]. by rewrite IH. Qed.

Lemma length_text_of l : String.length (text_of l) = length l.
Proof. induction l as [|b l IH]; cbn; [done|]. by rewrite IH. Qed.

#[export] Hint Resolve bytes_of_ok code_of_range : cprobe.

(** ** Digits *)

Definition is_digit (b : Z) : bool := (48 <=? b) && (b <=? 57).

(** The number a list of digits stands for. *)
Definition dec_num (l : list Z) : Z := foldl (fun n b => 10 * n + (b - 48)) 0 l.

(** The digits of a number, most significant first: at most [fuel] of them. *)
Fixpoint dec_digits (fuel : nat) (n : Z) (acc : list Z) : list Z :=
  match fuel with
  | O => acc
  | S fuel =>
      let acc := (48 + n mod 10) :: acc in
      if n / 10 =? 0 then acc else dec_digits fuel (n / 10) acc
  end.

Definition dec_fuel (n : Z) : nat := S (Z.to_nat (Z.log2 n)).

(** [%u] *)
Definition print_nat (n : Z) : list Z := dec_digits (dec_fuel n) n [].

(** [%d] *)
Definition print_int (n : Z) : list Z := if n <? 0 then 45 :: print_nat (- n) else print_nat n.

Fixpoint span_digits (l : list Z) : list Z * list Z :=
  match l with
  | b :: t => if is_digit b then let '(d, rest) := span_digits t in (b :: d, rest) else ([], l)
  | [] => ([], [])
  end.

(** ** strtod

    The text is made of digits, signs, dots and the letters e and E: no
    white space, no hexadecimal number, no name of a special value. *)

(** [(-1)^neg * m * 10^x], rounded *)
Definition dbl_of_decimal (neg : bool) (m x : Z) : double :=
  if m =? 0 then S754_zero neg
  else if 0 <=? x then binary_normalize 53 1024 (if neg then - (m * 10 ^ x) else m * 10 ^ x) 0 neg
  else
    let '(q, e, l) := SFdiv_core_binary 53 1024 m 0 (10 ^ (- x)) 0 in
    binary_round_aux 53 1024 neg q e l.

Definition read_sign (l : list Z) : bool * list Z :=
  match l with
  | 45 :: t => (true, t)
  | 43 :: t => (false, t)
  | _ => (false, l)
  end.

(** An exponent without digits is not part of the number. *)
Definition read_exponent (l : list Z) : Z * list Z :=
  match l with
  | c :: t =>
      if (c =? 101) || (c =? 69) then
        let '(neg, t) := read_sign t in
        let '(d, rest) := span_digits t in
        match d with
        | [] => (0, l)
        | _ => (if neg then - dec_num d else dec_num d, rest)
        end
      else (0, l)
  | [] => (0, [])
  end.

(** The number and the rest of the text; [None] is no conversion. *)
Definition strtod (l : list Z) : option (double * list Z) :=
  let '(neg, l1) := read_sign l in
  let '(ip, l2) := span_digits l1 in
  let '(fp, l3) := match l2 with 46 :: t => span_digits t | _ => ([], l2) end in
  match ip ++ fp with
  | [] => None
  | d =>
      let '(x, l4) := read_exponent l3 in
      Some (dbl_of_decimal neg (dec_num d) (x - zlen fp), l4)
  end.

(** ** %.Pg *)

(** [n / d] rounded to the nearest integer, ties to even. *)
Definition div_nearest (n d : Z) : Z :=
  let q := n / d in
  let r := n mod d in
  if (2 * r <? d) || ((2 * r =? d) && Z.even q) then q else q + 1.

(** The decimal exponent of [n / d]: [10 ^ X <= n / d < 10 ^ (X + 1)]. *)
Definition dec_exponent (n d : Z) : Z :=
  let k := zlen (print_nat n) - zlen (print_nat d) in
  if d * 10 ^ Z.max 0 k <=? n * 10 ^ Z.max 0 (- k) then k else k - 1.

(** [n / d] to [p] significant digits: the digits as an integer below
    [10 ^ p], and the exponent of the first. *)
Definition round_digits (p n d : Z) : Z * Z :=
  let x := dec_exponent n d in
  let s := p - 1 - x in
  let q := div_nearest (n * 10 ^ Z.max 0 s) (d * 10 ^ Z.max 0 (- s)) in
  if q =? 10 ^ p then (10 ^ (p - 1), x + 1) else (q, x).

(** Without the zeros at the end. *)
Fixpoint strip_zeros (l : list Z) : list Z :=
  match l with
  | [] => []
  | b :: t => match strip_zeros t with [] => if b =? 48 then [] else [b] | t' => b :: t' end
  end.

Definition with_fraction (ip fp : list Z) : list Z :=
  match strip_zeros fp with [] => ip | fp => ip ++ 46 :: fp end.

(** An exponent has at least two digits. *)
Definition print_exponent (x : Z) : list Z :=
  let d := print_nat (Z.abs x) in
  101 :: (if x <? 0 then 45 else 43) :: (if zlen d <? 2 then 48 :: d else d).

Definition printf_g_pos (p n d : Z) : list Z :=
  let '(q, x) := round_digits p n d in
  let ds := print_nat q in
  if (x <? -4) || (p <=? x) then with_fraction (take 1 ds) (drop 1 ds) ++ print_exponent x
  else if 0 <=? x then with_fraction (take (Z.to_nat (x + 1)) ds) (drop (Z.to_nat (x + 1)) ds)
  else with_fraction [48] (replicate (Z.to_nat (- x - 1)) 48 ++ ds).

(** A finite number; 0 for [p] is not used. *)
Definition printf_g (p : Z) (v : double) : list Z :=
  match v with
  | S754_zero neg => if neg then [45; 48] else [48]
  | S754_finite neg m e =>
      let t := printf_g_pos p (Z.pos m * 2 ^ Z.max 0 e) (2 ^ Z.max 0 (- e)) in
      if neg then 45 :: t else t
  | S754_infinity neg => (if neg then [45] else []) ++ [105; 110; 102]
  | S754_nan => [110; 97; 110]
  end.

(** ** Printing and reading integers *)

Definition digits (l : list Z) : Prop := Forall (fun b => is_digit b = true) l.

Lemma is_digit_range b : is_digit b = true <-> 48 <= b <= 57.
Proof. unfold is_digit. rewrite andb_true_iff, !Z.leb_le. done. Qed.

Lemma foldl_dec a l : foldl (fun n b => 10 * n + (b - 48)) a l = a * 10 ^ zlen l + dec_num l.
Proof.
  unfold dec_num. revert a. induction l as [|b l IH]; intros a; [cbn; unfold zlen; cbn; lia|].
  cbn [foldl]. rewrite IH, (IH (10 * 0 + _)), zlen_cons, Z.pow_add_r by (pose proof (zlen_nonneg l); lia). lia.
Qed.

Lemma dec_num_cons b l : dec_num (b :: l) = (b - 48) * 10 ^ zlen l + dec_num l.
Proof. unfold dec_num at 1. cbn [foldl]. rewrite foldl_dec. lia. Qed.

Lemma dec_num_nonneg l : digits l -> 0 <= dec_num l.
Proof.
  induction 1 as [|b l Hb _ IH]; [done|]. rewrite dec_num_cons. apply is_digit_range in Hb.
  pose proof (Z.pow_nonneg 10 (zlen l)). nia.
Qed.

(** What [dec_digits] adds to its accumulator. *)
Lemma dec_digits_spec fuel n acc :
  0 <= n < 2 ^ Z.of_nat fuel -> fuel <> O ->
  exists d, dec_digits fuel n acc = d ++ acc /\ digits d /\ dec_num d = n /\ n < 10 ^ zlen d /\
    (n = 0 -> zlen d = 1) /\ (0 < n -> 0 < zlen d /\ 10 ^ (zlen d - 1) <= n).
Proof.
  revert n acc. induction fuel as [|fuel IH]; intros n acc Hn Hf; [done|]. cbn [dec_digits].
  assert (Hd : is_digit (48 + n mod 10) = true) by (apply is_digit_range; zlia).
  destruct (n / 10 =? 0) eqn:E; breflect.
  - exists [48 + n mod 10]. split; [done|]. split; [by repeat constructor|].
    assert (n mod 10 = n) as Em by zlia. unfold dec_num, zlen. cbn. rewrite Em.
    assert (n < 10) by zlia. repeat split; lia.
  - assert (fuel <> O) as Hf'. { intros ->. change (2 ^ Z.of_nat 1) with 2 in Hn. zlia. }
    destruct (IH (n / 10) ((48 + n mod 10) :: acc)) as (d & Ed & Hdd & Hnum & Hlt & _ & Hpos).
    { rewrite Nat2Z.inj_succ, Z.pow_succ_r in Hn by lia. zlia. }
    { done. }
    exists (d ++ [48 + n mod 10]). rewrite <- app_assoc. split; [done|]. split; [by apply Forall_app; repeat constructor|].
    assert (0 < n / 10) as Hq by zlia. destruct (Hpos Hq) as [Hl Hge].
    assert (zlen (d ++ [48 + n mod 10]) = zlen d + 1) as El by (by rewrite zlen_app).
    rewrite El. split; [unfold dec_num; rewrite foldl_app; fold (dec_num d); cbn; rewrite Hnum; zlia|].
    rewrite Z.pow_add_r by lia. replace (zlen d + 1 - 1) with (zlen d - 1 + 1) by lia. rewrite Z.pow_add_r by lia.
    split; [zlia|]. split; [zlia|]. intros _. split; [lia|]. zlia.
Qed.

Lemma print_nat_spec n : 0 <= n ->
  digits (print_nat n) /\ dec_num (print_nat n) = n /\ n < 10 ^ zlen (print_nat n) /\ 0 < zlen (print_nat n) /\
  (0 < n -> 10 ^ (zlen (print_nat n) - 1) <= n) /\ (n = 0 -> zlen (print_nat n) = 1).
Proof.
  intros Hn. unfold print_nat, dec_fuel.
  destruct (dec_digits_spec (S (Z.to_nat (Z.log2 n))) n []) as (d & -> & Hd & Hnum & Hlt & H0 & Hpos); [|done|].
  - split; [done|]. rewrite Nat2Z.inj_succ, Z2Nat.id by apply Z.log2_nonneg.
    destruct (decide (n = 0)) as [->|Hn0]; [done|]. apply Z.log2_spec. lia.
  - rewrite app_nil_r. split; [done|]. split; [done|]. split; [done|].
    destruct (decide (n = 0)) as [Hn0|Hn0]; [rewrite (H0 Hn0)|destruct (Hpos ltac:(lia))]; repeat split; try lia.
Qed.

Lemma print_nat_length n k : 0 <= n < 10 ^ k -> 0 < k -> 0 < zlen (print_nat n) <= k.
Proof.
  intros Hn Hk. destruct (print_nat_spec n) as (_ & _ & _ & Hl & Hge & H0); [lia|]. split; [done|].
  destruct (decide (n = 0)) as [Hn0|Hn0]; [rewrite (H0 Hn0); lia|].
  destruct (Z.le_gt_cases (zlen (print_nat n)) k) as [|Hgt]; [done|]. exfalso.
  pose proof (Z.pow_le_mono_r 10 k (zlen (print_nat n) - 1)). specialize (Hge ltac:(lia)). lia.
Qed.

Definition starts_digit (l : list Z) : bool := match l with b :: _ => is_digit b | [] => false end.

Lemma span_digits_app d rest : digits d -> starts_digit rest = false -> span_digits (d ++ rest) = (d, rest).
Proof.
  intros Hd Hr. induction Hd as [|b d Hb Hd IH].
  - cbn [app]. destruct rest as [|c rest]; [done|]. cbn in *. by rewrite Hr.
  - cbn [app span_digits]. by rewrite Hb, IH.
Qed.

Lemma span_digits_all l d rest : span_digits l = (d, rest) -> l = d ++ rest /\ digits d.
Proof.
  revert d rest. induction l as [|b l IH]; intros d rest; cbn [span_digits]; [intros [= <- <-]; by split; [|constructor]|].
  destruct (is_digit b) eqn:Hb; [|intros [= <- <-]; by split; [|constructor]].
  destruct (span_digits l) as [d' r'] eqn:E. intros [= <- <-]. destruct (IH _ _ eq_refl) as [-> Hd]. by split; [|constructor].
Qed.

(** ** The length of a printed number *)

Lemma div_nearest_le n d k : 0 < d -> n <= k * d -> div_nearest n d <= k.
Proof.
  intros Hd Hn. unfold div_nearest. pose proof (Z.div_mod n d ltac:(lia)). pose proof (Z.mod_pos_bound n d Hd).
  bcase; [nia|]. destruct (Z.le_gt_cases (n / d) (k - 1)); [lia|].
  assert (n mod d = 0) as E0 by nia. lia.
Qed.

Lemma div_nearest_nonneg n d : 0 < d -> 0 <= n -> 0 <= div_nearest n d.
Proof. intros Hd Hn. unfold div_nearest. pose proof (Z.div_pos n d Hn Hd). bcase; lia. Qed.

(** [n / d < 10 ^ (dec_exponent n d + 1)], without fractions. *)
Lemma dec_exponent_spec n d : 0 < n -> 0 < d ->
  let x := dec_exponent n d in
  n * 10 ^ Z.max 0 (- (x + 1)) < d * 10 ^ Z.max 0 (x + 1).
Proof.
  intros Hn Hd. unfold dec_exponent. cbv zeta.
  destruct (print_nat_spec n) as (_ & _ & Hn1 & Hnl & Hn2 & _); [lia|].
  destruct (print_nat_spec d) as (_ & _ & Hd1 & Hdl & Hd2 & _); [lia|]. specialize (Hn2 Hn). specialize (Hd2 Hd).
  set (a := zlen (print_nat n)) in *. set (b := zlen (print_nat d)) in *.
  bcase.
  - (* n < 10^a, 10^(b-1) <= d *)
    destruct (Z.le_gt_cases 0 (a - b + 1)).
    + rewrite (Z.max_l 0 (- _)), (Z.max_r 0 (a - b + 1)) by lia. replace (10 ^ a) with (10 ^ (b - 1) * 10 ^ (a - b + 1)) in Hn1.
      * pose proof (Z.pow_pos_nonneg 10 (a - b + 1)). nia.
      * rewrite <- Z.pow_add_r by lia. f_equal. lia.
    + rewrite (Z.max_r 0 (- _)), (Z.max_l 0 (a - b + 1)) by lia. replace (10 ^ (b - 1)) with (10 ^ a * 10 ^ (- (a - b + 1))) in Hd2.
      * pose proof (Z.pow_pos_nonneg 10 (- (a - b + 1))). nia.
      * rewrite <- Z.pow_add_r by lia. f_equal. lia.
  - by replace (a - b - 1 + 1) with (a - b) by lia.
Qed.

Lemma round_digits_spec p n d : 0 < n -> 0 < d -> 0 < p ->
  let '(q, x) := round_digits p n d in
  0 <= q < 10 ^ p /\ dec_exponent n d <= x <= dec_exponent n d + 1.
Proof.
  intros Hn Hd Hp. unfold round_digits. pose proof (dec_exponent_spec n d Hn Hd) as Hx. cbv zeta in Hx.
  set (x := dec_exponent n d) in *. set (s := p - 1 - x).
  assert (0 < 10 ^ Z.max 0 s /\ 0 < 10 ^ Z.max 0 (- s)) as [Hs1 Hs2] by (split; apply Z.pow_pos_nonneg; lia).
  set (q := div_nearest _ _). assert (0 <= q) as Hq0 by (apply div_nearest_nonneg; nia).
  assert (q <= 10 ^ p) as Hq1.
  { apply div_nearest_le; [nia|].
    assert (n * 10 ^ Z.max 0 s * 10 ^ (Z.max 0 (- (x + 1))) <= 10 ^ p * (d * 10 ^ Z.max 0 (- s)) * 10 ^ (Z.max 0 (- (x + 1)))) as Hle; [|].
    2:{ pose proof (Z.pow_pos_nonneg 10 (Z.max 0 (- (x + 1)))). nia. }
    assert (10 ^ p * 10 ^ Z.max 0 (- s) * 10 ^ Z.max 0 (- (x + 1)) = 10 ^ Z.max 0 s * 10 ^ Z.max 0 (x + 1)) as Ee.
    { rewrite <- !Z.pow_add_r by lia. f_equal. lia. }
    nia. }
  pose proof (Z.pow_lt_mono_r 10 (p - 1) p). bcase; split; try lia.
Qed.

Lemma strip_zeros_length l : zlen (strip_zeros l) <= zlen l.
Proof.
  induction l as [|b l IH]; [done|]. cbn [strip_zeros]. rewrite zlen_cons.
  destruct (strip_zeros l) as [|c t]; [|rewrite zlen_cons; lia]. pose proof (zlen_nonneg l). bcase; unfold zlen; cbn; unfold zlen in *; lia.
Qed.

Lemma with_fraction_length ip fp : zlen (with_fraction ip fp) <= zlen ip + 1 + zlen fp.
Proof.
  unfold with_fraction. pose proof (strip_zeros_length fp). destruct (strip_zeros fp); rewrite ?zlen_app, ?zlen_cons in *;
    pose proof (zlen_nonneg fp); lia.
Qed.

Lemma printf_g_pos_length p n d : 0 < n -> 0 < d -> 4 <= p -> -1000 < dec_exponent n d < 999 ->
  zlen (printf_g_pos p n d) <= p + 6.
Proof.
  intros Hn Hd Hp Hx. unfold printf_g_pos. pose proof (round_digits_spec p n d Hn Hd ltac:(lia)) as Hr.
  destruct (round_digits p n d) as [q x]. destruct Hr as [Hq Hx'].
  pose proof (print_nat_length q p Hq ltac:(lia)) as Hl.
  assert (forall k, zlen (take k (print_nat q)) + zlen (drop k (print_nat q)) = zlen (print_nat q)) as Htd.
  { intros k. rewrite <- zlen_app. by rewrite take_drop. }
  bcase; [|bcase].
  - rewrite zlen_app. pose proof (with_fraction_length (take 1 (print_nat q)) (drop 1 (print_nat q))). specialize (Htd 1%nat).
    unfold print_exponent. pose proof (print_nat_length (Z.abs x) 3) as He. repeat bcase; rewrite !zlen_cons; lia.
  - pose proof (with_fraction_length (take (Z.to_nat (x + 1)) (print_nat q)) (drop (Z.to_nat (x + 1)) (print_nat q))).
    specialize (Htd (Z.to_nat (x + 1))). lia.
  - pose proof (with_fraction_length [48] (replicate (Z.to_nat (- x - 1)) 48 ++ print_nat q)) as Hw. rewrite zlen_app in Hw.
    assert (zlen (replicate (Z.to_nat (- x - 1)) 48) <= 3). { unfold zlen. rewrite length_replicate. lia. }
    change (zlen [48]) with 1 in Hw. lia.
Qed.

Lemma valid_range s m e : valid_binary 53 1024 (S754_finite s m e) = true -> Z.pos m < 2 ^ 53 /\ -1074 <= e <= 971.
Proof.
  cbn [valid_binary]. unfold bounded, canonical_mantissa, fexp, emin. intros Hv. breflect.
  assert (Hs : Z.pos m < 2 ^ Z.pos (digits2_pos m)).
  { clear. induction m as [m IH|m IH|]; cbn [digits2_pos]; rewrite ?Pos2Z.inj_succ, ?Z.pow_succ_r; lia. }
  split; [|lia]. eapply Z.lt_le_trans; [exact Hs|]. apply Z.pow_le_mono_r; lia.
Qed.

Lemma valid_dec_exponent s m e : valid_binary 53 1024 (S754_finite s m e) = true ->
  -1000 < dec_exponent (Z.pos m * 2 ^ Z.max 0 e) (2 ^ Z.max 0 (- e)) < 999.
Proof.
  intros [Hm He]%valid_range. unfold dec_exponent.
  assert (0 <= Z.pos m * 2 ^ Z.max 0 e < 10 ^ 309) as Hn.
  { pose proof (Z.pow_pos_nonneg 2 (Z.max 0 e)) as H0. split; [lia|]. transitivity (2 ^ 53 * 2 ^ Z.max 0 e); [nia|].
    rewrite <- Z.pow_add_r by lia. apply Z.le_lt_trans with (2 ^ 1024); [apply Z.pow_le_mono_r; lia|]. by vm_compute. }
  assert (0 <= 2 ^ Z.max 0 (- e) < 10 ^ 324) as Hd.
  { split; [apply Z.pow_nonneg; lia|]. apply Z.le_lt_trans with (2 ^ 1074); [apply Z.pow_le_mono_r; lia|]. by vm_compute. }
  pose proof (print_nat_length _ 309 Hn ltac:(lia)). pose proof (print_nat_length _ 324 Hd ltac:(lia)). clear Hn Hd.
  bcase; lia.
Qed.

(** A double the C type has prints in at most 24 characters. *)
Lemma printf_g_length p v : 4 <= p <= 17 -> valid_binary 53 1024 v = true -> zlen (printf_g p v) <= 24.
Proof.
  intros Hp Hv. destruct v as [[|]|[|]| |s m e]; [by vm_compute..|].
  assert (zlen (printf_g_pos p (Z.pos m * 2 ^ Z.max 0 e) (2 ^ Z.max 0 (- e))) <= p + 6) as Hl.
  { apply printf_g_pos_length; [| |lia|by eapply valid_dec_exponent].
    - pose proof (Z.pow_pos_nonneg 2 (Z.max 0 e)). lia.
    - apply Z.pow_pos_nonneg; lia. }
  cbn [printf_g]. destruct s; rewrite ?zlen_cons; lia.
Qed.

Lemma print_int_length n : -2147483648 <= n <= 2147483647 -> 0 < zlen (print_int n) <= 11.
Proof. intros Hn. unfold print_int. bcase; rewrite ?zlen_cons; [pose proof (print_nat_length (- n) 10)|pose proof (print_nat_length n 10)]; lia. Qed.

Lemma read_sign_digits neg l rest : digits l -> l <> [] ->
  read_sign ((if neg : bool then [45] else []) ++ l ++ rest) = (neg, l ++ rest).
Proof.
  intros Hl Hn. destruct neg; [done|]. destruct l as [|b l]; [done|]. cbn [app]. apply Forall_cons in Hl as [Hb _].
  apply is_digit_range in Hb. assert (exists k, b = Z.pos k /\ 48 <= Z.pos k <= 57) as (k & -> & Hk) by (exists (Z.to_pos b); lia).
  unfold read_sign. do 6 (destruct k as [k|k|]; try done); lia.
Qed.

(** The parts of a decimal number: sign, digits, fraction, exponent. *)
Record number := Num { n_neg : bool; n_int : list Z; n_frac : option (list Z); n_exp : option (bool * list Z * list Z) }.

(** Digits where they are required; the sign of an exponent may be absent. *)
Definition number_ok (x : number) : Prop :=
  digits (n_int x) /\ n_int x <> [] /\
  match n_frac x with Some f => digits f /\ f <> [] | None => True end /\
  match n_exp x with Some (_, sg, e) => (sg = [] \/ sg = [43] \/ sg = [45]) /\ digits e /\ e <> [] | None => True end.

Definition frac_text (f : option (list Z)) : list Z := match f with Some f => 46 :: f | None => [] end.
Definition exp_text (e : option (bool * list Z * list Z)) : list Z :=
  match e with Some (upper, sg, e) => (if upper : bool then 69 else 101) :: sg ++ e | None => [] end.

Definition number_text (x : number) : list Z :=
  (if n_neg x then [45] else []) ++ n_int x ++ frac_text (n_frac x) ++ exp_text (n_exp x).

Definition exp_value (e : option (bool * list Z * list Z)) : Z :=
  match e with Some (_, [45], e) => - dec_num e | Some (_, _, e) => dec_num e | None => 0 end.

(** The double nearest to the decimal value. *)
Definition number_value (x : number) : double :=
  let f := default [] (n_frac x) in dbl_of_decimal (n_neg x) (dec_num (n_int x ++ f)) (exp_value (n_exp x) - zlen f).

Lemma read_exponent_text e :
  match e with Some (_, sg, e) => (sg = [] \/ sg = [43] \/ sg = [45]) /\ digits e /\ e <> [] | None => True end ->
  read_exponent (exp_text e) = (exp_value e, []).
Proof.
  destruct e as [[[up sg] e]|]; [|done]. intros (Hs & He & Hn). cbn [exp_text].
  assert (read_sign (sg ++ e) = (bool_decide (sg = [45]), e)) as Hsg.
  { destruct Hs as [-> | [-> | ->]]; [|done|done]. pose proof (read_sign_digits false e [] He Hn) as Hr. rewrite !app_nil_r in Hr. done. }
  assert (span_digits e = (e, [])) as Hsp by (rewrite <- (app_nil_r e) at 1; by apply span_digits_app).
  assert (((if up then 69 else 101) =? 101) = negb up /\ ((if up then 69 else 101) =? 69) = up) as [E1 E2] by (by destruct up).
  unfold read_exponent. rewrite E1, E2. replace (negb up || up) with true by (by destruct up). rewrite Hsg, Hsp.
  destruct e as [|b e]; [done|]. by destruct Hs as [-> | [-> | ->]].
Qed.

Lemma exp_text_start e : starts_digit (exp_text e) = false /\ (forall t, exp_text e <> 46 :: t).
Proof. destruct e as [[[[|] sg] e]|]; done. Qed.

(** [strtod] reads all of a number. *)
Lemma strtod_number x : number_ok x -> strtod (number_text x) = Some (number_value x, []).
Proof.
  destruct x as [neg ip f e]. intros (Hi & Hn & Hf & He). unfold strtod, number_text. cbn [n_neg n_int n_frac n_exp] in *.
  rewrite read_sign_digits by done. destruct (exp_text_start e) as [Hx1 Hx2].
  rewrite span_digits_app; [|done|by destruct f].
  assert ((match frac_text f ++ exp_text e with 46 :: t => span_digits t | _ => ([], frac_text f ++ exp_text e) end) =
          (default [] f, exp_text e)) as ->.
  { destruct f as [f|]; cbn [frac_text app default from_option id].
    - destruct Hf. by apply span_digits_app.
    - destruct (exp_text e) as [|b t]; [done|]. destruct b as [|k|k]; [done| |done].
      do 6 (destruct k as [k|k|]; try done). exfalso. by eapply Hx2. }
  rewrite read_exponent_text by done. unfold number_value. cbn [n_neg n_int n_frac n_exp].
  destruct ip as [|b ip]; [done|]. done.
Qed.

(** A number takes characters off the front of the text. *)
Lemma read_sign_suffix l : exists used, l = used ++ (read_sign l).2.
Proof.
  destruct l as [|b l]; [by exists []|]. destruct (read_sign (b :: l)) as [n t] eqn:E. cbn [snd].
  unfold read_sign in E. assert (t = l \/ t = b :: l) as [->| ->]; [|by exists [b]|by exists []].
  destruct b as [|k|k]; [simplify_eq; by right| |simplify_eq; by right].
  do 6 (destruct k as [k|k|]; try (simplify_eq; auto; fail)).
Qed.

Lemma read_exponent_suffix l : exists used, l = used ++ (read_exponent l).2.
Proof.
  destruct l as [|c l]; [by exists []|]. unfold read_exponent. bcase; [|by exists []].
  destruct (read_sign_suffix l) as [us Hs]. destruct (read_sign l) as [n t] eqn:Es. cbn [snd] in Hs.
  destruct (span_digits t) as [d r] eqn:Ed. apply span_digits_all in Ed as [-> _].
  destruct d as [|b d]; [by exists []|]. exists (c :: us ++ b :: d). cbn [snd]. rewrite Hs. cbn. by rewrite <- app_assoc.
Qed.

Lemma strtod_suffix l x rest : strtod l = Some (x, rest) -> exists used, l = used ++ rest /\ used <> [].
Proof.
  unfold strtod. destruct (read_sign_suffix l) as [us Hs]. destruct (read_sign l) as [n l1]. cbn [snd] in Hs.
  destruct (span_digits l1) as [ip l2] eqn:E2. apply span_digits_all in E2 as [-> _].
  destruct (match l2 with 46 :: t => span_digits t | _ => ([], l2) end) as [fp l3] eqn:E3.
  assert (exists u3, l2 = u3 ++ l3 /\ (fp <> [] -> u3 <> [])) as (u3 & -> & Hu3).
  { destruct l2 as [|b l2]; [injection E3 as <- <-; by exists []|].
    assert ((fp, l3) = ([], b :: l2) \/ b = 46 /\ span_digits l2 = (fp, l3)) as [[= -> ->]|[-> E]].
    { destruct b as [|k|k]; [by left| |by left]. do 6 (destruct k as [k|k|]; try (by left)). by right. }
    - by exists [].
    - apply span_digits_all in E as [-> _]. by exists (46 :: fp). }
  destruct (read_exponent_suffix l3) as [u4 H4]. destruct (read_exponent l3) as [ex l4]. cbn [snd] in H4.
  assert (forall d, d <> [] -> ip ++ fp = d -> us ++ ip ++ u3 ++ u4 <> []) as Hne.
  { intros d Hd Ed H0. apply app_eq_nil in H0 as [-> H0]. apply app_eq_nil in H0 as [-> H0]. apply app_eq_nil in H0 as [H0 _].
    destruct fp; [by subst|]. by apply Hu3. }
  destruct (ip ++ fp) as [|b d] eqn:Ed; [done|]. intros [= _ <-]. exists (us ++ ip ++ u3 ++ u4).
  split; [rewrite Hs, H4; by rewrite <- !app_assoc|]. by apply (Hne (b :: d)).
Qed.

(** ** What is printed is a number *)

Lemma strip_zeros_digits l : digits l -> digits (strip_zeros l).
Proof.
  induction 1 as [|b l Hb _ IH]; [constructor|]. cbn [strip_zeros]. destruct (strip_zeros l) as [|c t].
  - bcase; by repeat constructor.
  - by constructor.
Qed.

Lemma with_fraction_text ip fp : digits fp -> exists f,
  with_fraction ip fp = ip ++ frac_text f /\ match f with Some f => digits f /\ f <> [] | None => True end.
Proof.
  intros Hf. apply strip_zeros_digits in Hf. unfold with_fraction. destruct (strip_zeros fp) as [|c t].
  - exists None. by rewrite app_nil_r.
  - by exists (Some (c :: t)).
Qed.

Lemma print_exponent_text x : exists sg e,
  print_exponent x = exp_text (Some (false, sg, e)) /\ (sg = [] \/ sg = [43] \/ sg = [45]) /\ digits e /\ e <> [].
Proof.
  destruct (print_nat_spec (Z.abs x)) as (Hd & _ & _ & Hl & _); [lia|].
  exists [if x <? 0 then 45 else 43], (if zlen (print_nat (Z.abs x)) <? 2 then 48 :: print_nat (Z.abs x) else print_nat (Z.abs x)).
  split; [done|]. split; [bcase; auto|]. bcase; (split; [|]); try done; [by constructor|]. by intros E0; rewrite E0 in *.
Qed.

Lemma print_int_number n : exists x, number_ok x /\ number_text x = print_int n.
Proof.
  destruct (print_nat_spec (Z.abs n)) as (Hd & _ & _ & Hl & _); [lia|].
  exists (Num (n <? 0) (print_nat (Z.abs n)) None None). split.
  - split; [done|]. split; [|done]. cbn [n_int]. by intros E0; rewrite E0 in *.
  - unfold number_text, print_int. cbn [n_neg n_int n_frac n_exp frac_text exp_text]. rewrite !app_nil_r.
    bcase; cbn [app]; [by rewrite Z.abs_neq by lia|by rewrite Z.abs_eq by lia].
Qed.

Lemma printf_g_pos_number p n d : 0 < n -> 0 < d -> 0 < p ->
  exists ip f e, printf_g_pos p n d = number_text (Num false ip f e) /\ number_ok (Num false ip f e).
Proof.
  intros Hn Hd Hp. unfold printf_g_pos. pose proof (round_digits_spec p n d Hn Hd Hp) as Hr. destruct (round_digits p n d) as [q x].
  destruct Hr as [Hq _]. destruct (print_nat_spec q) as (Hdig & _ & _ & Hl & _); [lia|]. set (ds := print_nat q) in *.
  assert (Htake : forall k, digits (take k ds) /\ digits (drop k ds)) by (intros k; apply Forall_app; by rewrite take_drop).
  assert (Hne : forall k, (0 < k)%nat -> take k ds <> []).
  { intros [|k] Hk; [lia|]. destruct ds; [done|]. by cbn. }
  bcase; [|bcase].
  - destruct (with_fraction_text (take 1 ds) (drop 1 ds) (proj2 (Htake _))) as (f & -> & Hf).
    destruct (print_exponent_text x) as (sg & e & -> & Hsg & He & Hen). exists (take 1 ds), f, (Some (false, sg, e)).
    split; [unfold number_text; cbn [n_neg n_int n_frac n_exp]; by rewrite <- app_assoc|].
    split; [by apply Htake|]. split; [apply Hne; lia|]. done.
  - destruct (with_fraction_text (take (Z.to_nat (x + 1)) ds) (drop (Z.to_nat (x + 1)) ds) (proj2 (Htake _))) as (f & -> & Hf).
    exists (take (Z.to_nat (x + 1)) ds), f, None. split; [unfold number_text; cbn; by rewrite app_nil_r|].
    split; [by apply Htake|]. split; [apply Hne; lia|]. done.
  - destruct (with_fraction_text [48] (replicate (Z.to_nat (- x - 1)) 48 ++ ds)) as (f & -> & Hf).
    { apply Forall_app. split; [by apply Forall_replicate|done]. }
    exists [48], f, None. split; [unfold number_text; cbn; by rewrite app_nil_r|]. split; [by repeat constructor|]. done.
Qed.

Definition finite (v : double) : bool := match v with S754_zero _ | S754_finite _ _ _ => true | _ => false end.

Lemma printf_g_number p v : 0 < p -> finite v = true -> exists x, number_ok x /\ number_text x = printf_g p v.
Proof.
  intros Hp Hv. destruct v as [neg|neg| |neg m e]; try done.
  - exists (Num neg [48] None None). split; [by repeat split; try constructor|by destruct neg].
  - destruct (printf_g_pos_number p (Z.pos m * 2 ^ Z.max 0 e) (2 ^ Z.max 0 (- e))) as (ip & f & ex & E & Hok); try done.
    { pose proof (Z.pow_pos_nonneg 2 (Z.max 0 e)). lia. }
    { apply Z.pow_pos_nonneg; lia. }
    exists (Num neg ip f ex). split; [done|]. cbn [printf_g]. rewrite E. by destruct neg.
Qed.

(** ** Integers print exactly *)

Lemma dec_num_bound l : digits l -> dec_num l < 10 ^ zlen l.
Proof.
  induction 1 as [|b l Hb _ IH]; [done|]. rewrite dec_num_cons, zlen_cons, Z.pow_add_r by (pose proof (zlen_nonneg l); lia).
  apply is_digit_range in Hb. change (10 ^ 1) with 10. nia.
Qed.

Lemma print_nat_cases n : 0 <= n ->
  (n = 0 /\ print_nat n = [48]) \/ (0 < n /\ exists b t, print_nat n = b :: t /\ 49 <= b <= 57).
Proof.
  intros Hn. destruct (decide (n = 0)) as [->|Hn0]; [by left|]. right. split; [lia|].
  destruct (print_nat_spec n Hn) as (Hd & Hnum & _ & Hl & Hge & _). specialize (Hge ltac:(lia)).
  destruct (print_nat n) as [|b t]; [done|]. exists b, t. split; [done|].
  apply Forall_cons in Hd as [Hb Ht]. apply is_digit_range in Hb. destruct (decide (b = 48)) as [->|]; [|lia].
  rewrite dec_num_cons in Hnum. pose proof (dec_num_bound t Ht). rewrite zlen_cons in Hge.
  replace (1 + zlen t - 1) with (zlen t) in Hge by lia. lia.
Qed.

Lemma dec_num_inj a b : digits a -> digits b -> zlen a = zlen b -> dec_num a = dec_num b -> a = b.
Proof.
  intros Ha. revert b. induction Ha as [|x a Hx Ha IH]; intros b Hb Hl E.
  - destruct b as [|y b]; [done|]. rewrite zlen_cons, zlen_nil in Hl. pose proof (zlen_nonneg b). lia.
  - destruct Hb as [|y b Hy Hb]; [rewrite zlen_cons, zlen_nil in Hl; pose proof (zlen_nonneg a); lia|].
    rewrite !zlen_cons in Hl. assert (zlen a = zlen b) as Hl' by lia. rewrite !dec_num_cons, Hl' in E.
    pose proof (dec_num_bound a Ha) as H1. pose proof (dec_num_bound b Hb). pose proof (dec_num_nonneg a Ha). pose proof (dec_num_nonneg b Hb).
    rewrite Hl' in H1. assert (x = y) as -> by nia. f_equal. apply IH; [done|done|lia].
Qed.

Lemma dec_num_zeros l k : dec_num (l ++ replicate k 48) = dec_num l * 10 ^ Z.of_nat k.
Proof.
  unfold dec_num at 1. rewrite foldl_app. fold (dec_num l). rewrite foldl_dec. unfold zlen. rewrite length_replicate.
  assert (dec_num (replicate k 48) = 0) as ->; [|lia]. induction k as [|k IH]; [done|]. cbn [replicate]. rewrite dec_num_cons, IH. lia.
Qed.

(** The number of digits. *)
Lemma print_nat_digits n x : 0 <= x -> 10 ^ x <= n < 10 ^ (x + 1) -> zlen (print_nat n) = x + 1.
Proof.
  intros Hx Hn. assert (0 < n) as H0 by (pose proof (Z.pow_pos_nonneg 10 x); lia).
  destruct (print_nat_spec n) as (_ & _ & H1 & H2 & H3 & _); [lia|]. specialize (H3 H0).
  assert (x < zlen (print_nat n)) by (apply (Z.pow_lt_mono_r_iff 10); lia).
  assert (zlen (print_nat n) - 1 < x + 1) by (apply (Z.pow_lt_mono_r_iff 10); lia). lia.
Qed.

Lemma print_nat_shift n k : 0 < n -> print_nat (n * 10 ^ Z.of_nat k) = print_nat n ++ replicate k 48.
Proof.
  intros Hn. pose proof (Z.pow_pos_nonneg 10 (Z.of_nat k)). destruct (print_nat_spec n) as (Hd & Hv & H1 & H2 & H3 & _); [lia|]. specialize (H3 Hn).
  destruct (print_nat_spec (n * 10 ^ Z.of_nat k)) as (Hd' & Hv' & _); [nia|].
  apply dec_num_inj; [done|apply Forall_app_2; [done|by apply Forall_replicate]| |by rewrite dec_num_zeros, Hv, Hv'].
  rewrite (print_nat_digits _ (zlen (print_nat n) - 1 + Z.of_nat k)); [rewrite zlen_app; unfold zlen at 3; rewrite length_replicate; lia|lia|].
  replace (zlen (print_nat n) - 1 + Z.of_nat k + 1) with (zlen (print_nat n) + Z.of_nat k) by lia. rewrite !Z.pow_add_r by lia. nia.
Qed.

Lemma dec_exponent_lower n d : 0 < n -> 0 < d ->
  let x := dec_exponent n d in d * 10 ^ Z.max 0 x <= n * 10 ^ Z.max 0 (- x).
Proof.
  intros Hn Hd. unfold dec_exponent. cbv zeta.
  destruct (print_nat_spec n) as (_ & _ & Hn1 & Hnl & Hn2 & _); [lia|].
  destruct (print_nat_spec d) as (_ & _ & Hd1 & Hdl & Hd2 & _); [lia|]. specialize (Hn2 Hn). specialize (Hd2 Hd).
  set (a := zlen (print_nat n)) in *. set (b := zlen (print_nat d)) in *.
  bcase; [done|]. destruct (Z.le_gt_cases 0 (a - b - 1)).
  - rewrite (Z.max_l 0 (- _)), (Z.max_r 0 (a - b - 1)) by lia. replace (10 ^ (a - 1)) with (10 ^ b * 10 ^ (a - b - 1)) in Hn2.
    + pose proof (Z.pow_pos_nonneg 10 (a - b - 1)). change (10 ^ 0) with 1. nia.
    + rewrite <- Z.pow_add_r by lia. f_equal. lia.
  - rewrite (Z.max_r 0 (- _)), (Z.max_l 0 (a - b - 1)) by lia. replace (10 ^ b) with (10 ^ (a - 1) * 10 ^ (- (a - b - 1))) in Hd1.
    + pose proof (Z.pow_pos_nonneg 10 (- (a - b - 1))). change (10 ^ 0) with 1. nia.
    + rewrite <- Z.pow_add_r by lia. f_equal. lia.
Qed.

Lemma dec_exponent_int n d : 0 < n -> 0 < d -> let x := dec_exponent (n * d) d in 0 <= x /\ 10 ^ x <= n < 10 ^ (x + 1).
Proof.
  intros Hn Hd. pose proof (dec_exponent_spec (n * d) d ltac:(nia) Hd) as Hu. pose proof (dec_exponent_lower (n * d) d ltac:(nia) Hd) as Hl.
  cbv zeta in *. set (x := dec_exponent (n * d) d) in *.
  assert (0 <= x) as Hx.
  { destruct (Z.le_gt_cases 0 x); [done|]. rewrite (Z.max_l 0 (x + 1)) in Hu by lia. pose proof (Z.pow_pos_nonneg 10 (Z.max 0 (- (x + 1))) ltac:(lia) ltac:(lia)) as HP.
    change (10 ^ 0) with 1 in Hu. generalize dependent (10 ^ Z.max 0 (- (x + 1))). intros P Hu HP. assert (d <= n * d) by nia. nia. }
  split; [done|]. rewrite (Z.max_l 0 (- _)), (Z.max_r 0 (x + 1)) in Hu by lia. rewrite (Z.max_l 0 (- _)), (Z.max_r 0 x) in Hl by lia.
  change (10 ^ 0) with 1 in *. nia.
Qed.

Lemma strip_zeros_all k : strip_zeros (replicate k 48) = [].
Proof. induction k as [|k IH]; [done|]. cbn [replicate strip_zeros]. by rewrite IH. Qed.

(** An integer with at most [p] digits. *)
Lemma printf_g_pos_int p n d : 0 < n < 10 ^ p -> 0 < d -> 0 < p -> printf_g_pos p (n * d) d = print_nat n.
Proof.
  intros Hn Hd Hp. pose proof (dec_exponent_int n d ltac:(lia) Hd) as Hx. cbv zeta in Hx. destruct Hx as [Hx Hxn].
  assert (dec_exponent (n * d) d < p) as Hxp by (apply (Z.pow_lt_mono_r_iff 10); lia).
  unfold printf_g_pos, round_digits. set (x := dec_exponent (n * d) d) in *.
  set (k := Z.to_nat (p - 1 - x)). assert (p - 1 - x = Z.of_nat k) as -> by lia.
  rewrite Z.max_r, (Z.max_l 0 (- _)) by lia. change (10 ^ 0) with 1. rewrite Z.mul_1_r.
  assert (div_nearest (n * d * 10 ^ Z.of_nat k) d = n * 10 ^ Z.of_nat k) as ->.
  { replace (n * d * 10 ^ Z.of_nat k) with (n * 10 ^ Z.of_nat k * d) by ring. unfold div_nearest. rewrite Z.div_mul, Z.mod_mul by lia.
    bcase; [done|lia]. }
  assert (n * 10 ^ Z.of_nat k < 10 ^ p) as Hq.
  { replace p with (x + 1 + Z.of_nat k) by lia. rewrite (Z.pow_add_r 10 (x + 1)) by lia. pose proof (Z.pow_pos_nonneg 10 (Z.of_nat k)). nia. }
  bcase; [lia|]. bcase; [lia|]. bcase; [|lia]. rewrite print_nat_shift by lia.
  assert (length (print_nat n) = Z.to_nat (x + 1)) as <- by (pose proof (print_nat_digits n x Hx Hxn) as Ex; unfold zlen in Ex; lia).
  rewrite take_app_length, drop_app_length. unfold with_fraction. by rewrite strip_zeros_all.
Qed.
