(* ===== verification/Affinity.v ===== *)
(** * CPU affinity lists (affinity_linux.c)

    The configuration pins the worker to CPUs with a text such as [0-3,8].
    [strtoul] reads the numbers, in base 8, 10 or 16; CPUs are 64-bit
    integers and wrap around. *)

From stdpp Require Import prelude list list_numbers gmap.
From S2P Require Import Prelude Decimal.

(** ** strtoul *)

Definition ULONG_MAX : Z := 18446744073709551615.

Definition is_space (c : Z) : bool := (c =? 32) || ((9 <=? c) && (c <=? 13)).

Fixpoint skip_spaces (l : list Z) : list Z :=
  match l with c :: t => if is_space c then skip_spaces t else l | [] => [] end.

Definition digit_value (c : Z) : Z :=
  if is_digit c then c - 48
  else if (97 <=? c) && (c <=? 122) then c - 87
  else if (65 <=? c) && (c <=? 90) then c - 55
  else 36.

(** The digits in base [base]: the number so far, and the rest. *)
Fixpoint scan_digits (base acc : Z) (l : list Z) : Z * list Z :=
  match l with
  | c :: t => if digit_value c <? base then scan_digits base (acc * base + digit_value c) t else (acc, l)
  | [] => (acc, [])
  end.

Definition starts_in (base : Z) (l : list Z) : bool := match l with c :: _ => digit_value c <? base | [] => false end.

(** Base 0: [0x] and a hexadecimal digit, a leading 0, or decimal. *)
Definition number_base (l : list Z) : Z * list Z :=
  match l with
  | 48 :: x :: t => if ((x =? 120) || (x =? 88)) && starts_in 16 t then (16, t) else (8, l)
  | 48 :: _ => (8, l)
  | _ => (10, l)
  end.

(** [strtoul(pos, &end, 0)]; [None] is [end == pos].  A number that does not
    fit is [ULONG_MAX], a minus sign negates modulo 2^64. *)
Definition strtoul (l : list Z) : option (Z * list Z) :=
  let '(neg, t) := read_sign (skip_spaces l) in
  let '(base, t) := number_base t in
  if starts_in base t then
    let '(n, rest) := scan_digits base 0 t in
    Some (if ULONG_MAX <? n then ULONG_MAX else if neg : bool then u64 (- n) else n, rest)
  else None.

(** ** cpu_set_parse *)

Definition CPU_SETSIZE : Z := 1024.

Definition CPU_SET (v : Z) (mask : gset Z) : gset Z := if v <? CPU_SETSIZE then {[ v ]} ∪ mask else mask.

(** [for (unsigned long v = v0; v <= v1; ++v)]; [None]: more than [fuel]
    rounds. *)
Fixpoint cpu_set_range (fuel : nat) (v v1 : Z) (mask : gset Z) : option (gset Z) :=
  match fuel with
  | O => None
  | S fuel => if v <=? v1 then cpu_set_range fuel (u64 (v + 1)) v1 (CPU_SET v mask) else Some mask
  end.

Section parse.
  (** The rounds the inner loop may take. *)
  Context (fuel : nat).

(** From the text after a range: a comma and more, or the end. *)
Definition after_range (loop : list Z -> gset Z -> option (Z * gset Z)) (v0 v1 : Z) (pos : list Z) (mask : gset Z) :
    option (Z * gset Z) :=
  match pos with
  | [] => mask ← cpu_set_range fuel v0 v1 mask; Some (0, mask)
  | c :: pos =>
      if c =? 44 then
        mask ← cpu_set_range fuel v0 v1 mask;
        match pos with [] => Some (-1, mask) | _ => loop pos mask end
      else Some (-1, mask)
  end.

(** The loop over the text: each round consumes a character. *)
Fixpoint parse_loop (n : nat) (pos : list Z) (mask : gset Z) : option (Z * gset Z) :=
  match n with
  | O => None
  | S n =>
      match pos with
      | [] => Some (0, mask)
      | c :: _ =>
          if negb (is_digit c) then Some (-1, mask)
          else
            match strtoul pos with
            | None => Some (-1, mask)
            | Some (v0, []) => Some (0, CPU_SET v0 mask)
            | Some (v0, c :: rest) =>
                if c =? 45 then
                  match strtoul rest with
                  | None => Some (-1, mask)
                  | Some (v1, rest) => if v1 <? v0 then Some (-1, mask) else after_range (parse_loop n) v0 v1 rest mask
                  end
                else after_range (parse_loop n) v0 v0 (c :: rest) mask
            end
      end
  end.

Definition cpu_set_parse (value : list Z) : option (Z * gset Z) := parse_loop (S (length value)) value ∅.

End parse.

(** [sched]: what [sched_setaffinity] answers for a set. *)
Definition set_cpu_affinity (fuel : nat) (sched : gset Z -> Z) (value : option (list Z)) : option Z :=
  match value with
  | None => Some (-1)
  | Some value =>
      r ← cpu_set_parse fuel value;
      Some (if fst r =? 0 then sched (snd r) else -1)
  end.

(** ** Lemmas *)

Lemma digit_value_nonneg c : 0 <= digit_value c.
Proof.
  unfold digit_value. destruct (is_digit c) eqn:E; [apply is_digit_range in E; lia|].
  destruct ((97 <=? c) && (c <=? 122)) eqn:E1; breflect; [lia|]. destruct ((65 <=? c) && (c <=? 90)) eqn:E2; breflect; lia.
Qed.

Lemma digit_value_digit c : is_digit c = true -> digit_value c = c - 48.
Proof. unfold digit_value. by intros ->. Qed.

Lemma scan_digits_spec base l : 0 < base -> forall acc n rest, 0 <= acc -> scan_digits base acc l = (n, rest) ->
  0 <= n /\ exists used, l = used ++ rest /\ (starts_in base l = true -> used <> []).
Proof.
  intros Hb. induction l as [|c l IH]; intros acc n rest Ha; cbn [scan_digits starts_in].
  - intros [= -> <-]. split; [done|]. by exists [].
  - destruct (Z.ltb_spec (digit_value c) base) as [Hc|Hc].
    + intros H. pose proof (digit_value_nonneg c). assert (0 <= acc * base + digit_value c) as Ha' by nia. destruct (IH _ _ _ Ha' H) as (Hn & used & -> & _).
      split; [done|]. by exists (c :: used).
    + intros [= -> <-]. split; [done|]. by exists [].
Qed.

Lemma skip_spaces_suffix l : exists used, l = used ++ skip_spaces l.
Proof.
  induction l as [|c l [used IH]]; cbn [skip_spaces]; [by exists []|]. destruct (is_space c); [|by exists []].
  exists (c :: used). cbn. by f_equal.
Qed.

Lemma number_base_suffix l : 0 < (number_base l).1 /\ exists used, l = used ++ (number_base l).2.
Proof.
  unfold number_base. repeat case_match; cbn; (split; [lia|]); subst; first [by exists []|by eexists [_; _]].
Qed.

Lemma strtoul_spec l v rest : strtoul l = Some (v, rest) -> 0 <= v <= ULONG_MAX /\ (length rest < length l)%nat /\ exists used, l = used ++ rest.
Proof.
  unfold strtoul. destruct (skip_spaces_suffix l) as [u1 E1]. destruct (read_sign_suffix (skip_spaces l)) as [u2 E2].
  destruct (read_sign (skip_spaces l)) as [neg t2]. cbn [snd] in E2.
  destruct (number_base_suffix t2) as (Hb & u3 & E3). destruct (number_base t2) as [base t3]. cbn [fst snd] in Hb, E3.
  destruct (starts_in base t3) eqn:Es; [|done]. destruct (scan_digits base 0 t3) as [n r] eqn:Ed.
  destruct (scan_digits_spec base t3 Hb 0 n r ltac:(lia) Ed) as (Hn & u4 & E4 & Hu). specialize (Hu Es).
  intros [= <- <-]. rewrite E1, E2, E3, E4. split.
  - unfold ULONG_MAX, u64. repeat bcase; zlia.
  - split; [rewrite !length_app; destruct u4; [done|cbn; lia]|]. exists (u1 ++ u2 ++ u3 ++ u4). by rewrite <- !app_assoc.
Qed.

Lemma elem_of_CPU_SET w v mask : w ∈ CPU_SET v mask <-> (w < CPU_SETSIZE /\ w = v) \/ w ∈ mask.
Proof. unfold CPU_SET. bcase; set_solver by lia. Qed.

(** A range that ends below [ULONG_MAX] is set. *)
Lemma cpu_set_range_ok fuel : forall v v1 mask, 0 <= v <= v1 + 1 -> v1 < ULONG_MAX -> v1 - v + 1 < Z.of_nat fuel ->
  exists mask', cpu_set_range fuel v v1 mask = Some mask' /\
    forall w, w ∈ mask' <-> (w < CPU_SETSIZE /\ v <= w <= v1) \/ w ∈ mask.
Proof.
  induction fuel as [|fuel IH]; intros v v1 mask Hv Hv1 Hf; [lia|]. cbn [cpu_set_range].
  destruct (Z.leb_spec v v1) as [Hle|Hgt].
  - rewrite u64_small by (unfold ULONG_MAX in *; lia).
    destruct (IH (v + 1) v1 (CPU_SET v mask)) as (mask' & -> & Hm); [lia..|]. exists mask'. split; [done|].
    intros w. rewrite Hm, elem_of_CPU_SET. split; [intros [?|[?|?]]|intros [?|?]]; [left; lia|left; lia|by right| |by right; right].
    destruct (decide (w = v)); [right; left; lia|left; lia].
  - exists mask. split; [done|]. intros w. split; [by right|]. intros [?|?]; [lia|done].
Qed.

(** One that ends at [ULONG_MAX] never ends. *)
Lemma cpu_set_range_diverges fuel : forall v mask, 0 <= v <= ULONG_MAX -> cpu_set_range fuel v ULONG_MAX mask = None.
Proof.
  induction fuel as [|fuel IH]; intros v mask Hv; [done|]. cbn [cpu_set_range].
  destruct (Z.leb_spec v ULONG_MAX) as [_|]; [|lia]. apply IH. unfold u64, ULONG_MAX. zlia.
Qed.

(** *** Printed numbers *)

Lemma scan_decimal d rest : digits d -> starts_in 10 rest = false -> forall acc,
  scan_digits 10 acc (d ++ rest) = (foldl (fun n b => 10 * n + (b - 48)) acc d, rest).
Proof.
  intros Hd Hr. induction Hd as [|b d Hb Hd IH]; intros acc; cbn [app scan_digits foldl].
  - destruct rest as [|c rest]; [done|]. cbn [scan_digits starts_in] in *. by rewrite Hr.
  - rewrite (digit_value_digit b Hb). apply is_digit_range in Hb. destruct (Z.ltb_spec (b - 48) 10) as [_|]; [|lia].
    rewrite IH. f_equal. f_equal. lia.
Qed.

(** What may follow a number in a list of CPUs. *)
Definition number_end (rest : list Z) : Prop := match rest with c :: _ => c = 44 \/ c = 45 | [] => True end.

Lemma skip_spaces_digit b t : is_digit b = true -> skip_spaces (b :: t) = b :: t.
Proof.
  intros Hb. apply is_digit_range in Hb. cbn [skip_spaces]. unfold is_space. destruct (Z.eqb_spec b 32); [lia|].
  destruct (Z.leb_spec b 13); [lia|]. by rewrite andb_false_r.
Qed.

Lemma strtoul_printed n rest : 0 <= n <= ULONG_MAX -> number_end rest -> strtoul (print_nat n ++ rest) = Some (n, rest).
Proof.
  intros Hn Hr. unfold strtoul. destruct (print_nat_spec n) as (Hd & Hnum & _); [lia|].
  destruct (print_nat_cases n) as [(-> & E)|(Hp & b & t & E & Hb)]; [lia| |].
  - rewrite E. cbn [app]. rewrite skip_spaces_digit by done.
    destruct rest as [|c rest]; [done|]. destruct Hr as [-> | ->]; done.
  - rewrite E. cbn [app]. rewrite skip_spaces_digit by (apply is_digit_range; lia).
    assert (read_sign (b :: t ++ rest) = (false, b :: t ++ rest)) as ->.
    { unfold read_sign. repeat case_match; simplify_eq; lia || done. }
    assert (number_base (b :: t ++ rest) = (10, b :: t ++ rest)) as ->.
    { unfold number_base. repeat case_match; simplify_eq; lia || done. }
    cbn [starts_in]. rewrite digit_value_digit by (apply is_digit_range; lia).
    destruct (Z.ltb_spec (b - 48) 10) as [_|]; [|lia].
    rewrite app_comm_cons, <- E, scan_decimal; [|done|by destruct rest as [|c rest]; [|destruct Hr as [-> | ->]]].
    fold (dec_num (print_nat n)). rewrite Hnum. destruct (Z.ltb_spec ULONG_MAX n) as [|_]; [lia|done].
Qed.

(** *** Printed lists *)

Definition print_range (r : Z * Z) : list Z :=
  if fst r =? snd r then print_nat (fst r) else print_nat (fst r) ++ 45 :: print_nat (snd r).

Fixpoint print_ranges (rs : list (Z * Z)) : list Z :=
  match rs with
  | [] => []
  | [r] => print_range r
  | r :: rs => print_range r ++ 44 :: print_ranges rs
  end.

Definition range_ok (fuel : nat) (r : Z * Z) : Prop :=
  0 <= fst r <= snd r /\ snd r < ULONG_MAX /\ snd r - fst r + 1 < Z.of_nat fuel.

Lemma print_nat_start n rest : 0 <= n -> exists b t, print_nat n ++ rest = b :: t /\ is_digit b = true.
Proof.
  intros Hn. destruct (print_nat_spec n Hn) as (Hd & _ & _ & Hl & _). destruct (print_nat n) as [|b t]; [done|].
  apply Forall_cons in Hd as [Hb _]. by exists b, (t ++ rest).
Qed.

(** One range and what follows it. *)
Lemma parse_range fuel n r rest mask : range_ok fuel r -> (rest = [] \/ exists t, rest = 44 :: t) ->
  exists mask', parse_loop fuel (S n) (print_range r ++ rest) mask =
    match rest with [] => Some (0, mask') | _ :: [] => Some (-1, mask') | _ :: t => parse_loop fuel n t mask' end /\
    forall w, w ∈ mask' <-> (w < CPU_SETSIZE /\ fst r <= w <= snd r) \/ w ∈ mask.
Proof.
  destruct r as [a b]. unfold range_ok. cbn [fst snd]. intros (Hab & Hb & Hf) Hr.
  destruct (cpu_set_range_ok fuel a b mask) as (mask' & Em & Hm); [lia..|].
  assert (Hend : number_end rest) by (destruct Hr as [->|(t & ->)]; cbn; tauto).
  unfold print_range. cbn [fst snd]. destruct (Z.eqb_spec a b) as [<-|Hne].
  - destruct (print_nat_start a rest) as (c & t & Ec & Hc); [lia|]. cbn [parse_loop]. rewrite Ec, Hc. cbn [negb]. rewrite <- Ec.
    rewrite strtoul_printed by (done || lia). destruct Hr as [->|(u & ->)].
    + exists (CPU_SET a mask). split; [done|]. intros w. rewrite elem_of_CPU_SET. split; intros [?|?]; [left; lia|by right|left; lia|by right].
    + exists mask'. split; [|done]. cbn [Z.eqb Pos.eqb after_range]. rewrite Em. cbn. by destruct u.
  - rewrite <- app_assoc. destruct (print_nat_start a (45 :: print_nat b ++ rest)) as (c & t & Ec & Hc); [lia|].
    cbn [parse_loop app]. rewrite Ec, Hc. cbn [negb]. rewrite <- Ec. rewrite strtoul_printed by (cbn; auto || lia).
    cbn [Z.eqb Pos.eqb]. rewrite strtoul_printed by (done || lia). destruct (Z.ltb_spec b a) as [|_]; [lia|].
    exists mask'. split; [|done]. destruct Hr as [->|(u & ->)]; cbn [after_range Z.eqb Pos.eqb]; rewrite Em; cbn; [done|by destruct u].
Qed.

Lemma print_range_nonempty r rest : 0 <= fst r -> print_range r ++ rest <> [].
Proof.
  intros Hr E. destruct (print_nat_start (fst r) (if fst r =? snd r then rest else 45 :: print_nat (snd r) ++ rest) Hr) as (b & t & Eb & _).
  unfold print_range in E. destruct (fst r =? snd r); [|rewrite <- app_assoc in E; cbn [app] in E]; by rewrite Eb in E.
Qed.

Lemma parse_ranges fuel rs : rs <> [] -> Forall (range_ok fuel) rs -> forall n mask, (length (print_ranges rs) < n)%nat ->
  exists mask', parse_loop fuel n (print_ranges rs) mask = Some (0, mask') /\
    forall w, w ∈ mask' <-> (w < CPU_SETSIZE /\ Exists (fun r => fst r <= w <= snd r) rs) \/ w ∈ mask.
Proof.
  intros Hne Hrs. induction Hrs as [|r rs Hr Hrs IH]; [done|]. intros [|n] mask Hn; [lia|]. destruct rs as [|r2 rs].
  - cbn [print_ranges]. destruct (parse_range fuel n r [] mask Hr ltac:(by left)) as (mask' & E & Hm). rewrite app_nil_r in E.
    exists mask'. split; [done|]. intros w. rewrite Hm, Exists_cons, Exists_nil. tauto.
  - change (print_ranges (r :: r2 :: rs)) with (print_range r ++ 44 :: print_ranges (r2 :: rs)) in *.
    destruct (parse_range fuel n r (44 :: print_ranges (r2 :: rs)) mask Hr ltac:(right; by eexists)) as (mask1 & E & Hm).
    rewrite length_app in Hn. cbn [length] in Hn. destruct (IH ltac:(done) n mask1 ltac:(lia)) as (mask' & E' & Hm').
    exists mask'. split.
    + rewrite E. apply Forall_cons in Hrs as [Hr2 _]. destruct (print_ranges (r2 :: rs)) as [|c t] eqn:Ep; [|done]. exfalso.
      destruct Hr2 as [[H0 _] _]. destruct rs as [|r3 rs].
      * apply (print_range_nonempty r2 [] H0). by rewrite app_nil_r.
      * by apply (print_range_nonempty r2 (44 :: print_ranges (r3 :: rs)) H0).
    + intros w. rewrite Hm', Hm, (Exists_cons _ r). tauto.
Qed.

(** *** The ranges of a text *)

(** The item a text starts with, [a] or [a-b]: its bounds, whether it has a
    minus, and what follows it. *)
Definition first_item (pos : list Z) : option (Z * Z * bool * list Z) :=
  match pos with
  | c :: _ =>
      if is_digit c then
        '(v0, rest) ← strtoul pos;
        match rest with
        | 45 :: rest => '(v1, rest) ← strtoul rest; if v1 <? v0 then None else Some (v0, v1, true, rest)
        | _ => Some (v0, v0, false, rest)
        end
      else None
  | [] => None
  end.

(** The parser counts from [a] to [b]: the item that says so is read (all
    items before it are well formed and followed by a comma), and a comma
    follows it or it is a range at the end of the text. *)
Inductive counts_over : list Z -> Z -> Z -> Prop :=
| CountsComma pos a b minus rest : first_item pos = Some (a, b, minus, 44 :: rest) -> counts_over pos a b
| CountsEnd pos a b : first_item pos = Some (a, b, true, []) -> counts_over pos a b
| CountsNext pos v0 v1 minus rest a b :
    first_item pos = Some (v0, v1, minus, 44 :: rest) -> counts_over rest a b -> counts_over pos a b.

(** A round of the loop, by the item the text starts with. *)
Lemma parse_loop_item fuel n pos mask :
  parse_loop fuel (S n) pos mask =
  match pos, first_item pos with
  | [], _ => Some (0, mask)
  | _, None => Some (-1, mask)
  | _, Some (v0, v1, false, []) => Some (0, CPU_SET v0 mask)
  | _, Some (v0, v1, _, rest) => after_range fuel (parse_loop fuel n) v0 v1 rest mask
  end.
Proof.
  cbn [parse_loop]. unfold first_item. destruct pos as [|c0 pos0] eqn:Ep; [done|]. rewrite <- Ep.
  destruct (is_digit c0); [|done]. cbn [negb]. destruct (strtoul pos) as [[v0 rest]|]; [|done]. obind.
  destruct rest as [|c rest]; [done|]. destruct (Z.eqb_spec c 45) as [->|Hc].
  - destruct (strtoul rest) as [[v1 rest1]|]; [|done]. obind. by destruct (v1 <? v0).
  - repeat case_match; simplify_eq; done.
Qed.

Lemma first_item_spec pos v0 v1 minus rest :
  first_item pos = Some (v0, v1, minus, rest) -> 0 <= v0 <= v1 /\ v1 <= ULONG_MAX /\ (length rest < length pos)%nat.
Proof.
  unfold first_item. destruct pos as [|c0 pos0] eqn:Ep; [done|]. rewrite <- Ep. clear Ep pos0.
  destruct (is_digit c0); [|done]. destruct (strtoul pos) as [[w0 r0]|] eqn:E0; [|done]. obind.
  destruct (strtoul_spec pos w0 r0 E0) as (Hw0 & Hl0 & _).
  assert (Hone : Some (w0, w0, false, r0) = Some (v0, v1, minus, rest) -> 0 <= v0 <= v1 /\ v1 <= ULONG_MAX /\ (length rest < length pos)%nat)
    by (intros [= -> <- _ ->]; lia).
  destruct r0 as [|c r0]; [done|]. destruct (Z.eq_dec c 45) as [->|Hc]; [|repeat case_match; simplify_eq; done].
  destruct (strtoul r0) as [[w1 r1]|] eqn:E1; [|done]. obind. destruct (strtoul_spec r0 w1 r1 E1) as (Hw1 & Hl1 & _).
  destruct (Z.ltb_spec w1 w0); [done|]. intros [= -> -> _ ->]. cbn [length] in Hl0. lia.
Qed.

(** A text on which the loops do not end has a range up to [ULONG_MAX]. *)
Lemma parse_loop_ends fuel n : Z.of_nat fuel > ULONG_MAX + 1 -> forall pos mask, (length pos < n)%nat ->
  parse_loop fuel n pos mask = None -> exists a, counts_over pos a ULONG_MAX.
Proof.
  intros Hf. induction n as [|n IH]; intros pos mask Hn; [lia|]. rewrite parse_loop_item.
  destruct pos as [|c0 pos0] eqn:Ep; [done|]. rewrite <- Ep in *. clear Ep c0 pos0.
  destruct (first_item pos) as [[[[v0 v1] minus] rest]|] eqn:Ei; [|done].
  destruct (first_item_spec _ _ _ _ _ Ei) as (Hv0 & Hv1 & Hl).
  destruct (decide (v1 = ULONG_MAX)) as [->|Hne].
  { destruct rest as [|c rest]; [destruct minus; [intros _; exists v0; by eapply CountsEnd|done]|].
    assert (after_range fuel (parse_loop fuel n) v0 ULONG_MAX (c :: rest) mask = None -> exists a, counts_over pos a ULONG_MAX) as H.
    { unfold after_range. destruct (Z.eqb_spec c 44) as [->|]; [|done]. intros _. exists v0. by eapply CountsComma. }
    by destruct minus. }
  destruct (cpu_set_range_ok fuel v0 v1 mask) as (mask' & E & _); [lia..|].
  assert (after_range fuel (parse_loop fuel n) v0 v1 rest mask = None -> exists a, counts_over pos a ULONG_MAX) as H.
  { unfold after_range. destruct rest as [|c rest]; rewrite ?E; [done|]. destruct (Z.eqb_spec c 44) as [->|]; [|done]. cbn.
    destruct rest as [|c2 rest]; [done|]. intros Hp. destruct (IH (c2 :: rest) mask') as (a & Ha); [cbn in *; lia|done|].
    exists a. by eapply CountsNext. }
  destruct rest as [|c rest], minus; done.
Qed.

Lemma counts_over_nil a b : ~ counts_over [] a b.
Proof. intros H. inversion H; discriminate. Qed.

Lemma counts_over_diverges fuel pos a : counts_over pos a ULONG_MAX -> forall n mask, parse_loop fuel n pos mask = None.
Proof.
  remember ULONG_MAX as top eqn:Et. intros H. induction H as [pos a b minus rest Ei|pos a b Ei|pos v0 v1 minus rest a b Ei H IH];
    intros [|n] mask; try done; rewrite parse_loop_item; destruct pos as [|c0 pos0] eqn:Ep; try done; rewrite <- Ep in *; clear Ep c0 pos0;
    rewrite Ei; destruct (first_item_spec _ _ _ _ _ Ei) as (Hv0 & Hv1 & _).
  - destruct minus; cbn [after_range Z.eqb Pos.eqb]; subst; by rewrite cpu_set_range_diverges.
  - cbn [after_range]. subst. by rewrite cpu_set_range_diverges.
  - assert (after_range fuel (parse_loop fuel n) v0 v1 (44 :: rest) mask = None) as E; [|by destruct minus].
    cbn [after_range Z.eqb Pos.eqb]. destruct (cpu_set_range fuel v0 v1 mask) as [mask'|]; [|done]. cbn.
    destruct rest as [|c rest]; [by apply counts_over_nil in H|]. by apply IH.
Qed.

(** The minus one at the end of a list of ranges. *)
Lemma first_item_range fuel r rest :
  range_ok fuel r -> exists minus, first_item (print_range r ++ 44 :: rest) = Some (r.1, r.2, minus, 44 :: rest).
Proof.
  destruct r as [a b]. unfold range_ok, print_range. cbn [fst snd]. intros (Hab & Hb & _).
  destruct (Z.eqb_spec a b) as [<-|Hne]; [exists false|exists true; rewrite <- app_assoc; cbn [app]].
  - destruct (print_nat_start a (44 :: rest)) as (c & t & Ec & Hc); [lia|].
    unfold first_item. rewrite Ec, Hc, <- Ec. rewrite strtoul_printed by (cbn; auto || lia). done.
  - destruct (print_nat_start a (45 :: print_nat b ++ 44 :: rest)) as (c & t & Ec & Hc); [lia|].
    unfold first_item. rewrite Ec, Hc, <- Ec. rewrite strtoul_printed by (cbn; auto || lia). obind.
    rewrite strtoul_printed by (cbn; auto || lia). obind. by rewrite (proj2 (Z.ltb_ge b a)) by lia.
Qed.

Lemma counts_over_ranges fuel rs a : 0 <= a <= ULONG_MAX -> Forall (range_ok fuel) rs ->
  counts_over ((rs ≫= fun r => print_range r ++ [44]) ++ print_nat a ++ [45; 45; 49]) a ULONG_MAX.
Proof.
  intros Ha. induction 1 as [|r rs Hr Hrs IH]; cbn [mbind list_bind app].
  - eapply CountsEnd. destruct (print_nat_start a [45; 45; 49]) as (c & t & Ec & Hc); [lia|].
    unfold first_item. rewrite Ec, Hc, <- Ec. rewrite strtoul_printed by (cbn; auto || lia). obind.
    change (strtoul [45; 49]) with (Some (ULONG_MAX, @nil Z)). obind. by rewrite (proj2 (Z.ltb_ge ULONG_MAX a)) by lia.
  - rewrite <- !app_assoc. cbn [app]. destruct (first_item_range fuel r ((rs ≫= fun r => print_range r ++ [44]) ++ print_nat a ++ [45; 45; 49]) Hr)
      as (minus & E). by eapply CountsNext.
Qed.

(** ** Theorems *)

(** A list of CPUs and ranges, written as the configuration has it, is
    read as exactly those CPUs, as far as a CPU set holds them (1024). *)
Theorem cpu_set_parse_correct (fuel : nat) (rs : list (Z * Z)) :
  rs <> [] -> Forall (range_ok fuel) rs ->
  exists mask, cpu_set_parse fuel (print_ranges rs) = Some (0, mask) /\
    forall w, w ∈ mask <-> w < CPU_SETSIZE /\ Exists (fun r => fst r <= w <= snd r) rs.
Proof.
  intros Hne Hrs. destruct (parse_ranges fuel rs Hne Hrs (S (length (print_ranges rs))) ∅ ltac:(lia)) as (mask & E & Hm).
  exists mask. split; [done|]. intros w. rewrite Hm. set_solver.
Qed.

(** C36: The parser of CPU lists ends exactly on the texts in which it does
    not have to count up to the largest unsigned long: either it returns, or
    one of the items it reads is a range up to that number, or that number
    itself followed by a comma, and then it counts for ever.  [-1] reads as
    that number, so that [a--1], at any place of a list, hangs the worker. *)
Theorem cpu_set_parse_ends (value : list Z) :
  ((exists fuel r, cpu_set_parse fuel value = Some r) <-> ~ exists a, counts_over value a ULONG_MAX) /\
  (forall a rs fuel, 0 <= a <= ULONG_MAX -> Forall (range_ok fuel) rs ->
     cpu_set_parse fuel ((rs ≫= fun r => print_range r ++ [44]) ++ print_nat a ++ [45; 45; 49]) = None).
Proof.
  split; [split|].
  - intros (fuel & r & E) (a & Ha). unfold cpu_set_parse in E. by rewrite (counts_over_diverges fuel value a Ha) in E.
  - intros Hn. set (fuel := Z.to_nat (ULONG_MAX + 2)).
    assert (Hf : Z.of_nat fuel > ULONG_MAX + 1) by (unfold fuel, ULONG_MAX; lia).
    destruct (cpu_set_parse fuel value) as [r|] eqn:E; [by exists fuel, r|]. exfalso. apply Hn.
    by apply (parse_loop_ends fuel (S (length value)) Hf value ∅) in E; [|lia].
  - intros a rs fuel Ha Hrs. apply (counts_over_diverges fuel _ a). by apply (counts_over_ranges fuel).
Qed.

(** *** Witness *)

Lemma cpu_set_parse_correct_witness :
  exists mask, cpu_set_parse 10 (print_ranges [(0, 3); (8, 8); (1020, 1026)]) = Some (0, mask) /\
    forall w, w ∈ mask <-> w < CPU_SETSIZE /\ Exists (fun r => fst r <= w <= snd r) [(0, 3); (8, 8); (1020, 1026)].
Proof. apply (cpu_set_parse_correct 10 [(0, 3); (8, 8); (1020, 1026)]); [done|]. repeat constructor; by vm_compute. Defined.
