(* ===== verification/Messages.v ===== *)
(** * Error messages and log lines (errorf.c, log.c)

    Texts are formatted into arrays of fixed size: error messages into the
    caller's buffer, where a message can be put in front of the one that is
    there; log lines into an array on the stack, or into the heap when they
    are longer. *)

From stdpp Require Import prelude list list_numbers.
From S2P Require Import Prelude Decimal.

(** ** C strings in arrays *)

(** The bytes before the first NUL. *)
Fixpoint c_text (b : list Z) : list Z :=
  match b with c :: b => if c =? 0 then [] else c :: c_text b | [] => [] end.

(** What [vsnprintf] made of its format: the whole text, or a failure, after
    which the array holds the given bytes. *)
Inductive formatted := Text (text : list Z) | Failed (junk : list Z).

(** [vsnprintf] of a text at [off], with room for [n] bytes; the array has
    [cap]. *)
Definition snprintf_at (cap : Z) (b : list Z) (off n : Z) (text : list Z) : option (list Z) :=
  if n <=? 0 then Some b else bwrite cap b off (take (Z.to_nat (n - 1)) text ++ [0]).

(** [strncpy] into an array of [n] bytes, which it fills up with NULs. *)
Definition strncpy (n : Z) (src : list Z) : list Z :=
  let t := take (Z.to_nat n) (c_text src) in t ++ replicate (Z.to_nat n - length t) 0.

(** ** errorf.c *)

Definition ERROR_BUFFER_SIZE : Z := 256.

Definition error_format (errbuf : list Z) (r : formatted) : option (list Z) :=
  match r with Text text => snprintf_at ERROR_BUFFER_SIZE errbuf 0 ERROR_BUFFER_SIZE text | Failed junk => Some junk end.

Definition error_wrap_format (errbuf : list Z) (r : formatted) : option (list Z) :=
  old_msg ← bwrite ERROR_BUFFER_SIZE (strncpy ERROR_BUFFER_SIZE errbuf) (ERROR_BUFFER_SIZE - 1) [0];
  match r with
  | Failed junk => Some junk
  | Text text =>
      errbuf ← snprintf_at ERROR_BUFFER_SIZE errbuf 0 ERROR_BUFFER_SIZE text;
      if bget old_msg 0 =? 0 then Some errbuf
      else
        let written := zlen text in
        let new_len := if ERROR_BUFFER_SIZE <=? written then ERROR_BUFFER_SIZE - 1 else written in
        let remaining_space := ERROR_BUFFER_SIZE - new_len - 1 in
        if 2 <=? remaining_space then
          errbuf ← bwrite ERROR_BUFFER_SIZE errbuf new_len [58; 32];
          let new_len := new_len + 2 in
          let remaining_space := remaining_space - 2 in
          let old_len := zlen (c_text old_msg) in
          let copy_len := if old_len <=? remaining_space then old_len else remaining_space in
          copied ← bread ERROR_BUFFER_SIZE old_msg 0 copy_len;
          errbuf ← bwrite ERROR_BUFFER_SIZE errbuf new_len copied;
          bwrite ERROR_BUFFER_SIZE errbuf (new_len + copy_len) [0]
        else Some errbuf
  end.

(** ** log.c *)

Definition LOG_LINE_STACK_SIZE : Z := 1024.

(** TRACE, DEBUG, INFO, WARN, ERROR, FATAL, as [%-5s] prints them. *)
Definition level_strings : list (list Z) :=
  [[84; 82; 65; 67; 69]; [68; 69; 66; 85; 71]; [73; 78; 70; 79; 32]; [87; 65; 82; 78; 32]; [69; 82; 82; 79; 82]; [70; 65; 84; 65; 76]].

(** <time-unavailable> *)
Definition no_time : list Z := [60; 116; 105; 109; 101; 45; 117; 110; 97; 118; 97; 105; 108; 97; 98; 108; 101; 62].

(** The prefix of a line; [None]: no such level. *)
Definition log_prefix (ts : option (list Z)) (level : Z) (file : list Z) (line : Z) : option (list Z) :=
  name ← (if 0 <=? level then level_strings !! Z.to_nat level else None);
  Some (default no_time ts ++ [32] ++ name ++ [32] ++ file ++ [58] ++ print_int line ++ [58; 32]).

(** [msg]: what the two calls of [vsnprintf] make of the format and its
    arguments; [memory]: whether [malloc] succeeds; [heap]: what its memory
    holds.  The bytes handed to [fwrite]. *)
Definition format_line (stack heap prefix : list Z) (msg : formatted) (memory : bool) : option (list Z) :=
  let size := LOG_LINE_STACK_SIZE in
  line ← snprintf_at size stack 0 size prefix;
  let prefix_len := if size - 2 <? zlen prefix then size - 2 else zlen prefix in
  line ← (match msg with
          | Text m => snprintf_at size line prefix_len (size - prefix_len) m
          | Failed junk => bwrite size line prefix_len (take (Z.to_nat (size - prefix_len)) junk)
          end);
  let msg_len := match msg with Text m => zlen m | Failed _ => 0 end in
  let need := prefix_len + msg_len + 2 in
  if size <? need then
    if memory then
      copied ← bread size line 0 prefix_len;
      heap_line ← bwrite need heap 0 copied;
      heap_line ← (match msg with
                   | Text m => snprintf_at need heap_line prefix_len (need - prefix_len) m
                   | Failed junk => bwrite need heap_line prefix_len (take (Z.to_nat (need - prefix_len)) junk)
                   end);
      heap_line ← bwrite need heap_line (prefix_len + msg_len) [10];
      bread need heap_line 0 (prefix_len + msg_len + 1)
    else
      let msg_len := size - prefix_len - 2 in
      line ← bwrite size line (prefix_len + msg_len) [10];
      bread size line 0 (prefix_len + msg_len + 1)
  else
    line ← bwrite size line (prefix_len + msg_len) [10];
    bread size line 0 (prefix_len + msg_len + 1).

(** One line on the standard error stream, or nothing when the level is
    below [L.level]; [None] is undefined behaviour. *)
Definition log_log (L_level : Z) (stack heap : list Z) (ts : option (list Z)) (level : Z) (file : list Z) (line : Z)
    (msg : formatted) (memory : bool) : option (list (list Z)) :=
  if level <? L_level then Some []
  else
    prefix ← log_prefix ts level file line;
    text ← format_line stack heap prefix msg memory;
    Some [text].

(** ** Lemmas *)

Lemma bput_after (t r d : list Z) : bput (t ++ r) (zlen t) d = t ++ d ++ drop (length d) r.
Proof.
  unfold bput. rewrite bslice_app_l by (unfold zlen; lia). rewrite bslice_full. do 2 f_equal.
  rewrite drop_app_ge by (unfold zlen; lia). f_equal. unfold zlen. lia.
Qed.

Lemma bwrite_app cap (t r d : list Z) n : n = zlen t -> zlen t + zlen d <= cap -> bwrite cap (t ++ r) n d = Some (t ++ d ++ drop (length d) r).
Proof. intros -> H. rewrite bwrite_ok by (unfold zlen in *; lia). by rewrite bput_after. Qed.

Lemma bread_app cap (t r : list Z) n : n = zlen t -> zlen t <= cap -> bread cap (t ++ r) 0 n = Some t.
Proof. intros -> H. rewrite bread_ok by (unfold zlen in *; lia). rewrite bslice_app_l by (unfold zlen; lia). by rewrite bslice_full. Qed.

Lemma bwrite_0 cap (r d : list Z) : zlen d <= cap -> bwrite cap r 0 d = Some (d ++ drop (length d) r).
Proof. intros H. by apply (bwrite_app cap [] r d 0). Qed.

Lemma snprintf_app cap (t r text : list Z) n m : n = zlen t -> 0 < m -> zlen t + m <= cap ->
  snprintf_at cap (t ++ r) n m text = Some (t ++ (take (Z.to_nat (m - 1)) text ++ [0]) ++ drop (length (take (Z.to_nat (m - 1)) text ++ [0])) r).
Proof.
  intros -> Hm Hc. unfold snprintf_at. destruct (Z.leb_spec m 0) as [|_]; [lia|]. apply bwrite_app; [done|].
  rewrite zlen_app, zlen_take. change (zlen [0]) with 1. lia.
Qed.

Lemma snprintf_0 cap (r text : list Z) m : 0 < m <= cap ->
  snprintf_at cap r 0 m text = Some (take (Z.to_nat (m - 1)) text ++ 0 :: drop (S (length (take (Z.to_nat (m - 1)) text))) r).
Proof.
  intros Hm. change r with ([] ++ r) at 1. rewrite (snprintf_app cap [] r text 0 m); [|done|lia|rewrite zlen_nil; lia]. cbn [app]. rewrite <- app_assoc. cbn [app]. do 3 f_equal.
  rewrite length_app. cbn [length]. f_equal. lia.
Qed.

Lemma zlen_take_min (n : Z) (l : list Z) : 0 <= n -> zlen (take (Z.to_nat n) l) = Z.min n (zlen l).
Proof. intros Hn. rewrite zlen_take. unfold zlen. lia. Qed.

(** *** Error messages *)

Lemma c_text_app t r : Forall (fun c => c <> 0) t -> c_text (t ++ 0 :: r) = t.
Proof. induction 1 as [|c t Hc Ht IH]; cbn [app c_text]; [done|]. destruct (Z.eqb_spec c 0); [done|]. by rewrite IH. Qed.

Lemma c_text_no_nul b : Forall (fun c => c <> 0) (c_text b).
Proof. induction b as [|c b IH]; cbn [c_text]; [done|]. destruct (Z.eqb_spec c 0); [done|]. by constructor. Qed.

(** The copy of the old message: its first 255 bytes and NULs. *)
Lemma old_copy errbuf : exists junk,
  bwrite ERROR_BUFFER_SIZE (strncpy ERROR_BUFFER_SIZE errbuf) (ERROR_BUFFER_SIZE - 1) [0] = Some (take 255 (c_text errbuf) ++ 0 :: junk).
Proof.
  unfold strncpy, ERROR_BUFFER_SIZE. change (Z.to_nat 256) with 256%nat. set (c := c_text errbuf).
  destruct (Nat.le_gt_cases 255 (length c)) as [Hl|Hl].
  - assert (exists r, take 256 c ++ replicate (256 - length (take 256 c)) 0 = take 255 c ++ r) as [r ->].
    { exists (drop 255 (take 256 c) ++ replicate (256 - length (take 256 c)) 0). rewrite app_assoc. f_equal.
      rewrite <- (take_drop 255 (take 256 c)) at 1. f_equal. rewrite take_take. done. }
    assert (zlen (take 255 c) = 255) as Hz by (unfold zlen; rewrite length_take; lia).
    exists (drop 1 r). apply (bwrite_app 256 _ _ [0]); [by rewrite Hz|]. rewrite Hz. change (zlen [0]) with 1. lia.
  - rewrite !take_ge by lia. exists (replicate (254 - length c) 0 ++ [0]).
    replace (c ++ replicate (256 - length c) 0) with ((c ++ replicate (255 - length c) 0) ++ [0]).
    2:{ rewrite <- app_assoc. f_equal. replace (256 - length c)%nat with ((255 - length c) + 1)%nat by lia. by rewrite replicate_add. }
    assert (zlen (c ++ replicate (255 - length c) 0) = 255) as Hz by (unfold zlen; rewrite length_app, length_replicate; lia).
    rewrite (bwrite_app 256 _ _ [0]) by (rewrite Hz; change (zlen [0]) with 1; lia). f_equal. rewrite <- app_assoc. f_equal. cbn [length drop app].
    replace (255 - length c)%nat with (S (254 - length c)) by lia. done.
Qed.

(** The text [error_wrap_format] leaves: the new message, and behind a colon
    the old one, unless there is none or no room for the colon. *)
Definition wrapped (text old : list Z) : list Z :=
  if bool_decide (old = []) || (253 <? zlen text) then take 255 text else take 255 (text ++ [58; 32] ++ old).

Lemma error_wrap_ok errbuf text : exists junk,
  error_wrap_format errbuf (Text text) = Some (wrapped text (take 255 (c_text errbuf)) ++ 0 :: junk).
Proof.
  unfold error_wrap_format. destruct (old_copy errbuf) as [r0 ->]. cbn [mbind option_bind].
  assert (Hnn : Forall (fun c => c <> 0) (take 255 (c_text errbuf))) by (apply Forall_take, c_text_no_nul).
  assert (Hol : zlen (take 255 (c_text errbuf)) <= 255) by (unfold zlen; rewrite length_take; lia).
  revert Hnn Hol. generalize (take 255 (c_text errbuf)) as old. intros old Hnn Hol.
  rewrite snprintf_0 by (unfold ERROR_BUFFER_SIZE; lia). cbn [mbind option_bind].
  change (Z.to_nat (ERROR_BUFFER_SIZE - 1)) with 255%nat. set (r := drop _ errbuf). clearbody r. unfold wrapped.
  destruct old as [|c old]; [cbn; by exists r|]. rewrite bool_decide_eq_false_2 by done. cbn [orb].
  replace (bget ((c :: old) ++ 0 :: r0) 0) with c by done. apply Forall_cons in Hnn as [Hc Hnn].
  destruct (Z.eqb_spec c 0) as [|_]; [done|]. unfold ERROR_BUFFER_SIZE. pose proof (zlen_nonneg text).
  destruct (Z.leb_spec 256 (zlen text)) as [Hl|Hl].
  { cbn [Z.leb Z.sub Z.compare]. destruct (Z.ltb_spec 253 (zlen text)) as [_|]; [by exists r|lia]. }
  destruct (Z.leb_spec 2 (256 - zlen text - 1)) as [H2|H2], (Z.ltb_spec 253 (zlen text)) as [H3|H3]; [lia| |by exists r|lia].
  rewrite take_ge by (unfold zlen in *; lia). rewrite (bwrite_app 256) by (done || (change (zlen [58; 32]) with 2; lia)).
  cbn [mbind option_bind]. rewrite c_text_app by (by constructor).
  set (n := if _ <=? _ then _ else _). set (old' := c :: old) in *.
  assert (Hn : n = Z.min (zlen old') (253 - zlen text)) by (unfold n; destruct (Z.leb_spec (zlen old') (256 - zlen text - 1 - 2)); lia).
  clearbody n. pose proof (zlen_nonneg old').
  replace (old' ++ 0 :: r0) with (take (Z.to_nat n) old' ++ drop (Z.to_nat n) old' ++ 0 :: r0) by (by rewrite app_assoc, take_drop).
  assert (Hz : zlen (take (Z.to_nat n) old') = n) by (rewrite zlen_take_min by lia; lia).
  rewrite bread_app by lia. cbn [mbind option_bind]. rewrite app_assoc.
  rewrite (bwrite_app 256); [|rewrite zlen_app; done|rewrite zlen_app, Hz; change (zlen [58; 32]) with 2; lia].
  cbn [mbind option_bind]. rewrite app_assoc.
  rewrite (bwrite_app 256); [|rewrite !zlen_app, Hz; done|rewrite !zlen_app, Hz; change (zlen [58; 32]) with 2; change (zlen [0]) with 1; lia].
  eexists. f_equal. f_equal. rewrite <- !app_assoc. rewrite take_app_ge by (unfold zlen in *; lia). f_equal.
  rewrite take_app_ge by (unfold zlen in *; cbn; lia). f_equal. rewrite Hn. unfold zlen in *. cbn [length].
  destruct (Z.le_gt_cases (Z.of_nat (length old')) (253 - Z.of_nat (length text))).
  - rewrite !take_ge by lia. done.
  - f_equal. lia.
Qed.

(** *** Log lines *)

Lemma log_prefix_total ts level file line : 0 <= level <= 5 -> exists p, log_prefix ts level file line = Some p.
Proof.
  intros Hl. unfold log_prefix. destruct (Z.leb_spec 0 level) as [_|]; [|lia].
  destruct (lookup_lt_is_Some_2 level_strings (Z.to_nat level)) as [n ->]; [cbn; lia|]. by eexists.
Qed.

(** The part of the prefix that stays on the line. *)
Lemma prefix_written stack p : exists r,
  snprintf_at LOG_LINE_STACK_SIZE stack 0 LOG_LINE_STACK_SIZE p = Some (take 1022 p ++ r) /\
  (if LOG_LINE_STACK_SIZE - 2 <? zlen p then LOG_LINE_STACK_SIZE - 2 else zlen p) = zlen (take 1022 p).
Proof.
  unfold LOG_LINE_STACK_SIZE. rewrite snprintf_0 by lia. change (Z.to_nat (1024 - 1)) with 1023%nat.
  exists (drop 1022 (take 1023 p) ++ 0 :: drop (S (length (take 1023 p))) stack). split.
  - f_equal. rewrite app_assoc. f_equal. rewrite <- (take_drop 1022 (take 1023 p)) at 1. f_equal. rewrite take_take. done.
  - destruct (Z.ltb_spec (1024 - 2) (zlen p)); unfold zlen in *; rewrite length_take; lia.
Qed.

(** The end of a line: the newline over what follows the text, and the read. *)
Lemma line_end cap (t r : list Z) n : n = zlen t -> zlen t + 1 <= cap ->
  (line ← bwrite cap (t ++ r) n [10]; bread cap line 0 (n + 1)) = Some (t ++ [10]).
Proof.
  intros -> H. rewrite bwrite_app by (done || (change (zlen [10]) with 1; lia)). cbn [mbind option_bind].
  rewrite app_assoc. apply bread_app; rewrite zlen_app; [done|]. change (zlen [10]) with 1. lia.
Qed.

Definition log_text (p m : list Z) (memory : bool) : list Z :=
  let t := take 1022 p ++ m in if memory then t else take 1022 t.

Lemma format_line_ok stack heap p m memory : format_line stack heap p (Text m) memory = Some (log_text p m memory ++ [10]).
Proof.
  unfold format_line. destruct (prefix_written stack p) as (r & -> & ->). cbn [mbind option_bind]. unfold log_text.
  assert (Hp : zlen (take 1022 p) <= 1022) by (unfold zlen; rewrite length_take; lia).
  revert Hp. generalize (take 1022 p) as q. intros q Hp. pose proof (zlen_nonneg q). pose proof (zlen_nonneg m). unfold LOG_LINE_STACK_SIZE.
  rewrite snprintf_app by lia. cbn [mbind option_bind]. set (r1 := drop _ r). clearbody r1.
  destruct (Z.ltb_spec 1024 (zlen q + zlen m + 2)) as [Hb|Hb].
  - destruct memory.
    + rewrite bread_app by lia. cbn [mbind option_bind]. rewrite bwrite_0 by lia. cbn [mbind option_bind].
      rewrite snprintf_app by lia. cbn [mbind option_bind]. rewrite (take_ge m) by (unfold zlen in *; lia).
      rewrite <- (app_assoc m), app_assoc. apply line_end; rewrite zlen_app; lia.
    + set (k := Z.to_nat (1024 - zlen q - 2)).
      replace (take (Z.to_nat (1024 - zlen q - 1)) m) with (take k m ++ drop k (take (Z.to_nat (1024 - zlen q - 1)) m)).
      2:{ rewrite <- (take_drop k (take (Z.to_nat (1024 - zlen q - 1)) m)) at 2. f_equal. rewrite take_take. f_equal. unfold k. lia. }
      rewrite take_app_ge by (unfold zlen in *; lia).
      replace (take (1022 - length q) m) with (take k m) by (f_equal; unfold k, zlen in *; lia).
      rewrite <- !app_assoc, (app_assoc q). rewrite line_end; [by rewrite <- app_assoc|..]; rewrite zlen_app, (zlen_take_min (1024 - zlen q - 2)) by lia; lia.
  - rewrite (take_ge m) by (unfold zlen in *; lia). rewrite <- (app_assoc m), app_assoc.
    replace (if memory then q ++ m else take 1022 (q ++ m)) with (q ++ m)
      by (destruct memory; [done|rewrite take_ge; [done|rewrite length_app; unfold zlen in *; lia]]).
    apply line_end; rewrite zlen_app; lia.
Qed.

(** ** Theorems *)

(** The error and log functions never write outside their arrays,
    whatever the message.  Wrapping an error leaves the new message, a
    colon and the old one, cut to 255 bytes and ended by a NUL; without an old
    message, or without room for the colon, the new message alone.  A log
    call above the level writes exactly one line: the prefix, cut to 1022
    bytes, the whole message and a newline, or, when there is no memory for a
    long line, its first 1022 bytes and a newline; below the level it writes
    nothing. *)
Theorem messages_in_bounds (errbuf text stack heap file m : list Z) ts level line (L_level : Z) (memory : bool) :
  0 <= level <= 5 ->
  (exists junk, error_format errbuf (Text text) = Some (take 255 text ++ 0 :: junk)) /\
  (exists junk, error_wrap_format errbuf (Text text) = Some (wrapped text (take 255 (c_text errbuf)) ++ 0 :: junk)) /\
  (exists p, log_prefix ts level file line = Some p /\
     log_log L_level stack heap ts level file line (Text m) memory =
       Some (if level <? L_level then [] else [log_text p m memory ++ [10]])).
Proof.
  intros Hl. split; [|split].
  - unfold error_format. rewrite snprintf_0 by (unfold ERROR_BUFFER_SIZE; lia). by eexists.
  - apply error_wrap_ok.
  - destruct (log_prefix_total ts level file line Hl) as [p Hp]. exists p. split; [done|]. unfold log_log. destruct (level <? L_level); [done|].
    rewrite Hp. cbn [mbind option_bind]. by rewrite format_line_ok.
Qed.

(** *** Witness *)

Lemma messages_in_bounds_witness :
  (exists junk, error_format [] (Text [97]) = Some (take 255 [97] ++ 0 :: junk)) /\
  (exists junk, error_wrap_format [98; 0; 7] (Text [97]) = Some (wrapped [97] (take 255 (c_text [98; 0; 7])) ++ 0 :: junk)) /\
  (exists p, log_prefix None 4 [99] 12 = Some p /\
     log_log 2 [] [] None 4 [99] 12 (Text [97]) false = Some (if 4 <? 2 then [] else [log_text p [97] false ++ [10]])).
Proof.
  destruct (messages_in_bounds [98; 0; 7] [97] [] [] [99] [97] None 4 12 2 false ltac:(lia)) as (_ & H2 & H3).
  destruct (messages_in_bounds [] [97] [] [] [] [] None 4 12 2 false ltac:(lia)) as (H1 & _). by split.
Defined.
