(* ===== verification/CJson.v ===== *)
(** * Reading JSON (cjson_utils.c and the accessors of cJSON.c it uses)

    JSON values as the cJSON tree holds them, the monad in which the
    configuration is read (a struct filled field by field, a heap of
    allocated blocks, an error buffer), the error buffer itself, and the two
    readers of numbers. *)

From stdpp Require Import prelude list strings pretty gmultiset.
From Stdlib Require Import SpecFloat.
From S2P Require Import Prelude RateLimit Decimal.

(** ** JSON values

    An object keeps its members in order; a name may occur twice. *)

#[warnings="-register-all"]
Inductive cJSON :=
| JNull
| JBool (b : bool)
| JNumber (valuedouble : double)
| JString (valuestring : string)
| JArray (items : list cJSON)
| JObject (members : list (string * cJSON)).

Fixpoint find_member (name : string) (members : list (string * cJSON)) : option cJSON :=
  match members with
  | [] => None
  | (k, v) :: rest => if String.eqb name k then Some v else find_member name rest
  end.

(** The elements of an array have no name, so the search stops there. *)
Definition get_object_item (object : cJSON) (name : string) : option cJSON :=
  match object with JObject members => find_member name members | _ => None end.

Definition cJSON_IsString (item : option cJSON) : option string :=
  match item with Some (JString s) => Some s | _ => None end.
Definition cJSON_IsArray (item : option cJSON) : option (list cJSON) :=
  match item with Some (JArray l) => Some l | _ => None end.
Definition cJSON_IsObject (item : cJSON) : bool :=
  match item with JObject _ => true | _ => false end.

(** ** Comparing a double with an integer

    Every comparison of the readers has an integer on one side that a double
    holds exactly, so the comparison is the exact one; [None] is the
    unordered case. *)

Definition signed (s : bool) (m : positive) : Z := if s then Z.neg m else Z.pos m.

Definition dbl_cmpZ (x : double) (c : Z) : option comparison :=
  match x with
  | S754_nan => None
  | S754_infinity s => Some (if s then Lt else Gt)
  | S754_zero _ => Some (0 ?= c)
  | S754_finite s m e => Some (if 0 <=? e then signed s m * 2 ^ e ?= c else signed s m ?= c * 2 ^ (- e))
  end.

Definition dbl_ltZ (x : double) (c : Z) : bool := match dbl_cmpZ x c with Some Lt => true | _ => false end.
Definition dbl_gtZ (x : double) (c : Z) : bool := match dbl_cmpZ x c with Some Gt => true | _ => false end.
Definition dbl_eqZ (x : double) (c : Z) : bool := match dbl_cmpZ x c with Some Eq => true | _ => false end.
Definition dbl_leZ (x : double) (c : Z) : bool := dbl_ltZ x c || dbl_eqZ x c.

(** [floor(x) == x] *)
Definition dbl_is_floor (x : double) : bool :=
  match x with
  | S754_nan => false
  | S754_infinity _ | S754_zero _ => true
  | S754_finite s m e => dbl_eqZ x (if 0 <=? e then signed s m * 2 ^ e else signed s m / 2 ^ (- e))
  end.

(** The double [x] is the integer [v]. *)
Definition is_int (x : double) (v : Z) : Prop := forall c, dbl_cmpZ x c = Some (v ?= c).

Lemma dbl_eqZ_is_int x v : dbl_eqZ x v = true -> is_int x v /\ dbl_trunc x = v.
Proof.
  unfold dbl_eqZ, is_int. destruct x as [s|s| |s m e]; cbn [dbl_cmpZ dbl_trunc]; [|intros Hd; destruct s; discriminate Hd|done|].
  - destruct (0 ?= v) eqn:E; [|done|done]. apply Z.compare_eq in E as <-. done.
  - destruct (Z.leb_spec 0 e) as [He|He].
    + destruct (_ ?= v) eqn:E; [|done|done]. intros _. apply Z.compare_eq in E as <-. split; [done|]. destruct s; cbn [signed]; [|done]. by rewrite <- Z.mul_opp_l.
    + destruct (_ ?= v * _) eqn:E; [|done|done]. intros _. apply Z.compare_eq in E.
      pose proof (Z.pow_pos_nonneg 2 (- e) ltac:(lia) ltac:(lia)) as Hk. split.
      * intros c. f_equal. rewrite E. symmetry. apply Zmult_compare_compat_r. lia.
      * revert E. destruct s; cbn [signed]; intros E.
        -- change (Z.neg m) with (- Z.pos m) in E. replace (Z.pos m) with (- v * 2 ^ (- e)) by lia. rewrite Z.div_mul by lia. lia.
        -- rewrite E. by rewrite Z.div_mul by lia.
Qed.

Lemma dbl_is_floor_cases x :
  dbl_is_floor x = true -> (exists s, x = S754_infinity s) \/ is_int x (dbl_trunc x).
Proof.
  destruct x as [s|s| |s m e]; intros Hf; [right|left; by exists s|done|right].
  - by intros c.
  - cbn [dbl_is_floor] in Hf. apply dbl_eqZ_is_int in Hf as [Hi Ht]. by rewrite Ht.
Qed.

Section int_tests.
  Context (x : double) (v : Z) (Hx : is_int x v).
Lemma is_int_lt c : dbl_ltZ x c = (v <? c).
Proof. unfold dbl_ltZ, Z.ltb. rewrite Hx. by destruct (v ?= c). Qed.
Lemma is_int_gt c : dbl_gtZ x c = (c <? v).
Proof. unfold dbl_gtZ, Z.ltb. rewrite Hx, (Z.compare_antisym c v). by destruct (c ?= v). Qed.
Lemma is_int_eq c : dbl_eqZ x c = (v =? c).
Proof.
  unfold dbl_eqZ. rewrite Hx. destruct (Z.compare_spec v c) as [->|Hc|Hc].
  - by rewrite Z.eqb_refl.
  - symmetry. apply Z.eqb_neq. lia.
  - symmetry. apply Z.eqb_neq. lia.
Qed.
Lemma is_int_le c : dbl_leZ x c = (v <=? c).
Proof. unfold dbl_leZ. rewrite is_int_lt, is_int_eq. destruct (Z.ltb_spec v c), (Z.eqb_spec v c), (Z.leb_spec v c); try done; lia. Qed.
End int_tests.

(** ** Integers as doubles *)

(** The binary64 number of an integer below 2^53 in absolute value: the
    mantissa is shifted to 53 bits. *)
Definition dbl_int (z : Z) : double :=
  let finite (neg : bool) (m : positive) :=
    let d := 52 - Z.log2 (Z.pos m) in S754_finite neg (Z.to_pos (Z.pos m * 2 ^ d)) (- d) in
  match z with
  | Z0 => S754_zero false
  | Z.pos m => finite false m
  | Z.neg m => finite true m
  end.

Lemma digits2_pos_size m : digits2_pos m = Pos.size m.
Proof. induction m as [m IH|m IH|]; cbn; by rewrite ?IH. Qed.

Lemma Zpos_size m : Z.pos (Pos.size m) = Z.log2 (Z.pos m) + 1.
Proof. destruct m as [m|m|]; cbn; lia. Qed.

Lemma dbl_int_shift m : Z.log2 (Z.pos m) < 53 ->
  Z.pos (Z.to_pos (Z.pos m * 2 ^ (52 - Z.log2 (Z.pos m)))) = Z.pos m * 2 ^ (52 - Z.log2 (Z.pos m)).
Proof. intros Hm. pose proof (Z.pow_pos_nonneg 2 (52 - Z.log2 (Z.pos m)) ltac:(lia) ltac:(lia)). rewrite Z2Pos.id; lia. Qed.

Lemma log2_small m z : Z.abs z < 2 ^ 53 -> Z.abs z = Z.pos m -> 0 <= Z.log2 (Z.pos m) < 53.
Proof. intros Hz Hm. rewrite Hm in Hz. split; [apply Z.log2_nonneg|]. by apply Z.log2_lt_pow2. Qed.

(** It is a number the C type has. *)
Lemma dbl_int_valid z : Z.abs z < 2 ^ 53 -> valid_binary 53 1024 (dbl_int z) = true.
Proof.
  intros Hz.
  assert (Hb : forall neg m, 0 <= Z.log2 (Z.pos m) < 53 -> valid_binary 53 1024
    (S754_finite neg (Z.to_pos (Z.pos m * 2 ^ (52 - Z.log2 (Z.pos m)))) (- (52 - Z.log2 (Z.pos m)))) = true).
  { intros neg m Hm. unfold valid_binary, bounded, canonical_mantissa, fexp, emin.
    rewrite digits2_pos_size, Zpos_size, dbl_int_shift, Z.log2_mul_pow2 by lia.
    apply andb_true_iff. split; [|apply Z.leb_le; lia]. apply Z.eqb_eq. lia. }
  destruct z as [|m|m]; [done|apply Hb, (log2_small m (Z.pos m))|apply Hb, (log2_small m (Z.neg m))]; done.
Qed.

Lemma dbl_int_is_int z : Z.abs z < 2 ^ 53 -> is_int (dbl_int z) z.
Proof.
  intros Hz.
  assert (Hb : forall neg m c, 0 <= Z.log2 (Z.pos m) < 53 ->
    dbl_cmpZ (S754_finite neg (Z.to_pos (Z.pos m * 2 ^ (52 - Z.log2 (Z.pos m)))) (- (52 - Z.log2 (Z.pos m)))) c =
    Some (signed neg m ?= c)).
  { intros neg m c Hm. cbn [dbl_cmpZ]. f_equal.
    assert (Es : signed neg (Z.to_pos (Z.pos m * 2 ^ (52 - Z.log2 (Z.pos m)))) = signed neg m * 2 ^ (52 - Z.log2 (Z.pos m))).
    { destruct neg; cbn [signed]; [|apply dbl_int_shift; lia].
      rewrite <- (Pos2Z.opp_pos (Z.to_pos _)), <- (Pos2Z.opp_pos m), dbl_int_shift by lia. lia. }
    rewrite Es, Z.opp_involutive. destruct (Z.leb_spec 0 (- (52 - Z.log2 (Z.pos m)))) as [Hd|Hd].
    - assert (52 - Z.log2 (Z.pos m) = 0) as -> by lia. cbn. by rewrite !Z.mul_1_r.
    - symmetry. apply Zmult_compare_compat_r. pose proof (Z.pow_pos_nonneg 2 (52 - Z.log2 (Z.pos m))). lia. }
  intros c. destruct z as [|m|m]; [done|apply Hb, (log2_small m (Z.pos m))|apply Hb, (log2_small m (Z.neg m))]; done.
Qed.

(** ** The heap and the error buffer *)

Definition CJSON_ERRBUF_SIZE : Z := 256.

Record cJSONParseError := ParseError { code : Z; message : string }.

Definition CJSON_PARSE_OK : Z := 0.
Definition CJSON_PARSE_FAILED : Z := 1.

(** [live] are the blocks allocated; a block number is never used twice.
    [answers] says which allocations succeed; all do when it is used up. *)
Record store := Store { live : gmultiset nat; next : nat; answers : list bool; err : cJSONParseError }.

(** A [char *] that owns its block. *)
Record cstr := CStr { blk : nat; chars : string }.

(** A parser fills in a struct of type [S]; it returns, or gives up leaving
    the struct as far as it got, or is undefined behaviour. *)
Inductive outcome (S A : Type) := Ok (a : A) (s : S) (st : store) | Err (s : S) (st : store) | UB.
Arguments Ok {S A}.
Arguments Err {S A}.
Arguments UB {S A}.

Definition M (S A : Type) : Type := S -> store -> outcome S A.
Definition ret {S A} (a : A) : M S A := fun s st => Ok a s st.
Definition bind {S A B} (m : M S A) (k : A -> M S B) : M S B := fun s st =>
  match m s st with Ok a s st => k a s st | Err s st => Err s st | UB => UB end.
Definition modify {S} (f : S -> S) : M S unit := fun s st => Ok tt (f s) st.
Definition gets {S A} (f : S -> A) : M S A := fun s st => Ok (f s) s st.
Definition abandon {S A} : M S A := fun s st => Err s st.

Declare Scope parse_scope.
Delimit Scope parse_scope with parse.
Notation "'do' x <- m ; f" := (bind m (fun x => f))
  (at level 100, x name, m at level 99, f at level 200, right associativity) : parse_scope.
Notation "m ;; f" := (bind m (fun _ => f))
  (at level 100, f at level 200, right associativity) : parse_scope.
Open Scope parse_scope.

(** Parse into a field of the struct. *)
Definition within {S T A} (get : S -> T) (set : T -> S -> S) (m : M T A) : M S A := fun s st =>
  match m (get s) st with
  | Ok a t st => Ok a (set t s) st
  | Err t st => Err (set t s) st
  | UB => UB
  end.

(** Run a parser on a struct of its own; [handle] is the caller's branch for
    its failure, which still has the struct. *)
Definition fresh {S T A B} (zero : T) (m : M T A) (handle : T -> M S B) (k : A -> T -> M S B) : M S B := fun s st =>
  match m zero st with
  | Ok a t st => k a t s st
  | Err t st => handle t s st
  | UB => UB
  end.

(** [malloc], [calloc], [strdup] *)
Definition alloc {S} : M S (option nat) := fun s st =>
  let '(ok, al) := match answers st with b :: al => (b, al) | [] => (true, []) end in
  if ok : bool
  then Ok (Some (next st)) s (Store (live st ⊎ {[+ next st +]}) (Datatypes.S (next st)) al (err st))
  else Ok None s (Store (live st) (next st) al (err st)).

Definition strdup {S} (chars : string) : M S (option cstr) :=
  do b <- alloc; ret ((fun b => CStr b chars) <$> b).

(** [free] of a block that is not allocated is undefined behaviour. *)
Definition free {S} (b : nat) : M S unit := fun s st =>
  if decide (b ∈ live st)
  then Ok tt s (Store (live st ∖ {[+ b +]}) (next st) (answers st) (err st))
  else UB.

Definition free_str {S} (p : option cstr) : M S unit :=
  match p with Some c => free (blk c) | None => ret tt end.

(** What [vsnprintf] leaves in a buffer of [size] bytes. *)
Definition snprintf (size : Z) (text : string) : string := String.substring 0 (Z.to_nat (size - 1)) text.

Definition set_err {S} (f : cJSONParseError -> cJSONParseError) : M S unit := fun s st =>
  Ok tt s (Store (live st) (next st) (answers st) (f (err st))).

(** [text] is the format with its arguments printed. *)
Definition cjson_set_parse_error (text : string) (_ : cJSONParseError) : cJSONParseError :=
  ParseError CJSON_PARSE_FAILED (snprintf CJSON_ERRBUF_SIZE text).

Definition cjson_wrap_parse_error (text : string) (e : cJSONParseError) : cJSONParseError :=
  let old_msg := String.substring 0 (Z.to_nat (CJSON_ERRBUF_SIZE - 1)) (message e) in
  let written := Z.of_nat (String.length text) in
  let new := snprintf CJSON_ERRBUF_SIZE text in
  if String.eqb old_msg EmptyString then ParseError CJSON_PARSE_FAILED new
  else
    let new_len := if CJSON_ERRBUF_SIZE <=? written then CJSON_ERRBUF_SIZE - 1 else written in
    let remaining_space := CJSON_ERRBUF_SIZE - new_len - 1 in
    if 2 <=? remaining_space then
      let remaining_space := remaining_space - 2 in
      let old_len := Z.of_nat (String.length old_msg) in
      let copy_len := if old_len <=? remaining_space then old_len else remaining_space in
      ParseError CJSON_PARSE_FAILED (new +:+ ": " +:+ String.substring 0 (Z.to_nat copy_len) old_msg)
    else ParseError CJSON_PARSE_FAILED new.

(** [cjson_set_parse_error(err, ...); return PARSE_ERROR;] *)
Definition fail {S A} (text : string) : M S A := set_err (cjson_set_parse_error text);; abandon.

(** [cjson_wrap_parse_error(err, ...); return PARSE_ERROR;] after a parser
    failed on a field of the struct. *)
Definition wrapping {S A} (text : string) (m : M S A) : M S A := fun s st =>
  match m s st with
  | Ok a s st => Ok a s st
  | Err s st => (set_err (cjson_wrap_parse_error text);; abandon) s st
  | UB => UB
  end.

(** ** Numbers *)

(** [%.15g] *)
Definition print_g (value : double) : string := text_of (printf_g 15 value).

Section numbers.
  Context {S : Type}.

Definition cjson_get_int64_range (item : cJSON) (name : string) (min max : Z) : M S Z :=
  match item with
  | JNumber value =>
      if dbl_ltZ value min || dbl_gtZ value max || negb (dbl_eqZ value (dbl_trunc value))
      then fail ("invalid " +:+ name +:+ ": " +:+ print_g value +:+ ", must be an integer in [" +:+
                 pretty min +:+ ", " +:+ pretty max +:+ "]")
      else ret (dbl_trunc value)
  | _ => fail ("invalid " +:+ name)
  end.

Definition cjson_get_integer (item : cJSON) (name : string) : M S double :=
  match item with
  | JNumber value =>
      if negb (dbl_is_floor value)
      then fail ("invalid " +:+ name +:+ ": " +:+ print_g value +:+ ", must be an integer")
      else ret value
  | _ => fail ("invalid " +:+ name)
  end.

End numbers.

(** ** Parsing a text *)

(** The characters up to the first NUL. *)
Fixpoint c_string (s : string) : string :=
  match s with
  | EmptyString => EmptyString
  | String c s => if Ascii.eqb c Ascii.zero then EmptyString else String c (c_string s)
  end.

(** The line and column reached after the characters before the error. *)
Fixpoint position (line column : Z) (n : nat) (text : string) : Z * Z :=
  match n, text with
  | O, _ | _, EmptyString => (line, column)
  | Datatypes.S n, String c text =>
      if Ascii.eqb c (Ascii.ascii_of_nat 10) then position (line + 1) 1 n text else position line (column + 1) n text
  end.

Definition CJSON_ERROR_SNIPPET_LEN : nat := 32.

(** The characters from the error to the end of its line, at most [n]. *)
Fixpoint snippet (n : nat) (text : string) : string :=
  match n, text with
  | O, _ | _, EmptyString => EmptyString
  | Datatypes.S n, String c text =>
      if Ascii.eqb c (Ascii.ascii_of_nat 10) || Ascii.eqb c (Ascii.ascii_of_nat 13) then EmptyString
      else String c (snippet n text)
  end.

Fixpoint string_drop (n : nat) (text : string) : string :=
  match n, text with
  | O, _ => text
  | _, EmptyString => EmptyString
  | Datatypes.S n, String _ text => string_drop n text
  end.

(** [fin] characters were read without an error. *)
Definition syntax_error_text (json : string) (fin : nat) : string :=
  let '(line, column) := position 1 1 fin json in
  "JSON parse error at line " +:+ pretty line +:+ ", column " +:+ pretty column +:+ " near '" +:+
  snippet CJSON_ERROR_SNIPPET_LEN (string_drop fin json) +:+ "'".
