(* ===== verification/JsonParse.v ===== *)
(** * The JSON text parser (cJSON.c)

    [cJSON_ParseWithOpts] reads a NUL-terminated text.  The parser moves an
    offset over the bytes of the text and builds a tree of heap-allocated
    items; every read of the text and every write to a string under
    construction is checked, every allocation may fail, and [cJSON_Delete]
    frees what a failed parse had built. *)

From stdpp Require Import prelude list list_numbers strings gmultiset.
From Stdlib Require Import SpecFloat.
From S2P Require Import Prelude RateLimit CJson Decimal.

(** ** Items *)

Definition cJSON_Invalid : Z := 0.
Definition cJSON_False : Z := 1.
Definition cJSON_True : Z := 2.
Definition cJSON_NULL : Z := 4.
Definition cJSON_Number : Z := 8.
Definition cJSON_String : Z := 16.
Definition cJSON_Array : Z := 32.
Definition cJSON_Object : Z := 64.
Definition cJSON_Raw : Z := 128.
Definition cJSON_IsReference : Z := 256.
Definition cJSON_StringIsConst : Z := 512.

Definition CJSON_NESTING_LIMIT : Z := 1000.
Definition INT_MAX : Z := 2147483647.
Definition INT_MIN : Z := -2147483648.

(** [struct cJSON]: its block, [type], [valuestring], [valueint],
    [valuedouble], [string] (its name in an object), and the items on the
    list [child] points to. *)
#[warnings="-register-all"]
Inductive item :=
  Item (self : nat) (type : Z) (valuestring : option cstr) (valueint : Z) (valuedouble : double)
    (string : option cstr) (child : list item).

(** The fields a value fills in. *)
Record filled := Filled {
  f_type : Z; f_valuestring : option cstr; f_valueint : Z; f_valuedouble : double; f_child : list item;
}.

Definition zero_double : double := S754_zero false.

(** What [memset] leaves of an item. *)
Definition unfilled : filled := Filled cJSON_Invalid None 0 zero_double [].

Definition mk_item (self : nat) (name : option cstr) (f : filled) : item :=
  Item self (f_type f) (f_valuestring f) (f_valueint f) (f_valuedouble f) name (f_child f).

Definition has_flag (type flag : Z) : bool := negb (Z.land type flag =? 0).

(** [while (item != NULL)] over the siblings, and recursively their children. *)
Fixpoint delete_item {S} (i : item) : M S unit :=
  match i with
  | Item self type valuestring _ _ string child =>
      (if has_flag type cJSON_IsReference then ret tt
       else (fix go (l : list item) : M S unit :=
               match l with [] => ret tt | i :: l => delete_item i;; go l end) child;;
            free_str valuestring);;
      (if has_flag type cJSON_StringIsConst then ret tt else free_str string);;
      free self
  end.

Fixpoint delete_items {S} (l : list item) : M S unit :=
  match l with [] => ret tt | i :: l => delete_item i;; delete_items l end.

(** ** The parse buffer *)

Record parse_buffer := ParseBuffer { offset : Z; depth : Z }.

Definition undefined {S A} : M S A := fun _ _ => UB.

(** Run [m]; its failure is a result. *)
Definition attempt {S A} (m : M S A) : M S (option A) := fun s st =>
  match m s st with
  | Ok a s st => Ok (Some a) s st
  | Err s st => Ok None s st
  | UB => UB
  end.

Definition hex_digit (c : Z) : option Z :=
  if (48 <=? c) && (c <=? 57) then Some (c - 48)
  else if (65 <=? c) && (c <=? 70) then Some (10 + c - 65)
  else if (97 <=? c) && (c <=? 102) then Some (10 + c - 97)
  else None.

(** The continuation bytes of a code point, last first, and what is left of
    it for the first byte. *)
Fixpoint utf8_tail (n : nat) (codepoint : Z) (tail : list Z) : Z * list Z :=
  match n with
  | O => (codepoint, tail)
  | Datatypes.S n => utf8_tail n (Z.shiftr codepoint 6) (Z.land (Z.lor codepoint 128) 191 :: tail)
  end.

Definition utf8_encode (codepoint : Z) : option (list Z) :=
  let encode (n : nat) (mark : Z) :=
    let '(first, tail) := utf8_tail n codepoint [] in Some (Z.land (Z.lor first mark) 255 :: tail) in
  if codepoint <? 128 then Some [Z.land codepoint 127]
  else if codepoint <? 2048 then encode 1%nat 192
  else if codepoint <? 65536 then encode 2%nat 224
  else if codepoint <=? 1114111 then encode 3%nat 240
  else None.

(** The characters [parse_number] copies. *)
Definition number_char (c : Z) : bool :=
  is_digit c || (c =? 43) || (c =? 45) || (c =? 101) || (c =? 69) || (c =? 46).

Definition NUMBER_C_STRING : nat := 64.

(** The value saturates in [valueint]. *)
Definition saturate (number : double) : Z :=
  if dbl_gtZ number INT_MAX || dbl_eqZ number INT_MAX then INT_MAX
  else if dbl_leZ number INT_MIN then INT_MIN
  else dbl_trunc number.

Section parser.
  (** The bytes of the text, its terminating NUL included. *)
  Context (content : list Z).

Definition can_access (s : parse_buffer) (i : Z) : bool := offset s + i <? zlen content.
Definition can_read (s : parse_buffer) (n : Z) : bool := offset s + n <=? zlen content.

Definition byte_at (p : Z) : M parse_buffer Z := fun s st =>
  if in_bounds (zlen content) p 1 then Ok (bget content p) s st else UB.

Definition peek : M parse_buffer Z := do s <- gets offset; byte_at s.

(** [can_access_at_index(buffer, 0) && buffer_at_offset(buffer)[0] == c] *)
Definition looking_at (c : Z) : M parse_buffer bool :=
  do a <- gets (fun s => can_access s 0);
  if a : bool then do b <- peek; ret (b =? c) else ret false.

Definition set_offset (p : Z) : M parse_buffer unit := modify (fun s => ParseBuffer p (depth s)).
Definition advance (n : Z) : M parse_buffer unit := modify (fun s => ParseBuffer (offset s + n) (depth s)).
Definition deeper (n : Z) : M parse_buffer unit := modify (fun s => ParseBuffer (offset s) (depth s + n)).

Fixpoint white_end (fuel : nat) (p : Z) : Z :=
  match fuel with
  | O => p
  | Datatypes.S fuel => if (p <? zlen content) && (bget content p <=? 32) then white_end fuel (p + 1) else p
  end.

Definition buffer_skip_whitespace : M parse_buffer unit := modify (fun s =>
  if can_access s 0 then
    let p := white_end (length content) (offset s) in
    ParseBuffer (if p =? zlen content then p - 1 else p) (depth s)
  else s).

(** [can_read(n) && strncmp(buffer_at_offset, text, n) == 0] *)
Definition literal_at (text : list Z) : M parse_buffer bool := fun s st =>
  if can_read s (zlen text) then
    match bread (zlen content) content (offset s) (zlen text) with
    | Some b => Ok (bool_decide (b = text)) s st
    | None => UB
    end
  else Ok false s st.

Definition skip_utf8_bom : M parse_buffer unit :=
  do a <- gets (fun s => can_access s 4);
  if a : bool then
    do b <- literal_at [239; 187; 191];
    if b : bool then advance 3 else ret tt
  else ret tt.

(** *** Numbers *)

Fixpoint number_chars (n : nat) (p : Z) : list Z :=
  match n with
  | O => []
  | Datatypes.S n =>
      if (p <? zlen content) && number_char (bget content p) then bget content p :: number_chars n (p + 1) else []
  end.

Definition parse_number : M parse_buffer filled :=
  do p <- gets offset;
  let number_c_string := number_chars (pred NUMBER_C_STRING) p in
  match strtod number_c_string with
  | None => abandon
  | Some (number, rest) =>
      advance (zlen number_c_string - zlen rest);;
      ret (Filled cJSON_Number None (saturate number) number [])
  end.

(** *** Strings *)

(** Four digits from [p]; an invalid one makes the result 0. *)
Fixpoint parse_hex4 (n : nat) (p h : Z) : M parse_buffer Z :=
  match n with
  | O => ret h
  | Datatypes.S n =>
      do c <- byte_at p;
      match hex_digit c with
      | None => ret 0
      | Some d => let h := u32 (h + d) in parse_hex4 n (p + 1) (match n with O => h | _ => u32 (Z.shiftl h 4) end)
      end
  end.

(** The code point of a literal [\uXXXX] or of a surrogate pair, and the
    length of the sequence. *)
Definition utf16_codepoint (p input_end : Z) : M parse_buffer (option (Z * Z)) :=
  if input_end - p <? 6 then ret None
  else
    do first_code <- parse_hex4 4 (p + 2) 0;
    if (56320 <=? first_code) && (first_code <=? 57343) then ret None
    else if (55296 <=? first_code) && (first_code <=? 56319) then
      let second_sequence := p + 6 in
      if input_end - second_sequence <? 6 then ret None
      else
        do c0 <- byte_at second_sequence;
        do c1 <- (if c0 =? 92 then byte_at (second_sequence + 1) else ret 0);
        if negb (c0 =? 92) || negb (c1 =? 117) then ret None
        else
          do second_code <- parse_hex4 4 (second_sequence + 2) 0;
          if (second_code <? 56320) || (57343 <? second_code) then ret None
          else ret (Some (65536 + Z.lor (Z.shiftl (Z.land first_code 1023) 10) (Z.land second_code 1023), 12))
    else ret (Some (first_code, 6)).

(** The bytes it stands for and the length of the sequence; [None] is the
    sequence length 0 of a failure. *)
Definition utf16_literal_to_utf8 (p input_end : Z) : M parse_buffer (option (list Z * Z)) :=
  do cp <- utf16_codepoint p input_end;
  match cp with
  | None => ret None
  | Some (codepoint, sequence_length) =>
      ret ((fun bytes => (bytes, sequence_length)) <$> utf8_encode codepoint)
  end.

(** The position of the closing quote, and the number of backslashes before
    it that start an escape; [None] when there is none. *)
Fixpoint string_end (fuel : nat) (p skipped_bytes : Z) : M parse_buffer (option (Z * Z)) :=
  match fuel with
  | O => undefined
  | Datatypes.S fuel =>
      if p <? zlen content then
        do c <- byte_at p;
        if c =? 34 then ret (Some (p, skipped_bytes))
        else if c =? 92 then
          if zlen content <=? p + 1 then ret None else string_end fuel (p + 2) (skipped_bytes + 1)
        else string_end fuel (p + 1) skipped_bytes
      else ret None
  end.

Definition simple_escape (c : Z) : option Z :=
  if c =? 98 then Some 8
  else if c =? 102 then Some 12
  else if c =? 110 then Some 10
  else if c =? 114 then Some 13
  else if c =? 116 then Some 9
  else if (c =? 34) || (c =? 92) || (c =? 47) then Some c
  else None.

(** One character or escape sequence: the bytes it stands for and how far
    the input pointer moves. *)
Definition unescape_one (p input_end : Z) : M parse_buffer (option (list Z * Z)) :=
  do c <- byte_at p;
  if negb (c =? 92) then ret (Some ([c], 1))
  else if input_end - p <? 1 then ret None
  else
    do c1 <- byte_at (p + 1);
    if c1 =? 117 then utf16_literal_to_utf8 p input_end
    else ret ((fun b => ([b], 2)) <$> simple_escape c1).

(** The second pass writes to [output], of [cap] bytes; [inl p] is a failure
    with the input pointer at [p]. *)
Fixpoint unescape (fuel : nat) (p input_end cap : Z) (output : list Z) : M parse_buffer (Z + list Z) :=
  match fuel with
  | O => undefined
  | Datatypes.S fuel =>
      if p <? input_end then
        do r <- unescape_one p input_end;
        match r with
        | None => ret (inl p)
        | Some (bytes, n) =>
            if zlen output + zlen bytes <=? cap
            then unescape fuel (p + n) input_end cap (output ++ bytes)
            else undefined
        end
      else if zlen output + 1 <=? cap then ret (inr output) else undefined
  end.

Definition parse_string : M parse_buffer cstr :=
  do p <- gets offset;
  let input_pointer := p + 1 in
  do q <- peek;
  if negb (q =? 34) then set_offset input_pointer;; abandon
  else
    do e <- string_end (Datatypes.S (length content)) input_pointer 0;
    match e with
    | None => set_offset input_pointer;; abandon
    | Some (input_end, skipped_bytes) =>
        let allocation_length := input_end - p - skipped_bytes in
        do output <- alloc;
        match output with
        | None => set_offset input_pointer;; abandon
        | Some output =>
            do r <- unescape (Datatypes.S (length content)) input_pointer input_end (allocation_length + 1) [];
            match r with
            | inl input_pointer => free output;; set_offset input_pointer;; abandon
            | inr bytes => set_offset (input_end + 1);; ret (CStr output (text_of bytes))
            end
        end
    end.

(** *** Values *)

(** The [fail] label of [parse_array] and [parse_object]. *)
Definition fail_with {A : Type} (head : list item) : M parse_buffer A := delete_items head;; abandon.

(** The bracket after the last element, or another element. *)
Definition after_element (close : Z) (again : M parse_buffer (list item)) (head : list item) :
    M parse_buffer (list item) :=
  buffer_skip_whitespace;;
  do comma <- looking_at 44;
  if comma : bool then again
  else
    do closed <- looking_at close;
    if closed : bool then ret head else fail_with head.

Section containers.
  Context (parse_value : M parse_buffer filled).

(** The [do ... while] loop of [parse_array]. *)
Fixpoint array_loop (fuel : nat) (head : list item) : M parse_buffer (list item) :=
  match fuel with
  | O => undefined
  | Datatypes.S fuel =>
      do new_item <- alloc;
      match new_item with
      | None => fail_with head
      | Some self =>
          advance 1;;
          buffer_skip_whitespace;;
          do r <- attempt parse_value;
          match r with
          | None => fail_with (head ++ [mk_item self None unfilled])
          | Some f =>
              let head := head ++ [mk_item self None f] in
              after_element 93 (array_loop fuel head) head
          end
      end
  end.

(** The [do ... while] loop of [parse_object]. *)
Fixpoint object_loop (fuel : nat) (head : list item) : M parse_buffer (list item) :=
  match fuel with
  | O => undefined
  | Datatypes.S fuel =>
      do new_item <- alloc;
      match new_item with
      | None => fail_with head
      | Some self =>
          do a <- gets (fun s => can_access s 1);
          if negb a then fail_with (head ++ [mk_item self None unfilled])
          else
            advance 1;;
            buffer_skip_whitespace;;
            do r <- attempt parse_string;
            match r with
            | None => fail_with (head ++ [mk_item self None unfilled])
            | Some name =>
                buffer_skip_whitespace;;
                do colon <- looking_at 58;
                if negb colon then fail_with (head ++ [mk_item self (Some name) unfilled])
                else
                  advance 1;;
                  buffer_skip_whitespace;;
                  do r <- attempt parse_value;
                  match r with
                  | None => fail_with (head ++ [mk_item self (Some name) unfilled])
                  | Some f =>
                      let head := head ++ [mk_item self (Some name) f] in
                      after_element 125 (object_loop fuel head) head
                  end
            end
      end
  end.

(** What [parse_array] and [parse_object] share: the depth limit, the empty
    container, the step back in front of the first element. *)
Definition parse_container (opens : M parse_buffer bool) (close : Z) (loop : nat -> list item -> M parse_buffer (list item)) (type : Z) :
    M parse_buffer filled :=
  do d <- gets depth;
  if CJSON_NESTING_LIMIT <=? d then abandon
  else
    deeper 1;;
    do c <- opens;
    if negb c then abandon
    else
      advance 1;;
      buffer_skip_whitespace;;
      do empty <- looking_at close;
      do head <-
        (if empty : bool then ret []
         else
           do a <- gets (fun s => can_access s 0);
           if negb a then advance (-1);; abandon
           else advance (-1);; loop (Datatypes.S (length content)) []);
      deeper (-1);;
      advance 1;;
      ret (Filled type None 0 zero_double head).

Definition parse_array : M parse_buffer filled :=
  parse_container (do c <- peek; ret (c =? 91)) 93 array_loop cJSON_Array.
Definition parse_object : M parse_buffer filled :=
  parse_container (looking_at 123) 125 object_loop cJSON_Object.

End containers.

Definition number_start (c : Z) : bool := (c =? 45) || is_digit c.

Fixpoint parse_value (fuel : nat) : M parse_buffer filled :=
  match fuel with
  | O => undefined
  | Datatypes.S fuel =>
      do is_null <- literal_at [110; 117; 108; 108];
      if is_null : bool then advance 4;; ret (Filled cJSON_NULL None 0 zero_double [])
      else
        do is_false <- literal_at [102; 97; 108; 115; 101];
        if is_false : bool then advance 5;; ret (Filled cJSON_False None 0 zero_double [])
        else
          do is_true <- literal_at [116; 114; 117; 101];
          if is_true : bool then advance 4;; ret (Filled cJSON_True None 1 zero_double [])
          else
            do a <- gets (fun s => can_access s 0);
            if negb a then abandon
            else
              do c <- peek;
              if c =? 34 then do str <- parse_string; ret (Filled cJSON_String (Some str) 0 zero_double [])
              else if number_start c then parse_number
              else if c =? 91 then parse_array (parse_value fuel)
              else if c =? 123 then parse_object (parse_value fuel)
              else abandon
  end.

(** Every level of nesting takes one of the levels that are left. *)
Definition parse_value_fuel : nat := Datatypes.S (Z.to_nat CJSON_NESTING_LIMIT).

(** [cJSON_ParseWithLengthOpts] up to where it returns or goes to [fail]. *)
Definition parse_root (require_null_terminated : bool) : M parse_buffer item :=
  if zlen content =? 0 then abandon
  else
    do root <- alloc;
    match root with
    | None => abandon
    | Some self =>
        skip_utf8_bom;;
        buffer_skip_whitespace;;
        do r <- attempt (parse_value parse_value_fuel);
        match r with
        | None => fail_with [mk_item self None unfilled]
        | Some f =>
            if require_null_terminated then
              buffer_skip_whitespace;;
              do nul <- looking_at 0;
              if nul : bool then ret (mk_item self None f) else fail_with [mk_item self None f]
            else ret (mk_item self None f)
        end
    end.

(** The tree, and the offset [return_parse_end] and the error position
    report. *)
Definition cJSON_ParseWithLengthOpts {S} (require_null_terminated : bool) : M S (option item * Z) := fun s st =>
  match parse_root require_null_terminated (ParseBuffer 0 0) st with
  | Ok i b st => Ok (Some i, offset b) s st
  | Err b st =>
      let position :=
        if offset b <? zlen content then offset b
        else if 0 <? zlen content then zlen content - 1 else 0 in
      Ok (None, position) s st
  | UB => UB
  end.

End parser.

(** The text with its terminating NUL. *)
Definition cJSON_ParseWithOpts {S} (value : string) (require_null_terminated : bool) : M S (option item * Z) :=
  cJSON_ParseWithLengthOpts (bytes_of (c_string value) ++ [0]) require_null_terminated.

(** ** The value of a tree *)

Definition item_name (i : item) : string :=
  match i with Item _ _ _ _ _ (Some name) _ => c_string (chars name) | _ => EmptyString end.

(** A C string ends at its first NUL. *)
Fixpoint to_json (i : item) : cJSON :=
  match i with
  | Item _ type valuestring _ valuedouble _ child =>
      if type =? cJSON_False then JBool false
      else if type =? cJSON_True then JBool true
      else if type =? cJSON_Number then JNumber valuedouble
      else if type =? cJSON_String then JString (match valuestring with Some c => c_string (chars c) | None => EmptyString end)
      else if type =? cJSON_Array then JArray (map to_json child)
      else if type =? cJSON_Object then JObject (map (fun c => (item_name c, to_json c)) child)
      else JNull
  end.
