(* ===== verification/JsonSafety.v ===== *)
(** * The JSON parser is memory safe (cJSON.c)

    For every text and every pattern of allocation failures the parser stays
    inside the text and inside the strings it builds, ends, and either owns
    exactly the blocks of the tree it returns or gives everything back. *)

From stdpp Require Import prelude list list_numbers strings gmultiset.
From Stdlib Require Import SpecFloat.
From S2P Require Import Prelude RateLimit CJson Decimal JsonParse.

(** ** Postconditions

    Run on [s] with the blocks [H] allocated ([mem]: all allocations
    succeed), [m] returns with [Q] or gives up with [E]. *)
Definition triple (mem : bool) {S A : Type} (m : M S A) (Q : A -> S -> gmultiset nat -> Prop) (E : S -> gmultiset nat -> Prop)
    (s : S) (H : gmultiset nat) : Prop :=
  forall st, live st = H -> (mem = true -> answers st = []) ->
  match m s st with
  | Ok a s' st' => Q a s' (live st') /\ (mem = true -> answers st' = [])
  | Err s' st' => E s' (live st') /\ (mem = true -> answers st' = [])
  | UB => False
  end.

Abbreviation hoare := (triple false).

Section rules.
  Context {mem : bool} {S : Type}.
  Implicit Types (s : S) (H : gmultiset nat).

Lemma hoare_ret {A : Type} (a : A) Q (E : S -> gmultiset nat -> Prop) s H : Q a s H -> triple mem (ret a) Q E s H.
Proof. by intros HQ st <-. Qed.

Lemma hoare_bind {A B : Type} (m : M S A) (k : A -> M S B) Q E s H :
  triple mem m (fun a => triple mem (k a) Q E) E s H -> triple mem (bind m k) Q E s H.
Proof.
  intros Hm st HH Ha. specialize (Hm st HH Ha). unfold bind. destruct (m s st) as [a s' st'|s' st'|]; [|done|done].
  destruct Hm as [Hm Ha']. by apply Hm.
Qed.

Lemma hoare_mono {A : Type} (m : M S A) (Q Q' : A -> S -> gmultiset nat -> Prop) (E E' : S -> gmultiset nat -> Prop) s H :
  triple mem m Q E s H -> (forall a s' H', Q a s' H' -> Q' a s' H') -> (forall s' H', E s' H' -> E' s' H') -> triple mem m Q' E' s H.
Proof. intros Hm HQ HE st HH Ha. specialize (Hm st HH Ha). destruct (m s st); naive_solver. Qed.

Lemma hoare_modify (f : S -> S) Q (E : S -> gmultiset nat -> Prop) s H : Q tt (f s) H -> triple mem (modify f) Q E s H.
Proof. by intros HQ st <-. Qed.

Lemma hoare_gets {A : Type} (f : S -> A) Q (E : S -> gmultiset nat -> Prop) s H : Q (f s) s H -> triple mem (gets f) Q E s H.
Proof. by intros HQ st <-. Qed.

Lemma hoare_abandon {A : Type} (Q : A -> S -> gmultiset nat -> Prop) E s H : E s H -> triple mem abandon Q E s H.
Proof. by intros HE st <-. Qed.

Lemma hoare_attempt {A : Type} (m : M S A) (Q : option A -> S -> gmultiset nat -> Prop) E s H :
  triple mem m (fun a => Q (Some a)) (fun s' H' => Q None s' H') s H -> triple mem (attempt m) Q E s H.
Proof. intros Hm st HH Ha. specialize (Hm st HH Ha). unfold attempt. by destruct (m s st). Qed.

Lemma hoare_alloc_mem Q (E : S -> gmultiset nat -> Prop) s H :
  (forall p, Q (Some p) s (H ⊎ {[+ p +]})) -> (mem = false -> Q None s H) -> triple mem alloc Q E s H.
Proof.
  intros H1 H2 st <- Ha. unfold alloc. destruct (answers st) as [|[|] al] eqn:Eal; cbn [live answers]; [done|..].
  - split; [done|]. intros Hm. by specialize (Ha Hm).
  - destruct mem; [by specialize (Ha eq_refl)|]. by split; [apply H2|].
Qed.

Lemma hoare_alloc Q (E : S -> gmultiset nat -> Prop) s H :
  (forall p, Q (Some p) s (H ⊎ {[+ p +]})) -> Q None s H -> triple mem alloc Q E s H.
Proof. intros H1 H2. by apply hoare_alloc_mem. Qed.

Lemma hoare_free p Q (E : S -> gmultiset nat -> Prop) s H : Q tt s H -> triple mem (free p) Q E s (H ⊎ {[+ p +]}).
Proof.
  intros HQ st HH Ha. unfold free. rewrite HH. rewrite decide_True by multiset_solver. cbn [live answers].
  by replace ((H ⊎ {[+ p +]}) ∖ {[+ p +]}) with H by multiset_solver.
Qed.

(** [triple] at a heap that is equal, not syntactically so. *)
Lemma hoare_heap {A : Type} (m : M S A) Q E s H H' : H = H' -> triple mem m Q E s H' -> triple mem m Q E s H.
Proof. by intros ->. Qed.

(** A program that goes on as another one in another state. *)
Lemma hoare_same {A : Type} (m m' : M S A) Q E s s' H :
  (forall st, m s st = m' s' st) -> triple mem m' Q E s' H -> triple mem m Q E s H.
Proof. intros Hs Hm st HH Ha. rewrite Hs. by apply Hm. Qed.

End rules.

(** ** The blocks of a tree *)

Lemma heap_id (H : gmultiset nat) : H ⊎ ∅ = H.
Proof. apply (right_id_L ∅ (⊎)). Qed.

Definition str_foot (p : option cstr) : gmultiset nat := match p with Some c => {[+ blk c +]} | None => ∅ end.

(** What [cJSON_Delete] frees: a reference does not own its children. *)
Fixpoint item_foot (i : item) : gmultiset nat :=
  match i with
  | Item self type valuestring _ _ string child =>
      {[+ self +]} ⊎ (if has_flag type cJSON_StringIsConst then ∅ else str_foot string) ⊎
      (if has_flag type cJSON_IsReference then ∅
       else str_foot valuestring ⊎
         (fix go (l : list item) : gmultiset nat := match l with [] => ∅ | i :: l => item_foot i ⊎ go l end) child)
  end.

Fixpoint items_foot (l : list item) : gmultiset nat :=
  match l with [] => ∅ | i :: l => item_foot i ⊎ items_foot l end.

Lemma items_foot_app a b : items_foot (a ++ b) = items_foot a ⊎ items_foot b.
Proof. induction a as [|i a IH]; cbn [app items_foot]; [multiset_solver|]. rewrite IH. multiset_solver. Qed.

Definition filled_foot (f : filled) : gmultiset nat :=
  if has_flag (f_type f) cJSON_IsReference then ∅ else str_foot (f_valuestring f) ⊎ items_foot (f_child f).

Lemma item_foot_mk self name f :
  item_foot (mk_item self name f) =
  {[+ self +]} ⊎ (if has_flag (f_type f) cJSON_StringIsConst then ∅ else str_foot name) ⊎ filled_foot f.
Proof. by destruct f. Qed.

Lemma filled_foot_plain ty vs vi vd ch : has_flag ty cJSON_IsReference = false ->
  filled_foot (Filled ty vs vi vd ch) = str_foot vs ⊎ items_foot ch.
Proof. intros Hr. unfold filled_foot. cbn [f_type f_valuestring f_child]. by rewrite Hr. Qed.

Lemma filled_foot_empty ty vi vd : has_flag ty cJSON_IsReference = false -> filled_foot (Filled ty None vi vd []) = ∅.
Proof. intros Hr. rewrite filled_foot_plain by done. cbn [str_foot items_foot]. multiset_solver. Qed.

(** [Forall] as a recursive function may use it. *)
Definition each {A : Type} (P : A -> Prop) : list A -> Prop :=
  fix go (l : list A) : Prop := match l with [] => True | a :: l => P a /\ go l end.

Lemma each_forall {A : Type} (P : A -> Prop) l : each P l <-> Forall P l.
Proof.
  split.
  - induction l as [|a l IH]; [constructor|]. intros [Ha Hl]. constructor; [done|by apply IH].
  - induction 1; by split.
Qed.

(** Induction over a tree. *)
Lemma item_tree_ind (P : item -> Prop) :
  (forall self ty vs vi vd nm ch, Forall P ch -> P (Item self ty vs vi vd nm ch)) -> forall i, P i.
Proof.
  intros Hi. fix IH 1. intros [self ty vs vi vd nm ch]. apply Hi. induction ch as [|i ch IHch]; constructor; [apply IH|done].
Qed.

Section delete.
  Context {mem : bool} {S : Type}.

Lemma hoare_free_str p (Q : unit -> S -> gmultiset nat -> Prop) E s H : Q tt s H -> triple mem (free_str p) Q E s (H ⊎ str_foot p).
Proof.
  intros HQ. destruct p as [c|]; [by apply hoare_free|]. apply hoare_ret. cbn [str_foot].
  by replace (H ⊎ ∅) with H by multiset_solver.
Qed.

Lemma hoare_delete_item i (Q : unit -> S -> gmultiset nat -> Prop) E s H :
  Q tt s H -> triple mem (delete_item i) Q E s (H ⊎ item_foot i).
Proof.
  revert Q H. induction i as [self ty vs vi vd nm ch IH] using item_tree_ind. intros Q H HQ. cbn [delete_item item_foot].
  set (go := fix go (l : list item) : M S unit := match l with [] => ret tt | i :: l => _ end).
  set (gof := fix go (l : list item) : gmultiset nat := match l with [] => ∅ | i :: l => _ end).
  assert (Hgo : forall (Q' : unit -> S -> gmultiset nat -> Prop) H', Q' tt s H' -> triple mem (go ch) Q' E s (H' ⊎ gof ch)).
  { clear HQ Q H. induction IH as [|i ch Hi _ IHch]; intros Q' H' HQ'.
    - apply hoare_ret. cbn. by replace (H' ⊎ ∅) with H' by multiset_solver.
    - cbn [go gof]. apply hoare_bind. eapply hoare_heap; [|apply Hi, IHch, HQ']. fold gof. multiset_solver. }
  set (hn := if has_flag ty cJSON_StringIsConst then ∅ else str_foot nm).
  assert (Hrest : triple mem ((if has_flag ty cJSON_StringIsConst then ret tt else free_str nm);; free self) Q E s
                    (H ⊎ {[+ self +]} ⊎ hn)).
  { apply hoare_bind. unfold hn. destruct (has_flag ty cJSON_StringIsConst).
    - apply hoare_ret. replace (H ⊎ {[+ self +]} ⊎ ∅) with (H ⊎ {[+ self +]}) by multiset_solver. by apply hoare_free.
    - apply hoare_free_str. by apply hoare_free. }
  apply hoare_bind. destruct (has_flag ty cJSON_IsReference).
  - apply hoare_ret. eapply hoare_heap, Hrest. multiset_solver.
  - apply hoare_bind. eapply hoare_heap; [|apply Hgo, hoare_free_str, Hrest]. multiset_solver.
Qed.

Lemma hoare_delete_items l (Q : unit -> S -> gmultiset nat -> Prop) E s H :
  Q tt s H -> triple mem (delete_items l) Q E s (H ⊎ items_foot l).
Proof.
  revert H. induction l as [|i l IH]; intros H HQ; cbn [delete_items items_foot].
  - apply hoare_ret. by replace (H ⊎ ∅) with H by multiset_solver.
  - apply hoare_bind. eapply hoare_heap; [|apply hoare_delete_item, IH, HQ]. multiset_solver.
Qed.

End delete.

(** ** Reading the text *)

Ltac hstep := first [apply hoare_bind | apply hoare_ret | apply hoare_modify | apply hoare_gets | apply hoare_abandon].
Ltac hsteps := repeat (hstep; cbv beta).

(** The characters of a string literal: an escape counts as one. *)
Fixpoint tokens (l : list Z) : Z :=
  match l with
  | [] => 0
  | c :: t => if c =? 92 then match t with [] => 1 | _ :: t => 1 + tokens t end else 1 + tokens t
  end.

Lemma tokens_cons c t : tokens t <= tokens (c :: t) <= 1 + tokens t.
Proof.
  revert c. induction t as [|d t IH]; intros c; [cbn [tokens]; bcase; lia|].
  assert (tokens (c :: d :: t) = if c =? 92 then 1 + tokens t else 1 + tokens (d :: t)) as -> by done.
  specialize (IH d). bcase; lia.
Qed.

Lemma tokens_plain c t : c <> 92 -> tokens (c :: t) = 1 + tokens t.
Proof. intros Hc. cbn [tokens]. by rewrite (proj2 (Z.eqb_neq c 92) Hc). Qed.

Lemma utf8_encode_length cp b : 0 <= cp -> utf8_encode cp = Some b ->
  1 <= zlen b <= 4 /\ (cp < 65536 -> zlen b <= 3) /\ (cp < 128 -> zlen b = 1).
Proof. intros H0. unfold utf8_encode. cbn [utf8_tail]. repeat bcase; intros [= <-]; unfold zlen; cbn [length]; lia. Qed.

Lemma bslice_step (b : list Z) p n : 0 < n -> bslice b p n = bget b p :: bslice b (p + 1) (n - 1).
Proof. intros Hn. unfold bslice. rewrite seqZ_cons by lia. rewrite fmap_cons. done. Qed.

Section parser.
  Context (content : list Z).
  Abbreviation len := (zlen content).
  Implicit Types (s : parse_buffer) (H : gmultiset nat).

Definition in_text s : Prop := 0 <= offset s <= len.

Lemma hoare_byte_at p Q (E : parse_buffer -> gmultiset nat -> Prop) s H :
  0 <= p < len -> Q (bget content p) s H -> hoare (byte_at content p) Q E s H.
Proof. intros Hp HQ st <-. unfold byte_at. by rewrite in_bounds_true by lia. Qed.

Lemma hoare_peek Q (E : parse_buffer -> gmultiset nat -> Prop) s H :
  0 <= offset s < len -> Q (bget content (offset s)) s H -> hoare (peek content) Q E s H.
Proof. intros Hp HQ. unfold peek. hsteps. by apply hoare_byte_at. Qed.

Lemma hoare_looking_at c Q (E : parse_buffer -> gmultiset nat -> Prop) s H :
  0 <= offset s -> (forall b : bool, (b = true -> offset s < len /\ bget content (offset s) = c) -> Q b s H) ->
  hoare (looking_at content c) Q E s H.
Proof.
  intros H0 HQ. unfold looking_at, can_access. hsteps. rewrite Z.add_0_r. bcase; [|apply hoare_ret; by apply HQ].
  apply hoare_bind, hoare_peek; [lia|]. apply hoare_ret, HQ. intros Hb%Z.eqb_eq. lia.
Qed.

Lemma white_end_range fuel p : p <= white_end content fuel p /\ (p <= len -> white_end content fuel p <= len).
Proof.
  revert p. induction fuel as [|fuel IH]; intros p; cbn [white_end]; [lia|]. bcase; [|lia]. specialize (IH (p + 1)). lia.
Qed.

Lemma hoare_skip Q (E : parse_buffer -> gmultiset nat -> Prop) s H :
  in_text s ->
  (forall s', offset s <= offset s' <= len -> depth s' = depth s -> (offset s < len -> offset s' < len) -> Q tt s' H) ->
  hoare (buffer_skip_whitespace content) Q E s H.
Proof.
  unfold in_text. intros Hs HQ. unfold buffer_skip_whitespace, can_access. hsteps. rewrite Z.add_0_r.
  destruct (Z.ltb_spec (offset s) len) as [Hl|Hl]; [|apply HQ; lia].
  pose proof (white_end_range (length content) (offset s)) as [Hw1 Hw2]. specialize (Hw2 ltac:(lia)).
  apply HQ; cbn [offset depth]; [|done|]; bcase; lia.
Qed.

Lemma hoare_literal_at text Q (E : parse_buffer -> gmultiset nat -> Prop) s H :
  0 <= offset s -> (forall b : bool, (b = true -> offset s + zlen text <= len) -> Q b s H) ->
  hoare (literal_at content text) Q E s H.
Proof.
  intros H0 HQ st <- Ha. unfold literal_at, can_read. pose proof (zlen_nonneg text). bcase; [|split; [by apply HQ|done]].
  rewrite bread_ok by lia. split; [by apply HQ|done].
Qed.

(** ** Numbers *)

Lemma number_chars_length n p : p <= len -> zlen (number_chars content n p) <= len - p.
Proof.
  revert p. induction n as [|n IH]; intros p Hp; cbn [number_chars]; [rewrite zlen_nil; lia|].
  bcase; [|rewrite zlen_nil; lia]. rewrite zlen_cons. specialize (IH (p + 1)). lia.
Qed.

(** What a value leaves behind, and a failure. *)
Definition value_post s H (f : filled) (s' : parse_buffer) (H' : gmultiset nat) : Prop :=
  offset s < offset s' <= len /\ depth s' = depth s /\ H' = H ⊎ filled_foot f /\
  has_flag (f_type f) cJSON_StringIsConst = false.
Definition fail_post H (s' : parse_buffer) (H' : gmultiset nat) : Prop := in_text s' /\ H' = H.

Lemma parse_number_ok s H : in_text s -> hoare (parse_number content) (value_post s H) (fail_post H) s H.
Proof.
  unfold in_text. intros Hs. unfold parse_number. hsteps.
  set (l := number_chars _ _ _). pose proof (number_chars_length (pred NUMBER_C_STRING) (offset s) ltac:(lia)) as Hl. fold l in Hl.
  destruct (strtod l) as [[x rest]|] eqn:E; hsteps; [|by split].
  apply strtod_suffix in E as (used & El & Hu). rewrite El, zlen_app in Hl |- *.
  assert (0 < zlen used) by (destruct used; [done|]; rewrite zlen_cons; pose proof (zlen_nonneg used); lia).
  pose proof (zlen_nonneg rest). unfold value_post. cbn [offset depth].
  split; [lia|]. split; [done|]. split; [|done]. by rewrite filled_foot_empty, heap_id by done.
Qed.

(** ** Strings *)

Definition segment (p e : Z) : list Z := bslice content p (e - p).

Lemma segment_step p e : p < e -> segment p e = bget content p :: segment (p + 1) e.
Proof. intros Hp. unfold segment. rewrite bslice_step by lia. do 2 f_equal. lia. Qed.

Lemma segment_end p e : e <= p -> segment p e = [].
Proof. intros Hp. unfold segment, bslice. by rewrite seqZ_nil by lia. Qed.

Lemma segment_skip n p e : tokens (segment (p + Z.of_nat n) e) <= tokens (segment p e).
Proof.
  revert p. induction n as [|n IH]; intros p; [rewrite Z.add_0_r; lia|].
  destruct (Z.lt_ge_cases p e) as [Hp|Hp]; [|by rewrite !segment_end by lia].
  rewrite (segment_step p e) by done. specialize (IH (p + 1)). rewrite Nat2Z.inj_succ.
  replace (p + Z.succ (Z.of_nat n)) with (p + 1 + Z.of_nat n) by lia. pose proof (tokens_cons (bget content p) (segment (p + 1) e)). lia.
Qed.

Lemma string_end_ok fuel p k Q (E : parse_buffer -> gmultiset nat -> Prop) s H :
  0 <= p <= len -> len - p < Z.of_nat fuel ->
  Q None s H ->
  (forall e k', p <= e < len -> e - p - (k' - k) = tokens (segment p e) -> Q (Some (e, k')) s H) ->
  hoare (string_end content fuel p k) Q E s H.
Proof.
  revert p k. induction fuel as [|fuel IH]; intros p k Hp Hf HN HS; [lia|]. cbn [string_end].
  bcase; [|by apply hoare_ret]. apply hoare_bind, hoare_byte_at; [lia|].
  destruct (Z.eqb_spec (bget content p) 34) as [Hq|Hq]; [apply hoare_ret, HS; [lia|rewrite segment_end by lia; cbn; lia]|].
  destruct (Z.eqb_spec (bget content p) 92) as [Hb|Hb].
  - bcase; [by apply hoare_ret|]. apply IH; [lia|lia|done|]. intros e k' He Ht. apply HS; [lia|].
    rewrite (segment_step p e), (segment_step (p + 1) e), Hb by lia. cbn [tokens]. change (92 =? 92) with true. cbn beta iota.
    replace (p + 1 + 1) with (p + 2) by lia. lia.
  - apply IH; [lia|lia|done|]. intros e k' He Ht. apply HS; [lia|].
    rewrite (segment_step p e), tokens_plain by (lia || done). lia.
Qed.

Lemma hex_digit_range c d : hex_digit c = Some d -> 0 <= d < 16 /\ c <> 92.
Proof. unfold hex_digit. repeat bcase; intros [= <-]; lia. Qed.

(** Four hexadecimal digits, none of them a backslash, or 0. *)
Lemma parse_hex4_ok n p h e Q (E : parse_buffer -> gmultiset nat -> Prop) s H :
  (n <= 4)%nat -> 0 <= p -> p + Z.of_nat n <= e -> e < len -> 0 <= h -> (n = O -> h < 65536) ->
  (n <> O -> h mod 16 = 0 /\ h * 16 ^ (Z.of_nat n - 1) < 65536) ->
  (forall v, 0 <= v < 65536 -> v = 0 \/ tokens (segment p e) = Z.of_nat n + tokens (segment (p + Z.of_nat n) e) -> Q v s H) ->
  hoare (parse_hex4 content n p h) Q E s H.
Proof.
  revert p h. induction n as [|n IH]; intros p h Hn Hp He Hl Hh H0 Hm HQ; cbn [parse_hex4].
  - apply hoare_ret, HQ; [lia|]. right. rewrite Z.add_0_r. lia.
  - apply hoare_bind, hoare_byte_at; [lia|]. destruct (hex_digit (bget content p)) as [d|] eqn:Ed; [|apply hoare_ret, HQ; [lia|by left]].
    apply hex_digit_range in Ed as [Hd Hc]. destruct (Hm ltac:(done)) as [Hm1 Hm2].
    rewrite Nat2Z.inj_succ in Hm2. unfold Z.succ in Hm2. rewrite Z.add_simpl_r in Hm2.
    assert (Hpow : 1 <= 16 ^ Z.of_nat n) by (pose proof (Z.pow_pos_nonneg 16 (Z.of_nat n)); lia).
    assert (Hlt : (h + d) * 16 ^ Z.of_nat n < 65536).
    { assert (h / 16 * (16 * 16 ^ Z.of_nat n) < 16 ^ 4) as Hq by (replace h with (h / 16 * 16) in Hm2 by zlia; change (16 ^ 4) with 65536; lia).
      assert (16 ^ 4 = 16 ^ (3 - Z.of_nat n) * (16 * 16 ^ Z.of_nat n)) as E4.
      { replace 4 with (3 - Z.of_nat n + (1 + Z.of_nat n)) at 1 by lia. rewrite !Z.pow_add_r by lia. lia. }
      assert (h / 16 + 1 <= 16 ^ (3 - Z.of_nat n)) by nia.
      replace (h + d) with (h / 16 * 16 + d) by zlia. change 65536 with (16 ^ 4). nia. }
    rewrite (u32_small (h + d)) by nia.
    assert (Hstep : forall v, v = 0 \/ tokens (segment (p + 1) e) = Z.of_nat n + tokens (segment (p + 1 + Z.of_nat n) e) ->
      v = 0 \/ tokens (segment p e) = Z.of_nat (Datatypes.S n) + tokens (segment (p + Z.of_nat (Datatypes.S n)) e)).
    { intros v [->|Ht]; [by left|]. right. rewrite (segment_step p e), tokens_plain by (lia || done). rewrite Ht, Nat2Z.inj_succ.
      unfold Z.succ. replace (p + (Z.of_nat n + 1)) with (p + 1 + Z.of_nat n) by lia. lia. }
    apply IH; [lia|lia|lia|done| | | |intros v Hv Ht; apply HQ; [done|by apply Hstep]].
    + destruct n; [lia|]. pose proof (u32_range (Z.shiftl (h + d) 4)). lia.
    + intros ->. cbn in Hlt. lia.
    + intros Hn0. destruct n as [|n]; [done|]. rewrite Z.shiftl_mul_pow2 by lia. change (2 ^ 4) with 16.
      rewrite Nat2Z.inj_succ in *. unfold Z.succ in *. rewrite Z.pow_add_r in Hlt by lia. rewrite Z.add_simpl_r.
      assert (1 <= 16 ^ Z.of_nat n) by (pose proof (Z.pow_pos_nonneg 16 (Z.of_nat n)); lia).
      rewrite u32_small by nia. split; [apply Z.mod_mul; lia|nia].
Qed.

Lemma utf16_codepoint_ok p e Q (E : parse_buffer -> gmultiset nat -> Prop) s H :
  0 <= p -> p < e -> e < len -> bget content p = 92 -> bget content (p + 1) = 117 ->
  Q None s H ->
  (forall cp n, 0 <= cp -> p + n <= e ->
     n = 6 /\ cp < 65536 /\ (cp < 128 \/ 3 + tokens (segment (p + n) e) <= tokens (segment p e)) \/
     n = 12 /\ cp <= 1114111 /\ 4 + tokens (segment (p + n) e) <= tokens (segment p e) -> Q (Some (cp, n)) s H) ->
  hoare (utf16_codepoint content p e) Q E s H.
Proof.
  intros Hp He Hl Hb Hu HN HS. unfold utf16_codepoint. bcase; [by apply hoare_ret|]. apply hoare_bind.
  apply (parse_hex4_ok 4 (p + 2) 0 e); try (lia || done). intros v Hv Ht.
  assert (Hhead : tokens (segment p e) = 1 + tokens (segment (p + 2) e)).
  { rewrite (segment_step p e), (segment_step (p + 1) e), Hb by lia. replace (p + 1 + 1) with (p + 2) by lia. done. }
  change (Z.of_nat 4) with 4 in Ht. replace (p + 2 + 4) with (p + 6) in Ht by lia.
  bcase; [by apply hoare_ret|]. bcase.
  - destruct Ht as [->|Ht]; [lia|]. bcase; [by apply hoare_ret|]. apply hoare_bind, hoare_byte_at; [lia|]. apply hoare_bind.
    assert (Hc1 : forall Q' : Z -> parse_buffer -> gmultiset nat -> Prop,
      (forall c, Q' c s H) -> hoare (if bget content (p + 6) =? 92 then byte_at content (p + 6 + 1) else ret 0) Q' E s H).
    { intros Q' HQ'. bcase; [apply hoare_byte_at; [lia|done]|by apply hoare_ret]. }
    apply Hc1. intros c1. destruct (Z.eqb_spec (bget content (p + 6)) 92) as [H92|H92]; [|by apply hoare_ret].
    cbn [negb orb]. destruct (c1 =? 117) eqn:Hc; [|by apply hoare_ret]. cbn [negb]. apply hoare_bind.
    apply (parse_hex4_ok 4 (p + 6 + 2) 0 e); try (lia || done). intros v2 Hv2 Ht2. change (Z.of_nat 4) with 4 in Ht2.
    destruct (_ || _) eqn:Hr; [by apply hoare_ret|]. breflect. destruct Ht2 as [->|Ht2]; [lia|].
    replace (p + 6 + 2 + 4) with (p + 12) in Ht2 by lia.
    assert (0 <= Z.lor (Z.shiftl (Z.land v 1023) 10) (Z.land v2 1023) < 1048576) as Hlor.
    { assert (0 <= Z.land v 1023 < 1024 /\ 0 <= Z.land v2 1023 < 1024) as [Ha Hb2].
      { change 1023 with (Z.ones 10). rewrite !Z.land_ones by lia. change (2 ^ 10) with 1024. split; apply Z.mod_pos_bound; lia. }
      rewrite Z.shiftl_mul_pow2 by lia. change (2 ^ 10) with 1024. split; [apply Z.lor_nonneg; lia|].
      apply (Z.log2_lt_cancel _ 1048576).
      destruct (decide (Z.lor (Z.land v 1023 * 1024) (Z.land v2 1023) = 0)) as [->|Hn0]; [done|].
      rewrite Z.log2_lor by lia. change (Z.log2 1048576) with 20.
      apply Z.max_lub_lt; (apply Z.le_lt_trans with (Z.log2 1048575); [apply Z.log2_le_mono; lia|done]). }
    apply hoare_ret, HS; [lia|lia|]. right. split; [done|]. split; [lia|].
    assert (tokens (segment (p + 6 + 2) e) <= tokens (segment (p + 6) e)) by apply (segment_skip 2). lia.
  - apply hoare_ret, HS; [lia|lia|]. left. split; [done|]. split; [lia|]. destruct Ht as [->|Ht]; [left; lia|right; lia].
Qed.

Lemma unescape_one_ok p e Q (E : parse_buffer -> gmultiset nat -> Prop) s H :
  0 <= p -> p < e -> e < len -> Q None s H ->
  (forall bytes n, 1 <= n -> p + n <= e + 1 -> zlen bytes + tokens (segment (p + n) e) <= tokens (segment p e) ->
     Q (Some (bytes, n)) s H) ->
  hoare (unescape_one content p e) Q E s H.
Proof.
  intros Hp He Hl HN HS. unfold unescape_one. apply hoare_bind, hoare_byte_at; [lia|].
  destruct (Z.eqb_spec (bget content p) 92) as [Hb|Hb]; cbn [negb].
  2:{ apply hoare_ret, HS; [lia|lia|]. rewrite (segment_step p e), tokens_plain by done. change (zlen [bget content p]) with 1. lia. }
  bcase; [by apply hoare_ret|]. apply hoare_bind, hoare_byte_at; [lia|].
  assert (Htwo : 1 + tokens (segment (p + 2) e) <= tokens (segment p e)).
  { rewrite (segment_step p e), Hb by done. destruct (Z.eq_dec (p + 1) e) as [<-|Hne].
    - rewrite !segment_end by lia. done.
    - rewrite (segment_step (p + 1) e) by lia. replace (p + 1 + 1) with (p + 2) by lia. cbn [tokens]. change (92 =? 92) with true. cbn beta iota. lia. }
  destruct (Z.eqb_spec (bget content (p + 1)) 117) as [Hu|Hu].
  - unfold utf16_literal_to_utf8. apply hoare_bind, utf16_codepoint_ok; try done; [by apply hoare_ret|].
    intros cp n Hcp Hn Hc. apply hoare_ret. destruct (utf8_encode cp) as [b|] eqn:Eb; [|done]. cbn.
    apply utf8_encode_length in Eb as (Hb1 & Hb2 & Hb3); [|done].
    assert (tokens (segment (p + 2 + Z.of_nat 4) e) <= tokens (segment (p + 2) e)) as Hs by apply segment_skip.
    replace (p + 2 + Z.of_nat 4) with (p + 6) in Hs by lia.
    destruct Hc as [(-> & Hlt & [H128|Ht])|(-> & Hle & Ht)]; apply HS; lia.
  - apply hoare_ret. unfold simple_escape. repeat bcase; cbn [fmap option_fmap option_map]; try (apply HS; [lia|lia|exact Htwo]). done.
Qed.

Lemma unescape_ok fuel p e cap out Q (E : parse_buffer -> gmultiset nat -> Prop) s H :
  0 <= p <= e + 1 -> e < len -> e + 1 - p < Z.of_nat fuel -> zlen out + tokens (segment p e) + 1 <= cap ->
  (forall p', p <= p' < e -> Q (inl p') s H) -> (forall bytes, Q (inr bytes) s H) ->
  hoare (unescape content fuel p e cap out) Q E s H.
Proof.
  revert p out. induction fuel as [|fuel IH]; intros p out Hp Hl Hf Hc HI HR; [lia|]. cbn [unescape].
  bcase.
  - apply hoare_bind, unescape_one_ok; [lia|lia|done|by apply hoare_ret, HI|].
    intros bytes n Hn Hpn Ht. assert (Hnt : forall l, 0 <= tokens l).
    { clear. induction l as [|c l IHl]; [done|]. pose proof (tokens_cons c l). lia. }
    specialize (Hnt (segment (p + n) e)). destruct (Z.leb_spec (zlen out + zlen bytes) cap) as [_|Hgt]; [|lia].
    apply IH; [lia|done|lia|rewrite zlen_app; lia|intros p' Hp'; apply HI; lia|done].
  - rewrite segment_end in Hc by lia. cbn [tokens] in Hc. destruct (Z.leb_spec (zlen out + 1) cap) as [_|Hgt]; [by apply hoare_ret|lia].
Qed.

Definition string_post s H (c : cstr) (s' : parse_buffer) (H' : gmultiset nat) : Prop :=
  offset s < offset s' <= len /\ depth s' = depth s /\ H' = H ⊎ {[+ blk c +]}.

Lemma parse_string_ok s H : 0 <= offset s < len -> hoare (parse_string content) (string_post s H) (fail_post H) s H.
Proof.
  intros Hs. unfold parse_string. do 2 hstep. apply hoare_bind, hoare_peek; [done|].
  bcase; [hsteps; split; [unfold in_text; cbn; lia|done]|]. apply hoare_bind.
  apply string_end_ok; [lia|unfold zlen in *; lia|hsteps; split; [unfold in_text; cbn; lia|done]|].
  intros e k He Ht. apply hoare_bind, hoare_alloc; [|hsteps; split; [unfold in_text; cbn; lia|done]].
  intros o. apply hoare_bind, unescape_ok; [lia|lia|unfold zlen in *; lia|rewrite zlen_nil; lia| |].
  - intros p' Hp'. apply hoare_bind, hoare_free. hsteps. split; [unfold in_text; cbn; lia|done].
  - intros bytes. hsteps. unfold string_post. cbn [offset depth blk]. split; [lia|done].
Qed.

(** ** Arrays and objects *)

Lemma hoare_fail_with {A : Type} l (Q : A -> parse_buffer -> gmultiset nat -> Prop) E s H :
  E s H -> hoare (fail_with l) Q E s (H ⊎ items_foot l).
Proof. intros HE. unfold fail_with. apply hoare_bind, hoare_delete_items. by hsteps. Qed.

(** The rest of a list of elements, up to its closing bracket. *)
Definition list_post s H (l : list item) (s' : parse_buffer) (H' : gmultiset nat) : Prop :=
  offset s < offset s' < len /\ depth s' = depth s /\ H' = H ⊎ items_foot l.

Lemma list_post_mono s1 s H l s' H' :
  offset s <= offset s1 -> depth s1 = depth s -> list_post s1 H l s' H' -> list_post s H l s' H'.
Proof. intros Ho Hd (H1 & H2 & H3). split; [lia|]. split; [congruence|done]. Qed.

Lemma after_element_ok close again l s0 s H :
  in_text s -> offset s0 < offset s -> depth s = depth s0 ->
  (forall s', offset s <= offset s' < len -> depth s' = depth s -> hoare again (list_post s0 H) (fail_post H) s' (H ⊎ items_foot l)) ->
  hoare (after_element content close again l) (list_post s0 H) (fail_post H) s (H ⊎ items_foot l).
Proof.
  intros Hs Ho Hd Ha. unfold after_element. hstep. apply hoare_skip; [done|]. intros s1 H1 Hd1 _. hstep.
  apply hoare_looking_at; [unfold in_text in Hs; lia|]. intros [|] Hb; [apply Ha; [specialize (Hb eq_refl); lia|done]|].
  hstep. apply hoare_looking_at; [unfold in_text in Hs; lia|]. intros [|] Hb2.
  - apply hoare_ret. specialize (Hb2 eq_refl). split; [lia|]. split; [congruence|done].
  - apply hoare_fail_with. split; [unfold in_text in *; lia|done].
Qed.

Lemma foot_snoc H l self name f : has_flag (f_type f) cJSON_StringIsConst = false ->
  H ⊎ items_foot (l ++ [mk_item self name f]) = H ⊎ items_foot l ⊎ {[+ self +]} ⊎ str_foot name ⊎ filled_foot f.
Proof. intros Hf. rewrite items_foot_app. cbn [items_foot]. rewrite item_foot_mk, Hf, heap_id, !(assoc_L (⊎)). done. Qed.

Lemma unfilled_foot : filled_foot unfilled = ∅.
Proof. by apply filled_foot_empty. Qed.

Lemma foot_snoc_unfilled H l self name :
  H ⊎ items_foot (l ++ [mk_item self name unfilled]) = H ⊎ items_foot l ⊎ {[+ self +]} ⊎ str_foot name.
Proof. by rewrite foot_snoc, unfilled_foot, heap_id by done. Qed.

Section containers.
  Context (pv : M parse_buffer filled) (d : Z).
  Context (Hpv : forall s H, in_text s -> depth s = d -> hoare pv (value_post s H) (fail_post H) s H).

(** Parsing the value of an item that is on the list. *)
Lemma element_ok l self name s H (k : option filled -> M parse_buffer (list item)) Q :
  in_text s -> depth s = d ->
  (forall s', in_text s' -> hoare (k None) Q (fail_post H) s' (H ⊎ items_foot (l ++ [mk_item self name unfilled]))) ->
  (forall f s', offset s < offset s' <= len -> depth s' = d ->
     hoare (k (Some f)) Q (fail_post H) s' (H ⊎ items_foot (l ++ [mk_item self name f]))) ->
  hoare (do r <- attempt pv; k r) Q (fail_post H) s (H ⊎ items_foot l ⊎ {[+ self +]} ⊎ str_foot name).
Proof.
  intros Hs Hd HN HS. apply hoare_bind, hoare_attempt. eapply hoare_mono; [by apply Hpv|..].
  - intros f s' H' (Ho & Hd' & -> & Hf). rewrite <- foot_snoc by done. apply HS; [done|congruence].
  - intros s' H' (Hs' & ->). specialize (HN s' Hs'). by rewrite foot_snoc_unfilled in HN.
Qed.

Lemma array_loop_ok fuel l s H :
  0 <= offset s < len -> depth s = d -> len - offset s <= Z.of_nat fuel ->
  hoare (array_loop content pv fuel l) (list_post s H) (fail_post H) s (H ⊎ items_foot l).
Proof.
  revert l s. induction fuel as [|fuel IH]; intros l s Hs Hd Hf; [lia|]. cbn [array_loop]. apply hoare_bind, hoare_alloc.
  2:{ apply hoare_fail_with. split; [unfold in_text; lia|done]. }
  intros self. do 2 hstep. apply hoare_bind, hoare_skip; [unfold in_text; cbn; lia|]. intros s1 H1 Hd1 _. cbn [offset depth] in *.
  rewrite <- (heap_id (_ ⊎ {[+ self +]})). apply (element_ok l self None); [unfold in_text; lia|congruence|..].
  - intros s' Hs'. by apply hoare_fail_with.
  - intros f s' Ho Hd'. cbv zeta. apply after_element_ok; [unfold in_text; lia|lia|congruence|].
    intros s2 H2 Hd2. eapply hoare_mono; [apply IH; [lia|congruence|lia]| |done].
    intros a s3 H3. apply list_post_mono; [lia|congruence].
Qed.

Lemma object_loop_ok fuel l s H :
  0 <= offset s < len -> depth s = d -> len - offset s <= Z.of_nat fuel ->
  hoare (object_loop content pv fuel l) (list_post s H) (fail_post H) s (H ⊎ items_foot l).
Proof.
  revert l s. induction fuel as [|fuel IH]; intros l s Hs Hd Hf; [lia|]. cbn [object_loop]. apply hoare_bind, hoare_alloc.
  2:{ apply hoare_fail_with. split; [unfold in_text; lia|done]. }
  intros self.
  assert (Hfail : forall s', in_text s' -> hoare (fail_with (l ++ [mk_item self None unfilled])) (list_post s H) (fail_post H) s'
                    (H ⊎ items_foot l ⊎ {[+ self +]})).
  { intros s' Hs'. rewrite <- (heap_id (_ ⊎ {[+ self +]})). change (∅ : gmultiset nat) with (str_foot None).
    rewrite <- foot_snoc_unfilled. by apply hoare_fail_with. }
  do 2 hstep. unfold can_access. bcase; [apply Hfail; unfold in_text; lia|]. do 2 hstep.
  apply hoare_bind, hoare_skip; [unfold in_text; cbn; lia|]. cbn [offset depth]. intros s1 H1 Hd1 Hl1.
  apply hoare_bind, hoare_attempt. eapply hoare_mono; [apply parse_string_ok; lia| |].
  2:{ intros s' H' (Hs' & ->). by apply Hfail. }
  intros name s2 H' (Ho2 & Hd2 & ->). change {[+ blk name +]} with (str_foot (Some name)).
  apply hoare_bind, hoare_skip; [unfold in_text; lia|]. intros s3 H3 Hd3 _. apply hoare_bind, hoare_looking_at; [lia|].
  intros [|] Hb; cbn [negb].
  2:{ rewrite <- foot_snoc_unfilled. apply hoare_fail_with. split; [unfold in_text; lia|done]. }
  destruct (Hb eq_refl) as [Hb' _]. do 2 hstep. apply hoare_bind, hoare_skip; [unfold in_text; cbn; lia|]. cbn [offset depth]. intros s4 H4 Hd4 _.
  apply (element_ok l self (Some name)); [unfold in_text; lia|congruence|..].
  - intros s' Hs'. by apply hoare_fail_with.
  - intros f s' Ho Hd'. cbv zeta. apply after_element_ok; [unfold in_text; lia|lia|congruence|].
    intros s5 H5 Hd5. eapply hoare_mono; [apply IH; [lia|congruence|lia]| |done].
    intros a s6 H6. apply list_post_mono; [lia|congruence].
Qed.

End containers.

Lemma parse_container_ok opens close loop ty s H :
  0 <= offset s < len -> 
  (forall Q E, (forall b, Q b (ParseBuffer (offset s) (depth s + 1)) H) -> hoare opens Q E (ParseBuffer (offset s) (depth s + 1)) H) ->
  (forall s', depth s < CJSON_NESTING_LIMIT -> 0 <= offset s' < len -> depth s' = depth s + 1 ->
     hoare (loop (Datatypes.S (length content)) []) (list_post s' H) (fail_post H) s' (H ⊎ items_foot [])) ->
  has_flag ty cJSON_IsReference = false -> has_flag ty cJSON_StringIsConst = false ->
  hoare (parse_container content opens close loop ty) (value_post s H) (fail_post H) s H.
Proof.
  intros Hs Hopens Hloop Hr Hc. unfold parse_container. do 2 hstep. bcase; [apply hoare_abandon; split; [unfold in_text; lia|done]|].
  do 2 hstep. apply hoare_bind, Hopens. intros [|]; cbn [negb]; [|apply hoare_abandon; split; [unfold in_text; cbn; lia|done]].
  do 2 hstep. apply hoare_bind, hoare_skip; [unfold in_text; cbn; lia|]. cbn [offset depth]. intros s1 H1 Hd1 _.
  apply hoare_bind, hoare_looking_at; [lia|]. intros empty Hempty. hstep.
  assert (Hend : forall l s' H', offset s < offset s' < len -> depth s' = depth s + 1 -> H' = H ⊎ items_foot l ->
    hoare (deeper (-1);; advance 1;; ret (Filled ty None 0 zero_double l)) (value_post s H) (fail_post H) s' H').
  { intros l s' H' Ho Hd ->. do 5 hstep. unfold value_post. cbn [offset depth f_type]. split; [lia|]. split; [lia|].
    split; [|done]. rewrite filled_foot_plain by done. cbn [str_foot]. by rewrite (left_id_L ∅ (⊎)). }
  destruct empty.
  - apply hoare_ret, Hend; [specialize (Hempty eq_refl); lia|lia|]. cbn [items_foot]. by rewrite heap_id.
  - do 2 hstep. unfold can_access. rewrite Z.add_0_r. bcase; cbn [negb]; do 2 hstep.
    + apply hoare_abandon. split; [unfold in_text; cbn; lia|done].
    + eapply hoare_mono; [|intros l s' H' Hp; cbv beta; apply Hend|done].
      * eapply hoare_heap; [|apply Hloop; [lia|cbn; lia|cbn; lia]]. cbn [items_foot]. by rewrite heap_id.
      * destruct Hp as (Ho & _ & _). cbn [offset] in Ho. lia.
      * destruct Hp as (_ & Hd & _). cbn [depth] in Hd. lia.
      * apply Hp.
Qed.

(** A literal. *)
Lemma literal_ok n ty vi s H : 0 < n -> in_text s -> offset s + n <= len ->
  has_flag ty cJSON_IsReference = false -> has_flag ty cJSON_StringIsConst = false ->
  hoare (advance n;; ret (Filled ty None vi zero_double [])) (value_post s H) (fail_post H) s H.
Proof.
  intros Hn Hs Hl Hr Hc. do 3 hstep. unfold in_text, value_post in *. cbn [offset depth f_type].
  split; [lia|]. split; [done|]. by rewrite filled_foot_empty, heap_id by done.
Qed.

Lemma parse_value_ok fuel s H :
  in_text s -> depth s <= CJSON_NESTING_LIMIT -> CJSON_NESTING_LIMIT - depth s < Z.of_nat fuel ->
  hoare (parse_value content fuel) (value_post s H) (fail_post H) s H.
Proof.
  revert s H. induction fuel as [|fuel IH]; intros s H Hs Hd Hf; [lia|]. cbn [parse_value].
  hstep. apply hoare_literal_at; [apply Hs|]. intros [|] Hb; [by apply literal_ok; [|done|apply Hb|..]|]. clear Hb.
  hstep. apply hoare_literal_at; [apply Hs|]. intros [|] Hb; [by apply literal_ok; [|done|apply Hb|..]|]. clear Hb.
  hstep. apply hoare_literal_at; [apply Hs|]. intros [|] Hb; [by apply literal_ok; [|done|apply Hb|..]|]. clear Hb.
  do 2 hstep. unfold can_access. rewrite Z.add_0_r. bcase; cbn [negb]; [by apply hoare_abandon|].
  unfold in_text in Hs. assert (0 <= offset s < len) as Hs' by lia. apply hoare_bind, hoare_peek; [done|].
  assert (Hrec : forall s' H', depth s < CJSON_NESTING_LIMIT -> in_text s' -> depth s' = depth s + 1 ->
    hoare (parse_value content fuel) (value_post s' H') (fail_post H') s' H') by (intros; apply IH; [done|lia..]).
  destruct (Z.eqb_spec (bget content (offset s)) 34) as [Hq|_].
  { hstep. eapply hoare_mono; [by apply parse_string_ok| |done]. intros c s1 H1 (Ho & Hd1 & ->). hstep.
    split; [done|]. split; [done|]. split; [|done]. rewrite filled_foot_plain by done. cbn [str_foot items_foot]. by rewrite heap_id. }
  destruct (number_start (bget content (offset s))); [by apply parse_number_ok|].
  bcase; [|bcase; [|by apply hoare_abandon]].
  - apply parse_container_ok; try done.
    + intros Q E' HQ. hstep. apply hoare_peek; [done|]. by apply hoare_ret.
    + intros s' Hlim Hs1 Hd1. apply (array_loop_ok _ (depth s + 1)); [|done|done|unfold zlen; lia].
      intros s2 H2 Hs2 Hd2. by apply Hrec.
  - apply parse_container_ok; try done.
    + intros Q E' HQ. apply hoare_looking_at; [apply Hs|]. auto.
    + intros s' Hlim Hs1 Hd1. apply (object_loop_ok _ (depth s + 1)); [|done|done|unfold zlen; lia].
      intros s2 H2 Hs2 Hd2. by apply Hrec.
Qed.

(** ** The whole text *)

Lemma skip_bom_ok Q (E : parse_buffer -> gmultiset nat -> Prop) s H :
  in_text s -> (forall s', in_text s' -> depth s' = depth s -> Q tt s' H) -> hoare (skip_utf8_bom content) Q E s H.
Proof.
  unfold in_text. intros Hs HQ. unfold skip_utf8_bom. do 2 hstep. destruct (can_access content s 4); [|by apply hoare_ret, HQ].
  hstep. apply hoare_literal_at; [lia|]. intros [|] Hb; [|by apply hoare_ret, HQ]. specialize (Hb eq_refl).
  change (zlen [239; 187; 191]) with 3 in Hb. hstep. apply HQ; cbn; [lia|done].
Qed.

Lemma parse_root_ok require H :
  hoare (parse_root content require)
    (fun i s' H' => 0 < offset s' <= len /\ H' = H ⊎ item_foot i /\
       (require = true -> offset s' < len /\ bget content (offset s') = 0))
    (fail_post H) (ParseBuffer 0 0) H.
Proof.
  unfold parse_root. pose proof (zlen_nonneg content).
  assert (in_text (ParseBuffer 0 0)) by (unfold in_text; cbn; lia).
  bcase; [by apply hoare_abandon|]. apply hoare_bind, hoare_alloc; [|by apply hoare_abandon]. intros self.
  hstep. apply skip_bom_ok; [done|]. intros s1 Hs1 Hd1. hstep. apply hoare_skip; [done|]. intros s2 Ho2 Hd2 _.
  cbn [depth] in Hd1. unfold in_text in Hs1. apply hoare_bind, hoare_attempt.
  assert (Hone : forall f, has_flag (f_type f) cJSON_StringIsConst = false ->
    H ⊎ {[+ self +]} ⊎ filled_foot f = H ⊎ items_foot [mk_item self None f]).
  { intros f Hf. cbn [items_foot]. by rewrite item_foot_mk, Hf, !heap_id, (assoc_L (⊎)). }
  eapply hoare_mono; [apply parse_value_ok; [unfold in_text; lia|rewrite Hd2, Hd1; done|rewrite Hd2, Hd1; done]|..].
  2:{ intros s' H' (Hs' & ->). eapply hoare_heap; [|by apply hoare_fail_with]. by rewrite <- Hone, unfilled_foot, heap_id. }
  intros f s3 H3 (Ho3 & Hd3 & -> & Hf). rewrite Hone by done.
  assert (items_foot [mk_item self None f] = item_foot (mk_item self None f)) as Hi by (cbn [items_foot]; apply heap_id).
  destruct require; [|apply hoare_ret; rewrite Hi; split; [lia|done]].
  hstep. apply hoare_skip; [unfold in_text; lia|]. intros s4 Ho4 Hd4 _. hstep. apply hoare_looking_at; [lia|].
  intros [|] Hb; [|apply hoare_fail_with; split; [unfold in_text; lia|done]].
  apply hoare_ret. rewrite Hi. split; [lia|]. split; [done|]. intros _. by apply Hb.
Qed.

End parser.

Lemma bget_elem (b : list Z) i : 0 <= i < zlen b -> bget b i ∈ b.
Proof.
  unfold zlen, bget. intros Hi. destruct (lookup_lt_is_Some_2 b (Z.to_nat i)) as [x Hx]; [lia|]. rewrite Hx.
  by eapply list_elem_of_lookup_2.
Qed.

Lemma c_string_idem s : c_string (c_string s) = c_string s.
Proof. induction s as [|c s IH]; [done|]. cbn [c_string]. destruct (Ascii.eqb c Ascii.zero) eqn:E; [done|]. cbn [c_string]. by rewrite E, IH. Qed.

Lemma c_string_no_nul s : 0 ∉ bytes_of (c_string s).
Proof.
  induction s as [|c s IH]; cbn [c_string bytes_of]; [apply not_elem_of_nil|]. destruct (Ascii.eqb_spec c Ascii.zero) as [->|Hc]; [apply not_elem_of_nil|].
  cbn [bytes_of]. apply not_elem_of_cons. split; [|done]. intros E0. apply Hc. rewrite <- (char_of_code c), <- E0. done.
Qed.

(** ** The error buffer

    The parser reports nothing itself. *)

Class Quiet {S A : Type} (m : M S A) : Prop :=
  quiet s st : match m s st with Ok _ _ st' | Err _ st' => err st' = err st | UB => True end.

Section quiet.
  Context {S : Type}.

#[export] Instance quiet_ret {A : Type} (a : A) : Quiet (S := S) (ret a).
Proof. done. Qed.
#[export] Instance quiet_abandon {A : Type} : Quiet (S := S) (A := A) abandon.
Proof. done. Qed.
#[export] Instance quiet_undefined {A : Type} : Quiet (S := S) (A := A) undefined.
Proof. done. Qed.
#[export] Instance quiet_modify (f : S -> S) : Quiet (modify f).
Proof. done. Qed.
#[export] Instance quiet_gets {A : Type} (f : S -> A) : Quiet (gets f).
Proof. done. Qed.
#[export] Instance quiet_alloc : Quiet (S := S) alloc.
Proof. intros s st. unfold alloc. by destruct (answers st) as [|[|] l]. Qed.
#[export] Instance quiet_free p : Quiet (S := S) (free p).
Proof. intros s st. unfold free. by destruct (decide _). Qed.
#[export] Instance quiet_free_str p : Quiet (S := S) (free_str p).
Proof. destruct p; apply _. Qed.

#[export] Instance quiet_bind {A B : Type} (m : M S A) (k : A -> M S B) : Quiet m -> (forall a, Quiet (k a)) -> Quiet (bind m k).
Proof.
  intros Hm Hk s st. specialize (Hm s st). unfold bind. destruct (m s st) as [a s' st'|s' st'|]; [|done|done].
  specialize (Hk a s' st'). destruct (k a s' st'); congruence.
Qed.

#[export] Instance quiet_attempt {A : Type} (m : M S A) : Quiet m -> Quiet (attempt m).
Proof. intros Hm s st. specialize (Hm s st). unfold attempt. by destruct (m s st). Qed.

#[export] Instance quiet_delete_item i : Quiet (S := S) (delete_item i).
Proof.
  induction i as [self ty vs vi vd nm ch IH] using item_tree_ind. cbn [delete_item].
  apply quiet_bind; [|intros _; apply quiet_bind; [case_match; apply _|apply _]]. case_match; [apply _|].
  apply quiet_bind; [|apply _]. induction IH as [|i l Hi _ IHl]; [apply _|]. by apply quiet_bind.
Qed.

#[export] Instance quiet_delete_items l : Quiet (S := S) (delete_items l).
Proof. induction l; cbn [delete_items]; apply _. Qed.

End quiet.

(** Case analysis down to instances. *)
Ltac quiet_solve := repeat first [apply _ | apply quiet_bind; [|intros ?] | apply quiet_attempt | case_match; cbn beta iota zeta].

Section quiet_parser.
  Context (content : list Z).

#[local] Instance quiet_byte_at p : Quiet (byte_at content p).
Proof. intros s st. unfold byte_at. by destruct (in_bounds _ _ _). Qed.
#[local] Instance quiet_literal_at t : Quiet (literal_at content t).
Proof. intros s st. unfold literal_at. destruct (can_read _ _ _); [|done]. by destruct (bread _ _ _ _). Qed.
#[local] Instance quiet_peek : Quiet (peek content).
Proof. unfold peek. apply _. Qed.
#[local] Instance quiet_looking_at c : Quiet (looking_at content c).
Proof. unfold looking_at. quiet_solve. Qed.
#[local] Instance quiet_fail_with {A : Type} l : Quiet (fail_with (A := A) l).
Proof. unfold fail_with. apply _. Qed.
#[local] Instance quiet_parse_hex4 n p h : Quiet (parse_hex4 content n p h).
Proof. revert p h. induction n as [|n IH]; intros p h; cbn [parse_hex4]; quiet_solve. Qed.
#[local] Instance quiet_utf16 p e : Quiet (utf16_literal_to_utf8 content p e).
Proof. unfold utf16_literal_to_utf8, utf16_codepoint. quiet_solve. Qed.
#[local] Instance quiet_string_end fuel p k : Quiet (string_end content fuel p k).
Proof. revert p k. induction fuel as [|fuel IH]; intros p k; cbn [string_end]; quiet_solve. Qed.
#[local] Instance quiet_unescape fuel p e cap out : Quiet (unescape content fuel p e cap out).
Proof. revert p out. induction fuel as [|fuel IH]; intros p out; cbn [unescape]; unfold unescape_one; quiet_solve. Qed.
#[local] Instance quiet_parse_string : Quiet (parse_string content).
Proof. unfold parse_string, set_offset. quiet_solve. Qed.
#[local] Instance quiet_parse_number : Quiet (parse_number content).
Proof. unfold parse_number, advance. quiet_solve. Qed.
#[local] Instance quiet_array_loop pv fuel head : Quiet pv -> Quiet (array_loop content pv fuel head).
Proof.
  intros Hv. revert head. induction fuel as [|fuel IH]; intros head; cbn [array_loop]; unfold after_element, advance, buffer_skip_whitespace; quiet_solve.
Qed.
#[local] Instance quiet_object_loop pv fuel head : Quiet pv -> Quiet (object_loop content pv fuel head).
Proof.
  intros Hv. revert head. induction fuel as [|fuel IH]; intros head; cbn [object_loop]; unfold after_element, advance, buffer_skip_whitespace; quiet_solve.
Qed.
#[local] Instance quiet_parse_value fuel : Quiet (parse_value content fuel).
Proof.
  induction fuel as [|fuel IH]; cbn [parse_value]; [apply _|].
  unfold parse_array, parse_object, parse_container, advance, deeper, buffer_skip_whitespace. quiet_solve.
Qed.

Lemma quiet_parse_root require : Quiet (parse_root content require).
Proof. unfold parse_root, skip_utf8_bom, advance, buffer_skip_whitespace. quiet_solve. Qed.

End quiet_parser.

(** The parser, whatever the text: nothing is lost, and nothing reported. *)
Lemma parse_with_opts_ok {S : Type} (value : string) (require : bool) (s : S) (st : store) :
  exists r st', cJSON_ParseWithOpts value require s st = Ok r s st' /\ err st' = err st /\
    live st' = live st ⊎ match r.1 with Some i => item_foot i | None => ∅ end.
Proof.
  unfold cJSON_ParseWithOpts, cJSON_ParseWithLengthOpts. set (content := bytes_of _ ++ [0]).
  pose proof (parse_root_ok content require (live st) st eq_refl ltac:(done)) as Hp.
  pose proof (quiet_parse_root content require (ParseBuffer 0 0) st) as Hq.
  destruct (parse_root content require (ParseBuffer 0 0) st) as [i b st'|b st'|]; [| |done].
  - eexists _, st'. split; [done|]. split; [done|]. apply Hp.
  - eexists _, st'. split; [done|]. split; [done|]. cbn [fst]. rewrite heap_id. apply Hp.
Qed.

(** What the caller gets: a tree it owns, which it can delete, or nothing. *)
Definition parse_result_ok {S : Type} (value : string) (require : bool) (r : option item * Z) (s : S) (before after : store) : Prop :=
  let '(tree, end_) := r in
  let n := Z.of_nat (String.length (c_string value)) in
  match tree with
  | Some i =>
      live after = live before ⊎ item_foot i /\ 0 < end_ <= n + 1 /\ (require = true -> end_ = n) /\
      exists after', delete_item i s after = Ok tt s after' /\ live after' = live before
  | None => live after = live before /\ 0 <= end_ <= n
  end.

(** C18: For every text, whatever bytes it holds and whichever allocations
    fail, [cJSON_ParseWithOpts] ends, reads nothing outside the text and its
    NUL and writes nothing outside the strings it allocates.  It returns a
    tree that owns exactly the blocks the call allocated, all of which
    [cJSON_Delete] frees, and with [require_null_terminated] the whole text
    was read; or it returns [NULL], with everything given back and an error
    position inside the text. *)
Theorem json_parse_memory {S : Type} (value : string) (require : bool) (s : S) (st : store) :
  exists r st', cJSON_ParseWithOpts value require s st = Ok r s st' /\ parse_result_ok value require r s st st'.
Proof.
  unfold cJSON_ParseWithOpts, cJSON_ParseWithLengthOpts. set (content := bytes_of _ ++ [0]).
  assert (Hn : zlen content = Z.of_nat (String.length (c_string value)) + 1).
  { unfold content. rewrite zlen_app. unfold zlen at 1. by rewrite length_bytes_of. }
  pose proof (parse_root_ok content require (live st) st eq_refl ltac:(done)) as Hp.
  destruct (parse_root content require (ParseBuffer 0 0) st) as [i b st'|b st'|]; [| |done].
  - destruct Hp as [(Ho & Hl & Hr) _]. eexists (Some i, offset b), st'. split; [done|]. unfold parse_result_ok. split; [done|].
    split; [lia|]. split.
    + intros Hq. destruct (Hr Hq) as [Hlt H0]. destruct (Z.lt_ge_cases (offset b) (zlen content - 1)) as [Hin|]; [|lia].
      exfalso. apply (c_string_no_nul value). unfold content in *. rewrite zlen_app in *. change (zlen [0]) with 1 in *.
      rewrite bget_app_l in H0 by lia. rewrite <- H0. apply bget_elem. lia.
    + pose proof (hoare_delete_item (mem := false) i (fun _ s' H' => s' = s /\ H' = live st) (fun _ _ => False) s (live st)) as Hd.
      specialize (Hd (conj eq_refl eq_refl) st' Hl ltac:(done)). destruct (delete_item i s st') as [[] s'' st''|s'' st''|]; [|by destruct Hd|done].
      destruct Hd as [[-> Hd] _]. by exists st''.
  - destruct Hp as [[Hb Hl] _]. unfold in_text in Hb. eexists (None, _), st'. split; [done|]. unfold parse_result_ok. split; [done|].
    repeat bcase; lia.
Qed.
