(* ===== verification/JsonGrammar.v ===== *)
(** * JSON texts and what they stand for (cJSON.c)

    The grammar of RFC 8259 as a relation between byte sequences and values,
    and the proof that the parser reads every text of the grammar as its
    value.  Numbers of 64 characters and more and nesting deeper than 1000
    are outside the relation, as they are outside what the parser reads. *)

From stdpp Require Import prelude list list_numbers strings gmultiset.
From Stdlib Require Import SpecFloat.
From S2P Require Import Prelude RateLimit CJson Decimal JsonParse JsonSafety.

(** ** The grammar *)

Definition white (b : Z) : Prop := b = 32 \/ b = 9 \/ b = 10 \/ b = 13.
Definition ws (w : list Z) : Prop := Forall white w.

(** The UTF-8 encoding of a code point. *)
Definition utf8 (cp : Z) : list Z :=
  let cont (k : Z) := 128 + (cp / k) mod 64 in
  if cp <? 128 then [cp]
  else if cp <? 2048 then [192 + cp / 64; cont 1]
  else if cp <? 65536 then [224 + cp / 4096; cont 64; cont 1]
  else [240 + cp / 262144; cont 4096; cont 64; cont 1].

(** The escapes of one letter, and the byte they stand for. *)
Definition escapes : list (Z * Z) :=
  [(34, 34); (92, 92); (47, 47); (98, 8); (102, 12); (110, 10); (114, 13); (116, 9)].

(** Four hexadecimal digits. *)
Inductive hex4 : list Z -> Z -> Prop :=
| Hex4 a b c d x y z w :
    hex_digit a = Some x -> hex_digit b = Some y -> hex_digit c = Some z -> hex_digit d = Some w ->
    hex4 [a; b; c; d] (((x * 16 + y) * 16 + z) * 16 + w).

Definition surrogate (v : Z) : Prop := 55296 <= v <= 57343.

(** The characters between the quotes of a string, and the bytes they stand
    for. *)
Inductive str_chars : list Z -> list Z -> Prop :=
| StrEnd : str_chars [] []
| StrPlain c t b : 32 <= c < 256 -> c <> 34 -> c <> 92 -> str_chars t b -> str_chars (c :: t) (c :: b)
| StrEscape e x t b : (e, x) ∈ escapes -> str_chars t b -> str_chars (92 :: e :: t) (x :: b)
| StrUnicode h v t b : hex4 h v -> ~ surrogate v -> str_chars t b -> str_chars (92 :: 117 :: h ++ t) (utf8 v ++ b)
| StrPair h1 v1 h2 v2 t b :
    hex4 h1 v1 -> 55296 <= v1 < 56320 -> hex4 h2 v2 -> 56320 <= v2 < 57344 -> str_chars t b ->
    str_chars (92 :: 117 :: h1 ++ 92 :: 117 :: h2 ++ t)
      (utf8 (65536 + (v1 - 55296) * 1024 + (v2 - 56320)) ++ b).

Definition quoted (t : list Z) : list Z := 34 :: t ++ [34].

(** The value of a text with at most [n] levels of nesting; the elements of
    an array and the members of an object, with the space around them. *)
Inductive json_text : nat -> list Z -> cJSON -> Prop :=
| TNull n : json_text n [110; 117; 108; 108] JNull
| TFalse n : json_text n [102; 97; 108; 115; 101] (JBool false)
| TTrue n : json_text n [116; 114; 117; 101] (JBool true)
| TNumber n x : number_ok x -> zlen (number_text x) < 64 -> json_text n (number_text x) (JNumber (number_value x))
| TString n t b : str_chars t b -> json_text n (quoted t) (JString (c_string (text_of b)))
| TEmptyArray n w : ws w -> json_text (S n) (91 :: w ++ [93]) (JArray [])
| TArray n t vs : json_elements n t vs -> json_text (S n) (91 :: t ++ [93]) (JArray vs)
| TEmptyObject n w : ws w -> json_text (S n) (123 :: w ++ [125]) (JObject [])
| TObject n t ms : json_members n t ms -> json_text (S n) (123 :: t ++ [125]) (JObject ms)
with json_elements : nat -> list Z -> list cJSON -> Prop :=
| ElemLast n w1 t v w2 : ws w1 -> json_text n t v -> ws w2 -> json_elements n (w1 ++ t ++ w2) [v]
| ElemNext n w1 t v w2 ts vs : ws w1 -> json_text n t v -> ws w2 -> json_elements n ts vs ->
    json_elements n (w1 ++ t ++ w2 ++ 44 :: ts) (v :: vs)
with json_members : nat -> list Z -> list (string * cJSON) -> Prop :=
| MemberLast n w1 k kb w2 w3 t v w4 : ws w1 -> str_chars k kb -> ws w2 -> ws w3 -> json_text n t v -> ws w4 ->
    json_members n (w1 ++ quoted k ++ w2 ++ 58 :: w3 ++ t ++ w4) [(c_string (text_of kb), v)]
| MemberNext n w1 k kb w2 w3 t v w4 ts ms : ws w1 -> str_chars k kb -> ws w2 -> ws w3 -> json_text n t v -> ws w4 ->
    json_members n ts ms ->
    json_members n (w1 ++ quoted k ++ w2 ++ 58 :: w3 ++ t ++ w4 ++ 44 :: ts) ((c_string (text_of kb), v) :: ms).

Scheme json_text_mind := Minimality for json_text Sort Prop
  with json_elements_mind := Minimality for json_elements Sort Prop
  with json_members_mind := Minimality for json_members Sort Prop.
Combined Scheme json_mutual_ind from json_text_mind, json_elements_mind, json_members_mind.

(** A whole text: a value with space around it, after an optional byte order
    mark. *)
Definition json_document (text : list Z) (v : cJSON) : Prop :=
  exists bom w1 t w2, text = bom ++ w1 ++ t ++ w2 /\ (bom = [] \/ bom = [239; 187; 191]) /\ ws w1 /\ ws w2 /\
    json_text (Z.to_nat CJSON_NESTING_LIMIT) t v.

(** ** Encodings *)

Lemma lor_low a b n : 0 <= n -> 0 <= b < 2 ^ n -> Z.lor (Z.shiftl a n) b = a * 2 ^ n + b.
Proof.
  intros Hn Hb. assert (Z.land (Z.shiftl a n) b = 0) as Hl.
  { apply Z.bits_inj'. intros i Hi. rewrite Z.land_spec, Z.bits_0. destruct (Z.lt_ge_cases i n) as [Hlt|Hge].
    - by rewrite Z.shiftl_spec_low.
    - rewrite <- (Z.mod_small b (2 ^ n)), Z.mod_pow2_bits_high by lia. apply andb_false_r. }
  rewrite <- Z.shiftl_mul_pow2, Z.add_nocarry_lxor, Z.lxor_lor by done. done.
Qed.

(** [(codepoint | 0x80) & 0xBF] *)
Lemma continuation_byte cp : Z.land (Z.lor cp 128) 191 = 128 + cp mod 64.
Proof.
  change 64 with (2 ^ 6). rewrite <- Z.land_ones by lia. change 128 with (Z.shiftl 2 6) at 2.
  rewrite Z.shiftl_mul_pow2 by lia. rewrite <- lor_low; [| lia | rewrite Z.land_ones by lia; apply Z.mod_pos_bound; lia].
  change (Z.shiftl 2 6) with 128. change 191 with (Z.lor 128 (Z.ones 6)).
  apply Z.bits_inj'. intros i Hi. rewrite !Z.land_spec, !Z.lor_spec, Z.land_spec.
  destruct (Z.testbit cp i), (Z.testbit 128 i), (Z.testbit (Z.ones 6) i); done.
Qed.

Lemma first_byte f mark (n : Z) : forallb (fun f => Z.land (Z.lor f mark) 255 =? mark + f) (seqZ 0 n) = true ->
  0 <= f < n -> Z.land (Z.lor f mark) 255 = mark + f.
Proof. intros Hall Hf. rewrite forallb_forall in Hall. apply Z.eqb_eq, Hall, list_elem_of_In, elem_of_seqZ. lia. Qed.

Lemma utf8_encode_ok cp : 0 <= cp <= 1114111 -> utf8_encode cp = Some (utf8 cp).
Proof.
  intros Hcp. unfold utf8_encode, utf8. cbn [utf8_tail]. rewrite !Z.shiftr_shiftr by lia. rewrite !continuation_byte, !Z.shiftr_div_pow2, Z.div_1_r by lia.
  change (2 ^ (6 + 6 + 6)) with 262144. change (2 ^ (6 + 6)) with 4096. change (2 ^ 6) with 64.
  bcase; [f_equal; f_equal; change 127 with (Z.ones 7); rewrite Z.land_ones by lia; apply Z.mod_small; lia|].
  bcase; [rewrite (first_byte _ 192 32); [done|by vm_compute|zlia]|].
  bcase; [rewrite (first_byte _ 224 16); [done|by vm_compute|zlia]|].
  bcase; [rewrite (first_byte _ 240 8); [done|by vm_compute|zlia]|lia].
Qed.

Lemma simple_escape_ok e x : (e, x) ∈ escapes -> simple_escape e = Some x /\ e <> 117.
Proof.
  intros He. assert (forallb (fun '(e, x) => bool_decide (simple_escape e = Some x) && negb (e =? 117)) escapes = true) as Ha by done.
  rewrite forallb_forall in Ha. specialize (Ha (e, x)). rewrite <- list_elem_of_In in Ha. specialize (Ha He). cbn in Ha.
  breflect. split; [by apply (bool_decide_eq_true _)|done].
Qed.

Lemma hex4_range h v : hex4 h v -> 0 <= v < 65536 /\ length h = 4%nat /\ Forall (fun c => c <> 34 /\ c <> 92) h.
Proof.
  assert (Hd : forall c d, hex_digit c = Some d -> 0 <= d < 16 /\ c <> 34 /\ c <> 92) by (intros c d; unfold hex_digit; repeat bcase; intros [= <-]; lia).
  intros [a b c d x y z w Ha Hb Hc Hw]. apply Hd in Ha, Hb, Hc, Hw. split; [lia|]. split; [done|]. repeat apply List.Forall_cons; try apply List.Forall_nil; lia.
Qed.

(** ** Runs that succeed

    With all the memory it asks for, [m] does not give up and returns with
    [Q] unless it is undefined behaviour (which [json_parse_memory] rules
    out for the parser as a whole). *)
Definition yields {S A : Type} (m : M S A) (s : S) (Q : A -> S -> Prop) : Prop :=
  forall st, answers st = [] ->
  match m s st with Ok a s' st' => answers st' = [] /\ Q a s' | Err _ _ => False | UB => True end.

Section yields_rules.
  Context {S : Type}.
  Implicit Types (s : S).

Lemma yields_ret {A : Type} (a : A) s (Q : A -> S -> Prop) : Q a s -> yields (ret a) s Q.
Proof. by intros HQ st Hst. Qed.

Lemma yields_bind {A B : Type} (m : M S A) (k : A -> M S B) s Q :
  yields m s (fun a s' => yields (k a) s' Q) -> yields (bind m k) s Q.
Proof.
  intros Hm st Hst. specialize (Hm st Hst). unfold bind. destruct (m s st) as [a s' st'|s' st'|]; [|done|done].
  destruct Hm as [Hst' Hk]. by apply Hk.
Qed.

Lemma yields_mono {A : Type} (m : M S A) s (P Q : A -> S -> Prop) : yields m s P -> (forall a s', P a s' -> Q a s') -> yields m s Q.
Proof. intros Hm HPQ st Hst. specialize (Hm st Hst). destruct (m s st); naive_solver. Qed.

Lemma yields_modify (f : S -> S) s (Q : unit -> S -> Prop) : Q tt (f s) -> yields (modify f) s Q.
Proof. by intros HQ st Hst. Qed.

Lemma yields_gets {A : Type} (f : S -> A) s (Q : A -> S -> Prop) : Q (f s) s -> yields (gets f) s Q.
Proof. by intros HQ st Hst. Qed.

Lemma yields_alloc s (Q : option nat -> S -> Prop) : (forall p, Q (Some p) s) -> yields alloc s Q.
Proof. intros HQ st Hst. unfold alloc. by rewrite Hst. Qed.

Lemma yields_attempt {A : Type} (m : M S A) s (Q : option A -> S -> Prop) :
  yields m s (fun a => Q (Some a)) -> yields (attempt m) s Q.
Proof. intros Hm st Hst. specialize (Hm st Hst). unfold attempt. by destruct (m s st). Qed.

Lemma yields_undefined {A : Type} s (Q : A -> S -> Prop) : yields undefined s Q.
Proof. by intros st Hst. Qed.

End yields_rules.

Ltac ystep := first [apply yields_bind | apply yields_ret | apply yields_modify | apply yields_gets].
Ltac ysteps := repeat (ystep; cbv beta).

Section parser.
  Context (content : list Z).
  Abbreviation len := (zlen content).
  Implicit Types (s : parse_buffer).

(** The text from position [p] on is [l]. *)
Definition rest (p : Z) (l : list Z) : Prop := 0 <= p /\ drop (Z.to_nat p) content = l.

Lemma rest_skip p a b : rest p (a ++ b) -> rest (p + zlen a) b.
Proof.
  intros [Hp Hl]. pose proof (zlen_nonneg a). split; [lia|]. unfold zlen. rewrite Z2Nat.inj_add, Nat2Z.id by lia.
  by rewrite <- drop_drop, Hl, drop_app_length.
Qed.

Lemma rest_next p c l : rest p (c :: l) -> rest (p + 1) l.
Proof. apply (rest_skip p [c]). Qed.

Lemma rest_length p l : rest p l -> p + zlen l = Z.max p len.
Proof. intros [Hp <-]. rewrite zlen_drop. lia. Qed.

Lemma rest_get p c l : rest p (c :: l) -> bget content p = c /\ p < len.
Proof.
  intros Hr. pose proof (rest_length p _ Hr) as Hl. rewrite zlen_cons in Hl. pose proof (zlen_nonneg l). split; [|lia].
  destruct Hr as [Hp Hd]. unfold bget. rewrite <- (Nat.add_0_r (Z.to_nat p)), <- lookup_drop, Hd. done.
Qed.

Lemma rest_segment p a b : rest p (a ++ b) -> bslice content p (zlen a) = a.
Proof.
  revert p. induction a as [|c a IH]; intros p Hr; [done|]. rewrite zlen_cons, bslice_step by (pose proof (zlen_nonneg a); lia).
  replace (1 + zlen a - 1) with (zlen a) by lia. destruct (rest_get p c (a ++ b)) as [-> _]; [done|]. by rewrite (IH (p + 1)) by (by eapply rest_next).
Qed.

Lemma yields_byte_at p s (Q : Z -> parse_buffer -> Prop) : Q (bget content p) s -> yields (byte_at content p) s Q.
Proof. intros HQ st Hst. unfold byte_at. by bcase. Qed.

Lemma yields_peek c l s (Q : Z -> parse_buffer -> Prop) : rest (offset s) (c :: l) -> Q c s -> yields (peek content) s Q.
Proof. intros Hr HQ. unfold peek. ysteps. apply yields_byte_at. by destruct (rest_get _ _ _ Hr) as [-> _]. Qed.

Lemma yields_looking_at c c' l s (Q : bool -> parse_buffer -> Prop) :
  rest (offset s) (c' :: l) -> Q (c' =? c) s -> yields (looking_at content c) s Q.
Proof.
  intros Hr HQ. unfold looking_at, can_access. ysteps. destruct (rest_get _ _ _ Hr) as [_ Hl].
  rewrite Z.add_0_r, (proj2 (Z.ltb_lt _ _) Hl). ystep. by apply (yields_peek c' l); [|apply yields_ret].
Qed.

(** *** White space *)

Definition at_white (l : list Z) : Prop := Forall (fun b => b <= 32) l.

Lemma ws_white w : ws w -> at_white w.
Proof. apply Forall_impl. unfold white. lia. Qed.

Lemma white_end_stop fuel p w c l :
  rest p (w ++ c :: l) -> at_white w -> 32 < c -> (length w <= fuel)%nat -> white_end content fuel p = p + zlen w.
Proof.
  revert p w. induction fuel as [|fuel IH]; intros p w Hr Hw Hc Hf; [destruct w; [rewrite zlen_nil; cbn; lia|cbn in Hf; lia]|].
  cbn [white_end]. destruct w as [|b w].
  - destruct (rest_get _ _ _ Hr) as [-> _]. bcase; [lia|]. rewrite zlen_nil. lia.
  - destruct (rest_get _ _ _ Hr) as [-> Hl]. inversion Hw as [|?? Hb Hw']; subst.
    rewrite (proj2 (Z.ltb_lt _ _) Hl), (proj2 (Z.leb_le _ _) Hb). cbn [andb]. rewrite (IH (p + 1) w); [rewrite zlen_cons; lia|..]; try done.
    + by eapply rest_next.
    + cbn in Hf. lia.
Qed.

Lemma white_end_all fuel p l : rest p l -> at_white l -> (length l <= fuel)%nat -> p <= len -> white_end content fuel p = len.
Proof.
  revert p l. induction fuel as [|fuel IH]; intros p l Hr Hw Hf Hp; pose proof (rest_length _ _ Hr) as Hl; cbn [white_end].
  - destruct l; [rewrite zlen_nil in Hl; lia|cbn in Hf; lia].
  - destruct l as [|b l]; [rewrite zlen_nil in Hl; bcase; [lia|lia]|]. destruct (rest_get _ _ _ Hr) as [-> Hlt].
    inversion Hw as [|?? Hb Hw']; subst. rewrite (proj2 (Z.ltb_lt _ _) Hlt), (proj2 (Z.leb_le _ _) Hb). cbn [andb].
    apply (IH (p + 1) l); [by eapply rest_next|done|cbn in Hf; lia|lia].
Qed.

Lemma rest_fits p l : rest p l -> (length l <= length content)%nat.
Proof. intros [_ <-]. rewrite length_drop. lia. Qed.

Lemma yields_skip w c l s (Q : unit -> parse_buffer -> Prop) :
  rest (offset s) (w ++ c :: l) -> ws w -> 32 < c ->
  (rest (offset s + zlen w) (c :: l) -> Q tt (ParseBuffer (offset s + zlen w) (depth s))) ->
  yields (buffer_skip_whitespace content) s Q.
Proof.
  intros Hr Hw Hc HQ. unfold buffer_skip_whitespace, can_access. ysteps. pose proof (rest_skip _ _ _ Hr) as Hr'.
  destruct (rest_get _ _ _ Hr') as [_ Hl]. pose proof (zlen_nonneg w). rewrite Z.add_0_r. bcase; [|lia].
  rewrite (white_end_stop _ _ w c l); [bcase; [lia|by apply HQ]|done|by apply ws_white|done|].
  apply rest_fits in Hr. rewrite length_app in Hr. lia.
Qed.

(** *** Literals *)

Lemma yields_literal_hit text l s (Q : bool -> parse_buffer -> Prop) :
  rest (offset s) (text ++ l) -> text <> [] -> Q true s -> yields (literal_at content text) s Q.
Proof.
  intros Hr Hn HQ st Hst. unfold literal_at, can_read, bread. pose proof (rest_length _ _ Hr) as Hl. rewrite zlen_app in Hl.
  rewrite (rest_segment _ _ _ Hr).
  pose proof (zlen_nonneg l). assert (0 < zlen text) by (destruct text; [done|]; rewrite zlen_cons; pose proof (zlen_nonneg text); lia).
  bcase; [|lia]. bcase; [|done]. by rewrite bool_decide_eq_true_2.
Qed.

Lemma yields_literal_miss c l d text s (Q : bool -> parse_buffer -> Prop) :
  rest (offset s) (c :: l) -> c <> d -> Q false s -> yields (literal_at content (d :: text)) s Q.
Proof.
  intros Hr Hn HQ st Hst. unfold literal_at, can_read, bread. destruct (rest_get _ _ _ Hr) as [Hc _].
  rewrite zlen_cons, bslice_step, Hc by (pose proof (zlen_nonneg text); lia).
  repeat bcase; try done. rewrite bool_decide_eq_false_2; [done|]. by intros [= ? ?].
Qed.

(** *** Numbers *)

Definition no_number (l : list Z) : Prop := match l with c :: _ => number_char c = false | [] => True end.

Lemma number_chars_all n p t l :
  rest p (t ++ l) -> Forall (fun c => number_char c = true) t -> no_number l -> (length t <= n)%nat ->
  number_chars content n p = t.
Proof.
  revert p t. induction n as [|n IH]; intros p t Hr Ht Hl Hn; cbn [number_chars]; [destruct t; [done|cbn in Hn; lia]|].
  destruct t as [|c t].
  - destruct l as [|c l]; [|destruct (rest_get _ _ _ Hr) as [-> _]; cbn in Hl; by rewrite Hl, andb_false_r].
    apply rest_length in Hr. change (zlen ([] ++ [])) with 0 in Hr. bcase; [lia|done].
  - destruct (rest_get _ _ _ Hr) as [-> Hlt]. inversion Ht as [|?? Hc Ht']; subst.
    rewrite (proj2 (Z.ltb_lt _ _) Hlt), Hc. cbn [andb]. rewrite (IH (p + 1) t); [done|by eapply rest_next|done|done|cbn in Hn; lia].
Qed.

End parser.

Lemma digits_number_chars l : digits l -> Forall (fun c => number_char c = true) l.
Proof. apply Forall_impl. intros c Hc. unfold number_char. by rewrite Hc. Qed.

Lemma number_text_chars x : number_ok x -> Forall (fun c => number_char c = true) (number_text x).
Proof.
  destruct x as [neg ip f e]. intros (Hi & _ & Hf & He). unfold number_text. cbn [n_neg n_int n_frac n_exp] in *.
  repeat apply Forall_app_2.
  - destruct neg; by repeat constructor.
  - by apply digits_number_chars.
  - destruct f as [f|]; [|constructor]. destruct Hf. constructor; [done|by apply digits_number_chars].
  - destruct e as [[[up sg] e]|]; [|constructor]. destruct He as (Hs & He & _). cbn [exp_text]. constructor; [by destruct up|].
    apply Forall_app_2; [|by apply digits_number_chars]. destruct Hs as [-> | [-> | ->]]; by repeat constructor.
Qed.

Lemma number_text_start x : number_ok x -> exists c t, number_text x = c :: t /\ number_start c = true.
Proof.
  destruct x as [[|] ip f e]; intros (Hi & Hn & _); unfold number_text; cbn [n_neg n_int n_frac n_exp] in *; [by eexists 45, _|].
  destruct ip as [|c ip]; [done|]. inversion Hi as [|?? Hc _]; subst. eexists c, _. split; [done|]. unfold number_start. by rewrite Hc, orb_true_r.
Qed.

(** The value of the fields of an item. *)
Definition filled_json (f : filled) : cJSON := to_json (mk_item 0 None f).

Lemma to_json_mk self name f : to_json (mk_item self name f) = filled_json f.
Proof. done. Qed.

Section strings.
  Context (content : list Z).
  Implicit Types (s : parse_buffer).
  Abbreviation rest := (rest content).

Lemma rest_move p q l : rest p l -> p = q -> rest q l.
Proof. by intros Hr <-. Qed.

(** *** Strings *)

(** The first pass goes over characters that are neither quotes nor
    backslashes. *)
Lemma string_end_plain fuel p k a l s (Q : option (Z * Z) -> parse_buffer -> Prop) :
  rest p (a ++ l) -> Forall (fun c => c <> 34 /\ c <> 92) a ->
  (forall fuel', yields (string_end content fuel' (p + zlen a) k) s Q) ->
  yields (string_end content fuel p k) s Q.
Proof.
  intros Hr Ha HQ. revert fuel p Hr HQ. induction Ha as [|c a [Hc1 Hc2] _ IH]; intros fuel p Hr HQ.
  - specialize (HQ fuel). by rewrite zlen_nil, Z.add_0_r in HQ.
  - destruct fuel as [|fuel]; [apply yields_undefined|]. cbn [string_end]. destruct (rest_get _ _ _ _ Hr) as [Hb Hl].
    rewrite (proj2 (Z.ltb_lt _ _) Hl). ystep. apply yields_byte_at. rewrite Hb.
    rewrite (proj2 (Z.eqb_neq _ _) Hc1), (proj2 (Z.eqb_neq _ _) Hc2).
    apply IH; [by eapply rest_next|]. intros fuel'. specialize (HQ fuel'). rewrite zlen_cons in HQ.
    by replace (p + 1 + zlen a) with (p + (1 + zlen a)) by lia.
Qed.

(** An escape takes two characters. *)
Lemma string_end_escape fuel p k c l s (Q : option (Z * Z) -> parse_buffer -> Prop) :
  rest p (92 :: c :: l) -> (forall fuel', yields (string_end content fuel' (p + 2) (k + 1)) s Q) ->
  yields (string_end content fuel p k) s Q.
Proof.
  intros Hr HQ. destruct fuel as [|fuel]; [apply yields_undefined|]. cbn [string_end].
  destruct (rest_get _ _ _ _ Hr) as [Hb Hl]. destruct (rest_get _ _ _ _ (rest_next _ _ _ _ Hr)) as [_ Hl2].
  rewrite (proj2 (Z.ltb_lt _ _) Hl). ystep. apply yields_byte_at. rewrite Hb. cbn beta iota.
  change (92 =? 34) with false. change (92 =? 92) with true. cbn beta iota. bcase; [lia|]. apply HQ.
Qed.

Lemma string_end_chars t b : str_chars t b -> forall fuel p k l s (Q : option (Z * Z) -> parse_buffer -> Prop),
  rest p (t ++ 34 :: l) -> (forall k', Q (Some (p + zlen t, k')) s) -> yields (string_end content fuel p k) s Q.
Proof.
  induction 1 as [|c t b Hc H34 H92 _ IH|e x t b He _ IH|h v t b Hh Hv _ IH|h1 v1 h2 v2 t b Hh1 Hv1 Hh2 Hv2 _ IH];
    intros fuel p k l s Q Hr HQ.
  - rewrite zlen_nil, Z.add_0_r in HQ. destruct fuel as [|fuel]; [apply yields_undefined|]. cbn [string_end].
    destruct (rest_get _ _ _ _ Hr) as [Hb Hl]. rewrite (proj2 (Z.ltb_lt _ _) Hl). ystep. apply yields_byte_at. rewrite Hb.
    by apply yields_ret.
  - apply (string_end_plain _ _ _ [c] (t ++ 34 :: l)); [done|by repeat constructor|]. intros fuel'.
    apply (IH _ _ _ l); [by apply (rest_skip _ _ [c])|]. intros k'. specialize (HQ k'). rewrite zlen_cons in HQ.
    change (zlen [c]) with 1. by replace (p + 1 + zlen t) with (p + (1 + zlen t)) by lia.
  - eapply string_end_escape; [exact Hr|]. intros fuel'. apply (IH _ _ _ l); [by apply (rest_skip _ _ [92; e])|].
    intros k'. specialize (HQ k'). rewrite !zlen_cons in HQ. by replace (p + 2 + zlen t) with (p + (1 + (1 + zlen t))) by lia.
  - destruct (hex4_range _ _ Hh) as (_ & Hl4 & Hp). assert (zlen h = 4) as Hz by (unfold zlen; lia).
    eapply string_end_escape; [exact Hr|]. intros fuel'. cbn [app] in Hr. rewrite <- app_assoc in Hr.
    apply (string_end_plain _ _ _ h (t ++ 34 :: l)); [by apply (rest_skip _ _ [92; 117])|done|]. intros fuel2.
    apply (IH _ _ _ l); [by apply rest_skip, (rest_skip _ _ [92; 117])|]. intros k'. specialize (HQ k').
    rewrite !zlen_cons, zlen_app, Hz in HQ. rewrite Hz. by replace (p + 2 + 4 + zlen t) with (p + (1 + (1 + (4 + zlen t)))) by lia.
  - destruct (hex4_range _ _ Hh1) as (_ & Hl4 & Hp). assert (zlen h1 = 4) as Hz by (unfold zlen; lia).
    destruct (hex4_range _ _ Hh2) as (_ & Hl5 & Hp2). assert (zlen h2 = 4) as Hz2 by (unfold zlen; lia).
    eapply string_end_escape; [exact Hr|]. intros fuel'. cbn [app] in Hr. rewrite <- app_assoc in Hr. cbn [app] in Hr. rewrite <- app_assoc in Hr.
    apply (string_end_plain _ _ _ h1 (92 :: 117 :: h2 ++ t ++ 34 :: l)); [by apply (rest_skip _ _ [92; 117])|done|]. intros fuel2.
    assert (rest (p + 2 + zlen h1) (92 :: 117 :: h2 ++ t ++ 34 :: l)) as Hr2 by (by apply rest_skip, (rest_skip _ _ [92; 117])).
    eapply string_end_escape; [exact Hr2|]. intros fuel3.
    apply (string_end_plain _ _ _ h2 (t ++ 34 :: l)); [by apply (rest_skip _ _ [92; 117])|done|]. intros fuel4.
    apply (IH _ _ _ l); [by apply rest_skip, (rest_skip _ _ [92; 117])|]. intros k'. specialize (HQ k').
    rewrite !zlen_cons, zlen_app, !zlen_cons, zlen_app, Hz, Hz2 in HQ. rewrite Hz, Hz2.
    by replace (p + 2 + 4 + 2 + 4 + zlen t) with (p + (1 + (1 + (4 + (1 + (1 + (4 + zlen t))))))) by lia.
Qed.

Lemma yields_hex4 h v p l s (Q : Z -> parse_buffer -> Prop) :
  hex4 h v -> rest p (h ++ l) -> Q v s -> yields (parse_hex4 content 4 p 0) s Q.
Proof.
  intros Hh Hr HQ. destruct Hh as [a b c d x y z w Ha Hb Hc Hw]. cbn [app] in Hr.
  pose proof (rest_next _ _ _ _ Hr) as Hr1. pose proof (rest_next _ _ _ _ Hr1) as Hr2. pose proof (rest_next _ _ _ _ Hr2) as Hr3.
  destruct (hex_digit_range _ _ Ha), (hex_digit_range _ _ Hb), (hex_digit_range _ _ Hc), (hex_digit_range _ _ Hw).
  cbn [parse_hex4].
  ystep. apply yields_byte_at. destruct (rest_get _ _ _ _ Hr) as [-> _]. rewrite Ha.
  ystep. apply yields_byte_at. destruct (rest_get _ _ _ _ Hr1) as [-> _]. rewrite Hb.
  ystep. apply yields_byte_at. destruct (rest_get _ _ _ _ Hr2) as [-> _]. rewrite Hc.
  ystep. apply yields_byte_at. destruct (rest_get _ _ _ _ Hr3) as [-> _]. rewrite Hw.
  apply yields_ret. rewrite !Z.shiftl_mul_pow2 by lia. change (2 ^ 4) with 16.
  repeat match goal with |- context [u32 ?e] => lazymatch e with context [u32 _] => fail | _ => rewrite (u32_small e) by lia end end.
  by replace ((((0 + x) * 16 + y) * 16 + z) * 16 + w) with (((x * 16 + y) * 16 + z) * 16 + w) by lia.
Qed.

(** One step of the second pass. *)
Lemma unescape_step bytes n fuel p e cap out s (Q : Z + list Z -> parse_buffer -> Prop) :
  p < e -> yields (unescape_one content p e) s (fun r s' => r = Some (bytes, n) /\ s' = s) ->
  (forall fuel', yields (unescape content fuel' (p + n) e cap (out ++ bytes)) s Q) ->
  yields (unescape content fuel p e cap out) s Q.
Proof.
  intros Hp H1 HQ. destruct fuel as [|fuel]; [apply yields_undefined|]. cbn [unescape]. bcase; [|lia]. ystep.
  eapply yields_mono; [exact H1|]. intros r s' [-> ->]. bcase; [apply HQ|apply yields_undefined].
Qed.

Lemma unescape_plain c l p e s : rest p (c :: l) -> c <> 92 ->
  yields (unescape_one content p e) s (fun r s' => r = Some ([c], 1) /\ s' = s).
Proof.
  intros Hr Hc. unfold unescape_one. ystep. apply yields_byte_at. destruct (rest_get _ _ _ _ Hr) as [-> _].
  rewrite (proj2 (Z.eqb_neq _ _) Hc). by apply yields_ret.
Qed.

Lemma unescape_simple c x l p e s : rest p (92 :: c :: l) -> (c, x) ∈ escapes -> p < e ->
  yields (unescape_one content p e) s (fun r s' => r = Some ([x], 2) /\ s' = s).
Proof.
  intros Hr Hc Hp. unfold unescape_one. ystep. apply yields_byte_at. destruct (rest_get _ _ _ _ Hr) as [-> _].
  cbn [negb]. change (negb (92 =? 92)) with false. cbn beta iota. bcase; [lia|]. ystep. apply yields_byte_at.
  destruct (rest_get _ _ _ _ (rest_next _ _ _ _ Hr)) as [-> _]. apply simple_escape_ok in Hc as [Hc Hu].
  rewrite (proj2 (Z.eqb_neq _ _) Hu), Hc. by apply yields_ret.
Qed.

(** A literal with its code point. *)
Lemma unescape_unicode cp n l p e s :
  rest p (92 :: 117 :: l) -> p < e -> 0 <= cp <= 1114111 ->
  yields (utf16_codepoint content p e) s (fun r s' => r = Some (cp, n) /\ s' = s) ->
  yields (unescape_one content p e) s (fun r s' => r = Some (utf8 cp, n) /\ s' = s).
Proof.
  intros Hr Hp Hcp Hu. unfold unescape_one. ystep. apply yields_byte_at. destruct (rest_get _ _ _ _ Hr) as [-> _].
  change (negb (92 =? 92)) with false. cbn beta iota. bcase; [lia|]. ystep. apply yields_byte_at.
  destruct (rest_get _ _ _ _ (rest_next _ _ _ _ Hr)) as [-> _]. change (117 =? 117) with true. cbn beta iota.
  unfold utf16_literal_to_utf8. ystep. eapply yields_mono; [exact Hu|]. intros r s' [-> ->]. apply yields_ret. by rewrite utf8_encode_ok.
Qed.

Lemma utf16_single h v l p e s :
  hex4 h v -> ~ surrogate v -> rest p (92 :: 117 :: h ++ l) -> p + 6 <= e ->
  yields (utf16_codepoint content p e) s (fun r s' => r = Some (v, 6) /\ s' = s).
Proof.
  intros Hh Hv Hr He. unfold surrogate in Hv. unfold utf16_codepoint. bcase; [lia|]. ystep.
  eapply (yields_hex4 h v _ l); [done|by apply (rest_skip _ _ [92; 117])|]. bcase; [lia|]. bcase; [lia|]. by apply yields_ret.
Qed.

Lemma utf16_pair h1 v1 h2 v2 l p e s :
  hex4 h1 v1 -> 55296 <= v1 < 56320 -> hex4 h2 v2 -> 56320 <= v2 < 57344 ->
  rest p (92 :: 117 :: h1 ++ 92 :: 117 :: h2 ++ l) -> p + 12 <= e ->
  yields (utf16_codepoint content p e) s
    (fun r s' => r = Some (65536 + (v1 - 55296) * 1024 + (v2 - 56320), 12) /\ s' = s).
Proof.
  intros Hh1 Hv1 Hh2 Hv2 Hr He. unfold utf16_codepoint. bcase; [lia|]. ystep.
  assert (rest (p + 6) (92 :: 117 :: h2 ++ l)) as Hr2.
  { destruct (hex4_range _ _ Hh1) as (_ & Hl & _). assert (zlen h1 = 4) as Hz by (unfold zlen; lia).
    pose proof (rest_skip _ _ [92; 117] _ Hr) as Hr1. apply rest_skip in Hr1. eapply rest_move; [exact Hr1|]. rewrite Hz. change (zlen [92; 117]) with 2. lia. }
  eapply (yields_hex4 h1 v1 _ (92 :: 117 :: h2 ++ l)); [done|by apply (rest_skip _ _ [92; 117])|]. bcase; [lia|]. bcase; [|lia]. bcase; [lia|].
  ystep. apply yields_byte_at. destruct (rest_get _ _ _ _ Hr2) as [-> _]. change (92 =? 92) with true. cbn beta iota.
  ystep. apply yields_byte_at. destruct (rest_get _ _ _ _ (rest_next _ _ _ _ Hr2)) as [-> _]. cbn [negb orb].
  change (117 =? 117) with true. cbn [negb]. cbn beta iota. ystep.
  eapply (yields_hex4 h2 v2 _ l); [done|by apply (rest_skip _ _ [92; 117])|]. bcase; [lia|]. apply yields_ret. split; [|done].
  do 2 f_equal. change 1023 with (Z.ones 10). rewrite !Z.land_ones by lia. change (2 ^ 10) with 1024.
  rewrite lor_low by (change (2 ^ 10) with 1024; zlia). change (2 ^ 10) with 1024.
  replace (v1 mod 1024) with (v1 - 55296) by zlia. replace (v2 mod 1024) with (v2 - 56320) by zlia. lia.
Qed.

Lemma unescape_chars t b : str_chars t b -> forall fuel p e cap out l s (Q : Z + list Z -> parse_buffer -> Prop),
  rest p (t ++ 34 :: l) -> e = p + zlen t -> Q (inr (out ++ b)) s -> yields (unescape content fuel p e cap out) s Q.
Proof.
  induction 1 as [|c t b Hc H34 H92 _ IH|x y t b He _ IH|h v t b Hh Hv _ IH|h1 v1 h2 v2 t b Hh1 Hv1 Hh2 Hv2 _ IH];
    intros fuel p e cap out l s Q Hr -> HQ.
  - rewrite zlen_nil. destruct fuel as [|fuel]; [apply yields_undefined|]. cbn [unescape]. bcase; [lia|].
    bcase; [|apply yields_undefined]. apply yields_ret. by rewrite app_nil_r in HQ.
  - rewrite zlen_cons. pose proof (zlen_nonneg t). eapply unescape_step; [lia|by eapply unescape_plain|]. intros fuel'.
    apply (IH _ _ _ _ _ l); [by eapply rest_next|lia|]. by rewrite <- app_assoc.
  - rewrite !zlen_cons. pose proof (zlen_nonneg t). cbn [app] in Hr. eapply unescape_step; [lia|eapply unescape_simple; [exact Hr|exact He|lia]|]. intros fuel'.
    apply (IH _ _ _ _ _ l); [by apply (rest_skip _ _ [92; x])|lia|]. by rewrite <- app_assoc.
  - destruct (hex4_range _ _ Hh) as (Hvr & Hl4 & _). assert (zlen h = 4) as Hz by (unfold zlen; lia).
    rewrite !zlen_cons, zlen_app, Hz. pose proof (zlen_nonneg t). cbn [app] in Hr. rewrite <- app_assoc in Hr.
    eapply unescape_step; [lia|eapply (unescape_unicode v 6); [exact Hr|lia|lia|eapply utf16_single; [exact Hh|exact Hv|exact Hr|lia]]|]. intros fuel'.
    apply (IH _ _ _ _ _ l); [|lia|by rewrite <- app_assoc].
    pose proof (rest_skip _ _ [92; 117] _ Hr) as Hr1. apply rest_skip in Hr1. eapply rest_move; [exact Hr1|]. rewrite Hz. change (zlen [92; 117]) with 2. lia.
  - destruct (hex4_range _ _ Hh1) as (_ & Hl4 & _). assert (zlen h1 = 4) as Hz by (unfold zlen; lia).
    destruct (hex4_range _ _ Hh2) as (_ & Hl5 & _). assert (zlen h2 = 4) as Hz2 by (unfold zlen; lia).
    rewrite !zlen_cons, zlen_app, !zlen_cons, zlen_app, Hz, Hz2. pose proof (zlen_nonneg t).
    cbn [app] in Hr. rewrite <- app_assoc in Hr. cbn [app] in Hr. rewrite <- app_assoc in Hr.
    eapply unescape_step; [lia|eapply (unescape_unicode (65536 + (v1 - 55296) * 1024 + (v2 - 56320)) 12); [exact Hr|lia|lia|by eapply (utf16_pair h1 v1 h2 v2); [..|exact Hr|lia]]|]. intros fuel'.
    apply (IH _ _ _ _ _ l); [|lia|by rewrite <- app_assoc].
    pose proof (rest_skip _ _ [92; 117] _ Hr) as Hr1. apply rest_skip in Hr1. apply (rest_skip _ _ [92; 117]) in Hr1. apply rest_skip in Hr1.
    eapply rest_move; [exact Hr1|]. rewrite Hz, Hz2. change (zlen [92; 117]) with 2. lia.
Qed.

Lemma parse_string_yields t b l s (Q : cstr -> parse_buffer -> Prop) :
  str_chars t b -> rest (offset s) (quoted t ++ l) ->
  (forall c, chars c = text_of b -> Q c (ParseBuffer (offset s + zlen (quoted t)) (depth s))) ->
  yields (parse_string content) s Q.
Proof.
  intros Ht Hr HQ. unfold quoted in *. cbn [app] in Hr. rewrite <- app_assoc in Hr. cbn [app] in Hr. pose proof (rest_next _ _ _ _ Hr) as Hr1.
  unfold parse_string. do 2 ystep. ystep. apply (yields_peek _ 34 (t ++ 34 :: l)); [done|]. change (negb (34 =? 34)) with false. cbn beta iota.
  ystep. eapply string_end_chars; [exact Ht|exact Hr1|]. intros k. ystep. apply yields_alloc. intros o. ystep.
  eapply unescape_chars; [exact Ht|exact Hr1|done|]. cbn [app]. do 3 ystep.
  specialize (HQ (CStr o (text_of b)) eq_refl). rewrite zlen_cons, zlen_app in HQ. change (zlen [34]) with 1 in HQ.
  by replace (offset s + 1 + zlen t + 1) with (offset s + (1 + (zlen t + 1))) by lia.
Qed.

End strings.

(** *** Values *)

(** A value starts with a character that is no white space and no bracket
    that closes an array. *)
Lemma json_text_start n t v : json_text n t v -> exists c t', t = c :: t' /\ 32 < c < 128 /\ c <> 93.
Proof.
  destruct 1 as [| | |n x Hx _|n t b _| | | |]; try (eexists _, _; split; [reflexivity|lia]).
  destruct (number_text_start x Hx) as (c & t & -> & Hc). exists c, t. split; [done|].
  unfold number_start in Hc. destruct (Z.eqb_spec c 45) as [->|_]; [lia|]. cbn in Hc. apply is_digit_range in Hc. lia.
Qed.

Section values.
  Context (content : list Z).
  Implicit Types (s : parse_buffer).
  Abbreviation rest := (rest content).

Lemma after_close close w l again head s (Q : list item -> parse_buffer -> Prop) :
  rest (offset s) (w ++ close :: l) -> ws w -> 32 < close -> close <> 44 ->
  Q head (ParseBuffer (offset s + zlen w) (depth s)) -> yields (after_element content close again head) s Q.
Proof.
  intros Hr Hw Hc H44 HQ. unfold after_element. ystep. eapply (yields_skip _ w close l); [done..|]. intros Hr1.
  ystep. eapply (yields_looking_at _ 44 close l); [done|]. rewrite (proj2 (Z.eqb_neq _ _) H44). ystep.
  eapply (yields_looking_at _ close close l); [done|]. rewrite Z.eqb_refl. by apply yields_ret.
Qed.

Lemma after_comma close w l again head s (Q : list item -> parse_buffer -> Prop) :
  rest (offset s) (w ++ 44 :: l) -> ws w ->
  yields again (ParseBuffer (offset s + zlen w) (depth s)) Q -> yields (after_element content close again head) s Q.
Proof.
  intros Hr Hw HQ. unfold after_element. ystep. eapply (yields_skip _ w 44 l); [done|done|lia|]. intros Hr1.
  ystep. by eapply (yields_looking_at _ 44 44 l).
Qed.

Definition level (s : parse_buffer) (n : nat) : Prop := depth s + Z.of_nat n <= CJSON_NESTING_LIMIT.

(** What is shown of a value, of elements and of members. *)
Definition reads_value (n : nat) (t : list Z) (v : cJSON) : Prop :=
  forall fuel s l, rest (offset s) (t ++ l) -> no_number l -> level s n ->
  yields (parse_value content fuel) s
    (fun f s' => s' = ParseBuffer (offset s + zlen t) (depth s) /\ filled_json f = v).

(** The space in front of the first one may be skipped beforehand. *)
Definition reads_list (close first : Z -> Prop) {A : Type} (view : item -> A)
    (loop : M parse_buffer filled -> nat -> list item -> M parse_buffer (list item)) (n : nat) (t : list Z) (vs : list A) : Prop :=
  exists w0 c t0, t = w0 ++ c :: t0 /\ ws w0 /\ 32 < c /\ first c /\
  forall w fuel fuel2 s head b l, close b -> ws w -> rest (offset s + 1) (w ++ c :: t0 ++ b :: l) -> level s n ->
  yields (loop (parse_value content fuel2) fuel head) s
    (fun items s' => s' = ParseBuffer (offset s + 1 + zlen (w ++ c :: t0)) (depth s) /\ map view items = map view head ++ vs).

Definition reads_elements := reads_list (eq 93) (fun c => c <> 93) to_json (array_loop content).
Definition reads_members := reads_list (eq 125) (eq 34) (fun c => (item_name c, to_json c)) (object_loop content).

Lemma no_number_ws w c l : ws w -> number_char c = false -> no_number (w ++ c :: l).
Proof.
  intros Hw Hc. destruct w as [|b w]; [done|]. inversion Hw as [|?? Hb _]; subst. cbn. unfold white in Hb.
  destruct Hb as [-> | [-> | [-> | ->]]]; done.
Qed.

(** One element: then [k] goes on behind it. *)
Lemma yields_element t v n w fuel2 s l (Q : list item -> parse_buffer -> Prop) k :
  json_text n t v -> reads_value n t v -> ws w -> rest (offset s + 1) (w ++ t ++ l) -> no_number l -> level s n ->
  (forall f, filled_json f = v -> yields (k (Some f)) (ParseBuffer (offset s + 1 + zlen w + zlen t) (depth s)) Q) ->
  yields (advance 1;; buffer_skip_whitespace content;; do r <- attempt (parse_value content fuel2); k r) s Q.
Proof.
  intros Ht HP Hw Hr Hn Hl Hk. destruct (json_text_start _ _ _ Ht) as (c & t' & Et & [Hc _] & _).
  do 2 ystep. ystep. eapply (yields_skip _ w c (t' ++ l)); [by rewrite Et in Hr|done|done|]. cbn [offset depth]. intros Hr1.
  ystep. apply yields_attempt. eapply yields_mono; [apply (HP fuel2 _ l); [cbn [offset]|done|done]|].
  - by apply (rest_skip _ _ w) in Hr.
  - intros f s' [-> Hf]. cbn [offset depth]. by apply Hk.
Qed.

Lemma map_snoc {A : Type} (view : item -> A) head i v : view i = v -> map view (head ++ [i]) = map view head ++ [v].
Proof. intros <-. by rewrite List.map_app. Qed.

Lemma elements_last n w1 t v w2 :
  ws w1 -> json_text n t v -> reads_value n t v -> ws w2 -> reads_elements n (w1 ++ t ++ w2) [v].
Proof.
  intros Hw1 Ht HP Hw2. destruct (json_text_start _ _ _ Ht) as (c & t' & Et & [Hc _] & H93).
  exists w1, c, (t' ++ w2). rewrite Et. split; [done|]. split; [done|]. split; [done|]. split; [done|].
  intros w fuel fuel2 s head b l <- Hw Hr Hl.
  replace (c :: (t' ++ w2) ++ 93 :: l) with (t ++ w2 ++ 93 :: l) in Hr by (rewrite Et; cbn; by rewrite <- !app_assoc).
  rewrite app_comm_cons, <- Et.
  destruct fuel as [|fuel]; [apply yields_undefined|]. cbn [array_loop]. ystep. apply yields_alloc. intros self. cbv beta iota.
  eapply (yields_element t v n w); [done|done|done|exact Hr|by apply no_number_ws|done|]. intros f Hf. cbv beta iota zeta.
  eapply (after_close _ w2 l); [|done|lia|lia|].
  - cbn [offset]. rewrite app_assoc in Hr. apply rest_skip in Hr. rewrite zlen_app in Hr. by rewrite Z.add_assoc in Hr.
  - cbn [offset depth]. split; [f_equal; rewrite !zlen_app; lia|by apply map_snoc].
Qed.

Lemma elements_next n w1 t v w2 ts vs :
  ws w1 -> json_text n t v -> reads_value n t v -> ws w2 -> reads_elements n ts vs ->
  reads_elements n (w1 ++ t ++ w2 ++ 44 :: ts) (v :: vs).
Proof.
  intros Hw1 Ht HP Hw2 (w0 & c2 & t2 & Ets & Hw0 & Hc2 & _ & HQ).
  destruct (json_text_start _ _ _ Ht) as (c & t' & Et & [Hc _] & H93).
  exists w1, c, (t' ++ w2 ++ 44 :: ts). rewrite Et. split; [done|]. split; [done|]. split; [done|]. split; [done|].
  intros w fuel fuel2 s head b l Hb Hw Hr Hl.
  replace (c :: (t' ++ w2 ++ 44 :: ts) ++ b :: l) with (t ++ w2 ++ 44 :: ts ++ b :: l) in Hr
    by (rewrite Et; cbn; by rewrite <- !app_assoc).
  rewrite app_comm_cons, <- Et.
  destruct fuel as [|fuel]; [apply yields_undefined|]. cbn [array_loop]. ystep. apply yields_alloc. intros self. cbv beta iota.
  eapply (yields_element t v n w); [done|done|done|exact Hr|by apply no_number_ws|done|]. intros f Hf. cbv beta iota zeta.
  rewrite app_assoc in Hr. apply rest_skip in Hr. rewrite zlen_app, Z.add_assoc in Hr.
  eapply (after_comma _ w2); [cbn [offset]; exact Hr|done|]. cbn [offset depth].
  rewrite app_comm_cons, app_assoc, Ets in Hr.
  eapply yields_mono; [eapply (HQ w0 fuel fuel2 _ _ b l Hb Hw0); [|done]|].
  - cbn [offset]. eapply rest_move; [rewrite <- !app_assoc in Hr; cbn [app] in Hr; apply rest_skip in Hr; apply rest_next in Hr|].
    + rewrite <- app_assoc in Hr. exact Hr.
    + lia.
  - cbn [offset depth]. intros items s' [-> Hm]. split.
    + f_equal. rewrite Ets. rewrite ?zlen_app, ?zlen_cons, ?zlen_app, ?zlen_cons. lia.
    + rewrite Hm, (map_snoc _ _ _ v) by done. by rewrite <- app_assoc.
Qed.

(** One turn of the loop over the members. *)
Lemma member_step k kb t v n w w2 w3 fuel fuel2 head s l (Q : list item -> parse_buffer -> Prop) :
  str_chars k kb -> json_text n t v -> reads_value n t v -> ws w -> ws w2 -> ws w3 ->
  rest (offset s + 1) (w ++ quoted k ++ w2 ++ 58 :: w3 ++ t ++ l) -> no_number l -> level s n ->
  (forall self name f, chars name = text_of kb -> filled_json f = v ->
     let head := head ++ [mk_item self (Some name) f] in
     yields (after_element content 125 (object_loop content (parse_value content fuel2) fuel head) head)
       (ParseBuffer (offset s + 1 + zlen (w ++ quoted k ++ w2 ++ 58 :: w3 ++ t)) (depth s)) Q) ->
  yields (object_loop content (parse_value content fuel2) (Datatypes.S fuel) head) s Q.
Proof.
  intros Hk Ht HP Hw Hw2 Hw3 Hr Hn Hl HQ. cbn [object_loop]. ystep. apply yields_alloc. intros self. cbv beta iota.
  destruct (json_text_start _ _ _ Ht) as (c & t' & Et & [Hc _] & _).
  pose proof (rest_skip _ _ _ _ Hr) as Hrk. pose proof (rest_skip _ _ _ _ Hrk) as Hr2. pose proof (rest_skip _ _ _ _ Hr2) as Hr3.
  do 2 ystep. unfold can_access. destruct (rest_get _ _ _ _ Hrk) as [_ Hlt]. pose proof (zlen_nonneg w). bcase; [lia|]. cbn [negb].
  do 2 ystep. ystep. eapply (yields_skip _ w 34 _); [cbn [offset]; exact Hr|done|lia|]. cbn [offset depth]. intros _. ystep. apply yields_attempt.
  eapply parse_string_yields; [exact Hk|cbn [offset]; exact Hrk|]. cbn [offset depth]. intros name Hname.
  ystep. eapply (yields_skip _ w2 58); [cbn [offset]; exact Hr2|done|lia|]. cbn [offset depth]. intros _.
  ystep. eapply (yields_looking_at _ 58 58); [cbn [offset]; exact Hr3|]. change (negb (58 =? 58)) with false. cbn beta iota.
  do 2 ystep. apply rest_next in Hr3. cbn [offset depth] in *.
  ystep. eapply (yields_skip _ w3 c (t' ++ l)); [cbn [offset]; by rewrite Et in Hr3|done|done|]. cbn [offset depth]. intros _.
  apply rest_skip in Hr3. ystep. apply yields_attempt. eapply yields_mono; [apply (HP fuel2 _ l); [cbn [offset]; exact Hr3|done|done]|].
  intros f s' [-> Hf]. cbv beta iota zeta. cbn [offset depth].
  specialize (HQ self name f Hname Hf). cbv zeta in HQ. rewrite ?zlen_app, ?zlen_cons, ?zlen_app in HQ.
  replace (offset s + 1 + zlen w + zlen (quoted k) + zlen w2 + 1 + zlen w3 + zlen t)
    with (offset s + 1 + (zlen w + (zlen (quoted k) + (zlen w2 + (1 + (zlen w3 + zlen t)))))) by lia. exact HQ.
Qed.

Lemma named_snoc head self name f kb v :
  chars name = text_of kb -> filled_json f = v ->
  map (fun c => (item_name c, to_json c)) (head ++ [mk_item self (Some name) f]) =
  map (fun c => (item_name c, to_json c)) head ++ [(c_string (text_of kb), v)].
Proof. intros Hn Hf. apply map_snoc. cbn [item_name mk_item]. by rewrite Hn, <- Hf. Qed.

Lemma quoted_app k r : 34 :: k ++ [34] ++ r = quoted k ++ r.
Proof. unfold quoted. cbn. by rewrite <- app_assoc. Qed.

Lemma members_last n w1 k kb w2 w3 t v w4 :
  ws w1 -> str_chars k kb -> ws w2 -> ws w3 -> json_text n t v -> reads_value n t v -> ws w4 ->
  reads_members n (w1 ++ quoted k ++ w2 ++ 58 :: w3 ++ t ++ w4) [(c_string (text_of kb), v)].
Proof.
  intros Hw1 Hk Hw2 Hw3 Ht HP Hw4. exists w1, 34, (k ++ [34] ++ w2 ++ 58 :: w3 ++ t ++ w4).
  rewrite quoted_app. split; [done|]. split; [done|]. split; [lia|]. split; [done|].
  intros w fuel fuel2 s head b l <- Hw Hr Hl.
  replace (34 :: (k ++ [34] ++ w2 ++ 58 :: w3 ++ t ++ w4) ++ 125 :: l) with (quoted k ++ w2 ++ 58 :: w3 ++ t ++ w4 ++ 125 :: l) in Hr
    by (rewrite <- quoted_app; cbn; rewrite <- !app_assoc; cbn; rewrite <- !app_assoc; cbn; by rewrite <- !app_assoc).
  destruct fuel as [|fuel]; [apply yields_undefined|]. eapply (member_step k kb t v n w w2 w3); try done; [by apply no_number_ws|].
  intros self name f Hname Hf. cbv zeta. eapply (after_close _ w4 l); [|done|lia|lia|].
  - cbn [offset]. apply (rest_skip _ _ (w ++ quoted k ++ w2 ++ 58 :: w3 ++ t)).
    replace ((w ++ quoted k ++ w2 ++ 58 :: w3 ++ t) ++ w4 ++ 125 :: l) with (w ++ quoted k ++ w2 ++ 58 :: w3 ++ t ++ w4 ++ 125 :: l); [exact Hr|].
    rewrite <- !app_assoc. cbn. by rewrite <- !app_assoc.
  - cbn [offset depth]. split; [|by apply named_snoc]. rewrite ?zlen_app, ?zlen_cons, ?zlen_app. f_equal. lia.
Qed.

Lemma members_next n w1 k kb w2 w3 t v w4 ts ms :
  ws w1 -> str_chars k kb -> ws w2 -> ws w3 -> json_text n t v -> reads_value n t v -> ws w4 -> reads_members n ts ms ->
  reads_members n (w1 ++ quoted k ++ w2 ++ 58 :: w3 ++ t ++ w4 ++ 44 :: ts) ((c_string (text_of kb), v) :: ms).
Proof.
  intros Hw1 Hk Hw2 Hw3 Ht HP Hw4 (w0 & c2 & t2 & Ets & Hw0 & Hc2 & _ & HQ).
  exists w1, 34, (k ++ [34] ++ w2 ++ 58 :: w3 ++ t ++ w4 ++ 44 :: ts).
  rewrite quoted_app. split; [done|]. split; [done|]. split; [lia|]. split; [done|].
  intros w fuel fuel2 s head b l Hb Hw Hr Hl.
  replace (34 :: (k ++ [34] ++ w2 ++ 58 :: w3 ++ t ++ w4 ++ 44 :: ts) ++ b :: l)
    with (quoted k ++ w2 ++ 58 :: w3 ++ t ++ w4 ++ 44 :: ts ++ b :: l) in Hr
    by (rewrite <- quoted_app; cbn; rewrite <- !app_assoc; cbn; rewrite <- !app_assoc; cbn; by rewrite <- !app_assoc).
  destruct fuel as [|fuel]; [apply yields_undefined|]. eapply (member_step k kb t v n w w2 w3); try done; [by apply no_number_ws|].
  intros self name f Hname Hf. cbv zeta.
  replace (w ++ quoted k ++ w2 ++ 58 :: w3 ++ t ++ w4 ++ 44 :: ts ++ b :: l)
    with ((w ++ quoted k ++ w2 ++ 58 :: w3 ++ t) ++ w4 ++ 44 :: ts ++ b :: l) in Hr
    by (rewrite <- !app_assoc; cbn; by rewrite <- !app_assoc).
  apply rest_skip in Hr. set (u := w ++ quoted k ++ w2 ++ 58 :: w3 ++ t) in *.
  eapply (after_comma _ w4); [cbn [offset]; exact Hr|done|]. cbn [offset depth].
  apply rest_skip, rest_next in Hr. rewrite Ets, <- app_assoc in Hr. cbn [app] in Hr.
  eapply yields_mono; [eapply (HQ w0 fuel fuel2 _ _ b l Hb Hw0); [cbn [offset]; exact Hr|done]|].
  cbn [offset depth]. intros items s' [-> Hm]. split.
  - f_equal. rewrite Ets. unfold u. rewrite ?zlen_app, ?zlen_cons, ?zlen_app, ?zlen_cons, ?zlen_app, ?zlen_cons. lia.
  - rewrite Hm, (named_snoc _ _ _ _ kb v) by done. by rewrite <- app_assoc.
Qed.

Section container.
  Context (opens : M parse_buffer bool) (open close : Z) (ty : Z) (s : parse_buffer) (n : nat).
  Context (Hlevel : level s (Datatypes.S n)) (Hclose : 32 < close).
  Context (Hopens : yields opens (ParseBuffer (offset s) (depth s + 1))
             (fun b s' => b = true /\ s' = ParseBuffer (offset s) (depth s + 1))).

(** Behind the opening bracket and the white space after it. *)
Lemma container_start loop w c l (Q : filled -> parse_buffer -> Prop) :
  rest (offset s) (open :: w ++ c :: l) -> ws w -> 32 < c ->
  (let s1 := ParseBuffer (offset s + 1 + zlen w) (depth s + 1) in
   rest (offset s1) (c :: l) ->
   yields (do head <- (if c =? close then ret [] else
              do a <- gets (fun s => can_access content s 0);
              if negb a then advance (-1);; abandon else advance (-1);; loop (Datatypes.S (length content)) []);
           deeper (-1);; advance 1;; ret (Filled ty None 0 zero_double head)) s1 Q) ->
  yields (parse_container content opens close loop ty) s Q.
Proof.
  intros Hr Hw Hc HQ. unfold parse_container. do 2 ystep. unfold level in Hlevel. bcase; [lia|]. do 2 ystep. ystep.
  eapply yields_mono; [exact Hopens|]. intros b s' [-> ->]. cbn [negb]. do 2 ystep. cbn [offset depth]. apply rest_next in Hr.
  ystep. eapply (yields_skip _ w c l); [done..|]. cbn [offset depth]. intros Hr1.
  ystep. eapply (yields_looking_at _ close c l); [done|]. by apply HQ.
Qed.

Lemma container_empty loop w l :
  rest (offset s) (open :: w ++ close :: l) -> ws w ->
  yields (parse_container content opens close loop ty) s
    (fun f s' => s' = ParseBuffer (offset s + zlen (open :: w ++ [close])) (depth s) /\ f = Filled ty None 0 zero_double []).
Proof.
  intros Hr Hw. eapply (container_start loop w close l); [done..|]. cbv zeta. intros _. rewrite Z.eqb_refl. ysteps.
  split; [|done]. cbn [offset depth]. rewrite zlen_cons, zlen_app. change (zlen [close]) with 1. f_equal; lia.
Qed.

Lemma container_list {A : Type} (first : Z -> Prop) (view : item -> A) loop fuel t vs l :
  reads_list (eq close) first view loop n t vs -> (forall c, first c -> c <> close) ->
  rest (offset s) (open :: t ++ close :: l) ->
  yields (parse_container content opens close (loop (parse_value content fuel)) ty) s
    (fun f s' => s' = ParseBuffer (offset s + zlen (open :: t ++ [close])) (depth s) /\
       exists items, f = Filled ty None 0 zero_double items /\ map view items = vs).
Proof.
  intros (w0 & c & t0 & Et & Hw0 & Hc & Hf & HQ) Hfirst Hr. rewrite Et, <- app_assoc in Hr. cbn [app] in Hr.
  eapply (container_start _ w0 c (t0 ++ close :: l)); [done..|]. cbv zeta. cbn [offset depth]. intros Hr1.
  rewrite (proj2 (Z.eqb_neq _ _) (Hfirst c Hf)). ystep. do 2 ystep. unfold can_access. cbn [offset]. destruct (rest_get _ _ _ _ Hr1) as [_ Hlt].
  rewrite Z.add_0_r, (proj2 (Z.ltb_lt _ _) Hlt). cbn [negb]. do 2 ystep. cbn [offset depth].
  eapply yields_mono; [eapply (HQ [] _ fuel _ [] close l eq_refl); [by constructor| |]|].
  - cbn [offset app]. eapply rest_move; [exact Hr1|]. lia.
  - unfold level in *. cbn [depth]. lia.
  - intros items s' [-> Hm]. cbn [offset depth app map] in *. ysteps. cbn [offset depth]. split; [|by exists items].
    rewrite Et, !zlen_cons, !zlen_app, zlen_cons. change (zlen [close]) with 1. f_equal; lia.
Qed.

End container.

(** A value that does not start like a literal name. *)
Lemma parse_value_other fuel c t s (Q : filled -> parse_buffer -> Prop) :
  rest (offset s) (c :: t) -> c <> 110 -> c <> 102 -> c <> 116 ->
  yields (if c =? 34 then do str <- parse_string content; ret (Filled cJSON_String (Some str) 0 zero_double [])
          else if number_start c then parse_number content
          else if c =? 91 then parse_array content (parse_value content fuel)
          else if c =? 123 then parse_object content (parse_value content fuel)
          else abandon) s Q ->
  yields (parse_value content (Datatypes.S fuel)) s Q.
Proof.
  intros Hr H1 H2 H3 HQ. cbn [parse_value]. ystep. eapply yields_literal_miss; [done|done|]. ystep. eapply yields_literal_miss; [done|done|].
  ystep. eapply yields_literal_miss; [done|done|]. do 2 ystep. unfold can_access. destruct (rest_get _ _ _ _ Hr) as [_ Hlt].
  rewrite Z.add_0_r, (proj2 (Z.ltb_lt _ _) Hlt). cbn [negb]. ystep. by eapply (yields_peek _ c t).
Qed.

Lemma parse_value_array fuel t s (Q : filled -> parse_buffer -> Prop) :
  rest (offset s) (91 :: t) -> yields (parse_array content (parse_value content fuel)) s Q ->
  yields (parse_value content (Datatypes.S fuel)) s Q.
Proof. intros Hr HQ. by eapply (parse_value_other fuel 91); [exact Hr|lia..|]. Qed.

Lemma parse_value_object fuel t s (Q : filled -> parse_buffer -> Prop) :
  rest (offset s) (123 :: t) -> yields (parse_object content (parse_value content fuel)) s Q ->
  yields (parse_value content (Datatypes.S fuel)) s Q.
Proof. intros Hr HQ. by eapply (parse_value_other fuel 123); [exact Hr|lia..|]. Qed.

Lemma reads_literal n c t (g : filled) v :
  (forall fuel s l, rest (offset s) ((c :: t) ++ l) ->
     yields (parse_value content (Datatypes.S fuel)) s (fun f s' => s' = ParseBuffer (offset s + zlen (c :: t)) (depth s) /\ f = g)) ->
  filled_json g = v -> reads_value n (c :: t) v.
Proof.
  intros Hg Hv [|fuel] s l Hr _ _; [apply yields_undefined|]. eapply yields_mono; [by eapply Hg|]. intros f s' [-> ->]. done.
Qed.

Lemma reads_number n x : number_ok x -> zlen (number_text x) < 64 -> reads_value n (number_text x) (JNumber (number_value x)).
Proof.
  intros Hx Hl [|fuel] s l Hr Hn _; [apply yields_undefined|]. destruct (number_text_start x Hx) as (c & t & Et & Hc).
  assert (c = 45 \/ 48 <= c <= 57) as Hc'.
  { unfold number_start in Hc. destruct (Z.eqb_spec c 45); [by left|]. right. by apply is_digit_range. }
  eapply (parse_value_other fuel c (t ++ l)); [by rewrite Et in Hr|lia|lia|lia|].
  rewrite Hc. destruct (Z.eqb_spec c 34); [lia|]. unfold parse_number. ystep. ystep.
  rewrite (number_chars_all content _ _ _ _ Hr); [|by apply number_text_chars|done|unfold zlen in Hl; cbn; lia].
  rewrite strtod_number by done. ysteps. split; [|done]. rewrite zlen_nil. f_equal; lia.
Qed.

Lemma reads_string n t b : str_chars t b -> reads_value n (quoted t) (JString (c_string (text_of b))).
Proof.
  intros Ht [|fuel] s l Hr Hn _; [apply yields_undefined|]. eapply (parse_value_other fuel 34); [exact Hr|lia|lia|lia|].
  cbn beta iota. change (34 =? 34) with true. cbn beta iota. ystep. eapply parse_string_yields; [exact Ht|exact Hr|]. intros c Hc.
  apply yields_ret. split; [done|]. cbn. by rewrite Hc.
Qed.

(** Every text of the grammar is read as its value. *)
Lemma json_text_reads :
  (forall n t v, json_text n t v -> reads_value n t v) /\
  (forall n t vs, json_elements n t vs -> reads_elements n t vs) /\
  (forall n t ms, json_members n t ms -> reads_members n t ms).
Proof.
  apply json_mutual_ind.
  - intros n. eapply (reads_literal n _ _ (Filled cJSON_NULL None 0 zero_double [])); [|done]. intros fuel s l Hr. cbn [parse_value]. ystep.
    eapply yields_literal_hit; [exact Hr|done|]. cbn beta iota. by ysteps.
  - intros n. eapply (reads_literal n _ _ (Filled cJSON_False None 0 zero_double [])); [|done]. intros fuel s l Hr. cbn [parse_value]. ystep. eapply yields_literal_miss; [exact Hr|lia|].
    ystep. eapply yields_literal_hit; [exact Hr|done|]. cbn beta iota. by ysteps.
  - intros n. eapply (reads_literal n _ _ (Filled cJSON_True None 1 zero_double [])); [|done]. intros fuel s l Hr. cbn [parse_value]. do 2 (ystep; eapply yields_literal_miss; [exact Hr|lia|]).
    ystep. eapply yields_literal_hit; [exact Hr|done|]. cbn beta iota. by ysteps.
  - apply reads_number.
  - apply reads_string.
  - intros n w Hw [|fuel] s l Hr _ Hl; [apply yields_undefined|]. cbn [app] in Hr. rewrite <- app_assoc in Hr. eapply parse_value_array; [exact Hr|].
    eapply yields_mono; [eapply (container_empty _ 91 93); [exact Hl|lia| |exact Hr|done]|].
    + ystep. eapply (yields_peek _ 91); [exact Hr|]. by apply yields_ret.
    + by intros f s' [-> ->].
  - intros n t vs Hvs HP [|fuel] s l Hr _ Hl; [apply yields_undefined|]. cbn [app] in Hr. rewrite <- app_assoc in Hr. eapply parse_value_array; [exact Hr|].
    eapply yields_mono; [eapply (container_list _ 91 93); [exact Hl| |exact HP|done|exact Hr]|].
    + ystep. eapply (yields_peek _ 91); [exact Hr|]. by apply yields_ret.
    + intros f s' [-> (items & -> & Hm)]. split; [done|]. cbn. by rewrite Hm.
  - intros n w Hw [|fuel] s l Hr _ Hl; [apply yields_undefined|]. cbn [app] in Hr. rewrite <- app_assoc in Hr. eapply parse_value_object; [exact Hr|].
    eapply yields_mono; [eapply (container_empty _ 123 125); [exact Hl|lia| |exact Hr|done]|].
    + by eapply (yields_looking_at _ 123 123); [exact Hr|].
    + by intros f s' [-> ->].
  - intros n t vs Hvs HP [|fuel] s l Hr _ Hl; [apply yields_undefined|]. cbn [app] in Hr. rewrite <- app_assoc in Hr. eapply parse_value_object; [exact Hr|].
    eapply yields_mono; [eapply (container_list _ 123 125); [exact Hl| |exact HP|by intros c <-|exact Hr]|].
    + by eapply (yields_looking_at _ 123 123); [exact Hr|].
    + intros f s' [-> (items & -> & Hm)]. split; [done|]. cbn. by rewrite Hm.
  - intros n w1 t v w2 Hw1 Ht HP Hw2. by apply elements_last.
  - intros n w1 t v w2 ts vs Hw1 Ht HP Hw2 _ HQ. by apply elements_next.
  - intros n w1 k kb w2 w3 t v w4 Hw1 Hk Hw2 Hw3 Ht HP Hw4. by apply members_last.
  - intros n w1 k kb w2 w3 t v w4 ts ms Hw1 Hk Hw2 Hw3 Ht HP Hw4 _ HQ. by apply members_next.
Qed.

End values.

(** ** The whole text *)

Section document.
  Context (text : list Z).
  Abbreviation content := (text ++ [0]).
  Abbreviation rest := (rest content).

Lemma skip_bom_yields bom w t n v l (Q : unit -> parse_buffer -> Prop) :
  text = bom ++ w ++ t ++ l -> bom = [] \/ bom = [239; 187; 191] -> ws w -> json_text n t v ->
  Q tt (ParseBuffer (zlen bom) 0) -> yields (skip_utf8_bom content) (ParseBuffer 0 0) Q.
Proof.
  intros Et Hb Hw Ht HQ. destruct (json_text_start _ _ _ Ht) as (c & t' & Ec & Hc & _).
  assert (rest 0 content) as Hr by done. unfold skip_utf8_bom. do 2 ystep. unfold can_access. cbn [offset].
  destruct Hb as [-> | ->].
  - bcase; [|by apply yields_ret]. ystep.
    assert (exists d r, content = d :: r /\ d < 128) as (d & r & Ed & Hd).
    { rewrite Et, Ec. destruct w as [|d w]; [by eexists c, _; split; [|lia]|]. inversion Hw as [|?? Hd _]; subst.
      eexists d, _. split; [done|]. unfold white in Hd. lia. }
    eapply (yields_literal_miss _ d r); [cbn [offset]; rewrite <- Ed; exact Hr|lia|]. by apply yields_ret.
  - bcase.
    + ystep. eapply (yields_literal_hit _ [239; 187; 191] ((w ++ t ++ l) ++ [0])); [split; [done|]; cbn [offset]; by rewrite Et|done|].
      by ystep.
    + exfalso. assert (zlen content = 3 + (zlen w + (1 + zlen t' + zlen l)) + 1) as El.
      { rewrite Et, Ec, !zlen_app, !zlen_cons, zlen_nil. lia. }
      pose proof (zlen_nonneg w). pose proof (zlen_nonneg t'). pose proof (zlen_nonneg l). lia.
Qed.

Lemma parse_root_yields require v :
  json_document text v -> yields (parse_root content require) (ParseBuffer 0 0) (fun i _ => to_json i = v).
Proof.
  intros (bom & w1 & t & w2 & Et & Hb & Hw1 & Hw2 & Ht). destruct (json_text_start _ _ _ Ht) as (c & t' & Ec & [Hc _] & _).
  assert (rest (zlen bom) (w1 ++ t ++ w2 ++ [0])) as Hr.
  { split; [apply zlen_nonneg|]. unfold zlen. rewrite Nat2Z.id, Et, <- !app_assoc. apply drop_app_length. }
  unfold parse_root. bcase; [rewrite zlen_app in *; change (zlen [0]) with 1 in *; pose proof (zlen_nonneg text); lia|].
  ystep. apply yields_alloc. intros self. cbv beta iota. ystep. eapply skip_bom_yields; [exact Et|exact Hb|exact Hw1|exact Ht|].
  ystep. eapply (yields_skip _ w1 c); [cbn [offset]; rewrite Ec in Hr; exact Hr|done|done|]. cbn [offset depth]. intros _.
  apply rest_skip in Hr. ystep. apply yields_attempt. destruct (json_text_reads content) as (HR & _ & _).
  eapply yields_mono; [eapply (HR _ _ _ Ht); [cbn [offset]; exact Hr|by apply no_number_ws|unfold level, CJSON_NESTING_LIMIT; cbn [depth]; lia]|].
  intros f s' [-> Hf]. cbn [offset depth]. apply rest_skip in Hr. destruct require; [|by apply yields_ret].
  ystep. unfold buffer_skip_whitespace. ystep. ystep. unfold can_access. cbn [offset depth].
  pose proof (rest_length _ _ _ Hr) as Hl. rewrite zlen_app in Hl. change (zlen [0]) with 1 in Hl. pose proof (zlen_nonneg w2).
  rewrite Z.add_0_r. bcase; [|lia].
  rewrite (white_end_all _ _ _ _ Hr); [|apply Forall_app_2; [by apply ws_white|by repeat constructor]| |lia].
  2:{ by apply rest_fits in Hr. }
  rewrite Z.eqb_refl. eapply (yields_looking_at _ 0 0 []); [|by apply yields_ret]. cbn [offset].
  apply rest_skip in Hr. eapply rest_move; [exact Hr|]. lia.
Qed.

End document.

(** C19: With enough memory the parser reads every text of the grammar: a
    JSON text in the sense of RFC 8259, with white space wherever the grammar
    allows it, nested at most 1000 deep and with numbers of less than 64
    characters, is accepted, and the tree it is read into has the value of
    the text: strings are unescaped and encoded in UTF-8, numbers are the
    nearest doubles, members and elements keep their order. *)
Theorem json_parse_complete {S : Type} (value : string) (require : bool) (v : cJSON) (s : S) (st : store) :
  json_document (bytes_of (c_string value)) v -> answers st = [] ->
  exists i e st', cJSON_ParseWithOpts value require s st = Ok (Some i, e) s st' /\ to_json i = v /\ answers st' = [].
Proof.
  intros Hd Hst. unfold cJSON_ParseWithOpts, cJSON_ParseWithLengthOpts. set (text := bytes_of _) in *.
  pose proof (parse_root_ok (text ++ [0]) require (live st) st eq_refl ltac:(done)) as Hp.
  pose proof (parse_root_yields text require v Hd st Hst) as Hy.
  destruct (parse_root (text ++ [0]) require (ParseBuffer 0 0) st) as [i b st'|b st'|]; [|done|done].
  destruct Hy as [Hst' Hi]. by eexists i, _, st'.
Qed.

(** *** Witness *)

(** An object with the member [a], an array of 1 and true, with a space
    before the array. *)
Definition demo_text : list Z := [123; 34; 97; 34; 58; 32; 91; 49; 44; 116; 114; 117; 101; 93; 125].
Definition demo_json : cJSON := JObject [("a", JArray [JNumber (S754_finite false 4503599627370496 (-52)); JBool true])].

Lemma demo_document : json_document demo_text demo_json.
Proof.
  assert (Hw0 : ws []) by constructor. assert (Hw1 : ws [32]) by (repeat constructor).
  assert (H1 : json_text 998 [49] (JNumber (S754_finite false 4503599627370496 (-52)))).
  { apply (TNumber 998 (Num false [49] None None)); [|done]. repeat split; [|done]. by constructor. }
  assert (H2 : json_text 999 [91; 49; 44; 116; 114; 117; 101; 93] (JArray [JNumber (S754_finite false 4503599627370496 (-52)); JBool true])).
  { apply (TArray 998 [49; 44; 116; 114; 117; 101]). apply (ElemNext 998 [] [49] _ [] [116; 114; 117; 101]); try done.
    apply (ElemLast 998 [] [116; 114; 117; 101] _ []); [done|constructor|done]. }
  exists [], [], demo_text, []. split; [done|]. split; [by left|]. split; [done|]. split; [done|].
  apply (TObject 999 [34; 97; 34; 58; 32; 91; 49; 44; 116; 114; 117; 101; 93]).
  apply (MemberLast 999 [] [97] [97] [] [32] [91; 49; 44; 116; 114; 117; 101; 93] _ []); try done. by constructor; [..|constructor].
Qed.

Lemma json_parse_complete_witness :
  exists i e st', cJSON_ParseWithOpts (text_of demo_text) true tt (Store ∅ 0 [] (ParseError CJSON_PARSE_OK EmptyString)) = Ok (Some i, e) tt st' /\
    to_json i = demo_json /\ answers st' = [].
Proof. apply json_parse_complete; [exact demo_document|reflexivity]. Defined.
