(* ===== verification/JsonPrint.v ===== *)
(** * The JSON printer (cJSON.c)

    [print_value] writes the text of a tree into a buffer that grows by
    [realloc], or into a buffer of the caller's.  A byte of the buffer that
    was not written yet is indeterminate: reading it, and every access
    outside the buffer, is undefined behaviour. *)

From stdpp Require Import prelude list list_numbers strings gmultiset.
From Stdlib Require Import SpecFloat.
From S2P Require Import Prelude RateLimit CJson Decimal JsonParse JsonSafety.

(** ** The print buffer *)

(** [buffer]: [None] is [NULL], [Some None] an array of the caller's,
    [Some (Some b)] a block of the heap.  [cells] are the [length] bytes it
    points to. *)
Record printbuffer := PrintBuffer {
  buffer : option (option nat); cells : list (option Z); pos : Z; nesting : Z; noalloc : bool; format : bool;
}.

Definition set_cells (c : list (option Z)) (p : printbuffer) : printbuffer :=
  PrintBuffer (buffer p) c (pos p) (nesting p) (noalloc p) (format p).
Definition set_buffer (b : option (option nat)) (c : list (option Z)) (p : printbuffer) : printbuffer :=
  PrintBuffer b c (pos p) (nesting p) (noalloc p) (format p).
Definition move (n : Z) : M printbuffer unit := modify (fun p =>
  PrintBuffer (buffer p) (cells p) (pos p + n) (nesting p) (noalloc p) (format p)).
Definition nest (n : Z) : M printbuffer unit := modify (fun p =>
  PrintBuffer (buffer p) (cells p) (pos p) (nesting p + n) (noalloc p) (format p)).

(** [realloc] to [newsize] bytes, which the default hooks have; the new bytes
    are indeterminate. *)
Definition reallocate (newsize : Z) : M printbuffer unit :=
  do old <- gets buffer;
  match old with
  | Some (Some old) =>
      do new <- alloc;
      match new with
      | Some new =>
          free old;;
          modify (fun p => set_buffer (Some (Some new))
            (take (Z.to_nat newsize) (cells p) ++ replicate (Z.to_nat newsize - length (cells p)) None) p)
      | None => free old;; modify (set_buffer None []);; abandon
      end
  | _ => undefined
  end.

(** The index the next byte goes to; [NULL] is a failure. *)
Definition ensure (needed : Z) : M printbuffer Z :=
  do p <- gets (fun p => p);
  let length := zlen (cells p) in
  if bool_decide (buffer p = None) then abandon
  else if (0 <? length) && (length <=? pos p) then abandon
  else if INT_MAX <? needed then abandon
  else
    let needed := needed + pos p + 1 in
    if needed <=? length then ret (pos p)
    else if noalloc p then abandon
    else if INT_MAX / 2 <? needed then
      if needed <=? INT_MAX then reallocate INT_MAX;; ret (pos p) else abandon
    else reallocate (needed * 2);; ret (pos p).

(** Write bytes from index [i] on. *)
Definition put (i : Z) (d : list Z) : M printbuffer unit := fun p st =>
  if in_bounds (zlen (cells p)) i (zlen d)
  then Ok tt (set_cells (take (Z.to_nat i) (cells p) ++ (Some <$> d) ++ drop (Z.to_nat (i + zlen d)) (cells p)) p) st
  else UB.

Fixpoint strlen (c : list (option Z)) : option Z :=
  match c with
  | Some b :: c => if b =? 0 then Some 0 else (fun n => 1 + n) <$> strlen c
  | _ => None
  end.

Definition update_offset : M printbuffer unit :=
  do p <- gets (fun p => p);
  if bool_decide (buffer p = None) then ret tt
  else match strlen (drop (Z.to_nat (pos p)) (cells p)) with Some n => move n | None => undefined end.

(** ** Numbers *)

Definition DBL_EPSILON : double := S754_finite false 4503599627370496 (-104).

Definition compare_double (a b : double) : bool :=
  let maxVal := if SFltb (SFabs b) (SFabs a) then SFabs a else SFabs b in
  SFleb (SFabs (SFsub 53 1024 a b)) (dbl_mul maxVal DBL_EPSILON).

Definition NUMBER_BUFFER : Z := 26.

(** What ends up in [number_buffer]. *)
Definition number_chars_of (valuedouble : double) (valueint : Z) : list Z :=
  if negb (finite valuedouble) then [110; 117; 108; 108]
  else if dbl_eqZ valuedouble valueint then print_int valueint
  else
    let t := printf_g 15 valuedouble in
    match strtod t with
    | Some (test, _) => if compare_double test valuedouble then t else printf_g 17 valuedouble
    | None => printf_g 17 valuedouble
    end.

Definition print_number (valuedouble : double) (valueint : Z) : M printbuffer unit :=
  let number_buffer := number_chars_of valuedouble valueint in
  let length := zlen number_buffer in
  if NUMBER_BUFFER <? length + 1 then undefined
  else
    do i <- ensure (length + 1);
    put i (number_buffer ++ [0]);;
    move length.

(** ** Strings *)

(** The characters an escape adds. *)
Definition escape_count (c : Z) : Z :=
  if (c =? 34) || (c =? 92) || (c =? 8) || (c =? 12) || (c =? 10) || (c =? 13) || (c =? 9) then 1
  else if c <? 32 then 5 else 0.

Definition hex_char (d : Z) : Z := if d <? 10 then 48 + d else 87 + d.

(** The copy loop: the character at [output_pointer], which then moves. *)
Fixpoint escape_loop (input : list Z) (output_pointer : Z) : M printbuffer unit :=
  match input with
  | [] => ret tt
  | c :: input =>
      if (31 <? c) && negb (c =? 34) && negb (c =? 92)
      then put output_pointer [c];; escape_loop input (output_pointer + 1)
      else
        put output_pointer [92];;
        let one x := put (output_pointer + 1) [x];; escape_loop input (output_pointer + 2) in
        if c =? 92 then one 92
        else if c =? 34 then one 34
        else if c =? 8 then one 98
        else if c =? 12 then one 102
        else if c =? 10 then one 110
        else if c =? 13 then one 114
        else if c =? 9 then one 116
        else
          put (output_pointer + 1)
            [117; hex_char (c / 4096 mod 16); hex_char (c / 256 mod 16); hex_char (c / 16 mod 16); hex_char (c mod 16); 0];;
          escape_loop input (output_pointer + 6)
  end.

Definition print_string_ptr (input : option (list Z)) : M printbuffer unit :=
  match input with
  | None => do output <- ensure 3; put output [34; 34; 0]
  | Some input =>
      let escape_characters := zsum (escape_count <$> input) in
      let output_length := zlen input + escape_characters in
      do output <- ensure (output_length + 3);
      if escape_characters =? 0 then
        put output [34];; put (output + 1) input;; put (output + output_length + 1) [34; 0]
      else
        put output [34];;
        escape_loop input (output + 1);;
        put (output + output_length + 1) [34; 0]
  end.

Definition str_bytes (s : option cstr) : option (list Z) := (fun c => bytes_of (c_string (chars c))) <$> s.

(** ** Values *)

Definition item_string (i : item) : option cstr := match i with Item _ _ _ _ _ string _ => string end.

Definition put_text (t : list Z) : M printbuffer unit := do output <- ensure (zlen t + 1); put output (t ++ [0]).

Section containers.
  Context (print_value : item -> M printbuffer unit).

(** The loop of [print_array]. *)
Fixpoint print_elements (l : list item) : M printbuffer unit :=
  match l with
  | [] => ret tt
  | e :: rest =>
      print_value e;;
      update_offset;;
      (match rest with
       | [] => ret tt
       | _ =>
           do fmt <- gets format;
           let length := if fmt : bool then 2 else 1 in
           do output <- ensure (length + 1);
           put output (44 :: (if fmt then [32] else []) ++ [0]);;
           move length
       end);;
      print_elements rest
  end.

Definition print_array (child : list item) : M printbuffer unit :=
  do output <- ensure 1;
  put output [91];; move 1;; nest 1;;
  print_elements child;;
  do output <- ensure 2;
  put output [93; 0];; nest (-1).

(** The loop of [print_object]. *)
Fixpoint print_members (fmt : bool) (l : list item) : M printbuffer unit :=
  match l with
  | [] => ret tt
  | e :: rest =>
      (if fmt then
         do depth <- gets nesting;
         do output <- ensure depth;
         put output (replicate (Z.to_nat depth) 9);; move depth
       else ret tt);;
      print_string_ptr (str_bytes (item_string e));;
      update_offset;;
      let length := if fmt then 2 else 1 in
      do output <- ensure length;
      put output (58 :: if fmt then [9] else []);;
      move length;;
      print_value e;;
      update_offset;;
      let comma := match rest with [] => [] | _ => [44] end in
      let length := (if fmt then 1 else 0) + zlen comma in
      do output <- ensure (length + 1);
      put output (comma ++ (if fmt then [10] else []) ++ [0]);;
      move length;;
      print_members fmt rest
  end.

Definition print_object (child : list item) : M printbuffer unit :=
  do fmt <- gets format;
  let length := if fmt : bool then 2 else 1 in
  do output <- ensure (length + 1);
  put output (123 :: if fmt then [10] else []);; nest 1;; move length;;
  print_members fmt child;;
  do depth <- gets nesting;
  do output <- ensure (if fmt then depth + 1 else 2);
  put output ((if fmt then replicate (Z.to_nat (depth - 1)) 9 else []) ++ [125; 0]);; nest (-1).

End containers.

Fixpoint print_value (i : item) : M printbuffer unit :=
  match i with
  | Item _ type valuestring valueint valuedouble _ child =>
      let type := Z.land type 255 in
      if type =? cJSON_NULL then put_text [110; 117; 108; 108]
      else if type =? cJSON_False then put_text [102; 97; 108; 115; 101]
      else if type =? cJSON_True then put_text [116; 114; 117; 101]
      else if type =? cJSON_Number then print_number valuedouble valueint
      else if type =? cJSON_Raw then
        match str_bytes valuestring with None => abandon | Some raw => put_text raw end
      else if type =? cJSON_String then print_string_ptr (str_bytes valuestring)
      else if type =? cJSON_Array then print_array print_value child
      else if type =? cJSON_Object then print_object print_value child
      else abandon
  end.

(** ** Printing to a new string, and into an array *)

Definition default_buffer_size : Z := 256.

(** The block and the text in it; [None] is [NULL]. *)
Definition print {S} (i : item) (fmt : bool) : M S (option (nat * list (option Z))) :=
  do b <- alloc;
  match b with
  | None => ret None
  | Some b =>
      fresh (PrintBuffer (Some (Some b)) (replicate (Z.to_nat default_buffer_size) None) 0 0 false fmt)
        (print_value i;; update_offset;; gets (fun p => p))
        (fun p => match buffer p with Some (Some b) => free b;; ret None | _ => ret None end)
        (fun p _ =>
           match buffer p with
           | Some (Some b) =>
               do printed <- alloc;
               match printed with
               | Some printed => free b;; ret (Some (printed, take (Z.to_nat (pos p + 1)) (cells p)))
               | None => free b;; ret None
               end
           | _ => undefined
           end)
  end.

Definition cJSON_Print {S} (i : item) : M S (option (nat * list (option Z))) := print i true.
Definition cJSON_PrintUnformatted {S} (i : item) : M S (option (nat * list (option Z))) := print i false.

(** The bytes of the caller's array afterwards, and whether the text fits. *)
Definition cJSON_PrintPreallocated {S} (i : item) (length : Z) (fmt : bool) : M S (bool * list (option Z)) :=
  if length <? 0 then ret (false, [])
  else
    fresh (PrintBuffer (Some None) (replicate (Z.to_nat length) None) 0 0 true fmt)
      (print_value i;; gets (fun p => p))
      (fun p => ret (false, cells p))
      (fun p _ => ret (true, cells p)).
