(* ===== verification/JsonRender.v ===== *)
(** * What the JSON printer prints (cJSON.c)

    [render] is the text of a tree.  The printer writes exactly this text,
    stays inside its buffer and inside the bytes it has written, and fails
    only when memory, the caller's array or the size limit runs out. *)

From stdpp Require Import prelude list list_numbers strings gmultiset.
From Stdlib Require Import SpecFloat.
From S2P Require Import Prelude RateLimit CJson Decimal JsonParse JsonSafety JsonGrammar JsonPrint.

(** ** The text of a tree *)

(** A character inside a string literal. *)
Definition escape (c : Z) : list Z :=
  if c =? 34 then [92; 34]
  else if c =? 92 then [92; 92]
  else if c =? 8 then [92; 98]
  else if c =? 12 then [92; 102]
  else if c =? 10 then [92; 110]
  else if c =? 13 then [92; 114]
  else if c =? 9 then [92; 116]
  else if c <? 32 then [92; 117; 48; 48; hex_char (c / 16); hex_char (c mod 16)]
  else [c].

Definition literal (s : option (list Z)) : list Z := 34 :: flat_map escape (default [] s) ++ [34].

Definition tabs (fmt : bool) (n : Z) : list Z := if fmt then replicate (Z.to_nat n) 9 else [].

Section lists.
  Context (render : item -> option (list Z)) (fmt : bool).

Fixpoint render_elements (l : list item) : option (list Z) :=
  match l with
  | [] => Some []
  | e :: rest =>
      t ← render e;
      u ← render_elements rest;
      Some (t ++ match rest with [] => [] | _ => 44 :: if fmt then [32] else [] end ++ u)
  end.

Fixpoint render_members (depth : Z) (l : list item) : option (list Z) :=
  match l with
  | [] => Some []
  | e :: rest =>
      t ← render e;
      u ← render_members depth rest;
      Some (tabs fmt depth ++ literal (str_bytes (item_string e)) ++ (58 :: if fmt then [9] else []) ++ t ++
            (match rest with [] => [] | _ => [44] end ++ if fmt then [10] else []) ++ u)
  end.

End lists.

(** [None]: the tree has an item of no printable type. *)
Fixpoint render (fmt : bool) (i : item) (depth : Z) : option (list Z) :=
  match i with
  | Item _ type valuestring valueint valuedouble _ child =>
      let type := Z.land type 255 in
      if type =? cJSON_NULL then Some [110; 117; 108; 108]
      else if type =? cJSON_False then Some [102; 97; 108; 115; 101]
      else if type =? cJSON_True then Some [116; 114; 117; 101]
      else if type =? cJSON_Number then Some (number_chars_of valuedouble valueint)
      else if type =? cJSON_Raw then str_bytes valuestring
      else if type =? cJSON_String then Some (literal (str_bytes valuestring))
      else if type =? cJSON_Array then
        u ← render_elements (fun e => render fmt e (depth + 1)) fmt child;
        Some ([91] ++ u ++ [93])
      else if type =? cJSON_Object then
        u ← render_members (fun e => render fmt e (depth + 1)) fmt (depth + 1) child;
        Some ((123 :: if fmt then [10] else []) ++ u ++ tabs fmt depth ++ [125])
      else None
  end.

(** The numbers of a tree fit the C types. *)
Fixpoint numbers_ok (i : item) : Prop :=
  match i with
  | Item _ type _ valueint valuedouble _ child =>
      valid_binary 53 1024 valuedouble = true /\ INT_MIN <= valueint <= INT_MAX /\
      each numbers_ok child
  end.

(** No text has a NUL in it. *)
Definition no_nul (t : list Z) : Prop := Forall (fun b => b <> 0) t.

(** ** The state of the buffer *)

Definition own (p : printbuffer) : gmultiset nat := 
  if noalloc p then ∅ else match buffer p with Some (Some b) => {[+ b +]} | _ => ∅ end.

Definition good (p : printbuffer) : Prop :=
  match buffer p with Some (Some _) => True | Some None => noalloc p = true | None => False end.

Definition filled_with (p : printbuffer) (t : list Z) : Prop := exists junk, cells p = (Some <$> t) ++ junk.

(** [p'] is the buffer [p] later: it may have grown. *)
Definition later (p p' : printbuffer) : Prop :=
  good p' /\ noalloc p' = noalloc p /\ format p' = format p /\ zlen (cells p) <= zlen (cells p') /\
  (noalloc p = true -> zlen (cells p') = zlen (cells p)).

(** The text so far is [t], and the next byte goes behind it. *)
Definition at_text (p : printbuffer) (t : list Z) : Prop :=
  good p /\ filled_with p t /\ pos p = zlen t /\ (noalloc p = false -> pos p < zlen (cells p)).

(** The text [t] is there, with its NUL, but the position is still inside
    [u], what was written last. *)
Definition pending (p : printbuffer) (t u : list Z) : Prop :=
  good p /\ filled_with p (t ++ u ++ [0]) /\ zlen t <= pos p <= zlen (t ++ u).

(** There is room for the text [t]. *)
Definition enough (mem : bool) (p : printbuffer) (t : list Z) : Prop :=
  zlen t + 2 <= INT_MAX /\ (if noalloc p then zlen t + 2 <= zlen (cells p) else mem = true).

Lemma later_refl p : good p -> later p p.
Proof. by split. Qed.

Lemma later_trans p1 p2 p3 : later p1 p2 -> later p2 p3 -> later p1 p3.
Proof.
  intros (G1 & N1 & F1 & L1 & C1) (G2 & N2 & F2 & L2 & C2). split; [done|]. split; [congruence|]. split; [congruence|]. split; [lia|].
  intros Hn. rewrite C2, C1 by congruence. done.
Qed.

Lemma enough_later mem p p' t t' : later p p' -> enough mem p t -> zlen t' <= zlen t -> enough mem p' t'.
Proof.
  intros (_ & N & _ & L & _) [H1 H2] Hl. split; [lia|]. rewrite N. destruct (noalloc p); [lia|done].
Qed.

Lemma filled_length p t : filled_with p t -> zlen t <= zlen (cells p).
Proof. intros [junk ->]. rewrite zlen_app, zlen_fmap. pose proof (zlen_nonneg junk). lia. Qed.

Lemma filled_prefix p t u : filled_with p (t ++ u) -> filled_with p t.
Proof. intros [junk E]. rewrite fmap_app, <- app_assoc in E. by eexists. Qed.

(** ** Growing and writing *)

Section steps.
  Context {mem : bool}.
  Implicit Types (p : printbuffer) (H : gmultiset nat) (t : list Z).

Lemma reallocate_ok n p t H (Q : unit -> printbuffer -> gmultiset nat -> Prop) E :
  good p -> noalloc p = false -> filled_with p t -> zlen (cells p) <= n ->
  (forall p', later p p' -> filled_with p' t -> zlen (cells p') = n -> pos p' = pos p -> nesting p' = nesting p -> Q tt p' (H ⊎ own p')) ->
  (mem = false -> forall p', noalloc p' = noalloc p -> buffer p' = None -> E p' H) ->
  triple mem (reallocate n) Q E p (H ⊎ own p).
Proof.
  intros Hg Hn [junk Hf] Hl HQ HE. assert (exists b, buffer p = Some (Some b)) as [b Hb].
  { unfold good in Hg. destruct (buffer p) as [[b|]|]; [by exists b|congruence|done]. }
  assert (own p = {[+ b +]}) as -> by (unfold own; by rewrite Hn, Hb). unfold reallocate. hstep. hstep. rewrite Hb. apply hoare_bind, hoare_alloc_mem.
  - intros new. apply hoare_bind. eapply hoare_heap; [|apply hoare_free].
    { by rewrite <- (assoc_L (⊎)), (comm_L (⊎) {[+ b +]}), (assoc_L (⊎)). }
    apply hoare_modify. set (p' := set_buffer _ _ p).
    assert (own p' = {[+ new +]}) as <- by (unfold own; cbn; by rewrite Hn).
    unfold zlen in Hl. assert (length (cells p) <= Z.to_nat n)%nat as Hle by lia.
    assert (cells p' = (Some <$> t) ++ junk ++ replicate (Z.to_nat n - length (cells p)) None) as Hc.
    { unfold p'. cbn [set_buffer cells]. rewrite take_ge by done. rewrite Hf at 1. by rewrite <- app_assoc. }
    assert (zlen (cells p') = n) as Hz.
    { rewrite Hc, app_assoc, <- Hf. unfold zlen. rewrite length_app, length_replicate. lia. }
    apply HQ; try done; [|by eexists].
    split; [done|]. split; [done|]. split; [done|]. unfold zlen in *. split; [lia|]. intros Hc'. cbn in Hc'. congruence.
  - intros Hm. apply hoare_bind, hoare_free. hstep. hstep. apply hoare_abandon. by apply HE.
Qed.

(** [ensure] gives room, unless there is none. *)
Lemma ensure_ok n p t H (Q : Z -> printbuffer -> gmultiset nat -> Prop) E :
  at_text p t -> 0 <= n ->
  (forall p', later p p' -> filled_with p' t -> pos p' = zlen t -> nesting p' = nesting p -> zlen t + n + 1 <= zlen (cells p') ->
     Q (zlen t) p' (H ⊎ own p')) ->
  (forall p', noalloc p' = noalloc p -> ~ (zlen t + n + 1 <= INT_MAX /\ if noalloc p then zlen t + n + 1 <= zlen (cells p) else mem = true) -> E p' (H ⊎ own p')) ->
  triple mem (ensure n) Q E p (H ⊎ own p).
Proof.
  intros (Hg & Hf & Hp & Hlt) Hn HQ HE. unfold ensure. hstep. hstep.
  assert (buffer p <> None) as Hb by (unfold good in Hg; by destruct (buffer p)).
  rewrite (bool_decide_eq_false_2 _ Hb). pose proof (zlen_nonneg t). pose proof (zlen_nonneg (cells p)).
  bcase; [apply hoare_abandon, HE; [done|]; intros [Hx1 Hx2]; destruct (noalloc p); [lia|specialize (Hlt eq_refl); lia]|].
  bcase; [apply hoare_abandon, HE; [done|]; lia|].
  bcase; [rewrite Hp; apply hoare_ret, HQ; [by apply later_refl|done|done|done|lia]|].
  destruct (noalloc p) eqn:Hna; [apply hoare_abandon, HE; [congruence|]; lia|]. rewrite Hp in *.
  assert (Hre : forall k, zlen t + n + 1 <= k -> zlen (cells p) <= k -> triple mem (reallocate k;; ret (zlen t)) Q E p (H ⊎ own p)).
  { intros k Hk Hc. apply hoare_bind. eapply reallocate_ok; [done|done|exact Hf|done|..].
    - intros p' Hl' Hf' Hc' Hp' Hn'. apply hoare_ret, HQ; [done|done|congruence|done|lia].
    - intros -> p' Hna' Hb'. specialize (HE p' ltac:(congruence)). unfold own in HE. rewrite Hna', Hna, Hb', heap_id in HE. apply HE. by intros [_ ?]. }
  unfold INT_MAX in *. bcase; [bcase; [apply Hre; lia|apply hoare_abandon, HE; [done|]; lia]|]. apply Hre; lia.
Qed.

(** [put] overwrites what is behind [t]. *)
Lemma put_ok i t d p H (Q : unit -> printbuffer -> gmultiset nat -> Prop) E :
  filled_with p t -> i = zlen t -> zlen t + zlen d <= zlen (cells p) ->
  (forall c, let p' := set_cells c p in filled_with p' (t ++ d) -> zlen c = zlen (cells p) -> Q tt p' H) ->
  triple mem (put i d) Q E p H.
Proof.
  intros [junk Hf] -> Hl HQ st <- Ha. unfold put. pose proof (zlen_nonneg t). pose proof (zlen_nonneg d).
  rewrite in_bounds_true by lia. split; [|done]. apply HQ.
  - eexists (drop (Z.to_nat (zlen t + zlen d)) (cells p)). cbn [set_cells cells]. rewrite fmap_app, <- app_assoc. f_equal.
    rewrite Hf. rewrite take_app_le by (rewrite length_fmap; unfold zlen; lia). apply take_ge. rewrite length_fmap. unfold zlen. lia.
  - unfold zlen in *. rewrite !length_app, length_take, length_drop, length_fmap. lia.
Qed.

(** [ensure] and [put], then [k]. *)
Lemma emit_ok {A : Type} n u tail (k : M printbuffer A) p t H Q E :
  at_text p t -> zlen u <= n <= zlen u + 1 -> zlen (u ++ tail) <= n + 1 ->
  (forall p', later p p' -> nesting p' = nesting p -> filled_with p' (t ++ u ++ tail) -> pos p' = zlen t ->
     zlen t + n + 1 <= zlen (cells p') -> triple mem k Q E p' (H ⊎ own p')) ->
  (forall p', noalloc p' = noalloc p -> ~ enough mem p (t ++ u) -> E p' (H ⊎ own p')) ->
  triple mem (do output <- ensure n; put output (u ++ tail);; k) Q E p (H ⊎ own p).
Proof.
  intros Hat Hn Hl Hk HE. pose proof (zlen_nonneg u). apply hoare_bind. eapply ensure_ok; [exact Hat|lia|..].
  - intros p1 Hl1 Hf1 Hp1 Hn1 Hc1. apply hoare_bind. eapply put_ok; [exact Hf1|done|lia|].
    intros c p2 Hf2 Hc2. change (own p1) with (own p2). apply Hk; try done.
    + eapply later_trans; [exact Hl1|]. destruct Hl1 as (Hg & _). unfold p2. split; [exact Hg|]. split; [done|]. split; [done|].
      cbn [set_cells cells]. rewrite Hc2. lia.
    + unfold p2. cbn [set_cells cells]. lia.
  - intros p' Hna' Hne. apply HE; [done|]. intros [He1 He2]. apply Hne. rewrite zlen_app in *. split; [lia|]. destruct (noalloc p); [lia|done].
Qed.

(** What is printed is [ot]: a state behind it, or one that is pending. *)
Definition writes (done : bool) (d d' : Z) (f : bool) (m : M printbuffer unit) (ot : option (list Z)) : Prop :=
  forall p t H, at_text p t -> format p = f -> nesting p = d ->
  triple mem m
    (fun _ p' H' => exists u, ot = Some u /\ (if done then at_text p' (t ++ u) else pending p' t u) /\ later p p' /\ nesting p' = d' /\
       H' = H ⊎ own p')
    (fun p' H' => noalloc p' = noalloc p /\ H' = H ⊎ own p' /\ forall u, ot = Some u -> ~ enough mem p (t ++ u))
    p (H ⊎ own p).

Lemma writes_nothing d f : writes true d d f (ret tt) (Some []).
Proof.
  intros p t H Hat Hf Hd. apply hoare_ret. exists []. rewrite app_nil_r. split; [done|]. split; [done|]. split; [|done].
  apply later_refl, Hat.
Qed.

Lemma writes_fail fin d d' f : writes fin d d' f abandon None.
Proof. intros p t H Hat Hf Hd. by apply hoare_abandon. Qed.

(** One after the other. *)
Lemma writes_seq fin d1 d2 d3 f m1 m2 o1 o2 :
  writes true d1 d2 f m1 o1 -> writes fin d2 d3 f m2 o2 ->
  writes fin d1 d3 f (m1;; m2) (u1 ← o1; u2 ← o2; Some (u1 ++ u2)).
Proof.
  intros H1 H2 p t H Hat Hf Hd. apply hoare_bind. eapply hoare_mono; [by apply H1|..].
  - intros [] p1 h1 (u1 & -> & Hat1 & Hl1 & Hd1 & ->). eapply hoare_mono; [apply H2; [exact Hat1| |done]|..].
    + destruct Hl1 as (_ & _ & -> & _). done.
    + intros [] p2 h2 (u2 & -> & Hat2 & Hl2 & Hd2 & ->). exists (u1 ++ u2). split; [done|].
      split; [|split; [by eapply later_trans|done]]. destruct fin; [by rewrite app_assoc|].
      destruct Hat2 as (Hg & Hfl & Hp). unfold pending. rewrite <- !app_assoc in *. split; [done|]. split; [done|].
      rewrite zlen_app in Hp at 1. pose proof (zlen_nonneg u1). lia.
    + intros p2 h2 (Hna & -> & Hne). split; [destruct Hl1 as (_ & Hna1 & _); congruence|]. split; [done|]. intros u Hu He. destruct o2 as [u2|]; [|done]. injection Hu as <-.
      eapply Hne; [done|]. eapply enough_later; [exact Hl1|exact He|]. rewrite <- app_assoc. lia.
  - intros p1 h1 (Hna & -> & Hne). split; [done|]. split; [done|]. intros u Hu He. destruct o1 as [u1|]; [|done]. destruct o2 as [u2|]; [|done].
    injection Hu as <-. eapply Hne; [done|]. eapply enough_later; [apply later_refl, Hat|exact He|]. rewrite !zlen_app.
    pose proof (zlen_nonneg u2). lia.
Qed.

Definition step (n dn : Z) p : printbuffer :=
  PrintBuffer (buffer p) (cells p) (pos p + n) (nesting p + dn) (noalloc p) (format p).

(** [ensure] and [put]; then [k'] moves the offset over what was put, changes
    the nesting, and goes on with [k]. *)
Lemma writes_emit fin d dn d' f n u tail k k' o :
  zlen u <= n <= zlen u + 1 -> zlen (u ++ tail) <= n + 1 ->
  (forall p st, k' p st = k (step (zlen u) dn p) st) ->
  writes fin (d + dn) d' f k o ->
  writes fin d d' f (do output <- ensure n; put output (u ++ tail);; k') (v ← o; Some (u ++ v)).
Proof.
  intros Hn Hl Hkk Hk p t H Hat Hf Hd. eapply (emit_ok n u tail); [exact Hat|exact Hn|exact Hl|..].
  2:{ intros p' Hna Hne. split; [done|]. split; [done|]. intros w Hw He. destruct o as [v|]; [|done]. injection Hw as <-. apply Hne.
      eapply enough_later; [apply later_refl, Hat|exact He|]. rewrite !zlen_app. pose proof (zlen_nonneg v). lia. }
  intros p1 Hl1 Hd1 Hf1 Hp1 Hc1. set (p2 := step (zlen u) dn p1). apply (hoare_same _ k _ _ _ p2); [apply Hkk|].
  change (own p1) with (own p2). destruct Hl1 as (Hg1 & Hna1 & Hfm1 & Hc & Hcc). assert (later p p2) as Hl2 by done.
  eapply hoare_mono; [apply (Hk p2 (t ++ u))|..].
  - split; [exact Hg1|]. split; [rewrite app_assoc in Hf1; by eapply filled_prefix|]. rewrite zlen_app. cbn. split; [lia|]. intros _. lia.
  - unfold p2. cbn. congruence.
  - unfold p2. cbn. lia.
  - intros [] p3 h3 (v & -> & Hat3 & Hl3 & Hd3 & ->). exists (u ++ v). split; [done|]. split; [|split; [by eapply later_trans|done]].
    destruct fin; [by rewrite app_assoc|]. destruct Hat3 as (Hg & Hfl & Hp). unfold pending. rewrite <- !app_assoc in *.
    split; [done|]. split; [done|]. rewrite zlen_app in Hp at 1. pose proof (zlen_nonneg u). lia.
  - intros p3 h3 (Hna & -> & Hne). split; [by rewrite Hna|]. split; [done|]. intros w Hw He. destruct o as [v|]; [|done]. injection Hw as <-. eapply Hne; [done|].
    eapply enough_later; [exact Hl2|exact He|]. rewrite <- app_assoc. lia.
Qed.

(** The last piece, with the NUL; the offset may stay where it is. *)
Lemma writes_last d dn f n u k' c :
  zlen u <= n <= zlen u + 1 -> zlen (u ++ [0]) <= n + 1 -> 0 <= c <= zlen u ->
  (forall p st, k' p st = Ok tt (step c dn p) st) ->
  writes false d (d + dn) f (do output <- ensure n; put output (u ++ [0]);; k') (Some u).
Proof.
  intros Hn Hl Hc Hk p t H Hat Hf Hd. eapply (emit_ok n u [0]); [exact Hat|exact Hn|exact Hl|..].
  2:{ intros p' Hna Hne. split; [done|]. split; [done|]. by intros w [= <-] He. }
  intros p1 Hl1 Hd1 Hf1 Hp1 Hc1. apply (hoare_same _ (ret tt) _ _ _ (step c dn p1)); [apply Hk|]. apply hoare_ret. exists u. split; [done|]. split; [|split; [done|]].
  - split; [apply Hl1|]. split; [done|]. rewrite zlen_app. cbn. lia.
  - cbn. split; [lia|done].
Qed.

(** [update_offset] finishes what is pending. *)
Lemma strlen_spec u junk : no_nul u -> strlen ((Some <$> u ++ [0]) ++ junk) = Some (zlen u).
Proof.
  induction 1 as [|b u Hb _ IH]; [done|]. cbn. rewrite (proj2 (Z.eqb_neq _ _) Hb). cbn in IH. rewrite IH. cbn. by rewrite zlen_cons.
Qed.

Lemma update_ok p t u H (Q : unit -> printbuffer -> gmultiset nat -> Prop) E :
  pending p t u -> no_nul u ->
  (forall p', at_text p' (t ++ u) -> filled_with p' (t ++ u ++ [0]) -> later p p' -> nesting p' = nesting p -> Q tt p' (H ⊎ own p')) ->
  triple mem update_offset Q E p (H ⊎ own p).
Proof.
  intros (Hg & [junk Hc] & Hp) Hn HQ. unfold update_offset. hstep. hstep.
  assert (buffer p <> None) as Hb by (unfold good in Hg; by destruct (buffer p)). rewrite (bool_decide_eq_false_2 _ Hb).
  rewrite zlen_app in Hp. pose proof (zlen_nonneg t). set (k := pos p - zlen t).
  assert (drop (Z.to_nat (pos p)) (cells p) = (Some <$> drop (Z.to_nat k) u ++ [0]) ++ junk) as ->.
  { rewrite Hc, !fmap_app, <- !app_assoc, fmap_drop.
    rewrite (drop_app_ge (Some <$> t)) by (rewrite length_fmap; unfold zlen in *; lia). rewrite length_fmap.
    rewrite drop_app_le by (rewrite length_fmap; unfold zlen in *; lia). do 2 f_equal. unfold k, zlen. lia. }
  rewrite strlen_spec by (by apply Forall_drop, Hn). apply hoare_modify.
  assert (zlen (drop (Z.to_nat k) u) = zlen u - k) as Hz by (rewrite zlen_drop; lia). rewrite Hz.
  set (p' := PrintBuffer _ _ _ _ _ _). change (own p) with (own p').
  apply HQ; [|by eexists|by split|done]. split; [exact Hg|]. split; [rewrite app_assoc in Hc; by eapply filled_prefix; eexists|].
  unfold p'. cbn [pos cells]. rewrite zlen_app. split; [lia|]. intros _. rewrite Hc, zlen_app, zlen_fmap, !zlen_app.
  change (zlen [0]) with 1. pose proof (zlen_nonneg junk). lia.
Qed.

Lemma writes_update d d' f m o : (forall u, o = Some u -> no_nul u) ->
  writes false d d' f m o -> writes true d d' f (m;; update_offset) o.
Proof.
  intros Hn Hm p t H Hat Hf Hd. apply hoare_bind. eapply hoare_mono; [by apply Hm| |done].
  intros [] p1 h1 (u & -> & Hp & Hl & Hd1 & ->). eapply update_ok; [exact Hp|by apply Hn|].
  intros p2 Hat2 _ Hl2 Hd2. exists u. split; [done|]. split; [done|]. split; [by eapply later_trans|]. split; [congruence|done].
Qed.

(** ** Strings *)

Lemma hex_char_nonzero d : 0 <= d -> hex_char d <> 0.
Proof. unfold hex_char. bcase; lia. Qed.

Lemma escape_length c : 0 <= c -> zlen (escape c) = 1 + escape_count c.
Proof.
  intros Hc. unfold escape, escape_count.
  destruct (c =? 34), (c =? 92), (c =? 8), (c =? 12), (c =? 10), (c =? 13), (c =? 9); cbn [orb]; try done. by bcase.
Qed.

Lemma escape_no_nul c : 0 < c -> no_nul (escape c).
Proof.
  intros Hc. pose proof (hex_char_nonzero (c / 16) ltac:(apply Z.div_pos; lia)) as Ha.
  pose proof (hex_char_nonzero (c mod 16) ltac:(apply Z.mod_pos_bound; lia)) as Hb.
  unfold no_nul, escape. repeat bcase; repeat apply List.Forall_cons; try apply List.Forall_nil; try done; lia.
Qed.

(** The bytes of a C string. *)
Definition c_bytes (l : list Z) : Prop := Forall (fun c => 0 < c) l.

Lemma str_bytes_ok s b : str_bytes s = Some b -> c_bytes b.
Proof.
  destruct s as [c|]; [|done]. intros [= <-]. apply Forall_forall. intros x Hx. pose proof (bytes_of_ok (c_string (chars c))) as Hb.
  unfold bytes_ok in Hb. rewrite Forall_forall in Hb. specialize (Hb x Hx). unfold byte_ok in Hb.
  destruct (decide (x = 0)) as [->|]; [|lia]. exfalso. by apply (c_string_no_nul (chars c)), list_elem_of_In.
Qed.

Lemma escapes_length l : c_bytes l -> zlen (flat_map escape l) = zlen l + zsum (escape_count <$> l).
Proof.
  induction 1 as [|c l Hc _ IH]; [done|]. cbn [flat_map]. rewrite zlen_app, fmap_cons, zsum_cons, zlen_cons, IH, escape_length by lia. lia.
Qed.

Lemma escape_count_nonneg c : 0 <= escape_count c.
Proof. unfold escape_count. repeat bcase; lia. Qed.

Lemma escapes_none l : c_bytes l -> zsum (escape_count <$> l) = 0 -> flat_map escape l = l.
Proof.
  induction 1 as [|c l Hc Hl IH]; [done|]. rewrite fmap_cons, zsum_cons. intros Hz. pose proof (escape_count_nonneg c).
  assert (0 <= zsum (escape_count <$> l)). { apply zsum_nonneg, Forall_fmap, Forall_true. intros x. apply escape_count_nonneg. }
  cbn [flat_map]. rewrite IH by lia. pose proof (escape_length c ltac:(lia)) as He. rewrite (ltac:(lia) : escape_count c = 0) in He.
  unfold escape in *. repeat bcase; done.
Qed.

Lemma literal_no_nul s : (forall b, s = Some b -> c_bytes b) -> no_nul (literal s).
Proof.
  intros Hs. unfold literal. constructor; [lia|]. apply Forall_app_2; [|by repeat constructor].
  destruct s as [b|]; [|constructor]. specialize (Hs b eq_refl). cbn. induction Hs as [|c l Hc _ IH]; [constructor|].
  apply Forall_app_2; [by apply escape_no_nul|done].
Qed.

Lemma escape_loop_ok input : forall i a p H (Q : unit -> printbuffer -> gmultiset nat -> Prop) E, c_bytes input ->
  filled_with p a -> i = zlen a -> zlen a + zlen (flat_map escape input) + 1 <= zlen (cells p) ->
  (forall c, let p' := set_cells c p in filled_with p' (a ++ flat_map escape input) -> zlen c = zlen (cells p) -> Q tt p' H) ->
  triple mem (escape_loop input i) Q E p H.
Proof.
  induction input as [|c input IH]; intros i a p H Q E Hb Hf -> Hl HQ; cbn [escape_loop].
  { apply hoare_ret. specialize (HQ (cells p)). cbn [flat_map] in HQ. rewrite app_nil_r in HQ. destruct p. by apply HQ. }
  inversion Hb as [|?? Hc Hb']; subst. cbn [flat_map] in *. rewrite zlen_app in Hl. pose proof (zlen_nonneg (flat_map escape input)).
  (* One piece [d] of the output, then the rest. *)
  assert (Hgo : forall d p0, escape c = d -> filled_with p0 (a ++ d) -> zlen (cells p0) = zlen (cells p) ->
            (forall c0, set_cells c0 p0 = set_cells c0 p) -> triple mem (escape_loop input (zlen a + zlen d)) Q E p0 H).
  { intros d p0 Hd Hf0 Hc0 Hs0. apply (IH _ (a ++ d)); [done|done|by rewrite zlen_app|rewrite zlen_app, <- Hd; lia|].
    intros c1. rewrite Hs0. intros Hf1 Hc1. apply HQ; [|lia]. by rewrite Hd, app_assoc. }
  assert (Hput : forall d k, escape c = [92] ++ d -> (forall p0, filled_with p0 (a ++ [92] ++ d) -> zlen (cells p0) = zlen (cells p) ->
            (forall c0, set_cells c0 p0 = set_cells c0 p) -> triple mem k Q E p0 H) ->
            forall tail, (length tail <= 1)%nat ->
            triple mem (put (zlen a) [92];; put (zlen a + 1) (d ++ tail);; k) Q E p H).
  { intros d k Hd Hk tail Ht. rewrite Hd, zlen_app in Hl. change (zlen [92]) with 1 in Hl. pose proof (zlen_nonneg d).
    assert (zlen tail <= 1) by (unfold zlen; lia).
    apply hoare_bind. eapply put_ok; [exact Hf|done|change (zlen [92]) with 1; lia|]. intros c1 p1 Hf1 Hc1.
    apply hoare_bind. eapply put_ok; [exact Hf1|by rewrite zlen_app|rewrite !zlen_app; change (zlen [92]) with 1; unfold p1; cbn [set_cells cells]; lia|].
    intros c2 p2 Hf2 Hc2. apply Hk; [|unfold p2, p1 in *; cbn [set_cells cells] in *; lia|done].
    rewrite <- app_assoc, !(app_assoc a) in Hf2. rewrite (app_assoc (a ++ [92])) in Hf2. apply filled_prefix in Hf2. by rewrite <- app_assoc in Hf2. }
  destruct ((31 <? c) && negb (c =? 34) && negb (c =? 92)) eqn:Ec; breflect.
  - assert (escape c = [c]) as Hd by (unfold escape; repeat bcase; try done; lia).
    rewrite Hd in Hl. change (zlen [c]) with 1 in Hl. apply hoare_bind. eapply put_ok; [exact Hf|done|change (zlen [c]) with 1; lia|].
    intros c1 p1 Hf1 Hc1. by apply (Hgo [c]).
  - cbv zeta.
    assert (Hone : forall x, escape c = [92; x] ->
      triple mem (put (zlen a) [92];; put (zlen a + 1) [x];; escape_loop input (zlen a + 2)) Q E p H).
    { intros x Hx. apply (Hput [x] _ Hx) with (tail := []); [|cbn; lia]. intros p0 Hf0 Hc0 Hs0. by apply (Hgo [92; x]). }
    destruct (Z.eqb_spec c 92) as [->|?]; [by apply Hone|]. destruct (Z.eqb_spec c 34) as [->|?]; [by apply Hone|].
    destruct (Z.eqb_spec c 8) as [->|?]; [by apply Hone|]. destruct (Z.eqb_spec c 12) as [->|?]; [by apply Hone|].
    destruct (Z.eqb_spec c 10) as [->|?]; [by apply Hone|]. destruct (Z.eqb_spec c 13) as [->|?]; [by apply Hone|].
    destruct (Z.eqb_spec c 9) as [->|?]; [by apply Hone|].
    assert (c < 32) as H32.
    { by destruct (Z.ltb_spec 31 c); [|lia]. }
    assert (escape c = [92; 117; 48; 48; hex_char (c / 16); hex_char (c mod 16)]) as Hx by (unfold escape; repeat bcase; try done; lia).
    replace (c / 4096 mod 16) with 0 by zlia. replace (c / 256 mod 16) with 0 by zlia. replace (c / 16 mod 16) with (c / 16) by zlia.
    change (hex_char 0) with 48.
    apply (Hput [117; 48; 48; hex_char (c / 16); hex_char (c mod 16)] _ Hx) with (tail := [0]); [|cbn; lia]. intros p0 Hf0 Hc0 Hs0.
    by apply (Hgo [92; 117; 48; 48; hex_char (c / 16); hex_char (c mod 16)]).
Qed.

Lemma writes_string d f s : (forall b, s = Some b -> c_bytes b) -> writes false d d f (print_string_ptr s) (Some (literal s)).
Proof.
  intros Hs p t H Hat Hf Hd. destruct s as [input|]; cbn [print_string_ptr].
  2:{ pose proof (writes_last d 0 f 3 [34; 34] (ret tt) 0) as Hw. rewrite Z.add_0_r in Hw.
      assert (forall p st, ret tt p st = Ok tt (step 0 0 p) st) as Hstep
        by (intros [b c pp n na fm] st; unfold step; cbn; by rewrite !Z.add_0_r).
      specialize (Hw ltac:(done) ltac:(done) ltac:(done) Hstep p t H Hat Hf Hd). eapply hoare_same; [|exact Hw].
      intros st. unfold bind. cbn [app]. destruct (ensure 3 p st) as [o p1 st1|p1 st1|]; [|done|done]. by destruct (put o [34; 34; 0] p1 st1) as [[]| |]. }
  specialize (Hs input eq_refl). pose proof (escapes_length input Hs) as Hl. set (n := zlen input + zsum (escape_count <$> input)) in *.
  pose proof (zlen_nonneg (flat_map escape input)). pose proof (zlen_nonneg input).
  assert (zlen (literal (Some input)) = n + 2) as Hz.
  { unfold literal. cbn [default]. rewrite zlen_cons, zlen_app. change (zlen [34]) with 1. cbn. lia. }
  apply hoare_bind. eapply ensure_ok; [exact Hat|lia|..].
  2:{ intros p' Hna Hne. split; [done|]. split; [done|]. intros u [= <-] [He1 He2]. apply Hne. rewrite zlen_app, Hz in *. split; [lia|].
      destruct (noalloc p); [lia|done]. }
  intros p1 Hl1 Hf1 Hp1 Hn1 Hc1.
  (* The quote, [m] writing the characters, and the quote. *)
  assert (Hm : forall m,
    (forall p1 (Q : unit -> printbuffer -> gmultiset nat -> Prop) E, filled_with p1 (t ++ [34]) -> zlen t + n + 4 <= zlen (cells p1) ->
       (forall c, filled_with (set_cells c p1) (t ++ [34] ++ flat_map escape input) -> zlen c = zlen (cells p1) -> Q tt (set_cells c p1) (H ⊎ own p1)) ->
       triple mem m Q E p1 (H ⊎ own p1)) ->
    triple mem (put (zlen t) [34];; m;; put (zlen t + n + 1) [34; 0])
      (fun _ p' H' => exists u, Some (literal (Some input)) = Some u /\ pending p' t u /\ later p p' /\ nesting p' = d /\ H' = H ⊎ own p')
      (fun p' H' => noalloc p' = noalloc p /\ H' = H ⊎ own p' /\ forall u, Some (literal (Some input)) = Some u -> ~ enough mem p (t ++ u)) p1 (H ⊎ own p1)).
  { intros m Hm. apply hoare_bind. eapply put_ok; [exact Hf1|done|change (zlen [34]) with 1; lia|]. intros c2 p2 Hf2 Hc2.
    apply hoare_bind. change (own p1) with (own p2). apply Hm; [done|unfold p2; cbn [set_cells cells]; lia|]. intros c3 Hf3 Hc3.
    eapply (put_ok _ (t ++ [34] ++ flat_map escape input)); [exact Hf3|rewrite !zlen_app; change (zlen [34]) with 1; lia| |].
    { rewrite !zlen_app. change (zlen [34]) with 1. change (zlen [34; 0]) with 2. unfold p2 in *. cbn [set_cells cells] in *. lia. }
    intros c4 p4 Hf4 Hc4. exists (literal (Some input)). unfold p4, p2 in *. cbn [set_cells cells] in *. split; [done|].
    destruct Hl1 as (Hg & Hna & Hfm & Hcl & Hcc). split; [|split; [|split; [cbn; congruence|done]]].
    - split; [done|]. split; [|cbn [pos set_cells]; rewrite zlen_app, Hz; lia]. unfold literal. cbn [default from_option id].
      replace (t ++ (34 :: flat_map escape input ++ [34]) ++ [0]) with ((t ++ [34] ++ flat_map escape input) ++ [34; 0]); [done|].
      cbn. by rewrite <- !app_assoc.
    - split; [done|]. split; [done|]. split; [done|]. cbn [set_cells cells]. split; [lia|]. intros Hx. specialize (Hcc Hx). lia. }
  bcase.
  - apply Hm. intros p2 Q E' Hf2 Hc2 HQ. eapply put_ok; [exact Hf2|rewrite zlen_app; done|rewrite zlen_app; change (zlen [34]) with 1; lia|].
    intros c. rewrite (escapes_none input) in HQ by done. rewrite <- app_assoc. apply HQ.
  - apply Hm. intros p2 Q E' Hf2 Hc2 HQ. eapply (escape_loop_ok input _ (t ++ [34])); [done|done|by rewrite zlen_app|rewrite zlen_app; change (zlen [34]) with 1; lia|].
    intros c. rewrite <- app_assoc. apply HQ.
Qed.

(** ** Rearranging *)

(** Two programs that bind the same steps. *)
Ltac reassoc :=
  intros ? ?; unfold bind, gets; cbv beta iota;
  repeat match goal with
  | |- context [match ?m ?a ?b with Ok _ _ _ => _ | Err _ _ => _ | UB => _ end] => destruct (m a b) as [? ? ?|? ?|]; cbv beta iota; try reflexivity
  end; try reflexivity.

Lemma writes_ext fin d d' f m m' o o' :
  (forall p st, m p st = m' p st) -> o' = o -> writes fin d d' f m' o' -> writes fin d d' f m o.
Proof. intros Hm -> Hw p t H Hat Hf Hd. eapply hoare_same; [|by apply Hw]. done. Qed.

Lemma writes_assoc fin d d' f (a b c : M printbuffer unit) o :
  writes fin d d' f ((a;; b);; c) o -> writes fin d d' f (a;; b;; c) o.
Proof.
  apply writes_ext; [|done]. intros p st. unfold bind. destruct (a p st) as [[] p1 st1|p1 st1|]; [|done|done].
  by destruct (b p1 st1) as [[] p2 st2|p2 st2|].
Qed.

Lemma writes_format fin d d' f (k : bool -> M printbuffer unit) o :
  writes fin d d' f (k f) o -> writes fin d d' f (do fmt <- gets format; k fmt) o.
Proof. intros Hk p t H Hat Hf Hd. hstep. hstep. rewrite Hf. by apply Hk. Qed.

Lemma writes_nesting fin d d' f (k : Z -> M printbuffer unit) o :
  writes fin d d' f (k d) o -> writes fin d d' f (do n <- gets nesting; k n) o.
Proof. intros Hk p t H Hat Hf Hd. hstep. hstep. rewrite Hd. by apply Hk. Qed.

Lemma step_zero p : step 0 0 p = p.
Proof. destruct p. unfold step. cbn. by rewrite !Z.add_0_r. Qed.

(** A piece in the middle: the offset moves behind it. *)
Lemma writes_piece fin d d' f n u tail k o c :
  zlen u <= n <= zlen u + 1 -> zlen (u ++ tail) <= n + 1 -> c = zlen u -> writes fin d d' f k o ->
  writes fin d d' f (do output <- ensure n; put output (u ++ tail);; move c;; k) (v ← o; Some (u ++ v)).
Proof.
  intros Hn Hl -> Hk. apply (writes_emit _ _ 0 _ _ _ _ _ k); [done|done| |by rewrite Z.add_0_r].
  intros p st. unfold bind, move, modify, step. by rewrite Z.add_0_r.
Qed.

(** ** Leaves *)

Lemma writes_text d f t : writes false d d f (put_text t) (Some t).
Proof.
  pose proof (writes_last d 0 f (zlen t + 1) t (ret tt) 0) as Hw. rewrite Z.add_0_r in Hw. pose proof (zlen_nonneg t).
  eapply writes_ext; [|done|apply Hw]; [|lia|rewrite zlen_app; change (zlen [0]) with 1; lia|lia|intros p st; by rewrite step_zero].
  intros p st. unfold put_text, bind. destruct (ensure (zlen t + 1) p st) as [o p1 st1|p1 st1|]; [|done|done].
  by destruct (put o (t ++ [0]) p1 st1) as [[]| |].
Qed.

Lemma number_chars_facts x n : valid_binary 53 1024 x = true -> INT_MIN <= n <= INT_MAX ->
  zlen (number_chars_of x n) <= 24 /\ (finite x = false -> number_chars_of x n = [110; 117; 108; 108]) /\
  (finite x = true -> exists y, number_ok y /\ number_text y = number_chars_of x n).
Proof.
  intros Hx Hn. pose proof (printf_g_length 15 x ltac:(lia) Hx). pose proof (printf_g_length 17 x ltac:(lia) Hx).
  pose proof (print_int_length n Hn). unfold number_chars_of. destruct (finite x) eqn:Hf; cbn [negb]; [|by split; [vm_compute|]].
  assert (forall k, 0 < k -> exists y, number_ok y /\ number_text y = printf_g k x) as Hg by (intros; by apply printf_g_number).
  split; [|split; [done|intros _]]; (destruct (dbl_eqZ x n); [first [lia|apply print_int_number]|]);
    destruct (strtod (printf_g 15 x)) as [[y r]|]; try destruct (compare_double y x); first [lia|apply Hg; lia].
Qed.

Lemma number_chars_no_nul x n : valid_binary 53 1024 x = true -> INT_MIN <= n <= INT_MAX -> no_nul (number_chars_of x n).
Proof.
  intros Hx Hn. destruct (number_chars_facts x n Hx Hn) as (_ & Hf & Ht). destruct (finite x).
  - destruct (Ht eq_refl) as (y & Hy & <-). apply number_text_chars in Hy. eapply List.Forall_impl; [|exact Hy]. by intros c Hc ->.
  - rewrite Hf by done. by repeat constructor.
Qed.

Lemma writes_number d f x n : valid_binary 53 1024 x = true -> INT_MIN <= n <= INT_MAX ->
  writes false d d f (print_number x n) (Some (number_chars_of x n)).
Proof.
  intros Hx Hn. destruct (number_chars_facts x n Hx Hn) as [Hl _]. unfold print_number. set (u := number_chars_of x n) in *.
  unfold NUMBER_BUFFER. bcase; [lia|]. pose proof (zlen_nonneg u).
  pose proof (writes_last d 0 f (zlen u + 1) u (move (zlen u)) (zlen u)) as Hw. rewrite Z.add_0_r in Hw.
  apply Hw; [lia|rewrite zlen_app; change (zlen [0]) with 1; lia|lia|]. intros p st. unfold move, modify, step. by rewrite Z.add_0_r.
Qed.

(** ** Arrays and objects *)

Section containers.
  Context (d : Z) (f : bool) (r : item -> option (list Z)) (Hd0 : 0 <= d).

(** What is known of the items of the list. *)
Definition item_writes (e : item) : Prop :=
  writes false d d f (print_value e) (r e) /\ (forall u, r e = Some u -> no_nul u).

Lemma writes_elements l : Forall item_writes l -> writes true d d f (print_elements print_value l) (render_elements r f l).
Proof.
  induction 1 as [|e l [He Hn] _ IH]; [apply writes_nothing|]. cbn [print_elements render_elements].
  apply writes_assoc. destruct l as [|e2 l].
  - eapply writes_ext; [done| |eapply (writes_seq _ d d d); [by apply writes_update|]].
    2:{ eapply writes_ext; [|done|exact IH]. intros p st. done. }
    cbn [render_elements]. by destruct (r e).
  - eapply writes_ext; [done| |eapply (writes_seq _ d d d); [by apply writes_update|]].
    2:{ eapply writes_ext; [|done|apply (writes_format _ _ _ _ (fun fmt : bool =>
          do output <- ensure ((if fmt then 2 else 1) + 1); put output ((44 :: if fmt then [32] else []) ++ [0]);;
          move (if fmt then 2 else 1);; print_elements print_value (e2 :: l)));
          apply writes_piece; [..|exact IH]; by destruct f].
        cbn [app]. generalize (print_elements print_value (e2 :: l)). intros k. reassoc. }
    destruct (r e); [|done]. obind. by destruct (render_elements r f (e2 :: l)).
Qed.

Lemma writes_tabs :
  writes true d d f (if f then do depth <- gets nesting; do output <- ensure depth; put output (replicate (Z.to_nat depth) 9);; move depth
                     else ret tt) (Some (tabs f d)).
Proof.
  unfold tabs. destruct f; [|apply writes_nothing]. apply writes_nesting.
  assert (zlen (replicate (Z.to_nat d) 9) = d) as Hz by (unfold zlen; rewrite length_replicate; lia).
  eapply writes_ext; [| |apply (writes_piece _ d d true d (replicate (Z.to_nat d) 9) [] (ret tt) (Some []) d); [lia|rewrite app_nil_r; lia|done|apply writes_nothing]].
  - rewrite app_nil_r. reassoc.
  - obind. by rewrite app_nil_r.
Qed.

Lemma writes_members l : Forall item_writes l -> writes true d d f (print_members print_value f l) (render_members r f d l).
Proof.
  induction 1 as [|e l [He Hn] _ IH]; [apply writes_nothing|]. cbn [print_members render_members].
  assert (forall b, str_bytes (item_string e) = Some b -> c_bytes b) as Hkey by (intros b; apply str_bytes_ok).
  set (comma := match l with [] => [] | _ => [44] end). set (nl := if f then [10] else []).
  set (colon := 58 :: if f then [9] else []).
  assert (zlen colon = if f then 2 else 1) as Hz1 by (unfold colon; by destruct f).
  assert (zlen (comma ++ nl) = (if f then 1 else 0) + zlen comma) as Hz2 by (unfold nl; rewrite zlen_app; destruct f; rewrite ?zlen_cons, zlen_nil; lia).
  assert (0 <= zlen comma) by apply zlen_nonneg.
  pose proof (writes_piece true d d f ((if f then 1 else 0) + zlen comma + 1) (comma ++ nl) [0] _ _ ((if f then 1 else 0) + zlen comma)
    ltac:(rewrite Hz2; lia) ltac:(rewrite zlen_app, Hz2; change (zlen [0]) with 1; lia) (eq_sym Hz2) IH) as W1.
  pose proof (writes_seq _ d d d f _ _ _ _ (writes_update _ _ _ _ _ Hn He) W1) as W2.
  pose proof (writes_piece true d d f (if f then 2 else 1) colon [] _ _ (if f then 2 else 1)
    ltac:(rewrite Hz1; lia) ltac:(rewrite app_nil_r, Hz1; lia) (eq_sym Hz1) W2) as W3.
  assert (W0 : writes true d d f (print_string_ptr (str_bytes (item_string e));; update_offset) (Some (literal (str_bytes (item_string e))))).
  { apply writes_update; [|by apply writes_string]. intros u [= <-]. by apply literal_no_nul. }
  pose proof (writes_seq _ d d d f _ _ _ _ W0 W3) as W4. pose proof (writes_seq _ d d d f _ _ _ _ writes_tabs W4) as W5.
  eapply writes_ext; [| |exact W5].
  - rewrite <- (app_assoc comma), app_nil_r. generalize (print_members print_value f l). intros k. cbv zeta. fold colon nl.
    generalize (if f then do depth <- gets nesting; do output <- ensure depth; put output (replicate (Z.to_nat depth) 9);; move depth else ret tt).
    intros tb. reassoc.
  - obind. destruct (r e); [|done]. obind. destruct (render_members r f d l); [|done]. obind. by rewrite <- !app_assoc.
Qed.

End containers.

Lemma tabs_no_nul f d : no_nul (tabs f d).
Proof. unfold tabs. destruct f; [by apply Forall_replicate|constructor]. Qed.

Lemma elements_no_nul d f r l u : Forall (item_writes d f r) l -> render_elements r f l = Some u -> no_nul u.
Proof.
  intros Hl. revert u. induction Hl as [|e l [_ Hn] _ IH]; intros u; cbn [render_elements]; [by intros [= <-]; constructor|].
  destruct (r e) as [t|]; [|done]. obind. destruct (render_elements r f l) as [w|]; [|done]. intros [= <-].
  apply Forall_app_2; [by apply Hn|]. apply Forall_app_2; [|by apply IH]. destruct l, f; by repeat constructor.
Qed.

Lemma members_no_nul d f r n l u : Forall (item_writes d f r) l -> render_members r f n l = Some u -> no_nul u.
Proof.
  intros Hl. revert u. induction Hl as [|e l [_ Hn] _ IH]; intros u; cbn [render_members]; [by intros [= <-]; constructor|].
  destruct (r e) as [t|]; [|done]. obind. destruct (render_members r f n l) as [w|]; [|done]. intros Hu. apply (inj Some) in Hu as <-.
  apply Forall_app_2; [apply tabs_no_nul|]. apply Forall_app_2; [apply literal_no_nul; intros b; apply str_bytes_ok|].
  apply Forall_app_2; [destruct f; by repeat constructor|]. apply Forall_app_2; [by apply Hn|].
  apply Forall_app_2; [|by apply IH]. destruct l, f; by repeat constructor.
Qed.

Lemma nest_step n p st : nest n p st = Ok tt (step 0 n p) st.
Proof. unfold nest, modify, step. by rewrite Z.add_0_r. Qed.

Lemma writes_array d f r l : Forall (item_writes (d + 1) f r) l ->
  writes false d d f (print_array print_value l) (u ← render_elements r f l; Some ([91] ++ u ++ [93])).
Proof.
  intros Hl. pose proof (writes_last (d + 1) (-1) f 2 [93] (nest (-1)) 0 ltac:(done) ltac:(done) ltac:(done) (nest_step (-1))) as W1.
  replace (d + 1 + -1) with d in W1 by lia.
  pose proof (writes_seq _ (d + 1) (d + 1) d f _ _ _ _ (writes_elements _ _ _ l Hl) W1) as W2.
  eapply writes_ext; [| |apply (writes_emit _ d 1 d f 1 [91] [] _ (move 1;; nest 1;; print_elements print_value l;;
    do output <- ensure 2; put output ([93] ++ [0]);; nest (-1)) _ ltac:(done) ltac:(done) ltac:(done) W2)].
  - done.
  - destruct (render_elements r f l); [|done]. done.
Qed.

Lemma writes_object d f r l : 0 <= d -> Forall (item_writes (d + 1) f r) l ->
  writes false d d f (print_object print_value l)
    (u ← render_members r f (d + 1) l; Some ((123 :: if f then [10] else []) ++ u ++ tabs f d ++ [125])).
Proof.
  intros Hd Hl. unfold print_object. apply writes_format. set (open := 123 :: if f then [10] else []).
  assert (zlen open = if f then 2 else 1) as Hz by (unfold open; by destruct f).
  assert (zlen (tabs f d ++ [125]) = if f then d + 1 else 1) as Hz2.
  { rewrite zlen_app. change (zlen [125]) with 1. unfold tabs, zlen. destruct f; [rewrite length_replicate; lia|done]. }
  assert (W1 : writes false (d + 1) d f
    (do depth <- gets nesting; do output <- ensure (if f then depth + 1 else 2);
     put output ((if f then replicate (Z.to_nat (depth - 1)) 9 else []) ++ [125; 0]);; nest (-1)) (Some (tabs f d ++ [125]))).
  { apply writes_nesting. rewrite Z.add_simpl_r. fold (tabs f d).
    change [125; 0] with ([125] ++ [0]). rewrite app_assoc.
    pose proof (writes_last (d + 1) (-1) f (if f then d + 1 + 1 else 2) (tabs f d ++ [125]) (nest (-1)) 0) as W.
    replace (d + 1 + -1) with d in W by lia. apply W; [rewrite Hz2; destruct f; lia| |rewrite Hz2; destruct f; lia|apply nest_step].
    rewrite zlen_app, Hz2. change (zlen [0]) with 1. destruct f; lia. }
  pose proof (writes_seq _ (d + 1) (d + 1) d f _ _ _ _ (writes_members (d + 1) f r ltac:(lia) l Hl) W1) as W2.
  eapply writes_ext; [| |eapply (writes_emit _ d 1 d f ((if f then 2 else 1) + 1) open []); [..|exact W2]].
  - intros p st. rewrite app_nil_r. reflexivity.
  - by destruct (render_members r f (d + 1) l).
  - rewrite Hz. lia.
  - rewrite app_nil_r, Hz. lia.
  - intros p st. rewrite Hz. reflexivity.
Qed.

(** ** Every tree *)

Lemma numbers_ok_child self ty vs vi vd nm ch :
  numbers_ok (Item self ty vs vi vd nm ch) -> valid_binary 53 1024 vd = true /\ INT_MIN <= vi <= INT_MAX /\ Forall numbers_ok ch.
Proof.
  cbn [numbers_ok]. intros (Hd & Hi & Hc). by apply each_forall in Hc.
Qed.

Lemma print_value_writes i f : numbers_ok i -> forall d, 0 <= d -> item_writes d f (fun i => render f i d) i.
Proof.
  induction i as [self ty vs vi vd nm ch IH] using item_tree_ind. intros (Hd & Hi & Hch)%numbers_ok_child d Hd0.
  assert (Hall : Forall (item_writes (d + 1) f (fun e => render f e (d + 1))) ch).
  { rewrite Forall_forall in *. intros e He. apply IH; [done|by apply Hch|lia]. }
  unfold item_writes. cbn [print_value render]. set (k := Z.land ty 255).
  destruct (k =? cJSON_NULL); [split; [apply writes_text|intros u [= <-]; by repeat constructor]|].
  destruct (k =? cJSON_False); [split; [apply writes_text|intros u [= <-]; by repeat constructor]|].
  destruct (k =? cJSON_True); [split; [apply writes_text|intros u [= <-]; by repeat constructor]|].
  destruct (k =? cJSON_Number); [split; [by apply writes_number|intros u [= <-]; by apply number_chars_no_nul]|].
  destruct (k =? cJSON_Raw).
  { destruct (str_bytes vs) as [b|] eqn:Eb; [|split; [apply writes_fail|done]]. split; [apply writes_text|]. intros u [= <-].
    apply str_bytes_ok in Eb. eapply List.Forall_impl; [|exact Eb]. intros c Hc. cbn in Hc. lia. }
  destruct (k =? cJSON_String).
  { split; [apply writes_string; intros b; apply str_bytes_ok|]. intros u [= <-]. apply literal_no_nul. intros b. apply str_bytes_ok. }
  destruct (k =? cJSON_Array).
  { split; [by apply writes_array|]. intros u Hu. destruct (render_elements _ f ch) as [w|] eqn:Ew; [|done]. obind_in Hu. apply (inj Some) in Hu as <-.
    apply Forall_app_2; [by repeat constructor|]. apply Forall_app_2; [by eapply elements_no_nul|by repeat constructor]. }
  destruct (k =? cJSON_Object); [|split; [apply writes_fail|done]].
  split; [by apply writes_object|]. intros u Hu. destruct (render_members _ f (d + 1) ch) as [w|] eqn:Ew; [|done]. obind_in Hu. apply (inj Some) in Hu as <-.
  apply Forall_app_2; [destruct f; by repeat constructor|]. apply Forall_app_2; [by eapply members_no_nul|].
  apply Forall_app_2; [apply tabs_no_nul|by repeat constructor].
Qed.

End steps.

(** ** Printing a tree *)

Lemma hoare_fresh {mem : bool} {S T A B : Type} (zero : T) (m : M T A) (handle : T -> M S B) k Q E (s : S) H :
  triple mem m (fun a t H' => triple mem (k a t) Q E s H') (fun t H' => triple mem (handle t) Q E s H') zero H ->
  triple mem (fresh zero m handle k) Q E s H.
Proof.
  intros Hm st HH Ha. specialize (Hm st HH Ha). unfold fresh. destruct (m zero st) as [a t st'|t st'|]; [| |done].
  - destruct Hm as [Hk Ha']. by apply Hk.
  - destruct Hm as [Hk Ha']. by apply Hk.
Qed.

Lemma at_start b n na f : (b = None -> na = true) -> (na = false -> 0 < n) ->
  at_text (PrintBuffer (Some b) (replicate (Z.to_nat n) None) 0 0 na f) [].
Proof.
  intros Hb Hn. split; [destruct b; [done|by apply Hb]|]. split; [by eexists|]. split; [done|]. cbn [noalloc pos cells]. intros Hna.
  unfold zlen. rewrite length_replicate. specialize (Hn Hna). lia.
Qed.

(** The outcome of [print] when all allocations succeed ([mem]) or not. *)
Lemma print_ok (mem : bool) {S : Type} i fmt (s : S) H : numbers_ok i ->
  triple mem (print i fmt)
    (fun r s' H' => s' = s /\
       match r with
       | Some (b, l) => H' = H ⊎ {[+ b +]} /\ exists u, render fmt i 0 = Some u /\ l = Some <$> (u ++ [0])
       | None => H' = H /\ (mem = true -> forall u, render fmt i 0 = Some u -> INT_MAX < zlen u + 2)
       end) (fun _ _ => False) s H.
Proof.
  intros Hi. unfold print. apply hoare_bind, hoare_alloc_mem; [|intros Hm; apply hoare_ret; split; [done|]; split; [done|congruence]].
  intros b. apply hoare_fresh. set (p0 := PrintBuffer _ _ _ _ _ _).
  destruct (print_value_writes (mem := mem) i fmt Hi 0 ltac:(done)) as [Hw Hn].
  assert (at_text p0 []) as Hat by (by apply at_start).
  specialize (Hw p0 [] H Hat eq_refl eq_refl). change {[+ b +]} with (own p0). apply hoare_bind. eapply hoare_mono; [exact Hw|..].
  - intros [] p1 h1 (u & Hu & Hp & Hl & _ & ->). apply hoare_bind. eapply update_ok; [exact Hp|by apply Hn|].
    intros p2 (Hg & _ & Hpos & _) [junk Hc] Hl2 _. apply hoare_gets. cbn [app] in *.
    destruct (later_trans _ _ _ Hl Hl2) as (_ & Hna & _). change (noalloc p0) with false in Hna.
    assert (exists b2, buffer p2 = Some (Some b2)) as [b2 Eb].
    { unfold good in Hg. destruct (buffer p2) as [[b2|]|]; [by exists b2|congruence|done]. }
    assert (own p2 = {[+ b2 +]}) as -> by (unfold own; by rewrite Hna, Eb). rewrite Eb. apply hoare_bind, hoare_alloc_mem.
    + intros printed. apply hoare_bind. eapply hoare_heap; [|apply hoare_free].
      { by rewrite <- (assoc_L (⊎)), (comm_L (⊎) {[+ b2 +]}), (assoc_L (⊎)). }
      apply hoare_ret. split; [done|]. split; [done|]. exists u. split; [done|]. rewrite Hc, Hpos.
      rewrite take_app_le by (rewrite length_fmap, length_app; unfold zlen; cbn; lia). apply take_ge.
      rewrite length_fmap, length_app. unfold zlen. cbn. lia.
    + intros Hm. apply hoare_bind, hoare_free, hoare_ret. split; [done|]. split; [done|congruence].
  - intros p1 h1 (Hna & -> & Hne).
    assert (Hnone : mem = true -> forall u, render fmt i 0 = Some u -> INT_MAX < zlen u + 2).
    { intros Hm u Hu. destruct (Z.le_gt_cases (zlen u + 2) INT_MAX) as [Hle|]; [|done]. exfalso. by apply (Hne u). }
    unfold own. rewrite Hna. destruct (buffer p1) as [[b1|]|]; [apply hoare_bind, hoare_free, hoare_ret; done|..]; rewrite heap_id; by apply hoare_ret.
Qed.

(** C20: Printing a tree whose numbers fit the C types, formatted or not and
    whichever allocations fail, stays inside the buffer however often it
    grows and reads only bytes it has written.  It returns a block of its own
    that holds exactly the text of the tree and its NUL; or [NULL], with
    everything given back, and then memory ran out, or the tree has no text,
    or the text reaches the size limit of 2 GiB. *)
Theorem json_print_correct {S : Type} (i : item) (fmt : bool) (s : S) (st : store) :
  numbers_ok i ->
  exists r st', print i fmt s st = Ok r s st' /\
  match r with
  | Some (b, l) => live st' = live st ⊎ {[+ b +]} /\ exists u, render fmt i 0 = Some u /\ l = Some <$> (u ++ [0])
  | None => live st' = live st /\ (answers st = [] -> forall u, render fmt i 0 = Some u -> INT_MAX < zlen u + 2)
  end.
Proof.
  intros Hi. pose proof (print_ok (bool_decide (answers st = [])) i fmt s (live st) Hi st eq_refl (bool_decide_eq_true_1 _)) as Hp.
  destruct (print i fmt s st) as [r s' st'|s' st'|]; [|by destruct Hp|done]. destruct Hp as [[-> Hr] _]. exists r, st'. split; [done|].
  destruct r as [[b l]|]; [done|]. destruct Hr as [Hl Hn]. split; [done|]. intros Ha. apply Hn. by apply bool_decide_eq_true_2.
Qed.

(** Printing into an array of the caller's: it holds the text and its NUL, or
    the text does not fit. *)
Lemma preallocated_ok {S : Type} (i : item) (n : Z) (fmt : bool) (s : S) (st : store) :
  numbers_ok i -> 0 <= n <= INT_MAX ->
  exists ok l st', cJSON_PrintPreallocated i n fmt s st = Ok (ok, l) s st' /\ live st' = live st /\
  if ok : bool then exists u junk, render fmt i 0 = Some u /\ l = (Some <$> (u ++ [0])) ++ junk /\ zlen l = n
  else forall u, render fmt i 0 = Some u -> n < zlen u + 2.
Proof.
  intros Hi Hn. assert (Ht : triple false (cJSON_PrintPreallocated i n fmt)
    (fun r s' H' => s' = s /\ H' = live st /\ match r with (ok, l) =>
       if ok : bool then exists u junk, render fmt i 0 = Some u /\ l = (Some <$> (u ++ [0])) ++ junk /\ zlen l = n
       else forall u, render fmt i 0 = Some u -> n < zlen u + 2 end) (fun _ _ => False) s (live st)).
  { unfold cJSON_PrintPreallocated. bcase; [lia|]. apply hoare_fresh. set (p0 := PrintBuffer _ _ _ _ _ _).
    assert (zlen (cells p0) = n) as Hc0 by (unfold zlen; cbn; rewrite length_replicate; lia).
    destruct (print_value_writes (mem := false) i fmt Hi 0 ltac:(done)) as [Hw _].
    assert (at_text p0 []) as Hat by (by apply at_start).
    specialize (Hw p0 [] (live st) Hat eq_refl eq_refl). change (own p0) with (∅ : gmultiset nat) in Hw. rewrite heap_id in Hw.
    assert (Hown : forall p1, noalloc p1 = noalloc p0 -> own p1 = ∅) by (intros p1 Hp1; unfold own; by rewrite Hp1).
    apply hoare_bind. eapply hoare_mono; [exact Hw|..].
    - intros [] p1 h1 (u & Hu & (Hg & [junk Hc] & _) & Hl & _ & ->). apply hoare_gets, hoare_ret. split; [done|].
      rewrite Hown, heap_id by apply Hl. split; [done|]. destruct Hl as (_ & _ & _ & _ & Hl). specialize (Hl eq_refl).
      exists u, junk. split; [done|]. split; [exact Hc|lia].
    - intros p1 h1 (Hna & -> & Hne). apply hoare_ret. split; [done|]. split; [by rewrite Hown, heap_id|]. intros u Hu.
      destruct (Z.le_gt_cases (zlen u + 2) n) as [Hle|]; [|done]. exfalso. apply (Hne u Hu). split; cbn [app noalloc p0]; lia. }
  specialize (Ht st eq_refl ltac:(done)).
  destruct (cJSON_PrintPreallocated i n fmt s st) as [[ok l] s' st'|s' st'|]; [|by destruct Ht|by destruct Ht].
  destruct Ht as [(-> & Hl & Hr) _]. by exists ok, l, st'.
Qed.

(** *** Witness *)

(** An array of a string and a number, to be printed with line breaks. *)
Definition demo_tree : item :=
  Item 0 cJSON_Object None 0 zero_double None
    [Item 1 cJSON_Array None 0 zero_double (Some (CStr 2 "a"))
       [Item 3 cJSON_String (Some (CStr 4 "b/c")) 0 zero_double None [];
        Item 5 cJSON_Number None 1 (S754_finite false 6755399441055744 (-52)) None []]].

Lemma demo_numbers : numbers_ok demo_tree.
Proof. vm_compute. repeat split; discriminate. Qed.

Definition demo_memory : store := Store ∅ 6 [] (ParseError CJSON_PARSE_OK EmptyString).

Lemma json_print_correct_witness :
  exists r st', print demo_tree true tt demo_memory = Ok r tt st' /\
  match r with
  | Some (b, l) => live st' = live demo_memory ⊎ {[+ b +]} /\ exists u, render true demo_tree 0 = Some u /\ l = Some <$> (u ++ [0])
  | None => live st' = live demo_memory /\ (answers demo_memory = [] -> forall u, render true demo_tree 0 = Some u -> INT_MAX < zlen u + 2)
  end.
Proof. exact (json_print_correct demo_tree true tt demo_memory demo_numbers). Defined.
