(* ===== verification/JsonText.v ===== *)
(** * Printed trees are read back (cJSON.c)

    The text the printer writes for a tree is a text of the grammar, so the
    parser reads it back as the value that was printed.  The functions at the
    end are the parser and the printer as their callers see them. *)

From stdpp Require Import prelude list list_numbers strings gmultiset.
From Stdlib Require Import SpecFloat.
From S2P Require Import Prelude RateLimit CJson Decimal JsonParse JsonSafety JsonGrammar JsonPrint JsonRender.

(** ** Strings *)

Lemma hex_char_digit d : 0 <= d < 16 -> hex_digit (hex_char d) = Some d.
Proof. intros Hd. unfold hex_char. bcase; unfold hex_digit; repeat bcase; f_equal; lia. Qed.

Lemma escape_chars c t b : 0 < c < 256 -> str_chars t b -> str_chars (escape c ++ t) (c :: b).
Proof.
  intros Hc Ht. unfold escape.
  do 7 (bcase; [subst c; apply StrEscape; [unfold escapes; set_solver|done]|]).
  bcase; [|by apply StrPlain; [lia|..]].
  change ([92; 117; 48; 48; hex_char (c / 16); hex_char (c mod 16)] ++ t) with
    (92 :: 117 :: [48; 48; hex_char (c / 16); hex_char (c mod 16)] ++ t).
  assert (hex4 [48; 48; hex_char (c / 16); hex_char (c mod 16)] c) as Hh.
  { replace c with (((0 * 16 + 0) * 16 + c / 16) * 16 + c mod 16) at 3 by zlia.
    apply Hex4; [done|done|apply hex_char_digit; zlia|apply hex_char_digit; zlia]. }
  assert (utf8 c = [c]) as Eu by (unfold utf8; bcase; [done|lia]).
  change (c :: b) with ([c] ++ b). rewrite <- Eu. apply StrUnicode; [done|unfold surrogate; lia|done].
Qed.

Lemma str_bytes_range s b : str_bytes s = Some b -> Forall (fun c => 0 < c < 256) b.
Proof.
  intros Hb. pose proof (str_bytes_ok _ _ Hb) as Hp. destruct s as [c|]; [|done]. injection Hb as <-.
  pose proof (bytes_of_ok (c_string (chars c))) as Hr. unfold bytes_ok, c_bytes in *. rewrite Forall_forall in *. intros x Hx.
  specialize (Hp x Hx). specialize (Hr x Hx). unfold byte_ok in Hr. lia.
Qed.

Definition c_text (s : option cstr) : string := match s with Some c => c_string (chars c) | None => EmptyString end.

(** The literal of a string is a string of the grammar. *)
Lemma literal_text s : exists t b, literal (str_bytes s) = quoted t /\ str_chars t b /\ c_string (text_of b) = c_text s.
Proof.
  exists (flat_map escape (default [] (str_bytes s))), (default [] (str_bytes s)). split; [done|]. split.
  - destruct (str_bytes s) as [b|] eqn:Hb; [|constructor]. apply str_bytes_range in Hb. cbn [default].
    induction Hb as [|c b Hc _ IH]; [constructor|]. by apply escape_chars.
  - destruct s as [c|]; [|done]. cbn. by rewrite text_of_bytes, c_string_idem.
Qed.

(** ** Trees *)

(** The text of a number is read as the number. *)
Definition recovers (valuedouble : double) (valueint : Z) : Prop :=
  strtod (number_chars_of valuedouble valueint) = Some (valuedouble, []).

(** A tree as the parser builds it: the types without flags, no raw text,
    finite numbers whose texts say what they are, at most [n] levels of
    nesting. *)
Fixpoint json_tree (n : nat) (i : item) {struct i} : Prop :=
  match i with
  | Item _ type _ valueint valuedouble _ child =>
      type ∈ [cJSON_NULL; cJSON_False; cJSON_True; cJSON_String] \/
      type = cJSON_Number /\ finite valuedouble = true /\ recovers valuedouble valueint \/
      type ∈ [cJSON_Array; cJSON_Object] /\
      match n with
      | O => False
      | S n => each (json_tree n) child
      end
  end.

Section lists.
  Context (n : nat) (f : bool) (r : item -> option (list Z)).

Definition item_text (i : item) : Prop := exists t, r i = Some t /\ json_text n t (to_json i).

Lemma elements_text l w : Forall item_text l -> l <> [] -> ws w ->
  exists u, render_elements r f l = Some u /\ json_elements n (w ++ u) (map to_json l).
Proof.
  intros Hl. revert w. induction Hl as [|e l (t & Et & Ht) _ IH]; intros w Hn Hw; [done|]. cbn [render_elements map].
  rewrite Et. obind. destruct l as [|e2 l].
  - cbn [render_elements]. obind. eexists. split; [done|]. apply (ElemLast n w t _ []); [done|done|constructor].
  - destruct (IH (if f then [32] else [])) as (u & -> & Hu); [done|destruct f; repeat constructor; by left|]. obind. eexists. split; [done|].
    apply (ElemNext n w t _ []); [done|done|constructor|done].
Qed.

Lemma tabs_ws d : ws (tabs f d).
Proof. unfold tabs. destruct f; [|constructor]. apply Forall_replicate. unfold white. auto. Qed.

Lemma members_text d l w w' : Forall item_text l -> l <> [] -> ws w -> ws w' ->
  exists u, render_members r f d l = Some u /\ json_members n (w ++ u ++ w') (map (fun c => (item_name c, to_json c)) l).
Proof.
  intros Hl. revert w. induction Hl as [|e l (t & Et & Ht) _ IH]; intros w Hn Hw Hw'; [done|]. cbn [render_members map].
  rewrite Et. obind. destruct (literal_text (item_string e)) as (k & kb & -> & Hk & Ek).
  assert (c_string (text_of kb) = item_name e) as <- by (destruct e as [? ? ? ? ? [?|] ?]; exact Ek).
  assert (ws (if f then [10] else [])) as Hnl by (destruct f; repeat constructor; unfold white; auto).
  assert (ws (if f then [9] else [])) as Htab by (destruct f; repeat constructor; unfold white; auto).
  assert (ws (w ++ tabs f d)) as Hw1 by (apply Forall_app_2; [done|apply tabs_ws]).
  destruct l as [|e2 l].
  - cbn [render_members]. obind. eexists. split; [done|].
    pose proof (MemberLast n (w ++ tabs f d) k kb [] (if f then [9] else []) t _ ((if f then [10] else []) ++ w')
      Hw1 Hk ltac:(constructor) Htab Ht ltac:(by apply Forall_app_2)) as Hm.
    eapply (eq_ind _ (fun x => json_members n x _)); [exact Hm|]. by rewrite ?app_nil_r, <- ?app_assoc; cbn [app]; rewrite ?app_nil_r, <- ?app_assoc; cbn [app]; rewrite <- ?app_assoc.
  - destruct (IH (if f then [10] else [])) as (u & -> & Hu); [done|done|done|]. obind. eexists. split; [done|].
    pose proof (MemberNext n (w ++ tabs f d) k kb [] (if f then [9] else []) t _ [] _ _
      Hw1 Hk ltac:(constructor) Htab Ht ltac:(constructor) Hu) as Hm.
    eapply (eq_ind _ (fun x => json_members n x _)); [exact Hm|]. by rewrite <- ?app_assoc; cbn [app]; rewrite <- ?app_assoc; cbn [app]; rewrite <- ?app_assoc.
Qed.

End lists.

(** The text of a tree stands for the value of the tree. *)
Lemma render_text f i : numbers_ok i -> forall n d, json_tree n i -> exists u, render f i d = Some u /\ json_text n u (to_json i).
Proof.
  induction i as [self ty vs vi vd nm ch IH] using item_tree_ind. intros (Hd & Hi & Hch)%numbers_ok_child n d.
  cbn [json_tree to_json render].
  intros [Ht|[(-> & Hf & Hr)|[Ht Hn]]].
  - rewrite !elem_of_cons, elem_of_nil in Ht. destruct Ht as [->|[->|[->|[->|[]]]]]; cbn; eexists; (split; [reflexivity|]); try constructor.
    destruct (literal_text vs) as (t & b & -> & Ht & Eb). fold (c_text vs). rewrite <- Eb. by constructor.
  - cbn. eexists. split; [done|]. destruct (number_chars_facts vd vi Hd Hi) as (Hl & _ & Hy). destruct (Hy Hf) as (y & Hy1 & Hy2).
    unfold recovers in Hr. rewrite <- Hy2 in *. rewrite strtod_number in Hr by done. injection Hr as <-. constructor; [done|lia].
  - destruct n as [|n]; [done|]. apply each_forall in Hn.
    assert (Hall : Forall (item_text n (fun e => render f e (d + 1))) ch).
    { rewrite Forall_forall in *. intros e He. apply IH; auto. }
    rewrite !elem_of_cons, elem_of_nil in Ht. destruct Ht as [->|[->|[]]]; cbn [Z.land Z.eqb].
    + change (Z.land cJSON_Array 255) with cJSON_Array. cbn. destruct ch as [|e ch]; [eexists; split; [done|]; apply (TEmptyArray n []); constructor|].
      destruct (elements_text n f _ (e :: ch) [] Hall) as (u & Eu & Hu); [done|constructor|]. rewrite Eu. obind.
      eexists. split; [done|]. by apply TArray.
    + change (Z.land cJSON_Object 255) with cJSON_Object. cbn. assert (ws (if f then [10] else [])) as Hnl by (destruct f; repeat constructor; unfold white; auto).
      destruct ch as [|e ch].
      * cbn [render_members map]. obind. eexists. split; [done|]. cbn [app]. rewrite app_assoc. apply TEmptyObject, Forall_app_2; [done|apply tabs_ws].
      * destruct (members_text n f _ (d + 1) (e :: ch) (if f then [10] else []) (tabs f d) Hall) as (u & Eu & Hu); [done|done|apply tabs_ws|].
        rewrite Eu. obind. eexists. split; [done|]. apply TObject in Hu. by rewrite <- !app_assoc in Hu.
Qed.

(** *** The bytes of a text *)

Definition text_bytes (t : list Z) : Prop := Forall (fun c => 0 < c < 256) t.

Lemma text_bytes_string t : text_bytes t -> bytes_of (c_string (text_of t)) = t.
Proof.
  induction 1 as [|c t Hc _ IH]; [done|]. cbn [text_of c_string]. destruct (Ascii.eqb_spec (char_of c) Ascii.zero) as [E0|E0].
  - assert (code_of (char_of c) = c) as Hcc by (apply code_of_char; unfold byte_ok; lia). rewrite E0 in Hcc. change (code_of Ascii.zero) with 0 in Hcc. lia.
  - cbn [bytes_of]. rewrite code_of_char by (unfold byte_ok; lia). by rewrite IH.
Qed.

Lemma ws_bytes w : ws w -> text_bytes w.
Proof. apply List.Forall_impl. unfold white. lia. Qed.

Lemma hex4_bytes h v : hex4 h v -> text_bytes h.
Proof.
  assert (Hd : forall c d, hex_digit c = Some d -> 0 < c < 256) by (intros c d; unfold hex_digit; repeat bcase; try done; lia).
  intros [a b c d x y z w Ha Hb Hc Hw]. apply Hd in Ha, Hb, Hc, Hw. by repeat apply List.Forall_cons.
Qed.

Lemma str_chars_bytes t b : str_chars t b -> text_bytes t.
Proof.
  induction 1 as [|c t b Hc _ _ _ IH|e x t b He _ IH|h v t b Hh _ _ IH|h1 v1 h2 v2 t b H1 _ H2 _ _ IH]; [constructor|..].
  - by constructor; [lia|].
  - constructor; [lia|]. constructor; [|done]. unfold escapes in He. rewrite !elem_of_cons in He. destruct_or! He; try (injection He as -> ->; lia). by apply elem_of_nil in He.
  - apply hex4_bytes in Hh. do 2 (constructor; [lia|]). by apply Forall_app_2.
  - apply hex4_bytes in H1, H2. do 2 (constructor; [lia|]). apply Forall_app_2; [done|]. do 2 (constructor; [lia|]). by apply Forall_app_2.
Qed.

Lemma number_bytes x : number_ok x -> text_bytes (number_text x).
Proof.
  intros Hx%number_text_chars. revert Hx. apply List.Forall_impl. intros c. unfold number_char, is_digit. intros Hc. breflect. lia.
Qed.

Lemma json_text_bytes :
  (forall n t v, json_text n t v -> text_bytes t) /\ (forall n t vs, json_elements n t vs -> text_bytes t) /\
  (forall n t ms, json_members n t ms -> text_bytes t).
Proof.
  apply json_mutual_ind; intros;
    repeat match goal with H : str_chars _ _ |- _ => apply str_chars_bytes in H | H : ws _ |- _ => apply ws_bytes in H end;
    unfold text_bytes, quoted in *; try (by apply number_bytes);
    repeat first [apply Forall_app_2 | apply List.Forall_cons | apply List.Forall_nil]; first [done | lia].
Qed.

(** ** Round trip *)

Definition max_nesting : nat := Z.to_nat CJSON_NESTING_LIMIT.

Lemma parse_rendered {S : Type} i fmt u require (s : S) st :
  numbers_ok i -> json_tree max_nesting i -> render fmt i 0 = Some u -> answers st = [] ->
  exists j e st', cJSON_ParseWithOpts (text_of u) require s st = Ok (Some j, e) s st' /\ to_json j = to_json i.
Proof.
  intros Hn Ht Hu Hst. destruct (render_text fmt i Hn max_nesting 0 Ht) as (u' & Eu & Hj). rewrite Hu in Eu. injection Eu as <-.
  unfold cJSON_ParseWithOpts, cJSON_ParseWithLengthOpts. rewrite text_bytes_string by (by eapply (proj1 json_text_bytes)).
  assert (json_document u (to_json i)) as Hd.
  { exists [], [], u, []. rewrite app_nil_r. split; [done|]. split; [by left|]. split; [constructor|]. by split; [constructor|]. }
  pose proof (parse_root_ok (u ++ [0]) require (live st) st eq_refl ltac:(done)) as Hp.
  pose proof (parse_root_yields u require _ Hd st Hst) as Hy.
  destruct (parse_root (u ++ [0]) require (ParseBuffer 0 0) st) as [j b st'|b st'|]; [|done|done].
  destruct Hy as [Hst' Hi]. by eexists j, _, st'.
Qed.

(** C21: Printing and parsing are inverse.  A tree of JSON types, nested at
    most 1000 deep, whose numbers have texts that say what they are, is
    printed, formatted or not, with all the memory it takes and unless the
    text reaches 2 GiB; the parser accepts the text, with or without the
    check for trailing characters, and the tree it builds has the same
    value. *)
Theorem json_print_parse {S : Type} (i : item) (fmt require : bool) (s : S) (st : store) :
  numbers_ok i -> json_tree max_nesting i -> answers st = [] ->
  (forall u, render fmt i 0 = Some u -> zlen u + 2 <= INT_MAX) ->
  exists b u st1 j e st2,
    print i fmt s st = Ok (Some (b, Some <$> (u ++ [0]))) s st1 /\
    cJSON_ParseWithOpts (text_of u) require s st1 = Ok (Some j, e) s st2 /\ to_json j = to_json i.
Proof.
  intros Hn Ht Hst Hsize. destruct (render_text fmt i Hn max_nesting 0 Ht) as (u & Eu & _). specialize (Hsize u Eu).
  pose proof (print_ok true i fmt s (live st) Hn st eq_refl ltac:(done)) as Hp.
  destruct (print i fmt s st) as [r s' st1|s' st1|]; [|by destruct Hp|done]. destruct Hp as [[-> Hr] Hst1]. specialize (Hst1 eq_refl).
  destruct r as [[b l]|]; [|destruct Hr as [_ Hr]; specialize (Hr eq_refl u Eu); lia].
  destruct Hr as (_ & u' & Eu' & ->). rewrite Eu in Eu'. injection Eu' as <-.
  destruct (parse_rendered i fmt u require s st1 Hn Ht Eu Hst1) as (j & e & st2 & Ep & Ej). by exists b, u, st1, j, e, st2.
Qed.

Lemma json_print_parse_witness :
  exists b u st1 j e st2,
    print demo_tree true tt demo_memory = Ok (Some (b, Some <$> (u ++ [0]))) tt st1 /\
    cJSON_ParseWithOpts (text_of u) true tt st1 = Ok (Some j, e) tt st2 /\ to_json j = to_json demo_tree.
Proof.
  apply json_print_parse; [exact demo_numbers| |reflexivity|].
  - vm_compute. set_solver.
  - intros u Hu. vm_compute in Hu. injection Hu as <-. by vm_compute.
Defined.

(** ** Integers *)

(** A number the type has is not rounded. *)
Lemma round_valid s m e : bounded 53 1024 m e = true -> binary_round_aux 53 1024 s (Z.pos m) e loc_Exact = S754_finite s m e.
Proof.
  unfold bounded, canonical_mantissa. intros [Hc He]%andb_true_iff. apply Z.eqb_eq in Hc.
  assert (Hs : shr_fexp 53 1024 (Z.pos m) e loc_Exact = (Build_shr_record (Z.pos m) false false, e)).
  { unfold shr_fexp. cbn [Zdigits2]. rewrite Hc, Z.sub_diag. done. }
  unfold binary_round_aux. rewrite Hs. cbn [shr_m loc_of_shr_record round_nearest_even]. rewrite Hs. cbn [shr_m]. by rewrite He.
Qed.

Lemma iter_xO m p : Z.pos (Pos.iter xO m p) = Z.pos m * 2 ^ Z.pos p.
Proof.
  induction p as [|p IH] using Pos.peano_ind; [cbn; lia|]. rewrite Pos.iter_succ, Pos2Z.inj_xO, IH, Pos2Z.inj_succ, Z.pow_succ_r by lia. lia.
Qed.

Lemma round_int s m : Z.pos m < 2 ^ 53 -> binary_round 53 1024 s m 0 = dbl_int (signed s m).
Proof.
  intros Hm. set (d := 52 - Z.log2 (Z.pos m)).
  assert (0 <= Z.log2 (Z.pos m) < 53) as Hlog by (split; [apply Z.log2_nonneg|by apply Z.log2_lt_pow2]).
  assert (Hv : bounded 53 1024 (Z.to_pos (Z.pos m * 2 ^ d)) (- d) = true) by exact (dbl_int_valid (Z.pos m) Hm).
  assert (Ed : dbl_int (signed s m) = S754_finite s (Z.to_pos (Z.pos m * 2 ^ d)) (- d)) by (by destruct s).
  assert (Hf : fexp 53 1024 (Z.pos (digits2_pos m) + 0) = - d).
  { unfold fexp, emin. rewrite digits2_pos_size, Zpos_size. lia. }
  unfold binary_round. rewrite Hf, Ed, <- round_valid by done. unfold shl_align. rewrite Z.sub_0_r.
  destruct d as [|p|p] eqn:E; cbn [Z.opp].
  - do 2 f_equal. cbn. by rewrite Z.mul_1_r.
  - do 2 f_equal. apply Pos2Z.inj. rewrite iter_xO, Z2Pos.id; [done|]. by apply Z.mul_pos_pos, Z.pow_pos_nonneg.
  - lia.
Qed.

(** The decimal text of an integer is read as the integer. *)
Lemma decimal_int n : Z.abs n < 2 ^ 53 -> dbl_of_decimal (n <? 0) (Z.abs n) 0 = dbl_int n.
Proof.
  intros Hn. unfold dbl_of_decimal. change (10 ^ 0) with 1. rewrite Z.mul_1_r. destruct n as [|m|m]; [done|..].
  - exact (round_int false m Hn).
  - exact (round_int true m Hn).
Qed.

Lemma strtod_int n : Z.abs n < 2 ^ 53 -> strtod (print_int n) = Some (dbl_int n, []).
Proof.
  intros Hn. destruct (print_nat_spec (Z.abs n)) as (Hd & Hv & _ & Hl & _); [lia|].
  set (x := Num (n <? 0) (print_nat (Z.abs n)) None None).
  assert (number_ok x) as Hx by (repeat split; [done|]; intros E0; change (n_int x) with (print_nat (Z.abs n)) in E0; by rewrite E0 in Hl).
  assert (print_int n = number_text x) as ->.
  { unfold print_int, number_text, x. cbn [n_neg n_int n_frac n_exp frac_text exp_text]. rewrite !app_nil_r.
    destruct (Z.ltb_spec n 0); [by rewrite Z.abs_neq by lia|by rewrite Z.abs_eq by lia]. }
  rewrite strtod_number by done. unfold number_value, x. cbn [n_neg n_int n_frac n_exp default exp_value]. rewrite app_nil_r, Hv.
  change (0 - zlen []) with 0. by rewrite decimal_int.
Qed.

Lemma printf_int p n : n <> 0 -> Z.abs n < 10 ^ p -> Z.abs n < 2 ^ 53 -> 0 < p -> printf_g p (dbl_int n) = print_int n.
Proof.
  intros H0 Hp Hn Hp0. assert (Hpos : forall m, Z.pos m < 10 ^ p -> Z.pos m < 2 ^ 53 ->
    let d := 52 - Z.log2 (Z.pos m) in
    printf_g_pos p (Z.pos (Z.to_pos (Z.pos m * 2 ^ d)) * 2 ^ Z.max 0 (- d)) (2 ^ Z.max 0 (- - d)) = print_nat (Z.pos m)).
  { intros m Hm1 Hm2 d. assert (Z.log2 (Z.pos m) < 53) as Hl by (by apply Z.log2_lt_pow2). unfold d in *. rewrite dbl_int_shift by done.
    rewrite Z.opp_involutive, Z.max_l, Z.max_r, Z.mul_1_r by lia. apply printf_g_pos_int; [lia| |lia]. apply Z.pow_pos_nonneg; lia. }
  destruct n as [|m|m]; [done|..]; cbn [dbl_int printf_g]; rewrite Hpos by done; done.
Qed.

(** An integer of at most 15 digits is printed and read back, whatever
    [valueint] holds of it. *)
Lemma recovers_int n : Z.abs n < 10 ^ 15 -> recovers (dbl_int n) (saturate (dbl_int n)).
Proof.
  intros Hn. assert (Z.abs n < 2 ^ 53) as Ha by (change (10 ^ 15) with 1000000000000000 in Hn; cbn; lia).
  assert (finite (dbl_int n) = true) as Hf by (by destruct n). pose proof (strtod_int n Ha) as Hs.
  destruct (decide (n = 0)) as [->|H0]; [done|]. unfold recovers, number_chars_of. rewrite Hf. cbn [negb].
  rewrite (is_int_eq _ n) by (by apply dbl_int_is_int). rewrite !printf_int by (try done; lia). rewrite Hs.
  destruct (Z.eqb_spec n (saturate (dbl_int n))) as [<-|_]; [done|]. by destruct (compare_double _ _).
Qed.

(** ** The parser and the printer as their callers see them *)

(** A store with all the memory there is. *)
Definition roomy : store := Store ∅ 0 [] (ParseError CJSON_PARSE_OK EmptyString).

(** The value of a text; the rest of the text is not looked at unless
    [require]. *)
Definition parse_text (require : bool) (text : string) : option cJSON :=
  match cJSON_ParseWithOpts text require tt roomy with
  | Ok (Some i, _) _ _ => Some (to_json i)
  | _ => None
  end.

Lemma parse_text_document require text v : json_document (bytes_of (c_string text)) v -> parse_text require text = Some v.
Proof.
  intros Hd. unfold parse_text, cJSON_ParseWithOpts, cJSON_ParseWithLengthOpts.
  pose proof (parse_root_ok (bytes_of (c_string text) ++ [0]) require ∅ roomy eq_refl ltac:(done)) as Hp.
  pose proof (parse_root_yields _ require v Hd roomy eq_refl) as Hy.
  destruct (parse_root _ require (ParseBuffer 0 0) roomy) as [j b st'|b st'|]; [|done|done]. destruct Hy as [_ ->]. done.
Qed.

(** The tree of a value, as it is built: the blocks do not matter here. *)
Fixpoint tree_of (name : option cstr) (j : cJSON) : item :=
  match j with
  | JNull => Item 0 cJSON_NULL None 0 zero_double name []
  | JBool b => Item 0 (if b then cJSON_True else cJSON_False) None 0 zero_double name []
  | JNumber x => Item 0 cJSON_Number None (saturate x) x name []
  | JString s => Item 0 cJSON_String (Some (CStr 0 s)) 0 zero_double name []
  | JArray l => Item 0 cJSON_Array None 0 zero_double name (map (tree_of None) l)
  | JObject ms => Item 0 cJSON_Object None 0 zero_double name (map (fun m => tree_of (Some (CStr 0 m.1)) m.2) ms)
  end.

(** The text [cJSON_PrintUnformatted] returns. *)
Definition print_unformatted (j : cJSON) : string := text_of (default [] (render false (tree_of None j) 0)).

(** Whether [cJSON_PrintPreallocated] manages with [n] bytes. *)
Definition preallocated_fits (n : Z) (j : cJSON) : bool :=
  match cJSON_PrintPreallocated (tree_of None j) n false tt roomy with Ok (ok, _) _ _ => ok | _ => false end.

(** ** Values that are printed exactly *)

Section cjson_ind.
  Context (P : cJSON -> Prop) (HN : P JNull) (HB : forall b, P (JBool b)) (HD : forall x, P (JNumber x)) (HS : forall s, P (JString s))
    (HA : forall l, Forall P l -> P (JArray l)) (HO : forall ms, Forall (fun m => P m.2) ms -> P (JObject ms)).

Fixpoint cjson_tree_ind (j : cJSON) : P j :=
  match j with
  | JNull => HN
  | JBool b => HB b
  | JNumber x => HD x
  | JString s => HS s
  | JArray l => HA l ((fix go (l : list cJSON) : Forall P l :=
      match l with [] => List.Forall_nil _ | j :: l => List.Forall_cons _ _ _ (cjson_tree_ind j) (go l) end) l)
  | JObject ms => HO ms ((fix go (ms : list (string * cJSON)) : Forall (fun m => P m.2) ms :=
      match ms with [] => List.Forall_nil _ | m :: ms => List.Forall_cons _ _ _ (cjson_tree_ind m.2) (go ms) end) ms)
  end.

End cjson_ind.

(** The numbers are integers of at most 15 digits, the nesting at most [n]. *)
Fixpoint ints_ok (n : nat) (j : cJSON) {struct j} : Prop :=
  match j, n with
  | JNumber x, _ => exists z, x = dbl_int z /\ Z.abs z < 10 ^ 15
  | JArray l, S n => each (ints_ok n) l
  | JObject ms, S n => each (fun m => ints_ok n m.2) ms
  | JArray _, O | JObject _, O => False
  | _, _ => True
  end.

(** No string has a NUL in it. *)
Fixpoint texts_ok (j : cJSON) : Prop :=
  match j with
  | JString s => c_string s = s
  | JArray l => each texts_ok l
  | JObject ms => each (fun m => c_string m.1 = m.1 /\ texts_ok m.2) ms
  | _ => True
  end.

Lemma saturate_int z : Z.abs z < 2 ^ 53 -> INT_MIN <= saturate (dbl_int z) <= INT_MAX.
Proof.
  intros Hz. pose proof (dbl_int_is_int z Hz) as Hi. unfold saturate, INT_MIN, INT_MAX. rewrite (is_int_gt _ z), (is_int_eq _ z), (is_int_le _ z) by done.
  assert (dbl_trunc (dbl_int z) = z) as -> by (apply dbl_eqZ_is_int; rewrite (is_int_eq _ z Hi); apply Z.eqb_refl).
  bcase; [lia|]. bcase; lia.
Qed.

Lemma tree_of_ok j : forall n name, ints_ok n j -> json_tree n (tree_of name j) /\ numbers_ok (tree_of name j).
Proof.
  assert (Hz : valid_binary 53 1024 zero_double = true /\ INT_MIN <= 0 <= INT_MAX) by done.
  induction j as [|b|x|s|l IH|ms IH] using cjson_tree_ind; intros n name Hj.
  - split; [left; cbn; set_solver|]. done.
  - split; [left; destruct b; cbn; set_solver|]. done.
  - cbn [ints_ok] in Hj. destruct Hj as (z & -> & Hb).
    assert (Z.abs z < 2 ^ 53) as Ha by (change (10 ^ 15) with 1000000000000000 in Hb; cbn; lia). split.
    + right. left. split; [done|]. split; [by destruct z|]. by apply recovers_int.
    + split; [by apply dbl_int_valid|]. split; [by apply saturate_int|done].
  - split; [left; cbn; set_solver|]. done.
  - destruct n as [|n]; [done|]. cbn [ints_ok] in Hj. apply each_forall in Hj.
    assert (Hall : Forall (fun i => json_tree n i /\ numbers_ok i) (map (tree_of None) l)).
    { apply List.Forall_map. rewrite Forall_forall in *. intros j Hjl. apply IH; auto. }
    apply List.Forall_and_inv in Hall as [H1 H2]. split; [right; right; split; [cbn; set_solver|by apply each_forall]|].
    split; [done|]. split; [done|by apply each_forall].
  - destruct n as [|n]; [done|]. cbn [ints_ok] in Hj. apply each_forall in Hj.
    assert (Hall : Forall (fun i => json_tree n i /\ numbers_ok i) (map (fun m => tree_of (Some (CStr 0 m.1)) m.2) ms)).
    { apply List.Forall_map. rewrite Forall_forall in *. intros m Hm. apply IH; auto. }
    apply List.Forall_and_inv in Hall as [H1 H2]. split; [right; right; split; [cbn; set_solver|by apply each_forall]|].
    split; [done|]. split; [done|by apply each_forall].
Qed.

Lemma tree_of_name j name : item_name (tree_of name j) = c_text name.
Proof. by destruct j, name. Qed.

Lemma tree_of_value j : forall name, texts_ok j -> to_json (tree_of name j) = j.
Proof.
  induction j as [|b|x|s|l IH|ms IH] using cjson_tree_ind; intros name Hj; [done|by destruct b|done|cbn in *; by rewrite Hj|..].
  - cbn. f_equal. cbn [texts_ok] in Hj. apply each_forall in Hj. rewrite map_map.
    induction l as [|j l IHl]; [done|]. inversion IH as [|?? Hi Hl]; subst. inversion Hj as [|?? Hji Hjl]; subst. cbn [map].
    rewrite Hi by done. f_equal. by apply IHl.
  - cbn. f_equal. cbn [texts_ok] in Hj. apply each_forall in Hj. rewrite map_map.
    induction ms as [|[k j] ms IHl]; [done|]. inversion IH as [|?? Hi Hl]; subst. inversion Hj as [|?? [Hk Hji] Hjl]; subst. cbn [map fst snd] in *.
    rewrite tree_of_name, Hi by done. cbn [c_text chars]. rewrite Hk. f_equal. by apply IHl.
Qed.

(** What is printed of such a value is a text of it. *)
Lemma printed_document fmt j :
  ints_ok max_nesting j -> texts_ok j -> exists u, render fmt (tree_of None j) 0 = Some u /\ text_bytes u /\ json_document u j.
Proof.
  intros Hj Ht. destruct (tree_of_ok j max_nesting None Hj) as [Htree Hn].
  destruct (render_text fmt _ Hn max_nesting 0 Htree) as (u & Eu & Hu). rewrite tree_of_value in Hu by done. exists u. split; [done|].
  split; [by eapply (proj1 json_text_bytes)|]. exists [], [], u, []. rewrite app_nil_r. split; [done|]. split; [by left|].
  split; [constructor|]. by split; [constructor|].
Qed.
