(* ===== verification/JsonBuild.v ===== *)
(** * Building JSON trees (cJSON.c)

    The constructors of items and the functions that add a member to an
    object.  The state of the monad is the object that grows. *)

From stdpp Require Import prelude list strings gmultiset.
From Stdlib Require Import SpecFloat.
From S2P Require Import Prelude RateLimit CJson Decimal JsonParse JsonSafety.

(** ** Constructors *)

Section create.
  Context {S : Type}.

(** [malloc] and [memset]. *)
Definition cJSON_New_Item : M S (option item) :=
  do node <- alloc; ret ((fun self => mk_item self None unfilled) <$> node).

Definition set_filled (f : filled) (i : item) : item :=
  match i with Item self _ _ _ _ string _ => mk_item self string f end.

(** A constructor that only fills in fields. *)
Definition create (f : filled) : M S (option item) :=
  do item <- cJSON_New_Item; ret (set_filled f <$> item).

Definition cJSON_CreateNumber (num : double) : M S (option item) :=
  create (Filled cJSON_Number None (saturate num) num []).
Definition cJSON_CreateObject : M S (option item) := create (Filled cJSON_Object None 0 zero_double []).
Definition cJSON_CreateArray : M S (option item) := create (Filled cJSON_Array None 0 zero_double []).

(** The characters up to the NUL are copied. *)
Definition cJSON_strdup (string : string) : M S (option cstr) := strdup (c_string string).

Definition cJSON_CreateString (string : string) : M S (option item) :=
  do item <- cJSON_New_Item;
  match item with
  | None => ret None
  | Some item =>
      do valuestring <- cJSON_strdup string;
      let item := set_filled (Filled cJSON_String valuestring 0 zero_double []) item in
      match valuestring with
      | None => delete_item item;; ret None
      | Some _ => ret (Some item)
      end
  end.

End create.

(** ** Adding to an array or an object *)

(** The item goes behind the last child. *)
Definition add_item_to_array (i : item) : M item bool :=
  modify (fun array => match array with
    Item self type valuestring valueint valuedouble string child =>
      Item self type valuestring valueint valuedouble string (child ++ [i]) end);;
  ret true.

Definition set_name (key : option cstr) (type : Z) (i : item) : item :=
  match i with Item self _ valuestring valueint valuedouble _ child => Item self type valuestring valueint valuedouble key child end.

(** Without [constant_key]; [inl] is the item it could not add. *)
Definition add_item_to_object (string : string) (i : item) : M item (item + unit) :=
  do new_key <- cJSON_strdup string;
  match new_key with
  | None => ret (inl i)
  | Some new_key =>
      match i with
      | Item _ type _ _ _ old _ =>
          let new_type := Z.ldiff type cJSON_StringIsConst in
          (if has_flag type cJSON_StringIsConst then ret tt else free_str old);;
          add_item_to_array (set_name (Some new_key) new_type i);;
          ret (inr tt)
      end
  end.

(** What [cJSON_AddNumberToObject], [cJSON_AddStringToObject] and
    [cJSON_AddObjectToObject] share: whether the item was added. *)
Definition add_new (name : string) (new : M item (option item)) : M item bool :=
  do i <- new;
  match i with
  | None => ret false
  | Some i =>
      do r <- add_item_to_object name i;
      match r with
      | inl i => delete_item i;; ret false
      | inr _ => ret true
      end
  end.

Definition cJSON_AddNumberToObject (name : string) (number : double) : M item bool := add_new name (cJSON_CreateNumber number).
Definition cJSON_AddStringToObject (name string : string) : M item bool := add_new name (cJSON_CreateString string).
Definition cJSON_AddObjectToObject (name : string) : M item bool := add_new name cJSON_CreateObject.

(** Work on the child that was added last, through the pointer the caller
    got. *)
Definition on_last {A : Type} (m : M item A) : M item A := fun object st =>
  match object with
  | Item self type valuestring valueint valuedouble string child =>
      match reverse child with
      | [] => UB
      | obj :: before =>
          let back obj := Item self type valuestring valueint valuedouble string (reverse before ++ [obj]) in
          match m obj st with
          | Ok a obj st => Ok a (back obj) st
          | Err obj st => Err (back obj) st
          | UB => UB
          end
      end
  end.

(** [obj = cJSON_AddObjectToObject(parent, name); if (!obj || ...) return -1;] *)
Definition add_object (name : string) (fill : M item bool) : M item bool :=
  do obj <- cJSON_AddObjectToObject name;
  if obj : bool then on_last fill else ret false.

(** [||] of failures. *)
Definition both (m1 m2 : M item bool) : M item bool := do ok <- m1; if ok : bool then m2 else ret false.

(** ** What is added *)

(** An object of the members [ms] that owns its blocks. *)
Definition is_object (i : item) (ms : list (string * cJSON)) : Prop :=
  match i with Item _ type _ _ _ _ child => type = cJSON_Object /\ map (fun c => (item_name c, to_json c)) child = ms end.

Lemma is_object_json i ms : is_object i ms -> to_json i = JObject ms.
Proof. destruct i as [self ty vs vi vd nm ch]. intros [-> <-]. done. Qed.

(** [m] adds the members [ms], or some of them when memory runs out; either
    way the object owns what was allocated. *)
Definition grows {mem : bool} (m : M item bool) (ms : list (string * cJSON)) : Prop :=
  forall i ms0 H, is_object i ms0 ->
  triple mem m
    (fun ok i' H' => H' = H ⊎ item_foot i' /\ item_name i' = item_name i /\ (exists ms', is_object i' ms' /\ (ok = true -> ms' = ms0 ++ ms)) /\
       (mem = true -> ok = true))
    (fun _ _ => False) i (H ⊎ item_foot i).

Section grows.
  Context {mem : bool}.
  Abbreviation grows := (grows (mem := mem)).

Lemma grows_both m1 m2 ms1 ms2 : grows m1 ms1 -> grows m2 ms2 -> grows (both m1 m2) (ms1 ++ ms2).
Proof.
  intros H1 H2 i ms0 H Hi. apply hoare_bind. eapply hoare_mono; [by apply H1| |done].
  intros [|] i1 h1 (-> & Hn1 & (ms & Hi1 & Hms) & Hm).
  - specialize (Hms eq_refl) as ->. eapply hoare_mono; [by apply H2| |done]. intros ok i2 h2 (-> & Hn2 & (ms' & Hi2 & Hms') & Hm2).
    split; [done|]. split; [congruence|]. split; [|done]. exists ms'. split; [done|]. intros Hok. rewrite (Hms' Hok). by rewrite app_assoc.
  - apply hoare_ret. split; [done|]. split; [done|]. split; [by exists ms|done].
Qed.

Lemma foot_append self ty vs vi vd nm ch i : has_flag ty cJSON_IsReference = false ->
  item_foot (Item self ty vs vi vd nm (ch ++ [i])) = item_foot (Item self ty vs vi vd nm ch) ⊎ item_foot i.
Proof.
  intros Hr. change (Item self ty vs vi vd nm (ch ++ [i])) with (mk_item self nm (Filled ty vs vi vd (ch ++ [i]))).
  change (Item self ty vs vi vd nm ch) with (mk_item self nm (Filled ty vs vi vd ch)).
  rewrite !item_foot_mk, !filled_foot_plain, items_foot_app by done. cbn [items_foot]. rewrite heap_id, !(assoc_L (⊎)). done.
Qed.

(** A new item of plain type, without a name. *)
Definition fresh_item (v : cJSON) (i : item) : Prop :=
  match i with Item _ type _ _ _ string _ => string = None /\ to_json i = v /\ Z.ldiff type cJSON_StringIsConst = type end.

Definition makes (new : M item (option item)) (v : cJSON) : Prop :=
  forall s H, triple mem new
    (fun r s' H' => s' = s /\ match r with Some i => H' = H ⊎ item_foot i /\ fresh_item v i | None => H' = H /\ mem = false end)
    (fun _ _ => False) s H.

Lemma hoare_strdup {S : Type} text (Q : option cstr -> S -> gmultiset nat -> Prop) E s H :
  (forall p, Q (Some (CStr p text)) s (H ⊎ {[+ p +]})) -> (mem = false -> Q None s H) -> triple mem (strdup text) Q E s H.
Proof. intros H1 H2. apply hoare_bind, hoare_alloc_mem; [intros p; apply hoare_ret; apply H1|intros Hm; by apply hoare_ret, H2]. Qed.

Lemma makes_new : forall s H, triple mem cJSON_New_Item
    (fun r (s' : item) H' => s' = s /\
       match r with Some i => exists p, i = mk_item p None unfilled /\ H' = H ⊎ {[+ p +]} | None => H' = H /\ mem = false end)
    (fun _ _ => False) s H.
Proof. intros s H. apply hoare_bind, hoare_alloc_mem; [intros p|intros Hm]; apply hoare_ret; split; try done. by exists p. Qed.

Lemma makes_create f v : filled_foot f = ∅ -> has_flag (f_type f) cJSON_StringIsConst = false ->
  (forall p, fresh_item v (mk_item p None f)) -> makes (create f) v.
Proof.
  intros Hf Hc Hv s H. apply hoare_bind. eapply hoare_mono; [apply makes_new| |done]. intros [i|] s' h [-> Hr]; apply hoare_ret; [|done].
  destruct Hr as (p & -> & ->). split; [done|]. split; [|apply Hv]. cbn [set_filled mk_item unfilled].
  change (Item p ?a ?b ?c ?d None ?e) with (mk_item p None f). rewrite item_foot_mk, Hf, Hc. cbn [str_foot]. by rewrite !heap_id.
Qed.

Lemma makes_number x : makes (cJSON_CreateNumber x) (JNumber x).
Proof. by apply makes_create. Qed.

Lemma makes_object : makes cJSON_CreateObject (JObject []).
Proof. by apply makes_create. Qed.

Lemma makes_string text : makes (cJSON_CreateString text) (JString (c_string text)).
Proof.
  intros s H. apply hoare_bind. eapply hoare_mono; [apply makes_new| |done]. intros [i|] s' h [-> Hr]; [|by apply hoare_ret].
  destruct Hr as (p & -> & ->). apply hoare_bind, hoare_strdup.
  - intros q. apply hoare_ret. split; [done|]. split; [|cbn; by rewrite c_string_idem].
    change (set_filled _ _) with (mk_item p None (Filled cJSON_String (Some (CStr q (c_string text))) 0 zero_double [])).
    rewrite item_foot_mk, filled_foot_plain by done. cbn [f_type str_foot items_foot blk]. rewrite !heap_id, (assoc_L (⊎)). done.
  - intros Hm. apply hoare_bind. change (set_filled _ _) with (mk_item p None (Filled cJSON_String None 0 zero_double [])).
    eapply hoare_heap; [|apply hoare_delete_item; by apply hoare_ret].
    rewrite item_foot_mk, filled_foot_plain by done. cbn [f_type str_foot items_foot]. by rewrite !heap_id.
Qed.

Lemma no_const type : Z.ldiff type cJSON_StringIsConst = type -> has_flag type cJSON_StringIsConst = false.
Proof.
  intros Ht. unfold has_flag. apply negb_false_iff, Z.eqb_eq. rewrite <- Ht. apply Z.bits_inj'. intros n Hn.
  rewrite Z.land_spec, Z.ldiff_spec, Z.bits_0. destruct (Z.testbit type n), (Z.testbit cJSON_StringIsConst n); done.
Qed.

(** A named item owns its name too. *)
Lemma foot_named key type v i : match i with Item _ ty _ _ _ _ _ => ty = type end -> fresh_item v i ->
  item_foot (set_name (Some key) type i) = item_foot i ⊎ {[+ blk key +]} /\ to_json (set_name (Some key) type i) = v /\
  item_name (set_name (Some key) type i) = c_string (chars key).
Proof.
  destruct i as [self ty vs vi vd nm ch]. intros -> (-> & Hv & Hc). split; [|done].
  cbn [set_name]. change (Item self type vs vi vd ?n ch) with (mk_item self n (Filled type vs vi vd ch)).
  rewrite !item_foot_mk. cbn [f_type]. rewrite no_const by done. cbn [str_foot]. rewrite heap_id, <- !(assoc_L (⊎)). f_equal. apply (comm_L (⊎)).
Qed.

Definition with_child (i c : item) : item :=
  match i with Item self type valuestring valueint valuedouble string child =>
    Item self type valuestring valueint valuedouble string (child ++ [c]) end.

Lemma with_child_ok i ms c : is_object i ms ->
  is_object (with_child i c) (ms ++ [(item_name c, to_json c)]) /\ item_foot (with_child i c) = item_foot i ⊎ item_foot c.
Proof.
  destruct i as [self ty vs vi vd nm ch]. intros [-> <-]. split; [|by apply foot_append]. split; [done|]. by rewrite map_app.
Qed.

(** The item has a name. *)
Definition named (i : item) : Prop := match i with Item _ _ _ _ _ string _ => is_Some string end.

(** The new member is the last child. *)
Lemma add_new_ok name new v i ms0 H : makes new v -> is_object i ms0 ->
  triple mem (add_new name new)
    (fun ok i' H' =>
       if ok : bool then exists c, i' = with_child i c /\ H' = H ⊎ item_foot i' /\ item_name c = c_string name /\ to_json c = v /\ named c
       else i' = i /\ H' = H ⊎ item_foot i /\ mem = false)
    (fun _ _ => False) i (H ⊎ item_foot i).
Proof.
  intros Hnew Hi0. apply hoare_bind. eapply hoare_mono; [apply Hnew| |done].
  intros [c|] s' h [-> Hr]; [|by destruct Hr as [-> Hm]; apply hoare_ret].
  destruct Hr as [-> Hc]. destruct c as [self2 type2 vs2 vi2 vd2 nm2 ch2] eqn:Ei.
  assert (nm2 = None /\ Z.ldiff type2 cJSON_StringIsConst = type2) as [-> Ht] by (split; apply Hc).
  apply hoare_bind, hoare_bind, hoare_strdup.
  - intros p. rewrite Ht. apply hoare_bind. assert (forall b : bool, (if b then ret tt else free_str None) = @ret item unit tt) as -> by (by intros []).
    apply hoare_ret, hoare_bind, hoare_bind, hoare_modify, hoare_ret, hoare_ret, hoare_ret. rewrite <- Ei in Hc.
    destruct (foot_named (CStr p (c_string name)) type2 v c ltac:(by rewrite Ei) Hc) as (Hf & Hv & Hn). rewrite <- Ei.
    exists (set_name (Some (CStr p (c_string name))) type2 c). split; [done|].
    split; [|split; [rewrite Hn; apply c_string_idem|]]; [|split; [done|rewrite Ei; by eexists]].
    change (H ⊎ item_foot i ⊎ item_foot c ⊎ {[+ p +]} = H ⊎ item_foot (with_child i (set_name (Some (CStr p (c_string name))) type2 c))).
    destruct (with_child_ok i ms0 (set_name (Some (CStr p (c_string name))) type2 c) Hi0) as [_ ->]. rewrite Hf. cbn [blk]. by rewrite !(assoc_L (⊎)).
  - intros Hm. by apply hoare_ret, hoare_bind, hoare_delete_item, hoare_ret.
Qed.

Lemma grows_new name new v : makes new v -> grows (add_new name new) [(c_string name, v)].
Proof.
  intros Hnew i ms0 H Hi. eapply hoare_mono; [by eapply add_new_ok| |done].
  intros [|] i' h.
  - intros (c & -> & -> & Hn & Hv & _). split; [done|]. split; [by destruct i|]. split; [|done]. destruct (with_child_ok i ms0 c Hi) as [Ho _].
    exists (ms0 ++ [(c_string name, v)]). rewrite Hn, Hv in Ho. done.
  - intros (-> & -> & Hm). split; [done|]. split; [done|]. split; [by exists ms0|congruence].
Qed.

Lemma hoare_on_last {A : Type} (m : M item A) Q E i c H :
  triple mem m (fun a c' => Q a (with_child i c')) (fun c' => E (with_child i c')) c H -> triple mem (on_last m) Q E (with_child i c) H.
Proof.
  intros Hm st HH Ha. specialize (Hm st HH Ha). destruct i as [self ty vs vi vd nm ch]. unfold on_last, with_child in *.
  rewrite reverse_snoc. cbn beta iota zeta. rewrite reverse_involutive. by destruct (m c st).
Qed.

Lemma json_object_type i ms : to_json i = JObject ms -> is_object i ms.
Proof.
  destruct i as [self ty vs vi vd nm ch]. cbn [to_json is_object].
  destruct (ty =? cJSON_False); [done|]. destruct (ty =? cJSON_True); [done|]. destruct (ty =? cJSON_Number); [done|].
  destruct (ty =? cJSON_String); [done|]. destruct (ty =? cJSON_Array); [done|]. destruct (Z.eqb_spec ty cJSON_Object); [|done]. by intros [= <-].
Qed.

Lemma grows_object name fill ms : grows fill ms -> grows (add_object name fill) [(c_string name, JObject ms)].
Proof.
  intros Hfill i ms0 H Hi. apply hoare_bind. eapply hoare_mono; [eapply add_new_ok; [apply makes_object|exact Hi]| |done].
  intros [|] i' h.
  - intros (c & -> & -> & Hn & Hv & _). apply hoare_on_last. destruct (with_child_ok i ms0 c Hi) as [_ ->].
    apply json_object_type in Hv. rewrite (assoc_L (⊎)). eapply hoare_mono; [by apply Hfill| |done].
    intros ok c' h (-> & Hn' & (ms' & Hc' & Hms) & Hm). destruct (with_child_ok i ms0 c' Hi) as [Ho ->]. split; [by rewrite (assoc_L (⊎))|]. split; [by destruct i|]. split; [|done].
    eexists. split; [exact Ho|]. intros Hok. specialize (Hms Hok) as ->. rewrite (is_object_json _ _ Hc'). by rewrite Hn', Hn.
  - intros (-> & -> & Hm). apply hoare_ret. split; [done|]. split; [done|]. split; [by exists ms0|congruence].
Qed.
End grows.
