(* ===== verification/JsonNames.v ===== *)
(** * Comparing names (cJSON.c, cJSON_Utils.c)

    [strcmp] and the comparison without regard to case, over the bytes before
    the terminating NUL; both are the sign of a total order. *)

From stdpp Require Import prelude list sorting.
From S2P Require Import Prelude.

(** [tolower] in the C locale. *)
Definition tolower (c : Z) : Z := if (65 <=? c) && (c <=? 90) then c + 32 else c.

(** Over the bytes before the terminating NUL. *)
Fixpoint case_insensitive_strcmp (string1 string2 : list Z) : Z :=
  match string1, string2 with
  | [], [] => 0
  | [], d :: _ => 0 - tolower d
  | c :: _, [] => tolower c - 0
  | c :: string1, d :: string2 =>
      if tolower c =? tolower d then case_insensitive_strcmp string1 string2 else tolower c - tolower d
  end.

(** [strcmp]: the difference of the first bytes that differ. *)
Fixpoint strcmp (a b : list Z) : Z :=
  match a, b with
  | [], [] => 0
  | [], d :: _ => 0 - d
  | c :: _, [] => c - 0
  | c :: a, d :: b => if c =? d then strcmp a b else c - d
  end.

(** [compare_strings] of cJSON_Utils.c: [NULL] is equal to nothing. *)
Definition compare_strings (case_sensitive : bool) (string1 string2 : option (list Z)) : Z :=
  match string1, string2 with
  | Some string1, Some string2 => if case_sensitive then strcmp string1 string2 else case_insensitive_strcmp string1 string2
  | _, _ => 1
  end.

(** ** The order *)

(** The bytes of a C string. *)
Definition c_chars (a : list Z) : Prop := Forall (fun c => 0 < c < 256) a.

Lemma tolower_range c : 0 < c < 256 -> 0 < tolower c < 256.
Proof. unfold tolower. repeat bcase; lia. Qed.

Lemma c_chars_lower a : c_chars a -> c_chars (map tolower a).
Proof. induction 1; cbn [map]; constructor; [by apply tolower_range|done]. Qed.

Lemma case_insensitive_lower a : forall b, case_insensitive_strcmp a b = strcmp (map tolower a) (map tolower b).
Proof. induction a as [|c a IH]; intros [|d b]; cbn [case_insensitive_strcmp map strcmp]; [done..|]. by rewrite IH. Qed.

Lemma strcmp_antisym a : forall b, strcmp b a = - strcmp a b.
Proof.
  induction a as [|c a IH]; intros [|d b]; cbn [strcmp]; [done|lia|lia|]. rewrite (Z.eqb_sym d c). bcase; [apply IH|lia].
Qed.

Lemma strcmp_refl a : strcmp a a = 0.
Proof. induction a as [|c a IH]; cbn [strcmp]; [done|]. by rewrite Z.eqb_refl. Qed.

Lemma strcmp_eq a : forall b, c_chars a -> c_chars b -> strcmp a b = 0 -> a = b.
Proof.
  induction a as [|c a IH]; intros [|d b] Ha Hb; cbn [strcmp]; [done|inversion Hb; lia|inversion Ha; lia|].
  inversion Ha; inversion Hb; subst. bcase; [intros H'; subst; f_equal; by apply IH|lia].
Qed.

Lemma strcmp_trans a : forall b c, c_chars a -> c_chars b -> c_chars c -> strcmp a b <= 0 -> strcmp b c <= 0 -> strcmp a c <= 0.
Proof.
  induction a as [|x a IH]; intros [|y b] [|z c] Ha Hb Hc; cbn [strcmp]; try lia; inversion Ha; inversion Hb; inversion Hc; subst; try lia.
  repeat bcase; try lia. by apply IH.
Qed.

(** Of names: [a] may come before [b]. *)
Definition name_le (case_sensitive : bool) (a b : list Z) : Prop := compare_strings case_sensitive (Some a) (Some b) <= 0.

Lemma name_le_total cs a b : name_le cs a b \/ name_le cs b a.
Proof.
  unfold name_le, compare_strings. rewrite !case_insensitive_lower, (strcmp_antisym a b), (strcmp_antisym (map tolower a) (map tolower b)).
  destruct cs; lia.
Qed.

Lemma name_le_trans cs a b c : c_chars a -> c_chars b -> c_chars c -> name_le cs a b -> name_le cs b c -> name_le cs a c.
Proof.
  unfold name_le, compare_strings. rewrite !case_insensitive_lower. intros Ha Hb Hc.
  destruct cs; [by apply strcmp_trans|by apply strcmp_trans; apply c_chars_lower].
Qed.

Lemma compare_strings_swap cs a b : ~ compare_strings cs (Some a) (Some b) < 0 -> name_le cs b a.
Proof.
  unfold name_le, compare_strings. rewrite !case_insensitive_lower, (strcmp_antisym a b), (strcmp_antisym (map tolower a) (map tolower b)).
  destruct cs; lia.
Qed.

(** ** Merge sort, as [sort_list] does it *)

Section msort.
  Context {A : Type} (lt : A -> A -> bool).

(** Each element is less than the next. *)
Fixpoint ordered (l : list A) : bool :=
  match l with x :: (y :: _) as r => lt x y && ordered r | _ => true end.

Fixpoint merge_lists (l1 : list A) : list A -> list A :=
  fix go (l2 : list A) : list A :=
    match l1, l2 with
    | [], _ => l2
    | _, [] => l1
    | x :: r1, y :: r2 => if lt x y then x :: merge_lists r1 l2 else y :: go r2
    end.

Fixpoint msort (fuel : nat) (l : list A) : list A :=
  match fuel, l with
  | S fuel, _ :: _ :: _ =>
      if ordered l then l
      else let k := Nat.div2 (S (length l)) in merge_lists (msort fuel (take k l)) (msort fuel (drop k l))
  | _, _ => l
  end.

Lemma merge_lists_cons x l1 y l2 :
  merge_lists (x :: l1) (y :: l2) = if lt x y then x :: merge_lists l1 (y :: l2) else y :: merge_lists (x :: l1) l2.
Proof. done. Qed.

Lemma merge_lists_nil_r l : merge_lists l [] = l.
Proof. by destruct l. Qed.

Lemma merge_lists_perm l1 : forall l2, merge_lists l1 l2 ≡ₚ l1 ++ l2.
Proof.
  induction l1 as [|x l1 IH1]; intros l2; [by destruct l2|]. induction l2 as [|y l2 IH2]; [by rewrite app_nil_r|].
  rewrite merge_lists_cons. destruct (lt x y); [by rewrite IH1|]. rewrite IH2. by rewrite <- Permutation_middle.
Qed.

Lemma msort_perm fuel : forall l, msort fuel l ≡ₚ l.
Proof.
  induction fuel as [|fuel IH]; intros l; [done|]. destruct l as [|x [|y l]]; [done..|]. cbn [msort]. destruct (ordered _); [done|].
  rewrite merge_lists_perm, !IH. by rewrite take_drop.
Qed.

(** The order on the elements of [P]. *)
Context (P : A -> Prop) (le : A -> A -> Prop).
Context (le_lt : forall x y, P x -> P y -> lt x y = true -> le x y) (lt_le : forall x y, P x -> P y -> lt x y = false -> le y x).
Context (le_trans : forall x y z, P x -> P y -> P z -> le x y -> le y z -> le x z).

Lemma le_before x y l : P x -> P y -> Forall P l -> le x y -> Forall (le y) l -> Forall (le x) l.
Proof.
  intros Hx Hy Hl Hxy. induction Hl as [|z l Hz Hl IH]; intros Hall; constructor; apply List.Forall_cons_iff in Hall as [H1 H2].
  - by apply (le_trans x y z).
  - by apply IH.
Qed.

Lemma ordered_sorted l : Forall P l -> ordered l = true -> StronglySorted le l.
Proof.
  induction l as [|x l IH]; intros HP Ho; [constructor|]. apply List.Forall_cons_iff in HP as [Hx HP]. destruct l as [|y l]; [by repeat constructor|].
  cbn [ordered] in Ho. apply andb_true_iff in Ho as [Hxy Ho]. specialize (IH HP Ho). constructor; [done|].
  apply List.Forall_cons_iff in HP as [Hy HP]. constructor; [by apply le_lt|]. apply StronglySorted_inv in IH as [_ IH]. eapply le_before; [..|exact IH]; try done. by apply le_lt.
Qed.

Lemma merge_lists_sorted l1 : forall l2, Forall P l1 -> Forall P l2 -> StronglySorted le l1 -> StronglySorted le l2 -> StronglySorted le (merge_lists l1 l2).
Proof.
  induction l1 as [|x l1 IH1]; intros l2 HP1 HP2 H1 H2; [by destruct l2|]. induction l2 as [|y l2 IH2]; [done|].
  rewrite merge_lists_cons. apply List.Forall_cons_iff in HP1 as [Hx HP1']. apply List.Forall_cons_iff in HP2 as [Hy HP2'].
  pose proof H1 as H1'. pose proof H2 as H2'. apply StronglySorted_inv in H1' as [S1 F1]. apply StronglySorted_inv in H2' as [S2 F2].
  destruct (lt x y) eqn:E.
  - constructor; [apply IH1; [done|by constructor|done|done]|]. rewrite merge_lists_perm. apply Forall_app. split; [done|].
    constructor; [by apply le_lt|]. eapply le_before; [..|exact F2]; try done. by apply le_lt.
  - constructor; [apply IH2; done|]. rewrite merge_lists_perm. apply Forall_app. split; [|done].
    constructor; [by apply lt_le|]. eapply le_before; [..|exact F1]; try done. by apply lt_le.
Qed.

Lemma msort_sorted fuel : forall l, (length l <= fuel)%nat -> Forall P l -> StronglySorted le (msort fuel l).
Proof.
  induction fuel as [|fuel IH]; intros l Hf HP; [destruct l; [constructor|cbn in Hf; lia]|].
  destruct l as [|x [|y l]]; [constructor|by repeat constructor|]. cbn [msort]. destruct (ordered (x :: y :: l)) eqn:Eo; [by apply ordered_sorted|].
  set (L := x :: y :: l) in *. set (k := Nat.div2 (S (length L))).
  assert (0 < k < length L)%nat as Hk.
  { unfold k. pose proof (Nat.div2_odd (S (length L))) as Hodd. destruct (Nat.odd (S (length L))); cbn [Nat.b2n] in Hodd; unfold L in *; cbn [length] in *; lia. }
  assert (Forall P (take k L) /\ Forall P (drop k L)) as [HP1 HP2] by (by apply Forall_app; rewrite take_drop).
  apply merge_lists_sorted; rewrite ?msort_perm; try done; apply IH; try done; rewrite ?length_take, ?length_drop; lia.
Qed.
End msort.
