(* ===== verification/JsonList.v ===== *)
(** * The sibling lists of cJSON (cJSON.c)

    The elements of an array or object are a doubly linked list: [child]
    points to the first, the last has no [next], and the [prev] of the first
    is the last, so that appending needs no search.  The operations here work
    on the pointers of a heap with one map for each field; the other files
    have the elements as Rocq lists, which [json_list_refines] justifies. *)

From stdpp Require Import prelude list gmap strings.
From S2P Require Import Prelude.

(** ** Pointers *)

(** The fields of the allocated items; a pointer is a number, [NULL] is
    [None]. *)
Record heap := Heap {
  h_next : gmap nat (option nat); h_prev : gmap nat (option nat); h_child : gmap nat (option nat);
}.

(** [None]: an item that is not there is dereferenced. *)
Definition M (A : Type) : Type := heap -> option (A * heap).
Definition ret {A} (a : A) : M A := fun s => Some (a, s).
Definition bind {A B} (m : M A) (k : A -> M B) : M B := fun s => match m s with Some (a, s) => k a s | None => None end.

Declare Scope links_scope.
Delimit Scope links_scope with links.
Notation "'do' x <- m ; f" := (bind m (fun x => f))
  (at level 100, x name, m at level 99, f at level 200, right associativity) : links_scope.
Notation "m ;; f" := (bind m (fun _ => f)) (at level 100, f at level 200, right associativity) : links_scope.
Open Scope links_scope.

Definition deref {A} (p : option nat) (k : nat -> M A) : M A := match p with Some p => k p | None => fun _ => None end.

Definition read (f : heap -> gmap nat (option nat)) (p : option nat) : M (option nat) :=
  deref p (fun p s => (fun v => (v, s)) <$> f s !! p).

(** [p->next], [p->prev] and [p->child]. *)
Definition next : option nat -> M (option nat) := read h_next.
Definition prev : option nat -> M (option nat) := read h_prev.
Definition child : option nat -> M (option nat) := read h_child.

(** The assignments to them. *)
Definition set_next (p v : option nat) : M unit :=
  deref p (fun p s => (fun _ => (tt, Heap (<[p := v]> (h_next s)) (h_prev s) (h_child s))) <$> h_next s !! p).
Definition set_prev (p v : option nat) : M unit :=
  deref p (fun p s => (fun _ => (tt, Heap (h_next s) (<[p := v]> (h_prev s)) (h_child s))) <$> h_prev s !! p).
Definition set_child (p v : option nat) : M unit :=
  deref p (fun p s => (fun _ => (tt, Heap (h_next s) (h_prev s) (<[p := v]> (h_child s)))) <$> h_child s !! p).

Definition is_null (p : option nat) : bool := bool_decide (p = None).
Definition same (p q : option nat) : bool := bool_decide (p = q).

(** ** Operations *)

Definition suffix_object (prev item : option nat) : M unit := set_next prev item;; set_prev item prev.

Definition add_item_to_array (array item : option nat) : M bool :=
  if is_null item || is_null array || same array item then ret false
  else
    do c <- child array;
    (if is_null c then set_child array item;; set_prev item item;; set_next item None
     else
       do p <- prev c;
       if is_null p then ret tt
       else suffix_object p item;; do c <- child array; set_prev c item);;
    ret true.

(** [while ((current_child != NULL) && (index > 0))] *)
Fixpoint walk (current_child : option nat) (index : nat) : M (option nat) :=
  if is_null current_child then ret current_child
  else match index with O => ret current_child | S index => do n <- next current_child; walk n index end.

Definition get_array_item (array : option nat) (index : nat) : M (option nat) :=
  if is_null array then ret None else do c <- child array; walk c index.

Definition cJSON_DetachItemViaPointer (parent item : option nat) : M (option nat) :=
  if is_null parent || is_null item then ret None
  else
    do c <- child parent;
    (if same item c then ret tt else do p <- prev item; do n <- next item; set_next p n);;
    do n <- next item;
    (if is_null n then ret tt else do p <- prev item; set_prev n p);;
    do c <- child parent;
    (if same item c then do n <- next item; set_child parent n
     else
       do n <- next item;
       if is_null n then do c <- child parent; do p <- prev item; set_prev c p else ret tt);;
    set_prev item None;; set_next item None;; ret item.

Definition cJSON_DetachItemFromArray (array : option nat) (which : Z) : M (option nat) :=
  if which <? 0 then ret None
  else do item <- get_array_item array (Z.to_nat which); cJSON_DetachItemViaPointer array item.

Definition cJSON_InsertItemInArray (array : option nat) (which : Z) (newitem : option nat) : M bool :=
  if (which <? 0) || is_null newitem then ret false
  else
    do after <- get_array_item array (Z.to_nat which);
    if is_null after then add_item_to_array array newitem
    else
      do c <- child array;
      do p <- prev after;
      if negb (same after c) && is_null p then ret false
      else
        set_next newitem after;;
        do p <- prev after; set_prev newitem p;;
        set_prev after newitem;;
        do c <- child array;
        (if same after c then set_child array newitem else do p <- prev newitem; set_next p newitem);;
        ret true.

(** Up to the [cJSON_Delete] of the unlinked item. *)
Definition cJSON_ReplaceItemViaPointer (parent item replacement : option nat) : M bool :=
  if is_null parent then ret false
  else
    do c <- child parent;
    if is_null c || is_null replacement || is_null item then ret false
    else if same replacement item then ret true
    else
      do n <- next item; set_next replacement n;;
      do p <- prev item; set_prev replacement p;;
      do n <- next replacement;
      (if is_null n then ret tt else set_prev n replacement);;
      do c <- child parent;
      (if same c item then
         do cp <- prev c;
         (if same cp c then set_prev replacement replacement else ret tt);;
         set_child parent replacement
       else
         do p <- prev replacement;
         (if is_null p then ret tt else set_next p replacement);;
         do n <- next replacement;
         (if is_null n then do c <- child parent; set_prev c replacement else ret tt));;
      set_next item None;; set_prev item None;; ret true.

Definition cJSON_ReplaceItemInArray (array : option nat) (which : Z) (newitem : option nat) : M bool :=
  if which <? 0 then ret false
  else do item <- get_array_item array (Z.to_nat which); cJSON_ReplaceItemViaPointer array item newitem.

(** The loop of [cJSON_CreateIntArray] and its siblings over the items it
    creates: the first becomes the child, the others go behind the previous
    one, and the [prev] of the first is set at the end. *)
Fixpoint chain (array p : option nat) (items : list nat) : M unit :=
  match items with
  | [] => do c <- child array; if is_null c then ret tt else set_prev c p
  | n :: items => (if is_null p then set_child array (Some n) else suffix_object p (Some n));; chain array (Some n) items
  end.

(** ** Lists *)

(** The index of the element before the [i]-th of [n]: around, for the first. *)
Definition before (n i : nat) : nat := match i with O => pred n | S i => i end.

(** The array [a] has the items [l], linked. *)
Definition links (a : nat) (l : list nat) (s : heap) : Prop :=
  (a ∉ l) /\ NoDup l /\ h_child s !! a = Some (l !! 0%nat) /\
  (forall i p, l !! i = Some p -> h_next s !! p = Some (l !! S i)) /\
  (forall i p, l !! i = Some p -> h_prev s !! p = Some (l !! before (length l) i)).

(** An item that is in no list. *)
Definition loose (x : nat) (s : heap) : Prop := h_next s !! x = Some None /\ is_Some (h_prev s !! x).

(** ** Running on known fields *)

Lemma read_run f p v s : f s !! p = Some v -> read f (Some p) s = Some (v, s).
Proof. unfold read, deref. by intros ->. Qed.
Lemma set_next_run p v w s : h_next s !! p = Some w -> set_next (Some p) v s = Some (tt, Heap (<[p := v]> (h_next s)) (h_prev s) (h_child s)).
Proof. unfold set_next, deref. by intros ->. Qed.
Lemma set_prev_run p v w s : h_prev s !! p = Some w -> set_prev (Some p) v s = Some (tt, Heap (h_next s) (<[p := v]> (h_prev s)) (h_child s)).
Proof. unfold set_prev, deref. by intros ->. Qed.
Lemma set_child_run p v w s : h_child s !! p = Some w -> set_child (Some p) v s = Some (tt, Heap (h_next s) (h_prev s) (<[p := v]> (h_child s))).
Proof. unfold set_child, deref. by intros ->. Qed.

Lemma is_null_some p : is_null (Some p) = false.
Proof. done. Qed.
Lemma is_null_none : is_null None = true.
Proof. done. Qed.
Lemma same_eq p : same (Some p) (Some p) = true.
Proof. unfold same. by apply bool_decide_eq_true_2. Qed.
Lemma same_ne p q : p <> q -> same (Some p) (Some q) = false.
Proof. intros Hn. unfold same. apply bool_decide_eq_false_2. congruence. Qed.
Lemma same_none p : same (Some p) None = false.
Proof. done. Qed.

(** A field of a heap that was assigned to. *)
Ltac field := cbn [h_next h_prev h_child]; repeat first [rewrite lookup_insert_eq; reflexivity | rewrite lookup_insert_ne by congruence]; eassumption.

Ltac links_step :=
  match goal with
  | |- context [read ?f (Some ?p) ?s] => erewrite (read_run f p _ s) by field
  | |- context [set_next (Some ?p) ?v ?s] => erewrite (set_next_run p v _ s) by field
  | |- context [set_prev (Some ?p) ?v ?s] => erewrite (set_prev_run p v _ s) by field
  | |- context [set_child (Some ?p) ?v ?s] => erewrite (set_child_run p v _ s) by field
  | |- _ => rewrite is_null_some
  | |- _ => rewrite is_null_none
  | |- _ => rewrite same_eq
  | |- _ => rewrite same_none
  | |- _ => rewrite same_ne by congruence
  end.

Ltac links_run := unfold bind, ret, next, prev, child in *; repeat (cbn [orb andb negb h_next h_prev h_child]; links_step); cbn [orb andb negb h_next h_prev h_child].

Section links.
  Context (a : nat) (l : list nat) (s : heap) (Hl : links a l s).

Lemma links_next i p : l !! i = Some p -> h_next s !! p = Some (l !! S i).
Proof. apply Hl. Qed.
Lemma links_prev i p : l !! i = Some p -> h_prev s !! p = Some (l !! before (length l) i).
Proof. apply Hl. Qed.
Lemma links_child : h_child s !! a = Some (l !! 0%nat).
Proof. apply Hl. Qed.
Lemma links_same i j p : l !! i = Some p -> l !! j = Some p -> i = j.
Proof. apply NoDup_lookup, Hl. Qed.
Lemma links_not_self i p : l !! i = Some p -> p <> a.
Proof. intros Hi ->. by eapply Hl, list_elem_of_lookup_2. Qed.

Lemma walk_lookup k : forall i, walk (l !! i) k s = Some (l !! (i + k)%nat, s).
Proof.
  induction k as [|k IH]; intros i; cbn [walk].
  - rewrite Nat.add_0_r. by destruct (l !! i).
  - destruct (l !! i) as [p|] eqn:E.
    + pose proof (links_next i p E). links_run. rewrite IH. do 3 f_equal. lia.
    + links_run. do 2 f_equal. symmetry. apply lookup_ge_None. apply lookup_ge_None in E. lia.
Qed.

Lemma get_array_item_lookup k : get_array_item (Some a) k s = Some (l !! k, s).
Proof. pose proof links_child. unfold get_array_item. links_run. apply (walk_lookup k 0). Qed.
End links.

(** An item at an index is at no other. *)
Ltac same_index :=
  repeat match goal with
  | Hl : links ?a ?l ?s, H1 : ?l !! ?i = Some ?x, H2 : ?l !! ?j = Some ?x |- _ =>
      assert_fails (constr_eq i j); let E := fresh in assert (i = j) as E by exact (links_same a l s Hl i j x H1 H2); clear H2; first [exfalso; lia | subst j | subst i | idtac]
  end.

(** Two lookups of the same index. *)
Ltac at_index :=
  match goal with
  | |- ?l !! _ = ?l !! _ => f_equal; lia
  | H : ?l !! _ = Some ?x |- Some ?x = ?l !! _ => rewrite <- H; f_equal; lia
  | H : ?l !! _ = Some ?x |- ?l !! _ = Some ?x => rewrite <- H; f_equal; lia
  | |- None = _ => symmetry; apply lookup_ge_None; lia
  | |- _ = None => apply lookup_ge_None; lia
  | |- _ => done
  end.
Ltac fields_known :=
  repeat match goal with Hf : forall i p, ?l !! i = Some p -> ?m !! p = _, Hj : ?l !! ?j = Some ?q |- context [?m !! ?q] => rewrite (Hf j q Hj) end.
Ltac fields_done := first [exfalso; lia | exfalso; match goal with Hne : forall j q, ?l !! j = Some q -> q <> ?p, H : ?l !! _ = Some ?p |- _ => by apply (Hne _ _ H) end | f_equal; at_index | done | simplify_eq; fail | idtac].
Ltac fields :=
  cbn [h_next h_prev h_child before]; rewrite ?lookup_insert; repeat case_decide; subst; same_index; cbn [before] in *; fields_known; fields_done;
  match goal with Hj : _ !! ?j = Some _ |- context [before _ ?j] => destruct j as [|j]; cbn [before] in *; fields_done | _ => idtac end;
  repeat match goal with H1 : ?l !! ?i = Some ?p, H2 : ?l !! ?j = Some ?q |- _ =>
    assert_fails (constr_eq p q); let E := fresh in assert (i = j) as E by lia; rewrite E in *; simplify_eq end.

Lemma links_delete a l s i : links a l s -> (a ∉ delete i l) /\ NoDup (delete i l).
Proof.
  intros Hl. split; [|eapply sublist_NoDup; [apply Hl|apply sublist_delete]].
  intros Ha. apply list_elem_of_lookup in Ha as [j Hj]. rewrite list_lookup_delete in Hj. by apply (links_not_self _ _ _ Hl) in Hj.
Qed.

(** What to prove of the fields after [delete i]. *)
Lemma links_delete_intro a l s i item s' : links a l s -> l !! i = Some item ->
  h_child s' !! a = Some (if decide (0 < i)%nat then l !! 0%nat else l !! 1%nat) ->
  (forall j p, l !! j = Some p -> (j < length l)%nat -> j <> i -> h_next s' !! p = Some (l !! (if decide (S j = i) then S (S j) else S j))) ->
  (forall j p, l !! j = Some p -> (j < length l)%nat -> j <> i ->
     h_prev s' !! p = Some (if decide (before (length l) j = i) then l !! before (length l) i else l !! before (length l) j)) ->
  links a (delete i l) s'.
Proof.
  intros Hl Hi Hc Hn Hp. pose proof (lookup_lt_Some _ _ _ Hi) as Hlen. destruct (links_delete a l s i Hl) as [Ha Hd].
  split; [done|]. split; [done|]. split; [rewrite Hc, list_lookup_delete; f_equal; repeat case_decide; done|].
  split; intros j p; rewrite !list_lookup_delete; intros Hj; pose proof (lookup_lt_Some _ _ _ Hj).
  - rewrite (Hn _ _ Hj) by (first [done|case_decide; lia]). f_equal. repeat case_decide; f_equal; lia.
  - rewrite (Hp _ _ Hj) by (first [done|case_decide; lia]). f_equal. rewrite length_delete by done. unfold before in *.
    destruct j; repeat case_decide; destruct i; cbn [pred] in *; try lia; try (f_equal; lia); try (rewrite <- Hj; f_equal; lia).
Qed.


(** Items outside the list are not touched. *)
Ltac loosen :=
  let x := fresh "x" in let Hx := fresh in
  intros x; intros; repeat match goal with H : loose _ _ |- _ => destruct H as [? ?] end; split; cbn [h_next h_prev h_child];
  rewrite ?lookup_insert_ne by (intros ->; match goal with H : ?y ∉ _ |- _ => apply H; eapply list_elem_of_lookup_2; eassumption | _ => done end); done.
Ltac loose_self := split; cbn [h_next h_prev h_child]; rewrite lookup_insert_eq; [done|by eexists].

Lemma detach_ok a l s i item : links a l s -> l !! i = Some item ->
  exists s', cJSON_DetachItemViaPointer (Some a) (Some item) s = Some (Some item, s') /\ links a (delete i l) s' /\ loose item s' /\
    forall x, (x ∉ l) -> loose x s -> loose x s'.
Proof.
  intros Hl Hi. pose proof (links_next _ _ _ Hl) as Hn. pose proof (links_prev _ _ _ Hl) as Hp.
  pose proof (Hn _ _ Hi) as Hin. pose proof (Hp _ _ Hi) as Hip.
  pose proof (links_child _ _ _ Hl) as Hc. pose proof (lookup_lt_Some _ _ _ Hi) as Hlen.
  assert (forall j q, l !! j = Some q -> j <> i -> q <> item) as Hne by (intros j q Hj Hji ->; by apply Hji, (links_same _ _ _ Hl j i item)).
  unfold cJSON_DetachItemViaPointer. destruct i as [|i]; cbn [before] in *.
  - rewrite Hi in Hc. links_run. destruct (l !! 1%nat) as [b|] eqn:Eb; links_run.
    + pose proof (Hp _ _ Eb). pose proof (Hne _ _ Eb ltac:(done)).
      links_run. eexists. split; [reflexivity|]. split; [|split; [loose_self|loosen]].
      eapply links_delete_intro; [done..| | |]; intros; fields.
    + eexists. split; [reflexivity|]. split; [|split; [loose_self|loosen]]. apply lookup_ge_None in Eb.
      eapply links_delete_intro; [done..| | |]; intros; fields.
  - destruct (lookup_lt_is_Some_2 l i ltac:(lia)) as [q Hq]. destruct (lookup_lt_is_Some_2 l 0%nat ltac:(lia)) as [c Hc0].
    pose proof (Hne _ _ Hq ltac:(lia)). pose proof (Hne _ _ Hc0 ltac:(lia)). rewrite Hq in Hip. rewrite Hc0 in Hc. pose proof (Hn _ _ Hq) as Hqn.
    pose proof (Hp _ _ Hc0) as Hcp. links_run.
    destruct (l !! S (S i)) as [b|] eqn:Eb; links_run.
    + pose proof (Hp _ _ Eb). pose proof (Hne _ _ Eb ltac:(lia)). pose proof (lookup_lt_Some _ _ _ Eb). links_run.
      eexists. split; [reflexivity|]. split; [|split; [loose_self|loosen]].
      eapply links_delete_intro; [done..| | |]; intros; fields. by rewrite Hc0.
    + apply lookup_ge_None in Eb. eexists. split; [reflexivity|]. split; [|split; [loose_self|loosen]].
      eapply links_delete_intro; [done..| | |]; intros; fields. by rewrite Hc0.
Qed.

(** ** Adding and replacing *)

Definition insert_at (i x : nat) (l : list nat) : list nat := take i l ++ x :: drop i l.

Lemma lookup_insert_at i x l j : (i <= length l)%nat ->
  insert_at i x l !! j = if decide (j < i)%nat then l !! j else if decide (j = i) then Some x else l !! pred j.
Proof.
  intros Hi. unfold insert_at. rewrite lookup_app. repeat case_decide.
  - rewrite lookup_take by done. destruct (l !! j) as [y|] eqn:E; [by rewrite decide_True|]. apply lookup_ge_None in E. lia.
  - subst j. rewrite lookup_take_ge, length_take_le, Nat.sub_diag by lia. done.
  - rewrite lookup_take_ge, length_take_le by lia. destruct (j - i)%nat as [|k] eqn:E; [lia|]. rewrite lookup_cons, lookup_drop. f_equal. lia.
Qed.

Lemma length_insert_at i x l : (i <= length l)%nat -> length (insert_at i x l) = S (length l).
Proof. intros Hi. unfold insert_at. rewrite length_app, length_take_le by lia. cbn. rewrite length_drop. lia. Qed.

Lemma insert_at_perm i x l : insert_at i x l ≡ₚ x :: l.
Proof. unfold insert_at. rewrite <- Permutation_middle. by rewrite take_drop. Qed.

Lemma before_eq n i : before n i = if decide (i = 0)%nat then pred n else pred i.
Proof. by destruct i. Qed.

(** What to prove of the fields after an insertion. *)
Lemma links_insert_intro a l s i x s' : links a l s -> (i <= length l)%nat -> x ∉ l -> x <> a ->
  h_child s' !! a = Some (if decide (i = 0)%nat then Some x else l !! 0%nat) ->
  h_next s' !! x = Some (l !! i) -> h_prev s' !! x = Some (if decide (length l = 0)%nat then Some x else l !! before (length l) i) ->
  (forall j p, l !! j = Some p -> (j < length l)%nat -> h_next s' !! p = Some (if decide (S j = i) then Some x else l !! S j)) ->
  (forall j p, l !! j = Some p -> (j < length l)%nat ->
     h_prev s' !! p = Some (if decide (i = j \/ j = 0%nat /\ i = length l) then Some x else l !! before (length l) j)) ->
  links a (insert_at i x l) s'.
Proof.
  intros Hl Hi Hx Hxa Hc Hnx Hpx Hn Hp.
  assert (length (insert_at i x l) = S (length l)) as Hlen by (by apply length_insert_at).
  split; [rewrite insert_at_perm, not_elem_of_cons; split; [done|apply Hl]|].
  split; [rewrite insert_at_perm; constructor; [done|apply Hl]|].
  split; [rewrite Hc, lookup_insert_at by done; repeat case_decide; first [lia|done]|].
  split; intros j p; rewrite lookup_insert_at by done; rewrite ?Hlen; intros Hj.
  - repeat case_decide; simplify_eq; rewrite ?Hnx; try rewrite (Hn _ _ Hj (lookup_lt_Some _ _ _ Hj)); rewrite lookup_insert_at by done; repeat case_decide; first [lia|f_equal; at_index|done].
  - repeat case_decide; simplify_eq; rewrite ?Hpx; try rewrite (Hp _ _ Hj (lookup_lt_Some _ _ _ Hj)); rewrite lookup_insert_at, !before_eq by done;
      try (pose proof (lookup_lt_Some _ _ _ Hj)); repeat case_decide; first [exfalso; lia|f_equal; at_index|done].
Qed.

Lemma add_ok a l s x : links a l s -> loose x s -> x ∉ l -> x <> a ->
  exists s', add_item_to_array (Some a) (Some x) s = Some (true, s') /\ links a (insert_at (length l) x l) s' /\
    forall y, (y ∉ l) -> y <> x -> loose y s -> loose y s'.
Proof.
  intros Hl [Hxn [v Hxp]] Hx Hxa. pose proof (links_next _ _ _ Hl) as Hn. pose proof (links_prev _ _ _ Hl) as Hp. pose proof (links_child _ _ _ Hl) as Hc.
  assert (forall j q, l !! j = Some q -> q <> x) as Hne by (intros j q Hj ->; by eapply Hx, list_elem_of_lookup_2).
  unfold add_item_to_array. destruct (l !! 0%nat) as [c|] eqn:Hc0.
  - assert (0 < length l)%nat as Hlen by (by apply lookup_lt_Some in Hc0).
    destruct (lookup_lt_is_Some_2 l (pred (length l)) ltac:(lia)) as [e He].
    pose proof (Hp _ _ Hc0) as Hcp. cbn [before] in Hcp. rewrite He in Hcp. pose proof (Hn _ _ He) as Hen.
    pose proof (Hne _ _ Hc0). pose proof (Hne _ _ He). unfold suffix_object. links_run.
    eexists. split; [reflexivity|]. split; [|loosen].
    eapply links_insert_intro; [done|done|done|done|..].
    all: intros; fields.
    + by rewrite Hc0.
    + rewrite Hxn. f_equal. at_index.
    + rewrite before_eq, decide_False by lia. f_equal. at_index.
  - links_run. eexists. split; [reflexivity|]. split; [|loosen]. destruct l as [|c l]; [|done].
    eapply links_insert_intro; [done|cbn; lia|done|done|..]; try (intros; done); fields.
Qed.

Lemma insert_ok a l s k i x : links a l s -> l !! k = Some i -> loose x s -> x ∉ l -> x <> a ->
  exists s', cJSON_InsertItemInArray (Some a) (Z.of_nat k) (Some x) s = Some (true, s') /\ links a (insert_at k x l) s' /\
    forall y, (y ∉ l) -> y <> x -> loose y s -> loose y s'.
Proof.
  intros Hl Hi [Hxn [v Hxp]] Hx Hxa. pose proof (links_next _ _ _ Hl) as Hn. pose proof (links_prev _ _ _ Hl) as Hp. pose proof (links_child _ _ _ Hl) as Hc.
  assert (forall j q, l !! j = Some q -> q <> x) as Hne by (intros j q Hj ->; by eapply Hx, list_elem_of_lookup_2).
  pose proof (lookup_lt_Some _ _ _ Hi) as Hlen. pose proof (Hp _ _ Hi) as Hip. pose proof (Hne _ _ Hi).
  unfold cJSON_InsertItemInArray. rewrite (proj2 (Z.ltb_ge _ _)), Nat2Z.id by lia. unfold bind at 1. rewrite is_null_some. cbn [orb].
  rewrite (get_array_item_lookup _ _ _ Hl), Hi. destruct k as [|k]; cbn [before] in Hip.
  - rewrite Hi in Hc. destruct (lookup_lt_is_Some_2 l (pred (length l)) ltac:(lia)) as [e He]. rewrite He in Hip. links_run.
    eexists. split; [reflexivity|]. split; [|loosen].
    eapply links_insert_intro; [done|lia|done|done|..]; intros; fields.
  - destruct (lookup_lt_is_Some_2 l k ltac:(lia)) as [q Hq]. destruct (lookup_lt_is_Some_2 l 0%nat ltac:(lia)) as [c Hc0].
    pose proof (Hne _ _ Hq). pose proof (Hne _ _ Hc0). rewrite Hq in Hip. rewrite Hc0 in Hc. pose proof (Hn _ _ Hq) as Hqn.
    assert (i <> c) by (intros ->; by pose proof (links_same _ _ _ Hl _ _ _ Hi Hc0)). links_run.
    eexists. split; [reflexivity|]. split; [|loosen].
    eapply links_insert_intro; [done|lia|done|done|..]; intros; fields.
    by rewrite Hc0.
Qed.

Lemma links_replace_intro a l s i x item s' : links a l s -> l !! i = Some item -> x ∉ l -> x <> a ->
  h_child s' !! a = Some (if decide (i = 0)%nat then Some x else l !! 0%nat) ->
  h_next s' !! x = Some (l !! S i) -> h_prev s' !! x = Some (if decide (length l = 1)%nat then Some x else l !! before (length l) i) ->
  (forall j p, l !! j = Some p -> (j < length l)%nat -> j <> i -> h_next s' !! p = Some (if decide (S j = i) then Some x else l !! S j)) ->
  (forall j p, l !! j = Some p -> (j < length l)%nat -> j <> i ->
     h_prev s' !! p = Some (if decide (before (length l) j = i) then Some x else l !! before (length l) j)) ->
  links a (<[i := x]> l) s'.
Proof.
  intros Hl Hi Hx Hxa Hc Hnx Hpx Hn Hp. pose proof (lookup_lt_Some _ _ _ Hi) as Hlen.
  assert (forall j q, l !! j = Some q -> q <> x) as Hne by (intros j q Hj ->; by eapply Hx, list_elem_of_lookup_2).
  split; [|split].
  - intros Ha. apply list_elem_of_lookup in Ha as [j Hj]. rewrite list_lookup_insert in Hj. case_decide; [congruence|].
    by apply (links_not_self _ _ _ Hl) in Hj.
  - apply NoDup_alt. intros j k p. rewrite !list_lookup_insert. intros Hj Hk. repeat case_decide; simplify_eq; first [lia|by apply Hne in Hk|by apply Hne in Hj|by eapply (links_same _ _ _ Hl)].
  - rewrite list_lookup_insert. split; [rewrite Hc; repeat case_decide; first [lia|done]|].
    split; intros j p; rewrite ?length_insert, !list_lookup_insert; intros Hj.
    + destruct (decide (i = j /\ _)) as [[<- _]|]; simplify_eq.
      * rewrite Hnx. repeat case_decide; first [exfalso; lia|done].
      * rewrite (Hn _ _ Hj (lookup_lt_Some _ _ _ Hj)) by lia. repeat case_decide; first [exfalso; lia|done].
    + destruct (decide (i = j /\ _)) as [[<- _]|]; simplify_eq.
      * rewrite Hpx. rewrite before_eq. repeat case_decide; first [exfalso; lia|done].
      * rewrite (Hp _ _ Hj (lookup_lt_Some _ _ _ Hj)) by lia. repeat case_decide; first [exfalso; lia|done].
Qed.

Lemma replace_ok a l s i item x : links a l s -> l !! i = Some item -> loose x s -> x ∉ l -> x <> a ->
  exists s', cJSON_ReplaceItemViaPointer (Some a) (Some item) (Some x) s = Some (true, s') /\ links a (<[i := x]> l) s' /\
    forall y, (y ∉ l) -> y <> x -> loose y s -> loose y s'.
Proof.
  intros Hl Hi [Hxn [v Hxp]] Hx Hxa. pose proof (links_next _ _ _ Hl) as Hn. pose proof (links_prev _ _ _ Hl) as Hp. pose proof (links_child _ _ _ Hl) as Hc.
  assert (forall j q, l !! j = Some q -> q <> x) as Hne by (intros j q Hj ->; by eapply Hx, list_elem_of_lookup_2).
  assert (forall j q, l !! j = Some q -> j <> i -> q <> item) as Hni by (intros j q Hj Hji ->; by apply Hji, (links_same _ _ _ Hl j i item)).
  pose proof (lookup_lt_Some _ _ _ Hi) as Hlen. pose proof (Hp _ _ Hi) as Hip. pose proof (Hn _ _ Hi) as Hin. pose proof (Hne _ _ Hi).
  destruct (lookup_lt_is_Some_2 l 0%nat ltac:(lia)) as [c Hc0]. rewrite Hc0 in Hc. pose proof (Hp _ _ Hc0) as Hcp. pose proof (Hne _ _ Hc0).
  destruct (lookup_lt_is_Some_2 l (pred (length l)) ltac:(lia)) as [e He]. cbn [before] in Hcp. rewrite He in Hcp.
  unfold cJSON_ReplaceItemViaPointer. destruct i as [|i]; cbn [before] in *.
  - rewrite Hi in Hc0. injection Hc0 as <-. clear Hcp. rewrite He in Hip. links_run. destruct (l !! 1%nat) as [b|] eqn:Eb; links_run.
    + pose proof (Hp _ _ Eb). pose proof (Hne _ _ Eb). pose proof (Hni _ _ Eb ltac:(done)). pose proof (lookup_lt_Some _ _ _ Eb).
      pose proof (Hni _ _ He ltac:(lia)). links_run.
      eexists. split; [reflexivity|]. split; [|loosen]. eapply links_replace_intro; [done..| | | | |]; intros; fields.
    + apply lookup_ge_None in Eb. assert (e = item) as -> by (replace (pred (length l)) with 0%nat in He by lia; congruence). links_run.
      eexists. split; [reflexivity|]. split; [|loosen]. eapply links_replace_intro; [done..| | | | |]; intros; fields.
  - destruct (lookup_lt_is_Some_2 l i ltac:(lia)) as [q Hq]. rewrite Hq in Hip. pose proof (Hne _ _ Hq). pose proof (Hni _ _ Hq ltac:(lia)). pose proof (Hn _ _ Hq).
    pose proof (Hni _ _ Hc0 ltac:(lia)). links_run. destruct (l !! S (S i)) as [b|] eqn:Eb; links_run.
    + pose proof (Hp _ _ Eb). pose proof (Hne _ _ Eb). pose proof (Hni _ _ Eb ltac:(lia)). pose proof (lookup_lt_Some _ _ _ Eb). links_run.
      eexists. split; [reflexivity|]. split; [|loosen]. eapply links_replace_intro; [done..| | | | |]; intros; fields. by rewrite Hc0.
    + apply lookup_ge_None in Eb. eexists. split; [reflexivity|]. split; [|loosen]. eapply links_replace_intro; [done..| | | | |]; intros; fields. by rewrite Hc0.
Qed.

(** ** Sequences of operations *)

Inductive op := Add (x : nat) | Insert (which : Z) (x : nat) | Detach (which : Z) | Replace (which : Z) (x : nat).

(** What a call returns: success, or the detached item. *)
Inductive answer := ABool (b : bool) | AItem (p : option nat).

Definition exec (a : nat) (o : op) : M answer :=
  match o with
  | Add x => do b <- add_item_to_array (Some a) (Some x); ret (ABool b)
  | Insert which x => do b <- cJSON_InsertItemInArray (Some a) which (Some x); ret (ABool b)
  | Detach which => do p <- cJSON_DetachItemFromArray (Some a) which; ret (AItem p)
  | Replace which x => do b <- cJSON_ReplaceItemInArray (Some a) which (Some x); ret (ABool b)
  end.

Fixpoint exec_all (a : nat) (os : list op) : M (list answer) :=
  match os with
  | [] => ret []
  | o :: os => do r <- exec a o; do rs <- exec_all a os; ret (r :: rs)
  end.

(** The same on a list and the set of items that are in no list. *)
Definition model : Type := list nat * gset nat.

Definition spec (o : op) (m : model) : answer * model :=
  let '(l, F) := m in
  let at_ (which : Z) := if which <? 0 then None else l !! Z.to_nat which in
  match o with
  | Add x => (ABool true, (l ++ [x], F ∖ {[x]}))
  | Insert which x =>
      if which <? 0 then (ABool false, m) else (ABool true, (insert_at (Nat.min (Z.to_nat which) (length l)) x l, F ∖ {[x]}))
  | Detach which =>
      match at_ which with
      | None => (AItem None, m)
      | Some p => (AItem (Some p), (delete (Z.to_nat which) l, F ∪ {[p]}))
      end
  | Replace which x =>
      match at_ which with
      | None => (ABool false, m)
      | Some p => (ABool true, (<[Z.to_nat which := x]> l, F ∖ {[x]}))
      end
  end.

(** Only items that are in no list are passed in. *)
Definition allowed (o : op) (m : model) : Prop :=
  match o with Add x | Insert _ x | Replace _ x => x ∈ m.2 | Detach _ => True end.

Fixpoint spec_all (os : list op) (m : model) : list answer * model :=
  match os with
  | [] => ([], m)
  | o :: os => let '(r, m1) := spec o m in let '(rs, m2) := spec_all os m1 in (r :: rs, m2)
  end.

Fixpoint all_allowed (os : list op) (m : model) : Prop :=
  match os with [] => True | o :: os => allowed o m /\ all_allowed os (spec o m).2 end.

Definition holds (a : nat) (m : model) (s : heap) : Prop :=
  links a m.1 s /\ forall x, x ∈ m.2 -> loose x s /\ (x ∉ m.1) /\ x <> a.

(** After a call that put [x] into the list. *)
Lemma holds_added a l l' F x s s' : holds a (l, F) s -> links a l' s' -> (forall y, y ∈ l' -> y ∈ l \/ y = x) ->
  (forall y, (y ∉ l) -> y <> x -> loose y s -> loose y s') -> holds a (l', F ∖ {[x]}) s'.
Proof.
  intros [Hl HF] Hl' Hsub Hkeep. split; [done|]. intros y Hy. cbn [snd fst] in *. destruct (HF y ltac:(set_solver)) as (H1 & H2 & H3).
  split; [apply Hkeep; [done|set_solver|done]|]. split; [|done]. intros Hin. destruct (Hsub y Hin); [done|set_solver].
Qed.

Lemma exec_refines a o m s : holds a m s -> allowed o m ->
  exists s', exec a o s = Some ((spec o m).1, s') /\ holds a (spec o m).2 s'.
Proof.
  destruct m as [l F]. intros Hm Ho. pose proof Hm as [Hl HF]. cbn [fst snd] in *.
  assert (forall x : nat, insert_at (length l) x l = l ++ [x]) as Hend by (intros x; unfold insert_at; rewrite drop_all, take_ge by done; done).
  destruct o as [x|which x|which|which x]; cbn [exec spec allowed fst snd] in *.
  - destruct (HF x Ho) as (Hx & Hxl & Hxa). destruct (add_ok a l s x Hl Hx Hxl Hxa) as (s' & E & Hl' & Hk). unfold bind. rewrite E.
    eexists. split; [done|]. rewrite Hend in Hl'. eapply holds_added; [done..| |done]. intros y. rewrite elem_of_app, list_elem_of_singleton. done.
  - destruct (HF x Ho) as (Hx & Hxl & Hxa). destruct (Z.ltb_spec which 0) as [Hw|Hw].
    { unfold cJSON_InsertItemInArray. rewrite (proj2 (Z.ltb_lt which 0)) by done. by eexists. }
    destruct (l !! Z.to_nat which) as [i|] eqn:Ei.
    + destruct (insert_ok a l s (Z.to_nat which) i x Hl Ei Hx Hxl Hxa) as (s' & E & Hl' & Hk). rewrite Z2Nat.id in E by lia. unfold bind. rewrite E.
      pose proof (lookup_lt_Some _ _ _ Ei). rewrite Nat.min_l by lia.
      eexists. split; [done|]. eapply holds_added; [done..| |done]. intros y. rewrite insert_at_perm, elem_of_cons. tauto.
    + destruct (add_ok a l s x Hl Hx Hxl Hxa) as (s' & E & Hl' & Hk). unfold cJSON_InsertItemInArray, bind.
      rewrite (proj2 (Z.ltb_ge which 0)), is_null_some by done. cbn [orb]. rewrite (get_array_item_lookup _ _ _ Hl), Ei. cbn [is_null]. rewrite is_null_none, E.
      apply lookup_ge_None in Ei. rewrite Nat.min_r by lia.
      eexists. split; [done|]. eapply holds_added; [done..| |done]. intros y. rewrite insert_at_perm, elem_of_cons. tauto.
  - unfold cJSON_DetachItemFromArray. destruct (Z.ltb_spec which 0) as [Hw|Hw]; [by eexists|]. unfold bind.
    rewrite (get_array_item_lookup _ _ _ Hl). destruct (l !! Z.to_nat which) as [p|] eqn:Ei; [|by eexists].
    destruct (detach_ok a l s _ p Hl Ei) as (s' & -> & Hl' & Hp & Hk). eexists. split; [done|]. split; [done|]. cbn [fst snd].
    intros y Hy. pose proof (links_not_self _ _ _ Hl _ _ Ei). assert (forall y, (y ∉ l) -> y ∉ delete (Z.to_nat which) l) as Hdel.
    { intros z Hz Hin. apply Hz. eapply elem_of_submseteq; [exact Hin|]. apply sublist_submseteq, sublist_delete. }
    destruct (decide (y = p)) as [->|Hyp].
    + split; [done|]. split; [|done]. intros Hin. apply list_elem_of_lookup in Hin as [j Hj]. rewrite list_lookup_delete in Hj.
      pose proof (links_same _ _ _ Hl _ _ _ Ei Hj). case_decide; lia.
    + destruct (HF y ltac:(set_solver)) as (H1 & H2 & H3). split; [by apply Hk|]. split; [by apply Hdel|done].
  - destruct (HF x Ho) as (Hx & Hxl & Hxa). unfold cJSON_ReplaceItemInArray. destruct (Z.ltb_spec which 0) as [Hw|Hw]; [by eexists|]. unfold bind.
    rewrite (get_array_item_lookup _ _ _ Hl). destruct (l !! Z.to_nat which) as [p|] eqn:Ei.
    + destruct (replace_ok a l s _ p x Hl Ei Hx Hxl Hxa) as (s' & -> & Hl' & Hk). eexists. split; [done|]. eapply holds_added; [done..| |done].
      intros y Hin. apply list_elem_of_lookup in Hin as [j Hj]. rewrite list_lookup_insert in Hj. case_decide; [right; congruence|left].
      by eapply list_elem_of_lookup_2.
    + unfold cJSON_ReplaceItemViaPointer. pose proof (links_child _ _ _ Hl). links_run. rewrite !orb_true_r. by eexists.
Qed.

(** ** Arrays built in a loop *)

(** [links] while the [prev] of the first is not yet set. *)
Definition chained (a : nat) (l : list nat) (s : heap) : Prop :=
  (a ∉ l) /\ NoDup l /\ h_child s !! a = Some (l !! 0%nat) /\
  (forall i p, l !! i = Some p -> h_next s !! p = Some (l !! S i)) /\
  (forall i p, l !! i = Some p -> is_Some (h_prev s !! p) /\ (i <> 0%nat -> h_prev s !! p = Some (l !! pred i))).

Lemma chained_snoc a l s n : chained a l s -> loose n s -> n ∉ l -> n <> a ->
  exists s', (if is_null (last l) then set_child (Some a) (Some n) else suffix_object (last l) (Some n)) s = Some (tt, s') /\
    chained a (l ++ [n]) s' /\ forall y, (y ∉ l) -> y <> n -> loose y s -> loose y s'.
Proof.
  intros (Ha & Hd & Hc & Hn & Hp) [Hxn [v Hxp]] Hx Hxa.
  assert ((a ∉ l ++ [n]) /\ NoDup (l ++ [n])) as [Ha' Hd'].
  { split; [rewrite elem_of_app, list_elem_of_singleton; naive_solver|]. apply NoDup_app. split; [done|]. split; [set_solver|apply NoDup_singleton]. }
  assert (forall j q, l !! j = Some q -> q <> n) as Hne by (intros j q Hj ->; by eapply Hx, list_elem_of_lookup_2).
  destruct (last l) as [e|] eqn:El.
  - rewrite last_lookup in El. pose proof (lookup_lt_Some _ _ _ El) as Hlen. pose proof (Hn _ _ El) as Hen. pose proof (Hne _ _ El). unfold suffix_object. links_run.
    eexists. split; [reflexivity|]. split; [|loosen]. split; [done|]. split; [done|]. cbn [h_next h_prev h_child].
    split; [by rewrite lookup_app_l by lia|]. split; intros i p Hi; (destruct (decide (i < length l)%nat) as [Hil|Hil]; [rewrite lookup_app_l in Hi by done|]).
    + pose proof (Hne _ _ Hi). rewrite lookup_insert. case_decide as Hep.
      * subst p. pose proof (NoDup_lookup _ _ _ _ Hd El Hi). rewrite lookup_app_r by lia. by replace (S i - length l)%nat with 0%nat by lia.
      * rewrite (Hn _ _ Hi), lookup_app_l; [done|]. destruct (decide (i = pred (length l))) as [->|]; [congruence|lia].
    + rewrite lookup_app_r in Hi by lia. apply list_lookup_singleton_Some in Hi as [Hi <-]. rewrite lookup_insert_ne, Hxn by congruence.
      f_equal. symmetry. apply lookup_ge_None. rewrite length_app. cbn. lia.
    + pose proof (Hne _ _ Hi). rewrite lookup_insert_ne by congruence. destruct (Hp _ _ Hi) as [H1 H2]. split; [done|]. intros Hi0. rewrite lookup_app_l by lia. by apply H2.
    + rewrite lookup_app_r in Hi by lia. apply list_lookup_singleton_Some in Hi as [Hi <-]. rewrite lookup_insert_eq. split; [done|]. intros _.
      rewrite lookup_app_l by lia. f_equal. rewrite <- El. f_equal. lia.
  - apply last_None in El as ->. cbn in Hc. links_run. eexists. split; [reflexivity|]. split; [|loosen]. split; [done|]. split; [done|].
    cbn [h_next h_prev h_child]. rewrite lookup_insert_eq. split; [done|].
    split; intros i p Hi; apply list_lookup_singleton_Some in Hi as [-> <-]; [done|]. split; [by eexists|done].
Qed.

Lemma chain_ok a items : forall l s, chained a l s -> (forall x, x ∈ items -> loose x s /\ (x ∉ l) /\ x <> a) -> NoDup items ->
  exists s', chain (Some a) (last l) items s = Some (tt, s') /\ links a (l ++ items) s' /\ forall y, (y ∉ l ++ items) -> loose y s -> loose y s'.
Proof.
  induction items as [|n items IH]; intros l s Hl Hi Hd; cbn [chain].
  - rewrite app_nil_r. destruct Hl as (Ha & Hd' & Hc & Hn & Hp). destruct (l !! 0%nat) as [c|] eqn:E0.
    + pose proof (lookup_lt_Some _ _ _ E0). destruct (proj1 (Hp _ _ E0)) as [v Hv]. links_run.
      eexists. split; [reflexivity|]. split; [|loosen]. split; [done|]. split; [done|]. split; [by rewrite E0|]. split; [done|]. cbn [h_prev].
      intros i p Hi'. rewrite lookup_insert. case_decide as Hcp.
      * subst p. rewrite <- (NoDup_lookup _ _ _ _ Hd' E0 Hi'). cbn [before]. by rewrite last_lookup.
      * destruct i as [|i]; [congruence|]. by apply (proj2 (Hp _ _ Hi')).
    + links_run. eexists. split; [reflexivity|]. assert (l = []) as -> by (by destruct l). split; [|done]. split; [done|]. split; [done|]. split; [done|]. by split.
  - destruct (Hi n ltac:(left)) as (H1 & H2 & H3). destruct (chained_snoc a l s n Hl H1 H2 H3) as (s' & E & Hl' & Hk). unfold bind. rewrite E.
    apply NoDup_cons in Hd as [Hn Hd]. destruct (IH (l ++ [n]) s' Hl') as (s'' & E' & Hl'' & Hk'); [|done|].
    + intros x Hx. destruct (Hi x ltac:(by right)) as (Hx1 & Hx2 & Hx3). assert (x <> n) by (by intros ->).
      split; [by apply Hk|]. split; [|done]. rewrite elem_of_app, list_elem_of_singleton. naive_solver.
    + rewrite last_snoc in E'. exists s''. rewrite <- app_assoc in Hl'', Hk'. split; [done|]. split; [done|]. intros y Hy Hyl. apply Hk'; [done|]. apply Hk; set_solver.
Qed.

Lemma exec_all_refines a os : forall m s, holds a m s -> all_allowed os m ->
  exists s', exec_all a os s = Some ((spec_all os m).1, s') /\ links a (spec_all os m).2.1 s'.
Proof.
  induction os as [|o os IH]; intros m s Hm Ho; cbn [exec_all spec_all].
  - exists s. split; [done|]. apply Hm.
  - destruct Ho as [Ho Hos]. destruct (exec_refines a o m s Hm Ho) as (s1 & E & Hm1). unfold bind. rewrite E.
    destruct (IH _ s1 Hm1 Hos) as (s2 & -> & Hl). destruct (spec o m) as [r m1]. cbn [fst snd] in *. destruct (spec_all os m1) as [rs m2]. by exists s2.
Qed.

(** C37: From an array that a loop built of fresh items, any sequence of calls
    that passes in only unlinked items runs without following a bad pointer,
    answers what the operations on lists answer, and leaves the array linked
    as the resulting list. *)
Theorem json_list_refines (a : nat) (items : list nat) (F : gset nat) (s : heap) (os : list op) :
  h_child s !! a = Some None -> NoDup items -> (forall x, x ∈ items \/ x ∈ F -> loose x s /\ x <> a) -> (forall x, x ∈ items -> x ∉ F) ->
  all_allowed os (items, F) ->
  exists s', (chain (Some a) None items;; exec_all a os)%links s = Some ((spec_all os (items, F)).1, s') /\
    links a (spec_all os (items, F)).2.1 s'.
Proof.
  intros Hc Hd Hfresh Hdis Hall.
  assert (chained a [] s) as H0 by (split; [set_solver|]; split; [constructor|]; split; [done|]; split; intros i p; by rewrite lookup_nil).
  destruct (chain_ok a items [] s H0) as (s1 & E & Hl & Hk); [intros x Hx; destruct (Hfresh x ltac:(by left)); set_solver|done|].
  unfold bind. cbn [last app] in E, Hl, Hk. rewrite E. apply exec_all_refines; [|done]. split; [done|]. cbn [fst snd]. intros x Hx. destruct (Hfresh x ltac:(by right)) as [H1 H2].
  assert (x ∉ items) by (intros Hi; by apply (Hdis x Hi)). split; [by apply Hk|done].
Qed.

Lemma json_list_refines_witness :
  exists s', (chain (Some 0%nat) None [1; 2; 3]%nat;; exec_all 0 [Detach 0; Insert 1 4%nat; Replace 2 1%nat; Detach 5])%links
    (Heap (gset_to_gmap None (list_to_set [1; 2; 3; 4]%nat)) (gset_to_gmap None (list_to_set [1; 2; 3; 4]%nat)) {[0%nat := None]}) =
    Some ([AItem (Some 1%nat); ABool true; ABool true; AItem None], s') /\ links 0 [2; 4; 1]%nat s'.
Proof.
  apply (json_list_refines 0 [1; 2; 3]%nat {[4%nat]} (Heap (gset_to_gmap None (list_to_set [1; 2; 3; 4]%nat)) (gset_to_gmap None (list_to_set [1; 2; 3; 4]%nat)) {[0%nat := None]})
    [Detach 0; Insert 1 4%nat; Replace 2 1%nat; Detach 5]).
  - reflexivity.
  - by apply (bool_decide_unpack _).
  - intros x Hx. assert (x = 1 \/ x = 2 \/ x = 3 \/ x = 4)%nat as [->|[->|[->| ->]]] by set_solver; (split; [split; [reflexivity|by eexists]|done]).
  - intros x Hx. set_solver.
  - cbn. set_solver.
Defined.
