(* ===== verification/JsonSort.v ===== *)
(** * Sorting the members of an object (cJSON_Utils.c)

    [sort_list] is a merge sort on the pointers of a sibling list.  The
    result is the same items in order, linked in both directions; but the
    [prev] of the first, which [cJSON] keeps pointing at the last, is not set,
    so an item added to a sorted object can be lost. *)

From stdpp Require Import prelude list gmap sorting.
From S2P Require Import Prelude JsonList JsonNames.

Section sort.
  (** The names of the items, and whether case matters. *)
  Context (name : nat -> option (list Z)) (case_sensitive : bool).

Definition cmp (p q : nat) : Z := compare_strings case_sensitive (name p) (name q).

(** Up to the first pair that is not in order: whether there is none. *)
Fixpoint in_order (fuel : nat) (current_item : option nat) : M bool :=
  match fuel with
  | O => fun _ => None
  | S fuel =>
      deref current_item (fun p =>
        do n <- next current_item;
        match n with
        | None => ret true
        | Some q => if cmp p q <? 0 then in_order fuel n else ret false
        end)
  end.

(** Two pointers to find the middle. *)
Fixpoint find_middle (fuel : nat) (second current_item : option nat) : M (option nat) :=
  match fuel with
  | O => fun _ => None
  | S fuel =>
      if is_null current_item then ret second
      else
        do second <- next second;
        do current_item <- next current_item;
        do current_item <- (if is_null current_item then ret current_item else next current_item);
        find_middle fuel second current_item
  end.

(** Append the rest of the first, then of the second list. *)
Definition append_rest (rest result result_tail : option nat) (k : M (option nat)) : M (option nat) :=
  if is_null rest then k
  else if is_null result then ret rest
  else set_next result_tail rest;; set_prev rest result_tail;; k.

Fixpoint merge (fuel : nat) (first second result result_tail : option nat) : M (option nat) :=
  match fuel with
  | O => fun _ => None
  | S fuel =>
      match first, second with
      | Some f, Some g =>
          let smaller := if cmp f g <? 0 then first else second in
          (if is_null result then ret tt else set_next result_tail smaller;; set_prev smaller result_tail);;
          let result := if is_null result then smaller else result in
          if same first smaller
          then do first <- next first; merge fuel first second result smaller
          else do second <- next second; merge fuel first second result smaller
      | _, _ => append_rest first result result_tail (append_rest second result result_tail (ret result))
      end
  end.

(** [fuel] bounds the length of the list. *)
Fixpoint sort_list (fuel : nat) (list : option nat) : M (option nat) :=
  match fuel with
  | O => fun _ => None
  | S fuel' =>
      if is_null list then ret list
      else
        do n <- next list;
        if is_null n then ret list
        else
          do ordered <- in_order fuel list;
          if ordered : bool then ret list
          else
            do second <- find_middle fuel list list;
            (if is_null second then ret tt
             else
               do p <- prev second;
               if is_null p then ret tt else set_next p None;; set_prev second None);;
            do first <- sort_list fuel' list;
            do second <- sort_list fuel' second;
            merge fuel first second None None
  end.

Definition sort_object (fuel : nat) (object : option nat) : M unit :=
  if is_null object then ret tt
  else do c <- child object; do c <- sort_list fuel c; set_child object c.

(** ** Segments *)

(** The items [l] are linked in both directions; the [next] of the last is
    [NULL], the [prev] of the first is anything. *)
Fixpoint seg (l : list nat) (s : heap) : Prop :=
  match l with
  | [] => True
  | p :: l =>
      h_next s !! p = Some (head l) /\ is_Some (h_prev s !! p) /\
      match l with q :: _ => h_prev s !! q = Some (Some p) | [] => True end /\ seg l s
  end.

(** Between the heaps, only items of [l] changed, and [child] nowhere. *)
Definition only (l : list nat) (s s' : heap) : Prop :=
  (forall p, (p ∉ l) -> h_next s' !! p = h_next s !! p /\ h_prev s' !! p = h_prev s !! p) /\ h_child s' = h_child s.

Lemma only_refl l s : only l s s.
Proof. by split. Qed.
Lemma only_trans l1 l2 l s1 s2 s3 : only l1 s1 s2 -> only l2 s2 s3 -> l1 ⊆ l -> l2 ⊆ l -> only l s1 s3.
Proof.
  intros [H1 E1] [H2 E2] Hs1 Hs2. split; [|congruence]. intros p Hp. destruct (H1 p ltac:(set_solver)), (H2 p ltac:(set_solver)). split; congruence.
Qed.

Lemma seg_only l l' s s' : seg l s -> only l' s s' -> (forall p, p ∈ l -> p ∉ l') -> seg l s'.
Proof.
  intros Hl [Ho _]. induction l as [|p l IH]; intros Hd; [done|]. destruct Hl as (H1 & H2 & H3 & H4). cbn [seg].
  destruct (Ho p (Hd p ltac:(left))) as [-> ->]. split; [done|]. split; [done|]. split; [|apply IH; [done|set_solver]].
  destruct l as [|q l]; [done|]. destruct (Ho q (Hd q ltac:(right; left))) as [_ ->]. done.
Qed.

Lemma seg_next p l s : seg (p :: l) s -> next (Some p) s = Some (head l, s).
Proof. intros (H & _). by apply read_run. Qed.

Lemma seg_app l1 l2 s : seg (l1 ++ l2) s -> seg l2 s.
Proof. induction l1 as [|p l1 IH]; [done|]. intros (_ & _ & _ & H). by apply IH. Qed.

(** ** The code is [msort] *)

Definition lt (p q : nat) : bool := cmp p q <? 0.

Lemma in_order_ok fuel : forall l s, seg l s -> l <> [] -> (length l <= fuel)%nat -> in_order fuel (head l) s = Some (ordered lt l, s).
Proof.
  induction fuel as [|fuel IH]; intros l s Hl Hne Hf; [by destruct l; cbn in Hf; [|lia]|]. destruct l as [|p l]; [done|].
  cbn [in_order head deref]. unfold bind. rewrite (seg_next p l s Hl). destruct l as [|q l]; cbn [head ordered]; [done|].
  unfold lt at 1. destruct (cmp p q <? 0); [|done]. cbn [andb]. apply (IH (q :: l)); [apply Hl|done|cbn in *; lia].
Qed.

Lemma find_middle_ok fuel : forall u w s, seg u s -> seg w s -> (length w <= length u)%nat -> (length w < fuel)%nat ->
  find_middle fuel (head u) (head w) s = Some (head (drop (Nat.div2 (S (length w))) u), s).
Proof.
  induction fuel as [|fuel IH]; intros u w s Hu Hw Hl Hf; [lia|]. cbn [find_middle]. destruct w as [|a w]; [done|].
  destruct u as [|b u]; [cbn in Hl; lia|]. cbn [head]. rewrite is_null_some. unfold bind. rewrite (seg_next b u s Hu), (seg_next a w s Hw).
  destruct w as [|c w]; cbn [head]; [rewrite is_null_none|rewrite is_null_some, (seg_next c w s)].
  - cbn [ret]. unfold ret. rewrite (IH u []); [done|apply Hu|done|cbn; lia|cbn in *; lia].
  - rewrite (IH u w); [done|apply Hu|apply Hw|cbn in *; lia|cbn in *; lia].
  - apply Hw.
Qed.

(** Cutting a segment in front of [q]. *)
Lemma seg_cut l1 p q l2 s : NoDup (l1 ++ p :: q :: l2) -> seg (l1 ++ p :: q :: l2) s ->
  h_prev s !! q = Some (Some p) /\
  let s' := Heap (<[p := None]> (h_next s)) (<[q := None]> (h_prev s)) (h_child s) in
  is_Some (h_next s !! p) /\ seg (l1 ++ [p]) s' /\ seg (q :: l2) s' /\ only (l1 ++ p :: q :: l2) s s'.
Proof.
  intros Hd Hs. assert (Hpq : seg (p :: q :: l2) s) by (by apply seg_app in Hs). destruct Hpq as (H1 & H2 & H3 & H4). split; [done|]. intros s'. split; [by eexists|].
  assert (Hq : (q ∉ l1 ++ [p]) /\ (p ∉ l1) /\ (q ∉ l2) /\ (p ∉ q :: l2)).
  { apply NoDup_app in Hd as (Hd1 & Hd2 & Hd3). apply NoDup_cons in Hd3 as [Hd3 Hd4]. apply NoDup_cons in Hd4 as [Hd4 _]. set_solver. }
  destruct Hq as (Hq1 & Hp1 & Hq2 & Hp2). split; [|split].
  - clear Hd. revert Hs Hq1 Hp1. induction l1 as [|x l1 IH]; intros Hs Hq1 Hp1; cbn [app seg].
    + unfold s'. cbn [h_next h_prev]. rewrite lookup_insert_eq, lookup_insert_ne by set_solver. done.
    + destruct Hs as (G1 & G2 & G3 & G4). unfold s' at 1 2. cbn [h_next h_prev]. rewrite !lookup_insert_ne by set_solver.
      assert (head (l1 ++ [p]) = head (l1 ++ p :: q :: l2)) as -> by (by destruct l1). split; [done|]. split; [done|]. split; [|apply IH; [done|set_solver..]].
      destruct l1 as [|y l1]; cbn [app] in *; unfold s'; cbn [h_prev]; rewrite lookup_insert_ne by set_solver; done.
  - destruct H4 as (G1 & G2 & G3 & G4). cbn [seg]. unfold s' at 1 2. cbn [h_next h_prev]. rewrite lookup_insert_ne, lookup_insert_eq by set_solver.
    split; [done|]. split; [by eexists|]. split.
    + destruct l2 as [|r l2]; [done|]. unfold s'. cbn [h_prev]. rewrite lookup_insert_ne by set_solver. done.
    + clear -G4 Hq2 Hp2. revert G4 Hq2 Hp2. unfold s'. generalize l2. intros l. induction l as [|x l IH]; [done|]. intros (G1 & G2 & G3 & G4) Hq2 Hp2. cbn [seg h_next h_prev].
      rewrite !lookup_insert_ne by set_solver. split; [done|]. split; [done|]. split; [|apply IH; [done|set_solver..]].
      destruct l as [|y l]; [done|]. rewrite lookup_insert_ne by set_solver. done.
  - split; [|done]. intros r Hr. unfold s'. cbn [h_next h_prev]. rewrite !lookup_insert_ne by set_solver. done.
Qed.

(** Appending a segment behind [t]. *)
Lemma link_seg t f l s : NoDup (t :: f :: l) -> seg (f :: l) s -> is_Some (h_next s !! t) -> is_Some (h_prev s !! t) ->
  exists s', (set_next (Some t) (Some f);; set_prev (Some f) (Some t))%links s = Some (tt, s') /\ seg (t :: f :: l) s' /\ only [t; f] s s' /\
    h_prev s' !! t = h_prev s !! t.
Proof.
  intros Hd Hs [nt Hnt] [pt Hpt]. apply NoDup_cons in Hd as [Ht Hd]. apply NoDup_cons in Hd as [Hf Hd]. destruct Hs as (H1 & [pf H2] & H3 & H4).
  unfold bind. rewrite (set_next_run t _ nt) by done. rewrite (set_prev_run f _ pf) by done. cbn [h_next h_prev h_child].
  eexists. split; [reflexivity|]. cbn [h_next h_prev h_child]. split; [|split].
  - cbn [seg head h_next h_prev]. rewrite lookup_insert_eq, lookup_insert_ne, lookup_insert_eq, (lookup_insert_ne (h_next s)) by set_solver.
    split; [done|]. split; [by eexists|]. split; [done|]. split; [done|]. split; [by eexists|]. split.
    + destruct l as [|g l]; [done|]. by rewrite lookup_insert_ne by set_solver.
    + eapply (seg_only l [t; f] s); [done| |set_solver]. split; [|done]. intros p Hp. cbn [h_next h_prev]. by rewrite !lookup_insert_ne by set_solver.
  - split; [|done]. intros p Hp. cbn [h_next h_prev]. by rewrite !lookup_insert_ne by set_solver.
  - by rewrite lookup_insert_ne by set_solver.
Qed.

(** The merge of the rest, behind an item that was linked behind [t]. *)
Lemma extend_seg t x l1 l m s s1 s' : seg (t :: x :: l1) s1 -> only [t; x] s s1 -> h_prev s1 !! t = h_prev s !! t -> t ∉ x :: l ->
  seg (x :: m) s' -> only (x :: l) s1 s' -> h_prev s' !! x = h_prev s1 !! x ->
  seg (t :: x :: m) s' /\ only (t :: x :: l) s s' /\ h_prev s' !! t = h_prev s !! t.
Proof.
  intros (Gn & Gp & Gx & _) Ho Hp Ht Hm Hmo Hmp. destruct (proj1 Hmo t Ht) as [Etn Etp]. split; [|split; [|by rewrite Etp]].
  - split; [rewrite Etn; exact Gn|]. split; [by rewrite Etp|]. split; [by rewrite Hmp|exact Hm].
  - eapply only_trans; [exact Ho|exact Hmo|set_solver|set_solver].
Qed.

Lemma merge_tail fuel : forall l1 l2 t r s,
  seg l1 s -> seg l2 s -> NoDup (t :: l1 ++ l2) -> l1 ++ l2 <> [] -> is_Some (h_next s !! t) -> is_Some (h_prev s !! t) -> (length (l1 ++ l2) < fuel)%nat ->
  exists s', merge fuel (head l1) (head l2) (Some r) (Some t) s = Some (Some r, s') /\ seg (t :: merge_lists lt l1 l2) s' /\
    only (t :: l1 ++ l2) s s' /\ h_prev s' !! t = h_prev s !! t.
Proof.
  assert (Hend : forall t x l s (r : nat), NoDup (t :: x :: l) -> seg (x :: l) s -> is_Some (h_next s !! t) -> is_Some (h_prev s !! t) ->
    exists s', (set_next (Some t) (Some x);; set_prev (Some x) (Some t);; ret (Some r))%links s = Some (Some r, s') /\ seg (t :: x :: l) s' /\
      only (t :: x :: l) s s' /\ h_prev s' !! t = h_prev s !! t).
  { intros t x l s r Hd Hl Htn Htp. destruct (link_seg t x l s Hd Hl Htn Htp) as (s' & E & Hseg & Ho & Hp). exists s'.
    split; [|split; [done|split; [eapply only_trans; [exact Ho|apply (only_refl [])|set_solver|set_solver]|done]]].
    revert E. unfold bind, ret. destruct (set_next _ _ s) as [[? s1]|]; [|done]. by intros ->. }
  induction fuel as [|fuel IH]; intros l1 l2 t r s H1 H2 Hd Hne Htn Htp Hf; [lia|]. cbn [merge].
  destruct l1 as [|f l1]; [destruct l2 as [|g l2]; [done|]; apply Hend; done|]. destruct l2 as [|g l2]; cbn [head].
  { rewrite app_nil_r in *. by apply Hend. }
  rewrite merge_lists_cons. unfold lt at 1. rewrite is_null_some. destruct (Z.ltb_spec (cmp f g) 0) as [Hlt|Hge].
  - rewrite same_eq.
    destruct (link_seg t f l1 s) as (s1 & E & Hseg & Ho & Hp); [eapply sublist_NoDup; [exact Hd|]; apply sublist_skip, sublist_inserts_r; done|done..|].
    pose proof Hseg as (_ & _ & _ & Hseg1). apply NoDup_cons in Hd as [Ht Hd]. cbn [app] in *. pose proof Hd as Hd0. apply NoDup_cons in Hd0 as [Hf' _].
    destruct (IH l1 (g :: l2) f r s1) as (s' & E' & Hmseg & Hmo & Hmp); try done.
    + apply Hseg1.
    + eapply seg_only; [exact H2|exact Ho|set_solver].
    + by destruct l1.
    + destruct Hseg1 as (-> & _). by eexists.
    + apply Hseg1.
    + cbn in *. lia.
    + exists s'. unfold bind in E |- *. rewrite E, (seg_next f l1 s1 Hseg1). split; [exact E'|]. by eapply extend_seg.
  - rewrite same_ne by (apply NoDup_cons in Hd as [_ Hd]; cbn [app] in Hd; apply NoDup_cons in Hd as [Hf' _]; set_solver).
    assert ((f :: l1) ++ g :: l2 ≡ₚ g :: (f :: l1) ++ l2) as Hperm by (by rewrite <- Permutation_middle).
    destruct (link_seg t g l2 s) as (s1 & E & Hseg & Ho & Hp); [eapply sublist_NoDup; [exact Hd|]; apply sublist_skip, sublist_inserts_l; done|done..|].
    pose proof Hseg as (_ & _ & _ & Hseg1). rewrite Hperm in Hd, Hf. apply NoDup_cons in Hd as [Ht Hd]. pose proof Hd as Hd0. apply NoDup_cons in Hd0 as [Hf' _].
    destruct (IH (f :: l1) l2 g r s1) as (s' & E' & Hmseg & Hmo & Hmp); try done.
    + eapply seg_only; [exact H1|exact Ho|set_solver].
    + apply Hseg1.
    + destruct Hseg1 as (-> & _). by eexists.
    + apply Hseg1.
    + cbn in *. lia.
    + exists s'. unfold bind in E |- *. rewrite E, (seg_next g l2 s1 Hseg1). split; [exact E'|].
      destruct (extend_seg t g l2 _ _ s s1 s' Hseg Ho Hp Ht Hmseg Hmo Hmp) as (? & Ho' & ?). split; [done|]. split; [|done].
      eapply only_trans; [exact Ho'|apply (only_refl [])|set_solver|set_solver].
Qed.

Lemma merge_ok fuel l1 l2 s : seg l1 s -> seg l2 s -> NoDup (l1 ++ l2) -> l1 <> [] -> l2 <> [] -> (length (l1 ++ l2) < fuel)%nat ->
  exists s', merge fuel (head l1) (head l2) None None s = Some (head (merge_lists lt l1 l2), s') /\ seg (merge_lists lt l1 l2) s' /\ only (l1 ++ l2) s s'.
Proof.
  intros H1 H2 Hd Hne1 Hne2 Hf. destruct l1 as [|f l1]; [done|]. destruct l2 as [|g l2]; [done|].
  destruct fuel as [|fuel]; [cbn in Hf; lia|]. cbn [merge head]. rewrite is_null_none, merge_lists_cons. change (cmp f g <? 0) with (lt f g).
  assert (forall x l, seg (x :: l) s -> is_Some (h_next s !! x) /\ is_Some (h_prev s !! x)) as Hx by (intros x l (-> & ? & _); by split; [eexists|]).
  assert ((f :: l1) ++ g :: l2 ≡ₚ g :: (f :: l1) ++ l2) as Hperm by (by rewrite <- Permutation_middle). unfold bind, ret.
  destruct (lt f g).
  - rewrite same_eq, (seg_next f l1 s H1). destruct (merge_tail fuel l1 (g :: l2) f f s) as (s' & E & Hmseg & Hmo & _); try done.
    + apply H1.
    + by destruct l1.
    + by apply (Hx f l1).
    + by apply (Hx f l1).
    + cbn in *. lia.
    + by exists s'.
  - rewrite same_ne by (cbn [app] in Hd; apply NoDup_cons in Hd as [Hf' _]; set_solver). rewrite (seg_next g l2 s H2). rewrite Hperm in Hd, Hf.
    destruct (merge_tail fuel (f :: l1) l2 g g s) as (s' & E & Hmseg & Hmo & _); try done.
    + apply H2.
    + by apply (Hx g l2).
    + by apply (Hx g l2).
    + cbn in *. lia.
    + exists s'. split; [exact E|]. split; [done|]. eapply only_trans; [exact Hmo|apply (only_refl [])|set_solver|set_solver].
Qed.

Lemma split_middle (l : list nat) k : (0 < k < length l)%nat -> exists l1 x y l2, l = l1 ++ x :: y :: l2 /\ drop k l = y :: l2.
Proof.
  intros Hk. destruct (lookup_lt_is_Some_2 l (pred k) ltac:(lia)) as [x Hx]. destruct (lookup_lt_is_Some_2 l k ltac:(lia)) as [y Hy].
  exists (take (pred k) l), x, y, (drop (S k) l). assert (drop k l = y :: drop (S k) l) as Ed by (by apply drop_S). split; [|done].
  rewrite <- (take_drop_middle l (pred k) x Hx) at 1. replace (S (pred k)) with k by lia. by rewrite Ed.
Qed.

(** Finding the middle and cutting there. *)
Lemma halve fuel l s : NoDup l -> seg l s -> (1 < length l < fuel)%nat ->
  exists l1 y l2 s', l1 = take (Nat.div2 (S (length l))) l /\ y :: l2 = drop (Nat.div2 (S (length l))) l /\ l1 <> [] /\ find_middle fuel (head l) (head l) s = Some (Some y, s) /\
    (bind (prev (Some y)) (fun p => if is_null p then ret tt else set_next p None;; set_prev (Some y) None))%links s = Some (tt, s') /\
    seg l1 s' /\ seg (y :: l2) s' /\ only l s s'.
Proof.
  intros Hd Hl Hf. set (k := Nat.div2 (S (length l))).
  assert (0 < k < length l)%nat as Hk.
  { unfold k. pose proof (Nat.div2_odd (S (length l))) as Hodd. destruct (Nat.odd (S (length l))); cbn [Nat.b2n] in Hodd; lia. }
  destruct (split_middle l k Hk) as (l1 & x & y & l2 & El & Edrop). pose proof (find_middle_ok fuel l l s Hl Hl (Nat.le_refl _) (proj2 Hf)) as Hm.
  fold k in Hm. rewrite Edrop in Hm. rewrite El in Hd, Hl. destruct (seg_cut _ _ _ _ _ Hd Hl) as (Hyp & [nx Hxn] & Hseg1 & Hseg2 & Hcut).
  exists (l1 ++ [x]), y, l2. eexists.
  split; [apply (app_inv_tail (y :: l2)); rewrite <- app_assoc; fold k; rewrite <- Edrop at 2; rewrite take_drop; by symmetry|].
  split; [by symmetry|]. split; [by destruct l1|]. split; [done|]. rewrite <- El in Hcut.
  split; [|split; [exact Hseg1|split; [exact Hseg2|exact Hcut]]].
  unfold bind, prev. rewrite (read_run h_prev y _ s Hyp), is_null_some, (set_next_run x None nx s Hxn). cbn [h_prev].
  rewrite (set_prev_run y None (Some x)) by done. done.
Qed.

(** The list comes out as [msort] has it, linked. *)
Lemma sort_list_ok fuel : forall l s, NoDup l -> seg l s -> (length l < fuel)%nat ->
  exists s', sort_list fuel (head l) s = Some (head (msort lt fuel l), s') /\ seg (msort lt fuel l) s' /\ only l s s'.
Proof.
  induction fuel as [|fuel IH]; intros l s Hd Hl Hf; [lia|]. cbn [sort_list]. destruct l as [|p l]; [exists s; split; [done|]; split; [done|apply only_refl]|].
  cbn [head]. rewrite is_null_some. unfold bind at 1. rewrite (seg_next p l s Hl). destruct l as [|q l]; [exists s; split; [done|]; split; [done|apply only_refl]|].
  cbn [head]. rewrite is_null_some. unfold bind at 1.
  assert (in_order (S fuel) (Some p) s = Some (ordered lt (p :: q :: l), s)) as -> by (apply (in_order_ok (S fuel) (p :: q :: l)); [done..|cbn in *; lia]).
  destruct (ordered lt (p :: q :: l)) eqn:Eo; [exists s; cbn [msort]; rewrite Eo; split; [done|]; split; [done|apply only_refl]|].
  destruct (halve (S fuel) (p :: q :: l) s Hd Hl ltac:(cbn in *; lia)) as (l1 & y & l2 & s1 & Et & Ed & Hne & Hmid & Hcut & Hseg1 & Hseg2 & Ho).
  cbn [head] in Hmid. unfold bind at 1. rewrite Hmid, is_null_some. unfold bind at 1. rewrite Hcut.
  assert (Emsort : msort lt (S fuel) (p :: q :: l) = merge_lists lt (msort lt fuel l1) (msort lt fuel (y :: l2))) by (cbn [msort]; rewrite Eo, <- Et, <- Ed; done).
  rewrite Emsort. clear Emsort. assert (Some p = head l1) as -> by (rewrite Et; done).
  pose proof (take_drop (Nat.div2 (S (length (p :: q :: l)))) (p :: q :: l)) as EL. rewrite <- Et, <- Ed in EL. rewrite <- EL in *. clear Et Ed Eo Hmid.
  pose proof Hd as Hdis. apply NoDup_app in Hdis as (Hd1 & Hdis & Hd2). rewrite length_app in Hf. cbn [length] in Hf.
  assert (0 < length l1)%nat by (destruct l1; [done|cbn; lia]).
  destruct (IH l1 s1 Hd1 Hseg1 ltac:(lia)) as (s2 & E1 & Hm1 & Ho1). unfold bind at 1. rewrite E1.
  destruct (IH (y :: l2) s2 Hd2) as (s3 & E2 & Hm2 & Ho2); [eapply seg_only; [exact Hseg2|exact Ho1|set_solver]|cbn; lia|].
  cbn [head] in E2. unfold bind at 1. rewrite E2. pose proof (msort_perm lt fuel l1) as Hp1. pose proof (msort_perm lt fuel (y :: l2)) as Hp2.
  destruct (merge_ok (S fuel) (msort lt fuel l1) (msort lt fuel (y :: l2)) s3) as (s4 & E3 & Hm & Ho3).
  - eapply seg_only; [exact Hm1|exact Ho2|]. intros z Hz. rewrite Hp1 in Hz. by apply Hdis.
  - done.
  - by rewrite Hp1, Hp2.
  - intros En. rewrite En in Hp1. apply Permutation_nil in Hp1. by subst.
  - intros En. rewrite En in Hp2. by apply Permutation_nil in Hp2.
  - rewrite Hp1, Hp2, length_app. cbn. lia.
  - exists s4. split; [exact E3|]. split; [done|].
    assert (only (l1 ++ y :: l2) s s2) as Ho12 by (eapply only_trans; [exact Ho|exact Ho1|set_solver|set_solver]).
    assert (only (l1 ++ y :: l2) s s3) as Ho13 by (eapply only_trans; [exact Ho12|exact Ho2|set_solver|set_solver]).
    eapply only_trans; [exact Ho13|exact Ho3|set_solver|]. intros z. by rewrite Hp1, Hp2.
Qed.

End sort.

(** ** Objects *)

Lemma links_seg_from l s : forall d r, (forall i p, l !! i = Some p -> h_next s !! p = Some (l !! S i)) ->
  (forall i p, l !! i = Some p -> is_Some (h_prev s !! p) /\ (i <> 0%nat -> h_prev s !! p = Some (l !! pred i))) -> l = d ++ r -> seg r s.
Proof.
  intros d r Hn Hp. revert d. induction r as [|p r IH]; intros d El; [done|]. cbn [seg].
  assert (l !! length d = Some p) as Hd by (rewrite El; by apply list_lookup_middle).
  assert (l !! S (length d) = head r) as Hd1.
  { rewrite El. replace (S (length d)) with (length (d ++ [p]) + 0)%nat by (rewrite length_app; cbn; lia).
    replace (d ++ p :: r) with ((d ++ [p]) ++ r) by (by rewrite <- app_assoc). rewrite lookup_app_r, Nat.add_0_r, Nat.sub_diag by lia. by destruct r. }
  rewrite (Hn _ _ Hd), Hd1. split; [done|]. split; [by apply (Hp _ _ Hd)|]. split.
  - destruct r as [|q r]; [done|]. destruct (Hp _ _ Hd1) as [_ Hq]. rewrite Hq by done. cbn [pred]. by rewrite Hd.
  - apply (IH (d ++ [p])). by rewrite <- app_assoc.
Qed.

Lemma links_seg a l s : links a l s -> seg l s.
Proof.
  intros (_ & _ & _ & Hn & Hp). apply (links_seg_from l s [] l Hn); [|done]. intros i p Hi. rewrite (Hp _ _ Hi). split; [by eexists|].
  intros H0. destruct i as [|i]; [done|]. done.
Qed.

(** The [child] fields do not matter. *)
Lemma seg_fields l s s' : h_next s' = h_next s -> h_prev s' = h_prev s -> seg l s -> seg l s'.
Proof. intros En Ep. induction l as [|p l IH]; [done|]. cbn [seg]. rewrite En, Ep. intros (H1 & H2 & H3 & H4). auto. Qed.

Lemma walk_seg l s : seg l s -> forall k, walk (head l) k s = Some (l !! k, s).
Proof.
  induction l as [|p l IH]; intros Hl k; [by destruct k|]. destruct k as [|k]; [done|]. cbn [walk head]. rewrite is_null_some. unfold bind.
  rewrite (seg_next p l s Hl). apply IH, Hl.
Qed.

(** The items have names, which are C strings. *)
Definition has_names (name : nat -> option (list Z)) (l : list nat) : Prop := Forall (fun p => exists a, name p = Some a /\ c_chars a) l.

(** The name of [p] is not greater than that of [q]. *)
Definition le (name : nat -> option (list Z)) (case_sensitive : bool) (p q : nat) : Prop := cmp name case_sensitive p q <= 0.

Lemma msort_names name cs fuel l : (length l <= fuel)%nat -> has_names name l -> StronglySorted (le name cs) (msort (lt name cs) fuel l).
Proof.
  apply (msort_sorted _ (fun p => exists a, name p = Some a /\ c_chars a)).
  - intros x y _ _. unfold lt, le. rewrite Z.ltb_lt. lia.
  - intros x y (a & Ha & _) (b & Hb & _). unfold lt, le, cmp. rewrite Z.ltb_ge, Ha, Hb. intros Hab. apply compare_strings_swap. lia.
  - intros x y z (a & Ha & Ca) (b & Hb & Cb) (c & Hc & Cc). unfold le, cmp. rewrite Ha, Hb, Hc. by apply name_le_trans.
Qed.

(** [cJSONUtils_SortObject] on an object whose members have names: a fuel
    of one more than their number is enough and no bad pointer is followed;
    afterwards the object has the same members in the order of a merge sort,
    each name no greater than the next, reached from [child] by [next] and
    back by [prev]; no other item changed. *)
Theorem json_sort_object (name : nat -> option (list Z)) (case_sensitive : bool) (a : nat) (l : list nat) (s : heap) :
  links a l s -> has_names name l ->
  let m := msort (lt name case_sensitive) (S (length l)) l in
  exists s', sort_object name case_sensitive (S (length l)) (Some a) s = Some (tt, s') /\ m ≡ₚ l /\
    StronglySorted (le name case_sensitive) m /\ seg m s' /\ (forall k, get_array_item (Some a) k s' = Some (m !! k, s')) /\
    forall p, (p ∉ l) -> h_next s' !! p = h_next s !! p /\ h_prev s' !! p = h_prev s !! p.
Proof.
  intros Hl Hn m. pose proof Hl as (Ha & Hd & Hc & _).
  destruct (sort_list_ok name case_sensitive (S (length l)) l s Hd (links_seg a l s Hl) ltac:(lia)) as (s1 & E & Hm & [Ho Hch]). fold m in E, Hm.
  unfold sort_object. rewrite is_null_some. unfold bind, child. rewrite (read_run h_child a _ s Hc).
  assert (l !! 0%nat = head l) as -> by (by destruct l). rewrite E. rewrite <- Hch in Hc. rewrite (set_child_run a (head m) (l !! 0%nat) s1 Hc).
  eexists. split; [reflexivity|]. split; [apply msort_perm|]. split; [apply msort_names; [lia|done]|].
  pose proof (seg_fields m s1 (Heap (h_next s1) (h_prev s1) (<[a:=head m]> (h_child s1))) eq_refl eq_refl Hm) as Hm'.
  split; [done|]. split; [|done]. intros k. unfold get_array_item. rewrite is_null_some. unfold bind, child.
  erewrite (read_run h_child a); [|cbn [h_child]; apply lookup_insert_eq]. by apply walk_seg.
Qed.

Definition demo_name (p : nat) : option (list Z) := match p with 1%nat => Some [97] | 2%nat => Some [99] | 3%nat => Some [98] | _ => None end.
Definition demo_heap : heap := Heap (gset_to_gmap None (list_to_set [1; 2; 3; 4]%nat)) (gset_to_gmap None (list_to_set [1; 2; 3; 4]%nat)) {[0%nat := None]}.
Definition demo_linked : heap := match chain (Some 0%nat) None [1; 2; 3]%nat demo_heap with Some (_, s) => s | None => demo_heap end.

Lemma demo_links : links 0 [1; 2; 3]%nat demo_linked.
Proof.
  split; [by apply (bool_decide_unpack _)|]. split; [by apply (bool_decide_unpack _)|]. split; [reflexivity|].
  split; intros i p Hi; (do 3 (destruct i as [|i]; [injection Hi as <-; reflexivity|])); done.
Qed.

Lemma json_sort_object_witness :
  exists s', sort_object demo_name true 4 (Some 0%nat) demo_linked = Some (tt, s') /\ StronglySorted (le demo_name true) [1; 3; 2]%nat /\
    forall k, get_array_item (Some 0%nat) k s' = Some ([1; 3; 2]%nat !! k, s').
Proof.
  destruct (json_sort_object demo_name true 0 [1; 2; 3]%nat demo_linked demo_links) as (s' & H1 & H2 & H3 & H4 & H5 & H6).
  - repeat (apply List.Forall_cons; [eexists; split; [reflexivity|]; apply List.Forall_cons; [lia|apply List.Forall_nil]|]). apply List.Forall_nil.
  - exists s'. exact (conj H1 (conj H3 H5)).
Defined.

(** After sorting [a; c; b] the [prev] of the first is the item of [b], which
    is no longer the last: adding an item cuts off the item of [c]. *)
Lemma sorted_add_lost :
  (fun r => r.1) <$> (sort_object demo_name true 4 (Some 0%nat);;
    do added <- add_item_to_array (Some 0%nat) (Some 4%nat);
    do p <- get_array_item (Some 0%nat) 0; do q <- get_array_item (Some 0%nat) 1; do r <- get_array_item (Some 0%nat) 2; do t <- get_array_item (Some 0%nat) 3;
    ret (added, [p; q; r; t]))%links demo_linked = Some (true, [Some 1; Some 3; Some 4; None]%nat).
Proof. vm_compute. reflexivity. Qed.
