(* ===== verification/JsonCopy.v ===== *)
(** * Copying items, and the other constructors (cJSON.c)

    [cJSON_Duplicate] and the constructors that [JsonBuild] does not have:
    literals, raw text, references, and arrays of numbers or strings.  A
    reference shares the text or the children of another item and does not
    own them. *)

From stdpp Require Import prelude list strings gmultiset.
From Stdlib Require Import SpecFloat.
From S2P Require Import Prelude RateLimit CJson Decimal JsonParse JsonSafety JsonBuild.

Section create.
  Context {S : Type}.

(** ** Constructors *)

Definition cJSON_CreateNull : M S (option item) := create (Filled cJSON_NULL None 0 zero_double []).
Definition cJSON_CreateTrue : M S (option item) := create (Filled cJSON_True None 0 zero_double []).
Definition cJSON_CreateFalse : M S (option item) := create (Filled cJSON_False None 0 zero_double []).
Definition cJSON_CreateBool (boolean : bool) : M S (option item) :=
  create (Filled (if boolean then cJSON_True else cJSON_False) None 0 zero_double []).

Definition cJSON_CreateStringReference (string : cstr) : M S (option item) :=
  create (Filled (Z.lor cJSON_String cJSON_IsReference) (Some string) 0 zero_double []).
Definition cJSON_CreateObjectReference (child : list item) : M S (option item) :=
  create (Filled (Z.lor cJSON_Object cJSON_IsReference) None 0 zero_double child).
Definition cJSON_CreateArrayReference (child : list item) : M S (option item) :=
  create (Filled (Z.lor cJSON_Array cJSON_IsReference) None 0 zero_double child).

Definition cJSON_CreateRaw (raw : string) : M S (option item) :=
  do item <- cJSON_New_Item;
  match item with
  | None => ret None
  | Some item =>
      do valuestring <- cJSON_strdup raw;
      let item := set_filled (Filled cJSON_Raw valuestring 0 zero_double []) item in
      match valuestring with
      | None => delete_item item;; ret None
      | Some _ => ret (Some item)
      end
  end.

(** The block is new, the rest of the struct is copied; the copy has no
    name. *)
Definition create_reference (i : item) : M S (option item) :=
  do reference <- cJSON_New_Item;
  ret (match reference, i with
       | Some (Item self _ _ _ _ _ _), Item _ type valuestring valueint valuedouble _ child =>
           Some (Item self (Z.lor type cJSON_IsReference) valuestring valueint valuedouble None child)
       | None, _ => None
       end).

(** ** Arrays

    [for (i = 0; a && (i < count); i++)] with one constructor for each
    element; [children] are the items made so far. *)
Fixpoint fill_array (a : nat) (children : list item) (elements : list (M S (option item))) : M S (option item) :=
  match elements with
  | [] => ret (Some (Item a cJSON_Array None 0 zero_double None children))
  | new :: elements =>
      do n <- new;
      match n with
      | None => delete_item (Item a cJSON_Array None 0 zero_double None children);; ret None
      | Some n => fill_array a (children ++ [n]) elements
      end
  end.

Definition create_array (elements : list (M S (option item))) : M S (option item) :=
  do a <- cJSON_CreateArray;
  match a with None => ret None | Some (Item self _ _ _ _ _ _) => fill_array self [] elements end.

(** [count] elements of the C array: as many as it has, or [NULL]. *)
Definition counted {A : Type} (numbers : option (list A)) (count : Z) (new : A -> M S (option item)) : M S (option item) :=
  match numbers with
  | Some numbers => if count <? 0 then ret None else create_array (map new (take (Z.to_nat count) numbers))
  | None => ret None
  end.

Definition cJSON_CreateIntArray (numbers : option (list Z)) (count : Z) : M S (option item) :=
  counted numbers count (fun n => cJSON_CreateNumber (dbl_int n)).
(** A [float] is the [double] of the same value. *)
Definition cJSON_CreateFloatArray (numbers : option (list double)) (count : Z) : M S (option item) := counted numbers count cJSON_CreateNumber.
Definition cJSON_CreateDoubleArray (numbers : option (list double)) (count : Z) : M S (option item) := counted numbers count cJSON_CreateNumber.
Definition cJSON_CreateStringArray (strings : option (list string)) (count : Z) : M S (option item) := counted strings count cJSON_CreateString.

(** ** Duplication *)

(** [if (p) { copy = cJSON_strdup(p); if (!copy) goto fail; }]: [None] is
    the failure. *)
Definition copy_str (p : option cstr) : M S (option (option cstr)) :=
  match p with
  | None => ret (Some None)
  | Some c => do copy <- cJSON_strdup (chars c); ret (Some <$> copy)
  end.

(** [fail:] *)
Definition fail_copy (newitem : item) : M S (option item) := delete_item newitem;; ret None.

Fixpoint cJSON_Duplicate (recurse : bool) (i : item) : M S (option item) :=
  match i with
  | Item _ type valuestring valueint valuedouble string child =>
      do newitem <- cJSON_New_Item;
      match newitem with
      | None => ret None
      | Some (Item self _ _ _ _ _ _) =>
          let new := Item self (Z.ldiff type cJSON_IsReference) in
          do vs <- copy_str valuestring;
          match vs with
          | None => fail_copy (new None valueint valuedouble None [])
          | Some vs =>
              do nm <- (if has_flag type cJSON_StringIsConst then ret (Some string) else copy_str string);
              match nm with
              | None => fail_copy (new vs valueint valuedouble None [])
              | Some nm =>
                  if recurse then
                    (fix go (l children : list item) : M S (option item) :=
                       match l with
                       | [] => ret (Some (new vs valueint valuedouble nm children))
                       | c :: l =>
                           do newchild <- cJSON_Duplicate true c;
                           match newchild with
                           | None => fail_copy (new vs valueint valuedouble nm children)
                           | Some newchild => go l (children ++ [newchild])
                           end
                       end) child []
                  else ret (Some (new vs valueint valuedouble nm []))
              end
          end
      end
  end.

End create.

(** ** What a copy is *)

Definition text (p : option cstr) : option string := (fun c => c_string (chars c)) <$> p.

(** The same type but for the reference flag, the same text, numbers and
    name, and copies of the children. *)
#[warnings="-register-all"]
Inductive copy : item -> item -> Prop :=
| Copy self type vs vi vd nm ch self' vs' nm' ch' :
    text vs' = text vs -> text nm' = text nm -> Forall2 copy ch ch' ->
    copy (Item self type vs vi vd nm ch) (Item self' (Z.ldiff type cJSON_IsReference) vs' vi vd nm' ch').

(** Without the children. *)
Definition bare (i : item) : item :=
  match i with Item self type valuestring valueint valuedouble string _ => Item self type valuestring valueint valuedouble string [] end.

(** No item of the tree is a reference. *)
Fixpoint owns_all (i : item) : Prop :=
  match i with Item _ type _ _ _ _ child => has_flag type cJSON_IsReference = false /\ each owns_all child end.

(** ** Proofs *)

Lemma ldiff_flag type flag : has_flag (Z.ldiff type flag) flag = false.
Proof.
  unfold has_flag. apply negb_false_iff, Z.eqb_eq. apply Z.bits_inj'. intros n Hn.
  rewrite Z.land_spec, Z.ldiff_spec, Z.bits_0. by destruct (Z.testbit type n), (Z.testbit flag n).
Qed.

Lemma no_flag_ldiff type flag : has_flag type flag = false -> Z.ldiff type flag = type.
Proof.
  unfold has_flag. intros Hf. apply negb_false_iff, Z.eqb_eq in Hf. apply Z.bits_inj'. intros n Hn. rewrite Z.ldiff_spec.
  assert (Z.testbit (Z.land type flag) n = false) as Hb by (rewrite Hf; apply Z.bits_0). rewrite Z.land_spec in Hb.
  by destruct (Z.testbit type n), (Z.testbit flag n).
Qed.

(** Clearing the reference flag leaves the other. *)
Lemma ldiff_const type : has_flag (Z.ldiff type cJSON_IsReference) cJSON_StringIsConst = has_flag type cJSON_StringIsConst.
Proof.
  unfold has_flag. f_equal. f_equal. apply Z.bits_inj'. intros n Hn. rewrite !Z.land_spec, Z.ldiff_spec.
  assert (Z.testbit cJSON_StringIsConst n = true -> Z.testbit cJSON_IsReference n = false) as Hd.
  { unfold cJSON_StringIsConst, cJSON_IsReference. change 512 with (2 ^ 9). change 256 with (2 ^ 8). rewrite !Z.pow2_bits_eqb by lia.
    intros H1%Z.eqb_eq. apply Z.eqb_neq. lia. }
  destruct (Z.testbit cJSON_StringIsConst n); [|by rewrite !andb_false_r]. rewrite (Hd eq_refl). by rewrite andb_true_r.
Qed.

(** What an item without the reference flag owns. *)
Lemma foot_owned self ty vs vi vd nm ch : has_flag ty cJSON_IsReference = false ->
  item_foot (Item self ty vs vi vd nm ch) =
  {[+ self +]} ⊎ (if has_flag ty cJSON_StringIsConst then ∅ else str_foot nm) ⊎ str_foot vs ⊎ items_foot ch.
Proof.
  intros Hr. change (Item self ty vs vi vd nm ch) with (mk_item self nm (Filled ty vs vi vd ch)).
  rewrite item_foot_mk, filled_foot_plain by done. by rewrite (assoc_L (⊎)).
Qed.

Section duplicate.
  Context {mem : bool} {S : Type}.
  Implicit Types (s : S).

Lemma hoare_copy_str p (Q : option (option cstr) -> S -> gmultiset nat -> Prop) E s H :
  (forall p', text p' = text p -> Q (Some p') s (H ⊎ str_foot p')) -> (mem = false -> Q None s H) -> triple mem (copy_str p) Q E s H.
Proof.
  intros H1 H2. destruct p as [c|]; cbn [copy_str].
  - apply hoare_bind, hoare_strdup; [intros q|intros Hm]; apply hoare_ret; [|by apply H2].
    apply (H1 (Some (CStr q (c_string (chars c))))). cbn. by rewrite c_string_idem.
  - apply hoare_ret. specialize (H1 None eq_refl). cbn [str_foot] in H1. by rewrite heap_id in H1.
Qed.

(** A copy is made of new blocks, or nothing is left allocated. *)
Definition copies (recurse : bool) (i : item) : Prop :=
  forall s H, triple mem (cJSON_Duplicate recurse i)
    (fun r s' H' => s' = s /\
       match r with
       | Some j => H' = H ⊎ item_foot j /\ copy (if recurse then i else bare i) j
       | None => H' = H /\ mem = false
       end)
    (fun _ _ => False) s H.

Lemma hoare_fail_copy (Q : option item -> S -> gmultiset nat -> Prop) E new s H H' :
  H' = H ⊎ item_foot new -> Q None s H -> triple mem (fail_copy new) Q E s H'.
Proof. intros -> HQ. by apply hoare_bind, hoare_delete_item, hoare_ret. Qed.

(** The name: shared when it is constant. *)
Lemma hoare_copy_name ty nm (Q : option (option cstr) -> S -> gmultiset nat -> Prop) E s H :
  (forall nm', text nm' = text nm -> Q (Some nm') s (H ⊎ (if has_flag ty cJSON_StringIsConst then ∅ else str_foot nm'))) -> (mem = false -> Q None s H) ->
  triple mem (if has_flag ty cJSON_StringIsConst then ret (Some nm) else copy_str nm) Q E s H.
Proof.
  intros H1 H2. destruct (has_flag ty cJSON_StringIsConst); [|by apply hoare_copy_str].
  apply hoare_ret. specialize (H1 nm eq_refl). by rewrite heap_id in H1.
Qed.

Lemma duplicate_ok recurse i : copies recurse i.
Proof.
  revert recurse. induction i as [self ty vs vi vd nm ch IH] using item_tree_ind. intros recurse s H. cbn [cJSON_Duplicate].
  set (ty' := Z.ldiff ty cJSON_IsReference).
  assert (Hf : forall p vs nm ch, item_foot (Item p ty' vs vi vd nm ch) =
    {[+ p +]} ⊎ str_foot vs ⊎ (if has_flag ty cJSON_StringIsConst then ∅ else str_foot nm) ⊎ items_foot ch).
  { intros. rewrite foot_owned by apply ldiff_flag. unfold ty'. rewrite ldiff_const. multiset_solver. }
  apply hoare_bind, hoare_bind, hoare_alloc_mem; [intros p|intros Hm; by apply hoare_ret, hoare_ret]. apply hoare_ret. cbn [fmap option_fmap option_map mk_item].
  assert (Hnone : (if has_flag ty cJSON_StringIsConst then ∅ else str_foot None) = ∅) by (by destruct (has_flag ty cJSON_StringIsConst)).
  apply hoare_bind, hoare_copy_str; [intros vs' Hvs|intros Hm; by eapply hoare_fail_copy; [rewrite Hf, Hnone; cbn [str_foot items_foot]; by rewrite !heap_id|]].
  apply hoare_bind, hoare_copy_name; [intros nm' Hnm|intros Hm; eapply hoare_fail_copy; [|done]; rewrite Hf, Hnone; cbn [items_foot]; by rewrite !heap_id, (assoc_L (⊎))].
  rewrite <- !(assoc_L (⊎)). rewrite (assoc_L (⊎) {[+ p +]}).
  destruct recurse; [|apply hoare_ret; split; [done|]; split; [rewrite Hf; cbn [items_foot]; by rewrite heap_id|by constructor]].
  set (own := {[+ p +]} ⊎ str_foot vs' ⊎ _) in *.
  cut (forall done_ rest made, ch = done_ ++ rest -> Forall2 copy done_ made ->
    triple mem ((fix go (l children : list item) : M S (option item) :=
       match l with
       | [] => ret (Some (Item p ty' vs' vi vd nm' children))
       | c :: l => do newchild <- cJSON_Duplicate true c;
           match newchild with None => fail_copy (Item p ty' vs' vi vd nm' children) | Some newchild => go l (children ++ [newchild]) end
       end) rest made)
      (fun r s' H' => s' = s /\ match r with Some j => H' = H ⊎ item_foot j /\ copy (Item self ty vs vi vd nm ch) j | None => H' = H /\ mem = false end)
      (fun _ _ => False) s (H ⊎ own ⊎ items_foot made)).
  { intros Hgo. specialize (Hgo [] ch [] eq_refl (Forall2_nil _)). cbn [items_foot] in Hgo. by rewrite heap_id in Hgo. }
  intros done_ rest. revert done_. induction rest as [|c rest IHr]; intros done_ made Ech Hmade.
  - apply hoare_ret. split; [done|]. rewrite app_nil_r in Ech. subst done_. split; [by rewrite Hf, (assoc_L (⊎))|by constructor].
  - assert (copies true c) as Hc by (apply (proj1 (Forall_forall _ _) IH); rewrite Ech; apply in_or_app; right; by left).
    apply hoare_bind. eapply hoare_mono; [apply Hc| |done]. intros [j|] s' h [-> Hr].
    + destruct Hr as [-> Hcopy]. eapply hoare_heap; [|apply (IHr (done_ ++ [c])); [by rewrite <- app_assoc|by apply Forall2_app; [|constructor]]].
      rewrite items_foot_app. cbn [items_foot]. by rewrite heap_id, (assoc_L (⊎)).
    + destruct Hr as [-> Hm]. eapply hoare_fail_copy; [|done]. by rewrite Hf, (assoc_L (⊎)).
Qed.
End duplicate.

(** A copy of a tree without references stands for the same value. *)
Lemma copy_json i : forall j, copy i j -> owns_all i -> to_json j = to_json i /\ item_name j = item_name i.
Proof.
  induction i as [self ty vs vi vd nm ch IH] using item_tree_ind. intros j Hc [Hr Hch]. inversion Hc as [? ? ? ? ? ? ? self' vs' nm' ch' Hvs Hnm Hcopy]; subst.
  assert (item_name (Item self' (Z.ldiff ty cJSON_IsReference) vs' vi vd nm' ch') = item_name (Item self ty vs vi vd nm ch)) as Hname.
  { unfold text in Hnm. by destruct nm, nm'; simplify_eq/=. }
  split; [|done]. cbn [to_json]. rewrite no_flag_ldiff by done. apply each_forall in Hch.
  assert (map to_json ch' = map to_json ch /\ map (fun c => (item_name c, to_json c)) ch' = map (fun c => (item_name c, to_json c)) ch) as [-> ->].
  { clear - IH Hch Hcopy. induction Hcopy as [|c c' ch ch' Hc Hrest IHr]; [done|]. inversion IH as [|? ? IHc IHch]; inversion Hch; subst.
    destruct (IHc c' Hc) as [Hj Hn]; [done|]. destruct IHr as [H1 H2]; [done|done|]. cbn [map]. by rewrite Hj, Hn, H1, H2. }
  assert (match vs' with Some c => c_string (chars c) | None => EmptyString end = match vs with Some c => c_string (chars c) | None => EmptyString end) as ->.
  { unfold text in Hvs. by destruct vs, vs'; simplify_eq/=. }
  done.
Qed.

(** ** Arrays *)

Section arrays.
  Context {mem : bool} {S : Type}.

(** A constructor of items for [v]. *)
Definition builds (new : M S (option item)) (v : cJSON) : Prop :=
  forall s H, triple mem new
    (fun r s' H' => s' = s /\ match r with Some i => H' = H ⊎ item_foot i /\ to_json i = v | None => H' = H /\ mem = false end)
    (fun _ _ => False) s H.

Lemma builds_new {X : Type} (k : option item -> M S X) Q E s H :
  (forall p, triple mem (k (Some (mk_item p None unfilled))) Q E s (H ⊎ {[+ p +]})) -> (mem = false -> triple mem (k None) Q E s H) ->
  triple mem (bind cJSON_New_Item k) Q E s H.
Proof. intros H1 H2. apply hoare_bind, hoare_bind, hoare_alloc_mem; [intros p|intros Hm]; apply hoare_ret; [apply H1|by apply H2]. Qed.

Lemma builds_create f v : filled_foot f = ∅ -> (forall p, to_json (mk_item p None f) = v) -> builds (create f) v.
Proof.
  intros Hf Hv s H. apply builds_new; [intros p|intros Hm]; apply hoare_ret; [|done]. split; [done|].
  cbn [fmap option_fmap option_map set_filled mk_item]. change (Item p ?a ?b ?c ?d None ?e) with (mk_item p None f).
  rewrite item_foot_mk, Hf. split; [|apply Hv]. by destruct (has_flag (f_type f) cJSON_StringIsConst); cbn [str_foot]; rewrite !heap_id.
Qed.

Lemma builds_null : builds cJSON_CreateNull JNull.
Proof. by apply builds_create. Qed.
Lemma builds_bool b : builds (cJSON_CreateBool b) (JBool b).
Proof. by destruct b; apply builds_create. Qed.
Lemma builds_number x : builds (cJSON_CreateNumber x) (JNumber x).
Proof. by apply builds_create. Qed.
Lemma builds_string t : builds (cJSON_CreateString t) (JString (c_string t)).
Proof.
  intros s H. apply builds_new; [intros p|intros Hm; by apply hoare_ret]. apply hoare_bind, hoare_strdup.
  - intros q. apply hoare_ret. split; [done|]. split; [|cbn; by rewrite c_string_idem]. change (set_filled _ _) with (Item p cJSON_String (Some (CStr q (c_string t))) 0 zero_double None []).
    rewrite foot_owned by done. cbn [str_foot items_foot blk]. by rewrite !heap_id, (assoc_L (⊎)).
  - intros Hm. apply hoare_bind. change (set_filled _ _) with (Item p cJSON_String None 0 zero_double None []).
    eapply hoare_heap; [|apply hoare_delete_item; by apply hoare_ret]. rewrite foot_owned by done. cbn [str_foot items_foot]. by rewrite !heap_id.
Qed.

Lemma fill_array_ok a news vs : Forall2 builds news vs -> forall done_ s H,
  triple mem (fill_array a done_ news)
    (fun r s' H' => s' = s /\ match r with Some i => H' = H ⊎ item_foot i /\ to_json i = JArray (map to_json done_ ++ vs) | None => H' = H /\ mem = false end)
    (fun _ _ => False) s (H ⊎ item_foot (Item a cJSON_Array None 0 zero_double None done_)).
Proof.
  induction 1 as [|new v news vs Hnew Hrest IH]; intros done_ s H; cbn [fill_array].
  - apply hoare_ret. split; [done|]. split; [done|]. by rewrite app_nil_r.
  - apply hoare_bind. eapply hoare_mono; [apply Hnew| |done]. intros [n|] s' h [-> Hr].
    + destruct Hr as [-> Hv]. eapply hoare_heap; [|eapply hoare_mono; [apply (IH (done_ ++ [n]))| |done]].
      * rewrite foot_append by done. by rewrite (assoc_L (⊎)).
      * intros [i|] s' h; [|done]. intros (-> & -> & ->). split; [done|]. split; [done|]. rewrite map_app. cbn [map]. by rewrite Hv, <- app_assoc.
    + destruct Hr as [-> Hm]. by apply hoare_bind, hoare_delete_item, hoare_ret.
Qed.

Lemma builds_array news vs : Forall2 builds news vs -> builds (create_array news) (JArray vs).
Proof.
  intros Hnews s H. apply hoare_bind, builds_new; [intros p|intros Hm; by apply hoare_ret, hoare_ret]. apply hoare_ret.
  cbn [fmap option_fmap option_map set_filled mk_item f_type f_valuestring f_valueint f_valuedouble f_child].
  eapply hoare_heap; [|exact (fill_array_ok p news vs Hnews [] s H)].
  rewrite foot_owned by done. cbn [str_foot items_foot]. by rewrite !heap_id.
Qed.

Lemma builds_counted {A : Type} (l : list A) (count : Z) new (v : A -> cJSON) : (forall x, builds (new x) (v x)) -> 0 <= count ->
  builds (counted (Some l) count new) (JArray (map v (take (Z.to_nat count) l))).
Proof.
  intros Hnew Hc. unfold counted. rewrite (proj2 (Z.ltb_ge count 0)) by done. apply builds_array.
  induction (take (Z.to_nat count) l); cbn [map]; by constructor.
Qed.
End arrays.

(** [cJSON_Duplicate] of any item, with any allocation failing: no block
    is freed twice or lost.  A copy that is made consists of new blocks, has
    the text, numbers, name and (when asked to recurse) children of the
    original, owns what the original only refers to, and stands for the same
    value when the original has no references; when memory runs out,
    everything allocated on the way is freed; and when it does not, the copy
    is made. *)
Theorem json_duplicate {S : Type} (recurse : bool) (i : item) (s : S) (st : store) :
  match cJSON_Duplicate recurse i s st with
  | Ok (Some j) s' st' =>
      s' = s /\ live st' = live st ⊎ item_foot j /\ copy (if recurse then i else bare i) j /\
      (recurse = true -> owns_all i -> to_json j = to_json i /\ item_name j = item_name i)
  | Ok None s' st' => s' = s /\ live st' = live st /\ answers st <> []
  | Err _ _ | UB => False
  end.
Proof.
  pose proof (duplicate_ok (mem := false) recurse i s (live st) st eq_refl ltac:(done)) as Hd.
  pose proof (fun Ha => duplicate_ok (mem := true) recurse i s (live st) st eq_refl Ha) as Hm.
  destruct (cJSON_Duplicate recurse i s st) as [[j|] s' st'|s' st'|]; [| |by destruct Hd|done].
  - destruct Hd as [(-> & -> & Hc) _]. split; [done|]. split; [done|]. split; [done|]. intros -> Ho. by apply copy_json.
  - destruct Hd as [(-> & -> & _) _]. split; [done|]. split; [done|]. intros Ha. destruct (Hm (fun _ => Ha)) as [(_ & _ & Hf) _]. done.
Qed.

(** The arrays of numbers and strings. *)
Theorem json_create_arrays {S : Type} (ints : list Z) (doubles : list double) (strings : list string) (count : Z) (s : S) (st : store) :
  0 <= count ->
  let ok (m : M S (option item)) (vs : list cJSON) :=
    match m s st with
    | Ok (Some a) s' st' => s' = s /\ live st' = live st ⊎ item_foot a /\ to_json a = JArray vs
    | Ok None s' st' => s' = s /\ live st' = live st /\ answers st <> []
    | Err _ _ | UB => False
    end in
  let n := Z.to_nat count in
  ok (cJSON_CreateIntArray (Some ints) count) (map (fun z => JNumber (dbl_int z)) (take n ints)) /\
  ok (cJSON_CreateDoubleArray (Some doubles) count) (map JNumber (take n doubles)) /\
  ok (cJSON_CreateStringArray (Some strings) count) (map (fun t => JString (c_string t)) (take n strings)).
Proof.
  intros Hc ok n.
  assert (forall m vs, (forall mem, builds (mem := mem) m (JArray vs)) -> ok m vs) as Hok.
  { intros m vs Hb. unfold ok. pose proof (Hb false s (live st) st eq_refl ltac:(done)) as Hd. pose proof (fun Ha => Hb true s (live st) st eq_refl Ha) as Hm.
    destruct (m s st) as [[j|] s' st'|s' st'|]; [| |by destruct Hd|done].
    - by destruct Hd as [(-> & -> & Hj) _].
    - destruct Hd as [(-> & -> & _) _]. split; [done|]. split; [done|]. intros Ha. by destruct (Hm (fun _ => Ha)) as [(_ & _ & Hf) _]. }
  split; [|split]; apply Hok; intros mem; apply (builds_counted (mem := mem)); try done; intros x.
  - apply builds_number.
  - apply builds_number.
  - apply builds_string.
Qed.
