(* ===== verification/JsonObject.v ===== *)
(** * The members of an object (cJSON.c)

    Looking members up by name, with or without regard to case, and the
    operations that add, detach, delete and replace them.  The state of the
    monad is the object; [json_object_refines] relates sequences of
    operations to the same on a list of named values. *)

From stdpp Require Import prelude list strings gmultiset.
From Stdlib Require Import SpecFloat.
From S2P Require Import Prelude RateLimit CJson Decimal JsonParse JsonSafety JsonBuild JsonPrint JsonCopy JsonNames.

(** ** Names *)

Definition c_bytes_of (s : string) : list Z := bytes_of (c_string s).

Definition name_matches (case_sensitive : bool) (name string : string) : bool :=
  (if case_sensitive then strcmp else case_insensitive_strcmp) (c_bytes_of name) (c_bytes_of string) =? 0.

(** The index of the child; the search with regard to case ends at a child
    without a name. *)
Fixpoint get_object_item (case_sensitive : bool) (name : string) (child : list item) : option nat :=
  match child with
  | [] => None
  | c :: child =>
      match item_string c with
      | None => if case_sensitive then None else Datatypes.S <$> get_object_item case_sensitive name child
      | Some string =>
          if name_matches case_sensitive name (chars string) then Some O else Datatypes.S <$> get_object_item case_sensitive name child
      end
  end.

Definition item_child (i : item) : list item := match i with Item _ _ _ _ _ _ child => child end.
Definition item_type (i : item) : Z := match i with Item _ type _ _ _ _ _ => type end.
Definition set_children (child : list item) (i : item) : item :=
  match i with Item self type valuestring valueint valuedouble string _ => Item self type valuestring valueint valuedouble string child end.

(** ** Adding *)

Definition cJSON_AddItemToObject (string : string) (i : item) : M item (item + unit) := add_item_to_object string i.

(** The name is not copied, and not freed with the item. *)
Definition cJSON_AddItemToObjectCS (string : cstr) (i : item) : M item bool :=
  (if has_flag (item_type i) cJSON_StringIsConst then ret tt else free_str (item_string i));;
  add_item_to_array (set_name (Some string) (Z.lor (item_type i) cJSON_StringIsConst) i).

Definition cJSON_AddItemReferenceToArray (i : item) : M item bool :=
  do reference <- create_reference i;
  match reference with None => ret false | Some reference => add_item_to_array reference end.

(** When the name cannot be copied nobody has the reference any more. *)
Definition cJSON_AddItemReferenceToObject (string : string) (i : item) : M item bool :=
  do reference <- create_reference i;
  match reference with
  | None => ret false
  | Some reference => do r <- add_item_to_object string reference; ret (match r with inl _ => false | inr _ => true end)
  end.

Definition cJSON_AddNullToObject (name : string) : M item bool := add_new name cJSON_CreateNull.
Definition cJSON_AddTrueToObject (name : string) : M item bool := add_new name cJSON_CreateTrue.
Definition cJSON_AddFalseToObject (name : string) : M item bool := add_new name cJSON_CreateFalse.
Definition cJSON_AddBoolToObject (name : string) (boolean : bool) : M item bool := add_new name (cJSON_CreateBool boolean).
Definition cJSON_AddRawToObject (name raw : string) : M item bool := add_new name (cJSON_CreateRaw raw).
Definition cJSON_AddArrayToObject (name : string) : M item bool := add_new name cJSON_CreateArray.

(** ** Detaching, deleting and replacing *)

Definition detach_item_from_object (case_sensitive : bool) (string : string) : M item (option item) :=
  do child <- gets item_child;
  match get_object_item case_sensitive string child with
  | None => ret None
  | Some k => modify (set_children (delete k child));; ret (child !! k)
  end.

(** [cJSON_Delete] accepts [NULL]. *)
Definition delete_item_from_object (case_sensitive : bool) (string : string) : M item unit :=
  do i <- detach_item_from_object case_sensitive string;
  match i with Some i => delete_item i | None => ret tt end.

Definition cJSON_DetachItemFromObject := detach_item_from_object false.
Definition cJSON_DetachItemFromObjectCaseSensitive := detach_item_from_object true.
Definition cJSON_DeleteItemFromObject := delete_item_from_object false.
Definition cJSON_DeleteItemFromObjectCaseSensitive := delete_item_from_object true.

(** [inl] is the replacement when it did not go into the object. *)
Definition replace_item_in_object (case_sensitive : bool) (string : string) (replacement : item) : M item (item + unit) :=
  (if has_flag (item_type replacement) cJSON_StringIsConst then ret tt else free_str (item_string replacement));;
  do new <- cJSON_strdup string;
  match new with
  | None => ret (inl (set_name None (item_type replacement) replacement))
  | Some new =>
      let replacement := set_name (Some new) (Z.ldiff (item_type replacement) cJSON_StringIsConst) replacement in
      do child <- gets item_child;
      match get_object_item case_sensitive string child with
      | None => ret (inl replacement)
      | Some k =>
          modify (set_children (<[k := replacement]> child));;
          (match child !! k with Some old => delete_item old | None => undefined end);;
          ret (inr tt)
      end
  end.

Definition cJSON_ReplaceItemInObject := replace_item_in_object false.
Definition cJSON_ReplaceItemInObjectCaseSensitive := replace_item_in_object true.

(** ** Setting a value; the state is the item *)

Definition cJSON_SetNumberHelper (number : double) : M item double :=
  modify (fun i => match i with Item self type valuestring _ _ string child =>
    Item self type valuestring (saturate number) number string child end);;
  ret number.

(** A text that fits is copied over the old one. *)
Definition cJSON_SetValuestring (valuestring : option string) : M item (option cstr) :=
  do i <- gets (fun i => i);
  match i with
  | Item self type old valueint valuedouble string child =>
      if negb (has_flag type cJSON_String) || has_flag type cJSON_IsReference then ret None
      else
        let set (c : cstr) := modify (fun _ => Item self type (Some c) valueint valuedouble string child) in
        match old, valuestring with
        | Some old, Some valuestring =>
            if (String.length (c_string valuestring) <=? String.length (c_string (chars old)))%nat then
              let c := CStr (blk old) (c_string valuestring) in set c;; ret (Some c)
            else
              do copy <- cJSON_strdup valuestring;
              match copy with
              | None => ret None
              | Some copy => free (blk old);; set copy;; ret (Some copy)
              end
        | _, _ => ret None
        end
  end.

(** ** Sequences of operations *)

Inductive value := VNull | VBool (b : bool) | VNumber (x : double) | VText (t : string) | VArray | VObject.

Definition json_value (v : value) : cJSON :=
  match v with
  | VNull => JNull | VBool b => JBool b | VNumber x => JNumber x | VText t => JString (c_string t) | VArray => JArray [] | VObject => JObject []
  end.

Definition new_value (v : value) : M item (option item) :=
  match v with
  | VNull => cJSON_CreateNull | VBool b => cJSON_CreateBool b | VNumber x => cJSON_CreateNumber x | VText t => cJSON_CreateString t
  | VArray => cJSON_CreateArray | VObject => cJSON_CreateObject
  end.

Inductive op := OAdd (name : string) (v : value) | ODelete (case_sensitive : bool) (name : string) | OReplace (case_sensitive : bool) (name : string) (v : value).

(** A replacement that is not taken is deleted by the caller. *)
Definition exec_op (o : op) : M item bool :=
  match o with
  | OAdd name VNull => cJSON_AddNullToObject name
  | OAdd name (VBool b) => cJSON_AddBoolToObject name b
  | OAdd name (VNumber x) => cJSON_AddNumberToObject name x
  | OAdd name (VText t) => cJSON_AddStringToObject name t
  | OAdd name VArray => cJSON_AddArrayToObject name
  | OAdd name VObject => cJSON_AddObjectToObject name
  | ODelete case_sensitive name => delete_item_from_object case_sensitive name;; ret true
  | OReplace case_sensitive name v =>
      do i <- new_value v;
      match i with
      | None => ret false
      | Some i =>
          do r <- replace_item_in_object case_sensitive name i;
          match r with inl i => delete_item i;; ret false | inr _ => ret true end
      end
  end.

Fixpoint exec_ops (os : list op) : M item (list bool) :=
  match os with [] => ret [] | o :: os => do b <- exec_op o; do bs <- exec_ops os; ret (b :: bs) end.

(** The same on named values. *)
Fixpoint find_name (case_sensitive : bool) (name : string) (ms : list (string * cJSON)) : option nat :=
  match ms with
  | [] => None
  | (k, _) :: ms => if name_matches case_sensitive name k then Some O else Datatypes.S <$> find_name case_sensitive name ms
  end.

(** [oom]: memory runs out during the operation. *)
Definition spec_op (oom : bool) (o : op) (ms : list (string * cJSON)) : bool * list (string * cJSON) :=
  match o with
  | OAdd name v => if oom then (false, ms) else (true, ms ++ [(c_string name, json_value v)])
  | ODelete case_sensitive name =>
      (true, match find_name case_sensitive name ms with Some k => delete k ms | None => ms end)
  | OReplace case_sensitive name v =>
      if oom then (false, ms)
      else match find_name case_sensitive name ms with
           | Some k => (true, <[k := (c_string name, json_value v)]> ms)
           | None => (false, ms)
           end
  end.

Fixpoint spec_ops (ooms : list bool) (os : list op) (ms : list (string * cJSON)) : list bool * list (string * cJSON) :=
  match os, ooms with
  | o :: os, oom :: ooms => let '(b, ms) := spec_op oom o ms in let '(bs, ms) := spec_ops ooms os ms in (b :: bs, ms)
  | _, _ => ([], ms)
  end.

(** ** Proofs *)

(** An object of the members [ms] whose children all have names. *)
Definition object_of (ms : list (string * cJSON)) (i : item) : Prop :=
  is_object i ms /\ Forall (fun c => is_Some (item_string c)) (item_child i).

Definition member (c : item) : string * cJSON := (item_name c, to_json c).

Lemma c_bytes_of_idem s : c_bytes_of (c_string s) = c_bytes_of s.
Proof. unfold c_bytes_of. by rewrite c_string_idem. Qed.

Lemma name_matches_c cs name k : name_matches cs name (c_string k) = name_matches cs name k.
Proof. unfold name_matches. by rewrite c_bytes_of_idem. Qed.

Lemma get_object_item_find cs name child : Forall (fun c => is_Some (item_string c)) child ->
  get_object_item cs name child = find_name cs name (map member child).
Proof.
  induction 1 as [|c child [k Hk] Hchild IH]; [done|]. cbn [get_object_item map member find_name]. rewrite Hk, IH.
  destruct c as [self ty vs vi vd nm ch]. cbn in Hk. subst nm. cbn [member item_name]. by rewrite name_matches_c.
Qed.

Lemma find_name_lt cs name ms k : find_name cs name ms = Some k -> (k < length ms)%nat.
Proof.
  revert k. induction ms as [|[n v] ms IH]; intros k; cbn [find_name]; [done|]. destruct (name_matches cs name n); [intros [= <-]; cbn; lia|].
  destruct (find_name cs name ms) as [j|]; cbn; [|done]. intros [= <-]. specialize (IH j eq_refl). lia.
Qed.

Lemma map_delete {A B : Type} (f : A -> B) (l : list A) k : map f (delete k l) = delete k (map f l).
Proof. revert k. induction l as [|x l IH]; intros [|k]; cbn; [done..|]. by rewrite IH. Qed.
Lemma map_insert {A B : Type} (f : A -> B) (l : list A) k x : map f (<[k := x]> l) = <[k := f x]> (map f l).
Proof. revert k. induction l as [|y l IH]; intros [|k]; cbn; [done..|]. by rewrite IH. Qed.

Lemma items_foot_delete l k c : l !! k = Some c -> items_foot l = items_foot (delete k l) ⊎ item_foot c.
Proof.
  revert k. induction l as [|x l IH]; intros [|k] Hk; [done|done|injection Hk as ->; apply (comm_L (⊎))|].
  change (delete (Datatypes.S k) (x :: l)) with (x :: delete k l). cbn [items_foot]. by rewrite (IH k Hk), (assoc_L (⊎)).
Qed.
Lemma items_foot_insert l k c x : l !! k = Some c -> items_foot (<[k := x]> l) = items_foot (delete k l) ⊎ item_foot x.
Proof.
  revert k. induction l as [|y l IH]; intros [|k] Hk; [done|done|apply (comm_L (⊎))|].
  change (delete (Datatypes.S k) (y :: l)) with (y :: delete k l). change (<[Datatypes.S k := x]> (y :: l)) with (y :: <[k := x]> l).
  cbn [items_foot]. by rewrite (IH k Hk), (assoc_L (⊎)).
Qed.

Lemma object_foot i ms : is_object i ms -> forall l, item_foot (set_children l i) = item_foot (set_children [] i) ⊎ items_foot l.
Proof.
  destruct i as [self ty vs vi vd nm ch]. intros [-> _] l. cbn [set_children]. rewrite !foot_owned by done. cbn [items_foot]. by rewrite heap_id.
Qed.

Lemma set_children_same i : set_children (item_child i) i = i.
Proof. by destruct i. Qed.

Lemma object_of_children i ms l : object_of ms i -> Forall (fun c => is_Some (item_string c)) l -> object_of (map member l) (set_children l i).
Proof. destruct i as [self ty vs vi vd nm ch]. intros [[-> _] _] Hl. by split. Qed.

Lemma object_of_members i ms : object_of ms i -> map member (item_child i) = ms.
Proof. destruct i as [self ty vs vi vd nm ch]. by intros [[_ <-] _]. Qed.

Lemma object_delete_foot i ms k c : is_object i ms -> item_child i !! k = Some c ->
  item_foot i = item_foot (set_children (delete k (item_child i)) i) ⊎ item_foot c.
Proof.
  intros Hi Hk. pose proof (object_foot i ms Hi) as Hf. rewrite Hf, <- (assoc_L (⊎)), <- (items_foot_delete _ _ _ Hk), <- Hf.
  by rewrite set_children_same.
Qed.

Lemma object_replace_foot i ms k c x : is_object i ms -> item_child i !! k = Some c ->
  item_foot i ⊎ item_foot x = item_foot (set_children (<[k := x]> (item_child i)) i) ⊎ item_foot c.
Proof.
  intros Hi Hk. rewrite (object_delete_foot i ms k c Hi Hk). pose proof (object_foot i ms Hi) as Hf.
  rewrite (Hf (<[k := x]> _)), (items_foot_insert _ _ _ _ Hk), (assoc_L (⊎) (item_foot (set_children [] i))), <- Hf.
  rewrite <- !(assoc_L (⊎)). f_equal. apply (comm_L (⊎)).
Qed.

Section ops.
  Context {mem : bool}.
  Abbreviation triple := (triple mem).

(** The operation ends as [spec_op] says and the object owns its blocks. *)
Definition performs (o : op) : Prop := forall ms i H, object_of ms i ->
  triple (exec_op o)
    (fun b i' H' => exists oom, (mem = true -> oom = false) /\ b = (spec_op oom o ms).1 /\ object_of (spec_op oom o ms).2 i' /\ H' = H ⊎ item_foot i')
    (fun _ _ => False) i (H ⊎ item_foot i).

Lemma makes_value v : makes (mem := mem) (new_value v) (json_value v).
Proof. destruct v as [|[|]|x|t| |]; cbn [new_value json_value]; first [by apply makes_create|apply makes_string]. Qed.

Lemma performs_add name v : performs (OAdd name v).
Proof.
  intros ms i H [Hi Hn].
  assert (exec_op (OAdd name v) = add_new name (new_value v)) as -> by (by destruct v).
  eapply hoare_mono; [eapply add_new_ok; [apply makes_value|exact Hi]| |done]. intros [|] i' h.
  - intros (c & -> & -> & Hcn & Hcv & Hcs). exists false. split; [done|]. split; [done|]. split; [|done]. cbn [spec_op snd].
    destruct (with_child_ok i ms c Hi) as [Ho _]. rewrite Hcn, Hcv in Ho. split; [done|].
    destruct i as [self ty vs vi vd nm ch]. cbn [with_child item_child] in *. apply Forall_app. split; [done|]. constructor; [|constructor]. by destruct c.
  - intros (-> & -> & Hm). exists true. split; [congruence|]. done.
Qed.

Lemma performs_delete cs name : performs (ODelete cs name).
Proof.
  intros ms i H Hi. pose proof (proj2 Hi) as Hn. pose proof (object_of_members i ms Hi) as Hms. cbn [exec_op spec_op].
  apply hoare_bind, hoare_bind, hoare_bind, hoare_gets. rewrite (get_object_item_find cs name _ Hn), Hms.
  destruct (find_name cs name ms) as [k|] eqn:Ek; [|apply hoare_ret, hoare_ret, hoare_ret; by exists false].
  pose proof (find_name_lt _ _ _ _ Ek) as Hk. rewrite <- Hms in Hk. rewrite length_map in Hk.
  destruct (lookup_lt_is_Some_2 (item_child i) k Hk) as [c Hc]. apply hoare_bind, hoare_modify, hoare_ret. rewrite Hc.
  rewrite (object_delete_foot i ms k c (proj1 Hi) Hc), (assoc_L (⊎)). apply hoare_delete_item, hoare_ret.
  exists false. split; [done|]. split; [done|]. split; [|done]. cbn [snd]. rewrite <- Hms, <- map_delete.
  eapply object_of_children; [done|]. by apply Forall_delete.
Qed.

Lemma performs_replace cs name v : performs (OReplace cs name v).
Proof.
  intros ms i H Hi. pose proof (proj2 Hi) as Hn. pose proof (object_of_members i ms Hi) as Hms. cbn [exec_op].
  apply hoare_bind. eapply hoare_mono; [apply makes_value| |done]. intros [x|] i' h [-> Hr].
  2: { destruct Hr as [-> Hm]. apply hoare_ret. exists true. split; [congruence|done]. }
  destruct Hr as [-> Hx]. destruct x as [self ty vs vi vd nm ch] eqn:Ex. assert (nm = None) as -> by apply Hx.
  assert (Z.ldiff ty cJSON_StringIsConst = ty) as Ht by apply Hx. pose proof (no_const ty Ht) as Hty.
  apply hoare_bind, hoare_bind. cbn [item_type item_string free_str]. rewrite Hty, Ht. apply hoare_ret, hoare_bind, hoare_strdup.
  2: { intros Hm. apply hoare_ret. apply hoare_bind, hoare_delete_item, hoare_ret. exists true. split; [congruence|done]. }
  intros p. rewrite <- Ex in *. destruct (foot_named (CStr p (c_string name)) ty (json_value v) x ltac:(by rewrite Ex) Hx) as (Hf & Hv & Hnm).
  cbn [blk chars] in Hf, Hnm. rewrite c_string_idem in Hnm. set (x' := set_name (Some (CStr p (c_string name))) ty x) in *.
  rewrite <- !(assoc_L (⊎)), (assoc_L (⊎) (item_foot i)), <- (assoc_L (⊎) (item_foot i)), <- Hf.
  apply hoare_bind, hoare_gets. rewrite (get_object_item_find cs name _ Hn), Hms.
  destruct (find_name cs name ms) as [k|] eqn:Ek.
  2: { apply hoare_ret. rewrite (assoc_L (⊎)). apply hoare_bind, hoare_delete_item, hoare_ret. exists false. cbn [spec_op]. by rewrite Ek. }
  pose proof (find_name_lt _ _ _ _ Ek) as Hk. rewrite <- Hms in Hk. rewrite length_map in Hk.
  destruct (lookup_lt_is_Some_2 (item_child i) k Hk) as [c Hc]. apply hoare_bind, hoare_modify, hoare_bind. rewrite Hc.
  rewrite (object_replace_foot i ms k c x' (proj1 Hi) Hc), (assoc_L (⊎)). apply hoare_delete_item, hoare_ret, hoare_ret.
  exists false. split; [done|]. cbn [spec_op]. rewrite Ek. split; [done|]. split; [|done]. cbn [snd].
  assert (member x' = (c_string name, json_value v)) as <- by (unfold member; by rewrite Hnm, Hv). rewrite <- Hms, <- map_insert.
  eapply object_of_children; [done|]. apply Forall_insert; [done|]. unfold x'. rewrite Ex. by eexists.
Qed.

Lemma performs_op o : performs o.
Proof. destruct o; [apply performs_add|apply performs_delete|apply performs_replace]. Qed.

Lemma exec_ops_ok os : forall ms i H, object_of ms i ->
  triple (exec_ops os)
    (fun bs i' H' => exists ooms, length ooms = length os /\ (mem = true -> Forall (fun b => b = false) ooms) /\
       bs = (spec_ops ooms os ms).1 /\ object_of (spec_ops ooms os ms).2 i' /\ H' = H ⊎ item_foot i')
    (fun _ _ => False) i (H ⊎ item_foot i).
Proof.
  induction os as [|o os IH]; intros ms i H Hi; cbn [exec_ops].
  - apply hoare_ret. by exists [].
  - apply hoare_bind. eapply hoare_mono; [by apply performs_op| |done]. intros b i1 h (oom & Hm & -> & Hi1 & ->).
    apply hoare_bind. eapply hoare_mono; [by apply IH| |done]. intros bs i2 h (ooms & Hlen & Hms & -> & Hi2 & ->). apply hoare_ret.
    exists (oom :: ooms). split; [cbn; lia|]. split; [intros E; constructor; [by apply Hm|by apply Hms]|]. cbn [spec_ops].
    destruct (spec_op oom o ms) as [b ms1]. cbn [fst snd] in *. by destruct (spec_ops ooms os ms1).
Qed.
End ops.

(** A string item gets the new text, in place or in a new block, or keeps the
    old one. *)
Lemma set_valuestring_ok {mem : bool} self old vi vd nm t H :
  let i := Item self cJSON_String (Some old) vi vd nm [] in
  triple mem (cJSON_SetValuestring (Some t))
    (fun r i' H' => H' = H ⊎ item_foot i' /\
       match r with Some _ => to_json i' = JString (c_string t) /\ item_name i' = item_name i | None => i' = i /\ mem = false end)
    (fun _ _ => False) i (H ⊎ item_foot i).
Proof.
  intros i. assert (forall c, item_foot (Item self cJSON_String (Some c) vi vd nm []) = {[+ self +]} ⊎ str_foot nm ⊎ {[+ blk c +]}) as Hf.
  { intros c. rewrite foot_owned by done. cbn [str_foot items_foot]. by rewrite heap_id. }
  unfold cJSON_SetValuestring. apply hoare_bind, hoare_gets. cbn [i]. change (negb (has_flag cJSON_String cJSON_String) || has_flag cJSON_String cJSON_IsReference) with false.
  cbv iota zeta. destruct (_ <=? _)%nat.
  - apply hoare_bind, hoare_modify, hoare_ret. split; [unfold i; by rewrite !Hf|]. split; [|done]. cbn. by rewrite c_string_idem.
  - apply hoare_bind, hoare_strdup.
    + intros p. apply hoare_bind. unfold i. rewrite Hf. eapply hoare_heap; [|apply hoare_free, hoare_bind, hoare_modify, hoare_ret].
      2: { split; [rewrite Hf; cbn [blk]; reflexivity|]. split; [|done]. cbn. by rewrite c_string_idem. }
      cbn [blk]. multiset_solver.
    + intros Hm. apply hoare_ret. done.
Qed.

(** C38: any sequence of adding, deleting and replacing members of a new
    object, with any allocation failing: no block is freed twice or lost,
    the object owns exactly its blocks, and its members and the answers are
    those of the same sequence on a list of named values, in which an
    operation that ran out of memory changes nothing; with enough memory no
    operation does. *)
Theorem json_object_refines (self : nat) (os : list op) (st : store) :
  live st = {[+ self +]} ->
  match exec_ops os (Item self cJSON_Object None 0 zero_double None []) st with
  | Ok bs i st' =>
      exists ooms, length ooms = length os /\ (answers st = [] -> Forall (fun b => b = false) ooms) /\
        bs = (spec_ops ooms os []).1 /\ to_json i = JObject (spec_ops ooms os []).2 /\ live st' = item_foot i
  | Err _ _ | UB => False
  end.
Proof.
  intros Hl. set (i := Item self cJSON_Object None 0 zero_double None []).
  assert (object_of [] i) as Hi by (split; [done|constructor]). assert (live st = ∅ ⊎ item_foot i) as Hf.
  { rewrite Hl. unfold i. rewrite foot_owned by done. cbn [str_foot items_foot]. multiset_solver. }
  destruct (answers st) as [|a al] eqn:Ea.
  - pose proof (exec_ops_ok (mem := true) os [] i ∅ Hi st Hf (fun _ => Ea)) as Hr. destruct (exec_ops os i st) as [bs i' st'|i' st'|]; [|by destruct Hr|done].
    destruct Hr as [(ooms & H1 & H2 & H3 & H4 & H5) _]. exists ooms. split; [done|]. split; [intros _; by apply H2|]. split; [done|].
    split; [by apply is_object_json, H4|]. rewrite H5. multiset_solver.
  - pose proof (exec_ops_ok (mem := false) os [] i ∅ Hi st Hf ltac:(done)) as Hr. destruct (exec_ops os i st) as [bs i' st'|i' st'|]; [|by destruct Hr|done].
    destruct Hr as [(ooms & H1 & H2 & H3 & H4 & H5) _]. exists ooms. split; [done|]. split; [done|]. split; [done|].
    split; [by apply is_object_json, H4|]. rewrite H5. multiset_solver.
Qed.

Definition demo_ops : list op :=
  [OAdd "a" (VNumber (dbl_int 1)); OAdd "B" VNull; OReplace false "b" (VText "x"); ODelete true "A"; ODelete true "a"; OReplace true "B" VArray].
Definition demo_store : store := Store {[+ 0%nat +]} 1 [] (ParseError CJSON_PARSE_OK EmptyString).

Lemma json_object_refines_witness :
  match exec_ops demo_ops (Item 0 cJSON_Object None 0 zero_double None []) demo_store with
  | Ok bs i st' => bs = [true; true; true; true; true; false] /\ to_json i = JObject [("b", JString "x")] /\ live st' = item_foot i
  | Err _ _ | UB => False
  end.
Proof.
  pose proof (json_object_refines 0 demo_ops demo_store eq_refl) as H.
  destruct (exec_ops demo_ops (Item 0 cJSON_Object None 0 zero_double None []) demo_store) as [bs i st'|i st'|]; [|exact H|exact H].
  destruct H as (ooms & Hlen & Hoom & Hbs & Hi & Hl). specialize (Hoom eq_refl).
  assert (ooms = [false; false; false; false; false; false]) as -> by (repeat (destruct Hoom as [|? ? -> Hoom]; [discriminate Hlen|]; injection Hlen as Hlen); by destruct Hoom).
  split; [exact Hbs|]. split; [rewrite Hi; vm_compute; reflexivity|exact Hl].
Defined.

(** When memory for the name is not there, the reference made for it stays
    allocated and nothing points to it. *)
Lemma reference_lost string i object st : answers st = [true; false] ->
  exists st', cJSON_AddItemReferenceToObject string i object st = Ok false object st' /\ live st' = live st ⊎ {[+ CJson.next st +]}.
Proof.
  intros Ha. destruct i as [self ty vs vi vd nm ch]. unfold cJSON_AddItemReferenceToObject, create_reference, cJSON_New_Item, add_item_to_object, cJSON_strdup, strdup, bind, alloc, ret.
  rewrite Ha. cbn. by eexists.
Qed.
