(* ===== verification/JsonMinify.v ===== *)
(** * Minifying a JSON text in place (cJSON.c)

    [cJSON_Minify] moves a read and a write position over the same buffer.
    The theorems: it stays inside the buffer and leaves [minified] text; and
    the minified text of a document stands for the same value, unless a
    string in it ends in an escaped backslash, whose closing quote
    [minify_string] takes for an escaped one. *)

From stdpp Require Import prelude list list_numbers strings.
From Stdlib Require Import SpecFloat.
From S2P Require Import Prelude RateLimit Messages CJson Decimal JsonParse JsonSafety JsonGrammar JsonText.

(** ** The code *)

(** The buffer, [json] (or [*input]) and [into] (or [*output]). *)
Record minify := Minify { buffer : list Z; json : Z; into : Z }.

Definition byte_at (s : minify) (i : Z) : option Z :=
  if in_bounds (zlen (buffer s)) i 1 then Some (bget (buffer s) i) else None.
Definition put_at (i b : Z) (s : minify) : option minify :=
  (fun buf => Minify buf (json s) (into s)) <$> bwrite (zlen (buffer s)) (buffer s) i [b].
Definition skip (n : Z) (s : minify) : minify := Minify (buffer s) (json s + n) (into s).
Definition fill (n : Z) (s : minify) : minify := Minify (buffer s) (json s) (into s + n).

(** The [for] loops of the comments and of the string. *)
Fixpoint oneline_loop (fuel : nat) (s : minify) : option minify :=
  match fuel with
  | O => None
  | S fuel =>
      c ← byte_at s (json s);
      if c =? 0 then Some s else if c =? 10 then Some (skip 1 s) else oneline_loop fuel (skip 1 s)
  end.
Definition skip_oneline_comment (fuel : nat) (s : minify) : option minify := oneline_loop fuel (skip 2 s).

Fixpoint multiline_loop (fuel : nat) (s : minify) : option minify :=
  match fuel with
  | O => None
  | S fuel =>
      c ← byte_at s (json s);
      if c =? 0 then Some s
      else
        close ← (if c =? 42 then (fun d => d =? 47) <$> byte_at s (json s + 1) else Some false);
        if close : bool then Some (skip 2 s) else multiline_loop fuel (skip 1 s)
  end.
Definition skip_multiline_comment (fuel : nat) (s : minify) : option minify := multiline_loop fuel (skip 2 s).

Fixpoint string_loop (fuel : nat) (s : minify) : option minify :=
  match fuel with
  | O => None
  | S fuel =>
      c ← byte_at s (json s);
      if c =? 0 then Some s
      else
        s ← put_at (into s) c s;
        if c =? 34 then s ← put_at (into s) 34 s; Some (fill 1 (skip 1 s))
        else
          quote ← (if c =? 92 then (fun d => d =? 34) <$> byte_at s (json s + 1) else Some false);
          if quote : bool then
            d ← byte_at s (json s + 1);
            s ← put_at (into s + 1) d s;
            string_loop fuel (fill 1 (skip 1 (fill 1 (skip 1 s))))
          else string_loop fuel (fill 1 (skip 1 s))
  end.
Definition minify_string (fuel : nat) (s : minify) : option minify :=
  c ← byte_at s (json s);
  s ← put_at (into s) c s;
  string_loop fuel (fill 1 (skip 1 s)).

(** [while (json[0] != '\0')] *)
Fixpoint minify_loop (fuel : nat) (s : minify) : option minify :=
  match fuel with
  | O => None
  | S fuel =>
      c ← byte_at s (json s);
      if c =? 0 then Some s
      else if (c =? 32) || (c =? 9) || (c =? 13) || (c =? 10) then minify_loop fuel (skip 1 s)
      else if c =? 47 then
        d ← byte_at s (json s + 1);
        s ← (if d =? 47 then skip_oneline_comment fuel s
             else if d =? 42 then skip_multiline_comment fuel s
             else Some (skip 1 s));
        minify_loop fuel s
      else if c =? 34 then s ← minify_string fuel s; minify_loop fuel s
      else s ← put_at (into s) c s; minify_loop fuel (fill 1 (skip 1 s))
  end.

(** The buffer afterwards. *)
Definition cJSON_Minify (json : list Z) : option (list Z) :=
  s ← minify_loop (length json) (Minify json 0 0);
  s ← put_at (into s) 0 s;
  Some (buffer s).

(** ** What it computes *)

Fixpoint after_line (t : list Z) : list Z := match t with [] => [] | c :: t => if c =? 10 then t else after_line t end.
Fixpoint after_comment (t : list Z) : list Z :=
  match t with
  | [] => []
  | c :: t => match t with d :: t' => if (c =? 42) && (d =? 47) then t' else after_comment t | [] => [] end
  end.

(** The rest of a string literal, and what follows it. *)
Fixpoint literal (n : nat) (t : list Z) : list Z * list Z :=
  match n, t with
  | S n, c :: t =>
      if c =? 34 then ([34], t)
      else match t with
           | d :: t' =>
               if (c =? 92) && (d =? 34) then let '(o, r) := literal n t' in (92 :: 34 :: o, r)
               else let '(o, r) := literal n t in (c :: o, r)
           | [] => ([c], [])
           end
  | _, _ => ([], [])
  end.

Fixpoint minified (n : nat) (t : list Z) : list Z :=
  match n, t with
  | S n, c :: t =>
      if (c =? 32) || (c =? 9) || (c =? 13) || (c =? 10) then minified n t
      else if c =? 47 then
        match t with
        | d :: t' => if d =? 47 then minified n (after_line t') else if d =? 42 then minified n (after_comment t') else minified n t
        | [] => []
        end
      else if c =? 34 then let '(o, r) := literal n t in 34 :: o ++ minified n r
      else c :: minified n t
  | _, _ => []
  end.

(** ** The code computes it *)

(** The text of [out] is written, [rest] with its NUL is to be read. *)
Definition at_gap (out rest : list Z) (s : minify) : Prop :=
  exists junk, buffer s = out ++ junk ++ rest ++ [0] /\ into s = zlen out /\ json s = zlen out + zlen junk.

Lemma gap_read out rest s : at_gap out rest s -> byte_at s (json s) = Some (default 0 (head rest)).
Proof.
  intros (junk & Hb & Hi & Hj). unfold byte_at. rewrite Hb, Hj. pose proof (zlen_nonneg out). pose proof (zlen_nonneg junk). pose proof (zlen_nonneg rest).
  rewrite in_bounds_true by (rewrite ?zlen_app, ?zlen_cons, ?zlen_nil; lia).
  f_equal. rewrite !bget_app_r by lia. replace (zlen out + zlen junk - zlen out - zlen junk) with 0 by lia. by destruct rest.
Qed.

Lemma gap_read1 out c rest s : at_gap out (c :: rest) s -> byte_at s (json s + 1) = Some (default 0 (head rest)).
Proof.
  intros (junk & Hb & Hi & Hj). rewrite <- (gap_read out rest (skip 1 s)); [done|]. exists (junk ++ [c]).
  cbn [skip buffer json into]. rewrite Hb, Hi, Hj, zlen_app. split; [by rewrite <- !app_assoc|]. split; [done|]. unfold zlen. cbn. lia.
Qed.

Lemma gap_skip out c rest s : at_gap out (c :: rest) s -> at_gap out rest (skip 1 s).
Proof.
  intros (junk & Hb & Hi & Hj). exists (junk ++ [c]). cbn [skip buffer json into]. rewrite Hb, Hi, Hj, zlen_app.
  split; [by rewrite <- !app_assoc|]. split; [done|]. unfold zlen. cbn. lia.
Qed.

Lemma gap_skip2 out c d rest s : at_gap out (c :: d :: rest) s -> at_gap out rest (skip 2 s).
Proof.
  intros Hs. apply gap_skip, gap_skip in Hs. unfold skip in *. cbn [buffer json into] in Hs. by replace (json s + 2) with (json s + 1 + 1) by lia.
Qed.

(** Writing the byte just read, before the positions move. *)
Lemma gap_put out c rest s : at_gap out (c :: rest) s ->
  exists s', put_at (into s) c s = Some s' /\ json s' = json s /\ into s' = into s /\ at_gap (out ++ [c]) rest (fill 1 (skip 1 s')).
Proof.
  intros (junk & Hb & Hi & Hj). pose proof (zlen_nonneg out). pose proof (zlen_nonneg junk). pose proof (zlen_nonneg rest).
  unfold put_at. rewrite bwrite_ok by (rewrite ?Hb, ?Hi, ?zlen_app, ?zlen_cons, ?zlen_nil; lia). eexists. split; [reflexivity|]. split; [done|]. split; [done|].
  rewrite Hb, Hi. exists (match junk with [] => [] | _ :: j => j ++ [c] end). cbn [fill skip buffer json into]. rewrite bput_after. split.
  - destruct junk as [|x junk]; cbn [app drop length]; by rewrite <- ?app_assoc.
  - rewrite zlen_app, zlen_cons, zlen_nil. split; [lia|]. rewrite Hj. destruct junk as [|x junk]; unfold zlen; rewrite ?length_app; cbn [length]; lia.
Qed.

Lemma gap_again out c rest s : at_gap (out ++ [c]) rest (fill 1 (skip 1 s)) -> put_at (into s) c s = Some s.
Proof.
  intros (junk & Hb & Hi & Hj). cbn [fill skip buffer json into] in *. rewrite zlen_app, zlen_cons, zlen_nil in *. pose proof (zlen_nonneg out).
  pose proof (zlen_nonneg junk). pose proof (zlen_nonneg rest).
  unfold put_at. rewrite bwrite_ok by (rewrite ?Hb, ?zlen_app, ?zlen_cons, ?zlen_nil; lia). cbn. destruct s as [b j i]. cbn [buffer json into] in *. do 2 f_equal.
  rewrite Hb. replace i with (zlen out) by lia. rewrite <- !app_assoc. by rewrite bput_after.
Qed.

Lemma oneline_ok n t : forall out s, (length t < n)%nat -> (0 ∉ t) -> at_gap out t s ->
  exists s', oneline_loop n s = Some s' /\ at_gap out (after_line t) s'.
Proof.
  revert t. induction n as [|n IH]; intros t out s Hn H0 Hs; [lia|]. cbn [oneline_loop]. rewrite (gap_read _ _ _ Hs). cbn [mbind option_bind fmap option_fmap option_map].
  destruct t as [|c t]; cbn [id head default after_line]; [by exists s|]. apply not_elem_of_cons in H0 as [Hc H0].
  rewrite (proj2 (Z.eqb_neq c 0)) by done. destruct (c =? 10); [eexists; split; [done|]; by eapply gap_skip|].
  apply IH; [cbn in Hn; lia|done|]. by eapply gap_skip.
Qed.

Lemma multiline_ok n t : forall out s, (length t < n)%nat -> (0 ∉ t) -> at_gap out t s ->
  exists s', multiline_loop n s = Some s' /\ at_gap out (after_comment t) s'.
Proof.
  revert t. induction n as [|n IH]; intros t out s Hn H0 Hs; [lia|]. cbn [multiline_loop]. rewrite (gap_read _ _ _ Hs). cbn [mbind option_bind fmap option_fmap option_map].
  destruct t as [|c t]; cbn [id head default]; [by exists s|]. apply not_elem_of_cons in H0 as [Hc H0].
  rewrite (proj2 (Z.eqb_neq c 0)) by done. rewrite (gap_read1 _ _ _ _ Hs).
  assert (Hnext : exists s', multiline_loop n (skip 1 s) = Some s' /\ at_gap out (after_comment t) s').
  { apply IH; [cbn in Hn; lia|done|]. by eapply gap_skip. }
  destruct t as [|d t]; cbn [id head default after_comment] in *.
  - destruct (c =? 42); cbn [mbind option_bind fmap option_fmap option_map]; exact Hnext.
  - destruct (Z.eqb_spec c 42); cbn [andb mbind option_bind fmap option_fmap option_map]; [|exact Hnext]. destruct (d =? 47); [|exact Hnext]. eexists. split; [done|]. by eapply gap_skip2.
Qed.

Lemma string_ok n t : forall out s, (length t < n)%nat -> (0 ∉ t) -> at_gap out t s ->
  exists s', string_loop n s = Some s' /\ at_gap (out ++ (literal n t).1) (literal n t).2 s'.
Proof.
  revert t. induction n as [|n IH]; intros t out s Hn H0 Hs; [lia|]. cbn [string_loop]. rewrite (gap_read _ _ _ Hs). cbn [mbind option_bind fmap option_fmap option_map].
  destruct t as [|c t]; cbn [id head default literal]; [exists s; split; [done|]; cbn; by rewrite app_nil_r|]. apply not_elem_of_cons in H0 as [Hc H0].
  rewrite (proj2 (Z.eqb_neq c 0)) by done. destruct (gap_put _ _ _ _ Hs) as (s1 & E1 & Ej & Ei & Hs1). rewrite E1. cbn [mbind option_bind fmap option_fmap option_map].
  destruct (Z.eqb_spec c 34) as [->|H34]; [rewrite (gap_again _ _ _ _ Hs1); cbn [mbind option_bind fmap option_fmap option_map]; eexists; split; [done|]; exact Hs1|].
  pose proof (gap_read _ _ _ Hs1) as Hr. unfold byte_at in Hr. cbn [fill skip buffer json] in Hr. change (byte_at s1 (json s1 + 1) = Some (default 0 (head t))) in Hr.
  assert (Hnext : exists s', string_loop n (fill 1 (skip 1 s1)) = Some s' /\ at_gap (out ++ c :: (literal n t).1) (literal n t).2 s').
  { destruct (IH t (out ++ [c]) (fill 1 (skip 1 s1)) ltac:(cbn in Hn; lia) H0 Hs1) as (s' & E' & Hs'). exists s'. split; [done|]. by rewrite <- app_assoc in Hs'. }
  destruct t as [|d t]; cbn [id head default] in Hr.
  - cbn [literal] in *. destruct n as [|n']; [cbn in Hn; lia|]. cbn [literal] in Hnext. cbn [mbind option_bind fmap option_fmap option_map]. destruct (c =? 92); [rewrite Hr|]; cbn [mbind option_bind fmap option_fmap option_map]; exact Hnext.
  - destruct (Z.eqb_spec c 92) as [->|H92]; cbn [andb].
    + rewrite Hr. cbn [mbind option_bind fmap option_fmap option_map]. destruct (Z.eqb_spec d 34) as [->|Hd].
      * cbn [mbind option_bind fmap option_fmap option_map]. destruct (gap_put _ _ _ _ Hs1) as (s2 & E2 & Ej2 & Ei2 & Hs2). cbn [fill skip into json] in Ei2, Ej2.
        unfold put_at in E2 |- *. cbn [fill skip buffer json into] in E2 |- *.
        destruct (bwrite (zlen (buffer s1)) (buffer s1) (into s1 + 1) [34]) as [b|]; [|done]. cbn in E2 |- *. injection E2 as <-.
        destruct (IH t ((out ++ [92]) ++ [34]) _ ltac:(cbn in Hn; lia) ltac:(set_solver) Hs2) as (s' & E' & Hs'). exists s'.
        cbn [fill skip buffer json into] in E' |- *. split; [exact E'|].
        destruct (literal n t) as [o r]. cbn [fst snd] in *. by rewrite <- !app_assoc in Hs'.
      * cbn [mbind option_bind fmap option_fmap option_map]. destruct (literal n (d :: t)) as [o r] eqn:El. cbn [fst snd] in *. exact Hnext.
    + cbn [mbind option_bind fmap option_fmap option_map]. destruct (literal n (d :: t)) as [o r] eqn:El. cbn [fst snd] in *. exact Hnext.
Qed.

Lemma after_line_length t : (length (after_line t) <= length t)%nat.
Proof. induction t as [|c t IH]; cbn; [lia|]. destruct (c =? 10); lia. Qed.
Lemma after_comment_length t : (length (after_comment t) <= length t)%nat.
Proof.
  induction t as [|c t IH]; [done|]. destruct t as [|d t]; [cbn; lia|].
  change (after_comment (c :: d :: t)) with (if (c =? 42) && (d =? 47) then t else after_comment (d :: t)).
  destruct (_ && _); [cbn; lia|]. etrans; [exact IH|]. cbn. lia.
Qed.
Lemma literal_length n t : (length (literal n t).2 <= length t)%nat.
Proof.
  revert t. induction n as [|n IH]; intros t; [cbn; lia|]. destruct t as [|c t]; [cbn; lia|]. cbn [literal]. destruct (c =? 34); [cbn; lia|].
  destruct t as [|d t]; [cbn; lia|]. destruct (_ && _).
  - specialize (IH t). destruct (literal n t). cbn [snd length] in *. lia.
  - specialize (IH (d :: t)). destruct (literal n (d :: t)). cbn [snd length] in *. lia.
Qed.
Lemma after_line_elem t x : x ∈ after_line t -> x ∈ t.
Proof. induction t as [|c t IH]; [done|]. cbn [after_line]. destruct (c =? 10); set_solver. Qed.
Lemma after_comment_elem t x : x ∈ after_comment t -> x ∈ t.
Proof.
  induction t as [|c t IH]; [done|]. destruct t as [|d t]; [by intros Hx%not_elem_of_nil|].
  change (after_comment (c :: d :: t)) with (if (c =? 42) && (d =? 47) then t else after_comment (d :: t)). destruct (_ && _); set_solver. Qed.
Lemma literal_elem n t x : x ∈ (literal n t).2 -> x ∈ t.
Proof.
  revert t. induction n as [|n IH]; intros t; [by intros Hx%not_elem_of_nil|]. destruct t as [|c t]; [done|]. cbn [literal].
  destruct (c =? 34); [cbn [snd]; set_solver|]. destruct t as [|d t]; [by intros Hx%not_elem_of_nil|]. destruct (_ && _).
  - specialize (IH t). destruct (literal n t). cbn [snd] in *. set_solver.
  - specialize (IH (d :: t)). destruct (literal n (d :: t)). cbn [snd] in *. set_solver.
Qed.

Lemma literal_elem1 n t x : x ∈ (literal n t).1 -> x ∈ t.
Proof.
  revert t. induction n as [|n IH]; intros t; [by intros Hx%not_elem_of_nil|]. destruct t as [|c t]; [done|]. cbn [literal].
  destruct (Z.eqb_spec c 34) as [->|]; [cbn [fst]; set_solver|]. destruct t as [|d t]; [done|].
  destruct (Z.eqb_spec c 92) as [->|]; destruct (Z.eqb_spec d 34) as [->|]; cbn [andb].
  1: { specialize (IH t). destruct (literal n t). cbn [fst] in *. set_solver. }
  all: match goal with |- context [literal ?m ?u] => specialize (IH u); destruct (literal m u) end; cbn [fst] in *; set_solver.
Qed.

Lemma minified_elem n t x : x ∈ minified n t -> x ∈ t.
Proof.
  revert t. induction n as [|n IH]; intros t; [by intros Hx%not_elem_of_nil|]. destruct t as [|c t]; [done|]. cbn [minified].
  destruct (_ || _); [intros Hx%IH; set_solver|]. destruct (c =? 47).
  - destruct t as [|d t]; [by intros Hx%not_elem_of_nil|]. destruct (d =? 47); [intros Hx%IH%after_line_elem; set_solver|].
    destruct (d =? 42); [intros Hx%IH%after_comment_elem; set_solver|intros Hx%IH; set_solver].
  - destruct (Z.eqb_spec c 34) as [->|].
    + pose proof (literal_elem n t x) as H2. pose proof (literal_elem1 n t x) as H1. destruct (literal n t) as [o r]. cbn [fst snd] in *.
      intros [Hx|[Hx|Hx%IH]%elem_of_app]%elem_of_cons; set_solver.
    + intros [Hx|Hx%IH]%elem_of_cons; set_solver.
Qed.

Lemma minify_loop_ok n t : forall out s, (length t < n)%nat -> (0 ∉ t) -> at_gap out t s ->
  exists s', minify_loop n s = Some s' /\ at_gap (out ++ minified n t) [] s'.
Proof.
  revert t. induction n as [|n IH]; intros t out s Hn H0 Hs; [lia|]. cbn [minify_loop]. rewrite (gap_read _ _ _ Hs). cbn [mbind option_bind fmap option_fmap option_map].
  destruct t as [|c t]; cbn [id head default minified]; [exists s; split; [done|]; cbn; by rewrite app_nil_r|]. apply not_elem_of_cons in H0 as [Hc H0].
  rewrite (proj2 (Z.eqb_neq c 0)) by done. cbn [length] in Hn.
  destruct (_ || _); [apply IH; [lia|done|by eapply gap_skip]|].
  destruct (Z.eqb_spec c 47) as [->|H47].
  { rewrite (gap_read1 _ _ _ _ Hs). destruct t as [|d t]; cbn [id head default mbind option_bind fmap option_fmap option_map].
    - destruct (IH [] out (skip 1 s) ltac:(cbn; lia) H0 (gap_skip _ _ _ _ Hs)) as (s' & E' & Hs'). exists s'. split; [exact E'|]. by destruct n.
    - apply not_elem_of_cons in H0 as [Hd H0]. cbn [length] in Hn. pose proof (gap_skip2 _ _ _ _ _ Hs) as Hs2. destruct (d =? 47).
      + destruct (oneline_ok n t out (skip 2 s) ltac:(lia) H0 Hs2) as (s1 & E1 & Hs1). unfold skip_oneline_comment. rewrite E1. cbn [mbind option_bind fmap option_fmap option_map].
        apply IH; [pose proof (after_line_length t); lia|by intros Hx%after_line_elem|done].
      + destruct (d =? 42).
        * destruct (multiline_ok n t out (skip 2 s) ltac:(lia) H0 Hs2) as (s1 & E1 & Hs1). unfold skip_multiline_comment. rewrite E1. cbn [mbind option_bind fmap option_fmap option_map].
          apply IH; [pose proof (after_comment_length t); lia|by intros Hx%after_comment_elem|done].
        * cbn [mbind option_bind fmap option_fmap option_map]. apply IH; [cbn; lia|by apply not_elem_of_cons|by eapply gap_skip]. }
  destruct (gap_put _ _ _ _ Hs) as (s1 & E1 & Ej & Ei & Hs1). destruct (Z.eqb_spec c 34) as [->|H34].
  - unfold minify_string. rewrite (gap_read _ _ _ Hs). cbn [id head default mbind option_bind fmap option_fmap option_map]. rewrite E1. cbn [mbind option_bind fmap option_fmap option_map].
    destruct (string_ok n t (out ++ [34]) _ ltac:(lia) H0 Hs1) as (s2 & E2 & Hs2). rewrite E2. cbn [mbind option_bind fmap option_fmap option_map].
    destruct (IH (literal n t).2 _ s2 ltac:(pose proof (literal_length n t); lia) ltac:(by intros Hx%literal_elem) Hs2) as (s3 & E3 & Hs3). exists s3. split; [done|].
    destruct (literal n t) as [o r]. cbn [fst snd] in *. by rewrite <- !app_assoc in Hs3.
  - rewrite E1. cbn [mbind option_bind fmap option_fmap option_map]. destruct (IH t (out ++ [c]) _ ltac:(lia) H0 Hs1) as (s2 & E2 & Hs2). exists s2. split; [done|]. by rewrite <- app_assoc in Hs2.
Qed.

Lemma c_text_buffer t r : (0 ∉ t) -> Messages.c_text (t ++ 0 :: r) = t.
Proof. intros H. apply Messages.c_text_app, Forall_forall. by intros c Hc ->. Qed.

(** The string the buffer holds afterwards. *)
Lemma minify_computes t : (0 ∉ t) ->
  exists buf, cJSON_Minify (t ++ [0]) = Some buf /\ exists junk, buf = minified (S (length t)) t ++ 0 :: junk.
Proof.
  intros H0. unfold cJSON_Minify. assert (at_gap [] t (Minify (t ++ [0]) 0 0)) as Hg by (by exists []).
  rewrite length_app. cbn [length]. rewrite Nat.add_1_r.
  destruct (minify_loop_ok (S (length t)) t [] _ ltac:(lia) H0 Hg) as (s & Es & junk & Hb & Hi & Hj). rewrite Es. cbn [mbind option_bind]. cbn [app] in *.
  unfold put_at. pose proof (zlen_nonneg junk). rewrite bwrite_ok by (rewrite ?Hb, ?Hi, ?zlen_app, ?zlen_cons, ?zlen_nil; pose proof (zlen_nonneg (minified (S (length t)) t)); lia).
  cbn [fmap option_fmap option_map mbind option_bind buffer]. eexists. split; [reflexivity|]. rewrite Hb, Hi, bput_after.
  by eexists.
Qed.

(** ** The value is kept *)

(** No escaped backslash is followed by a quote. *)
Definition clean (t : list Z) : Prop := forall a b, t <> a ++ [92; 92; 34] ++ b.

Lemma clean_app_r a b : clean (a ++ b) -> clean b.
Proof. intros Hc x y ->. apply (Hc (a ++ x) y). by rewrite <- app_assoc. Qed.
Lemma clean_cons c b : clean (c :: b) -> clean b.
Proof. apply (clean_app_r [c]). Qed.

(** Enough fuel is enough. *)
Lemma literal_fuel n : forall m t, (length t <= n)%nat -> (length t <= m)%nat -> literal n t = literal m t.
Proof.
  induction n as [|n IH]; intros m t Hn Hm; [destruct t, m; cbn in *; try done; lia|]. destruct m as [|m]; [destruct t; cbn in *; [done|lia]|].
  destruct t as [|c t]; [done|]. cbn [literal length] in *. destruct (c =? 34); [done|]. destruct t as [|d t]; [done|]. cbn [length] in *.
  by rewrite (IH m t), (IH m (d :: t)) by (cbn; lia).
Qed.
Lemma minified_fuel n : forall m t, (length t <= n)%nat -> (length t <= m)%nat -> minified n t = minified m t.
Proof.
  induction n as [|n IH]; intros m t Hn Hm; [destruct t, m; cbn in *; try done; lia|]. destruct m as [|m]; [destruct t; cbn in *; [done|lia]|].
  destruct t as [|c t]; [done|]. cbn [minified length] in *. destruct (_ || _); [apply IH; lia|]. destruct (c =? 47).
  - destruct t as [|d t]; [done|]. cbn [length] in *. pose proof (after_line_length t). pose proof (after_comment_length t).
    destruct (d =? 47); [apply IH; lia|]. destruct (d =? 42); apply IH; cbn; lia.
  - rewrite (literal_fuel n m) by lia. pose proof (literal_length m t). destruct (c =? 34); [|f_equal; apply IH; lia].
    destruct (literal m t) as [o r]. cbn [snd] in *. do 2 f_equal. apply IH; lia.
Qed.

Definition mini (t : list Z) : list Z := minified (length t) t.

Lemma mini_white c t : white c -> mini (c :: t) = mini t.
Proof.
  intros Hc. unfold mini. cbn [length minified].
  assert ((c =? 32) || (c =? 9) || (c =? 13) || (c =? 10) = true) as -> by (unfold white in Hc; rewrite !orb_true_iff, !Z.eqb_eq; tauto). done.
Qed.
Lemma mini_ws w t : ws w -> mini (w ++ t) = mini t.
Proof. induction 1 as [|c w Hc Hw IH]; [done|]. cbn [app]. by rewrite mini_white. Qed.

(** A byte that is copied. *)
Definition ordinary (c : Z) : Prop := c <> 32 /\ c <> 9 /\ c <> 13 /\ c <> 10 /\ c <> 47 /\ c <> 34.
Lemma mini_ordinary c t : ordinary c -> mini (c :: t) = c :: mini t.
Proof.
  intros (H1 & H2 & H3 & H4 & H5 & H6). unfold mini. cbn [length minified].
  by rewrite (proj2 (Z.eqb_neq c 32) H1), (proj2 (Z.eqb_neq c 9) H2), (proj2 (Z.eqb_neq c 13) H3), (proj2 (Z.eqb_neq c 10) H4), (proj2 (Z.eqb_neq c 47) H5), (proj2 (Z.eqb_neq c 34) H6).
Qed.
Lemma mini_ordinaries a t : Forall ordinary a -> mini (a ++ t) = a ++ mini t.
Proof. induction 1 as [|c a Hc Ha IH]; [done|]. cbn [app]. by rewrite mini_ordinary, IH. Qed.

Lemma literal_copy c t n : c <> 34 -> t <> [] -> (c = 92 -> head t <> Some 34) ->
  literal (S n) (c :: t) = (c :: (literal n t).1, (literal n t).2).
Proof.
  intros H1 H2 H3. cbn [literal]. rewrite (proj2 (Z.eqb_neq c 34)) by done. destruct t as [|d t]; [done|].
  destruct (Z.eqb_spec c 92) as [->|]; cbn [andb]; [|by destruct (literal n (d :: t))].
  rewrite (proj2 (Z.eqb_neq d 34)) by (intros ->; by apply H3). by destruct (literal n (d :: t)).
Qed.

Lemma literal_quote n t : literal (S n) (92 :: 34 :: t) = (92 :: 34 :: (literal n t).1, (literal n t).2).
Proof. cbn [literal]. change (92 =? 34) with false. change ((92 =? 92) && (34 =? 34)) with true. cbv iota. by destruct (literal n t). Qed.

Lemma literal_copies a t : forall n, Forall (fun c => c <> 34 /\ c <> 92) a -> t <> [] ->
  literal (length a + n) (a ++ t) = (a ++ (literal n t).1, (literal n t).2).
Proof.
  induction a as [|c a IH]; intros n Ha Ht; [cbn [app length Nat.add]; by destruct (literal n t)|]. inversion Ha as [|? ? [H1 H2] Ha']; subst. cbn [length app Nat.add].
  rewrite literal_copy; [|done|by destruct a|done]. by rewrite IH.
Qed.

(** The fuel that is left does not matter. *)
Lemma literal_string t b r : str_chars t b -> clean (t ++ 34 :: r) -> forall n, (length t < n)%nat -> literal n (t ++ 34 :: r) = (t ++ [34], r).
Proof.
  intros Hs. induction Hs as [|c t b Hc H34 H92 Ht IH|e x t b He Ht IH|h v t b Hh Hv Ht IH|h1 v1 h2 v2 t b Hh1 Hv1 Hh2 Hv2 Ht IH]; intros Hcl n Hn.
  - by destruct n; [cbn in Hn; lia|].
  - cbn [app length] in *. destruct n as [|n]; [lia|]. rewrite literal_copy; [|done|by destruct t|done]. by rewrite (IH (clean_cons _ _ Hcl)) by lia.
  - cbn [app length] in *. destruct n as [|[|n]]; [lia..|]. pose proof (clean_cons _ _ (clean_cons _ _ Hcl)) as Hcl2. destruct (decide (e = 34)) as [->|He34].
    + rewrite literal_quote. by rewrite (IH Hcl2) by lia.
    + rewrite literal_copy; [|done|done|cbn; congruence]. rewrite literal_copy; [by rewrite (IH Hcl2) by lia|done|by destruct t|].
      intros -> Hq. destruct Ht; cbn in Hq; simplify_eq. by apply (Hcl [] r).
  - pose proof (hex4_range h v Hh) as (_ & Hlen & Hch). cbn [app length] in *. rewrite length_app, Hlen in Hn. destruct n as [|[|n]]; [lia..|].
    rewrite literal_copy; [|done|done|done]. rewrite literal_copy; [|done|by destruct h|done]. rewrite <- app_assoc.
    replace n with (length h + (n - 4))%nat by lia. rewrite literal_copies; [|done|by destruct t].
    rewrite IH; [cbn [fst snd]; by rewrite <- app_assoc| |lia]. do 2 apply clean_cons in Hcl. rewrite <- app_assoc in Hcl. by apply clean_app_r in Hcl.
  - pose proof (hex4_range h1 v1 Hh1) as (_ & Hlen1 & Hch1). pose proof (hex4_range h2 v2 Hh2) as (_ & Hlen2 & Hch2).
    cbn [app length] in *. rewrite length_app in Hn. cbn [length] in Hn. rewrite length_app, Hlen1, Hlen2 in Hn. destruct n as [|[|n]]; [lia..|].
    rewrite literal_copy; [|done|done|done]. rewrite literal_copy; [|done|by destruct h1|done]. rewrite <- app_assoc.
    replace n with (length h1 + S (S (length h2 + (n - 10))))%nat by lia. rewrite literal_copies; [|done|done]. cbn [app].
    rewrite literal_copy; [|done|done|done]. rewrite literal_copy; [|done|by destruct h2|done]. rewrite <- app_assoc. rewrite literal_copies; [|done|by destruct t].
    rewrite IH; [cbn [fst snd]; by rewrite <- !app_assoc; cbn [app]; rewrite <- app_assoc| |lia].
    do 2 apply clean_cons in Hcl. rewrite <- app_assoc in Hcl. apply clean_app_r in Hcl. cbn [app] in Hcl. do 2 apply clean_cons in Hcl. rewrite <- app_assoc in Hcl. by apply clean_app_r in Hcl.
Qed.

Lemma mini_string t b r : str_chars t b -> clean (quoted t ++ r) -> mini (quoted t ++ r) = quoted t ++ mini r.
Proof.
  intros Hs Hcl. unfold quoted in *. cbn [app] in *. rewrite <- app_assoc in *. cbn [app] in *. unfold mini at 1. cbn [length minified].
  change ((34 =? 32) || (34 =? 9) || (34 =? 13) || (34 =? 10)) with false. change (34 =? 47) with false. change (34 =? 34) with true. cbv iota.
  rewrite (literal_string t b r Hs (clean_cons _ _ Hcl)) by (rewrite length_app; cbn; lia). 
  assert (minified (length (t ++ 34 :: r)) r = mini r) as -> by (apply minified_fuel; rewrite ?length_app; cbn; lia). cbn [app]. by rewrite <- app_assoc.
Qed.

Lemma number_ordinary t : Forall (fun c => number_char c = true) t -> Forall ordinary t.
Proof.
  induction 1 as [|c t Hc Ht IH]; constructor; [|done]. unfold ordinary. unfold number_char, is_digit in Hc.
  rewrite !orb_true_iff, !andb_true_iff, !Z.leb_le, !Z.eqb_eq in Hc. lia.
Qed.

(** The minified text of a part of a document. *)
Definition shrinks (t t' : list Z) : Prop := forall r, clean (t ++ r) -> mini (t ++ r) = t' ++ mini r.

Lemma shrinks_ordinary t : Forall ordinary t -> shrinks t t.
Proof. intros Ht r _. by apply mini_ordinaries. Qed.
Lemma shrinks_ws w : ws w -> shrinks w [].
Proof. intros Hw r _. by apply mini_ws. Qed.
Lemma shrinks_string t b : str_chars t b -> shrinks (quoted t) (quoted t).
Proof. intros Ht r. by apply (mini_string t b). Qed.
Lemma shrinks_app a a' b b' : shrinks a a' -> shrinks b b' -> shrinks (a ++ b) (a' ++ b').
Proof. intros Ha Hb r. rewrite <- !app_assoc. intros Hc. rewrite Ha, Hb; [done|by apply clean_app_r in Hc|done]. Qed.
Lemma shrinks_cons c b b' : ordinary c -> shrinks b b' -> shrinks (c :: b) (c :: b').
Proof. intros Hc. apply (shrinks_app [c] [c]). apply shrinks_ordinary. by constructor. Qed.

Ltac shrink :=
  repeat first
    [ eassumption | apply shrinks_ws; eassumption | eapply shrinks_string; eassumption
    | apply shrinks_ordinary; apply Forall_singleton; unfold ordinary; lia
    | apply shrinks_cons; [unfold ordinary; lia|] | apply shrinks_app ].

Lemma json_shrinks :
  (forall n t v, json_text n t v -> exists t', json_text n t' v /\ shrinks t t') /\
  (forall n t vs, json_elements n t vs -> exists t', json_elements n t' vs /\ shrinks t t') /\
  (forall n t ms, json_members n t ms -> exists t', json_members n t' ms /\ shrinks t t').
Proof.
  assert (Hlit : forall t, forallb (fun c => negb ((c =? 32) || (c =? 9) || (c =? 13) || (c =? 10) || (c =? 47) || (c =? 34))) t = true -> shrinks t t).
  { intros t Ht. apply shrinks_ordinary. rewrite forallb_forall in Ht. apply Forall_forall. intros c Hc. specialize (Ht c ltac:(by apply list_elem_of_In)).
    unfold ordinary. rewrite negb_true_iff, !orb_false_iff, !Z.eqb_neq in Ht. tauto. }
  apply json_mutual_ind.
  - intros n. eexists. split; [constructor|by apply Hlit].
  - intros n. eexists. split; [constructor|by apply Hlit].
  - intros n. eexists. split; [constructor|by apply Hlit].
  - intros n x Hx Hl. eexists. split; [by constructor|]. by apply shrinks_ordinary, number_ordinary, number_text_chars.
  - intros n t b Ht. eexists. split; [by constructor|]. by eapply shrinks_string.
  - intros n w Hw. exists (91 :: [] ++ [93]). split; [by constructor; constructor|]. shrink.
  - intros n t vs _ (t' & Ht' & Hs). exists (91 :: t' ++ [93]). split; [by constructor|]. shrink.
  - intros n w Hw. exists (123 :: [] ++ [125]). split; [by constructor; constructor|]. shrink.
  - intros n t ms _ (t' & Ht' & Hs). exists (123 :: t' ++ [125]). split; [by constructor|]. shrink.
  - intros n w1 t v w2 Hw1 _ (t' & Ht' & Hs) Hw2. exists ([] ++ t' ++ []). split; [constructor; [constructor|done|constructor]|]. shrink.
  - intros n w1 t v w2 ts vs Hw1 _ (t' & Ht' & Hs) Hw2 _ (ts' & Hts' & Hss). exists ([] ++ t' ++ [] ++ 44 :: ts').
    split; [constructor; [constructor|done|constructor|done]|]. shrink.
  - intros n w1 k kb w2 w3 t v w4 Hw1 Hk Hw2 Hw3 _ (t' & Ht' & Hs) Hw4. exists ([] ++ quoted k ++ [] ++ 58 :: [] ++ t' ++ []).
    split; [constructor; try done; constructor|]. shrink.
  - intros n w1 k kb w2 w3 t v w4 ts ms Hw1 Hk Hw2 Hw3 _ (t' & Ht' & Hs) Hw4 _ (ts' & Hts' & Hss).
    exists ([] ++ quoted k ++ [] ++ 58 :: [] ++ t' ++ [] ++ 44 :: ts'). split; [constructor; try done; constructor|]. shrink.
Qed.

(** [cJSON_Minify] on any text, in a buffer that ends with its NUL: every
    read and write is inside the buffer, and it ends with a NUL-terminated
    text there.  If the text is a JSON document and no escaped backslash in
    it is followed by a quote, the new text is a JSON document for the same
    value, so the parser reads the same from it. *)
Theorem json_minify (t : list Z) (v : cJSON) : (0 ∉ t) ->
  exists buf, cJSON_Minify (t ++ [0]) = Some buf /\ Messages.c_text buf = mini t /\
    (json_document t v -> clean t -> json_document (Messages.c_text buf) v).
Proof.
  intros H0. destruct (minify_computes t H0) as (buf & E & junk & Hb). exists buf. split; [done|].
  assert (Messages.c_text buf = mini t) as Ht.
  { rewrite Hb, (minified_fuel _ (length t)) by lia. apply c_text_buffer. by intros Hx%minified_elem. }
  split; [done|]. rewrite Ht. intros (bom & w1 & d & w2 & -> & Hbom & Hw1 & Hw2 & Hd) Hc. destruct json_shrinks as [Hj _].
  destruct (Hj _ _ _ Hd) as (d' & Hd' & Hs). exists bom, [], d', [].
  assert (shrinks (bom ++ w1 ++ d ++ w2) (bom ++ [] ++ d' ++ [])) as Hall.
  { apply shrinks_app; [|shrink]. apply shrinks_ordinary. destruct Hbom as [->| ->]; repeat constructor; unfold ordinary; lia. }
  split; [|split; [done|split; [constructor|split; [constructor|done]]]]. specialize (Hall []). rewrite app_nil_r in Hall. rewrite (Hall Hc).
  unfold mini at 1. cbn [length minified]. by rewrite app_nil_r.
Qed.

Definition demo_spaced : list Z := [32; 91; 34; 97; 32; 98; 34; 32; 44; 10; 49; 93].
Definition demo_spaced_value : cJSON := JArray [JString "a b"; JNumber (number_value (Num false [49] None None))].

Lemma demo_spaced_document : json_document demo_spaced demo_spaced_value.
Proof.
  assert (forall c, c = 32 \/ c = 10 -> ws [c]) as Hw by (intros c Hc; apply Forall_singleton; unfold white; tauto).
  exists [], [32], [91; 34; 97; 32; 98; 34; 32; 44; 10; 49; 93], []. split; [reflexivity|]. split; [by left|]. split; [by apply Hw; left|]. split; [constructor|].
  change (Z.to_nat CJSON_NESTING_LIMIT) with (S 999). apply (TArray 999 [34; 97; 32; 98; 34; 32; 44; 10; 49]).
  apply (ElemNext 999 [] [34; 97; 32; 98; 34] (JString "a b") [32] [10; 49]); [constructor| |by apply Hw; left|].
  - apply (TString 999 [97; 32; 98] [97; 32; 98]). repeat (apply StrPlain; [lia|done|done|]). constructor.
  - apply (ElemLast 999 [10] [49] _ []); [by apply Hw; right| |constructor].
    apply (TNumber 999 (Num false [49] None None)); [|reflexivity]. repeat split; try done. by apply Forall_singleton.
Qed.

Lemma json_minify_witness :
  exists buf, cJSON_Minify (demo_spaced ++ [0]) = Some buf /\ Messages.c_text buf = [91; 34; 97; 32; 98; 34; 44; 49; 93] /\
    json_document [91; 34; 97; 32; 98; 34; 44; 49; 93] demo_spaced_value.
Proof.
  destruct (json_minify demo_spaced demo_spaced_value ltac:(by apply (bool_decide_unpack _))) as (buf & E & Ht & Hd). exists buf. split; [exact E|].
  assert (mini demo_spaced = [91; 34; 97; 32; 98; 34; 44; 49; 93]) as Hm by reflexivity. rewrite Hm in Ht. split; [exact Ht|]. rewrite <- Ht. apply Hd.
  - apply demo_spaced_document.
  - intros a b Hab. assert (92 ∈ demo_spaced) as H9 by (rewrite Hab, elem_of_app; right; left). revert H9. by apply (bool_decide_unpack _).
Defined.

(** The closing quote after an escaped backslash is taken for an escaped
    one, so the next string loses its spaces. *)
Lemma minify_changes_string :
  let t := [91; 34; 92; 92; 34; 44; 34; 97; 32; 98; 34; 93] in
  parse_text false (text_of t) = Some (JArray [JString (text_of [92]); JString "a b"]) /\
  parse_text false (text_of (mini t)) = Some (JArray [JString (text_of [92]); JString "ab"]).
Proof. vm_compute. by split. Qed.
