(* ===== verification/JsonMerge.v ===== *)
(** * Merge patches (cJSON_Utils.c)

    Comparing two values, making the RFC 7396 patch that leads from one to
    the other, and applying a patch.  The values are those of the trees, with
    the members of an object in order, since comparing and making a patch
    sort them in place.  Sorting leaves the first member's [prev] behind
    (see [JsonSort]), so a tree that may have been sorted is no longer one
    that members can be added to; [document] keeps the two apart.  Allocation
    succeeds here.  The main theorem: the patch made from two values leads
    from the one to the other. *)

From stdpp Require Import prelude list strings sorting.
From Stdlib Require Import SpecFloat.
From S2P Require Import Prelude RateLimit CJson Decimal JsonParse JsonSafety JsonPrint JsonText JsonNames.

(** ** Names and members *)

Definition cmp_names (case_sensitive : bool) (a b : string) : Z := compare_strings case_sensitive (Some (bytes_of a)) (Some (bytes_of b)).

(** [sort_object], by name, whatever the members carry. *)
Definition sort_members {A : Type} (case_sensitive : bool) (ms : list (string * A)) : list (string * A) :=
  msort (fun m1 m2 => cmp_names case_sensitive m1.1 m2.1 <? 0) (S (length ms)) ms.

(** [cJSON_DetachItemFromObject] and its case sensitive variant: the value of
    the first member of that name, and the other members. *)
Fixpoint detach_member (case_sensitive : bool) (name : string) (ms : list (string * cJSON)) : option cJSON * list (string * cJSON) :=
  match ms with
  | [] => (None, [])
  | (k, v) :: ms =>
      if cmp_names case_sensitive name k =? 0 then (Some v, ms)
      else let '(r, ms) := detach_member case_sensitive name ms in (r, (k, v) :: ms)
  end.

(** Every object of the value has its members in order, so that sorting
    leaves it, and its links, alone. *)
Fixpoint settled (case_sensitive : bool) (j : cJSON) : bool :=
  match j with
  | JArray l => forallb (settled case_sensitive) l
  | JObject ms =>
      ordered (fun m1 m2 : string * cJSON => cmp_names case_sensitive m1.1 m2.1 <? 0) ms &&
      forallb (fun m => settled case_sensitive m.2) ms
  | _ => true
  end.

(** A tree whose members are linked as lists are; one of which an object may
    have been sorted in place, so that its members can be walked but the first
    does not know the last; and one that may have lost members, when something
    was added to such an object. *)
Inductive document := Linked (j : cJSON) | SortedInPlace (j : cJSON) | Lost.

(** ** Comparing

    The result, and the two values as the comparison leaves them: sorted as
    far as it got. *)

Section compare.
  Context (case_sensitive : bool).

(** Elements with the comparison to use on each. *)
Definition comparer : Type := cJSON -> bool * cJSON * cJSON.

Fixpoint compare_items (a : list (cJSON * comparer)) (b : list cJSON) : bool * list cJSON * list cJSON :=
  match a, b with
  | (v, f) :: a, w :: b =>
      let '(identical, v', w') := f w in
      if identical : bool
      then let '(r, a', b') := compare_items a b in (r, v' :: a', w' :: b')
      else (false, v' :: map fst a, w' :: b)
  | _, _ => (match a, b with [], [] => true | _, _ => false end, map fst a, b)
  end.

Fixpoint compare_members (a : list (string * (cJSON * comparer))) (b : list (string * cJSON))
    : bool * list (string * cJSON) * list (string * cJSON) :=
  let plain := map (fun m : string * (cJSON * comparer) => (m.1, m.2.1)) in
  match a, b with
  | (k, (v, f)) :: a', (k', w) :: b' =>
      if negb (cmp_names case_sensitive k k' =? 0) then (false, plain a, b)
      else
        let '(identical, v', w') := f w in
        if identical : bool
        then let '(r, a', b') := compare_members a' b' in (r, (k, v') :: a', (k', w') :: b')
        else (false, (k, v') :: plain a', (k', w') :: b')
  | _, _ => (match a, b with [], [] => true | _, _ => false end, plain a, b)
  end.

Fixpoint compare_json (a : cJSON) : comparer := fun b =>
  match a, b with
  | JNull, JNull => (true, a, b)
  | JBool x, JBool y => (Bool.eqb x y, a, b)
  | JNumber x, JNumber y => ((saturate x =? saturate y) && compare_double x y, a, b)
  | JString s, JString t => (String.eqb s t, a, b)
  | JArray l, JArray m =>
      let '(r, l, m) := compare_items (map (fun v => (v, compare_json v)) l) m in (r, JArray l, JArray m)
  | JObject l, JObject m =>
      let '(r, l, m) := compare_members
        (sort_members case_sensitive (map (fun kv => (kv.1, (kv.2, compare_json kv.2))) l)) (sort_members case_sensitive m) in
      (r, JObject l, JObject m)
  | _, _ => (false, a, b)
  end.

(** ** Applying a merge patch *)

(** On a target with its links; it is [NULL] when the member was not there.
    Detaching and adding keep the links. *)
Fixpoint merge_linked (target : option cJSON) (patch : cJSON) : cJSON :=
  match patch with
  | JObject ps =>
      let target := match target with Some (JObject ms) => ms | _ => [] end in
      JObject ((fix go (ps : list (string * cJSON)) (target : list (string * cJSON)) : list (string * cJSON) :=
        match ps with
        | [] => target
        | (k, p) :: ps =>
            match p with
            | JNull => go ps (detach_member case_sensitive k target).2
            | _ =>
                let '(replace_me, target) := detach_member case_sensitive k target in
                go ps (target ++ [(k, merge_linked replace_me p)])
            end
        end) ps target)
  | _ => patch
  end.

End compare.

(** A scalar patch replaces a target whatever its links are, and a target that
    is no object is replaced too; of a patch only the [next] links are
    followed. *)
Definition merge_patch (case_sensitive : bool) (target : option document) (patch : cJSON) : document :=
  match target with
  | None => Linked (merge_linked case_sensitive None patch)
  | Some (Linked target) => Linked (merge_linked case_sensitive (Some target) patch)
  | Some (SortedInPlace target) =>
      match patch, target with
      | JObject _, JObject _ => Lost
      | _, _ => Linked (merge_linked case_sensitive None patch)
      end
  | Some Lost => match patch with JObject _ => Lost | _ => Linked (merge_linked case_sensitive None patch) end
  end.

Definition cJSONUtils_MergePatch : option document -> cJSON -> document := merge_patch false.
Definition cJSONUtils_MergePatchCaseSensitive : option document -> cJSON -> document := merge_patch true.

(** ** Making a merge patch

    The patch ([None]: nothing to patch), and the two values as they are
    left.  Nested values are patched without regard to case. *)

Section walk.
  Context (case_sensitive : bool) (generate : cJSON -> cJSON -> option cJSON * cJSON * cJSON).

(** [while (from_child || to_child)]; [n] bounds the members that are left. *)
Fixpoint patch_members (n : nat) (from to : list (string * cJSON))
    : list (string * cJSON) * list (string * cJSON) * list (string * cJSON) :=
  match n with
  | O => ([], from, to)
  | S n =>
      let remove k v from' := let '(p, f, t) := patch_members n from' to in ((k, JNull) :: p, (k, v) :: f, t) in
      let add k v to' := let '(p, f, t) := patch_members n from to' in ((k, v) :: p, f, (k, v) :: t) in
      match from, to with
      | [], [] => ([], [], [])
      | (k, v) :: from', [] => remove k v from'
      | [], (k, v) :: to' => add k v to'
      | (k, v) :: from', (k', w) :: to' =>
          let diff := strcmp (bytes_of k) (bytes_of k') in
          if diff <? 0 then remove k v from'
          else if 0 <? diff then add k' w to'
          else
            let '(identical, v, w) := compare_json case_sensitive v w in
            let '(patch, v, w) := if identical : bool then (None, v, w) else generate v w in
            let '(p, f, t) := patch_members n from' to' in
            (match patch with Some patch => (k', patch) :: p | None => p end, (k, v) :: f, (k', w) :: t)
      end
  end.
End walk.

(** The values in the order of their members. *)
Fixpoint generate_sorting (fuel : nat) (case_sensitive : bool) (from to : cJSON) : option cJSON * cJSON * cJSON :=
  match fuel with
  | O => (Some to, from, to)
  | S fuel =>
      match from, to with
      | JObject fs, JObject ts =>
          let fs := sort_members case_sensitive fs in
          let ts := sort_members case_sensitive ts in
          let '(p, fs, ts) := patch_members case_sensitive (generate_sorting fuel false) (length fs + length ts) fs ts in
          (match p with [] => None | _ => Some (JObject p) end, JObject fs, JObject ts)
      | _, _ => (Some to, from, to)
      end
  end.

(** What is left of [before], which is now [after]. *)
Definition left_as (before after : cJSON) : document :=
  if settled true before && settled false before then Linked after else SortedInPlace after.

(** The patch, and the two trees as they are left; [to] can be [NULL], for a
    patch that deletes everything. *)
Definition generate_merge_patch (fuel : nat) (case_sensitive : bool) (from : cJSON) (to : option cJSON) :
    option cJSON * document * option document :=
  match to with
  | None => (Some JNull, Linked from, None)
  | Some to =>
      let '(patch, from', to') := generate_sorting fuel case_sensitive from to in
      (patch, left_as from from', Some (left_as to to'))
  end.

Definition cJSONUtils_GenerateMergePatchCaseSensitive (fuel : nat) (from : cJSON) (to : option cJSON) :=
  generate_merge_patch fuel true from to.
Definition cJSONUtils_GenerateMergePatch (fuel : nat) (from : cJSON) (to : option cJSON) :=
  generate_merge_patch fuel false from to.

(** ** Values up to the order of members *)

(** [R] says which numbers pass for the same. *)
#[warnings="-register-all"]
Inductive same (R : double -> double -> Prop) : cJSON -> cJSON -> Prop :=
| SameNull : same R JNull JNull
| SameBool b : same R (JBool b) (JBool b)
| SameNumber x y : x = y \/ R x y -> same R (JNumber x) (JNumber y)
| SameString s : same R (JString s) (JString s)
| SameArray l m : Forall2 (same R) l m -> same R (JArray l) (JArray m)
| SameObject l m :
    (forall k v, find_member k l = Some v -> exists w, find_member k m = Some w /\ same R v w) ->
    (forall k w, find_member k m = Some w -> exists v, find_member k l = Some v /\ same R v w) ->
    same R (JObject l) (JObject m).

(** The same value in another order. *)
Definition reorder : cJSON -> cJSON -> Prop := same (fun _ _ => False).

(** What [compare_json] takes for the same number. *)
Definition close (x y : double) : Prop := (saturate x =? saturate y) && compare_double x y = true.

Lemma find_member_in k ms v : find_member k ms = Some v -> (k, v) ∈ ms.
Proof.
  induction ms as [|[k' v'] ms IH]; cbn [find_member]; [done|]. destruct (String.eqb_spec k k') as [->|]; [intros [= ->]; left|].
  intros Hf. right. by apply IH.
Qed.

Lemma find_member_none k ms : find_member k ms = None <-> k ∉ map fst ms.
Proof.
  induction ms as [|[k' v'] ms IH]; cbn [find_member map fst]; [set_solver|]. rewrite not_elem_of_cons, <- IH.
  destruct (String.eqb_spec k k'); [split; [done|by intros [? _]]|tauto].
Qed.

Lemma in_find_member k ms v : NoDup (map fst ms) -> (k, v) ∈ ms -> find_member k ms = Some v.
Proof.
  induction ms as [|[k' v'] ms IH]; intros Hd Hi; [by apply not_elem_of_nil in Hi|]. cbn [map fst] in Hd. apply NoDup_cons in Hd as [Hk Hd].
  cbn [find_member]. apply elem_of_cons in Hi as [[= -> ->]|Hi]; [by rewrite String.eqb_refl|].
  destruct (String.eqb_spec k k') as [->|]; [|by apply IH]. destruct Hk. by apply list_elem_of_In, (in_map fst ms (k', v)), list_elem_of_In.
Qed.

Lemma find_member_perm k ms ms' : NoDup (map fst ms) -> ms ≡ₚ ms' -> find_member k ms' = find_member k ms.
Proof.
  intros Hd Hp. assert (NoDup (map fst ms')) as Hd' by (by rewrite <- Hp).
  destruct (find_member k ms) as [v|] eqn:E.
  - apply find_member_in in E. apply in_find_member; [done|]. by rewrite <- Hp.
  - apply find_member_none in E. apply find_member_none. by rewrite <- Hp.
Qed.

Lemma find_member_app k a b : find_member k (a ++ b) = match find_member k a with Some v => Some v | None => find_member k b end.
Proof. induction a as [|[k' v'] a IH]; cbn [app find_member]; [done|]. by destruct (String.eqb k k'). Qed.

Lemma like_refl R j : same R j j.
Proof.
  induction j as [|b0|x0|s0|l IH|ms IH] using cjson_tree_ind; try by constructor.
  - constructor. by left.
  - constructor. induction IH; by constructor.
  - assert (forall k v, find_member k ms = Some v -> same R v v) as Hs.
    { intros k v Hf. apply find_member_in, list_elem_of_In in Hf. rewrite List.Forall_forall in IH. by apply (IH _ Hf). }
    constructor; intros k v Hf; exists v; (split; [done|by eapply Hs]).
Qed.

Lemma like_trans (R S T : double -> double -> Prop) y :
  (forall a b c, a = b \/ R a b -> b = c \/ S b c -> a = c \/ T a c) ->
  forall x z, same R x y -> same S y z -> same T x z.
Proof.
  intros Hn. induction y as [|b0|x0|s0|l0 IH|ms IH] using cjson_tree_ind; intros x z H1 H2.
  - inversion H1; inversion H2; subst; constructor.
  - inversion H1; inversion H2; subst; constructor.
  - inversion H1; inversion H2; subst. constructor. by eapply Hn.
  - inversion H1; inversion H2; subst; constructor.
  - inversion H1 as [| | | |a ? Ha|]; inversion H2 as [| | | |? b Hb|]; subst. constructor. clear H1 H2. revert a b Ha Hb.
    induction IH as [|v l Hv Hl IHl]; intros a b Ha Hb; inversion Ha; inversion Hb; subst; constructor; [by eapply Hv|by eapply IHl].
  - inversion H1 as [| | | | |la ? Ha1 Ha2]; inversion H2 as [| | | | |? lb Hb1 Hb2]; subst. rewrite List.Forall_forall in IH. constructor.
    + intros k v Hv. destruct (Ha1 k v Hv) as (w & Hw & Hvw). destruct (Hb1 k w Hw) as (u & Hu & Hwu).
      exists u. split; [done|]. apply find_member_in, list_elem_of_In in Hw. by apply (IH _ Hw).
    + intros k u Hu. destruct (Hb2 k u Hu) as (w & Hw & Hwu). destruct (Ha2 k w Hw) as (v & Hv & Hvw).
      exists v. split; [done|]. apply find_member_in, list_elem_of_In in Hw. by apply (IH _ Hw).
Qed.

Lemma same_reorder R x y z : same R x y -> reorder y z -> same R x z.
Proof. apply like_trans. intros a b c Hab [->|[]]. done. Qed.
Lemma reorder_same R x y z : reorder x y -> same R y z -> same R x z.
Proof. apply like_trans. intros a b c [->|[]] Hbc. done. Qed.
Lemma reorder_refl j : reorder j j.
Proof. apply like_refl. Qed.

(** ** Values with plain names *)

(** Bytes of a C string without upper-case letters. *)
Definition plain_name (k : string) : Prop := c_chars (bytes_of k) /\ map tolower (bytes_of k) = bytes_of k.

(** No object has a name twice, and the names are plain. *)
Fixpoint plain (j : cJSON) : Prop :=
  match j with
  | JArray l => each plain l
  | JObject ms => NoDup (map fst ms) /\ each (fun m => plain_name m.1 /\ plain m.2) ms
  | _ => True
  end.

(** No member of an object is null, at any depth of objects. *)
Fixpoint no_nulls (j : cJSON) : Prop :=
  match j with JObject ms => each (fun m => m.2 <> JNull /\ no_nulls m.2) ms | _ => True end.

(** The levels of objects in objects. *)
Fixpoint object_depth (j : cJSON) : nat :=
  match j with
  | JObject ms => S (fold_right Nat.max 0%nat (map (fun m => object_depth m.2) ms))
  | _ => O
  end.

Lemma bytes_of_inj a b : bytes_of a = bytes_of b -> a = b.
Proof. intros E. rewrite <- (text_of_bytes a), <- (text_of_bytes b). by rewrite E. Qed.

Lemma cmp_plain cs a b : plain_name a -> plain_name b -> cmp_names cs a b = strcmp (bytes_of a) (bytes_of b).
Proof. intros [_ Ha] [_ Hb]. unfold cmp_names, compare_strings. destruct cs; [done|]. by rewrite case_insensitive_lower, Ha, Hb. Qed.

Lemma cmp_plain_eq cs a b : plain_name a -> plain_name b -> (cmp_names cs a b =? 0) = String.eqb a b.
Proof.
  intros Ha Hb. rewrite cmp_plain by done. destruct (String.eqb_spec a b) as [->|Hne]; [by rewrite strcmp_refl|].
  apply Z.eqb_neq. intros E. apply Hne, bytes_of_inj, strcmp_eq; [apply Ha|apply Hb|done].
Qed.

(** Members with plain and different names. *)
Definition plain_members {A : Type} (ms : list (string * A)) : Prop := NoDup (map fst ms) /\ Forall (fun m => plain_name m.1) ms.

Lemma plain_object ms : plain (JObject ms) -> plain_members ms /\ Forall (fun m => plain m.2) ms.
Proof.
  cbn [plain]. intros [Hd He]. apply each_forall in He. split; [split; [done|]|]; (eapply List.Forall_impl; [|exact He]); by intros m [].
Qed.
Lemma object_plain ms : plain_members ms -> Forall (fun m => plain m.2) ms -> plain (JObject ms).
Proof. intros [Hd Hn] Hp. cbn [plain]. split; [done|]. apply each_forall. induction Hn; inversion Hp; constructor; try done. apply IHHn; [|done]. by apply NoDup_cons in Hd as [_ Hd]. Qed.

Lemma plain_members_perm {A : Type} (ms ms' : list (string * A)) : ms ≡ₚ ms' -> plain_members ms -> plain_members ms'.
Proof. intros Hp [Hd Hn]. split; [by rewrite <- Hp|by rewrite <- Hp]. Qed.

(** The names strictly increase. *)
Definition increasing {A : Type} : list (string * A) -> Prop := StronglySorted (fun m1 m2 => strcmp (bytes_of m1.1) (bytes_of m2.1) < 0).

Lemma sort_members_perm {A : Type} cs (ms : list (string * A)) : sort_members cs ms ≡ₚ ms.
Proof. apply msort_perm. Qed.

Lemma sort_members_increasing {A : Type} cs (ms : list (string * A)) : plain_members ms -> increasing (sort_members cs ms).
Proof.
  intros Hp. pose proof (plain_members_perm _ _ (symmetry (sort_members_perm cs ms)) Hp) as [Hd Hn].
  assert (StronglySorted (fun m1 m2 : string * A => strcmp (bytes_of m1.1) (bytes_of m2.1) <= 0) (sort_members cs ms)) as Hs.
  { apply (msort_sorted _ (fun m : string * A => plain_name m.1)); [..|lia|apply Hp].
    - intros x y Hx Hy. rewrite cmp_plain, Z.ltb_lt by done. lia.
    - intros x y Hx Hy. rewrite cmp_plain, Z.ltb_ge by done. rewrite (strcmp_antisym (bytes_of x.1)). lia.
    - intros x y z [Hx _] [Hy _] [Hz _]. by apply strcmp_trans. }
  unfold increasing. induction Hs as [|m l Hl IH Hm]; [constructor|]. cbn [map] in Hd. apply NoDup_cons in Hd as [Hk Hd]. apply List.Forall_cons_iff in Hn as [Hn1 Hn].
  constructor; [by apply IH|]. rewrite List.Forall_forall in *. intros x Hx. specialize (Hm x Hx). cbn in Hm.
  assert (strcmp (bytes_of m.1) (bytes_of x.1) <> 0); [|lia]. intros E. apply Hk. apply strcmp_eq in E; [|apply Hn1|by apply Hn].
  apply bytes_of_inj in E. rewrite E. by apply list_elem_of_In, in_map.
Qed.

(** Members one by one. *)
Definition pairwise (R : double -> double -> Prop) : list (string * cJSON) -> list (string * cJSON) -> Prop :=
  Forall2 (fun m1 m2 => m1.1 = m2.1 /\ same R m1.2 m2.2).

Lemma pairwise_names R a b : pairwise R a b -> map fst a = map fst b.
Proof. induction 1 as [|m1 m2 a b [Hk _] _ IH]; [done|]. cbn [map]. by rewrite Hk, IH. Qed.

Lemma pairwise_refl R a : pairwise R a a.
Proof. induction a; constructor; [|done]. split; [done|apply like_refl]. Qed.

Lemma pairwise_find R a b : pairwise R a b ->
  (forall k v, find_member k a = Some v -> exists w, find_member k b = Some w /\ same R v w) /\
  (forall k w, find_member k b = Some w -> exists v, find_member k a = Some v /\ same R v w).
Proof.
  induction 1 as [|[k1 v1] [k2 v2] a b [Hk Hs] _ [IH1 IH2]]; [done|]. cbn [fst snd] in *. subst k2. split; intros k v; cbn [find_member]; destruct (String.eqb k k1).
  - intros [= <-]. by exists v2.
  - apply IH1.
  - intros [= <-]. by exists v1.
  - apply IH2.
Qed.

(** Objects whose members, in some order, are the same one by one. *)
Lemma same_object R l m l' m' : plain_members l -> plain_members m -> l' ≡ₚ l -> m' ≡ₚ m -> pairwise R l' m' -> same R (JObject l) (JObject m).
Proof.
  intros [Hl _] [Hm _] Pl Pm Hp. apply pairwise_find in Hp as [H1 H2]. constructor; intros k v.
  - rewrite <- (find_member_perm k l l') by done. rewrite <- (find_member_perm k m m') by done. apply H1.
  - rewrite <- (find_member_perm k l l') by done. rewrite <- (find_member_perm k m m') by done. apply H2.
Qed.

Lemma pairwise_plain R a b : pairwise R a b -> plain_members a -> Forall (fun m => plain m.2) b -> plain_members b.
Proof.
  intros Hp [Hd Hn] _. split; [by rewrite <- (pairwise_names R a b)|]. clear Hd. induction Hp as [|m1 m2 a b [Hk _] _ IH]; [constructor|].
  apply List.Forall_cons_iff in Hn as [H1 H2]. constructor; [by rewrite <- Hk|by apply IH].
Qed.

(** What comparing [v] with anything does. *)
Definition compare_ok (cs : bool) (v : cJSON) : Prop := forall w r v' w', plain v -> plain w -> compare_json cs v w = (r, v', w') ->
  reorder v v' /\ reorder w w' /\ plain v' /\ plain w' /\ (r = true -> same close v w).

Ltac compare_parts :=
  split_and!; try done; try apply pairwise_refl; try (by constructor); try (constructor; [done|apply pairwise_refl]).

Lemma compare_items_ok cs l : Forall (compare_ok cs) l -> Forall plain l -> forall m r l' m', Forall plain m ->
  compare_items (map (fun v => (v, compare_json cs v)) l) m = (r, l', m') ->
  Forall2 reorder l l' /\ Forall2 reorder m m' /\ Forall plain l' /\ Forall plain m' /\ (r = true -> Forall2 (same close) l m).
Proof.
  assert (Hid : forall l, Forall2 reorder l l) by (intros l0; induction l0; constructor; [apply reorder_refl|done]).
  assert (Hfst : forall l, map fst (map (fun v => (v, compare_json cs v)) l) = l) by (intros l0; induction l0 as [|? ? IHl]; cbn; [done|by rewrite IHl]).
  induction 1 as [|v l Hv Hl IH]; intros Hp m r l' m' Hm; cbn [map compare_items].
  - destruct m; intros [= <- <- <-]; compare_parts.
  - apply List.Forall_cons_iff in Hp as [Hpv Hp]. destruct m as [|w m].
    { intros [= <- <- <-]. rewrite Hfst. compare_parts. }
    apply List.Forall_cons_iff in Hm as [Hpw Hm]. destruct (compare_json cs v w) as [[i v1] w1] eqn:E. destruct (Hv w i v1 w1 Hpv Hpw E) as (H1 & H2 & H3 & H4 & H5).
    destruct i.
    + destruct (compare_items _ m) as [[r1 l1] m1] eqn:E1. intros [= <- <- <-]. destruct (IH Hp m r1 l1 m1 Hm E1) as (G1 & G2 & G3 & G4 & G5).
      compare_parts. intros ->. constructor; [by apply H5|by apply G5].
    + intros [= <- <- <-]. rewrite Hfst. compare_parts.
Qed.

Definition entry (cs : bool) (m : string * cJSON) : string * (cJSON * comparer) := (m.1, (m.2, compare_json cs m.2)).
Definition value_of (m : string * (cJSON * comparer)) : string * cJSON := (m.1, m.2.1).

Lemma compare_members_ok cs a : Forall (fun m => compare_ok cs m.2) a -> Forall (fun m => plain_name m.1) a -> Forall (fun m => plain m.2) a ->
  forall b r a' b', Forall (fun m => plain_name m.1) b -> Forall (fun m => plain m.2) b ->
  compare_members cs (map (entry cs) a) b = (r, a', b') ->
  pairwise (fun _ _ => False) a a' /\ pairwise (fun _ _ => False) b b' /\ Forall (fun m => plain m.2) a' /\ Forall (fun m => plain m.2) b' /\
  (r = true -> pairwise close a b).
Proof.
  assert (Hval : forall a, map (fun m : string * (cJSON * comparer) => (m.1, m.2.1)) (map (entry cs) a) = a).
  { intros l0; induction l0 as [|[k v] ? IHl]; cbn [map entry fst snd]; [done|]. by rewrite IHl. }
  induction 1 as [|[k v] a Hv Ha IH]; intros Hn Hp b r a' b' Hnb Hpb; cbn [map compare_members entry fst snd].
  - destruct b as [|[k' w] b]; intros [= <- <- <-]; compare_parts.
  - apply List.Forall_cons_iff in Hn as [Hnk Hn]. apply List.Forall_cons_iff in Hp as [Hpv Hp]. cbn [fst snd] in *. destruct b as [|[k' w] b].
    { intros [= <- <- <-]. rewrite Hval. compare_parts. }
    apply List.Forall_cons_iff in Hnb as [Hnk' Hnb]. apply List.Forall_cons_iff in Hpb as [Hpw Hpb]. cbn [fst snd] in *.
    rewrite cmp_plain_eq by done. destruct (String.eqb_spec k k') as [->|Hne]; cbn [negb].
    2: { intros [= <- <- <-]. rewrite Hval. compare_parts. }
    destruct (compare_json cs v w) as [[i v1] w1] eqn:E. destruct (Hv w i v1 w1 Hpv Hpw E) as (H1 & H2 & H3 & H4 & H5). destruct i.
    + destruct (compare_members cs _ b) as [[r1 a1] b1] eqn:E1. intros [= <- <- <-]. destruct (IH Hn Hp b r1 a1 b1 Hnb Hpb E1) as (G1 & G2 & G3 & G4 & G5).
      compare_parts. intros ->. constructor; [split; [done|by apply H5]|by apply G5].
    + intros [= <- <- <-]. rewrite Hval. compare_parts.
Qed.

Lemma msort_map {A B : Type} (f : A -> B) (ltA : A -> A -> bool) (ltB : B -> B -> bool) :
  (forall x y, ltB (f x) (f y) = ltA x y) -> forall fuel l, msort ltB fuel (map f l) = map f (msort ltA fuel l).
Proof.
  intros Hlt.
  assert (Ho : forall l, ordered ltB (map f l) = ordered ltA l).
  { intros l. induction l as [|x l IH]; [done|]. destruct l as [|y l]; [done|]. cbn [map ordered] in *. by rewrite Hlt, IH. }
  assert (Hm : forall l1 l2, merge_lists ltB (map f l1) (map f l2) = map f (merge_lists ltA l1 l2)).
  { intros l1. induction l1 as [|x l1 IH1]; intros l2; [by destruct l2|]. induction l2 as [|y l2 IH2]; [done|]. cbn [map] in *.
    rewrite !merge_lists_cons, Hlt. destruct (ltA x y); cbn [map]; f_equal; [exact (IH1 (y :: l2))|exact IH2]. }
  intros fuel. induction fuel as [|fuel IH]; intros l; [done|]. destruct l as [|x [|y l]]; [done..|].
  change (map f (x :: y :: l)) with (f x :: f y :: map f l). cbn [msort]. change (f x :: f y :: map f l) with (map f (x :: y :: l)).
  rewrite Ho. destruct (ordered ltA (x :: y :: l)); [done|]. rewrite length_map, !firstn_map, !skipn_map, !IH. apply Hm.
Qed.

Lemma compare_json_ok cs v : compare_ok cs v.
Proof.
  induction v as [|b0|x0|s0|l IH|ms IH] using cjson_tree_ind; intros w r v' w' Hv Hw; cbn [compare_json].
  - destruct w; intros [= <- <- <-]; (split_and!; try done; try apply reorder_refl).
    intros _. constructor.
  - destruct w as [|b1| | | |]; intros [= <- <- <-]; (split_and!; try done; try apply reorder_refl). intros E%eqb_prop. subst. constructor.
  - destruct w as [| |x1| | |]; intros [= <- <- <-]; (split_and!; try done; try apply reorder_refl). intros E. constructor. by right.
  - destruct w as [| | |s1| |]; intros [= <- <- <-]; (split_and!; try done; try apply reorder_refl). intros E%String.eqb_eq. subst. constructor.
  - destruct w as [| | | |m|]; try (intros [= <- <- <-]; split_and!; try done; apply reorder_refl).
    destruct (compare_items _ m) as [[r1 l1] m1] eqn:E. intros [= <- <- <-]. cbn [plain] in *. rewrite each_forall in Hv, Hw.
    destruct (compare_items_ok cs l IH Hv m r1 l1 m1 Hw E) as (H1 & H2 & H3 & H4 & H5). rewrite !each_forall.
    split_and!; try done; try by constructor. intros ->. constructor. by apply H5.
  - destruct w as [| | | | |m]; try (intros [= <- <- <-]; split_and!; try done; apply reorder_refl).
    destruct (compare_members _ _ _) as [[r1 l1] m1] eqn:E. intros [= <- <- <-].
    apply plain_object in Hv as [Hpl Hvl]. apply plain_object in Hw as [Hpm Hvm].
    change (fun kv : string * cJSON => (kv.1, (kv.2, compare_json cs kv.2))) with (entry cs) in E. unfold sort_members at 1 in E.
    rewrite length_map, (msort_map _ (fun m1 m2 => cmp_names cs m1.1 m2.1 <? 0)) in E by done. fold (sort_members cs ms) in E.
    pose proof (sort_members_perm cs ms) as Pl. pose proof (sort_members_perm cs m) as Pm.
    pose proof (plain_members_perm _ _ (symmetry Pl) Hpl) as Hpl'. pose proof (plain_members_perm _ _ (symmetry Pm) Hpm) as Hpm'.
    destruct (compare_members_ok cs (sort_members cs ms) ltac:(by rewrite Pl) (proj2 Hpl') ltac:(by rewrite Pl) (sort_members cs m) r1 l1 m1 (proj2 Hpm') ltac:(by rewrite Pm) E)
      as (H1 & H2 & H3 & H4 & H5).
    pose proof (pairwise_plain _ _ _ H1 Hpl' H3) as Q1. pose proof (pairwise_plain _ _ _ H2 Hpm' H4) as Q2.
    split_and!.
    + by apply (same_object _ ms l1 (sort_members cs ms) l1).
    + by apply (same_object _ m m1 (sort_members cs m) m1).
    + by apply object_plain.
    + by apply object_plain.
    + intros Er. by apply (same_object _ ms m (sort_members cs ms) (sort_members cs m)), H5.
Qed.

(** ** Members after a merge *)

Lemma detach_plain cs k ms : plain_name k -> plain_members ms ->
  (detach_member cs k ms).1 = find_member k ms /\ plain_members (detach_member cs k ms).2 /\
  (forall v, (k, v) ∉ (detach_member cs k ms).2) /\
  (forall k', k' <> k -> find_member k' (detach_member cs k ms).2 = find_member k' ms) /\
  (forall m, m ∈ (detach_member cs k ms).2 -> m ∈ ms).
Proof.
  intros Hk. induction ms as [|[k1 v1] ms IH]; intros [Hd Hn]; cbn [detach_member find_member].
  { split_and!; try done; first [constructor | intros v; apply not_elem_of_nil]. }
  cbn [map fst] in Hd. apply NoDup_cons in Hd as [Hk1 Hd]. apply List.Forall_cons_iff in Hn as [Hn1 Hn]. cbn [fst] in Hn1.
  rewrite cmp_plain_eq by done. destruct (String.eqb_spec k k1) as [->|Hne].
  - split_and!; try done; cbn [fst snd].
    + intros v Hi. apply Hk1. by apply list_elem_of_In, (in_map fst ms (k1, v)), list_elem_of_In.
    + intros k' Hk'. by rewrite (proj2 (String.eqb_neq k' k1)).
    + intros m Hm. by right.
  - destruct (IH (conj Hd Hn)) as (H1 & [H2d H2n] & H3 & H4 & H5). destruct (detach_member cs k ms) as [r ms']. cbn [fst snd] in *. split_and!.
    + done.
    + split; [|by constructor]. cbn [map fst]. apply NoDup_cons. split; [|done]. intros Hi. apply Hk1. apply list_elem_of_In, in_map_iff in Hi as ([k2 v2] & E & Hi).
      cbn in E. subst k2. apply list_elem_of_In, H5 in Hi. by apply list_elem_of_In, (in_map fst ms (k1, v2)), list_elem_of_In.
    + intros v Hi. apply elem_of_cons in Hi as [[= -> _]|Hi]; [done|by apply (H3 v)].
    + intros k' Hk'. cbn [find_member]. destruct (String.eqb k' k1); [done|by apply H4].
    + intros m [->|Hm]%elem_of_cons; [left|right; by apply H5].
Qed.

(** The loop of [merge_linked]. *)
Definition merge_members (cs : bool) : list (string * cJSON) -> list (string * cJSON) -> list (string * cJSON) :=
  fix go (ps target : list (string * cJSON)) : list (string * cJSON) :=
    match ps with
    | [] => target
    | (k, p) :: ps =>
        match p with
        | JNull => go ps (detach_member cs k target).2
        | _ => let '(replace_me, target) := detach_member cs k target in go ps (target ++ [(k, merge_linked cs replace_me p)])
        end
    end.

Lemma merge_linked_object cs target ps :
  merge_linked cs target (JObject ps) = JObject (merge_members cs ps (match target with Some (JObject ms) => ms | _ => [] end)).
Proof. done. Qed.

(** What a patch makes of the member [k]. *)
Definition patched (cs : bool) (old p : option cJSON) : option cJSON :=
  match p with None => old | Some JNull => None | Some p => Some (merge_linked cs old p) end.

Lemma merge_members_ok cs ps : plain_members ps -> forall target, plain_members target ->
  plain_members (merge_members cs ps target) /\
  forall k, find_member k (merge_members cs ps target) = patched cs (find_member k target) (find_member k ps).
Proof.
  induction ps as [|[k p] ps IH]; intros [Hd Hn] target Ht; [by split|]. cbn [map fst] in Hd. apply NoDup_cons in Hd as [Hk Hd].
  apply List.Forall_cons_iff in Hn as [Hnk Hn]. cbn [fst] in Hnk. apply find_member_none in Hk.
  destruct (detach_plain cs k target Hnk Ht) as (H1 & H2 & H3 & H4 & _). destruct (detach_member cs k target) as [old rest] eqn:Edet. cbn [fst snd] in *.
  assert (Hrest : find_member k rest = None).
  { destruct (find_member k rest) as [v|] eqn:E; [|done]. apply find_member_in in E. by destruct (H3 v). }
  assert (Hstep : merge_members cs ((k, p) :: ps) target =
    merge_members cs ps (match p with JNull => rest | _ => rest ++ [(k, merge_linked cs old p)] end)).
  { cbn [merge_members]. fold (merge_members cs). rewrite Edet. by destruct p. }
  rewrite Hstep. set (mid := match p with JNull => rest | _ => _ end).
  assert (Hmid : plain_members mid /\ forall k', find_member k' mid = if String.eqb k' k then patched cs old (Some p) else find_member k' target).
  { assert (p = JNull \/ mid = rest ++ [(k, merge_linked cs old p)] /\ patched cs old (Some p) = Some (merge_linked cs old p)) as [->|[-> ->]] by (unfold mid; destruct p; tauto).
    - split; [done|]. intros k'. cbn [mid patched]. destruct (String.eqb_spec k' k) as [->|Hne]; [done|by apply H4].
    - split.
      + destruct H2 as [H2d H2n]. split; [|apply Forall_app; split; [done|by apply Forall_singleton]]. rewrite map_app. cbn [map fst].
        apply NoDup_app. split; [done|]. split; [|apply NoDup_singleton]. intros x Hx ->%list_elem_of_singleton. by apply find_member_none in Hrest.
      + intros k'. rewrite find_member_app. cbn [find_member]. destruct (String.eqb_spec k' k) as [->|Hne]; [by rewrite Hrest|].
        rewrite H4 by done. by destruct (find_member k' target). }
  destruct Hmid as [Hmp Hmf]. destruct (IH (conj Hd Hn) mid Hmp) as [G1 G2]. split; [done|]. intros k'. rewrite G2, Hmf. cbn [find_member].
  destruct (String.eqb_spec k' k) as [->|Hne]; [by rewrite Hk, H1|done].
Qed.

(** ** The patch that is made *)

Lemma strcmp_lt_trans a b c : c_chars a -> c_chars b -> c_chars c -> strcmp a b < 0 -> strcmp b c < 0 -> strcmp a c < 0.
Proof.
  intros Ha Hb Hc H1 H2. pose proof (strcmp_trans a b c Ha Hb Hc ltac:(lia) ltac:(lia)). destruct (decide (strcmp a c = 0)) as [E|]; [|lia].
  apply strcmp_eq in E; [|done|done]. subst c. rewrite strcmp_antisym in H2. lia.
Qed.

(** The names of [ms] come after [k]. *)
Definition above {A : Type} (k : string) (ms : list (string * A)) : Prop := Forall (fun m => strcmp (bytes_of k) (bytes_of m.1) < 0) ms.

Lemma above_find k (ms : list (string * cJSON)) : above k ms -> find_member k ms = None.
Proof.
  intros Ha. apply find_member_none. intros Hi. apply list_elem_of_In, in_map_iff in Hi as (m & E & Hi). unfold above in Ha. rewrite List.Forall_forall in Ha.
  specialize (Ha m Hi). rewrite E, strcmp_refl in Ha. lia.
Qed.

Lemma above_trans {A : Type} k k' (ms : list (string * A)) : plain_name k -> plain_name k' -> Forall (fun m => plain_name m.1) ms ->
  strcmp (bytes_of k) (bytes_of k') < 0 -> above k' ms -> above k ms.
Proof.
  intros [Hk _] [Hk' _] Hn Hlt. unfold above. rewrite !List.Forall_forall in *. intros Ha m Hm. eapply (strcmp_lt_trans _ (bytes_of k')); try done; [apply Hn|]; auto.
Qed.

Lemma increasing_plain (ms : list (string * cJSON)) : increasing ms -> Forall (fun m => plain_name m.1) ms -> plain_members ms.
Proof.
  intros Hi Hn. split; [|done]. induction Hi as [|m ms Hi IH Hm]; [constructor|]. apply List.Forall_cons_iff in Hn as [_ Hn]. cbn [map]. apply NoDup_cons.
  split; [|by apply IH]. apply find_member_none, above_find, Hm.
Qed.

Section walk_ok.
  Context (cs : bool) (generate : cJSON -> cJSON -> option cJSON * cJSON * cJSON).

(** The patch of a member that is [v] before and [w] after. *)
Definition member_patch (v w : option cJSON) : option cJSON :=
  match v, w with
  | Some _, None => Some JNull
  | None, w => w
  | Some v, Some w => let '(identical, v, w) := compare_json cs v w in if identical : bool then None else (generate v w).1.1
  end.

(** What the walk over [from] and [to] gives. *)
Definition walked (from to p : list (string * cJSON)) : Prop :=
  increasing p /\ Forall (fun m => plain_name m.1) p /\ (forall k, plain_name k -> above k from -> above k to -> above k p) /\
  (forall k, find_member k p = member_patch (find_member k from) (find_member k to)).

(** One step: the name [k] comes before the rest of both lists. *)
Lemma walked_step k (q : option cJSON) from to from' to' p : plain_name k -> above k from' -> above k to' ->
  (forall k', plain_name k' -> above k' from -> above k' to -> strcmp (bytes_of k') (bytes_of k) < 0) ->
  member_patch (find_member k from) (find_member k to) = q ->
  (forall k', k' <> k -> find_member k' from = find_member k' from' /\ find_member k' to = find_member k' to') ->
  walked from' to' p -> walked from to (match q with Some q => (k, q) :: p | None => p end).
Proof.
  intros Hk Haf Hat Hbelow Hq Hother (H1 & H2 & H3 & H4). assert (above k p) as Ha by (by apply H3).
  assert (forall k', plain_name k' -> above k' from -> above k' to -> above k' p) as Hlow.
  { intros k' Hk' A1 A2. exact (above_trans k' k p Hk' Hk H2 (Hbelow k' Hk' A1 A2) Ha). }
  assert (forall k', find_member k' p = if String.eqb k' k then None else member_patch (find_member k' from) (find_member k' to)) as Hp.
  { intros k'. destruct (String.eqb_spec k' k) as [->|Hne]; [by apply above_find|]. destruct (Hother k' Hne) as [-> ->]. apply H4. }
  destruct q as [q|].
  - split; [by constructor|]. split; [by constructor|]. split.
    + intros k' Hk' A1 A2. constructor; [by apply Hbelow|by apply Hlow].
    + intros k'. cbn [find_member]. rewrite Hp. destruct (String.eqb_spec k' k) as [->|]; [done|done].
  - split; [done|]. split; [done|]. split; [done|]. intros k'. rewrite Hp. destruct (String.eqb_spec k' k) as [->|]; [by rewrite Hq|done].
Qed.

Lemma find_other k (v : cJSON) ms k' : k' <> k -> find_member k' ((k, v) :: ms) = find_member k' ms.
Proof. intros Hne. cbn [find_member]. by rewrite (proj2 (String.eqb_neq k' k)). Qed.
Lemma find_same k (v : cJSON) ms : find_member k ((k, v) :: ms) = Some v.
Proof. cbn [find_member]. by rewrite String.eqb_refl. Qed.

(** [k] comes before the first name of a list, so before all. *)
Lemma above_cons k k' (v : cJSON) ms : plain_name k -> plain_name k' -> Forall (fun m => plain_name m.1) ms -> strcmp (bytes_of k) (bytes_of k') < 0 ->
  above k' ms -> above k ((k', v) :: ms).
Proof. intros Hk Hk' Hn Hlt Ha. constructor; [done|]. by apply (above_trans k k'). Qed.

Lemma patch_members_ok n : forall from to, (length from + length to <= n)%nat -> increasing from -> increasing to ->
  Forall (fun m => plain_name m.1) from -> Forall (fun m => plain_name m.1) to -> walked from to (patch_members cs generate n from to).1.1.
Proof.
  induction n as [|n IH]; intros from to Hlen Hf Ht Hnf Hnt.
  { destruct from, to; cbn in Hlen; try lia. split; [constructor|]. split; [constructor|]. by split. }
  (* The first name of [from] is removed, or that of [to] is added. *)
  assert (Hrem : forall k v from', from = (k, v) :: from' -> above k to ->
    walked from to (let '(p, f, t) := patch_members cs generate n from' to in ((k, JNull) :: p, (k, v) :: f, t)).1.1).
  { intros k v from' -> Ha. apply StronglySorted_inv in Hf as [Hf Haf]. apply List.Forall_cons_iff in Hnf as [Hk Hnf].
    specialize (IH from' to ltac:(cbn in Hlen; lia) Hf Ht Hnf Hnt). destruct (patch_members cs generate n from' to) as [[p f] t]. cbn [fst] in *.
    apply (walked_step k (Some JNull) _ _ from' to); try done.
    - intros k' _ A1 _. by inversion A1.
    - by rewrite find_same, (above_find k to Ha).
    - intros k' Hne. by rewrite find_other. }
  assert (Hadd : forall k w to', to = (k, w) :: to' -> above k from ->
    walked from to (let '(p, f, t) := patch_members cs generate n from to' in ((k, w) :: p, f, (k, w) :: t)).1.1).
  { intros k w to' -> Ha. apply StronglySorted_inv in Ht as [Ht Hat]. apply List.Forall_cons_iff in Hnt as [Hk Hnt].
    specialize (IH from to' ltac:(cbn in Hlen; lia) Hf Ht Hnf Hnt). destruct (patch_members cs generate n from to') as [[p f] t]. cbn [fst] in *.
    apply (walked_step k (Some w) _ _ from to'); try done.
    - intros k' _ _ A2. by inversion A2.
    - by rewrite find_same, (above_find k from Ha).
    - intros k' Hne. by rewrite (find_other k w). }
  cbn [patch_members]. destruct from as [|[k v] from']; destruct to as [|[k' w] to'].
  - split; [constructor|]. split; [constructor|]. by split.
  - apply Hadd; [done|constructor].
  - apply Hrem; [done|constructor].
  - pose proof Hnf as Hnf0. pose proof Hnt as Hnt0. apply List.Forall_cons_iff in Hnf0 as [Hk Hnf']. apply List.Forall_cons_iff in Hnt0 as [Hk' Hnt']. cbn [fst] in *.
    pose proof (StronglySorted_inv Hf) as [Hf' Haf]. pose proof (StronglySorted_inv Ht) as [Ht' Hat].
    destruct (Z.ltb_spec (strcmp (bytes_of k) (bytes_of k')) 0) as [Hlt|Hge]; [by apply Hrem; [|apply above_cons]|].
    destruct (Z.ltb_spec 0 (strcmp (bytes_of k) (bytes_of k'))) as [Hgt|Hle].
    { apply Hadd; [done|]. apply above_cons; try done. rewrite strcmp_antisym. lia. }
    assert (k' = k) as -> by (symmetry; apply bytes_of_inj, strcmp_eq; [apply Hk|apply Hk'|lia]).
    specialize (IH from' to' ltac:(cbn in Hlen; lia) Hf' Ht' Hnf' Hnt'). destruct (patch_members cs generate n from' to') as [[p f] t]. cbn [fst] in *.
    assert (Hmp : walked ((k, v) :: from') ((k, w) :: to') (match member_patch (Some v) (Some w) with Some q => (k, q) :: p | None => p end)).
    { apply (walked_step k _ _ _ from' to'); try done.
      - intros k' _ A1 _. by inversion A1.
      - by rewrite !find_same.
      - intros k' Hne. by rewrite !find_other. }
    cbn [member_patch] in Hmp. destruct (compare_json cs v w) as [[i v1] w1]. destruct i; [done|]. by destruct (generate v1 w1) as [[q v2] w2].
Qed.
End walk_ok.

(** ** The patch leads from the one value to the other *)

Lemma reorder_sym x : forall y, reorder x y -> reorder y x.
Proof.
  induction x as [|b0|x0|s0|l IH|ms IH] using cjson_tree_ind; intros y Hxy; inversion Hxy as [| |? ? Hn| |? m Hlm|? m H1 H2]; subst.
  - constructor.
  - constructor.
  - constructor. destruct Hn as [->|[]]. by left.
  - constructor.
  - constructor. clear Hxy. revert m Hlm. induction IH as [|v l Hv Hl IHl]; intros m Hlm; inversion Hlm; subst; constructor; [by apply Hv|by apply IHl].
  - rewrite List.Forall_forall in IH. constructor.
    + intros k w Hw. destruct (H2 k w Hw) as (v & Hv & Hvw). exists v. split; [done|]. apply find_member_in, list_elem_of_In in Hv. by apply (IH _ Hv).
    + intros k v Hv. destruct (H1 k v Hv) as (w & Hw & Hvw). exists w. split; [done|]. apply find_member_in, list_elem_of_In in Hv. by apply (IH _ Hv).
Qed.

Lemma reorder_trans x y z : reorder x y -> reorder y z -> reorder x z.
Proof. apply same_reorder. Qed.

Lemma reorder_close x y : reorder x y -> same close x y.
Proof. intros H. apply (reorder_same close x y y); [done|apply like_refl]. Qed.

Lemma fold_max_le (l : list nat) n : n ∈ l -> (n <= fold_right Nat.max 0 l)%nat.
Proof. induction l as [|m l IH]; intros Hn; [by apply not_elem_of_nil in Hn|]. cbn. apply elem_of_cons in Hn as [->|Hn]; [lia|]. specialize (IH Hn). lia. Qed.
Lemma fold_max_bound (l : list nat) n : (forall m, m ∈ l -> (m <= n)%nat) -> (fold_right Nat.max 0 l <= n)%nat.
Proof. induction l as [|m l IH]; intros Hl; cbn; [lia|]. specialize (Hl m ltac:(left)) as H1. assert (fold_right Nat.max 0 l <= n)%nat by (apply IH; intros k Hk; apply Hl; by right). lia. Qed.

Lemma member_depth k v ms : find_member k ms = Some v -> (S (object_depth v) <= object_depth (JObject ms))%nat.
Proof.
  intros Hf%find_member_in%list_elem_of_In. cbn [object_depth]. apply le_n_S, fold_max_le, list_elem_of_In.
  exact (in_map (fun m => object_depth m.2) ms (k, v) Hf).
Qed.

Lemma reorder_depth y : plain y -> forall x, reorder x y -> (object_depth y <= object_depth x)%nat.
Proof.
  induction y as [|b0|x0|s0|l IH|ms IH] using cjson_tree_ind; intros Hp x Hxy; try (cbn [object_depth]; lia).
  inversion Hxy as [| | | | |l ? H1 H2]; subst. apply plain_object in Hp as [[Hd _] Hp]. rewrite List.Forall_forall in IH, Hp. cbn [object_depth]. apply le_n_S, fold_max_bound.
  intros n Hn. apply list_elem_of_In, in_map_iff in Hn as ([k v] & <- & Hi). cbn [snd].
  destruct (H2 k v) as (u & Hu & Huv); [apply in_find_member; [done|by apply list_elem_of_In]|].
  pose proof (IH _ Hi (Hp _ Hi) u Huv) as Hle. apply member_depth in Hu. cbn [object_depth] in Hu. cbn [snd] in Hle. lia.
Qed.

Lemma member_no_nulls k v ms : no_nulls (JObject ms) -> find_member k ms = Some v -> v <> JNull /\ no_nulls v.
Proof. cbn [no_nulls]. rewrite each_forall, List.Forall_forall. intros Hn Hf%find_member_in%list_elem_of_In. exact (Hn _ Hf). Qed.

Lemma member_plain k v ms : plain (JObject ms) -> find_member k ms = Some v -> plain v /\ plain_name k.
Proof. cbn [plain]. rewrite each_forall, List.Forall_forall. intros [_ Hn] Hf%find_member_in%list_elem_of_In. destruct (Hn _ Hf). done. Qed.

Lemma reorder_no_nulls y : plain y -> forall x, reorder x y -> no_nulls x -> no_nulls y.
Proof.
  induction y as [|b0|x0|s0|l IH|ms IH] using cjson_tree_ind; intros Hp x Hxy Hx; try done.
  inversion Hxy as [| | | | |l ? H1 H2]; subst. apply plain_object in Hp as [[Hd _] Hp]. rewrite List.Forall_forall in IH, Hp. cbn [no_nulls].
  rewrite each_forall, List.Forall_forall. intros [k v] Hi. cbn [snd].
  destruct (H2 k v) as (u & Hu & Huv); [apply in_find_member; [done|by apply list_elem_of_In]|]. destruct (member_no_nulls k u l Hx Hu) as [Hnn Hn].
  split; [intros ->; by inversion Huv; subst|]. by apply (IH _ Hi (Hp _ Hi) u).
Qed.

(** A patch applied to nothing, or to what is not an object. *)
Lemma merge_fresh cs t : plain t -> no_nulls t -> forall target, match target with Some (JObject _) => False | _ => True end ->
  reorder (merge_linked cs target t) t.
Proof.
  induction t as [|b0|x0|s0|l IH|ps IH] using cjson_tree_ind; intros Hp Hn target Ht; try apply reorder_refl. rewrite merge_linked_object.
  assert (match target with Some (JObject ms) => ms | _ => [] end = []) as -> by (by destruct target as [[]|]).
  pose proof (plain_object ps Hp) as [Hpp _]. destruct (merge_members_ok cs ps Hpp []) as [_ Hf]; [by split; constructor|]. rewrite List.Forall_forall in IH.
  assert (Hk : forall k p, find_member k ps = Some p -> patched cs (find_member k []) (Some p) = Some (merge_linked cs None p) /\ reorder (merge_linked cs None p) p).
  { intros k p Hkp. destruct (member_no_nulls k p ps Hn Hkp) as [Hnn Hnp]. destruct (member_plain k p ps Hp Hkp) as [Hpl _].
    apply find_member_in, list_elem_of_In in Hkp. split; [by destruct p|]. by apply (IH _ Hkp). }
  constructor; intros k v.
  - rewrite Hf. destruct (find_member k ps) as [p|] eqn:E; [|done]. destruct (Hk k p E) as [-> Hr]. intros [= <-]. by exists p.
  - intros E. destruct (Hk k v E) as [Hpt Hr]. exists (merge_linked cs None v). by rewrite Hf, E.
Qed.

Lemma generate_not_null fuel cs f t : (generate_sorting fuel cs f t).1.1 = Some JNull -> t = JNull.
Proof.
  destruct fuel as [|fuel]; cbn [generate_sorting]; [by intros [= ->]|]. destruct f, t; try done; try (by intros [= ->]).
  match goal with |- context [patch_members ?a ?b ?c ?d ?e] => destruct (patch_members a b c d e) as [[p f'] t'] end. by destruct p.
Qed.

(** [target] is [f] in some order; [cs'] is how the patch is applied. *)
Definition leads (cs' : bool) (target : cJSON) (patch : option cJSON) (t : cJSON) : Prop :=
  same close (match patch with None => target | Some p => merge_linked cs' (Some target) p end) t.

Lemma generate_scalar cs' target f t : plain t -> no_nulls t -> reorder target f ->
  match f, t with JObject _, JObject _ => False | _, _ => True end -> leads cs' target (Some t) t.
Proof.
  intros Hp Hn Hr Hft. unfold leads. destruct (match t with JObject _ => true | _ => false end) eqn:Et.
  - apply reorder_close, merge_fresh; try done. destruct target; try done. inversion Hr; subst. by destruct t.
  - destruct t; try done; apply like_refl.
Qed.

(** One member: [u] in the target, [v] in [from], [w] in [to]. *)
Lemma member_leads fuel cs cs' u v w :
  (forall f t target, (object_depth f <= fuel)%nat -> plain f -> plain t -> no_nulls t -> plain target -> reorder target f ->
     leads cs' target (generate_sorting fuel false f t).1.1 t) ->
  (object_depth v <= fuel)%nat -> plain u -> plain v -> plain w -> no_nulls w -> w <> JNull -> reorder u v ->
  exists r, patched cs' (Some u) (member_patch cs (generate_sorting fuel false) (Some v) (Some w)) = Some r /\ same close r w.
Proof.
  intros IH Hd Hpu Hpv Hpw Hwn Hw0 Huv. cbn [member_patch].
  destruct (compare_json cs v w) as [[i v1] w1] eqn:Ec. destruct (compare_json_ok cs v w i v1 w1 Hpv Hpw Ec) as (C1 & C2 & C3 & C4 & C5).
  destruct i; [exists u; split; [done|]; apply (reorder_same close u v); [done|by apply C5]|].
  assert (Hl : leads cs' u (generate_sorting fuel false v1 w1).1.1 w1).
  { apply IH; try done; [|by apply (reorder_no_nulls w1 C4 w)|by apply (reorder_trans u v v1)]. pose proof (reorder_depth v1 C3 v C1). lia. }
  assert (w1 <> JNull) as Hw1 by (intros ->; by inversion C2; subst). pose proof (generate_not_null fuel false v1 w1) as Hgn. apply reorder_sym in C2. unfold leads in Hl.
  destruct (generate_sorting fuel false v1 w1).1.1 as [q|]; cbn [patched]; [|exists u; split; [done|by apply (same_reorder close u w1)]].
  assert (q <> JNull) by (intros ->; by apply Hw1, Hgn). exists (merge_linked cs' (Some u) q). split; [by destruct q|by apply (same_reorder close _ w1)].
Qed.

Lemma generate_ok fuel : forall cs cs' f t target, (object_depth f <= fuel)%nat -> plain f -> plain t -> no_nulls t -> plain target -> reorder target f ->
  leads cs' target (generate_sorting fuel cs f t).1.1 t.
Proof.
  induction fuel as [|fuel IH]; intros cs cs' f t target Hd Hpf Hpt Hn Hptg Hr; cbn [generate_sorting].
  { apply (generate_scalar cs' target f); try done. destruct f; try done. cbn [object_depth] in Hd. lia. }
  destruct f as [| | | | |fs]; try by eapply generate_scalar. destruct t as [| | | | |ts]; try by eapply generate_scalar.
  inversion Hr as [| | | | |tg ? R1 R2]; subst. pose proof (plain_object _ Hpf) as [Pf _]. pose proof (plain_object _ Hpt) as [Pt _]. pose proof (plain_object _ Hptg) as [Pg _].
  pose proof (sort_members_perm cs fs) as Sf. pose proof (sort_members_perm cs ts) as St.
  assert (Hw := patch_members_ok cs (generate_sorting fuel false) (length (sort_members cs fs) + length (sort_members cs ts)) (sort_members cs fs) (sort_members cs ts) (Nat.le_refl _)
    (sort_members_increasing cs fs Pf) (sort_members_increasing cs ts Pt) (proj2 (plain_members_perm _ _ (symmetry Sf) Pf)) (proj2 (plain_members_perm _ _ (symmetry St) Pt))).
  match goal with |- context [patch_members ?a ?b ?c ?d ?e] => destruct (patch_members a b c d e) as [[p f'] t'] end. cbn [fst] in Hw. destruct Hw as (W1 & W2 & _ & W4).
  (* Every member comes out right. *)
  assert (Hk : forall k, match patched cs' (find_member k tg) (find_member k p), find_member k ts with
    | Some r, Some w => same close r w | None, None => True | _, _ => False end).
  { intros k. rewrite W4, (find_member_perm k fs _ (proj1 Pf) (symmetry Sf)), (find_member_perm k ts _ (proj1 Pt) (symmetry St)).
    assert (find_member k fs = None -> find_member k tg = None) as Hnone.
    { intros E. destruct (find_member k tg) as [u|] eqn:Eu; [|done]. destruct (R1 k u Eu) as (v & Hv & _). congruence. }
    destruct (find_member k ts) as [w|] eqn:Ew; destruct (find_member k fs) as [v|] eqn:Ev.
    - destruct (R2 k v Ev) as (u & Hu & Huv). rewrite Hu. destruct (member_no_nulls k w ts Hn Ew) as [Hw0 Hwn].
      destruct (member_plain k w ts Hpt Ew) as [Hpw _], (member_plain k v fs Hpf Ev) as [Hpv _], (member_plain k u tg Hptg Hu) as [Hpu _].
      destruct (member_leads fuel cs cs' u v w) as (r & -> & Hrw); try done; [intros; by apply IH|apply member_depth in Ev; lia].
    - rewrite Hnone by done. destruct (member_no_nulls k w ts Hn Ew) as [Hw0 Hwn]. destruct (member_plain k w ts Hpt Ew) as [Hpw _].
      pose proof (merge_fresh cs' w Hpw Hwn None I) as Hf. destruct w; try done; by apply reorder_close.
    - done.
    - by rewrite Hnone. }
  assert (exists rs, match (match p with [] => None | _ => Some (JObject p) end) with None => JObject tg | Some p => merge_linked cs' (Some (JObject tg)) p end = JObject rs /\
    forall k, find_member k rs = patched cs' (find_member k tg) (find_member k p)) as (rs & Ers & Hrs).
  { destruct (merge_members_ok cs' p (increasing_plain p W1 W2) tg Pg) as [_ Hm]. destruct p as [|m p]; [by exists tg|]. eexists. split; [apply merge_linked_object|exact Hm]. }
  unfold leads. cbn [fst]. rewrite Ers. constructor; intros k v Hv; specialize (Hk k); rewrite <- Hrs, Hv in Hk.
  - destruct (find_member k ts) as [w|]; [|done]. by exists w.
  - destruct (find_member k rs) as [r|]; [|done]. by exists r.
Qed.

(** ** Comparing and making a patch leave sorted values alone *)

Lemma sort_ordered {A : Type} cs (ms : list (string * A)) :
  ordered (fun m1 m2 : string * A => cmp_names cs m1.1 m2.1 <? 0) ms = true -> sort_members cs ms = ms.
Proof. intros Ho. unfold sort_members. destruct ms as [|x [|y ms]]; [done..|]. cbn [length msort]. by rewrite Ho. Qed.

Lemma ordered_map {A B : Type} (f : A -> B) (ltA : A -> A -> bool) (ltB : B -> B -> bool) l :
  (forall x y, ltB (f x) (f y) = ltA x y) -> ordered ltB (map f l) = ordered ltA l.
Proof. intros Hlt. induction l as [|x l IH]; [done|]. destruct l as [|y l]; [done|]. cbn [map ordered] in *. by rewrite Hlt, IH. Qed.

Lemma compare_settled cs v : forall w, settled cs v = true -> settled cs w = true -> exists r, compare_json cs v w = (r, v, w).
Proof.
  induction v as [|b0|x0|s0|l IH|ms IH] using cjson_tree_ind; intros w Hv Hw; cbn [compare_json]; try (destruct w; by eexists).
  - destruct w as [| | | |m|]; try by eexists. cbn [settled] in *.
    assert (exists r, compare_items (map (fun v => (v, compare_json cs v)) l) m = (r, l, m)) as [r ->]; [|by eexists].
    assert (Hfst : forall l, map fst (map (fun v => (v, compare_json cs v)) l) = l) by (intros l0; induction l0 as [|? ? IHl]; cbn; [done|by rewrite IHl]).
    revert m Hw. induction IH as [|v l Hl _ IHl]; intros m Hw; cbn [map compare_items].
    + destruct m; by eexists.
    + destruct m as [|w m]; [rewrite Hfst; by eexists|]. cbn [forallb] in *. breflect.
      destruct (Hl w) as [r ->]; [done..|]. destruct r; [|rewrite Hfst; by eexists]. destruct (IHl ltac:(done) m ltac:(done)) as [r ->]. by eexists.
  - destruct w as [| | | | |m]; try by eexists. cbn [settled] in *. breflect. rewrite (sort_ordered cs m) by done.
    rewrite sort_ordered by (by rewrite (ordered_map _ (fun m1 m2 => cmp_names cs m1.1 m2.1 <? 0))).
    change (fun kv : string * cJSON => (kv.1, (kv.2, compare_json cs kv.2))) with (entry cs).
    assert (exists r, compare_members cs (map (entry cs) ms) m = (r, ms, m)) as [r ->]; [|by eexists].
    assert (Hval : forall a, map (fun m : string * (cJSON * comparer) => (m.1, m.2.1)) (map (entry cs) a) = a).
    { intros l0; induction l0 as [|[k v] ? IHl]; cbn [map entry fst snd]; [done|]. by rewrite IHl. }
    match goal with H1 : forallb _ ms = true, H2 : forallb _ m = true |- _ => rename H1 into Fa; rename H2 into Fb end.
    clear - IH Fa Fb Hval. revert m Fb. induction IH as [|[k v] ms Hv _ IHl]; intros m Fb; cbn [map compare_members entry fst snd].
    + destruct m as [|[k' w] m]; by eexists.
    + destruct m as [|[k' w] m]; [rewrite Hval; by eexists|]. cbn [forallb fst snd] in *. breflect.
      destruct (cmp_names cs k k' =? 0); cbn [negb]; [|rewrite Hval; by eexists].
      destruct (Hv w) as [r ->]; [done..|]. destruct r; [|rewrite Hval; by eexists]. destruct (IHl ltac:(done) m ltac:(done)) as [r ->]. by eexists.
Qed.

Lemma patch_members_settled (ok : cJSON -> Prop) cs generate n :
  (forall v w, ok v -> ok w -> exists r, compare_json cs v w = (r, v, w)) ->
  (forall v w, ok v -> ok w -> exists p, generate v w = (p, v, w)) ->
  forall from to, Forall (fun m => ok m.2) from -> Forall (fun m => ok m.2) to ->
  exists p, patch_members cs generate n from to = (p, from, to).
Proof.
  intros Hc Hg. induction n as [|n IH]; intros from to Hf Ht; cbn [patch_members]; [by eexists|].
  destruct from as [|[k v] from], to as [|[k' w] to]; [by eexists| | |].
  - apply Forall_cons in Ht as [Hw Ht]. destruct (IH [] to Hf Ht) as [p ->]. by eexists.
  - apply Forall_cons in Hf as [Hv Hf]. destruct (IH from [] Hf Ht) as [p ->]. by eexists.
  - pose proof Hf as Hf0. pose proof Ht as Ht0. apply Forall_cons in Hf as [Hv Hf], Ht as [Hw Ht]. cbn [snd] in Hv, Hw.
    destruct (IH from ((k', w) :: to) Hf Ht0) as [p1 ->], (IH ((k, v) :: from) to Hf0 Ht) as [p2 ->], (IH from to Hf Ht) as [p3 ->].
    destruct (_ <? 0); [by eexists|]. destruct (0 <? _); [by eexists|].
    destruct (Hc v w Hv Hw) as [[|] ->]; [by eexists|]. destruct (Hg v w Hv Hw) as [q ->]. by eexists.
Qed.

Lemma settled_members cs ms :
  settled cs (JObject ms) = true -> sort_members cs ms = ms /\ Forall (fun m => settled cs m.2 = true) ms.
Proof.
  cbn [settled]. intros [Ho Hs]%andb_true_iff. split; [by apply sort_ordered|]. rewrite forallb_forall in Hs.
  apply List.Forall_forall. intros m Hm. by apply Hs.
Qed.

Lemma generate_settled fuel : forall cs f t,
  settled true f && settled false f = true -> settled true t && settled false t = true ->
  exists p, generate_sorting fuel cs f t = (p, f, t).
Proof.
  induction fuel as [|fuel IH]; intros cs f t Hf Ht; cbn [generate_sorting]; [by eexists|].
  destruct f as [| | | | |fs]; try by eexists. destruct t as [| | | | |ts]; try by eexists.
  apply andb_true_iff in Hf as [[F1 F2]%settled_members [F3 F4]%settled_members], Ht as [[T1 T2]%settled_members [T3 T4]%settled_members].
  assert (sort_members cs fs = fs /\ sort_members cs ts = ts) as [-> ->] by (by destruct cs).
  assert (Hok : forall ms, Forall (fun m : string * cJSON => settled true m.2 = true) ms -> Forall (fun m => settled false m.2 = true) ms ->
    Forall (fun m => settled true m.2 && settled false m.2 = true) ms).
  { intros ms H1 H2. rewrite List.Forall_forall in *. intros m Hm. by rewrite H1, H2. }
  destruct (patch_members_settled (fun v => settled true v && settled false v = true) cs (generate_sorting fuel false) (length fs + length ts))
    with (from := fs) (to := ts) as [p ->]; [|intros; by apply IH|by apply Hok|by apply Hok|by eexists].
  intros v w [Hv1 Hv2]%andb_true_iff [Hw1 Hw2]%andb_true_iff. apply compare_settled; by destruct cs.
Qed.

(** C40: the merge patch that is made from [from] and [to] leads from [from] to
    [to]: applied to a document with the value [from] had, its members in
    whatever order but with the links of a list, it gives a document with the
    value of [to], up to the order of members and to numbers that
    [compare_json] takes for equal; and when no patch is made the two are the
    same already.  [from] itself is such a document after the patch was made
    only if no object had to be sorted: then both trees are left as they were.
    Otherwise they are left sorted in place, and applying a patch to them can
    lose members.  This for values in which no object has a name twice, names
    have no upper-case letters, and no member of an object of [to] is null,
    which a merge patch cannot express; the levels of objects in [from] are
    fuel enough. *)
Theorem json_merge_patch (case_sensitive : bool) (from to target : cJSON) :
  plain from -> plain to -> no_nulls to -> plain target -> reorder target from ->
  let '(patch, from', to') := generate_merge_patch (object_depth from) case_sensitive from (Some to) in
  match patch with
  | None => same close target to
  | Some patch => exists merged,
      merge_patch case_sensitive (Some (Linked target)) patch = Linked merged /\ same close merged to
  end /\
  (settled true from && settled false from = true -> settled true to && settled false to = true ->
   from' = Linked from /\ to' = Some (Linked to)) /\
  (settled true from && settled false from = false -> exists j, from' = SortedInPlace j).
Proof.
  intros Hf Ht Hn Hg Hr. pose proof (generate_ok (object_depth from) case_sensitive case_sensitive from to target (Nat.le_refl _) Hf Ht Hn Hg Hr) as H.
  pose proof (generate_settled (object_depth from) case_sensitive from to) as Hs.
  unfold leads in H. unfold generate_merge_patch, left_as.
  destruct (generate_sorting (object_depth from) case_sensitive from to) as [[patch f] t]. cbn [fst] in H. split; [|split].
  - destruct patch as [patch|]; [|done]. eexists. split; [reflexivity|done].
  - intros H1 H2. destruct (Hs H1 H2) as [p [= _ -> ->]]. by rewrite H1, H2.
  - intros ->. by eexists.
Qed.

Definition demo_from : cJSON := JObject [("b", JObject [("d", JString "x"); ("c", JNumber (dbl_int 2))]); ("a", JNumber (dbl_int 1))].
Definition demo_to : cJSON := JObject [("e", JArray [JNull]); ("b", JObject [("c", JNumber (dbl_int 2)); ("d", JString "y")])].

Ltac plain_demo :=
  repeat match goal with
  | |- plain_name _ => split; [vm_compute; repeat constructor|vm_compute; reflexivity]
  | |- NoDup _ => by apply (bool_decide_unpack _)
  | |- _ /\ _ => split
  | |- True => exact I
  | |- _ => progress cbn [plain each fst snd map]
  end.

Lemma json_merge_patch_witness :
  exists merged, merge_patch true (Some (Linked demo_from)) (JObject [("a", JNull); ("b", JObject [("d", JString "y")]); ("e", JArray [JNull])]) = Linked merged /\
    same close merged demo_to.
Proof.
  pose proof (json_merge_patch true demo_from demo_to demo_from ltac:(unfold demo_from; plain_demo) ltac:(unfold demo_to; plain_demo) ltac:(done) ltac:(unfold demo_from; plain_demo) (reorder_refl _)) as H.
  vm_compute (generate_merge_patch (object_depth demo_from) true demo_from (Some demo_to)) in H. exact (proj1 H).
Defined.

(** Applied to the tree it was made from, which making it has sorted, a patch
    can lose members. *)
Example merge_patch_of_sorted :
  let from := JObject [("a", JNumber (dbl_int 1)); ("c", JNumber (dbl_int 3)); ("b", JNumber (dbl_int 2))] in
  let to := JObject [("a", JNumber (dbl_int 1)); ("b", JNumber (dbl_int 2)); ("c", JNumber (dbl_int 3)); ("d", JNumber (dbl_int 4))] in
  match generate_merge_patch 1 true from (Some to) with
  | (Some patch, from', _) => merge_patch true (Some from') patch = Lost
  | _ => False
  end.
Proof. by vm_compute. Qed.

(** The patch of nested objects is made without regard to case even when the
    caller asked for it, so a difference in the case of a name three levels
    down is no difference. *)
Lemma merge_patch_case_lost :
  let obj (name : string) := JObject [("x", JObject [("k", JObject [(name, JNull)])])] in
  (compare_json true (obj "A") (obj "a")).1.1 = false /\ (generate_sorting 3 true (obj "A") (obj "a")).1.1 = None.
Proof. vm_compute. by split. Qed.
