(* ===== verification/JsonPointer.v ===== *)
(** * JSON pointers (cJSON_Utils.c)

    RFC 6901 pointers into a tree: writing the pointer of an item, following
    a pointer, and taking its last token apart.  An item of a tree is
    identified by its address, the positions of the items on the way to it
    from the root.  A C string is the list of its bytes before the
    terminating NUL, and what is written to an allocated buffer is checked
    against its size.  Allocation succeeds here.  The main theorem: following
    the pointer of an item leads to that item. *)

From stdpp Require Import prelude list strings.
From S2P Require Import Prelude RateLimit CJson Decimal JsonSafety JsonText JsonNames.

(** ** Items and addresses *)

Definition child_at (j : cJSON) (i : nat) : option cJSON :=
  match j with JArray l => l !! i | JObject ms => snd <$> ms !! i | _ => None end.

Fixpoint item_at (j : cJSON) (a : list nat) : option cJSON :=
  match a with [] => Some j | i :: a => c ← child_at j i; item_at c a end.

(** ** Strings *)

(** The byte under a pointer. *)
Definition at_ (p : list Z) : Z := hd 0 p.

(** At the end of a token: NUL or a slash. *)
Definition token_end (p : list Z) : bool := (at_ p =? 0) || (at_ p =? 47).

(** [sprintf] or [strcat] into a buffer of [size] bytes; [None] when it overflows. *)
Definition put (size : Z) (text : list Z) : option (list Z) := if zlen text + 1 <=? size then Some text else None.

Fixpoint compare_pointers (case_sensitive : bool) (name pointer : list Z) : bool :=
  match name with
  | [] => token_end pointer
  | n :: name =>
      if token_end pointer then false
      else if at_ pointer =? 126 then
        if (negb (at_ (tail pointer) =? 48) || negb (n =? 126)) && (negb (at_ (tail pointer) =? 49) || negb (n =? 47)) then false
        else compare_pointers case_sensitive name (tail (tail pointer))
      else if (negb case_sensitive && negb (tolower n =? tolower (at_ pointer))) || (case_sensitive && negb (n =? at_ pointer)) then false
      else compare_pointers case_sensitive name (tail pointer)
  end.

Fixpoint pointer_encoded_length (string : list Z) : Z :=
  match string with
  | [] => 0
  | c :: string => (if (c =? 126) || (c =? 47) then 2 else 1) + pointer_encoded_length string
  end.

Fixpoint encode_string_as_pointer (source : list Z) : list Z :=
  match source with
  | [] => []
  | c :: source =>
      (if c =? 47 then [126; 49] else if c =? 126 then [126; 48] else [c]) ++ encode_string_as_pointer source
  end.

(** ** The pointer of an item *)

Section find.
  Context (target : list nat).

(** [here] is the address of [object].  The outer [None] is a buffer that
    overflows, the inner one [NULL]. *)
Fixpoint find_pointer (here : list nat) (object : cJSON) : option (option (list Z)) :=
  if bool_decide (here = target) then Some (Some [])
  else
    match object with
    | JArray l =>
        (fix go (child_index : nat) (l : list cJSON) : option (option (list Z)) :=
          match l with
          | [] => Some None
          | current_child :: l =>
              r ← find_pointer (here ++ [child_index]) current_child;
              match r with
              | Some target_pointer => Some <$> put (zlen target_pointer + 20 + 2) (47 :: print_nat (Z.of_nat child_index) ++ target_pointer)
              | None => go (S child_index) l
              end
          end) O l
    | JObject ms =>
        (fix go (child_index : nat) (ms : list (string * cJSON)) : option (option (list Z)) :=
          match ms with
          | [] => Some None
          | (name, current_child) :: ms =>
              r ← find_pointer (here ++ [child_index]) current_child;
              match r with
              | Some target_pointer =>
                  Some <$> put (zlen target_pointer + pointer_encoded_length (bytes_of name) + 2)
                    (47 :: encode_string_as_pointer (bytes_of name) ++ target_pointer)
              | None => go (S child_index) ms
              end
          end) O ms
    | _ => Some None
    end.
End find.

Definition cJSONUtils_FindPointerFromObjectTo (object : cJSON) (target : list nat) : option (option (list Z)) := find_pointer target [] object.

(** ** Following a pointer *)

(** The position of an element; [None] is [NULL]. *)
Fixpoint get_array_item (array : list cJSON) (item : Z) : option nat :=
  match array with
  | [] => None
  | _ :: array => if 0 <? item then S <$> get_array_item array (item - 1) else Some O
  end.

(** The loop over the digits: the bound on the digit looks at the first byte. *)
Fixpoint index_digits (first : Z) (pointer : list Z) (parsed_index : Z) : Z * list Z :=
  match pointer with
  | c :: rest => if (48 <=? c) && (first <=? 57) then index_digits first rest (u64 (10 * parsed_index + (c - 48))) else (parsed_index, pointer)
  | [] => (parsed_index, [])
  end.

Definition decode_array_index_from_pointer (pointer : list Z) : option Z :=
  if (at_ pointer =? 48) && negb (token_end (tail pointer)) then None
  else
    let '(parsed_index, rest) := index_digits (at_ pointer) pointer 0 in
    if token_end rest then Some parsed_index else None.

(** The first member whose name is the next token. *)
Fixpoint find_token (case_sensitive : bool) (ms : list (string * cJSON)) (pointer : list Z) : option nat :=
  match ms with
  | [] => None
  | (name, _) :: ms => if compare_pointers case_sensitive (bytes_of name) pointer then Some O else S <$> find_token case_sensitive ms pointer
  end.

Fixpoint skip_token (pointer : list Z) : list Z :=
  match pointer with c :: rest => if c =? 47 then pointer else skip_token rest | [] => [] end.

(** The loop of [get_item_from_pointer]; every round leaves a slash behind. *)
Fixpoint follow (fuel : nat) (case_sensitive : bool) (current_element : cJSON) (pointer : list Z) : option (list nat) :=
  match fuel with
  | O => None
  | S fuel =>
      if at_ pointer =? 47 then
        let pointer := tail pointer in
        i ← match current_element with
            | JArray l => index ← decode_array_index_from_pointer pointer; get_array_item l index
            | JObject ms => find_token case_sensitive ms pointer
            | _ => None
            end;
        c ← child_at current_element i;
        cons i <$> follow fuel case_sensitive c (skip_token pointer)
      else Some []
  end.

(** The address of the item; [None] is [NULL]. *)
Definition get_item_from_pointer (case_sensitive : bool) (object : cJSON) (pointer : list Z) : option (list nat) :=
  follow (S (length pointer)) case_sensitive object pointer.

Definition cJSONUtils_GetPointer : cJSON -> list Z -> option (list nat) := get_item_from_pointer false.
Definition cJSONUtils_GetPointerCaseSensitive : cJSON -> list Z -> option (list nat) := get_item_from_pointer true.

(** ** Tokens *)

Definition name_key (case_sensitive : bool) (name : string) : list Z := if case_sensitive then bytes_of name else map tolower (bytes_of name).

(** The rest of a pointer after a token. *)
Definition ends_token (rest : list Z) : Prop := rest = [] \/ exists t, rest = 47 :: t.

Lemma ends_token_true rest : ends_token rest -> token_end rest = true.
Proof. by intros [->|[t ->]]. Qed.

Lemma tolower_eq n c : c = 126 \/ c = 47 -> (tolower n =? c) = (n =? c).
Proof. intros Hc. unfold tolower. bcase; breflect; [|done]. destruct (Z.eqb_spec (n + 32) c), (Z.eqb_spec n c); lia. Qed.

(** One character of the token against one of the name. *)
Lemma compare_char cs n name c rest : 0 < c < 256 ->
  compare_pointers cs (n :: name) ((if c =? 47 then [126; 49] else if c =? 126 then [126; 48] else [c]) ++ rest) =
  (if cs then n =? c else tolower n =? tolower c) && compare_pointers cs name rest.
Proof.
  intros Hc. destruct (Z.eqb_spec c 47) as [->|H47]; [|destruct (Z.eqb_spec c 126) as [->|H126]].
  - change (tolower 47) with 47. rewrite (tolower_eq n 47) by auto. cbn -[tolower]. by destruct cs, (n =? 47).
  - change (tolower 126) with 126. rewrite (tolower_eq n 126) by auto. cbn -[tolower]. by destruct cs, (n =? 126), (n =? 47).
  - cbn [app compare_pointers]. unfold token_end. cbn [at_ hd tail].
    rewrite (proj2 (Z.eqb_neq c 0)), (proj2 (Z.eqb_neq c 47)), (proj2 (Z.eqb_neq c 126)) by lia. cbn [orb].
    destruct cs; cbn [negb andb orb]; [by destruct (n =? c)|]. rewrite orb_false_r. by destruct (tolower n =? tolower c).
Qed.

Lemma encode_ends_not c k rest : token_end ((if c =? 47 then [126; 49] else if c =? 126 then [126; 48] else [c]) ++ k ++ rest) = true -> c = 0.
Proof.
  destruct (Z.eqb_spec c 47) as [->|]; [done|]. destruct (Z.eqb_spec c 126) as [->|]; [done|]. unfold token_end. cbn [app at_ hd]. intros H. 
  apply orb_true_iff in H as [H|H]; breflect; lia.
Qed.

Lemma compare_pointers_encoded cs : forall name k rest, c_chars k -> ends_token rest ->
  compare_pointers cs name (encode_string_as_pointer k ++ rest) =
  bool_decide ((if cs then name else map tolower name) = (if cs then k else map tolower k)).
Proof.
  induction name as [|n name IH]; intros k rest Hk Hr.
  - destruct k as [|c k]; cbn [encode_string_as_pointer app compare_pointers]; [rewrite ends_token_true by done; by destruct cs|].
    apply List.Forall_cons_iff in Hk as [Hc Hk]. rewrite <- app_assoc.
    destruct (token_end _) eqn:E; [apply encode_ends_not in E; lia|]. by destruct cs.
  - destruct k as [|c k].
    + cbn [encode_string_as_pointer app compare_pointers]. rewrite ends_token_true by done. by destruct cs.
    + apply List.Forall_cons_iff in Hk as [Hc Hk]. cbn [encode_string_as_pointer]. rewrite <- app_assoc, compare_char by done.
      rewrite IH by done. destruct cs; cbn [map].
      * destruct (Z.eqb_spec n c) as [->|Hne]; cbn [andb]; repeat case_bool_decide; congruence.
      * destruct (Z.eqb_spec (tolower n) (tolower c)) as [E|Hne]; cbn [andb]; repeat case_bool_decide; congruence.
Qed.

Lemma encoded_length k : zlen (encode_string_as_pointer k) = pointer_encoded_length k.
Proof.
  induction k as [|c k IH]; [done|]. cbn [encode_string_as_pointer pointer_encoded_length]. rewrite zlen_app, IH. f_equal.
  destruct (Z.eqb_spec c 47) as [->|]; [done|]. by destruct (Z.eqb_spec c 126) as [->|].
Qed.

Lemma skip_encoded k rest : ends_token rest -> skip_token (encode_string_as_pointer k ++ rest) = rest.
Proof.
  intros Hr. induction k as [|c k IH]; cbn [encode_string_as_pointer app]; [by destruct Hr as [->|[t ->]]|].
  rewrite <- app_assoc. destruct (Z.eqb_spec c 47) as [->|]; [done|]. destruct (Z.eqb_spec c 126) as [->|]; [done|].
  cbn [app skip_token]. by rewrite (proj2 (Z.eqb_neq c 47)).
Qed.

(** ** Array indices *)

Lemma index_digits_app first d rest : digits d -> first <= 57 -> ends_token rest ->
  forall acc, index_digits first (d ++ rest) acc = (foldl (fun n b => u64 (10 * n + (b - 48))) acc d, rest).
Proof.
  intros Hd Hf Hr. induction Hd as [|b d Hb _ IH]; intros acc.
  - cbn [app foldl]. by destruct Hr as [->|[t ->]].
  - apply is_digit_range in Hb. cbn [app index_digits foldl]. rewrite (proj2 (Z.leb_le 48 b)), (proj2 (Z.leb_le first 57)) by lia. apply IH.
Qed.

Lemma foldl_u64 d : forall x y, x = u64 y -> foldl (fun n b => u64 (10 * n + (b - 48))) x d = u64 (foldl (fun n b => 10 * n + (b - 48)) y d) .
Proof.
  induction d as [|b d IH]; intros x y E; [done|]. cbn [foldl]. apply IH. subst x. unfold u64.
  rewrite <- Zplus_mod_idemp_l, Zmult_mod_idemp_r, Zplus_mod_idemp_l. done.
Qed.

Lemma decode_printed i rest : 0 <= i < 2 ^ 64 -> ends_token rest -> decode_array_index_from_pointer (print_nat i ++ rest) = Some i.
Proof.
  intros Hi Hr. destruct (print_nat_spec i) as (Hd & Hn & _); [lia|]. unfold decode_array_index_from_pointer.
  destruct (print_nat_cases i ltac:(lia)) as [(-> & ->)|(_ & b & t & E & Hb)].
  { cbn [app at_ hd tail]. rewrite ends_token_true by done. cbn [negb andb Z.eqb Pos.eqb]. change (48 :: rest) with ([48] ++ rest). rewrite (index_digits_app 48 [48]); [|by repeat constructor|lia|done].
    by rewrite ends_token_true. }
  assert (at_ (print_nat i ++ rest) = b) as -> by (by rewrite E). rewrite (proj2 (Z.eqb_neq b 48)) by lia. cbn [andb].
  rewrite index_digits_app by (try done; lia). rewrite (foldl_u64 _ 0 0), ends_token_true by done.
  fold (dec_num (print_nat i)). rewrite Hn. f_equal. apply u64_small. lia.
Qed.

Lemma skip_digits d rest : digits d -> ends_token rest -> skip_token (d ++ rest) = rest.
Proof.
  intros Hd Hr. induction Hd as [|b d Hb _ IH]; cbn [app]; [by destruct Hr as [->|[t ->]]|]. apply is_digit_range in Hb.
  cbn [skip_token]. by rewrite (proj2 (Z.eqb_neq b 47)) by lia.
Qed.

Lemma array_item_found l : forall i, (i < length l)%nat -> get_array_item l (Z.of_nat i) = Some i.
Proof.
  induction l as [|v l IH]; intros i Hi; [cbn in Hi; lia|]. cbn [get_array_item]. destruct i as [|i]; [done|].
  rewrite (proj2 (Z.ltb_lt 0 (Z.of_nat (S i)))) by lia. replace (Z.of_nat (S i) - 1) with (Z.of_nat i) by lia.
  rewrite IH by (cbn in Hi; lia). done.
Qed.

(** ** The pointer and the item *)

(** Documents whose items have a pointer of their own: no two names of an
    object are taken for the same, and indices fit [size_t]. *)
Fixpoint addressable (case_sensitive : bool) (j : cJSON) : Prop :=
  match j with
  | JArray l => zlen l <= 2 ^ 64 /\ each (addressable case_sensitive) l
  | JObject ms => NoDup (map (fun m => name_key case_sensitive m.1) ms) /\ each (fun m => c_chars (bytes_of m.1) /\ addressable case_sensitive m.2) ms
  | _ => True
  end.

(** What of that concerns the children of one item. *)
Definition level (case_sensitive : bool) (j : cJSON) : Prop :=
  match j with
  | JArray l => zlen l <= 2 ^ 64
  | JObject ms => NoDup (map (fun m => name_key case_sensitive m.1) ms) /\ Forall (fun m => c_chars (bytes_of m.1)) ms
  | _ => True
  end.

Lemma addressable_level cs j : addressable cs j -> level cs j.
Proof.
  destruct j as [| | | |l|ms]; cbn [addressable level]; try done; [tauto|]. intros [Hd He]. rewrite each_forall in He. split; [done|].
  eapply List.Forall_impl; [|exact He]. by intros ? [].
Qed.

Definition token (j : cJSON) (i : nat) : list Z :=
  match j with
  | JArray _ => print_nat (Z.of_nat i)
  | JObject ms => match ms !! i with Some m => encode_string_as_pointer (bytes_of m.1) | None => [] end
  | _ => []
  end.

(** The pointer of an address. *)
Fixpoint pointer_text (j : cJSON) (a : list nat) : list Z :=
  match a with
  | [] => []
  | i :: a => 47 :: token j i ++ match child_at j i with Some c => pointer_text c a | None => [] end
  end.

Lemma pointer_text_ends j a : ends_token (pointer_text j a).
Proof. destruct a; [by left|right; by eexists]. Qed.

Lemma child_addressable cs j i c : addressable cs j -> child_at j i = Some c -> addressable cs c.
Proof.
  destruct j as [| | | |l|ms]; try done; cbn [addressable child_at].
  - intros [_ He] E. rewrite each_forall in He. by eapply Forall_lookup_1.
  - intros [_ He] E. rewrite each_forall in He. apply fmap_Some in E as (m & E & ->). by apply (Forall_lookup_1 _ _ _ _ He) in E as [_ ?].
Qed.

(** The token of a child leads to it. *)
Lemma find_token_lookup cs ms i m rest : NoDup (map (fun m => name_key cs m.1) ms) -> Forall (fun m => c_chars (bytes_of m.1)) ms -> ends_token rest ->
  ms !! i = Some m -> find_token cs ms (encode_string_as_pointer (bytes_of m.1) ++ rest) = Some i.
Proof.
  intros Hd Hc Hr. revert i. induction ms as [|[k v] ms IH]; intros i E; [done|]. cbn [map fst] in Hd. apply NoDup_cons in Hd as [Hk Hd].
  cbn [find_token]. assert (c_chars (bytes_of m.1)) as Hm by (by apply (Forall_lookup_1 _ _ _ _ Hc E)). apply List.Forall_cons_iff in Hc as [_ Hc].
  rewrite compare_pointers_encoded by done. destruct i as [|i].
  - injection E as <-. by rewrite bool_decide_true.
  - rewrite bool_decide_false; [by rewrite (IH Hd Hc i E)|]. intros Ek. apply Hk.
    assert (name_key cs k = name_key cs m.1) as -> by (unfold name_key; by destruct cs).
    apply list_elem_of_In, (in_map (fun m => name_key cs m.1)), list_elem_of_In. by eapply list_elem_of_lookup_2.
Qed.

Lemma follow_step fuel cs j i c rest : level cs j -> child_at j i = Some c -> ends_token rest ->
  follow (S fuel) cs j (47 :: token j i ++ rest) = cons i <$> follow fuel cs c rest.
Proof.
  intros Ha E Hr. cbn [follow at_ hd tail]. change (47 =? 47) with true. cbn iota.
  destruct j as [| | | |l|ms]; try done; cbn [level token child_at] in *.
  - pose proof (lookup_lt_Some _ _ _ E) as Hi. rewrite decode_printed by (unfold zlen in Ha; lia || done). obind.
    rewrite array_item_found by done. obind. rewrite E. obind. rewrite skip_digits; [done|by apply print_nat_spec; lia|done].
  - destruct Ha as [Hd Hc]. apply fmap_Some in E as (m & E & ->).
    rewrite E, (find_token_lookup cs ms i m) by done. obind. rewrite E. cbn [fmap option_fmap option_map]. obind.
    by rewrite skip_encoded.
Qed.

Lemma skip_token_length p : (length (skip_token p) <= length p)%nat.
Proof. induction p as [|c p IH]; cbn [skip_token]; [done|]. bcase; cbn [length]; lia. Qed.

(** More fuel than bytes is enough. *)
Lemma follow_fuel cs f1 : forall f2 j p, (length p < f1)%nat -> (length p < f2)%nat -> follow f1 cs j p = follow f2 cs j p.
Proof.
  induction f1 as [|f1 IH]; intros [|f2] j p H1 H2; try lia. cbn [follow]. bcase; [|done]. cbn zeta. destruct p as [|c p]; [done|]. cbn [tail length] in *.
  match goal with |- (?m ≫= _) = _ => destruct m as [i|] end; [obind|done]. destruct (child_at j i) as [d|]; [obind|done].
  f_equal. apply IH; pose proof (skip_token_length p); lia.
Qed.

Lemma get_item_step cs j i c rest : level cs j -> child_at j i = Some c -> ends_token rest ->
  get_item_from_pointer cs j (47 :: token j i ++ rest) = cons i <$> get_item_from_pointer cs c rest.
Proof.
  intros Hl E Hr. unfold get_item_from_pointer. rewrite (follow_step _ cs j i c) by done. f_equal. apply follow_fuel; cbn [length]; rewrite ?length_app; lia.
Qed.

Lemma follow_pointer cs a : forall fuel j, (length a < fuel)%nat -> addressable cs j -> is_Some (item_at j a) -> follow fuel cs j (pointer_text j a) = Some a.
Proof.
  induction a as [|i a IH]; intros [|fuel] j Hf Ha [v E]; cbn in Hf; try lia; [done|].
  cbn [item_at] in E. cbn [pointer_text]. destruct (child_at j i) as [c|] eqn:Ec; [|done]. obind_in E.
  rewrite (follow_step fuel cs j i c) by (done || apply pointer_text_ends || by apply addressable_level). rewrite IH; [done|lia|by eapply child_addressable|by exists v].
Qed.

Lemma pointer_text_length a : forall j, is_Some (item_at j a) -> (length a <= length (pointer_text j a))%nat.
Proof.
  induction a as [|i a IH]; intros j [v E]; [cbn; lia|]. cbn [item_at pointer_text] in *. destruct (child_at j i) as [c|]; [|done]. obind_in E.
  specialize (IH c (ex_intro _ v E)). cbn [length]. rewrite length_app. lia.
Qed.

(** An item that is followed to is there. *)
Lemma follow_item fuel cs : forall j p a, follow fuel cs j p = Some a -> is_Some (item_at j a).
Proof.
  induction fuel as [|fuel IH]; intros j p a; cbn [follow]; [done|]. bcase; [|intros [= <-]; by eexists]. cbn zeta.
  match goal with |- (?m ≫= _) = _ -> _ => destruct m as [i|] end; [obind|done]. destruct (child_at j i) as [c|] eqn:Ec; [obind|done].
  intros (a' & E' & ->)%fmap_Some. cbn [item_at]. rewrite Ec. obind. by eapply IH.
Qed.

Lemma put_fits size text : zlen text + 1 <= size -> put size text = Some text.
Proof. intros H. unfold put. by rewrite (proj2 (Z.leb_le _ _)). Qed.

(** The two loops of [find_pointer], over the rest of the children. *)
Definition find_elements (target here : list nat) : nat -> list cJSON -> option (option (list Z)) :=
  fix go (child_index : nat) (l : list cJSON) : option (option (list Z)) :=
    match l with
    | [] => Some None
    | current_child :: l =>
        r ← find_pointer target (here ++ [child_index]) current_child;
        match r with
        | Some target_pointer => Some <$> put (zlen target_pointer + 20 + 2) (47 :: print_nat (Z.of_nat child_index) ++ target_pointer)
        | None => go (S child_index) l
        end
    end.

Definition find_members (target here : list nat) : nat -> list (string * cJSON) -> option (option (list Z)) :=
  fix go (child_index : nat) (ms : list (string * cJSON)) : option (option (list Z)) :=
    match ms with
    | [] => Some None
    | (name, current_child) :: ms =>
        r ← find_pointer target (here ++ [child_index]) current_child;
        match r with
        | Some target_pointer =>
            Some <$> put (zlen target_pointer + pointer_encoded_length (bytes_of name) + 2)
              (47 :: encode_string_as_pointer (bytes_of name) ++ target_pointer)
        | None => go (S child_index) ms
        end
    end.

Lemma find_pointer_eq target here j : find_pointer target here j =
  if bool_decide (here = target) then Some (Some []) else
  match j with JArray l => find_elements target here 0 l | JObject ms => find_members target here 0 ms | _ => Some None end.
Proof. by destruct j. Qed.

(** Nothing is found elsewhere. *)
Lemma find_elsewhere target j : forall here, ~ here `prefix_of` target -> find_pointer target here j = Some None.
Proof.
  assert (Hext : forall here i, ~ here `prefix_of` target -> ~ (here ++ [i]) `prefix_of` target).
  { intros here i Hn Hp. apply Hn. etrans; [|exact Hp]. by eexists. }
  induction j as [|b0|x0|s0|l IH|ms IH] using cjson_tree_ind; intros here Hn; rewrite find_pointer_eq, bool_decide_false by (by intros ->; apply Hn); try done.
  - generalize O as i. induction IH as [|v l Hv _ IHl]; intros i; cbn [find_elements]; [done|]. rewrite Hv by (by apply Hext). obind. apply IHl.
  - generalize O as i. induction IH as [|[k v] ms Hv _ IHl]; intros i; cbn [find_members]; [done|]. rewrite Hv by (by apply Hext). obind. apply IHl.
Qed.

Lemma other_child (here : list nat) (i k : nat) (a : list nat) : i <> k -> ~ (here ++ [i]) `prefix_of` (here ++ k :: a).
Proof. intros Hne [t E]. rewrite <- app_assoc in E. apply app_inv_head in E. cbn in E. congruence. Qed.

Lemma find_elements_skip here k a l : forall i n v, l !! n = Some v -> k = (i + n)%nat ->
  find_elements (here ++ k :: a) here i l =
  (r ← find_pointer (here ++ k :: a) (here ++ [k]) v;
  match r with
  | Some p => Some <$> put (zlen p + 20 + 2) (47 :: print_nat (Z.of_nat k) ++ p)
  | None => find_elements (here ++ k :: a) here (S k) (drop (S n) l)
  end).
Proof.
  induction l as [|w l IH]; intros i n v E Hk; [done|]. destruct n as [|n].
  - injection E as ->. rewrite Nat.add_0_r in Hk. by subst i.
  - cbn [find_elements]. rewrite find_elsewhere by (apply other_child; lia). obind. apply (IH (S i) n v E). lia.
Qed.

Lemma find_members_skip here k a ms : forall i n m, ms !! n = Some m -> k = (i + n)%nat ->
  find_members (here ++ k :: a) here i ms =
  (r ← find_pointer (here ++ k :: a) (here ++ [k]) m.2;
  match r with
  | Some p => Some <$> put (zlen p + pointer_encoded_length (bytes_of m.1) + 2) (47 :: encode_string_as_pointer (bytes_of m.1) ++ p)
  | None => find_members (here ++ k :: a) here (S k) (drop (S n) ms)
  end).
Proof.
  induction ms as [|[c w] ms IH]; intros i n m E Hk; [done|]. destruct n as [|n].
  - injection E as <-. rewrite Nat.add_0_r in Hk. by subst i.
  - cbn [find_members]. rewrite find_elsewhere by (apply other_child; lia). obind. apply (IH (S i) n m E). lia.
Qed.

Lemma find_pointer_text cs a : forall here j, addressable cs j -> is_Some (item_at j a) -> find_pointer (here ++ a) here j = Some (Some (pointer_text j a)).
Proof.
  induction a as [|k a IH]; intros here j Ha [v E]; rewrite find_pointer_eq.
  { by rewrite app_nil_r, bool_decide_true. }
  rewrite bool_decide_false by (intros E'; apply (f_equal length) in E'; rewrite length_app in E'; cbn in E'; lia).
  cbn [item_at] in E. destruct (child_at j k) as [c|] eqn:Ec; [|done]. obind_in E. pose proof (child_addressable cs j k c Ha Ec) as Hc.
  specialize (IH (here ++ [k]) c Hc (ex_intro _ v E)). rewrite <- app_assoc in IH. cbn [app] in IH. cbn [pointer_text]. rewrite Ec.
  destruct j as [| | | |l|ms]; try done; cbn [child_at token addressable] in *.
  - rewrite (find_elements_skip here k a l 0 k c) by done. rewrite IH. obind. destruct Ha as [Hl _]. apply lookup_lt_Some in Ec.
    rewrite put_fits; [done|]. pose proof (print_nat_length (Z.of_nat k) 20 ltac:(unfold zlen in Hl; lia) ltac:(lia)). autorewrite with zlen. lia.
  - apply fmap_Some in Ec as (m & Em & ->). rewrite Em, (find_members_skip here k a ms 0 k m) by done. rewrite IH. obind.
    rewrite put_fits; [done|]. autorewrite with zlen. rewrite encoded_length. lia.
Qed.

(** Pointers find what they were made for.  For every item of a document
    in which no object has two names that are taken for the same,
    [cJSONUtils_FindPointerFromObjectTo] writes the pointer of the item inside
    the buffers it allocates, whatever slashes and tildes the names hold, and
    following that pointer leads back to the very item; and whatever text is
    followed in any document, the item found is one of the document. *)
Theorem json_pointer_roundtrip (case_sensitive : bool) (j : cJSON) (a : list nat) (v : cJSON) :
  addressable case_sensitive j -> item_at j a = Some v ->
  (exists p, cJSONUtils_FindPointerFromObjectTo j a = Some (Some p) /\ get_item_from_pointer case_sensitive j p = Some a) /\
  forall p b, get_item_from_pointer case_sensitive j p = Some b -> is_Some (item_at j b).
Proof.
  intros Ha E. split; [|intros p b; apply follow_item]. exists (pointer_text j a). split.
  - exact (find_pointer_text case_sensitive a [] j Ha (ex_intro _ v E)).
  - apply follow_pointer; [|done|by exists v]. pose proof (pointer_text_length a j (ex_intro _ v E)). lia.
Qed.

(** *** Witnesses and examples *)

Definition demo_document : cJSON := JObject [("a/b", JArray [JBool true; JNull]); ("m~n", JString "x")].

Lemma json_pointer_roundtrip_witness :
  cJSONUtils_FindPointerFromObjectTo demo_document [0; 1]%nat = Some (Some (bytes_of "/a~1b/1")) /\
  exists p, cJSONUtils_FindPointerFromObjectTo demo_document [0; 1]%nat = Some (Some p) /\ get_item_from_pointer false demo_document p = Some [0; 1]%nat.
Proof.
  split; [reflexivity|]. apply (json_pointer_roundtrip false demo_document [0; 1]%nat JNull); [|reflexivity].
  assert (forall k, Forall (fun c => 0 < c < 256) (bytes_of k) <-> forallb (fun c => (0 <? c) && (c <? 256)) (bytes_of k) = true) as Hb.
  { intros k. rewrite forallb_forall, List.Forall_forall. by setoid_rewrite andb_true_iff; setoid_rewrite Z.ltb_lt. }
  cbn [addressable demo_document each map fst snd]. unfold c_chars. rewrite !Hb. repeat split; try reflexivity; try done.
  apply (bool_decide_unpack _). vm_compute. done.
Defined.

(** Names that differ in case only have one pointer, unless case matters. *)
Example pointer_case : let j := JObject [("A", JNull); ("a", JBool true)] in
  cJSONUtils_GetPointer j (bytes_of "/a") = Some [0%nat] /\ cJSONUtils_GetPointerCaseSensitive j (bytes_of "/a") = Some [1%nat].
Proof. by split. Qed.

(** The loop over the digits bounds the first byte from above and not the one
    it reads: letters count as digits, of a value above nine. *)
Example index_letters : decode_array_index_from_pointer (bytes_of "1a") = Some 59.
Proof. reflexivity. Qed.
