(* ===== verification/JsonPatch.v ===== *)
(** * JSON patches (cJSON_Utils.c)

    Applying an RFC 6902 patch to a document and making the patch that leads
    from one document to another.  The values are those of the trees, as for
    merge patches, and an item is given by its address; texts written to
    buffers are checked against their size.  Allocation succeeds here.  The
    main theorem: the patches made from two documents, applied to the one,
    give the other. *)

From stdpp Require Import prelude list strings sorting.
From Stdlib Require Import SpecFloat.
From S2P Require Import Prelude RateLimit CJson Decimal JsonParse JsonSafety JsonPrint JsonText JsonNames JsonMerge JsonPointer.

(** ** Changing an item *)

Definition set_child (i : nat) (c : cJSON) (j : cJSON) : cJSON :=
  match j with
  | JArray l => JArray (<[i := c]> l)
  | JObject ms => match ms !! i with Some m => JObject (<[i := (m.1, c)]> ms) | None => j end
  | _ => j
  end.

Fixpoint set_item (j : cJSON) (a : list nat) (v : cJSON) : cJSON :=
  match a with
  | [] => v
  | i :: a => match child_at j i with Some c => set_child i (set_item c a v) j | None => j end
  end.

(** ** The last token of a path *)

(** [strrchr(path, '/')]: what comes before it and after it. *)
Fixpoint split_path (path : list Z) : option (list Z * list Z) :=
  match path with
  | [] => None
  | c :: path =>
      match split_path path with
      | Some (parent, child) => Some (c :: parent, child)
      | None => if c =? 47 then Some ([], path) else None
      end
  end.

(** [decoded_string] and [string] are the offsets [w] and [r] into one
    buffer; a plain character is not copied. *)
Fixpoint decode_loop (fuel : nat) (buffer : list Z) (w r : nat) : list Z :=
  match fuel with
  | O => buffer
  | S fuel =>
      let c := nth r buffer 0 in
      if c =? 0 then <[w := 0]> buffer
      else if c =? 126 then
        let d := nth (S r) buffer 0 in
        if d =? 48 then decode_loop fuel (<[w := 126]> buffer) (S w) (S (S r))
        else if d =? 49 then decode_loop fuel (<[S w := 47]> buffer) (S w) (S (S r))
        else buffer
      else decode_loop fuel buffer (S w) (S r)
  end.

Fixpoint before_nul (buffer : list Z) : list Z :=
  match buffer with c :: buffer => if c =? 0 then [] else c :: before_nul buffer | [] => [] end.

Definition decode_pointer_inplace (string : list Z) : list Z := before_nul (decode_loop (S (length string)) (string ++ [0]) 0 0).

(** ** Elements of an array *)

Fixpoint detach_item_from_array (array : list cJSON) (which : Z) : option cJSON * list cJSON :=
  match array with
  | [] => (None, [])
  | c :: array => if 0 <? which then let '(d, array) := detach_item_from_array array (which - 1) in (d, c :: array) else (Some c, array)
  end.

Fixpoint insert_item_in_array (array : list cJSON) (which : Z) (newitem : cJSON) : option (list cJSON) :=
  match array with
  | [] => if 0 <? which then None else Some [newitem]
  | c :: array => if 0 <? which then cons c <$> insert_item_in_array array (which - 1) newitem else Some (newitem :: c :: array)
  end.

(** ** Applying a patch *)

Inductive patch_operation := INVALID | ADD | REMOVE | REPLACE | MOVE | COPY | TEST.

(** What applying does: the status and the document, which is [None] once the
    root has been removed ([cJSON_Invalid]); or the status alone, when the
    comparison of a test may have sorted an object in place, after which the
    links between its members are not those of a list any more; or a [NULL]
    pointer that is read through. *)
Inductive result := Applied (status : Z) (object : option cJSON) | Unlinked (status : Z) | Crash.

Section apply.
  Context (case_sensitive : bool).

(** [get_object_item] of an item of the patch. *)
Definition get_member (item : cJSON) (name : string) : option cJSON :=
  match item with JObject ms => (detach_member case_sensitive name ms).1 | _ => None end.

Definition decode_patch_operation (patch : cJSON) : patch_operation :=
  match get_member patch "op" with
  | Some (JString s) =>
      if String.eqb s "add" then ADD
      else if String.eqb s "remove" then REMOVE
      else if String.eqb s "replace" then REPLACE
      else if String.eqb s "move" then MOVE
      else if String.eqb s "copy" then COPY
      else if String.eqb s "test" then TEST
      else INVALID
  | _ => INVALID
  end.

(** The item that was detached, and the document without it. *)
Definition detach_path (object : cJSON) (path : list Z) : option cJSON * cJSON :=
  match split_path path with
  | None => (None, object)
  | Some (parent_pointer, child_pointer) =>
      match get_item_from_pointer case_sensitive object parent_pointer with
      | None => (None, object)
      | Some a =>
          let child_pointer := decode_pointer_inplace child_pointer in
          match item_at object a with
          | Some (JArray l) =>
              match decode_array_index_from_pointer child_pointer with
              | None => (None, object)
              | Some index => let '(d, l) := detach_item_from_array l index in (d, set_item object a (JArray l))
              end
          | Some (JObject ms) => let '(d, ms) := detach_member false (text_of child_pointer) ms in (d, set_item object a (JObject ms))
          | _ => (None, object)
          end
      end
  end.

(** Now, just add "value" to "path". *)
Definition add_value (object : cJSON) (path : list Z) (value : cJSON) : result :=
  match split_path path with
  | None => Applied 9 (Some object)
  | Some (parent_pointer, child_pointer) =>
      match get_item_from_pointer case_sensitive object parent_pointer with
      | None => Applied 9 (Some object)
      | Some a =>
          let child_pointer := decode_pointer_inplace child_pointer in
          match item_at object a with
          | Some (JArray l) =>
              if bool_decide (child_pointer = [45]) then Applied 0 (Some (set_item object a (JArray (l ++ [value]))))
              else
                match decode_array_index_from_pointer child_pointer with
                | None => Applied 11 (Some object)
                | Some index =>
                    match insert_item_in_array l index value with
                    | None => Applied 10 (Some object)
                    | Some l => Applied 0 (Some (set_item object a (JArray l)))
                    end
                end
          | Some (JObject ms) =>
              let name := text_of child_pointer in
              Applied 0 (Some (set_item object a (JObject ((detach_member case_sensitive name ms).2 ++ [(name, value)]))))
          | _ => Applied 9 (Some object)
          end
      end
  end.

Definition test_value (object : cJSON) (path : list Z) (value : option cJSON) : result :=
  match get_item_from_pointer case_sensitive object path ≫= item_at object, value with
  | Some v, Some w =>
      let status := if (compare_json case_sensitive v w).1.1 then 0 else 1 in
      if settled case_sensitive v && settled case_sensitive w then Applied status (Some object) else Unlinked status
  | _, _ => Applied 1 (Some object)
  end.

(** On a document that is there. *)
Definition apply_to (object : cJSON) (patch : cJSON) (path : list Z) (opcode : patch_operation) : result :=
  let value := get_member patch "value" in
  let add object := match value with None => Applied 7 (Some object) | Some value => add_value object path value end in
  match opcode with
  | INVALID => Applied 3 (Some object)
  | TEST => test_value object path value
  | REMOVE =>
      match path with
      | [] => Applied 0 None
      | _ => match detach_path object path with (None, object) => Applied 13 (Some object) | (Some _, object) => Applied 0 (Some object) end
      end
  | REPLACE =>
      match path with
      | [] => match value with None => Applied 7 (Some object) | Some value => Applied 0 (Some value) end
      | _ => match detach_path object path with (None, object) => Applied 13 (Some object) | (Some _, object) => add object end
      end
  | ADD =>
      match path with
      | [] => match value with None => Applied 7 (Some object) | Some value => Applied 0 (Some value) end
      | _ => add object
      end
  | MOVE =>
      match get_member patch "from" with
      | None => Applied 4 (Some object)
      | Some (JString from) =>
          match detach_path object (bytes_of from) with
          | (None, object) => Applied 5 (Some object)
          | (Some value, object) => add_value object path value
          end
      | Some _ => Crash
      end
  | COPY =>
      match get_member patch "from" with
      | None => Applied 4 (Some object)
      | Some (JString from) =>
          match get_item_from_pointer case_sensitive object (bytes_of from) ≫= item_at object with
          | None => Applied 5 (Some object)
          | Some value => add_value object path value
          end
      | Some _ => Applied 5 (Some object)
      end
  end.

(** On the item that is left when the root has been removed: it has no
    children, and a pointer that does not start with a slash is the item. *)
Definition apply_to_invalid (patch : cJSON) (path : list Z) (opcode : patch_operation) : result :=
  let value := get_member patch "value" in
  match opcode with
  | INVALID => Applied 3 None
  | TEST => Applied 1 None
  | REMOVE => match path with [] => Applied 0 None | _ => Applied 13 None end
  | REPLACE => match path with [] => match value with None => Applied 7 None | Some value => Applied 0 (Some value) end | _ => Applied 13 None end
  | ADD =>
      match value with
      | None => Applied 7 None
      | Some value => match path with [] => Applied 0 (Some value) | _ => Applied 9 None end
      end
  | MOVE =>
      match get_member patch "from" with
      | None => Applied 4 None
      | Some (JString _) => Applied 5 None
      | Some _ => Crash
      end
  | COPY =>
      match get_member patch "from" with
      | None => Applied 4 None
      | Some (JString from) =>
          if at_ (bytes_of from) =? 47 then Applied 5 None else Applied 9 None
      | Some _ => Applied 5 None
      end
  end.

Definition apply_patch (object : option cJSON) (patch : cJSON) : result :=
  match get_member patch "path" with
  | Some (JString path) =>
      let opcode := decode_patch_operation patch in
      match object with
      | Some object => apply_to object patch (bytes_of path) opcode
      | None => apply_to_invalid patch (bytes_of path) opcode
      end
  | _ => Applied 2 object
  end.

Fixpoint apply_each (object : option cJSON) (patches : list cJSON) : result :=
  match patches with
  | [] => Applied 0 object
  | current_patch :: patches =>
      match apply_patch object current_patch with
      | Applied status object => if status =? 0 then apply_each object patches else Applied status object
      | r => r
      end
  end.

Definition apply_patches (object : option cJSON) (patches : cJSON) : result :=
  match patches with JArray ps => apply_each object ps | _ => Applied 1 object end.

End apply.

Definition cJSONUtils_ApplyPatches : option cJSON -> cJSON -> result := apply_patches false.
Definition cJSONUtils_ApplyPatchesCaseSensitive : option cJSON -> cJSON -> result := apply_patches true.

(** ** Making patches *)

(** [None]: a buffer overflows. *)
Definition compose_patch (operation : string) (path : list Z) (suffix : option (list Z)) (value : option cJSON) : option cJSON :=
  full_path ← match suffix with
              | None => Some path
              | Some suffix => put (zlen path + pointer_encoded_length suffix + 2) (path ++ 47 :: encode_string_as_pointer suffix)
              end;
  Some (JObject ([("op", JString operation); ("path", JString (text_of full_path))] ++
    match value with Some value => [("value", value)] | None => [] end)).

(** The patches, and the two values as they are left. *)
Definition creator : Type := list Z -> cJSON -> option (list cJSON * cJSON * cJSON).

Fixpoint patch_elements (path : list Z) (index : nat) (from : list (cJSON * creator)) (to : list cJSON)
    : option (list cJSON * list cJSON * list cJSON) :=
  match from with
  | [] => ps ← mapM (fun w => compose_patch "add" path (Some [45]) (Some w)) to; Some (ps, [], to)
  | (v, create) :: from' =>
      match to with
      | [] =>
          ps ← mapM (fun _ : cJSON * creator =>
            new_path ← put (zlen path + 20 + 2) (print_nat (Z.of_nat index));
            compose_patch "remove" path (Some new_path) None) from;
          Some (ps, map fst from, [])
      | w :: to =>
          new_path ← put (zlen path + 20 + 2) (path ++ 47 :: print_nat (Z.of_nat index));
          '(p, v, w) ← create new_path w;
          '(ps, from, to) ← patch_elements path (S index) from' to;
          Some (p ++ ps, v :: from, w :: to)
      end
  end.

(** [while ((from_child != NULL) || (to_child != NULL))] *)
Fixpoint patch_object (case_sensitive : bool) (n : nat) (path : list Z) (from : list (string * (cJSON * creator))) (to : list (string * cJSON))
    : option (list cJSON * list (string * cJSON) * list (string * cJSON)) :=
  match n with
  | O => Some ([], [], [])
  | S n =>
      let remove k v from :=
        p ← compose_patch "remove" path (Some (bytes_of k)) None;
        '(ps, from, to) ← patch_object case_sensitive n path from to;
        Some (p :: ps, (k, v) :: from, to) in
      let add k w to :=
        p ← compose_patch "add" path (Some (bytes_of k)) (Some w);
        '(ps, from, to) ← patch_object case_sensitive n path from to;
        Some (p :: ps, from, (k, w) :: to) in
      match from, to with
      | [], [] => Some ([], [], [])
      | [], (k, w) :: to => add k w to
      | (k, (v, _)) :: from, [] => remove k v from
      | (k, (v, create)) :: from', (k', w) :: to' =>
          let diff := cmp_names case_sensitive k k' in
          if diff =? 0 then
            new_path ← put (zlen path + pointer_encoded_length (bytes_of k) + 2) (path ++ 47 :: encode_string_as_pointer (bytes_of k));
            '(p, v, w) ← create new_path w;
            '(ps, from, to) ← patch_object case_sensitive n path from' to';
            Some (p ++ ps, (k, v) :: from, (k', w) :: to)
          else if diff <? 0 then remove k v from'
          else add k' w to'
      end
  end.

Fixpoint create_patches (case_sensitive : bool) (from : cJSON) : creator := fun path to =>
  let keep := Some ([], from, to) in
  let replace := p ← compose_patch "replace" path None (Some to); Some ([p], from, to) in
  match from, to with
  | JNull, JNull => keep
  | JBool x, JBool y => if Bool.eqb x y then keep else replace
  | JNumber x, JNumber y => if negb (saturate x =? saturate y) || negb (compare_double x y) then replace else keep
  | JString s, JString t => if String.eqb s t then keep else replace
  | JArray l, JArray m =>
      '(ps, l, m) ← patch_elements path 0 (map (fun v => (v, create_patches case_sensitive v)) l) m;
      Some (ps, JArray l, JArray m)
  | JObject l, JObject m =>
      let l := sort_members case_sensitive (map (fun kv => (kv.1, (kv.2, create_patches case_sensitive kv.2))) l) in
      let m := sort_members case_sensitive m in
      '(ps, l, m) ← patch_object case_sensitive (length l + length m) path l m;
      Some (ps, JObject l, JObject m)
  | _, _ => replace
  end.

(** The array of patches, and the two values as they are left. *)
Definition generate_patches (case_sensitive : bool) (from to : cJSON) : option (cJSON * cJSON * cJSON) :=
  '(ps, from, to) ← create_patches case_sensitive from [] to; Some (JArray ps, from, to).

Definition cJSONUtils_GeneratePatches : cJSON -> cJSON -> option (cJSON * cJSON * cJSON) := generate_patches false.
Definition cJSONUtils_GeneratePatchesCaseSensitive : cJSON -> cJSON -> option (cJSON * cJSON * cJSON) := generate_patches true.

(** ** Edits: the patches that are made *)

Record edit := Edit { e_op : string; e_path : list Z; e_value : option cJSON }.

(** The patch of an edit below [path]. *)
Definition patch_of (path : list Z) (e : edit) : cJSON :=
  JObject ([("op", JString (e_op e)); ("path", JString (text_of (path ++ e_path e)))] ++
    match e_value e with Some value => [("value", value)] | None => [] end).

Definition below (t : list Z) (e : edit) : edit := Edit (e_op e) (t ++ e_path e) (e_value e).

Lemma patch_of_below path t e : patch_of (path ++ t) e = patch_of path (below t e).
Proof. unfold patch_of, below. cbn [e_op e_path e_value]. by rewrite app_assoc. Qed.

Lemma patch_of_below_all path t es : map (patch_of (path ++ t)) es = map (patch_of path) (map (below t) es).
Proof. rewrite map_map. apply map_ext. intros e. apply patch_of_below. Qed.

Lemma compose_suffix op path k value :
  compose_patch op path (Some k) value = Some (patch_of path (Edit op (47 :: encode_string_as_pointer k) value)).
Proof. unfold compose_patch. rewrite put_fits; [done|]. autorewrite with zlen. rewrite encoded_length. lia. Qed.

Lemma compose_whole op path value : compose_patch op path None value = Some (patch_of path (Edit op [] value)).
Proof. unfold compose_patch, patch_of. obind. cbn [e_path]. by rewrite app_nil_r. Qed.

(** Names and tokens without slash and tilde. *)
Definition simple (t : list Z) : Prop := Forall (fun c => 0 < c < 256 /\ c <> 47 /\ c <> 126) t.

Lemma simple_chars t : simple t -> c_chars t.
Proof. intros Hs. eapply List.Forall_impl; [|exact Hs]. by intros c [? _]. Qed.

Lemma simple_bytes t : simple t -> bytes_ok t.
Proof. intros Hs. eapply List.Forall_impl; [|exact Hs]. intros c [? _]. unfold byte_ok. lia. Qed.

Lemma simple_encode t : simple t -> encode_string_as_pointer t = t.
Proof.
  induction 1 as [|c t (_ & H1 & H2) _ IH]; [done|]. cbn [encode_string_as_pointer].
  rewrite (proj2 (Z.eqb_neq c 47)), (proj2 (Z.eqb_neq c 126)), IH by done. done.
Qed.

Lemma simple_digits t : digits t -> simple t.
Proof. intros Hd. eapply List.Forall_impl; [|exact Hd]. intros c Hc. apply is_digit_range in Hc. lia. Qed.

Lemma simple_print n : simple (print_nat (Z.of_nat n)).
Proof. apply simple_digits, print_nat_spec. lia. Qed.

Lemma split_token t : simple t -> split_path t = None.
Proof. induction 1 as [|c t (_ & H1 & _) _ IH]; [done|]. cbn [split_path]. by rewrite IH, (proj2 (Z.eqb_neq c 47)). Qed.

Lemma split_last q t : simple t -> split_path (q ++ 47 :: t) = Some (q, t).
Proof. intros Ht. induction q as [|c q IH]; cbn [app split_path]; [by rewrite split_token|]. by rewrite IH. Qed.

Lemma decode_simple t : simple t -> decode_pointer_inplace t = t.
Proof.
  intros Ht. unfold decode_pointer_inplace.
  assert (forall a b, simple b -> t = a ++ b -> decode_loop (S (length b)) (t ++ [0]) (length a) (length a) = t ++ [0]) as Hd.
  { intros a b Hb. revert a. induction Hb as [|c b (H0 & H1 & H2) _ IH]; intros a E.
    - rewrite app_nil_r in E. subst a. cbn [decode_loop length]. rewrite nth_middle. cbn [Z.eqb].
      rewrite <- (Nat.add_0_r (length t)) at 1. by rewrite insert_app_r.
    - cbn [length]. cbn [decode_loop]. assert (nth (length a) (t ++ [0]) 0 = c) as -> by (rewrite E, <- app_assoc; apply nth_middle).
      rewrite (proj2 (Z.eqb_neq c 0)), (proj2 (Z.eqb_neq c 126)) by lia. specialize (IH (a ++ [c])). rewrite length_app, Nat.add_1_r in IH. apply IH.
      by rewrite <- app_assoc. }
  pose proof (Hd [] t Ht eq_refl) as E. change (length (@nil Z)) with O in E. rewrite E. clear Hd E. induction Ht as [|c t (H0 & _) _ IH]; [done|]. cbn [app before_nul].
  by rewrite (proj2 (Z.eqb_neq c 0)), IH by lia.
Qed.

(** ** Applying an edit *)

(** The edit is done, and nothing failed. *)
Definition does (cs : bool) (j : cJSON) (es : list edit) (j' : cJSON) : Prop := apply_each cs (Some j) (map (patch_of []) es) = Applied 0 (Some j').

Lemma does_nil cs j : does cs j [] j.
Proof. done. Qed.

Lemma does_cons cs j e es j1 j2 : apply_patch cs (Some j) (patch_of [] e) = Applied 0 (Some j1) -> does cs j1 es j2 -> does cs j (e :: es) j2.
Proof. intros E1 E2. unfold does. cbn [map apply_each]. by rewrite E1. Qed.

Lemma apply_each_app cs ps1 ps2 o' : forall o, apply_each cs o ps1 = Applied 0 o' -> apply_each cs o (ps1 ++ ps2) = apply_each cs o' ps2.
Proof.
  induction ps1 as [|p ps1 IH]; intros o E; cbn [app apply_each] in *; [by simplify_eq|]. destruct (apply_patch cs o p) as [s o1| |]; try done.
  destruct (s =? 0) eqn:Es; [by apply IH|]. breflect. by simplify_eq.
Qed.

Lemma does_app cs es1 es2 j j1 j2 : does cs j es1 j1 -> does cs j1 es2 j2 -> does cs j (es1 ++ es2) j2.
Proof. intros H1 H2. unfold does. rewrite map_app. by rewrite (apply_each_app _ _ _ _ _ H1). Qed.

Lemma patch_members_of cs e : get_member cs (patch_of [] e) "op" = Some (JString (e_op e)) /\
  get_member cs (patch_of [] e) "path" = Some (JString (text_of (e_path e))) /\ get_member cs (patch_of [] e) "value" = e_value e.
Proof. destruct e as [op q [v|]], cs; by repeat split. Qed.

Lemma apply_edit cs j e : bytes_ok (e_path e) ->
  apply_patch cs (Some j) (patch_of [] e) = apply_to cs j (patch_of [] e) (e_path e) (decode_patch_operation cs (patch_of [] e)).
Proof. intros Hb. unfold apply_patch. destruct (patch_members_of cs e) as (_ & -> & _). by rewrite bytes_of_text. Qed.

Ltac apply_one cs :=
  intros; rewrite apply_edit by done; unfold decode_patch_operation;
  match goal with |- context [patch_of [] ?e] =>
    let Hv := fresh in destruct (patch_members_of cs e) as (-> & _ & Hv);
    cbn [e_op e_path e_value String.eqb Ascii.eqb Bool.eqb] in *; unfold apply_to; rewrite ?Hv
  end.

Section apply_edits.
  Context (cs : bool) (j : cJSON).

Lemma apply_add q v : bytes_ok q -> q <> [] -> apply_patch cs (Some j) (patch_of [] (Edit "add" q (Some v))) = add_value cs j q v.
Proof. apply_one cs. by destruct q. Qed.

Lemma apply_remove q : bytes_ok q -> q <> [] -> apply_patch cs (Some j) (patch_of [] (Edit "remove" q None)) =
  match detach_path cs j q with (None, j) => Applied 13 (Some j) | (Some _, j) => Applied 0 (Some j) end.
Proof. apply_one cs. by destruct q. Qed.

Lemma apply_replace q v : bytes_ok q -> q <> [] -> apply_patch cs (Some j) (patch_of [] (Edit "replace" q (Some v))) =
  match detach_path cs j q with (None, j) => Applied 13 (Some j) | (Some _, j) => add_value cs j q v end.
Proof. apply_one cs. by destruct q. Qed.

Lemma apply_replace_root v : apply_patch cs (Some j) (patch_of [] (Edit "replace" [] (Some v))) = Applied 0 (Some v).
Proof. assert (bytes_ok []) by constructor. by apply_one cs. Qed.
End apply_edits.

(** *** An edit below a child changes the child *)

Lemma set_child_same i c j : child_at j i = Some c -> set_child i c j = j.
Proof.
  destruct j as [| | | |l|ms]; try done; cbn [child_at set_child]; intros E; [by rewrite list_insert_id|].
  apply fmap_Some in E as ([k v] & E & ->). rewrite E. cbn [fst snd]. by rewrite list_insert_id.
Qed.

Lemma child_set_child i c c' j : child_at j i = Some c -> child_at (set_child i c' j) i = Some c'.
Proof.
  destruct j as [| | | |l|ms]; try done; cbn [child_at set_child]; intros E.
  - apply list_lookup_insert_eq. by eapply lookup_lt_Some.
  - apply fmap_Some in E as (m & E & ->). rewrite E. cbn [child_at]. rewrite list_lookup_insert_eq by (by eapply lookup_lt_Some). done.
Qed.

Lemma set_set_child i c c1 c2 j : child_at j i = Some c -> set_child i c2 (set_child i c1 j) = set_child i c2 j.
Proof.
  destruct j as [| | | |l|ms]; try done; cbn [child_at set_child]; intros E; [by rewrite list_insert_insert_eq|].
  apply fmap_Some in E as (m & E & ->). rewrite E. cbn [set_child]. rewrite list_lookup_insert_eq by (by eapply lookup_lt_Some). cbn [fst].
  by rewrite list_insert_insert_eq.
Qed.

Lemma set_member_names {B : Type} (f : string -> B) i c m (ms : list (string * cJSON)) : ms !! i = Some m ->
  map (fun m => f m.1) (<[i := (m.1, c)]> ms) = map (fun m => f m.1) ms.
Proof.
  revert i. induction ms as [|n ms IH]; intros i E; [done|]. destruct i as [|i]; [by injection E as ->|]. cbn. f_equal. by apply IH.
Qed.

Lemma level_set_child cs i c j : level cs j -> level cs (set_child i c j).
Proof.
  destruct j as [| | | |l|ms]; try done; cbn [level set_child]; [by unfold zlen; rewrite length_insert|].
  intros [Hd Hc]. destruct (ms !! i) as [m|] eqn:E; [|done]. cbn [level]. rewrite (set_member_names (name_key cs)) by done. split; [done|].
  apply Forall_insert; [done|]. exact (Forall_lookup_1 _ _ _ _ Hc E).
Qed.

Lemma token_set_child i c j : token (set_child i c j) i = token j i.
Proof.
  destruct j as [| | | |l|ms]; try done; cbn [token set_child]. destruct (ms !! i) as [m|] eqn:E; cbn [token]; [|by rewrite E].
  rewrite list_lookup_insert_eq by (by eapply lookup_lt_Some). done.
Qed.

Section step.
  Context (cs : bool) (j c : cJSON) (i : nat) (Hl : level cs j) (Hc : child_at j i = Some c).

Lemma set_item_step a v : set_item j (i :: a) v = set_child i (set_item c a v) j.
Proof. cbn [set_item]. by rewrite Hc. Qed.
Lemma item_at_step a : item_at j (i :: a) = item_at c a.
Proof. cbn [item_at]. by rewrite Hc. Qed.

Lemma detach_below q t : ends_token q -> simple t ->
  detach_path cs j (47 :: token j i ++ q ++ 47 :: t) = let '(d, c') := detach_path cs c (q ++ 47 :: t) in (d, set_child i c' j).
Proof.
  intros Hq Ht. unfold detach_path. rewrite app_comm_cons, app_assoc, !split_last by done. cbn [app]. rewrite (get_item_step cs j i c) by done.
  destruct (get_item_from_pointer cs c q) as [a|]; cbn [fmap option_fmap option_map]; [|by rewrite set_child_same].
  rewrite item_at_step. destruct (item_at c a) as [[| | | |l|ms]|]; try by rewrite set_child_same.
  - destruct (decode_array_index_from_pointer _); [|by rewrite set_child_same]. destruct (detach_item_from_array _ _). by rewrite set_item_step.
  - destruct (detach_member _ _ _). by rewrite set_item_step.
Qed.

Lemma add_below q t v s c' : ends_token q -> simple t -> add_value cs c (q ++ 47 :: t) v = Applied s (Some c') ->
  add_value cs j (47 :: token j i ++ q ++ 47 :: t) v = Applied s (Some (set_child i c' j)).
Proof.
  intros Hq Ht. unfold add_value. rewrite app_comm_cons, app_assoc, !split_last by done. cbn [app]. rewrite (get_item_step cs j i c) by done.
  destruct (get_item_from_pointer cs c q) as [a|]; cbn [fmap option_fmap option_map]; [|intros [= <- <-]; by rewrite set_child_same].
  rewrite item_at_step. destruct (item_at c a) as [[| | | |l|ms]|]; try (intros [= <- <-]; by rewrite set_child_same).
  - case_bool_decide; [intros [= <- <-]; by rewrite set_item_step|].
    destruct (decode_array_index_from_pointer _); [|intros [= <- <-]; by rewrite set_child_same].
    destruct (insert_item_in_array _ _ _); intros [= <- <-]; [by rewrite set_item_step|by rewrite set_child_same].
  - intros [= <- <-]. by rewrite set_item_step.
Qed.
End step.

(** An edit that does not replace the whole. *)
Inductive inner : edit -> Prop :=
| InnerAdd q t v : ends_token q -> bytes_ok q -> simple t -> inner (Edit "add" (q ++ 47 :: t) (Some v))
| InnerRemove q t : ends_token q -> bytes_ok q -> simple t -> inner (Edit "remove" (q ++ 47 :: t) None)
| InnerReplace q t v : ends_token q -> bytes_ok q -> simple t -> inner (Edit "replace" (q ++ 47 :: t) (Some v)).

Lemma bytes_path q t : bytes_ok q -> simple t -> bytes_ok (q ++ 47 :: t).
Proof. intros Hq Ht. apply Forall_app. split; [done|]. constructor; [unfold byte_ok; lia|by apply simple_bytes]. Qed.

Lemma path_not_nil (q : list Z) c t : q ++ c :: t <> [].
Proof. by destruct q. Qed.

Lemma apply_below cs j i c e c' : level cs j -> child_at j i = Some c -> bytes_ok (token j i) -> inner e ->
  apply_patch cs (Some c) (patch_of [] e) = Applied 0 (Some c') ->
  apply_patch cs (Some j) (patch_of [] (below (47 :: token j i) e)) = Applied 0 (Some (set_child i c' j)).
Proof.
  intros Hl Hc Hb He. assert (forall q t, bytes_ok q -> simple t -> bytes_ok (47 :: token j i ++ q ++ 47 :: t)) as Hbp.
  { intros q t Hq Ht. constructor; [unfold byte_ok; lia|]. apply Forall_app. split; [done|by apply bytes_path]. }
  destruct He as [q t v Hq Hbq Ht|q t Hq Hbq Ht|q t v Hq Hbq Ht]; unfold below; cbn [e_op e_path e_value app];
    pose proof (bytes_path q t Hbq Ht); pose proof (path_not_nil q 47 t); specialize (Hbp q t Hbq Ht).
  - rewrite !apply_add by done. by apply add_below.
  - rewrite !apply_remove by done. rewrite (detach_below cs j c i) by done. destruct (detach_path cs c _) as [[d|] c1]; [|done]. by intros [= <-].
  - rewrite !apply_replace by done. rewrite (detach_below cs j c i) by done. destruct (detach_path cs c _) as [[d|] c1]; [|done].
    intros E. rewrite <- (token_set_child i c1 j). rewrite (add_below cs (set_child i c1 j) c1 i) with (s := 0) (c' := c'); try done.
    + by rewrite (set_set_child i c).
    + by apply level_set_child.
    + by apply (child_set_child i c).
Qed.

Lemma does_below cs es : Forall inner es -> forall j i c c', level cs j -> child_at j i = Some c -> bytes_ok (token j i) ->
  does cs c es c' -> does cs j (map (below (47 :: token j i)) es) (set_child i c' j).
Proof.
  induction 1 as [|e es He _ IH]; intros j i c c' Hl Hc Hb Hd.
  - injection Hd as <-. cbn [map]. by rewrite set_child_same.
  - unfold does in Hd. cbn [map apply_each] in Hd. destruct (apply_patch cs (Some c) (patch_of [] e)) as [s [c1|]| |] eqn:E; try done.
    + destruct (s =? 0) eqn:Es; breflect; [subst s|by simplify_eq]. cbn [map]. eapply does_cons; [by apply (apply_below cs j i c)|].
      rewrite <- (token_set_child i c1 j), <- (set_set_child i c c1 c' j) by done.
      apply (IH (set_child i c1 j) i c1 c'); [by apply level_set_child|by apply (child_set_child i c)|by rewrite token_set_child|done].
    + exfalso. clear - E He. destruct He as [q t v Hq Hbq Ht|q t Hq Hbq Ht|q t v Hq Hbq Ht]; pose proof (bytes_path q t Hbq Ht); pose proof (path_not_nil q 47 t).
      * rewrite apply_add in E by done. unfold add_value in E. repeat case_match; simplify_eq.
      * rewrite apply_remove in E by done. repeat case_match; simplify_eq.
      * rewrite apply_replace in E by done. unfold add_value in E. repeat case_match; simplify_eq.
Qed.

Lemma split_first t : simple t -> split_path (47 :: t) = Some ([], t).
Proof. apply (split_last []). Qed.

(** ** Edits of an object *)

(** [ms'] is [ms] with [r] for the member [k]. *)
Definition updated (ms : list (string * cJSON)) (k : string) (r : option cJSON) (ms' : list (string * cJSON)) : Prop :=
  plain_members ms' /\ forall k', find_member k' ms' = if String.eqb k' k then r else find_member k' ms.

(** A name that is its own token. *)
Definition token_name (k : string) : Prop := plain_name k /\ simple (bytes_of k).

Lemma detach_updated cs k ms : plain_name k -> plain_members ms -> updated ms k None (detach_member cs k ms).2.
Proof.
  intros Hk Hm. destruct (detach_plain cs k ms Hk Hm) as (_ & H2 & H3 & H4 & _). split; [done|]. intros k'.
  destruct (String.eqb_spec k' k) as [->|Hne]; [|by apply H4]. destruct (find_member k _) as [v|] eqn:E; [|done]. apply find_member_in in E. by destruct (H3 v).
Qed.

Lemma snoc_updated ms k w ms' : plain_name k -> updated ms k None ms' -> updated ms k (Some w) (ms' ++ [(k, w)]).
Proof.
  intros Hk [[Hd Hn] Hf]. assert (find_member k ms' = None) as Hnone by (by rewrite Hf, String.eqb_refl). split.
  - split; [|apply Forall_app; split; [done|by apply Forall_singleton]]. rewrite map_app. cbn [map fst].
    apply NoDup_app. split; [done|]. split; [|apply NoDup_singleton]. intros x Hx ->%list_elem_of_singleton. by apply find_member_none in Hnone.
  - intros k'. rewrite find_member_app, Hf. cbn [find_member]. destruct (String.eqb k' k); [done|]. by destruct (find_member k' ms).
Qed.

Lemma updated_trans ms k r1 ms1 r2 ms2 : updated ms k r1 ms1 -> updated ms1 k r2 ms2 -> updated ms k r2 ms2.
Proof. intros [_ H1] [H2 H3]. split; [done|]. intros k'. rewrite H3, H1. by destruct (String.eqb k' k). Qed.

Lemma insert_updated ms i k v r : plain_members ms -> ms !! i = Some (k, v) -> updated ms k (Some r) (<[i := (k, r)]> ms).
Proof.
  intros Hm E. pose proof (set_member_names (fun n => n) i r (k, v) ms E) as En. cbn [fst] in En. change (fun m : string * cJSON => m.1) with (@fst string cJSON) in En. split.
  - destruct Hm as [Hd Hn]. split; [by rewrite En|]. apply Forall_insert; [done|]. exact (Forall_lookup_1 _ _ _ _ Hn E).
  - destruct Hm as [Hd _]. clear En. revert i E. induction ms as [|[k1 v1] ms IH]; intros i E k'; [done|]. cbn [map fst] in Hd. apply NoDup_cons in Hd as [Hk Hd].
    destruct i as [|i]; cbn [insert list_insert find_member].
    + injection E as -> ->. by destruct (String.eqb k' k).
    + fold (<[i := (k, r)]> ms). rewrite (IH Hd i E). destruct (String.eqb_spec k' k1) as [->|]; [|done]. destruct (String.eqb_spec k1 k) as [->|]; [|done].
      destruct Hk. change (ms !! i = Some (k, v)) in E. apply list_elem_of_lookup_2 in E. by apply list_elem_of_In, (in_map fst ms (k, v)), list_elem_of_In.
Qed.

Section object_edits.
  Context (cs : bool) (ms : list (string * cJSON)) (k : string) (Hm : plain_members ms) (Hk : token_name k).

Lemma name_text : text_of (decode_pointer_inplace (bytes_of k)) = k.
Proof. rewrite decode_simple by apply Hk. apply text_of_bytes. Qed.

Lemma object_detach : detach_path cs (JObject ms) (47 :: bytes_of k) = let '(d, ms') := detach_member false k ms in (d, JObject ms').
Proof. unfold detach_path. rewrite split_first by apply Hk. cbn [get_item_from_pointer follow length at_ hd Z.eqb item_at set_item]. by rewrite name_text. Qed.

Lemma object_add_value w : exists ms', add_value cs (JObject ms) (47 :: bytes_of k) w = Applied 0 (Some (JObject ms')) /\ updated ms k (Some w) ms'.
Proof.
  eexists. unfold add_value. rewrite split_first by apply Hk. cbn [get_item_from_pointer follow length at_ hd Z.eqb item_at set_item]. rewrite name_text.
  split; [done|]. apply snoc_updated; [apply Hk|]. apply detach_updated; [apply Hk|done].
Qed.
End object_edits.

Lemma name_path k : token_name k -> bytes_ok (47 :: bytes_of k).
Proof. intros Hk. apply (bytes_path []); [constructor|apply Hk]. Qed.

Section object_patches.
  Context (cs : bool) (ms : list (string * cJSON)) (k : string) (Hm : plain_members ms) (Hk : token_name k).

Lemma object_add w : exists ms', does cs (JObject ms) [Edit "add" (47 :: bytes_of k) (Some w)] (JObject ms') /\ updated ms k (Some w) ms'.
Proof.
  destruct (object_add_value cs ms k Hm Hk w) as (ms' & E & Hu). exists ms'. split; [|done]. eapply does_cons; [|apply does_nil].
  rewrite apply_add; [done|by apply name_path|done].
Qed.

Lemma object_remove v : find_member k ms = Some v ->
  exists ms', does cs (JObject ms) [Edit "remove" (47 :: bytes_of k) None] (JObject ms') /\ updated ms k None ms'.
Proof.
  intros Hf. exists (detach_member false k ms).2. split; [|apply detach_updated; [apply Hk|done]]. eapply does_cons; [|apply does_nil].
  rewrite apply_remove by (by apply name_path || done). rewrite object_detach by done.
  destruct (detach_plain false k ms (proj1 Hk) Hm) as (H1 & _). destruct (detach_member false k ms) as [d ms']. cbn [fst] in H1. by rewrite H1, Hf.
Qed.

Lemma object_replace v w : find_member k ms = Some v ->
  exists ms', does cs (JObject ms) [Edit "replace" (47 :: bytes_of k) (Some w)] (JObject ms') /\ updated ms k (Some w) ms'.
Proof.
  intros Hf. destruct (detach_plain false k ms (proj1 Hk) Hm) as (H1 & H2 & _). pose proof (detach_updated false k ms (proj1 Hk) Hm) as Hu.
  destruct (object_add_value cs (detach_member false k ms).2 k H2 Hk w) as (ms' & E & Hu'). exists ms'. split; [|by eapply updated_trans].
  eapply does_cons; [|apply does_nil]. rewrite apply_replace by (by apply name_path || done). rewrite object_detach by done.
  destruct (detach_member false k ms) as [d ms1]. cbn [fst snd] in *. by rewrite H1, Hf.
Qed.
End object_patches.

(** ** Edits of an array *)

Lemma detach_element a v l : detach_item_from_array (a ++ v :: l) (zlen a) = (Some v, a ++ l).
Proof.
  induction a as [|x a IH]; [done|]. cbn [app detach_item_from_array]. rewrite zlen_cons, (proj2 (Z.ltb_lt 0 _)) by (pose proof (zlen_nonneg a); lia).
  replace (1 + zlen a - 1) with (zlen a) by lia. by rewrite IH.
Qed.

Lemma insert_element a v l : insert_item_in_array (a ++ l) (zlen a) v = Some (a ++ v :: l).
Proof.
  induction a as [|x a IH]; [by destruct l|]. cbn [app insert_item_in_array]. rewrite zlen_cons, (proj2 (Z.ltb_lt 0 _)) by (pose proof (zlen_nonneg a); lia).
  replace (1 + zlen a - 1) with (zlen a) by lia. by rewrite IH.
Qed.

Section array_edits.
  Context (cs : bool) (a : list cJSON) (Ha : zlen a < 2 ^ 64).

Definition index_path : list Z := 47 :: print_nat (Z.of_nat (length a)).

Lemma index_path_ok : bytes_ok index_path.
Proof. apply (bytes_path []); [constructor|apply simple_print]. Qed.

Lemma index_decode : decode_array_index_from_pointer (decode_pointer_inplace (print_nat (Z.of_nat (length a)))) = Some (zlen a).
Proof.
  rewrite decode_simple by apply simple_print. rewrite <- (app_nil_r (print_nat _)). apply decode_printed; [|by left]. unfold zlen in *. lia.
Qed.

Lemma array_detach v l : detach_path cs (JArray (a ++ v :: l)) index_path = (Some v, JArray (a ++ l)).
Proof.
  unfold detach_path, index_path. rewrite split_first by apply simple_print. cbn [get_item_from_pointer follow length at_ hd Z.eqb item_at set_item].
  by rewrite index_decode, detach_element.
Qed.

Lemma array_add_value v l : add_value cs (JArray (a ++ l)) index_path v = Applied 0 (Some (JArray (a ++ v :: l))).
Proof.
  unfold add_value, index_path. rewrite split_first by apply simple_print. cbn [get_item_from_pointer follow length at_ hd Z.eqb item_at set_item].
  rewrite index_decode, insert_element, bool_decide_false; [done|]. rewrite decode_simple by apply simple_print.
  destruct (print_nat_spec (Z.of_nat (length a))) as (Hd & _); [lia|]. intros E. rewrite E in Hd. by inversion Hd.
Qed.

Lemma array_remove v l : does cs (JArray (a ++ v :: l)) [Edit "remove" index_path None] (JArray (a ++ l)).
Proof. eapply does_cons; [|apply does_nil]. rewrite apply_remove by (apply index_path_ok || done). by rewrite array_detach. Qed.

Lemma array_replace v w l : does cs (JArray (a ++ v :: l)) [Edit "replace" index_path (Some w)] (JArray (a ++ w :: l)).
Proof. eapply does_cons; [|apply does_nil]. rewrite apply_replace by (apply index_path_ok || done). by rewrite array_detach, array_add_value. Qed.
End array_edits.

Lemma array_append cs l v : does cs (JArray l) [Edit "add" [47; 45] (Some v)] (JArray (l ++ [v])).
Proof.
  assert (simple [45]) as H45 by (constructor; [lia|constructor]). eapply does_cons; [|apply does_nil].
  rewrite apply_add; [|apply (bytes_path []); [constructor|done]|done]. unfold add_value. rewrite split_first by done. done.
Qed.

(** ** What the edits of a value lead to *)

Definition leads_to (cs : bool) (v w : cJSON) (es : list edit) : Prop :=
  es = [Edit "replace" [] (Some w)] \/ Forall inner es /\ exists r, does cs v es r /\ same close r w.

Lemma inner_below t e : simple t -> inner e -> inner (below (47 :: t) e).
Proof.
  intros Ht He. assert (forall q, ends_token ((47 :: t) ++ q)) as Hq by (intros q; right; by eexists).
  assert (forall q, bytes_ok q -> bytes_ok ((47 :: t) ++ q)) as Hb.
  { intros q Hb. apply Forall_app. split; [|done]. apply (bytes_path []); [constructor|done]. }
  destruct He; unfold below; cbn [e_op e_path e_value]; rewrite app_assoc; constructor; auto.
Qed.

Lemma leads_inner cs v w es t : simple t -> leads_to cs v w es -> Forall inner (map (below (47 :: t)) es).
Proof.
  intros Ht [->|[Hi _]].
  - constructor; [|constructor]. unfold below. cbn [e_op e_path e_value]. rewrite app_nil_r. apply (InnerReplace [] t); [by left|constructor|done].
  - apply List.Forall_map. eapply List.Forall_impl; [|exact Hi]. intros e. by apply inner_below.
Qed.

Lemma object_child cs ms k v w es : plain_members ms -> token_name k -> find_member k ms = Some v -> leads_to cs v w es ->
  exists ms' r, does cs (JObject ms) (map (below (47 :: bytes_of k)) es) (JObject ms') /\ same close r w /\ updated ms k (Some r) ms'.
Proof.
  intros Hm Hk Hf [->|[Hi (r & Hr & Hs)]].
  - destruct (object_replace cs ms k Hm Hk v w Hf) as (ms' & Hd & Hu). exists ms', w. cbn [map]. unfold below. cbn [e_op e_path e_value]. rewrite app_nil_r.
    split; [done|]. split; [apply like_refl|done].
  - pose proof (find_member_in _ _ _ Hf) as [i E]%list_elem_of_lookup_1. exists (<[i := (k, r)]> ms), r. split_and!; [|done|by apply (insert_updated ms i k v)].
    assert (token (JObject ms) i = bytes_of k) as Et by (cbn [token]; rewrite E; apply simple_encode, Hk).
    replace (JObject (<[i := (k, r)]> ms)) with (set_child i r (JObject ms)) by (cbn [set_child]; by rewrite E). rewrite <- Et.
    apply (does_below cs es Hi (JObject ms) i v r).
    + destruct Hm as [Hd Hn]. cbn [level]. split; [|eapply List.Forall_impl; [|exact Hn]; by intros m []].
      rewrite <- (map_map fst (name_key cs)). apply NoDup_fmap_2_strong; [|done]. intros x y Hx Hy Exy.
      assert (forall x, x ∈ map fst ms -> name_key cs x = bytes_of x) as Hkey.
      { intros z (m & -> & Hz)%list_elem_of_fmap. rewrite Forall_forall in Hn. destruct (Hn m Hz) as [_ Hlow]. unfold name_key. by destruct cs. }
      rewrite !Hkey in Exy by done. by apply bytes_of_inj.
    + cbn [child_at]. by rewrite E.
    + rewrite Et. apply bytes_of_ok.
    + done.
Qed.

Lemma array_child cs a v l w es : zlen (a ++ v :: l) <= 2 ^ 64 -> leads_to cs v w es ->
  exists r, does cs (JArray (a ++ v :: l)) (map (below (index_path a)) es) (JArray (a ++ r :: l)) /\ same close r w.
Proof.
  intros Hl [->|[Hi (r & Hr & Hs)]].
  - exists w. cbn [map]. unfold below. cbn [e_op e_path e_value]. rewrite app_nil_r. split; [|apply like_refl]. apply array_replace.
    rewrite zlen_app, zlen_cons in Hl. pose proof (zlen_nonneg l). lia.
  - exists r. split; [|done]. replace (JArray (a ++ r :: l)) with (set_child (length a) r (JArray (a ++ v :: l))).
    + apply (does_below cs es Hi (JArray (a ++ v :: l)) (length a) v r); [done|by apply list_lookup_middle|apply simple_bytes, simple_print|done].
    + cbn [set_child]. f_equal. rewrite <- (Nat.add_0_r (length a)) at 1. by rewrite insert_app_r.
Qed.

(** ** The patches that are made *)

(** Names are plain and hold no slash and no tilde; no object has a name
    twice; indices fit [size_t]. *)
Fixpoint portable (j : cJSON) : Prop :=
  match j with
  | JArray l => zlen l <= 2 ^ 64 /\ each portable l
  | JObject ms => NoDup (map fst ms) /\ each (fun m => token_name m.1 /\ portable m.2) ms
  | _ => True
  end.

(** What is made of [v] and [w]: the same edits below every path. *)
Definition makes_edits (cs ca : bool) (v : cJSON) : Prop := forall w, portable v -> portable w ->
  exists es v' w', (forall path, create_patches cs v path w = Some (map (patch_of path) es, v', w')) /\
    leads_to ca v w es /\ reorder v v' /\ reorder w w'.

Lemma makes_keep cs ca v w : same close v w -> (forall path, create_patches cs v path w = Some ([], v, w)) ->
  exists es v' w', (forall path, create_patches cs v path w = Some (map (patch_of path) es, v', w')) /\ leads_to ca v w es /\ reorder v v' /\ reorder w w'.
Proof. intros Hs Hc. exists [], v, w. split; [done|]. split; [|split; apply reorder_refl]. right. split; [constructor|]. exists v. by split. Qed.

Lemma makes_replace cs ca v w : (forall path, create_patches cs v path w = (p ← compose_patch "replace" path None (Some w); Some ([p], v, w))) ->
  exists es v' w', (forall path, create_patches cs v path w = Some (map (patch_of path) es, v', w')) /\ leads_to ca v w es /\ reorder v v' /\ reorder w w'.
Proof.
  intros Hc. exists [Edit "replace" [] (Some w)], v, w. split; [|split; [by left|split; apply reorder_refl]].
  intros path. by rewrite Hc, compose_whole.
Qed.

(** *** Arrays *)

Definition ventry (cs : bool) (v : cJSON) : cJSON * creator := (v, create_patches cs v).

Lemma ventry_fst cs l : map fst (map (ventry cs) l) = l.
Proof. induction l as [|v l IH]; [done|]. cbn [map]. by rewrite IH. Qed.

Lemma reorder_all l : Forall2 reorder l l.
Proof. induction l; constructor; [apply reorder_refl|done]. Qed.

Definition append_edit (w : cJSON) : edit := Edit "add" [47; 45] (Some w).

Lemma append_all ca m : forall l, does ca (JArray l) (map append_edit m) (JArray (l ++ m)).
Proof.
  induction m as [|w m IH]; intros l; [by rewrite app_nil_r|]. apply (does_app ca [append_edit w] _ _ (JArray (l ++ [w]))); [apply array_append|].
  specialize (IH (l ++ [w])). by rewrite <- app_assoc in IH.
Qed.

Lemma remove_all ca a l : zlen a < 2 ^ 64 -> does ca (JArray (a ++ l)) (map (fun _ => Edit "remove" (index_path a) None) l) (JArray a).
Proof.
  intros Ha. induction l as [|v l IH]; [by rewrite app_nil_r|].
  apply (does_app ca [Edit "remove" (index_path a) None] _ _ (JArray (a ++ l))); [by apply array_remove|done].
Qed.

Lemma mapM_some {A B C : Type} (f : A -> option B) (g : A -> C) (h : C -> B) l : (forall x, f x = Some (h (g x))) -> mapM f l = Some (map h (map g l)).
Proof. intros Hf. induction l as [|x l IH]; [done|]. cbn. by rewrite Hf, IH. Qed.

Lemma print_fits index (path : list Z) : Z.of_nat index < 2 ^ 64 -> zlen (print_nat (Z.of_nat index)) + 1 <= zlen path + 20 + 2.
Proof. intros Hi. pose proof (print_nat_length (Z.of_nat index) 20 ltac:(lia) ltac:(lia)). pose proof (zlen_nonneg path). lia. Qed.

(** The state of the array: [a] is done, [l] is still to do. *)
Definition elements_made (cs ca : bool) (index : nat) (l m : list cJSON) : Prop :=
  exists es l' m', (forall path, patch_elements path index (map (ventry cs) l) m = Some (map (patch_of path) es, l', m')) /\
    Forall inner es /\ Forall2 reorder l l' /\ Forall2 reorder m m' /\
    forall a, length a = index -> zlen (a ++ l) <= 2 ^ 64 -> exists rs, does ca (JArray (a ++ l)) es (JArray (a ++ rs)) /\ Forall2 (same close) rs m.

Lemma elements_append cs ca index m : elements_made cs ca index [] m.
Proof.
  exists (map append_edit m), [], m. split_and!; [|..].
  - intros path. cbn [map patch_elements]. rewrite (mapM_some _ append_edit (patch_of path)) by (intros w; apply (compose_suffix "add" path [45])). done.
  - apply List.Forall_map, List.Forall_forall. intros w _. apply (InnerAdd [] [45]); [by left|constructor|]. constructor; [lia|constructor].
  - constructor.
  - apply reorder_all.
  - intros a _ _. exists m. rewrite app_nil_r. split; [apply append_all|]. induction m; constructor; [apply like_refl|done].
Qed.

Lemma elements_remove cs ca index v l : Z.of_nat index < 2 ^ 64 -> elements_made cs ca index (v :: l) [].
Proof.
  intros Hi. exists (map (fun _ => Edit "remove" (47 :: print_nat (Z.of_nat index)) None) (v :: l)), (v :: l), []. split_and!; [|..].
  - intros path. change (map (ventry cs) (v :: l)) with ((v, create_patches cs v) :: map (ventry cs) l). cbn [patch_elements].
    change ((v, create_patches cs v) :: map (ventry cs) l) with (map (ventry cs) (v :: l)).
    rewrite (mapM_some _ (fun _ => Edit "remove" (47 :: print_nat (Z.of_nat index)) None) (patch_of path)).
    + obind. rewrite ventry_fst. do 3 f_equal. by rewrite !map_map.
    + intros _. rewrite put_fits by (by apply print_fits). obind. rewrite compose_suffix. by rewrite simple_encode by apply simple_print.
  - apply List.Forall_map, List.Forall_forall. intros w _. apply (InnerRemove []); [by left|constructor|apply simple_print].
  - apply reorder_all.
  - constructor.
  - intros a <- Hl. exists []. rewrite app_nil_r. split; [|constructor]. apply (remove_all ca a (v :: l)). unfold zlen. lia.
Qed.

Lemma elements_both cs ca index v l w m : makes_edits cs ca v -> portable v -> portable w -> Z.of_nat index < 2 ^ 64 ->
  elements_made cs ca (S index) l m -> elements_made cs ca index (v :: l) (w :: m).
Proof.
  intros Hv Hpv Hpw Hi (es & l' & m' & E & Hin & Hl & Hm & Hd). destruct (Hv w Hpv Hpw) as (es1 & v' & w' & E1 & Hlead & Hrv & Hrw).
  set (t := print_nat (Z.of_nat index)). exists (map (below (47 :: t)) es1 ++ es), (v' :: l'), (w' :: m'). split_and!; [|..].
  - intros path. cbn [map patch_elements ventry]. rewrite put_fits.
    + obind. rewrite E1. obind. rewrite E. obind. do 3 f_equal. rewrite map_app. f_equal. apply patch_of_below_all.
    + rewrite zlen_app, zlen_cons. pose proof (print_nat_length (Z.of_nat index) 20 ltac:(lia) ltac:(lia)). subst t. lia.
  - apply Forall_app. split; [by eapply leads_inner; [apply simple_print|]|done].
  - by constructor.
  - by constructor.
  - intros a Ha Hlen. destruct (array_child ca a v l w es1 Hlen Hlead) as (r & Hr & Hs). unfold index_path in Hr. rewrite Ha in Hr.
    destruct (Hd (a ++ [r])) as (rs & Hrs & Hsrs); [rewrite length_app; cbn; lia|by rewrite <- app_assoc; rewrite !zlen_app, !zlen_cons in *|].
    exists (r :: rs). split; [|by constructor]. rewrite <- !app_assoc in Hrs. by eapply does_app.
Qed.

Lemma elements_ok cs ca l : Forall (makes_edits cs ca) l -> Forall portable l -> forall index m, Forall portable m ->
  Z.of_nat index + zlen l <= 2 ^ 64 -> elements_made cs ca index l m.
Proof.
  induction 1 as [|v l Hv _ IH]; intros Hp index m Hm Hi; [apply elements_append|]. apply List.Forall_cons_iff in Hp as [Hpv Hp]. rewrite zlen_cons in Hi.
  pose proof (zlen_nonneg l). destruct m as [|w m]; [apply elements_remove; lia|]. apply List.Forall_cons_iff in Hm as [Hpw Hm].
  apply elements_both; [done|done|done|lia|]. apply IH; [done|done|lia].
Qed.

(** *** Objects *)

Definition mentry (cs : bool) (m : string * cJSON) : string * (cJSON * creator) := (m.1, (m.2, create_patches cs m.2)).

(** The member [k] of the result, by what it was in [from] and is in [to]. *)
Definition member_done (k : string) (from to ms ms' : list (string * cJSON)) : Prop :=
  match find_member k from, find_member k to with
  | _, Some w => exists r, find_member k ms' = Some r /\ same close r w
  | Some _, None => find_member k ms' = None
  | None, None => find_member k ms' = find_member k ms
  end.

Definition members_made (cs ca : bool) (n : nat) (from to : list (string * cJSON)) : Prop :=
  exists es f' t', (forall path, patch_object cs n path (map (mentry cs) from) to = Some (map (patch_of path) es, f', t')) /\
    Forall inner es /\ pairwise (fun _ _ => False) from f' /\ pairwise (fun _ _ => False) to t' /\
    forall ms, plain_members ms -> (forall k v, find_member k from = Some v -> find_member k ms = Some v) ->
      exists ms', does ca (JObject ms) es (JObject ms') /\ plain_members ms' /\ forall k, member_done k from to ms ms'.

Lemma inner_member op k v : token_name k -> (op, v) = ("remove", None) \/ (exists w, (op, v) = ("add", Some w)) -> inner (Edit op (47 :: bytes_of k) v).
Proof.
  intros Hk [[= -> ->]|(w & [= -> ->])].
  - apply (InnerRemove [] (bytes_of k)); [by left|constructor|apply Hk].
  - apply (InnerAdd [] (bytes_of k)); [by left|constructor|apply Hk].
Qed.

(** After the edits [es1] of the member [k], which neither rest mentions any more. *)
Lemma members_step ca k from to from' to' es1 es :
  find_member k from' = None -> find_member k to' = None ->
  (forall k', k' <> k -> find_member k' from = find_member k' from' /\ find_member k' to = find_member k' to') ->
  (forall ms, plain_members ms -> (forall v, find_member k from = Some v -> find_member k ms = Some v) ->
    exists ms1 r, does ca (JObject ms) es1 (JObject ms1) /\ updated ms k r ms1 /\
      match find_member k to with Some w => exists x, r = Some x /\ same close x w | None => r = None end) ->
  is_Some (find_member k from) \/ is_Some (find_member k to) ->
  (forall ms, plain_members ms -> (forall k v, find_member k from' = Some v -> find_member k ms = Some v) ->
    exists ms', does ca (JObject ms) es (JObject ms') /\ plain_members ms' /\ forall k, member_done k from' to' ms ms') ->
  forall ms, plain_members ms -> (forall k v, find_member k from = Some v -> find_member k ms = Some v) ->
    exists ms', does ca (JObject ms) (es1 ++ es) (JObject ms') /\ plain_members ms' /\ forall k, member_done k from to ms ms'.
Proof.
  intros Hf Ht Ho H1 Hsome H2 ms Hm Hinc. destruct (H1 ms Hm (Hinc k)) as (ms1 & r & Hd1 & [Hp1 Hu] & Hr).
  destruct (H2 ms1 Hp1) as (ms2 & Hd2 & Hp2 & Hall).
  { intros k' v' E. rewrite Hu. destruct (String.eqb_spec k' k) as [->|Hne]; [congruence|]. apply Hinc. by rewrite (proj1 (Ho k' Hne)). }
  exists ms2. split; [by eapply does_app|]. split; [done|]. intros k'. specialize (Hall k'). unfold member_done in *.
  destruct (String.eqb_spec k' k) as [->|Hne].
  - rewrite Hf, Ht, Hu, String.eqb_refl in Hall. rewrite Hall. destruct (find_member k to) as [w|] eqn:Ew; [by destruct (find_member k from)|].
    destruct (find_member k from); [done|]. by destruct Hsome as [[? ?]|[? ?]].
  - destruct (Ho k' Hne) as [-> ->]. rewrite Hu, (proj2 (String.eqb_neq k' k)) in Hall by done. done.
Qed.

Lemma pairwise_member R k v w a b : same R v w -> pairwise R a b -> pairwise R ((k, v) :: a) ((k, w) :: b).
Proof. by constructor. Qed.

Lemma members_remove cs ca n k v from to : token_name k -> above k from -> above k to ->
  (forall path, patch_object cs (S n) path (map (mentry cs) ((k, v) :: from)) to =
    (p ← compose_patch "remove" path (Some (bytes_of k)) None;
     '(ps, f, t) ← patch_object cs n path (map (mentry cs) from) to; Some (p :: ps, (k, v) :: f, t))) ->
  members_made cs ca n from to -> members_made cs ca (S n) ((k, v) :: from) to.
Proof.
  intros Hk Haf Hat Heq (es & f' & t' & E & Hin & Hf & Ht & Hd). set (e := Edit "remove" (47 :: bytes_of k) None).
  exists (e :: es), ((k, v) :: f'), t'. split_and!; [|..].
  - intros path. rewrite Heq, compose_suffix, simple_encode by apply Hk. obind. by rewrite E.
  - constructor; [|done]. apply inner_member; [done|by left].
  - by apply pairwise_member; [apply like_refl|].
  - done.
  - apply (members_step ca k _ _ from to [e] es); [by apply above_find|by apply above_find| | |by left; rewrite find_same|done].
    + intros k' Hne. by rewrite find_other.
    + intros ms Hm Hinc. specialize (Hinc v (find_same k v from)). destruct (object_remove ca ms k Hm Hk v Hinc) as (ms1 & Hd1 & Hu).
      exists ms1, None. by rewrite (above_find k to Hat).
Qed.

Lemma members_add cs ca n k w from to : token_name k -> above k from -> above k to ->
  (forall path, patch_object cs (S n) path (map (mentry cs) from) ((k, w) :: to) =
    (p ← compose_patch "add" path (Some (bytes_of k)) (Some w);
     '(ps, f, t) ← patch_object cs n path (map (mentry cs) from) to; Some (p :: ps, f, (k, w) :: t))) ->
  members_made cs ca n from to -> members_made cs ca (S n) from ((k, w) :: to).
Proof.
  intros Hk Haf Hat Heq (es & f' & t' & E & Hin & Hf & Ht & Hd). set (e := Edit "add" (47 :: bytes_of k) (Some w)).
  exists (e :: es), f', ((k, w) :: t'). split_and!; [|..].
  - intros path. rewrite Heq, compose_suffix, simple_encode by apply Hk. obind. by rewrite E.
  - constructor; [|done]. apply inner_member; [done|right; by eexists].
  - done.
  - by apply pairwise_member; [apply like_refl|].
  - apply (members_step ca k _ _ from to [e] es); [by apply above_find|by apply above_find| | |by right; rewrite find_same|done].
    + intros k' Hne. by rewrite (find_other k w).
    + intros ms Hm _. destruct (object_add ca ms k Hm Hk w) as (ms1 & Hd1 & Hu). exists ms1, (Some w). rewrite find_same.
      split; [done|]. split; [done|]. exists w. split; [done|apply like_refl].
Qed.

Lemma members_both cs ca n k v w from to : token_name k -> above k from -> above k to -> makes_edits cs ca v -> portable v -> portable w ->
  members_made cs ca n from to -> members_made cs ca (S n) ((k, v) :: from) ((k, w) :: to).
Proof.
  intros Hk Haf Hat Hv Hpv Hpw (es & f' & t' & E & Hin & Hf & Ht & Hd). destruct (Hv w Hpv Hpw) as (es1 & v' & w' & E1 & Hlead & Hrv & Hrw).
  exists (map (below (47 :: bytes_of k)) es1 ++ es), ((k, v') :: f'), ((k, w') :: t'). split_and!; [|..].
  - intros path. cbn [map mentry patch_object fst snd]. rewrite cmp_plain_eq, String.eqb_refl by apply Hk. rewrite put_fits.
    + obind. rewrite E1. obind. rewrite E. obind. do 3 f_equal. rewrite map_app, simple_encode by apply Hk. f_equal. apply patch_of_below_all.
    + rewrite zlen_app, zlen_cons, encoded_length. lia.
  - apply Forall_app. split; [|done]. by eapply leads_inner; [apply Hk|].
  - by apply pairwise_member.
  - by apply pairwise_member.
  - apply (members_step ca k _ _ from to _ es); [by apply above_find|by apply above_find| | |by left; rewrite find_same|done].
    + intros k' Hne. by rewrite !find_other.
    + intros ms Hm Hinc. specialize (Hinc v (find_same k v from)). destruct (object_child ca ms k v w es1 Hm Hk Hinc Hlead) as (ms1 & r & Hd1 & Hs & Hu).
      exists ms1, (Some r). rewrite find_same. split; [done|]. split; [done|]. by exists r.
Qed.

Lemma members_ok cs ca n : forall from to, (length from + length to <= n)%nat -> increasing from -> increasing to ->
  Forall (fun m => token_name m.1 /\ portable m.2) from -> Forall (fun m => token_name m.1 /\ portable m.2) to ->
  Forall (fun m => makes_edits cs ca m.2) from -> members_made cs ca n from to.
Proof.
  induction n as [|n IH]; intros from to Hlen Hf Ht Hnf Hnt Hv.
  { destruct from, to; cbn in Hlen; try lia. exists [], [], []. split_and!; try done; try by constructor. intros ms Hm _. by exists ms. }
  assert (Hplain : forall ms : list (string * cJSON), Forall (fun m => token_name m.1 /\ portable m.2) ms -> Forall (fun m => plain_name m.1) ms).
  { intros ms Hms. eapply List.Forall_impl; [|exact Hms]. by intros m [[? _] _]. }
  destruct from as [|[k v] from]; destruct to as [|[k' w] to].
  - exists [], [], []. split_and!; try done; try by constructor. intros ms Hm _. by exists ms.
  - apply StronglySorted_inv in Ht as [Ht Hat]. apply List.Forall_cons_iff in Hnt as [[Hk' _] Hnt].
    apply members_add; [done|constructor|done|done|]. apply IH; try done. cbn in *. lia.
  - apply StronglySorted_inv in Hf as [Hf Haf]. apply List.Forall_cons_iff in Hnf as [[Hk _] Hnf]. apply List.Forall_cons_iff in Hv as [_ Hv].
    apply members_remove; [done|done|constructor|done|]. apply IH; try done. cbn in *. lia.
  - pose proof (StronglySorted_inv Hf) as [Hf' Haf]. pose proof (StronglySorted_inv Ht) as [Ht' Hat].
    pose proof Hnf as Hnf0. pose proof Hnt as Hnt0. apply List.Forall_cons_iff in Hnf0 as [[Hk Hpv] Hnf']. apply List.Forall_cons_iff in Hnt0 as [[Hk' Hpw] Hnt'].
    apply List.Forall_cons_iff in Hv as [Hv1 Hv]. cbn [fst snd length] in *.
    pose proof (cmp_plain cs k k' (proj1 Hk) (proj1 Hk')) as Hcmp.
    destruct (Z.eqb_spec (strcmp (bytes_of k) (bytes_of k')) 0) as [E0|Hne].
    { assert (k' = k) as -> by (symmetry; apply bytes_of_inj, strcmp_eq; [apply Hk|apply Hk'|lia]). apply members_both; try done. apply IH; try done. lia. }
    destruct (Z.ltb_spec (strcmp (bytes_of k) (bytes_of k')) 0) as [Hlt|Hge].
    + apply members_remove; [done|done|by apply above_cons; [apply Hk|apply Hk'|apply Hplain|..]| |].
      * intros path. cbn [map mentry patch_object fst snd]. by rewrite Hcmp, (proj2 (Z.eqb_neq _ 0)), (proj2 (Z.ltb_lt _ 0)).
      * apply IH; try done. cbn. lia.
    + apply members_add; [done| |done| |].
      * apply above_cons; [apply Hk'|apply Hk|by apply Hplain| |done]. rewrite strcmp_antisym. lia.
      * intros path. cbn [map mentry patch_object fst snd]. by rewrite Hcmp, (proj2 (Z.eqb_neq _ 0)), (proj2 (Z.ltb_ge _ 0)).
      * apply IH; try done; [cbn; lia|by constructor].
Qed.

Lemma portable_object ms : portable (JObject ms) -> plain_members ms /\ Forall (fun m => token_name m.1 /\ portable m.2) ms.
Proof.
  cbn [portable]. rewrite each_forall. intros [Hd He]. split; [split; [done|]|done]. eapply List.Forall_impl; [|exact He]. by intros m [[? _] _].
Qed.

Lemma edits_array cs ca l : Forall (makes_edits cs ca) l -> makes_edits cs ca (JArray l).
Proof.
  intros Hl w Hv Hw. destruct w as [| | | |m|]; try (by apply makes_replace). cbn [portable] in *. rewrite each_forall in Hv, Hw.
  destruct (elements_ok cs ca l Hl (proj2 Hv) 0 m (proj2 Hw)) as (es & l' & m' & E & Hin & Hrl & Hrm & Hd); [lia|].
  exists es, (JArray l'), (JArray m'). split_and!.
  - intros path. cbn [create_patches]. change (fun v => (v, create_patches cs v)) with (ventry cs). by rewrite E.
  - right. split; [done|]. destruct (Hd [] eq_refl (proj1 Hv)) as (rs & Hrs & Hs). exists (JArray rs). split; [done|by constructor].
  - by constructor.
  - by constructor.
Qed.

Lemma sort_mentry cs ms : sort_members cs (map (mentry cs) ms) = map (mentry cs) (sort_members cs ms).
Proof. unfold sort_members. rewrite length_map. by apply msort_map. Qed.

Lemma edits_object cs ca ms : Forall (fun m => makes_edits cs ca m.2) ms -> makes_edits cs ca (JObject ms).
Proof.
  intros Hl w Hv Hw. destruct w as [| | | | |ts]; try (by apply makes_replace).
  apply portable_object in Hv as [Hpm Hvm]. apply portable_object in Hw as [Hpt Hvt].
  pose proof (sort_members_perm cs ms) as Pm. pose proof (sort_members_perm cs ts) as Pt.
  destruct (members_ok cs ca (length (map (mentry cs) (sort_members cs ms)) + length (sort_members cs ts)) (sort_members cs ms) (sort_members cs ts))
    as (es & f' & t' & E & Hin & Hrf & Hrt & Hd);
    [rewrite length_map; lia|by apply sort_members_increasing|by apply sort_members_increasing|by rewrite Pm|by rewrite Pt|by rewrite Pm|].
  assert (Hsorted : forall fs, plain_members fs -> forall f', pairwise (fun _ _ => False) (sort_members cs fs) f' -> reorder (JObject fs) (JObject f')).
  { intros fs Hfs g Hg. pose proof (sort_members_perm cs fs) as Pf. pose proof (plain_members_perm _ _ (symmetry Pf) Hfs) as Hfs'.
    apply (same_object _ fs g (sort_members cs fs) g); try done. destruct Hfs' as [Hd' Hn'].
    split; [by rewrite <- (pairwise_names _ _ _ Hg)|]. clear -Hn' Hg. induction Hg as [|m1 m2 a b [Hk _] _ IH]; [constructor|].
    apply List.Forall_cons_iff in Hn' as [H1 H2]. constructor; [by rewrite <- Hk|by apply IH]. }
  exists es, (JObject f'), (JObject t'). split_and!; [|..|by apply Hsorted|by apply Hsorted].
  - intros path. cbn [create_patches]. change (fun kv : string * cJSON => (kv.1, (kv.2, create_patches cs kv.2))) with (mentry cs).
    rewrite sort_mentry. by rewrite E.
  - right. split; [done|]. destruct (Hd ms Hpm) as (ms' & Hdo & Hp' & Hall).
    { intros k v. by rewrite (find_member_perm k ms _ (proj1 Hpm) (symmetry Pm)). }
    exists (JObject ms'). split; [done|].
    assert (Hk : forall k, match find_member k ts with Some w => exists r, find_member k ms' = Some r /\ same close r w | None => find_member k ms' = None end).
    { intros k. specialize (Hall k). unfold member_done in Hall. rewrite (find_member_perm k ms _ (proj1 Hpm) (symmetry Pm)) in Hall.
      rewrite (find_member_perm k ts _ (proj1 Hpt) (symmetry Pt)) in Hall. by destruct (find_member k ms), (find_member k ts). }
    constructor; intros k v Ek; specialize (Hk k).
    + destruct (find_member k ts) as [w|]; [|congruence]. destruct Hk as (r & Er & Hs). exists w. split; [done|]. congruence.
    + by rewrite Ek in Hk.
Qed.

Lemma makes_edits_ok cs ca v : makes_edits cs ca v.
Proof.
  induction v as [|b0|x0|s0|l IH|ms IH] using cjson_tree_ind.
  - intros w _ _. destruct w; try (by apply makes_replace). by apply makes_keep; [constructor|].
  - intros w _ _. destruct w as [|b1| | | |]; try (by apply makes_replace). destruct (Bool.eqb b0 b1) eqn:E.
    + apply eqb_prop in E as ->. apply makes_keep; [constructor|]. intros path. cbn [create_patches]. by rewrite eqb_reflx.
    + apply makes_replace. intros path. cbn [create_patches]. by rewrite E.
  - intros w _ _. destruct w as [| |x1| | |]; try (by apply makes_replace).
    destruct (negb (saturate x0 =? saturate x1) || negb (compare_double x0 x1)) eqn:E.
    + apply makes_replace. intros path. cbn [create_patches]. by rewrite E.
    + apply makes_keep; [|intros path; cbn [create_patches]; by rewrite E]. constructor. right. unfold close.
      apply orb_false_iff in E as [E1%negb_false_iff E2%negb_false_iff]. by rewrite E1, E2.
  - intros w _ _. destruct w as [| | |s1| |]; try (by apply makes_replace). destruct (String.eqb s0 s1) eqn:E.
    + apply makes_keep; [apply String.eqb_eq in E as ->; constructor|]. intros path. cbn [create_patches]. by rewrite E.
    + apply makes_replace. intros path. cbn [create_patches]. by rewrite E.
  - by apply edits_array.
  - by apply edits_object.
Qed.

(** ** Theorems *)

(** C39: patches lead from the one document to the other.  For all documents
    in which no object has a name twice, names have neither upper-case letters
    nor slashes and tildes, and indices fit [size_t],
    [cJSONUtils_GeneratePatches] stays inside its buffers and only reorders
    the members of the two documents; and applying the patches it makes to a
    document equal to the first succeeds with status 0 and gives the second,
    up to the order of members and to numbers that it takes for equal.  Making
    and applying may differ in whether they heed case. *)
Theorem json_patch_roundtrip (case_sensitive case_sensitive' : bool) (from to : cJSON) : portable from -> portable to ->
  exists patches from' to' r, generate_patches case_sensitive from to = Some (patches, from', to') /\ reorder from from' /\ reorder to to' /\
    apply_patches case_sensitive' (Some from) patches = Applied 0 (Some r) /\ same close r to.
Proof.
  intros Hf Ht. destruct (makes_edits_ok case_sensitive case_sensitive' from to Hf Ht) as (es & f' & t' & E & Hlead & Hrf & Hrt).
  assert (exists r, does case_sensitive' from es r /\ same close r to) as (r & Hd & Hs).
  { destruct Hlead as [->|[_ Hr]]; [|done]. exists to. split; [|apply like_refl]. eapply does_cons; [apply apply_replace_root|apply does_nil]. }
  exists (JArray (map (patch_of []) es)), f', t', r. split; [|done]. unfold generate_patches. by rewrite E.
Qed.

(** *** Witnesses and examples *)

Definition demo_from : cJSON := JObject [("b", JArray [JBool true; JNull]); ("a", JString "x")].
Definition demo_to : cJSON := JObject [("c", JNull); ("b", JArray [JBool false])].

Lemma portable_demo : portable demo_from /\ portable demo_to.
Proof.
  assert (forall k, token_name k <-> forallb (fun c => (0 <? c) && (c <? 256) && negb (c =? 47) && negb (c =? 126)) (bytes_of k) = true /\
    map tolower (bytes_of k) = bytes_of k) as Hk.
  { intros k. unfold token_name, plain_name, simple, c_chars. rewrite forallb_forall, !List.Forall_forall.
    setoid_rewrite andb_true_iff. setoid_rewrite andb_true_iff. setoid_rewrite andb_true_iff. setoid_rewrite negb_true_iff.
    setoid_rewrite Z.ltb_lt. setoid_rewrite Z.eqb_neq. firstorder. }
  cbn [portable demo_from demo_to each map fst snd]. rewrite !Hk. repeat split; try reflexivity; try done;
    apply (bool_decide_unpack _); vm_compute; done.
Qed.

Lemma json_patch_roundtrip_witness :
  exists patches from' to' r, generate_patches true demo_from demo_to = Some (patches, from', to') /\
    patches = JArray [
      JObject [("op", JString "remove"); ("path", JString "/a")];
      JObject [("op", JString "replace"); ("path", JString "/b/0"); ("value", JBool false)];
      JObject [("op", JString "remove"); ("path", JString "/b/1")];
      JObject [("op", JString "add"); ("path", JString "/c"); ("value", JNull)]] /\
    apply_patches false (Some demo_from) patches = Applied 0 (Some r) /\ same close r demo_to.
Proof.
  destruct (json_patch_roundtrip true false demo_from demo_to) as (ps & f & t & r & E & _ & _ & Ha & Hs); [apply portable_demo..|].
  exists ps, f, t, r. split; [done|]. split; [|done]. vm_compute in E. by injection E as <- _ _.
Defined.

(** [decode_pointer_inplace] neither copies the characters after an escape
    sequence nor puts the slash in its place. *)
Example decode_escapes : decode_pointer_inplace (bytes_of "a~0b") = bytes_of "a~0" /\ decode_pointer_inplace (bytes_of "a~1b") = bytes_of "a~/".
Proof. by split. Qed.

(** So the patch that removes such a member is made, and fails. *)
Example slash_patch_fails :
  exists ps f t, generate_patches true (JObject [("a/b", JNull)]) (JObject []) = Some (ps, f, t) /\
    apply_patches true (Some (JObject [("a/b", JNull)])) ps = Applied 13 (Some (JObject [("a/b", JNull)])).
Proof. eexists _, _, _. by split. Qed.

Definition demo_patch (op path : string) (rest : list (string * cJSON)) : cJSON := JArray [JObject ([("op", JString op); ("path", JString path)] ++ rest)].

(** [detach_path] ignores case also when it was asked to heed it. *)
Example remove_wrong_case : apply_patches true (Some (JObject [("A", JBool true); ("a", JNull)])) (demo_patch "remove" "/a" []) = Applied 0 (Some (JObject [("a", JNull)])).
Proof. reflexivity. Qed.

(** A replacement without a value has removed the member when it fails. *)
Example replace_not_atomic : apply_patches true (Some (JObject [("a", JNull)])) (demo_patch "replace" "/a" []) = Applied 7 (Some (JObject [])).
Proof. reflexivity. Qed.

(** A move whose source is not a string copies the string behind [NULL]. *)
Example move_crashes : apply_patches true (Some (JObject [])) (demo_patch "move" "/a" [("from", JNull)]) = Crash.
Proof. reflexivity. Qed.
