(* ===== verification/Config.v ===== *)
(** * The configuration file (config.c, config.h)

    The structs of the configuration, the parsers that fill them in from the
    JSON tree, and the functions that free them.  The structs are
    parametrised by what a [char *] is: a pointer that owns its block in the
    model of the parsers, a string in the configurations the theorems speak
    of.  A union is an inductive type; its [Zero] constructor is the memory
    [calloc] returned. *)

From stdpp Require Import prelude list strings pretty gmultiset.
From S2P Require Import Prelude RateLimit CJson JsonParse.

Definition UINT32_MAX : Z := 4294967295.
Definition SIZE_MAX : Z := 18446744073709551615.
Definition DEFAULT_SNAPLEN : Z := 2048.
Definition MAX_SNAPLEN : Z := 262144.
Definition MAX_LIBPCAP_BUFFER_SIZE_MB : Z := INT_MAX / 1024 / 1024.
Definition IP_PMTUDISC_DONT : Z := 0.
Definition IP_PMTUDISC_WANT : Z := 1.
Definition IP_PMTUDISC_DO : Z := 2.
Definition LOG_DEBUG : Z := 1.
Definition LOG_INFO : Z := 2.
Definition LOG_WARN : Z := 3.
Definition LOG_ERROR : Z := 4.
Definition EXECUTION_MODEL_RTC : Z := 0.
Definition EXECUTION_MODEL_PIPELINE : Z := 1.

(** ** Structs *)

Record SplitConfig := Split { max_payload_size : Z; recalculate_checksum : bool }.

Section structs.
  Context {P : Type}.

Record vxlan_cfg := VxlanCfg {
  vx_host : P; vx_port : Z; vx_capture_time : bool; vx_vni_version : Z; vx_vni : Z;
  vx_bind_device : P; vx_pmtudisc : Z; vx_split : SplitConfig;
}.

Record gre_cfg := GreCfg { gre_host : P; gre_service_tag : Z; gre_bind_device : P; gre_pmtudisc : Z }.

Record zmq_cfg := ZmqCfg {
  zmq_host : P; zmq_port : Z; zmq_hwm : Z; zmq_service_tag : Z; zmq_uuid : P; zmq_heartbeat_ms : Z;
}.

Record rotating_cfg := RotatingCfg { rot_file_root : P; rot_max_file_interval : Z }.

Inductive output_union :=
| OutZero | OutVxlan (c : vxlan_cfg) | OutGre (c : gre_cfg) | OutZmq (c : zmq_cfg)
| OutFile (name : P) | OutRotating (c : rotating_cfg).

Record OutputConfig := Output { o_type : P; rate_limit_mbps : Z; slice : Z; o_config : output_union }.

Record libpcap_cfg := LibpcapCfg {
  lp_interface : P; lp_snaplen : Z; lp_netns : P; lp_bpf_filter : P; lp_buffer_size_mb : Z;
  lp_timeout_ms : Z; lp_not_filter_output_hosts : bool;
}.

Record pcap_file_cfg := PcapFileCfg { pf_file_name : P; pf_bpf_filter : P }.

Record dpdk_cfg := DpdkCfg { dp_interface : P; dp_snaplen : Z; dp_bpf_filter : P; dp_ring_size : Z }.

Inductive capturer_union :=
| CapZero | CapLibpcap (c : libpcap_cfg) | CapPcapFile (c : pcap_file_cfg) | CapDpdk (c : dpdk_cfg).

Record CapturerConfig := Capturer { c_type : P; c_config : capturer_union }.

Record ReqPatternConfig := ReqPattern { rp_type : P; rp_pattern : P }.

Record ControlConfig := Control { ctl_type : P; ctl_path : P }.

End structs.
Arguments vxlan_cfg : clear implicits.
Arguments gre_cfg : clear implicits.
Arguments zmq_cfg : clear implicits.
Arguments rotating_cfg : clear implicits.
Arguments output_union : clear implicits.
Arguments OutputConfig : clear implicits.
Arguments libpcap_cfg : clear implicits.
Arguments pcap_file_cfg : clear implicits.
Arguments dpdk_cfg : clear implicits.
Arguments capturer_union : clear implicits.
Arguments CapturerConfig : clear implicits.
Arguments ReqPatternConfig : clear implicits.
Arguments ControlConfig : clear implicits.

(** [NULL] or a string that owns its block. *)
Abbreviation char_ptr := (option cstr).

(** An array [calloc] made for [arr_cap] pointers. *)
Record array := Array { arr_blk : nat; arr_cap : Z }.

(** The first [num_outputs] entries of [outputs] are [t_output_list], each a
    struct in a block of its own; the same for the tasks. *)
Record TaskConfig := Task {
  t_fingerprint : char_ptr; t_req_pattern : ReqPatternConfig char_ptr; t_capturer : CapturerConfig char_ptr;
  t_outputs : option array; t_output_list : list (nat * OutputConfig char_ptr);
}.

Record TasksAllConfig := TasksAll { ts_tasks : option array; ts_task_list : list (nat * TaskConfig) }.

Record Config := Cfg {
  log_level : Z; cpu_affinity : char_ptr; execution_model : Z; pipeline_buffer_size_mb : Z;
  control : option (nat * ControlConfig char_ptr); tasks_cfg : option (nat * TasksAllConfig);
}.

(** *** What [calloc] returns *)

Definition zero_split : SplitConfig := Split 0 false.
Definition zero_vxlan : vxlan_cfg char_ptr := VxlanCfg None 0 false 0 0 None 0 zero_split.
Definition zero_gre : gre_cfg char_ptr := GreCfg None 0 None 0.
Definition zero_zmq : zmq_cfg char_ptr := ZmqCfg None 0 0 0 None 0.
Definition zero_rotating : rotating_cfg char_ptr := RotatingCfg None 0.
Definition zero_output : OutputConfig char_ptr := Output None 0 0 OutZero.
Definition zero_libpcap : libpcap_cfg char_ptr := LibpcapCfg None 0 None None 0 0 false.
Definition zero_pcap_file : pcap_file_cfg char_ptr := PcapFileCfg None None.
Definition zero_dpdk : dpdk_cfg char_ptr := DpdkCfg None 0 None 0.
Definition zero_task : TaskConfig := Task None (ReqPattern None None) (Capturer None CapZero) None [].
Definition zero_control : ControlConfig char_ptr := Control None None.
Definition zero_config : Config := Cfg 0 None 0 0 None None.

(** *** The members of the unions *)

Definition vxlan_of (o : OutputConfig char_ptr) : vxlan_cfg char_ptr :=
  match o_config o with OutVxlan c => c | _ => zero_vxlan end.
Definition gre_of (o : OutputConfig char_ptr) : gre_cfg char_ptr :=
  match o_config o with OutGre c => c | _ => zero_gre end.
Definition zmq_of (o : OutputConfig char_ptr) : zmq_cfg char_ptr :=
  match o_config o with OutZmq c => c | _ => zero_zmq end.
Definition file_of (o : OutputConfig char_ptr) : char_ptr := match o_config o with OutFile p => p | _ => None end.
Definition rotating_of (o : OutputConfig char_ptr) : rotating_cfg char_ptr :=
  match o_config o with OutRotating c => c | _ => zero_rotating end.
Definition libpcap_of (c : CapturerConfig char_ptr) : libpcap_cfg char_ptr :=
  match c_config c with CapLibpcap x => x | _ => zero_libpcap end.
Definition pcap_file_of (c : CapturerConfig char_ptr) : pcap_file_cfg char_ptr :=
  match c_config c with CapPcapFile x => x | _ => zero_pcap_file end.
Definition dpdk_of (c : CapturerConfig char_ptr) : dpdk_cfg char_ptr :=
  match c_config c with CapDpdk x => x | _ => zero_dpdk end.

(** *** Assignments *)

Definition set_split_size v (c : SplitConfig) := Split v (recalculate_checksum c).
Definition set_split_recalc v (c : SplitConfig) := Split (max_payload_size c) v.

Section setters.
  Context {P : Type}.
Definition set_vx_host v (c : vxlan_cfg P) := VxlanCfg v (vx_port c) (vx_capture_time c) (vx_vni_version c) (vx_vni c) (vx_bind_device c) (vx_pmtudisc c) (vx_split c).
Definition set_vx_port v (c : vxlan_cfg P) := VxlanCfg (vx_host c) v (vx_capture_time c) (vx_vni_version c) (vx_vni c) (vx_bind_device c) (vx_pmtudisc c) (vx_split c).
Definition set_vx_capture_time v (c : vxlan_cfg P) := VxlanCfg (vx_host c) (vx_port c) v (vx_vni_version c) (vx_vni c) (vx_bind_device c) (vx_pmtudisc c) (vx_split c).
Definition set_vx_vni version v (c : vxlan_cfg P) := VxlanCfg (vx_host c) (vx_port c) (vx_capture_time c) version v (vx_bind_device c) (vx_pmtudisc c) (vx_split c).
Definition set_vx_bind_device v (c : vxlan_cfg P) := VxlanCfg (vx_host c) (vx_port c) (vx_capture_time c) (vx_vni_version c) (vx_vni c) v (vx_pmtudisc c) (vx_split c).
Definition set_vx_pmtudisc v (c : vxlan_cfg P) := VxlanCfg (vx_host c) (vx_port c) (vx_capture_time c) (vx_vni_version c) (vx_vni c) (vx_bind_device c) v (vx_split c).
Definition set_vx_split v (c : vxlan_cfg P) := VxlanCfg (vx_host c) (vx_port c) (vx_capture_time c) (vx_vni_version c) (vx_vni c) (vx_bind_device c) (vx_pmtudisc c) v.
Definition set_gre_host v (c : gre_cfg P) := GreCfg v (gre_service_tag c) (gre_bind_device c) (gre_pmtudisc c).
Definition set_gre_service_tag v (c : gre_cfg P) := GreCfg (gre_host c) v (gre_bind_device c) (gre_pmtudisc c).
Definition set_gre_bind_device v (c : gre_cfg P) := GreCfg (gre_host c) (gre_service_tag c) v (gre_pmtudisc c).
Definition set_gre_pmtudisc v (c : gre_cfg P) := GreCfg (gre_host c) (gre_service_tag c) (gre_bind_device c) v.
Definition set_zmq_host v (c : zmq_cfg P) := ZmqCfg v (zmq_port c) (zmq_hwm c) (zmq_service_tag c) (zmq_uuid c) (zmq_heartbeat_ms c).
Definition set_zmq_port v (c : zmq_cfg P) := ZmqCfg (zmq_host c) v (zmq_hwm c) (zmq_service_tag c) (zmq_uuid c) (zmq_heartbeat_ms c).
Definition set_zmq_hwm v (c : zmq_cfg P) := ZmqCfg (zmq_host c) (zmq_port c) v (zmq_service_tag c) (zmq_uuid c) (zmq_heartbeat_ms c).
Definition set_zmq_service_tag v (c : zmq_cfg P) := ZmqCfg (zmq_host c) (zmq_port c) (zmq_hwm c) v (zmq_uuid c) (zmq_heartbeat_ms c).
Definition set_zmq_uuid v (c : zmq_cfg P) := ZmqCfg (zmq_host c) (zmq_port c) (zmq_hwm c) (zmq_service_tag c) v (zmq_heartbeat_ms c).
Definition set_zmq_heartbeat_ms v (c : zmq_cfg P) := ZmqCfg (zmq_host c) (zmq_port c) (zmq_hwm c) (zmq_service_tag c) (zmq_uuid c) v.
Definition set_rot_file_root (v : P) (c : rotating_cfg P) := RotatingCfg v (rot_max_file_interval c).
Definition set_rot_max_file_interval v (c : rotating_cfg P) := RotatingCfg (rot_file_root c) v.
Definition set_o_type v (o : OutputConfig P) := Output v (rate_limit_mbps o) (slice o) (o_config o).
Definition set_rate_limit_mbps v (o : OutputConfig P) := Output (o_type o) v (slice o) (o_config o).
Definition set_slice v (o : OutputConfig P) := Output (o_type o) (rate_limit_mbps o) v (o_config o).
Definition set_o_config v (o : OutputConfig P) := Output (o_type o) (rate_limit_mbps o) (slice o) v.
Definition set_lp_interface v (c : libpcap_cfg P) := LibpcapCfg v (lp_snaplen c) (lp_netns c) (lp_bpf_filter c) (lp_buffer_size_mb c) (lp_timeout_ms c) (lp_not_filter_output_hosts c).
Definition set_lp_snaplen v (c : libpcap_cfg P) := LibpcapCfg (lp_interface c) v (lp_netns c) (lp_bpf_filter c) (lp_buffer_size_mb c) (lp_timeout_ms c) (lp_not_filter_output_hosts c).
Definition set_lp_netns v (c : libpcap_cfg P) := LibpcapCfg (lp_interface c) (lp_snaplen c) v (lp_bpf_filter c) (lp_buffer_size_mb c) (lp_timeout_ms c) (lp_not_filter_output_hosts c).
Definition set_lp_bpf_filter v (c : libpcap_cfg P) := LibpcapCfg (lp_interface c) (lp_snaplen c) (lp_netns c) v (lp_buffer_size_mb c) (lp_timeout_ms c) (lp_not_filter_output_hosts c).
Definition set_lp_buffer_size_mb v (c : libpcap_cfg P) := LibpcapCfg (lp_interface c) (lp_snaplen c) (lp_netns c) (lp_bpf_filter c) v (lp_timeout_ms c) (lp_not_filter_output_hosts c).
Definition set_lp_timeout_ms v (c : libpcap_cfg P) := LibpcapCfg (lp_interface c) (lp_snaplen c) (lp_netns c) (lp_bpf_filter c) (lp_buffer_size_mb c) v (lp_not_filter_output_hosts c).
Definition set_lp_not_filter v (c : libpcap_cfg P) := LibpcapCfg (lp_interface c) (lp_snaplen c) (lp_netns c) (lp_bpf_filter c) (lp_buffer_size_mb c) (lp_timeout_ms c) v.
Definition set_pf_file_name v (c : pcap_file_cfg P) := PcapFileCfg v (pf_bpf_filter c).
Definition set_pf_bpf_filter v (c : pcap_file_cfg P) := PcapFileCfg (pf_file_name c) v.
Definition set_dp_interface v (c : dpdk_cfg P) := DpdkCfg v (dp_snaplen c) (dp_bpf_filter c) (dp_ring_size c).
Definition set_dp_snaplen v (c : dpdk_cfg P) := DpdkCfg (dp_interface c) v (dp_bpf_filter c) (dp_ring_size c).
Definition set_dp_bpf_filter v (c : dpdk_cfg P) := DpdkCfg (dp_interface c) (dp_snaplen c) v (dp_ring_size c).
Definition set_dp_ring_size v (c : dpdk_cfg P) := DpdkCfg (dp_interface c) (dp_snaplen c) (dp_bpf_filter c) v.
Definition set_c_type v (c : CapturerConfig P) := Capturer v (c_config c).
Definition set_c_config v (c : CapturerConfig P) := Capturer (c_type c) v.
Definition set_rp_type v (c : ReqPatternConfig P) := ReqPattern v (rp_pattern c).
Definition set_rp_pattern v (c : ReqPatternConfig P) := ReqPattern (rp_type c) v.
Definition set_ctl_type v (c : ControlConfig P) := Control v (ctl_path c).
Definition set_ctl_path v (c : ControlConfig P) := Control (ctl_type c) v.
End setters.

Definition set_t_fingerprint v (t : TaskConfig) := Task v (t_req_pattern t) (t_capturer t) (t_outputs t) (t_output_list t).
Definition set_t_req_pattern v (t : TaskConfig) := Task (t_fingerprint t) v (t_capturer t) (t_outputs t) (t_output_list t).
Definition set_t_capturer v (t : TaskConfig) := Task (t_fingerprint t) (t_req_pattern t) v (t_outputs t) (t_output_list t).
Definition set_t_outputs v (t : TaskConfig) := Task (t_fingerprint t) (t_req_pattern t) (t_capturer t) v (t_output_list t).
Definition set_t_output_list v (t : TaskConfig) := Task (t_fingerprint t) (t_req_pattern t) (t_capturer t) (t_outputs t) v.
Definition set_ts_tasks v (t : TasksAllConfig) := TasksAll v (ts_task_list t).
Definition set_ts_task_list v (t : TasksAllConfig) := TasksAll (ts_tasks t) v.
Definition set_log_level v (c : Config) := Cfg v (cpu_affinity c) (execution_model c) (pipeline_buffer_size_mb c) (control c) (tasks_cfg c).
Definition set_cpu_affinity v (c : Config) := Cfg (log_level c) v (execution_model c) (pipeline_buffer_size_mb c) (control c) (tasks_cfg c).
Definition set_execution_model v (c : Config) := Cfg (log_level c) (cpu_affinity c) v (pipeline_buffer_size_mb c) (control c) (tasks_cfg c).
Definition set_pipeline_buffer_size_mb v (c : Config) := Cfg (log_level c) (cpu_affinity c) (execution_model c) v (control c) (tasks_cfg c).
Definition set_control v (c : Config) := Cfg (log_level c) (cpu_affinity c) (execution_model c) (pipeline_buffer_size_mb c) v (tasks_cfg c).
Definition set_tasks_cfg v (c : Config) := Cfg (log_level c) (cpu_affinity c) (execution_model c) (pipeline_buffer_size_mb c) (control c) v.

(** ** Freeing *)

Section free.
  Context {S : Type}.

(** [strcmp(type, name) == 0] for a type that is not [NULL] *)
Definition type_is (type : char_ptr) (name : string) : bool :=
  match type with Some t => String.eqb (chars t) name | None => false end.

Definition free_output (p : nat) (o : OutputConfig char_ptr) : M S unit :=
  (if type_is (o_type o) "vxlan" then free_str (vx_host (vxlan_of o));; free_str (vx_bind_device (vxlan_of o))
   else if type_is (o_type o) "gre" then free_str (gre_host (gre_of o));; free_str (gre_bind_device (gre_of o))
   else if type_is (o_type o) "zmq" then free_str (zmq_host (zmq_of o));; free_str (zmq_uuid (zmq_of o))
   else if type_is (o_type o) "file" then free_str (file_of o)
   else if type_is (o_type o) "rotating_file" then free_str (rot_file_root (rotating_of o))
   else ret tt);;
  free_str (o_type o);;
  free p.

Definition free_control (c : option (nat * ControlConfig char_ptr)) : M S unit :=
  match c with
  | None => ret tt
  | Some (p, c) =>
      (if type_is (ctl_type c) "unix" then free_str (ctl_path c) else ret tt);;
      free_str (ctl_type c);;
      free p
  end.

Definition req_pattern_destroy (r : ReqPatternConfig char_ptr) : M S unit :=
  (if type_is (rp_type r) "custom" then free_str (rp_pattern r) else ret tt);;
  free_str (rp_type r).

Fixpoint free_outputs (l : list (nat * OutputConfig char_ptr)) : M S unit :=
  match l with [] => ret tt | (p, o) :: l => free_output p o;; free_outputs l end.

Definition free_array (a : option array) : M S unit :=
  match a with Some a => free (arr_blk a) | None => ret tt end.

Definition free_task (p : nat) (t : TaskConfig) : M S unit :=
  let c := t_capturer t in
  (if type_is (c_type c) "libpcap" then
     free_str (lp_interface (libpcap_of c));; free_str (lp_bpf_filter (libpcap_of c));;
     free_str (lp_netns (libpcap_of c))
   else if type_is (c_type c) "pcap_file" then
     free_str (pf_file_name (pcap_file_of c));; free_str (pf_bpf_filter (pcap_file_of c))
   else if type_is (c_type c) "dpdk_pdump" then
     free_str (dp_interface (dpdk_of c));; free_str (dp_bpf_filter (dpdk_of c))
   else ret tt);;
  free_str (c_type c);;
  free_outputs (t_output_list t);;
  free_array (t_outputs t);;
  req_pattern_destroy (t_req_pattern t);;
  free_str (t_fingerprint t);;
  free p.

Fixpoint free_tasks (l : list (nat * TaskConfig)) : M S unit :=
  match l with [] => ret tt | (p, t) :: l => free_task p t;; free_tasks l end.

Definition free_tasks_config (p : nat) (c : TasksAllConfig) : M S unit :=
  free_tasks (ts_task_list c);;
  free_array (ts_tasks c);;
  free p.

Definition free_config (p : nat) (c : Config) : M S unit :=
  free_str (cpu_affinity c);;
  match tasks_cfg c with Some (q, t) => free_tasks_config q t | None => ret tt end;;
  free_control (control c);;
  free p.

End free.

(** ** Fields

    The shapes in which the parsers read one field: [obj] is the struct's
    JSON object, [set] the assignment. *)

Section fields.
  Context {S : Type}.

(** [strdup] into a field, checked. *)
Definition dup_to (oom : string) (set : char_ptr -> S -> S) (chars : string) : M S unit :=
  do p <- strdup chars;
  modify (set p);;
  match p with Some _ => ret tt | None => fail oom end.

Definition req_string (obj : cJSON) (key missing oom : string) (set : char_ptr -> S -> S) : M S unit :=
  match cJSON_IsString (get_object_item obj key) with
  | Some s => dup_to oom set s
  | None => fail missing
  end.

Definition opt_string (obj : cJSON) (key invalid oom : string) (set : char_ptr -> S -> S) : M S unit :=
  match get_object_item obj key with
  | None => dup_to oom set EmptyString
  | Some (JString s) => dup_to oom set s
  | Some _ => fail invalid
  end.

Definition opt_bool (obj : cJSON) (key invalid : string) (set : bool -> S -> S) : M S unit :=
  match get_object_item obj key with
  | None => modify (set false)
  | Some (JBool b) => modify (set b)
  | Some _ => fail invalid
  end.

Definition opt_range (obj : cJSON) (key name : string) (default min max : Z) (set : Z -> S -> S) : M S unit :=
  match get_object_item obj key with
  | None => modify (set default)
  | Some item => do value <- cjson_get_int64_range item name min max; modify (set value)
  end.

(** An integer that must not be negative; what exceeds [INT_MAX] becomes
    [INT_MAX]. *)
Definition opt_clamped (obj : cJSON) (key name : string) (default : Z) (set : Z -> S -> S) : M S unit :=
  match get_object_item obj key with
  | None => modify (set default)
  | Some item =>
      do value <- cjson_get_integer item name;
      if dbl_ltZ value 0 then fail ("invalid " +:+ name +:+ ": " +:+ print_g value +:+ ", must be >= 0")
      else modify (set (if dbl_gtZ value INT_MAX then INT_MAX else dbl_trunc value))
  end.

Definition opt_pmtudisc (obj : cJSON) (name : string) (set : Z -> S -> S) : M S unit :=
  match get_object_item obj "pmtudisc" with
  | None => modify (set (-1))
  | Some (JString s) =>
      if String.eqb s "do" then modify (set IP_PMTUDISC_DO)
      else if String.eqb s "dont" then modify (set IP_PMTUDISC_DONT)
      else if String.eqb s "want" then modify (set IP_PMTUDISC_WANT)
      else fail ("invalid " +:+ name +:+ " " +:+ s)
  | Some _ => fail ("invalid " +:+ name)
  end.

Definition parse_snaplen (obj : cJSON) (name : string) (non_positive_means_max : bool) (set : Z -> S -> S) : M S unit :=
  match get_object_item obj "snaplen" with
  | None => modify (set DEFAULT_SNAPLEN)
  | Some snaplen =>
      do value <- cjson_get_integer snaplen name;
      if dbl_leZ value 0 && negb non_positive_means_max
      then fail ("invalid " +:+ name +:+ ": " +:+ print_g value +:+ ", must be > 0")
      else if dbl_eqZ value 0 then modify (set MAX_SNAPLEN)
      else if dbl_ltZ value 0 || dbl_gtZ value MAX_SNAPLEN then modify (set MAX_SNAPLEN)
      else modify (set (dbl_trunc value))
  end.

End fields.

Definition oom : string := "memory allocation failed".
Definition Oom : string := "Memory allocation failed".

(** ** Parsers *)

(** [task->outputs[task->num_outputs++] = output;] within the array *)
Definition push_output (p : nat) (o : OutputConfig char_ptr) : M TaskConfig unit := fun t st =>
  match t_outputs t with
  | Some a =>
      if zlen (t_output_list t) <? arr_cap a
      then Ok tt (set_t_output_list (t_output_list t ++ [(p, o)]) t) st else UB
  | None => UB
  end.

Definition push_task (p : nat) (t : TaskConfig) : M TasksAllConfig unit := fun c st =>
  match ts_tasks c with
  | Some a =>
      if zlen (ts_task_list c) <? arr_cap a
      then Ok tt (set_ts_task_list (ts_task_list c ++ [(p, t)]) c) st else UB
  | None => UB
  end.

Definition tolower (c : Ascii.ascii) : Ascii.ascii :=
  let n := Ascii.N_of_ascii c in
  if (65 <=? n)%N && (n <=? 90)%N then Ascii.ascii_of_N (n + 32) else c.

Fixpoint lower (s : string) : string :=
  match s with EmptyString => EmptyString | String c s => String (tolower c) (lower s) end.

(** [strcasecmp(a, b) == 0] *)
Definition strcasecmp (a b : string) : bool := String.eqb (lower a) (lower b).

Section parsers.

Definition parse_libpcap (libpcap_obj : cJSON) : M (libpcap_cfg char_ptr) unit :=
  req_string libpcap_obj "interface" "missing or invalid libpcap.interface" oom set_lp_interface;;
  opt_string libpcap_obj "netns" "invalid netns" oom set_lp_netns;;
  parse_snaplen libpcap_obj "libpcap.snaplen" true set_lp_snaplen;;
  opt_string libpcap_obj "bpf" "invalid libpcap.bpf" Oom set_lp_bpf_filter;;
  match get_object_item libpcap_obj "buffer_size_mb" with
  | None => modify (set_lp_buffer_size_mb 256)
  | Some buffer_size =>
      do value <- cjson_get_integer buffer_size "libpcap.buffer_size_mb";
      if dbl_leZ value 0
      then fail ("invalid libpcap.buffer_size_mb: " +:+ print_g value +:+ ", must be > 0")
      else modify (set_lp_buffer_size_mb
             (if dbl_gtZ value MAX_LIBPCAP_BUFFER_SIZE_MB then MAX_LIBPCAP_BUFFER_SIZE_MB else dbl_trunc value))
  end;;
  opt_clamped libpcap_obj "timeout_ms" "libpcap.timeout_ms" 0 set_lp_timeout_ms;;
  opt_bool libpcap_obj "not_filter_output_hosts" "invalid libpcap.not_filter_output_hosts" set_lp_not_filter.

Definition parse_pcap_file (pcap_file_obj : cJSON) : M (pcap_file_cfg char_ptr) unit :=
  req_string pcap_file_obj "file_name" "missing or invalid pcap_file.file_name" Oom set_pf_file_name;;
  opt_string pcap_file_obj "bpf" "invalid pcap_file.bpf" Oom set_pf_bpf_filter.

Definition parse_dpdk_pdump (dpdk_obj : cJSON) : M (dpdk_cfg char_ptr) unit :=
  req_string dpdk_obj "interface" "missing or invalid dpdk_pdump.interface" oom set_dp_interface;;
  parse_snaplen dpdk_obj "dpdk_pdump.snaplen" false set_dp_snaplen;;
  opt_string dpdk_obj "bpf" "invalid dpdkdump.bpf" Oom set_dp_bpf_filter;;
  opt_range dpdk_obj "ring_size" "dpdk_pdump.ring_size" 2048 2 (Z.shiftl 1 30) set_dp_ring_size.

(** The member object of a type, and its parser on the member of the union. *)
Definition member {S : Type} (obj : cJSON) (key missing : string) (k : cJSON -> M S unit) : M S unit :=
  match get_object_item obj key with Some o => k o | None => fail missing end.

Definition parse_capturer_config (engine_obj : cJSON) : M (CapturerConfig char_ptr) unit :=
  req_string engine_obj "type" "missing or invalid capturer type" oom set_c_type;;
  do type <- gets c_type;
  if type_is type "libpcap" then
    member engine_obj "libpcap" "missing libpcap config" (fun libpcap_obj =>
      within libpcap_of (fun c => set_c_config (CapLibpcap c)) (parse_libpcap libpcap_obj))
  else if type_is type "pcap_file" then
    member engine_obj "pcap_file" "missing pcap_file config" (fun pcap_file_obj =>
      within pcap_file_of (fun c => set_c_config (CapPcapFile c)) (parse_pcap_file pcap_file_obj))
  else if type_is type "dpdk_pdump" then
    member engine_obj "dpdk_pdump" "missing dpdk_pdump config" (fun dpdk_obj =>
      within dpdk_of (fun c => set_c_config (CapDpdk c)) (parse_dpdk_pdump dpdk_obj))
  else fail ("unknown capturer type: " +:+ default EmptyString (chars <$> type)).

Definition parse_split_config (split_obj : option cJSON) : M SplitConfig unit :=
  match split_obj with
  | None => modify (set_split_size 0)
  | Some split_obj =>
      opt_range split_obj "max_payload_size" "vxlan.split.max_payload_size" 0 0 65535 (fun v => set_split_size (u16 v));;
      opt_bool split_obj "recalculate_checksum" "invalid recalculate_checksum: must be boolean" set_split_recalc
  end.

Definition parse_vni (vxlan_obj : cJSON) : M (vxlan_cfg char_ptr) unit :=
  match get_object_item vxlan_obj "vni1", get_object_item vxlan_obj "vni2" with
  | Some _, Some _ => fail "vxlan.vni1 and vxlan.vni2 are mutually exclusive"
  | Some vni1, None =>
      do value <- cjson_get_int64_range vni1 "vxlan.vni1" 0 UINT32_MAX;
      let value := if 16777215 <? value then Z.land value 16777215 else value in
      modify (set_vx_vni 1 (u32 value))
  | None, Some vni2 =>
      do value <- cjson_get_int64_range vni2 "vxlan.vni2" 0 UINT32_MAX;
      modify (set_vx_vni 2 (u32 value))
  | None, None => fail "require vxlan.vni1 or vxlan.vni2"
  end.

Definition parse_vxlan (vxlan_obj : cJSON) : M (vxlan_cfg char_ptr) unit :=
  req_string vxlan_obj "host" "missing or invalid vxlan.host" oom set_vx_host;;
  opt_range vxlan_obj "port" "vxlan.port" 4789 1 65535 (fun v => set_vx_port (u16 v));;
  opt_bool vxlan_obj "capture_time" "invalid vxlan.capture_time" set_vx_capture_time;;
  parse_vni vxlan_obj;;
  opt_string vxlan_obj "bind_device" "invalid vxlan.bind_device" oom set_vx_bind_device;;
  opt_pmtudisc vxlan_obj "vxlan.pmtudisc" set_vx_pmtudisc;;
  wrapping "parse vxlan.split error"
    (within vx_split set_vx_split (parse_split_config (get_object_item vxlan_obj "split"))).

Definition parse_gre (gre_obj : cJSON) : M (gre_cfg char_ptr) unit :=
  req_string gre_obj "host" "missing or invalid gre.host" oom set_gre_host;;
  opt_range gre_obj "service_tag" "gre.service_tag" 268435455 0 UINT32_MAX (fun v => set_gre_service_tag (u32 v));;
  opt_string gre_obj "bind_device" "invalid gre.bind_device" oom set_gre_bind_device;;
  opt_pmtudisc gre_obj "gre.pmtudisc" set_gre_pmtudisc.

Definition parse_zmq (zmq_obj : cJSON) : M (zmq_cfg char_ptr) unit :=
  req_string zmq_obj "host" "missing or invalid zmq.host" oom set_zmq_host;;
  match get_object_item zmq_obj "port" with
  | None => fail "missing zmq.port"
  | Some port => do value <- cjson_get_int64_range port "zmq.port" 1 65535; modify (set_zmq_port (u16 value))
  end;;
  opt_clamped zmq_obj "hwm" "zmq.hwm" 100 set_zmq_hwm;;
  opt_range zmq_obj "service_tag" "zmq.service_tag" 4294967295 0 UINT32_MAX (fun v => set_zmq_service_tag (u32 v));;
  opt_string zmq_obj "uuid" "invalid zmq.uuid" oom set_zmq_uuid;;
  opt_range zmq_obj "heartbeat_ms" "zmq.heartbeat_ms" 0 0 60000 set_zmq_heartbeat_ms.

Definition parse_file (file_obj : cJSON) : M char_ptr unit :=
  req_string file_obj "name" "missing or invalid file.name" oom (fun p _ => p).

Definition parse_rotating_file (rotating_file_obj : cJSON) : M (rotating_cfg char_ptr) unit :=
  req_string rotating_file_obj "file_root" "missing or invalid rotating_file.file_root" oom set_rot_file_root;;
  opt_clamped rotating_file_obj "max_file_interval" "rotating_file.max_file_interval" 60 set_rot_max_file_interval.

Definition parse_output_config (output_obj : cJSON) : M (OutputConfig char_ptr) unit :=
  req_string output_obj "type" "missing or invalid output type" oom set_o_type;;
  opt_clamped output_obj "rate_limit_mbps" "rate_limit_mbps" 0 set_rate_limit_mbps;;
  opt_clamped output_obj "slice" "slice" 0 set_slice;;
  do type <- gets o_type;
  if type_is type "vxlan" then
    member output_obj "vxlan" "missing vxlan config" (fun vxlan_obj =>
      within vxlan_of (fun c => set_o_config (OutVxlan c)) (parse_vxlan vxlan_obj))
  else if type_is type "gre" then
    member output_obj "gre" "missing gre config" (fun gre_obj =>
      within gre_of (fun c => set_o_config (OutGre c)) (parse_gre gre_obj))
  else if type_is type "zmq" then
    member output_obj "zmq" "missing zmq config" (fun zmq_obj =>
      within zmq_of (fun c => set_o_config (OutZmq c)) (parse_zmq zmq_obj))
  else if type_is type "file" then
    member output_obj "file" "missing file config" (fun file_obj =>
      within file_of (fun p => set_o_config (OutFile p)) (parse_file file_obj))
  else if type_is type "rotating_file" then
    member output_obj "rotating_file" "missing rotating_file config" (fun rotating_file_obj =>
      within rotating_of (fun c => set_o_config (OutRotating c)) (parse_rotating_file rotating_file_obj))
  else if type_is type "null" then ret tt
  else fail ("unknown output type: " +:+ default EmptyString (chars <$> type)).

(** A [vsnprintf] whose format has a conversion without an argument. *)
Definition set_parse_error_no_argument {S A : Type} : M S A := fun _ _ => UB.

(** The message for a [custom] that is no object, "custom %d is not an
    object", has no argument for its [%d]. *)
Definition parse_req_pattern_config (req_pattern_obj : cJSON) : M (ReqPatternConfig char_ptr) unit :=
  req_string req_pattern_obj "type" "missing or invalid output type" oom set_rp_type;;
  do type <- gets rp_type;
  if type_is type "auto" then ret tt
  else if type_is type "custom" then
    match get_object_item req_pattern_obj "custom" with
    | Some (JObject _ as custom) => opt_string custom "pattern" "invalid custom.pattern" oom set_rp_pattern
    | _ => set_parse_error_no_argument
    end
  else fail ("unknown req_pattern type: " +:+ default EmptyString (chars <$> type)).

Fixpoint parse_outputs (i : Z) (items : list cJSON) : M TaskConfig unit :=
  match items with
  | [] => ret tt
  | output_obj :: items =>
      if cJSON_IsObject output_obj then
        do output <- alloc;
        match output with
        | None => fail oom
        | Some p =>
            fresh zero_output (parse_output_config output_obj)
              (fun o => free_output p o;; set_err (cjson_wrap_parse_error "parse output error");; abandon)
              (fun _ o => push_output p o;; parse_outputs (i + 1) items)
        end
      else fail ("output " +:+ pretty i +:+ " is not an object")
  end.

(** An unchecked [strdup]: without memory the task has no fingerprint. *)
Definition parse_fingerprint (task_obj : cJSON) : M TaskConfig unit :=
  match get_object_item task_obj "fingerprint" with
  | None => modify (set_t_fingerprint None)
  | Some (JString fp) =>
      if String.eqb fp EmptyString then modify (set_t_fingerprint None)
      else do p <- strdup fp; modify (set_t_fingerprint p)
  | Some _ => fail "invalid fingerprint"
  end.

Definition parse_task_req_pattern (task_obj : cJSON) : M TaskConfig unit :=
  match get_object_item task_obj "req_pattern" with
  | None => dup_to oom (fun p t => set_t_req_pattern (set_rp_type p (t_req_pattern t)) t) "none"
  | Some (JObject _ as req_pattern) =>
      wrapping "parse req_pattern error"
        (within t_req_pattern set_t_req_pattern (parse_req_pattern_config req_pattern))
  | Some _ => fail "invalid netns"
  end.

Definition parse_task_capturer (task_obj : cJSON) : M TaskConfig unit :=
  match get_object_item task_obj "capturer" with
  | Some (JObject _ as capturer) =>
      wrapping "parse capturer error" (within t_capturer set_t_capturer (parse_capturer_config capturer))
  | _ => fail "missing or invalid capturer config"
  end.

Definition parse_task_outputs (task_obj : cJSON) : M TaskConfig unit :=
  match cJSON_IsArray (get_object_item task_obj "outputs") with
  | None => fail "missing or invalid outputs config"
  | Some outputs =>
      do a <- alloc;
      match a with
      | None => fail oom
      | Some a => modify (set_t_outputs (Some (Array a (zlen outputs))));; parse_outputs 0 outputs
      end
  end.

Definition parse_task_config (task_obj : cJSON) : M TaskConfig unit :=
  parse_fingerprint task_obj;;
  parse_task_req_pattern task_obj;;
  parse_task_capturer task_obj;;
  parse_task_outputs task_obj.

(** The task's fingerprint is one of those of the tasks before it. *)
Definition duplicate_fingerprint (fp : char_ptr) (tasks : list (nat * TaskConfig)) : bool :=
  match fp with
  | None => false
  | Some f => existsb (fun '(_, t) => type_is (t_fingerprint t) (chars f)) tasks
  end.

Fixpoint parse_tasks (i : Z) (items : list cJSON) : M TasksAllConfig unit :=
  match items with
  | [] => ret tt
  | task_obj :: items =>
      if cJSON_IsObject task_obj then
        do task <- alloc;
        match task with
        | None => fail oom
        | Some p =>
            fresh zero_task (parse_task_config task_obj)
              (fun t => free_task p t;;
                 set_err (cjson_wrap_parse_error ("parse task " +:+ pretty i +:+ " error"));; abandon)
              (fun _ t =>
                 do tasks <- gets ts_task_list;
                 if duplicate_fingerprint (t_fingerprint t) tasks then
                   set_err (cjson_set_parse_error
                     ("duplicate fingerprint '" +:+ default EmptyString (chars <$> t_fingerprint t) +:+ "'"));;
                   free_task p t;; abandon
                 else push_task p t;; parse_tasks (i + 1) items)
        end
      else fail ("task " +:+ pretty i +:+ " is not an object")
  end.

Definition tasks_body (json : cJSON) : M TasksAllConfig unit :=
  match cJSON_IsArray (get_object_item json "tasks") with
  | None => fail "missing or invalid tasks array"
  | Some tasks =>
      do a <- alloc;
      match a with
      | None => fail oom
      | Some a => modify (set_ts_tasks (Some (Array a (zlen tasks))));; parse_tasks 0 tasks
      end
  end.

(** [NULL], or the configuration in its block. *)
Definition parse_tasks_json {S : Type} (json : cJSON) : M S (option (nat * TasksAllConfig)) :=
  do config <- alloc;
  match config with
  | None => set_err (cjson_set_parse_error oom);; ret None
  | Some p =>
      fresh (TasksAll None []) (tasks_body json)
        (fun c => free_tasks_config p c;; ret None)
        (fun _ c => ret (Some (p, c)))
  end.

Definition parse_control_config (control_obj : cJSON) : M (ControlConfig char_ptr) unit :=
  req_string control_obj "type" "missing or invalid control type" oom set_ctl_type;;
  do type <- gets ctl_type;
  if type_is type "unix" then
    member control_obj "unix" "missing unix config" (fun unix_obj =>
      req_string unix_obj "path" "missing or invalid unix.path" oom set_ctl_path)
  else fail ("unknown control type: " +:+ default EmptyString (chars <$> type)).

Definition parse_log_level (json : cJSON) : M Config unit :=
  match get_object_item json "log_level" with
  | None => modify (set_log_level LOG_INFO)
  | Some (JString s) =>
      if strcasecmp s "DEBUG" then modify (set_log_level LOG_DEBUG)
      else if strcasecmp s "INFO" then modify (set_log_level LOG_INFO)
      else if strcasecmp s "WARN" then modify (set_log_level LOG_WARN)
      else if strcasecmp s "ERROR" then modify (set_log_level LOG_ERROR)
      else fail "invalid log_level"
  | Some _ => fail "invalid log_level"
  end.

Definition parse_execution_model (json : cJSON) : M Config unit :=
  match get_object_item json "execution_model" with
  | None => modify (set_execution_model EXECUTION_MODEL_RTC)
  | Some (JString s) =>
      if String.eqb s "rtc" then modify (set_execution_model EXECUTION_MODEL_RTC)
      else if String.eqb s "pipeline" then modify (set_execution_model EXECUTION_MODEL_PIPELINE)
      else fail "invalid execution_model"
  | Some _ => fail "invalid execution_model"
  end.

Definition parse_pipeline (json : cJSON) : M Config unit :=
  do model <- gets execution_model;
  if model =? EXECUTION_MODEL_PIPELINE then
    match get_object_item json "pipeline" with
    | None => fail "missing pipeline config"
    | Some (JObject _ as pipeline_obj) =>
        match get_object_item pipeline_obj "buffer_size_mb" with
        | None => fail "missing pipeline.buffer_size_mb"
        | Some pipeline_buffer_size =>
            do value <- cjson_get_int64_range pipeline_buffer_size "pipeline.buffer_size_mb" 1 (SIZE_MAX / (1024 * 1024));
            modify (set_pipeline_buffer_size_mb value)
        end
    | Some _ => fail "invalid pipeline config"
    end
  else modify (set_pipeline_buffer_size_mb 0).

Definition parse_control (json : cJSON) : M Config unit :=
  match get_object_item json "control" with
  | None => modify (set_control None)
  | Some (JObject _ as control_obj) =>
      do c <- alloc;
      match c with
      | None => fail oom
      | Some p =>
          fresh zero_control (parse_control_config control_obj)
            (fun c => free_control (Some (p, c));; set_err (cjson_wrap_parse_error "parse control error");; abandon)
            (fun _ c => modify (set_control (Some (p, c))))
      end
  | Some _ => fail "invalid control"
  end.

Definition config_body (json : cJSON) : M Config unit :=
  do tasks <- parse_tasks_json json;
  match tasks with
  | None => abandon
  | Some t =>
      modify (set_tasks_cfg (Some t));;
      parse_log_level json;;
      opt_string json "cpu_affinity" "invalid cpu_affinity" oom set_cpu_affinity;;
      parse_execution_model json;;
      parse_pipeline json;;
      parse_control json
  end.

Definition parse_config_json {S : Type} (json : cJSON) : M S (option (nat * Config)) :=
  do config <- alloc;
  match config with
  | None => set_err (cjson_set_parse_error oom);; ret None
  | Some p =>
      fresh zero_config (config_body json)
        (fun c => free_config p c;; ret None)
        (fun _ c => ret (Some (p, c)))
  end.

End parsers.

(** ** Files *)

(** What the system answers for a path: whether it opens, [fstat] (is it a
    regular file, its size) or its error text, and the bytes [fread] gets. *)
Record file_env := FileEnv {
  f_opens : bool; f_stat : string + (bool * Z); f_read : string;
}.

Definition CONFIG_FILE_MAX_SIZE : Z := 64 * 1024 * 1024.

Section files.
  Context {S : Type}.

(** The stream counts as a block, which [fclose] frees. *)
Definition fopen (ok : bool) : M S (option nat) := fun s st =>
  if ok then Ok (Some (next st)) s (Store (live st ⊎ {[+ next st +]}) (Datatypes.S (next st)) (answers st) (err st))
  else Ok None s st.

Definition refuse (fp : nat) (text : string) : M S (option cstr) :=
  set_err (cjson_set_parse_error text);; free fp;; ret None.

Definition read_file_contents (filename : string) (f : file_env) : M S (option cstr) :=
  do fp <- fopen (f_opens f);
  match fp with
  | None => set_err (cjson_set_parse_error ("failed to open file: " +:+ filename));; ret None
  | Some fp =>
      match f_stat f with
      | inl e => refuse fp ("failed to stat file: " +:+ filename +:+ ": " +:+ e)
      | inr (regular, st_size) =>
          if negb regular then refuse fp ("not a regular file: " +:+ filename)
          else if st_size =? 0 then refuse fp ("empty file: " +:+ filename)
          else if CONFIG_FILE_MAX_SIZE <? st_size
          then refuse fp ("file too large: " +:+ filename +:+ " (" +:+ pretty st_size +:+ " bytes, limit " +:+
                          pretty CONFIG_FILE_MAX_SIZE +:+ ")")
          else
            do buffer <- alloc;
            match buffer with
            | None => refuse fp "memory allocation failed for file buffer"
            | Some b =>
                if negb (Z.of_nat (String.length (f_read f)) =? st_size)
                then set_err (cjson_set_parse_error ("partial read of file: " +:+ filename));; free b;; free fp;; ret None
                else free fp;; ret (Some (CStr b (f_read f)))
            end
      end
  end.

End files.

Section parse_file.
  Context {S : Type}.

(** [None] is the [NULL] a caller may pass. *)
Definition cjson_parse (json : option string) : M S (option item) :=
  match json with
  | None => set_err (cjson_set_parse_error "JSON parse error");; ret None
  | Some json =>
      do r <- cJSON_ParseWithOpts json true;
      match r with
      | (Some item, _) => ret (Some item)
      | (None, fin) => set_err (cjson_set_parse_error (syntax_error_text json (Z.to_nat fin)));; ret None
      end
  end.

(** [parse_tasks_file] and [parse_config_file] differ in the function that
    reads the tree. *)
Definition parse_file_with {T : Type} (read : cJSON -> M S (option (nat * T))) (filename : string) (f : file_env) :
    M S (option (nat * T)) :=
  do json_str <- read_file_contents filename f;
  match json_str with
  | None => ret None
  | Some buf =>
      do json <- cjson_parse (Some (c_string (chars buf)));
      match json with
      | None => free (blk buf);; ret None
      | Some json => do config <- read (to_json json); delete_item json;; free (blk buf);; ret config
      end
  end.

Definition parse_tasks_file : string -> file_env -> M S (option (nat * TasksAllConfig)) :=
  parse_file_with parse_tasks_json.

Definition parse_config_file : string -> file_env -> M S (option (nat * Config)) :=
  parse_file_with parse_config_json.

Definition parse_config_data (json_str : option string) : M S (option (nat * Config)) :=
  do json <- cjson_parse json_str;
  match json with
  | None => ret None
  | Some json => do config <- parse_config_json (to_json json); delete_item json;; ret config
  end.

End parse_file.

(** ** Reading the configuration *)

Definition MAXIMUM_SNAPLEN : Z := 262144.

Definition task_capturer_snaplen (task : TaskConfig) : Z :=
  let c := t_capturer task in
  if type_is (c_type c) "libpcap" then lp_snaplen (libpcap_of c)
  else if type_is (c_type c) "pcap_file" then MAXIMUM_SNAPLEN
  else if type_is (c_type c) "dpdk_pdump" then dp_snaplen (dpdk_of c)
  else -1.
