(* ===== verification/ConfigSafety.v ===== *)
(** * What the configuration parser accepts and owns (config.c)

    Every run of the parser, for any JSON tree and any allocation failures,
    ends with a configuration whose fields are in range and whose blocks are
    exactly the ones it allocated, or with [NULL], everything given back and
    the error buffer filled. *)

From stdpp Require Import prelude list strings pretty gmultiset.
From Stdlib Require Import SpecFloat.
From S2P Require Import Prelude RateLimit CJson JsonParse JsonSafety Config.

(** ** Postconditions *)

(** The error buffer holds a failure: a message, with its NUL within the
    buffer. *)
Definition failed (e : cJSONParseError) : bool :=
  (code e =? CJSON_PARSE_FAILED) && (0 <? Z.of_nat (String.length (message e))) &&
  (Z.of_nat (String.length (message e)) <? CJSON_ERRBUF_SIZE).

(** When undefined behaviour is allowed: a proposition the rules carry along. *)
Class Permit := permit : Prop.

(** Run on the struct [s] with the blocks [H] allocated ([b]: the error
    buffer holds a failure), [m] returns with [Q] or gives up with [E] and a
    filled error buffer, or there is a reason [U] for undefined behaviour. *)
Definition wp {U : Permit} {S A : Type} (m : M S A) (Q : A -> S -> gmultiset nat -> bool -> Prop)
    (E : S -> gmultiset nat -> Prop) (s : S) (H : gmultiset nat) (b : bool) : Prop :=
  forall st, live st = H -> failed (err st) = b ->
  match m s st with
  | Ok a s' st' => Q a s' (live st') (failed (err st'))
  | Err s' st' => E s' (live st') /\ failed (err st') = true
  | UB => U
  end.

Section rules.
  Context {U : Permit}.
  Context {S : Type}.
  Implicit Types (s : S) (H : gmultiset nat) (b : bool).

Lemma wp_ret {A : Type} (a : A) Q (E : S -> gmultiset nat -> Prop) s H b : Q a s H b -> wp (ret a) Q E s H b.
Proof. by intros HQ st <- <-. Qed.

Lemma wp_bind {A B : Type} (m : M S A) (k : A -> M S B) Q E s H b :
  wp m (fun a => wp (k a) Q E) E s H b -> wp (bind m k) Q E s H b.
Proof.
  intros Hm st HH Hb. specialize (Hm st HH Hb). unfold bind.
  destruct (m s st) as [a s' st'|s' st'|]; [|done|done]. by apply Hm.
Qed.

Lemma wp_mono {A : Type} (m : M S A) (Q Q' : A -> S -> gmultiset nat -> bool -> Prop) (E E' : S -> gmultiset nat -> Prop) s H b :
  wp m Q E s H b -> (forall a s' H' b', Q a s' H' b' -> Q' a s' H' b') -> (forall s' H', E s' H' -> E' s' H') ->
  wp m Q' E' s H b.
Proof.
  intros Hm HQ HE st HH Hb. specialize (Hm st HH Hb). destruct (m s st); [auto|destruct Hm; auto|done].
Qed.

Lemma wp_modify (f : S -> S) Q (E : S -> gmultiset nat -> Prop) s H b : Q tt (f s) H b -> wp (modify f) Q E s H b.
Proof. by intros HQ st <- <-. Qed.

Lemma wp_gets {A : Type} (f : S -> A) Q (E : S -> gmultiset nat -> Prop) s H b : Q (f s) s H b -> wp (gets f) Q E s H b.
Proof. by intros HQ st <- <-. Qed.

Lemma wp_abandon {A : Type} (Q : A -> S -> gmultiset nat -> bool -> Prop) E s H : E s H -> wp abandon Q E s H true.
Proof. by intros HE st <- Hb. Qed.

Lemma wp_alloc Q (E : S -> gmultiset nat -> Prop) s H b :
  (forall p, Q (Some p) s (H ⊎ {[+ p +]}) b) -> Q None s H b -> wp alloc Q E s H b.
Proof. intros H1 H2 st <- <-. unfold alloc. destruct (answers st) as [|[|] al]; auto. Qed.

Lemma wp_free p Q (E : S -> gmultiset nat -> Prop) s H b : Q tt s H b -> wp (free p) Q E s (H ⊎ {[+ p +]}) b.
Proof.
  intros HQ st HH <-. unfold free. rewrite HH. rewrite decide_True by multiset_solver. cbn [live err].
  by replace ((H ⊎ {[+ p +]}) ∖ {[+ p +]}) with H by multiset_solver.
Qed.

End rules.

(** *** The error buffer *)

Lemma length_substring n m s : String.length (String.substring n m s) = (m `min` (String.length s - n))%nat.
Proof.
  revert n m. induction s as [|c s IH]; intros [|n] [|m]; cbn [String.substring String.length]; try lia.
  - rewrite IH. lia.
  - rewrite IH. lia.
  - rewrite IH. lia.
Qed.

Lemma length_string_app a b : String.length (a +:+ b) = (String.length a + String.length b)%nat.
Proof. induction a as [|c a IH]; [done|]. exact (f_equal Datatypes.S IH). Qed.

Lemma length_snprintf text :
  Z.of_nat (String.length (snprintf CJSON_ERRBUF_SIZE text)) = Z.min 255 (Z.of_nat (String.length text)).
Proof. unfold snprintf. rewrite length_substring. unfold CJSON_ERRBUF_SIZE. lia. Qed.

(** A text that is not empty. *)
Class NonEmpty (text : string) : Prop := non_empty : String.length text <> 0%nat.

#[export] Instance non_empty_string c s : NonEmpty (String c s).
Proof. done. Qed.
#[export] Instance non_empty_app a b : NonEmpty a -> NonEmpty (a +:+ b).
Proof. unfold NonEmpty. rewrite length_string_app. lia. Qed.

Lemma set_parse_error_failed text e : NonEmpty text -> failed (cjson_set_parse_error text e) = true.
Proof.
  unfold NonEmpty, failed, cjson_set_parse_error. cbn [code message]. rewrite length_snprintf. intros Hn.
  rewrite !andb_true_iff, Z.eqb_eq, !Z.ltb_lt. unfold CJSON_ERRBUF_SIZE. lia.
Qed.

Lemma wrap_parse_error_failed text e : NonEmpty text -> failed (cjson_wrap_parse_error text e) = true.
Proof.
  unfold NonEmpty, failed, cjson_wrap_parse_error. intros Hn.
  rewrite !andb_true_iff, Z.eqb_eq, !Z.ltb_lt.
  repeat bcase; cbn [code message]; rewrite ?length_string_app, ?Nat2Z.inj_add, length_snprintf; rewrite ?length_substring in *;
    unfold CJSON_ERRBUF_SIZE in *; cbn [String.length]; lia.
Qed.

Section error_rules.
  Context {U : Permit}.
  Context {S : Type}.

Lemma wp_set_error text Q (E : S -> gmultiset nat -> Prop) s H b :
  NonEmpty text -> Q tt s H true -> wp (set_err (cjson_set_parse_error text)) Q E s H b.
Proof. intros Ht HQ st <- _. cbn. by rewrite set_parse_error_failed. Qed.

Lemma wp_wrap_error text Q (E : S -> gmultiset nat -> Prop) s H b :
  NonEmpty text -> Q tt s H true -> wp (set_err (cjson_wrap_parse_error text)) Q E s H b.
Proof. intros Ht HQ st <- _. cbn. by rewrite wrap_parse_error_failed. Qed.

Lemma wp_fail {A : Type} text (Q : A -> S -> gmultiset nat -> bool -> Prop) E s H b :
  NonEmpty text -> E s H -> wp (fail text) Q E s H b.
Proof. intros Ht HE. by apply wp_bind, wp_set_error, wp_abandon. Qed.

Lemma wp_wrapping {A : Type} text (m : M S A) Q E s H b :
  NonEmpty text -> wp m Q E s H b -> wp (wrapping text m) Q E s H b.
Proof.
  intros Ht Hm st HH Hb. specialize (Hm st HH Hb). unfold wrapping.
  destruct (m s st) as [a s' st'|s' st'|]; [done| |done]. destruct Hm as [HE _].
  cbn. by rewrite wrap_parse_error_failed.
Qed.

Lemma wp_within {T A : Type} (get : S -> T) set (m : M T A) Q E s H b :
  wp m (fun a t => Q a (set t s)) (fun t => E (set t s)) (get s) H b -> wp (within get set m) Q E s H b.
Proof.
  intros Hm st HH Hb. specialize (Hm st HH Hb). unfold within. by destruct (m (get s) st) as [a t st'|t st'|].
Qed.

Lemma wp_fresh {T A B : Type} (zero : T) (m : M T A) (handle : T -> M S B) k Q E s H b :
  wp m (fun a t H' b' => wp (k a t) Q E s H' b') (fun t H' => wp (handle t) Q E s H' true) zero H b ->
  wp (fresh zero m handle k) Q E s H b.
Proof.
  intros Hm st HH Hb. specialize (Hm st HH Hb). unfold fresh.
  destruct (m zero st) as [a t st'|t st'|]; [by apply Hm| |done]. destruct Hm as [Hh Hf]. by apply Hh.
Qed.

End error_rules.

(** ** Numbers *)

Section number_rules.
  Context {U : Permit}.
  Context {S : Type}.
  Implicit Types (s : S).

Lemma wp_int64_range item name min max (Q : Z -> S -> gmultiset nat -> bool -> Prop) E s H' b :
  E s H' -> (forall v, min <= v <= max -> Q v s H' b) -> wp (cjson_get_int64_range item name min max) Q E s H' b.
Proof.
  intros HE HQ. unfold cjson_get_int64_range. destruct item as [| |x| | |]; try (apply wp_fail; [apply _|done]).
  destruct (_ || _) eqn:Hc; [apply wp_fail; [apply _|done]|]. apply wp_ret, HQ. breflect.
  destruct (dbl_eqZ_is_int x (dbl_trunc x)) as [Hi _]; [done|].
  rewrite (is_int_lt x _ Hi), (is_int_gt x _ Hi) in *. breflect. lia.
Qed.

(** An integer, or an infinity. *)
Definition integral (x : double) : Prop := (exists neg, x = S754_infinity neg) \/ is_int x (dbl_trunc x).

Lemma wp_integer item name (Q : double -> S -> gmultiset nat -> bool -> Prop) E s H' b :
  E s H' -> (forall x, integral x -> Q x s H' b) -> wp (cjson_get_integer item name) Q E s H' b.
Proof.
  intros HE HQ. unfold cjson_get_integer. destruct item as [| |x| | |]; try (apply wp_fail; [apply _|done]).
  destruct (negb _) eqn:Hc; [apply wp_fail; [apply _|done]|]. breflect. by apply wp_ret, HQ, dbl_is_floor_cases.
Qed.

(** Cutting off at [max] what is at least [min]. *)
Lemma clamp_range x min max :
  integral x -> dbl_ltZ x min = false -> min <= max ->
  min <= (if dbl_gtZ x max then max else dbl_trunc x) <= max.
Proof.
  intros [[[|] ->]|Hi] Hm Hle; [done|done|]. rewrite (is_int_lt x _ Hi), (is_int_gt x _ Hi) in *. bcase; breflect; lia.
Qed.

Lemma integral_le0 x : integral x -> dbl_leZ x 0 = false -> dbl_ltZ x 1 = false.
Proof. intros [[[|] ->]|Hi]; [done|done|]. rewrite (is_int_le x _ Hi), (is_int_lt x _ Hi). intros. breflect. apply Z.ltb_ge. lia. Qed.

End number_rules.

(** ** Fields *)

Definition ptr_foot (p : char_ptr) : gmultiset nat := match p with Some c => {[+ blk c +]} | None => ∅ end.

Definition pmtudisc_ok (v : Z) : Prop := v = -1 \/ v = IP_PMTUDISC_DONT \/ v = IP_PMTUDISC_WANT \/ v = IP_PMTUDISC_DO.

Section field_rules.
  Context {U : Permit}.
  Context {S : Type}.
  Implicit Types (s : S).

Lemma wp_strdup text (Q : option cstr -> S -> gmultiset nat -> bool -> Prop) E s H' b :
  (forall p, chars p = text -> Q (Some p) s (H' ⊎ ptr_foot (Some p)) b) -> Q None s H' b ->
  wp (strdup text) Q E s H' b.
Proof.
  intros H1 H2. apply wp_bind, wp_alloc; [intros p|]; apply wp_ret; [|done]. by apply (H1 (CStr p text)).
Qed.

Lemma wp_dup_to oom set text Q E s H' b :
  NonEmpty oom -> (forall p, chars p = text -> Q tt (set (Some p) s) (H' ⊎ ptr_foot (Some p)) b) -> E (set None s) H' ->
  wp (dup_to oom set text) Q E s H' b.
Proof.
  intros Ho HQ HE. apply wp_bind, wp_strdup; [intros p Hp|]; apply wp_bind, wp_modify; [by apply wp_ret, HQ|by apply wp_fail].
Qed.

Lemma wp_req_string obj key missing oom set Q E s H' b :
  NonEmpty missing -> NonEmpty oom ->
  (forall p, get_object_item obj key = Some (JString (chars p)) -> Q tt (set (Some p) s) (H' ⊎ ptr_foot (Some p)) b) ->
  E s H' -> E (set None s) H' -> wp (req_string obj key missing oom set) Q E s H' b.
Proof.
  intros Hm Ho HQ HE HN. unfold req_string.
  destruct (get_object_item obj key) as [[| | |text| |]|] eqn:Ek; cbn [cJSON_IsString]; try by apply wp_fail.
  apply wp_dup_to; [done| |done]. intros p <-. by apply HQ.
Qed.

Lemma wp_opt_string obj key invalid oom set Q E s H' b :
  NonEmpty invalid -> NonEmpty oom -> (forall p, Q tt (set (Some p) s) (H' ⊎ ptr_foot (Some p)) b) ->
  E s H' -> E (set None s) H' -> wp (opt_string obj key invalid oom set) Q E s H' b.
Proof.
  intros Hi Ho HQ HE HN. unfold opt_string.
  destruct (get_object_item obj key) as [[| | |text| |]|]; try (by apply wp_fail); apply wp_dup_to; auto.
Qed.

Lemma wp_opt_bool obj key invalid set Q E s H' b :
  NonEmpty invalid -> (forall v, Q tt (set v s) H' b) -> E s H' -> wp (opt_bool obj key invalid set) Q E s H' b.
Proof.
  intros Hi HQ HE. unfold opt_bool.
  destruct (get_object_item obj key) as [[|v| | | |]|]; try (by apply wp_fail); by apply wp_modify, HQ.
Qed.

Lemma wp_opt_range obj key name default min max set Q E s H' b :
  min <= default <= max -> (forall v, min <= v <= max -> Q tt (set v s) H' b) -> E s H' ->
  wp (opt_range obj key name default min max set) Q E s H' b.
Proof.
  intros Hd HQ HE. unfold opt_range. destruct (get_object_item obj key) as [item|]; [|by apply wp_modify, HQ].
  apply wp_bind, wp_int64_range; [done|]. intros v Hv. by apply wp_modify, HQ.
Qed.

Lemma wp_opt_clamped obj key name default set Q E s H' b :
  0 <= default <= INT_MAX -> (forall v, 0 <= v <= INT_MAX -> Q tt (set v s) H' b) -> E s H' ->
  wp (opt_clamped obj key name default set) Q E s H' b.
Proof.
  intros Hd HQ HE. unfold opt_clamped. destruct (get_object_item obj key) as [item|]; [|by apply wp_modify, HQ].
  apply wp_bind, wp_integer; [done|]. intros x Hx. destruct (dbl_ltZ x 0) eqn:E0; [apply wp_fail; [apply _|done]|].
  apply wp_modify, HQ, clamp_range; done.
Qed.

Lemma wp_opt_pmtudisc obj name set Q E s H' b :
  (forall v, pmtudisc_ok v -> Q tt (set v s) H' b) -> E s H' -> wp (opt_pmtudisc obj name set) Q E s H' b.
Proof.
  intros HQ HE. unfold opt_pmtudisc.
  assert (Hv : forall v, pmtudisc_ok v -> wp (modify (set v)) Q E s H' b) by (intros; by apply wp_modify, HQ).
  destruct (get_object_item obj "pmtudisc") as [[| | |text| |]|]; try (apply wp_fail; [apply _|done]).
  - repeat case_match; try (apply wp_fail; [apply _|done]); apply Hv; unfold pmtudisc_ok; tauto.
  - apply Hv. unfold pmtudisc_ok. tauto.
Qed.

Lemma wp_parse_snaplen obj name npmm set Q E s H' b :
  (forall v, 1 <= v <= MAX_SNAPLEN -> Q tt (set v s) H' b) -> E s H' -> wp (parse_snaplen obj name npmm set) Q E s H' b.
Proof.
  intros HQ HE. unfold parse_snaplen.
  assert (Hv : forall v, 1 <= v <= MAX_SNAPLEN -> wp (modify (set v)) Q E s H' b) by (intros; by apply wp_modify, HQ).
  destruct (get_object_item obj "snaplen") as [item|]; [|by apply Hv].
  apply wp_bind, wp_integer; [done|]. intros x Hx.
  destruct (_ && _); [apply wp_fail; [apply _|done]|]. destruct (dbl_eqZ x 0) eqn:E0; [by apply Hv|].
  destruct (dbl_ltZ x 0) eqn:E1; [by apply Hv|]. destruct (dbl_gtZ x MAX_SNAPLEN) eqn:E2; [by apply Hv|]. apply Hv.
  assert (Hl : dbl_ltZ x 1 = false) by (apply integral_le0; [done|]; unfold dbl_leZ; by rewrite E0, E1).
  pose proof (clamp_range x 1 MAX_SNAPLEN Hx Hl) as Hc. rewrite E2 in Hc. by apply Hc.
Qed.

Lemma wp_member obj key missing k Q E s H' b :
  NonEmpty missing -> (forall o, wp (k o) Q E s H' b) -> E s H' -> wp (member obj key missing k) Q E s H' b.
Proof. intros Hm Hk HE. unfold member. destruct (get_object_item obj key); [done|by apply wp_fail]. Qed.

End field_rules.

#[export] Instance non_empty_oom : NonEmpty oom.
Proof. done. Qed.
#[export] Instance non_empty_Oom : NonEmpty Oom.
Proof. done. Qed.

(** Run the parser to its next field; what is left are the conditions on the
    fields and the postconditions. *)
Ltac cfg_step :=
  lazymatch goal with
  | |- wp (bind _ _) _ _ _ _ _ => apply wp_bind
  | |- wp (ret _) _ _ _ _ _ => apply wp_ret
  | |- wp (modify _) _ _ _ _ _ => apply wp_modify
  | |- wp (gets _) _ _ _ _ _ => apply wp_gets
  | |- wp (fail _) _ _ _ _ _ => apply wp_fail; [apply _|]
  | |- wp (wrapping _ _) _ _ _ _ _ => apply wp_wrapping; [apply _|]
  | |- wp (within _ _ _) _ _ _ _ _ => apply wp_within
  | |- wp (fresh _ _ _ _) _ _ _ _ _ => apply wp_fresh
  | |- wp (strdup _) _ _ _ _ _ => apply wp_strdup; [intros ? ?|]
  | |- wp alloc _ _ _ _ _ => apply wp_alloc; [intros ?|]
  | |- wp (set_err (cjson_set_parse_error _)) _ _ _ _ _ => apply wp_set_error; [apply _|]
  | |- wp (set_err (cjson_wrap_parse_error _)) _ _ _ _ _ => apply wp_wrap_error; [apply _|]
  | |- wp abandon _ _ _ _ true => apply wp_abandon
  | |- wp (dup_to _ _ _) _ _ _ _ _ => apply wp_dup_to; [apply _|intros ? ?|]
  | |- wp (req_string _ _ _ _ _) _ _ _ _ _ => apply wp_req_string; [apply _|apply _|intros ? ?| |]
  | |- wp (opt_string _ _ _ _ _) _ _ _ _ _ => apply wp_opt_string; [apply _|apply _|intros ?| |]
  | |- wp (opt_bool _ _ _ _) _ _ _ _ _ => apply wp_opt_bool; [apply _|intros ?|]
  | |- wp (opt_range _ _ _ _ _ _ _) _ _ _ _ _ => apply wp_opt_range; [done|intros ? ?|]
  | |- wp (opt_clamped _ _ _ _ _) _ _ _ _ _ => apply wp_opt_clamped; [done|intros ? ?|]
  | |- wp (opt_pmtudisc _ _ _) _ _ _ _ _ => apply wp_opt_pmtudisc; [intros ? ?|]
  | |- wp (parse_snaplen _ _ _ _) _ _ _ _ _ => apply wp_parse_snaplen; [intros ? ?|]
  | |- wp (cjson_get_int64_range _ _ _ _) _ _ _ _ _ => apply wp_int64_range; [|intros ? ?]
  | |- wp (cjson_get_integer _ _) _ _ _ _ _ => apply wp_integer; [|intros ? ?]
  | |- wp (member _ _ _ _) _ _ _ _ _ => apply wp_member; [apply _|intros ?|]
  | |- wp (if ?b then _ else _) _ _ _ _ _ => destruct b eqn:?
  | |- wp (match ?x with _ => _ end) _ _ _ _ _ => destruct x
  end; cbn beta iota.

(** ** What the structs own *)

Definition vxlan_foot (c : vxlan_cfg char_ptr) : gmultiset nat := ptr_foot (vx_host c) ⊎ ptr_foot (vx_bind_device c).
Definition gre_foot (c : gre_cfg char_ptr) : gmultiset nat := ptr_foot (gre_host c) ⊎ ptr_foot (gre_bind_device c).
Definition zmq_foot (c : zmq_cfg char_ptr) : gmultiset nat := ptr_foot (zmq_host c) ⊎ ptr_foot (zmq_uuid c).

Definition output_foot (o : OutputConfig char_ptr) : gmultiset nat :=
  ptr_foot (o_type o) ⊎
  match o_config o with
  | OutZero => ∅
  | OutVxlan c => vxlan_foot c
  | OutGre c => gre_foot c
  | OutZmq c => zmq_foot c
  | OutFile p => ptr_foot p
  | OutRotating c => ptr_foot (rot_file_root c)
  end.

Definition libpcap_foot (c : libpcap_cfg char_ptr) : gmultiset nat :=
  ptr_foot (lp_interface c) ⊎ ptr_foot (lp_bpf_filter c) ⊎ ptr_foot (lp_netns c).
Definition pcap_file_foot (c : pcap_file_cfg char_ptr) : gmultiset nat :=
  ptr_foot (pf_file_name c) ⊎ ptr_foot (pf_bpf_filter c).
Definition dpdk_foot (c : dpdk_cfg char_ptr) : gmultiset nat := ptr_foot (dp_interface c) ⊎ ptr_foot (dp_bpf_filter c).

Definition capturer_foot (c : CapturerConfig char_ptr) : gmultiset nat :=
  ptr_foot (c_type c) ⊎
  match c_config c with
  | CapZero => ∅
  | CapLibpcap c => libpcap_foot c
  | CapPcapFile c => pcap_file_foot c
  | CapDpdk c => dpdk_foot c
  end.

Definition req_pattern_foot (r : ReqPatternConfig char_ptr) : gmultiset nat := ptr_foot (rp_type r) ⊎ ptr_foot (rp_pattern r).
Definition control_foot (c : ControlConfig char_ptr) : gmultiset nat := ptr_foot (ctl_type c) ⊎ ptr_foot (ctl_path c).
Definition array_foot (a : option array) : gmultiset nat := match a with Some a => {[+ arr_blk a +]} | None => ∅ end.

(** Structs in blocks of their own. *)
Definition boxes_foot {T : Type} (foot : T -> gmultiset nat) (l : list (nat * T)) : gmultiset nat :=
  foldr (fun '(p, x) F => {[+ p +]} ⊎ foot x ⊎ F) ∅ l.

Definition task_foot (t : TaskConfig) : gmultiset nat :=
  ptr_foot (t_fingerprint t) ⊎ req_pattern_foot (t_req_pattern t) ⊎ capturer_foot (t_capturer t) ⊎
  array_foot (t_outputs t) ⊎ boxes_foot output_foot (t_output_list t).

Definition tasks_foot (c : TasksAllConfig) : gmultiset nat := array_foot (ts_tasks c) ⊎ boxes_foot task_foot (ts_task_list c).

Definition config_foot (c : Config) : gmultiset nat :=
  ptr_foot (cpu_affinity c) ⊎
  match tasks_cfg c with Some (p, t) => {[+ p +]} ⊎ tasks_foot t | None => ∅ end ⊎
  match control c with Some (p, c) => {[+ p +]} ⊎ control_foot c | None => ∅ end.

(** ** Fields in range

    [str] is what is required of a [char *]. *)

Section ok.
  Context {P : Type} (str : P -> Prop).

Definition vxlan_ok (c : vxlan_cfg P) : Prop :=
  str (vx_host c) /\ 1 <= vx_port c <= 65535 /\
  ((vx_vni_version c = 1 /\ 0 <= vx_vni c < 2 ^ 24) \/ (vx_vni_version c = 2 /\ 0 <= vx_vni c < 2 ^ 32)) /\
  str (vx_bind_device c) /\ pmtudisc_ok (vx_pmtudisc c) /\ 0 <= max_payload_size (vx_split c) <= 65535.

Definition gre_ok (c : gre_cfg P) : Prop :=
  str (gre_host c) /\ 0 <= gre_service_tag c < 2 ^ 32 /\ str (gre_bind_device c) /\ pmtudisc_ok (gre_pmtudisc c).

Definition zmq_ok (c : zmq_cfg P) : Prop :=
  str (zmq_host c) /\ 1 <= zmq_port c <= 65535 /\ 0 <= zmq_hwm c <= INT_MAX /\ 0 <= zmq_service_tag c < 2 ^ 32 /\
  str (zmq_uuid c) /\ 0 <= zmq_heartbeat_ms c <= 60000.

Definition rotating_ok (c : rotating_cfg P) : Prop := str (rot_file_root c) /\ 0 <= rot_max_file_interval c <= INT_MAX.

Definition libpcap_ok (c : libpcap_cfg P) : Prop :=
  str (lp_interface c) /\ 1 <= lp_snaplen c <= MAX_SNAPLEN /\ str (lp_netns c) /\ str (lp_bpf_filter c) /\
  1 <= lp_buffer_size_mb c <= MAX_LIBPCAP_BUFFER_SIZE_MB /\ 0 <= lp_timeout_ms c <= INT_MAX.

Definition pcap_file_ok (c : pcap_file_cfg P) : Prop := str (pf_file_name c) /\ str (pf_bpf_filter c).

Definition dpdk_ok (c : dpdk_cfg P) : Prop :=
  str (dp_interface c) /\ 1 <= dp_snaplen c <= MAX_SNAPLEN /\ str (dp_bpf_filter c) /\ 2 <= dp_ring_size c <= 2 ^ 30.

End ok.

(** The type of a struct, and the member of the union that belongs to it. *)
Definition output_ok (o : OutputConfig char_ptr) : Prop :=
  0 <= rate_limit_mbps o <= INT_MAX /\ 0 <= slice o <= INT_MAX /\
  match o_config o with
  | OutZero => type_is (o_type o) "null" = true
  | OutVxlan c => type_is (o_type o) "vxlan" = true /\ vxlan_ok is_Some c
  | OutGre c => type_is (o_type o) "gre" = true /\ gre_ok is_Some c
  | OutZmq c => type_is (o_type o) "zmq" = true /\ zmq_ok is_Some c
  | OutFile p => type_is (o_type o) "file" = true /\ is_Some p
  | OutRotating c => type_is (o_type o) "rotating_file" = true /\ rotating_ok is_Some c
  end.

Definition capturer_ok (c : CapturerConfig char_ptr) : Prop :=
  match c_config c with
  | CapZero => False
  | CapLibpcap x => type_is (c_type c) "libpcap" = true /\ libpcap_ok is_Some x
  | CapPcapFile x => type_is (c_type c) "pcap_file" = true /\ pcap_file_ok is_Some x
  | CapDpdk x => type_is (c_type c) "dpdk_pdump" = true /\ dpdk_ok is_Some x
  end.

Definition req_pattern_ok (r : ReqPatternConfig char_ptr) : Prop :=
  if type_is (rp_type r) "custom" then is_Some (rp_pattern r)
  else (type_is (rp_type r) "none" || type_is (rp_type r) "auto") = true /\ rp_pattern r = None.

Definition full {T : Type} (a : option array) (l : list T) : Prop := exists a', a = Some a' /\ arr_cap a' = zlen l.

Definition task_ok (t : TaskConfig) : Prop :=
  req_pattern_ok (t_req_pattern t) /\ capturer_ok (t_capturer t) /\ full (t_outputs t) (t_output_list t) /\
  Forall (fun b => output_ok b.2) (t_output_list t).

Definition fingerprint_of (t : TaskConfig) : option string := chars <$> t_fingerprint t.

Definition tasks_ok (c : TasksAllConfig) : Prop :=
  full (ts_tasks c) (ts_task_list c) /\ Forall (fun b => task_ok b.2) (ts_task_list c) /\
  NoDup (omap (fun b => fingerprint_of b.2) (ts_task_list c)).

Definition control_ok (c : ControlConfig char_ptr) : Prop := type_is (ctl_type c) "unix" = true /\ is_Some (ctl_path c).

Definition config_ok (c : Config) : Prop :=
  LOG_DEBUG <= log_level c <= LOG_ERROR /\ is_Some (cpu_affinity c) /\
  ((execution_model c = EXECUTION_MODEL_RTC /\ pipeline_buffer_size_mb c = 0) \/
   (execution_model c = EXECUTION_MODEL_PIPELINE /\ 1 <= pipeline_buffer_size_mb c /\
    pipeline_buffer_size_mb c * (1024 * 1024) <= SIZE_MAX)) /\
  match control c with Some (_, x) => control_ok x | None => True end /\
  match tasks_cfg c with Some (_, t) => tasks_ok t | None => False end.

(** ** Parsing the structs *)

(** Compute the fields of a struct after the assignments. *)
Ltac cfg_red :=
  cbv beta iota delta
    [zero_split zero_vxlan zero_gre zero_zmq zero_rotating zero_output zero_libpcap zero_pcap_file zero_dpdk
     zero_task zero_control zero_config vxlan_of gre_of zmq_of file_of rotating_of libpcap_of pcap_file_of
     dpdk_of set_split_size set_split_recalc set_vx_host set_vx_port set_vx_capture_time set_vx_vni
     set_vx_bind_device set_vx_pmtudisc set_vx_split set_gre_host set_gre_service_tag set_gre_bind_device
     set_gre_pmtudisc set_zmq_host set_zmq_port set_zmq_hwm set_zmq_service_tag set_zmq_uuid
     set_zmq_heartbeat_ms set_rot_file_root set_rot_max_file_interval set_o_type set_rate_limit_mbps set_slice
     set_o_config set_lp_interface set_lp_snaplen set_lp_netns set_lp_bpf_filter set_lp_buffer_size_mb
     set_lp_timeout_ms set_lp_not_filter set_pf_file_name set_pf_bpf_filter set_dp_interface set_dp_snaplen
     set_dp_bpf_filter set_dp_ring_size set_c_type set_c_config set_rp_type set_rp_pattern set_ctl_type
     set_ctl_path set_t_fingerprint set_t_req_pattern set_t_capturer set_t_outputs set_t_output_list
     set_ts_tasks set_ts_task_list set_log_level set_cpu_affinity set_execution_model
     set_pipeline_buffer_size_mb set_control set_tasks_cfg max_payload_size recalculate_checksum vx_host
     vx_port vx_capture_time vx_vni_version vx_vni vx_bind_device vx_pmtudisc vx_split gre_host
     gre_service_tag gre_bind_device gre_pmtudisc zmq_host zmq_port zmq_hwm zmq_service_tag zmq_uuid
     zmq_heartbeat_ms rot_file_root rot_max_file_interval o_type rate_limit_mbps slice o_config lp_interface
     lp_snaplen lp_netns lp_bpf_filter lp_buffer_size_mb lp_timeout_ms lp_not_filter_output_hosts pf_file_name
     pf_bpf_filter dp_interface dp_snaplen dp_bpf_filter dp_ring_size c_type c_config rp_type rp_pattern
     ctl_type ctl_path arr_blk arr_cap t_fingerprint t_req_pattern t_capturer t_outputs t_output_list ts_tasks
     ts_task_list log_level cpu_affinity execution_model pipeline_buffer_size_mb control tasks_cfg vxlan_foot
     gre_foot zmq_foot output_foot libpcap_foot pcap_file_foot dpdk_foot capturer_foot req_pattern_foot
     control_foot array_foot task_foot tasks_foot config_foot ptr_foot].

(** Closes an equation between blocks. *)
Ltac cfg_blocks := clear; cfg_red; multiset_solver.

(** A struct parsed from zeroed memory next to the blocks [F]. *)
Definition parses {U : Permit} {T : Type} (foot : T -> gmultiset nat) (ok tagged : T -> Prop) (zero : T) (m : M T unit) : Prop :=
  forall F b, wp m (fun _ c H' _ => H' = F ⊎ foot c /\ ok c) (fun c H' => H' = F ⊎ foot c /\ tagged c) zero F b.

Section parses.
  Context {U : Permit}.

Lemma parse_split_ok obj s (F : gmultiset nat) b (Q : unit -> SplitConfig -> gmultiset nat -> bool -> Prop) E :
  (forall v, 0 <= max_payload_size v <= 65535 -> Q tt v F b) -> (forall v, E v F) -> wp (parse_split_config obj) Q E s F b.
Proof.
  intros HQ HE. unfold parse_split_config. destruct obj as [obj|].
  - repeat cfg_step; [|done|done]. apply HQ. cbn. rewrite u16_small by lia. done.
  - cfg_step. apply HQ. done.
Qed.

Lemma parse_vni_ok obj c (F : gmultiset nat) b (Q : unit -> vxlan_cfg char_ptr -> gmultiset nat -> bool -> Prop) E :
  (forall w v, (w = 1 /\ 0 <= v < 2 ^ 24) \/ (w = 2 /\ 0 <= v < 2 ^ 32) -> Q tt (set_vx_vni w v c) F b) -> E c F ->
  wp (parse_vni obj) Q E c F b.
Proof.
  intros HQ HE. unfold parse_vni, UINT32_MAX.
  repeat cfg_step; try done; apply HQ; [left|right]; (split; [done|]); [|rewrite u32_small; lia].
  bcase; [|rewrite u32_small; lia]. change 16777215 with (Z.ones 24). rewrite Z.land_ones by lia. rewrite u32_small; zlia.
Qed.

Lemma parse_vxlan_ok obj : parses vxlan_foot (vxlan_ok is_Some) (fun _ => True) zero_vxlan (parse_vxlan obj).
Proof.
  intros F b. unfold parse_vxlan.
  repeat first [cfg_step | apply parse_vni_ok; [intros ? ? ?|] | apply parse_split_ok; [intros ? ?|intros ?]];
    try (split; [cfg_blocks|done]).
  split; [cfg_blocks|]. unfold vxlan_ok. cbn in *. rewrite u16_small by lia. eauto 10.
Qed.

Lemma parse_gre_ok obj : parses gre_foot (gre_ok is_Some) (fun _ => True) zero_gre (parse_gre obj).
Proof.
  intros F b. unfold parse_gre, UINT32_MAX. repeat cfg_step; try (split; [cfg_blocks|done]).
  split; [cfg_blocks|]. unfold gre_ok. cbn in *. rewrite u32_small by lia. eauto with lia.
Qed.

Lemma parse_zmq_ok obj : parses zmq_foot (zmq_ok is_Some) (fun _ => True) zero_zmq (parse_zmq obj).
Proof.
  intros F b. unfold parse_zmq, UINT32_MAX. repeat cfg_step; try (split; [cfg_blocks|done]).
  split; [cfg_blocks|]. unfold zmq_ok. cbn in *. rewrite u32_small, u16_small by lia. eauto 10 with lia.
Qed.

Lemma parse_file_ok obj : parses ptr_foot is_Some (fun _ => True) None (parse_file obj).
Proof. intros F b. unfold parse_file. repeat cfg_step; (split; [cfg_blocks|done]). Qed.

Lemma parse_rotating_file_ok obj :
  parses (fun c => ptr_foot (rot_file_root c)) (rotating_ok is_Some) (fun _ => True) zero_rotating (parse_rotating_file obj).
Proof.
  intros F b. unfold parse_rotating_file. repeat cfg_step; (split; [cfg_blocks|done]).
Qed.

Lemma parse_libpcap_ok obj : parses libpcap_foot (libpcap_ok is_Some) (fun _ => True) zero_libpcap (parse_libpcap obj).
Proof.
  intros F b. unfold parse_libpcap. repeat cfg_step; try (split; [cfg_blocks|done]).
  split; [cfg_blocks|]. unfold libpcap_ok. cfg_red. do 4 (split; [done|]). split; [|done].
  apply clamp_range; [done| |done]. by apply integral_le0.
Qed.

Lemma parse_pcap_file_ok obj : parses pcap_file_foot (pcap_file_ok is_Some) (fun _ => True) zero_pcap_file (parse_pcap_file obj).
Proof.
  intros F b. unfold parse_pcap_file. repeat cfg_step; (split; [cfg_blocks|done]).
Qed.

Lemma parse_dpdk_ok obj : parses dpdk_foot (dpdk_ok is_Some) (fun _ => True) zero_dpdk (parse_dpdk_pdump obj).
Proof.
  intros F b. unfold parse_dpdk_pdump. repeat cfg_step; (split; [cfg_blocks|done]).
Qed.

End parses.

(** *** Structs with a type

    When a parser gives up, the member of the union it was filling is the
    one of the type, so freeing by type frees it. *)

Definition output_tagged (o : OutputConfig char_ptr) : Prop :=
  match o_config o with
  | OutZero => True
  | OutVxlan _ => type_is (o_type o) "vxlan" = true
  | OutGre _ => type_is (o_type o) "gre" = true
  | OutZmq _ => type_is (o_type o) "zmq" = true
  | OutFile _ => type_is (o_type o) "file" = true
  | OutRotating _ => type_is (o_type o) "rotating_file" = true
  end.

Definition capturer_tagged (c : CapturerConfig char_ptr) : Prop :=
  match c_config c with
  | CapZero => True
  | CapLibpcap _ => type_is (c_type c) "libpcap" = true
  | CapPcapFile _ => type_is (c_type c) "pcap_file" = true
  | CapDpdk _ => type_is (c_type c) "dpdk_pdump" = true
  end.

Definition req_pattern_tagged (r : ReqPatternConfig char_ptr) : Prop :=
  rp_pattern r = None \/ type_is (rp_type r) "custom" = true.

Definition control_tagged (c : ControlConfig char_ptr) : Prop := ctl_path c = None \/ type_is (ctl_type c) "unix" = true.

Definition task_tagged (t : TaskConfig) : Prop :=
  req_pattern_tagged (t_req_pattern t) /\ capturer_tagged (t_capturer t) /\ Forall (fun b => output_tagged b.2) (t_output_list t).

Lemma output_ok_tagged o : output_ok o -> output_tagged o.
Proof. unfold output_ok, output_tagged. intros (_ & _ & Ho). destruct (o_config o); by destruct_and?. Qed.

Lemma capturer_ok_tagged c : capturer_ok c -> capturer_tagged c.
Proof. unfold capturer_ok, capturer_tagged. destruct (c_config c); by intros ?; destruct_and?. Qed.

Lemma req_pattern_ok_tagged r : req_pattern_ok r -> req_pattern_tagged r.
Proof. unfold req_pattern_ok, req_pattern_tagged. destruct (type_is (rp_type r) "custom"); [by right|]. intros [_ ?]. by left. Qed.

Lemma task_ok_tagged t : task_ok t -> task_tagged t.
Proof.
  intros (Hr & Hc & _ & Ho). split; [by apply req_pattern_ok_tagged|]. split; [by apply capturer_ok_tagged|].
  revert Ho. apply List.Forall_impl. intros b. apply output_ok_tagged.
Qed.

(** The [custom] of a custom pattern is no object; and a task has such a
    pattern, and a configuration such a task. *)
Definition custom_no_object (req_pattern_obj : cJSON) : bool :=
  match get_object_item req_pattern_obj "type", get_object_item req_pattern_obj "custom" with
  | Some (JString type), Some (JObject _) => false
  | Some (JString type), _ => String.eqb type "custom"
  | _, _ => false
  end.

Definition task_misformats (task_obj : cJSON) : bool :=
  match get_object_item task_obj "req_pattern" with
  | Some (JObject _ as req_pattern) => custom_no_object req_pattern
  | _ => false
  end.

Definition misformats (json : cJSON) : bool :=
  match cJSON_IsArray (get_object_item json "tasks") with
  | Some tasks => existsb (fun t => cJSON_IsObject t && task_misformats t) tasks
  | None => false
  end.

Section parse_tagged.
  Context {U : Permit}.

(** Fill the member of a union and go on. *)
Ltac by_member L :=
  eapply wp_mono; [apply L | intros [] ? ? ? [-> ?] | intros ? ? [-> _]]; (split; [cfg_blocks|]).

Lemma parse_output_ok obj : parses output_foot output_ok output_tagged zero_output (parse_output_config obj).
Proof.
  intros F b. unfold parse_output_config.
  repeat cfg_step; try (split; [cfg_blocks|done]).
  - by_member (parse_vxlan_ok o); done.
  - by_member (parse_gre_ok o); done.
  - by_member (parse_zmq_ok o); done.
  - by_member (parse_file_ok o); done.
  - by_member (parse_rotating_file_ok o); done.
Qed.

Lemma parse_capturer_ok obj :
  parses capturer_foot capturer_ok capturer_tagged (Capturer None CapZero) (parse_capturer_config obj).
Proof.
  intros F b. unfold parse_capturer_config. repeat cfg_step; try (split; [cfg_blocks|done]).
  - by_member (parse_libpcap_ok o); done.
  - by_member (parse_pcap_file_ok o); done.
  - by_member (parse_dpdk_ok o); done.
Qed.

Lemma parse_req_pattern_ok obj :
  (custom_no_object obj = true -> U) ->
  parses req_pattern_foot req_pattern_ok req_pattern_tagged (ReqPattern None None) (parse_req_pattern_config obj).
Proof.
  intros HU F b. unfold parse_req_pattern_config, custom_no_object in *.
  destruct (get_object_item obj "custom") as [[]|]; repeat cfg_step;
    first [ split; [cfg_blocks|]; first [by left|done|unfold req_pattern_ok; cfg_red; cbn in *]
          | intros ? _ _; apply HU; by match goal with E : get_object_item _ "type" = _ |- _ => rewrite E end ].
  all: match goal with
    | E : String.eqb _ "auto" = true |- _ => apply String.eqb_eq in E; by rewrite E
    | E : String.eqb _ "custom" = true |- _ => by rewrite E
    end.
Qed.

Lemma parse_control_ok obj : parses control_foot control_ok control_tagged zero_control (parse_control_config obj).
Proof.
  intros F b. unfold parse_control_config. repeat cfg_step; (split; [cfg_blocks|]); try (by left). done.
Qed.

End parse_tagged.

(** ** Freeing the structs *)

(** [H] is [H'] and the blocks [X]. *)
Class Removes (H X H' : gmultiset nat) : Prop := removes : H = H' ⊎ X.

#[export] Instance removes_null H : Removes H (ptr_foot None) H | 0.
Proof. unfold Removes. cbn [ptr_foot]. multiset_solver. Qed.
#[export] Instance removes_here X Y : Removes (Y ⊎ X) X Y | 1.
Proof. done. Qed.
#[export] Instance removes_head X Y : Removes (X ⊎ Y) X Y | 2.
Proof. unfold Removes. multiset_solver. Qed.
#[export] Instance removes_right X Y Y' Z : Removes Y Z Y' -> Removes (X ⊎ Y) Z (X ⊎ Y') | 3.
Proof. unfold Removes. intros ->. multiset_solver. Qed.
#[export] Instance removes_left X X' Y Z : Removes X Z X' -> Removes (X ⊎ Y) Z (X' ⊎ Y) | 4.
Proof. unfold Removes. intros ->. multiset_solver. Qed.

(** Run with [X] allocated, [m] returns with [X] freed and all else as it
    was. *)
Definition frees {U : Permit} {S : Type} (X : gmultiset nat) (m : M S unit) : Prop :=
  forall F s b (Q : unit -> S -> gmultiset nat -> bool -> Prop) E, Q tt s F b -> wp m Q E s (F ⊎ X) b.

Section freeing.
  Context {U : Permit}.
  Context {S : Type}.

Lemma wp_frees (X : gmultiset nat) (m : M S unit) (Q : unit -> S -> gmultiset nat -> bool -> Prop) E s H H' b :
  frees X m -> Removes H X H' -> Q tt s H' b -> wp m Q E s H b.
Proof. intros Hm -> HQ. by apply Hm. Qed.

Lemma free_frees p : frees {[+ p +]} (free (S := S) p).
Proof. intros F s b Q E HQ. by apply wp_free. Qed.

Lemma free_str_frees p : frees (ptr_foot p) (free_str (S := S) p).
Proof.
  intros F s b Q E HQ. destruct p as [c|]; cbn [free_str ptr_foot]; [by apply wp_free|].
  rewrite gmultiset_disj_union_right_id. by apply wp_ret.
Qed.

Lemma free_array_frees a : frees (array_foot a) (free_array (S := S) a).
Proof.
  intros F s b Q E HQ. destruct a as [a|]; cbn [free_array array_foot]; [by apply wp_free|].
  rewrite gmultiset_disj_union_right_id. by apply wp_ret.
Qed.

Lemma delete_item_frees i : frees (item_foot i) (delete_item (S := S) i).
Proof.
  intros F s b Q E HQ st Hl Hb. pose proof (quiet_delete_item i s st) as Hq.
  pose proof (hoare_delete_item (mem := false) i (fun _ s' H' => s' = s /\ H' = F) (fun _ _ => False) s F (conj eq_refl eq_refl) st Hl ltac:(done)) as Hd.
  destruct (delete_item i s st) as [[] s' st'|s' st'|]; [|by destruct Hd|done]. destruct Hd as [[-> Hd] _]. by rewrite Hd, Hq, Hb.
Qed.

Lemma type_is_other t x y : type_is t x = true -> String.eqb x y = false -> type_is t y = false.
Proof. destruct t as [t|]; [|done]. cbn. intros Ht. by apply String.eqb_eq in Ht as ->. Qed.

End freeing.

(** A struct whose type is two different names. *)
Ltac type_clash :=
  match goal with
  | H1 : type_is ?t ?x = true, H2 : type_is ?t ?y = true |- _ =>
      exfalso; rewrite (type_is_other t x y H1 eq_refl) in H2; discriminate H2
  | H1 : type_is ?t ?x = true, H2 : type_is ?t ?x = false |- _ => exfalso; congruence
  end.

Ltac free_step :=
  lazymatch goal with
  | |- wp (bind _ _) _ _ _ _ _ => apply wp_bind
  | |- wp (ret _) _ _ _ _ _ => apply wp_ret
  | |- wp (free_str _) _ _ _ _ _ => eapply wp_frees; [apply free_str_frees|apply _|]
  | |- wp (free_array _) _ _ _ _ _ => eapply wp_frees; [apply free_array_frees|apply _|]
  | |- wp (free _) _ _ _ _ _ => eapply wp_frees; [apply free_frees|apply _|]
  | |- wp (delete_item _) _ _ _ _ _ => eapply wp_frees; [apply delete_item_frees|apply _|]
  | |- wp (if ?c then _ else _) _ _ _ _ _ => destruct c eqn:?; try type_clash
  end; cbn beta iota.

(** The blocks left are the ones that were there before. *)
Ltac free_done :=
  match goal with HQ : ?Q tt ?s ?F ?b |- ?Q tt ?s ?F' ?b => replace F' with F by multiset_solver; exact HQ end.

Section free_structs.
  Context {U : Permit}.
  Context {S : Type}.

Lemma free_output_frees p o : output_tagged o -> frees ({[+ p +]} ⊎ output_foot o) (free_output (S := S) p o).
Proof.
  intros Ht F s b Q E HQ. destruct o as [t r sl c]. unfold free_output, output_foot. unfold output_tagged in Ht.
  destruct c; cbn [o_type o_config vxlan_of gre_of zmq_of file_of rotating_of] in *;
    unfold vxlan_foot, gre_foot, zmq_foot; repeat free_step; free_done.
Qed.

Lemma free_control_frees p c : control_tagged c -> frees ({[+ p +]} ⊎ control_foot c) (free_control (S := S) (Some (p, c))).
Proof.
  intros Ht F s b Q E HQ. destruct c as [t path]. unfold free_control, control_foot. unfold control_tagged in Ht.
  cbn [ctl_type ctl_path] in *. destruct Ht as [-> |Ht]; repeat free_step; free_done.
Qed.

Lemma req_pattern_destroy_frees r : req_pattern_tagged r -> frees (req_pattern_foot r) (req_pattern_destroy (S := S) r).
Proof.
  intros Ht F s b Q E HQ. destruct r as [t pat]. unfold req_pattern_destroy, req_pattern_foot. unfold req_pattern_tagged in Ht.
  cbn [rp_type rp_pattern] in *. destruct Ht as [-> |Ht]; repeat free_step; free_done.
Qed.

Lemma free_outputs_frees l :
  Forall (fun b => output_tagged b.2) l -> frees (boxes_foot output_foot l) (free_outputs (S := S) l).
Proof.
  induction 1 as [|[p o] l Ho _ IH]; intros F s b Q E HQ.
  - cbn. rewrite gmultiset_disj_union_right_id. by apply wp_ret.
  - cbn [free_outputs]. apply wp_bind. change (boxes_foot output_foot ((p, o) :: l)) with ({[+ p +]} ⊎ output_foot o ⊎ boxes_foot output_foot l).
    eapply wp_frees; [by apply free_output_frees|apply _|]. cbn beta. by apply IH.
Qed.

End free_structs.

Section free_tasks.
  Context {U : Permit}.
  Context {S : Type}.

Lemma free_task_frees p t : task_tagged t -> frees ({[+ p +]} ⊎ task_foot t) (free_task (S := S) p t).
Proof.
  intros (Hr & Hc & Ho) F s b Q E HQ. destruct t as [fp r [ty c] a l]. unfold free_task, task_foot.
  cbn [t_fingerprint t_req_pattern t_capturer t_outputs t_output_list c_type] in *.
  unfold capturer_tagged in Hc. unfold capturer_foot.
  destruct c; cbn [c_type c_config libpcap_of pcap_file_of dpdk_of] in *;
    unfold libpcap_foot, pcap_file_foot, dpdk_foot; repeat free_step;
    (eapply wp_frees; [by apply free_outputs_frees|apply _|]); repeat free_step;
    (eapply wp_frees; [by apply req_pattern_destroy_frees|apply _|]); repeat free_step; free_done.
Qed.

Lemma free_tasks_frees l : Forall (fun b => task_tagged b.2) l -> frees (boxes_foot task_foot l) (free_tasks (S := S) l).
Proof.
  induction 1 as [|[p t] l Ht _ IH]; intros F s b Q E HQ.
  - cbn. rewrite gmultiset_disj_union_right_id. by apply wp_ret.
  - cbn [free_tasks]. apply wp_bind. change (boxes_foot task_foot ((p, t) :: l)) with ({[+ p +]} ⊎ task_foot t ⊎ boxes_foot task_foot l).
    eapply wp_frees; [by apply free_task_frees|apply _|]. cbn beta. by apply IH.
Qed.

Lemma free_tasks_config_frees p c :
  Forall (fun b => task_tagged b.2) (ts_task_list c) -> frees ({[+ p +]} ⊎ tasks_foot c) (free_tasks_config (S := S) p c).
Proof.
  intros Ht F s b Q E HQ. unfold free_tasks_config, tasks_foot. apply wp_bind.
  eapply wp_frees; [by apply free_tasks_frees|apply _|]. repeat free_step. free_done.
Qed.

Definition config_tagged (c : Config) : Prop :=
  match tasks_cfg c with Some (_, t) => Forall (fun b => task_tagged b.2) (ts_task_list t) | None => True end /\
  match control c with Some (_, x) => control_tagged x | None => True end.

Lemma free_config_frees p c : config_tagged c -> frees ({[+ p +]} ⊎ config_foot c) (free_config (S := S) p c).
Proof.
  intros [Ht Hc] F s b Q E HQ. unfold free_config, config_foot. repeat free_step.
  destruct (tasks_cfg c) as [[q t]|]; [eapply wp_frees; [by apply free_tasks_config_frees|apply _|]|apply wp_ret]; apply wp_bind;
    (destruct (control c) as [[r x]|]; [eapply wp_frees; [by apply free_control_frees|apply _|]|apply wp_ret]); repeat free_step; free_done.
Qed.

Lemma tasks_ok_tagged c : tasks_ok c -> Forall (fun b => task_tagged b.2) (ts_task_list c).
Proof. intros (_ & Ht & _). revert Ht. apply List.Forall_impl. intros b. apply task_ok_tagged. Qed.

Lemma config_ok_tagged c : config_ok c -> config_tagged c.
Proof.
  intros (_ & _ & _ & Hc & Ht). unfold config_tagged. destruct (tasks_cfg c) as [[q t]|]; [|done].
  split; [by apply tasks_ok_tagged|]. destruct (control c) as [[r x]|]; [|done]. right. apply Hc.
Qed.

End free_tasks.

(** ** Parsing the lists *)

Lemma boxes_foot_app {T : Type} (foot : T -> gmultiset nat) l1 l2 :
  boxes_foot foot (l1 ++ l2) = boxes_foot foot l1 ⊎ boxes_foot foot l2.
Proof.
  induction l1 as [|[p x] l1 IH]; [change (boxes_foot foot []) with (∅ : gmultiset nat); by rewrite gmultiset_disj_union_left_id|].
  change (boxes_foot foot (((p, x) :: l1) ++ l2)) with ({[+ p +]} ⊎ foot x ⊎ boxes_foot foot (l1 ++ l2)).
  change (boxes_foot foot ((p, x) :: l1)) with ({[+ p +]} ⊎ foot x ⊎ boxes_foot foot l1). rewrite IH. multiset_solver.
Qed.

Lemma boxes_foot_snoc {T : Type} (foot : T -> gmultiset nat) l p x :
  boxes_foot foot (l ++ [(p, x)]) = boxes_foot foot l ⊎ ({[+ p +]} ⊎ foot x).
Proof.
  rewrite boxes_foot_app. change (boxes_foot foot [(p, x)]) with ({[+ p +]} ⊎ foot x ⊎ ∅).
  by rewrite gmultiset_disj_union_right_id.
Qed.

Section parse_lists.
  Context {U : Permit}.

Lemma parse_outputs_ok items i t a F b :
  t_outputs t = Some a -> arr_cap a = zlen (t_output_list t) + zlen items ->
  Forall (fun b => output_ok b.2) (t_output_list t) ->
  wp (parse_outputs i items)
    (fun _ t' H' _ => H' = F ⊎ task_foot t' /\
       exists l, t' = set_t_output_list l t /\ zlen l = arr_cap a /\ Forall (fun b => output_ok b.2) l)
    (fun t' H' => H' = F ⊎ task_foot t' /\ exists l, t' = set_t_output_list l t /\ Forall (fun b => output_ok b.2) l)
    t (F ⊎ task_foot t) b.
Proof.
  revert i t b. induction items as [|obj items IH]; intros i t b Ha Hcap Hok; cbn [parse_outputs].
  - apply wp_ret. split; [done|]. exists (t_output_list t). rewrite Hcap, zlen_nil, Z.add_0_r. by destruct t.
  - assert (Herr : F ⊎ task_foot t = F ⊎ task_foot t /\
        exists l, t = set_t_output_list l t /\ Forall (fun b => output_ok b.2) l)
      by (split; [done|]; exists (t_output_list t); by destruct t).
    repeat cfg_step; try done. rewrite zlen_cons in Hcap.
    eapply wp_mono; [apply (parse_output_ok obj) | intros [] o H' b' [-> Ho] | intros o H' [-> Ho]].
    + apply wp_bind. intros st HH _. unfold push_output. rewrite Ha.
      assert ((zlen (t_output_list t) <? arr_cap a) = true) as -> by (apply Z.ltb_lt; pose proof (zlen_nonneg items); lia).
      set (t2 := set_t_output_list (t_output_list t ++ [(p, o)]) t).
      replace (live st) with (F ⊎ task_foot t2)
        by (rewrite HH; unfold t2, task_foot, set_t_output_list; cbn [t_fingerprint t_req_pattern t_capturer t_outputs t_output_list];
            rewrite boxes_foot_snoc; multiset_solver).
      eapply wp_mono; [apply (IH (i + 1) t2)| |].
      * done.
      * unfold t2, set_t_output_list. cbn [t_output_list]. rewrite zlen_app, zlen_cons, zlen_nil. lia.
      * apply Forall_app. split; [done|]. by apply List.Forall_cons.
      * done.
      * done.
    + apply wp_bind. replace (F ⊎ task_foot t ⊎ {[+ p +]} ⊎ output_foot o) with (F ⊎ task_foot t ⊎ ({[+ p +]} ⊎ output_foot o)) by multiset_solver.
      apply free_output_frees; [done|]. by repeat cfg_step.
Qed.

(** The struct [t] with what it owns, next to [F]. *)
Definition owns (F : gmultiset nat) (t : TaskConfig) (H : gmultiset nat) : Prop := H = F ⊎ task_foot t /\ task_tagged t.

Lemma parse_fingerprint_ok obj F b :
  wp (parse_fingerprint obj)
    (fun _ t' H' _ => owns F t' H' /\ exists fp, t' = set_t_fingerprint fp zero_task) (owns F) zero_task F b.
Proof.
  assert (Hn : forall fp, owns F (set_t_fingerprint fp zero_task) (F ⊎ ptr_foot fp)).
  { intros fp. split; [unfold task_foot; cfg_red; cbn [boxes_foot foldr]; multiset_solver|].
    split; [by left|]. split; [done|]. apply List.Forall_nil. }
  assert (H0 : owns F zero_task F) by (rewrite <- (gmultiset_disj_union_right_id F) at 2; apply (Hn None)).
  unfold parse_fingerprint. repeat cfg_step; eauto.
Qed.

Lemma parse_task_req_pattern_ok obj t F H' b :
  (task_misformats obj = true -> U) -> owns F t H' -> t_req_pattern t = ReqPattern None None ->
  wp (parse_task_req_pattern obj)
    (fun _ t' H' _ => owns F t' H' /\ exists r, req_pattern_ok r /\ t' = set_t_req_pattern r t) (owns F) t H' b.
Proof.
  intros HU [-> (_ & Hc & Ho)] Hz.
  assert (HE : forall r, req_pattern_tagged r -> owns F (set_t_req_pattern r t) (F ⊎ task_foot t ⊎ req_pattern_foot r)).
  { intros r Hr. split; [|done]. destruct t as [fp r0 c0 a0 l0]. cbn [t_req_pattern] in Hz. subst. clear. unfold task_foot. cfg_red. multiset_solver. }
  assert (H0 : owns F t (F ⊎ task_foot t)) by (split; [done|]; split; [rewrite Hz; by left|done]).
  unfold parse_task_req_pattern, task_misformats in *. destruct (get_object_item obj "req_pattern") as [[]|]; repeat cfg_step; try done.
  - rewrite Hz. eapply wp_mono; [by apply parse_req_pattern_ok | intros [] r H' b' [-> Hr] | intros r H' [-> Hr]].
    + split; [by apply HE, req_pattern_ok_tagged|eauto].
    + by apply HE.
  - rewrite Hz. split; [|eexists; split; [|done]].
    + replace (ptr_foot (Some p)) with (req_pattern_foot (ReqPattern (Some p) None)) by (clear; cfg_red; multiset_solver).
      apply HE. by left.
    + unfold req_pattern_ok, type_is. cfg_red. destruct p as [blk ch]. cbn [chars] in *. subst. done.
  - rewrite Hz. destruct t as [fp r0 c0 a0 l0]. cbn [t_req_pattern] in Hz. by subst.
Qed.

Lemma parse_task_capturer_ok obj t F H' b :
  owns F t H' -> t_capturer t = Capturer None CapZero ->
  wp (parse_task_capturer obj)
    (fun _ t' H' _ => owns F t' H' /\ exists c, capturer_ok c /\ t' = set_t_capturer c t) (owns F) t H' b.
Proof.
  intros [-> (Hr & _ & Ho)] Hz.
  assert (HE : forall c, capturer_tagged c -> owns F (set_t_capturer c t) (F ⊎ task_foot t ⊎ capturer_foot c)).
  { intros c Hc. split; [|done]. destruct t as [fp r0 c0 a0 l0]. cbn [t_capturer] in Hz. subst. clear. unfold task_foot.
    cbn [set_t_capturer t_fingerprint t_req_pattern t_capturer t_outputs t_output_list].
    replace (capturer_foot (Capturer None CapZero)) with (∅ : gmultiset nat) by (cfg_red; multiset_solver). multiset_solver. }
  assert (H0 : owns F t (F ⊎ task_foot t)) by (split; [done|]; split; [done|]; split; [by rewrite Hz|done]).
  unfold parse_task_capturer. repeat cfg_step; try done.
  rewrite Hz. eapply wp_mono; [apply parse_capturer_ok | intros [] c H' b' [-> Hc] | intros c H' [-> Hc]].
  - split; [by apply HE, capturer_ok_tagged|eauto].
  - by apply HE.
Qed.

Lemma parse_task_outputs_ok obj t F H' b :
  owns F t H' -> t_outputs t = None -> t_output_list t = [] ->
  wp (parse_task_outputs obj)
    (fun _ t' H' _ => H' = F ⊎ task_foot t' /\ exists a l, t' = set_t_output_list l (set_t_outputs a t) /\ full a l /\
       Forall (fun b => output_ok b.2) l) (owns F) t H' b.
Proof.
  intros [-> (Hr & Hc & Ho)] Ha Hl.
  assert (H0 : owns F t (F ⊎ task_foot t)) by done.
  unfold parse_task_outputs. repeat cfg_step; try done.
  set (a := Array p (zlen l)). set (t2 := set_t_outputs (Some a) t).
  replace (F ⊎ task_foot t ⊎ {[+ p +]}) with (F ⊎ task_foot t2)
    by (unfold t2, task_foot, set_t_outputs; cbn [t_fingerprint t_req_pattern t_capturer t_outputs t_output_list];
        rewrite Ha; cbn [array_foot a arr_blk]; multiset_solver).
  eapply wp_mono; [apply (parse_outputs_ok l 0 t2 a F)| |].
  - done.
  - cbn [t2 set_t_outputs t_output_list a arr_cap]. rewrite Hl, zlen_nil. lia.
  - cbn [t2 set_t_outputs t_output_list]. rewrite Hl. apply List.Forall_nil.
  - intros [] t' H' b' [-> (l' & -> & Hz & Hok)]. split; [done|]. exists (Some a), l'. split; [done|]. split; [|done]. by exists a.
  - intros t' H' [-> (l' & -> & Hok)]. split; [done|]. split; [done|]. split; [done|]. revert Hok.
    apply List.Forall_impl. intros x. apply output_ok_tagged.
Qed.

Lemma parse_task_ok obj : (task_misformats obj = true -> U) -> parses task_foot task_ok task_tagged zero_task (parse_task_config obj).
Proof.
  intros HU F b. unfold parse_task_config. apply wp_bind.
  eapply wp_mono; [apply parse_fingerprint_ok|intros [] t H' b' [Hw (fp & ->)]|done]. apply wp_bind.
  eapply wp_mono; [by apply parse_task_req_pattern_ok|intros [] t H'' b'' [Hw' (r & Hr & ->)]|done]. apply wp_bind.
  eapply wp_mono; [by apply parse_task_capturer_ok|intros [] t H3 b3 [Hw'' (c & Hc & ->)]|done].
  eapply wp_mono; [by apply parse_task_outputs_ok|intros [] t H4 b4 [-> (a & l & -> & Hf & Hl)]|done].
  split; [done|]. done.
Qed.

Definition fingerprints (l : list (nat * TaskConfig)) : list string := omap (fun b => fingerprint_of b.2) l.

Lemma fingerprints_snoc l p t :
  duplicate_fingerprint (t_fingerprint t) l = false -> NoDup (fingerprints l) -> NoDup (fingerprints (l ++ [(p, t)])).
Proof.
  intros Hd Hn. unfold fingerprints in *. rewrite omap_app. cbn. unfold fingerprint_of at 2. cbn [snd].
  destruct (t_fingerprint t) as [f|]; cbn [fmap option_fmap option_map]; [|by rewrite app_nil_r].
  apply list.NoDup_app. split; [done|]. split; [|apply NoDup_singleton].
  intros x Hx ->%list_elem_of_singleton. apply list_elem_of_omap in Hx as ([q u] & Hq & Hu).
  apply not_true_iff_false in Hd. apply Hd. cbn [duplicate_fingerprint]. apply existsb_exists. exists (q, u).
  split; [by apply list_elem_of_In|]. unfold type_is. unfold fingerprint_of in Hu. cbn [snd] in Hu.
  destruct (t_fingerprint u) as [g|]; [|done]. injection Hu as ->. apply String.eqb_refl.
Qed.

(** Tasks accepted so far. *)
Definition tasks_so_far (c : TasksAllConfig) : Prop :=
  Forall (fun b => task_ok b.2) (ts_task_list c) /\ NoDup (fingerprints (ts_task_list c)).

Lemma parse_tasks_ok items i c a F b :
  ts_tasks c = Some a -> arr_cap a = zlen (ts_task_list c) + zlen items -> tasks_so_far c ->
  (existsb (fun t => cJSON_IsObject t && task_misformats t) items = true -> U) ->
  wp (parse_tasks i items) (fun _ c' H' _ => H' = F ⊎ tasks_foot c' /\ tasks_ok c')
    (fun c' H' => H' = F ⊎ tasks_foot c' /\ tasks_so_far c') c (F ⊎ tasks_foot c) b.
Proof.
  revert i c b. induction items as [|obj items IH]; intros i c b Ha Hcap Hok HU; cbn [parse_tasks].
  - apply wp_ret. split; [done|]. destruct Hok as [Hok Hn]. split; [exists a|done]. rewrite Hcap, zlen_nil. split; [done|lia].
  - assert (Herr : F ⊎ tasks_foot c = F ⊎ tasks_foot c /\ tasks_so_far c) by done.
    cbn [existsb] in HU. repeat cfg_step; try done. rewrite zlen_cons in Hcap.
    assert (Hbox : forall t, F ⊎ tasks_foot c ⊎ {[+ p +]} ⊎ task_foot t = F ⊎ tasks_foot c ⊎ ({[+ p +]} ⊎ task_foot t))
      by (intros; clear; multiset_solver).
    cbn [andb] in HU.
    eapply wp_mono; [apply (parse_task_ok obj); intros Hb; apply HU; by rewrite Hb | intros [] t H' b' [-> Ho] | intros t H' [-> Ho]]; rewrite Hbox.
    + repeat cfg_step.
      * apply free_task_frees; [by apply task_ok_tagged|]. by repeat cfg_step.
      * intros st HH _. unfold push_task. rewrite Ha.
        assert ((zlen (ts_task_list c) <? arr_cap a) = true) as -> by (apply Z.ltb_lt; pose proof (zlen_nonneg items); lia).
        set (c2 := set_ts_task_list (ts_task_list c ++ [(p, t)]) c).
        replace (live st) with (F ⊎ tasks_foot c2)
          by (rewrite HH; unfold c2, tasks_foot, set_ts_task_list; cbn [ts_tasks ts_task_list];
              rewrite boxes_foot_snoc; clear; multiset_solver).
        apply (IH (i + 1) c2); [done| | |intros Hb; apply HU; by rewrite Hb, orb_true_r].
        -- unfold c2, set_ts_task_list. cbn [ts_task_list]. rewrite zlen_app, zlen_cons, zlen_nil. lia.
        -- destruct Hok as [Hok Hn]. split; [|by apply fingerprints_snoc]. apply Forall_app. split; [done|]. by apply List.Forall_cons.
    + apply wp_bind. apply free_task_frees; [done|]. by repeat cfg_step.
Qed.

Lemma tasks_so_far_tagged c : tasks_so_far c -> Forall (fun b => task_tagged b.2) (ts_task_list c).
Proof. intros [Ht _]. revert Ht. apply List.Forall_impl. intros b. apply task_ok_tagged. Qed.

Lemma tasks_body_ok obj : (misformats obj = true -> U) -> parses tasks_foot tasks_ok tasks_so_far (TasksAll None []) (tasks_body obj).
Proof.
  intros HU F b. unfold misformats in HU.
  assert (H0 : F = F ⊎ tasks_foot (TasksAll None []) /\ tasks_so_far (TasksAll None [])).
  { split; [unfold tasks_foot; cfg_red; cbn [boxes_foot foldr]; multiset_solver|]. split; [apply List.Forall_nil|]. apply NoDup_nil_2. }
  unfold tasks_body. destruct (cJSON_IsArray (get_object_item obj "tasks")) as [l|]; repeat cfg_step; try done.
  replace (F ⊎ {[+ p +]}) with (F ⊎ tasks_foot (set_ts_tasks (Some (Array p (zlen l))) (TasksAll None [])))
    by (unfold tasks_foot; cfg_red; cbn [boxes_foot foldr]; multiset_solver).
  apply (parse_tasks_ok l 0 _ (Array p (zlen l))); [done|done|apply H0|done].
Qed.

Lemma parse_tasks_json_ok {S : Type} obj F (s : S) (Q : option (nat * TasksAllConfig) -> S -> gmultiset nat -> bool -> Prop) E b :
  (misformats obj = true -> U) ->
  (forall p c b, tasks_ok c -> Q (Some (p, c)) s (F ⊎ ({[+ p +]} ⊎ tasks_foot c)) b) -> Q None s F true ->
  wp (parse_tasks_json obj) Q E s F b.
Proof.
  intros HU HQ HN. unfold parse_tasks_json. repeat cfg_step; [|done].
  eapply wp_mono; [by apply (tasks_body_ok obj) | intros [] c H' b' [-> Ho] | intros c H' [-> Ho]];
    rewrite <- gmultiset_disj_union_assoc.
  - by apply wp_ret, HQ.
  - apply wp_bind, free_tasks_config_frees; [by apply tasks_so_far_tagged|]. by apply wp_ret.
Qed.

End parse_lists.

Section parse_config.
  Context {U : Permit}.
  Implicit Types (c : Config) (Q : unit -> Config -> gmultiset nat -> bool -> Prop) (E : Config -> gmultiset nat -> Prop).

Lemma parse_log_level_ok obj c Q E H' b :
  (forall v, LOG_DEBUG <= v <= LOG_ERROR -> Q tt (set_log_level v c) H' b) -> E c H' -> wp (parse_log_level obj) Q E c H' b.
Proof. intros HQ HE. unfold parse_log_level. repeat cfg_step; try done; by apply HQ. Qed.

Definition model_ok (m : Z) : Prop := m = EXECUTION_MODEL_RTC \/ m = EXECUTION_MODEL_PIPELINE.

Lemma parse_execution_model_ok obj c Q E H' b :
  (forall m, model_ok m -> Q tt (set_execution_model m c) H' b) -> E c H' -> wp (parse_execution_model obj) Q E c H' b.
Proof. intros HQ HE. unfold parse_execution_model. repeat cfg_step; try done; apply HQ; unfold model_ok; auto. Qed.

Definition pipeline_ok (m v : Z) : Prop :=
  (m = EXECUTION_MODEL_RTC /\ v = 0) \/ (m = EXECUTION_MODEL_PIPELINE /\ 1 <= v /\ v * (1024 * 1024) <= SIZE_MAX).

Lemma parse_pipeline_ok obj c Q E H' b :
  model_ok (execution_model c) ->
  (forall v, pipeline_ok (execution_model c) v -> Q tt (set_pipeline_buffer_size_mb v c) H' b) -> E c H' ->
  wp (parse_pipeline obj) Q E c H' b.
Proof.
  intros Hm HQ HE. unfold parse_pipeline. apply wp_bind, wp_gets.
  destruct Hm as [Hm|Hm]; rewrite Hm in *; cbn [Z.eqb EXECUTION_MODEL_RTC EXECUTION_MODEL_PIPELINE Pos.eqb].
  - apply wp_modify, HQ. by left.
  - repeat cfg_step; try done. apply HQ. right. unfold SIZE_MAX in *. split; [done|].
    change (18446744073709551615 / (1024 * 1024)) with 17592186044415 in *. lia.
Qed.

Definition control_opt_ok (x : option (nat * ControlConfig char_ptr)) : Prop :=
  match x with Some (_, x) => control_ok x | None => True end.
Definition control_opt_foot (x : option (nat * ControlConfig char_ptr)) : gmultiset nat :=
  match x with Some (p, x) => {[+ p +]} ⊎ control_foot x | None => ∅ end.

Lemma parse_control_opt_ok obj c Q E H' b :
  (forall x b, control_opt_ok x -> Q tt (set_control x c) (H' ⊎ control_opt_foot x) b) -> E c H' ->
  wp (parse_control obj) Q E c H' b.
Proof.
  intros HQ HE. unfold parse_control. repeat cfg_step; try done.
  - eapply wp_mono; [apply parse_control_ok | intros [] x H'' b' [-> Hx] | intros x H'' [-> Hx]];
      rewrite <- gmultiset_disj_union_assoc.
    + by apply wp_modify, (HQ (Some (p, x))).
    + apply wp_bind, free_control_frees; [done|]. by repeat cfg_step.
  - rewrite <- (gmultiset_disj_union_right_id H'). by apply (HQ None).
Qed.

Lemma config_body_ok obj F b :
  (misformats obj = true -> U) ->
  wp (config_body obj) (fun _ c H' _ => H' = F ⊎ config_foot c /\ config_ok c)
    (fun c H' => H' = F ⊎ config_foot c /\ config_tagged c) zero_config F b.
Proof.
  intros HU. unfold config_body. apply wp_bind, parse_tasks_json_ok; [done|intros p t b' Ht|cfg_step; (split; [cfg_blocks|done])].
  assert (Hg : forall lv a m v, config_tagged (Cfg lv a m v None (Some (p, t))))
    by (intros; split; [by apply tasks_ok_tagged|done]).
  repeat first [cfg_step | apply parse_log_level_ok; [intros ? ?|] | apply parse_execution_model_ok; [intros ? ?|]
    | apply parse_pipeline_ok; [done|intros ? ?|] | apply parse_control_opt_ok; [intros ctl ? ?|]];
    try (split; [clear; unfold config_foot; cbn [cpu_affinity tasks_cfg control ptr_foot set_tasks_cfg set_log_level set_cpu_affinity
           set_execution_model set_pipeline_buffer_size_mb set_control zero_config]; multiset_solver|apply Hg]).
  split; [|done]. clear. unfold config_foot, control_opt_foot.
  cbn [cpu_affinity tasks_cfg control ptr_foot set_tasks_cfg set_log_level set_cpu_affinity
       set_execution_model set_pipeline_buffer_size_mb set_control zero_config].
  destruct ctl as [[q x]|]; multiset_solver.
Qed.

Lemma parse_config_json_ok {S : Type} obj F (s : S) (Q : option (nat * Config) -> S -> gmultiset nat -> bool -> Prop)
    (E : S -> gmultiset nat -> Prop) b :
  (misformats obj = true -> U) ->
  (forall p c b, config_ok c -> Q (Some (p, c)) s (F ⊎ ({[+ p +]} ⊎ config_foot c)) b) -> Q None s F true ->
  wp (parse_config_json obj) Q E s F b.
Proof.
  intros HU HQ HN. unfold parse_config_json. repeat cfg_step; [|done].
  eapply wp_mono; [by apply (config_body_ok obj) | intros [] c H' b' [-> Ho] | intros c H' [-> Ho]];
    rewrite <- gmultiset_disj_union_assoc.
  - by apply wp_ret, HQ.
  - apply wp_bind, free_config_frees; [done|]. by apply wp_ret.
Qed.

End parse_config.

(** ** Files *)

Section parse_files.
  Context {U : Permit} {S : Type}.
  Implicit Types (E : S -> gmultiset nat -> Prop).

Lemma fopen_ok ok (Q : option nat -> S -> gmultiset nat -> bool -> Prop) E s H' b :
  (forall fp, Q (Some fp) s (H' ⊎ {[+ fp +]}) b) -> Q None s H' b -> wp (fopen ok) Q E s H' b.
Proof. intros H1 H2 st <- <-. unfold fopen. destruct ok; auto. Qed.

Lemma refuse_ok fp text (Q : option cstr -> S -> gmultiset nat -> bool -> Prop) E s H' b :
  NonEmpty text -> Q None s H' true -> wp (refuse fp text) Q E s (H' ⊎ {[+ fp +]}) b.
Proof. intros Ht HQ. apply wp_bind, wp_set_error; [done|]. by apply wp_bind, wp_free, wp_ret. Qed.

Lemma read_file_ok filename f (Q : option cstr -> S -> gmultiset nat -> bool -> Prop) E s H' b :
  (forall p b, Q (Some p) s (H' ⊎ {[+ blk p +]}) b) -> Q None s H' true -> wp (read_file_contents filename f) Q E s H' b.
Proof.
  intros H1 H2. unfold read_file_contents. apply wp_bind, fopen_ok; [intros fp|by repeat cfg_step].
  repeat (case_match || cfg_step); try (apply refuse_ok; [apply _|done]).
  - by repeat free_step.
  - repeat free_step. apply (H1 (CStr p0 _)).
Qed.

Lemma cjson_parse_ok text (Q : option item -> S -> gmultiset nat -> bool -> Prop) E s H' b :
  (forall i b, Q (Some i) s (H' ⊎ item_foot i) b) -> Q None s H' true -> wp (cjson_parse text) Q E s H' b.
Proof.
  intros H1 H2. unfold cjson_parse. destruct text as [text|]; [|apply wp_bind, wp_set_error; [apply _|by apply wp_ret]].
  assert (Hs : forall fin, NonEmpty (syntax_error_text text fin)) by (intros fin; unfold syntax_error_text; destruct (position 1 1 fin text); apply _).
  apply wp_bind. intros st Hl Hb. destruct (parse_with_opts_ok text true s st) as ([[i|] fin] & st' & -> & He & Hl'); cbn [fst] in Hl'.
  - apply wp_ret. rewrite Hl', Hl. apply H1.
  - rewrite gmultiset_disj_union_right_id, Hl in Hl'. rewrite Hl'. apply wp_bind, wp_set_error; [done|]. by apply wp_ret.
Qed.

End parse_files.

(** The tree and the text are given back whatever the reader answers; only
    the reader, on the tree cJSON made of what the file holds, can be the
    reason for undefined behaviour. *)
Lemma parse_file_with_ok {T : Type} (foot : T -> gmultiset nat) (ok : T -> Prop) (bad : cJSON -> bool)
    (read : cJSON -> M unit (option (nat * T))) filename f st :
  (forall (U : Permit) j F Q E b, (bad j = true -> U) ->
     (forall p c b, ok c -> Q (Some (p, c)) tt (F ⊎ ({[+ p +]} ⊎ foot c)) b) -> Q None tt F true ->
     wp (U := U) (read j) Q E tt F b) ->
  match parse_file_with read filename f tt st with
  | Ok (Some (p, c)) _ st' => live st' = live st ⊎ ({[+ p +]} ⊎ foot c) /\ ok c
  | Ok None _ st' => live st' = live st /\ failed (err st') = true
  | Err _ _ => False
  | UB => exists buffer st1 json st2,
      read_file_contents filename f tt st = Ok (Some buffer) tt st1 /\
      cjson_parse (Some (c_string (chars buffer))) tt st1 = Ok (Some json) tt st2 /\ bad (to_json json) = true
  end.
Proof.
  intros Hread. unfold parse_file_with, bind.
  pose proof (read_file_ok (U := False) filename f (fun r _ H' b =>
    match r with Some p => H' = live st ⊎ {[+ blk p +]} | None => H' = live st /\ b = true end) (fun _ _ => False)
    tt (live st) (failed (err st)) ltac:(done) ltac:(done) st eq_refl eq_refl) as H1.
  destruct (read_file_contents filename f tt st) as [[buf|] [] st1|[] st1|] eqn:E1; [|done|by destruct H1|done].
  pose proof (cjson_parse_ok (U := False) (Some (c_string (chars buf))) (fun r _ H' b =>
    match r with Some i => H' = live st ⊎ {[+ blk buf +]} ⊎ item_foot i | None => H' = live st ⊎ {[+ blk buf +]} /\ b = true end)
    (fun _ _ => False) tt (live st1) (failed (err st1)) ltac:(by rewrite H1) ltac:(done) st1 eq_refl eq_refl) as H2.
  destruct (cjson_parse (Some (c_string (chars buf))) tt st1) as [[json|] [] st2|[] st2|] eqn:E2; [| |by destruct H2|done].
  2:{ destruct H2 as [H2 Hf].
      pose proof (free_frees (U := False) (blk buf) (live st) tt true (fun _ _ H' b => H' = live st /\ b = true) (fun _ _ => False)
        ltac:(done) st2 H2 Hf) as H3.
      by destruct (free (blk buf) tt st2) as [[] [] st3|[] st3|]; [|destruct H3|]. }
  assert (Hwp : wp (U := bad (to_json json) = true)
    (bind (read (to_json json)) (fun result => bind (delete_item json) (fun _ => bind (free (blk buf)) (fun _ => ret result))))
    (fun r _ H' b => match r with Some (p, c) => H' = live st ⊎ ({[+ p +]} ⊎ foot c) /\ ok c | None => H' = live st /\ b = true end)
    (fun _ _ => False) tt (live st2) (failed (err st2))).
  { apply wp_bind, Hread; [done|intros p c b3 Hc|]; rewrite H2; by repeat free_step. }
  specialize (Hwp st2 eq_refl eq_refl). unfold bind in Hwp.
  destruct (read (to_json json) tt st2) as [r [] st3|[] st3|]; [|by destruct Hwp|by exists buf, st1, json, st2].
  destruct (delete_item json tt st3) as [[] [] st4|[] st4|] eqn:E4; [|by destruct Hwp|].
  - destruct (free (blk buf) tt st4) as [[] [] st5|[] st5|] eqn:E5; [|by destruct Hwp|].
    + cbn in Hwp |- *. by destruct r as [[p c]|].
    + by exists buf, st1, json, st2.
  - by exists buf, st1, json, st2.
Qed.

(** ** Properties *)

Lemma capturer_ok_snaplen t : capturer_ok (t_capturer t) -> 1 <= task_capturer_snaplen t <= MAX_SNAPLEN.
Proof.
  unfold capturer_ok, task_capturer_snaplen, libpcap_of, dpdk_of. destruct (t_capturer t) as [ty c]. cbn [c_type c_config].
  destruct c; intros Hc; [done| | |]; destruct Hc as [Hty Hc].
  - rewrite Hty. apply Hc.
  - rewrite (type_is_other _ _ "libpcap" Hty eq_refl), Hty. done.
  - rewrite (type_is_other _ _ "libpcap" Hty eq_refl), (type_is_other _ _ "pcap_file" Hty eq_refl), Hty. apply Hc.
Qed.

Lemma capturer_ok_buffer c : capturer_ok c -> lp_buffer_size_mb (libpcap_of c) * (1024 * 1024) <= INT_MAX.
Proof.
  unfold capturer_ok, libpcap_of. destruct (c_config c); [done| |done|done]. intros (_ & _ & _ & _ & _ & Hb & _).
  change MAX_LIBPCAP_BUFFER_SIZE_MB with 2047 in Hb. unfold INT_MAX. lia.
Qed.

Lemma parse_config_file_ok filename f st :
  match parse_config_file filename f tt st with
  | Ok (Some (p, c)) _ st' => live st' = live st ⊎ ({[+ p +]} ⊎ config_foot c) /\ config_ok c
  | Ok None _ st' => live st' = live st /\ failed (err st') = true
  | Err _ _ => False
  | UB => exists buffer st1 json st2,
      read_file_contents filename f tt st = Ok (Some buffer) tt st1 /\
      cjson_parse (Some (c_string (chars buffer))) tt st1 = Ok (Some json) tt st2 /\ misformats (to_json json) = true
  end.
Proof.
  apply (parse_file_with_ok config_foot config_ok misformats). intros. by apply parse_config_json_ok.
Qed.

Section properties.

(** C15: Whatever the file holds and whichever calls fail, [parse_config_file]
    returns: a configuration whose blocks are the only ones left over, all of
    which [free_config] frees, once each; or [NULL] with nothing left over and
    the error buffer holding a message within its 256 bytes.  The one
    exception is a file in which a task has a pattern of the type [custom]
    whose [custom] is no object: then, and only then, the behaviour can be
    undefined, for the message about it is formatted with an argument that is
    not there (config.c:1007). *)
Theorem config_file_memory filename f st :
  match parse_config_file filename f tt st with
  | Ok (Some (p, c)) _ st' =>
      live st' = live st ⊎ ({[+ p +]} ⊎ config_foot c) /\
      exists st2, free_config p c tt st' = Ok tt tt st2 /\ live st2 = live st
  | Ok None _ st' => live st' = live st /\ failed (err st') = true
  | Err _ _ => False
  | UB => exists buffer st1 json st2,
      read_file_contents filename f tt st = Ok (Some buffer) tt st1 /\
      cjson_parse (Some (c_string (chars buffer))) tt st1 = Ok (Some json) tt st2 /\ misformats (to_json json) = true
  end.
Proof.
  pose proof (parse_config_file_ok filename f st) as Hrun.
  destruct (parse_config_file filename f tt st) as [[[p c]|] [] st'|s st'|]; [|done..].
  destruct Hrun as [Hl Hc]. split; [done|]. apply config_ok_tagged in Hc.
  pose proof (free_config_frees (U := False) (S := unit) p c Hc (live st) tt (failed (err st')) (fun _ _ H' _ => H' = live st)
                (fun _ _ => False) eq_refl st' Hl eq_refl) as Hf.
  destruct (free_config p c tt st') as [[] [] st2|s2 st2|]; [by eauto|by destruct Hf|done].
Qed.

(** C16: A configuration that is accepted, from any JSON text and with any
    allocation failures, is in range: ports, tags, snaplens, sizes and limits
    fit the fields and the arithmetic they are used in (a rate limit in bits
    per second and a pipeline buffer in bytes fit 64 bits, a capture buffer in
    bytes fits an [int]); every string of the type is present; the types are
    known; all slots of the task and output arrays are filled; and no two
    tasks have the same fingerprint, which the reload relies on. *)
Theorem config_accepted_in_range json st p c s' st' :
  parse_config_json json tt st = Ok (Some (p, c)) s' st' ->
  config_ok c /\
  exists q ts, tasks_cfg c = Some (q, ts) /\ NoDup (fingerprints (ts_task_list ts)) /\
    Forall (fun t => 1 <= task_capturer_snaplen t.2 <= MAX_SNAPLEN /\
      lp_buffer_size_mb (libpcap_of (t_capturer t.2)) * (1024 * 1024) <= INT_MAX /\
      Forall (fun o => 0 <= rate_limit_mbps o.2 * 1000000 < 2 ^ 64) (t_output_list t.2)) (ts_task_list ts).
Proof.
  intros Hrun.
  assert (Hok : config_ok c).
  { pose proof (parse_config_json_ok (U := True) (S := unit) json (live st) tt
      (fun r _ _ _ => match r with Some (_, c) => config_ok c | None => True end) (fun _ _ => False) (failed (err st))
      ltac:(done) ltac:(done) ltac:(done) st eq_refl eq_refl) as Hwp. by rewrite Hrun in Hwp. }
  split; [done|]. destruct Hok as (_ & _ & _ & _ & Ht). destruct (tasks_cfg c) as [[q ts]|]; [|done].
  exists q, ts. split; [done|]. destruct Ht as (_ & Ht & Hn). split; [done|].
  revert Ht. apply List.Forall_impl. intros [r t] (_ & Hc & _ & Ho). cbn [snd] in *.
  split; [by apply capturer_ok_snaplen|]. split; [by apply capturer_ok_buffer|].
  revert Ho. apply List.Forall_impl. intros [x o] (Hr & _). cbn [snd] in *. unfold INT_MAX in Hr. lia.
Qed.

End properties.

(** *** Witness *)

Definition demo_json : cJSON :=
  JObject [("tasks", JArray [JObject [
    ("capturer", JObject [("type", JString "pcap_file"); ("pcap_file", JObject [("file_name", JString "a.pcap")])]);
    ("outputs", JArray [JObject [("type", JString "null"); ("rate_limit_mbps", JNumber (dbl_of_Z 100))]])]])].

Definition demo_heap : store := Store ∅ 0 [] (ParseError CJSON_PARSE_OK EmptyString).

Lemma config_accepted_in_range_witness :
  exists p c s' st', parse_config_json demo_json tt demo_heap = Ok (Some (p, c)) s' st' /\ config_ok c.
Proof.
  destruct (parse_config_json demo_json tt demo_heap) as [[[p c]|] s' st'|s' st'|] eqn:E;
    [|vm_compute in E; discriminate E..].
  exists p, c, s', st'. split; [done|]. exact (proj1 (config_accepted_in_range _ _ _ _ _ _ E)).
Defined.

(** The exception: a custom pattern without its [custom]. *)
Definition custom_missing_json : cJSON :=
  JObject [("tasks", JArray [JObject [("req_pattern", JObject [("type", JString "custom")])]])].

Example custom_missing_undefined : parse_config_json custom_missing_json tt demo_heap = UB.
Proof. by vm_compute. Qed.
