(* ===== verification/ConfigRoundtrip.v ===== *)
(** * Every configuration in range can be written down (config.c)

    A configuration is printed as the JSON a user would write, every field
    spelled out; the parser reads it back.  Together with
    [config_accepted_in_range] this determines which configurations the
    worker can be given: exactly the ones in range. *)

From stdpp Require Import prelude list strings pretty gmultiset.
From Stdlib Require Import SpecFloat.
From S2P Require Import Prelude RateLimit CJson JsonParse Config ConfigSafety.

(** ** Runs in which every allocation succeeds *)

Definition runs {S A : Type} (m : M S A) (s : S) (Q : A -> S -> Prop) : Prop :=
  forall st, answers st = [] -> exists a s' st', m s st = Ok a s' st' /\ answers st' = [] /\ Q a s'.

Section runs_rules.
  Context {S : Type}.
  Implicit Types (s : S).

Lemma runs_ret {A : Type} (a : A) s (Q : A -> S -> Prop) : Q a s -> runs (ret a) s Q.
Proof. intros HQ st Hst. by exists a, s, st. Qed.

Lemma runs_bind {A B : Type} (m : M S A) (k : A -> M S B) s Q :
  runs m s (fun a s' => runs (k a) s' Q) -> runs (bind m k) s Q.
Proof.
  intros Hm st Hst. destruct (Hm st Hst) as (a & s1 & st1 & E1 & Hst1 & Hk). unfold bind. rewrite E1. by apply Hk.
Qed.

Lemma runs_mono {A : Type} (m : M S A) s (P Q : A -> S -> Prop) : runs m s P -> (forall a s', P a s' -> Q a s') -> runs m s Q.
Proof. intros Hm HPQ st Hst. destruct (Hm st Hst) as (a & s1 & st1 & E1 & Hst1 & HP). exists a, s1, st1. auto. Qed.

Lemma runs_modify (f : S -> S) s (Q : unit -> S -> Prop) : Q tt (f s) -> runs (modify f) s Q.
Proof. intros HQ st Hst. by exists tt, (f s), st. Qed.

Lemma runs_gets {A : Type} (f : S -> A) s (Q : A -> S -> Prop) : Q (f s) s -> runs (gets f) s Q.
Proof. intros HQ st Hst. by exists (f s), s, st. Qed.

Lemma runs_alloc s (Q : option nat -> S -> Prop) : (forall p, Q (Some p) s) -> runs alloc s Q.
Proof. intros HQ st Hst. unfold alloc. rewrite Hst. by eexists _, _, _. Qed.

Lemma runs_strdup text s (Q : option cstr -> S -> Prop) : (forall p, chars p = text -> Q (Some p) s) -> runs (strdup text) s Q.
Proof. intros HQ. apply runs_bind, runs_alloc. intros p. by apply runs_ret, HQ. Qed.

Lemma runs_wrapping {A : Type} text (m : M S A) s Q : runs m s Q -> runs (wrapping text m) s Q.
Proof.
  intros Hm st Hst. destruct (Hm st Hst) as (a & s1 & st1 & E1 & Hst1 & HQ). unfold wrapping. rewrite E1. by exists a, s1, st1.
Qed.

Lemma runs_within {T A : Type} (get : S -> T) set (m : M T A) s Q :
  runs m (get s) (fun a t => Q a (set t s)) -> runs (within get set m) s Q.
Proof.
  intros Hm st Hst. destruct (Hm st Hst) as (a & t & st1 & E1 & Hst1 & HQ). unfold within. rewrite E1. by exists a, (set t s), st1.
Qed.

Lemma runs_fresh {T A B : Type} (zero : T) (m : M T A) (handle : T -> M S B) k s Q :
  runs m zero (fun a t => runs (k a t) s Q) -> runs (fresh zero m handle k) s Q.
Proof.
  intros Hm st Hst. destruct (Hm st Hst) as (a & t & st1 & E1 & Hst1 & Hk). unfold fresh. rewrite E1. by apply Hk.
Qed.

Lemma runs_dup_to oom set text s (Q : unit -> S -> Prop) :
  (forall p, chars p = text -> Q tt (set (Some p) s)) -> runs (dup_to oom set text) s Q.
Proof. intros HQ. apply runs_bind, runs_strdup. intros p Hp. apply runs_bind, runs_modify, runs_ret. by apply HQ. Qed.

End runs_rules.

(** ** Configurations as values *)

Definition str (p : char_ptr) : string := default EmptyString (chars <$> p).

Definition vxlan_view (c : vxlan_cfg char_ptr) : vxlan_cfg string :=
  VxlanCfg (str (vx_host c)) (vx_port c) (vx_capture_time c) (vx_vni_version c) (vx_vni c) (str (vx_bind_device c))
    (vx_pmtudisc c) (vx_split c).
Definition gre_view (c : gre_cfg char_ptr) : gre_cfg string :=
  GreCfg (str (gre_host c)) (gre_service_tag c) (str (gre_bind_device c)) (gre_pmtudisc c).
Definition zmq_view (c : zmq_cfg char_ptr) : zmq_cfg string :=
  ZmqCfg (str (zmq_host c)) (zmq_port c) (zmq_hwm c) (zmq_service_tag c) (str (zmq_uuid c)) (zmq_heartbeat_ms c).
Definition rotating_view (c : rotating_cfg char_ptr) : rotating_cfg string :=
  RotatingCfg (str (rot_file_root c)) (rot_max_file_interval c).

Definition output_view (o : OutputConfig char_ptr) : OutputConfig string :=
  Output (str (o_type o)) (rate_limit_mbps o) (slice o)
    match o_config o with
    | OutZero => OutZero
    | OutVxlan c => OutVxlan (vxlan_view c)
    | OutGre c => OutGre (gre_view c)
    | OutZmq c => OutZmq (zmq_view c)
    | OutFile p => OutFile (str p)
    | OutRotating c => OutRotating (rotating_view c)
    end.

Definition libpcap_view (c : libpcap_cfg char_ptr) : libpcap_cfg string :=
  LibpcapCfg (str (lp_interface c)) (lp_snaplen c) (str (lp_netns c)) (str (lp_bpf_filter c)) (lp_buffer_size_mb c)
    (lp_timeout_ms c) (lp_not_filter_output_hosts c).
Definition pcap_file_view (c : pcap_file_cfg char_ptr) : pcap_file_cfg string :=
  PcapFileCfg (str (pf_file_name c)) (str (pf_bpf_filter c)).
Definition dpdk_view (c : dpdk_cfg char_ptr) : dpdk_cfg string :=
  DpdkCfg (str (dp_interface c)) (dp_snaplen c) (str (dp_bpf_filter c)) (dp_ring_size c).

Definition capturer_view (c : CapturerConfig char_ptr) : CapturerConfig string :=
  Capturer (str (c_type c))
    match c_config c with
    | CapZero => CapZero
    | CapLibpcap x => CapLibpcap (libpcap_view x)
    | CapPcapFile x => CapPcapFile (pcap_file_view x)
    | CapDpdk x => CapDpdk (dpdk_view x)
    end.

Definition req_pattern_view (r : ReqPatternConfig char_ptr) : ReqPatternConfig string :=
  ReqPattern (str (rp_type r)) (str (rp_pattern r)).

(** A task without a fingerprint has none or the empty one. *)
Record task_value := TaskValue {
  v_fingerprint : string; v_req_pattern : ReqPatternConfig string; v_capturer : CapturerConfig string;
  v_outputs : list (OutputConfig string);
}.

Definition task_view (t : TaskConfig) : task_value :=
  TaskValue (str (t_fingerprint t)) (req_pattern_view (t_req_pattern t)) (capturer_view (t_capturer t))
    ((fun b => output_view b.2) <$> t_output_list t).

Record config_value := ConfigValue {
  v_log_level : Z; v_cpu_affinity : string; v_execution_model : Z; v_buffer_size_mb : Z;
  v_control : option (ControlConfig string); v_tasks : list task_value;
}.

Definition config_view (c : Config) : config_value :=
  ConfigValue (log_level c) (str (cpu_affinity c)) (execution_model c) (pipeline_buffer_size_mb c)
    ((fun b => Control (str (ctl_type b.2)) (str (ctl_path b.2))) <$> control c)
    match tasks_cfg c with Some (_, ts) => (fun b => task_view b.2) <$> ts_task_list ts | None => [] end.

(** ** Values in range *)

Definition any (_ : string) : Prop := True.

Definition output_value_ok (o : OutputConfig string) : Prop :=
  0 <= rate_limit_mbps o <= INT_MAX /\ 0 <= slice o <= INT_MAX /\
  match o_config o with
  | OutZero => o_type o = "null"
  | OutVxlan c => o_type o = "vxlan" /\ vxlan_ok any c
  | OutGre c => o_type o = "gre" /\ gre_ok any c
  | OutZmq c => o_type o = "zmq" /\ zmq_ok any c
  | OutFile _ => o_type o = "file"
  | OutRotating c => o_type o = "rotating_file" /\ rotating_ok any c
  end.

Definition capturer_value_ok (c : CapturerConfig string) : Prop :=
  match c_config c with
  | CapZero => False
  | CapLibpcap x => c_type c = "libpcap" /\ libpcap_ok any x
  | CapPcapFile _ => c_type c = "pcap_file"
  | CapDpdk x => c_type c = "dpdk_pdump" /\ dpdk_ok any x
  end.

Definition req_pattern_value_ok (r : ReqPatternConfig string) : Prop :=
  rp_type r = "custom" \/ ((rp_type r = "none" \/ rp_type r = "auto") /\ rp_pattern r = EmptyString).

Definition task_value_ok (t : task_value) : Prop :=
  req_pattern_value_ok (v_req_pattern t) /\ capturer_value_ok (v_capturer t) /\ Forall output_value_ok (v_outputs t).

Definition named (l : list task_value) : list string :=
  filter (fun fp => fp <> EmptyString) (v_fingerprint <$> l).

Definition config_value_ok (c : config_value) : Prop :=
  LOG_DEBUG <= v_log_level c <= LOG_ERROR /\ pipeline_ok (v_execution_model c) (v_buffer_size_mb c) /\
  match v_control c with Some x => ctl_type x = "unix" | None => True end /\
  Forall task_value_ok (v_tasks c) /\ NoDup (named (v_tasks c)).

(** ** Printing *)

Definition num (z : Z) : cJSON := JNumber (dbl_int z).

Definition json_pmtudisc (v : Z) : list (string * cJSON) :=
  if v =? IP_PMTUDISC_DO then [("pmtudisc", JString "do")]
  else if v =? IP_PMTUDISC_DONT then [("pmtudisc", JString "dont")]
  else if v =? IP_PMTUDISC_WANT then [("pmtudisc", JString "want")]
  else [].

Definition json_vxlan (c : vxlan_cfg string) : cJSON := JObject
  ([("host", JString (vx_host c)); ("port", num (vx_port c)); ("capture_time", JBool (vx_capture_time c));
    (if vx_vni_version c =? 1 then "vni1" else "vni2", num (vx_vni c)); ("bind_device", JString (vx_bind_device c));
    ("split", JObject [("max_payload_size", num (max_payload_size (vx_split c)));
                       ("recalculate_checksum", JBool (recalculate_checksum (vx_split c)))])] ++
   json_pmtudisc (vx_pmtudisc c)).

Definition json_gre (c : gre_cfg string) : cJSON := JObject
  ([("host", JString (gre_host c)); ("service_tag", num (gre_service_tag c));
    ("bind_device", JString (gre_bind_device c))] ++ json_pmtudisc (gre_pmtudisc c)).

Definition json_zmq (c : zmq_cfg string) : cJSON := JObject
  [("host", JString (zmq_host c)); ("port", num (zmq_port c)); ("hwm", num (zmq_hwm c));
   ("service_tag", num (zmq_service_tag c)); ("uuid", JString (zmq_uuid c)); ("heartbeat_ms", num (zmq_heartbeat_ms c))].

Definition json_rotating (c : rotating_cfg string) : cJSON := JObject
  [("file_root", JString (rot_file_root c)); ("max_file_interval", num (rot_max_file_interval c))].

Definition json_output (o : OutputConfig string) : cJSON := JObject
  ([("type", JString (o_type o)); ("rate_limit_mbps", num (rate_limit_mbps o)); ("slice", num (slice o))] ++
   match o_config o with
   | OutZero => []
   | OutVxlan c => [("vxlan", json_vxlan c)]
   | OutGre c => [("gre", json_gre c)]
   | OutZmq c => [("zmq", json_zmq c)]
   | OutFile name => [("file", JObject [("name", JString name)])]
   | OutRotating c => [("rotating_file", json_rotating c)]
   end).

Definition json_libpcap (c : libpcap_cfg string) : cJSON := JObject
  [("interface", JString (lp_interface c)); ("snaplen", num (lp_snaplen c)); ("netns", JString (lp_netns c));
   ("bpf", JString (lp_bpf_filter c)); ("buffer_size_mb", num (lp_buffer_size_mb c));
   ("timeout_ms", num (lp_timeout_ms c)); ("not_filter_output_hosts", JBool (lp_not_filter_output_hosts c))].

Definition json_capturer (c : CapturerConfig string) : cJSON := JObject
  (("type", JString (c_type c)) ::
   match c_config c with
   | CapZero => []
   | CapLibpcap x => [("libpcap", json_libpcap x)]
   | CapPcapFile x => [("pcap_file", JObject [("file_name", JString (pf_file_name x)); ("bpf", JString (pf_bpf_filter x))])]
   | CapDpdk x => [("dpdk_pdump", JObject [("interface", JString (dp_interface x)); ("snaplen", num (dp_snaplen x));
                     ("bpf", JString (dp_bpf_filter x)); ("ring_size", num (dp_ring_size x))])]
   end).

Definition json_req_pattern (r : ReqPatternConfig string) : list (string * cJSON) :=
  if String.eqb (rp_type r) "none" then []
  else if String.eqb (rp_type r) "auto" then [("req_pattern", JObject [("type", JString "auto")])]
  else [("req_pattern", JObject [("type", JString (rp_type r)); ("custom", JObject [("pattern", JString (rp_pattern r))])])].

Definition json_task (t : task_value) : cJSON := JObject
  ([("fingerprint", JString (v_fingerprint t)); ("capturer", json_capturer (v_capturer t));
    ("outputs", JArray (json_output <$> v_outputs t))] ++ json_req_pattern (v_req_pattern t)).

Definition json_log_level (v : Z) : string :=
  if v =? LOG_DEBUG then "debug" else if v =? LOG_INFO then "info" else if v =? LOG_WARN then "warn" else "error".

Definition json_control (x : option (ControlConfig string)) : list (string * cJSON) :=
  match x with
  | None => []
  | Some x => [("control", JObject [("type", JString (ctl_type x)); ("unix", JObject [("path", JString (ctl_path x))])])]
  end.

Definition json_config (c : config_value) : cJSON := JObject
  ([("log_level", JString (json_log_level (v_log_level c))); ("cpu_affinity", JString (v_cpu_affinity c));
    ("execution_model", JString (if v_execution_model c =? EXECUTION_MODEL_RTC then "rtc" else "pipeline"));
    ("pipeline", JObject [("buffer_size_mb", num (v_buffer_size_mb c))]);
    ("tasks", JArray (json_task <$> v_tasks c))] ++ json_control (v_control c)).

(** ** Reading back *)

Section runs_fields.
  Context {S : Type}.
  Implicit Types (s : S).

Lemma runs_int64_range name min max v s (Q : Z -> S -> Prop) :
  min <= v <= max -> Z.abs v < 2 ^ 53 -> Q v s -> runs (cjson_get_int64_range (num v) name min max) s Q.
Proof.
  intros Hr Hv HQ. unfold num, cjson_get_int64_range. pose proof (dbl_int_is_int v Hv) as Hi.
  assert (Et : dbl_trunc (dbl_int v) = v) by (apply dbl_eqZ_is_int; rewrite (is_int_eq _ _ Hi); apply Z.eqb_refl).
  rewrite Et, (is_int_lt _ _ Hi), (is_int_gt _ _ Hi), (is_int_eq _ _ Hi), Z.eqb_refl.
  rewrite (proj2 (Z.ltb_ge v min)), (proj2 (Z.ltb_ge max v)) by lia. by apply runs_ret.
Qed.

(** What the clamping readers see of an integer. *)
Lemma runs_integer name v s (Q : double -> S -> Prop) :
  Z.abs v < 2 ^ 53 -> (forall x, is_int x v -> dbl_trunc x = v -> Q x s) -> runs (cjson_get_integer (num v) name) s Q.
Proof.
  intros Hv HQ. unfold num, cjson_get_integer. pose proof (dbl_int_is_int v Hv) as Hi.
  assert (Et : dbl_trunc (dbl_int v) = v) by (apply dbl_eqZ_is_int; rewrite (is_int_eq _ _ Hi); apply Z.eqb_refl).
  assert (Hf : dbl_is_floor (dbl_int v) = true).
  { destruct (dbl_int v) as [neg|neg| |neg m e] eqn:Ed; [done|done| |].
    - specialize (Hi 0). discriminate Hi.
    - cbn [dbl_is_floor]. rewrite (is_int_eq _ _ Hi). apply Z.eqb_eq. specialize (Hi v). rewrite Z.compare_refl in Hi. cbn [dbl_cmpZ] in Hi.
      injection Hi as Hi. destruct (Z.leb_spec 0 e); apply Z.compare_eq in Hi; rewrite Hi; [done|].
      symmetry. apply Z.div_mul. pose proof (Z.pow_pos_nonneg 2 (- e)). lia. }
  rewrite Hf. apply runs_ret. by apply HQ.
Qed.

Lemma runs_req_string obj key missing oom set text s (Q : unit -> S -> Prop) :
  get_object_item obj key = Some (JString text) -> (forall p, chars p = text -> Q tt (set (Some p) s)) ->
  runs (req_string obj key missing oom set) s Q.
Proof. intros Hk HQ. unfold req_string. rewrite Hk. by apply runs_dup_to. Qed.

Lemma runs_opt_string obj key invalid oom set text s (Q : unit -> S -> Prop) :
  get_object_item obj key = Some (JString text) -> (forall p, chars p = text -> Q tt (set (Some p) s)) ->
  runs (opt_string obj key invalid oom set) s Q.
Proof. intros Hk HQ. unfold opt_string. rewrite Hk. by apply runs_dup_to. Qed.

Lemma runs_opt_bool obj key invalid set v s (Q : unit -> S -> Prop) :
  get_object_item obj key = Some (JBool v) -> Q tt (set v s) -> runs (opt_bool obj key invalid set) s Q.
Proof. intros Hk HQ. unfold opt_bool. rewrite Hk. by apply runs_modify. Qed.

Lemma runs_opt_range obj key name default min max set v s (Q : unit -> S -> Prop) :
  get_object_item obj key = Some (num v) -> min <= v <= max -> Z.abs v < 2 ^ 53 -> Q tt (set v s) ->
  runs (opt_range obj key name default min max set) s Q.
Proof. intros Hk Hr Hv HQ. unfold opt_range. rewrite Hk. by apply runs_bind, runs_int64_range, runs_modify. Qed.

Lemma runs_opt_clamped obj key name default set v s (Q : unit -> S -> Prop) :
  get_object_item obj key = Some (num v) -> 0 <= v <= INT_MAX -> Q tt (set v s) ->
  runs (opt_clamped obj key name default set) s Q.
Proof.
  unfold INT_MAX. intros Hk Hr HQ. unfold opt_clamped. rewrite Hk. apply runs_bind, runs_integer; [lia|]. intros x Hi Ht.
  rewrite (is_int_lt _ _ Hi), (is_int_gt _ _ Hi), Ht.
  rewrite (proj2 (Z.ltb_ge v 0)), (proj2 (Z.ltb_ge INT_MAX v)) by (unfold INT_MAX; lia). by apply runs_modify.
Qed.

Lemma runs_parse_snaplen obj name npmm set v s (Q : unit -> S -> Prop) :
  get_object_item obj "snaplen" = Some (num v) -> 1 <= v <= MAX_SNAPLEN -> Q tt (set v s) ->
  runs (parse_snaplen obj name npmm set) s Q.
Proof.
  unfold MAX_SNAPLEN. intros Hk Hr HQ. unfold parse_snaplen. rewrite Hk. apply runs_bind, runs_integer; [lia|]. intros x Hi Ht.
  rewrite (is_int_le _ _ Hi), (is_int_lt _ _ Hi), (is_int_gt _ _ Hi), (is_int_eq _ _ Hi), Ht.
  rewrite (proj2 (Z.leb_gt v 0)), (proj2 (Z.ltb_ge v 0)), (proj2 (Z.ltb_ge MAX_SNAPLEN v)), (proj2 (Z.eqb_neq v 0))
    by (unfold MAX_SNAPLEN; lia). by apply runs_modify.
Qed.

Lemma runs_opt_pmtudisc obj name set v s (Q : unit -> S -> Prop) :
  get_object_item obj "pmtudisc" = find_member "pmtudisc" (json_pmtudisc v) -> pmtudisc_ok v -> Q tt (set v s) ->
  runs (opt_pmtudisc obj name set) s Q.
Proof. intros Hk Hv HQ. unfold opt_pmtudisc. rewrite Hk. destruct Hv as [-> |[-> |[-> | ->]]]; by apply runs_modify. Qed.

Lemma runs_member obj key missing k o s (Q : unit -> S -> Prop) :
  get_object_item obj key = Some o -> runs (k o) s Q -> runs (member obj key missing k) s Q.
Proof. intros Hk Hr. unfold member. by rewrite Hk. Qed.

End runs_fields.

(** Read the next field of a printed struct. *)
Ltac run_step :=
  lazymatch goal with
  | |- runs (bind _ _) _ _ => apply runs_bind
  | |- runs (ret _) _ _ => apply runs_ret
  | |- runs (modify _) _ _ => apply runs_modify
  | |- runs (gets _) _ _ => apply runs_gets
  | |- runs (wrapping _ _) _ _ => apply runs_wrapping
  | |- runs (within _ _ _) _ _ => apply runs_within
  | |- runs (fresh _ _ _ _) _ _ => apply runs_fresh
  | |- runs (strdup _) _ _ => apply runs_strdup; intros ? ?
  | |- runs alloc _ _ => apply runs_alloc; intros ?
  | |- runs (dup_to _ _ _) _ _ => apply runs_dup_to; intros ? ?
  | |- runs (req_string _ _ _ _ _) _ _ => eapply runs_req_string; [reflexivity|intros ? ?]
  | |- runs (opt_string _ _ _ _ _) _ _ => eapply runs_opt_string; [reflexivity|intros ? ?]
  | |- runs (opt_bool _ _ _ _) _ _ => eapply runs_opt_bool; [reflexivity|]
  | |- runs (opt_range _ _ _ _ _ _ _) _ _ => eapply runs_opt_range; [reflexivity|cbn; lia|cbn; lia|]
  | |- runs (opt_clamped _ _ _ _ _) _ _ => eapply runs_opt_clamped; [reflexivity|cbn; lia|]
  | |- runs (parse_snaplen _ _ _ _) _ _ => eapply runs_parse_snaplen; [reflexivity|cbn; lia|]
  | |- runs (opt_pmtudisc _ _ _) _ _ => eapply runs_opt_pmtudisc; [reflexivity|assumption|]
  | |- runs (member _ _ _ _) _ _ => eapply runs_member; [reflexivity|]
  end; cbn beta iota.

(** Compute a view of the struct the fields were read into. *)
Ltac view_red :=
  repeat match goal with H : chars ?p = _ |- _ => destruct p; cbn [chars] in H; subst end.

Section read_back.

Lemma find_pmtudisc_other key v : String.eqb key "pmtudisc" = false -> find_member key (json_pmtudisc v) = None.
Proof. intros Hk. unfold json_pmtudisc. repeat bcase; cbn [find_member]; by rewrite ?Hk. Qed.

Lemma read_vni c z :
  (vx_vni_version c = 1 /\ 0 <= vx_vni c < 2 ^ 24) \/ (vx_vni_version c = 2 /\ 0 <= vx_vni c < 2 ^ 32) ->
  runs (parse_vni (json_vxlan c)) z (fun _ c' => c' = set_vx_vni (vx_vni_version c) (vx_vni c) z).
Proof.
  intros Hv. unfold parse_vni, UINT32_MAX.
  assert (Hl : forall key, key = "vni1" \/ key = "vni2" -> get_object_item (json_vxlan c) key =
    if String.eqb key (if vx_vni_version c =? 1 then "vni1" else "vni2") then Some (num (vx_vni c)) else None).
  { intros key Hk. unfold json_vxlan. rewrite <- (find_pmtudisc_other key (vx_pmtudisc c)) by (by destruct Hk as [-> | ->]).
    by destruct Hk as [-> | ->]. }
  rewrite !Hl by auto. destruct Hv as [[-> Hv]|[-> Hv]]; cbn [Z.eqb Pos.eqb String.eqb Ascii.eqb Bool.eqb].
  - run_step. apply runs_int64_range; [lia|lia|]. rewrite (proj2 (Z.ltb_ge 16777215 (vx_vni c))) by lia.
    cbn beta iota zeta. rewrite u32_small by lia. by run_step.
  - run_step. apply runs_int64_range; [lia|lia|]. rewrite u32_small by lia. by run_step.
Qed.

Lemma read_split size recalc z :
  0 <= size <= 65535 ->
  runs (parse_split_config (Some (JObject [("max_payload_size", num size); ("recalculate_checksum", JBool recalc)]))) z
    (fun _ c => c = Split size recalc).
Proof. intros Hs. unfold parse_split_config. repeat run_step. cfg_red. by rewrite u16_small by lia. Qed.

Lemma read_vxlan c : vxlan_ok any c -> runs (parse_vxlan (json_vxlan c)) zero_vxlan (fun _ c' => vxlan_view c' = c).
Proof.
  destruct c as [host port ct ver vni dev mtu [size recalc]].
  intros (_ & Hp & Hv & _ & Hm & Hs). cbn [vx_port vx_vni_version vx_vni vx_pmtudisc vx_split max_payload_size] in *.
  unfold parse_vxlan. do 7 run_step. eapply runs_mono; [by apply read_vni|]. intros [] c' ->.
  destruct Hv as [[-> Hv]|[-> Hv]]; repeat run_step;
    (eapply runs_mono; [by apply read_split|]); intros [] sp ->; view_red; unfold vxlan_view, str; cbn;
    by rewrite u16_small by lia.
Qed.

Lemma read_gre c : gre_ok any c -> runs (parse_gre (json_gre c)) zero_gre (fun _ c' => gre_view c' = c).
Proof.
  intros (_ & Ht & _ & Hm). unfold parse_gre, UINT32_MAX. repeat run_step. view_red. unfold gre_view, str. cbn.
  rewrite !u32_small by lia. by destruct c.
Qed.

Lemma read_zmq c : zmq_ok any c -> runs (parse_zmq (json_zmq c)) zero_zmq (fun _ c' => zmq_view c' = c).
Proof.
  intros (_ & Hp & Hh & Ht & _ & Hb). unfold parse_zmq, UINT32_MAX. do 3 run_step.
  change (get_object_item (json_zmq c) "port") with (Some (num (zmq_port c))). cbn beta iota.
  apply runs_bind, runs_int64_range; [lia|lia|]. repeat run_step. view_red. unfold zmq_view, str. cbn.
  rewrite u32_small, u16_small by lia. by destruct c.
Qed.

Lemma read_rotating c : rotating_ok any c -> runs (parse_rotating_file (json_rotating c)) zero_rotating (fun _ c' => rotating_view c' = c).
Proof. intros (_ & Hi). unfold parse_rotating_file. repeat run_step. view_red. by destruct c. Qed.

Lemma read_libpcap c : libpcap_ok any c -> runs (parse_libpcap (json_libpcap c)) zero_libpcap (fun _ c' => libpcap_view c' = c).
Proof.
  intros (_ & Hs & _ & _ & Hb & Ht). unfold parse_libpcap. do 9 run_step.
  change (get_object_item (json_libpcap c) "buffer_size_mb") with (Some (num (lp_buffer_size_mb c))). cbn beta iota.
  change MAX_LIBPCAP_BUFFER_SIZE_MB with 2047 in *.
  apply runs_bind, runs_integer; [lia|]. intros x Hi Hx. rewrite (is_int_le _ _ Hi), (is_int_gt _ _ Hi), Hx.
  rewrite (proj2 (Z.leb_gt (lp_buffer_size_mb c) 0)), (proj2 (Z.ltb_ge 2047 (lp_buffer_size_mb c))) by lia.
  repeat run_step. view_red. by destruct c.
Qed.

(** Fill the member of a union from what was printed for it. *)
Ltac read_member L := repeat run_step; eapply runs_mono; [by apply L|]; intros [] x <-; view_red; done.

Lemma read_output o : output_value_ok o -> runs (parse_output_config (json_output o)) zero_output (fun _ o' => output_view o' = o).
Proof.
  destruct o as [ty rate sl c]. unfold output_value_ok. cbn [rate_limit_mbps slice o_type o_config]. intros (Hr & Hs & Hc).
  destruct c as [|c|c|c|name|c]; [|destruct Hc as [Hty Hc]|destruct Hc as [Hty Hc]|destruct Hc as [Hty Hc]| |destruct Hc as [Hty Hc]];
    subst ty; unfold parse_output_config; do 8 run_step; view_red; unfold type_is; cbn [o_type set_slice set_rate_limit_mbps set_o_type chars];
    cbn [String.eqb Ascii.eqb Bool.eqb].
  - by repeat run_step.
  - read_member read_vxlan.
  - read_member read_gre.
  - read_member read_zmq.
  - unfold parse_file. repeat run_step. by view_red.
  - read_member read_rotating.
Qed.

Lemma read_capturer c :
  capturer_value_ok c -> runs (parse_capturer_config (json_capturer c)) (Capturer None CapZero) (fun _ c' => capturer_view c' = c).
Proof.
  destruct c as [ty c]. unfold capturer_value_ok. cbn [c_type c_config]. intros Hc.
  destruct c as [|c|c|c]; [done|destruct Hc as [Hty Hc]| |destruct Hc as [Hty Hc]];
    subst ty; unfold parse_capturer_config; do 4 run_step; view_red; unfold type_is; cbn [c_type set_c_type chars];
    cbn [String.eqb Ascii.eqb Bool.eqb].
  - read_member read_libpcap.
  - unfold parse_pcap_file. repeat run_step. view_red. by destruct c.
  - destruct Hc as (_ & Hs & _ & Hr). unfold parse_dpdk_pdump. change (Z.shiftl 1 30) with (2 ^ 30). repeat run_step. view_red. by destruct c.
Qed.

Lemma type_is_str p name : type_is (Some p) name = String.eqb (str (Some p)) name.
Proof. done. Qed.

Lemma read_req_pattern r rest (t : TaskConfig) :
  req_pattern_value_ok r -> find_member "req_pattern" rest = None -> t_req_pattern t = ReqPattern None None ->
  runs (parse_task_req_pattern (JObject (rest ++ json_req_pattern r))) t
    (fun _ t' => exists r', req_pattern_view r' = r /\ t' = set_t_req_pattern r' t).
Proof.
  intros Hr Hm Hz. unfold parse_task_req_pattern.
  assert (Hl : get_object_item (JObject (rest ++ json_req_pattern r)) "req_pattern" = find_member "req_pattern" (json_req_pattern r)).
  { cbn [get_object_item]. revert Hm. induction rest as [|[k v] rest IH]; [done|]. cbn [find_member app].
    destruct (String.eqb "req_pattern" k); [done|]. apply IH. }
  rewrite Hl. clear Hl Hm. destruct r as [ty pat]. unfold req_pattern_value_ok in Hr. cbn [rp_type rp_pattern] in Hr.
  destruct Hr as [-> |[[-> | ->] ->]]; cbn [json_req_pattern rp_type rp_pattern String.eqb Ascii.eqb Bool.eqb find_member].
  - do 2 run_step. rewrite Hz. unfold parse_req_pattern_config. do 4 run_step. view_red. unfold type_is.
    cbn [rp_type set_rp_type chars String.eqb Ascii.eqb Bool.eqb get_object_item find_member]. repeat run_step. view_red. eexists. split; [|reflexivity]. done.
  - run_step. view_red. rewrite Hz. eexists. split; [|reflexivity]. done.
  - do 2 run_step. rewrite Hz. unfold parse_req_pattern_config. do 4 run_step. view_red. unfold type_is.
    cbn [rp_type set_rp_type chars String.eqb Ascii.eqb Bool.eqb]. run_step. eexists. split; [|reflexivity]. done.
Qed.

Lemma read_outputs os i t a :
  Forall output_value_ok os -> t_outputs t = Some a -> arr_cap a = zlen (t_output_list t) + zlen os ->
  runs (parse_outputs i (json_output <$> os)) t
    (fun _ t' => exists l, (fun b => output_view b.2) <$> l = os /\ t' = set_t_output_list (t_output_list t ++ l) t).
Proof.
  intros Hos. revert i t. induction Hos as [|o os Ho _ IH]; intros i t Ha Hcap.
  - apply runs_ret. exists []. rewrite app_nil_r. by destruct t.
  - rewrite fmap_cons. cbn [parse_outputs]. change (cJSON_IsObject (json_output o)) with true. cbn beta iota.
    rewrite zlen_cons in Hcap. do 3 run_step. eapply runs_mono; [by apply read_output|]. intros [] o' Eo. run_step.
    intros st Hst. unfold push_output at 1. rewrite Ha.
    assert ((zlen (t_output_list t) <? arr_cap a) = true) as -> by (apply Z.ltb_lt; pose proof (zlen_nonneg os); lia).
    eexists _, _, _. split; [done|]. split; [done|].
    eapply runs_mono; [apply IH; [done|]|].
    + cbn [t_output_list set_t_output_list]. rewrite zlen_app, zlen_cons, zlen_nil. lia.
    + intros [] t' (l & El & ->). exists ((p, o') :: l). rewrite fmap_cons, El. cbn [snd]. rewrite Eo. split; [done|].
      cbn [t_output_list set_t_output_list]. by rewrite <- app_assoc.
Qed.

(** A fingerprint that is there is not empty. *)
Definition named_ok (t : TaskConfig) : Prop := forall f, t_fingerprint t = Some f -> chars f <> EmptyString.

Lemma read_fingerprint v :
  runs (parse_fingerprint (json_task v)) zero_task
    (fun _ t => exists fp, str fp = v_fingerprint v /\ t = set_t_fingerprint fp zero_task /\ named_ok t).
Proof.
  unfold parse_fingerprint. change (get_object_item (json_task v) "fingerprint") with (Some (JString (v_fingerprint v))). cbn beta iota.
  destruct (String.eqb_spec (v_fingerprint v) EmptyString) as [E|E].
  - run_step. exists None. by rewrite E.
  - repeat run_step. exists (Some p). split; [done|]. split; [done|]. intros f [= <-]. congruence.
Qed.

Lemma read_task v : task_value_ok v -> runs (parse_task_config (json_task v)) zero_task (fun _ t => task_view t = v /\ named_ok t).
Proof.
  intros (Hr & Hc & Ho). unfold parse_task_config. run_step.
  eapply runs_mono; [apply read_fingerprint|]. intros [] t (fp & Ef & -> & Hn). run_step.
  eapply runs_mono; [apply read_req_pattern; [done|done|done]|]. intros [] t (r & Er & ->). run_step.
  unfold parse_task_capturer. change (get_object_item (json_task v) "capturer") with (Some (json_capturer (v_capturer v))).
  unfold json_capturer at 1. do 2 run_step. fold (json_capturer (v_capturer v)).
  eapply runs_mono; [by apply read_capturer|]. intros [] c Ec.
  unfold parse_task_outputs. change (get_object_item (json_task v) "outputs") with (Some (JArray (json_output <$> v_outputs v))).
  cbn [cJSON_IsArray]. do 4 run_step.
  eapply runs_mono; [eapply read_outputs; [done|done|]|].
  - cbn [arr_cap t_output_list set_t_outputs set_t_capturer set_t_req_pattern set_t_fingerprint zero_task]. by rewrite zlen_fmap, zlen_nil.
  - intros [] t (l & El & ->). split; [|done]. destruct v. unfold task_view. cbn in *. by subst.
Qed.

Lemma duplicate_false t l v :
  task_view t = v -> named_ok t -> v_fingerprint v ∉ named ((fun b => task_view b.2) <$> l) ->
  duplicate_fingerprint (t_fingerprint t) l = false.
Proof.
  intros <- Hn Hin. apply not_true_iff_false. intros Hd. apply Hin. clear Hin.
  cbn [v_fingerprint task_view]. destruct (t_fingerprint t) as [f|] eqn:Ef; [|done]. cbn [duplicate_fingerprint] in Hd.
  apply existsb_exists in Hd as ([q u] & Hq & Hu). unfold named. apply list_elem_of_filter. split; [by apply (Hn f)|].
  apply list_elem_of_In in Hq. rewrite <- list_fmap_compose. apply list_elem_of_fmap. exists (q, u). split; [|done].
  cbn. unfold type_is in Hu. destruct (t_fingerprint u) as [g|]; [|done]. apply String.eqb_eq in Hu. cbn. by rewrite Hu.
Qed.

Lemma named_cons v l : named (v :: l) = if decide (v_fingerprint v <> EmptyString) then v_fingerprint v :: named l else named l.
Proof. unfold named. rewrite fmap_cons, filter_cons. done. Qed.

Lemma named_app l1 l2 : named (l1 ++ l2) = named l1 ++ named l2.
Proof.
  induction l1 as [|v l1 IH]; [done|]. change ((v :: l1) ++ l2) with (v :: (l1 ++ l2)). rewrite !named_cons, IH.
  by destruct (decide _).
Qed.

Lemma read_tasks vs i c a :
  Forall task_value_ok vs -> ts_tasks c = Some a -> arr_cap a = zlen (ts_task_list c) + zlen vs ->
  NoDup (named ((fun b => task_view b.2) <$> ts_task_list c) ++ named vs) ->
  runs (parse_tasks i (json_task <$> vs)) c
    (fun _ c' => exists l, (fun b => task_view b.2) <$> l = vs /\ c' = set_ts_task_list (ts_task_list c ++ l) c).
Proof.
  intros Hvs. revert i c. induction Hvs as [|v vs Hv _ IH]; intros i c Ha Hcap Hn.
  - apply runs_ret. exists []. rewrite app_nil_r. by destruct c.
  - rewrite fmap_cons. cbn [parse_tasks]. change (cJSON_IsObject (json_task v)) with true. cbn beta iota.
    rewrite zlen_cons in Hcap. do 3 run_step. eapply runs_mono; [by apply read_task|]. intros [] t [Et Ht]. do 2 run_step.
    assert (Hd : duplicate_fingerprint (t_fingerprint t) (ts_task_list c) = false).
    { destruct (decide (v_fingerprint v = EmptyString)) as [E|E].
      - destruct (t_fingerprint t) as [f|] eqn:Ef; [|done]. exfalso. apply (Ht f Ef). rewrite <- E, <- Et. cbn. by rewrite Ef.
      - eapply duplicate_false; [done|done|]. rewrite named_cons, decide_True in Hn by done.
        apply list.NoDup_app in Hn as (_ & Hn & _). intros Hin. apply (Hn _ Hin). constructor. }
    rewrite Hd. run_step. intros st Hst. unfold push_task at 1. rewrite Ha.
    assert ((zlen (ts_task_list c) <? arr_cap a) = true) as -> by (apply Z.ltb_lt; pose proof (zlen_nonneg vs); lia).
    eexists _, _, _. split; [done|]. split; [done|].
    eapply runs_mono; [apply IH; [done| |]|].
    + cbn [ts_task_list set_ts_task_list]. rewrite zlen_app, zlen_cons, zlen_nil. lia.
    + cbn [ts_task_list set_ts_task_list]. rewrite fmap_app, named_app. cbn [fmap list_fmap snd]. rewrite Et.
      by rewrite <- app_assoc, <- named_app.
    + intros [] c' (l & El & ->). exists ((p, t) :: l). rewrite fmap_cons, El. cbn [snd]. rewrite Et. split; [done|].
      cbn [ts_task_list set_ts_task_list]. by rewrite <- app_assoc.
Qed.

Lemma read_log_level v z :
  LOG_DEBUG <= v_log_level v <= LOG_ERROR -> runs (parse_log_level (json_config v)) z (fun _ c => c = set_log_level (v_log_level v) z).
Proof.
  intros Hl. unfold parse_log_level.
  change (get_object_item (json_config v) "log_level") with (Some (JString (json_log_level (v_log_level v)))). cbn beta iota.
  unfold LOG_DEBUG, LOG_ERROR in Hl.
  assert (v_log_level v = 1 \/ v_log_level v = 2 \/ v_log_level v = 3 \/ v_log_level v = 4) as [-> |[-> |[-> | ->]]] by lia;
    repeat match goal with
    | |- context [strcasecmp ?a ?b] => let r := eval vm_compute in (strcasecmp a b) in change (strcasecmp a b) with r
    end; cbn beta iota; by run_step.
Qed.

Lemma read_model v z :
  model_ok (v_execution_model v) ->
  runs (parse_execution_model (json_config v)) z (fun _ c => c = set_execution_model (v_execution_model v) z).
Proof.
  intros Hm. unfold parse_execution_model.
  change (get_object_item (json_config v) "execution_model") with
    (Some (JString (if v_execution_model v =? EXECUTION_MODEL_RTC then "rtc" else "pipeline"))).
  destruct Hm as [-> | ->]; cbn [Z.eqb Pos.eqb EXECUTION_MODEL_RTC EXECUTION_MODEL_PIPELINE String.eqb Ascii.eqb Bool.eqb]; by run_step.
Qed.

Lemma read_pipeline v z :
  pipeline_ok (v_execution_model v) (v_buffer_size_mb v) -> execution_model z = v_execution_model v ->
  runs (parse_pipeline (json_config v)) z (fun _ c => c = set_pipeline_buffer_size_mb (v_buffer_size_mb v) z).
Proof.
  intros Hm Ez. unfold parse_pipeline. do 2 run_step. rewrite Ez.
  change (get_object_item (json_config v) "pipeline") with (Some (JObject [("buffer_size_mb", num (v_buffer_size_mb v))])).
  cbn [get_object_item find_member String.eqb Ascii.eqb Bool.eqb].
  destruct Hm as [[-> ->]|(-> & Hlo & Hhi)]; cbn [Z.eqb Pos.eqb EXECUTION_MODEL_RTC EXECUTION_MODEL_PIPELINE].
  - by run_step.
  - run_step. unfold SIZE_MAX in *. change (18446744073709551615 / (1024 * 1024)) with 17592186044415.
    apply runs_int64_range; [lia|lia|]. by run_step.
Qed.

Lemma read_control v z :
  match v_control v with Some x => ctl_type x = "unix" | None => True end ->
  runs (parse_control (json_config v)) z
    (fun _ c => exists x, (fun b => Control (str (ctl_type b.2)) (str (ctl_path b.2))) <$> x = v_control v /\ c = set_control x z).
Proof.
  intros Hc. unfold parse_control.
  change (get_object_item (json_config v) "control") with (find_member "control" (json_control (v_control v))).
  destruct (v_control v) as [[ty path]|]; cbn [json_control find_member String.eqb Ascii.eqb Bool.eqb].
  - cbn [ctl_type] in Hc. subst ty. cbn beta iota. do 3 run_step. unfold parse_control_config. do 4 run_step. view_red.
    unfold type_is. cbn [ctl_type set_ctl_type chars String.eqb Ascii.eqb Bool.eqb]. repeat run_step. view_red.
    eexists. split; [|reflexivity]. done.
  - run_step. by exists None.
Qed.

Lemma read_tasks_json {S : Type} v (s : S) :
  Forall task_value_ok (v_tasks v) -> NoDup (named (v_tasks v)) ->
  runs (parse_tasks_json (json_config v)) s
    (fun r s' => s' = s /\ exists p ts, r = Some (p, ts) /\ (fun b => task_view b.2) <$> ts_task_list ts = v_tasks v).
Proof.
  intros Ht Hn. unfold parse_tasks_json. do 3 run_step. unfold tasks_body.
  change (get_object_item (json_config v) "tasks") with (Some (JArray (json_task <$> v_tasks v))). cbn [cJSON_IsArray]. do 4 run_step.
  eapply runs_mono; [eapply read_tasks; [done|done| |done]|].
  - cbn [arr_cap ts_task_list set_ts_tasks]. by rewrite zlen_fmap, zlen_nil.
  - intros [] c (l & El & ->). run_step. split; [done|]. by eexists _, _.
Qed.

Lemma read_config v (s : unit) :
  config_value_ok v -> runs (parse_config_json (json_config v)) s (fun r _ => exists p c, r = Some (p, c) /\ config_view c = v).
Proof.
  intros (Hl & Hm & Hc & Ht & Hn). unfold parse_config_json. do 3 run_step. unfold config_body. run_step.
  eapply runs_mono; [by apply read_tasks_json|]. intros r z [-> (q & ts & -> & Ets)]. do 3 run_step.
  eapply runs_mono; [by apply read_log_level|]. intros [] z ->. do 3 run_step.
  eapply runs_mono; [apply read_model; destruct Hm as [[? _]|[? _]]; unfold model_ok; auto|]. intros [] z ->. run_step.
  eapply runs_mono; [by apply read_pipeline|]. intros [] z ->.
  eapply runs_mono; [by apply read_control|]. intros [] z (x & Ex & ->). run_step. eexists _, _. split; [done|].
  view_red. destruct v. unfold config_view, str. cbn in *. by subst.
Qed.

End read_back.

(** ** What is accepted is in range *)

Lemma type_is_view t name : type_is t name = true -> str t = name.
Proof. destruct t as [t|]; [|done]. apply String.eqb_eq. Qed.

Lemma output_view_ok o : output_ok o -> output_value_ok (output_view o).
Proof.
  unfold output_ok, output_value_ok. cbn [rate_limit_mbps slice o_type o_config output_view]. intros (Hr & Hs & Hc).
  split; [done|]. split; [done|]. destruct (o_config o) as [|c|c|c|name|c].
  - by apply type_is_view.
  - destruct Hc as [Ht Hc]. split; [by apply type_is_view|]. unfold vxlan_ok in *. by destruct_and?.
  - destruct Hc as [Ht Hc]. split; [by apply type_is_view|]. unfold gre_ok in *. by destruct_and?.
  - destruct Hc as [Ht Hc]. split; [by apply type_is_view|]. unfold zmq_ok in *. by destruct_and?.
  - by apply type_is_view, Hc.
  - destruct Hc as [Ht Hc]. split; [by apply type_is_view|]. unfold rotating_ok in *. by destruct_and?.
Qed.

Lemma capturer_view_ok c : capturer_ok c -> capturer_value_ok (capturer_view c).
Proof.
  unfold capturer_ok, capturer_value_ok. cbn [c_type c_config capturer_view]. destruct (c_config c) as [|x|x|x]; [done| | |].
  - intros [Ht Hc]. split; [by apply type_is_view|]. unfold libpcap_ok in *. by destruct_and?.
  - intros [Ht _]. by apply type_is_view.
  - intros [Ht Hc]. split; [by apply type_is_view|]. unfold dpdk_ok in *. by destruct_and?.
Qed.

Lemma req_pattern_view_ok r : req_pattern_ok r -> req_pattern_value_ok (req_pattern_view r).
Proof.
  unfold req_pattern_ok, req_pattern_value_ok. cbn [rp_type rp_pattern req_pattern_view].
  destruct (type_is (rp_type r) "custom") eqn:E; [intros _; left; by apply type_is_view|].
  intros [Ht ->]. right. split; [|done]. apply orb_true_iff in Ht as [Ht|Ht]; apply type_is_view in Ht; auto.
Qed.

Lemma task_view_ok t : task_ok t -> task_value_ok (task_view t).
Proof.
  intros (Hr & Hc & _ & Ho). split; [by apply req_pattern_view_ok|]. split; [by apply capturer_view_ok|].
  cbn [v_outputs task_view]. apply Forall_fmap. revert Ho. apply List.Forall_impl. intros [p o]. apply output_view_ok.
Qed.

Lemma named_fingerprints l :
  named ((fun b => task_view b.2) <$> l) = filter (fun fp => fp <> EmptyString) (fingerprints l).
Proof.
  induction l as [|[p t] l IH]; [done|]. rewrite fmap_cons, named_cons, IH. unfold fingerprints.
  cbn [omap list_omap snd v_fingerprint task_view]. unfold fingerprint_of. destruct (t_fingerprint t) as [f|].
  - cbn [fmap option_fmap option_map]. by rewrite list.filter_cons.
  - by rewrite decide_False by (intros Hf; by apply Hf).
Qed.

Lemma config_view_ok c : config_ok c -> config_value_ok (config_view c).
Proof.
  intros (Hl & _ & Hm & Hc & Ht). unfold config_value_ok. cbn [v_log_level v_execution_model v_buffer_size_mb v_control v_tasks config_view].
  split; [done|]. split; [done|]. split.
  - destruct (control c) as [[p x]|]; [|done]. destruct Hc as [Hc _]. by apply type_is_view.
  - destruct (tasks_cfg c) as [[p ts]|]; [|done]. destruct Ht as (_ & Ht & Hn). split.
    + apply Forall_fmap. revert Ht. apply List.Forall_impl. intros [q t]. apply task_view_ok.
    + rewrite named_fingerprints. by apply list.NoDup_filter.
Qed.

(** ** Properties *)

Section language.

(** The configurations the worker can be given are exactly the ones in
    range: every value in range, printed with all its fields, is read back
    unchanged when memory suffices; and whatever JSON is accepted, under any
    allocation failures, the configuration read is in range. *)
Theorem config_roundtrip v st :
  answers st = [] ->
  (config_value_ok v ->
   exists p c st', parse_config_json (json_config v) tt st = Ok (Some (p, c)) tt st' /\ config_view c = v) /\
  (forall json st p c s st', parse_config_json json tt st = Ok (Some (p, c)) s st' -> config_value_ok (config_view c)).
Proof.
  intros Hst. split.
  - intros Hv. destruct (read_config v tt Hv st Hst) as (r & [] & st' & E & _ & p & c & -> & Ev). by exists p, c, st'.
  - intros json st2 p c s st' E. apply config_view_ok.
    pose proof (parse_config_json_ok (U := True) (S := unit) json (live st2) tt
      (fun r _ _ _ => match r with Some (_, c) => config_ok c | None => True end) (fun _ _ => False) (failed (err st2))
      ltac:(done) ltac:(done) ltac:(done) st2 eq_refl eq_refl) as Hwp. by rewrite E in Hwp.
Qed.

End language.

(** *** Witnesses *)

Definition demo_value : config_value :=
  ConfigValue LOG_WARN "0-3" EXECUTION_MODEL_PIPELINE 512 (Some (Control "unix" "/run/cpworker.sock"))
    [TaskValue "t1" (ReqPattern "custom" "port 80")
       (Capturer "libpcap" (CapLibpcap (LibpcapCfg "eth0" 2048 EmptyString "tcp" 256 3 true)))
       [Output "vxlan" 100 128 (OutVxlan (VxlanCfg "10.0.0.1" 4789 true 1 7 "eth1" IP_PMTUDISC_DO (Split 1400 true)));
        Output "zmq" 0 0 (OutZmq (ZmqCfg "10.0.0.2" 82 100 4294967295 EmptyString 1000))];
     TaskValue EmptyString (ReqPattern "none" EmptyString) (Capturer "pcap_file" (CapPcapFile (PcapFileCfg "a.pcap" EmptyString)))
       [Output "null" 0 0 OutZero]].

Definition demo_store : store := Store ∅ 0 [] (ParseError CJSON_PARSE_OK EmptyString).

Lemma demo_value_ok : config_value_ok demo_value.
Proof.
  unfold config_value_ok, demo_value. cbn [v_log_level v_execution_model v_buffer_size_mb v_control v_tasks ctl_type].
  split; [done|]. split; [right; done|]. split; [done|]. split.
  - repeat apply List.Forall_cons; try apply List.Forall_nil.
    + split; [by left|]. split; [done|]. repeat apply List.Forall_cons; try apply List.Forall_nil; try done.
      unfold output_value_ok, vxlan_ok. cbn. split; [done|]. split; [done|]. split; [done|]. split; [done|]. split; [done|].
      split; [left; done|]. split; [done|]. split; [|done]. unfold pmtudisc_ok. tauto.
    + split; [right; auto|]. split; [done|]. repeat apply List.Forall_cons; try apply List.Forall_nil; done.
  - apply (bool_decide_unpack _). by vm_compute.
Qed.

Lemma config_roundtrip_witness :
  exists p c st', parse_config_json (json_config demo_value) tt demo_store = Ok (Some (p, c)) tt st' /\ config_view c = demo_value.
Proof. exact (proj1 (config_roundtrip demo_value demo_store eq_refl) demo_value_ok). Defined.
