(* ===== verification/ConfigText.v ===== *)
(** * From the text of a file to a configuration (config.c, cjson_utils.c, cJSON.c)

    The parser of JSON texts and the reader of configurations together: what
    a configuration file has to hold, and that what cJSON prints of a
    configuration is such a file. *)

From stdpp Require Import prelude list strings pretty gmultiset.
From Stdlib Require Import SpecFloat.
From S2P Require Import Prelude RateLimit CJson Decimal JsonParse JsonSafety JsonGrammar JsonPrint JsonRender JsonText Config ConfigSafety ConfigRoundtrip.

(** ** Reading a file *)

Section yields.
  Context {S : Type}.
  Implicit Types (s : S).

Lemma yields_free p s (Q : unit -> S -> Prop) : Q tt s -> yields (free p) s Q.
Proof. intros HQ st Hst. unfold free. by destruct (decide _). Qed.

Lemma yields_free_str p s (Q : unit -> S -> Prop) : Q tt s -> yields (free_str p) s Q.
Proof. intros HQ. destruct p; [by apply yields_free|by apply yields_ret]. Qed.

Lemma yields_runs {A : Type} (m : M S A) s Q : runs m s Q -> yields m s Q.
Proof. intros Hm st Hst. destruct (Hm st Hst) as (a & s' & st' & -> & Hst' & HQ). done. Qed.

Lemma yields_delete i s (Q : unit -> S -> Prop) : Q tt s -> yields (delete_item i) s Q.
Proof.
  revert Q. induction i as [self ty vs vi vd nm ch IH] using item_tree_ind. intros Q HQ. cbn [delete_item]. apply yields_bind.
  assert (Hlast : yields ((if has_flag ty cJSON_StringIsConst then ret tt else free_str nm);; free self) s Q).
  { apply yields_bind. destruct (has_flag ty cJSON_StringIsConst); [apply yields_ret|apply yields_free_str]; by apply yields_free. }
  destruct (has_flag ty cJSON_IsReference); [by apply yields_ret|]. apply yields_bind.
  assert (Hl : yields (free_str vs) s (fun _ s' => yields ((if has_flag ty cJSON_StringIsConst then ret tt else free_str nm);; free self) s' Q))
    by (by apply yields_free_str).
  clear Hlast. induction IH as [|i l Hi _ IHl]; [by apply yields_ret|]. by apply yields_bind, Hi.
Qed.

(** A text of the grammar is read as its value. *)
Lemma yields_cjson_parse text v s (Q : option item -> S -> Prop) :
  json_document (bytes_of (c_string text)) v -> (forall i, to_json i = v -> Q (Some i) s) -> yields (cjson_parse (Some text)) s Q.
Proof.
  intros Hd HQ. apply yields_bind. intros st Hst. unfold cJSON_ParseWithOpts, cJSON_ParseWithLengthOpts.
  pose proof (parse_root_yields _ true v Hd st Hst) as Hy.
  destruct (parse_root _ true (ParseBuffer 0 0) st) as [i b st'|b st'|]; [|done|done]. destruct Hy as [Hst' Hi].
  split; [done|]. by apply yields_ret, HQ.
Qed.

(** The file has the size it says and is not larger than the limit. *)
Definition file_with (text : string) : file_env := FileEnv true (inr (true, Z.of_nat (String.length text))) text.

Lemma yields_read_file filename text s (Q : option cstr -> S -> Prop) :
  text <> EmptyString -> Z.of_nat (String.length text) <= CONFIG_FILE_MAX_SIZE ->
  (forall b, Q (Some (CStr b text)) s) -> yields (read_file_contents filename (file_with text)) s Q.
Proof.
  intros Hn Hl HQ. assert (0 < Z.of_nat (String.length text)) as Hp by (destruct text; [done|cbn; lia]).
  unfold read_file_contents, file_with. cbn [f_opens f_stat f_read negb]. apply yields_bind. intros st Hst. unfold fopen. split; [done|].
  bcase; [lia|]. bcase; [lia|]. apply yields_bind, yields_alloc. intros b. rewrite Z.eqb_refl. cbn [negb]. apply yields_bind, yields_free.
  apply yields_ret, HQ.
Qed.

End yields.

Lemma yields_config_file filename text v (Hv : config_value_ok v) :
  json_document (bytes_of (c_string text)) (json_config v) ->
  text <> EmptyString -> Z.of_nat (String.length text) <= CONFIG_FILE_MAX_SIZE ->
  yields (parse_config_file filename (file_with text)) tt (fun r _ => exists p c, r = Some (p, c) /\ config_view c = v).
Proof.
  intros Hd Hn Hl. unfold parse_config_file, parse_file_with. apply yields_bind, yields_read_file; [done|done|]. intros b. cbn [chars].
  apply yields_bind, (yields_cjson_parse _ (json_config v)); [by rewrite c_string_idem|]. intros i ->. apply yields_bind.
  eapply yields_mono; [by apply yields_runs, read_config|]. intros r [] Hr. apply yields_bind, yields_delete, yields_bind, yields_free, yields_ret.
  done.
Qed.

(** The text of a configuration has an object wherever it has a custom
    pattern. *)
Lemma json_config_formats v : misformats (json_config v) = false.
Proof.
  unfold misformats, json_config. cbn [get_object_item find_member app String.eqb Ascii.eqb Bool.eqb cJSON_IsArray].
  induction (v_tasks v) as [|t ts IH]; [done|]. rewrite fmap_cons. cbn [existsb]. rewrite IH, orb_false_r.
  unfold json_task, task_misformats. cbn [get_object_item find_member app String.eqb Ascii.eqb Bool.eqb cJSON_IsObject andb].
  unfold json_req_pattern. destruct (String.eqb (rp_type (v_req_pattern t)) "none"); [done|].
  by destruct (String.eqb (rp_type (v_req_pattern t)) "auto").
Qed.

Lemma formatted_file filename text v st :
  answers st = [] -> json_document (bytes_of (c_string text)) (json_config v) ->
  text <> EmptyString -> Z.of_nat (String.length text) <= CONFIG_FILE_MAX_SIZE ->
  (exists buffer st1 json st2,
    read_file_contents filename (file_with text) tt st = Ok (Some buffer) tt st1 /\
    cjson_parse (Some (c_string (chars buffer))) tt st1 = Ok (Some json) tt st2 /\ misformats (to_json json) = true) -> False.
Proof.
  intros Hst Hd Hn Hl (buffer & st1 & json & st2 & E1 & E2 & Hb).
  pose proof (yields_read_file filename text tt (fun r _ => chars <$> r = Some text) Hn Hl ltac:(done) st Hst) as H1.
  rewrite E1 in H1. destruct H1 as [Hst1 H1]. injection H1 as H1. rewrite H1 in E2.
  pose proof (yields_cjson_parse (c_string text) (json_config v) tt (fun r _ => to_json <$> r = Some (json_config v))
    ltac:(by rewrite c_string_idem) ltac:(by intros i <-) st1 Hst1) as H2.
  rewrite E2 in H2. destruct H2 as [_ H2]. injection H2 as H2. by rewrite H2, json_config_formats in Hb.
Qed.

(** ** The text of a configuration *)

Lemma each_app {A : Type} (P : A -> Prop) l1 l2 : each P (l1 ++ l2) <-> each P l1 /\ each P l2.
Proof. rewrite !each_forall. apply List.Forall_app. Qed.

Lemma num_ok n z : Z.abs z < 10 ^ 15 -> ints_ok n (num z).
Proof. intros Hz. by exists z. Qed.

(** Open an object or an array, field by field. *)
Ltac fields := cbn [ints_ok each fst snd app]; repeat match goal with
  | |- _ /\ _ => split
  | |- True => exact I
  | |- ints_ok _ (num _) => apply num_ok
  end.

Section ints.
  Context (k : nat).

Lemma pmtudisc_ints v : each (fun m => ints_ok k m.2) (json_pmtudisc v).
Proof. unfold json_pmtudisc. repeat case_match; by fields. Qed.

End ints.

Lemma output_ints k o : output_value_ok o -> ints_ok (3 + k) (json_output o).
Proof.
  change (10 ^ 15) with 1000000000000000. unfold output_value_ok, INT_MAX. intros (Hr & Hs & Hc). unfold json_output. cbn [plus ints_ok]. apply each_app. split; [fields; lia|].
  destruct (o_config o) as [|c|c|c|name|c]; fields; try done.
  - destruct Hc as (_ & _ & Hp & Hv & _ & _ & Hm). unfold json_vxlan. cbn [ints_ok]. apply each_app. split; [|apply pmtudisc_ints]. fields; lia.
  - destruct Hc as (_ & _ & Hp & _). unfold json_gre. cbn [ints_ok]. apply each_app. split; [|apply pmtudisc_ints]. fields; lia.
  - destruct Hc as (_ & _ & Hp & Hw & Ht & _ & Hb). unfold INT_MAX in *. unfold json_zmq. fields; lia.
  - destruct Hc as (_ & _ & Hi). unfold INT_MAX in *. unfold json_rotating. fields; lia.
Qed.

Lemma capturer_ints k c : capturer_value_ok c -> ints_ok (2 + k) (json_capturer c).
Proof.
  unfold capturer_value_ok, json_capturer. intros Hc. cbn [plus]. destruct (c_config c) as [|x|x|x]; [done|..]; fields.
  - destruct Hc as (_ & _ & Hs & _ & _ & Hb & Ht). unfold MAX_SNAPLEN in Hs. change MAX_LIBPCAP_BUFFER_SIZE_MB with 2047 in Hb. unfold INT_MAX in *.
    unfold json_libpcap. fields; lia.
  - destruct Hc as (_ & _ & Hs & _ & Hr). unfold MAX_SNAPLEN in Hs. lia.
  - destruct Hc as (_ & _ & Hs & _ & Hr). lia.
Qed.

Lemma task_ints k t : task_value_ok t -> ints_ok (5 + k) (json_task t).
Proof.
  intros (_ & Hc & Ho). unfold json_task. cbn [plus ints_ok]. apply each_app. split.
  - fields; [by apply capturer_ints|]. apply each_forall, List.Forall_map. revert Ho. apply List.Forall_impl. intros o. apply output_ints.
  - unfold json_req_pattern. repeat case_match; by fields.
Qed.

Lemma config_ints k v : config_value_ok v -> ints_ok (7 + k) (json_config v).
Proof.
  intros (_ & Hp & _ & Ht & _). unfold json_config. cbn [plus ints_ok]. apply each_app. split.
  - fields.
    + destruct Hp as [[_ ->]|(_ & Hlo & Hhi)]; [done|]. unfold SIZE_MAX in Hhi. lia.
    + apply each_forall, List.Forall_map. revert Ht. apply List.Forall_impl. intros t. apply (task_ints k).
  - destruct (v_control v); by fields.
Qed.

Lemma document_nonempty text v : json_document (bytes_of (c_string text)) v -> text <> EmptyString.
Proof.
  intros (bom & w1 & t & w2 & Et & _ & _ & _ & Ht) ->. destruct (json_text_start _ _ _ Ht) as (c & t' & -> & _).
  by destruct bom, w1.
Qed.

(** C17: A configuration file is any JSON text of the configuration, however
    it is laid out and escaped: for a configuration in range, with the memory
    it takes, the worker reads every file of at most 64 MiB that holds such a
    text as that configuration.  What cJSON prints of the configuration,
    formatted or not, is such a text, when no string of it has a NUL in it. *)
Theorem config_text filename v st :
  config_value_ok v -> answers st = [] ->
  (forall text, json_document (bytes_of (c_string text)) (json_config v) -> Z.of_nat (String.length text) <= CONFIG_FILE_MAX_SIZE ->
     exists p c st', parse_config_file filename (file_with text) tt st = Ok (Some (p, c)) tt st' /\ config_view c = v) /\
  (texts_ok (json_config v) -> forall fmt, exists u,
     render fmt (tree_of None (json_config v)) 0 = Some u /\ json_document (bytes_of (c_string (text_of u))) (json_config v)).
Proof.
  intros Hv Hst. split.
  - intros text Hd Hl. pose proof (yields_config_file filename text v Hv Hd (document_nonempty _ _ Hd) Hl st Hst) as Hy.
    pose proof (parse_config_file_ok filename (file_with text) st) as Hrun.
    destruct (parse_config_file filename (file_with text) tt st) as [r [] st'|s st'|]; [|done|].
    2:{ exfalso. apply (formatted_file filename text v st Hst Hd (document_nonempty _ _ Hd) Hl Hrun). }
    destruct Hy as [_ (p & c & -> & Hc)]. by exists p, c, st'.
  - intros Ht fmt. destruct (printed_document fmt (json_config v) (config_ints 993 v Hv) Ht) as (u & Eu & Hb & Hd).
    exists u. split; [done|]. by rewrite text_bytes_string.
Qed.

(** *** Witness *)

Lemma demo_texts_ok : texts_ok (json_config demo_value).
Proof. vm_compute. tauto. Qed.

Lemma config_text_witness :
  exists u p c st', render true (tree_of None (json_config demo_value)) 0 = Some u /\
    parse_config_file "cpworker.json" (file_with (text_of u)) tt demo_store = Ok (Some (p, c)) tt st' /\ config_view c = demo_value.
Proof.
  destruct (config_text "cpworker.json" demo_value demo_store demo_value_ok eq_refl) as [Hread Hprint].
  destruct (Hprint demo_texts_ok true) as (u & Eu & Hd). destruct (Hread (text_of u) Hd) as (p & c & st' & E & Ec).
  - assert (Eu2 : Some u = render true (tree_of None (json_config demo_value)) 0) by (symmetry; exact Eu). clear - Eu2.
    vm_compute in Eu2. injection Eu2 as ->. by vm_compute.
  - by exists u, p, c, st'.
Defined.
