(* ===== verification/Commands.v ===== *)
(** * The control commands (task.c, unix_rpc_basic.c)

    The replies to the requests of the control socket: liveness, process
    information, and the traffic statistics, which the main thread copies
    into a snapshot and the socket's thread reports.  The commands build
    their replies member by member; an allocation that fails on the way ends
    the command with an error and leaves what was added to the reply. *)

From stdpp Require Import prelude list strings gmultiset.
From Stdlib Require Import SpecFloat.
From S2P Require Import Prelude RateLimit Stats Headers RingBuffer Allocator CJson Decimal JsonParse JsonSafety JsonGrammar JsonRender JsonText JsonBuild Config.

(** ** The snapshot of the statistics *)

Record timespec := Timespec { tv_sec : Z; tv_nsec : Z }.

Record pipeline_buffer_stats_t := PipelineBufferStats {
  ring_total : Z; ring_used : Z; mem_total : Z; mem_used : Z;
}.

Record task_stats_summary_snapshot_t := Snapshot {
  tm : timespec; wall_tm : timespec; capture : capture_stats_t; output : output_stats_t;
  pipeline_buffer : pipeline_buffer_stats_t;
}.

(** The parts of [task_manager_t] the statistics are made of. *)
Record task_manager_stats := ManagerStats {
  execution_model : Z; ring : SpscRing.spsc_ring_t (A := ring_msg_t); alloc : SimpleAllocator.simple_allocator_t;
  stats_capture : capture_stats_t; stats_output : output_stats_t;
  stats_summary_snapshot : task_stats_summary_snapshot_t;
}.

(** [now] and [wall] are what the two clocks say. *)
Definition task_manager_update_stats_summary (now wall : timespec) (this : task_manager_stats) : task_manager_stats :=
  let buffer :=
    if execution_model this =? EXECUTION_MODEL_PIPELINE
    then PipelineBufferStats (SpscRing.size (ring this)) (SpscRing.spsc_ring_used (ring this))
           (SimpleAllocator.capacity (alloc this)) (SimpleAllocator.used (alloc this))
    else PipelineBufferStats 0 0 0 0 in
  ManagerStats (execution_model this) (ring this) (alloc this) (stats_capture this) (stats_output this)
    (Snapshot now wall (stats_capture this) (stats_output this) buffer).

(** ** The statistics as JSON *)

(** An integer argument becomes a double. *)
Definition add_int (name : string) (v : Z) : M item bool := cJSON_AddNumberToObject name (dbl_of_Z v).

Definition add_bytes_stats (name : string) (st : bytes_stats_t) : M item bool :=
  add_object name (both (add_int "bytes" (bytes st)) (add_int "eib" (eib st))).

Definition add_packets_stats (name : string) (st : packets_stats_t) : M item bool :=
  add_object name (both (add_int "packets" (packets st)) (add_int "peta" (peta st))).

Definition add_capture_stats (name : string) (st : capture_stats_t) : M item bool :=
  add_object name
    (both (add_bytes_stats "cap_bytes" (cap_bytes st))
    (both (add_packets_stats "cap_packets" (cap_packets st))
    (both (add_packets_stats "drop_packets" (drop_packets st))
          (add_packets_stats "ifdrop_packets" (ifdrop_packets st))))).

Definition add_output_stats (name : string) (st : output_stats_t) : M item bool :=
  add_object name
    (both (add_bytes_stats "fwd_bytes" (fwd_bytes st))
    (both (add_packets_stats "fwd_packets" (fwd_packets st))
    (both (add_bytes_stats "direction_drop_bytes" (direction_drop_bytes st))
    (both (add_packets_stats "direction_drop_packets" (direction_drop_packets st))
    (both (add_bytes_stats "error_drop_bytes" (error_drop_bytes st))
    (both (add_packets_stats "error_drop_packets" (error_drop_packets st))
    (both (add_bytes_stats "ratelimit_drop_bytes" (ratelimit_drop_bytes st))
    (both (add_packets_stats "ratelimit_drop_packets" (ratelimit_drop_packets st))
          (add_packets_stats "heartbeat_packets" (heartbeat_packets st)))))))))).

Definition add_pipeline_buffer_stats (name : string) (st : pipeline_buffer_stats_t) : M item bool :=
  add_object name
    (both (add_int "mem_total" (mem_total st))
    (both (add_int "mem_used" (mem_used st))
    (both (add_int "ring_total" (ring_total st))
          (add_int "ring_used" (ring_used st))))).

Definition add_time (name : string) (t : timespec) : M item bool :=
  add_object name (both (add_int "sec" (tv_sec t)) (add_int "nsec" (tv_nsec t))).

(** What a command returns. *)
Definition code_of_ok (m : M item bool) : M item Z := do ok <- m; ret (if ok : bool then 0 else -1).

Definition task_manager_collect_stats_summary_command (stats : task_stats_summary_snapshot_t) : M item Z :=
  code_of_ok
    (both (add_time "time" (tm stats))
    (both (add_time "wall_time" (wall_tm stats))
    (both (add_capture_stats "capture" (capture stats))
    (both (add_output_stats "output" (output stats))
          (add_pipeline_buffer_stats "pipeline_buffer" (pipeline_buffer stats)))))).

(** ** Liveness and process information *)

(** [g_started_at], [g_config_path], [g_working_dir]; the last owns its
    copy. *)
Record rpc_globals := RpcGlobals { g_started_at : Z; g_config_path : option string; g_working_dir : option cstr }.

Definition unix_rpc_basic_set_started_at (w : Z) : M rpc_globals unit :=
  modify (fun g => RpcGlobals w (g_config_path g) (g_working_dir g)).
Definition unix_rpc_basic_set_config_path (path : option string) : M rpc_globals unit :=
  modify (fun g => RpcGlobals (g_started_at g) path (g_working_dir g)).
Definition unix_rpc_basic_set_working_dir (cwd : option string) : M rpc_globals unit :=
  do old <- gets g_working_dir;
  free_str old;;
  do new <- match cwd with Some cwd => strdup (c_string cwd) | None => ret None end;
  modify (fun g => RpcGlobals (g_started_at g) (g_config_path g) new).

(** The clock answers a time, or the call fails. *)
Definition unix_rpc_ping_command (clock : option timespec) : M item Z :=
  match clock with
  | None => ret (-1)
  | Some ts => code_of_ok (add_int "ts_ms" (tv_sec ts * 1000 + tv_nsec ts / 1000000))
  end.

(** [version] and [pid] are the program's, [now] the time. *)
Definition unix_rpc_info_command (version : string) (pid now : Z) (g : rpc_globals) : M item Z :=
  code_of_ok
    (both (cJSON_AddStringToObject "version" version)
    (both (add_int "pid" pid)
    (both (add_int "uptime_sec" (if 0 <? g_started_at g then now - g_started_at g else 0))
    (both (add_int "started_at_sec" (g_started_at g))
    (both (cJSON_AddStringToObject "config_path" (default EmptyString (g_config_path g)))
    (both (cJSON_AddStringToObject "working_dir" (match g_working_dir g with Some c => chars c | None => EmptyString end))
          (cJSON_AddStringToObject "log_destination" "stderr"))))))).

(** The command raises the signal the main thread looks at. *)
Definition task_manager_reload_config_command : M item Z * bool := (ret 0, true).

(** ** What the replies say *)

Definition num_of (v : Z) : cJSON := JNumber (dbl_of_Z v).

Definition bytes_json (st : bytes_stats_t) : cJSON := JObject [("bytes", num_of (bytes st)); ("eib", num_of (eib st))].
Definition packets_json (st : packets_stats_t) : cJSON := JObject [("packets", num_of (packets st)); ("peta", num_of (peta st))].
Definition time_json (t : timespec) : cJSON := JObject [("sec", num_of (tv_sec t)); ("nsec", num_of (tv_nsec t))].

Definition capture_json (st : capture_stats_t) : cJSON := JObject
  [("cap_bytes", bytes_json (cap_bytes st)); ("cap_packets", packets_json (cap_packets st));
   ("drop_packets", packets_json (drop_packets st)); ("ifdrop_packets", packets_json (ifdrop_packets st))].

Definition output_json (st : output_stats_t) : cJSON := JObject
  [("fwd_bytes", bytes_json (fwd_bytes st)); ("fwd_packets", packets_json (fwd_packets st));
   ("direction_drop_bytes", bytes_json (direction_drop_bytes st)); ("direction_drop_packets", packets_json (direction_drop_packets st));
   ("error_drop_bytes", bytes_json (error_drop_bytes st)); ("error_drop_packets", packets_json (error_drop_packets st));
   ("ratelimit_drop_bytes", bytes_json (ratelimit_drop_bytes st)); ("ratelimit_drop_packets", packets_json (ratelimit_drop_packets st));
   ("heartbeat_packets", packets_json (heartbeat_packets st))].

Definition buffer_json (st : pipeline_buffer_stats_t) : cJSON := JObject
  [("mem_total", num_of (mem_total st)); ("mem_used", num_of (mem_used st));
   ("ring_total", num_of (ring_total st)); ("ring_used", num_of (ring_used st))].

Definition stats_members (s : task_stats_summary_snapshot_t) : list (string * cJSON) :=
  [("time", time_json (tm s)); ("wall_time", time_json (wall_tm s)); ("capture", capture_json (capture s));
   ("output", output_json (output s)); ("pipeline_buffer", buffer_json (pipeline_buffer s))].

Definition info_members (version : string) (pid now : Z) (g : rpc_globals) : list (string * cJSON) :=
  [("version", JString (c_string version)); ("pid", num_of pid);
   ("uptime_sec", num_of (if 0 <? g_started_at g then now - g_started_at g else 0)); ("started_at_sec", num_of (g_started_at g));
   ("config_path", JString (c_string (default EmptyString (g_config_path g))));
   ("working_dir", JString (c_string (match g_working_dir g with Some c => chars c | None => EmptyString end)));
   ("log_destination", JString "stderr")].

(** ** Proofs *)

Section grows.
  Context {mem : bool}.
  Abbreviation grows := (grows (mem := mem)).

Lemma grows_int name v : c_string name = name -> grows (add_int name v) [(name, num_of v)].
Proof. intros Hn. rewrite <- Hn at 2. apply grows_new, makes_number. Qed.

Lemma grows_string name text : c_string name = name -> grows (cJSON_AddStringToObject name text) [(name, JString (c_string text))].
Proof. intros Hn. rewrite <- Hn at 2. apply grows_new, makes_string. Qed.

Lemma grows_named name fill ms : c_string name = name -> grows fill ms -> grows (add_object name fill) [(name, JObject ms)].
Proof. intros Hn Hf. rewrite <- Hn at 2. by apply grows_object. Qed.

Lemma grows_more m1 m2 x ms : grows m1 [x] -> grows m2 ms -> grows (both m1 m2) (x :: ms).
Proof. apply grows_both. Qed.

(** One step per call of the source. *)
Ltac grow_step := lazymatch goal with
  | |- grows (both _ _) _ => apply grows_more
  | |- grows (add_int _ _) _ => apply grows_int; done
  | |- grows (cJSON_AddStringToObject _ _) _ => apply grows_string; done
  | |- grows (add_object _ _) _ => apply grows_named; [done|]
  end.
Ltac grow := repeat grow_step.

Lemma grows_bytes name st : c_string name = name -> grows (add_bytes_stats name st) [(name, bytes_json st)].
Proof. intros Hn. apply grows_named; [done|]. grow. Qed.

Lemma grows_packets name st : c_string name = name -> grows (add_packets_stats name st) [(name, packets_json st)].
Proof. intros Hn. apply grows_named; [done|]. grow. Qed.

Ltac grow_stats := repeat lazymatch goal with
  | |- grows (add_bytes_stats _ _) _ => apply grows_bytes; done
  | |- grows (add_packets_stats _ _) _ => apply grows_packets; done
  | _ => grow_step
  end.

Lemma grows_stats s :
  grows (both (add_time "time" (tm s)) (both (add_time "wall_time" (wall_tm s)) (both (add_capture_stats "capture" (capture s))
    (both (add_output_stats "output" (output s)) (add_pipeline_buffer_stats "pipeline_buffer" (pipeline_buffer s)))))) (stats_members s).
Proof.
  unfold add_time, add_capture_stats, add_output_stats, add_pipeline_buffer_stats, stats_members. grow_stats.
Qed.

Lemma grows_info version pid now g :
  grows (both (cJSON_AddStringToObject "version" version) (both (add_int "pid" pid)
    (both (add_int "uptime_sec" (if 0 <? g_started_at g then now - g_started_at g else 0)) (both (add_int "started_at_sec" (g_started_at g))
    (both (cJSON_AddStringToObject "config_path" (default EmptyString (g_config_path g)))
    (both (cJSON_AddStringToObject "working_dir" (match g_working_dir g with Some c => chars c | None => EmptyString end))
          (cJSON_AddStringToObject "log_destination" "stderr"))))))) (info_members version pid now g).
Proof. grow. Qed.

(** A command that adds [ms] to the reply. *)
Lemma command_ok m ms i ms0 H : grows m ms -> is_object i ms0 ->
  triple mem (code_of_ok m)
    (fun rc i' H' => H' = H ⊎ item_foot i' /\ (exists ms', is_object i' ms' /\ (rc = 0 -> ms' = ms0 ++ ms)) /\ (mem = true -> rc = 0))
    (fun _ _ => False) i (H ⊎ item_foot i).
Proof.
  intros Hm Hi. apply hoare_bind. eapply hoare_mono; [by apply Hm| |done]. intros ok i' h (-> & _ & (ms' & Hi' & Hms) & Hok).
  apply hoare_ret. split; [done|]. split; [|intros Hmem; by rewrite Hok]. exists ms'. split; [done|]. destruct ok; [auto|done].
Qed.

End grows.

(** ** Properties *)

(** [m] run on a reply with the members [ms0], whatever else is allocated. *)
Definition replies (m : M item Z) (ms : list (string * cJSON)) : Prop :=
  forall i ms0 H st, is_object i ms0 -> live st = H ⊎ item_foot i ->
  exists rc i' st' st'',
    m i st = Ok rc i' st' /\ (rc = 0 -> to_json i' = JObject (ms0 ++ ms)) /\ (answers st = [] -> rc = 0) /\
    delete_item i' tt st' = Ok tt tt st'' /\ live st'' = H.

Lemma grows_replies m ms : (forall mem, grows (mem := mem) m ms) -> replies (code_of_ok m) ms.
Proof.
  intros Hm i ms0 H st Hi Hst. set (mem := bool_decide (answers st = [])).
  pose proof (command_ok (mem := mem) m ms i ms0 H (Hm mem) Hi st Hst (bool_decide_eq_true_1 _)) as Hc.
  destruct (code_of_ok m i st) as [rc i' st'|i' st'|]; [|by destruct Hc|done]. destruct Hc as [(Hl & (ms' & Hi' & Hms) & Hrc) _].
  pose proof (hoare_delete_item (mem := false) i' (fun _ s' H' => s' = tt /\ H' = H) (fun _ _ => False) tt H (conj eq_refl eq_refl) st' Hl ltac:(done)) as Hd.
  destruct (delete_item i' tt st') as [[] s2 st2|s2 st2|] eqn:Ed; [|by destruct Hd|done]. destruct Hd as [[-> Hd] _].
  exists rc, i', st', st2. split; [done|]. split; [intros E0; rewrite <- (Hms E0); by apply is_object_json|].
  split; [intros Ha; by apply Hrc, bool_decide_eq_true_2|]. done.
Qed.

(** C23: The statistics, information and liveness commands, whichever
    allocations fail, return; they report success only when the reply has
    exactly the members the command promises, behind the ones it had: every
    counter of the snapshot under its name, the version, process id, times
    and paths, the time in milliseconds.  With enough memory they succeed.
    Whatever was added, deleting the reply frees everything, once. *)
Theorem commands_reply (s : task_stats_summary_snapshot_t) version pid now g ts :
  replies (task_manager_collect_stats_summary_command s) (stats_members s) /\
  replies (unix_rpc_info_command version pid now g) (info_members version pid now g) /\
  replies (unix_rpc_ping_command (Some ts)) [("ts_ms", num_of (tv_sec ts * 1000 + tv_nsec ts / 1000000))].
Proof.
  split; [|split]; apply grows_replies; intros mem.
  - apply grows_stats.
  - apply grows_info.
  - by apply grows_int.
Qed.

(** ** Exact numbers *)

Lemma dbl_of_Z_int v : Z.abs v < 2 ^ 53 -> dbl_of_Z v = dbl_int v.
Proof. intros Hv. unfold dbl_of_Z. destruct v as [|m|m]; [done|exact (round_int false m Hv)|exact (round_int true m Hv)]. Qed.

Definition small (v : Z) : Prop := Z.abs v < 10 ^ 15.

Lemma num_of_ok n v : small v -> ints_ok n (num_of v).
Proof.
  intros Hv. exists v. split; [|exact Hv]. apply dbl_of_Z_int. unfold small in Hv. change (10 ^ 15) with 1000000000000000 in Hv. cbn. lia.
Qed.

Definition bytes_small (st : bytes_stats_t) : Prop := small (bytes st) /\ small (eib st).
Definition packets_small (st : packets_stats_t) : Prop := small (packets st) /\ small (peta st).
Definition time_small (t : timespec) : Prop := small (tv_sec t) /\ small (tv_nsec t).

(** Every number of the snapshot has at most 15 digits. *)
Definition snapshot_small (s : task_stats_summary_snapshot_t) : Prop :=
  time_small (tm s) /\ time_small (wall_tm s) /\
  (let c := capture s in bytes_small (cap_bytes c) /\ packets_small (cap_packets c) /\ packets_small (drop_packets c) /\ packets_small (ifdrop_packets c)) /\
  (let o := output s in
   bytes_small (fwd_bytes o) /\ packets_small (fwd_packets o) /\ bytes_small (direction_drop_bytes o) /\ packets_small (direction_drop_packets o) /\
   bytes_small (error_drop_bytes o) /\ packets_small (error_drop_packets o) /\ bytes_small (ratelimit_drop_bytes o) /\
   packets_small (ratelimit_drop_packets o) /\ packets_small (heartbeat_packets o)) /\
  (let b := pipeline_buffer s in small (mem_total b) /\ small (mem_used b) /\ small (ring_total b) /\ small (ring_used b)).

Lemma bytes_ints k st : bytes_small st -> ints_ok (1 + k) (bytes_json st).
Proof. intros [H1 H2]. cbn. by split; [apply num_of_ok|split; [apply num_of_ok|]]. Qed.
Lemma packets_ints k st : packets_small st -> ints_ok (1 + k) (packets_json st).
Proof. intros [H1 H2]. cbn. by split; [apply num_of_ok|split; [apply num_of_ok|]]. Qed.
Lemma time_ints k st : time_small st -> ints_ok (1 + k) (time_json st).
Proof. intros [H1 H2]. cbn. by split; [apply num_of_ok|split; [apply num_of_ok|]]. Qed.

Lemma stats_ints k s : snapshot_small s -> each (fun m => ints_ok (2 + k) m.2) (stats_members s).
Proof.
  intros (H1 & H2 & (H3 & H4 & H5 & H6) & (H7 & H8 & H9 & H10 & H11 & H12 & H13 & H14 & H15) & (H16 & H17 & H18 & H19)).
  unfold stats_members. cbn [each snd plus]. split; [by apply time_ints|]. split; [by apply time_ints|]. split; [|split; [|split; [|done]]].
  - unfold capture_json. cbn [ints_ok each snd]. repeat split; by (apply bytes_ints || apply packets_ints).
  - unfold output_json. cbn [ints_ok each snd]. repeat split; by (apply bytes_ints || apply packets_ints).
  - unfold buffer_json. cbn [ints_ok each snd]. repeat split; by apply num_of_ok.
Qed.

Lemma stats_texts s : each (fun m => c_string m.1 = m.1 /\ texts_ok m.2) (stats_members s).
Proof. by repeat split. Qed.
