(* ===== verification/UnixManager.v ===== *)
(** * The control socket (unix-manager.c)

    A thread serves local clients: a handshake, then one JSON request per
    line and one JSON reply per request.  The model keeps the descriptors the
    thread has open, the trees and client structs it has allocated, and what
    it sent; what the kernel answers comes from lists, one per system call. *)

From stdpp Require Import prelude list strings gmap.
From S2P Require Import Prelude CJson Decimal JsonText.

(** ** The system *)

(** [recv]: bytes that arrived, end of stream ([Piece EmptyString]), or an
    error.  A piece longer than the buffer asked for is delivered in parts. *)
Inductive recv_result := Piece (s : string) | RecvError.

Inductive select_result := Ready | Timeout | Interrupted | SelectError.

(** [send]: how many bytes it took, [EINTR], or another error. *)
Inductive send_result := Took (n : nat) | SendInterrupted | SendError.

(** [accept]: a new descriptor, or an error. *)
Inductive accept_result := Accepted (fd : Z) | AcceptError.

(** When a list is used up, [recv] reports the end of the stream, [select] a
    timeout, [send] takes everything, [accept] fails, allocations succeed. *)
Record env := Env {
  e_recv : list recv_result; e_select : list select_result; e_send : list send_result;
  e_accept : list accept_result; e_alloc : list bool;
}.

Definition CLIENT_BUFFER_SIZE : Z := 4096.
Definition UNIX_PROTO_VERSION_LENGTH : Z := 200.
Definition UNIX_PROTO_V1 : Z := 1.

(** The descriptors an [fd_set] has bits for. *)
Definition FD_SETSIZE : Z := 1024.
Definition fd_fits (n : Z) : bool := (0 <=? n) && (n <? FD_SETSIZE).

Record unix_client_t := UnixClient { fd : Z; version : Z }.

Section UnixManager.
  (** [W] is what the commands work on. *)
  Context {W : Type}.

(** A command gets the request and fills in the members of the reply. *)
Record command_t := Command {
  name : string;
  func : cJSON -> list (string * cJSON) -> W -> Z * list (string * cJSON) * W;
}.

Record unix_manager_t := UnixManager {
  socket : Z; select_max : Z; commands : list command_t; clients : list unix_client_t;
}.

(** [open]: the descriptors; [trees], [structs]: JSON trees and client
    structs allocated and not freed; [sent]: what each descriptor was sent, in
    order; [executed]: the requests the commands were called with. *)
Record sys := Sys {
  mgr : unix_manager_t; open : gset Z; trees : Z; structs : Z; ev : env; sent : list (Z * string);
  executed : list (string * cJSON); app : W;
}.

(** [None]: a descriptor is closed that is not open, a bit is set outside an
    [fd_set], or a loop runs out of fuel. *)
Definition M (A : Type) : Type := sys -> option (A * sys).
Definition ret {A} (a : A) : M A := fun s => Some (a, s).
Definition bind {A B} (m : M A) (k : A -> M B) : M B := fun s =>
  match m s with Some (a, s) => k a s | None => None end.

Definition diverge {A} : M A := fun _ => None.

Declare Scope unix_scope.
Delimit Scope unix_scope with unix.
Notation "'do' x <- m ; f" := (bind m (fun x => f))
  (at level 100, x name, m at level 99, f at level 200, right associativity) : unix_scope.
Notation "m ;; f" := (bind m (fun _ => f))
  (at level 100, f at level 200, right associativity) : unix_scope.
Open Scope unix_scope.

Definition set_mgr (g : unix_manager_t) (s : sys) : sys :=
  Sys g (open s) (trees s) (structs s) (ev s) (sent s) (executed s) (app s).
Definition set_ev (e : env) (s : sys) : sys :=
  Sys (mgr s) (open s) (trees s) (structs s) e (sent s) (executed s) (app s).
Definition set_open (o : gset Z) (s : sys) : sys :=
  Sys (mgr s) o (trees s) (structs s) (ev s) (sent s) (executed s) (app s).

Definition count_trees (d : Z) : M unit := fun s =>
  Some (tt, Sys (mgr s) (open s) (trees s + d) (structs s) (ev s) (sent s) (executed s) (app s)).
Definition count_structs (d : Z) : M unit := fun s =>
  Some (tt, Sys (mgr s) (open s) (trees s) (structs s + d) (ev s) (sent s) (executed s) (app s)).

Definition recv (size : Z) : M recv_result := fun s =>
  let e := ev s in
  match e_recv e with
  | [] => Some (Piece EmptyString, s)
  | RecvError :: l => Some (RecvError, set_ev (Env l (e_select e) (e_send e) (e_accept e) (e_alloc e)) s)
  | Piece p :: l =>
      let n := Z.to_nat size in
      let rest := string_drop n p in
      let l := if String.eqb rest EmptyString then l else Piece rest :: l in
      Some (Piece (String.substring 0 n p), set_ev (Env l (e_select e) (e_send e) (e_accept e) (e_alloc e)) s)
  end.

Definition select : M select_result := fun s =>
  let e := ev s in
  match e_select e with
  | [] => Some (Timeout, s)
  | r :: l => Some (r, set_ev (Env (e_recv e) l (e_send e) (e_accept e) (e_alloc e)) s)
  end.

(** A result larger than what was to be sent takes it all. *)
Definition send (to : Z) (text : string) : M send_result := fun s =>
  let e := ev s in
  let '(r, l) := match e_send e with [] => (Took (String.length text), []) | r :: l => (r, l) end in
  let s := set_ev (Env (e_recv e) (e_select e) l (e_accept e) (e_alloc e)) s in
  match r with
  | Took n =>
      let n := Nat.min n (String.length text) in
      Some (Took n, Sys (mgr s) (open s) (trees s) (structs s) (ev s) (sent s ++ [(to, String.substring 0 n text)]) (executed s) (app s))
  | r => Some (r, s)
  end.

(** The kernel hands out a descriptor that is not open. *)
Definition accept : M (option Z) := fun s =>
  let e := ev s in
  match e_accept e with
  | [] => Some (None, s)
  | r :: l =>
      let s := set_ev (Env (e_recv e) (e_select e) (e_send e) l (e_alloc e)) s in
      match r with
      | Accepted n => if decide (n ∈ open s) then Some (None, s) else Some (Some n, set_open (open s ∪ {[ n ]}) s)
      | AcceptError => Some (None, s)
      end
  end.

Definition alloc : M bool := fun s =>
  let e := ev s in
  match e_alloc e with
  | [] => Some (true, s)
  | b :: l => Some (b, set_ev (Env (e_recv e) (e_select e) (e_send e) (e_accept e) l) s)
  end.

(** [FD_SET] into a set on the stack; [FD_ISSET] of the same descriptor reads
    the same bit. *)
Definition FD_SET (n : Z) : M unit := fun s => if fd_fits n then Some (tt, s) else None.

Fixpoint FD_SET_all (l : list Z) : M unit :=
  match l with [] => ret tt | n :: l => FD_SET n;; FD_SET_all l end.

Definition close (n : Z) : M unit := fun s =>
  if decide (n ∈ open s) then Some (tt, set_open (open s ∖ {[ n ]}) s) else None.

(** [cJSON_CreateObject]: a tree, or no memory. *)
Definition new_tree : M bool :=
  do ok <- alloc;
  if ok : bool then (count_trees 1;; ret true) else ret false.
Definition cJSON_Delete : M unit := count_trees (-1).

(** [cJSON_ParseWithOpts]: all its allocations succeed, or it answers NULL. *)
Definition parse_message (text : string) : M (option cJSON) :=
  do ok <- alloc;
  if negb ok then ret None
  else match parse_text false text with Some j => count_trees 1;; ret (Some j) | None => ret None end.

(** [cJSON_AddStringToObject]: [None] when there is no memory. *)
Definition add_string (members : list (string * cJSON)) (key value : string) : M (option (list (string * cJSON))) :=
  do ok <- alloc;
  ret (if ok : bool then Some (members ++ [(key, JString value)]) else None).

(** ** Clients *)

Definition unix_manager_set_max_fd (g : unix_manager_t) : unix_manager_t :=
  UnixManager (socket g)
    (foldl (fun m c => if m <=? fd c then fd c + 1 else m) (socket g + 1) (clients g)) (commands g) (clients g).

(** Remove the first client with the descriptor, if there is one. *)
Fixpoint remove_client (n : Z) (l : list unix_client_t) : option (list unix_client_t) :=
  match l with
  | [] => None
  | c :: l => if fd c =? n then Some l else (fun l => c :: l) <$> remove_client n l
  end.

Definition unix_client_delete (n : Z) : M unit := fun s =>
  let g := mgr s in
  match remove_client n (clients g) with
  | None => Some (tt, s)
  | Some l =>
      let s := set_mgr (UnixManager (socket g) (select_max g) (commands g) l) s in
      match close n s with
      | Some (_, s) => count_structs (-1) (set_mgr (unix_manager_set_max_fd (mgr s)) s)
      | None => None
      end
  end.

Definition newline : string := String (Ascii.ascii_of_nat 10) EmptyString.

(** The slow path's loop, as long as [fuel] lasts. *)
Fixpoint send_loop (fuel : nat) (to : Z) (out : string) : M Z :=
  match fuel with
  | O => diverge
  | Datatypes.S fuel =>
      if String.eqb out EmptyString then ret 0
      else
        do r <- send to out;
        match r with
        | SendInterrupted => send_loop fuel to out
        | SendError => ret (-1)
        | Took n => send_loop fuel to (string_drop n out)
        end
  end.

(** Every round uses up an answer of [send]; without answers left [send]
    takes all there is. *)
Definition send_fuel (s : sys) : nat := length (e_send (ev s)) + 2.

Definition unix_client_send (client : unix_client_t) (msg : cJSON) : M Z :=
  if preallocated_fits (CLIENT_BUFFER_SIZE - 1) msg &&
     (Z.of_nat (String.length (print_unformatted msg)) <? CLIENT_BUFFER_SIZE - 1)
  then
    do r <- send (fd client) (print_unformatted msg +:+ newline);
    ret (match r with Took _ => 0 | _ => -1 end)
  else
    do rendered <- alloc;
    if negb rendered then ret (-1)
    else
      do out <- alloc;
      if negb out then ret (-1)
      else fun s => send_loop (send_fuel s) (fd client) (print_unformatted msg +:+ newline) s.

Definition insert_client (c : unix_client_t) : M unit := fun s =>
  let g := mgr s in
  Some (tt, set_mgr (unix_manager_set_max_fd (UnixManager (socket g) (select_max g) (commands g) (clients g ++ [c]))) s).

(** The handshake's version, if the message is one. *)
Definition handshake_version (client_msg : cJSON) : option Z :=
  match cJSON_IsString (get_object_item client_msg "version") with
  | Some v => if String.eqb v "v1" then Some UNIX_PROTO_V1 else None
  | None => None
  end.

(** The reply to the handshake, and the new client. *)
Definition accept_reply (client_fd client_version : Z) : M Z :=
  do server_msg <- new_tree;
  if negb server_msg then (close client_fd;; ret (-1))
  else
    do members <- add_string [] "status" "OK";
    match members with
    | None => cJSON_Delete;; close client_fd;; ret (-1)
    | Some members =>
        do client <- alloc;
        if negb client then (cJSON_Delete;; close client_fd;; ret (-1))
        else
          count_structs 1;;
          let c := UnixClient client_fd client_version in
          do rc <- unix_client_send c (JObject members);
          if negb (rc =? 0) then (cJSON_Delete;; count_structs (-1);; close client_fd;; ret (-1))
          else (cJSON_Delete;; insert_client c;; ret 0)
    end.

Definition unix_manager_accept : M Z :=
  do client_fd <- accept;
  match client_fd with
  | None => ret (-1)
  | Some client_fd =>
      do r <- recv UNIX_PROTO_VERSION_LENGTH;
      match r with
      | RecvError => close client_fd;; ret (-1)
      | Piece buffer =>
          if UNIX_PROTO_VERSION_LENGTH <=? Z.of_nat (String.length buffer) then (close client_fd;; ret (-1))
          else
            do client_msg <- parse_message buffer;
            match client_msg with
            | None => close client_fd;; ret (-1)
            | Some client_msg =>
                match handshake_version client_msg with
                | None => cJSON_Delete;; close client_fd;; ret (-1)
                | Some v => cJSON_Delete;; accept_reply client_fd v
                end
            end
      end
  end.

(** ** Requests *)

Fixpoint find_command (cmd_name : string) (l : list command_t) : option command_t :=
  match l with
  | [] => None
  | c :: l => if String.eqb cmd_name (name c) then Some c else find_command cmd_name l
  end.

Definition call_command (c : command_t) (cmd_msg : cJSON) (members : list (string * cJSON)) :
    M (Z * list (string * cJSON)) := fun s =>
  let '(fret, members, w) := func c cmd_msg members (app s) in
  Some ((fret, members), Sys (mgr s) (open s) (trees s) (structs s) (ev s) (sent s) (executed s ++ [(name c, cmd_msg)]) w).

(** The reply to a request; [None] when there is no memory for it. *)
Definition command_reply (cmd_name : string) (cmd_msg : cJSON) : M (option (list (string * cJSON))) := fun s =>
  match find_command cmd_name (commands (mgr s)) with
  | None =>
      (do m <- add_string [] "message" "unknown command";
       match m with None => ret None | Some m => add_string m "status" "ERROR" end) s
  | Some c =>
      (do r <- call_command c cmd_msg [];
       add_string r.2 "status" (if r.1 =? 0 then "OK" else "ERROR")) s
  end.

Definition unix_command_execute (command : string) (client : unix_client_t) : M Z :=
  do server_msg <- new_tree;
  if negb server_msg then ret (-1)
  else
    do cmd_msg <- parse_message command;
    match cmd_msg with
    | None => cJSON_Delete;; unix_client_delete (fd client);; ret (-1)
    | Some cmd_msg =>
        let err_cmd := cJSON_Delete;; cJSON_Delete;; unix_client_delete (fd client);; ret (-1) in
        match cJSON_IsString (get_object_item cmd_msg "command") with
        | None => err_cmd
        | Some cmd_name =>
            do members <- command_reply cmd_name cmd_msg;
            match members with
            | None => err_cmd
            | Some members =>
                do rc <- unix_client_send client (JObject members);
                if negb (rc =? 0) then err_cmd else (cJSON_Delete;; cJSON_Delete;; ret 0)
            end
        end
    end.

Definition BUFFER_SIZE : Z := 4096.

(** [do { try++; ret = select(...); } while (ret == 0 && try < 3);]: whether
    the descriptor is ready, and the count; [None] when the client is gone. *)
Fixpoint wait_more (client_fd : Z) (n : nat) (tries : Z) : M (option (bool * Z)) :=
  FD_SET client_fd;;
  let tries := tries + 1 in
  do r <- select;
  match r with
  | Ready => ret (Some (true, tries))
  | SelectError => ret None
  | Timeout | Interrupted =>
      match n with
      | O => ret (Some (false, tries))
      | Datatypes.S n => if tries <? 3 then wait_more client_fd n tries else ret (Some (false, tries))
      end
  end.

Definition last_char (s : string) : option Ascii.ascii := String.get (String.length s - 1) s.
Definition but_last (s : string) : string := String.substring 0 (String.length s - 1) s.

(** [buffer] is what has been read, [r] what the last [recv] answered. *)
Fixpoint recv_loop (fuel : nat) (client : unix_client_t) (tries : Z) (buffer : string) (r : recv_result) : M unit :=
  match fuel with
  | O => diverge
  | Datatypes.S fuel =>
      match r with
      | RecvError => unix_client_delete (fd client)
      | Piece p =>
          if String.eqb p EmptyString then unix_client_delete (fd client)
          else
            let buffer := buffer +:+ p in
            let offset := Z.of_nat (String.length buffer) in
            if BUFFER_SIZE - 1 <=? offset then unix_client_delete (fd client)
            else
              match last_char buffer with
              | Some c =>
                  if Ascii.eqb c (Ascii.ascii_of_nat 10)
                  then unix_command_execute (but_last buffer) client;; ret tt
                  else
                    do w <- wait_more (fd client) 3 tries;
                    match w with
                    | None | Some (false, _) => unix_client_delete (fd client)
                    | Some (true, tries) =>
                        do r <- recv (BUFFER_SIZE - offset - 1);
                        recv_loop fuel client tries buffer r
                    end
              | None => diverge
              end
      end
  end.

(** Every round reads a byte, and the buffer is bounded. *)
Definition unix_client_recv (client : unix_client_t) : M unit :=
  do r <- recv (BUFFER_SIZE - 1);
  recv_loop (Z.to_nat BUFFER_SIZE) client 0 EmptyString r.

(** ** The loop *)

(** [ready] says which descriptors [select] reported. *)
Fixpoint serve_clients (ready : Z -> bool) (l : list unix_client_t) : M unit :=
  match l with
  | [] => ret tt
  | c :: l => (if ready (fd c) then unix_client_recv c else ret tt);; serve_clients ready l
  end.

Definition unix_manager_main (r : select_result) (ready : Z -> bool) : M Z := fun s =>
  (FD_SET (socket (mgr s));;
   FD_SET_all (fd <$> clients (mgr s));;
   match r with
   | SelectError => ret (-1)
   | Interrupted | Timeout => ret 0
   | Ready =>
       serve_clients ready (clients (mgr s));;
       (if ready (socket (mgr s)) then unix_manager_accept;; ret tt else ret tt);;
       ret 0
   end) s.

(** After a fatal error the thread closes what it has and ends. *)
Fixpoint close_clients (l : list unix_client_t) : M unit :=
  match l with [] => ret tt | c :: l => close (fd c);; count_structs (-1);; close_clients l end.

Fixpoint unix_manager_run (rounds : list (select_result * (Z -> bool))) : M unit :=
  match rounds with
  | [] => ret tt
  | (r, ready) :: rounds =>
      do rc <- unix_manager_main r ready;
      if negb (rc =? 0) then (fun s => close_clients (clients (mgr s)) s) else unix_manager_run rounds
  end.

Definition unix_manager_register_command (c : command_t) (l : list command_t) (oks : bool) : Z * list command_t :=
  match find_command (name c) l with
  | Some _ => (-1, l)
  | None => if oks then (0, l ++ [c]) else (-1, l)
  end.

(** [unix_manager_new] after [unlink]: the results of [socket], [bind] and
    [listen]. *)
Definition unix_manager_new (sock : option Z) (bound listening : bool) : Z * unix_manager_t :=
  match sock with
  | None => (-1, UnixManager (-1) 0 [] [])
  | Some n =>
      let g := UnixManager n (n + 1) [] [] in
      if negb bound then (-1, g) else if negb listening then (-1, g) else (0, g)
  end.

(** ** Invariant *)

(** [m] returns, with [Q]. *)
Definition wp {A : Type} (m : M A) (Q : A -> sys -> Prop) (s : sys) : Prop :=
  match m s with Some (a, s') => Q a s' | None => False end.

Lemma thread_wp_ret {A : Type} (a : A) Q s : Q a s -> wp (ret a) Q s.
Proof. done. Qed.

Lemma thread_wp_bind {A B : Type} (m : M A) (k : A -> M B) Q s : wp m (fun a s' => wp (k a) Q s') s -> wp (bind m k) Q s.
Proof. unfold wp, bind. by destruct (m s) as [[a s']|]. Qed.

Lemma thread_wp_mono {A : Type} (m : M A) (P Q : A -> sys -> Prop) s : wp m P s -> (forall a s', P a s' -> Q a s') -> wp m Q s.
Proof. unfold wp. destruct (m s) as [[a s']|]; auto. Qed.

Definition fds (g : unix_manager_t) : list Z := fd <$> clients g.

(** The descriptors below [select_max] are enough for [select], and no more
    than needed. *)
Definition max_ok (g : unix_manager_t) : Prop :=
  socket g < select_max g /\ Forall (fun n => n < select_max g) (fds g) /\ select_max g - 1 ∈ socket g :: fds g.

(** The kernel hands out descriptors an [fd_set] has bits for. *)
Definition accept_fits (r : accept_result) : Prop := match r with Accepted n => fd_fits n = true | AcceptError => True end.

(** The clients have descriptors of their own; open are the listening socket,
    the clients' and [X]; [t] trees are allocated, and [n] structs besides the
    clients'; all descriptors, and those still to come, fit an [fd_set]. *)
Record inv (t n : Z) (X : gset Z) (s : sys) : Prop := Inv {
  inv_nodup : NoDup (socket (mgr s) :: fds (mgr s));
  inv_max : max_ok (mgr s);
  inv_open : open s = {[ socket (mgr s) ]} ∪ list_to_set (fds (mgr s)) ∪ X;
  inv_apart : forall x, x ∈ X -> x ∉ socket (mgr s) :: fds (mgr s);
  inv_trees : trees s = t;
  inv_structs : structs s = zlen (clients (mgr s)) + n;
  inv_fits : forall x, x ∈ open s -> fd_fits x = true;
  inv_env : Forall accept_fits (e_accept (ev s));
}.

(** What the calls that move data do not touch. *)
Definition same (s s' : sys) : Prop :=
  mgr s' = mgr s /\ open s' = open s /\ trees s' = trees s /\ structs s' = structs s /\
  e_accept (ev s') = e_accept (ev s).

Lemma same_inv t n X s s' : same s s' -> inv t n X s -> inv t n X s'.
Proof. intros (E1 & E2 & E3 & E4 & E5) [H1 H2 H3 H4 H5 H6 H7 H8]. split; by rewrite ?E1, ?E2, ?E3, ?E4, ?E5. Qed.

Lemma same_refl s : same s s.
Proof. done. Qed.

Lemma same_trans s1 s2 s3 : same s1 s2 -> same s2 s3 -> same s1 s3.
Proof. unfold same. intuition congruence. Qed.

(** Calls that only move data. *)
Definition quiet {A : Type} (m : M A) : Prop := forall s, wp m (fun _ s' => same s s') s.

Lemma quiet_ret {A : Type} (a : A) : quiet (ret a).
Proof. by intros s. Qed.

Lemma quiet_bind {A B : Type} (m : M A) (k : A -> M B) : quiet m -> (forall a, quiet (k a)) -> quiet (bind m k).
Proof.
  intros Hm Hk s. apply thread_wp_bind. eapply thread_wp_mono; [apply Hm|]. intros a s1 E1.
  eapply thread_wp_mono; [apply Hk|]. intros b s2 E2. exact (same_trans _ _ _ E1 E2).
Qed.

Lemma quiet_recv n : quiet (recv n).
Proof. intros s. unfold wp, recv. by destruct (e_recv (ev s)) as [|[p|] l]. Qed.
Lemma quiet_select : quiet select.
Proof. intros s. unfold wp, select. by destruct (e_select (ev s)). Qed.
Lemma quiet_alloc : quiet alloc.
Proof. intros s. unfold wp, alloc. by destruct (e_alloc (ev s)). Qed.
Lemma quiet_send to text : quiet (send to text).
Proof. intros s. unfold wp, send. destruct (e_send (ev s)) as [|[n| |] l]; done. Qed.
Lemma quiet_add_string m k v : quiet (add_string m k v).
Proof. apply quiet_bind; [apply quiet_alloc|]. intros b. apply quiet_ret. Qed.
Lemma quiet_call c j m : quiet (call_command c j m).
Proof. intros s. unfold wp, call_command. by destruct (func c j m (app s)) as [[r m'] w]. Qed.

Lemma quiet_command_reply cn j : quiet (command_reply cn j).
Proof.
  intros s. unfold wp, command_reply. destruct (find_command cn (commands (mgr s))) as [c|].
  - apply (quiet_bind _ _ (quiet_call c j []) (fun r => quiet_add_string _ _ _)).
  - apply (quiet_bind _ _ (quiet_add_string [] _ _)). intros [m|]; [apply quiet_add_string|apply quiet_ret].
Qed.

Lemma quiet_FD_SET n : fd_fits n = true -> quiet (FD_SET n).
Proof. intros Hn s. unfold wp, FD_SET. by rewrite Hn. Qed.

Lemma quiet_FD_SET_all l : Forall (fun n => fd_fits n = true) l -> quiet (FD_SET_all l).
Proof. induction 1 as [|n l Hn _ IH]; [apply quiet_ret|]. apply quiet_bind; [by apply quiet_FD_SET|done]. Qed.

Lemma quiet_wait_more x n tries : fd_fits x = true -> quiet (wait_more x n tries).
Proof.
  intros Hx. revert tries. induction n as [|n IH]; intros tries; cbn [wait_more]; apply quiet_bind; try (by apply quiet_FD_SET);
    intros _; apply quiet_bind; try apply quiet_select;
    intros [| | |]; try apply quiet_ret; destruct (_ <? _); first [apply IH|apply quiet_ret].
Qed.

(** *** The loops end *)

Lemma quiet_send_loop fuel to out s :
  (length (e_send (ev s)) + 2 <= fuel)%nat -> wp (send_loop fuel to out) (fun _ s' => same s s') s.
Proof.
  revert out s. induction fuel as [|fuel IH]; intros out s Hf; [lia|]. cbn [send_loop].
  destruct (String.eqb out EmptyString); [done|]. apply thread_wp_bind. unfold wp at 1, send.
  destruct (e_send (ev s)) as [|r l] eqn:Es; cbn [length] in Hf.
  - rewrite Nat.min_id. set (s1 := Sys _ _ _ _ _ _ _ _). cbn beta iota.
    destruct fuel as [|fuel]; [lia|]. cbn [send_loop].
    assert (string_drop (String.length out) out = EmptyString) as -> by (clear; by induction out).
    done.
  - assert (Hnext : forall out' s1, e_send (ev s1) = l -> same s s1 -> wp (send_loop fuel to out') (fun _ s' => same s s') s1).
    { intros out' s1 E1 Hs. eapply thread_wp_mono; [apply IH; rewrite E1; lia|]. intros a s2 Hs2. exact (same_trans _ _ _ Hs Hs2). }
    destruct r as [n| |]; [by apply Hnext|by apply Hnext|done].
Qed.

Lemma quiet_client_send c msg : quiet (unix_client_send c msg).
Proof.
  unfold unix_client_send. destruct (_ && _).
  - apply quiet_bind; [apply quiet_send|]. intros r. apply quiet_ret.
  - apply quiet_bind; [apply quiet_alloc|]. intros [|]; cbn [negb]; [|apply quiet_ret].
    apply quiet_bind; [apply quiet_alloc|]. intros [|]; cbn [negb]; [|apply quiet_ret].
    intros s. apply quiet_send_loop. unfold send_fuel. lia.
Qed.

(** *** Descriptors, trees and structs *)

Lemma wp_quiet {A : Type} (m : M A) (Q : A -> sys -> Prop) t n X s :
  quiet m -> inv t n X s -> (forall a s', inv t n X s' -> Q a s') -> wp m Q s.
Proof. intros Hm Hi HQ. eapply thread_wp_mono; [apply Hm|]. intros a s' Hs. apply HQ. exact (same_inv _ _ _ _ _ Hs Hi). Qed.

Lemma wp_trees d (Q : unit -> sys -> Prop) t n X s :
  inv t n X s -> (forall s', inv (t + d) n X s' -> Q tt s') -> wp (count_trees d) Q s.
Proof. intros [H1 H2 H3 H4 H5 H6 H7 H8] HQ. apply HQ. split; try done. cbn [trees]. lia. Qed.

Lemma wp_structs d (Q : unit -> sys -> Prop) t n X s :
  inv t n X s -> (forall s', inv t (n + d) X s' -> Q tt s') -> wp (count_structs d) Q s.
Proof. intros [H1 H2 H3 H4 H5 H6 H7 H8] HQ. apply HQ. split; try done. cbn [structs mgr]. lia. Qed.

Lemma wp_close x (Q : unit -> sys -> Prop) t n X s :
  inv t n (X ∪ {[ x ]}) s -> x ∉ X -> (forall s', inv t n X s' -> Q tt s') -> wp (close x) Q s.
Proof.
  intros [H1 H2 H3 H4 H5 H6 H7 H8] Hx HQ. unfold wp, close. rewrite decide_True by (rewrite H3; set_solver). apply HQ.
  assert (Hxa : x ∉ socket (mgr s) :: fds (mgr s)) by (apply H4; set_solver).
  split; [done|done| |intros y Hy; apply H4; set_solver|done|done|cbn [open set_open]; set_solver|done].
  cbn [open set_open mgr]. rewrite H3. apply set_eq. intros y. rewrite not_elem_of_cons in Hxa.
  rewrite elem_of_difference, !elem_of_union, !elem_of_singleton, elem_of_list_to_set.
  destruct (decide (y = x)) as [-> |Hy]; tauto.
Qed.

Lemma max_fold l m0 :
  let r := foldl (fun m c => if m <=? fd c then fd c + 1 else m) m0 l in
  m0 <= r /\ Forall (fun n => n < r) (fd <$> l) /\ r - 1 ∈ (m0 - 1) :: (fd <$> l).
Proof.
  revert m0. induction l as [|c l IH]; intros m0; cbn [foldl].
  - split; [lia|]. split; [apply List.Forall_nil|]. apply elem_of_cons. by left.
  - rewrite fmap_cons. specialize (IH (if m0 <=? fd c then fd c + 1 else m0)) as (H1 & H2 & H3).
    set (r := foldl _ _ _) in *. destruct (Z.leb_spec m0 (fd c)) as [Hc|Hc].
    + split; [lia|]. split; [apply List.Forall_cons; [lia|done]|]. rewrite !elem_of_cons in *. destruct H3; [right; left; lia|auto].
    + split; [lia|]. split; [apply List.Forall_cons; [lia|done]|]. rewrite !elem_of_cons in *. destruct H3; auto.
Qed.

Lemma set_max_ok g : max_ok (unix_manager_set_max_fd g).
Proof.
  unfold max_ok, unix_manager_set_max_fd, fds. cbn [socket select_max clients].
  destruct (max_fold (clients g) (socket g + 1)) as (H1 & H2 & H3). split; [lia|]. split; [done|].
  by replace (socket g + 1 - 1) with (socket g) in H3 by lia.
Qed.

Lemma remove_client_spec n l :
  match remove_client n l with
  | Some l' => exists l1 c l2, l = l1 ++ c :: l2 /\ l' = l1 ++ l2 /\ fd c = n
  | None => n ∉ fd <$> l
  end.
Proof.
  induction l as [|c l IH]; cbn [remove_client]; [apply not_elem_of_nil|].
  destruct (Z.eqb_spec (fd c) n) as [E|E]; [by exists [], c, l|].
  destruct (remove_client n l) as [l'|]; cbn [fmap option_fmap option_map].
  - destruct IH as (l1 & d & l2 & -> & -> & Ed). by exists (c :: l1), d, l2.
  - rewrite fmap_cons, not_elem_of_cons. split; [by apply not_eq_sym|done].
Qed.

Lemma wp_delete x (Q : unit -> sys -> Prop) t s :
  inv t 0 ∅ s -> (forall s', inv t 0 ∅ s' -> Q tt s') -> wp (unix_client_delete x) Q s.
Proof.
  intros Hi HQ. unfold wp, unix_client_delete. pose proof (remove_client_spec x (clients (mgr s))) as Hr.
  destruct (remove_client x (clients (mgr s))) as [l|]; [|by apply HQ].
  destruct Hr as (l1 & c & l2 & El & -> & Ex). destruct Hi as [H1 H2 H3 H4 H5 H6 H7 H8]. unfold fds in *. rewrite El in *.
  rewrite fmap_app, fmap_cons, Ex in *. unfold close. cbn [open set_mgr].
  rewrite decide_True by (rewrite H3, list_to_set_app_L, list_to_set_cons; set_solver). cbn [count_structs]. apply HQ.
  assert (Hp : socket (mgr s) :: (fd <$> l1) ++ x :: (fd <$> l2) ≡ₚ x :: socket (mgr s) :: (fd <$> l1) ++ (fd <$> l2))
    by (rewrite <- Permutation_middle; apply Permutation_swap).
  rewrite Hp in H1. apply NoDup_cons in H1 as [Hx H1].
  split; cbn [mgr open trees structs set_mgr set_open].
  - unfold fds, unix_manager_set_max_fd. cbn [socket clients]. by rewrite fmap_app.
  - apply set_max_ok.
  - unfold fds, unix_manager_set_max_fd. cbn [socket clients]. rewrite H3, fmap_app, !list_to_set_app_L, list_to_set_cons.
    apply set_eq. intros y. rewrite not_elem_of_cons, not_elem_of_app in Hx.
    rewrite elem_of_difference, !elem_of_union, !elem_of_singleton, !elem_of_list_to_set.
    destruct (decide (y = x)) as [-> |Hy]; [|tauto]. split; [tauto|]. intros [[E|[E|E]]|E]; [..|set_solver]; intuition congruence.
  - set_solver.
  - done.
  - unfold unix_manager_set_max_fd. cbn [clients]. rewrite H6, !zlen_app, zlen_cons. lia.
  - set_solver.
  - done.
Qed.

Lemma wp_insert c (Q : unit -> sys -> Prop) t s :
  inv t 1 {[ fd c ]} s -> (forall s', inv t 0 ∅ s' -> Q tt s') -> wp (insert_client c) Q s.
Proof.
  intros [H1 H2 H3 H4 H5 H6 H7 H8] HQ. apply HQ. specialize (H4 (fd c) ltac:(set_solver)). unfold fds in *.
  split; cbn [mgr open trees structs set_mgr]; unfold fds, unix_manager_set_max_fd; cbn [socket clients].
  - rewrite fmap_app. cbn [fmap list_fmap]. change (NoDup ((socket (mgr s) :: (fd <$> clients (mgr s))) ++ [fd c])).
    apply NoDup_app. split; [done|]. split; [|apply NoDup_singleton]. intros x Hx ->%list_elem_of_singleton. done.
  - apply (set_max_ok (UnixManager (socket (mgr s)) (select_max (mgr s)) (commands (mgr s)) (clients (mgr s) ++ [c]))).
  - rewrite fmap_app, list_to_set_app_L, H3. cbn [fmap list_fmap]. rewrite list_to_set_cons, list_to_set_nil. set_solver.
  - set_solver.
  - done.
  - rewrite zlen_app, zlen_cons, zlen_nil. lia.
  - done.
  - done.
Qed.

Lemma wp_accept (Q : option Z -> sys -> Prop) t s :
  inv t 0 ∅ s -> (forall s', inv t 0 ∅ s' -> Q None s') -> (forall x s', inv t 0 {[ x ]} s' -> Q (Some x) s') ->
  wp accept Q s.
Proof.
  intros Hi HN HS. pose proof (inv_env _ _ _ _ Hi) as Hf. unfold wp, accept. destruct (e_accept (ev s)) as [|[x|] l]; [by apply HN| |];
    apply Forall_cons in Hf as [Hx0 Hf].
  - cbn [open set_ev]. destruct Hi as [H2 H3 H4 H5 H6 H7 H8 _]. destruct (decide (x ∈ open s)) as [Hx|Hx]; [by apply HN|].
    apply HS. split; cbn [mgr open trees structs set_open set_ev ev e_accept]; [done|done| | |done|done| |done].
    + rewrite H4. set_solver.
    + intros y ->%elem_of_singleton Hy. apply Hx. rewrite H4. apply elem_of_cons in Hy as [Hy|Hy]; set_solver.
    + intros y [Hy| ->%elem_of_singleton]%elem_of_union; [by apply H8|done].
  - destruct Hi as [H2 H3 H4 H5 H6 H7 H8 _]. by apply HN.
Qed.

(** *** The handlers *)

(** Run to the next call that matters; [L] are the calls that only move
    data. *)
Ltac unix_step :=
  lazymatch goal with
  | |- wp (bind _ _) _ _ => apply thread_wp_bind
  | |- wp (ret _) _ _ => apply thread_wp_ret
  | Hi : inv _ _ _ ?s |- wp (recv _) _ ?s => eapply (wp_quiet _ _ _ _ _ _ (quiet_recv _) Hi); clear Hi; intros ? ? Hi
  | Hi : inv _ _ _ ?s |- wp alloc _ ?s => eapply (wp_quiet _ _ _ _ _ _ quiet_alloc Hi); clear Hi; intros ? ? Hi
  | Hi : inv _ _ _ ?s |- wp (add_string _ _ _) _ ?s =>
      eapply (wp_quiet _ _ _ _ _ _ (quiet_add_string _ _ _) Hi); clear Hi; intros ? ? Hi
  | Hi : inv _ _ _ ?s |- wp (command_reply _ _) _ ?s =>
      eapply (wp_quiet _ _ _ _ _ _ (quiet_command_reply _ _) Hi); clear Hi; intros ? ? Hi
  | Hi : inv _ _ _ ?s, Hx : fd_fits ?x = true |- wp (wait_more ?x _ _) _ ?s =>
      eapply (wp_quiet _ _ _ _ _ _ (quiet_wait_more _ _ _ Hx) Hi); clear Hi; intros ? ? Hi
  | Hi : inv _ _ _ ?s |- wp (unix_client_send _ _) _ ?s =>
      eapply (wp_quiet _ _ _ _ _ _ (quiet_client_send _ _) Hi); clear Hi; intros ? ? Hi
  | Hi : inv _ _ _ ?s |- wp (count_trees _) _ ?s => eapply (wp_trees _ _ _ _ _ _ Hi); clear Hi; intros ? Hi; cbn [Z.add Pos.add Z.pos_sub] in Hi
  | Hi : inv _ _ _ ?s |- wp (count_structs _) _ ?s => eapply (wp_structs _ _ _ _ _ _ Hi); clear Hi; intros ? Hi; cbn [Z.add Pos.add Z.pos_sub] in Hi
  | Hi : inv _ _ {[ ?x ]} ?s |- wp (close ?x) _ ?s =>
      eapply (wp_close x _ _ _ ∅ s); [by rewrite union_empty_l_L|apply not_elem_of_empty|]; clear Hi; intros ? Hi
  | Hi : inv _ 0 ∅ ?s |- wp (unix_client_delete _) _ ?s => eapply (wp_delete _ _ _ _ Hi); clear Hi; intros ? Hi
  | |- wp (match ?x with _ => _ end) _ _ => destruct x
  end; cbn beta iota; cbn [negb].

Lemma accept_reply_inv x v s :
  inv 0 0 {[ x ]} s -> wp (accept_reply x v) (fun _ s' => inv 0 0 ∅ s') s.
Proof.
  intros Hi. unfold accept_reply, new_tree, cJSON_Delete. repeat unix_step; try done.
  eapply (wp_insert (UnixClient x v)); [exact Hi|]. intros s9 Hi9. by repeat unix_step.
Qed.

Lemma accept_inv s : inv 0 0 ∅ s -> wp unix_manager_accept (fun _ s' => inv 0 0 ∅ s') s.
Proof.
  intros Hi. unfold unix_manager_accept, parse_message, cJSON_Delete. apply thread_wp_bind.
  apply (wp_accept _ 0 s Hi); clear Hi; [intros s' Hi|intros x s' Hi]; repeat unix_step; try done.
  by apply accept_reply_inv.
Qed.

Lemma execute_inv cmd c s : inv 0 0 ∅ s -> wp (unix_command_execute cmd c) (fun _ s' => inv 0 0 ∅ s') s.
Proof.
  intros Hi. unfold unix_command_execute, new_tree, parse_message, cJSON_Delete. by repeat unix_step.
Qed.

Lemma length_app_string a b : String.length (a +:+ b) = (String.length a + String.length b)%nat.
Proof. induction a as [|c a IH]; [done|]. exact (f_equal Datatypes.S IH). Qed.

Lemma length_nonempty s : s <> EmptyString -> (1 <= String.length s)%nat.
Proof. destruct s; cbn; [done|lia]. Qed.

Lemma last_char_some s : s <> EmptyString -> is_Some (last_char s).
Proof.
  unfold last_char. intros Hs. assert (Hl : (String.length s - 1 < String.length s)%nat) by (apply length_nonempty in Hs; lia).
  clear Hs. revert Hl. generalize (String.length s - 1)%nat. induction s as [|c s IH]; intros [|k] Hk; cbn in *; [lia|lia|eauto|].
  apply IH. lia.
Qed.

Lemma recv_loop_inv fuel c tries buf r s :
  Z.of_nat (String.length buf) < 4095 -> 4096 - Z.of_nat (String.length buf) <= Z.of_nat fuel -> fd_fits (fd c) = true ->
  inv 0 0 ∅ s -> wp (recv_loop fuel c tries buf r) (fun _ s' => inv 0 0 ∅ s') s.
Proof.
  revert tries buf r s. induction fuel as [|fuel IH]; intros tries buf r s Hb Hf Hfd Hi; [lia|]. cbn [recv_loop].
  destruct r as [p|]; [|by repeat unix_step]. destruct (String.eqb_spec p EmptyString) as [E|E]; [by repeat unix_step|].
  pose proof (length_nonempty p E) as Hp. pose proof (length_app_string buf p) as Hl.
  destruct (Z.leb_spec (BUFFER_SIZE - 1) (Z.of_nat (String.length (buf +:+ p)))) as [Hz|Hz]; [by repeat unix_step|].
  destruct (last_char_some (buf +:+ p)) as [ch ->]; [by intros Ee; rewrite Ee in Hl; cbn in Hl; lia|].
  destruct (Ascii.eqb ch _).
  - apply thread_wp_bind. eapply thread_wp_mono; [by apply execute_inv|]. done.
  - do 2 unix_step. destruct a as [[[|] tr]|]; [|by repeat unix_step|by repeat unix_step].
    do 2 unix_step. apply IH; [unfold BUFFER_SIZE in Hz; lia|lia|done|done].
Qed.

Lemma client_recv_inv c s : fd_fits (fd c) = true -> inv 0 0 ∅ s -> wp (unix_client_recv c) (fun _ s' => inv 0 0 ∅ s') s.
Proof. intros Hfd Hi. unfold unix_client_recv. do 2 unix_step. by apply recv_loop_inv. Qed.

Lemma serve_inv ready l s : Forall (fun n => fd_fits n = true) (fd <$> l) -> inv 0 0 ∅ s -> wp (serve_clients ready l) (fun _ s' => inv 0 0 ∅ s') s.
Proof.
  revert s. induction l as [|c l IH]; intros s Hl Hi; [done|]. rewrite fmap_cons in Hl. apply Forall_cons in Hl as [Hc Hl].
  cbn [serve_clients]. apply thread_wp_bind. destruct (ready (fd c)).
  - eapply thread_wp_mono; [by apply client_recv_inv|]. intros ? s1 Hi1. by apply IH.
  - by apply thread_wp_ret, IH.
Qed.

(** What [unix_manager_main] answers is up to [select] alone. *)
Lemma main_inv r ready s :
  inv 0 0 ∅ s ->
  wp (unix_manager_main r ready) (fun rc s' => inv 0 0 ∅ s' /\ rc = match r with SelectError => -1 | _ => 0 end) s.
Proof.
  intros Hi.
  assert (Hfits : Forall (fun n => fd_fits n = true) (socket (mgr s) :: (fd <$> clients (mgr s)))).
  { apply Forall_forall. intros x Hx. apply (inv_fits _ _ _ _ Hi). rewrite (inv_open _ _ _ _ Hi). unfold fds.
    apply elem_of_cons in Hx as [->|Hx]; set_solver. }
  apply Forall_cons in Hfits as [Hs Hl].
  change (wp (FD_SET (socket (mgr s));; FD_SET_all (fd <$> clients (mgr s));;
    match r with
    | SelectError => ret (-1)
    | Interrupted | Timeout => ret 0
    | Ready => serve_clients ready (clients (mgr s));;
        (if ready (socket (mgr s)) then unix_manager_accept;; ret tt else ret tt);; ret 0
    end) (fun rc s' => inv 0 0 ∅ s' /\ rc = match r with SelectError => -1 | _ => 0 end) s).
  apply thread_wp_bind, (wp_quiet _ _ _ _ _ _ (quiet_FD_SET _ Hs) Hi). intros _ s1 Hi1.
  apply thread_wp_bind, (wp_quiet _ _ _ _ _ _ (quiet_FD_SET_all _ Hl) Hi1). intros _ s2 Hi2.
  destruct r; try done. apply thread_wp_bind. eapply thread_wp_mono; [by apply serve_inv|]. intros ? s3 Hi3.
  apply thread_wp_bind. destruct (ready (socket (mgr s))); [|done].
  apply thread_wp_bind. eapply thread_wp_mono; [by apply accept_inv|]. done.
Qed.

Lemma close_clients_spec l s :
  NoDup (socket (mgr s) :: (fd <$> l)) -> open s = {[ socket (mgr s) ]} ∪ list_to_set (fd <$> l) -> structs s = zlen l ->
  wp (close_clients l) (fun _ s' => open s' = {[ socket (mgr s') ]} /\ trees s' = trees s /\ structs s' = 0) s.
Proof.
  revert s. induction l as [|c l IH]; intros s Hn Ho Hs.
  - apply thread_wp_ret. rewrite Ho, Hs. cbn. by rewrite union_empty_r_L.
  - rewrite fmap_cons in *. cbn [close_clients]. apply thread_wp_bind. unfold wp at 1, close.
    rewrite decide_True by (rewrite Ho, list_to_set_cons; set_solver). apply thread_wp_bind. unfold wp at 1, count_structs.
    apply NoDup_cons in Hn as [Hx Hn]. apply NoDup_cons in Hn as [Hc Hn]. rewrite not_elem_of_cons in Hx.
    eapply thread_wp_mono; [apply IH|done]; cbn [mgr open trees structs set_open].
    + apply NoDup_cons. tauto.
    + rewrite Ho, list_to_set_cons. apply set_eq. intros y.
      rewrite elem_of_difference, !elem_of_union, !elem_of_singleton, elem_of_list_to_set. intuition congruence.
    + rewrite Hs, zlen_cons. lia.
Qed.

(** [select] failed for good in one of the rounds. *)
Definition is_fatal (r : select_result * (Z -> bool)) : bool := match r.1 with SelectError => true | _ => false end.

Lemma manager_run_inv rounds s :
  inv 0 0 ∅ s ->
  wp (unix_manager_run rounds)
    (fun _ s' => if existsb is_fatal rounds then open s' = {[ socket (mgr s') ]} /\ trees s' = 0 /\ structs s' = 0
                 else inv 0 0 ∅ s') s.
Proof.
  revert s. induction rounds as [|[r ready] rounds IH]; intros s Hi; [done|]. cbn [unix_manager_run existsb]. apply thread_wp_bind.
  eapply thread_wp_mono; [by apply main_inv|]. intros rc s1 [Hi1 ->]. unfold is_fatal at 1. cbn [fst].
  destruct r; cbn [orb Z.eqb negb]; [by apply IH..|].
  destruct Hi1 as [H1 H2 H3 H4 H5 H6 H7 H8]. unfold wp.
  assert (Hw : wp (close_clients (clients (mgr s1))) (fun _ s' => open s' = {[ socket (mgr s') ]} /\ trees s' = trees s1 /\ structs s' = 0) s1).
  { apply close_clients_spec; [done|by rewrite H3, union_empty_r_L|by rewrite H6, Z.add_0_r]. }
  unfold wp in Hw. destruct (close_clients (clients (mgr s1)) s1) as [[u s2]|]; [|done]. by rewrite H5 in Hw.
Qed.

(** The thread as [main] starts it: the socket is listening and the commands
    are registered. *)
Definition started (n : Z) (cmds : list command_t) (e : env) (w : W) : sys :=
  let g := (unix_manager_new (Some n) true true).2 in
  let l := foldl (fun l c => (unix_manager_register_command c l true).2) [] cmds in
  Sys (UnixManager (socket g) (select_max g) l (clients g)) {[ n ]} 0 0 e [] [] w.

Lemma started_inv n cmds e w :
  fd_fits n = true -> Forall accept_fits (e_accept e) -> inv 0 0 ∅ (started n cmds e w).
Proof.
  intros Hn He.
  split; cbn [mgr open trees structs started unix_manager_new negb snd socket select_max clients fds fmap list_fmap].
  - apply NoDup_singleton.
  - unfold max_ok, fds. cbn. split; [lia|]. split; [apply List.Forall_nil|]. apply elem_of_cons. left. lia.
  - rewrite union_empty_r_L. cbn. by rewrite union_empty_r_L.
  - set_solver.
  - done.
  - done.
  - by intros x ->%elem_of_singleton.
  - done.
Qed.

(** ** A request *)

Lemma substring_all n s : (String.length s <= n)%nat -> String.substring 0 n s = s.
Proof. revert n. induction s as [|c s IH]; intros [|n] Hn; cbn in *; [done|done|lia|]. by rewrite IH by lia. Qed.

Lemma string_drop_all n s : (String.length s <= n)%nat -> string_drop n s = EmptyString.
Proof. revert n. induction s as [|c s IH]; intros [|n] Hn; cbn in *; [done|done|lia|]. apply IH. lia. Qed.

(** No allocation fails and [send] takes what it is given. *)
Definition healthy (s : sys) : Prop := e_alloc (ev s) = [] /\ e_send (ev s) = [].

Lemma send_all to out s :
  healthy s -> send to out s = Some (Took (String.length out),
    Sys (mgr s) (open s) (trees s) (structs s) (ev s) (sent s ++ [(to, out)]) (executed s) (app s)).
Proof.
  intros [_ Hs]. unfold send. rewrite Hs, Nat.min_id, substring_all by done. destruct s as [g o t n [? ? ? ? ?] ? ? ?]. cbn in *. by subst.
Qed.

Lemma client_send_all c msg s :
  healthy s -> unix_client_send c msg s = Some (0,
    Sys (mgr s) (open s) (trees s) (structs s) (ev s) (sent s ++ [(fd c, print_unformatted msg +:+ newline)]) (executed s) (app s)).
Proof.
  intros Hh. unfold unix_client_send. destruct (_ && _).
  - unfold bind. by rewrite send_all.
  - unfold bind, alloc. destruct Hh as [Ha Hs]. rewrite Ha. cbn [negb]. rewrite Ha. cbn [negb]. unfold send_fuel. rewrite Hs.
    cbn [length Nat.add send_loop]. assert (String.eqb (print_unformatted msg +:+ newline) EmptyString = false) as ->
      by (destruct (print_unformatted msg); done).
    unfold bind. rewrite send_all by done. by rewrite string_drop_all.
Qed.

(** The request of a command: its reply, and the state the command leaves. *)
Definition reply_of (cmd : command_t) (j : cJSON) (w : W) : cJSON :=
  let '(fret, members, _) := func cmd j [] w in
  JObject (members ++ [("status", JString (if fret =? 0 then "OK" else "ERROR"))]).

Definition after_request (cmd : command_t) (j : cJSON) (c : unix_client_t) (s s' : sys) : Prop :=
  mgr s' = mgr s /\ open s' = open s /\ trees s' = trees s /\ structs s' = structs s /\ ev s' = ev s /\
  sent s' = sent s ++ [(fd c, print_unformatted (reply_of cmd j (app s)) +:+ newline)] /\
  executed s' = executed s ++ [(name cmd, j)] /\ app s' = (func cmd j [] (app s)).2.

Lemma execute_request text c j cn cmd s :
  healthy s -> parse_text false text = Some j -> get_object_item j "command" = Some (JString cn) ->
  find_command cn (commands (mgr s)) = Some cmd ->
  wp (unix_command_execute text c) (fun rc s' => rc = 0 /\ after_request cmd j c s s') s.
Proof.
  intros Hh Hp Hc Hf. unfold unix_command_execute, wp, new_tree, parse_message, cJSON_Delete, bind, alloc, count_trees, ret.
  destruct Hh as [Ha Hs]. rewrite Ha. cbn [negb ev]. rewrite Ha. cbn [negb]. rewrite Hp. cbn [app]. rewrite Hc. cbn [cJSON_IsString].
  unfold command_reply. cbn [mgr]. rewrite Hf. unfold bind, call_command, add_string, bind, alloc, ret, reply_of, after_request. cbn [app].
  destruct (func cmd j [] (app s)) as [[fret members] w] eqn:Ef. cbn [ev fst snd]. rewrite Ha. rewrite client_send_all by done.
  cbn [Z.eqb negb mgr open trees structs ev sent executed]. split; [done|]. repeat split; try done; [lia|]. unfold reply_of. by rewrite Ef.
Qed.

Fixpoint no_newline (s : string) : Prop :=
  match s with EmptyString => True | String c s => c <> Ascii.ascii_of_nat 10 /\ no_newline s end.

Lemma but_last_newline req : but_last (req +:+ newline) = req.
Proof.
  unfold but_last. rewrite length_app_string. cbn [String.length newline]. rewrite Nat.add_sub.
  induction req as [|c req IH]; [done|]. exact (f_equal (String c) IH).
Qed.

Lemma last_char_newline req : last_char (req +:+ newline) = Some (Ascii.ascii_of_nat 10).
Proof.
  unfold last_char. rewrite length_app_string. cbn [String.length newline]. rewrite Nat.add_sub. by induction req.
Qed.

Lemma app_string_assoc (a b c : string) : (a +:+ b) +:+ c = a +:+ (b +:+ c).
Proof. induction a as [|x a IH]; [done|]. exact (f_equal (String x) IH). Qed.

(** A beginning of the request is no complete line. *)
Lemma last_char_prefix a b req :
  no_newline req -> a +:+ b = req +:+ newline -> a <> EmptyString -> b <> EmptyString ->
  exists ch, last_char a = Some ch /\ ch <> Ascii.ascii_of_nat 10.
Proof.
  unfold last_char. revert req. induction a as [|x a IH]; intros req Hn E Ha Hb; [done|].
  destruct req as [|y req]; [injection E as -> E; destruct a; [by destruct b|discriminate E]|].
  destruct Hn as [Hy Hn]. injection E as -> E. destruct a as [|z a]; [by exists y|].
  destruct (IH req Hn E) as (ch & Hch & Hne); [done|done|]. exists ch. split; [|done].
  cbn [String.length] in *. rewrite Nat.sub_succ, Nat.sub_0_r in *. exact Hch.
Qed.

Lemma recv_piece n p rest s :
  e_recv (ev s) = Piece p :: rest -> (String.length p <= Z.to_nat n)%nat ->
  recv n s = Some (Piece p, set_ev (Env rest (e_select (ev s)) (e_send (ev s)) (e_accept (ev s)) (e_alloc (ev s))) s).
Proof. intros E Hl. unfold recv. rewrite E, substring_all, string_drop_all by done. done. Qed.

Lemma wait_ready x n tries l s :
  fd_fits x = true -> e_select (ev s) = Ready :: l ->
  wait_more x n tries s = Some (Some (true, tries + 1), set_ev (Env (e_recv (ev s)) l (e_send (ev s)) (e_accept (ev s)) (e_alloc (ev s))) s).
Proof. intros Hx E. destruct n; cbn [wait_more]; unfold bind, FD_SET, select; by rewrite Hx, E. Qed.

Definition joined (l : list string) : string := foldr String.append EmptyString l.

(** The state after the pieces were read and the request was executed. *)
Definition request_done (cmd : command_t) (j : cJSON) (c : unix_client_t) (rest : list recv_result) (s s' : sys) : Prop :=
  mgr s' = mgr s /\ open s' = open s /\ trees s' = trees s /\ structs s' = structs s /\ e_recv (ev s') = rest /\
  sent s' = sent s ++ [(fd c, print_unformatted (reply_of cmd j (app s)) +:+ newline)] /\
  executed s' = executed s ++ [(name cmd, j)] /\ app s' = (func cmd j [] (app s)).2.

Lemma read_request pieces fuel c tries buf p req j cn cmd rest sel s :
  fd_fits (fd c) = true -> no_newline req -> buf +:+ (p +:+ joined pieces) = req +:+ newline -> Forall (fun q => q <> EmptyString) (p :: pieces) ->
  Z.of_nat (String.length req) + 1 < 4095 -> (length pieces < fuel)%nat ->
  healthy s -> e_recv (ev s) = (Piece <$> pieces) ++ rest -> e_select (ev s) = replicate (length pieces) Ready ++ sel ->
  parse_text false req = Some j -> get_object_item j "command" = Some (JString cn) ->
  find_command cn (commands (mgr s)) = Some cmd ->
  wp (recv_loop fuel c tries buf (Piece p)) (fun _ s' => request_done cmd j c rest s s') s.
Proof.
  intros Hx0 Hn. revert fuel tries buf p s.
  induction pieces as [|q pieces IH]; intros [|fuel] tries buf p s Ej Hne Hlen Hf Hh Er Es Hp Hc Hcmd; cbn [length] in Hf; try lia;
    apply Forall_cons in Hne as [Hpne Hne]; cbn [recv_loop]; rewrite (proj2 (String.eqb_neq p EmptyString) Hpne).
  - assert (Eb : buf +:+ p = req +:+ newline) by (rewrite <- Ej; f_equal; clear; induction p as [|x p IHp]; [done|exact (f_equal (String x) IHp)]).
    rewrite Eb, length_app_string, last_char_newline, but_last_newline. cbn [String.length newline].
    rewrite (proj2 (Z.leb_gt _ _)) by (unfold BUFFER_SIZE; lia). rewrite Ascii.eqb_refl. apply thread_wp_bind.
    eapply thread_wp_mono; [by eapply execute_request|]. intros rc s' (_ & H1 & H2 & H3 & H4 & H5 & H6 & H7 & H8).
    apply thread_wp_ret. unfold request_done. rewrite H5. done.
  - cbn [joined foldr] in Ej. fold (joined pieces) in Ej. rewrite <- app_string_assoc in Ej.
    assert (Hq : q <> EmptyString) by (by apply Forall_cons in Hne as [? _]).
    destruct (last_char_prefix (buf +:+ p) (q +:+ joined pieces) req Hn Ej) as (ch & Hch & Hx).
    + intros E0. apply (f_equal String.length) in E0. rewrite length_app_string in E0. cbn in E0. apply length_nonempty in Hpne. lia.
    + by destruct q.
    + pose proof (f_equal String.length Ej) as El. rewrite !length_app_string in El. cbn [String.length newline] in El.
      rewrite length_app_string. rewrite (proj2 (Z.leb_gt _ _)) by (unfold BUFFER_SIZE; apply length_nonempty in Hq; lia).
      rewrite Hch. rewrite (proj2 (Ascii.eqb_neq _ _) Hx). apply thread_wp_bind. unfold wp at 1.
      cbn [length replicate app] in Es. erewrite wait_ready by (exact Hx0 || exact Es). apply thread_wp_bind. unfold wp at 1.
      rewrite fmap_cons in Er. erewrite recv_piece; [|exact Er|unfold BUFFER_SIZE; lia].
      eapply thread_wp_mono; [apply (IH fuel (tries + 1) (buf +:+ p) q)|]; try done; lia.
Qed.

(** ** Properties *)

(** C22: From the start of the thread, whatever the clients send, whichever
    descriptors are ready and whichever calls fail, as long as the kernel
    hands out descriptors below [FD_SETSIZE] (1024, beyond which [FD_SET]
    writes outside its set), the control thread goes on for any number of
    rounds: every loop ends, no descriptor is closed twice or closed while not
    open, no bit is set outside an [fd_set], and no JSON tree is leaked.  While
    [select] has not failed for good, every client has a descriptor of its own,
    exactly the socket and the clients' descriptors are open, there is one
    struct per client, and [select] is given a range that covers all of them
    and no more; once it has failed, every client is closed and its struct
    freed, and only the listening socket is left open. *)
Theorem unix_manager_safe n cmds e w rounds :
  fd_fits n = true -> Forall accept_fits (e_accept e) ->
  match unix_manager_run rounds (started n cmds e w) with
  | Some (_, s) =>
      trees s = 0 /\
      if existsb is_fatal rounds then open s = {[ socket (mgr s) ]} /\ structs s = 0
      else NoDup (socket (mgr s) :: fds (mgr s)) /\ open s = list_to_set (socket (mgr s) :: fds (mgr s)) /\
        structs s = zlen (clients (mgr s)) /\ max_ok (mgr s)
  | None => False
  end.
Proof.
  intros Hn He. pose proof (manager_run_inv rounds _ (started_inv n cmds e w Hn He)) as Hw. unfold wp in Hw.
  destruct (unix_manager_run rounds (started n cmds e w)) as [[u s]|]; [|done].
  destruct (existsb is_fatal rounds); [by destruct Hw as (H1 & H2 & H3)|].
  destruct Hw as [H1 H2 H3 H4 H5 H6 H7 H8]. split; [done|]. split; [done|].
  split; [by rewrite H3, union_empty_r_L, list_to_set_cons|]. split; [by rewrite H6, Z.add_0_r|done].
Qed.

Lemma serve_request c s p pieces req j cn cmd rest sel :
  fd_fits (fd c) = true -> no_newline req -> Z.of_nat (String.length req) + 1 < 4095 ->
  p +:+ joined pieces = req +:+ newline -> Forall (fun q => q <> EmptyString) (p :: pieces) ->
  e_recv (ev s) = (Piece <$> p :: pieces) ++ rest -> e_select (ev s) = replicate (length pieces) Ready ++ sel ->
  healthy s ->
  parse_text false req = Some j -> get_object_item j "command" = Some (JString cn) ->
  find_command cn (commands (mgr s)) = Some cmd ->
  exists s', unix_client_recv c s = Some (tt, s') /\ request_done cmd j c rest s s'.
Proof.
  intros Hx Hn Hl Ej Hne Er Es Hh Hp Hc Hf.
  assert (Hlen : (String.length p + String.length (joined pieces) = String.length req + 1)%nat).
  { rewrite <- length_app_string, Ej, length_app_string. done. }
  assert (Hcount : (length pieces <= String.length (joined pieces))%nat).
  { apply Forall_cons in Hne as [_ Hne]. clear -Hne. induction Hne as [|q l Hq _ IH]; [done|]. cbn [joined foldr length]. fold (joined l).
    rewrite length_app_string. apply length_nonempty in Hq. lia. }
  assert (Hfuel : (length pieces < Z.to_nat BUFFER_SIZE)%nat) by (unfold BUFFER_SIZE; lia).
  rewrite fmap_cons in Er. unfold unix_client_recv. generalize dependent (Z.to_nat BUFFER_SIZE). intros fuel Hfuel.
  unfold bind. erewrite recv_piece; [|exact Er|unfold BUFFER_SIZE; lia].
  set (s1 := set_ev _ s).
  assert (Hw : wp (recv_loop fuel c 0 EmptyString (Piece p)) (fun _ s' => request_done cmd j c rest s1 s') s1)
    by (by eapply (read_request pieces)).
  unfold wp in Hw. destruct (recv_loop _ _ _ _ _ s1) as [[[] s']|]; [|done]. by exists s'.
Qed.

(** A request of a known command, a line of less than 4095 bytes, reaches its
    command exactly once and complete, in however many pieces the stream
    delivers it; the client gets one line with the command's reply and status
    and stays connected, and nothing of the next request is read. *)
Theorem request_served c s p pieces req j cn cmd rest sel :
  fd_fits (fd c) = true -> no_newline req -> Z.of_nat (String.length req) + 1 < 4095 ->
  p +:+ joined pieces = req +:+ newline -> Forall (fun q => q <> EmptyString) (p :: pieces) ->
  e_recv (ev s) = (Piece <$> p :: pieces) ++ rest -> e_select (ev s) = replicate (length pieces) Ready ++ sel ->
  healthy s ->
  parse_text false req = Some j -> get_object_item j "command" = Some (JString cn) ->
  find_command cn (commands (mgr s)) = Some cmd ->
  exists s', unix_client_recv c s = Some (tt, s') /\ request_done cmd j c rest s s'.
Proof. apply serve_request. Qed.

End UnixManager.

(** *** Witness *)

(** The two halves of a request to ping, as they arrive. *)
Definition demo_head : string := text_of [123; 34; 99; 111; 109; 109].
Definition demo_tail : string := text_of [97; 110; 100; 34; 58; 34; 112; 105; 110; 103; 34; 125].

Definition demo_ping : command_t (W := nat) := Command "ping" (fun _ m w => (0, m, Datatypes.S w)).

Definition demo_sys : sys (W := nat) :=
  Sys (UnixManager 3 5 [demo_ping] [UnixClient 4 1]) {[ 3; 4 ]} 0 1
    (Env [Piece demo_head; Piece (demo_tail +:+ newline)] [Ready] [] [] []) [] [] 0%nat.

Lemma request_served_witness :
  exists s', unix_client_recv (UnixClient 4 1) demo_sys = Some (tt, s') /\
    request_done demo_ping (JObject [("command", JString "ping")]) (UnixClient 4 1) [] demo_sys s'.
Proof.
  refine (request_served (UnixClient 4 1) demo_sys demo_head [demo_tail +:+ newline] (demo_head +:+ demo_tail) (JObject [("command", JString "ping")]) "ping" demo_ping [] [] eq_refl _ _ eq_refl _ eq_refl eq_refl _
            _ eq_refl eq_refl); [by repeat split|done| |by split|by vm_compute].
  repeat apply List.Forall_cons; try apply List.Forall_nil; done.
Defined.

(** A client connects, and [select] fails for good two rounds later. *)
Definition demo_hello : string := print_unformatted (JObject [("version", JString "v1")]).
Definition connects (n : Z) : env := Env [Piece demo_hello] [] [] [Accepted n] [].
Definition demo_thread : list (select_result * (Z -> bool)) :=
  [(Ready, fun _ => true); (Timeout, fun _ => false); (SelectError, fun _ => false)].

Lemma connects_fits : Forall accept_fits (e_accept (connects 4)).
Proof. apply Forall_singleton. reflexivity. Defined.

Lemma unix_manager_safe_witness :
  match unix_manager_run (take 2 demo_thread) (started 3 [demo_ping] (connects 4) 0%nat) with
  | Some (_, s) => clients (mgr s) = [UnixClient 4 1] /\ open s = list_to_set (socket (mgr s) :: fds (mgr s))
  | None => False
  end /\
  match unix_manager_run demo_thread (started 3 [demo_ping] (connects 4) 0%nat) with
  | Some (_, s) => trees s = 0 /\ open s = {[ socket (mgr s) ]} /\ structs s = 0
  | None => False
  end.
Proof.
  split.
  - pose proof (unix_manager_safe 3 [demo_ping] (connects 4) 0%nat (take 2 demo_thread) eq_refl
      connects_fits) as H.
    destruct (unix_manager_run (take 2 demo_thread) (started 3 [demo_ping] (connects 4) 0%nat)) as [[u s]|] eqn:E; [|exact H].
    split; [|exact (proj1 (proj2 (proj2 H)))]. vm_compute in E. injection E as _ <-. reflexivity.
  - exact (unix_manager_safe 3 [demo_ping] (connects 4) 0%nat demo_thread eq_refl connects_fits).
Defined.

(** With a descriptor of 1024 the next round writes outside its set. *)
Example fd_set_overflow : unix_manager_run (take 2 demo_thread) (started 3 [demo_ping] (connects 1024) 0%nat) = None.
Proof. by vm_compute. Qed.
