(* ===== verification/Control.v ===== *)
(** * Statistics over the control socket (unix-manager.c, task.c, cJSON.c)

    The socket, the statistics command, the JSON parser and the printer put
    together: what a client reads after it asked for the statistics. *)

From stdpp Require Import prelude list strings gmap gmultiset.
From S2P Require Import Prelude CJson Decimal JsonParse JsonSafety JsonGrammar JsonRender JsonText JsonBuild Stats Commands UnixManager.

(** What the statistics command works on: the snapshot, and the heap the
    reply is built in. *)
Record stats_world := StatsWorld { snapshot : task_stats_summary_snapshot_t; heap : store }.

Definition members_of (i : item) : list (string * cJSON) := match to_json i with JObject ms => ms | _ => [] end.

(** A command of task.c or unix_rpc_basic.c run on the reply object the
    socket's thread has created: what it returns, the members it leaves in the
    reply, and the heap after the reply was deleted.  A run that is undefined
    has no members. *)
Definition run_command (m : CJson.M item Z) (st : store) : Z * list (string * cJSON) * store :=
  match cJSON_CreateObject tt st with
  | Ok (Some server_msg) _ st =>
      match m server_msg st with
      | Ok fret server_msg st =>
          match delete_item server_msg tt st with
          | Ok _ _ st => (fret, members_of server_msg, st)
          | _ => (-1, [], st)
          end
      | _ => (-1, [], st)
      end
  | _ => (-1, [], st)
  end.

(** The command as it is registered: [data] is the snapshot. *)
Definition stats_command : command_t (W := stats_world) :=
  Command "collect_stats_summary" (fun _ members w =>
    let '(fret, added, st) := run_command (task_manager_collect_stats_summary_command (snapshot w)) (heap w) in
    (fret, members ++ added, StatsWorld (snapshot w) st)).

(** With enough memory a command that promises [ms] leaves exactly them, and
    the heap as it was. *)
Lemma run_command_ok m ms st : replies m ms -> answers st = [] ->
  exists st', run_command m st = (0, ms, st') /\ live st' = live st.
Proof.
  intros Hm Ha. unfold run_command, cJSON_CreateObject, create, cJSON_New_Item, CJson.bind, CJson.alloc, CJson.ret. rewrite Ha.
  cbn [fmap option_fmap option_map]. set (i := set_filled _ _). set (st1 := Store _ _ _ _).
  assert (live st1 = live st ⊎ item_foot i) as Hl.
  { unfold i. cbn [set_filled mk_item unfilled]. change (Item ?p ?a ?b ?c ?d None ?e) with (mk_item p None (Filled a b c d e)).
    rewrite item_foot_mk. change (filled_foot (Filled cJSON_Object None 0 zero_double [])) with (∅ : gmultiset nat).
    cbn [has_flag str_foot f_type]. by rewrite !heap_id. }
  assert (is_object i []) as Hi by done.
  destruct (Hm i [] (live st) st1 Hi Hl) as (rc & i' & st2 & st3 & E & Hj & Hrc & Ed & Hlive).
  specialize (Hrc eq_refl) as ->. rewrite E, Ed. exists st3. unfold members_of. by rewrite (Hj eq_refl).
Qed.

Definition stats_reply (s : task_stats_summary_snapshot_t) : cJSON := JObject (stats_members s ++ [("status", JString "OK")]).

Lemma stats_reply_printed s : snapshot_small s ->
  json_document (bytes_of (c_string (print_unformatted (stats_reply s)))) (stats_reply s).
Proof.
  intros Hs. destruct (printed_document false (stats_reply s)) as (u & Eu & Hb & Hd).
  - change max_nesting with (S (2 + 997)). cbn [stats_reply ints_ok]. apply each_forall, Forall_app_2; [|by repeat constructor].
    apply each_forall, stats_ints, Hs.
  - cbn [stats_reply texts_ok]. apply each_forall, Forall_app_2; [apply each_forall, stats_texts|by repeat constructor].
  - unfold print_unformatted. rewrite Eu. cbn [default]. by rewrite text_bytes_string.
Qed.

(** C24: A client that asks for the statistics gets them, as long as no
    allocation fails, [send] takes the whole reply, the client's descriptor
    fits an [fd_set], and after each piece of the request but the last
    [select] finds the next one ready.  A line of less than 4095 bytes that
    holds any JSON object with the command's name, in however many pieces it
    arrives, is then answered with one line: the members the command adds to
    the reply, printed as a JSON text whose value is the snapshot, every
    counter exact as long as it has at most 15 digits, and the status OK; the
    client stays connected, nothing of the next request is read, and the
    command leaves no block allocated. *)
Theorem stats_served c s p pieces req j rest sel :
  fd_fits (fd c) = true -> no_newline req -> Z.of_nat (String.length req) + 1 < 4095 ->
  p +:+ joined pieces = req +:+ newline -> Forall (fun q => q <> EmptyString) (p :: pieces) ->
  e_recv (ev s) = (Piece <$> p :: pieces) ++ rest -> e_select (ev s) = replicate (length pieces) Ready ++ sel ->
  healthy s -> find_command "collect_stats_summary" (commands (mgr s)) = Some stats_command ->
  json_document (bytes_of (c_string req)) j -> get_object_item j "command" = Some (JString "collect_stats_summary") ->
  answers (heap (app s)) = [] -> snapshot_small (snapshot (app s)) ->
  exists s' text, unix_client_recv c s = Some (tt, s') /\
    sent s' = sent s ++ [(fd c, text +:+ newline)] /\ json_document (bytes_of (c_string text)) (stats_reply (snapshot (app s))) /\
    clients (mgr s') = clients (mgr s) /\ open s' = open s /\ e_recv (ev s') = rest /\
    snapshot (app s') = snapshot (app s) /\ live (heap (app s')) = live (heap (app s)).
Proof.
  intros Hx Hn Hl Ej Hne Er Es Hh Hf Hd Hc Ha Hs.
  destruct (serve_request c s p pieces req j _ stats_command rest sel Hx Hn Hl Ej Hne Er Es Hh (parse_text_document false req j Hd) Hc Hf)
    as (s' & E & H1 & H2 & H3 & H4 & H5 & H6 & H7 & H8).
  destruct (run_command_ok (task_manager_collect_stats_summary_command (snapshot (app s))) (stats_members (snapshot (app s))) (heap (app s)))
    as (st' & Er' & Hlive); [apply grows_replies; intros mem; apply grows_stats|done|].
  unfold reply_of in H6. cbn [func stats_command] in H6, H8. rewrite Er' in H6, H8. cbn [app Z.eqb snd fst] in H6, H8.
  exists s', (print_unformatted (stats_reply (snapshot (app s)))). split; [done|]. split; [exact H6|].
  split; [by apply stats_reply_printed|]. split; [by rewrite H1|]. split; [done|]. split; [done|]. by rewrite H8.
Qed.

(** *** Witness *)

Definition demo_ask : cJSON := JObject [("command", JString "collect_stats_summary")].
Definition demo_line : string := print_unformatted demo_ask.

Lemma demo_line_document : json_document (bytes_of (c_string demo_line)) demo_ask.
Proof.
  destruct (printed_document false demo_ask) as (u & Eu & Hb & Hd).
  - change max_nesting with (S 999). done.
  - done.
  - unfold demo_line, print_unformatted. rewrite Eu. cbn [default]. by rewrite text_bytes_string.
Qed.

Definition demo_snapshot : task_stats_summary_snapshot_t :=
  let b := BytesStats 1234567890123 1 in let n := PacketsStats 42 0 in
  Snapshot (Timespec 1000 5) (Timespec 1700000000 6) (CaptureStats b n n n) (OutputStats b n b n b n b n n)
    (PipelineBufferStats 1048576 3 268435456 4096).

Definition demo_stats_world : stats_world := StatsWorld demo_snapshot (Store ∅ 0 [] (ParseError CJSON_PARSE_OK EmptyString)).

Definition demo_server : sys (W := stats_world) :=
  Sys (UnixManager 3 5 [stats_command] [UnixClient 4 1]) {[ 3; 4 ]} 0 1
    (Env [Piece (demo_line +:+ newline)] [] [] [] []) [] [] demo_stats_world.

Lemma stats_served_witness :
  exists s' text, unix_client_recv (UnixClient 4 1) demo_server = Some (tt, s') /\
    sent s' = [(4, text +:+ newline)] /\ json_document (bytes_of (c_string text)) (stats_reply demo_snapshot).
Proof.
  destruct (stats_served (UnixClient 4 1) demo_server (demo_line +:+ newline) [] demo_line demo_ask [] []) as (s' & text & H1 & H2 & H3 & _).
  - done.
  - vm_compute. repeat split; discriminate.
  - by vm_compute.
  - by vm_compute.
  - apply List.Forall_cons; [vm_compute; discriminate|apply List.Forall_nil].
  - done.
  - done.
  - done.
  - done.
  - exact demo_line_document.
  - done.
  - done.
  - vm_compute. repeat split; discriminate.
  - exists s', text. split; [exact H1|]. split; [exact H2|exact H3].
Defined.
