(* ===== verification/Reload.v ===== *)
(** * Configuration reload (task.c)

    The main thread, the reload thread and (in the pipeline model) the output
    thread exchange task lists through two mailboxes while packets flow.  The
    model has the heap the code allocates from and frees to, and one action
    for every point between two synchronisations of a thread, run in any
    order: an action that touches an object that is not allocated crashes. *)

From Stdlib Require Import Ascii String.
From stdpp Require Import prelude gmap fin_maps fin_sets sets list strings relations.
From S2P Require Import Prelude.
Open Scope string_scope.
Open Scope list_scope.
Open Scope Z_scope.

(** ** Data *)

Abbreviation addr := positive.

Record task_t := Task { index : Z; fingerprint : option string; task : addr }.

Record task_error_t := TaskError { err_index : Z; err_fingerprint : option string }.

(** What the reload reads of a [Config]: the fingerprints of its tasks, its
    execution model (true for the pipeline) and its buffer size. *)
Record Config := {
  task_fingerprints : list (option string);
  pipeline_model : bool;
  buffer_size_mb : Z;
}.

(** Task lists with their wrapper nodes, live capture tasks, error lists and
    configurations; [oracle] decides which allocations and task creations
    succeed (all, once it is exhausted). *)
Record heap := Heap {
  lists : gmap addr (list task_t);
  caps : gset addr;
  errs : gmap addr (list task_error_t);
  cfgs : gmap addr Config;
  oracle : list bool;
}.

(** Heap computations; [None] is a use after free, a double free, or the head
    of a list freed while nodes hang on it, which nothing could free then. *)
Definition M (A : Type) : Type := heap -> option (A * heap).

Definition ret {A} (x : A) : M A := fun h => Some (x, h).
Definition bind {A B} (m : M A) (f : A -> M B) : M B :=
  fun h => match m h with Some (x, h) => f x h | None => None end.

Declare Scope heap_scope.
Delimit Scope heap_scope with heap.
Notation "'do' x <- m ; f" := (bind m (fun x => f))
  (at level 100, x name, m at level 99, f at level 200, right associativity) : heap_scope.
Notation "m ;; f" := (bind m (fun _ => f))
  (at level 100, f at level 200, right associativity) : heap_scope.
Open Scope heap_scope.

Definition fail {A} : M A := fun _ => None.

(** The next answer of the environment. *)
Definition choose : M bool := fun h =>
  match oracle h with
  | [] => Some (true, h)
  | b :: o => Some (b, Heap (lists h) (caps h) (errs h) (cfgs h) o)
  end.

Definition set_lists (f : gmap addr (list task_t) -> gmap addr (list task_t)) : M unit := fun h =>
  Some (tt, Heap (f (lists h)) (caps h) (errs h) (cfgs h) (oracle h)).
Definition set_caps (f : gset addr -> gset addr) : M unit := fun h =>
  Some (tt, Heap (lists h) (f (caps h)) (errs h) (cfgs h) (oracle h)).
Definition set_errs (f : gmap addr (list task_error_t) -> gmap addr (list task_error_t)) : M unit := fun h =>
  Some (tt, Heap (lists h) (caps h) (f (errs h)) (cfgs h) (oracle h)).
Definition set_cfgs (f : gmap addr Config -> gmap addr Config) : M unit := fun h =>
  Some (tt, Heap (lists h) (caps h) (errs h) (f (cfgs h)) (oracle h)).

Definition load_list (a : addr) : M (list task_t) := fun h =>
  match lists h !! a with Some l => Some (l, h) | None => None end.
Definition load_cfg (a : addr) : M Config := fun h =>
  match cfgs h !! a with Some c => Some (c, h) | None => None end.

(** Allocation at an address not in use. *)
Definition new_list (l : list task_t) : M addr := fun h =>
  let a := fresh (dom (lists h)) in (set_lists (<[a := l]>);; ret a) h.
Definition new_errs (l : list task_error_t) : M addr := fun h =>
  let a := fresh (dom (errs h)) in (set_errs (<[a := l]>);; ret a) h.
Definition new_cfg (c : Config) : M addr := fun h =>
  let a := fresh (dom (cfgs h)) in (set_cfgs (<[a := c]>);; ret a) h.

(** [TAILQ_INSERT_TAIL] of a node into a list, and [TAILQ_REMOVE] and [free]
    of its first node. *)
Definition push_task (a : addr) (t : task_t) : M unit := do l <- load_list a; set_lists (<[a := l ++ [t]]>).
Definition take_task (a : addr) : M unit :=
  do l <- load_list a;
  match l with [] => ret tt | _ :: l => set_lists (<[a := l]>) end.

Definition load_errs (a : addr) : M (list task_error_t) := fun h =>
  match errs h !! a with Some l => Some (l, h) | None => None end.
Definition push_error (a : addr) (e : task_error_t) : M unit := do l <- load_errs a; set_errs (<[a := l ++ [e]]>).
Definition take_error (a : addr) : M unit :=
  do l <- load_errs a;
  match l with [] => ret tt | _ :: l => set_errs (<[a := l]>) end.

(** [free] of the head of a list: its nodes are lost unless they are gone. *)
Definition free_list (a : addr) : M unit :=
  do l <- load_list a;
  match l with [] => set_lists (delete a) | _ => fail end.
Definition free_errors (a : addr) : M unit :=
  do l <- load_errs a;
  match l with [] => set_errs (delete a) | _ => fail end.

Definition free_config (a : addr) : M unit := load_cfg a;; set_cfgs (delete a).

(** [capture_task_new]: a capturer and outputs, or a failure; what it acquires,
    and what can go wrong in it when memory is short, is in [Lifecycle]. *)
Definition capture_task_new : M (option addr) := fun h =>
  (do ok <- choose;
   if ok then fun h => let a := fresh (caps h) in (set_caps (union {[a]});; ret (Some a)) h
   else ret None) h.
Definition capture_task_destroy (c : addr) : M unit := fun h =>
  if bool_decide (c ∈ caps h) then set_caps (fun s => s ∖ {[c]}) h else None.

(** ** Helpers of the reload thread *)

Definition task_wrapper_new (i : Z) (fp : option string) (c : addr) : M (option task_t) :=
  do ok <- choose;
  ret (if ok then Some (Task i fp c) else None).

Definition task_error_new (i : Z) (fp : option string) : M (option task_error_t) :=
  do ok <- choose;
  ret (if ok then Some (TaskError i fp) else None).

(** [strcmp] of a [NULL] fingerprint crashes. *)
Fixpoint find_task_by_fingerprint (fp : option string) (tasks : list task_t) : option (option task_t) :=
  match tasks with
  | [] => Some None
  | item :: tasks =>
      match fingerprint item with
      | None => find_task_by_fingerprint fp tasks
      | Some f =>
          match fp with
          | None => None
          | Some g => if String.eqb f g then Some (Some item) else find_task_by_fingerprint fp tasks
          end
      end
  end.

Definition find_task (fp : option string) (tasks : list task_t) : M (option task_t) := fun h =>
  match find_task_by_fingerprint fp tasks with Some r => Some (r, h) | None => None end.

Definition validate_fingerprints (c : Config) : bool :=
  forallb (fun fp => bool_decide (is_Some fp)) (task_fingerprints c).

(** [TAILQ_FOREACH_SAFE] that removes every node: [n] nodes. *)
Fixpoint take_tasks (n : nat) (tasks : addr) : M unit :=
  match n with O => ret tt | S n => take_task tasks;; take_tasks n tasks end.
Fixpoint take_errors (n : nat) (errors : addr) : M unit :=
  match n with O => ret tt | S n => take_error errors;; take_errors n errors end.

Definition free_task_list_wrappers (tasks : addr) : M unit :=
  do l <- load_list tasks;
  take_tasks (length l) tasks;;
  free_list tasks.

Definition destroy_task_error_list (errors : addr) : M unit :=
  do l <- load_errs errors;
  take_errors (length l) errors;;
  free_errors errors.

(** The loop over the configuration, from [fps] on: false goes to the error
    exit. *)
Fixpoint collect_loop (fps : list (option string)) (current : list task_t) (tasks : addr) : M bool :=
  match fps with
  | [] => ret true
  | fp :: fps =>
      do existing <- find_task fp current;
      match existing with
      | Some e =>
          do survivor <- task_wrapper_new (index e) (fingerprint e) (task e);
          match survivor with
          | None => ret false
          | Some s => push_task tasks s;; collect_loop fps current tasks
          end
      | None => collect_loop fps current tasks
      end
  end.

Definition collect_surviving_tasks (config current_tasks : addr) : M (option addr) :=
  do ok <- choose;
  if ok : bool then
    do tasks <- new_list [];
    do c <- load_cfg config;
    do current <- load_list current_tasks;
    do done <- collect_loop (task_fingerprints c) current tasks;
    if done : bool then ret (Some tasks)
    else free_task_list_wrappers tasks;; ret None
  else ret None.

(** One more task of the new set: reused, created, or recorded as failed. *)
Fixpoint build_loop (i : Z) (fps : list (option string)) (current : list task_t) (tasks errors : addr) : M bool :=
  match fps with
  | [] => ret true
  | fp :: fps =>
      do existing <- find_task fp current;
      match existing with
      | Some e =>
          do t <- task_wrapper_new i fp (task e);
          match t with
          | None => ret false
          | Some t => push_task tasks t;; build_loop (i + 1) fps current tasks errors
          end
      | None =>
          do cap <- capture_task_new;
          match cap with
          | None =>
              do e <- task_error_new i fp;
              match e with
              | None => ret false
              | Some e => push_error errors e;; build_loop (i + 1) fps current tasks errors
              end
          | Some cap =>
              do t <- task_wrapper_new i fp cap;
              match t with
              | None => capture_task_destroy cap;; ret false
              | Some t => push_task tasks t;; build_loop (i + 1) fps current tasks errors
              end
          end
      end
  end.

(** The error exit: destroy what was created for this set, and the nodes. *)
Fixpoint build_undo (n : nat) (tasks : addr) (current : list task_t) : M unit :=
  match n with
  | O => ret tt
  | S n =>
      do l <- load_list tasks;
      match l with
      | [] => ret tt
      | item :: _ =>
          do existing <- find_task (fingerprint item) current;
          (match existing with None => capture_task_destroy (task item) | Some _ => ret tt end);;
          take_task tasks;;
          build_undo n tasks current
      end
  end.

Definition build_full_task_set (config current_tasks : addr) : M (option (addr * addr)) :=
  do ok <- choose;
  if ok : bool then
    do tasks <- new_list [];
    do ok2 <- choose;
    if ok2 : bool then
      do errors <- new_errs [];
      do c <- load_cfg config;
      do current <- load_list current_tasks;
      do done <- build_loop 0 (task_fingerprints c) current tasks errors;
      if done : bool then ret (Some (tasks, errors))
      else
        do l <- load_list tasks;
        build_undo (length l) tasks current;;
        free_list tasks;;
        destroy_task_error_list errors;;
        ret None
    else free_list tasks;; ret None
  else ret None.

(** Destroy the old tasks the new set does not have, and all old nodes. *)
Fixpoint reclaim_loop (n : nat) (old_tasks : addr) (new_tasks : list task_t) : M unit :=
  match n with
  | O => ret tt
  | S n =>
      do l <- load_list old_tasks;
      match l with
      | [] => ret tt
      | item :: _ =>
          do existing <- match fingerprint item with
                         | None => ret None
                         | Some _ => find_task (fingerprint item) new_tasks
                         end;
          (match existing with None => capture_task_destroy (task item) | Some _ => ret tt end);;
          take_task old_tasks;;
          reclaim_loop n old_tasks new_tasks
      end
  end.

Definition reclaim_old_resources (old_config old_errors old_tasks new_tasks : addr) : M unit :=
  do old <- load_list old_tasks;
  do new <- load_list new_tasks;
  reclaim_loop (length old) old_tasks new;;
  free_list old_tasks;;
  destroy_task_error_list old_errors;;
  free_config old_config.

(** ** The two threads *)

Inductive reload_msg_t :=
| RELOAD_REQ_PLAN (current_tasks : addr)
| RELOAD_RPT_SURVIVORS (survivor_tasks : addr)
| RELOAD_REQ_BUILD (old_tasks : addr)
| RELOAD_RPT_NEW_TASKS (config tasks errors : addr)
| RELOAD_REQ_RECLAIM (old_config old_errors new_tasks : addr)
| RELOAD_RPT_RECLAIMED
| RELOAD_RPT_ERROR (restore_old_tasks : option addr).

Inductive reload_phase_t :=
| RELOAD_PHASE_IDLE | RELOAD_PHASE_AWAITING_SURVIVORS
| RELOAD_PHASE_AWAITING_NEW_TASKS | RELOAD_PHASE_AWAITING_RECLAIM.

Record task_manager_t := Mgr {
  execution_model : bool; mgr_capacity : Z;
  tasks : addr; errors : addr; config : addr;
}.

Record reload_runtime_ctx_t := Ctx {
  new_config : option addr; current_tasks : option addr; old_tasks : option addr;
}.

Definition ctx_reset (c : reload_runtime_ctx_t) : reload_runtime_ctx_t := Ctx (new_config c) None None.

(** The handlers of the main thread: the manager, the phase, and the request
    sent if any. *)
Definition main_result : Type := task_manager_t * reload_phase_t * option reload_msg_t.

Definition main_handle_survivors (mgr : task_manager_t) (msg : reload_msg_t) : M main_result :=
  match msg with
  | RELOAD_RPT_SURVIVORS survivor_tasks =>
      let old := tasks mgr in
      ret (Mgr (execution_model mgr) (mgr_capacity mgr) survivor_tasks (errors mgr) (config mgr),
           RELOAD_PHASE_AWAITING_NEW_TASKS, Some (RELOAD_REQ_BUILD old))
  | _ => ret (mgr, RELOAD_PHASE_IDLE, None)
  end.

Definition restore_full_list_on_build_failure (mgr : task_manager_t) (restore : option addr) : M task_manager_t :=
  match restore with
  | None => ret mgr
  | Some old =>
      free_task_list_wrappers (tasks mgr);;
      ret (Mgr (execution_model mgr) (mgr_capacity mgr) old (errors mgr) (config mgr))
  end.

Definition main_handle_new_tasks (mgr : task_manager_t) (msg : reload_msg_t) : M main_result :=
  match msg with
  | RELOAD_RPT_ERROR restore =>
      do mgr <- restore_full_list_on_build_failure mgr restore;
      ret (mgr, RELOAD_PHASE_IDLE, None)
  | RELOAD_RPT_NEW_TASKS cfg new_tasks new_errors =>
      let old_config := config mgr in
      let old_errors := errors mgr in
      free_task_list_wrappers (tasks mgr);;
      do c <- load_cfg cfg;
      let new_capacity := u64 (buffer_size_mb c * 1024 * 1024) in
      let cap := if execution_model mgr && pipeline_model c then new_capacity else mgr_capacity mgr in
      ret (Mgr (execution_model mgr) cap new_tasks new_errors cfg,
           RELOAD_PHASE_AWAITING_RECLAIM, Some (RELOAD_REQ_RECLAIM old_config old_errors new_tasks))
  | _ => ret (mgr, RELOAD_PHASE_IDLE, None)
  end.

Definition main_handle_reclaimed (mgr : task_manager_t) (msg : reload_msg_t) : M main_result :=
  ret (mgr, RELOAD_PHASE_IDLE, None).

(** The [switch] of [task_manager_reload_cycle]. *)
Definition reload_cycle_switch (phase : reload_phase_t) (mgr : task_manager_t) (msg : reload_msg_t) :
    M main_result :=
  match phase with
  | RELOAD_PHASE_AWAITING_SURVIVORS => main_handle_survivors mgr msg
  | RELOAD_PHASE_AWAITING_NEW_TASKS => main_handle_new_tasks mgr msg
  | RELOAD_PHASE_AWAITING_RECLAIM => main_handle_reclaimed mgr msg
  | RELOAD_PHASE_IDLE => ret (mgr, RELOAD_PHASE_IDLE, None)
  end.

(** The handlers of the reload thread: the context and the report sent.
    [parsed] is what [parse_config_file] answers. *)
Definition reload_do_plan (ctx : reload_runtime_ctx_t) (current : addr) (parsed : option Config) :
    M (reload_runtime_ctx_t * reload_msg_t) :=
  let ctx := Ctx (new_config ctx) (Some current) (old_tasks ctx) in
  match parsed with
  | None => ret (ctx_reset ctx, RELOAD_RPT_ERROR None)
  | Some c =>
      do cfg <- new_cfg c;
      if validate_fingerprints c then
        do s <- collect_surviving_tasks cfg current;
        match s with
        | None => free_config cfg;; ret (ctx_reset ctx, RELOAD_RPT_ERROR None)
        | Some s => ret (Ctx (Some cfg) (Some current) (old_tasks ctx), RELOAD_RPT_SURVIVORS s)
        end
      else free_config cfg;; ret (ctx_reset ctx, RELOAD_RPT_ERROR None)
  end.

Definition reload_do_build (ctx : reload_runtime_ctx_t) (old : addr) : M (reload_runtime_ctx_t * reload_msg_t) :=
  let ctx := Ctx (new_config ctx) (current_tasks ctx) (Some old) in
  match new_config ctx, current_tasks ctx with
  | Some cfg, Some current =>
      do r <- build_full_task_set cfg current;
      match r with
      | None => free_config cfg;; ret (ctx_reset (Ctx None (current_tasks ctx) (old_tasks ctx)), RELOAD_RPT_ERROR (Some old))
      | Some (t, e) => ret (Ctx None (current_tasks ctx) (old_tasks ctx), RELOAD_RPT_NEW_TASKS cfg t e)
      end
  | _, _ => fail
  end.

(** The part of [reload_do_reclaim] after the drain. *)
Definition reload_do_reclaim (ctx : reload_runtime_ctx_t) (old_config old_errors new_tasks : addr) :
    M (reload_runtime_ctx_t * reload_msg_t) :=
  match old_tasks ctx with
  | Some old =>
      reclaim_old_resources old_config old_errors old new_tasks;;
      ret (ctx_reset ctx, RELOAD_RPT_RECLAIMED)
  | None => fail
  end.

Definition reload_handle_error_from_main (ctx : reload_runtime_ctx_t) : M reload_runtime_ctx_t :=
  match new_config ctx with
  | Some c => free_config c;; ret (ctx_reset (Ctx None (current_tasks ctx) (old_tasks ctx)))
  | None => ret (ctx_reset ctx)
  end.

(** ** The running system *)

(** Between polls; a report in hand; before [try_start_reload]. *)
Inductive main_pc := MPoll | MGot | MTry.
(** Waiting for a request; a request in hand; in
    [wait_output_drain_ring_response]; past it. *)
Inductive reload_pc := RIdle | RGot | RWait | RDrained.
(** In the loop; a message of capture task [c] in hand (popped with [k] more to
    drain, or by the loop); draining [k] messages; request cleared. *)
Inductive output_pc := OLoop | OHold (c : addr) (back : option nat) | ODrain (k : nat) | OCleared.

(** A mailbox holds a pointer to the sender's one message or [NULL].  [ring]
    is the queue of messages, each as the capture task it is for. *)
Record sys := Sys {
  mgr : task_manager_t; phase : reload_phase_t; mpc : main_pc;
  ctx : reload_runtime_ctx_t; rpc : reload_pc;
  reload_signal : bool; main_mbox : bool; reload_mbox : bool;
  main_tx_msg : reload_msg_t; reload_tx_msg : reload_msg_t;
  ring : list addr; opc : output_pc; drain_request : bool; drain_response : bool;
  reload_thread_running : bool;
  hp : heap;
}.

Inductive action :=
| Signal                      (** SIGHUP or the [reload_config] command *)
| Poll (i : nat)              (** the main thread captures from its [i]th task *)
| MainRecv | MainHandle | TryStart
| ReloadRecv | ReloadHandle (parsed : option Config)
| DrainRequest | DrainDone | DrainAbort | Reclaim
| OutPop | OutSend | DrainStart | DrainPop | DrainEnd | Respond
| Stop.                       (** [task_manager_stop_reload_thread] *)

Inductive result := Disabled | Crash | Next (s : sys).

Definition run {A} (m : M A) (s : sys) (k : A -> heap -> sys) : result :=
  match m (hp s) with Some (x, h) => Next (k x h) | None => Crash end.

(** [parse_config_file] rejects duplicate fingerprints. *)
Definition unique_fingerprints (c : Config) : bool := bool_decide (NoDup (omap id (task_fingerprints c))).

(** After a handler of the main thread; a request goes out in its message. *)
Definition main_next (s : sys) (r : main_result) (h : heap) : sys :=
  let '(m, ph, req) := r in
  Sys m ph MTry (ctx s) (rpc s) (reload_signal s) (main_mbox s)
    (match req with Some _ => true | None => reload_mbox s end)
    (match req with Some msg => msg | None => main_tx_msg s end) (reload_tx_msg s)
    (ring s) (opc s) (drain_request s) (drain_response s) (reload_thread_running s) h.

(** After a handler of the reload thread. *)
Definition reload_next (s : sys) (r : reload_runtime_ctx_t * reload_msg_t) (h : heap) : sys :=
  Sys (mgr s) (phase s) (mpc s) r.1 RIdle (reload_signal s) true (reload_mbox s)
    (main_tx_msg s) r.2 (ring s) (opc s) (drain_request s) (drain_response s) (reload_thread_running s) h.

Definition set_ctx (s : sys) (c : reload_runtime_ctx_t) (h : heap) : sys :=
  Sys (mgr s) (phase s) (mpc s) c RIdle (reload_signal s) (main_mbox s) (reload_mbox s)
    (main_tx_msg s) (reload_tx_msg s) (ring s) (opc s) (drain_request s) (drain_response s)
    (reload_thread_running s) h.

Definition set_main (s : sys) (pc : main_pc) (mbox : bool) : sys :=
  Sys (mgr s) (phase s) pc (ctx s) (rpc s) (reload_signal s) mbox (reload_mbox s)
    (main_tx_msg s) (reload_tx_msg s) (ring s) (opc s) (drain_request s) (drain_response s)
    (reload_thread_running s) (hp s).

Definition set_reload (s : sys) (pc : reload_pc) (mbox : bool) : sys :=
  Sys (mgr s) (phase s) (mpc s) (ctx s) pc (reload_signal s) (main_mbox s) mbox
    (main_tx_msg s) (reload_tx_msg s) (ring s) (opc s) (drain_request s) (drain_response s)
    (reload_thread_running s) (hp s).

Definition set_signal (s : sys) (b : bool) : sys :=
  Sys (mgr s) (phase s) (mpc s) (ctx s) (rpc s) b (main_mbox s) (reload_mbox s)
    (main_tx_msg s) (reload_tx_msg s) (ring s) (opc s) (drain_request s) (drain_response s)
    (reload_thread_running s) (hp s).

Definition set_out (s : sys) (r : list addr) (pc : output_pc) (req resp : bool) : sys :=
  Sys (mgr s) (phase s) (mpc s) (ctx s) (rpc s) (reload_signal s) (main_mbox s) (reload_mbox s)
    (main_tx_msg s) (reload_tx_msg s) r pc req resp (reload_thread_running s) (hp s).

Definition set_running (s : sys) (b : bool) : sys :=
  Sys (mgr s) (phase s) (mpc s) (ctx s) (rpc s) (reload_signal s) (main_mbox s) (reload_mbox s)
    (main_tx_msg s) (reload_tx_msg s) (ring s) (opc s) (drain_request s) (drain_response s) b (hp s).

(** [task_manager_poll_packets] on one task: its capturer is used, and in the
    pipeline model its message goes into the ring. *)
Definition poll (i : nat) (s : sys) : result :=
  match mpc s, lists (hp s) !! tasks (mgr s) with
  | MPoll, None => Crash
  | MPoll, Some l =>
      match l !! i with
      | None => Disabled
      | Some t =>
          if bool_decide (task t ∈ caps (hp s)) then
            Next (if execution_model (mgr s)
                  then set_out s (ring s ++ [task t]) (opc s) (drain_request s) (drain_response s) else s)
          else Crash
      end
  | _, _ => Disabled
  end.

(** [try_start_reload]. *)
Definition try_start (s : sys) : sys :=
  match phase s with
  | RELOAD_PHASE_IDLE =>
      if reload_signal s then
        Sys (mgr s) RELOAD_PHASE_AWAITING_SURVIVORS MPoll (ctx s) (rpc s) false (main_mbox s) true
          (RELOAD_REQ_PLAN (tasks (mgr s))) (reload_tx_msg s)
          (ring s) (opc s) (drain_request s) (drain_response s) (reload_thread_running s) (hp s)
      else set_main s MPoll (main_mbox s)
  | _ => set_main s MPoll (main_mbox s)
  end.

(** The [switch] of [task_manager_reload_loop], but for the drain. *)
Definition reload_handle (parsed : option Config) (s : sys) : result :=
  match main_tx_msg s with
  | RELOAD_REQ_PLAN current =>
      match parsed with
      | Some c => if unique_fingerprints c then run (reload_do_plan (ctx s) current parsed) s (reload_next s)
                  else Disabled
      | None => run (reload_do_plan (ctx s) current None) s (reload_next s)
      end
  | RELOAD_REQ_BUILD old => run (reload_do_build (ctx s) old) s (reload_next s)
  | RELOAD_REQ_RECLAIM c e t =>
      if execution_model (mgr s) then Disabled
      else run (reload_do_reclaim (ctx s) c e t) s (reload_next s)
  | RELOAD_RPT_ERROR _ => run (reload_handle_error_from_main (ctx s)) s (set_ctx s)
  | _ => Next (set_reload s RIdle (reload_mbox s))
  end.

Definition exec (a : action) (s : sys) : result :=
  match a with
  | Signal => Next (set_signal s true)
  | Poll i => poll i s
  | MainRecv =>
      match mpc s with
      | MPoll => Next (set_main s (if main_mbox s then MGot else MTry) false)
      | _ => Disabled
      end
  | MainHandle =>
      match mpc s with
      | MGot => run (reload_cycle_switch (phase s) (mgr s) (reload_tx_msg s)) s (main_next s)
      | _ => Disabled
      end
  | TryStart => match mpc s with MTry => Next (try_start s) | _ => Disabled end
  | ReloadRecv =>
      match rpc s with
      | RIdle => if reload_mbox s then Next (set_reload s RGot false) else Disabled
      | _ => Disabled
      end
  | ReloadHandle parsed => match rpc s with RGot => reload_handle parsed s | _ => Disabled end
  | DrainRequest =>
      match rpc s, main_tx_msg s with
      | RGot, RELOAD_REQ_RECLAIM _ _ _ =>
          if execution_model (mgr s)
          then Next (set_out (set_reload s RWait (reload_mbox s)) (ring s) (opc s) true (drain_response s))
          else Disabled
      | _, _ => Disabled
      end
  | DrainDone =>
      match rpc s with
      | RWait => if drain_response s
                 then Next (set_out (set_reload s RDrained (reload_mbox s)) (ring s) (opc s) (drain_request s) false)
                 else Disabled
      | _ => Disabled
      end
  | DrainAbort =>
      match rpc s with
      | RWait => if reload_thread_running s then Disabled else Next (set_reload s RDrained (reload_mbox s))
      | _ => Disabled
      end
  | Reclaim =>
      match rpc s, main_tx_msg s with
      | RDrained, RELOAD_REQ_RECLAIM c e t => run (reload_do_reclaim (ctx s) c e t) s (reload_next s)
      | _, _ => Disabled
      end
  | OutPop =>
      match opc s, ring s with
      | OLoop, c :: r => Next (set_out s r (OHold c None) (drain_request s) (drain_response s))
      | _, _ => Disabled
      end
  | OutSend =>
      match opc s with
      | OHold c back =>
          if bool_decide (c ∈ caps (hp s)) then
            Next (set_out s (ring s) (match back with Some k => ODrain k | None => OLoop end)
                    (drain_request s) (drain_response s))
          else Crash
      | _ => Disabled
      end
  | DrainStart =>
      match opc s with
      | OLoop => if drain_request s
                 then Next (set_out s (ring s) (ODrain (length (ring s))) true (drain_response s)) else Disabled
      | _ => Disabled
      end
  | DrainPop =>
      match opc s, ring s with
      | ODrain (S k), c :: r => Next (set_out s r (OHold c (Some k)) (drain_request s) (drain_response s))
      | _, _ => Disabled
      end
  | DrainEnd =>
      match opc s, ring s with
      | ODrain O, _ | ODrain _, [] => Next (set_out s (ring s) OCleared false (drain_response s))
      | _, _ => Disabled
      end
  | Respond =>
      match opc s with
      | OCleared => Next (set_out s (ring s) OLoop (drain_request s) true)
      | _ => Disabled
      end
  | Stop => Next (set_running s false)
  end.

(** A run without shutdown, and with it. *)
Definition step (s s' : sys) : Prop := exists a, a <> Stop /\ exec a s = Next s'.
Definition crashes (s : sys) : Prop := exists a, exec a s = Crash.

Fixpoint exec_all (acts : list action) (s : sys) : result :=
  match acts with
  | [] => Next s
  | a :: acts => match exec a s with Next s => exec_all acts s | r => r end
  end.

(** Fresh from [task_manager_init] and the thread starts: tasks [l] created
    from configuration [c]. *)
Definition fps (l : list task_t) : list string := omap fingerprint l.
Definition caps_of (l : list task_t) : gset addr := list_to_set (task <$> l).

Definition init (pipeline : bool) (capacity : Z) (l : list task_t) (e : list task_error_t) (c : Config)
    (answers : list bool) : sys :=
  Sys (Mgr pipeline capacity 1 1 1) RELOAD_PHASE_IDLE MPoll (Ctx None None None) RIdle
    false false false RELOAD_RPT_RECLAIMED RELOAD_RPT_RECLAIMED [] OLoop false false true
    (Heap {[1%positive := l]} (caps_of l) {[1%positive := e]} {[1%positive := c]} answers).

(** ** The lists as values

    The loops with the lists they build, and the nodes they free, as values:
    nothing but the capture tasks and the environment's answers changes.  The
    loops of the code, which keep their lists in the heap from the start and
    free them node by node, do the same. *)

Fixpoint collect_values (fps : list (option string)) (current acc : list task_t) : M (option (list task_t)) :=
  match fps with
  | [] => ret (Some acc)
  | fp :: fps =>
      do existing <- find_task fp current;
      match existing with
      | Some e =>
          do survivor <- task_wrapper_new (index e) (fingerprint e) (task e);
          match survivor with
          | None => ret None
          | Some s => collect_values fps current (acc ++ [s])
          end
      | None => collect_values fps current acc
      end
  end.

Definition collect_as_values (config current_tasks : addr) : M (option addr) :=
  do ok <- choose;
  if ok : bool then
    do c <- load_cfg config;
    do current <- load_list current_tasks;
    do r <- collect_values (task_fingerprints c) current [];
    match r with
    | None => ret None
    | Some l => do a <- new_list l; ret (Some a)
    end
  else ret None.

Fixpoint build_values (i : Z) (fps : list (option string)) (current acc : list task_t)
    (errors : list task_error_t) : M (list task_t * option (list task_error_t)) :=
  match fps with
  | [] => ret (acc, Some errors)
  | fp :: fps =>
      do existing <- find_task fp current;
      match existing with
      | Some e =>
          do t <- task_wrapper_new i fp (task e);
          match t with
          | None => ret (acc, None)
          | Some t => build_values (i + 1) fps current (acc ++ [t]) errors
          end
      | None =>
          do cap <- capture_task_new;
          match cap with
          | None =>
              do e <- task_error_new i fp;
              match e with
              | None => ret (acc, None)
              | Some e => build_values (i + 1) fps current acc (errors ++ [e])
              end
          | Some cap =>
              do t <- task_wrapper_new i fp cap;
              match t with
              | None => capture_task_destroy cap;; ret (acc, None)
              | Some t => build_values (i + 1) fps current (acc ++ [t]) errors
              end
          end
      end
  end.

Fixpoint undo_values (acc current : list task_t) : M unit :=
  match acc with
  | [] => ret tt
  | item :: acc =>
      do existing <- find_task (fingerprint item) current;
      (match existing with None => capture_task_destroy (task item) | Some _ => ret tt end);;
      undo_values acc current
  end.

Definition build_as_values (config current_tasks : addr) : M (option (addr * addr)) :=
  do ok <- choose;
  if ok : bool then
    do ok2 <- choose;
    if ok2 : bool then
      do c <- load_cfg config;
      do current <- load_list current_tasks;
      do r <- build_values 0 (task_fingerprints c) current [] [];
      match r with
      | (l, Some e) => do tasks <- new_list l; do errors <- new_errs e; ret (Some (tasks, errors))
      | (l, None) => undo_values l current;; ret None
      end
    else ret None
  else ret None.

Fixpoint reclaim_values (old new_tasks : list task_t) : M unit :=
  match old with
  | [] => ret tt
  | item :: old =>
      do existing <- match fingerprint item with
                     | None => ret None
                     | Some _ => find_task (fingerprint item) new_tasks
                     end;
      (match existing with None => capture_task_destroy (task item) | Some _ => ret tt end);;
      reclaim_values old new_tasks
  end.

Definition drop_list (a : addr) : M unit := load_list a;; set_lists (delete a).

(** What the loops leave alone. *)
Definition same_lists (h h' : heap) : Prop := lists h' = lists h /\ errs h' = errs h /\ cfgs h' = cfgs h.

Lemma same_lists_trans h1 h2 h3 : same_lists h1 h2 -> same_lists h2 h3 -> same_lists h1 h3.
Proof. unfold same_lists. intuition congruence. Qed.

Lemma choose_lists h b h' : choose h = Some (b, h') -> same_lists h h'.
Proof. unfold choose. destruct (oracle h); intros [= <- <-]; done. Qed.

Lemma wrapper_content i fp c h r h' : task_wrapper_new i fp c h = Some (r, h') -> same_lists h h' /\ (r = None \/ r = Some (Task i fp c)).
Proof.
  unfold task_wrapper_new, bind. destruct (choose h) as [[b h1]|] eqn:E; [|done]. apply choose_lists in E.
  destruct b; intros [= <- <-]; auto.
Qed.

Lemma error_content i fp h r h' : task_error_new i fp h = Some (r, h') -> same_lists h h' /\ (r = None \/ r = Some (TaskError i fp)).
Proof.
  unfold task_error_new, bind. destruct (choose h) as [[b h1]|] eqn:E; [|done]. apply choose_lists in E.
  destruct b; intros [= <- <-]; auto.
Qed.

Lemma new_cap_content h r h' : capture_task_new h = Some (r, h') -> same_lists h h'.
Proof.
  unfold capture_task_new, bind. destruct (choose h) as [[b h1]|] eqn:E; [|done]. apply choose_lists in E.
  destruct b; intros [= <- <-]; done.
Qed.

Lemma destroy_content c h r h' : capture_task_destroy c h = Some (r, h') -> same_lists h h'.
Proof. unfold capture_task_destroy. case_bool_decide; intros [= <- <-]; done. Qed.

Lemma bind_inv {A B : Type} (m : M A) (k : A -> M B) h y h2 :
  bind m k h = Some (y, h2) -> exists x h1, m h = Some (x, h1) /\ k x h1 = Some (y, h2).
Proof. unfold bind. destruct (m h) as [[x h1]|]; [|done]. by exists x, h1. Qed.

(** The next computation of a run. *)
Ltac next E x h1 E1 := apply bind_inv in E as (x & h1 & E1 & E).

Lemma build_lists fps l : forall i acc errors h r h', build_values i fps l acc errors h = Some (r, h') -> same_lists h h'.
Proof.
  induction fps as [|f fps IH]; intros i acc errors h r h' E; cbn [build_values] in E; [by injection E as <- <-|].
  next E x h1 E1. assert (h1 = h) as -> by (unfold find_task in E1; destruct (find_task_by_fingerprint f l); by simplify_eq).
  destruct x as [t|].
  - next E w h1 E2. apply wrapper_content in E2 as [Hs [-> | ->]]; [by injection E as <- <-|]. eapply same_lists_trans; [done|by eapply IH].
  - next E cap h1 E2. apply new_cap_content in E2. destruct cap as [cap|].
    + next E w h2 E3. apply wrapper_content in E3 as [Hs [-> | ->]].
      * next E u h3 E4. apply destroy_content in E4. injection E as <- <-. by eapply same_lists_trans, same_lists_trans.
      * eapply same_lists_trans; [done|]. eapply same_lists_trans; [done|by eapply IH].
    + next E w h2 E3. apply error_content in E3 as [Hs [-> | ->]]; [injection E as <- <-; by eapply same_lists_trans|].
      eapply same_lists_trans; [done|]. eapply same_lists_trans; [done|by eapply IH].
Qed.

Lemma undo_lists l acc : forall h r h', undo_values acc l h = Some (r, h') -> same_lists h h'.
Proof.
  induction acc as [|t acc IH]; intros h r h' E; cbn [undo_values] in E; [by injection E as <- <-|].
  next E x h1 E1. assert (h1 = h) as -> by (unfold find_task in E1; destruct (find_task_by_fingerprint _ l); by simplify_eq).
  next E u h1 E2. destruct x as [x|]; [injection E2 as <- <-; by eapply IH|]. apply destroy_content in E2. eapply same_lists_trans; [done|by eapply IH].
Qed.

Lemma reclaim_lists new old : forall h r h', reclaim_values old new h = Some (r, h') -> same_lists h h'.
Proof.
  induction old as [|t old IH]; intros h r h' E; cbn [reclaim_values] in E; [by injection E as <- <-|].
  next E x h1 E1. assert (h1 = h) as -> by (destruct (fingerprint t); [unfold find_task in E1; destruct (find_task_by_fingerprint _ new); by simplify_eq|by injection E1 as _ ->]).
  next E u h1 E2. destruct x as [x|]; [injection E2 as <- <-; by eapply IH|]. apply destroy_content in E2. eapply same_lists_trans; [done|by eapply IH].
Qed.

Lemma collect_lists fps l : forall acc h r h', collect_values fps l acc h = Some (r, h') -> same_lists h h'.
Proof.
  induction fps as [|f fps IH]; intros acc h r h' E; cbn [collect_values] in E; [by injection E as <- <-|].
  next E x h1 E1. assert (h1 = h) as -> by (unfold find_task in E1; destruct (find_task_by_fingerprint f l); by simplify_eq).
  destruct x as [t|]; [|by eapply IH]. next E w h1 E2. apply wrapper_content in E2 as [Hs [-> | ->]]; [by injection E as <- <-|]. eapply same_lists_trans; [done|by eapply IH].
Qed.

(** A heap with one more list, or error list. *)
Definition with_list (a : addr) (l : list task_t) (h : heap) : heap :=
  Heap (<[a := l]> (lists h)) (caps h) (errs h) (cfgs h) (oracle h).
Definition with_errs (a : addr) (l : list task_error_t) (h : heap) : heap :=
  Heap (lists h) (caps h) (<[a := l]> (errs h)) (cfgs h) (oracle h).

Definition lift {A} (f : heap -> heap) (r : option (A * heap)) : option (A * heap) :=
  match r with Some (x, h) => Some (x, f h) | None => None end.

(** A change of the heap that is none of the business of the capture tasks. *)
Record aside (f : heap -> heap) : Prop := Aside {
  as_caps : forall h, caps (f h) = caps h;
  as_oracle : forall h, oracle (f h) = oracle h;
  as_set_caps : forall g h, set_caps g (f h) = lift f (set_caps g h);
  as_set_oracle : forall o h, Heap (lists (f h)) (caps (f h)) (errs (f h)) (cfgs (f h)) o =
                              f (Heap (lists h) (caps h) (errs h) (cfgs h) o);
}.

Lemma aside_list a l : aside (with_list a l).
Proof. by split. Qed.
Lemma aside_errs a l : aside (with_errs a l).
Proof. by split. Qed.
Lemma aside_both t l e es : aside (fun h => with_list t l (with_errs e es h)).
Proof. by split. Qed.

Section aside.
  Context (f : heap -> heap) (Hf : aside f).

Lemma choose_aside h : choose (f h) = lift f (choose h).
Proof using Hf. unfold choose. rewrite (as_oracle f Hf). destruct (oracle h); [done|]. cbn. by rewrite (as_set_oracle f Hf). Qed.

Lemma wrapper_aside i fp c h : task_wrapper_new i fp c (f h) = lift f (task_wrapper_new i fp c h).
Proof using Hf. unfold task_wrapper_new, bind. rewrite choose_aside. by destruct (choose h) as [[b h1]|]. Qed.

Lemma error_new_aside i fp h : task_error_new i fp (f h) = lift f (task_error_new i fp h).
Proof using Hf. unfold task_error_new, bind. rewrite choose_aside. by destruct (choose h) as [[b h1]|]. Qed.

Lemma find_aside fp l h : find_task fp l (f h) = lift f (find_task fp l h).
Proof. unfold find_task. by destruct (find_task_by_fingerprint fp l). Qed.

Lemma new_cap_aside h : capture_task_new (f h) = lift f (capture_task_new h).
Proof using Hf.
  unfold capture_task_new, bind. rewrite choose_aside. destruct (choose h) as [[b h1]|]; [|done]. cbn [lift].
  destruct b; [|done]. rewrite (as_caps f Hf), (as_set_caps f Hf). done.
Qed.

Lemma destroy_aside c h : capture_task_destroy c (f h) = lift f (capture_task_destroy c h).
Proof using Hf. unfold capture_task_destroy. rewrite (as_caps f Hf). case_bool_decide; [apply (as_set_caps f Hf)|done]. Qed.

End aside.

(** Adding to, and taking from, a list that is set aside. *)
Lemma push_with_list a l t h : push_task a t (with_list a l h) = Some (tt, with_list a (l ++ [t]) h).
Proof.
  unfold push_task, bind, load_list. cbn [lists with_list]. rewrite lookup_insert_eq. unfold set_lists, with_list. cbn.
  by rewrite insert_insert_eq.
Qed.
Lemma take_with_list a t l h : take_task a (with_list a (t :: l) h) = Some (tt, with_list a l h).
Proof.
  unfold take_task, bind, load_list. cbn [lists with_list]. rewrite lookup_insert_eq. unfold set_lists, with_list. cbn.
  by rewrite insert_insert_eq.
Qed.
Lemma load_with_list a l h : load_list a (with_list a l h) = Some (l, with_list a l h).
Proof. unfold load_list. cbn [lists with_list]. by rewrite lookup_insert_eq. Qed.
Lemma push_with_errs a l t h : push_error a t (with_errs a l h) = Some (tt, with_errs a (l ++ [t]) h).
Proof.
  unfold push_error, bind, load_errs. cbn [errs with_errs]. rewrite lookup_insert_eq. unfold set_errs, with_errs. cbn.
  by rewrite insert_insert_eq.
Qed.
Lemma take_with_errs a t l h : take_error a (with_errs a (t :: l) h) = Some (tt, with_errs a l h).
Proof.
  unfold take_error, bind, load_errs. cbn [errs with_errs]. rewrite lookup_insert_eq. unfold set_errs, with_errs. cbn.
  by rewrite insert_insert_eq.
Qed.

Lemma with_list_id a l h : lists h !! a = Some l -> with_list a l h = h.
Proof. intros H. unfold with_list. rewrite insert_id by done. by destruct h. Qed.
Lemma with_errs_id a l h : errs h !! a = Some l -> with_errs a l h = h.
Proof. intros H. unfold with_errs. rewrite insert_id by done. by destruct h. Qed.

Definition without_list (a : addr) (h : heap) : heap := Heap (delete a (lists h)) (caps h) (errs h) (cfgs h) (oracle h).
Definition without_errs (a : addr) (h : heap) : heap := Heap (lists h) (caps h) (delete a (errs h)) (cfgs h) (oracle h).

Lemma free_with_list a h : free_list a (with_list a [] h) = Some (tt, without_list a h).
Proof. unfold free_list, bind. rewrite load_with_list. unfold set_lists, without_list. cbn. by rewrite delete_insert_eq. Qed.
Lemma free_with_errs a h : free_errors a (with_errs a [] h) = Some (tt, without_errs a h).
Proof.
  unfold free_errors, bind, load_errs. cbn [errs with_errs]. rewrite lookup_insert_eq. unfold set_errs, without_errs. cbn.
  by rewrite delete_insert_eq.
Qed.

Lemma take_all_with_list a l h : take_tasks (length l) a (with_list a l h) = Some (tt, with_list a [] h).
Proof. revert h. induction l as [|t l IH]; intros h; [done|]. cbn [length take_tasks]. unfold bind. by rewrite take_with_list, IH. Qed.
Lemma take_all_with_errs a l h : take_errors (length l) a (with_errs a l h) = Some (tt, with_errs a [] h).
Proof. revert h. induction l as [|t l IH]; intros h; [done|]. cbn [length take_errors]. unfold bind. by rewrite take_with_errs, IH. Qed.

(** The loops that free lists free all of them. *)
Lemma free_wrappers_with a l h : free_task_list_wrappers a (with_list a l h) = Some (tt, without_list a h).
Proof. unfold free_task_list_wrappers, bind. by rewrite load_with_list, take_all_with_list, free_with_list. Qed.
Lemma destroy_errors_with a l h : destroy_task_error_list a (with_errs a l h) = Some (tt, without_errs a h).
Proof.
  unfold destroy_task_error_list, bind at 1, load_errs at 1. cbn [errs with_errs]. rewrite lookup_insert_eq.
  unfold bind. by rewrite take_all_with_errs, free_with_errs.
Qed.

Lemma wrappers_drop a h : free_task_list_wrappers a h = drop_list a h.
Proof.
  unfold drop_list, bind, load_list. destruct (lists h !! a) as [l|] eqn:E.
  - rewrite <- (with_list_id a l h E) at 1. by rewrite free_wrappers_with.
  - unfold free_task_list_wrappers, bind, load_list. by rewrite E.
Qed.

Lemma without_with_list a l h : lists h !! a = None -> without_list a (with_list a l h) = h.
Proof. intros H. unfold without_list, with_list. cbn. rewrite delete_insert_id by done. by destruct h. Qed.
Lemma without_list_id a h : lists h !! a = None -> without_list a h = h.
Proof. intros H. unfold without_list. rewrite delete_id by done. by destruct h. Qed.
Lemma without_errs_id a h : errs h !! a = None -> without_errs a h = h.
Proof. intros H. unfold without_errs. rewrite delete_id by done. by destruct h. Qed.

(** *** The loops *)

(** Unfold the next call, which is set aside by [f]. *)
Ltac aside_step L := unfold bind at 1; rewrite L; unfold bind at 1.

Lemma collect_loop_eq fps current t : forall acc h,
  match collect_values fps current acc h with
  | Some (Some l, h') => collect_loop fps current t (with_list t acc h) = Some (true, with_list t l h')
  | Some (None, h') => exists l, collect_loop fps current t (with_list t acc h) = Some (false, with_list t l h')
  | None => collect_loop fps current t (with_list t acc h) = None
  end.
Proof.
  induction fps as [|fp fps IH]; intros acc h; cbn [collect_values collect_loop]; [done|].
  unfold bind. rewrite (find_aside (with_list t acc)). destruct (find_task fp current h) as [[[x|] h1]|]; cbn [lift]; [|apply IH|done].
  rewrite (wrapper_aside _ (aside_list t acc)). destruct (task_wrapper_new _ _ _ h1) as [[[s|] h2]|]; cbn [lift]; [|by exists acc|done].
  rewrite push_with_list. apply IH.
Qed.

Lemma build_loop_eq fps current t e : forall i acc errors h,
  match build_values i fps current acc errors h with
  | Some ((l, Some es), h') =>
      build_loop i fps current t e (with_list t acc (with_errs e errors h)) = Some (true, with_list t l (with_errs e es h'))
  | Some ((l, None), h') => exists es,
      build_loop i fps current t e (with_list t acc (with_errs e errors h)) = Some (false, with_list t l (with_errs e es h'))
  | None => build_loop i fps current t e (with_list t acc (with_errs e errors h)) = None
  end.
Proof.
  induction fps as [|fp fps IH]; intros i acc errors h; cbn [build_values build_loop]; [done|].
  pose proof (aside_both t acc e errors) as Ha.
  unfold bind. rewrite (find_aside (fun h => with_list t acc (with_errs e errors h))).
  destruct (find_task fp current h) as [[[x|] h1]|]; cbn [lift]; [| |done].
  - rewrite (wrapper_aside _ Ha). destruct (task_wrapper_new _ _ _ h1) as [[[s|] h2]|]; cbn [lift]; [|by exists errors|done].
    rewrite push_with_list. apply IH.
  - rewrite (new_cap_aside _ Ha). destruct (capture_task_new h1) as [[[cap|] h2]|]; cbn [lift]; [| |done].
    + rewrite (wrapper_aside _ Ha). destruct (task_wrapper_new _ _ _ h2) as [[[s|] h3]|]; cbn [lift]; [| |done].
      * rewrite push_with_list. apply IH.
      * rewrite (destroy_aside _ Ha). destruct (capture_task_destroy cap h3) as [[u h4]|]; cbn [lift]; [by exists errors|done].
    + rewrite (error_new_aside _ Ha). destruct (task_error_new i fp h2) as [[[x|] h3]|]; cbn [lift]; [|by exists errors|done].
      change (with_list t acc (with_errs e errors h3)) with (with_errs e errors (with_list t acc h3)).
      rewrite push_with_errs. apply (IH (i + 1) acc (errors ++ [x]) h3).
Qed.

Lemma build_undo_eq current t e es : forall acc h,
  build_undo (length acc) t current (with_list t acc (with_errs e es h)) =
  lift (fun h => with_list t [] (with_errs e es h)) (undo_values acc current h).
Proof.
  induction acc as [|x acc IH]; intros h; cbn [length build_undo undo_values]; [done|].
  pose proof (aside_both t (x :: acc) e es) as Ha. unfold bind. rewrite load_with_list.
  rewrite (find_aside (fun h => with_list t (x :: acc) (with_errs e es h))).
  destruct (find_task (fingerprint x) current h) as [[[y|] h1]|]; cbn [lift ret]; [| |done].
  - rewrite take_with_list. apply IH.
  - rewrite (destroy_aside _ Ha). destruct (capture_task_destroy (task x) h1) as [[u h2]|]; cbn [lift]; [|done].
    rewrite take_with_list. apply IH.
Qed.

Lemma reclaim_loop_eq new a : forall old h,
  reclaim_loop (length old) a new (with_list a old h) = lift (with_list a []) (reclaim_values old new h).
Proof.
  induction old as [|x old IH]; intros h; cbn [length reclaim_loop reclaim_values]; [done|].
  pose proof (aside_list a (x :: old)) as Ha. unfold bind. rewrite load_with_list.
  assert (Hfind : (match fingerprint x with None => ret None | Some _ => find_task (fingerprint x) new end) (with_list a (x :: old) h) =
    lift (with_list a (x :: old)) ((match fingerprint x with None => ret None | Some _ => find_task (fingerprint x) new end) h))
    by (destruct (fingerprint x); [apply find_aside|done]).
  rewrite Hfind. destruct ((match fingerprint x with None => ret None | Some _ => _ end) h) as [[[y|] h1]|]; cbn [lift ret]; [| |done].
  - rewrite take_with_list. apply IH.
  - rewrite (destroy_aside _ Ha). destruct (capture_task_destroy (task x) h1) as [[u h2]|]; cbn [lift]; [|done].
    rewrite take_with_list. apply IH.
Qed.

(** *** The helpers *)

Lemma fresh_list_none (h : heap) : lists h !! fresh (dom (lists h)) = None.
Proof. apply not_elem_of_dom, is_fresh. Qed.
Lemma fresh_errs_none (h : heap) : errs h !! fresh (dom (errs h)) = None.
Proof. apply not_elem_of_dom, is_fresh. Qed.

Lemma new_list_eq l h : new_list l h = Some (fresh (dom (lists h)), with_list (fresh (dom (lists h))) l h).
Proof. done. Qed.
Lemma new_errs_eq l h : new_errs l h = Some (fresh (dom (errs h)), with_errs (fresh (dom (errs h))) l h).
Proof. done. Qed.

Lemma load_other a b l l' h : lists h !! b = Some l' -> a <> b -> load_list b (with_list a l h) = Some (l', with_list a l h).
Proof. intros H Hne. unfold load_list. cbn [lists with_list]. by rewrite lookup_insert_ne, H. Qed.

Lemma bind_eq {A B} (m : M A) (k : A -> M B) h :
  bind m k h = match m h with Some (x, h') => k x h' | None => None end.
Proof. done. Qed.

Lemma collect_surviving_eq n full l h :
  lists h !! full = Some l -> collect_surviving_tasks n full h = collect_as_values n full h.
Proof.
  intros Hl. unfold collect_surviving_tasks, collect_as_values. rewrite !bind_eq. destruct (choose h) as [[b h1]|] eqn:Ec; [|done].
  apply choose_lists in Ec as (S1 & _ & _). destruct b; [|done]. unfold bind at 1. rewrite new_list_eq.
  set (t := fresh (dom (lists h1))). pose proof (fresh_list_none h1) as Ht. fold t in Ht.
  assert (lists h1 !! full = Some l) as Hl1 by (by rewrite S1). assert (t <> full) as Hne by congruence.
  unfold bind, load_cfg. cbn [cfgs with_list]. destruct (cfgs h1 !! n) as [c|]; [|done].
  rewrite (load_other t full [] l h1 Hl1 Hne). unfold load_list. rewrite Hl1.
  pose proof (collect_loop_eq (task_fingerprints c) l t [] h1) as Hloop.
  destruct (collect_values (task_fingerprints c) l [] h1) as [[[ls|] h2]|] eqn:Ev.
  - rewrite Hloop. apply collect_lists in Ev as (T1 & _ & _). rewrite new_list_eq. rewrite T1. done.
  - destruct Hloop as [ls ->]. rewrite free_wrappers_with, without_list_id; [done|].
    apply collect_lists in Ev as (T1 & _ & _). by rewrite T1.
  - by rewrite Hloop.
Qed.

Lemma build_full_eq n full l h :
  lists h !! full = Some l -> build_full_task_set n full h = build_as_values n full h.
Proof.
  intros Hl. unfold build_full_task_set, build_as_values. rewrite !bind_eq. destruct (choose h) as [[b h1]|] eqn:Ec; [|done].
  apply choose_lists in Ec as (S1 & _ & _). destruct b; [|done]. unfold bind at 1. rewrite new_list_eq.
  set (t := fresh (dom (lists h1))). pose proof (fresh_list_none h1) as Ht. fold t in Ht.
  assert (lists h1 !! full = Some l) as Hl1 by (by rewrite S1). assert (t <> full) as Hne by congruence.
  rewrite !bind_eq, (choose_aside _ (aside_list t [])).
  destruct (choose h1) as [[b h2]|] eqn:Ec2; [|done]. cbn [lift]. apply choose_lists in Ec2 as (S2 & S2e & _).
  assert (lists h2 !! t = None) as Ht2 by (by rewrite S2).
  destruct b; [|unfold bind; rewrite free_with_list, without_list_id; done].
  unfold bind at 1. rewrite new_errs_eq. cbn [errs with_list]. set (e := fresh (dom (errs h2))).
  pose proof (fresh_errs_none h2) as He. fold e in He.
  change (with_errs e [] (with_list t [] h2)) with (with_list t [] (with_errs e [] h2)).
  assert (lists h2 !! full = Some l) as Hl2 by (by rewrite S2).
  unfold bind, load_cfg. cbn [cfgs with_list with_errs]. destruct (cfgs h2 !! n) as [c|]; [|done].
  rewrite (load_other t full [] l (with_errs e [] h2) Hl2 Hne). unfold load_list at 2. rewrite Hl2.
  pose proof (build_loop_eq (task_fingerprints c) l t e 0 [] [] h2) as Hloop.
  destruct (build_values 0 (task_fingerprints c) l [] [] h2) as [[[ls [es|]] h3]|] eqn:Ev.
  - rewrite Hloop. apply build_lists in Ev as (T1 & T2 & _). rewrite new_list_eq, new_errs_eq. cbn [errs with_list].
    assert (fresh (dom (lists h3)) = t) as -> by (unfold t; by rewrite T1, S2).
    assert (fresh (dom (errs h3)) = e) as -> by (unfold e; by rewrite T2). done.
  - destruct Hloop as [es ->]. rewrite load_with_list, build_undo_eq. apply build_lists in Ev as (T1 & T2 & _).
    destruct (undo_values ls l h3) as [[u h4]|] eqn:Eu; [|done]. cbn [lift]. apply undo_lists in Eu as (U1 & U2 & _).
    rewrite free_with_list. change (without_list t (with_errs e es h4)) with (with_errs e es (without_list t h4)).
    rewrite destroy_errors_with. rewrite without_list_id by (by rewrite U1, T1, S2). rewrite without_errs_id by (by rewrite U2, T2). done.
  - by rewrite Hloop.
Qed.

Lemma reclaim_old_eq c e old new l ln h :
  lists h !! old = Some l -> lists h !! new = Some ln ->
  reclaim_old_resources c e old new h =
  (reclaim_values l ln;; drop_list old;; destroy_task_error_list e;; free_config c) h.
Proof.
  intros Hl Hn. unfold reclaim_old_resources, bind, load_list. rewrite Hl, Hn.
  rewrite <- (with_list_id old l h Hl) at 1. rewrite reclaim_loop_eq.
  destruct (reclaim_values l ln h) as [[u h1]|] eqn:Er; [|done]. cbn [lift]. rewrite free_with_list.
  apply reclaim_lists in Er as (R1 & _ & _). unfold drop_list, bind, load_list. rewrite R1, Hl. done.
Qed.

(** ** The helpers on a sound heap *)

(** Tasks with distinct fingerprints (where they have one) and distinct
    capture tasks. *)
Definition good (l : list task_t) : Prop := NoDup (fps l) /\ NoDup (task <$> l).

(** [new] is a task set built next to [l]: every task has a fingerprint, one
    that [l] has keeps its capture task, any other has its own. *)
Definition built_from (l new : list task_t) : Prop :=
  good new /\
  forall t, t ∈ new ->
    (exists f, fingerprint t = Some f) /\
    (forall u, u ∈ l -> fingerprint u = fingerprint t -> task u = task t) /\
    ((exists u, u ∈ l /\ fingerprint u = fingerprint t) \/ task t ∉ caps_of l).

(** A heap that differs from [h] in the environment's answers only. *)
Definition same_mem (h h' : heap) : Prop :=
  lists h' = lists h /\ caps h' = caps h /\ errs h' = errs h /\ cfgs h' = cfgs h.

(** A heap that differs from [h] in the live capture tasks, now [cs]. *)
Definition caps_only (h h' : heap) (cs : gset addr) : Prop :=
  lists h' = lists h /\ caps h' = cs /\ errs h' = errs h /\ cfgs h' = cfgs h.

Lemma same_mem_trans h1 h2 h3 : same_mem h1 h2 -> same_mem h2 h3 -> same_mem h1 h3.
Proof. unfold same_mem. intuition congruence. Qed.

Lemma caps_only_trans h1 h2 h3 c2 c3 : caps_only h1 h2 c2 -> caps_only h2 h3 c3 -> caps_only h1 h3 c3.
Proof. unfold caps_only. intuition congruence. Qed.

Lemma elem_of_caps_of c l : c ∈ caps_of l <-> exists t, t ∈ l /\ task t = c.
Proof. unfold caps_of. rewrite elem_of_list_to_set, list_elem_of_fmap. naive_solver. Qed.

Lemma caps_of_cons t l : caps_of (t :: l) = {[task t]} ∪ caps_of l.
Proof. done. Qed.

Lemma caps_of_app l l' : caps_of (l ++ l') = caps_of l ∪ caps_of l'.
Proof. unfold caps_of. by rewrite fmap_app, list_to_set_app_L. Qed.

Lemma elem_of_fps f l : f ∈ fps l <-> exists t, t ∈ l /\ fingerprint t = Some f.
Proof. unfold fps. by rewrite list_elem_of_omap. Qed.

(** Equal capture tasks are the same task. *)
Lemma good_task_inj l t u : good l -> t ∈ l -> u ∈ l -> task t = task u -> t = u.
Proof.
  intros [_ Hn] Ht Hu E. apply list_elem_of_lookup in Ht as [i Hi]. apply list_elem_of_lookup in Hu as [j Hj].
  assert (i = j) as ->.
  { eapply (NoDup_lookup _ i j (task t) Hn); rewrite list_lookup_fmap.
    - by rewrite Hi.
    - by rewrite Hj, E. }
  congruence.
Qed.

(** Equal fingerprints are the same task. *)
Lemma NoDup_omap_inj l t u f :
  NoDup (fps l) -> t ∈ l -> u ∈ l -> fingerprint t = Some f -> fingerprint u = Some f -> t = u.
Proof.
  intros Hn. induction l as [|x l IH]; [by intros ?%not_elem_of_nil|].
  unfold fps in *. cbn in Hn. intros Ht Hu Et Eu.
  assert (forall y, y ∈ l -> fingerprint y = Some f -> f ∈ omap fingerprint l) as Hin
    by (intros y Hy Ey; apply list_elem_of_omap; by exists y).
  apply elem_of_cons in Ht as [->|Ht]; apply elem_of_cons in Hu as [->|Hu]; [done| | |].
  - rewrite Et in Hn. apply NoDup_cons in Hn as [Hn _]. by destruct Hn; eapply Hin.
  - rewrite Eu in Hn. apply NoDup_cons in Hn as [Hn _]. by destruct Hn; eapply Hin.
  - destruct (fingerprint x); [apply NoDup_cons in Hn as [_ Hn]|]; by apply IH.
Qed.

Lemma choose_spec h : exists b h', choose h = Some (b, h') /\ same_mem h h'.
Proof. unfold choose. destruct (oracle h) as [|b o]; eexists _, _; split; done. Qed.

(** Run the next choice of a computation. *)
Ltac choice h b h' Hs :=
  let E := fresh in
  destruct (choose_spec h) as (b & h' & E & Hs); unfold bind at 1; rewrite E; clear E.

Lemma wrapper_spec i fp c h :
  exists r h', task_wrapper_new i fp c h = Some (r, h') /\ same_mem h h' /\ (r = None \/ r = Some (Task i fp c)).
Proof.
  unfold task_wrapper_new. choice h b h' Hs. eexists _, h'. split; [done|]. split; [done|].
  destruct b; auto.
Qed.

Lemma error_new_spec i fp h : exists r h', task_error_new i fp h = Some (r, h') /\ same_mem h h'.
Proof. unfold task_error_new. choice h b h' Hs. eexists _, h'. by split. Qed.

Lemma find_some g l :
  exists r, find_task_by_fingerprint (Some g) l = Some r /\
    match r with
    | Some e => e ∈ l /\ fingerprint e = Some g
    | None => forall e, e ∈ l -> fingerprint e <> Some g
    end.
Proof.
  induction l as [|t l (r & E & Hr)]; [exists None; split; [done|by intros e ?%not_elem_of_nil]|]. cbn.
  destruct (fingerprint t) as [f|] eqn:Ef; [destruct (String.eqb_spec f g) as [->|Hne]|].
  - exists (Some t). repeat split; [constructor|done].
  - exists r. split; [done|]. destruct r as [e|]; [destruct Hr; split; [by constructor|done]|].
    intros e [->|He]%elem_of_cons; [congruence|by apply Hr].
  - exists r. split; [done|]. destruct r as [e|]; [destruct Hr; split; [by constructor|done]|].
    intros e [->|He]%elem_of_cons; [congruence|by apply Hr].
Qed.

(** Run the next search of a computation. *)
Ltac search g l r Hr :=
  let E := fresh in
  destruct (find_some g l) as (r & E & Hr); unfold bind at 1, find_task at 1; rewrite E; clear E.

Lemma collect_loop_spec fs current acc h :
  exists r h', collect_values (Some <$> fs) current acc h = Some (r, h') /\ same_mem h h' /\
    (forall l, r = Some l -> caps_of l ⊆ caps_of acc ∪ caps_of current).
Proof.
  revert acc h. induction fs as [|f fs IH]; intros acc h.
  { exists (Some acc), h. repeat split. intros l [= <-]. set_solver. }
  cbn [fmap list_fmap collect_values]. search f current r Hr. destruct r as [e|]; [|by apply IH].
  destruct (wrapper_spec (index e) (fingerprint e) (task e) h) as (w & h1 & E & Hs & Hw).
  unfold bind at 1. rewrite E. destruct Hw as [->| ->]; [by exists None, h1|].
  destruct (IH (acc ++ [Task (index e) (fingerprint e) (task e)]) h1) as (r & h2 & E2 & Hs2 & Hl).
  exists r, h2. split; [exact E2|]. split; [by eapply same_mem_trans|]. intros l El. specialize (Hl l El).
  rewrite caps_of_app, caps_of_cons in Hl. cbn in Hl.
  assert (task e ∈ caps_of current) by (apply elem_of_caps_of; naive_solver). set_solver.
Qed.

Lemma new_cap_spec h :
  exists r h', capture_task_new h = Some (r, h') /\
    match r with
    | None => same_mem h h'
    | Some c => (c ∉ caps h) /\ caps_only h h' ({[c]} ∪ caps h)
    end.
Proof.
  unfold capture_task_new. choice h b h1 Hs. destruct Hs as (E1 & E2 & E3 & E4). destruct b.
  - eexists _, _. split; [reflexivity|]. cbn. rewrite E2. split; [apply is_fresh|]. by repeat split.
  - eexists _, _. split; [reflexivity|]. by repeat split.
Qed.

Lemma destroy_spec c h :
  c ∈ caps h -> exists h', capture_task_destroy c h = Some (tt, h') /\ caps_only h h' (caps h ∖ {[c]}).
Proof.
  intros H. unfold capture_task_destroy. rewrite bool_decide_true by done. eexists. by repeat split.
Qed.

(** Adding a task to a set being built. *)
Lemma built_from_snoc l acc t f :
  built_from l acc -> fingerprint t = Some f -> f ∉ fps acc -> task t ∉ caps_of acc ->
  (forall u, u ∈ l -> fingerprint u = fingerprint t -> task u = task t) ->
  ((exists u, u ∈ l /\ fingerprint u = fingerprint t) \/ task t ∉ caps_of l) ->
  built_from l (acc ++ [t]).
Proof.
  intros [[Hf Hc] Hb] Et Hnf Hnc Hu Ho. split; [split|].
  - unfold fps. rewrite omap_app. cbn. rewrite Et. apply NoDup_app. split_and!; [done| |apply NoDup_singleton].
    intros x Hx ->%list_elem_of_singleton. by apply Hnf.
  - rewrite fmap_app. cbn. apply NoDup_app. split_and!; [done| |apply NoDup_singleton].
    intros x Hx ->%list_elem_of_singleton. apply Hnc. unfold caps_of. by apply elem_of_list_to_set.
  - intros t' [Ht'| ->%list_elem_of_singleton]%elem_of_app; [by apply Hb|]. split_and!; eauto.
Qed.

(** A reused task is not in the set yet. *)
Lemma reused_new l acc e f :
  good l -> built_from l acc -> e ∈ l -> fingerprint e = Some f -> f ∉ fps acc -> task e ∉ caps_of acc.
Proof.
  intros Hg [_ Hb] He Ef Hnf (t & Ht & Et)%elem_of_caps_of. destruct (Hb t Ht) as (_ & Hu & [(u & Hul & Eu)|Hno]).
  - assert (u = e) as -> by (apply (good_task_inj l); [done|done|done|]; rewrite <- Et; by apply Hu).
    apply Hnf, elem_of_fps. exists t. split; [done|congruence].
  - apply Hno, elem_of_caps_of. by exists e.
Qed.

Lemma built_from_nil l : built_from l [].
Proof. split; [split; constructor|]. by intros t ?%not_elem_of_nil. Qed.

(** The set built so far, with its capture tasks live next to the old ones. *)
Definition building (l : list task_t) (h : heap) (acc : list task_t) (h' : heap) : Prop :=
  built_from l acc /\ caps_only h h' (caps_of l ∪ caps_of acc).

Lemma build_loop_spec i fs l acc errors h0 h :
  good l -> NoDup (fps acc ++ fs) -> building l h0 acc h ->
  exists acc' r h', build_values i (Some <$> fs) l acc errors h = Some ((acc', r), h') /\ building l h0 acc' h'.
Proof.
  intros Hg. revert i acc errors h. induction fs as [|f fs IH]; intros i acc errors h Hn [Hb Hh].
  { exists acc, (Some errors), h. split; [done|]. by split. }
  apply NoDup_app in Hn as (Hn1 & Hn2 & [Hn3 Hn4]%NoDup_cons).
  assert (f ∉ fps acc) as Hf by (intros H; apply (Hn2 f H); constructor).
  assert (forall t, fingerprint t = Some f -> NoDup (fps (acc ++ [t]) ++ fs)) as Hnext.
  { intros t Et. unfold fps. rewrite omap_app. cbn. rewrite Et, <- app_assoc. apply NoDup_app.
    split_and!; [done|intros x Hx; specialize (Hn2 x Hx); done|by constructor]. }
  cbn [fmap list_fmap build_values]. search f l r Hr. destruct r as [e|].
  - destruct Hr as [He Ef]. destruct (wrapper_spec i (Some f) (task e) h) as (w & h1 & E & Hs & Hw).
    unfold bind at 1. rewrite E. assert (building l h0 acc h1) as Hb1.
    { split; [done|]. unfold same_mem, caps_only in *. intuition congruence. }
    destruct Hw as [->| ->]; [by exists acc, None, h1|].
    apply IH; [by apply Hnext|]. split.
    + apply (built_from_snoc l acc _ f); [done|done|done|by apply (reused_new l acc e f)| |left; by exists e]. cbn. intros u Hu Eu.
      f_equal. apply (NoDup_omap_inj l u e f); [apply Hg|done|done|congruence|done].
    + destruct Hb1 as [_ Hc]. unfold caps_only in *. rewrite caps_of_app, caps_of_cons. cbn.
      assert (task e ∈ caps_of l) by (apply elem_of_caps_of; by exists e).
      destruct Hc as (? & -> & ? & ?). split_and!; [done| |done|done]. set_solver.
  - destruct (new_cap_spec h) as (r & h1 & E & Hc). unfold bind at 1. rewrite E.
    destruct Hh as (L1 & L2 & L3 & L4). destruct r as [c|].
    + destruct Hc as [Hfresh (C1 & C2 & C3 & C4)]. rewrite L2 in Hfresh, C2.
      destruct (wrapper_spec i (Some f) c h1) as (w & h2 & E2 & (S1 & S2 & S3 & S4) & Hw).
      unfold bind at 1. rewrite E2. destruct Hw as [->| ->].
      * destruct (destroy_spec c h2) as (h3 & E3 & D1 & D2 & D3 & D4); [rewrite S2, C2; set_solver|].
        unfold bind at 1. rewrite E3. exists acc, None, h3. split; [done|]. split; [done|].
        unfold caps_only. rewrite D1, D2, D3, D4, S1, S2, S3, S4, C1, C2, C3, C4. split_and!; [done| |done|done].
        set_solver.
      * apply IH; [by apply Hnext|]. split.
        { apply (built_from_snoc l acc _ f); [done|done|done|cbn; set_solver| |right; cbn; set_solver].
          cbn. intros u Hu Eu. by destruct (Hr u Hu). }
        unfold caps_only. rewrite S1, S2, S3, S4, C1, C2, C3, C4, caps_of_app, caps_of_cons. cbn.
        split_and!; [done| |done|done]. set_solver.
    + destruct Hc as (C1 & C2 & C3 & C4).
      destruct (error_new_spec i (Some f) h1) as (w & h2 & E2 & (S1 & S2 & S3 & S4)).
      unfold bind at 1. rewrite E2. assert (building l h0 acc h2) as Hb2.
      { split; [done|]. unfold caps_only. rewrite S1, S2, S3, S4, C1, C2, C3, C4. done. }
      destruct w as [w|]; [|by exists acc, None, h2]. apply IH; [|done].
      apply NoDup_app. split_and!; [done| |done]. intros x Hx Hx'. apply (Hn2 x Hx). by constructor.
Qed.

Lemma built_from_tail l t new : built_from l (t :: new) -> built_from l new /\ task t ∉ caps_of new.
Proof.
  intros [[Hf Hc] Hb]. cbn in Hc. apply NoDup_cons in Hc as [Hn Hc]. split.
  - split; [split; [|done]|intros u Hu; apply Hb; by constructor].
    unfold fps in *. cbn in Hf. destruct (fingerprint t); [by apply NoDup_cons in Hf as [_ Hf]|done].
  - unfold caps_of. by rewrite elem_of_list_to_set.
Qed.

(** The error exit leaves exactly the old capture tasks. *)
Lemma build_undo_spec l acc h0 h :
  building l h0 acc h -> exists h', undo_values acc l h = Some (tt, h') /\ caps_only h0 h' (caps_of l).
Proof.
  revert h. induction acc as [|t acc IH]; intros h [Hb Hh].
  { exists h. split; [done|]. unfold caps_only in *. cbn in Hh. by rewrite union_empty_r_L in Hh. }
  destruct (built_from_tail _ _ _ Hb) as [Hb' Hnt]. destruct Hb as [_ Hb].
  destruct (Hb t) as ((f & Ef) & Hu & Ho); [by constructor|].
  cbn [undo_values]. rewrite Ef. search f l r Hr. destruct Hh as (L1 & L2 & L3 & L4). rewrite caps_of_cons in L2.
  destruct r as [e|].
  - unfold bind at 1, ret at 1. apply IH. split; [done|]. split_and!; [done| |done|done].
    assert (task t ∈ caps_of l).
    { apply elem_of_caps_of. exists e. destruct Hr as [He Ee]. split; [done|]. apply Hu; congruence. }
    set_solver.
  - assert (task t ∉ caps_of l) as Hno by (destruct Ho as [(u & Hu1 & Hu2)|]; [by destruct (Hr u Hu1); congruence|done]).
    destruct (destroy_spec (task t) h) as (h1 & E & D1 & D2 & D3 & D4); [rewrite L2; set_solver|].
    unfold bind at 1. rewrite E. apply IH. split; [done|]. unfold caps_only.
    rewrite D1, D2, D3, D4, L1, L2, L3, L4. split_and!; [done| |done|done]. set_solver.
Qed.

(** An old task the new set does not have shares its capture task with none
    of the new ones. *)
Lemma gone_not_new l new u :
  good l -> built_from l new -> u ∈ l ->
  (forall t, t ∈ new -> fingerprint t <> fingerprint u) -> task u ∉ caps_of new.
Proof.
  intros Hg [_ Hb] Hu Hno (t & Ht & Et)%elem_of_caps_of. destruct (Hb t Ht) as (_ & Hs & [(u' & Hu' & Eu')|Hc]).
  - assert (u' = u) as -> by (apply (good_task_inj l); [done|done|done|]; rewrite <- Et; by apply Hs).
    by apply (Hno t Ht).
  - apply Hc, elem_of_caps_of. by exists u.
Qed.

(** Reclaiming leaves exactly the capture tasks of the new set. *)
Lemma reclaim_loop_spec l new old h0 h :
  good l -> built_from l new -> (forall u, u ∈ old -> u ∈ l) -> NoDup (task <$> old) ->
  caps_only h0 h (caps_of new ∪ caps_of old) ->
  exists h', reclaim_values old new h = Some (tt, h') /\ caps_only h0 h' (caps_of new).
Proof.
  intros Hg Hb. revert h. induction old as [|u old IH]; intros h Hin Hn Hh.
  { exists h. split; [done|]. unfold caps_only in *. cbn in Hh. by rewrite union_empty_r_L in Hh. }
  cbn in Hn. apply NoDup_cons in Hn as [Hnu Hn].
  assert (task u ∉ caps_of old) as Hnu' by (unfold caps_of; by rewrite elem_of_list_to_set).
  assert (u ∈ l) as Hul by (apply Hin; constructor).
  assert (forall v, v ∈ old -> v ∈ l) as Hin' by (intros; apply Hin; by constructor).
  destruct Hh as (L1 & L2 & L3 & L4). rewrite caps_of_cons in L2.
  assert (task u ∉ caps_of new -> exists h', bind (capture_task_destroy (task u)) (fun _ => reclaim_values old new) h
      = Some (tt, h') /\ caps_only h0 h' (caps_of new)) as Hdestroy.
  { intros Hno. destruct (destroy_spec (task u) h) as (h1 & E & D1 & D2 & D3 & D4); [rewrite L2; set_solver|].
    unfold bind at 1. rewrite E. apply IH; [done|done|]. unfold caps_only.
    rewrite D1, D2, D3, D4, L1, L2, L3, L4. split_and!; [done| |done|done]. set_solver. }
  cbn [reclaim_values]. destruct (fingerprint u) as [f|] eqn:Ef.
  - search f new r Hr. destruct r as [t|].
    + unfold bind at 1, ret at 1. apply IH; [done|done|]. split_and!; [done| |done|done].
      assert (task u ∈ caps_of new).
      { destruct Hr as [Ht Et]. apply elem_of_caps_of. exists t. split; [done|].
        destruct Hb as [_ Hb]. destruct (Hb t Ht) as (_ & Hs & _). symmetry. apply Hs; congruence. }
      set_solver.
    + apply Hdestroy, (gone_not_new l); [done|done|done|]. intros t Ht. rewrite Ef. by apply Hr.
  - unfold bind at 1, ret at 1. apply Hdestroy, (gone_not_new l); [done|done|done|].
    intros t Ht. destruct Hb as [_ Hb]. destruct (Hb t Ht) as ((f & Et) & _). congruence.
Qed.

(** ** The stages of a reload *)

(** Nothing but the manager's objects is allocated. *)
Definition settled_heap (m : task_manager_t) (h : heap) : Prop :=
  exists l, good l /\ lists h = {[tasks m := l]} /\ caps h = caps_of l /\
    dom (errs h) = {[errors m]} /\ dom (cfgs h) = {[config m]}.

(** A configuration the reload thread accepted. *)
Definition accepted (c : Config) : Prop := exists fs, task_fingerprints c = Some <$> fs /\ NoDup fs.

(** Two lists: the full one [full] (content [l]) and the survivors [sub]. *)
Definition two_lists (h : heap) (full sub : addr) (l : list task_t) : Prop :=
  exists ls, full <> sub /\ lists h = {[full := l; sub := ls]} /\ caps_of ls ⊆ caps_of l.

(** Survivors [sub] taken from [full], a new configuration [n] accepted. *)
Definition planned (m : task_manager_t) (full sub n : addr) (h : heap) : Prop :=
  exists l c, good l /\ two_lists h full sub l /\ caps h = caps_of l /\ dom (errs h) = {[errors m]} /\
    dom (cfgs h) = {[config m; n]} /\ n <> config m /\ cfgs h !! n = Some c /\ accepted c.

(** The new set [new] built next to [full]. *)
Definition built (m : task_manager_t) (full sub n new e : addr) (h : heap) : Prop :=
  exists l ls lt, good l /\ full <> sub /\ full <> new /\ sub <> new /\
    lists h = {[full := l; sub := ls; new := lt]} /\ caps_of ls ⊆ caps_of l /\ built_from l lt /\
    caps h = caps_of l ∪ caps_of lt /\ dom (errs h) = {[errors m; e]} /\ e <> errors m /\
    dom (cfgs h) = {[config m; n]} /\ n <> config m.

(** The build failed: only the survivors are left to free. *)
Definition build_failed (m : task_manager_t) (full sub : addr) (h : heap) : Prop :=
  exists l, good l /\ two_lists h full sub l /\ caps h = caps_of l /\ dom (errs h) = {[errors m]} /\
    dom (cfgs h) = {[config m]}.

(** The new set is live; the old objects are to be freed. *)
Definition reclaiming (m : task_manager_t) (full c e : addr) (h : heap) : Prop :=
  exists l lt, good l /\ full <> tasks m /\ lists h = {[full := l; tasks m := lt]} /\ built_from l lt /\
    caps h = caps_of l ∪ caps_of lt /\ dom (errs h) = {[errors m; e]} /\ e <> errors m /\
    dom (cfgs h) = {[config m; c]} /\ c <> config m.

Lemma accepted_valid c :
  validate_fingerprints c = true -> unique_fingerprints c = true -> accepted c.
Proof.
  unfold validate_fingerprints, unique_fingerprints, accepted. rewrite bool_decide_eq_true.
  generalize (task_fingerprints c). intros l Hv Hn. exists (omap id l). split; [|done].
  clear Hn. induction l as [|[f|] l IH]; cbn in *; [done| |done]. f_equal. by apply IH.
Qed.

(** ** The handlers move from stage to stage *)

Definition ctx_idle : reload_runtime_ctx_t := Ctx None None None.

Lemma delete_pair {A} (a b : addr) (x y : A) : a <> b -> delete a ({[a := x; b := y]} : gmap addr A) = {[b := y]}.
Proof. intros. apply map_eq. intros i. destruct (decide (i = a)) as [->|]; by simplify_map_eq. Qed.

Lemma delete_pair_r {A} (a b : addr) (x y : A) : a <> b -> delete b ({[a := x; b := y]} : gmap addr A) = {[a := x]}.
Proof.
  intros. apply map_eq. intros i.
  destruct (decide (i = a)) as [->|]; [by simplify_map_eq|].
  destruct (decide (i = b)) as [->|]; by simplify_map_eq.
Qed.

Lemma insert_pair {A} (a b : addr) (x y : A) : a <> b -> <[b := y]> ({[a := x]} : gmap addr A) = {[a := x; b := y]}.
Proof.
  intros. apply map_eq. intros i.
  destruct (decide (i = a)) as [->|]; [by simplify_map_eq|].
  destruct (decide (i = b)) as [->|]; by simplify_map_eq.
Qed.

Lemma free_config_spec a h :
  a ∈ dom (cfgs h) ->
  exists h', free_config a h = Some (tt, h') /\ lists h' = lists h /\ caps h' = caps h /\
    errs h' = errs h /\ cfgs h' = delete a (cfgs h).
Proof.
  intros [c Hc]%elem_of_dom. unfold free_config, bind, load_cfg. rewrite Hc. eexists. by split_and!.
Qed.

Lemma free_list_spec a h :
  is_Some (lists h !! a) ->
  exists h', drop_list a h = Some (tt, h') /\ lists h' = delete a (lists h) /\ caps h' = caps h /\
    errs h' = errs h /\ cfgs h' = cfgs h.
Proof.
  intros [l Hl]. unfold drop_list, bind, load_list. rewrite Hl. eexists. by split_and!.
Qed.

Lemma free_errs_spec a h :
  a ∈ dom (errs h) ->
  exists h', destroy_task_error_list a h = Some (tt, h') /\ lists h' = lists h /\ caps h' = caps h /\
    errs h' = delete a (errs h) /\ cfgs h' = cfgs h.
Proof.
  intros [l Hl]%elem_of_dom. pose proof (destroy_errors_with a l h) as E. rewrite (with_errs_id a l h Hl) in E.
  rewrite E. eexists. by split_and!.
Qed.

Lemma collect_spec n full l c h :
  lists h = {[full := l]} -> cfgs h !! n = Some c -> accepted c ->
  exists r h', collect_surviving_tasks n full h = Some (r, h') /\
    caps h' = caps h /\ errs h' = errs h /\ cfgs h' = cfgs h /\
    match r with
    | None => lists h' = lists h
    | Some sub => two_lists h' full sub l
    end.
Proof.
  intros Hl Hc (fs & Ef & Hn). rewrite (collect_surviving_eq n full l) by (rewrite Hl; apply lookup_singleton_eq).
  unfold collect_as_values. choice h b h1 Hs. destruct Hs as (S1 & S2 & S3 & S4).
  destruct b; [|eexists None, h1; by split_and!].
  unfold bind at 1, load_cfg at 1. rewrite S4, Hc. unfold bind at 1, load_list at 1.
  rewrite S1, Hl, lookup_singleton_eq, Ef.
  destruct (collect_loop_spec fs l [] h1) as (r & h2 & E & (T1 & T2 & T3 & T4) & Hr).
  unfold bind at 1. rewrite E. destruct r as [ls|]; [|eexists None, h2; split; [done|]; split_and!; congruence].
  eexists (Some _), _. split; [reflexivity|]. cbn. split_and!; [congruence|congruence|congruence|].
  assert (lists h2 = {[full := l]}) as El by congruence.
  pose proof (is_fresh (dom (lists h2))) as Hf. set (a := fresh (dom (lists h2))) in *.
  rewrite El, dom_singleton_L in Hf. exists ls. split; [set_solver|]. split.
  - rewrite El. apply insert_pair. set_solver.
  - specialize (Hr ls eq_refl). set_solver.
Qed.

Lemma plan_spec m h parsed :
  settled_heap m h -> (forall c, parsed = Some c -> unique_fingerprints c = true) ->
  exists x msg h', reload_do_plan ctx_idle (tasks m) parsed h = Some ((x, msg), h') /\ caps h' = caps h /\
    ((msg = RELOAD_RPT_ERROR None /\ x = ctx_idle /\ settled_heap m h') \/
     exists s n, msg = RELOAD_RPT_SURVIVORS s /\ x = Ctx (Some n) (Some (tasks m)) None /\
       planned m (tasks m) s n h').
Proof.
  intros (l & Hg & El & Ec & Ee & Eg) Hu. unfold reload_do_plan. destruct parsed as [c|].
  2:{ eexists _, _, h. split; [done|]. split; [done|]. left. split_and!; [done|done|]. by exists l. }
  specialize (Hu c eq_refl).
  pose proof (is_fresh (dom (cfgs h))) as Hfr. unfold bind at 1, new_cfg at 1. cbn beta iota zeta.
  set (n := fresh (dom (cfgs h))) in *. unfold bind at 1, set_cfgs at 1, ret at 1. rewrite Eg in Hfr.
  set (h1 := Heap (lists h) (caps h) (errs h) (<[n := c]> (cfgs h)) (oracle h)).
  assert (dom (cfgs h1) = {[config m; n]}) as Eg1 by (cbn; rewrite dom_insert_L, Eg; set_solver).
  assert (cfgs h1 !! n = Some c) as En by (cbn; by rewrite lookup_insert_eq).
  assert (forall h2, lists h2 = lists h -> caps h2 = caps h -> errs h2 = errs h -> cfgs h2 = cfgs h1 ->
    exists x msg h', bind (free_config n) (fun _ => ret (ctx_reset (Ctx None (Some (tasks m)) None),
      RELOAD_RPT_ERROR None)) h2 = Some ((x, msg), h') /\ caps h' = caps h /\
    ((msg = RELOAD_RPT_ERROR None /\ x = ctx_idle /\ settled_heap m h') \/
     exists s n, msg = RELOAD_RPT_SURVIVORS s /\ x = Ctx (Some n) (Some (tasks m)) None /\
       planned m (tasks m) s n h')) as Hfail.
  { intros h2 E1 E2 E3 E4. destruct (free_config_spec n h2) as (h3 & E & F1 & F2 & F3 & F4).
    { rewrite E4, Eg1. set_solver. }
    unfold bind. rewrite E. eexists _, _, h3. split; [done|]. split; [congruence|]. left.
    split_and!; [done|done|]. exists l. split_and!; [done|congruence|congruence|congruence|].
    rewrite F4, dom_delete_L, E4, Eg1. set_solver. }
  destruct (validate_fingerprints c) eqn:Hv; [|by apply Hfail].
  pose proof (accepted_valid c Hv Hu) as Ha.
  destruct (collect_spec n (tasks m) l c h1) as (r & h2 & E & R1 & R2 & R3 & R4); [done|done|done|].
  unfold bind at 1. rewrite E. destruct r as [s|]; [|by apply Hfail].
  eexists _, _, h2. split; [done|]. split; [done|]. right. exists s, n. split_and!; [done|done|].
  exists l, c. split_and!; [done|done|by rewrite R1|by rewrite R2|by rewrite R3| |by rewrite R3|done].
  set_solver.
Qed.

Lemma build_set_spec n full sub m h :
  planned m full sub n h ->
  exists r h', build_full_task_set n full h = Some (r, h') /\
    match r with
    | None => planned m full sub n h' /\ caps h' = caps h
    | Some (t, e) => built m full sub n t e h' /\ caps h ⊆ caps h'
    end.
Proof.
  intros (l & c & Hg & (ls & Hne & El & Hls) & Ec & Ee & Eg & Hn & En & (fs & Ef & Hfs)).
  assert (forall h', same_mem h h' -> planned m full sub n h' /\ caps h' = caps h) as Hsame.
  { intros h' (S1 & S2 & S3 & S4). split; [|done]. exists l, c. rewrite S2, S3, S4.
    split_and!; try done; [by exists ls; rewrite S1|by exists fs]. }
  rewrite (build_full_eq n full l) by (rewrite El; apply lookup_insert_eq).
  unfold build_as_values. choice h b h1 Hs. destruct b; [|eexists None, h1; split; [done|by apply Hsame]].
  choice h1 b h2 Hs2. assert (same_mem h h2) as Hs3 by (by eapply same_mem_trans).
  destruct b; [|eexists None, h2; split; [done|by apply Hsame]].
  clear Hs Hs2 h1. destruct Hs3 as (S1 & S2 & S3 & S4).
  unfold bind at 1, load_cfg at 1. rewrite S4, En. unfold bind at 1, load_list at 1.
  rewrite S1, El, lookup_insert_eq, Ef.
  destruct (build_loop_spec 0 fs l [] [] h2 h2 Hg) as (acc & r & h3 & E & Hb & (L1 & L2 & L3 & L4)).
  { done. }
  { split; [apply built_from_nil|]. split_and!; [done| |done|done]. rewrite S2, Ec. cbn. set_solver. }
  unfold bind at 1. rewrite E. destruct r as [e|].
  - eexists (Some (_, _)), _. split; [reflexivity|]. cbn.
    pose proof (is_fresh (dom (lists h3))) as Ht. pose proof (is_fresh (dom (errs h3))) as Hfe.
    set (t := fresh (dom (lists h3))) in *. set (a := fresh (dom (errs h3))) in *.
    rewrite L1, S1, El, dom_insert_L, dom_singleton_L in Ht. rewrite L3, S3, Ee in Hfe.
    split; [|rewrite L2, Ec; set_solver].
    exists l, ls, acc. unfold bind. cbn. rewrite L2, L3, L4, S3, S4, dom_insert_L.
    split; [done|]. split; [done|]. split; [set_solver|]. split; [set_solver|]. split.
    { rewrite L1, S1, El, insert_insert_ne by set_solver. f_equal. apply insert_pair. set_solver. }
    split; [done|]. split; [done|]. split; [done|]. split; [rewrite Ee; set_solver|].
    split; [set_solver|]. by split.
  - destruct (build_undo_spec l acc h2 h3) as (h4 & E4 & U1 & U2 & U3 & U4); [by split|].
    unfold bind at 1. rewrite E4. eexists None, h4. split; [done|]. apply Hsame. split_and!; congruence.
Qed.

Lemma build_spec m full sub n h :
  planned m full sub n h ->
  exists x msg h', reload_do_build (Ctx (Some n) (Some full) None) full h = Some ((x, msg), h') /\
    caps h ⊆ caps h' /\
    ((msg = RELOAD_RPT_ERROR (Some full) /\ x = ctx_idle /\ build_failed m full sub h') \/
     exists t e, msg = RELOAD_RPT_NEW_TASKS n t e /\ x = Ctx None (Some full) (Some full) /\
       built m full sub n t e h').
Proof.
  intros Hp. unfold reload_do_build. cbn [new_config current_tasks old_tasks].
  destruct (build_set_spec n full sub m h Hp) as (r & h1 & E & Hr). unfold bind at 1. rewrite E.
  destruct r as [[t e]|].
  - eexists _, _, h1. split; [done|]. destruct Hr as [Hb Hc]. split; [done|]. right. by exists t, e.
  - destruct Hr as [(l & c & Hg & Hl & Ec & Ee & Eg & Hn & En & _) Hcaps].
    destruct (free_config_spec n h1) as (h2 & E2 & F1 & F2 & F3 & F4); [rewrite Eg; set_solver|].
    unfold bind at 1. rewrite E2. eexists _, _, h2. split; [done|]. split; [rewrite F2; set_solver|].
    left. split_and!; [done|done|]. exists l. rewrite F2, F3, F4, dom_delete_L, Eg. split_and!; try done.
    + destruct Hl as (ls & ? & ? & ?). exists ls. by rewrite F1.
    + set_solver.
Qed.

Lemma commit_spec m full n new e h :
  built m full (tasks m) n new e h ->
  exists m' h', main_handle_new_tasks m (RELOAD_RPT_NEW_TASKS n new e) h =
      Some ((m', RELOAD_PHASE_AWAITING_RECLAIM, Some (RELOAD_REQ_RECLAIM (config m) (errors m) new)), h') /\
    caps h' = caps h /\ execution_model m' = execution_model m /\ tasks m' = new /\
    reclaiming m' full (config m) (errors m) h'.
Proof.
  intros (l & ls & lt & Hg & N1 & N2 & N3 & El & Hls & Hb & Ec & Ee & He & Eg & Hn).
  unfold main_handle_new_tasks.
  destruct (free_list_spec (tasks m) h) as (h1 & E & F1 & F2 & F3 & F4).
  { rewrite El. exists ls. by rewrite lookup_insert_ne, lookup_insert_eq by done. }
  unfold bind at 1. rewrite wrappers_drop, E. unfold bind at 1, load_cfg at 1. rewrite F4.
  assert (is_Some (cfgs h !! n)) as [c Hc] by (apply elem_of_dom; rewrite Eg; set_solver).
  rewrite Hc. eexists _, h1. split; [reflexivity|]. split_and!; try done.
  exists l, lt. cbn. rewrite F1, F2, F3, F4, El, Ee, Eg. split_and!; try done; [|set_solver|set_solver].
  apply map_eq. intros i. destruct (decide (i = full)) as [->|]; [by simplify_map_eq|].
  destruct (decide (i = tasks m)) as [->|]; by simplify_map_eq.
Qed.

Lemma restore_spec m full h :
  build_failed m full (tasks m) h ->
  exists m' h', main_handle_new_tasks m (RELOAD_RPT_ERROR (Some full)) h =
      Some ((m', RELOAD_PHASE_IDLE, None), h') /\
    caps h' = caps h /\ execution_model m' = execution_model m /\ settled_heap m' h'.
Proof.
  intros (l & Hg & (ls & Hne & El & Hls) & Ec & Ee & Eg).
  unfold main_handle_new_tasks, restore_full_list_on_build_failure.
  destruct (free_list_spec (tasks m) h) as (h1 & E & F1 & F2 & F3 & F4).
  { rewrite El. exists ls. by rewrite lookup_insert_ne, lookup_singleton_eq by done. }
  unfold bind at 1 2. rewrite wrappers_drop, E. eexists _, h1. split; [reflexivity|]. split_and!; try done.
  exists l. cbn. rewrite F1, F2, F3, F4, El. split_and!; try done. by apply delete_pair_r.
Qed.

Lemma reclaim_spec m full c e h :
  reclaiming m full c e h ->
  exists h' lt, reload_do_reclaim (Ctx None (Some full) (Some full)) c e (tasks m) h =
      Some ((ctx_idle, RELOAD_RPT_RECLAIMED), h') /\ settled_heap m h' /\
    lists h !! tasks m = Some lt /\ caps h' = caps_of lt.
Proof.
  intros (l & lt & Hg & Hne & El & Hb & Ec & Ee & He & Eg & Hc).
  unfold reload_do_reclaim. cbn [old_tasks].
  assert (lists h !! tasks m = Some lt) as Elt by (rewrite El; by rewrite lookup_insert_ne, lookup_singleton_eq).
  assert (lists h !! full = Some l) as Elf by (rewrite El; apply lookup_insert_eq).
  unfold bind at 1. rewrite (reclaim_old_eq c e full (tasks m) l lt h Elf Elt).
  destruct (reclaim_loop_spec l lt l h h) as (h1 & E1 & R1 & R2 & R3 & R4); [done|done|done|apply Hg| |].
  { split_and!; [done|set_solver|done|done]. }
  unfold bind at 1. rewrite E1.
  destruct (free_list_spec full h1) as (h2 & E2 & F1 & F2 & F3 & F4);
    [rewrite R1, El, lookup_insert_eq; done|].
  unfold bind at 1. rewrite E2.
  destruct (free_errs_spec e h2) as (h3 & E3 & G1 & G2 & G3 & G4); [rewrite F3, R3, Ee; set_solver|].
  unfold bind at 1. rewrite E3.
  destruct (free_config_spec c h3) as (h4 & E4 & K1 & K2 & K3 & K4); [rewrite G4, F4, R4, Eg; set_solver|].
  rewrite E4. eexists h4, lt. split; [reflexivity|]. split; [|split; [done|congruence]].
  exists lt. split; [apply Hb|]. rewrite K1, G1, F1, R1, K2, G2, F2, R2, K3, G3, F3, R3, K4, G4, F4, R4, El.
  rewrite !dom_delete_L, Ee, Eg. split_and!; [by apply delete_pair|done|set_solver|set_solver].
Qed.
