(* ===== verification/ReloadSafety.v ===== *)
(** * Reload safety (task.c)

    The invariant of the reload protocol in every interleaving of the main,
    the reload and the output thread, and what follows from it: no crash, no
    leak, and the list contract of the protocol; and the shutdown race. *)

From Stdlib Require Import Ascii String.
From stdpp Require Import prelude gmap fin_maps fin_sets sets list strings relations.
From S2P Require Import Prelude Reload.
Open Scope string_scope.
Open Scope list_scope.
Open Scope Z_scope.

(** ** The invariant *)

(** No message under way. *)
Definition at_rest (s : sys) : Prop :=
  main_mbox s = false /\ mpc s <> MGot /\ reload_mbox s = false /\ rpc s = RIdle.

(** A request in the mailbox or in the hands of the reload thread. *)
Definition requested (s : sys) : Prop :=
  main_mbox s = false /\ mpc s <> MGot /\
  ((reload_mbox s = true /\ rpc s = RIdle) \/ (reload_mbox s = false /\ rpc s <> RIdle)).

(** A report in the mailbox or in the hands of the main thread. *)
Definition reported (s : sys) : Prop :=
  reload_mbox s = false /\ rpc s = RIdle /\
  ((main_mbox s = true /\ mpc s <> MGot) \/ (main_mbox s = false /\ mpc s = MGot)).

Definition rest_stage (s : sys) : Prop :=
  phase s = RELOAD_PHASE_IDLE /\ ctx s = ctx_idle /\ settled_heap (mgr s) (hp s).

Definition request_stage (s : sys) : Prop :=
  match main_tx_msg s with
  | RELOAD_REQ_PLAN current =>
      phase s = RELOAD_PHASE_AWAITING_SURVIVORS /\ current = tasks (mgr s) /\ ctx s = ctx_idle /\
      settled_heap (mgr s) (hp s)
  | RELOAD_REQ_BUILD full =>
      phase s = RELOAD_PHASE_AWAITING_NEW_TASKS /\
      exists n, ctx s = Ctx (Some n) (Some full) None /\ planned (mgr s) full (tasks (mgr s)) n (hp s)
  | RELOAD_REQ_RECLAIM c e t =>
      phase s = RELOAD_PHASE_AWAITING_RECLAIM /\ t = tasks (mgr s) /\
      exists full, ctx s = Ctx None (Some full) (Some full) /\ reclaiming (mgr s) full c e (hp s)
  | _ => False
  end.

Definition report_stage (s : sys) : Prop :=
  match reload_tx_msg s with
  | RELOAD_RPT_SURVIVORS sub =>
      phase s = RELOAD_PHASE_AWAITING_SURVIVORS /\
      exists n, ctx s = Ctx (Some n) (Some (tasks (mgr s))) None /\ planned (mgr s) (tasks (mgr s)) sub n (hp s)
  | RELOAD_RPT_NEW_TASKS n t e =>
      phase s = RELOAD_PHASE_AWAITING_NEW_TASKS /\
      exists full, ctx s = Ctx None (Some full) (Some full) /\ built (mgr s) full (tasks (mgr s)) n t e (hp s)
  | RELOAD_RPT_RECLAIMED =>
      phase s = RELOAD_PHASE_AWAITING_RECLAIM /\ ctx s = ctx_idle /\ settled_heap (mgr s) (hp s)
  | RELOAD_RPT_ERROR None =>
      phase s = RELOAD_PHASE_AWAITING_SURVIVORS /\ ctx s = ctx_idle /\ settled_heap (mgr s) (hp s)
  | RELOAD_RPT_ERROR (Some full) =>
      phase s = RELOAD_PHASE_AWAITING_NEW_TASKS /\ ctx s = ctx_idle /\
      build_failed (mgr s) full (tasks (mgr s)) (hp s)
  | _ => False
  end.

Definition protocol (s : sys) : Prop :=
  (at_rest s /\ rest_stage s) \/ (requested s /\ request_stage s) \/ (reported s /\ report_stage s).

(** Every message in the ring or in hand is for a live capture task. *)
Definition live_ring (s : sys) : Prop :=
  Forall (fun c => c ∈ caps (hp s)) (ring s) /\
  match opc s with OHold c _ => c ∈ caps (hp s) | _ => True end.

(** A capture task of the list the main thread polls. *)
Definition current (s : sys) (c : addr) : Prop :=
  exists l, lists (hp s) !! tasks (mgr s) = Some l /\ c ∈ caps_of l.

(** No message is left for a task that is not current. *)
Definition drained (s : sys) : Prop :=
  Forall (current s) (ring s) /\
  match opc s with OLoop | OCleared => True | OHold c None => current s c | _ => False end.

Definition not_draining (pc : output_pc) : Prop :=
  match pc with OLoop | OHold _ None => True | _ => False end.

Definition reclaim_in_hand (s : sys) : Prop :=
  exists c e t, main_tx_msg s = RELOAD_REQ_RECLAIM c e t.

Definition drain_ok (s : sys) : Prop :=
  match rpc s with
  | RWait =>
      reclaim_in_hand s /\ execution_model (mgr s) = true /\
      ((drain_request s = true /\ drain_response s = false /\
        match opc s with
        | OLoop | OHold _ None => True
        | ODrain k | OHold _ (Some k) => Forall (current s) (drop k (ring s))
        | OCleared => False
        end) \/
       (drain_request s = false /\ drain_response s = false /\ opc s = OCleared /\ drained s) \/
       (drain_request s = false /\ drain_response s = true /\ not_draining (opc s) /\ drained s))
  | RDrained =>
      reclaim_in_hand s /\ drain_request s = false /\ drain_response s = false /\ not_draining (opc s) /\ drained s
  | _ => drain_request s = false /\ drain_response s = false /\ not_draining (opc s)
  end.

Definition rtc_ok (s : sys) : Prop := execution_model (mgr s) = false -> ring s = [] /\ opc s = OLoop.

Definition inv (s : sys) : Prop :=
  protocol s /\ live_ring s /\ drain_ok s /\ rtc_ok s /\ reload_thread_running s = true.

(** The list the main thread polls is allocated and its tasks are live. *)
Lemma polled_live s :
  protocol s -> exists l, lists (hp s) !! tasks (mgr s) = Some l /\ caps_of l ⊆ caps (hp s).
Proof.
  assert (settled_heap (mgr s) (hp s) -> exists l, lists (hp s) !! tasks (mgr s) = Some l /\ caps_of l ⊆ caps (hp s))
    as Hset by (intros (l & _ & -> & -> & _); exists l; by rewrite lookup_singleton_eq).
  intros [[_ (_ & _ & H)]|[[_ H]|[_ H]]]; [by apply Hset| |].
  - unfold request_stage in H. destruct (main_tx_msg s) as [cur| |full| |c e t| |]; try done.
    + apply Hset, H.
    + destruct H as (_ & n & _ & l & cf & _ & (ls & Hne & -> & Hls) & -> & _).
      exists ls. by rewrite lookup_insert_ne, lookup_singleton_eq.
    + destruct H as (_ & _ & full & _ & l & lt & _ & Hne & -> & _ & -> & _).
      exists lt. rewrite lookup_insert_ne, lookup_singleton_eq by done. split; [done|]. set_solver.
  - unfold report_stage in H. destruct (reload_tx_msg s) as [|sub| |n t e| | |[full|]]; try done.
    + destruct H as (_ & n & _ & l & cf & _ & (ls & Hne & -> & Hls) & -> & _).
      exists l. by rewrite lookup_insert_eq.
    + destruct H as (_ & full & _ & l & ls & lt & _ & N1 & N2 & N3 & -> & Hls & _ & -> & _).
      exists ls. rewrite lookup_insert_ne, lookup_insert_eq by done. split; [done|]. set_solver.
    + apply Hset, H.
    + destruct H as (_ & _ & l & _ & (ls & Hne & -> & Hls) & -> & _).
      exists ls. by rewrite lookup_insert_ne, lookup_singleton_eq.
    + apply Hset, H.
Qed.

Lemma Forall_snoc {A} (P : A -> Prop) l x : Forall P l -> P x -> Forall P (l ++ [x]).
Proof. intros. apply Forall_app. by repeat constructor. Qed.

Lemma live_mono s h r pc :
  live_ring s -> caps (hp s) ⊆ caps h -> r = ring s -> pc = opc s ->
  Forall (fun c => c ∈ caps h) r /\ match pc with OHold c _ => c ∈ caps h | _ => True end.
Proof.
  intros [Hr Ho] Hc -> ->. split; [eapply Forall_impl; [done|set_solver]|]. destruct (opc s); set_solver.
Qed.

(** *** One lemma per kind of action *)

Lemma poll_inv s i : inv s -> match poll i s with Crash => False | Disabled => True | Next s' => inv s' end.
Proof.
  intros Hi. pose proof Hi as (Hp & [Hr Ho] & Hd & Ht & Hrun). unfold poll. destruct (mpc s); [|done|done].
  destruct (polled_live s Hp) as (l & El & Hl). rewrite El. destruct (l !! i) as [t|] eqn:Et; [|done].
  assert (task t ∈ caps_of l) as Hin
    by (apply elem_of_caps_of; exists t; split; [by eapply list_elem_of_lookup_2|done]).
  rewrite bool_decide_true by set_solver. destruct (execution_model (mgr s)) eqn:Em; [|exact Hi].
  assert (current s (task t)) as Hcur by (by exists l).
  split; [exact Hp|]. split; [split; [apply Forall_snoc; [done|set_solver]|exact Ho]|].
  split; [|split; [intros E; cbn in E; congruence|exact Hrun]].
  unfold drain_ok in *. cbn. destruct (rpc s); try done.
  - destruct Hd as (H1 & H2 & [(D1 & D2 & D3)|[(D1 & D2 & D3 & [D4 D5])|(D1 & D2 & D3 & [D4 D5])]]).
    + split; [done|]. split; [done|]. left. split; [done|]. split; [done|].
      destruct (opc s) as [|c [k|]|k|]; try done; (rewrite drop_app; apply Forall_app; split; [done|]).
      * apply Forall_drop. by repeat constructor.
      * apply Forall_drop. by repeat constructor.
    + split; [done|]. split; [done|]. right. left. repeat (split; [done|]). split; [by apply Forall_snoc|exact D5].
    + split; [done|]. split; [done|]. right. right. repeat (split; [done|]). split; [by apply Forall_snoc|exact D5].
  - destruct Hd as (H1 & D1 & D2 & D3 & [D4 D5]). repeat (split; [done|]). split; [by apply Forall_snoc|exact D5].
Qed.

Definition ok (r : result) : Prop := match r with Crash => False | Disabled => True | Next s => inv s end.

Lemma main_recv_inv s :
  inv s -> mpc s = MPoll -> inv (set_main s (if main_mbox s then MGot else MTry) false).
Proof.
  intros (Hp & Hl & Hd & Ht & Hrun) Hm. split; [|exact (conj Hl (conj Hd (conj Ht Hrun)))].
  destruct Hp as [[(A1 & A2 & A3 & A4) H]|[[(A1 & A2 & A3) H]|[(A1 & A2 & A3) H]]].
  - left. rewrite A1. split; [by repeat split|exact H].
  - right; left. rewrite A1. split; [|exact H]. split; [done|]. split; [done|exact A3].
  - right; right. destruct A3 as [[-> A3]|[_ A3]]; [|congruence]. split; [|exact H]. split; [done|].
    split; [done|]. by right.
Qed.

Lemma set_poll_inv s : inv s -> mpc s = MTry -> inv (set_main s MPoll (main_mbox s)).
Proof.
  intros (Hp & Hl & Hd & Ht & Hrun) Hm. split; [|exact (conj Hl (conj Hd (conj Ht Hrun)))].
  destruct Hp as [[(A1 & A2 & A3 & A4) H]|[[(A1 & A2 & A3) H]|[(A1 & A2 & A3) H]]].
  - left. split; [by repeat split|exact H].
  - right; left. split; [|exact H]. split; [done|]. split; [done|exact A3].
  - right; right. destruct A3 as [[A3 _]|[_ A3]]; [|congruence]. split; [|exact H]. split; [done|].
    split; [done|]. by left.
Qed.

Lemma try_start_inv s : inv s -> mpc s = MTry -> inv (try_start s).
Proof.
  intros Hi Hm. unfold try_start. destruct (phase s) eqn:Eph; try by apply set_poll_inv.
  destruct (reload_signal s); [|by apply set_poll_inv].
  destruct Hi as (Hp & Hl & Hd & Ht & Hrun). destruct Hp as [[(A1 & A2 & A3 & A4) H]|[[_ H]|[_ H]]].
  - split; [|split; [exact Hl|split; [|exact (conj Ht Hrun)]]].
    + right; left. split; [split; [exact A1|split; [done|by left]]|].
      destruct H as (_ & Hc & Hs). by repeat split.
    + unfold drain_ok in *. cbn. by rewrite A4 in *.
  - exfalso. unfold request_stage in H. destruct (main_tx_msg s); try done; destruct H as (H & _); congruence.
  - exfalso. unfold report_stage in H. destruct (reload_tx_msg s) as [| | | | | |[]]; try done;
      destruct H as (H & _); congruence.
Qed.

(** A report in hand was handled: the manager is [m], a request may be out. *)
Lemma main_next_inv s m ph req h :
  inv s -> rpc s = RIdle -> main_mbox s = false -> reload_mbox s = false ->
  execution_model m = execution_model (mgr s) -> caps h = caps (hp s) ->
  match req with
  | Some _ => request_stage (main_next s (m, ph, req) h)
  | None => rest_stage (main_next s (m, ph, req) h)
  end ->
  inv (main_next s (m, ph, req) h).
Proof.
  intros (_ & Hl & Hd & Ht & Hrun) Hr Hm Hb Em Ec Hst. split; [|split; [|split; [|split; [|exact Hrun]]]].
  - destruct req.
    + right; left. split; [|exact Hst]. split; [exact Hm|]. split; [done|by left].
    + left. split; [|exact Hst]. by repeat split.
  - destruct Hl as [Hl1 Hl2]. split; cbn; by rewrite Ec.
  - unfold drain_ok in *. cbn. rewrite Hr in *. exact Hd.
  - intros E. apply Ht. cbn in E. congruence.
Qed.

Lemma main_handle_inv s : inv s -> mpc s = MGot -> ok (exec MainHandle s).
Proof.
  intros Hi Hm. pose proof Hi as ([[(_ & A2 & _) _]|[[(_ & A2 & _) _]|[(A1 & A2 & A3) H]]] & _); [done|done|].
  destruct A3 as [[_ A3]|[A3 _]]; [done|]. cbn [exec]. rewrite Hm. unfold run, report_stage in *.
  destruct (reload_tx_msg s) as [|sub| |n t e| | |[full|]]; try done.
  - destruct H as (-> & n & Hc & Hp). unfold reload_cycle_switch, main_handle_survivors, ret. cbn [ok]. apply main_next_inv; try done.
    split; [done|]. exists n. split; [exact Hc|exact Hp].
  - destruct H as (-> & full & Hc & Hb). cbn [reload_cycle_switch].
    destruct (commit_spec _ _ _ _ _ _ Hb) as (m & h & -> & Ec & Em & Et & Hrec). cbn [ok].
    apply main_next_inv; try done. split; [done|]. split; [done|]. by exists full.
  - destruct H as (-> & Hc & Hs). unfold reload_cycle_switch, main_handle_reclaimed, main_handle_survivors, ret. cbn [ok].
    apply main_next_inv; try done; by repeat split.
  - destruct H as (-> & Hc & Hb). cbn [reload_cycle_switch].
    destruct (restore_spec _ _ _ Hb) as (m & h & -> & Ec & Em & Hs). cbn [ok].
    apply main_next_inv; try done; by repeat split.
  - destruct H as (-> & Hc & Hs). unfold reload_cycle_switch, main_handle_reclaimed, main_handle_survivors, ret. cbn [ok].
    apply main_next_inv; try done; by repeat split.
Qed.

Lemma reload_recv_inv s :
  inv s -> rpc s = RIdle -> reload_mbox s = true -> inv (set_reload s RGot false).
Proof.
  intros (Hp & Hl & Hd & Ht & Hrun) Hr Hb. split; [|split; [exact Hl|split; [|exact (conj Ht Hrun)]]].
  - destruct Hp as [[(_ & _ & A3 & _) _]|[[(A1 & A2 & _) H]|[(A1 & _) _]]]; [congruence| |congruence].
    right; left. split; [|exact H]. split; [exact A1|]. split; [exact A2|by right].
  - unfold drain_ok in *. cbn. by rewrite Hr in Hd.
Qed.

(** A request in hand was handled. *)
Lemma reload_next_inv s x msg h :
  inv s -> rpc s <> RIdle -> not_draining (opc s) -> drain_request s = false -> drain_response s = false ->
  live_ring (reload_next s (x, msg) h) -> report_stage (reload_next s (x, msg) h) ->
  inv (reload_next s (x, msg) h).
Proof.
  intros (Hp & _ & _ & Ht & Hrun) Hr Ho D1 D2 Hl Hst.
  split; [|split; [exact Hl|split; [|exact (conj Ht Hrun)]]].
  - right; right. split; [|exact Hst].
    destruct Hp as [[(_ & _ & _ & A4) _]|[[(A1 & A2 & A3) _]|[(_ & A2 & _) _]]]; [done| |done].
    destruct A3 as [[_ A3]|[A3 _]]; [done|]. split; [exact A3|]. split; [done|]. by left.
  - by repeat split.
Qed.

Lemma in_hand s : inv s -> rpc s <> RIdle -> request_stage s.
Proof. intros ([[(_ & _ & _ & A4) _]|[[_ H]|[(_ & A2 & _) _]]] & _) Hr; done. Qed.

Lemma reload_handle_inv s parsed : inv s -> rpc s = RGot -> ok (reload_handle parsed s).
Proof.
  intros Hi Hr. pose proof Hi as (_ & Hl & Hd & Ht & _). unfold drain_ok in Hd. rewrite Hr in Hd.
  destruct Hd as (D1 & D2 & D3).
  assert (rpc s <> RIdle) as Hne by (by rewrite Hr).
  pose proof (in_hand s Hi Hne) as Hst. unfold request_stage in Hst. unfold reload_handle.
  destruct (main_tx_msg s) as [cur| |full| |c e t| |]; try done.
  - destruct Hst as (Eph & -> & Ex & Hset).
    assert (forall p, (forall c, p = Some c -> unique_fingerprints c = true) ->
      ok (run (reload_do_plan (ctx s) (tasks (mgr s)) p) s (reload_next s))) as Hplan.
    { intros p Hp. unfold run. rewrite Ex.
      destruct (plan_spec (mgr s) (hp s) p Hset Hp) as (x & msg & h & -> & Ec & Hr'). cbn [ok].
      apply reload_next_inv; try done.
      { destruct Hl as [Hl1 Hl2]. split; cbn; by rewrite Ec. }
      unfold report_stage. cbn. destruct Hr' as [(-> & -> & Hs)|(sub & n & -> & -> & Hs)]; [done|].
      split; [done|]. by exists n. }
    destruct parsed as [c|]; [|by apply Hplan].
    destruct (unique_fingerprints c) eqn:Hu; [|done]. apply Hplan. by intros ? [= <-].
  - destruct Hst as (Eph & n & Ex & Hp). unfold run. rewrite Ex.
    destruct (build_spec _ _ _ _ _ Hp) as (x & msg & h & -> & Hc & Hr'). cbn [ok].
    apply reload_next_inv; try done.
    { apply (live_mono s); done. }
    unfold report_stage. cbn. destruct Hr' as [(-> & -> & Hs)|(t & e & -> & -> & Hs)]; [done|].
    split; [done|]. by exists full.
  - destruct (execution_model (mgr s)) eqn:Em; [done|]. destruct Hst as (Eph & -> & full & Ex & Hrec).
    unfold run. rewrite Ex. destruct (reclaim_spec _ _ _ _ _ Hrec) as (h & lt & -> & Hs & _ & _). cbn [ok].
    destruct (Ht Em) as [Er Eo]. apply reload_next_inv; try done.
    split; cbn; by rewrite ?Er, ?Eo.
Qed.

Lemma reclaim_inv s : inv s -> ok (exec Reclaim s).
Proof.
  intros Hi. cbn [exec]. destruct (rpc s) eqn:Hr; try done.
  assert (rpc s <> RIdle) as Hne by (by rewrite Hr). pose proof (in_hand s Hi Hne) as Hst.
  pose proof Hi as (_ & _ & Hd & _). unfold drain_ok in Hd. rewrite Hr in Hd.
  destruct Hd as (_ & D1 & D2 & D3 & [D4 D5]). unfold request_stage in Hst.
  destruct (main_tx_msg s) as [| | | |c e t| |]; try done.
  destruct Hst as (Eph & -> & full & Ex & Hrec). unfold run. rewrite Ex.
  destruct (reclaim_spec _ _ _ _ _ Hrec) as (h & lt & -> & Hs & El & Ec). cbn [ok].
  apply reload_next_inv; try done.
  assert (forall a, current s a -> a ∈ caps h) as Hcur by (intros a (l & El' & Ha); rewrite Ec; congruence).
  split; cbn; [by eapply Forall_impl|]. destruct (opc s) as [|a [k|]| |]; try done. by apply Hcur.
Qed.

Lemma drain_inv s a :
  inv s -> a = DrainRequest \/ a = DrainDone \/ a = DrainAbort -> ok (exec a s).
Proof.
  intros Hi Ha. pose proof Hi as (Hp & Hl & Hd & Ht & Hrun). unfold drain_ok in Hd.
  assert (forall pc, rpc s <> RIdle -> pc <> RIdle ->
    forall req resp, protocol (set_out (set_reload s pc (reload_mbox s)) (ring s) (opc s) req resp)) as Hpc.
  { intros pc Hne Hpc req resp. destruct Hp as [[(_ & _ & _ & A4) _]|[[(A1 & A2 & A3) H]|[(_ & A2 & _) _]]]; [done| |done].
    right; left. split; [|exact H]. split; [exact A1|]. split; [exact A2|].
    destruct A3 as [[_ A3]|[A3 _]]; [done|by right]. }
  destruct Ha as [->|[->| ->]]; cbn [exec]; destruct (rpc s) eqn:Hr; try done.
  - destruct (main_tx_msg s) as [| | | |c e t| |] eqn:Em; try done.
    destruct (execution_model (mgr s)) eqn:Ex; [|done]. destruct Hd as (D1 & D2 & D3).
    split; [by apply Hpc|]. split; [exact Hl|]. split; [|exact (conj Ht Hrun)].
    split; [by exists c, e, t|]. split; [done|]. left. split; [done|]. split; [done|]. cbn.
    destruct (opc s) as [|? []| |]; done.
  - destruct (drain_response s) eqn:Er; [|done].
    destruct Hd as (H1 & H2 & [(_ & D & _)|[(_ & D & _)|(D1 & _ & D3 & D4)]]); [done|done|].
    split; [by apply Hpc|]. split; [exact Hl|]. split; [|exact (conj Ht Hrun)].
    split; [exact H1|]. split; [done|]. split; [done|]. by split.
  - by rewrite Hrun.
Qed.

(** The output thread changes only the ring, its own state and the flags. *)
Lemma set_out_inv s r pc req resp :
  inv s -> live_ring (set_out s r pc req resp) -> drain_ok (set_out s r pc req resp) ->
  (execution_model (mgr s) = false -> r = [] /\ pc = OLoop) -> inv (set_out s r pc req resp).
Proof. intros (Hp & _ & _ & _ & Hrun) Hl Hd Ht. exact (conj Hp (conj Hl (conj Hd (conj Ht Hrun)))). Qed.

Lemma out_pop_inv s c r :
  inv s -> opc s = OLoop -> ring s = c :: r ->
  inv (set_out s r (OHold c None) (drain_request s) (drain_response s)).
Proof.
  intros Hi Eo Er. pose proof Hi as (_ & [Hl _] & Hd & Ht & _).
  rewrite Er in Hl. apply Forall_cons in Hl as [Hc Hl]. apply set_out_inv; [done|by split| |].
  - unfold drain_ok, drained in *. rewrite Eo, Er in Hd. cbn. destruct (rpc s); try done.
    + destruct Hd as (H1 & H2 & [D|[(_ & _ & D & _)|(D1 & D2 & _ & [D4 _])]]); [| done |].
      * split; [done|]. split; [done|]. by left.
      * apply Forall_cons in D4 as [D4 D5]. split; [done|]. split; [done|]. right; right. by split_and!.
    + destruct Hd as (H1 & D1 & D2 & _ & [D4 _]). apply Forall_cons in D4 as [D4 D5]. by split_and!.
  - intros E. destruct (Ht E). congruence.
Qed.

Lemma out_send_inv s : inv s -> ok (exec OutSend s).
Proof.
  intros Hi. pose proof Hi as (_ & [Hl Ho] & Hd & Ht & _). cbn [exec]. destruct (opc s) as [|c back| |] eqn:Eo; try done.
  rewrite bool_decide_true by done. apply set_out_inv; [done|split; [done|by destruct back]| |].
  - unfold drain_ok, drained in *. rewrite Eo in Hd. cbn.
    destruct (rpc s), back as [k|]; cbn in *; try (by intuition congruence); intuition auto.
  - intros E. destruct (Ht E). congruence.
Qed.

Lemma drain_start_inv s :
  inv s -> opc s = OLoop -> drain_request s = true ->
  inv (set_out s (ring s) (ODrain (length (ring s))) true (drain_response s)).
Proof.
  intros Hi Eo Er. pose proof Hi as (_ & [Hl Ho] & Hd & Ht & _). apply set_out_inv; [done|by split| |].
  - unfold drain_ok in *. cbn. rewrite Er in Hd. destruct (rpc s); try (exfalso; intuition congruence).
    destruct Hd as (H1 & H2 & [(_ & D & _)|[(D & _)|(D & _)]]); [|done|done].
    split; [done|]. split; [done|]. left. split; [done|]. split; [done|].
    rewrite drop_all. constructor.
  - intros E. exfalso. unfold drain_ok in Hd. rewrite Er in Hd. destruct (rpc s); intuition congruence.
Qed.

Lemma drain_pop_inv s k c r :
  inv s -> opc s = ODrain (S k) -> ring s = c :: r ->
  inv (set_out s r (OHold c (Some k)) (drain_request s) (drain_response s)).
Proof.
  intros Hi Eo Er. pose proof Hi as (_ & [Hl Ho] & Hd & Ht & _).
  rewrite Er in Hl. apply Forall_cons in Hl as [Hc Hl]. apply set_out_inv; [done|by split| |].
  - unfold drain_ok in *. cbn. rewrite Eo, Er in Hd. cbn in Hd. destruct (rpc s); try (exfalso; intuition congruence).
    destruct Hd as (H1 & H2 & [D|[(_ & _ & D & _)|(_ & _ & D & _)]]); [|done|done].
    split; [done|]. split; [done|]. by left.
  - intros E. destruct (Ht E). congruence.
Qed.

Lemma drain_end_inv s k :
  inv s -> opc s = ODrain k -> k = O \/ ring s = [] ->
  inv (set_out s (ring s) OCleared false (drain_response s)).
Proof.
  intros Hi Eo Hk. pose proof Hi as (_ & [Hl Ho] & Hd & Ht & _). apply set_out_inv; [done|by split| |].
  - unfold drain_ok, drained in *. cbn. rewrite Eo in Hd. cbn in Hd. destruct (rpc s); try (exfalso; intuition congruence).
    destruct Hd as (H1 & H2 & [(D1 & D2 & D3)|[(_ & _ & D & _)|(_ & _ & D & _)]]); [|done|done].
    split; [done|]. split; [done|]. right; left. split; [done|]. split; [done|]. split; [done|].
    split; [|done]. destruct Hk as [->| ->]; [exact D3|constructor].
  - intros E. destruct (Ht E). congruence.
Qed.

Lemma respond_inv s : inv s -> opc s = OCleared -> inv (set_out s (ring s) OLoop (drain_request s) true).
Proof.
  intros Hi Eo. pose proof Hi as (_ & [Hl Ho] & Hd & Ht & _). apply set_out_inv; [done|by split| |].
  - unfold drain_ok, drained in *. cbn. rewrite Eo in Hd. cbn in Hd. destruct (rpc s); try (exfalso; intuition congruence).
    destruct Hd as (H1 & H2 & [(_ & _ & D)|[(D1 & D2 & _ & [D3 _])|(_ & _ & D & _)]]); [done| |done].
    split; [done|]. split; [done|]. right; right. by split_and!.
  - intros E. destruct (Ht E). congruence.
Qed.

(** No action crashes, and every action but the shutdown keeps the
    invariant. *)
Lemma exec_ok a s : inv s -> a <> Stop -> ok (exec a s).
Proof.
  intros Hi Ha. destruct a; [exact Hi|..|done].
  - by apply poll_inv.
  - cbn. destruct (mpc s) eqn:E; try done. by apply main_recv_inv.
  - destruct (mpc s) eqn:E; [|by apply main_handle_inv|]; cbn; by rewrite E.
  - cbn. destruct (mpc s) eqn:E; try done. by apply try_start_inv.
  - cbn. destruct (rpc s) eqn:E; try done. destruct (reload_mbox s) eqn:Eb; [|done]. by apply reload_recv_inv.
  - cbn [exec]. destruct (rpc s) eqn:E; try done. by apply reload_handle_inv.
  - apply drain_inv; [done|tauto].
  - apply drain_inv; [done|tauto].
  - apply drain_inv; [done|tauto].
  - by apply reclaim_inv.
  - cbn. destruct (opc s) eqn:E; try done. destruct (ring s) as [|c r] eqn:Er; [done|]. by apply out_pop_inv.
  - by apply out_send_inv.
  - cbn. destruct (opc s) eqn:E; try done. destruct (drain_request s) eqn:Er; [|done]. by apply drain_start_inv.
  - cbn. destruct (opc s) as [| |[|k]|] eqn:E; try done. destruct (ring s) as [|c r] eqn:Er; [done|].
    by apply (drain_pop_inv s k).
  - cbn. destruct (opc s) as [| |[|k]|] eqn:E; try done.
    + apply (drain_end_inv s 0); auto.
    + destruct (ring s) as [|c r] eqn:Er; [|done]. rewrite <- Er. apply (drain_end_inv s (S k)); auto.
  - cbn. destruct (opc s) eqn:E; try done. by apply respond_inv.
Qed.

Lemma reload_init_inv pipeline capacity l e c answers :
  good l -> inv (init pipeline capacity l e c answers).
Proof.
  intros Hg. split; [|split; [|split; [|split]]]; [|by repeat constructor|by repeat split|by repeat split|done].
  left. split; [by repeat split|]. split; [done|]. split; [done|]. exists l. split; [done|]. cbn.
  rewrite !dom_singleton_L. done.
Qed.

Lemma run_inv s s' : inv s -> rtc step s s' -> inv s'.
Proof.
  intros Hi Hr. induction Hr as [|s s1 s2 (a & Ha & E) _ IH]; [done|]. apply IH.
  pose proof (exec_ok a s Hi Ha) as H. by rewrite E in H.
Qed.

(** ** Theorems *)

(** C4: from a manager whose tasks have distinct fingerprints, and in every
    interleaving of polling, reloading, forwarding and reload requests, with
    any allocation or task creation failing and any configuration file: no
    thread ever touches a task list, capture task, error list or
    configuration that is not allocated, and none is freed twice. *)
Theorem reload_memory_safe pipeline capacity l e c answers s :
  good l -> rtc step (init pipeline capacity l e c answers) s -> ~ crashes s.
Proof.
  intros Hg Hr [a E]. assert (inv s) as Hi by (eapply run_inv; [by apply reload_init_inv|done]).
  assert (a <> Stop) as Ha by (by intros ->). pose proof (exec_ok a s Hi Ha) as H. by rewrite E in H.
Qed.

(** C6: whenever no reload is under way, the manager's task list, error list
    and configuration, and the capture tasks of that list, are all that is
    allocated, whatever reloads succeeded or failed before, and wherever they
    failed: the list of survivors and the new lists are on the heap from the
    moment their heads are allocated and grow node by node, so that what the
    error exits of [collect_surviving_tasks] and [build_full_task_set] do not
    free would still be there.  (A wrapper node and an error node are one
    allocation each with the fingerprint they own.) *)
Theorem reload_no_leak pipeline capacity l e c answers s :
  good l -> rtc step (init pipeline capacity l e c answers) s -> phase s = RELOAD_PHASE_IDLE ->
  exists l', good l' /\ lists (hp s) = {[tasks (mgr s) := l']} /\ caps (hp s) = caps_of l' /\
    dom (errs (hp s)) = {[errors (mgr s)]} /\ dom (cfgs (hp s)) = {[config (mgr s)]}.
Proof.
  intros Hg Hr Hph. assert (inv s) as (Hp & _) by (eapply run_inv; [by apply reload_init_inv|done]).
  destruct Hp as [[_ (_ & _ & H)]|[[_ H]|[_ H]]]; [exact H| |].
  - exfalso. unfold request_stage in H. destruct (main_tx_msg s); try done; destruct H as (H & _); congruence.
  - exfalso. unfold report_stage in H. destruct (reload_tx_msg s) as [| | | | | |[]]; try done;
      destruct H as (H & _); congruence.
Qed.

(** A sequence of actions is a run. *)
Lemma exec_all_run acts s s' :
  Forall (fun a => a <> Stop) acts -> exec_all acts s = Next s' -> rtc step s s'.
Proof.
  intros Hacts. revert s. induction Hacts as [|a acts Ha _ IH]; intros s; cbn; [by intros [= ->]|].
  destruct (exec a s) as [| |s1] eqn:E; [done|done|]. intros Hr. eapply rtc_l; [by exists a|by apply IH].
Qed.

(** Tasks "a" and "b" reloaded to "b" and "c", with messages in the ring. *)
Definition demo_old : Config :=
  {| task_fingerprints := [Some "a"; Some "b"]; pipeline_model := true; buffer_size_mb := 1 |}.
Definition demo_new : Config :=
  {| task_fingerprints := [Some "b"; Some "c"]; pipeline_model := true; buffer_size_mb := 2 |}.
Definition demo_tasks : list task_t := [Task 0 (Some "a") 1; Task 1 (Some "b") 2].
Definition demo_init : sys := init true 1048576 demo_tasks [] demo_old [].

Definition demo_to_reclaim : list action :=
  [Poll 0; Poll 1; Signal; MainRecv; TryStart; ReloadRecv; ReloadHandle (Some demo_new);
   MainRecv; MainHandle; TryStart; Poll 0; ReloadRecv; ReloadHandle None;
   MainRecv; MainHandle; TryStart; Poll 1; ReloadRecv; DrainRequest].
Definition demo_finish : list action :=
  [OutPop; OutSend; DrainStart; DrainPop; OutSend; DrainPop; OutSend; DrainPop; OutSend; DrainEnd;
   Respond; DrainDone; Reclaim; MainRecv; MainHandle; TryStart].

Lemma demo_good : good demo_tasks.
Proof. split; repeat (constructor; [set_solver|]); constructor. Qed.

Lemma reload_memory_safe_witness :
  exists s, exec_all (demo_to_reclaim ++ demo_finish) demo_init = Next s /\ ~ crashes s.
Proof.
  destruct (exec_all (demo_to_reclaim ++ demo_finish) demo_init) as [| |s] eqn:E;
    [vm_compute in E; discriminate|vm_compute in E; discriminate|].
  exists s. split; [reflexivity|].
  apply (reload_memory_safe true 1048576 demo_tasks [] demo_old [] s demo_good).
  apply (exec_all_run (demo_to_reclaim ++ demo_finish)); [repeat constructor; discriminate|exact E].
Defined.

Lemma reload_no_leak_witness :
  exists s l, exec_all (demo_to_reclaim ++ demo_finish) demo_init = Next s /\
    mgr_capacity (mgr s) = 2097152 /\ lists (hp s) = {[tasks (mgr s) := l]} /\
    l = [Task 0 (Some "b") 2; Task 1 (Some "c") 3].
Proof.
  destruct (exec_all (demo_to_reclaim ++ demo_finish) demo_init) as [| |s] eqn:E;
    [vm_compute in E; discriminate|vm_compute in E; discriminate|].
  assert (rtc step demo_init s) as Hr
    by (apply (exec_all_run (demo_to_reclaim ++ demo_finish)); [repeat constructor; discriminate|exact E]).
  assert (phase s = RELOAD_PHASE_IDLE) as Hph by (vm_compute in E; injection E as <-; reflexivity).
  destruct (reload_no_leak true 1048576 demo_tasks [] demo_old [] s demo_good Hr Hph) as (l & _ & El & _).
  exists s, l. split; [reflexivity|]. split; [|split; [exact El|]].
  - vm_compute in E. injection E as <-. reflexivity.
  - assert (lists (hp s) !! tasks (mgr s) = Some l) as H by (rewrite El; apply lookup_singleton_eq).
    vm_compute in E. injection E as <-. vm_compute in H. congruence.
Defined.

(** stopping the reload thread while it waits for the ring to be drained
    lets it reclaim the old tasks although messages for them are still in the
    ring and the output thread is still running: the output thread then uses
    a destroyed task. *)
Theorem shutdown_use_after_free :
  exec_all (demo_to_reclaim ++ [Stop; DrainAbort; Reclaim; OutPop; OutSend]) demo_init = Crash.
Proof. vm_compute. reflexivity. Qed.
