(* ===== verification/ReloadEffect.v ===== *)
(** * What a reload does, and that it ends (task.c)

    [ReloadSafety] shows that no interleaving of the threads goes wrong; here
    is what the lists contain in each phase, which the comment on the reload
    protocol calls its contract, and that a reload can always be completed
    from wherever it is. *)

From Stdlib Require Import Ascii String.
From stdpp Require Import prelude gmap fin_maps fin_sets sets list strings relations.
From S2P Require Import Prelude Reload ReloadSafety.
Open Scope string_scope.
Open Scope list_scope.
Open Scope Z_scope.

(** ** Contents *)

(** The tasks and the failed tasks of a configuration: every entry, in order
    and with its index, is in just one of the two lists. *)
Inductive covers : Z -> list (option string) -> list task_t -> list task_error_t -> Prop :=
  | covers_nil i : covers i [] [] []
  | covers_task i fp c fps l e : covers (i + 1) fps l e -> covers i (fp :: fps) (Task i fp c :: l) e
  | covers_error i fp fps l e : covers (i + 1) fps l e -> covers i (fp :: fps) l (TaskError i fp :: e).

(** The task with a fingerprint. *)
Definition named (l : list task_t) (f : string) : option task_t := snd <$> list_find (fun t => fingerprint t = Some f) l.

(** The tasks of [l] with the fingerprints [fs], in the order of [fs]. *)
Definition survivors (fs : list string) (l : list task_t) : list task_t := omap (named l) fs.

(** Tasks of [old] that are wanted again are in [new] with the same capture task. *)
Definition keeps (fs : list string) (old new : list task_t) : Prop :=
  forall f t, f ∈ fs -> named old f = Some t -> exists t', t' ∈ new /\ fingerprint t' = Some f /\ task t' = task t.

Lemma find_named f l : find_task_by_fingerprint (Some f) l = Some (named l f).
Proof.
  unfold named. induction l as [|t l IH]; [done|]. cbn. destruct (fingerprint t) as [g|] eqn:Eg.
  - destruct (String.eqb_spec g f) as [->|Hne].
    + by rewrite decide_True by done.
    + rewrite decide_False by congruence. rewrite IH. by destruct (list_find _ l) as [[i x]|].
  - rewrite decide_False by done. rewrite IH. by destruct (list_find _ l) as [[i x]|].
Qed.

Lemma named_some l f t : named l f = Some t -> t ∈ l /\ fingerprint t = Some f.
Proof.
  unfold named. intros ([i x] & E & ->)%fmap_Some. cbn. apply list_find_Some in E as (Hi & Hf & _).
  split; [by eapply list_elem_of_lookup_2|done].
Qed.

Lemma find_content f l h r h' : find_task (Some f) l h = Some (r, h') -> r = named l f /\ h' = h.
Proof. unfold find_task. rewrite find_named. by intros [= <- <-]. Qed.

Lemma collect_content fs l : forall acc h r h', collect_values (Some <$> fs) l acc h = Some (Some r, h') ->
  r = acc ++ survivors fs l /\ same_lists h h'.
Proof.
  induction fs as [|f fs IH]; intros acc h r h' E; cbn [fmap list_fmap collect_values] in E.
  { injection E as <- <-. unfold survivors. cbn. by rewrite app_nil_r. }
  next E x h1 E1. apply find_content in E1 as [-> ->]. unfold survivors in *. cbn [omap list_omap].
  destruct (named l f) as [t|] eqn:En; [|by apply IH in E].
  next E w h1 E1. apply wrapper_content in E1 as [Hs [-> | ->]]; [done|]. apply IH in E as [-> Hs'].
  split; [|by eapply same_lists_trans]. rewrite <- app_assoc. cbn. by destruct t.
Qed.

Lemma build_content fs l : forall i acc errors h acc' es h',
  build_values i (Some <$> fs) l acc errors h = Some ((acc', Some es), h') ->
  same_lists h h' /\ exists la le, acc' = acc ++ la /\ es = errors ++ le /\ covers i (Some <$> fs) la le /\ keeps fs l la.
Proof.
  induction fs as [|f fs IH]; intros i acc errors h acc' es h' E; cbn [fmap list_fmap build_values] in E.
  { injection E as <- <- <-. split; [done|]. exists [], []. rewrite !app_nil_r. repeat split; [constructor|]. by intros f t ?%not_elem_of_nil. }
  next E x h1 E1. apply find_content in E1 as [-> ->]. destruct (named l f) as [t|] eqn:En.
  - next E w h1 E1. apply wrapper_content in E1 as [Hs [-> | ->]]; [done|]. apply IH in E as (Hs' & la & le & -> & -> & Hc & Hk).
    split; [by eapply same_lists_trans|]. exists (Task i (Some f) (task t) :: la), le. rewrite <- app_assoc. split_and!; try done; [by constructor|].
    intros g u [->|Hg]%elem_of_cons Eu.
    + rewrite En in Eu. injection Eu as <-. eexists. split; [by left|]. done.
    + destruct (Hk g u Hg Eu) as (t' & Ht & ?). exists t'. split; [by right|done].
  - next E cap h1 E1. apply new_cap_content in E1. destruct cap as [cap|].
    + next E w h2 E2. apply wrapper_content in E2 as [Hs [-> | ->]].
      * next E u h3 E3. done.
      * apply IH in E as (Hs' & la & le & -> & -> & Hc & Hk). split; [by eapply same_lists_trans, same_lists_trans|].
        exists (Task i (Some f) cap :: la), le. rewrite <- app_assoc. split_and!; try done; [by constructor|].
        intros g u [->|Hg]%elem_of_cons Eu; [congruence|]. destruct (Hk g u Hg Eu) as (t' & Ht & ?). exists t'. split; [by right|done].
    + next E w h2 E2. apply error_content in E2 as [Hs [-> | ->]]; [done|].
      apply IH in E as (Hs' & la & le & -> & -> & Hc & Hk). split; [by eapply same_lists_trans, same_lists_trans|].
      exists la, (TaskError i (Some f) :: le). rewrite <- app_assoc. split_and!; try done; [by constructor|].
      intros g u [->|Hg]%elem_of_cons Eu; [congruence|]. by apply Hk.
Qed.

(** Everything in [m] is in [m']. *)
Definition extends {A : Type} (m m' : gmap addr A) : Prop := forall a x, m !! a = Some x -> m' !! a = Some x.

Lemma extends_fresh {A : Type} (m : gmap addr A) x : extends m (<[fresh (dom m) := x]> m).
Proof.
  intros a y Ha. rewrite lookup_insert_ne; [done|]. intros E. apply (is_fresh (dom m)). rewrite E. apply elem_of_dom. by exists y.
Qed.

Lemma survivors_content n full h sub h' l c fs :
  collect_surviving_tasks n full h = Some (Some sub, h') -> lists h !! full = Some l -> cfgs h !! n = Some c -> task_fingerprints c = Some <$> fs ->
  lists h' !! sub = Some (survivors fs l) /\ extends (lists h) (lists h') /\ errs h' = errs h /\ cfgs h' = cfgs h.
Proof.
  intros E El Ec Ef. rewrite (collect_surviving_eq n full l h El) in E. unfold collect_as_values in E. next E b h1 E1. apply choose_lists in E1 as (S1 & S2 & S3). destruct b; [|done].
  next E c' h2 E2. unfold load_cfg in E2. rewrite S3, Ec in E2. injection E2 as <- <-. next E l' h2 E2. unfold load_list in E2. rewrite S1, El in E2. injection E2 as <- <-.
  rewrite Ef in E. next E r h2 E2. destruct r as [r|]; [|done]. apply collect_content in E2 as [-> (T1 & T2 & T3)].
  injection E as <- <-. cbn [lists errs cfgs]. rewrite T1, T2, T3, S1, S2, S3. split; [apply lookup_insert_eq|]. split; [apply extends_fresh|done].
Qed.

Lemma build_set_content n full h r h' l c fs :
  build_full_task_set n full h = Some (r, h') -> lists h !! full = Some l -> cfgs h !! n = Some c -> task_fingerprints c = Some <$> fs ->
  cfgs h' = cfgs h /\ match r with
  | None => lists h' = lists h /\ errs h' = errs h
  | Some (t, e) => extends (lists h) (lists h') /\ extends (errs h) (errs h') /\
      exists lt es, lists h' !! t = Some lt /\ errs h' !! e = Some es /\ covers 0 (Some <$> fs) lt es /\ keeps fs l lt
  end.
Proof.
  intros E El Ec Ef. rewrite (build_full_eq n full l h El) in E. unfold build_as_values in E. next E b h1 E1. apply choose_lists in E1 as (S1 & S2 & S3). destruct b; [|by injection E as <- <-].
  next E b h2 E1. apply choose_lists in E1 as (T1 & T2 & T3). destruct b; [|injection E as <- <-; split_and!; congruence].
  next E c' h3 E2. unfold load_cfg in E2. rewrite T3, S3, Ec in E2. injection E2 as <- <-. next E l' h3 E2. unfold load_list in E2. rewrite T1, S1, El in E2. injection E2 as <- <-.
  rewrite Ef in E. next E r0 h3 E2. destruct r0 as [lt [es|]].
  - apply build_content in E2 as ((U1 & U2 & U3) & la & le & -> & -> & Hc & Hk). injection E as <- <-. cbn [lists errs cfgs app].
    split; [congruence|]. rewrite U1, U2, T1, T2, S1, S2. split; [apply extends_fresh|]. split; [apply extends_fresh|].
    exists la, le. by rewrite !lookup_insert_eq.
  - apply build_lists in E2 as (U1 & U2 & U3). next E u h4 E4. apply undo_lists in E4 as (V1 & V2 & V3). injection E as <- <-. split_and!; congruence.
Qed.

(** ** The contents in each phase *)

(** The list at [t] and the errors of [m] are those of its configuration. *)
Definition holds_conf (m : task_manager_t) (t : addr) (h : heap) : Prop :=
  exists l cf es, lists h !! t = Some l /\ cfgs h !! config m = Some cf /\ errs h !! errors m = Some es /\
    covers 0 (task_fingerprints cf) l es.

(** The list at [sub] has the tasks of the one at [full] that the new
    configuration, as long as it is at hand, names. *)
Definition chosen (n : option addr) (full sub : addr) (h : heap) : Prop :=
  exists l fs, lists h !! full = Some l /\ lists h !! sub = Some (survivors fs l) /\
    forall a, n = Some a -> exists c, cfgs h !! a = Some c /\ task_fingerprints c = Some <$> fs.

(** The list at [t] has the tasks of the one at [full] that its configuration names. *)
Definition renewed (full cfg t : addr) (h : heap) : Prop :=
  exists old new cf fs, lists h !! full = Some old /\ lists h !! t = Some new /\ cfgs h !! cfg = Some cf /\
    task_fingerprints cf = Some <$> fs /\ keeps fs old new.

Lemma holds_extends m t h h' : extends (lists h) (lists h') -> extends (errs h) (errs h') -> extends (cfgs h) (cfgs h') -> holds_conf m t h -> holds_conf m t h'.
Proof. intros E1 E2 E3 (l & cf & es & H1 & H2 & H3 & H4). exists l, cf, es. auto. Qed.

Lemma extends_refl {A : Type} (m : gmap addr A) : extends m m.
Proof. by intros a x. Qed.
Lemma extends_eq {A : Type} (m m' : gmap addr A) : m' = m -> extends m m'.
Proof. intros ->. apply extends_refl. Qed.
Lemma extends_trans {A : Type} (m m' m'' : gmap addr A) : extends m m' -> extends m' m'' -> extends m m''.
Proof. intros H1 H2 a x Ha. by apply H2, H1. Qed.
#[local] Hint Resolve extends_refl extends_fresh extends_eq : core.

Lemma free_config_content a h r h' : free_config a h = Some (r, h') -> lists h' = lists h /\ errs h' = errs h /\ cfgs h' = delete a (cfgs h).
Proof. intros E. unfold free_config in E. next E c h1 E1. unfold load_cfg in E1. destruct (cfgs h !! a); [|done]. injection E1 as _ <-. by injection E as _ <-. Qed.
Lemma free_list_content a h r h' : drop_list a h = Some (r, h') -> lists h' = delete a (lists h) /\ errs h' = errs h /\ cfgs h' = cfgs h.
Proof. intros E. unfold drop_list in E. next E c h1 E1. unfold load_list in E1. destruct (lists h !! a); [|done]. injection E1 as _ <-. by injection E as _ <-. Qed.
Lemma free_errs_content a h r h' : destroy_task_error_list a h = Some (r, h') -> lists h' = lists h /\ errs h' = delete a (errs h) /\ cfgs h' = cfgs h.
Proof.
  destruct (errs h !! a) as [l|] eqn:Hl; [|unfold destroy_task_error_list, bind, load_errs; by rewrite Hl].
  pose proof (destroy_errors_with a l h) as E. rewrite (with_errs_id a l h Hl) in E. rewrite E. by intros [= _ <-].
Qed.

(** A configuration that is made and freed again. *)
Lemma extends_undo {A : Type} (m : gmap addr A) x : extends m (delete (fresh (dom m)) (<[fresh (dom m) := x]> m)).
Proof. rewrite delete_insert_eq. apply extends_eq. apply delete_id. apply not_elem_of_dom, is_fresh. Qed.

Lemma plan_content m h parsed x msg h' :
  holds_conf m (tasks m) h -> reload_do_plan ctx_idle (tasks m) parsed h = Some ((x, msg), h') ->
  holds_conf m (tasks m) h' /\ (forall sub, msg = RELOAD_RPT_SURVIVORS sub -> chosen (new_config x) (tasks m) sub h').
Proof.
  intros Hh E. unfold reload_do_plan in E. destruct parsed as [c|]; [|by injection E as <- <- <-]. next E n h1 E1. injection E1 as <- <-. set (n := fresh (dom (cfgs h))) in *.
  set (h1 := Heap _ _ _ _ _) in E.
  assert (forall h2, lists h2 = lists h -> errs h2 = errs h -> cfgs h2 = cfgs h1 ->
    bind (free_config n) (fun _ => ret (ctx_reset (Ctx None (Some (tasks m)) None), RELOAD_RPT_ERROR None)) h2 = Some ((x, msg), h') ->
    holds_conf m (tasks m) h' /\ (forall sub, msg = RELOAD_RPT_SURVIVORS sub -> chosen (new_config x) (tasks m) sub h')) as Hfail.
  { intros h2 L1 L2 L3 E2. next E2 u h3 E3. apply free_config_content in E3 as (F1 & F2 & F3). injection E2 as <- <- <-. split; [|done].
    eapply holds_extends; [| | |exact Hh]; [rewrite F1, L1; auto|rewrite F2, L2; auto|]. rewrite F3, L3. apply extends_undo. }
  destruct (validate_fingerprints c) eqn:Hv; [|by eapply Hfail in E]. next E r h2 E2. destruct r as [sub|].
  - destruct Hh as (l & cf & es & H1 & H2 & H3 & H4).
    assert (exists fs, task_fingerprints c = Some <$> fs) as (fs & Ef).
    { clear -Hv. unfold validate_fingerprints in Hv. revert Hv. generalize (task_fingerprints c). intros fps. induction fps as [|[f|] fps IH]; cbn; [by exists []| |done]. intros Hv. destruct (IH Hv) as (fs & ->). by exists (f :: fs). }
    destruct (survivors_content n (tasks m) h1 sub h2 l c fs E2 H1 (lookup_insert_eq _ _ _) Ef) as (G1 & G2 & G3 & G4). injection E as <- <- <-.
    split.
    + exists l, cf, es. rewrite G3, G4. split_and!; try done; [by apply G2|]. by apply extends_fresh.
    + intros sub' [= <-]. exists l, fs. split; [by apply G2|]. split; [done|]. intros a [= <-]. exists c. rewrite G4. split; [apply lookup_insert_eq|done].
  - assert (lists h2 = lists h1 /\ errs h2 = errs h1 /\ cfgs h2 = cfgs h1) as (G1 & G2 & G3).
    { destruct Hh as (l & _ & _ & Hl & _). rewrite (collect_surviving_eq n (tasks m) l h1 Hl) in E2. clear -E2. unfold collect_as_values in E2. next E2 b h3 E3. apply choose_lists in E3 as (S1 & S2 & S3). destruct b; [|by injection E2 as <-].
      next E2 c' h4 E4. unfold load_cfg in E4. destruct (cfgs h3 !! n); [|done]. injection E4 as <- <-. next E2 l' h4 E4. unfold load_list in E4. destruct (lists h3 !! tasks m); [|done]. injection E4 as <- <-.
      next E2 r h5 E5. destruct r as [r|]; [done|]. injection E2 as <-. apply collect_lists in E5 as (T1 & T2 & T3). split_and!; congruence. }
    by eapply Hfail in E.
Qed.

Lemma chosen_extends n full sub h h' : extends (lists h) (lists h') -> cfgs h' = cfgs h -> chosen n full sub h -> chosen n full sub h'.
Proof. intros E1 E2 (l & fs & H1 & H2 & H3). exists l, fs. rewrite E2. auto. Qed.

Lemma build_step_content m full sub n h x msg h' :
  holds_conf m full h -> chosen (Some n) full sub h -> n <> config m ->
  reload_do_build (Ctx (Some n) (Some full) None) full h = Some ((x, msg), h') ->
  (msg = RELOAD_RPT_ERROR (Some full) /\ holds_conf m full h' /\ chosen None full sub h') \/
  exists t e, msg = RELOAD_RPT_NEW_TASKS n t e /\ chosen None full sub h' /\
    (forall b c, holds_conf (Mgr b c t e n) t h') /\ renewed full n t h'.
Proof.
  intros Hh (l & fs & C1 & C2 & C3) Hn E. destruct (C3 n eq_refl) as (c & Ec & Ef). unfold reload_do_build in E. cbn [new_config current_tasks old_tasks] in E.
  next E r h1 E1. pose proof (build_set_content n full h r h1 l c fs E1 C1 Ec Ef) as [G1 G2]. destruct r as [[t e]|].
  - injection E as <- <- <-. destruct G2 as (X1 & X2 & lt & es & T1 & T2 & Hc & Hk). right. exists t, e. split; [done|]. split; [exists l, fs; split_and!; [by apply X1|by apply X1|done]|]. split.
    + intros b cap. exists lt, c, es. cbn [config errors]. rewrite G1. split_and!; try done. by rewrite Ef.
    + exists l, lt, c, fs. rewrite G1. auto.
  - next E u h2 E2. apply free_config_content in E2 as (F1 & F2 & F3). injection E as <- <- <-. destruct G2 as [G2 G3]. left. split; [done|]. split.
    + destruct Hh as (l' & cf & es & H1 & H2 & H3 & H4). exists l', cf, es. rewrite F1, F2, F3, G1, G2, G3. split_and!; try done. by rewrite lookup_delete_ne.
    + exists l, fs. rewrite F1, G2. split_and!; try done.
Qed.

(** What the lists contain, wherever a message is. *)
Definition told_request (s : sys) : Prop :=
  match main_tx_msg s with
  | RELOAD_REQ_PLAN _ => holds_conf (mgr s) (tasks (mgr s)) (hp s)
  | RELOAD_REQ_BUILD full => holds_conf (mgr s) full (hp s) /\ chosen (new_config (ctx s)) full (tasks (mgr s)) (hp s)
  | RELOAD_REQ_RECLAIM _ _ _ =>
      holds_conf (mgr s) (tasks (mgr s)) (hp s) /\ forall full, old_tasks (ctx s) = Some full -> renewed full (config (mgr s)) (tasks (mgr s)) (hp s)
  | _ => True
  end.

Definition told_report (s : sys) : Prop :=
  match reload_tx_msg s with
  | RELOAD_RPT_SURVIVORS sub => holds_conf (mgr s) (tasks (mgr s)) (hp s) /\ chosen (new_config (ctx s)) (tasks (mgr s)) sub (hp s)
  | RELOAD_RPT_NEW_TASKS n t e => forall full, old_tasks (ctx s) = Some full ->
      chosen None full (tasks (mgr s)) (hp s) /\ (forall b c, holds_conf (Mgr b c t e n) t (hp s)) /\ renewed full n t (hp s)
  | RELOAD_RPT_RECLAIMED | RELOAD_RPT_ERROR None => holds_conf (mgr s) (tasks (mgr s)) (hp s)
  | RELOAD_RPT_ERROR (Some full) => holds_conf (mgr s) full (hp s) /\ chosen None full (tasks (mgr s)) (hp s)
  | _ => True
  end.

Definition told (s : sys) : Prop :=
  (at_rest s -> holds_conf (mgr s) (tasks (mgr s)) (hp s)) /\ (requested s -> told_request s) /\ (reported s -> told_report s).

(** Actions that move neither the messages nor the contents. *)
Lemma told_same s s' :
  mgr s' = mgr s -> ctx s' = ctx s -> hp s' = hp s -> main_tx_msg s' = main_tx_msg s -> reload_tx_msg s' = reload_tx_msg s ->
  (at_rest s' -> at_rest s) -> (requested s' -> requested s) -> (reported s' -> reported s) -> told s -> told s'.
Proof.
  intros E1 E2 E3 E4 E5 H1 H2 H3 (T1 & T2 & T3). unfold told, told_request, told_report in *. rewrite E1, E2, E3, E4, E5.
  split; [intros H; apply T1, H1, H|]. split; intros H; [apply T2, H2, H|apply T3, H3, H].
Qed.

Lemma told_main_handle s s' : inv s -> told s -> exec MainHandle s = Next s' -> told s'.
Proof.
  intros Hi (_ & _ & T) E. cbn [exec] in E. destruct (mpc s) eqn:Hm; try done.
  pose proof Hi as ([[(_ & A2 & _) _]|[[(_ & A2 & _) _]|[Hrep H]]] & _); [done|done|]. specialize (T Hrep). destruct Hrep as (A1 & A2 & A3).
  destruct A3 as [[_ A3]|[A3 _]]; [done|]. unfold run in E. unfold report_stage in H. unfold told_report in T.
  assert (forall m ph h, holds_conf m (tasks m) h -> told (main_next s (m, ph, None) h)) as Hrest.
  { intros m ph h Hh. split; [done|]. split; [intros (_ & _ & [[B _]|[_ B]]); cbn in B; congruence|]. intros (_ & _ & [[B _]|[_ B]]); cbn in B; congruence. }
  assert (forall m ph req h, told_request (main_next s (m, ph, Some req) h) -> told (main_next s (m, ph, Some req) h)) as Hreq.
  { intros m ph req h Hh. split; [intros (_ & _ & B & _); done|]. split; [done|]. intros (B & _); done. }
  destruct (reload_tx_msg s) as [|sub| |n t e| | |[full|]]; try done.
  - destruct H as (Eph & n & Hc & Hp). rewrite Eph in E. cbn in E. injection E as <-. apply Hreq. unfold told_request. cbn. exact T.
  - destruct H as (Eph & full & Hc & Hb). rewrite Eph in E. cbn [reload_cycle_switch] in E. rewrite Hc in T. destruct (T full eq_refl) as (_ & T2 & T3).
    destruct (commit_spec _ _ _ _ _ _ Hb) as (m & h & Ec & _). rewrite Ec in E. injection E as <-. apply Hreq. unfold told_request. cbn.
    destruct Hb as (l & ls & lt & _ & N1 & N2 & N3 & _).
    unfold main_handle_new_tasks in Ec. next Ec u h1 E1. rewrite wrappers_drop in E1. apply free_list_content in E1 as (F1 & F2 & F3). next Ec c h2 E2. unfold load_cfg in E2. destruct (cfgs h1 !! n) as [c0|] eqn:En; [|done]. injection E2 as <- <-. injection Ec as <- <-. cbn.
    split.
    + destruct (T2 true 0) as (l1 & cf & es & H1 & H2 & H3 & H4). exists l1, cf, es. cbn in *. rewrite F1, F2, F3. split_and!; try done. by rewrite lookup_delete_ne.
    + rewrite Hc. intros full' [= <-]. destruct T3 as (old & new & cf & fs & R1 & R2 & R3 & R4 & R5). exists old, new, cf, fs. rewrite F1, F3. rewrite !lookup_delete_ne by done. by split_and!.
  - destruct H as (Eph & Hc & Hs). rewrite Eph in E. cbn in E. injection E as <-. by apply Hrest.
  - destruct H as (Eph & Hc & Hb). rewrite Eph in E. cbn [reload_cycle_switch] in E. destruct (restore_spec _ _ _ Hb) as (m & h & Ec & _). rewrite Ec in E. injection E as <-.
    apply Hrest. destruct Hb as (l & _ & (ls & Hne & _) & _). unfold main_handle_new_tasks, restore_full_list_on_build_failure in Ec.
    next Ec m' h1 E1. next E1 u h2 E2. rewrite wrappers_drop in E2. apply free_list_content in E2 as (F1 & F2 & F3). injection E1 as <- <-. injection Ec as <- <-. cbn [tasks].
    destruct T as [(l1 & cf & es & H1 & H2 & H3 & H4) _]. exists l1, cf, es. cbn. rewrite F1, F2, F3. split_and!; try done. by rewrite lookup_delete_ne.
  - destruct H as (Eph & Hc & Hs). rewrite Eph in E. cbn in E. injection E as <-. by apply Hrest.
Qed.

(** A request was answered. *)
Lemma told_reload_next s x msg h : told_report (reload_next s (x, msg) h) -> told (reload_next s (x, msg) h).
Proof. intros H. split; [by intros (B & _)|]. split; [by intros (B & _)|done]. Qed.

Lemma in_hand_requested s : inv s -> rpc s <> RIdle -> requested s /\ request_stage s.
Proof. intros ([[(_ & _ & _ & A4) _]|[H|[(_ & A2 & _) _]]] & _) Hr; done. Qed.

Lemma told_reclaim s c e t s' : inv s -> told s -> rpc s <> RIdle -> main_tx_msg s = RELOAD_REQ_RECLAIM c e t ->
  run (reload_do_reclaim (ctx s) c e t) s (reload_next s) = Next s' -> told s'.
Proof.
  intros Hi (_ & T & _) Hr Em E. destruct (in_hand_requested s Hi Hr) as [Hreq Hst]. specialize (T Hreq). unfold told_request in T. unfold request_stage in Hst. rewrite Em in T, Hst.
  destruct Hst as (_ & -> & full & Ex & Hrec). unfold run in E. rewrite Ex in E.
  destruct (reclaim_spec _ _ _ _ _ Hrec) as (h & lt & Er & _). rewrite Er in E. injection E as <-. apply told_reload_next. unfold told_report. cbn.
  destruct Hrec as (l & lt' & _ & Hne & El & _ & _ & _ & He & _ & Hc).
  unfold reload_do_reclaim in Er. cbn [old_tasks] in Er. next Er u1 h1 E1.
  assert (lists (hp s) !! full = Some l) as Hl by (rewrite El; apply lookup_insert_eq).
  assert (lists (hp s) !! tasks (mgr s) = Some lt') as Hlt by (rewrite El; by rewrite lookup_insert_ne, lookup_singleton_eq).
  rewrite (reclaim_old_eq _ _ full (tasks (mgr s)) l lt' _ Hl Hlt) in E1.
  next E1 u2 h2 E2. apply reclaim_lists in E2 as (R1 & R2 & R3). next E1 u3 h3 E3. apply free_list_content in E3 as (F1 & F2 & F3).
  next E1 u4 h4 E4. apply free_errs_content in E4 as (G1 & G2 & G3). apply free_config_content in E1 as (K1 & K2 & K3). injection Er as <-.
  destruct T as [(lx & cf & es & H1 & H2 & H3 & H4) _]. exists lx, cf, es. rewrite K1, G1, F1, R1, K2, G2, F2, R2, K3, G3, F3, R3. rewrite !lookup_delete_ne by done. by split_and!.
Qed.

Lemma told_reload_handle s parsed s' : inv s -> told s -> rpc s = RGot -> reload_handle parsed s = Next s' -> told s'.
Proof.
  intros Hi Ht Hr E. assert (rpc s <> RIdle) as Hne by (by rewrite Hr). pose proof Ht as (_ & T & _). destruct (in_hand_requested s Hi Hne) as [Hreq Hst]. specialize (T Hreq).
  unfold told_request in T. unfold request_stage in Hst. unfold reload_handle in E. destruct (main_tx_msg s) as [cur| |full| |c e t| |] eqn:Em; try done.
  - destruct Hst as (_ & -> & Ex & _).
    assert (run (reload_do_plan (ctx s) (tasks (mgr s)) parsed) s (reload_next s) = Next s') as E'.
    { destruct parsed as [c|]; [|done]. by destruct (unique_fingerprints c). }
    unfold run in E'. rewrite Ex in E'. destruct (reload_do_plan ctx_idle (tasks (mgr s)) parsed (hp s)) as [[[x msg] h]|] eqn:Ep; [|done]. injection E' as <-.
    destruct (plan_content _ _ _ _ _ _ T Ep) as [Hh Hs]. apply told_reload_next. unfold told_report. cbn. destruct msg as [|sub| |n t e| | |[full|]]; try done.
    + split; [done|]. by apply Hs.
    + exfalso. unfold reload_do_plan in Ep. clear -Ep. destruct parsed as [c|]; [|done]. next Ep n9 h1 E1. destruct (validate_fingerprints c); [next Ep r9 h2 E2; destruct r9; [done|]|]; next Ep u h3 E3; done.
    + exfalso. unfold reload_do_plan in Ep. clear -Ep. destruct parsed as [c|]; [|done]. next Ep n1 h1 E1. destruct (validate_fingerprints c); [next Ep r9 h2 E2; destruct r9; [done|]|]; next Ep u h3 E3; done.
  - destruct Hst as (_ & n & Ex & Hp). destruct T as [T1 T2]. unfold run in E. rewrite Ex in E, T2. cbn [new_config] in T2.
    destruct (reload_do_build _ full (hp s)) as [[[x msg] h]|] eqn:Eb; [|done]. injection E as <-. apply told_reload_next. unfold told_report. cbn.
    pose proof Hp as (l & c & _ & _ & _ & _ & _ & Hn & _).
    destruct (build_spec _ _ _ _ _ Hp) as (x' & msg' & h' & Eb' & _ & Hcase). rewrite Eb in Eb'. injection Eb' as <- <- <-.
    destruct (build_step_content _ _ _ _ _ _ _ _ T1 T2 Hn Eb) as [(-> & H1 & H2)|(t & e & -> & H1 & H2 & H3)]; [done|].
    destruct Hcase as [(? & _)|(t' & e' & _ & -> & _)]; [done|]. cbn. by intros full' [= <-].
  - destruct (execution_model (mgr s)); [done|]. by eapply told_reclaim.
Qed.

Lemma told_step s s' : inv s -> told s -> step s s' -> told s'.
Proof.
  intros Hi Ht (a & Ha & E). destruct a; cbn [exec] in E; try done.
  - injection E as <-. by apply (told_same s).
  - unfold poll in E. destruct (mpc s); try done; destruct (lists (hp s) !! tasks (mgr s)) as [l|]; try done. destruct (l !! i) as [t|]; [|done]. case_bool_decide; [|done].
    destruct (execution_model (mgr s)); injection E as <-; [by apply (told_same s)|done].
  - destruct (mpc s) eqn:Hm; try done. injection E as <-. apply (told_same s); try done.
    + intros (B1 & B2 & B3 & B4). cbn in *. destruct (main_mbox s) eqn:Eb; [done|]. repeat split; try done. by rewrite Hm.
    + intros (B1 & B2 & B3). cbn in *. destruct (main_mbox s) eqn:Eb; [done|]. repeat split; try done. by rewrite Hm.
    + intros (B1 & B2 & [[B3 _]|[_ B3]]); cbn in *; [done|]. destruct (main_mbox s) eqn:Eb; [|done]. split; [done|]. split; [done|]. left. split; [done|]. by rewrite Hm.
  - apply (told_main_handle s); done.
  - destruct (mpc s) eqn:Hm; try done. injection E as <-. pose proof Hi as (Hp & _).
    assert (told (set_main s MPoll (main_mbox s))) as Hset.
    { apply (told_same s); try done.
      - intros (B1 & B2 & B3 & B4). cbn in *. repeat split; try done. by rewrite Hm.
      - intros (B1 & B2 & B3). cbn in *. repeat split; try done. by rewrite Hm.
      - intros (B1 & B2 & [[B3 _]|[_ B3]]); cbn in *; [|done]. split; [done|]. split; [done|]. left. split; [done|]. by rewrite Hm. }
    unfold try_start. destruct (phase s) eqn:Eph; try done. destruct (reload_signal s); [|done].
    destruct Hp as [[Hrest _]|[[_ H]|[_ H]]].
    + split; [by intros (_ & _ & B & _)|]. split; [|by intros (B & _)]. intros _. unfold told_request. cbn. destruct Ht as (T & _). by apply T.
    + exfalso. unfold request_stage in H. destruct (main_tx_msg s); try done; destruct H as (H & _); congruence.
    + exfalso. unfold report_stage in H. destruct (reload_tx_msg s) as [| | | | | |[]]; try done; destruct H as (H & _); congruence.
  - destruct (rpc s) eqn:Hr; try done. destruct (reload_mbox s) eqn:Eb; [|done]. injection E as <-. apply (told_same s); try done.
    + by intros (_ & _ & _ & B).
    + intros (B1 & B2 & _). split; [done|]. split; [done|]. by left.
    + by intros (_ & B & _).
  - destruct (rpc s) eqn:Hr; try done. by eapply told_reload_handle.
  - destruct (rpc s) eqn:Hr; try done. destruct (main_tx_msg s) eqn:Em; try done. destruct (execution_model (mgr s)); [|done]. injection E as <-. apply (told_same s); try done.
    + by intros (_ & _ & _ & B).
    + intros (B1 & B2 & [[_ B]|[B _]]); cbn in *; [done|]. split; [done|]. split; [done|]. right. by rewrite Hr.
    + by intros (_ & B & _).
  - destruct (rpc s) eqn:Hr; try done. destruct (drain_response s); [|done]. injection E as <-. apply (told_same s); try done.
    + by intros (_ & _ & _ & B).
    + intros (B1 & B2 & [[_ B]|[B _]]); cbn in *; [done|]. split; [done|]. split; [done|]. right. by rewrite Hr.
    + by intros (_ & B & _).
  - destruct (rpc s) eqn:Hr; try done. pose proof Hi as (_ & _ & _ & _ & Hrun). by rewrite Hrun in E.
  - destruct (rpc s) eqn:Hr; try done. destruct (main_tx_msg s) as [| | | |c e t| |] eqn:Em; try done. eapply told_reclaim; [done|done|by rewrite Hr|done|done].
  - destruct (opc s); try done. destruct (ring s); [done|]. injection E as <-. by apply (told_same s).
  - destruct (opc s); try done. case_bool_decide; [|done]. injection E as <-. by apply (told_same s).
  - destruct (opc s); try done. destruct (drain_request s); [|done]. injection E as <-. by apply (told_same s).
  - destruct (opc s) as [| |[|k]|]; try done. destruct (ring s); [done|]. injection E as <-. by apply (told_same s).
  - destruct (opc s) as [| |[|k]|]; try done; [|destruct (ring s); [|done]]; injection E as <-; by apply (told_same s).
  - destruct (opc s); try done. injection E as <-. by apply (told_same s).
Qed.

Lemma run_told s s' : inv s -> told s -> rtc step s s' -> inv s' /\ told s'.
Proof.
  intros Hi Ht Hr. induction Hr as [|s s1 s2 Hs _ IH]; [done|]. apply IH; [|by eapply told_step].
  destruct Hs as (a & Ha & E). pose proof (exec_ok a s Hi Ha) as H. by rewrite E in H.
Qed.

Lemma init_told pipeline capacity l e c answers : covers 0 (task_fingerprints c) l e -> told (init pipeline capacity l e c answers).
Proof.
  intros Hc. split; [|split; [by intros (_ & _ & [[B _]|[_ B]])|by intros (_ & _ & [[B _]|[_ B]])]]. intros _. exists l, c, e. by repeat split.
Qed.

(** ** Completing a reload *)

(** A step in which the configuration file reads as [parsed]. *)
Definition driven (parsed : option Config) (s s' : sys) : Prop :=
  exists a, a <> Stop /\ a <> Signal /\ (forall p, a = ReloadHandle p -> p = parsed) /\ exec a s = Next s'.

Section complete.
  Context (parsed : option Config) (Hparsed : forall c, parsed = Some c -> unique_fingerprints c = true).

Abbreviation go := (rtc (driven parsed)).

(** An action that is not disabled leads on. *)
Lemma act a s : inv s -> a <> Stop -> a <> Signal -> (forall p, a = ReloadHandle p -> p = parsed) -> exec a s <> Disabled ->
  exists s', exec a s = Next s' /\ driven parsed s s' /\ inv s'.
Proof.
  intros Hi H1 H2 H3 Hd. pose proof (exec_ok a s Hi H1) as Ho. destruct (exec a s) as [| |s'] eqn:E; [done|done|]. exists s'. split; [done|]. split; [by exists a|done].
Qed.

(** The reload thread and the main thread stay where they are. *)
Definition beside (s s' : sys) : Prop := main_tx_msg s' = main_tx_msg s /\ phase s' = phase s.

Lemma beside_refl s : beside s s.
Proof. done. Qed.
Lemma beside_trans s1 s2 s3 : beside s1 s2 -> beside s2 s3 -> beside s1 s3.
Proof. unfold beside. intuition congruence. Qed.

(** Past the drain. *)
Definition past (s : sys) : Prop := exists s', go s s' /\ inv s' /\ rpc s' = RDrained /\ beside s s'.

Lemma past_step s s1 : driven parsed s s1 -> beside s s1 -> past s1 -> past s.
Proof.
  intros D B (s' & G & I & R & B'). exists s'. split; [by eapply rtc_l|]. split_and!; try done. by eapply beside_trans.
Qed.

Lemma past_answered s : inv s -> rpc s = RWait -> drain_response s = true -> past s.
Proof.
  intros Hi Hr Hd. destruct (act DrainDone s Hi) as (s2 & E2 & D2 & I2); [done|done|done|cbn; by rewrite Hr, Hd|]. cbn in E2. rewrite Hr, Hd in E2. injection E2 as <-.
  eexists. split; [by apply rtc_once|]. done.
Qed.

Lemma past_cleared s : inv s -> rpc s = RWait -> opc s = OCleared -> past s.
Proof.
  intros Hi Hr Ho. destruct (act Respond s Hi) as (s1 & E1 & D1 & I1); [done|done|done|cbn; by rewrite Ho|]. cbn in E1. rewrite Ho in E1. injection E1 as <-.
  eapply past_step; [exact D1|done|]. by apply past_answered.
Qed.

Lemma past_end s k : inv s -> rpc s = RWait -> opc s = ODrain k -> (k = O \/ ring s = []) -> past s.
Proof.
  intros Hi Hr Ho Hk. destruct (act DrainEnd s Hi) as (s1 & E1 & D1 & I1); [done|done|done|cbn; rewrite Ho; destruct Hk as [-> | ->]; [done|by destruct k]|].
  cbn in E1. rewrite Ho in E1. assert (s1 = set_out s (ring s) OCleared false (drain_response s)) as -> by (destruct Hk as [-> | Er]; [by injection E1|rewrite Er in E1 |- *; destruct k; by injection E1]).
  eapply past_step; [exact D1|done|]. by apply past_cleared.
Qed.

(** The message in hand is sent first. *)
Lemma past_sent s c back : inv s -> rpc s = RWait -> opc s = OHold c back ->
  (forall s', inv s' -> rpc s' = RWait -> opc s' = match back with Some k => ODrain k | None => OLoop end ->
    drain_request s' = drain_request s -> past s') -> past s.
Proof.
  intros Hi Hr Ho Hn. destruct (act OutSend s Hi) as (s1 & E1 & D1 & I1); [done|done|done|cbn; rewrite Ho; by case_bool_decide|]. cbn in E1. rewrite Ho in E1. case_bool_decide; [|done]. injection E1 as <-.
  eapply past_step; [exact D1|done|]. by apply Hn.
Qed.

Lemma past_draining k : forall s, inv s -> rpc s = RWait -> opc s = ODrain k -> past s.
Proof.
  induction k as [|k IH]; intros s Hi Hr Ho; [eapply past_end; [done|done|exact Ho|by left]|].
  destruct (ring s) as [|c r] eqn:Er; [eapply past_end; [done|done|exact Ho|by right]|].
  destruct (act DrainPop s Hi) as (s1 & E1 & D1 & I1); [done|done|done|cbn; by rewrite Ho, Er|]. cbn in E1. rewrite Ho, Er in E1. injection E1 as <-.
  eapply past_step; [exact D1|done|]. eapply past_sent; [done|done|done|]. intros s' I' R' O' _. by apply IH.
Qed.

Lemma past_waiting s : inv s -> rpc s = RWait -> past s.
Proof.
  intros Hi Hr. pose proof Hi as (_ & _ & Hd & _). unfold drain_ok in Hd. rewrite Hr in Hd.
  assert (forall s, inv s -> rpc s = RWait -> opc s = OLoop -> drain_request s = true -> past s) as Hloop.
  { clear. intros s Hi Hr Ho Hq. destruct (act DrainStart s Hi) as (s1 & E1 & D1 & I1); [done|done|done|cbn; by rewrite Ho, Hq|]. cbn in E1. rewrite Ho, Hq in E1. injection E1 as <-.
    eapply past_step; [exact D1|done|]. by eapply past_draining. }
  destruct Hd as (_ & _ & [(D1 & D2 & D3)|[(D1 & D2 & D3 & _)|(D1 & D2 & _)]]); [|by apply past_cleared|by apply past_answered].
  destruct (opc s) as [|c [k|]|k|] eqn:Ho; [by apply Hloop| | |by eapply past_draining|done].
  - eapply past_sent; [done|done|exact Ho|]. intros s' I' R' O' _. by apply (past_draining k).
  - eapply past_sent; [done|done|exact Ho|]. intros s' I' R' O' Q'. apply Hloop; try done. by rewrite Q'.
Qed.

(** The reload thread answers every request. *)
Definition answered (s : sys) : Prop := exists s', go s s' /\ inv s' /\ reported s' /\ phase s' = phase s.

Lemma answered_reported s1 s a : inv s1 -> (exists p, a = ReloadHandle p /\ rpc s1 = RGot) \/ (a = Reclaim /\ rpc s1 = RDrained) ->
  phase s1 = phase s -> go s s1 -> (forall p, a = ReloadHandle p -> p = parsed) -> exec a s1 <> Disabled -> answered s.
Proof.
  intros Hi Ha Hp G Hps Hd. destruct (act a s1 Hi) as (s2 & E2 & D2 & I2); [by destruct Ha as [(p & -> & _)|[-> _]]|by destruct Ha as [(p & -> & _)|[-> _]]|done|done|].
  exists s2. split; [by eapply rtc_r|]. split; [done|].
  assert (rpc s1 <> RIdle) as Hne by (by destruct Ha as [(p & _ & ->)|[_ ->]]). destruct (in_hand_requested s1 Hi Hne) as [(A1 & A2 & A3) Hst].
  destruct A3 as [[_ A3]|[A3 _]]; [done|].
  assert (forall r h, reported (reload_next s1 r h) /\ phase (reload_next s1 r h) = phase s) as Hrep.
  { intros r h. split; [|by destruct s1]. split; [done|]. split; [done|]. by left. }
  unfold request_stage in Hst. destruct Ha as [(p & -> & Hr)|[-> Hr]]; cbn [exec] in E2; rewrite Hr in E2.
  - unfold reload_handle, run in E2. destruct (main_tx_msg s1) as [cur| |full| |c e t| |]; try done.
    + destruct p as [c|]; [destruct (unique_fingerprints c); [|done]|]; destruct (reload_do_plan _ _ _ _) as [[r h]|]; try done; injection E2 as <-; apply Hrep.
    + destruct (reload_do_build _ _ _) as [[r h]|]; try done; injection E2 as <-; apply Hrep.
    + destruct (execution_model (mgr s1)); [done|]. destruct (reload_do_reclaim _ _ _ _ _) as [[r h]|]; try done; injection E2 as <-; apply Hrep.
  - destruct (main_tx_msg s1) as [| | | |c e t| |]; try done. unfold run in E2. destruct (reload_do_reclaim _ _ _ _ _) as [[r h]|]; try done; injection E2 as <-; apply Hrep.
Qed.

Lemma answers s : inv s -> requested s -> answered s.
Proof.
  intros Hi Hq.
  assert (forall s1, inv s1 -> rpc s1 = RDrained -> go s s1 -> phase s1 = phase s -> answered s) as Hdrained.
  { intros s1 I1 R1 G P. apply (answered_reported s1 s Reclaim); try done; [by right|]. cbn. rewrite R1. pose proof I1 as (_ & _ & Hd & _). unfold drain_ok in Hd. rewrite R1 in Hd. destruct Hd as ((c & e & t & ->) & _).
    unfold run. by destruct (reload_do_reclaim _ _ _ _ _) as [[r h]|]. }
  assert (forall s1, inv s1 -> rpc s1 = RGot -> go s s1 -> phase s1 = phase s -> answered s) as Hgot.
  { intros s1 I1 R1 G P. destruct (in_hand_requested s1 I1) as [_ Hst]; [by rewrite R1|]. unfold request_stage in Hst.
    assert (forall c e t, main_tx_msg s1 = RELOAD_REQ_RECLAIM c e t -> execution_model (mgr s1) = true -> answered s) as Hpipe.
    { intros c e t Em Ex. destruct (act DrainRequest s1 I1) as (s2 & E2 & D2 & I2); [done|done|done|cbn; by rewrite R1, Em, Ex|]. cbn in E2. rewrite R1, Em, Ex in E2. injection E2 as <-.
      destruct (past_waiting _ I2 eq_refl) as (s3 & G3 & I3 & R3 & B3). apply (Hdrained s3); try done; [etrans; [exact G|]; by eapply rtc_l|]. destruct B3 as [_ B3]. by rewrite B3. }
    destruct (main_tx_msg s1) as [cur| |full| |c e t| |] eqn:Em; try done.
    1,2: apply (answered_reported s1 s (ReloadHandle parsed)); try done; [left; by eexists|by intros p [= <-]|]; cbn; rewrite R1; unfold reload_handle, run; rewrite Em.
    - destruct parsed as [c|]; [rewrite (Hparsed c) by done|]; by destruct (reload_do_plan _ _ _ _) as [[r h]|].
    - by destruct (reload_do_build _ _ _) as [[r h]|].
    - destruct (execution_model (mgr s1)) eqn:Ex; [by eapply Hpipe|].
      apply (answered_reported s1 s (ReloadHandle parsed)); try done; [left; by eexists|by intros p [= <-]|]. cbn. rewrite R1. unfold reload_handle, run. rewrite Em, Ex. by destruct (reload_do_reclaim _ _ _ _ _) as [[r h]|]. }
  destruct Hq as (A1 & A2 & [[A3 A4]|[A3 A4]]).
  - destruct (act ReloadRecv s Hi) as (s1 & E1 & D1 & I1); [done|done|done|cbn; by rewrite A4, A3|]. cbn in E1. rewrite A4, A3 in E1. injection E1 as <-.
    by apply (Hgot _ I1); [|apply rtc_once|].
  - destruct (rpc s) eqn:Hr; [done| | |].
    + apply (Hgot s); try done.
    + destruct (past_waiting s Hi Hr) as (s3 & G3 & I3 & R3 & _ & B3). by apply (Hdrained s3).
    + by apply (Hdrained s).
Qed.

(** How far the reload is from its end. *)
Definition rank (ph : reload_phase_t) : nat :=
  match ph with
  | RELOAD_PHASE_IDLE => 0 | RELOAD_PHASE_AWAITING_RECLAIM => 1
  | RELOAD_PHASE_AWAITING_NEW_TASKS => 2 | RELOAD_PHASE_AWAITING_SURVIVORS => 3
  end%nat.

(** The main thread takes every report, which brings it nearer. *)
Lemma handles s : inv s -> reported s -> exists s', go s s' /\ inv s' /\ (rank (phase s') < rank (phase s))%nat.
Proof.
  intros Hi Hrep.
  assert (forall s1, inv s1 -> mpc s1 = MGot -> go s s1 -> phase s1 = phase s -> exists s', go s s' /\ inv s' /\ (rank (phase s') < rank (phase s))%nat) as Hgot.
  { intros s1 I1 Hm G P. destruct (act MainHandle s1 I1) as (s2 & E2 & D2 & I2); [done|done|done|cbn; rewrite Hm; unfold run; by destruct (reload_cycle_switch _ _ _ _) as [[r h]|]|].
    exists s2. split; [by eapply rtc_r|]. split; [done|]. rewrite <- P. pose proof I1 as ([[(_ & A2 & _) _]|[[(_ & A2 & _) _]|[_ H]]] & _); [done|done|].
    cbn [exec] in E2. rewrite Hm in E2. unfold run in E2. unfold report_stage in H. destruct (reload_tx_msg s1) as [|sub| |n t e| | |[full|]]; try done.
    - destruct H as (Eph & _). rewrite Eph in *. cbn in E2. injection E2 as <-. cbn. lia.
    - destruct H as (Eph & full & _ & Hb). rewrite Eph in *. cbn [reload_cycle_switch] in E2. destruct (commit_spec _ _ _ _ _ _ Hb) as (m & h & Ec & _). rewrite Ec in E2. injection E2 as <-. cbn. lia.
    - destruct H as (Eph & _). rewrite Eph in *. cbn in E2. injection E2 as <-. cbn. lia.
    - destruct H as (Eph & _ & Hb). rewrite Eph in *. cbn [reload_cycle_switch] in E2. destruct (restore_spec _ _ _ Hb) as (m & h & Ec & _). rewrite Ec in E2. injection E2 as <-. cbn. lia.
    - destruct H as (Eph & _). rewrite Eph in *. cbn in E2. injection E2 as <-. cbn. lia. }
  assert (forall s1, inv s1 -> mpc s1 = MPoll -> main_mbox s1 = true -> go s s1 -> phase s1 = phase s -> exists s', go s s' /\ inv s' /\ (rank (phase s') < rank (phase s))%nat) as Hpoll.
  { intros s1 I1 Hm Hb G P. destruct (act MainRecv s1 I1) as (s2 & E2 & D2 & I2); [done|done|done|cbn; by rewrite Hm|]. cbn in E2. rewrite Hm, Hb in E2. injection E2 as <-.
    apply (Hgot _ I2); try done. by eapply rtc_r. }
  destruct Hrep as (A1 & A2 & [[A3 A4]|[A3 A4]]); [|by apply (Hgot s)].
  destruct (mpc s) eqn:Hm; [by apply (Hpoll s)|done|].
  destruct (act TryStart s Hi) as (s1 & E1 & D1 & I1); [done|done|done|cbn; by rewrite Hm|]. cbn in E1. rewrite Hm in E1. injection E1 as <-.
  assert (try_start s = set_main s MPoll (main_mbox s)) as Ets.
  { unfold try_start. destruct (phase s) eqn:Eph; try done. exfalso. pose proof Hi as ([[(B & _) _]|[[(B & _) _]|[_ H]]] & _); [congruence|congruence|].
    unfold report_stage in H. destruct (reload_tx_msg s) as [| | | | | |[]]; try done; destruct H as (H & _); congruence. }
  rewrite Ets in *. apply (Hpoll _ I1); try done. by apply rtc_once.
Qed.

Lemma completes s : inv s -> exists s', go s s' /\ inv s' /\ phase s' = RELOAD_PHASE_IDLE.
Proof.
  remember (rank (phase s)) as n eqn:En. revert s En. induction (lt_wf n) as [n _ IH]. intros s -> Hi.
  assert (forall s1, inv s1 -> reported s1 -> phase s1 = phase s -> go s s1 -> exists s', go s s' /\ inv s' /\ phase s' = RELOAD_PHASE_IDLE) as Hrep.
  { intros s1 I1 R1 P1 G1. destruct (handles s1 I1 R1) as (s2 & G2 & I2 & Hlt). rewrite P1 in Hlt. destruct (IH _ Hlt s2 eq_refl I2) as (s' & G & I & P). exists s'. split; [|done]. etrans; [exact G1|]. by etrans. }
  pose proof Hi as ([[_ (P & _)]|[[Hq _]|[Hr _]]] & _).
  - exists s. split; [apply rtc_refl|done].
  - destruct (answers s Hi Hq) as (s1 & G1 & I1 & R1 & P1). by apply (Hrep s1).
  - apply (Hrep s); try done.
Qed.
End complete.

(** ** Theorems *)

(** C5: the contract of the reload protocol.  However polling, reloads that
    succeed or fail and reload requests are interleaved, and whichever
    allocations and task creations fail: while the new tasks are being
    created the main thread polls just the old tasks that the new
    configuration names, unchanged, and the full old list is kept for the
    case that this fails; at all other times every entry of the configuration
    in force is, in order and with its index, either among the polled tasks
    or among the errors; and a task that was there before the reload and is
    wanted again goes on with its old capture task. *)
Theorem reload_contract pipeline capacity l e c answers s :
  good l -> covers 0 (task_fingerprints c) l e -> rtc step (init pipeline capacity l e c answers) s ->
  exists polled, lists (hp s) !! tasks (mgr s) = Some polled /\
  match phase s with
  | RELOAD_PHASE_AWAITING_NEW_TASKS =>
      exists full old fs, full <> tasks (mgr s) /\ lists (hp s) !! full = Some old /\ polled = survivors fs old /\
        forall n, new_config (ctx s) = Some n -> exists cf, cfgs (hp s) !! n = Some cf /\ task_fingerprints cf = Some <$> fs
  | ph =>
      exists cf es, cfgs (hp s) !! config (mgr s) = Some cf /\ errs (hp s) !! errors (mgr s) = Some es /\
        covers 0 (task_fingerprints cf) polled es /\
        (ph = RELOAD_PHASE_AWAITING_RECLAIM -> forall full, old_tasks (ctx s) = Some full ->
          exists old fs, lists (hp s) !! full = Some old /\ task_fingerprints cf = Some <$> fs /\ keeps fs old polled)
  end.
Proof.
  intros Hg Hc Hr. destruct (run_told _ _ (reload_init_inv pipeline capacity l e c answers Hg) (init_told pipeline capacity l e c answers Hc) Hr) as [Hi (T1 & T2 & T3)].
  assert (forall ph, holds_conf (mgr s) (tasks (mgr s)) (hp s) -> (ph = RELOAD_PHASE_AWAITING_RECLAIM -> forall full, old_tasks (ctx s) = Some full -> renewed full (config (mgr s)) (tasks (mgr s)) (hp s)) ->
    exists polled, lists (hp s) !! tasks (mgr s) = Some polled /\ exists cf es, cfgs (hp s) !! config (mgr s) = Some cf /\ errs (hp s) !! errors (mgr s) = Some es /\
        covers 0 (task_fingerprints cf) polled es /\ (ph = RELOAD_PHASE_AWAITING_RECLAIM -> forall full, old_tasks (ctx s) = Some full ->
          exists old fs, lists (hp s) !! full = Some old /\ task_fingerprints cf = Some <$> fs /\ keeps fs old polled)) as Hconf.
  { intros ph (l1 & cf & es & H1 & H2 & H3 & H4) Hk. exists l1. split; [done|]. exists cf, es. split_and!; try done. intros Hph full Hf.
    destruct (Hk Hph full Hf) as (old & new & cf' & fs & R1 & R2 & R3 & R4 & R5). rewrite H1 in R2. rewrite H2 in R3. injection R2 as <-. injection R3 as <-. by exists old, fs. }
  assert (forall n full, full <> tasks (mgr s) -> chosen n full (tasks (mgr s)) (hp s) -> (forall a, new_config (ctx s) = Some a -> n = Some a) ->
    exists polled, lists (hp s) !! tasks (mgr s) = Some polled /\ exists full old fs, full <> tasks (mgr s) /\ lists (hp s) !! full = Some old /\ polled = survivors fs old /\
        forall n, new_config (ctx s) = Some n -> exists cf, cfgs (hp s) !! n = Some cf /\ task_fingerprints cf = Some <$> fs) as Hsub.
  { intros n full Hne (old & fs & H1 & H2 & H3) Hn. exists (survivors fs old). split; [done|]. exists full, old, fs. split_and!; try done. intros a Ha. apply H3. by apply Hn. }
  pose proof Hi as ([[H (P & Ex & _)]|[[H Hst]|[H Hst]]] & _).
  - rewrite P. by apply Hconf; [apply T1|].
  - specialize (T2 H). unfold request_stage in Hst. unfold told_request in T2. destruct (main_tx_msg s) as [cur| |full| |c0 e0 t0| |]; try done.
    + destruct Hst as (P & _ & Ex & _). rewrite P. by apply Hconf.
    + destruct Hst as (P & n & Ex & (l0 & c0 & _ & (ls & Hne & _) & _)). rewrite P. destruct T2 as [_ T2]. by eapply Hsub.
    + destruct Hst as (P & _). rewrite P. destruct T2 as [T2 T4]. by apply Hconf.
  - specialize (T3 H). unfold report_stage in Hst. unfold told_report in T3. destruct (reload_tx_msg s) as [|sub| |n t e0| | |[full|]]; try done.
    + destruct Hst as (P & _). rewrite P. destruct T3 as [T3 _]. by apply Hconf.
    + destruct Hst as (P & full & Ex & (l0 & ls & lt & _ & Hne & _)). rewrite P. rewrite Ex in T3. destruct (T3 full eq_refl) as (T4 & _). eapply Hsub; [exact Hne|exact T4|by rewrite Ex].
    + destruct Hst as (P & Ex & _). rewrite P. apply Hconf; [done|]. intros _ full. by rewrite Ex.
    + destruct Hst as (P & Ex & (l0 & _ & (ls & Hne & _) & _)). rewrite P. destruct T3 as [_ T3]. eapply Hsub; [exact Hne|exact T3|by rewrite Ex].
    + destruct Hst as (P & _). rewrite P. by apply Hconf.
Qed.

(** C7: no reload gets stuck.  From every state the threads can reach, and
    whatever the configuration file holds when it is read, they can go on,
    without a shutdown, until no reload is under way. *)
Theorem reload_completes parsed pipeline capacity l e c answers s :
  good l -> (forall cf, parsed = Some cf -> unique_fingerprints cf = true) -> rtc step (init pipeline capacity l e c answers) s ->
  exists s', rtc (driven parsed) s s' /\ phase s' = RELOAD_PHASE_IDLE.
Proof.
  intros Hg Hp Hr. destruct (completes parsed Hp s) as (s' & G & _ & P); [by eapply run_inv; [apply reload_init_inv|]|]. by exists s'.
Qed.

(** *** Witnesses *)

Lemma reload_contract_witness :
  exists s polled, exec_all (demo_to_reclaim ++ demo_finish) demo_init = Next s /\ lists (hp s) !! tasks (mgr s) = Some polled /\
    covers 0 [Some "b"; Some "c"] polled [].
Proof.
  assert (covers 0 (task_fingerprints demo_old) demo_tasks []) as Hc by repeat constructor.
  destruct (exec_all (demo_to_reclaim ++ demo_finish) demo_init) as [| |s] eqn:E; [vm_compute in E; discriminate|vm_compute in E; discriminate|].
  assert (rtc step demo_init s) as Hr by (apply (exec_all_run (demo_to_reclaim ++ demo_finish)); [repeat constructor; discriminate|exact E]).
  destruct (reload_contract true 1048576 demo_tasks [] demo_old [] s demo_good Hc Hr) as (polled & Hl & H).
  exists s, polled. split; [reflexivity|]. split; [exact Hl|]. vm_compute in E. injection E as <-. cbn [phase] in H. destruct H as (cf & es & Hcf & Hes & Hcov & _).
  vm_compute in Hcf. vm_compute in Hes. injection Hcf as <-. injection Hes as <-. exact Hcov.
Defined.

Lemma reload_completes_witness :
  exists s s', exec_all demo_to_reclaim demo_init = Next s /\ phase s = RELOAD_PHASE_AWAITING_RECLAIM /\
    rtc (driven (Some demo_old)) s s' /\ phase s' = RELOAD_PHASE_IDLE.
Proof.
  destruct (exec_all demo_to_reclaim demo_init) as [| |s] eqn:E; [vm_compute in E; discriminate|vm_compute in E; discriminate|].
  assert (rtc step demo_init s) as Hr by (apply (exec_all_run demo_to_reclaim); [repeat constructor; discriminate|exact E]).
  assert (forall cf, Some demo_old = Some cf -> unique_fingerprints cf = true) as Hu by (intros cf [= <-]; vm_compute; reflexivity).
  destruct (reload_completes (Some demo_old) true 1048576 demo_tasks [] demo_old [] s demo_good Hu Hr) as (s' & G & P).
  exists s, s'. split; [reflexivity|]. split; [vm_compute in E; injection E as <-; reflexivity|]. split; [exact G|exact P].
Defined.
